(* ===== verification/_CoqProject ===== *)
-Q . S2P
Prelude.v
Arith.v
CString.v
Bitmap.v
Circular.v
Ringbuf.v
Crc32.v
Path.v
Printf.v
Log.v
Bootinfo.v
Block.v
Memory.v
Keyboard.v
Tty.v
Task.v
Console.v
Net.v
Kmem.v
Heap.v
Update.v
Array.v
PageMap.v
Vmm.v
VmmTables.v
VmmSpaces.v
VmmMapping.v
VmmOps.v
VmmRefine.v
VmmInit.v
VmmFrames.v
VmmPages.v
VmmCorrect.v
Vga.v
VgaPixels.v
VgaText.v
VgaFb.v
VgaTerminal.v
VgaMemory.v
VgaConsole.v
Vfs.v
Elf.v
Timer.v
Devfs.v
Acpi.v
AcpiTables.v
AcpiReport.v
AcpiCorrect.v
Rust.v
Usercopy.v
PathPolicy.v
Route.v
