(* ===== verification/Prelude.v ===== *)
(** * Rabbitbone: a verification development

    Rabbitbone is a small x86-64 kernel in C, with a few policies in Rust.  This library models parts of it as
    executable functions and proves what makes them correct.  File and function
    names below are those of the repository under [src/].

    ** The program and its parts

    The loader hands the kernel a boot structure ([core/bootinfo.c]), from whose
    memory map the frame allocator ([arch/x86_64/memory.c]) is initialised; the page
    tables ([mm/vmm.c]) and the heap ([mm/kmem.c]) take frames from it.  The tables
    the firmware left ([drivers/acpi.c]) say which processors and interrupt
    controllers there are.
    Devices bring data in: the keyboard ([drivers/keyboard.c]) under the terminal
    ([core/tty.c]), network cards under the network core ([drivers/net.c]), disks
    under the block layer ([drivers/block.c], [mbr.c], [bootramdisk.c]).  Output
    goes through the formatter ([core/printf.c], [lib/format.c]) to the log
    ([core/log.c]) and the console ([core/console.c]), which writes to the display
    driver ([drivers/vga.c]).  Time comes from
    [core/timer.c].  Files are reached by path ([vfs/path.c], and in Rust the
    policy for paths of processes, [rust/path_policy.rs], and the choice of a mount,
    [rust/vfs_route.rs]); memory of a process is reached within the limits of
    [rust/usercopy.rs]; the device file
    system ([vfs/devfs.c]) exposes console, terminal, log and network as files;
    programs are loaded from files by [exec/elf64.c]; kernel tasks are kept by
    [sched/task.c].  Below all of them lie [lib/string.c], [bitmap.c],
    [ringbuf.c], [crc32.c] and the arithmetic of [types.h] and [math64.h].

    ** Files

    - [Prelude]: results and faults, loops with their invariant rules, machine
      words, byte objects; lemmas and tactics every file uses.
    - [Arith], [CString], [Bitmap], [Crc32]: the library routines of the files
      named above.  [Circular]: queues in arrays; [Ringbuf] is the byte ring.
    - [Path]: [path.c], against a specification that splits, resolves and prints.
    - [Printf]: the formatter with its two sinks, against [format_text];
      [fmt_kinds] says which arguments a format string consumes.
    - [Log]: the log ring.  [klog_call] is a call of [KLOG] as data, which is how
      the components that log report it.
    - [Bootinfo], [Block], [Memory], [Keyboard], [Tty], [Task], [Console], [Net],
      [Elf], [Timer], [Devfs]: the components of the same names.
    - [Heap]: the kernel heap ([mm/kmem]), a list of blocks in pages of the frame
      allocator.  [Kmem] and [Vfs]: the interfaces of the heap and of the file
      systems.
    - [Vmm]: the page tables ([mm/vmm]), the memory of their frames as a map from
      addresses to arrays of entries.  [VmmTables]: trees of tables and what a walk
      finds; [VmmSpaces]: the invariant, making tables and undoing; [VmmMapping] and
      [VmmOps]: each operation; [VmmRefine]: address spaces as maps; [VmmInit]: the
      kernel's map; [VmmFrames]: the frame allocator below; [VmmCorrect]: the theorems.
      [PageMap]: the page tables as drivers see them, which [VmmPages] implements.
    - [Acpi]: platform discovery, over a memory of any content.  [AcpiTables]: what
      valid tables say and that the code finds it; [AcpiReport]: the status report;
      [AcpiCorrect]: the theorems, and a run over the page tables of [Vmm].
    - [Vga]: the display driver, its state in two records: [term], what the
      terminal holds, and [dev], what the display shows.  [VgaPixels]: drawing in
      pixel memory; [VgaText]: the grid, the history and the text display; [VgaFb]:
      the framebuffer; [VgaTerminal]: each operation; [VgaMemory]: allocation,
      resizing and the switch to the framebuffer; [VgaConsole]: the driver as a
      terminal and below the console.  [Update] and [Array]: record update and
      cell arrays.
    - [Rust]: results with an error type and their notation; [Usercopy], [PathPolicy]
      and [Route]: the files [usercopy.rs], [path_policy.rs] and [vfs_route.rs] of [rust/].

    ** How code becomes definitions

    A C function is a function that takes the objects its pointers reach and
    returns their new contents.  Its result type is [res]: [Ret] of a value, or
    [Fault] for an access outside an object, a variadic argument read at the
    wrong type, the kernel's own [PANIC], or a loop that outlives its fuel.  A
    theorem that says a call equals [Ret] of something therefore says that it
    terminates without any of these.  Objects are lists read by [rd] and written
    by [wr]; NULL is [None]; a pointer into a table is an index.  Integers are
    numbers of type [Z], reduced by [wrap] wherever C wraps.  Static variables
    are a record passed through.  [for_n], [loop_n] and [loop_pos] are the loops:
    counted, counted with an exit, and the same with a binary counter for spin
    limits in the millions.

    What a component calls but does not contain is an interface.  [Screen]
    ([vga.c] below the console), [PageMap] (the page tables below [vga.c]
    and [acpi.c], with its promises in [PageMapSpec]), [Terminal]
    (console and process table below [tty.c]), [NetDriver] and [NetReporter] (cards below [net.c]), [Kmem] (the
    heap below its clients), [PageSource] (the frame allocator below the heap) and
    [FileReader] (the file system below the loader), [FrameSource] and [Cpus] (the
    frame allocator and the other processors below the page tables) are classes; each
    has an instance that the witnesses run.  [Heap] implements [Kmem], [Memory]
    implements [PageSource] and, by [VmmFrames], [FrameSource], [VmmPages] implements
    [PageMap] and [PageMapSpec], and [VgaConsole] implements [Screen].  [Devfs] builds the
    terminal's interface from the console model, and so runs device files over
    the models of network, console, keyboard, heap and log together.

    ** What is proved

    - Refinement of data structures: the frame allocator is a table of reference
      counts, the heap is a map of disjoint blocks, page tables are maps of addresses,
      one for each space, the network queue, the byte ring and the keyboard ring are bounded
      queues, a bitmap is a set, the log ring holds the most recent lines, the RAM
      disk is an array of sectors, terminal modes are a map, the display driver is a
      terminal with a history.  Each theorem is
      about every sequence of operations from initialisation on, refusals and
      counters included.
    - Functions on every input: path normalisation and joining, formatting, the
      escape sequences of the console, spawning and running tasks, registering
      network cards, loading a program, memory functions and overflow-free
      arithmetic.  Entry points of tasks may exit and spawn others while they run.
    - Rust policies: a user range is accepted exactly when its bytes are user addresses;
      a path exactly when it keeps the policy; a path is routed to the deepest mount
      above its normal form, the one that [path.c] gives it.
    - Virtual memory: from [vmm_init] on, whatever calls are made, the tables stay
      well-formed, no call faults, a failed one changes nothing, calls on other spaces do
      not change what a user reaches, users reach no address outside their range; the
      kernel's own map is the identity with nothing writable and executable.
    - Platform discovery: for any bytes in memory it returns, reads only what the
      page tables translate, records valid tables only, and describes the platform
      as the tables do; its self test and its report hold on what it recorded.
    - Safety: validation of the boot structure reads nothing outside the identity
      map; the frame allocator starts right if the boot tables do not lie in its own
      tables, which it clears while it still reads them ([tables_kept]); allocations never hand out reserved memory; a loaded image is inside
      user space, never writable and executable, and a failed load leaves the heap
      as it was; no byte sequence derails the console; the log device logs
      printable text only.
    - Time: clocks never run backwards, calibration is exact, sleeping returns
      after the ticks asked for; waiting for a key returns the first that comes.
    - The display: in text mode the text memory and the cursor registers follow the
      terminal, after a switch to the framebuffer every pixel is the right one, and
      text with escape sequences written to the console does to the driver what it
      does to the abstract terminal.
    - Round trips: task snapshots, text typed on a US layout in rounds that fit the
      ring, paths and
      inode numbers of devices.
    - Errors: what [task_dump] and a trailing percent sign do to the formatter; a
      line that a flush of the framebuffer does not draw.

    ** Bounds and fuel

    Scans of a string recurse on the object, so they need no fuel and fault at
    its end.  Loops with a bound in the code use that bound.  Fuel appears where
    the code bounds a loop only implicitly: walks over the heap's list take the
    number of headers; the search for the root pointer takes the size of the range and
    the entries of a firmware table its length, which their theorems show to be enough;
    the kernel's map takes the number of windows, and its theorem
    says which frames are enough for the tables; the formatter takes the length of the
    format string, since each turn consumes a byte; the readers of the keyboard
    take the ring's 64, since each turn removes an event; the chunk loops of the
    device files take the size, since each chunk is not empty; [sleep_loop] takes
    the number of halts, and its theorem says how many are enough.  A blocking
    wait takes the list of future interrupts.

    ** Not modelled

    Locks, other processors and interrupts between the statements of a function:
    a call is atomic.  The mount
    table and the operations it forwards ([vfs/vfs.c]) and the RAM and tar file systems are present as
    interfaces only or not at all; so are the scheduler, processes and system
    calls.  The memory of the firmware's tables
    ([Acpi]) is constant: nothing modelled writes there.  Cached translations are not modelled: the page tables record which
    processors were told to flush, not what their TLBs hold.  [fs/ext4] is five thousand
    lines over a disk format.  Device register protocols ([ahci.c], [ata_pio.c],
    [apic.c], [pci.c], [rabbit_eth.c], [serial.c], [smp.c]), descriptor
    tables and the firmware loader are effects of instructions and hardware
    outside the C semantics used here.  The in-kernel tests and shell, the system
    call dispatcher in Rust, user programs and the installer are not modelled.  Of modelled
    files, left out are the two report printers of [bootinfo.c], [memory_dump_map]
    of [memory.c], [kmem_dump], [vmm_dump] and the self-tests of [ringbuf.c],
    [mm/kmem] and [mm/vmm], which only print or call what is modelled. *)

From Stdlib Require Import ZArith Lia Ascii String.
From stdpp Require Import prelude list_numbers.

Local Open Scope Z_scope.

(** Comparisons only compute on closed numbers. *)
#[global] Arguments Z.eqb !x !y.
#[global] Arguments Z.ltb !x !y.
#[global] Arguments Z.leb !x !y.

(** ** Execution outcomes

    A C function of the kernel either returns or goes wrong.  [Fault] collects
    the ways of going wrong the models track: an access outside an object, a
    variadic argument read at another type than it was passed, the kernel's
    own [PANIC], and a loop that outlives the fuel its model was given. *)

Inductive fault : Type :=
| OutOfBounds
| BadVarArg
| Panic
| Diverged.

Inductive res (A : Type) : Type :=
| Ret (a : A)
| Fault (f : fault).

Arguments Ret {A} a.
Arguments Fault {A} f.

Definition is_ret {A} (m : res A) : bool :=
  match m with Ret _ => true | Fault _ => false end.

#[global] Instance res_ret : MRet res := @Ret.
#[global] Instance res_bind : MBind res := fun A B f m =>
  match m with Ret a => f a | Fault e => Fault e end.
#[global] Instance res_fmap : FMap res := fun A B f m =>
  match m with Ret a => Ret (f a) | Fault e => Fault e end.

(** Reduces the binds whose first computation has returned. *)
Ltac mred := cbn [mbind res_bind mret res_ret fmap res_fmap].

Lemma res_bind_Ret_inv {A B} (m : res A) (f : A → res B) b :
  (m ≫= f) = Ret b → ∃ a, m = Ret a ∧ f a = Ret b.
Proof. destruct m; simpl; [eauto | discriminate]. Qed.

Lemma res_bind_assoc {A B C} (m : res A) (f : A → res B) (g : B → res C) :
  ((m ≫= f) ≫= g) = (m ≫= (λ a, f a ≫= g)).
Proof. by destruct m. Qed.

Lemma res_bind_ext {A B} (m : res A) (f g : A → res B) : (∀ a, f a = g a) → (m ≫= f) = (m ≫= g).
Proof. intros E. destruct m; simpl; [apply E | done]. Qed.

(** The control of a loop body: go on with a new state, or leave the enclosing
    function with a result. *)
Inductive ctl (S R : Type) : Type :=
| Next (s : S)
| Done (r : R).

Arguments Next {S R} s.
Arguments Done {S R} r.

(** [for (i = i0; i < i0 + n; ++i) s = f(i, s)]. *)
Fixpoint for_n {S} (n : nat) (i : Z) (f : Z → S → res S) (s : S) : res S :=
  match n with
  | O => Ret s
  | Datatypes.S n' => s' ← f i s; for_n n' (i + 1) f s'
  end.

(** The same loop with a body that may [return]. *)
Fixpoint loop_n {S R} (n : nat) (i : Z) (f : Z → S → res (ctl S R)) (s : S)
  : res (ctl S R) :=
  match n with
  | O => Ret (Next s)
  | Datatypes.S n' =>
      c ← f i s;
      match c with
      | Next s' => loop_n n' (i + 1) f s'
      | Done r => Ret (Done r)
      end
  end.

Lemma for_n_app {S} n m i (f : Z → S → res S) s :
  for_n (n + m) i f s = (s ← for_n n i f s; for_n m (i + Z.of_nat n) f s).
Proof.
  revert i s. induction n as [|n IH]; intros i s; cbn [Nat.add for_n]; [by rewrite Z.add_0_r |].
  destruct (f i s) as [s'|]; mred; [| done]. rewrite IH. by replace (i + 1 + Z.of_nat n) with (i + Z.of_nat (Datatypes.S n)) by lia.
Qed.

Lemma for_n_shift {S} n i d (f : Z → S → res S) s : for_n n i (λ j, f (d + j)) s = for_n n (d + i) f s.
Proof.
  revert i s. induction n as [|n IH]; intros i s; cbn [for_n]; [done |].
  destruct (f (d + i) s); mred; [| done]. rewrite IH. f_equal. lia.
Qed.

(** Invariant rule of [for_n]: an invariant that every iteration re-establishes
    without fault holds at the exit. *)
Lemma for_n_inv {S} (P : Z → S → Prop) (f : Z → S → res S) n i s :
  P i s →
  (∀ j t, i ≤ j < i + Z.of_nat n → P j t → ∃ t', f j t = Ret t' ∧ P (j + 1) t') →
  ∃ s', for_n n i f s = Ret s' ∧ P (i + Z.of_nat n) s'.
Proof.
  revert i s. induction n as [|n IH]; intros i s Hi Hstep; simpl.
  { exists s. rewrite Z.add_0_r. done. }
  destruct (Hstep i s) as (t & -> & Ht); [lia | done |]. simpl.
  destruct (IH (i + 1) t Ht) as (s' & -> & Hs').
  { intros j u Hj. apply Hstep. lia. }
  exists s'. split; [done |]. by replace (i + Z.of_nat (Datatypes.S n)) with (i + 1 + Z.of_nat n) by lia.
Qed.

(** Invariant rule of [loop_n]: either the loop runs to its end with the
    invariant, or it leaves at some index with the exit condition. *)
Lemma loop_n_inv {S R} (P : Z → S → Prop) (Q : R → Prop) (f : Z → S → res (ctl S R)) n i s :
  P i s →
  (∀ j t, i ≤ j < i + Z.of_nat n → P j t →
     (∃ t', f j t = Ret (Next t') ∧ P (j + 1) t') ∨ (∃ r, f j t = Ret (Done r) ∧ Q r)) →
  (∃ s', loop_n n i f s = Ret (Next s') ∧ P (i + Z.of_nat n) s') ∨
  (∃ r, loop_n n i f s = Ret (Done r) ∧ Q r).
Proof.
  revert i s. induction n as [|n IH]; intros i s Hi Hstep; simpl.
  { left. exists s. rewrite Z.add_0_r. done. }
  destruct (Hstep i s) as [(t & -> & Ht) | (r & -> & Hr)]; [lia | done | |]; simpl; [| by right; eauto].
  destruct (IH (i + 1) t Ht) as [(s' & -> & Hs') | H].
  { intros j u Hj. apply Hstep. lia. }
  - left. exists s'. split; [done |].
    by replace (i + Z.of_nat (Datatypes.S n)) with (i + 1 + Z.of_nat n) by lia.
  - by right.
Qed.

Lemma loop_n_app {S R} n m i (f : Z → S → res (ctl S R)) s :
  loop_n (n + m) i f s =
    (c ← loop_n n i f s; match c with Next s' => loop_n m (i + Z.of_nat n) f s' | Done r => Ret (Done r) end).
Proof.
  revert i s. induction n as [|n IH]; intros i s; cbn [Nat.add loop_n].
  { mred. by rewrite Z.add_0_r. }
  rewrite res_bind_assoc. destruct (f i s) as [[s'|r]|]; mred; [| done..].
  rewrite IH. by replace (i + Z.of_nat (Datatypes.S n)) with (i + 1 + Z.of_nat n) by lia.
Qed.

(** A loop of [p] turns without an index, for bounds too large to count in unary:
    [loop_pos_loop_n] says it is the loop above. *)
Definition and_then {S R} (m : res (ctl S R)) (k : S → res (ctl S R)) : res (ctl S R) :=
  c ← m; match c with Next s => k s | Done r => Ret (Done r) end.

Fixpoint loop_pos {S R} (p : positive) (f : S → res (ctl S R)) (s : S) : res (ctl S R) :=
  match p with
  | xH => f s
  | xO q => and_then (loop_pos q f s) (loop_pos q f)
  | xI q => and_then (f s) (λ s, and_then (loop_pos q f s) (loop_pos q f))
  end.

Lemma loop_n_any_index {S R} n i j (f : S → res (ctl S R)) s : loop_n n i (λ _, f) s = loop_n n j (λ _, f) s.
Proof. revert i j s. induction n as [|n IH]; intros i j s; simpl; [done |]. destruct (f s) as [[]|]; mred; [apply IH | done..]. Qed.

Lemma loop_pos_loop_n {S R} p (f : S → res (ctl S R)) s : loop_pos p f s = loop_n (Pos.to_nat p) 0 (λ _, f) s.
Proof.
  revert s. induction p as [p IH|p IH|]; intros s; cbn [loop_pos].
  - rewrite Pos2Nat.inj_xI. cbn [loop_n]. unfold and_then at 1. destruct (f s) as [[s'|]|]; mred; [| done..].
    replace (2 * Pos.to_nat p)%nat with (Pos.to_nat p + Pos.to_nat p)%nat by lia. rewrite loop_n_app. unfold and_then. rewrite IH, (loop_n_any_index _ 0 (0 + 1)).
    destruct (loop_n _ (0 + 1) _ s') as [[s2|]|]; mred; [| done..]. rewrite IH. apply loop_n_any_index.
  - rewrite Pos2Nat.inj_xO. replace (2 * Pos.to_nat p)%nat with (Pos.to_nat p + Pos.to_nat p)%nat by lia. rewrite loop_n_app. unfold and_then. rewrite IH.
    destruct (loop_n _ 0 _ s) as [[s2|]|]; mred; [| done..]. rewrite IH. apply loop_n_any_index.
  - change (Pos.to_nat 1) with 1%nat. cbn [loop_n]. destruct (f s) as [[]|]; done.
Qed.

Lemma loop_pos_inv {S R} (P : S → Prop) (Q : R → Prop) (f : S → res (ctl S R)) p s :
  P s → (∀ t, P t → (∃ t', f t = Ret (Next t') ∧ P t') ∨ (∃ r, f t = Ret (Done r) ∧ Q r)) →
  (∃ s', loop_pos p f s = Ret (Next s') ∧ P s') ∨ (∃ r, loop_pos p f s = Ret (Done r) ∧ Q r).
Proof. intros Hs Hf. rewrite loop_pos_loop_n. apply (loop_n_inv (λ _, P) Q); auto. Qed.

(** ** Machine integers

    Unsigned integers are [Z] values kept in range by writing the wrap-around
    out where the C arithmetic has one. *)

Definition wrap (w x : Z) : Z := x mod 2 ^ w.
Abbreviation wrap8 := (wrap 8).
Abbreviation wrap16 := (wrap 16).
Abbreviation wrap32 := (wrap 32).
Abbreviation wrap64 := (wrap 64).

Definition U16MAX : Z := 0xffff.
Definition U32MAX : Z := 0xffffffff.
Definition U64MAX : Z := 0xffffffffffffffff.

(** [__builtin_add_overflow] and [__builtin_mul_overflow] on [u64]: [None] when
    the mathematical result does not fit. *)
Definition add_u64 (a b : Z) : option Z :=
  if a + b <=? U64MAX then Some (a + b) else None.
Definition mul_u64 (a b : Z) : option Z :=
  if a * b <=? U64MAX then Some (a * b) else None.

(** [~x] at width [w]. *)
Definition lnot_w (w x : Z) : Z := 2 ^ w - 1 - x.

Definition is_u8 (x : Z) : Prop := 0 ≤ x < 256.
Definition is_u32 (x : Z) : Prop := 0 ≤ x < 2 ^ 32.
Definition is_u64 (x : Z) : Prop := 0 ≤ x < 2 ^ 64.

(** [lia] with the ranges unfolded. *)
Ltac ulia := unfold is_u8, is_u32, is_u64, U16MAX, U32MAX, U64MAX in *; lia.

(** Replaces a comparison by its value. *)
Ltac btrue e := replace e with true by (symmetry; first [apply Z.eqb_eq | apply Z.leb_le | apply Z.ltb_lt]; lia).
Ltac bfalse e := replace e with false by (symmetry; first [apply Z.eqb_neq | apply Z.leb_gt | apply Z.ltb_ge]; lia).

Lemma wrap_small w x : 0 ≤ x < 2 ^ w → wrap w x = x.
Proof. apply Z.mod_small. Qed.

Lemma wrap_range w x : 0 ≤ w → 0 ≤ wrap w x < 2 ^ w.
Proof. intros. apply Z.mod_pos_bound, Z.pow_pos_nonneg; lia. Qed.

Lemma add_u64_Some a b c : add_u64 a b = Some c ↔ a + b ≤ U64MAX ∧ c = a + b.
Proof. unfold add_u64. case_match eqn:E; split; intros; destruct_and?; simplify_eq; first [lia | split; lia | f_equal; lia]. Qed.

Lemma add_u64_None a b : add_u64 a b = None ↔ U64MAX < a + b.
Proof. unfold add_u64. case_match eqn:E; split; intros; destruct_and?; simplify_eq; first [lia | split; lia | f_equal; lia]. Qed.

Lemma mul_u64_Some a b c : mul_u64 a b = Some c ↔ a * b ≤ U64MAX ∧ c = a * b.
Proof. unfold mul_u64. case_match eqn:E; split; intros; destruct_and?; simplify_eq; first [lia | split; lia | f_equal; lia]. Qed.

Lemma lnot_w_range w x : 0 ≤ x < 2 ^ w → 0 ≤ lnot_w w x < 2 ^ w.
Proof. unfold lnot_w. lia. Qed.

Lemma lnot_w_ldiff w x : 0 ≤ x < 2 ^ w → 0 ≤ w → lnot_w w x = Z.ldiff (Z.ones w) x.
Proof.
  intros Hx Hw. unfold lnot_w.
  replace (2 ^ w - 1 - x) with (Z.ones w - x) by (rewrite Z.ones_equiv; lia).
  apply Z.sub_nocarry_ldiff. apply Z.bits_inj'. intros i Hi.
  rewrite Z.ldiff_spec, Z.bits_0.
  destruct (decide (i < w)).
  - rewrite Z.ones_spec_low by lia. apply andb_false_r.
  - rewrite <- (Z.mod_small x (2 ^ w)) by lia.
    rewrite Z.mod_pow2_bits_high by lia. done.
Qed.

Lemma lnot_w_testbit w x i :
  0 ≤ x < 2 ^ w → 0 ≤ w → 0 ≤ i →
  Z.testbit (lnot_w w x) i = (i <? w) && negb (Z.testbit x i).
Proof.
  intros Hx Hw Hi. rewrite lnot_w_ldiff by lia. rewrite Z.ldiff_spec.
  destruct (Z.ltb_spec i w).
  - by rewrite Z.ones_spec_low by lia.
  - by rewrite Z.ones_spec_high by lia.
Qed.

(** A value below [2 ^ w] has no bit at or above [w], and conversely. *)
Lemma testbit_high w x i : 0 ≤ x < 2 ^ w → w ≤ i → Z.testbit x i = false.
Proof.
  intros Hx Hi. destruct (decide (0 ≤ w)).
  - rewrite <- (Z.mod_small x (2 ^ w)) by lia. by apply Z.mod_pow2_bits_high.
  - rewrite Z.pow_neg_r in Hx by lia. lia.
Qed.

Lemma bits_bound w x :
  0 ≤ w → 0 ≤ x → (∀ i, w ≤ i → Z.testbit x i = false) → x < 2 ^ w.
Proof.
  intros Hw Hx Hbits. replace x with (x mod 2 ^ w); [apply Z.mod_pos_bound; lia |].
  apply Z.bits_inj'. intros i Hi. destruct (decide (i < w)).
  - apply Z.mod_pow2_bits_low. lia.
  - rewrite Z.mod_pow2_bits_high by lia. symmetry. apply Hbits. lia.
Qed.

Lemma land_range w x y : 0 ≤ w → 0 ≤ x < 2 ^ w → 0 ≤ y → 0 ≤ Z.land x y < 2 ^ w.
Proof.
  intros Hw Hx Hy. assert (0 ≤ Z.land x y) by (apply Z.land_nonneg; lia). split; [done |].
  apply bits_bound; [done.. |]. intros i Hi. rewrite Z.land_spec.
  by rewrite (testbit_high w x i) by lia.
Qed.

Lemma lor_range w x y : 0 ≤ w → 0 ≤ x < 2 ^ w → 0 ≤ y < 2 ^ w → 0 ≤ Z.lor x y < 2 ^ w.
Proof.
  intros Hw Hx Hy. assert (0 ≤ Z.lor x y) by (apply Z.lor_nonneg; lia). split; [done |].
  apply bits_bound; [done.. |]. intros i Hi. rewrite Z.lor_spec.
  by rewrite (testbit_high w x i), (testbit_high w y i) by lia.
Qed.

Lemma lxor_range w x y : 0 ≤ w → 0 ≤ x < 2 ^ w → 0 ≤ y < 2 ^ w → 0 ≤ Z.lxor x y < 2 ^ w.
Proof.
  intros Hw Hx Hy. assert (0 ≤ Z.lxor x y) by (apply Z.lxor_nonneg; lia). split; [done |].
  apply bits_bound; [done.. |]. intros i Hi. rewrite Z.lxor_spec.
  by rewrite (testbit_high w x i), (testbit_high w y i) by lia.
Qed.

(** ** Objects in memory

    An array of C values is the list of its elements; an access outside it is a
    fault.  A [char *] into an object is the list of the bytes from the pointer
    to the end of the object. *)

Definition zlen {A} (l : list A) : Z := Z.of_nat (length l).
#[global] Arguments zlen : simpl never.

Definition rd {A} (b : list A) (i : Z) : res A :=
  if i <? 0 then Fault OutOfBounds
  else match b !! Z.to_nat i with Some v => Ret v | None => Fault OutOfBounds end.

Definition wr {A} (b : list A) (i : Z) (v : A) : res (list A) :=
  if (0 <=? i) && (i <? zlen b) then Ret (<[Z.to_nat i := v]> b) else Fault OutOfBounds.

(** Bytes [src] written over [dst] from offset [off]: what a block copy leaves. *)
Definition blit {A} (dst : list A) (off : nat) (src : list A) : list A :=
  take off dst ++ src ++ drop (off + length src) dst.

(** The bytes of a string literal, and the object it denotes in C. *)
Definition bytes_of (s : string) : list Z :=
  map (λ a, Z.of_N (N_of_ascii a)) (list_ascii_of_string s).
Definition lit (s : string) : list Z := bytes_of s ++ [0].

(** [cstr_at o s]: the object bytes [o] start with the C string [s]. *)
Definition nonul (s : list Z) : Prop := Forall (λ c, c ≠ 0) s.
Definition cstr_at (o s : list Z) : Prop := nonul s ∧ ∃ rest, o = s ++ 0 :: rest.

Section objects.
Context {A : Type}.
Implicit Types (b src dst : list A) (v : A).

Lemma zlen_nonneg b : 0 ≤ zlen b.
Proof. unfold zlen. lia. Qed.

Lemma zlen_app b src : zlen (b ++ src) = zlen b + zlen src.
Proof. unfold zlen. rewrite length_app. lia. Qed.

Lemma zlen_cons v b : zlen (v :: b) = 1 + zlen b.
Proof. unfold zlen. simpl. lia. Qed.

Lemma zlen_nil : zlen (@nil A) = 0.
Proof. done. Qed.

Lemma zlen_1 v : zlen [v] = 1.
Proof. done. Qed.

Lemma zlen_insert b i v : zlen (<[i := v]> b) = zlen b.
Proof. unfold zlen. by rewrite length_insert. Qed.

Lemma zlen_replicate n v : zlen (replicate n v) = Z.of_nat n.
Proof. unfold zlen. by rewrite length_replicate. Qed.

Lemma rd_Ret b i v : rd b i = Ret v ↔ 0 ≤ i ∧ b !! Z.to_nat i = Some v.
Proof.
  unfold rd. destruct (Z.ltb_spec i 0).
  - split; [discriminate | lia].
  - destruct (b !! Z.to_nat i); split; intros; destruct_and?; simplify_eq; done.
Qed.

Lemma rd_inbounds b i : 0 ≤ i < zlen b → ∃ v, rd b i = Ret v.
Proof.
  intros Hi. destruct (lookup_lt_is_Some_2 b (Z.to_nat i)) as [v Hv].
  { unfold zlen in Hi. lia. }
  exists v. apply rd_Ret. split; [lia | done].
Qed.

Lemma rd_nat b (i : nat) : rd b (Z.of_nat i) = match b !! i with Some v => Ret v | None => Fault OutOfBounds end.
Proof. unfold rd. destruct (Z.ltb_spec (Z.of_nat i) 0); [lia |]. by rewrite Nat2Z.id. Qed.

Lemma rd_cons_0 v b : rd (v :: b) 0 = Ret v.
Proof. done. Qed.

Lemma rd_app_l b src i : 0 ≤ i < zlen b → rd (b ++ src) i = rd b i.
Proof.
  intros Hi. unfold rd. destruct (Z.ltb_spec i 0); [lia |].
  rewrite lookup_app_l; [done |]. unfold zlen in Hi. lia.
Qed.

Lemma rd_app_r b src i : zlen b ≤ i → rd (b ++ src) i = rd src (i - zlen b).
Proof.
  intros Hi. unfold rd, zlen in *.
  destruct (Z.ltb_spec i 0), (Z.ltb_spec (i - Z.of_nat (length b)) 0); try lia.
  rewrite lookup_app_r by lia.
  by replace (Z.to_nat i - length b)%nat with (Z.to_nat (i - Z.of_nat (length b))) by lia.
Qed.

Lemma rd_drop b k i : 0 ≤ i → rd b (Z.of_nat k + i) = rd (drop k b) i.
Proof.
  intros Hi. unfold rd. rewrite lookup_drop.
  destruct (Z.ltb_spec (Z.of_nat k + i) 0), (Z.ltb_spec i 0); try lia.
  by replace (Z.to_nat (Z.of_nat k + i)) with (k + Z.to_nat i)%nat by lia.
Qed.

Lemma wr_inbounds b i v : 0 ≤ i < zlen b → wr b i v = Ret (<[Z.to_nat i := v]> b).
Proof. intros Hi. unfold wr. case_match eqn:E; [done | lia]. Qed.

Lemma wr_Ret b i v b' :
  wr b i v = Ret b' ↔ 0 ≤ i < zlen b ∧ b' = <[Z.to_nat i := v]> b.
Proof.
  unfold wr. case_match eqn:E; split.
  - intros [= <-]. split; [lia | done].
  - by intros [_ ->].
  - discriminate.
  - lia.
Qed.

Lemma wr_zlen b i v b' : wr b i v = Ret b' → zlen b' = zlen b.
Proof. intros [_ ->]%wr_Ret. apply zlen_insert. Qed.

Lemma rd_insert b i j v :
  0 ≤ i < zlen b → rd (<[Z.to_nat i := v]> b) j = if i =? j then Ret v else rd b j.
Proof.
  intros Hi. unfold zlen in Hi. unfold rd. destruct (Z.eqb_spec i j) as [<-|Hne].
  - destruct (Z.ltb_spec i 0); [lia |]. rewrite list_lookup_insert_eq by lia. done.
  - destruct (Z.ltb_spec j 0); [done |]. rewrite list_lookup_insert_ne by lia. done.
Qed.

Lemma wr_app_r b src i v :
  zlen b ≤ i → wr (b ++ src) i v = (src' ← wr src (i - zlen b) v; Ret (b ++ src')).
Proof.
  intros Hi. unfold wr. rewrite zlen_app. pose proof (zlen_nonneg b).
  destruct (decide (i < zlen b + zlen src)).
  - assert ((0 <=? i) && (i <? zlen b + zlen src) = true) as -> by lia.
    assert ((0 <=? i - zlen b) && (i - zlen b <? zlen src) = true) as -> by lia.
    simpl. f_equal. unfold zlen in *. rewrite insert_app_r_alt by lia. do 2 f_equal. lia.
  - assert ((0 <=? i) && (i <? zlen b + zlen src) = false) as -> by lia.
    by assert ((0 <=? i - zlen b) && (i - zlen b <? zlen src) = false) as -> by lia.
Qed.

Lemma wr_middle b src v : src ≠ [] → wr (b ++ src) (zlen b) v = Ret (b ++ v :: drop 1 src).
Proof.
  intros Ht. rewrite wr_app_r by lia. rewrite Z.sub_diag. destruct src as [|x t]; [done |].
  rewrite wr_inbounds by (rewrite zlen_cons; pose proof (zlen_nonneg t); lia). done.
Qed.

Lemma blit_zlen dst off src :
  Z.of_nat off + zlen src ≤ zlen dst → zlen (blit dst off src) = zlen dst.
Proof.
  unfold blit, zlen. rewrite !length_app, length_take, length_drop. lia.
Qed.

Lemma blit_nil dst off : (off ≤ length dst)%nat → blit dst off [] = dst.
Proof. intros. unfold blit. simpl. rewrite Nat.add_0_r. apply take_drop. Qed.

Lemma blit_snoc dst off src v :
  (off + length src < length dst)%nat →
  <[(off + length src)%nat := v]> (blit dst off src) = blit dst off (src ++ [v]).
Proof.
  intros H. unfold blit.
  assert (Hl : length (take off dst) = off) by (rewrite length_take; lia).
  rewrite insert_app_r_alt by lia. rewrite Hl.
  rewrite insert_app_r_alt by lia.
  replace (off + length src - off - length src)%nat with O by lia.
  destruct (drop (off + length src) dst) as [|d ds] eqn:E.
  { apply (f_equal length) in E. rewrite length_drop in E. simpl in E. lia. }
  simpl. rewrite length_app. simpl.
  replace (off + (length src + 1))%nat with (off + length src + 1)%nat by lia.
  rewrite <- drop_drop, E. simpl. by rewrite <- !app_assoc.
Qed.

Lemma blit_ext dst off src l :
  (off + length src ≤ length dst)%nat → length l = length dst →
  (∀ i, l !! i = if decide (off ≤ i < off + length src)%nat then src !! (i - off)%nat else dst !! i) →
  l = blit dst off src.
Proof.
  intros H Hl Hlk. apply list_eq. intros i. rewrite Hlk. unfold blit.
  assert (Ht : length (take off dst) = off) by (rewrite length_take; lia).
  destruct (decide (i < off)%nat) as [Hi|Hi].
  - rewrite lookup_app_l by lia. rewrite lookup_take_lt by done.
    case_decide; [lia | done].
  - rewrite lookup_app_r by lia. rewrite Ht. case_decide as Hd.
    + by rewrite lookup_app_l by lia.
    + rewrite lookup_app_r by lia. rewrite lookup_drop. f_equal. lia.
Qed.

Lemma blit_lookup dst off src i :
  (off + length src ≤ length dst)%nat →
  blit dst off src !! i =
    if decide (off ≤ i < off + length src)%nat then src !! (i - off)%nat else dst !! i.
Proof.
  intros H. unfold blit.
  assert (Hl : length (take off dst) = off) by (rewrite length_take; lia).
  destruct (decide (i < off)%nat) as [Hi|Hi].
  - rewrite lookup_app_l by lia. rewrite lookup_take_lt by done.
    case_decide; [lia | done].
  - rewrite lookup_app_r by lia. rewrite Hl. case_decide as Hd.
    + by rewrite lookup_app_l by lia.
    + rewrite lookup_app_r by lia. rewrite lookup_drop. f_equal. lia.
Qed.

Lemma blit_cons dst off src v :
  (off + S (length src) ≤ length dst)%nat →
  <[off := v]> (blit dst (S off) src) = blit dst off (v :: src).
Proof.
  intros H. assert (Hlen : length (blit dst (S off) src) = length dst).
  { unfold blit. rewrite !length_app, length_take, length_drop. lia. }
  apply blit_ext; simpl; [lia | by rewrite length_insert |].
  intros i. destruct (decide (i = off)) as [->|Hne].
  - rewrite list_lookup_insert_eq by lia. rewrite decide_True by lia. by rewrite Nat.sub_diag.
  - rewrite list_lookup_insert_ne by done. rewrite blit_lookup by lia.
    do 2 case_decide; try lia; [| done].
    by replace (i - off)%nat with (S (i - S off)) by lia.
Qed.

(** Two adjacent writes are one. *)
Lemma blit_app dst off src1 src2 :
  (off + length src1 + length src2 ≤ length dst)%nat →
  blit (blit dst off src1) (off + length src1) src2 = blit dst off (src1 ++ src2).
Proof.
  intros H. assert (Hlen : length (blit dst off src1) = length dst).
  { unfold blit. rewrite !length_app, length_take, length_drop. lia. }
  symmetry. apply blit_ext; [lia | |].
  - rewrite Hlen. unfold blit. rewrite !length_app, length_take, length_drop. lia.
  - intros i. rewrite blit_lookup by (rewrite length_app; lia). rewrite length_app.
    repeat case_decide; try lia.
    + rewrite lookup_app_r by lia. f_equal. lia.
    + rewrite blit_lookup by lia. rewrite decide_True by lia. by rewrite lookup_app_l by lia.
    + rewrite blit_lookup by lia. by rewrite decide_False by lia.
Qed.

End objects.

Create Rewrite HintDb zlen.
#[export] Hint Rewrite @zlen_nil @zlen_app @zlen_cons @zlen_insert @zlen_replicate : zlen.

(** A loop that searches a table for the first entry with an answer. *)
Lemma loop_find {A R} (l : list A) (g : Z → A → option R) (f : Z → unit → res (ctl unit R)) :
  (∀ k x, l !! k = Some x → f (Z.of_nat k) tt = Ret (match g (Z.of_nat k) x with Some r => Done r | None => Next tt end)) →
  (∃ k x r, l !! k = Some x ∧ g (Z.of_nat k) x = Some r ∧ loop_n (length l) 0 f tt = Ret (Done r) ∧
     ∀ j y, (j < k)%nat → l !! j = Some y → g (Z.of_nat j) y = None) ∨
  (loop_n (length l) 0 f tt = Ret (Next tt) ∧ ∀ k x, l !! k = Some x → g (Z.of_nat k) x = None).
Proof.
  intros Hf. destruct (loop_n_inv (λ i (_ : unit), ∀ j y, Z.of_nat j < i → l !! j = Some y → g (Z.of_nat j) y = None)
    (λ r, ∃ k x, l !! k = Some x ∧ g (Z.of_nat k) x = Some r ∧ ∀ j y, (j < k)%nat → l !! j = Some y → g (Z.of_nat j) y = None)
    f (length l) 0 tt) as [([] & E & H)|(r & E & k & x & H1 & H2 & H3)].
  - intros j y Hj. lia.
  - intros i [] Hi H. destruct (lookup_lt_is_Some_2 l (Z.to_nat i)) as [x Hx]; [lia |].
    pose proof (Hf _ _ Hx) as E. rewrite Z2Nat.id in E by lia. rewrite E. destruct (g i x) as [r|] eqn:Eg.
    + right. exists r. split; [done |]. exists (Z.to_nat i), x. rewrite Z2Nat.id by lia. split_and!; [done.. |].
      intros j y Hj Hy. apply H; [lia | done].
    + left. exists tt. split; [done |]. intros j y Hj Hy. destruct (decide (j = Z.to_nat i)) as [->|].
      * rewrite Z2Nat.id by lia. by simplify_eq.
      * apply H; [lia | done].
  - right. split; [done |]. intros k x Hk. apply H; [| done]. apply lookup_lt_Some in Hk. lia.
  - left. exists k, x, r. split_and!; done.
Qed.

(** A loop that fills a table with the entries of [v], from the first on. *)
Lemma for_n_fill {A} (v l0 : list A) (body : Z → list A → res (list A)) :
  length l0 = length v →
  (∀ j l x, v !! j = Some x → length l = length v → drop j l = drop j l0 → body (Z.of_nat j) l = Ret (<[j := x]> l)) →
  for_n (length v) 0 body l0 = Ret v.
Proof.
  intros Hl Hbody.
  destruct (for_n_inv (λ i l, length l = length v ∧ take (Z.to_nat i) l = take (Z.to_nat i) v ∧ drop (Z.to_nat i) l = drop (Z.to_nat i) l0)
    body (length v) 0 l0) as (l & -> & H1 & H2 & _).
  - split_and!; done.
  - intros i l Hi (H1 & H2 & H3). destruct (lookup_lt_is_Some_2 v (Z.to_nat i)) as [x Hx]; [lia |].
    pose proof (Hbody _ l x Hx H1 H3) as E. rewrite Z2Nat.id in E by lia. eexists. split; [exact E |].
    replace (Z.to_nat (i + 1)) with (S (Z.to_nat i)) by lia. rewrite length_insert. split_and!; [done | |].
    + rewrite (take_S_r v _ x Hx), (take_S_r _ _ x).
      * by rewrite take_insert_ge, H2 by lia.
      * apply list_lookup_insert_eq. lia.
    + rewrite drop_insert_lt by lia. by rewrite <- Nat.add_1_r, <- !drop_drop, H3.
  - rewrite !take_ge in H2 by lia. by rewrite H2.
Qed.

(** A loop over the elements of a list. *)
Fixpoint fold_res {A S} (f : A → S → res S) (l : list A) (s : S) : res S :=
  match l with [] => Ret s | x :: l => s ← f x s; fold_res f l s end.

Lemma fold_res_app {A S} (f : A → S → res S) l1 l2 s : fold_res f (l1 ++ l2) s = (s ← fold_res f l1 s; fold_res f l2 s).
Proof. revert s. induction l1 as [|x l1 IH]; intros s; simpl; [done |]. destruct (f x s); simpl; [apply IH | done]. Qed.

Lemma for_n_rd {A S} (f : A → S → res S) (b : list A) n s :
  (n ≤ length b)%nat → for_n n 0 (λ i s, x ← rd b i; f x s) s = fold_res f (take n b) s.
Proof.
  intros Hn. cut (∀ k i s, (i + k ≤ length b)%nat → for_n k (Z.of_nat i) (λ i s, x ← rd b i; f x s) s = fold_res f (take k (drop i b)) s).
  { intros Hgo. specialize (Hgo n O s ltac:(lia)). by rewrite drop_0 in Hgo. }
  clear. induction k as [|k IH]; intros i s Hi; [done |]. cbn [for_n]. rewrite rd_nat.
  destruct (lookup_lt_is_Some_2 b i) as [x Hx]; [lia |]. rewrite Hx. mred. rewrite (drop_S b x i Hx). cbn [take fold_res].
  destruct (f x s); mred; [| done]. replace (Z.of_nat i + 1) with (Z.of_nat (Datatypes.S i)) by lia. apply IH. lia.
Qed.

(** ** Counting

    [count_true g n] is how many of [0 .. n-1] satisfy [g]. *)
Fixpoint count_true (g : Z → bool) (n : nat) : Z :=
  match n with
  | O => 0
  | S k => count_true g k + Z.b2z (g (Z.of_nat k))
  end.

Lemma count_true_range g n : 0 ≤ count_true g n ≤ Z.of_nat n.
Proof. induction n as [|n IH]; simpl; [lia |]. destruct (g (Z.of_nat n)); simpl; lia. Qed.

Lemma count_true_ext g h n :
  (∀ i, 0 ≤ i < Z.of_nat n → g i = h i) → count_true g n = count_true h n.
Proof.
  induction n as [|n IH]; intros H; simpl; [done |].
  rewrite IH by (intros; apply H; lia). by rewrite H by lia.
Qed.

Lemma count_true_app g a b :
  count_true g (a + b) = count_true g a + count_true (λ j, g (Z.of_nat a + j)) b.
Proof.
  induction b as [|b IH]; simpl; [rewrite Nat.add_0_r; lia |].
  rewrite Nat.add_succ_r. simpl. rewrite IH, Nat2Z.inj_add. lia.
Qed.

Lemma count_true_shift g h a n :
  (∀ b, 0 ≤ b < Z.of_nat n → h b = g (Z.of_nat a + b)) →
  count_true g (a + n) = count_true g a + count_true h n.
Proof. intros H. rewrite count_true_app. by rewrite (count_true_ext h _ n H). Qed.

Lemma count_true_negb g n : count_true (λ i, negb (g i)) n + count_true g n = Z.of_nat n.
Proof. induction n as [|n IH]; cbn [count_true]; [done |]. destruct (g (Z.of_nat n)); simpl Z.b2z in *; cbn [negb]; lia. Qed.

Lemma count_true_none g n :
  (∀ i, 0 ≤ i < Z.of_nat n → g i = false) → count_true g n = 0.
Proof.
  induction n as [|n IH]; intros H; simpl; [done |].
  rewrite IH by (intros; apply H; lia). by rewrite H by lia.
Qed.

Lemma count_true_pos g n i : 0 ≤ i < Z.of_nat n → g i = true → 0 < count_true g n.
Proof.
  induction n as [|n IH]; intros Hi Hg; simpl; [lia |].
  pose proof (count_true_range g n). destruct (decide (i = Z.of_nat n)) as [->|].
  - rewrite Hg. simpl. lia.
  - specialize (IH ltac:(lia) Hg). destruct (g (Z.of_nat n)); simpl; lia.
Qed.

(** Changing one argument changes the count by one. *)
Lemma count_true_update g h n i :
  0 ≤ i < Z.of_nat n → (∀ j, 0 ≤ j < Z.of_nat n → j ≠ i → h j = g j) →
  count_true h n = count_true g n - Z.b2z (g i) + Z.b2z (h i).
Proof.
  induction n as [|n IH]; intros Hi H; simpl; [lia |].
  destruct (decide (i = Z.of_nat n)) as [->|].
  - rewrite (count_true_ext h g n) by (intros; apply H; lia). lia.
  - rewrite IH by (lia || (intros; apply H; lia)). rewrite (H (Z.of_nat n)) by lia. lia.
Qed.
