(* ===== verification/Arith.v ===== *)
(** * Arithmetic helpers: [types.h] and [math64.h]

    Power-of-two test, checked alignment, saturating addition and the 128-bit
    multiply-then-divide that the clock code uses. *)

From Stdlib Require Import ZArith Lia.
From stdpp Require Import prelude.
From S2P Require Import Prelude.

Local Open Scope Z_scope.

(** [rabbitbone_is_power_of_two_u64] *)
Definition is_power_of_two_u64 (v : Z) : bool :=
  negb (v =? 0) && (Z.land v (wrap64 (v - 1)) =? 0).

(** [rabbitbone_align_up_u64_checked]; [out] tells whether the out-pointer is
    non-NULL, [None] is [return false]. *)
Definition align_up_u64_checked (v alignment : Z) (out : bool) : option Z :=
  if negb out || negb (is_power_of_two_u64 alignment) then None else
  let addend := wrap64 (alignment - 1) in
  match add_u64 v addend with
  | None => None
  | Some tmp => Some (Z.land tmp (lnot_w 64 addend))
  end.

(** [rabbitbone_align_up_usize_checked] *)
Definition align_up_usize_checked (v alignment : Z) (out : bool) : option Z :=
  if negb out || (alignment =? 0) || negb (Z.land alignment (wrap64 (alignment - 1)) =? 0)
  then None else
  let addend := wrap64 (alignment - 1) in
  match add_u64 v addend with
  | None => None
  | Some tmp => Some (Z.land tmp (lnot_w 64 addend))
  end.

(** The macro [RABBITBONE_ALIGN_DOWN] at 64 bits. *)
Definition ALIGN_DOWN (v a : Z) : Z := Z.land v (lnot_w 64 (a - 1)).

(** [rabbitbone_u64_add_saturating] *)
Definition u64_add_saturating (a b : Z) : Z :=
  match add_u64 a b with None => U64MAX | Some out => out end.

(** The loop of [rabbitbone_u64_mul_div_saturating]; [n] is [bit + 1]. *)
Fixpoint mul_div_loop (n : nat) (hi lo divisor rem q : Z) : Z :=
  match n with
  | O => q
  | S k =>
      let bit := Z.of_nat k in
      let next := if 64 <=? bit then Z.land (Z.shiftr hi (bit - 64)) 1
                  else Z.land (Z.shiftr lo bit) 1 in
      let rem := Z.lor (wrap 128 (Z.shiftl rem 1)) next in
      if divisor <=? rem then
        if 64 <=? bit then U64MAX
        else mul_div_loop k hi lo divisor (rem - divisor) (Z.lor q (Z.shiftl 1 bit))
      else mul_div_loop k hi lo divisor rem q
  end.

(** [rabbitbone_u64_mul_div_saturating] *)
Definition u64_mul_div_saturating (a b divisor : Z) : Z :=
  if divisor =? 0 then U64MAX else
  let product := wrap 128 (a * b) in
  let hi := wrap64 (Z.shiftr product 64) in
  let lo := wrap64 product in
  mul_div_loop 128 hi lo divisor 0 0.

(** ** Bit facts *)

Lemma land_1_testbit x i : 0 ≤ i → Z.land (Z.shiftr x i) 1 = Z.b2z (Z.testbit x i).
Proof.
  intros Hi. change 1 with (Z.ones 1) at 1. rewrite Z.land_ones by lia.
  rewrite Z.shiftr_div_pow2 by lia. change (2 ^ 1) with 2.
  rewrite Zmod_odd, Z.testbit_odd, Z.shiftr_div_pow2 by lia.
  by destruct (Z.odd _).
Qed.

Lemma lor_double_bit r (b : bool) : Z.lor (2 * r) (Z.b2z b) = 2 * r + Z.b2z b.
Proof.
  destruct b; simpl Z.b2z; [| by rewrite Z.lor_0_r, Z.add_0_r].
  rewrite <- Z.add_lor_land.
  assert (Z.land (2 * r) 1 = 0) as ->; [| lia].
  change 1 with (Z.ones 1). rewrite Z.land_ones by lia. change (2 ^ 1) with 2.
  rewrite Z.mul_comm. apply Z.mod_mul. lia.
Qed.

Lemma lor_disjoint_pow2 q k : 0 ≤ k → q mod 2 ^ (k + 1) = 0 → Z.lor q (2 ^ k) = q + 2 ^ k.
Proof.
  intros Hk Hq. rewrite <- Z.add_lor_land.
  assert (Z.land q (2 ^ k) = 0) as ->; [| lia].
  apply Z.bits_inj'. intros i Hi. rewrite Z.land_spec, Z.bits_0.
  rewrite Z.pow2_bits_eqb by lia. destruct (Z.eqb_spec k i) as [->|]; [| apply andb_false_r].
  rewrite andb_true_r.
  rewrite <- (Z.mod_pow2_bits_low q (i + 1) i) by lia. rewrite Hq. apply Z.bits_0.
Qed.

Lemma div_pow2_step P k :
  0 ≤ k → P / 2 ^ k = 2 * (P / 2 ^ (k + 1)) + Z.b2z (Z.testbit P k).
Proof.
  intros Hk. rewrite Z.testbit_spec' by lia.
  rewrite Z.pow_add_r by lia. change (2 ^ 1) with 2.
  rewrite <- Z.div_div by lia. apply Z.div_mod. lia.
Qed.

(** ** Powers of two and alignment *)

Lemma is_power_of_two_u64_spec v :
  is_u64 v → is_power_of_two_u64 v = true ↔ ∃ k, 0 ≤ k < 64 ∧ v = 2 ^ k.
Proof.
  unfold is_u64, is_power_of_two_u64. intros Hv. split.
  - intros [H0%negb_true_iff%Z.eqb_neq H1%Z.eqb_eq]%andb_true_iff.
    assert (Hlog := Z.log2_spec v ltac:(lia)). set (k := Z.log2 v) in *.
    assert (0 ≤ k) by apply Z.log2_nonneg.
    assert (k < 64) by (apply Z.log2_lt_pow2; lia).
    exists k. split; [lia |].
    rewrite wrap_small in H1 by lia.
    destruct (decide (v = 2 ^ k)) as [|Hne]; [done | exfalso].
    assert (Z.testbit (v - 1) k = true).
    { replace k with (Z.log2 (v - 1)); [apply Z.bit_log2; lia |].
      apply Z.log2_unique; [lia |]. change (Z.succ k) with (k + 1) in *. lia. }
    assert (Hb : Z.testbit (Z.land v (v - 1)) k = true).
    { rewrite Z.land_spec. apply andb_true_iff. split; [apply Z.bit_log2; lia | done]. }
    rewrite H1, Z.bits_0 in Hb. done.
  - intros (k & Hk & ->). apply andb_true_iff. split.
    + apply negb_true_iff, Z.eqb_neq. lia.
    + rewrite wrap_small by lia. apply Z.eqb_eq.
      replace (2 ^ k - 1) with (Z.ones k) by (rewrite Z.ones_equiv; lia).
      rewrite Z.land_ones by lia. apply Z.mod_same. lia.
Qed.

Lemma land_align_mask x k :
  is_u64 x → 0 ≤ k < 64 → Z.land x (lnot_w 64 (2 ^ k - 1)) = x / 2 ^ k * 2 ^ k.
Proof.
  unfold is_u64. intros Hx Hk.
  assert (2 ^ k ≤ 2 ^ 63) by (apply Z.pow_le_mono_r; lia).
  rewrite <- Z.shiftr_div_pow2, <- Z.shiftl_mul_pow2 by lia.
  apply Z.bits_inj'. intros i Hi. rewrite Z.land_spec, lnot_w_testbit by lia.
  replace (2 ^ k - 1) with (Z.ones k) by (rewrite Z.ones_equiv; lia).
  rewrite Z.shiftl_spec by lia. destruct (decide (i < k)).
  - rewrite Z.ones_spec_low by lia. rewrite (Z.testbit_neg_r _ (i - k)) by lia.
    by rewrite !andb_false_r.
  - rewrite Z.ones_spec_high, Z.shiftr_spec by lia.
    replace (i - k + k) with i by lia. rewrite andb_true_r.
    destruct (Z.ltb_spec i 64); [apply andb_true_r |].
    by rewrite (testbit_high 64 x i) by lia.
Qed.

Lemma align_up_u64_checked_pow2 v k :
  is_u64 v → 0 ≤ k < 64 →
  align_up_u64_checked v (2 ^ k) true =
    if v + (2 ^ k - 1) <=? U64MAX then Some ((v + (2 ^ k - 1)) / 2 ^ k * 2 ^ k) else None.
Proof.
  intros Hv Hk. assert (2 ^ k ≤ 2 ^ 63) by (apply Z.pow_le_mono_r; lia).
  unfold align_up_u64_checked.
  assert (is_power_of_two_u64 (2 ^ k) = true) as ->.
  { apply is_power_of_two_u64_spec; [unfold is_u64; lia |]. eauto. }
  cbn [negb orb]. unfold is_u64 in Hv.
  rewrite wrap_small by lia. unfold add_u64, U64MAX.
  destruct (Z.leb_spec (v + (2 ^ k - 1)) 18446744073709551615); [| done].
  f_equal. apply land_align_mask; [unfold is_u64 in *; lia | done].
Qed.

Lemma ceil_mult_least v m x :
  0 < m → 0 ≤ v → v ≤ x → x mod m = 0 → (v + (m - 1)) / m * m ≤ x.
Proof.
  intros Hm Hv Hx Hmod. apply Z.div_exact in Hmod; [| lia].
  rewrite Hmod, (Z.mul_comm m). apply Z.mul_le_mono_nonneg_r; [lia |].
  assert ((v + (m - 1)) / m < x / m + 1); [| lia].
  apply Z.div_lt_upper_bound; [lia |]. nia.
Qed.

Lemma ceil_mult_ge v m : 0 < m → v ≤ (v + (m - 1)) / m * m.
Proof.
  intros Hm. pose proof (Z.div_mod (v + (m - 1)) m ltac:(lia)).
  pose proof (Z.mod_pos_bound (v + (m - 1)) m Hm). lia.
Qed.

(** ** Multiply then divide *)

(** A multiple of [2 ^ (k + 1)] below [2 ^ 64] leaves room for bit [k]. *)
Lemma mult_pow2_room q k :
  0 ≤ k < 64 → 0 ≤ q < 2 ^ 64 → q mod 2 ^ (k + 1) = 0 → q + 2 ^ k < 2 ^ 64.
Proof.
  intros Hk Hq Hmod. apply Z.div_exact in Hmod; [| lia].
  set (t := q / 2 ^ (k + 1)) in *. clearbody t.
  assert (E : 2 ^ 64 = 2 ^ (k + 1) * 2 ^ (63 - k)) by (rewrite <- Z.pow_add_r by lia; f_equal; lia).
  rewrite E in *. rewrite Z.pow_add_r in * by lia. change (2 ^ 1) with 2 in *.
  assert (0 < 2 ^ k) by lia. assert (0 < 2 ^ (63 - k)) by lia.
  set (B := 2 ^ k) in *. set (C := 2 ^ (63 - k)) in *. clearbody B C.
  assert (t < C) by nia. nia.
Qed.

Section mul_div.
Context (hi lo d : Z).
Context (Hhi : is_u64 hi) (Hlo : is_u64 lo) (Hd : 0 < d < 2 ^ 64).
Let P := hi * 2 ^ 64 + lo.

Lemma mul_div_next k :
  0 ≤ k →
  (if 64 <=? k then Z.land (Z.shiftr hi (k - 64)) 1 else Z.land (Z.shiftr lo k) 1)
  = Z.b2z (Z.testbit P k).
Proof.
  intros Hk. unfold P, is_u64 in *. destruct (Z.leb_spec 64 k).
  - rewrite land_1_testbit by lia. f_equal.
    replace hi with (Z.shiftr (hi * 2 ^ 64 + lo) 64) at 1.
    + rewrite Z.shiftr_spec by lia. f_equal. lia.
    + rewrite Z.shiftr_div_pow2 by lia. rewrite Z.div_add_l by lia.
      rewrite Z.div_small; lia.
  - rewrite land_1_testbit by lia. f_equal.
    replace lo with ((hi * 2 ^ 64 + lo) mod 2 ^ 64) at 1.
    + apply Z.mod_pow2_bits_low. lia.
    + rewrite Z.add_comm, Z.mod_add by lia. apply Z.mod_small. lia.
Qed.

(** With the high [128 - n] bits of the product divided, the remaining loop
    computes the quotient, or saturates when it does not fit 64 bits. *)
Lemma mul_div_loop_spec n rem q :
  0 ≤ rem < d → 0 ≤ q < 2 ^ 64 → (64 ≤ Z.of_nat n → q = 0) →
  q mod 2 ^ Z.of_nat n = 0 → P / 2 ^ Z.of_nat n = q / 2 ^ Z.of_nat n * d + rem →
  mul_div_loop n hi lo d rem q = if P / d <? 2 ^ 64 then P / d else U64MAX.
Proof.
  revert rem q. induction n as [|k IH]; intros rem q Hrem Hq Hq0 Hmod Hdiv.
  { simpl in Hdiv. rewrite !Z.div_1_r in Hdiv. simpl.
    assert (P / d = q) as ->; [| case_match eqn:E; lia].
    symmetry. apply (Z.div_unique P d q rem); lia. }
  cbn [mul_div_loop]. rewrite mul_div_next by lia.
  assert (0 ≤ P) by (unfold P, is_u64 in *; lia).
  set (bit := Z.of_nat k) in *. replace (Z.of_nat (S k)) with (bit + 1) in * by lia.
  assert (0 ≤ bit) by lia.
  rewrite Z.shiftl_mul_pow2 by lia. change (2 ^ 1) with 2.
  rewrite (wrap_small 128) by lia. rewrite (Z.mul_comm rem 2), lor_double_bit.
  pose proof (div_pow2_step P bit ltac:(lia)) as Hstep. rewrite Hdiv in Hstep.
  assert (0 ≤ Z.b2z (Z.testbit P bit) ≤ 1) by (destruct (Z.testbit P bit); simpl; lia).
  set (b := Z.b2z (Z.testbit P bit)) in *.
  assert (Hq2 : q / 2 ^ bit = 2 * (q / 2 ^ (bit + 1)) ∧ q mod 2 ^ bit = 0).
  { apply Z.div_exact in Hmod; [| lia]. rewrite Z.pow_add_r in * by lia.
    change (2 ^ 1) with 2 in *. set (t := q / (2 ^ bit * 2)) in *.
    assert (Hqt : q = 2 * t * 2 ^ bit) by lia. rewrite Hqt at 1 2.
    split; [apply Z.div_mul; lia | apply Z.mod_mul; lia]. }
  destruct Hq2 as [Hq2 Hmod2]. destruct (Z.leb_spec d (2 * rem + b)).
  - destruct (Z.leb_spec 64 bit).
    + rewrite Hq0 in * by lia. rewrite Z.div_0_l in * by lia.
      destruct (Z.ltb_spec (P / d) (2 ^ 64)) as [Hlt|]; [exfalso | done].
      apply (Z.lt_irrefl P).
      assert (P < d * 2 ^ 64).
      { pose proof (Z.div_mod P d ltac:(lia)). pose proof (Z.mod_pos_bound P d ltac:(lia)). nia. }
      assert (d ≤ P / 2 ^ bit) by lia.
      assert (2 ^ 64 ≤ 2 ^ bit) by (apply Z.pow_le_mono_r; lia).
      pose proof (Z.mul_div_le P (2 ^ bit) ltac:(lia)). nia.
    + rewrite Z.shiftl_1_l, lor_disjoint_pow2 by (try lia; done).
      assert (q + 2 ^ bit < 2 ^ 64).
      { apply mult_pow2_room; [lia | lia | done]. }
      apply IH; [lia | lia | lia | |].
      * rewrite Zplus_mod, Hmod2, Z.mod_same by lia. done.
      * replace (q + 2 ^ bit) with (q + 1 * 2 ^ bit) by lia.
        rewrite Z.div_add by lia. lia.
  - apply IH; [lia | lia | lia | done | lia].
Qed.

End mul_div.

(** [rabbitbone_align_up_u64_checked] succeeds exactly for a power-of-two
    alignment without 64-bit overflow, and then returns the least multiple of
    the alignment that is not below [v]. *)
Theorem align_up_u64_checked_correct v a :
  is_u64 v → is_u64 a →
  match align_up_u64_checked v a true with
  | Some r => (∃ k, 0 ≤ k < 64 ∧ a = 2 ^ k) ∧ v ≤ r ≤ U64MAX ∧ r mod a = 0 ∧
              (∀ x, v ≤ x → x mod a = 0 → r ≤ x)
  | None => (¬ ∃ k, 0 ≤ k < 64 ∧ a = 2 ^ k) ∨ U64MAX < v + (a - 1)
  end.
Proof.
  intros Hv Ha. destruct (is_power_of_two_u64 a) eqn:Hp.
  - apply is_power_of_two_u64_spec in Hp as (k & Hk & ->); [| done].
    rewrite align_up_u64_checked_pow2 by done. unfold is_u64 in *.
    assert (0 < 2 ^ k) by lia.
    destruct (Z.leb_spec (v + (2 ^ k - 1)) U64MAX); [| by right].
    split_and!; [eauto | by apply ceil_mult_ge | | apply Z.mod_mul; lia | ].
    + pose proof (Z.mul_div_le (v + (2 ^ k - 1)) (2 ^ k)). lia.
    + intros x Hx Hm. apply ceil_mult_least; lia || done.
  - unfold align_up_u64_checked. rewrite Hp. simpl. left.
    intros H%is_power_of_two_u64_spec; [congruence | done].
Qed.

Lemma align_up_u64_checked_correct_witness :
  align_up_u64_checked 5000 4096 true = Some 8192 ∧
  (∀ x, 5000 ≤ x → x mod 4096 = 0 → 8192 ≤ x).
Proof.
  split; [reflexivity |].
  pose proof (align_up_u64_checked_correct 5000 4096
    ltac:(unfold is_u64; lia) ltac:(unfold is_u64; lia)) as H.
  change (align_up_u64_checked 5000 4096 true) with (Some 8192) in H.
  apply H.
Defined.

Lemma u64_mul_div_spec a b d :
  is_u64 a → is_u64 b → is_u64 d →
  u64_mul_div_saturating a b d = if d =? 0 then U64MAX else Z.min U64MAX (a * b / d).
Proof.
  unfold is_u64. intros Ha Hb Hd. unfold u64_mul_div_saturating.
  destruct (Z.eqb_spec d 0) as [|Hd0]; [done |].
  assert (0 ≤ a * b < 2 ^ 64 * 2 ^ 64) by nia.
  rewrite (wrap_small 128) by lia. set (p := a * b) in *.
  rewrite Z.shiftr_div_pow2 by lia.
  assert (0 ≤ p / 2 ^ 64 < 2 ^ 64).
  { split; [apply Z.div_pos; lia | apply Z.div_lt_upper_bound; lia]. }
  rewrite (wrap_small 64 (p / _)) by lia.
  assert (Hp : p / 2 ^ 64 * 2 ^ 64 + wrap64 p = p).
  { pose proof (Z.div_mod p (2 ^ 64)). unfold wrap. lia. }
  rewrite (mul_div_loop_spec (p / 2 ^ 64) (wrap64 p) d); rewrite ?Hp.
  - unfold U64MAX. case_match eqn:E; lia.
  - done.
  - apply wrap_range. lia.
  - lia.
  - lia.
  - lia.
  - done.
  - done.
  - change (Z.of_nat 128) with 128. rewrite Z.div_small by lia.
    rewrite Z.div_0_l by lia. lia.
Qed.

(** [rabbitbone_u64_mul_div_saturating a b d] is the 128-bit product divided
    by [d], clamped to the largest [u64]; a zero divisor gives that maximum. *)
Theorem u64_mul_div_saturating_correct a b d :
  is_u64 a → is_u64 b → is_u64 d →
  u64_mul_div_saturating a b d = if d =? 0 then U64MAX else Z.min U64MAX (a * b / d).
Proof. apply u64_mul_div_spec. Qed.

Lemma u64_mul_div_saturating_correct_witness :
  u64_mul_div_saturating 3000000000 1000000000 7 = 428571428571428571.
Proof.
  rewrite u64_mul_div_saturating_correct by (unfold is_u64; lia). reflexivity.
Defined.
