(* ===== verification/CString.v ===== *)
(** * Freestanding C library: [kernel/lib/string.c]

    Every function that takes a pointer takes the object bytes from that pointer
    on ([None] for NULL), and faults when the C code would leave the object.
    Functions that write return the new contents of the destination object.
    [memmove] and the overlapping form of [memcpy] work on one shared memory
    with two offsets, since their point is what happens when the ranges meet. *)

From Stdlib Require Import ZArith Lia Ascii String.
From stdpp Require Import prelude.
From S2P Require Import Prelude.

Local Open Scope Z_scope.

(** ** Memory blocks *)

Definition memset (dst : list Z) (value n : Z) : res (list Z) :=
  for_n (Z.to_nat n) 0 (λ i d, wr d i (wrap8 value)) dst.

(** [memcpy] between two distinct objects. *)
Definition memcpy (dst src : list Z) (n : Z) : res (list Z) :=
  for_n (Z.to_nat n) 0 (λ i d, v ← rd src i; wr d i v) dst.

(** One step of the copy loops inside a single memory [m]. *)
Definition copy_byte (m : list Z) (d s i : Z) : res (list Z) :=
  v ← rd m (s + i); wr m (d + i) v.

(** The ascending loop, used by [memcpy] and by [memmove] when [d < s]. *)
Definition copy_up (m : list Z) (d s n : Z) : res (list Z) :=
  for_n (Z.to_nat n) 0 (λ i m, copy_byte m d s i) m.

(** [for (usize i = n; i > 0; --i) d[i - 1] = s[i - 1];] *)
Fixpoint copy_down (m : list Z) (d s : Z) (n : nat) : res (list Z) :=
  match n with
  | O => Ret m
  | S k => m' ← copy_byte m d s (Z.of_nat (S k) - 1); copy_down m' d s k
  end.

Definition memmove (m : list Z) (d s n : Z) : res (list Z) :=
  if (d =? s) || (n =? 0) then Ret m
  else if d <? s then copy_up m d s n
  else copy_down m d s (Z.to_nat n).

Definition memcmp (a b : list Z) (n : Z) : res Z :=
  c ← loop_n (Z.to_nat n) 0
        (λ i (_ : unit), x ← rd a i; y ← rd b i;
           if negb (x =? y) then Ret (Done (x - y)) else Ret (Next tt)) tt;
  match c with Done r => Ret r | Next _ => Ret 0 end.

Definition bcmp (a b : list Z) (n : Z) : res Z := memcmp a b n.

Definition memzero_explicit (dst : list Z) (len : Z) : res (list Z) :=
  for_n (Z.to_nat len) 0 (λ i d, wr d i 0) dst.

(** ** Strings *)

Fixpoint strlen_from (s : list Z) : res Z :=
  match s with
  | [] => Fault OutOfBounds
  | c :: t => if c =? 0 then Ret 0 else n ← strlen_from t; Ret (n + 1)
  end.

Definition strlen (s : option (list Z)) : res Z :=
  match s with None => Ret 0 | Some s => strlen_from s end.

(** [max] is the number of bytes the loop may still look at. *)
Fixpoint strnlen_from (s : list Z) (max : nat) {struct max} : res Z :=
  match max with
  | O => Ret 0
  | S max' =>
      match s with
      | [] => Fault OutOfBounds
      | c :: t => if c =? 0 then Ret 0 else n ← strnlen_from t max'; Ret (n + 1)
      end
  end.

Definition strnlen (s : option (list Z)) (max : Z) : res Z :=
  match s with None => Ret 0 | Some s => strnlen_from s (Z.to_nat max) end.

Fixpoint strcmp_from (a b : list Z) : res Z :=
  match a, b with
  | x :: a', y :: b' =>
      if negb (x =? 0) && (x =? y) then strcmp_from a' b' else Ret (x - y)
  | _, _ => Fault OutOfBounds
  end.

(** Equal non-NULL pointers return 0 early in C; the scan of one string against
    itself returns the same 0. *)
Definition strcmp (a b : option (list Z)) : res Z :=
  match a, b with
  | None, None => Ret 0
  | None, Some _ => Ret (-1)
  | Some _, None => Ret 1
  | Some a, Some b => strcmp_from a b
  end.

Fixpoint strncmp_from (a b : list Z) (n : nat) {struct n} : res Z :=
  match n with
  | O => Ret 0
  | S n' =>
      match a, b with
      | x :: a', y :: b' =>
          if negb (x =? y) || (x =? 0) || (y =? 0) then Ret (x - y)
          else strncmp_from a' b' n'
      | _, _ => Fault OutOfBounds
      end
  end.

Definition strncmp (a b : option (list Z)) (n : Z) : res Z :=
  if n =? 0 then Ret 0 else
  match a, b with
  | None, None => Ret 0
  | None, Some _ => Ret (-1)
  | Some _, None => Ret 1
  | Some a, Some b => strncmp_from a b (Z.to_nat n)
  end.

Fixpoint strcpy_from (dst src : list Z) (i : Z) : res (list Z) :=
  match src with
  | [] => Fault OutOfBounds
  | c :: t => dst' ← wr dst i c; if c =? 0 then Ret dst' else strcpy_from dst' t (i + 1)
  end.

Definition strcpy (dst src : list Z) : res (list Z) := strcpy_from dst src 0.

(** First loop of [strncpy]: copies up to [n] non-NUL bytes, returns the index
    where it stopped. *)
Fixpoint strncpy_copy (dst src : list Z) (i : Z) (n : nat) {struct n} : res (list Z * Z) :=
  match n with
  | O => Ret (dst, i)
  | S n' =>
      match src with
      | [] => Fault OutOfBounds
      | c :: t =>
          if c =? 0 then Ret (dst, i)
          else dst' ← wr dst i c; strncpy_copy dst' t (i + 1) n'
      end
  end.

Definition strncpy (dst src : list Z) (n : Z) : res (list Z) :=
  '(dst', i) ← strncpy_copy dst src 0 (Z.to_nat n);
  for_n (Z.to_nat (n - i)) i (λ j d, wr d j 0) dst'.

(** Returns the value of the call and the destination object. *)
Definition strlcpy (dst src : option (list Z)) (size : Z)
  : res (Z * option (list Z)) :=
  match src with
  | None =>
      match dst with
      | Some d => if negb (size =? 0) then d' ← wr d 0 0; Ret (0, Some d') else Ret (0, dst)
      | None => Ret (0, dst)
      end
  | Some src' =>
      slen ← strlen src;
      match dst with
      | None => Ret (slen, dst)
      | Some d =>
          if size =? 0 then Ret (slen, dst) else
          let copy := if size <=? slen then size - 1 else slen in
          d' ← (if negb (copy =? 0) then memcpy d src' copy else Ret d);
          d'' ← wr d' copy 0;
          Ret (slen, Some d'')
      end
  end.

Definition strlcat (dst src : option (list Z)) (size : Z)
  : res (Z * option (list Z)) :=
  match src with
  | None => n ← strnlen dst size; Ret (n, dst)
  | Some src' =>
      dlen ← strnlen dst size;
      slen ← strlen src;
      match dst with
      | None => Ret (wrap64 (size + slen), dst)
      | Some d =>
          if size <=? dlen then Ret (wrap64 (size + slen), dst) else
          let room := size - dlen in
          let copy := if room <=? slen then room - 1 else slen in
          (* memcpy(dst + dlen, src, copy) writes through the interior pointer *)
          tail ← (if negb (copy =? 0) then memcpy (drop (Z.to_nat dlen) d) src' copy
                  else Ret (drop (Z.to_nat dlen) d));
          d' ← wr (take (Z.to_nat dlen) d ++ tail) (dlen + copy) 0;
          Ret (wrap64 (dlen + slen), Some d')
      end
  end.

(** The returned pointer is the offset from [s]. *)
Fixpoint strchr_from (s : list Z) (c i : Z) : res (option Z) :=
  match s with
  | [] => Fault OutOfBounds
  | x :: t =>
      if x =? 0 then Ret (if c =? 0 then Some i else None)
      else if x =? wrap8 c then Ret (Some i)
      else strchr_from t c (i + 1)
  end.

Definition strchr (s : option (list Z)) (c : Z) : res (option Z) :=
  match s with None => Ret None | Some s => strchr_from s c 0 end.

Fixpoint strstr_from (p needle : list Z) (nl i : Z) : res (option Z) :=
  match p with
  | [] => Fault OutOfBounds
  | x :: t =>
      if x =? 0 then Ret None else
      r ← strncmp (Some p) (Some needle) nl;
      if r =? 0 then Ret (Some i) else strstr_from t needle nl (i + 1)
  end.

Definition strstr (haystack needle : option (list Z)) : res (option Z) :=
  match haystack, needle with
  | Some h, Some nd =>
      nl ← strlen needle;
      if nl =? 0 then Ret (Some 0) else strstr_from h nd nl 0
  | _, _ => Ret None
  end.

(** ** Numbers *)

Definition digit_value (c : Z) : Z :=
  if (48 <=? c) && (c <=? 57) then c - 48
  else if (97 <=? c) && (c <=? 102) then c - 97 + 10
  else if (65 <=? c) && (c <=? 70) then c - 65 + 10
  else -1.

Definition is_digit_of (base c : Z) : bool :=
  negb (digit_value c <? 0) && (digit_value c <? base).

(** [while ( *p is a blank) ++p;] returns how far [p] moved and what it points to. *)
Fixpoint skip_blanks (p : list Z) : res (Z * list Z) :=
  match p with
  | [] => Fault OutOfBounds
  | c :: t =>
      if (c =? 32) || (c =? 9) || (c =? 10) || (c =? 13)
      then '(n, r) ← skip_blanks t; Ret (n + 1, r)
      else Ret (0, p)
  end.

(** The loop that runs over the remaining digits after an overflow. *)
Fixpoint skip_digits (base : Z) (p : list Z) : res Z :=
  match p with
  | [] => Fault OutOfBounds
  | c :: t =>
      if (0 <=? digit_value c) && (digit_value c <? base)
      then n ← skip_digits base t; Ret (n + 1) else Ret 0
  end.

(** The main digit loop: value, how far [p] moved, and [any || overflow]. *)
Fixpoint str_digits (base : Z) (p : list Z) (value : Z) (any : bool) : res (Z * Z * bool) :=
  match p with
  | [] => Fault OutOfBounds
  | c :: t =>
      let d := digit_value c in
      if (d <? 0) || (base <=? d) then Ret (value, 0, any)
      else if (U64MAX - d) / base <? value
      then n ← skip_digits base t; Ret (U64MAX, n + 1, true)
      else '(v, n, a) ← str_digits base t (wrap64 (value * base + d)) true; Ret (v, n + 1, a)
  end.

(** The prefix that [base == 0] selects: the base, and how far [p] moves. *)
Definition base_prefix (base : Z) (p : list Z) : res (Z * Z) :=
  if negb (base =? 0) then Ret (base, 0) else
  c0 ← rd p 0;
  if c0 =? 48 then
    c1 ← rd p 1;
    if (c1 =? 120) || (c1 =? 88) then Ret (16, 2) else Ret (8, 1)
  else Ret (10, 0).

(** [strtou64(s, &end, base)]: the value and the offset [end - s]. *)
Definition strtou64 (s : option (list Z)) (base : Z) : res (Z * Z) :=
  match s with
  | None => Ret (0, 0)
  | Some s' =>
      if negb (base =? 0) && ((base <? 2) || (16 <? base)) then Ret (0, 0) else
      '(ws, p) ← skip_blanks s';
      '(base', pre) ← base_prefix base p;
      '(value, n, ok) ← str_digits base' (drop (Z.to_nat pre) p) 0 false;
      Ret (value, if ok : bool then ws + pre + n else 0)
  end.

Example strtou64_dec : strtou64 (Some (lit " 1844z")) 10 = Ret (1844, 5).
Proof. reflexivity. Qed.
Example strtou64_hex : strtou64 (Some (lit "0xFf")) 0 = Ret (255, 4).
Proof. reflexivity. Qed.
Example strtou64_saturates : strtou64 (Some (lit "99999999999999999999")) 10 = Ret (U64MAX, 20).
Proof. reflexivity. Qed.

(** ** Block lemmas *)

Lemma for_wr_fill (b : list Z) v off n :
  (off + n ≤ length b)%nat →
  for_n n (Z.of_nat off) (λ i d, wr d i v) b = Ret (blit b off (replicate n v)).
Proof.
  intros Hn.
  destruct (for_n_inv (λ j d, d = blit b off (replicate (Z.to_nat j - off) v))
    (λ i d, wr d i v) n (Z.of_nat off) b) as (d & -> & ->).
  - rewrite Nat2Z.id, Nat.sub_diag. simpl. by rewrite blit_nil by lia.
  - intros j t Hj ->. eexists. split.
    + apply wr_inbounds. rewrite blit_zlen; rewrite ?zlen_replicate; unfold zlen; lia.
    + set (k := (Z.to_nat j - off)%nat).
      replace (Z.to_nat j) with (off + length (replicate k v))%nat
        by (rewrite length_replicate; lia).
      rewrite blit_snoc by (rewrite length_replicate; lia).
      f_equal. rewrite <- replicate_S_end. f_equal. lia.
  - do 3 f_equal. lia.
Qed.

Lemma memset_spec dst value n :
  0 ≤ n ≤ zlen dst →
  memset dst value n = Ret (blit dst 0 (replicate (Z.to_nat n) (wrap8 value))).
Proof. intros Hn. apply (for_wr_fill dst (wrap8 value) 0). unfold zlen in Hn. lia. Qed.

Lemma memzero_explicit_spec dst len :
  0 ≤ len ≤ zlen dst → memzero_explicit dst len = Ret (blit dst 0 (replicate (Z.to_nat len) 0)).
Proof. intros Hn. apply (for_wr_fill dst 0 0). unfold zlen in Hn. lia. Qed.

Lemma memcpy_spec dst src n :
  0 ≤ n ≤ zlen dst → n ≤ zlen src →
  memcpy dst src n = Ret (blit dst 0 (take (Z.to_nat n) src)).
Proof.
  unfold zlen. intros Hd Hs. unfold memcpy.
  destruct (for_n_inv (λ j d, d = blit dst 0 (take (Z.to_nat j) src))
    (λ i d, v ← rd src i; wr d i v) (Z.to_nat n) 0 dst) as (d & -> & ->).
  - change (Z.to_nat 0) with O. rewrite take_0. by rewrite blit_nil by lia.
  - intros j t Hj ->.
    destruct (lookup_lt_is_Some_2 src (Z.to_nat j)) as [v Hv]; [lia |].
    assert (rd src j = Ret v) as -> by (apply rd_Ret; split; [lia | done]). simpl.
    assert (Hlt : length (take (Z.to_nat j) src) = Z.to_nat j) by (rewrite length_take; lia).
    eexists. split.
    + apply wr_inbounds. rewrite blit_zlen; unfold zlen; rewrite ?Hlt; lia.
    + pose proof (blit_snoc dst 0 (take (Z.to_nat j) src) v) as Hb. simpl in Hb.
      rewrite Hlt in Hb. rewrite Hb by lia.
      f_equal. rewrite <- take_S_r by done. f_equal. lia.
  - rewrite Z.add_0_l, Nat2Z.id. done.
Qed.

(** [memcmp] is zero exactly on equal ranges. *)
Lemma memcmp_spec a b n :
  0 ≤ n → n ≤ zlen a → n ≤ zlen b →
  ∃ r, memcmp a b n = Ret r ∧ (r = 0 ↔ take (Z.to_nat n) a = take (Z.to_nat n) b).
Proof.
  unfold zlen. intros Hn Ha Hb. unfold memcmp.
  destruct (loop_n_inv (λ j (_ : unit), take (Z.to_nat j) a = take (Z.to_nat j) b)
    (λ r, r ≠ 0 ∧ take (Z.to_nat n) a ≠ take (Z.to_nat n) b)
    (λ i (_ : unit), x ← rd a i; y ← rd b i; if negb (x =? y) then Ret (Done (x - y)) else Ret (Next tt))
    (Z.to_nat n) 0 tt) as [(s' & -> & H)|(r & -> & H1 & H2)].
  - done.
  - intros j [] Hj Heq. destruct (lookup_lt_is_Some_2 a (Z.to_nat j)) as [x Hx]; [lia |].
    destruct (lookup_lt_is_Some_2 b (Z.to_nat j)) as [y Hy]; [lia |].
    assert (rd a j = Ret x) as -> by (apply rd_Ret; split; [lia | done]).
    assert (rd b j = Ret y) as -> by (apply rd_Ret; split; [lia | done]). mred.
    destruct (Z.eqb_spec x y) as [->|Hne]; cbn [negb].
    + left. exists tt. split; [done |]. replace (Z.to_nat (j + 1)) with (S (Z.to_nat j)) by lia.
      by rewrite (take_S_r _ _ _ Hx), (take_S_r _ _ _ Hy), Heq.
    + right. exists (x - y). split; [done |]. split; [lia |]. intros E.
      apply (f_equal (lookup (Z.to_nat j))) in E. rewrite !lookup_take_lt in E by lia. congruence.
  - exists 0. rewrite Z.add_0_l, Z2Nat.id in H by lia. done.
  - exists r. split; [done |]. split; intros; done.
Qed.

(** ** Overlapping copies *)

Section overlap.
Context (m : list Z) (d s n : nat).
Context (Hd : (d + n ≤ length m)%nat) (Hs : (s + n ≤ length m)%nat).

Lemma length_source k : (k ≤ n)%nat → length (take k (drop s m)) = k.
Proof. intros. rewrite length_take, length_drop. lia. Qed.

(** Ascending order is right when the destination starts at or before the source. *)
Lemma copy_up_spec :
  (d ≤ s)%nat →
  copy_up m (Z.of_nat d) (Z.of_nat s) (Z.of_nat n) = Ret (blit m d (take n (drop s m))).
Proof.
  intros Hds. unfold copy_up. rewrite Nat2Z.id.
  destruct (for_n_inv (λ j t, t = blit m d (take (Z.to_nat j) (drop s m)))
    (λ i t, copy_byte t (Z.of_nat d) (Z.of_nat s) i) n 0 m) as (t & -> & ->).
  - change (Z.to_nat 0) with O. rewrite take_0. by rewrite blit_nil by lia.
  - intros j t Hj ->. set (k := Z.to_nat j). assert (Hk : (k < n)%nat) by lia.
    destruct (lookup_lt_is_Some_2 m (s + k)) as [v Hv]; [lia |].
    unfold copy_byte. pose proof (length_source k ltac:(lia)) as Hlk.
    assert (rd (blit m d (take k (drop s m))) (Z.of_nat s + j) = Ret v) as ->.
    { apply rd_Ret. split; [lia |].
      replace (Z.to_nat (Z.of_nat s + j)) with (s + k)%nat by lia.
      rewrite blit_lookup by lia. rewrite decide_False by lia. done. }
    simpl. eexists. split.
    + apply wr_inbounds. rewrite blit_zlen; unfold zlen; rewrite ?Hlk; lia.
    + replace (Z.to_nat (Z.of_nat d + j)) with (d + length (take k (drop s m)))%nat by lia.
      rewrite blit_snoc by lia. f_equal.
      replace (Z.to_nat (j + 1)) with (S k) by lia.
      rewrite (take_S_r _ k v); [done | by rewrite lookup_drop].
  - by rewrite Z.add_0_l, Nat2Z.id.
Qed.

(** Descending order is right when it starts after the source. *)
Lemma copy_down_spec k :
  (s < d)%nat → (k ≤ n)%nat →
  copy_down (blit m (d + k) (drop k (take n (drop s m)))) (Z.of_nat d) (Z.of_nat s) k
  = Ret (blit m d (take n (drop s m))).
Proof.
  intros Hsd. induction k as [|k IH]; intros Hk.
  { simpl. by rewrite Nat.add_0_r, drop_0. }
  destruct (lookup_lt_is_Some_2 m (s + k)) as [v Hv]; [lia |].
  pose proof (length_source n ltac:(lia)) as Hln.
  assert (Hsrc : drop k (take n (drop s m)) = v :: drop (S k) (take n (drop s m))).
  { apply drop_S. rewrite lookup_take_lt by lia. by rewrite lookup_drop. }
  assert (Hl : length (drop (S k) (take n (drop s m))) = (n - S k)%nat)
    by (rewrite length_drop; lia).
  cbn [copy_down]. unfold copy_byte.
  assert (rd (blit m (d + S k) (drop (S k) (take n (drop s m))))
             (Z.of_nat s + (Z.of_nat (S k) - 1)) = Ret v) as ->.
  { apply rd_Ret. split; [lia |].
    replace (Z.to_nat (Z.of_nat s + (Z.of_nat (S k) - 1))) with (s + k)%nat by lia.
    rewrite blit_lookup by lia. rewrite decide_False by lia. done. }
  simpl mbind. rewrite wr_inbounds by (rewrite blit_zlen; unfold zlen; rewrite ?Hl; lia).
  simpl mbind.
  replace (Z.to_nat (Z.of_nat d + (Z.of_nat (S k) - 1))) with (d + k)%nat by lia.
  replace (d + S k)%nat with (S (d + k)) by lia.
  rewrite blit_cons by lia. rewrite <- Hsrc. apply IH. lia.
Qed.

End overlap.

(** [memmove] leaves the destination range holding the bytes the source range
    held before the call, and every other byte unchanged, however the two
    ranges overlap. *)
Theorem memmove_correct m d s n :
  0 ≤ d → 0 ≤ s → 0 ≤ n → d + n ≤ zlen m → s + n ≤ zlen m →
  memmove m d s n = Ret (blit m (Z.to_nat d) (take (Z.to_nat n) (drop (Z.to_nat s) m))).
Proof.
  unfold zlen. intros Hd Hs Hn Hdn Hsn. unfold memmove.
  destruct (Z.eqb_spec d s) as [->|Hne]; simpl.
  { f_equal. apply blit_ext; rewrite ?length_take, ?length_drop; [lia | done |].
    intros i. case_decide; [| done]. rewrite lookup_take_lt by lia.
    rewrite lookup_drop. f_equal. lia. }
  destruct (Z.eqb_spec n 0) as [->|Hn0].
  { change (Z.to_nat 0) with O. rewrite take_0, blit_nil by lia. done. }
  destruct (Z.ltb_spec d s).
  - pose proof (copy_up_spec m (Z.to_nat d) (Z.to_nat s) (Z.to_nat n)) as H'.
    rewrite !Z2Nat.id in H' by lia. apply H'; lia.
  - pose proof (copy_down_spec m (Z.to_nat d) (Z.to_nat s) (Z.to_nat n)
      ltac:(lia) ltac:(lia) (Z.to_nat n)) as H'.
    rewrite !Z2Nat.id in H' by lia.
    rewrite drop_ge, blit_nil in H' by (rewrite ?length_take, ?length_drop; lia).
    apply H'; lia.
Qed.

Lemma memmove_correct_witness :
  memmove [1; 2; 3; 4; 5; 6] 2 0 4 = Ret [1; 2; 1; 2; 3; 4].
Proof. rewrite memmove_correct by (unfold zlen; simpl; lia). reflexivity. Defined.

(** ** String lemmas *)

Lemma strlen_from_spec o s : cstr_at o s → strlen_from o = Ret (zlen s).
Proof.
  intros [Hs [rest ->]]. induction Hs as [|c s Hc Hs IH]; simpl; [done |].
  destruct (Z.eqb_spec c 0); [done |]. rewrite IH. simpl.
  rewrite zlen_cons. f_equal. lia.
Qed.

Lemma strlen_spec o s : cstr_at o s → strlen (Some o) = Ret (zlen s).
Proof. apply strlen_from_spec. Qed.

Lemma strnlen_from_cstr o s (max : nat) :
  cstr_at o s → strnlen_from o max = Ret (Z.min (Z.of_nat max) (zlen s)).
Proof.
  intros [Hs [rest ->]]. revert max. induction Hs as [|c s Hc Hs IH]; intros [|max]; simpl.
  - done.
  - unfold zlen. by rewrite Z.min_r by (simpl; lia).
  - pose proof (zlen_nonneg (c :: s)). rewrite Z.min_l by lia. done.
  - destruct (Z.eqb_spec c 0); [done |]. rewrite IH. simpl. rewrite zlen_cons. f_equal. lia.
Qed.

Lemma strnlen_spec o s max :
  0 ≤ max → cstr_at o s → strnlen (Some o) max = Ret (Z.min max (zlen s)).
Proof. intros. simpl. rewrite (strnlen_from_cstr o s) by done. by rewrite Z2Nat.id by lia. Qed.

(** A NUL among the first [n] bytes ends a string shorter than [n]. *)
Lemma cstr_found o (n : nat) : 0 ∈ take n o → ∃ s, cstr_at o s ∧ zlen s < Z.of_nat n.
Proof.
  revert n. induction o as [|c o IH]; intros [|n] H; simpl in H; try by apply not_elem_of_nil in H.
  destruct (decide (c = 0)) as [->|Hc].
  { exists []. split; [split; [constructor | by exists o] | rewrite zlen_nil; lia]. }
  apply elem_of_cons in H as [H|H]; [done |]. destruct (IH n H) as (s & [Hs [r ->]] & Hl).
  exists (c :: s). rewrite zlen_cons. split; [split; [by constructor | by exists r] | lia].
Qed.

(** No NUL among the first [max] bytes: the scan stops at [max]. *)
Lemma strnlen_from_full o (max : nat) :
  nonul (take max o) → (max ≤ length o)%nat → strnlen_from o max = Ret (Z.of_nat max).
Proof.
  revert o. induction max as [|max IH]; intros o Hn Hlen; [done |].
  destruct o as [|c o]; simpl in *; [lia |]. inversion Hn as [|? ? Hc Hn']; subst.
  destruct (Z.eqb_spec c 0); [done |]. rewrite (IH o Hn') by lia. simpl. f_equal. lia.
Qed.

Lemma strcmp_from_spec oa ob a b :
  cstr_at oa a → cstr_at ob b → ∃ r, strcmp_from oa ob = Ret r ∧ (r = 0 ↔ a = b).
Proof.
  intros [Ha [ra ->]] [Hb [rb ->]]. revert b Hb.
  induction Ha as [|x a Hx Ha IH]; intros b Hb; destruct Hb as [|y b Hy Hb]; simpl.
  - by exists 0.
  - eexists. split; [done |]. split; [lia | done].
  - destruct (Z.eqb_spec x 0), (Z.eqb_spec x 0); try lia. simpl.
    eexists. split; [done |]. split; [lia | done].
  - destruct (Z.eqb_spec x 0); [lia |]. simpl. destruct (Z.eqb_spec x y) as [->|Hne].
    + destruct (IH b Hb) as (r & -> & Hr). exists r. split; [done |].
      rewrite Hr. split; congruence.
    + eexists. split; [done |]. split; [lia | congruence].
Qed.

(** Comparing with the bound of both objects or more decides equality of the
    prefixes of length [n]. *)
Lemma strncmp_from_prefix oa ob a b (n : nat) :
  cstr_at oa a → cstr_at ob b →
  ∃ r, strncmp_from oa ob n = Ret r ∧ (r = 0 ↔ take n a = take n b).
Proof.
  intros [Ha [ra ->]] [Hb [rb ->]]. revert b Hb n.
  induction Ha as [|x a Hx Ha IH]; intros b Hb [|n]; try (exists 0; simpl; split; [done | by rewrite ?take_0]);
    destruct Hb as [|y b Hy Hb]; simpl.
  - exists 0. done.
  - destruct (Z.eqb_spec 0 y); [lia |]. simpl. eexists. split; [done |]. split; [lia | done].
  - destruct (Z.eqb_spec x 0); [lia |]. simpl. eexists. split; [done |]. split; [lia | done].
  - destruct (Z.eqb_spec x y) as [->|Hne]; simpl.
    + destruct (Z.eqb_spec y 0); [lia |]. simpl. destruct (IH b Hb n) as (r & -> & Hr).
      exists r. split; [done |]. rewrite Hr. split; congruence.
    + eexists. split; [done |]. split; [lia | congruence].
Qed.

Lemma take_cstr (s rest : list Z) n :
  (n ≤ length s)%nat → take n (s ++ 0 :: rest) = take n s.
Proof. intros. by rewrite take_app_le by lia. Qed.

(** What a bounded copy leaves in the destination: as much of [s] as fits, then
    a NUL. *)
Definition bounded_image (dst s : list Z) (size : Z) : list Z :=
  blit dst 0 (take (Z.to_nat (size - 1)) s ++ [0]).

Lemma bounded_copy dst o s copy :
  cstr_at o s → 0 ≤ copy ≤ zlen s → copy < zlen dst →
  (d' ← (if negb (copy =? 0) then memcpy dst o copy else Ret dst); wr d' copy 0)
  = Ret (blit dst 0 (take (Z.to_nat copy) s ++ [0])).
Proof.
  intros [Hs [rest ->]] Hc Hd. unfold zlen in *.
  assert (Hl : length (take (Z.to_nat copy) s) = Z.to_nat copy) by (rewrite length_take; lia).
  assert ((if negb (copy =? 0) then memcpy dst (s ++ 0 :: rest) copy else Ret dst)
    = Ret (blit dst 0 (take (Z.to_nat copy) s))) as ->.
  { destruct (Z.eqb_spec copy 0) as [->|]; simpl negb; cbv iota.
    - change (Z.to_nat 0) with O. rewrite take_0. by rewrite blit_nil by lia.
    - rewrite memcpy_spec by (unfold zlen; rewrite ?length_app; simpl; lia).
      by rewrite take_cstr by lia. }
  simpl mbind. rewrite wr_inbounds by (rewrite blit_zlen; unfold zlen; rewrite ?Hl; lia).
  f_equal. pose proof (blit_snoc dst 0 (take (Z.to_nat copy) s) 0) as H. simpl in H.
  rewrite Hl in H. apply H. lia.
Qed.

Lemma strlcpy_spec dst o s size :
  cstr_at o s → 0 < size ≤ zlen dst →
  strlcpy (Some dst) (Some o) size = Ret (zlen s, Some (bounded_image dst s size)).
Proof.
  intros Ho Hsize. unfold strlcpy. rewrite (strlen_spec o s) by done. simpl mbind.
  destruct (Z.eqb_spec size 0); [lia |]. pose proof (zlen_nonneg s).
  set (copy := if size <=? zlen s then size - 1 else zlen s).
  assert (0 ≤ copy ≤ zlen s ∧ copy < size) by (subst copy; case_match eqn:E; lia).
  rewrite <- res_bind_assoc, (bounded_copy dst o s copy) by (done || lia). simpl mbind.
  unfold bounded_image. do 5 f_equal. subst copy. destruct (Z.leb_spec size (zlen s)); [done |].
  unfold zlen in *. rewrite !take_ge by lia. done.
Qed.

Lemma strlcat_spec dst d0 o s size :
  cstr_at dst d0 → cstr_at o s → zlen d0 < size ≤ zlen dst → zlen d0 + zlen s < 2 ^ 64 →
  strlcat (Some dst) (Some o) size =
    Ret (zlen d0 + zlen s, Some (bounded_image dst (d0 ++ s) size)).
Proof.
  intros Hdst Ho Hsize Hw. unfold strlcat. pose proof (zlen_nonneg d0). pose proof (zlen_nonneg s).
  rewrite (strnlen_spec dst d0) by (done || lia). rewrite Z.min_r by lia. simpl mbind.
  rewrite (strlen_from_spec o s) by done. simpl mbind.
  destruct (Z.leb_spec size (zlen d0)); [lia |].
  set (copy := if size - zlen d0 <=? zlen s then size - zlen d0 - 1 else zlen s).
  assert (Hc : 0 ≤ copy ≤ zlen s ∧ zlen d0 + copy < size) by (subst copy; case_match eqn:E; lia).
  destruct Hdst as [Hd0 [rest ->]].
  replace (drop (Z.to_nat (zlen d0)) (d0 ++ 0 :: rest)) with (0 :: rest)
    by (unfold zlen; by rewrite Nat2Z.id, drop_app_length).
  replace (take (Z.to_nat (zlen d0)) (d0 ++ 0 :: rest)) with d0
    by (unfold zlen; by rewrite Nat2Z.id, take_app_length).
  rewrite zlen_app in Hsize.
  pose proof (bounded_copy (0 :: rest) o s copy Ho ltac:(lia) ltac:(lia)) as Hb.
  apply res_bind_Ret_inv in Hb as (tail & -> & Hw'). simpl mbind.
  rewrite wr_app_r by lia. replace (zlen d0 + copy - zlen d0) with copy by lia.
  rewrite Hw'. simpl mbind. rewrite (wrap_small 64) by lia.
  do 2 f_equal. f_equal. unfold bounded_image, blit. rewrite take_0. simpl.
  assert (take (Z.to_nat (size - 1)) (d0 ++ s) = d0 ++ take (Z.to_nat copy) s) as ->.
  { unfold zlen in *. rewrite take_app. rewrite (take_ge d0) by lia. f_equal. subst copy.
    destruct (Z.leb_spec (size - Z.of_nat (length d0)) (Z.of_nat (length s))).
    - f_equal. lia.
    - rewrite !take_ge by lia. done. }
  rewrite <- !app_assoc. by rewrite (length_app d0), drop_app_add.
Qed.

(** [strlcpy] then [strlcat] into one buffer of [size] bytes never write
    outside it and leave the first [size - 1] bytes of the concatenation,
    terminated; the returned lengths let the caller detect both truncations. *)
Theorem strlcpy_strlcat_correct dst oa a ob b size :
  cstr_at oa a → cstr_at ob b → 0 < size ≤ zlen dst → size + zlen b < 2 ^ 64 →
  ∃ d1, strlcpy (Some dst) (Some oa) size = Ret (zlen a, Some d1) ∧
    strlcat (Some d1) (Some ob) size =
      Ret (Z.min (size - 1) (zlen a) + zlen b, Some (bounded_image d1 (a ++ b) size)).
Proof.
  intros Ha Hb Hsize Hw. rewrite (strlcpy_spec dst oa a) by done. eexists. split; [done |].
  set (x := take (Z.to_nat (size - 1)) a). pose proof (zlen_nonneg a).
  assert (Hx : zlen x = Z.min (size - 1) (zlen a)) by (unfold x, zlen in *; rewrite length_take; lia).
  assert (Hz : zlen (bounded_image dst a size) = zlen dst).
  { apply blit_zlen. fold x. rewrite zlen_app, zlen_1. lia. }
  assert (Hc : cstr_at (bounded_image dst a size) x).
  { unfold bounded_image, blit. rewrite take_0. fold x. cbn [app]. split; [| rewrite <- app_assoc; by eexists].
    apply Forall_take, Ha. }
  rewrite (strlcat_spec _ x ob b) by (done || lia). rewrite Hx. do 3 f_equal.
  unfold bounded_image at 1 3. do 2 f_equal. rewrite !take_app. f_equal.
  - unfold x. rewrite take_take. f_equal. lia.
  - f_equal. unfold zlen in *. lia.
Qed.

Lemma strlcpy_strlcat_correct_witness :
  ∃ d1, strlcpy (Some [9; 9; 9; 9; 9]) (Some (lit "ab")) 5 = Ret (2, Some d1) ∧
    strlcat (Some d1) (Some (lit "cde")) 5 = Ret (5, Some (lit "abcd")).
Proof.
  destruct (strlcpy_strlcat_correct [9; 9; 9; 9; 9] (lit "ab") (bytes_of "ab") (lit "cde") (bytes_of "cde") 5)
    as (d1 & H1 & H2).
  - split; [repeat (constructor; [discriminate |]); constructor | exists []; reflexivity].
  - split; [repeat (constructor; [discriminate |]); constructor | exists []; reflexivity].
  - vm_compute. split; congruence.
  - vm_compute. reflexivity.
  - exists d1. split; [exact H1 |]. rewrite H2. injection H1 as <-. reflexivity.
Defined.

(** ** Numbers *)

(** The value a digit string denotes in [base], starting from [v]. *)
Definition num_value (base v : Z) (ds : list Z) : Z :=
  fold_left (λ acc c, acc * base + digit_value c) ds v.

Lemma digit_value_nonneg base c : is_digit_of base c = true → 0 ≤ digit_value c < base.
Proof. unfold is_digit_of. lia. Qed.

Lemma num_value_mono base v ds :
  2 ≤ base → 0 ≤ v → Forall (λ c, is_digit_of base c = true) ds → v ≤ num_value base v ds.
Proof.
  intros Hb. revert v. induction ds as [|c ds IH]; intros v Hv Hds; [done |].
  inversion Hds as [|? ? Hc Hds']; subst. apply digit_value_nonneg in Hc.
  specialize (IH (v * base + digit_value c) ltac:(nia) Hds').
  change (num_value base v (c :: ds)) with (num_value base (v * base + digit_value c) ds). nia.
Qed.

Section digits.
Context (base : Z) (Hbase : 2 ≤ base ≤ 16).

Lemma skip_digits_spec ds c rest :
  Forall (λ c, is_digit_of base c = true) ds → is_digit_of base c = false →
  skip_digits base (ds ++ c :: rest) = Ret (zlen ds).
Proof.
  intros Hds Hc. induction Hds as [|x ds Hx Hds IH]; simpl.
  - unfold is_digit_of in Hc. destruct ((0 <=? digit_value c) && _) eqn:E; [lia | done].
  - unfold is_digit_of in Hx. destruct ((0 <=? digit_value x) && _) eqn:E; [| lia].
    rewrite IH. simpl. rewrite zlen_cons. f_equal. lia.
Qed.

(** The digit loop computes the value, saturating at [U64MAX]. *)
Lemma str_digits_spec ds c rest v any :
  0 ≤ v ≤ U64MAX →
  Forall (λ c, is_digit_of base c = true) ds → is_digit_of base c = false →
  str_digits base (ds ++ c :: rest) v any =
    Ret (Z.min U64MAX (num_value base v ds), zlen ds, any || negb (zlen ds =? 0)).
Proof.
  intros Hv Hds Hc. revert v any Hv. induction Hds as [|x ds Hx Hds IH]; intros v any Hv; simpl.
  - unfold is_digit_of in Hc. destruct ((digit_value c <? 0) || _) eqn:E; [| lia].
    rewrite orb_false_r. do 3 f_equal. lia.
  - rewrite orb_true_r.
    pose proof (digit_value_nonneg base x Hx) as Hd. unfold is_digit_of in Hx.
    destruct ((digit_value x <? 0) || _) eqn:E; [lia |]. set (d := digit_value x) in *.
    pose proof (num_value_mono base (v * base + d) ds ltac:(lia) ltac:(nia) Hds) as Hmono.
    pose proof (Z.mul_div_le (U64MAX - d) base ltac:(lia)) as Hdiv1.
    pose proof (Z.mul_succ_div_gt (U64MAX - d) base ltac:(lia)) as Hdiv2.
    destruct (Z.ltb_spec ((U64MAX - d) / base) v).
    + rewrite skip_digits_spec by done. simpl. rewrite zlen_cons, Z.min_l by nia. do 3 f_equal. lia.
    + assert (v * base + d ≤ U64MAX) by nia. unfold U64MAX in *.
      rewrite wrap_small by lia. rewrite IH by nia. simpl. rewrite zlen_cons.
      do 3 f_equal. lia.
Qed.

End digits.

Definition is_blank (c : Z) : bool := (c =? 32) || (c =? 9) || (c =? 10) || (c =? 13).

Lemma skip_blanks_spec ws c rest :
  Forall (λ c, is_blank c = true) ws → is_blank c = false →
  skip_blanks (ws ++ c :: rest) = Ret (zlen ws, c :: rest).
Proof.
  intros Hws Hc. unfold is_blank in *. induction Hws as [|x ws Hx Hws IH]; simpl.
  - by rewrite Hc.
  - rewrite Hx, IH. simpl. rewrite zlen_cons. do 2 f_equal. lia.
Qed.

Lemma digit_not_blank base c : is_digit_of base c = true → is_blank c = false.
Proof. unfold is_digit_of, is_blank, digit_value. repeat case_match; lia. Qed.

Lemma strtou64_digits base ws ds c rest :
  2 ≤ base ≤ 16 → Forall (λ c, is_blank c = true) ws →
  Forall (λ c, is_digit_of base c = true) ds → ds ≠ [] → is_digit_of base c = false →
  strtou64 (Some (ws ++ ds ++ c :: rest)) base =
    Ret (Z.min U64MAX (num_value base 0 ds), zlen ws + zlen ds).
Proof.
  intros Hb Hws Hds Hne Hc. unfold strtou64.
  assert (negb (base =? 0) && ((base <? 2) || (16 <? base)) = false) as -> by lia.
  destruct ds as [|d ds]; [done |]. simpl app.
  rewrite skip_blanks_spec; [| done | apply (digit_not_blank base); by inversion Hds].
  mred. unfold base_prefix. assert (negb (base =? 0) = true) as -> by lia. mred.
  change (drop (Z.to_nat 0) (d :: ds ++ c :: rest)) with ((d :: ds) ++ c :: rest).
  rewrite str_digits_spec by (done || unfold U64MAX; lia). mred. cbn [orb].
  rewrite zlen_cons. pose proof (zlen_nonneg ds).
  assert (negb (1 + zlen ds =? 0) = true) as -> by lia. cbv iota. do 2 f_equal. lia.
Qed.

(** In an explicit base, [strtou64] skips leading blanks, reads the longest
    run of digits, and returns its value saturated at the largest [u64] with
    [end] just past the run; with no digit it returns zero and [end] at the
    start of the string. *)
Theorem strtou64_correct base ws ds c rest :
  2 ≤ base ≤ 16 → Forall (λ c, is_blank c = true) ws →
  Forall (λ c, is_digit_of base c = true) ds → is_digit_of base c = false →
  (ds = [] → is_blank c = false) →
  strtou64 (Some (ws ++ ds ++ c :: rest)) base =
    if decide (ds = []) then Ret (0, 0)
    else Ret (Z.min U64MAX (num_value base 0 ds), zlen ws + zlen ds).
Proof.
  intros Hb Hws Hds Hc Hblank. case_decide as E; [| by apply strtou64_digits].
  subst ds. unfold strtou64. simpl app.
  assert (negb (base =? 0) && ((base <? 2) || (16 <? base)) = false) as -> by lia.
  rewrite skip_blanks_spec by auto. mred. unfold base_prefix.
  assert (negb (base =? 0) = true) as -> by lia. mred.
  change (drop (Z.to_nat 0) (c :: rest)) with ([] ++ c :: rest).
  rewrite (str_digits_spec base Hb [] c rest 0 false) by (done || ulia). done.
Qed.

Lemma strtou64_correct_witness :
  strtou64 (Some (lit "  65535;")) 10 = Ret (65535, 7).
Proof.
  change (lit "  65535;") with ([32; 32] ++ bytes_of "65535" ++ 59 :: [0]).
  rewrite strtou64_correct; [reflexivity | lia | repeat constructor | repeat constructor | reflexivity | discriminate].
Defined.

(** ** Blocks inside an object

    A call on [dst + off] works on the rest of the object from [off] on. *)
Definition at_offset (off : Z) (f : list Z → res (list Z)) (dst : list Z) : res (list Z) :=
  if (0 <=? off) && (off <=? zlen dst)
  then d ← f (drop (Z.to_nat off) dst); Ret (take (Z.to_nat off) dst ++ d)
  else Fault OutOfBounds.

Lemma blit_drop (dst src : list Z) off :
  (off ≤ length dst)%nat → take off dst ++ blit (drop off dst) 0 src = blit dst off src.
Proof. intros H. unfold blit. simpl. rewrite drop_drop. done. Qed.

Lemma memcpy_at_spec dst off src n :
  0 ≤ off → 0 ≤ n → off + n ≤ zlen dst → n ≤ zlen src →
  at_offset off (λ d, memcpy d src n) dst = Ret (blit dst (Z.to_nat off) (take (Z.to_nat n) src)).
Proof.
  intros Hoff Hn Hd Hs. unfold at_offset.
  assert ((0 <=? off) && (off <=? zlen dst) = true) as -> by lia.
  rewrite memcpy_spec; [| unfold zlen in *; rewrite length_drop; lia | done]. mred.
  rewrite blit_drop; [done |]. unfold zlen in *. lia.
Qed.

Lemma memset_at_spec dst off v n :
  0 ≤ off → 0 ≤ n → off + n ≤ zlen dst →
  at_offset off (λ d, memset d v n) dst =
    Ret (blit dst (Z.to_nat off) (replicate (Z.to_nat n) (wrap8 v))).
Proof.
  intros Hoff Hn Hd. unfold at_offset.
  assert ((0 <=? off) && (off <=? zlen dst) = true) as -> by lia.
  rewrite memset_spec by (unfold zlen in *; rewrite length_drop; lia). mred.
  rewrite blit_drop; [done |]. unfold zlen in *. lia.
Qed.
