(* ===== verification/Bitmap.v ===== *)
(** * Bitmaps: [kernel/lib/bitmap.c]

    A bitmap is a word array and a bit count.  Its abstract value is the function
    [bit_at] from bit numbers to booleans; every operation is specified on it. *)

From Stdlib Require Import ZArith Lia.
From stdpp Require Import prelude list_numbers.
From S2P Require Import Prelude Arith.

Local Open Scope Z_scope.

Record bitmap_t := mk_bitmap {
  words : option (list Z);
  bit_count : Z;
}.

(** [1ull << b] *)
Definition bit_mask (b : Z) : Z := wrap64 (Z.shiftl 1 b).

Definition word_count_checked (bits : Z) : option Z :=
  if U64MAX - 63 <? bits then None else
  let words := (bits + 63) / 64 in
  if U64MAX / 8 <? words then None else Some words.

(** [memset(storage, 0, words * sizeof(u64))] clears whole words. *)
Definition bitmap_init (storage : option (list Z)) (bits : Z) : res bitmap_t :=
  match storage with
  | None => Ret (mk_bitmap None 0)
  | Some st =>
      if bits =? 0 then Ret (mk_bitmap storage 0) else
      match word_count_checked bits with
      | None => Ret (mk_bitmap None 0)
      | Some n =>
          st' ← for_n (Z.to_nat n) 0 (λ i s, wr s i 0) st;
          Ret (mk_bitmap (Some st') bits)
      end
  end.

Definition bitmap_set (bm : bitmap_t) (bit : Z) : res bitmap_t :=
  match words bm with
  | None => Ret bm
  | Some ws =>
      if bit_count bm <=? bit then Ret bm else
      w ← rd ws (bit / 64);
      ws' ← wr ws (bit / 64) (Z.lor w (bit_mask (bit mod 64)));
      Ret (mk_bitmap (Some ws') (bit_count bm))
  end.

Definition bitmap_clear (bm : bitmap_t) (bit : Z) : res bitmap_t :=
  match words bm with
  | None => Ret bm
  | Some ws =>
      if bit_count bm <=? bit then Ret bm else
      w ← rd ws (bit / 64);
      ws' ← wr ws (bit / 64) (Z.land w (lnot_w 64 (bit_mask (bit mod 64))));
      Ret (mk_bitmap (Some ws') (bit_count bm))
  end.

Definition bitmap_test (bm : bitmap_t) (bit : Z) : res bool :=
  match words bm with
  | None => Ret false
  | Some ws =>
      if bit_count bm <=? bit then Ret false else
      w ← rd ws (bit / 64);
      Ret (negb (Z.land w (bit_mask (bit mod 64)) =? 0))
  end.

(** The body both searches share: the lowest set bit of [w], the word at index
    [i], unless the bit count ends first. *)
Definition scan_word (count i w : Z) : res (ctl unit (option Z)) :=
  loop_n 64 0 (λ b (_ : unit),
    let bit := wrap64 (i * 64 + b) in
    if count <=? bit then Ret (Done None)
    else if negb (Z.land w (bit_mask b) =? 0) then Ret (Done (Some bit))
    else Ret (Next tt)) tt.

(** [Some bit] is [*out = bit; return true]. *)
Definition bitmap_find_first_set (bm : bitmap_t) : res (option Z) :=
  match words bm with
  | None => Ret None
  | Some ws =>
      match word_count_checked (bit_count bm) with
      | None => Ret None
      | Some n =>
          c ← loop_n (Z.to_nat n) 0 (λ i (_ : unit),
                w ← rd ws i;
                if w =? 0 then Ret (Next tt) else scan_word (bit_count bm) i w) tt;
          match c with Done r => Ret r | Next _ => Ret None end
      end
  end.

Definition bitmap_find_first_clear (bm : bitmap_t) : res (option Z) :=
  match words bm with
  | None => Ret None
  | Some ws =>
      match word_count_checked (bit_count bm) with
      | None => Ret None
      | Some n =>
          c ← loop_n (Z.to_nat n) 0 (λ i (_ : unit),
                w0 ← rd ws i;
                let w := lnot_w 64 w0 in
                if w =? 0 then Ret (Next tt) else scan_word (bit_count bm) i w) tt;
          match c with Done r => Ret r | Next _ => Ret None end
      end
  end.

(** [while (w) { w &= w - 1; ++total; }] *)
Fixpoint popcount_loop (fuel : nat) (w total : Z) : res Z :=
  if w =? 0 then Ret total else
  match fuel with
  | O => Fault Diverged
  | S fuel' => popcount_loop fuel' (Z.land w (w - 1)) (wrap64 (total + 1))
  end.

Definition bitmap_count_set (bm : bitmap_t) : res Z :=
  match words bm with
  | None => Ret 0
  | Some ws =>
      match word_count_checked (bit_count bm) with
      | None => Ret 0
      | Some n =>
          for_n (Z.to_nat n) 0 (λ i total,
            w ← rd ws i;
            let w := if (i + 1 =? n) && negb (bit_count bm mod 64 =? 0)
                     then Z.land w (bit_mask (bit_count bm mod 64) - 1) else w in
            popcount_loop 64 w total) 0
      end
  end.

Example bitmap_ex :
  (bm ← bitmap_init (Some [7; 7; 7]) 130; bm ← bitmap_set bm 129; bm ← bitmap_set bm 64;
   a ← bitmap_find_first_set bm; b ← bitmap_find_first_clear bm; c ← bitmap_count_set bm;
   Ret (a, b, c)) = Ret (Some 64, Some 0, 2).
Proof. vm_compute. reflexivity. Qed.

(** ** Words *)

Lemma bit_mask_pow2 b : 0 ≤ b < 64 → bit_mask b = 2 ^ b.
Proof.
  intros Hb. unfold bit_mask. rewrite Z.shiftl_1_l. apply wrap_small.
  split; [lia | apply Z.pow_lt_mono_r; lia].
Qed.

Lemma land_mask_testbit w b : 0 ≤ b < 64 → negb (Z.land w (bit_mask b) =? 0) = Z.testbit w b.
Proof.
  intros Hb. rewrite bit_mask_pow2 by done.
  destruct (Z.testbit w b) eqn:E.
  - apply negb_true_iff, Z.eqb_neq. intros H. apply (f_equal (λ x, Z.testbit x b)) in H.
    rewrite Z.land_spec, Z.bits_0, E, Z.pow2_bits_true in H by lia. done.
  - apply negb_false_iff, Z.eqb_eq. apply Z.bits_inj'. intros i Hi.
    rewrite Z.land_spec, Z.bits_0, Z.pow2_bits_eqb by lia.
    destruct (Z.eqb_spec b i) as [<-|]; [by rewrite E | apply andb_false_r].
Qed.

Lemma word_zero_bits w : is_u64 w → (∀ b, 0 ≤ b < 64 → Z.testbit w b = false) → w = 0.
Proof.
  intros Hw H. apply Z.bits_inj'. intros i Hi. rewrite Z.bits_0.
  destruct (decide (i < 64)); [apply H; lia | apply (testbit_high 64); [done | lia]].
Qed.

(** A positive number is an odd number shifted by the position of its lowest bit. *)
Lemma lowest_bit w : 0 < w → ∃ k t, 0 ≤ k ∧ 0 ≤ t ∧ w = 2 ^ k * (2 * t + 1).
Proof.
  destruct w as [|p|p]; [lia | | lia]. intros _.
  induction p as [p IH|p IH|].
  - exists 0, (Zpos p). lia.
  - destruct IH as (k & t & Hk & Ht & E). exists (k + 1), t.
    split_and!; [lia | lia |]. rewrite Z.pow_add_r by lia. change (2 ^ 1) with 2. lia.
  - exists 0, 0. lia.
Qed.

Lemma land_pred_testbit k t i :
  0 ≤ k → 0 ≤ t → 0 ≤ i →
  let w := 2 ^ k * (2 * t + 1) in
  Z.testbit (Z.land w (w - 1)) i = Z.testbit w i && negb (i =? k).
Proof.
  intros Hk Ht Hi w. rewrite Z.land_spec.
  assert (Hw : w = (2 * t + 1) * 2 ^ k) by (subst w; lia).
  destruct (decide (i < k)).
  - rewrite Hw at 1 3. by rewrite !Z.mul_pow2_bits_low by lia.
  - assert (Hb : Z.testbit w i = Z.testbit (2 * t + 1) (i - k)).
    { rewrite Hw. by rewrite Z.mul_pow2_bits by lia. }
    assert (Hp : Z.testbit (w - 1) i = Z.testbit (2 * t) (i - k)).
    { replace (w - 1) with ((2 * t) * 2 ^ k + Z.ones k) by (rewrite Z.ones_equiv; lia).
      replace i with ((i - k) + k) at 1 by lia.
      rewrite <- Z.shiftr_spec by lia. rewrite Z.shiftr_div_pow2 by lia.
      rewrite Z.div_add_l by lia. rewrite (Z.div_small (Z.ones k)), Z.add_0_r; [done |].
      rewrite Z.ones_equiv. lia. }
    rewrite Hb, Hp. destruct (Z.eqb_spec i k) as [->|].
    + rewrite Z.sub_diag. rewrite Z.testbit_even_0. by rewrite !andb_false_r.
    + replace (i - k) with (Z.succ (i - k - 1)) by lia.
      rewrite Z.testbit_odd_succ, Z.testbit_even_succ by lia. by destruct (Z.testbit t _).
Qed.

Definition ones (w : Z) : Z := count_true (Z.testbit w) 64.

Lemma ones_range w : 0 ≤ ones w ≤ 64.
Proof. apply (count_true_range (Z.testbit w) 64). Qed.

Lemma ones_0 : ones 0 = 0.
Proof. apply count_true_none. intros. apply Z.bits_0. Qed.

Lemma ones_pos w : is_u64 w → w ≠ 0 → 0 < ones w.
Proof.
  unfold is_u64. intros Hw Hne. apply (count_true_pos (Z.testbit w) 64 (Z.log2 w)).
  - split; [apply Z.log2_nonneg | apply Z.log2_lt_pow2; lia].
  - apply Z.bit_log2. lia.
Qed.

Lemma ones_clear_lowest w : is_u64 w → w ≠ 0 → ones (Z.land w (w - 1)) = ones w - 1.
Proof.
  intros Hw Hne. destruct (lowest_bit w) as (k & t & Hk & Ht & E); [unfold is_u64 in Hw; lia |].
  assert (Hbits : ∀ i, 0 ≤ i → Z.testbit (Z.land w (w - 1)) i = Z.testbit w i && negb (i =? k)).
  { intros i Hi. rewrite E. by apply land_pred_testbit. }
  assert (Hkbit : Z.testbit w k = true).
  { rewrite E, Z.mul_comm. rewrite Z.mul_pow2_bits by lia.
    rewrite Z.sub_diag. apply Z.testbit_odd_0. }
  assert (Hk64 : k < 64).
  { destruct (decide (k < 64)); [done |].
    rewrite (testbit_high 64 w k) in Hkbit by (done || lia). done. }
  unfold ones. rewrite (count_true_update (Z.testbit w) (Z.testbit (Z.land w (w - 1))) 64 k).
  - rewrite Hbits, Hkbit, Z.eqb_refl by lia. cbn [andb negb Z.b2z]. lia.
  - lia.
  - intros j Hj Hjk. rewrite Hbits by lia. destruct (Z.eqb_spec j k); [lia |].
    apply andb_true_r.
Qed.

Lemma ones_count g w k :
  (∀ b, 0 ≤ b < 64 → Z.testbit w b = g (64 * k + b)) → 0 ≤ k →
  count_true g (Z.to_nat (64 * (k + 1))) = count_true g (Z.to_nat (64 * k)) + ones w.
Proof.
  intros Hb Hk. replace (Z.to_nat (64 * (k + 1))) with (Z.to_nat (64 * k) + 64)%nat by lia.
  apply count_true_shift. intros b H. rewrite Z2Nat.id by lia. apply Hb. lia.
Qed.

#[local] Opaque ones.

Lemma popcount_loop_spec fuel w total :
  is_u64 w → ones w ≤ Z.of_nat fuel → 0 ≤ total → total + ones w < 2 ^ 64 →
  popcount_loop fuel w total = Ret (total + ones w).
Proof.
  revert w total. induction fuel as [|fuel IH]; intros w total Hw Hf Ht Hlt; simpl;
    (destruct (Z.eqb_spec w 0) as [->|Hne]; [rewrite ones_0; f_equal; lia |]);
    pose proof (ones_pos w Hw Hne); [lia |].
  pose proof (ones_clear_lowest w Hw Hne) as Hones.
  assert (is_u64 (Z.land w (w - 1))) by (unfold is_u64 in *; apply land_range; lia).
  rewrite wrap_small by lia. rewrite IH by (assumption || lia). f_equal. lia.
Qed.

(** ** The abstract value *)

Definition word_at (ws : list Z) (i : Z) : Z := default 0 (ws !! Z.to_nat i).

Definition bit_at (bm : bitmap_t) (i : Z) : bool :=
  match words bm with
  | None => false
  | Some ws => (i <? bit_count bm) && Z.testbit (word_at ws (i / 64)) (i mod 64)
  end.

(** The storage covers the bit count, as [bitmap_init] is called. *)
Definition bitmap_ok (bm : bitmap_t) : Prop :=
  ∃ ws, words bm = Some ws ∧ Forall is_u64 ws ∧
        0 ≤ bit_count bm ≤ 64 * zlen ws ∧ bit_count bm ≤ U64MAX - 63.

Lemma word_count_ok bits :
  0 ≤ bits ≤ U64MAX - 63 → word_count_checked bits = Some ((bits + 63) / 64).
Proof.
  unfold U64MAX. intros H. unfold word_count_checked, U64MAX.
  destruct (Z.ltb_spec (18446744073709551615 - 63) bits); [lia |].
  destruct (Z.ltb_spec (18446744073709551615 / 8) ((bits + 63) / 64)) as [Hlt|]; [| done].
  exfalso. assert ((bits + 63) / 64 ≤ (2 ^ 64) / 64) by (apply Z.div_le_mono; lia).
  change (2 ^ 64 / 64) with 288230376151711744 in *.
  change (18446744073709551615 / 8) with 2305843009213693951 in *. lia.
Qed.

Lemma rd_word ws i :
  Forall is_u64 ws → 0 ≤ i < zlen ws → rd ws i = Ret (word_at ws i) ∧ is_u64 (word_at ws i).
Proof.
  intros Hws Hi. destruct (rd_inbounds ws i Hi) as [w Hw]. pose proof Hw as [_ Hl]%rd_Ret.
  unfold word_at. rewrite Hw, Hl. split; [done |]. simpl.
  by eapply Forall_lookup_1 in Hl.
Qed.

Section with_ws.
Context (ws : list Z) (count : Z).
Context (Hws : Forall is_u64 ws) (Hlen : 0 ≤ count ≤ 64 * zlen ws).
Let bm := mk_bitmap (Some ws) count.

Lemma word_index i : 0 ≤ i < count → 0 ≤ i / 64 < zlen ws ∧ 0 ≤ i mod 64 < 64.
Proof.
  intros Hi. split; [| apply Z.mod_pos_bound; lia]. split; [apply Z.div_pos; lia |].
  apply Z.div_lt_upper_bound; lia.
Qed.

Lemma bitmap_test_ws i : 0 ≤ i → bitmap_test bm i = Ret (bit_at bm i).
Proof.
  intros Hi. unfold bitmap_test, bit_at. simpl. destruct (Z.leb_spec count i).
  - assert ((i <? count) = false) as -> by lia. done.
  - destruct (word_index i) as [H1 H2]; [lia |].
    destruct (rd_word ws (i / 64)) as [-> _]; [done.. |]. mred.
    rewrite land_mask_testbit by done. assert ((i <? count) = true) as -> by lia. done.
Qed.

(** Replacing the word that holds bit [i] by one that differs in that bit only. *)
Lemma bit_at_update i w' (v : bool) :
  0 ≤ i < count →
  (∀ b, 0 ≤ b < 64 → Z.testbit w' b = if b =? i mod 64 then v else Z.testbit (word_at ws (i / 64)) b) →
  ∀ j, 0 ≤ j → bit_at (mk_bitmap (Some (<[Z.to_nat (i / 64) := w']> ws)) count) j =
         if j =? i then v else bit_at bm j.
Proof.
  intros Hi Hb j Hj. unfold bit_at. simpl. destruct (word_index i Hi) as [H1 H2].
  unfold word_at. destruct (decide (j / 64 = i / 64)) as [Hq|Hq].
  - rewrite Hq. rewrite list_lookup_insert_eq by (unfold zlen in H1; lia). simpl.
    rewrite Hb by (apply Z.mod_pos_bound; lia). fold (word_at ws (i / 64)).
    destruct (Z.eqb_spec j i) as [->|Hne].
    + rewrite Z.eqb_refl. assert ((i <? count) = true) as -> by lia. done.
    + destruct (Z.eqb_spec (j mod 64) (i mod 64)) as [Hm|]; [| done].
      exfalso. apply Hne. rewrite (Z.div_mod j 64), (Z.div_mod i 64) by lia. lia.
  - rewrite list_lookup_insert_ne.
    + destruct (Z.eqb_spec j i); [congruence | done].
    + assert (0 ≤ j / 64) by (apply Z.div_pos; lia). lia.
Qed.

Lemma bitmap_ok_insert i w' :
  count ≤ U64MAX - 63 → is_u64 w' →
  bitmap_ok (mk_bitmap (Some (<[i := w']> ws)) count).
Proof.
  intros Hc Hw'. eexists. split; [done |]. simpl. rewrite zlen_insert.
  split_and!; [by apply Forall_insert | lia.. | done].
Qed.

End with_ws.

Lemma bitmap_test_spec bm i : bitmap_ok bm → 0 ≤ i → bitmap_test bm i = Ret (bit_at bm i).
Proof.
  intros (ws & Hw & Hws & Hlen & Hc) Hi. destruct bm as [wo c]; simpl in *; subst wo.
  by apply bitmap_test_ws.
Qed.

(** Setting and clearing touch the one bit, if it is below the bit count. *)
Lemma bitmap_set_spec bm i :
  bitmap_ok bm → 0 ≤ i →
  ∃ bm', bitmap_set bm i = Ret bm' ∧ bitmap_ok bm' ∧ bit_count bm' = bit_count bm ∧
    ∀ j, 0 ≤ j → bit_at bm' j = if j =? i then i <? bit_count bm else bit_at bm j.
Proof.
  intros Hok Hi. pose proof Hok as (ws & Hw & Hws & Hlen & Hc).
  destruct bm as [wo c]; simpl in *; subst wo. unfold bitmap_set. simpl.
  destruct (Z.leb_spec c i).
  { eexists. split_and!; [done.. |]. intros j Hj. destruct (Z.eqb_spec j i) as [->|]; [| done].
    unfold bit_at. simpl. by destruct (Z.ltb_spec i c); [lia |]. }
  destruct (word_index ws c Hlen i) as [H1 H2]; [lia |].
  destruct (rd_word ws (i / 64)) as [-> Hu]; [done.. |]. mred.
  rewrite wr_inbounds by done. mred. rewrite bit_mask_pow2 by done.
  assert (Hu' : is_u64 (Z.lor (word_at ws (i / 64)) (2 ^ (i mod 64)))).
  { unfold is_u64 in *. apply lor_range; [lia.. |].
    split; [lia | apply Z.pow_lt_mono_r; lia]. }
  eexists. split; [done |]. split; [by apply bitmap_ok_insert |]. split; [done |].
  intros j Hj. destruct (Z.ltb_spec i c); [| lia].
  apply bit_at_update; [done.. | lia | | done].
  intros b Hb. rewrite Z.lor_spec, Z.pow2_bits_eqb by lia.
  rewrite (Z.eqb_sym (i mod 64)). destruct (Z.eqb_spec b (i mod 64)); [apply orb_true_r | apply orb_false_r].
Qed.

Lemma bitmap_clear_spec bm i :
  bitmap_ok bm → 0 ≤ i →
  ∃ bm', bitmap_clear bm i = Ret bm' ∧ bitmap_ok bm' ∧ bit_count bm' = bit_count bm ∧
    ∀ j, 0 ≤ j → bit_at bm' j = if j =? i then false else bit_at bm j.
Proof.
  intros Hok Hi. pose proof Hok as (ws & Hw & Hws & Hlen & Hc).
  destruct bm as [wo c]; simpl in *; subst wo. unfold bitmap_clear. simpl.
  destruct (Z.leb_spec c i).
  { eexists. split_and!; [done.. |]. intros j Hj. destruct (Z.eqb_spec j i) as [->|]; [| done].
    unfold bit_at. simpl. by destruct (Z.ltb_spec i c); [lia |]. }
  destruct (word_index ws c Hlen i) as [H1 H2]; [lia |].
  destruct (rd_word ws (i / 64)) as [-> Hu]; [done.. |]. mred.
  rewrite wr_inbounds by done. mred. rewrite bit_mask_pow2 by done.
  assert (Hp : 0 ≤ 2 ^ (i mod 64) < 2 ^ 64).
  { split; [lia | apply Z.pow_lt_mono_r; lia]. }
  pose proof (lnot_w_range 64 _ Hp) as Hn.
  assert (Hu' : is_u64 (Z.land (word_at ws (i / 64)) (lnot_w 64 (2 ^ (i mod 64))))).
  { unfold is_u64 in *. apply land_range; lia. }
  eexists. split; [done |]. split; [by apply bitmap_ok_insert |]. split; [done |].
  intros j Hj. apply bit_at_update; [done.. | lia | | done].
  intros b Hb. rewrite Z.land_spec, lnot_w_testbit, Z.pow2_bits_eqb by lia.
  rewrite (Z.eqb_sym (i mod 64)). destruct (Z.ltb_spec b 64); [| lia].
  destruct (Z.eqb_spec b (i mod 64)); [apply andb_false_r | apply andb_true_r].
Qed.

Lemma bitmap_init_spec st bits :
  Forall is_u64 st → 0 < bits ≤ 64 * zlen st → bits ≤ U64MAX - 63 →
  ∃ bm, bitmap_init (Some st) bits = Ret bm ∧ bitmap_ok bm ∧ bit_count bm = bits ∧
    (∀ ws, words bm = Some ws → zlen ws = zlen st) ∧ ∀ i, 0 ≤ i → bit_at bm i = false.
Proof.
  intros Hst Hbits Hmax. unfold bitmap_init. destruct (Z.eqb_spec bits 0) as [|Hnz]; [lia |].
  rewrite word_count_ok by lia. set (n := (bits + 63) / 64).
  assert (Hn : 0 ≤ n ≤ zlen st).
  { subst n. split; [apply Z.div_pos; lia |].
    assert ((bits + 63) / 64 < zlen st + 1); [apply Z.div_lt_upper_bound; lia | lia]. }
  destruct (for_n_inv (λ j s, zlen s = zlen st ∧ Forall is_u64 s ∧ ∀ k, 0 ≤ k < j → word_at s k = 0)
    (λ i s, wr s i 0) (Z.to_nat n) 0 st) as (st' & -> & Hl & Hf & Hz).
  - split_and!; [done.. | lia].
  - intros j t Hj (Hl & Hf & Hz). eexists. split; [apply wr_inbounds; lia |].
    rewrite zlen_insert. split_and!; [done | by apply Forall_insert |].
    intros k Hk. unfold word_at. destruct (decide (k = j)) as [->|].
    + rewrite list_lookup_insert_eq; [done |]. unfold zlen in *. lia.
    + rewrite list_lookup_insert_ne by lia. apply Hz. lia.
  - mred. eexists. split; [done |]. simpl. split_and!; [| done | | ].
    + eexists. split; [done |]. simpl. split_and!; [done | lia.. | done].
    + intros ws [= <-]. done.
    + intros i Hi. unfold bit_at. simpl. destruct (Z.ltb_spec i bits); [| done]. simpl.
      rewrite Hz; [apply Z.bits_0 |]. rewrite Z2Nat.id by lia. split; [apply Z.div_pos; lia |].
      subst n. assert (i / 64 + 1 ≤ (bits + 63) / 64); [| lia].
      replace (i / 64 + 1) with ((i + 1 * 64) / 64) by (rewrite Z.div_add by lia; done).
      apply Z.div_le_mono; lia.
Qed.

(** ** Searches *)

(** [r] is the least [j < n] with [g j], [None] when there is none. *)
Definition least_bit (g : Z → bool) (n : Z) (r : option Z) : Prop :=
  match r with
  | Some j => 0 ≤ j < n ∧ g j = true ∧ ∀ k, 0 ≤ k < j → g k = false
  | None => ∀ k, 0 ≤ k < n → g k = false
  end.

Section search.
Context (g : Z → bool) (count : Z) (Hcount : 0 ≤ count ≤ U64MAX - 63).

Lemma scan_word_spec i w :
  is_u64 w → 0 ≤ i → i * 64 < count →
  (∀ b, 0 ≤ b < 64 → i * 64 + b < count → Z.testbit w b = g (i * 64 + b)) →
  (∀ k, 0 ≤ k < i * 64 → g k = false) →
  (scan_word count i w = Ret (Next tt) ∧ ∀ k, 0 ≤ k < (i + 1) * 64 → k < count → g k = false) ∨
  (∃ r, scan_word count i w = Ret (Done r) ∧ least_bit g count r).
Proof.
  unfold U64MAX in *. intros Hw Hi Hic Hg Hlow. unfold scan_word.
  destruct (loop_n_inv (λ b (_ : unit), ∀ k, 0 ≤ k < i * 64 + b → k < count → g k = false)
    (least_bit g count)
    (λ b (_ : unit),
      if count <=? wrap64 (i * 64 + b) then Ret (Done None)
      else if negb (Z.land w (bit_mask b) =? 0) then Ret (Done (Some (wrap64 (i * 64 + b))))
      else Ret (Next tt)) 64 0 tt) as [([] & -> & H) | (r & -> & H)].
  - intros k Hk _. apply Hlow. lia.
  - intros b [] Hb Hinv. change (Z.of_nat 64) with 64 in Hb.
    rewrite (wrap_small 64 (i * 64 + b)) by lia.
    destruct (Z.leb_spec count (i * 64 + b)).
    { right. eexists. split; [done |]. intros k Hk. apply Hinv; lia. }
    rewrite land_mask_testbit, Hg by lia. destruct (g (i * 64 + b)) eqn:E.
    + right. eexists. split; [done |]. simpl. split_and!; [lia.. | done |].
      intros k Hk. apply Hinv; lia.
    + left. exists tt. split; [done |]. intros k Hk Hkc.
      destruct (decide (k = i * 64 + b)) as [->|]; [done |]. apply Hinv; lia.
  - left. split; [done |]. intros k Hk Hkc. apply H; [| done]. change (Z.of_nat 64) with 64. lia.
  - right. eauto.
Qed.

(** The loop over the words, for any reading [f] of a word. *)
Lemma search_spec ws (f : Z → Z) n :
  Forall is_u64 ws → n = (count + 63) / 64 → count ≤ 64 * zlen ws →
  (∀ w, is_u64 w → is_u64 (f w)) →
  (∀ j, 0 ≤ j < count → Z.testbit (f (word_at ws (j / 64))) (j mod 64) = g j) →
  ∃ r, (c ← loop_n (Z.to_nat n) 0 (λ i (_ : unit),
              w0 ← rd ws i;
              if f w0 =? 0 then Ret (Next tt) else scan_word count i (f w0)) tt;
        match c with Done r => Ret r | Next _ => Ret None end) = Ret r ∧
       least_bit g count r.
Proof.
  intros Hws -> Hlen Hf Hg.
  assert (Hdiv := Z.div_mod (count + 63) 64 ltac:(lia)).
  assert (Hmod := Z.mod_pos_bound (count + 63) 64 ltac:(lia)).
  set (q := (count + 63) / 64) in *.
  destruct (loop_n_inv (λ i (_ : unit), ∀ k, 0 ≤ k < i * 64 → k < count → g k = false)
    (least_bit g count)
    (λ i (_ : unit), w0 ← rd ws i;
       if f w0 =? 0 then Ret (Next tt) else scan_word count i (f w0))
    (Z.to_nat q) 0 tt) as [([] & -> & H) | (r & -> & H)].
  - intros; lia.
  - intros i [] Hi Hinv.
    destruct (rd_word ws i) as [-> Hu]; [done | lia |]. mred.
    assert (Hbits : ∀ b, 0 ≤ b < 64 → i * 64 + b < count →
      Z.testbit (f (word_at ws i)) b = g (i * 64 + b)).
    { intros b Hb Hbc. rewrite <- Hg by lia.
      rewrite Z.div_add_l, Z.div_small, Z.add_0_r by lia.
      by rewrite Z.add_comm, Z.mod_add, Z.mod_small by lia. }
    destruct (Z.eqb_spec (f (word_at ws i)) 0) as [E|E].
    + left. exists tt. split; [done |]. intros k Hk Hkc.
      destruct (decide (k < i * 64)); [apply Hinv; lia |].
      replace k with (i * 64 + (k - i * 64)) by lia.
      rewrite <- Hbits, E by lia. apply Z.bits_0.
    + destruct (scan_word_spec i (f (word_at ws i))) as [[-> H]|H]; auto; [lia.. | |].
      * intros k Hk. apply Hinv; lia.
      * left. eauto.
  - exists None. split; [done |]. intros k Hk. apply H; lia.
  - eauto.
Qed.

End search.

Lemma bitmap_find_first_set_spec bm :
  bitmap_ok bm → ∃ r, bitmap_find_first_set bm = Ret r ∧ least_bit (bit_at bm) (bit_count bm) r.
Proof.
  intros (ws & Hw & Hws & Hlen & Hc). destruct bm as [wo c]; simpl in *; subst wo.
  unfold bitmap_find_first_set. simpl. rewrite word_count_ok by lia.
  apply (search_spec (bit_at (mk_bitmap (Some ws) c)) c ltac:(lia) ws (λ w, w)); auto; [lia |].
  intros j Hj. unfold bit_at. simpl. by destruct (Z.ltb_spec j c); [| lia].
Qed.

Lemma bitmap_find_first_clear_spec bm :
  bitmap_ok bm →
  ∃ r, bitmap_find_first_clear bm = Ret r ∧ least_bit (negb ∘ bit_at bm) (bit_count bm) r.
Proof.
  intros (ws & Hw & Hws & Hlen & Hc). destruct bm as [wo c]; simpl in *; subst wo.
  unfold bitmap_find_first_clear. simpl. rewrite word_count_ok by lia.
  apply (search_spec (negb ∘ bit_at (mk_bitmap (Some ws) c)) c ltac:(lia) ws (lnot_w 64)); auto; [lia | |].
  - intros w Hu. by apply lnot_w_range.
  - intros j Hj. unfold compose, bit_at. simpl. destruct (Z.ltb_spec j c); [| lia]. simpl.
    destruct (word_index ws c Hlen j Hj) as [H1 H2].
    destruct (rd_word ws (j / 64)) as [_ Hu]; [done.. |].
    rewrite lnot_w_testbit by (done || lia). by destruct (Z.ltb_spec (j mod 64) 64); [| lia].
Qed.

(** ** Counting *)

(** The word [bitmap_count_set] counts at index [i]: the last one is masked. *)
Definition counted_word (count n i w : Z) : Z :=
  if (i + 1 =? n) && negb (count mod 64 =? 0) then Z.land w (bit_mask (count mod 64) - 1) else w.

Lemma counted_word_bits ws count i b :
  Forall is_u64 ws → 0 ≤ count ≤ 64 * zlen ws → 0 ≤ i < (count + 63) / 64 → 0 ≤ b < 64 →
  Z.testbit (counted_word count ((count + 63) / 64) i (word_at ws i)) b =
    bit_at (mk_bitmap (Some ws) count) (64 * i + b).
Proof.
  intros Hws Hlen Hi Hb. unfold bit_at. simpl.
  replace (64 * i + b) with (b + i * 64) by lia.
  rewrite Z.div_add, Z.mod_add, (Z.div_small b), (Z.mod_small b), Z.add_0_l by lia.
  assert (Hdiv := Z.div_mod (count + 63) 64 ltac:(lia)).
  assert (Hmod := Z.mod_pos_bound (count + 63) 64 ltac:(lia)).
  assert (Hdc := Z.div_mod count 64 ltac:(lia)).
  assert (Hmc := Z.mod_pos_bound count 64 ltac:(lia)).
  unfold counted_word. set (q := (count + 63) / 64) in *.
  destruct (Z.eqb_spec (i + 1) q) as [Hl|Hl]; cbn [andb].
  - destruct (Z.eqb_spec (count mod 64) 0) as [Hz|Hz]; cbn [negb].
    + destruct (Z.ltb_spec (b + i * 64) count); [done | lia].
    + rewrite Z.land_spec, bit_mask_pow2 by lia.
      replace (2 ^ (count mod 64) - 1) with (Z.ones (count mod 64)) by (rewrite Z.ones_equiv; lia).
      assert (count / 64 = i) by lia.
      destruct (Z.ltb_spec (b + i * 64) count).
      * rewrite Z.ones_spec_low by lia. apply andb_true_r.
      * rewrite Z.ones_spec_high by lia. apply andb_false_r.
  - destruct (Z.ltb_spec (b + i * 64) count); [done | lia].
Qed.

Lemma bitmap_count_set_spec bm :
  bitmap_ok bm →
  bitmap_count_set bm = Ret (count_true (bit_at bm) (Z.to_nat (bit_count bm))).
Proof.
  intros (ws & Hw & Hws & Hlen & Hc). destruct bm as [wo c]; simpl in *; subst wo.
  unfold bitmap_count_set. cbn [words bit_count]. rewrite word_count_ok by lia.
  assert (Hdiv := Z.div_mod (c + 63) 64 ltac:(lia)).
  assert (Hmod := Z.mod_pos_bound (c + 63) 64 ltac:(lia)).
  set (q := (c + 63) / 64) in *. set (g := bit_at (mk_bitmap (Some ws) c)).
  destruct (for_n_inv (λ i total, 0 ≤ i ∧ total = count_true g (Z.to_nat (64 * i)))
    (λ i total, w ← rd ws i; popcount_loop 64 (counted_word c q i w) total)
    (Z.to_nat q) 0 0) as (t & Ht & _ & ->).
  - split; [lia | done].
  - intros i total Hi [H0 ->]. destruct (rd_word ws i) as [-> Hu]; [done | lia |]. mred.
    assert (Hcw : is_u64 (counted_word c q i (word_at ws i))).
    { unfold counted_word. case_match; [| done]. unfold is_u64 in *. apply land_range; [lia.. |].
      pose proof (Z.mod_pos_bound c 64 ltac:(lia)).
      pose proof (Z.pow_pos_nonneg 2 (c mod 64)). rewrite bit_mask_pow2; lia. }
    pose proof (count_true_range g (Z.to_nat (64 * i))).
    pose proof (ones_range (counted_word c q i (word_at ws i))).
    unfold U64MAX in *. rewrite popcount_loop_spec by (assumption || lia). eexists. split; [done |].
    split; [lia |]. rewrite (ones_count g (counted_word c q i (word_at ws i))); [done | | lia].
    intros b Hb. apply counted_word_bits; (done || lia).
  - unfold counted_word in Ht. rewrite Ht. f_equal.
    replace (Z.to_nat (64 * (0 + Z.of_nat (Z.to_nat q)))) with (Z.to_nat c + (Z.to_nat (64 * q) - Z.to_nat c))%nat by lia.
    rewrite count_true_app. rewrite (count_true_none (λ j, g (Z.of_nat (Z.to_nat c) + j))); [lia |].
    intros j Hj. subst g. unfold bit_at. simpl.
    by destruct (Z.ltb_spec (Z.of_nat (Z.to_nat c) + j) c); [lia |].
Qed.

(** ** Refinement: a bitmap is a set of bit numbers *)

Inductive bitmap_op := OpSet (i : Z) | OpClear (i : Z).

Definition bitmap_step (bm : bitmap_t) (o : bitmap_op) : res bitmap_t :=
  match o with OpSet i => bitmap_set bm i | OpClear i => bitmap_clear bm i end.

Fixpoint bitmap_run (bm : bitmap_t) (ops : list bitmap_op) : res bitmap_t :=
  match ops with
  | [] => Ret bm
  | o :: ops' => bm' ← bitmap_step bm o; bitmap_run bm' ops'
  end.

(** The same operations on the abstract set, as a membership function. *)
Definition set_step (n : Z) (g : Z → bool) (o : bitmap_op) : Z → bool :=
  match o with
  | OpSet i => λ j, if j =? i then i <? n else g j
  | OpClear i => λ j, if j =? i then false else g j
  end.

Definition op_index (o : bitmap_op) : Z := match o with OpSet i | OpClear i => i end.

Lemma bitmap_run_spec ops bm g :
  bitmap_ok bm → Forall (λ o, 0 ≤ op_index o) ops → (∀ j, 0 ≤ j → bit_at bm j = g j) →
  ∃ bm', bitmap_run bm ops = Ret bm' ∧ bitmap_ok bm' ∧ bit_count bm' = bit_count bm ∧
    ∀ j, 0 ≤ j → bit_at bm' j = foldl (set_step (bit_count bm)) g ops j.
Proof.
  revert bm g. induction ops as [|o ops IH]; intros bm g Hok Hops Hg; simpl.
  { eauto. }
  apply Forall_cons in Hops as [Ho Hops].
  assert (∃ bm1, bitmap_step bm o = Ret bm1 ∧ bitmap_ok bm1 ∧ bit_count bm1 = bit_count bm ∧
    ∀ j, 0 ≤ j → bit_at bm1 j = set_step (bit_count bm) g o j) as (bm1 & -> & Hok1 & Hc1 & H1).
  { destruct o as [i|i]; simpl in *;
      [destruct (bitmap_set_spec bm i) as (bm1 & ? & ? & ? & H) |
       destruct (bitmap_clear_spec bm i) as (bm1 & ? & ? & ? & H)]; try done;
      exists bm1; split_and!; try done; intros j Hj; rewrite H by done; by rewrite Hg. }
  mred. rewrite <- Hc1 in *. by apply (IH bm1 (set_step (bit_count bm1) g o)).
Qed.

(** C28: a bitmap initialised over enough storage and then changed by any sequence
    of [bitmap_set] and [bitmap_clear] calls behaves as a set of bit numbers:
    nothing faults, [bitmap_test] is membership, the two searches return the least
    member and the least non-member, and [bitmap_count_set] is the cardinality. *)
Theorem bitmap_refines_set (st : list Z) (bits : Z) (ops : list bitmap_op) :
  Forall is_u64 st → 0 < bits ≤ 64 * zlen st → bits ≤ U64MAX - 63 →
  Forall (λ o, 0 ≤ op_index o) ops →
  let g := foldl (set_step bits) (λ _, false) ops in
  ∃ bm0 bm r1 r2,
    bitmap_init (Some st) bits = Ret bm0 ∧ bitmap_run bm0 ops = Ret bm ∧
    (∀ i, 0 ≤ i → bitmap_test bm i = Ret (g i)) ∧
    bitmap_find_first_set bm = Ret r1 ∧ least_bit g bits r1 ∧
    bitmap_find_first_clear bm = Ret r2 ∧ least_bit (negb ∘ g) bits r2 ∧
    bitmap_count_set bm = Ret (count_true g (Z.to_nat bits)).
Proof.
  intros Hst Hbits Hmax Hops g.
  destruct (bitmap_init_spec st bits) as (bm0 & H0 & Hok0 & Hc0 & _ & Hz0); [done.. |].
  destruct (bitmap_run_spec ops bm0 (λ _, false)) as (bm & H & Hok & Hc & Hg); [done.. |].
  rewrite Hc0 in *.
  destruct (bitmap_find_first_set_spec bm Hok) as (r1 & E1 & H1).
  destruct (bitmap_find_first_clear_spec bm Hok) as (r2 & E2 & H2).
  rewrite Hc in *.
  assert (Hext : ∀ g1 g2 r, (∀ j, 0 ≤ j → g1 j = g2 j) → least_bit g1 bits r → least_bit g2 bits r).
  { intros g1 g2 [j|] He; simpl.
    - intros (Hj & Hj1 & Hlow). split_and!; [lia.. | by rewrite <- He by lia |].
      intros k Hk. rewrite <- He by lia. by apply Hlow.
    - intros Hn k Hk. rewrite <- He by lia. by apply Hn. }
  exists bm0, bm, r1, r2. split_and!; [done.. | | done | | done | | ].
  - intros i Hi. rewrite bitmap_test_spec by done. f_equal. by apply Hg.
  - apply (Hext _ _ _ Hg H1).
  - refine (Hext _ _ _ _ H2). intros j Hj. unfold compose. by rewrite Hg.
  - rewrite bitmap_count_set_spec by done. f_equal. rewrite Hc.
    apply count_true_ext. intros i Hi. apply Hg. lia.
Qed.

Lemma bitmap_refines_set_witness :
  ∃ bm0 bm r1 r2,
    bitmap_init (Some [9; 9; 9]) 130 = Ret bm0 ∧
    bitmap_run bm0 [OpSet 3; OpSet 129; OpSet 200; OpClear 3] = Ret bm ∧
    (∀ i, 0 ≤ i → bitmap_test bm i = Ret (foldl (set_step 130) (λ _, false) [OpSet 3; OpSet 129; OpSet 200; OpClear 3] i)) ∧
    bitmap_find_first_set bm = Ret r1 ∧ bitmap_find_first_clear bm = Ret r2.
Proof.
  destruct (bitmap_refines_set [9; 9; 9] 130 [OpSet 3; OpSet 129; OpSet 200; OpClear 3])
    as (bm0 & bm & r1 & r2 & H0 & H1 & H2 & H3 & _ & H4 & _).
  - repeat constructor; lia.
  - vm_compute. split; congruence.
  - vm_compute. congruence.
  - repeat constructor; simpl; lia.
  - exists bm0, bm, r1, r2. split_and!; assumption.
Defined.
