(* ===== verification/Circular.v ===== *)
(** * Circular arrays

    Several components keep a queue in an array with a head index and a count
    (the byte ring, the log ring, the network receive ring, the terminal's
    pending input).  [circ l h n] is the queue such an array holds: [n] elements
    from index [h] on, wrapping at the end.  The lemmas say what a store at the
    tail, a step of the head and an overwrite of the oldest entry do to it. *)

From Stdlib Require Import ZArith Lia.
From stdpp Require Import prelude list_numbers.
From S2P Require Import Prelude.

Local Open Scope Z_scope.

Definition circ {A} (l : list A) (h n : Z) : list A :=
  take (Z.to_nat n) (drop (Z.to_nat h) l ++ take (Z.to_nat h) l).

Section circ.
Context {A : Type}.
Implicit Types (l : list A) (v : A).

Lemma circ_zlen l h n : 0 ≤ n ≤ zlen l → zlen (circ l h n) = n.
Proof.
  unfold circ, zlen. intros Hn. rewrite length_take, length_app, length_drop, length_take. lia.
Qed.

Lemma circ_0 l h : circ l h 0 = [].
Proof. done. Qed.

Lemma circ_full l : circ l 0 (zlen l) = l.
Proof.
  unfold circ, zlen. rewrite Nat2Z.id. change (Z.to_nat 0) with O.
  rewrite drop_0, take_0, app_nil_r. by apply take_ge.
Qed.

Lemma mod_succ_cases a c : 0 ≤ a < c → (a + 1) mod c = if a + 1 =? c then 0 else a + 1.
Proof.
  intros Ha. destruct (Z.eqb_spec (a + 1) c) as [->|].
  - apply Z.mod_same. lia.
  - apply Z.mod_small. lia.
Qed.

Lemma mod_add_cases a b c : 0 ≤ a < c → 0 ≤ b ≤ c → (a + b) mod c = if a + b <? c then a + b else a + b - c.
Proof.
  intros Ha Hb. destruct (Z.ltb_spec (a + b) c); [by apply Z.mod_small; lia |].
  replace (a + b) with (a + b - c + 1 * c) at 1 by lia.
  rewrite Z.mod_add by lia. apply Z.mod_small. lia.
Qed.

Lemma circ_lookup l h n k :
  0 ≤ h < zlen l → 0 ≤ n ≤ zlen l → 0 ≤ k < n →
  circ l h n !! Z.to_nat k = l !! Z.to_nat ((h + k) mod zlen l).
Proof.
  intros Hh Hn Hk. unfold circ. rewrite lookup_take_lt by lia.
  rewrite mod_add_cases by lia. unfold zlen in *.
  destruct (Z.ltb_spec (h + k) (Z.of_nat (length l))).
  - rewrite lookup_app_l by (rewrite length_drop; lia). rewrite lookup_drop. f_equal. lia.
  - rewrite lookup_app_r by (rewrite length_drop; lia). rewrite length_drop.
    rewrite lookup_take_lt by lia. f_equal. lia.
Qed.

(** Two lists of the same length that agree on the integers below it. *)
Lemma list_eq_zlen l1 l2 :
  zlen l1 = zlen l2 → (∀ k, 0 ≤ k < zlen l1 → l1 !! Z.to_nat k = l2 !! Z.to_nat k) → l1 = l2.
Proof.
  unfold zlen. intros Hl H. apply list_eq. intros i.
  destruct (decide (i < length l1)%nat).
  - specialize (H (Z.of_nat i)). rewrite Nat2Z.id in H. apply H. lia.
  - rewrite !lookup_ge_None_2 by lia. done.
Qed.

(** Storing at the tail appends. *)
Lemma circ_push l h n v :
  0 ≤ h < zlen l → 0 ≤ n < zlen l →
  circ (<[Z.to_nat ((h + n) mod zlen l) := v]> l) h (n + 1) = circ l h n ++ [v].
Proof.
  intros Hh Hn. set (i := (h + n) mod zlen l).
  assert (Hi : 0 ≤ i < zlen l) by (apply Z.mod_pos_bound; lia).
  apply list_eq_zlen.
  { rewrite zlen_app, !circ_zlen, zlen_1; rewrite ?zlen_insert; lia. }
  intros k Hk. rewrite circ_zlen in Hk by (rewrite zlen_insert; lia).
  rewrite circ_lookup by (rewrite ?zlen_insert; lia). rewrite zlen_insert.
  destruct (decide (k = n)) as [->|Hne].
  - fold i. rewrite list_lookup_insert_eq by (unfold zlen in Hi; lia).
    assert (Hl := circ_zlen l h n ltac:(lia)). unfold zlen in Hl.
    rewrite lookup_app_r by lia. by replace (Z.to_nat n - length (circ l h n))%nat with O by lia.
  - rewrite list_lookup_insert_ne.
    + assert (Hl := circ_zlen l h n ltac:(lia)). unfold zlen in Hl.
      rewrite lookup_app_l by lia. by rewrite circ_lookup by lia.
    + subst i. rewrite !mod_add_cases by lia. repeat case_match; lia.
Qed.

(** Stepping the head drops the oldest element. *)
Lemma circ_pop l h n :
  0 ≤ h < zlen l → 0 < n ≤ zlen l →
  ∃ v, l !! Z.to_nat h = Some v ∧ circ l h n = v :: circ l ((h + 1) mod zlen l) (n - 1).
Proof.
  intros Hh Hn. destruct (lookup_lt_is_Some_2 l (Z.to_nat h)) as [v Hv]; [unfold zlen in Hh; lia |].
  exists v. split; [done |].
  assert (Hh' : 0 ≤ (h + 1) mod zlen l < zlen l) by (apply Z.mod_pos_bound; lia).
  apply list_eq_zlen.
  { rewrite zlen_cons, !circ_zlen; lia. }
  intros k Hk. rewrite circ_zlen in Hk by lia. rewrite circ_lookup by lia.
  destruct (decide (k = 0)) as [->|].
  - rewrite Z.add_0_r, Z.mod_small by lia. done.
  - replace (Z.to_nat k) with (S (Z.to_nat (k - 1))) by lia. simpl.
    rewrite circ_lookup by lia. rewrite Z.add_mod_idemp_l by lia. do 3 f_equal. lia.
Qed.

(** Overwriting the oldest entry of a full array and stepping the head. *)
Lemma circ_overwrite l h v :
  0 ≤ h < zlen l →
  circ (<[Z.to_nat h := v]> l) ((h + 1) mod zlen l) (zlen l) = drop 1 (circ l h (zlen l)) ++ [v].
Proof.
  intros Hh. destruct (circ_pop l h (zlen l)) as (x & _ & ->); [lia.. |]. simpl. rewrite drop_0.
  assert (Hh' : 0 ≤ (h + 1) mod zlen l < zlen l) by (apply Z.mod_pos_bound; lia).
  rewrite <- circ_push by lia. rewrite Z.add_mod_idemp_l by lia.
  replace (h + 1 + (zlen l - 1)) with (h + 1 * zlen l) by lia.
  rewrite Z.mod_add, (Z.mod_small h) by lia. f_equal. lia.
Qed.

End circ.
