(* ===== verification/Ringbuf.v ===== *)
(** * The byte ring: [kernel/lib/ringbuf.c] *)

From Stdlib Require Import ZArith Lia String.
From stdpp Require Import prelude list_numbers.
From S2P Require Import Prelude CString Circular.

Local Open Scope Z_scope.

Record ringbuf_t := mk_ringbuf {
  rb_data : option (list Z);
  capacity : Z;
  head : Z;
  tail : Z;
  count : Z;
}.

Definition ringbuf_valid (rb : ringbuf_t) : bool :=
  match rb_data rb with
  | None => false
  | Some _ => negb (capacity rb =? 0) && (count rb <=? capacity rb)
              && (head rb <? capacity rb) && (tail rb <? capacity rb)
  end.

Definition ringbuf_init (storage : option (list Z)) (cap : Z) : ringbuf_t :=
  mk_ringbuf storage (match storage with Some _ => cap | None => 0 end) 0 0 0.

Definition ringbuf_push (rb : ringbuf_t) (value : Z) : res (ringbuf_t * bool) :=
  if negb (ringbuf_valid rb) || (capacity rb <=? count rb) then Ret (rb, false) else
  match rb_data rb with
  | None => Ret (rb, false)
  | Some d =>
      d' ← wr d (tail rb) value;
      Ret (mk_ringbuf (Some d') (capacity rb) (head rb)
             (wrap64 (tail rb + 1) mod capacity rb) (wrap64 (count rb + 1)), true)
  end.

(** [Some v]: the call returned true with [*out = v]. *)
Definition ringbuf_pop (rb : ringbuf_t) : res (ringbuf_t * option Z) :=
  if negb (ringbuf_valid rb) || (count rb =? 0) then Ret (rb, None) else
  match rb_data rb with
  | None => Ret (rb, None)
  | Some d =>
      v ← rd d (head rb);
      Ret (mk_ringbuf (Some d) (capacity rb)
             (wrap64 (head rb + 1) mod capacity rb) (tail rb) (wrap64 (count rb - 1)), Some v)
  end.

Definition ringbuf_write (rb : ringbuf_t) (data : option (list Z)) (size : Z)
  : res (ringbuf_t * Z) :=
  match data with
  | None => Ret (rb, 0)
  | Some p =>
      c ← loop_n (Z.to_nat size) 0 (λ n rb,
            v ← rd p n;
            '(rb', ok) ← ringbuf_push rb v;
            if (ok : bool) then Ret (Next rb') else Ret (Done (rb', n))) rb;
      match c with Next rb' => Ret (rb', size) | Done r => Ret r end
  end.

(** The result carries the caller's buffer after the call. *)
Definition ringbuf_read (rb : ringbuf_t) (data : option (list Z)) (size : Z)
  : res (ringbuf_t * option (list Z) * Z) :=
  match data with
  | None => Ret (rb, None, 0)
  | Some p =>
      c ← loop_n (Z.to_nat size) 0 (λ n '(rb, p),
            '(rb', o) ← ringbuf_pop rb;
            match o with
            | Some v => p' ← wr p n v; Ret (Next (rb', p'))
            | None => Ret (Done (rb', Some p, n))
            end) (rb, p);
      match c with Next (rb', p') => Ret (rb', Some p', size) | Done r => Ret r end
  end.

Definition ringbuf_peek (rb : ringbuf_t) (data : option (list Z)) (size : Z)
  : res (option (list Z) * Z) :=
  match rb_data rb, data with
  | Some d, Some out =>
      if negb (ringbuf_valid rb) then Ret (data, 0) else
      let n := if size <? count rb then size else count rb in
      '(out', _) ← for_n (Z.to_nat n) 0 (λ i '(out, pos),
          v ← rd d pos;
          out' ← wr out i v;
          Ret (out', wrap64 (pos + 1) mod capacity rb)) (out, head rb);
      Ret (Some out', n)
  | _, _ => Ret (data, 0)
  end.

Definition ringbuf_clear (rb : ringbuf_t) : ringbuf_t :=
  mk_ringbuf (rb_data rb) (capacity rb) 0 0 0.

Definition ringbuf_size (rb : ringbuf_t) : Z := if ringbuf_valid rb then count rb else 0.
Definition ringbuf_capacity (rb : ringbuf_t) : Z := if ringbuf_valid rb then capacity rb else 0.
Definition ringbuf_space (rb : ringbuf_t) : Z :=
  if ringbuf_valid rb then wrap64 (capacity rb - count rb) else 0.
Definition ringbuf_empty (rb : ringbuf_t) : bool := negb (ringbuf_valid rb) || (count rb =? 0).
Definition ringbuf_full (rb : ringbuf_t) : bool := ringbuf_valid rb && (count rb =? capacity rb).

(** ** Invariant and abstract value *)

Definition rb_ok (rb : ringbuf_t) : Prop :=
  ∃ d, rb_data rb = Some d ∧ zlen d = capacity rb ∧ 0 < capacity rb ≤ U64MAX ∧
       0 ≤ head rb < capacity rb ∧ 0 ≤ count rb ≤ capacity rb ∧
       tail rb = (head rb + count rb) mod capacity rb.

Definition rb_queue (rb : ringbuf_t) : list Z :=
  match rb_data rb with Some d => circ d (head rb) (count rb) | None => [] end.

Lemma rb_ok_valid rb : rb_ok rb → ringbuf_valid rb = true.
Proof.
  intros (d & Hd & Hl & Hc & Hh & Hn & Ht). unfold ringbuf_valid. rewrite Hd.
  assert (0 ≤ tail rb < capacity rb) by (rewrite Ht; apply Z.mod_pos_bound; lia). lia.
Qed.

Lemma rb_queue_zlen rb : rb_ok rb → zlen (rb_queue rb) = count rb.
Proof.
  intros (d & Hd & Hl & Hc & Hh & Hn & Ht). unfold rb_queue. rewrite Hd. apply circ_zlen. lia.
Qed.

Lemma rb_init_ok st cap :
  zlen st = cap → 0 < cap ≤ U64MAX →
  rb_ok (ringbuf_init (Some st) cap) ∧ rb_queue (ringbuf_init (Some st) cap) = [].
Proof.
  intros Hl Hc. split; [| done]. exists st. unfold ringbuf_init. simpl.
  split_and!; try lia; [done |]. by rewrite Z.mod_small by lia.
Qed.

Lemma ringbuf_push_spec rb v :
  rb_ok rb →
  ∃ rb', ringbuf_push rb v = Ret (rb', count rb <? capacity rb) ∧ rb_ok rb' ∧
    capacity rb' = capacity rb ∧
    rb_queue rb' = if count rb <? capacity rb then rb_queue rb ++ [v] else rb_queue rb.
Proof.
  intros Hok. pose proof (rb_ok_valid rb Hok) as Hv.
  pose proof Hok as (d & Hd & Hl & Hc & Hh & Hn & Ht). unfold U64MAX in *.
  unfold ringbuf_push. rewrite Hv. cbn [negb orb].
  destruct (Z.leb_spec (capacity rb) (count rb)), (Z.ltb_spec (count rb) (capacity rb)); try lia.
  { eauto. }
  assert (Htr : 0 ≤ tail rb < capacity rb) by (rewrite Ht; apply Z.mod_pos_bound; lia).
  rewrite Hd. rewrite wr_inbounds by lia. mred. rewrite !wrap_small by lia.
  eexists. split; [done |]. simpl. split_and!; [| done |].
  - eexists. simpl. rewrite zlen_insert. split_and!; try ulia; try done.
    rewrite Ht, Z.add_mod_idemp_l by lia. f_equal. lia.
  - unfold rb_queue. simpl. rewrite Hd, Ht, <- Hl. apply circ_push; lia.
Qed.

Lemma ringbuf_pop_spec rb :
  rb_ok rb →
  ∃ rb', ringbuf_pop rb = Ret (rb', hd_error (rb_queue rb)) ∧ rb_ok rb' ∧
    capacity rb' = capacity rb ∧ rb_queue rb' = drop 1 (rb_queue rb).
Proof.
  intros Hok. pose proof (rb_ok_valid rb Hok) as Hv.
  pose proof Hok as (d & Hd & Hl & Hc & Hh & Hn & Ht). unfold U64MAX in *.
  unfold ringbuf_pop. rewrite Hv. cbn [negb orb]. unfold rb_queue at 1 3. rewrite Hd.
  destruct (Z.eqb_spec (count rb) 0) as [E|E].
  { rewrite E. exists rb. split_and!; try done. unfold rb_queue. by rewrite Hd, E. }
  destruct (circ_pop d (head rb) (count rb)) as (v & Hlv & ->); [lia.. |].
  assert (rd d (head rb) = Ret v) as -> by (apply rd_Ret; split; [lia | done]).
  mred. rewrite !wrap_small by lia.
  eexists. split; [done |]. simpl. rewrite drop_0. split_and!; [| done |].
  - eexists. simpl. assert (0 ≤ (head rb + 1) mod capacity rb < capacity rb) by (apply Z.mod_pos_bound; lia).
    split_and!; try ulia; try done. rewrite Z.add_mod_idemp_l by lia. rewrite Ht. f_equal. lia.
  - unfold rb_queue. simpl. by rewrite Hl.
Qed.

Lemma ringbuf_write_spec rb p size :
  rb_ok rb → 0 ≤ size ≤ zlen p →
  let n := Z.min size (capacity rb - count rb) in
  ∃ rb', ringbuf_write rb (Some p) size = Ret (rb', n) ∧ rb_ok rb' ∧
    capacity rb' = capacity rb ∧ rb_queue rb' = rb_queue rb ++ take (Z.to_nat n) p.
Proof.
  intros Hok Hsz n. unfold ringbuf_write.
  set (P := λ j rb', rb_ok rb' ∧ capacity rb' = capacity rb ∧
                     rb_queue rb' = rb_queue rb ++ take (Z.to_nat j) p ∧
                     0 ≤ j ≤ size ∧ count rb' = count rb + j).
  destruct (loop_n_inv P (λ '(rb', j), P j rb' ∧ capacity rb ≤ count rb') (λ n rb,
            v ← rd p n;
            '(rb', ok) ← ringbuf_push rb v;
            if (ok : bool) then Ret (Next rb') else Ret (Done (rb', n))) (Z.to_nat size) 0 rb)
    as [(rb' & -> & Hok' & Hcap & Hq & Hj & Hcnt) | ([rb' j] & -> & (Hok' & Hcap & Hq & Hj & Hcnt) & Hfull)].
  - split_and!; try done; try lia. by rewrite app_nil_r.
  - intros j rb1 Hj (Hok1 & Hcap & Hq & Hj' & Hcnt).
    destruct (rd_inbounds p j) as [v Hv]; [lia |]. rewrite Hv. mred.
    destruct (ringbuf_push_spec rb1 v Hok1) as (rb2 & -> & Hok2 & Hcap2 & Hq2). mred.
    pose proof (rb_queue_zlen rb1 Hok1). pose proof (rb_queue_zlen rb2 Hok2).
    destruct (Z.ltb_spec (count rb1) (capacity rb1)).
    + left. eexists. split; [done |]. apply rd_Ret in Hv as [_ Hv].
      split_and!; [done | congruence | | lia.. |].
      * rewrite Hq2, Hq, <- app_assoc. f_equal.
        replace (Z.to_nat (j + 1)) with (S (Z.to_nat j)) by lia. symmetry. by apply take_S_r.
      * rewrite Hq2, zlen_app, zlen_1 in *. lia.
    + right. eexists. split; [done |]. rewrite Hq2 in *. unfold P.
      split_and!; try done; try congruence; lia.
  - mred. replace (0 + Z.of_nat (Z.to_nat size)) with size in * by lia.
    pose proof Hok' as (d' & _ & _ & _ & _ & Hn' & _).
    exists rb'. by assert (n = size) as -> by lia.
  - mred. pose proof Hok' as (d' & _ & _ & _ & _ & Hn' & _).
    exists rb'. by assert (n = j) as -> by lia.
Qed.

(** Filling a buffer one byte further along a source. *)
Lemma blit_take_step {A} (p q : list A) (j : nat) v :
  (j < length p)%nat → q !! j = Some v →
  <[j := v]> (blit p 0 (take j q)) = blit p 0 (take (S j) q).
Proof.
  intros Hj Hv. pose proof (lookup_lt_Some _ _ _ Hv).
  rewrite (take_S_r _ _ _ Hv). rewrite <- blit_snoc; rewrite length_take; [| lia].
  f_equal. lia.
Qed.

Lemma ringbuf_read_spec rb p size :
  rb_ok rb → 0 ≤ size ≤ zlen p →
  let n := Z.min size (count rb) in
  ∃ rb', ringbuf_read rb (Some p) size =
           Ret (rb', Some (blit p 0 (take (Z.to_nat n) (rb_queue rb))), n) ∧ rb_ok rb' ∧
    capacity rb' = capacity rb ∧ rb_queue rb' = drop (Z.to_nat n) (rb_queue rb).
Proof.
  intros Hok Hsz n. unfold ringbuf_read. pose proof (rb_queue_zlen rb Hok) as Hlq.
  set (P := λ j '(rb', p'), rb_ok rb' ∧ capacity rb' = capacity rb ∧
              p' = blit p 0 (take (Z.to_nat j) (rb_queue rb)) ∧
              rb_queue rb' = drop (Z.to_nat j) (rb_queue rb) ∧ 0 ≤ j ≤ n).
  destruct (loop_n_inv P (λ '(rb', p', j), ∃ p1, p' = Some p1 ∧ P j (rb', p1) ∧ j = n) (λ n '(rb, p),
            '(rb', o) ← ringbuf_pop rb;
            match o with
            | Some v => p' ← wr p n v; Ret (Next (rb', p'))
            | None => Ret (Done (rb', Some p, n))
            end) (Z.to_nat size) 0 (rb, p))
    as [([rb' p'] & -> & Hok' & Hcap & -> & Hq & Hj) |
        ([[rb' p'] j] & -> & p1 & -> & (Hok' & Hcap & -> & Hq & _) & ->)].
  - pose proof (zlen_nonneg (rb_queue rb)). unfold P. split_and!; try done; lia.
  - intros j [rb1 p1] Hj (Hok1 & Hcap & -> & Hq & Hj').
    destruct (ringbuf_pop_spec rb1 Hok1) as (rb2 & -> & Hok2 & Hcap2 & Hq2). mred.
    rewrite Hq in *. destruct (rb_queue rb !! Z.to_nat j) as [v|] eqn:Hv.
    + rewrite (drop_S _ _ _ Hv) in *. simpl in *. rewrite drop_0 in Hq2.
      pose proof (lookup_lt_Some _ _ _ Hv). unfold zlen in *.
      rewrite wr_inbounds by (rewrite blit_zlen; unfold zlen; rewrite ?length_take; lia).
      mred. left. eexists. split; [done |]. unfold P.
      replace (Z.to_nat (j + 1)) with (S (Z.to_nat j)) by lia.
      split_and!; try done; try congruence; try lia. apply blit_take_step; [lia | done].
    + apply lookup_ge_None_1 in Hv. unfold zlen in *. rewrite (drop_ge (rb_queue rb)) in * by lia.
      simpl in *. right. eexists. split; [done |]. unfold P.
      eexists. split; [done |]. rewrite drop_ge by lia. split_and!; try done; try congruence; lia.
  - mred. replace (0 + Z.of_nat (Z.to_nat size)) with size in * by lia.
    assert (n = size) as -> by lia. eauto.
  - mred. eauto.
Qed.

Lemma ringbuf_peek_spec rb p size :
  rb_ok rb → 0 ≤ size ≤ zlen p →
  let n := Z.min size (count rb) in
  ringbuf_peek rb (Some p) size = Ret (Some (blit p 0 (take (Z.to_nat n) (rb_queue rb))), n).
Proof.
  intros Hok Hsz n. unfold ringbuf_peek. pose proof (rb_queue_zlen rb Hok) as Hlq.
  rewrite (rb_ok_valid rb Hok). destruct Hok as (d & Hd & Hl & Hc & Hh & Hn & Ht). rewrite Hd.
  cbn [negb]. replace (if size <? count rb then size else count rb) with n.
  2: { subst n. destruct (Z.ltb_spec size (count rb)); lia. }
  destruct (for_n_inv (λ i '(out, pos), out = blit p 0 (take (Z.to_nat i) (rb_queue rb)) ∧
                                        pos = (head rb + i) mod capacity rb)
    (λ i '(out, pos), v ← rd d pos; out' ← wr out i v;
       Ret (out', wrap64 (pos + 1) mod capacity rb)) (Z.to_nat n) 0 (p, head rb))
    as ([out pos] & -> & -> & _).
  - change (Z.to_nat 0) with O. rewrite take_0, blit_nil by lia. split; [done |].
    by rewrite Z.add_0_r, Z.mod_small by lia.
  - intros i [out pos] Hi [-> ->].
    assert (Hlk : rb_queue rb !! Z.to_nat i = d !! Z.to_nat ((head rb + i) mod capacity rb)).
    { unfold rb_queue. rewrite Hd, <- Hl. apply circ_lookup; lia. }
    assert (Hp : 0 ≤ (head rb + i) mod capacity rb < capacity rb) by (apply Z.mod_pos_bound; lia).
    destruct (rd_inbounds d ((head rb + i) mod capacity rb)) as [v Hv]; [lia |].
    rewrite Hv. mred. apply rd_Ret in Hv as [_ Hv]. rewrite Hv in Hlk.
    pose proof (lookup_lt_Some _ _ _ Hlk). unfold zlen in *.
    rewrite wr_inbounds by (rewrite blit_zlen; unfold zlen; rewrite ?length_take; lia).
    mred. eexists. split; [done |]. cbn beta iota. split.
    + replace (Z.to_nat (i + 1)) with (S (Z.to_nat i)) by lia.
      apply blit_take_step; [lia | done].
    + rewrite wrap_small by ulia. rewrite Z.add_mod_idemp_l by lia. f_equal. lia.
  - mred. do 3 f_equal. replace (0 + Z.of_nat (Z.to_nat n)) with n by lia. done.
Qed.

(** ** Refinement: a ring is a bounded queue *)

Inductive rb_op :=
| RPush (v : Z)
| RPop
| RWrite (p : list Z)
| RRead (buf : list Z)
| RPeek (buf : list Z)
| RClear.

(** What a caller observes: the result, the bytes delivered, and the occupancy
    afterwards. *)
Record rb_obs := mk_obs {
  obs_ret : Z;
  obs_bytes : list Z;
  obs_size : Z;
  obs_space : Z;
  obs_empty : bool;
  obs_full : bool;
}.

Definition rb_observe (rb : ringbuf_t) (r : Z) (bs : list Z) : rb_obs :=
  mk_obs r bs (ringbuf_size rb) (ringbuf_space rb) (ringbuf_empty rb) (ringbuf_full rb).

Definition rb_step (rb : ringbuf_t) (o : rb_op) : res (ringbuf_t * rb_obs) :=
  match o with
  | RPush v => '(rb', ok) ← ringbuf_push rb v; Ret (rb', rb_observe rb' (Z.b2z ok) [])
  | RPop => '(rb', o) ← ringbuf_pop rb;
            Ret (rb', rb_observe rb' (if o is Some _ then 1 else 0) (option_list o))
  | RWrite p => '(rb', n) ← ringbuf_write rb (Some p) (zlen p); Ret (rb', rb_observe rb' n [])
  | RRead buf => '(rb', b, n) ← ringbuf_read rb (Some buf) (zlen buf);
                 Ret (rb', rb_observe rb' n (default [] b))
  | RPeek buf => '(b, n) ← ringbuf_peek rb (Some buf) (zlen buf);
                 Ret (rb, rb_observe rb n (default [] b))
  | RClear => let rb' := ringbuf_clear rb in Ret (rb', rb_observe rb' 0 [])
  end.

(** The bounded queue: the specification. *)
Definition q_observe (cap : Z) (q : list Z) (r : Z) (bs : list Z) : rb_obs :=
  mk_obs r bs (zlen q) (cap - zlen q) (zlen q =? 0) (zlen q =? cap).

Definition q_step (cap : Z) (q : list Z) (o : rb_op) : list Z * rb_obs :=
  let out q' r bs := (q', q_observe cap q' r bs) in
  match o with
  | RPush v => if zlen q <? cap then out (q ++ [v]) 1 [] else out q 0 []
  | RPop => match q with x :: q' => out q' 1 [x] | [] => out q 0 [] end
  | RWrite p => let n := Z.min (zlen p) (cap - zlen q) in out (q ++ take (Z.to_nat n) p) n []
  | RRead buf => let n := Z.min (zlen buf) (zlen q) in
                 out (drop (Z.to_nat n) q) n (blit buf 0 (take (Z.to_nat n) q))
  | RPeek buf => let n := Z.min (zlen buf) (zlen q) in
                 out q n (blit buf 0 (take (Z.to_nat n) q))
  | RClear => out [] 0 []
  end.

Fixpoint rb_run (rb : ringbuf_t) (ops : list rb_op) : res (list rb_obs) :=
  match ops with
  | [] => Ret []
  | o :: ops' => '(rb', x) ← rb_step rb o; xs ← rb_run rb' ops'; Ret (x :: xs)
  end.

Fixpoint q_run (cap : Z) (q : list Z) (ops : list rb_op) : list rb_obs :=
  match ops with
  | [] => []
  | o :: ops' => let '(q', x) := q_step cap q o in x :: q_run cap q' ops'
  end.

Lemma rb_observe_spec rb r bs :
  rb_ok rb → rb_observe rb r bs = q_observe (capacity rb) (rb_queue rb) r bs.
Proof.
  intros Hok. unfold rb_observe, q_observe, ringbuf_size, ringbuf_space, ringbuf_empty, ringbuf_full.
  rewrite (rb_ok_valid rb Hok), (rb_queue_zlen rb Hok).
  destruct Hok as (d & Hd & Hl & Hc & Hh & Hn & Ht).
  rewrite wrap_small by ulia. done.
Qed.

(** One operation of the ring simulates one operation of the queue. *)
Lemma rb_step_simulates rb o :
  rb_ok rb →
  ∃ rb', rb_step rb o = Ret (rb', (q_step (capacity rb) (rb_queue rb) o).2) ∧ rb_ok rb' ∧
    capacity rb' = capacity rb ∧ rb_queue rb' = (q_step (capacity rb) (rb_queue rb) o).1.
Proof.
  intros Hok. pose proof (rb_queue_zlen rb Hok) as Hlq.
  destruct o as [v| |p|buf|buf|]; cbn [rb_step q_step]; rewrite ?Hlq.
  - destruct (ringbuf_push_spec rb v Hok) as (rb' & -> & Hok' & Hcap & Hq). mred.
    rewrite rb_observe_spec by done. rewrite Hcap, Hq.
    destruct (count rb <? capacity rb); simpl; eauto.
  - destruct (ringbuf_pop_spec rb Hok) as (rb' & -> & Hok' & Hcap & Hq). mred.
    rewrite rb_observe_spec by done. rewrite Hcap, Hq.
    destruct (rb_queue rb); simpl; rewrite ?drop_0 in *; eauto.
  - destruct (ringbuf_write_spec rb p (zlen p) Hok) as (rb' & -> & Hok' & Hcap & Hq).
    { pose proof (zlen_nonneg p). lia. }
    mred. rewrite rb_observe_spec by done. rewrite Hcap, Hq. simpl. eauto.
  - destruct (ringbuf_read_spec rb buf (zlen buf) Hok) as (rb' & -> & Hok' & Hcap & Hq).
    { pose proof (zlen_nonneg buf). lia. }
    mred. rewrite rb_observe_spec by done. rewrite Hcap, Hq. simpl. eauto.
  - rewrite ringbuf_peek_spec; [| done | pose proof (zlen_nonneg buf); lia].
    mred. rewrite rb_observe_spec by done. simpl. eauto.
  - destruct Hok as (d & Hd & Hl & Hc & Hh & Hn & Ht).
    assert (Hok' : rb_ok (ringbuf_clear rb)).
    { exists d. simpl. split_and!; try done; lia. }
    rewrite rb_observe_spec by done.
    assert (rb_queue (ringbuf_clear rb) = []) as E by (unfold rb_queue; simpl; by rewrite Hd).
    rewrite E. simpl. eauto.
Qed.

Lemma rb_run_simulates ops rb :
  rb_ok rb → rb_run rb ops = Ret (q_run (capacity rb) (rb_queue rb) ops).
Proof.
  revert rb. induction ops as [|o ops IH]; intros rb Hok; simpl; [done |].
  destruct (rb_step_simulates rb o Hok) as (rb' & -> & Hok' & Hcap & Hq). mred.
  rewrite IH by done. mred. rewrite Hcap, Hq. by destruct (q_step _ _ o).
Qed.

(** C23: for every sequence of pushes, pops, block writes, block reads, peeks and
    clears, a ring initialised on a buffer of [cap] bytes never accesses outside
    its buffer and every caller-visible result (return values, delivered bytes,
    size, space, empty and full) is that of a first-in first-out queue bounded
    by [cap]. *)
Theorem ringbuf_refines_queue (st : list Z) (ops : list rb_op) :
  0 < zlen st ≤ U64MAX →
  rb_run (ringbuf_init (Some st) (zlen st)) ops = Ret (q_run (zlen st) [] ops).
Proof.
  intros Hc. destruct (rb_init_ok st (zlen st)) as [Hok Hq]; [done.. |].
  rewrite rb_run_simulates by done. by rewrite Hq.
Qed.

Lemma ringbuf_refines_queue_witness :
  0 < zlen [0; 0; 0] ≤ U64MAX ∧
  rb_run (ringbuf_init (Some [0; 0; 0]) (zlen [0; 0; 0])) [RWrite [1; 2; 3; 4]; RPop; RPush 5; RPeek [9; 9; 9; 9]]
  = Ret (q_run (zlen [0; 0; 0]) [] [RWrite [1; 2; 3; 4]; RPop; RPush 5; RPeek [9; 9; 9; 9]]).
Proof.
  assert (0 < zlen [0; 0; 0] ≤ U64MAX) as H by (vm_compute; split; congruence).
  split; [exact H |]. apply ringbuf_refines_queue. exact H.
Defined.
