(* ===== verification/Crc32.v ===== *)
(** * CRC-32: [kernel/lib/crc32.c] *)

From Stdlib Require Import ZArith Lia String.
From stdpp Require Import prelude list_numbers.
From S2P Require Import Prelude.

Local Open Scope Z_scope.

(** One turn of the inner loop. *)
Definition crc_bit (crc : Z) : Z :=
  let mask := wrap32 (0 - Z.land crc 1) in
  Z.lxor (Z.shiftr crc 1) (Z.land 0xedb88320 mask).

Definition crc_byte (crc b : Z) : res Z :=
  for_n 8 0 (λ _ c, Ret (crc_bit c)) (Z.lxor crc b).

Definition crc32_update (crc : Z) (data : option (list Z)) (size : Z) : res Z :=
  match data with
  | None => if negb (size =? 0) then Ret crc else Ret (lnot_w 32 (lnot_w 32 crc))
  | Some p =>
      c ← for_n (Z.to_nat size) 0 (λ i c, b ← rd p i; crc_byte c b) (lnot_w 32 crc);
      Ret (lnot_w 32 c)
  end.

Definition crc32 (data : option (list Z)) (size : Z) : res Z := crc32_update 0 data size.

Definition crc32_selftest : res bool :=
  a ← crc32 (Some (lit "123456789")) 9;
  if negb (a =? 0xcbf43926) then Ret false else
  b ← crc32 (Some (lit "abc")) 3;
  if negb (b =? 0x352441c2) then Ret false else
  c ← crc32 (Some (lit "")) 0;
  d ← crc32_update 0x12345678 None 4;
  Ret ((c =? 0) && (d =? 0x12345678)).

Lemma crc32_selftest_passes : crc32_selftest = Ret true.
Proof. vm_compute. reflexivity. Qed.

(** ** The step as a linear map *)

Definition POLY : Z := 0xedb88320.

Fixpoint bits (n : nat) (c : Z) : Z :=
  match n with O => c | S n' => bits n' (crc_bit c) end.

(** The checksum state after the bytes [p]. *)
Definition crc_run (c : Z) (p : list Z) : Z := foldl (λ c b, bits 8 (Z.lxor c b)) c p.

Lemma crc_bit_odd c : crc_bit c = Z.lxor (Z.shiftr c 1) (if Z.odd c then POLY else 0).
Proof.
  unfold crc_bit. f_equal.
  change 1 with (Z.ones 1). rewrite Z.land_ones by lia. change (2 ^ 1) with 2.
  rewrite Zmod_odd. by destruct (Z.odd c).
Qed.

Lemma odd_lxor x y : Z.odd (Z.lxor x y) = xorb (Z.odd x) (Z.odd y).
Proof. rewrite <- !Z.bit0_odd. apply Z.lxor_spec. Qed.

Lemma lxor_exchange a b c d :
  Z.lxor (Z.lxor a b) (Z.lxor c d) = Z.lxor (Z.lxor a c) (Z.lxor b d).
Proof. apply Z.bits_inj'. intros i _. rewrite !Z.lxor_spec. by destruct (Z.testbit a i), (Z.testbit b i), (Z.testbit c i), (Z.testbit d i). Qed.

Lemma crc_bit_lxor x y : crc_bit (Z.lxor x y) = Z.lxor (crc_bit x) (crc_bit y).
Proof.
  rewrite !crc_bit_odd, Z.shiftr_lxor, odd_lxor, lxor_exchange. f_equal.
  destruct (Z.odd x), (Z.odd y); simpl; by rewrite ?Z.lxor_nilpotent, ?Z.lxor_0_l, ?Z.lxor_0_r.
Qed.

Lemma crc_bit_u32 c : is_u32 c → is_u32 (crc_bit c).
Proof.
  unfold is_u32. intros Hc. rewrite crc_bit_odd. apply lxor_range; [lia | |].
  - rewrite Z.shiftr_div_pow2 by lia. change (2 ^ 1) with 2.
    split; [apply Z.div_pos; lia | apply Z.div_lt_upper_bound; lia].
  - unfold POLY. by destruct (Z.odd c).
Qed.

(** The feedback polynomial has its top bit set, so no non-zero state is lost. *)
Lemma crc_bit_kernel c : is_u32 c → crc_bit c = 0 → c = 0.
Proof.
  unfold is_u32. intros Hc. rewrite crc_bit_odd, Z.lxor_eq_0_iff, <- Z.div2_spec.
  pose proof (Z.div2_odd c) as E. destruct (Z.odd c); unfold POLY; simpl in E; lia.
Qed.

Lemma crc_bit_double y : crc_bit (Z.shiftl y 1) = y.
Proof.
  rewrite crc_bit_odd, Z.shiftr_shiftl_l by lia. simpl Z.sub. rewrite Z.shiftl_0_r.
  rewrite Z.shiftl_mul_pow2 by lia. change (2 ^ 1) with 2. rewrite Z.mul_comm.
  rewrite Z.odd_mul. simpl. apply Z.lxor_0_r.
Qed.

Lemma bits_lxor n x y : bits n (Z.lxor x y) = Z.lxor (bits n x) (bits n y).
Proof. revert x y. induction n as [|n IH]; intros x y; simpl; [done |]. by rewrite crc_bit_lxor, IH. Qed.

Lemma bits_u32 n c : is_u32 c → is_u32 (bits n c).
Proof. revert c. induction n; intros c Hc; simpl; auto using crc_bit_u32. Qed.

Lemma bits_kernel n c : is_u32 c → bits n c = 0 → c = 0.
Proof.
  revert c. induction n as [|n IH]; intros c Hc H; simpl in H; [done |].
  apply crc_bit_kernel; [done |]. apply IH; auto using crc_bit_u32.
Qed.

Lemma bits_add m n c : bits (m + n) c = bits n (bits m c).
Proof. revert c. induction m as [|m IH]; intros c; simpl; auto. Qed.

Lemma bits_shift n y : bits n (Z.shiftl y (Z.of_nat n)) = y.
Proof.
  revert y. induction n as [|n IH]; intros y; cbn [bits]; [apply Z.shiftl_0_r |].
  replace (Z.of_nat (S n)) with (Z.of_nat n + 1) by lia.
  rewrite <- Z.shiftl_shiftl by lia. by rewrite crc_bit_double.
Qed.

(** ** The code computes [crc_run] *)

Lemma for_crc_bit n i c : for_n n i (λ _ c, Ret (crc_bit c)) c = Ret (bits n c).
Proof. revert i c. induction n as [|n IH]; intros i c; cbn [for_n bits]; [done |]. mred. apply IH. Qed.

#[local] Opaque bits crc_bit.

Lemma crc_byte_bits c b : crc_byte c b = Ret (bits 8 (Z.lxor c b)).
Proof. apply for_crc_bit. Qed.

Lemma lnot_w_involutive w x : lnot_w w (lnot_w w x) = x.
Proof. unfold lnot_w. lia. Qed.

Lemma crc32_update_spec c p n :
  (n ≤ length p)%nat →
  crc32_update c (Some p) (Z.of_nat n) = Ret (lnot_w 32 (crc_run (lnot_w 32 c) (take n p))).
Proof.
  intros Hn. unfold crc32_update. rewrite Nat2Z.id.
  destruct (for_n_inv (λ i s, s = crc_run (lnot_w 32 c) (take (Z.to_nat i) p))
    (λ i c, b ← rd p i; crc_byte c b) n 0 (lnot_w 32 c)) as (s & -> & ->).
  - done.
  - intros j t Hj ->. destruct (rd_inbounds p j) as [b Hb]; [unfold zlen; lia |].
    rewrite Hb. mred. rewrite crc_byte_bits. eexists. split; [done |].
    apply rd_Ret in Hb as [_ Hb]. replace (Z.to_nat (j + 1)) with (S (Z.to_nat j)) by lia.
    rewrite (take_S_r _ _ _ Hb). unfold crc_run. by rewrite foldl_app.
  - mred. by rewrite Z.add_0_l, Nat2Z.id.
Qed.

Lemma crc_run_u32 c p : is_u32 c → Forall is_u8 p → is_u32 (crc_run c p).
Proof.
  revert c. induction p as [|b p IH]; intros c Hc Hp; simpl; [done |].
  apply Forall_cons in Hp as [Hb Hp]. apply IH; [| done]. apply bits_u32.
  unfold is_u32, is_u8 in *. apply lxor_range; lia.
Qed.

(** The checksum is incremental: updating with one block and then with another
    is updating once with their concatenation, from any starting value. *)
Theorem crc32_update_app (c : Z) (p q : list Z) :
  (c1 ← crc32_update c (Some p) (zlen p); crc32_update c1 (Some q) (zlen q)) =
  crc32_update c (Some (p ++ q)) (zlen (p ++ q)).
Proof.
  unfold zlen. rewrite (crc32_update_spec c p) by lia. mred.
  rewrite (crc32_update_spec _ q), (crc32_update_spec c (p ++ q)) by lia.
  rewrite lnot_w_involutive, !take_ge by lia. unfold crc_run. by rewrite foldl_app.
Qed.

(** ** Error detection *)

(** The little-endian word the bytes [es] form. *)
Fixpoint le_word (es : list Z) : Z :=
  match es with [] => 0 | e :: es' => Z.lxor e (Z.shiftl (le_word es') 8) end.

(** Byte-wise difference of two messages. *)
Definition diff (p q : list Z) : list Z := zip_with Z.lxor p q.

Lemma crc_run_diff c d p q :
  length p = length q →
  Z.lxor (crc_run c p) (crc_run d q) = crc_run (Z.lxor c d) (diff p q).
Proof.
  revert c d q. induction p as [|b p IH]; intros c d [|b' q] Hl; simpl in *; try done.
  rewrite IH by lia. unfold crc_run. f_equal. by rewrite <- bits_lxor, lxor_exchange.
Qed.

(** A window of bytes is absorbed as one word, whatever its length. *)
Lemma crc_run_window c es :
  crc_run c es = bits (8 * length es) (Z.lxor c (le_word es)).
Proof.
  revert c. induction es as [|e es IH]; intros c; cbn [crc_run foldl length le_word].
  { by rewrite Z.lxor_0_r. }
  fold (crc_run (bits 8 (Z.lxor c e)) es). rewrite IH.
  replace (8 * S (length es))%nat with (8 + 8 * length es)%nat by lia.
  rewrite bits_add. f_equal. rewrite <- Z.lxor_assoc, (bits_lxor 8 (Z.lxor c e)). f_equal.
  symmetry. apply (bits_shift 8).
Qed.

Lemma le_word_range es : Forall is_u8 es → 0 ≤ le_word es < 2 ^ (8 * zlen es).
Proof.
  induction es as [|e es IH]; intros Hes; simpl; [done |].
  apply Forall_cons in Hes as [He Hes]. specialize (IH Hes). rewrite zlen_cons.
  pose proof (zlen_nonneg es). unfold is_u8 in He.
  rewrite Z.shiftl_mul_pow2 by lia. replace (8 * (1 + zlen es)) with (8 + 8 * zlen es) by lia.
  apply lxor_range; [lia | |]; rewrite Z.pow_add_r by lia; change (2 ^ 8) with 256;
    pose proof (Z.pow_pos_nonneg 2 (8 * zlen es)); nia.
Qed.

Lemma le_word_zero es : Forall is_u8 es → le_word es = 0 → Forall (λ e, e = 0) es.
Proof.
  induction es as [|e es IH]; intros Hes H; [done |].
  apply Forall_cons in Hes as [He Hes]. cbn [le_word] in H.
  apply Z.lxor_eq in H. pose proof (le_word_range es Hes).
  rewrite Z.shiftl_mul_pow2 in H by lia. unfold is_u8 in He. change (2 ^ 8) with 256 in H.
  assert (le_word es = 0) by lia. constructor; [lia | by apply IH].
Qed.

Lemma diff_u8 p q : Forall is_u8 p → Forall is_u8 q → Forall is_u8 (diff p q).
Proof.
  intros Hp. revert q. induction Hp as [|b p Hb Hp IH]; intros [|b' q] Hq; simpl; try constructor.
  - apply Forall_cons in Hq as [Hb' _]. unfold is_u8 in *. apply (lxor_range 8); lia.
  - apply IH. by apply Forall_cons in Hq as [_ ?].
Qed.

Lemma diff_zero p q : length p = length q → Forall (λ e, e = 0) (diff p q) → p = q.
Proof.
  revert q. induction p as [|b p IH]; intros [|b' q] Hl H; simpl in *; try done.
  apply Forall_cons in H as [Hb H]. apply Z.lxor_eq in Hb. f_equal; [done |]. apply IH; [lia | done].
Qed.

Lemma diff_self p : diff p p = replicate (length p) 0.
Proof. induction p as [|b p IH]; simpl; [done |]. by rewrite Z.lxor_nilpotent, IH. Qed.

Lemma crc_run_zeros c n : is_u32 c → crc_run c (replicate n 0) = 0 → c = 0.
Proof.
  revert c. induction n as [|n IH]; intros c Hc H; simpl in H; [done |].
  unfold crc_run in H. cbn [foldl replicate] in H. rewrite Z.lxor_0_r in H.
  apply (bits_kernel 8); [done |]. apply IH; [by apply bits_u32 | done].
Qed.

(** Bit [k] of a message, in the order of the checksum: the bytes in turn, each from
    its low end. *)
Definition msg_bit (p : list Z) (k : Z) : bool := Z.testbit (default 0 (p !! Z.to_nat (k / 8))) (k mod 8).

Lemma le_word_bit es k : Forall is_u8 es → 0 ≤ k → Z.testbit (le_word es) k = msg_bit es k.
Proof.
  intros Hes. revert k. induction Hes as [|e es He Hes IH]; intros k Hk; unfold msg_bit; cbn [le_word].
  { by rewrite lookup_nil, !Z.bits_0. }
  rewrite Z.lxor_spec. destruct (decide (k < 8)) as [Hlt|Hge].
  - rewrite Z.shiftl_spec_low, xorb_false_r by lia. by rewrite Z.div_small, Z.mod_small by lia.
  - rewrite (testbit_high 8) by (unfold is_u8 in He; lia). rewrite Z.shiftl_spec, IH by lia. unfold msg_bit.
    replace k with (k - 8 + 1 * 8) at 3 4 by lia. rewrite Z.div_add, Z.mod_add by lia.
    pose proof (Z.div_pos (k - 8) 8 ltac:(lia) ltac:(lia)). by replace (Z.to_nat ((k - 8) / 8 + 1)) with (S (Z.to_nat ((k - 8) / 8))) by lia.
Qed.

Lemma msg_bit_diff p q k : length p = length q → msg_bit (diff p q) k = xorb (msg_bit p k) (msg_bit q k).
Proof.
  intros Hl. unfold msg_bit, diff. rewrite lookup_zip_with. destruct (p !! _) as [x|] eqn:Ex; destruct (q !! _) as [y|] eqn:Ey; cbn.
  - apply Z.lxor_spec.
  - apply lookup_lt_Some in Ex. apply lookup_ge_None in Ey. lia.
  - apply lookup_lt_Some in Ey. apply lookup_ge_None in Ex. lia.
  - by rewrite !Z.bits_0.
Qed.

(** A word whose bits lie in a window of 32 is a shifted 32-bit word. *)
Lemma window_word w b :
  0 ≤ w → 0 ≤ b → (∀ k, 0 ≤ k → Z.testbit w k = true → b ≤ k < b + 32) → is_u32 (Z.shiftr w b) ∧ w = Z.shiftl (Z.shiftr w b) b.
Proof.
  intros Hw Hb Hbits. assert (Hout : ∀ k, 0 ≤ k → ¬ (b ≤ k < b + 32) → Z.testbit w k = false).
  { intros k Hk Hn. destruct (Z.testbit w k) eqn:E; [| done]. by destruct Hn; apply Hbits. }
  split.
  - split; [by apply Z.shiftr_nonneg |]. apply bits_bound; [lia | by apply Z.shiftr_nonneg |]. intros i Hi. rewrite Z.shiftr_spec by lia. apply Hout; lia.
  - apply Z.bits_inj'. intros k Hk. destruct (decide (k < b)); [rewrite Z.shiftl_spec_low by lia; apply Hout; lia |].
    rewrite Z.shiftl_spec, Z.shiftr_spec by lia. f_equal. lia.
Qed.

(** C36: the checksum detects every burst of at most 32 bits, aligned to bytes or not:
    two messages of the same length that differ, but only in bits of a window of 32
    consecutive bits (counted through the bytes in turn, each from its low end), have
    different checksums. *)
Theorem crc32_detects_bursts (p q : list Z) (b : Z) :
  Forall is_u8 p → Forall is_u8 q → length p = length q → p ≠ q → 0 ≤ b →
  (∀ k, 0 ≤ k → msg_bit p k ≠ msg_bit q k → b ≤ k < b + 32) →
  crc32 (Some p) (zlen p) ≠ crc32 (Some q) (zlen q).
Proof.
  intros Hp Hq Hl Hne Hb Hwin Heq. unfold crc32, zlen in Heq. rewrite !crc32_update_spec, !take_ge in Heq by lia. injection Heq as Heq.
  assert (E : crc_run (lnot_w 32 0) p = crc_run (lnot_w 32 0) q) by (unfold lnot_w in *; lia).
  apply (proj2 (Z.lxor_eq_0_iff _ _)) in E. rewrite crc_run_diff, Z.lxor_nilpotent, crc_run_window, Z.lxor_0_l in E by done.
  pose proof (diff_u8 p q Hp Hq) as Hd. pose proof (le_word_range _ Hd) as Hr. set (w := le_word (diff p q)) in *. set (n := length (diff p q)) in *.
  destruct (window_word w b) as [Hu Hw]; [lia | done | |].
  { intros k Hk Ht. unfold w in Ht. rewrite le_word_bit, msg_bit_diff in Ht by done. apply Hwin; [done |]. intros Hs. by rewrite Hs, xorb_nilpotent in Ht. }
  apply Hne, diff_zero, le_word_zero; [done | done |]. fold w. destruct (decide (b ≤ 8 * Z.of_nat n)) as [Hle|Hgt].
  - replace (8 * n)%nat with (Z.to_nat b + (8 * n - Z.to_nat b))%nat in E by lia. rewrite bits_add, Hw in E. pose proof (bits_shift (Z.to_nat b) (Z.shiftr w b)) as Es. rewrite Z2Nat.id in Es by done. rewrite Es in E.
    apply bits_kernel in E; [| done]. by rewrite Hw, E, Z.shiftl_0_l.
  - rewrite Hw. assert (Z.shiftr w b = 0) as ->; [| by rewrite Z.shiftl_0_l]. rewrite Z.shiftr_div_pow2 by done. apply Z.div_small. split; [lia |].
    eapply Z.lt_le_trans; [apply Hr |]. apply Z.pow_le_mono_r; unfold zlen; fold n; lia.
Qed.

(** A burst over five bytes. *)
Lemma crc32_detects_bursts_witness :
  crc32 (Some [1; 0x0f; 2; 3; 4; 0x50; 6]) 7 ≠ crc32 (Some [1; 0xff; 2; 9; 4; 0x51; 6]) 7.
Proof.
  apply (crc32_detects_bursts [1; 0x0f; 2; 3; 4; 0x50; 6] [1; 0xff; 2; 9; 4; 0x51; 6] 12); [repeat constructor; lia.. | reflexivity | discriminate | lia |].
  intros k Hk Hne. destruct (decide (12 ≤ k < 44)) as [|Hn]; [done |]. destruct Hne. destruct (decide (k < 56)) as [Hlt|Hge].
  - assert (H : forallb (λ j, ((12 <=? j) && (j <? 44)) || Bool.eqb (msg_bit [1; 0x0f; 2; 3; 4; 0x50; 6] j) (msg_bit [1; 0xff; 2; 9; 4; 0x51; 6] j)) (seqZ 0 56) = true) by (vm_compute; reflexivity).
    rewrite forallb_forall in H. specialize (H k). rewrite <- list_elem_of_In, elem_of_seqZ, orb_true_iff, eqb_true_iff in H. destruct H as [H|H]; [lia | lia | exact H].
  - unfold msg_bit. rewrite !lookup_ge_None_2; [done |..]; cbn [length]; pose proof (Z.div_le_mono 56 k 8 ltac:(lia) ltac:(lia)); change (56 / 8) with 7 in *; lia.
Defined.
