(* ===== verification/Path.v ===== *)
(** * Paths: [kernel/vfs/path.c]

    The normaliser writes its result into the caller's buffer one component at a
    time and undoes components for dot-dot in place.  [normal_form] is the
    specification: split at slashes, resolve dot and dot-dot on a stack, print
    the stack. *)

From Stdlib Require Import ZArith Lia String.
From stdpp Require Import prelude list_numbers.
From S2P Require Import Prelude CString.

Local Open Scope Z_scope.

Definition VFS_PATH_MAX : Z := 256.
Definition VFS_NAME_MAX : Z := 64.

Definition SLASH : Z := 47.
Definition DOT : Z := 46.
Definition BACKSLASH : Z := 92.

Definition path_is_absolute (path : option (list Z)) : res bool :=
  match path with None => Ret false | Some p => c ← rd p 0; Ret (c =? SLASH) end.

Definition path_fail (out : list Z) (out_size : Z) : res (list Z * bool) :=
  if negb (out_size =? 0) then out' ← wr out 0 0; Ret (out', false) else Ret (out, false).

(** [Some (tmp, len)]: the snapshot was taken. *)
Definition path_snapshot_input (inp tmp : list Z) : res (option (list Z * Z)) :=
  in_len ← strnlen (Some inp) VFS_PATH_MAX;
  if (in_len =? 0) || (VFS_PATH_MAX <=? in_len) then Ret None else
  c ← rd inp 0;
  if negb (c =? SLASH) then Ret None else
  tmp ← memcpy tmp inp in_len;
  tmp ← wr tmp in_len 0;
  Ret (Some (tmp, in_len)).

(** The first loop of [path_pop_component]: back to just after a slash. *)
Fixpoint back_to_slash (fuel : nat) (out : list Z) (pos : Z) : res Z :=
  if pos <=? 1 then Ret pos else
  c ← rd out (pos - 1);
  if c =? SLASH then Ret pos else
  match fuel with O => Fault Diverged | S f => back_to_slash f out (pos - 1) end.

Definition path_pop_component (out : list Z) (pos : Z) : res (list Z * Z * bool) :=
  if pos <=? 1 then Ret (out, pos, false) else
  pos ← back_to_slash (Z.to_nat pos) out pos;
  pos ← (if 1 <? pos then c ← rd out (pos - 1); Ret (if c =? SLASH then pos - 1 else pos)
         else Ret pos);
  out ← wr out pos 0;
  Ret (out, pos, true).

Definition path_component_byte_allowed (c : Z) : bool :=
  (0x20 <=? c) && negb (c =? 0x7f) && negb (c =? BACKSLASH).

(** The check loop both [path_append_component] and [path_next_component] run;
    true when no byte is refused. *)
Definition component_bytes_allowed (comp : list Z) (len : Z) : res bool :=
  c ← loop_n (Z.to_nat len) 0 (λ i (_ : unit),
        b ← rd comp i;
        if negb (path_component_byte_allowed b) then Ret (Done false) else Ret (Next tt)) tt;
  match c with Done r => Ret r | Next _ => Ret true end.

Definition path_append_component (out : list Z) (out_size pos : Z) (comp : list Z) (len : Z)
  : res (list Z * Z * bool) :=
  if len =? 0 then Ret (out, pos, true) else
  if VFS_NAME_MAX <=? len then Ret (out, pos, false) else
  ok ← component_bytes_allowed comp len;
  if negb ok then Ret (out, pos, false) else
  let slash := if 1 <? pos then 1 else 0 in
  let need := slash + len + 1 in
  if (out_size <? need) || (out_size - need <? pos) then Ret (out, pos, false) else
  '(out, pos) ← (if negb (slash =? 0) then out ← wr out pos SLASH; Ret (out, pos + 1)
                 else Ret (out, pos));
  out ← at_offset pos (λ d, memcpy d comp len) out;
  let pos := pos + len in
  out ← wr out pos 0;
  Ret (out, pos, true).

(** [while (i < in_len && f(tmp[i])) ++i;] *)
Fixpoint scan_while (fuel : nat) (f : Z → bool) (tmp : list Z) (i in_len : Z) : res Z :=
  if in_len <=? i then Ret i else
  c ← rd tmp i;
  if negb (f c) then Ret i else
  match fuel with O => Fault Diverged | S k => scan_while k f tmp (i + 1) in_len end.

Definition is_slash (c : Z) : bool := c =? SLASH.

(** The main loop of [path_normalize], from input offset [i]. *)
Fixpoint normalize_loop (fuel : nat) (tmp : list Z) (in_len : Z) (out : list Z) (out_size pos i : Z)
  : res (list Z * bool) :=
  if in_len <=? i then Ret (out, true) else
  match fuel with
  | O => Fault Diverged
  | S k =>
      i ← scan_while (Z.to_nat in_len) is_slash tmp i in_len;
      let start := i in
      i ← scan_while (Z.to_nat in_len) (λ c, negb (is_slash c)) tmp i in_len;
      let len := i - start in
      skip ← (if len =? 0 then Ret true
              else if len =? 1 then c ← rd tmp start; Ret (c =? DOT) else Ret false);
      if (skip : bool) then normalize_loop k tmp in_len out out_size pos i else
      dotdot ← (if len =? 2 then c ← rd tmp start; if c =? DOT then d ← rd tmp (start + 1); Ret (d =? DOT)
                                                   else Ret false
                else Ret false);
      if (dotdot : bool) then
        '(out, pos, ok) ← path_pop_component out pos;
        if (ok : bool) then normalize_loop k tmp in_len out out_size pos i else path_fail out out_size
      else
        '(out, pos, ok) ← path_append_component out out_size pos (drop (Z.to_nat start) tmp) len;
        if (ok : bool) then normalize_loop k tmp in_len out out_size pos i else path_fail out out_size
  end.

(** [stk] is the uninitialised stack array [tmp]; the result is the caller's
    buffer after the call and the returned value. *)
Definition path_normalize (stk : list Z) (inp out : option (list Z)) (out_size : Z)
  : res (option (list Z) * bool) :=
  match out with
  | None => Ret (None, false)
  | Some o =>
      o ← (if negb (out_size =? 0) then wr o 0 0 else Ret o);
      match inp with
      | None => Ret (Some o, false)
      | Some i =>
          if out_size <? 2 then Ret (Some o, false) else
          snap ← path_snapshot_input i stk;
          match snap with
          | None => Ret (Some o, false)
          | Some (tmp, in_len) =>
              o ← wr o 0 SLASH;
              o ← wr o 1 0;
              '(o, ok) ← normalize_loop (Z.to_nat in_len) tmp in_len o out_size 1 0;
              Ret (Some o, ok)
          end
      end
  end.

(** The returned pointer, as the bytes from it on. *)
Fixpoint basename_from (p last : list Z) : res (list Z) :=
  match p with
  | [] => Fault OutOfBounds
  | c :: t =>
      if c =? 0 then Ret last else
      if c =? SLASH then n ← rd t 0; basename_from t (if negb (n =? 0) then t else last)
      else basename_from t last
  end.

Definition path_basename (path : option (list Z)) : res (list Z) :=
  match path with
  | None => Ret (lit "")
  | Some p => c ← rd p 0; if c =? 0 then Ret (lit "") else basename_from p p
  end.

(** [stk2] is the array [tmp] of [path_join], [stk] that of [path_normalize]. *)
Definition path_join (stk stk2 : list Z) (base leaf out : option (list Z)) (out_size : Z)
  : res (option (list Z) * bool) :=
  match base, leaf, out with
  | Some b, Some l, Some o =>
      o ← (if negb (out_size =? 0) then wr o 0 0 else Ret o);
      bl ← strnlen base VFS_PATH_MAX;
      ll ← strnlen leaf VFS_PATH_MAX;
      if (bl =? 0) || (VFS_PATH_MAX <=? bl) || (VFS_PATH_MAX <=? ll) then Ret (Some o, false) else
      match (n ← add_u64 bl ll; add_u64 n 2) with
      | None => Ret (Some o, false)
      | Some need =>
          if VFS_PATH_MAX * 2 <? need then Ret (Some o, false) else
          tmp ← memcpy stk2 b bl;
          '(tmp, pos) ← (if bl =? 0 then t ← wr tmp bl SLASH; Ret (t, bl + 1) else
                         c ← rd tmp (bl - 1);
                         if negb (c =? SLASH) then t ← wr tmp bl SLASH; Ret (t, bl + 1)
                         else Ret (tmp, bl));
          tmp ← at_offset pos (λ d, memcpy d l ll) tmp;
          tmp ← wr tmp (pos + ll) 0;
          path_normalize stk (Some tmp) (Some o) out_size
      end
  | _, _, _ => Ret (out, false)
  end.

(** Pointer scans of [path_next_component]: the bytes from the stopping point. *)
Fixpoint skip_slashes (p : list Z) : res (list Z) :=
  match p with
  | [] => Fault OutOfBounds
  | c :: t => if c =? SLASH then skip_slashes t else Ret p
  end.

Fixpoint skip_component (p : list Z) : res (Z * list Z) :=
  match p with
  | [] => Fault OutOfBounds
  | c :: t => if negb (c =? 0) && negb (c =? SLASH)
              then '(n, r) ← skip_component t; Ret (n + 1, r) else Ret (0, p)
  end.

(** Results: the moved cursor, the component buffer, the returned value. *)
Definition path_next_component (cursor : list Z) (component : list Z) (component_size : Z)
  : res (list Z * list Z * bool) :=
  if component_size =? 0 then Ret (cursor, component, false) else
  component ← wr component 0 0;
  start ← skip_slashes cursor;
  c ← rd start 0;
  if c =? 0 then Ret (start, component, false) else
  '(len, p) ← skip_component start;
  if component_size <=? len then component ← wr component 0 0; Ret (p, component, false) else
  ok ← component_bytes_allowed start len;
  if negb ok then component ← wr component 0 0; Ret (p, component, false) else
  component ← memcpy component start len;
  component ← wr component len 0;
  Ret (p, component, true).

Example path_normalize_ex :
  path_normalize (replicate 256 7) (Some (lit "//a/./bc/../d//")) (Some (replicate 8 1)) 8
  = Ret (Some (lit "/a/d" ++ [0; 1; 1]), true).
Proof. vm_compute. reflexivity. Qed.

(** ** Specification *)

(** The maximal runs between slashes, possibly empty. *)
Fixpoint split_slash (s : list Z) : list (list Z) :=
  match s with
  | [] => [[]]
  | c :: t =>
      if is_slash c then [] :: split_slash t
      else match split_slash t with h :: r => (c :: h) :: r | [] => [[c]] end
  end.

Definition components (s : list Z) : list (list Z) := filter (λ c, c ≠ []) (split_slash s).

(** The absolute path with the components [st]. *)
Definition render (st : list (list Z)) : list Z :=
  match st with [] => [SLASH] | _ => concat (map (cons SLASH) st) end.

Definition comp_allowed (c : list Z) : bool :=
  (zlen c <? VFS_NAME_MAX) && forallb path_component_byte_allowed c.

(** Dot is dropped, dot-dot removes the last component and fails at the root,
    any other component is pushed if its name is allowed and the result with
    its terminator still fits in [size] bytes. *)
Fixpoint resolve (size : Z) (st cs : list (list Z)) : option (list (list Z)) :=
  match cs with
  | [] => Some st
  | c :: cs' =>
      if decide (c = [DOT]) then resolve size st cs'
      else if decide (c = [DOT; DOT]) then
        match st with [] => None | _ => resolve size (removelast st) cs' end
      else if comp_allowed c && (zlen (render (st ++ [c])) <? size)
           then resolve size (st ++ [c]) cs' else None
  end.

Definition normal_form (size : Z) (s : list Z) : option (list Z) :=
  match s with
  | c :: _ =>
      if is_slash c && (zlen s <? VFS_PATH_MAX)
      then render <$> resolve size [] (components s) else None
  | [] => None
  end.

(** ** Components *)

Definition noslash (s : list Z) : Prop := Forall (λ c, is_slash c = false) s.

(** [rest] is where a component ends. *)
Definition at_end (rest : list Z) : Prop := match rest with [] => True | c :: _ => is_slash c = true end.

Lemma components_nil : components [] = [].
Proof. done. Qed.

Lemma components_slash l c : is_slash c = true → components (c :: l) = components l.
Proof. intros Hc. unfold components. simpl. by rewrite Hc. Qed.

Lemma components_slashes sl l : Forall (λ c, is_slash c = true) sl → components (sl ++ l) = components l.
Proof. induction 1 as [|c sl Hc _ IH]; simpl; [done |]. by rewrite components_slash. Qed.

Lemma split_slash_word w rest :
  noslash w → at_end rest →
  split_slash (w ++ rest) = w :: match rest with [] => [] | _ :: t => split_slash t end.
Proof.
  induction 1 as [|c w Hc Hw IH]; intros Hr; simpl.
  - destruct rest as [|c t]; [done |]. simpl in *. by rewrite Hr.
  - by rewrite Hc, IH.
Qed.

Lemma components_word w rest :
  w ≠ [] → noslash w → at_end rest → components (w ++ rest) = w :: components rest.
Proof.
  intros Hne Hw Hr. unfold components. rewrite split_slash_word by done.
  rewrite filter_cons_True by done. f_equal. destruct rest as [|c t]; simpl in *; [done |].
  rewrite Hr. by rewrite filter_cons_False by (intros H; by apply H).
Qed.

(** What the two scans of the main loop find. *)
Fixpoint prefix_len (f : Z → bool) (l : list Z) : nat :=
  match l with [] => O | c :: t => if f c then S (prefix_len f t) else O end.

Lemma prefix_len_le f l : (prefix_len f l ≤ length l)%nat.
Proof. induction l as [|c l IH]; simpl; [lia |]. destruct (f c); lia. Qed.

Lemma prefix_len_take f l : Forall (λ c, f c = true) (take (prefix_len f l) l).
Proof. induction l as [|c l IH]; simpl; [done |]. destruct (f c) eqn:E; simpl; auto. Qed.

Lemma prefix_len_drop f l :
  match drop (prefix_len f l) l with [] => True | c :: _ => f c = false end.
Proof. induction l as [|c l IH]; simpl; [done |]. destruct (f c) eqn:E; simpl; auto. Qed.

Lemma scan_while_spec fuel f (s junk : list Z) (i : nat) :
  (i ≤ length s)%nat → (length s - i ≤ fuel)%nat →
  scan_while fuel f (s ++ junk) (Z.of_nat i) (zlen s) =
    Ret (Z.of_nat (i + prefix_len f (drop i s))).
Proof.
  revert i. induction fuel as [|fuel IH]; intros i Hi Hf; simpl; unfold zlen in *.
  - destruct (Z.leb_spec (Z.of_nat (length s)) (Z.of_nat i)); [| lia].
    rewrite drop_ge by lia. simpl. do 2 f_equal. lia.
  - destruct (Z.leb_spec (Z.of_nat (length s)) (Z.of_nat i)).
    { rewrite drop_ge by lia. simpl. do 2 f_equal. lia. }
    destruct (lookup_lt_is_Some_2 s i) as [c Hc]; [lia |].
    assert (rd (s ++ junk) (Z.of_nat i) = Ret c) as ->.
    { rewrite rd_nat, lookup_app_l by lia. by rewrite Hc. }
    mred. rewrite (drop_S _ _ _ Hc). simpl. destruct (f c); simpl.
    + replace (Z.of_nat i + 1) with (Z.of_nat (S i)) by lia. rewrite IH by lia. do 2 f_equal. lia.
    + do 2 f_equal. lia.
Qed.

(** ** The output buffer *)

Lemma concat_slash_ne (st : list (list Z)) : st ≠ [] → concat (map (cons SLASH) st) = render st.
Proof. by destruct st. Qed.

Lemma render_snoc st c :
  render (st ++ [c]) = (if decide (st = []) then [SLASH] else render st ++ [SLASH]) ++ c.
Proof.
  case_decide as E; [subst; simpl; by rewrite app_nil_r |].
  rewrite <- concat_slash_ne by (by destruct st). rewrite map_app, concat_app. simpl.
  rewrite app_nil_r, concat_slash_ne by done. by rewrite <- app_assoc.
Qed.

Lemma render_ge1 st : Forall (λ c, c ≠ []) st →
  if decide (st = []) then render st = [SLASH] else 1 < zlen (render st).
Proof.
  intros H. case_decide as E; [by subst |]. destruct H as [|c st Hc H]; [done |]. simpl.
  rewrite !zlen_cons. unfold zlen. rewrite length_app. destruct c; [done |]. simpl. lia.
Qed.

(** The buffer holds the rendering of [st], its terminator, and anything after. *)
Definition out_holds (size : Z) (out : list Z) (st : list (list Z)) : Prop :=
  (∃ junk, out = render st ++ 0 :: junk) ∧ size ≤ zlen out ∧ zlen (render st) < size ∧
  Forall (λ c, c ≠ [] ∧ noslash c) st.

Lemma back_to_slash_spec fuel (a c post : list Z) :
  noslash c → a = [SLASH] ∨ (∃ b, b ≠ [] ∧ a = b ++ [SLASH]) → (length c ≤ fuel)%nat →
  back_to_slash fuel (a ++ c ++ post) (zlen a + zlen c) = Ret (zlen a).
Proof.
  intros Hc Ha. revert fuel post. induction c as [|x c IH] using rev_ind; intros fuel post Hf.
  - rewrite Z.add_0_r. destruct Ha as [->|(b & Hb & ->)]; [by destruct fuel |].
    destruct b as [|y b]; [done |]. rewrite zlen_app, zlen_1.
    pose proof (zlen_nonneg b). rewrite zlen_cons in *.
    assert (Hstep : ∀ k, back_to_slash k (((y :: b) ++ [SLASH]) ++ [] ++ post) (1 + zlen b + 1) = Ret (1 + zlen b + 1)).
    { intros k. destruct k; simpl; (destruct (Z.leb_spec (1 + zlen b + 1) 1); [lia |]);
      (assert (rd (y :: (b ++ [SLASH]) ++ post) (1 + zlen b + 1 - 1) = Ret SLASH) as ->; [| done]);
      change (y :: (b ++ [SLASH]) ++ post) with ((y :: b ++ [SLASH]) ++ post);
      rewrite rd_app_l by (autorewrite with zlen; lia);
      change (y :: b ++ [SLASH]) with ((y :: b) ++ [SLASH]);
      rewrite rd_app_r by (rewrite zlen_cons; lia); rewrite zlen_cons;
      by replace (1 + zlen b + 1 - 1 - (1 + zlen b)) with 0 by lia. }
    apply Hstep.
  - apply Forall_app in Hc as [Hc Hx]. apply Forall_cons in Hx as [Hx _].
    rewrite length_app in Hf. simpl in Hf. destruct fuel as [|fuel]; [lia |].
    assert (0 < zlen a).
    { destruct Ha as [->|(b & _ & ->)]; [done |]. rewrite zlen_app. rewrite zlen_1. pose proof (zlen_nonneg b). lia. }
    pose proof (zlen_nonneg c). rewrite zlen_app, zlen_1. cbn [back_to_slash].
    destruct (Z.leb_spec (zlen a + (zlen c + 1)) 1); [lia |].
    assert (rd (a ++ (c ++ [x]) ++ post) (zlen a + (zlen c + 1) - 1) = Ret x) as ->.
    { rewrite rd_app_r by lia. rewrite <- app_assoc. rewrite rd_app_r by lia.
      by replace (zlen a + (zlen c + 1) - 1 - zlen a - zlen c) with 0 by lia. }
    mred. unfold is_slash in Hx. rewrite Hx.
    replace (zlen a + (zlen c + 1) - 1) with (zlen a + zlen c) by lia.
    rewrite <- app_assoc. apply IH; [done | lia].
Qed.

Lemma path_pop_component_spec size out st :
  out_holds size out st → st ≠ [] →
  ∃ out', path_pop_component out (zlen (render st)) = Ret (out', zlen (render (removelast st)), true) ∧
    zlen out' = zlen out ∧ out_holds size out' (removelast st).
Proof.
  intros ((junk & ->) & Hsz & Hfit & Hst) Hne.
  destruct (exists_last Hne) as (st0 & c & ->). rewrite removelast_last.
  pose proof (render_ge1 (st0 ++ [c])) as Hge. apply Forall_app in Hst as [Hst0 Hc].
  apply Forall_cons in Hc as [[Hcne Hc] _].
  rewrite decide_False in Hge by (by destruct st0).
  assert (1 < zlen (render (st0 ++ [c]))).
  { apply Hge, Forall_app. split; [| by repeat constructor]. eapply Forall_impl; [done |]. by intros ? [? ?]. }
  unfold path_pop_component. destruct (Z.leb_spec (zlen (render (st0 ++ [c]))) 1); [lia |].
  assert (Hlen : zlen (render st0) < size ∧ zlen (render st0) < zlen (render (st0 ++ [c]))).
  { rewrite render_snoc in *. case_decide; [subst |]; unfold zlen in *; rewrite !length_app in *;
      destruct c; simpl in *; try done; lia. }
  rewrite render_snoc in *. case_decide as E.
  - subst st0. simpl app at 1. rewrite <- (app_assoc [SLASH] c (0 :: junk)).
    rewrite zlen_app. rewrite back_to_slash_spec; [| done | by left | unfold zlen; simpl; lia].
    mred. change (1 <? zlen [SLASH]) with false. cbn [mbind res_bind].
    destruct c as [|x c]; [done |].
    pose proof (wr_middle [SLASH] ((x :: c) ++ 0 :: junk) 0) as Hw. simpl in Hw |- *.
    rewrite drop_0 in Hw. rewrite Hw by done. mred.
    eexists. split; [done |]. revert Hsz. simpl. autorewrite with zlen. intros Hsz. split; [lia |].
    split_and!; [by eexists | autorewrite with zlen; lia | destruct Hlen as [? _]; done | done].
  - set (a := render st0 ++ [SLASH]) in *. rewrite <- (app_assoc a c) in *. rewrite (zlen_app a c) in *.
    assert (Hr0 : render st0 ≠ []) by (destruct st0; done).
    assert (0 < zlen (render st0)).
    { destruct (render st0) as [|y r]; [done |]. rewrite zlen_cons. pose proof (zlen_nonneg r). lia. }
    rewrite back_to_slash_spec; [| done | right; unfold a; eauto | unfold zlen; lia].
    mred. assert (Ha : zlen a = zlen (render st0) + 1) by (unfold a; by rewrite zlen_app, zlen_1).
    rewrite Ha. destruct (Z.ltb_spec 1 (zlen (render st0) + 1)); [| lia].
    unfold a. rewrite <- app_assoc. replace (zlen (render st0) + 1 - 1) with (zlen (render st0)) by lia.
    rewrite rd_app_r, Z.sub_diag by lia. cbn [app]. rewrite rd_cons_0. mred.
    change (SLASH =? SLASH) with true. cbn iota. rewrite wr_middle by done. mred.
    eexists. split; [done |]. simpl. rewrite drop_0. split; [by autorewrite with zlen |].
    split_and!; [by eexists | | lia | done].
    revert Hsz. unfold a. autorewrite with zlen. lia.
Qed.

Lemma component_bytes_allowed_spec comp len :
  0 ≤ len ≤ zlen comp →
  component_bytes_allowed comp len = Ret (forallb path_component_byte_allowed (take (Z.to_nat len) comp)).
Proof.
  intros Hl. unfold component_bytes_allowed.
  destruct (loop_n_inv (λ i (_ : unit), forallb path_component_byte_allowed (take (Z.to_nat i) comp) = true)
    (λ r, r = forallb path_component_byte_allowed (take (Z.to_nat len) comp))
    (λ i (_ : unit), b ← rd comp i;
        if negb (path_component_byte_allowed b) then Ret (Done false) else Ret (Next tt))
    (Z.to_nat len) 0 tt) as [([] & -> & H) | (r & -> & ->)].
  - done.
  - intros i [] Hi H. destruct (rd_inbounds comp i) as [b Hb]; [lia |]. rewrite Hb. mred.
    apply rd_Ret in Hb as [_ Hb]. pose proof (take_S_r _ _ _ Hb) as Ht.
    destruct (path_component_byte_allowed b) eqn:E; simpl.
    + left. exists tt. split; [done |]. replace (Z.to_nat (i + 1)) with (S (Z.to_nat i)) by lia.
      rewrite Ht, forallb_app, H. simpl. by rewrite E.
    + right. eexists. split; [done |]. symmetry. apply not_true_is_false. intros Hall.
      rewrite forallb_forall in Hall. rewrite (Hall b) in E; [done |].
      apply list_elem_of_In. apply (list_elem_of_lookup_2 _ (Z.to_nat i)).
      rewrite lookup_take_lt by lia. done.
  - mred. by rewrite Z.add_0_l, Z2Nat.id in H by lia; rewrite H.
  - done.
Qed.

(** Copying [c] over [t] and terminating it. *)
Lemma put_string (r t comp : list Z) len :
  0 ≤ len → len ≤ zlen comp → len + 1 ≤ zlen t →
  (out ← at_offset (zlen r) (λ d, memcpy d comp len) (r ++ t); wr out (zlen r + len) 0) =
  Ret ((r ++ take (Z.to_nat len) comp) ++ 0 :: drop (Z.to_nat len + 1) t).
Proof.
  intros H0 Hc Ht. pose proof (zlen_nonneg r).
  rewrite memcpy_at_spec by (rewrite ?zlen_app; lia). mred.
  assert (Hl : length (take (Z.to_nat len) comp) = Z.to_nat len).
  { rewrite length_take. unfold zlen in *. lia. }
  unfold blit. unfold zlen at 1 2. rewrite !Nat2Z.id. rewrite take_app_length.
  rewrite drop_app_add, Hl, app_assoc.
  replace (zlen r + len) with (zlen (r ++ take (Z.to_nat len) comp)).
  2: { unfold zlen. rewrite length_app, Hl. lia. }
  rewrite wr_middle.
  - by rewrite drop_drop.
  - intros E. apply (f_equal length) in E. rewrite length_drop in E. unfold zlen in *. simpl in E. lia.
Qed.

Lemma path_append_component_spec size out st comp len :
  out_holds size out st → 0 < len ≤ zlen comp → noslash (take (Z.to_nat len) comp) →
  let c := take (Z.to_nat len) comp in
  if comp_allowed c && (zlen (render (st ++ [c])) <? size)
  then ∃ out', path_append_component out size (zlen (render st)) comp len =
                 Ret (out', zlen (render (st ++ [c])), true) ∧
               zlen out' = zlen out ∧ out_holds size out' (st ++ [c])
  else path_append_component out size (zlen (render st)) comp len = Ret (out, zlen (render st), false).
Proof.
  intros ((junk & ->) & Hsz & Hfit & Hst) Hlen Hns c.
  assert (Hc : zlen c = len) by (unfold c, zlen in *; rewrite length_take; lia).
  unfold path_append_component, comp_allowed. destruct (Z.eqb_spec len 0); [lia |].
  rewrite Hc. destruct (Z.leb_spec VFS_NAME_MAX len), (Z.ltb_spec len VFS_NAME_MAX); try lia; [done |].
  rewrite component_bytes_allowed_spec by lia. fold c. mred.
  destruct (forallb path_component_byte_allowed c); [| done]. cbn [negb andb].
  pose proof (render_ge1 st) as Hge. rewrite render_snoc.
  assert (Hst' : Forall (λ c : list Z, c ≠ []) st).
  { eapply Forall_impl; [done |]. by intros ? [? ?]. }
  specialize (Hge Hst'). set (pre := if decide (st = []) then [SLASH] else render st ++ [SLASH]).
  assert (Hpos : (1 <? zlen (render st)) = negb (bool_decide (st = []))).
  { destruct (decide (st = [])) as [E|E]; [by rewrite E |]. rewrite bool_decide_false by done. simpl. lia. }
  rewrite Hpos. assert (Hpre : zlen pre = zlen (render st) + Z.b2z (negb (bool_decide (st = [])))).
  { unfold pre. destruct (decide (st = [])) as [E|E]; [by rewrite E |].
    rewrite bool_decide_false by done. rewrite zlen_app. done. }
  replace (if negb (bool_decide (st = [])) then 1 else 0) with (Z.b2z (negb (bool_decide (st = []))))
    by (by destruct (bool_decide _)).
  set (slash := Z.b2z (negb (bool_decide (st = [])))) in *.
  rewrite zlen_app, Hc, Hpre.
  destruct (Z.ltb_spec (zlen (render st) + slash + len) size) as [Hroom|Hroom].
  2: { assert ((size <? slash + len + 1) || (size - (slash + len + 1) <? zlen (render st)) = true) as -> by lia. done. }
  pose proof (zlen_nonneg (render st)).
  assert ((size <? slash + len + 1) || (size - (slash + len + 1) <? zlen (render st)) = false) as -> by lia.
  rewrite zlen_app, zlen_cons in Hsz.
  assert (Hput : ∃ t, (if negb (slash =? 0)
      then out ← wr (render st ++ 0 :: junk) (zlen (render st)) SLASH; Ret (out, zlen (render st) + 1)
      else Ret (render st ++ 0 :: junk, zlen (render st))) = Ret (pre ++ t, zlen pre) ∧
      zlen (pre ++ t) = zlen (render st ++ 0 :: junk)).
  { unfold pre, slash. destruct (decide (st = [])) as [E|E].
    - rewrite E, bool_decide_true by done. by exists (0 :: junk).
    - rewrite bool_decide_false by done. cbn [Z.b2z negb Z.eqb]. rewrite wr_middle by done. mred.
      exists junk. simpl. rewrite drop_0, <- app_assoc, zlen_app, zlen_1. split; [done |].
      by autorewrite with zlen. }
  destruct Hput as (t & -> & Ht). mred. autorewrite with zlen in Ht.
  pose proof (put_string pre t comp len) as Hp. rewrite <- res_bind_assoc, Hp by lia. mred.
  fold c. eexists. split; [do 3 f_equal; lia |].
  assert (Hd : zlen (drop (Z.to_nat len + 1) t) = zlen t - len - 1).
  { unfold zlen in *. rewrite length_drop. lia. }
  split; [autorewrite with zlen; lia |]. split_and!.
  - eexists. rewrite render_snoc. done.
  - autorewrite with zlen. lia.
  - rewrite render_snoc. fold pre. autorewrite with zlen. lia.
  - apply Forall_app. split; [done |]. constructor; [| done]. split; [| done].
    intros E. rewrite E in Hc. unfold zlen in Hc. simpl in Hc. lia.
Qed.

(** One turn of the main loop: slashes, then a word, then the rest. *)
Lemma split_turn (s : list Z) (i : nat) :
  (i < length s)%nat →
  let n1 := prefix_len is_slash (drop i s) in
  let n2 := prefix_len (λ c, negb (is_slash c)) (drop (i + n1) s) in
  let w := take n2 (drop (i + n1) s) in
  let rest := drop (i + n1 + n2) s in
  (i < i + n1 + n2 ≤ length s)%nat ∧ length w = n2 ∧ noslash w ∧
  components (drop i s) = if decide (n2 = O) then components rest else w :: components rest.
Proof.
  intros Hi n1 n2 w rest.
  pose proof (prefix_len_le is_slash (drop i s)) as Hle1. rewrite length_drop in Hle1.
  pose proof (prefix_len_take is_slash (drop i s)) as Hsl.
  pose proof (prefix_len_drop is_slash (drop i s)) as Hnsl. rewrite drop_drop in Hnsl.
  pose proof (prefix_len_le (λ c, negb (is_slash c)) (drop (i + n1) s)) as Hle2.
  pose proof (prefix_len_take (λ c, negb (is_slash c)) (drop (i + n1) s)) as Hw.
  pose proof (prefix_len_drop (λ c, negb (is_slash c)) (drop (i + n1) s)) as Hr.
  rewrite drop_drop in Hr. fold n1 in Hle1, Hsl, Hnsl. fold n2 in Hle2, Hw, Hr. fold w in Hw.
  fold rest in Hr. rewrite length_drop in Hle2.
  assert (Hlw : length w = n2) by (unfold w; rewrite length_take, length_drop; lia).
  assert (Hnw : noslash w) by (eapply Forall_impl; [exact Hw |]; intros c Hc; by apply negb_true_iff).
  assert (Hn2 : n2 = O → drop (i + n1) s = []).
  { intros E. unfold n2 in E. destruct (drop (i + n1) s) as [|c t]; [done |]. simpl in *.
    rewrite Hnsl in E. simpl in E. lia. }
  assert (Hne : (0 < n1 + n2)%nat).
  { destruct (decide (n2 = O)) as [E|]; [| lia]. specialize (Hn2 E).
    apply (f_equal length) in Hn2. rewrite length_drop in Hn2. simpl in Hn2. lia. }
  split_and!; [lia.. | done | done |].
  replace (drop i s) with (take n1 (drop i s) ++ w ++ rest).
  2: { unfold w, rest. rewrite <- (drop_drop s n2 (i + n1)), take_drop, <- (drop_drop s n1 i). apply take_drop. }
  rewrite components_slashes by done. case_decide as E.
  - by destruct w; [| simpl in *; lia].
  - apply components_word; [intros ->; simpl in *; lia | done |].
    destruct rest as [|c t]; [done |]. simpl in *. by destruct (is_slash c).
Qed.

(** The main loop resolves the components of the remaining input. *)
Lemma normalize_loop_spec fuel s junk size out st (i : nat) :
  2 ≤ size → (i ≤ length s)%nat → (length s - i ≤ fuel)%nat → out_holds size out st →
  ∃ out' b, normalize_loop fuel (s ++ junk) (zlen s) out size (zlen (render st)) (Z.of_nat i) = Ret (out', b) ∧
    zlen out' = zlen out ∧
    match resolve size st (components (drop i s)) with
    | Some st' => b = true ∧ out_holds size out' st'
    | None => b = false ∧ ∃ junk', out' = 0 :: junk'
    end.
Proof.
  intros Hsize. revert i out st. induction fuel as [|fuel IH]; intros i out st Hi Hf Ho;
    cbn [normalize_loop]; (destruct (Z.leb_spec (zlen s) (Z.of_nat i)) as [Hend|Hend];
      [rewrite drop_ge by (unfold zlen in *; lia); exists out, true; by split_and! |]);
    [unfold zlen in *; lia |].
  rewrite scan_while_spec by (unfold zlen; lia). mred.
  destruct (split_turn s i) as (Hlt & Hlw & Hnw & Hcomp); [unfold zlen in *; lia |].
  set (n1 := prefix_len is_slash (drop i s)) in *.
  rewrite scan_while_spec by (unfold zlen; lia). mred.
  set (n2 := prefix_len (λ c, negb (is_slash c)) (drop (i + n1) s)) in *.
  set (w := take n2 (drop (i + n1) s)) in *.
  replace (Z.of_nat (i + n1 + n2) - Z.of_nat (i + n1)) with (Z.of_nat n2) by lia.
  assert (Hrd : ∀ k, (k < n2)%nat → ∃ c, w !! k = Some c ∧ rd (s ++ junk) (Z.of_nat (i + n1 + k)) = Ret c).
  { intros k Hk. destruct (lookup_lt_is_Some_2 s (i + n1 + k)) as [c Hc]; [lia |]. exists c.
    split; [unfold w; by rewrite lookup_take_lt, lookup_drop by lia |].
    rewrite rd_nat, lookup_app_l by lia. by rewrite Hc. }
  assert (Hskip : (if Z.of_nat n2 =? 0 then Ret true
     else if Z.of_nat n2 =? 1 then c ← rd (s ++ junk) (Z.of_nat (i + n1)); Ret (c =? DOT) else Ret false)
     = Ret (bool_decide (n2 = O ∨ w = [DOT]))).
  { destruct (Z.eqb_spec (Z.of_nat n2) 0) as [E|E]; [rewrite bool_decide_true by lia; done |].
    destruct (Z.eqb_spec (Z.of_nat n2) 1) as [E1|E1].
    - destruct (Hrd O) as (c & Hc & Hc'); [lia |]. rewrite Nat.add_0_r in Hc'. rewrite Hc'. mred.
      destruct w as [|c' [|]]; simpl in *; simplify_eq; try lia. f_equal.
      destruct (Z.eqb_spec c DOT) as [->|]; [by rewrite bool_decide_true by auto |].
      rewrite bool_decide_false; [done |]. by intros [?|[= ?]]; [lia |].
    - rewrite bool_decide_false; [done |]. intros [?|Hw]; [lia |]. rewrite Hw in Hlw. simpl in Hlw. lia. }
  rewrite Hskip. mred.
  assert (Hrec : ∀ out1 st1, out_holds size out1 st1 →
    ∃ out' b, normalize_loop fuel (s ++ junk) (zlen s) out1 size (zlen (render st1)) (Z.of_nat (i + n1 + n2)) = Ret (out', b) ∧
    zlen out' = zlen out1 ∧
    match resolve size st1 (components (drop (i + n1 + n2) s)) with
    | Some st' => b = true ∧ out_holds size out' st'
    | None => b = false ∧ ∃ junk', out' = 0 :: junk'
    end) by (intros out1 st1 H1; apply IH; [lia.. | done]).
  rewrite Hcomp. destruct (decide (n2 = O)) as [E0|E0].
  { rewrite bool_decide_true by auto. by apply Hrec. }
  cbn [resolve]. destruct (decide (w = [DOT])) as [Ed|Ed].
  { rewrite bool_decide_true by auto. by apply Hrec. }
  rewrite bool_decide_false by (by intros [?|?]).
  assert (Hdd : (if Z.of_nat n2 =? 2 then c ← rd (s ++ junk) (Z.of_nat (i + n1));
     if c =? DOT then d ← rd (s ++ junk) (Z.of_nat (i + n1) + 1); Ret (d =? DOT) else Ret false else Ret false)
     = Ret (bool_decide (w = [DOT; DOT]))).
  { destruct (Z.eqb_spec (Z.of_nat n2) 2) as [E2|E2].
    - destruct (Hrd O) as (c & Hc & Hc'); [lia |]. rewrite Nat.add_0_r in Hc'. rewrite Hc'. mred.
      destruct (Hrd 1%nat) as (d & Hd & Hd'); [lia |].
      replace (Z.of_nat (i + n1) + 1) with (Z.of_nat (i + n1 + 1)) by lia. rewrite Hd'. mred.
      destruct w as [|c' [|d' [|]]]; simpl in *; simplify_eq; try lia.
      destruct (Z.eqb_spec c DOT) as [->|]; [destruct (Z.eqb_spec d DOT) as [->|] |].
      + by rewrite bool_decide_true.
      + rewrite bool_decide_false; [done |]. intros [= ?]. done.
      + rewrite bool_decide_false; [done |]. intros [= ? ?]. done.
    - rewrite bool_decide_false; [done |]. intros Hw. rewrite Hw in Hlw. simpl in Hlw. lia. }
  rewrite Hdd. mred.
  assert (Hfail : ∀ out1, zlen out1 = zlen out → ∃ out' b, path_fail out1 size = Ret (out', b) ∧
    zlen out' = zlen out ∧ b = false ∧ ∃ junk', out' = 0 :: junk').
  { intros out1 H1. destruct Ho as (_ & Hsz & _ & _). unfold path_fail.
    destruct (Z.eqb_spec size 0); [lia |]. destruct out1 as [|x out1]; [unfold zlen in *; simpl in *; lia |].
    rewrite wr_inbounds by lia. mred. eexists _, false. split; [done |]. rewrite zlen_insert. eauto. }
  destruct (decide (w = [DOT; DOT])) as [Edd|Edd].
  - rewrite bool_decide_true by done. destruct st as [|c0 st0] eqn:Est.
    + cbn [render]. rewrite zlen_1. unfold path_pop_component. change (1 <=? 1) with true. cbn iota. mred.
      destruct (Hfail out) as (out' & b & -> & H1 & -> & H2); [done |]. by exists out', false.
    + rewrite <- Est in *. destruct (path_pop_component_spec size out st Ho) as (out1 & -> & Hz & Ho1); [by subst |].
      mred. destruct (Hrec out1 _ Ho1) as (out' & b & -> & H1 & H2). exists out', b.
      split; [done |]. split; [lia |]. by rewrite Est in *.
  - rewrite bool_decide_false by done.
    pose proof (path_append_component_spec size out st (drop (Z.to_nat (Z.of_nat (i + n1))) (s ++ junk)) (Z.of_nat n2) Ho) as Happ.
    rewrite Nat2Z.id in Happ |- *. rewrite drop_app_le in Happ |- * by lia.
    rewrite Nat2Z.id, take_app_le in Happ by (rewrite length_drop; lia). fold w in Happ.
    specialize (Happ ltac:(unfold zlen; rewrite length_app, length_drop; lia) Hnw). cbn zeta in Happ.
    destruct (comp_allowed w && (zlen (render (st ++ [w])) <? size)).
    + destruct Happ as (out1 & -> & Hz & Ho1). mred.
      destruct (Hrec out1 _ Ho1) as (out' & b & -> & H1 & H2). exists out', b.
      split; [done |]. split; [lia | done].
    + rewrite Happ. mred. destruct (Hfail out) as (out' & b & -> & H1 & -> & H2); [done |]. by exists out', false.
Qed.

(** ** Canonical paths *)

(** The components a normalised path may have. *)
Definition good_comp (c : list Z) : Prop :=
  c ≠ [] ∧ noslash c ∧ comp_allowed c = true ∧ c ≠ [DOT] ∧ c ≠ [DOT; DOT].

Lemma components_good s : Forall (λ c, c ≠ [] ∧ noslash c) (components s).
Proof.
  unfold components. assert (H : Forall noslash (split_slash s)).
  { induction s as [|c s IH]; simpl; [by repeat constructor |].
    destruct (is_slash c) eqn:E; [constructor; [constructor | done] |].
    destruct (split_slash s) as [|h r]; [by repeat constructor |].
    apply Forall_cons in IH as [? ?]. by repeat constructor. }
  apply Forall_forall. intros c [Hne Hin]%list_elem_of_filter. split; [done |].
  by apply (Forall_forall noslash (split_slash s)) in Hin.
Qed.

Lemma removelast_Forall {A} (P : A → Prop) l : Forall P l → Forall P (removelast l).
Proof.
  intros H. destruct l as [|x l] using rev_ind; [done |].
  rewrite removelast_last. by apply Forall_app in H as [? _].
Qed.

Lemma resolve_good size st cs st' :
  Forall (λ c, c ≠ [] ∧ noslash c) cs → Forall good_comp st →
  resolve size st cs = Some st' → Forall good_comp st'.
Proof.
  intros Hcs. revert st. induction Hcs as [|c cs [Hne Hns] Hcs IH]; intros st Hst; simpl.
  { by intros [= <-]. }
  repeat case_decide; [by apply IH | |].
  - destruct st; [done |]. by apply IH, removelast_Forall.
  - destruct (comp_allowed c) eqn:E; simpl; [| done].
    destruct (zlen _ <? size); [| done]. apply IH, Forall_app. by repeat constructor.
Qed.

Lemma normal_form_good size s r :
  normal_form size s = Some r → ∃ st, Forall good_comp st ∧ r = render st.
Proof.
  unfold normal_form. destruct s as [|c s]; [done |]. case_match; [| done].
  destruct (resolve size [] (components (c :: s))) as [st|] eqn:E; simpl; [| done].
  intros [= <-]. exists st. split; [| done]. eapply resolve_good; [apply components_good | done | done].
Qed.

Lemma good_nonul c : good_comp c → nonul c.
Proof.
  intros (_ & _ & H & _). unfold comp_allowed in H. apply andb_true_iff in H as [_ H].
  apply forallb_forall, Forall_forall in H || rewrite forallb_forall in H.
  apply Forall_forall. intros x Hx ->. apply list_elem_of_In in Hx.
  specialize (H 0 Hx). done.
Qed.

Lemma render_nonul st : Forall good_comp st → nonul (render st).
Proof.
  intros H. destruct (decide (st = [])) as [->|E]; [by repeat constructor |].
  rewrite <- concat_slash_ne by done. clear E. induction H as [|c st Hc H IH]; [constructor |].
  simpl. constructor; [done |]. apply Forall_app. split; [by apply good_nonul | done].
Qed.

Lemma components_render st : Forall good_comp st → components (render st) = st.
Proof.
  intros H. destruct (decide (st = [])) as [->|E]; [done |].
  rewrite <- concat_slash_ne by done. clear E. induction H as [|c st Hc H IH]; [done |].
  simpl. rewrite components_slash by done. destruct Hc as (Hne & Hns & _).
  rewrite components_word; [by rewrite IH | done | done | by destruct st].
Qed.

Lemma render_mono st1 st2 : zlen (render st1) ≤ zlen (render (st1 ++ st2)).
Proof.
  destruct st1 as [|c st1].
  - destruct st2 as [|c st2]; [done |]. simpl. autorewrite with zlen. pose proof (zlen_nonneg c). pose proof (zlen_nonneg (concat (map (cons SLASH) st2))). lia.
  - simpl. rewrite map_app, concat_app. autorewrite with zlen.
    pose proof (zlen_nonneg (concat (map (cons SLASH) st2))). lia.
Qed.

Lemma resolve_fixpoint size pre st :
  Forall good_comp st → zlen (render (pre ++ st)) < size → resolve size pre st = Some (pre ++ st).
Proof.
  intros H. revert pre. induction H as [|c st Hc H IH]; intros pre Hfit; simpl.
  { by rewrite app_nil_r. }
  destruct Hc as (Hne & Hns & Hal & Hd & Hdd). rewrite !decide_False by done. rewrite Hal.
  replace (pre ++ c :: st) with ((pre ++ [c]) ++ st) in * by (by rewrite <- app_assoc).
  pose proof (render_mono (pre ++ [c]) st).
  destruct (Z.ltb_spec (zlen (render (pre ++ [c]))) size); [| lia]. simpl. by apply IH.
Qed.

Lemma normal_form_render size st :
  Forall good_comp st → zlen (render st) < size → size ≤ VFS_PATH_MAX →
  normal_form size (render st) = Some (render st).
Proof.
  intros H Hfit Hmax. unfold normal_form.
  assert (∃ t, render st = SLASH :: t) as [t Ht] by (destruct st; simpl; eauto).
  rewrite Ht at 1. rewrite components_render by done.
  destruct (Z.ltb_spec (zlen (render st)) VFS_PATH_MAX); [| lia]. cbn.
  by rewrite (resolve_fixpoint size [] st) by done.
Qed.

(** ** The normaliser *)

Lemma strnlen_snapshot inp s stk :
  cstr_at inp s → zlen stk = VFS_PATH_MAX →
  ∃ o, path_snapshot_input inp stk = Ret o ∧
    match o with
    | Some (tmp, n) => (∃ t, s = SLASH :: t) ∧ zlen s < VFS_PATH_MAX ∧ n = zlen s ∧ ∃ junk, tmp = s ++ junk
    | None => s = [] ∨ VFS_PATH_MAX ≤ zlen s ∨ ∃ c t, s = c :: t ∧ is_slash c = false
    end.
Proof.
  intros Hs Hstk. unfold path_snapshot_input.
  rewrite (strnlen_spec inp s) by done. mred. pose proof Hs as [Hn [rest ->]].
  pose proof (zlen_nonneg s). unfold VFS_PATH_MAX in *.
  destruct (Z.eqb_spec (256 `min` zlen s) 0) as [E|E]; cbn [orb].
  { exists None. split; [done |]. left. destruct s; [done |]. rewrite zlen_cons in *. pose proof (zlen_nonneg s). lia. }
  destruct (Z.leb_spec 256 (256 `min` zlen s)); [exists None; split; [done | lia] |].
  destruct s as [|c t]; [done |]. simpl app. rewrite rd_cons_0. mred.
  destruct (Z.eqb_spec c SLASH) as [->|Hc]; cbn [negb].
  2: { exists None. split; [done |]. right. right. exists c, t. split; [done |]. by apply Z.eqb_neq. }
  rewrite Z.min_r by lia. set (s := SLASH :: t) in *.
  rewrite memcpy_spec; [| lia | unfold s; autorewrite with zlen; pose proof (zlen_nonneg rest); lia]. mred.
  change (SLASH :: t ++ 0 :: rest) with (s ++ 0 :: rest).
  assert (take (Z.to_nat (zlen s)) (s ++ 0 :: rest) = s) as ->.
  { unfold zlen. by rewrite Nat2Z.id, take_app_length. }
  unfold blit. rewrite take_0. cbn [app]. rewrite wr_middle. 
  - mred. eexists. split; [done |]. cbn beta iota. split_and!; [by exists t | lia | done | by eexists].
  - intros E'. apply (f_equal length) in E'. rewrite length_drop in E'. unfold zlen in *. simpl in *. lia.
Qed.

Lemma path_normalize_spec stk inp s out size :
  cstr_at inp s → zlen stk = VFS_PATH_MAX → 2 ≤ size ≤ zlen out →
  ∃ out', path_normalize stk (Some inp) (Some out) size =
            Ret (Some out', bool_decide (is_Some (normal_form size s))) ∧
    zlen out' = zlen out ∧ cstr_at out' (default [] (normal_form size s)).
Proof.
  intros Hs Hstk Hsz. unfold path_normalize.
  destruct (Z.eqb_spec size 0); [lia |]. cbn [negb]. rewrite wr_inbounds by lia. mred.
  destruct (Z.ltb_spec size 2); [lia |].
  destruct (strnlen_snapshot inp s stk Hs Hstk) as (o & -> & Ho). mred.
  destruct out as [|x [|y out]]; [unfold zlen in Hsz; simpl in Hsz; lia.. |].
  destruct o as [[tmp len]|].
  - destruct Ho as ((t & Et) & Hmax & -> & junk & ->). 
    rewrite wr_inbounds by (rewrite zlen_insert; lia). mred.
    rewrite wr_inbounds by (rewrite !zlen_insert; lia). mred. cbn [insert list_insert Z.to_nat].
    change (Z.to_nat 0) with O. change (Z.to_nat 1) with 1%nat. cbn [insert list_insert].
    destruct (normalize_loop_spec (Z.to_nat (zlen s)) s junk size (SLASH :: 0 :: out) [] 0)
      as (out' & b & Hrun & Hlen & Hres); [lia | lia | unfold zlen; lia | |].
    { split_and!; [by exists out | rewrite !zlen_cons in *; lia | change (zlen (render [])) with 1; lia | constructor]. }
    change (Z.of_nat 0) with 0 in Hrun. change (zlen (render [])) with 1 in Hrun.
    rewrite Hrun. mred. exists out'. rewrite drop_0 in Hres.
    assert (Hnf : normal_form size s = render <$> resolve size [] (components s)).
    { unfold normal_form. subst s. simpl is_slash. cbn [andb].
      by destruct (Z.ltb_spec (zlen (SLASH :: t)) VFS_PATH_MAX); [| lia]. }
    pose proof (resolve_good size [] (components s)) as Hgood. rewrite Hnf.
    destruct (resolve size [] (components s)) as [st|]; simpl.
    + destruct Hres as [-> ((j & ->) & _)]. split_and!; [done | |].
      * rewrite !zlen_cons in *. lia.
      * split; [| by exists j]. apply render_nonul, (Hgood st); [apply components_good | done | done].
    + destruct Hres as [-> (j & ->)].
      split_and!; [done | rewrite !zlen_cons in *; lia |]. split; [constructor | by exists j].
  - assert (Hnf : normal_form size s = None).
    { unfold normal_form. destruct Ho as [->|[Hl|(c & t & -> & Hc)]]; [done | |].
      - destruct s; [done |]. destruct (Z.ltb_spec (zlen (z :: s)) VFS_PATH_MAX); [lia |].
        by rewrite andb_false_r.
      - by rewrite Hc. }
    rewrite Hnf. rewrite bool_decide_false by (by intros [? ?]). eexists. split; [done |].
    rewrite zlen_insert. split; [done |]. split; [constructor | by eexists].
Qed.

Lemma resolve_fits size st cs st' :
  zlen (render st) < size → resolve size st cs = Some st' →
  Forall (λ c, c ≠ []) st → Forall (λ c, c ≠ []) cs → zlen (render st') < size.
Proof.
  intros Hfit Hr Hst Hcs. revert st Hfit Hr Hst.
  induction Hcs as [|c cs Hne Hcs IH]; intros st Hfit; simpl; [by intros [= <-] |].
  repeat case_decide; [by apply IH | |].
  - destruct st as [|x st] using rev_ind; [done |]. rewrite removelast_last.
    pose proof (render_mono st [x]). intros Hr [Hst _]%Forall_app.
    apply (IH st); [lia | | done]. by destruct st.
  - destruct (comp_allowed c); simpl; [| done].
    destruct (Z.ltb_spec (zlen (render (st ++ [c]))) size); [| done].
    intros Hr Hst. apply (IH (st ++ [c])); [done | done |]. apply Forall_app. by repeat constructor.
Qed.

Lemma normal_form_fits size s r : 2 ≤ size → normal_form size s = Some r → zlen r < size.
Proof.
  intros Hs. unfold normal_form. destruct s as [|c s]; [done |]. case_match; [| done].
  destruct (resolve size [] (components (c :: s))) as [st|] eqn:E; simpl; [| done].
  intros [= <-]. eapply resolve_fits; [| exact E | constructor |].
  - change (zlen (render [])) with 1. lia.
  - eapply Forall_impl; [apply components_good |]. by intros ? [? _].
Qed.

(** C10: on a C string [path_normalize] never leaves its buffers and computes the
    normal form: it returns true exactly when the dot and dot-dot components
    resolve without leaving the root, every name is allowed and the result fits,
    and the caller's buffer then holds the normal form as a C string; otherwise
    it holds the empty string.  A normal form is the rendering of components
    that are non-empty, slash-free, allowed and neither dot nor dot-dot. *)
Theorem path_normalize_correct (stk inp s out : list Z) (size : Z) :
  cstr_at inp s → zlen stk = VFS_PATH_MAX → 2 ≤ size ≤ zlen out →
  (∃ out', path_normalize stk (Some inp) (Some out) size =
            Ret (Some out', bool_decide (is_Some (normal_form size s))) ∧
    zlen out' = zlen out ∧ cstr_at out' (default [] (normal_form size s))) ∧
  ∀ r, normal_form size s = Some r →
    zlen r < size ∧ ∃ st, Forall good_comp st ∧ r = render st.
Proof.
  intros Hs Hstk Hsz. split; [by apply path_normalize_spec |]. intros r Hr.
  split; [eapply normal_form_fits; [lia | done] | by eapply normal_form_good].
Qed.

Lemma path_normalize_correct_witness :
  ∃ out', path_normalize (replicate 256 7) (Some (lit "/a/../b")) (Some (replicate 4 1)) 4
          = Ret (Some out', true) ∧ cstr_at out' (bytes_of "/b").
Proof.
  destruct (path_normalize_correct (replicate 256 7) (lit "/a/../b") (bytes_of "/a/../b") (replicate 4 1) 4)
    as [(out' & H1 & _ & H2) _].
  - split; [repeat (constructor; [discriminate |]); constructor | exists []; reflexivity].
  - reflexivity.
  - vm_compute. split; congruence.
  - exists out'. split; [exact H1 | exact H2].
Defined.

(** Normalising is idempotent: when a path normalises within [size] bytes
    ([size] at most [VFS_PATH_MAX]), normalising the result again succeeds and
    leaves the same string. *)
Theorem path_normalize_idempotent (stk stk' inp s out out1 out2 : list Z) (size : Z) :
  cstr_at inp s → zlen stk = VFS_PATH_MAX → zlen stk' = VFS_PATH_MAX →
  2 ≤ size ≤ VFS_PATH_MAX → size ≤ zlen out → size ≤ zlen out2 →
  path_normalize stk (Some inp) (Some out) size = Ret (Some out1, true) →
  ∃ r out3, cstr_at out1 r ∧
    path_normalize stk' (Some out1) (Some out2) size = Ret (Some out3, true) ∧ cstr_at out3 r.
Proof.
  intros Hs Hstk Hstk' Hsz Hl Hl2 Hrun.
  destruct (path_normalize_spec stk inp s out size Hs Hstk) as (o & Hrun' & Hz & Ho); [lia |].
  rewrite Hrun in Hrun'. injection Hrun' as -> Hb. symmetry in Hb. apply bool_decide_eq_true in Hb as [r Hr].
  rewrite Hr in Ho. simpl in Ho. exists r.
  destruct (normal_form_good size s r Hr) as (st & Hst & ->).
  pose proof (normal_form_fits size s _ ltac:(lia) Hr).
  destruct (path_normalize_spec stk' o (render st) out2 size Ho Hstk') as (o3 & Hrun3 & _ & Ho3); [lia |].
  rewrite normal_form_render in Hrun3, Ho3 by (done || lia). exists o3. split_and!; done.
Qed.

Lemma path_normalize_idempotent_witness :
  ∃ r out3, cstr_at (lit "/a/d" ++ [0; 1; 1]) r ∧
    path_normalize (replicate 256 0) (Some (lit "/a/d" ++ [0; 1; 1])) (Some (replicate 8 3)) 8 = Ret (Some out3, true) ∧
    cstr_at out3 r.
Proof.
  apply (path_normalize_idempotent (replicate 256 7) (replicate 256 0) (lit "//a/./bc/../d//")
           (bytes_of "//a/./bc/../d//") (replicate 8 1) _ _ 8).
  - split; [repeat (constructor; [discriminate |]); constructor | exists []; reflexivity].
  - reflexivity.
  - reflexivity.
  - vm_compute. split; congruence.
  - vm_compute. congruence.
  - vm_compute. congruence.
  - vm_compute. reflexivity.
Defined.

(** ** Joining *)

(** The string [path_join] hands to the normaliser. *)
Definition joined (b l : list Z) : list Z :=
  (if decide (last b = Some SLASH) then b else b ++ [SLASH]) ++ l.

Lemma last_rd (b t : list Z) : b ≠ [] → ∃ c, last b = Some c ∧ rd (b ++ t) (zlen b - 1) = Ret c.
Proof.
  intros Hb. destruct b as [|c b] using rev_ind; [done |]. exists c. rewrite last_snoc. split; [done |].
  rewrite zlen_app, zlen_1, <- app_assoc. rewrite rd_app_r by lia.
  by replace (zlen b + 1 - 1 - zlen b) with 0 by lia.
Qed.

Lemma path_join_builds stk stk2 base leaf b l out size :
  cstr_at base b → cstr_at leaf l → zlen stk2 = VFS_PATH_MAX * 2 → 1 ≤ size ≤ zlen out →
  0 < zlen b < VFS_PATH_MAX → zlen l < VFS_PATH_MAX →
  ∃ tmp, path_join stk stk2 (Some base) (Some leaf) (Some out) size =
           path_normalize stk (Some tmp) (Some (<[O := 0]> out)) size ∧ cstr_at tmp (joined b l).
Proof.
  intros Hb Hl Hstk2 Hsz Hbl Hll. unfold path_join.
  destruct (Z.eqb_spec size 0); [lia |]. cbn [negb]. rewrite wr_inbounds by lia. mred.
  rewrite (strnlen_spec base b), (strnlen_spec leaf l) by done. mred.
  rewrite !Z.min_r by lia. pose proof (zlen_nonneg l).
  assert ((zlen b =? 0) || (VFS_PATH_MAX <=? zlen b) || (VFS_PATH_MAX <=? zlen l) = false) as -> by lia.
  unfold VFS_PATH_MAX in *.
  assert (add_u64 (zlen b) (zlen l) = Some (zlen b + zlen l)) as -> by (apply add_u64_Some; ulia).
  assert (add_u64 (zlen b + zlen l) 2 = Some (zlen b + zlen l + 2)) as E by (apply add_u64_Some; ulia).
  cbn [mbind option_bind]. rewrite E. destruct (Z.ltb_spec (256 * 2) (zlen b + zlen l + 2)); [lia |].
  pose proof Hb as [Hbn [rb ->]]. pose proof Hl as [Hln [rl ->]].
  rewrite memcpy_spec; [| lia | rewrite zlen_app, zlen_cons; pose proof (zlen_nonneg rb); lia]. mred.
  assert (take (Z.to_nat (zlen b)) (b ++ 0 :: rb) = b) as ->.
  { unfold zlen. by rewrite Nat2Z.id, take_app_length. }
  unfold blit. rewrite take_0. cbn [app]. set (t := drop (0 + length b) stk2).
  assert (Ht : zlen t = 512 - zlen b).
  { unfold t, zlen in *. rewrite length_drop. lia. }
  destruct (Z.eqb_spec (zlen b) 0); [lia |].
  destruct (last_rd b t) as (c & Hlast & ->); [intros ->; done |]. mred.
  set (pre := if decide (last b = Some SLASH) then b else b ++ [SLASH]).
  assert (∃ t', (if negb (c =? SLASH) then t0 ← wr (b ++ t) (zlen b) SLASH; Ret (t0, zlen b + 1)
                 else Ret (b ++ t, zlen b)) = Ret (pre ++ t', zlen pre) ∧
                zlen pre + zlen t' = 512 ∧ zlen pre ≤ zlen b + 1) as (t' & -> & Ht' & Hpre).
  { unfold pre. rewrite Hlast. destruct (Z.eqb_spec c SLASH) as [->|Hc]; cbn [negb].
    - rewrite decide_True by done. exists t. split; [done |]. lia.
    - rewrite decide_False by (intros [= ?]; done). rewrite wr_middle.
      + mred. exists (drop 1 t). rewrite zlen_app, zlen_1, <- app_assoc. split; [done |].
        unfold zlen in *. rewrite length_drop. lia.
      + intros E0. rewrite E0 in Ht. unfold zlen at 1 in Ht. simpl in Ht. lia. }
  mred. rewrite <- res_bind_assoc.
  rewrite put_string; [| lia | rewrite zlen_app, zlen_cons; pose proof (zlen_nonneg rl); lia | lia].
  mred. eexists. split; [done |].
  assert (take (Z.to_nat (zlen l)) (l ++ 0 :: rl) = l) as ->.
  { unfold zlen. by rewrite Nat2Z.id, take_app_length. }
  split; [| by eexists]. apply Forall_app. split; [| done]. unfold pre. case_decide; [done |].
  apply Forall_app. split; [done | by repeat constructor].
Qed.

(** [path_join] of a non-empty base and a leaf, both shorter than
    [VFS_PATH_MAX], is the normal form of the two with exactly one separator
    supplied when the base does not end in one; the result cannot leave the
    root even when the leaf climbs with dot-dot. *)
Theorem path_join_correct (stk stk2 base leaf b l out : list Z) (size : Z) :
  cstr_at base b → cstr_at leaf l → zlen stk = VFS_PATH_MAX → zlen stk2 = VFS_PATH_MAX * 2 →
  2 ≤ size ≤ zlen out → 0 < zlen b < VFS_PATH_MAX → zlen l < VFS_PATH_MAX →
  ∃ out', path_join stk stk2 (Some base) (Some leaf) (Some out) size =
            Ret (Some out', bool_decide (is_Some (normal_form size (joined b l)))) ∧
    zlen out' = zlen out ∧ cstr_at out' (default [] (normal_form size (joined b l))).
Proof.
  intros Hb Hl Hstk Hstk2 Hsz Hbl Hll.
  destruct (path_join_builds stk stk2 base leaf b l out size) as (tmp & -> & Htmp); [done.. | lia | done | done |].
  destruct (path_normalize_spec stk tmp (joined b l) (<[O := 0]> out) size Htmp Hstk) as (out' & H1 & H2 & H3).
  { rewrite zlen_insert. lia. }
  rewrite zlen_insert in H2. eauto.
Qed.

Lemma path_join_correct_witness :
  ∃ out', path_join (replicate 256 7) (replicate 512 7) (Some (lit "/usr")) (Some (lit "../bin")) (Some (replicate 9 1)) 9
          = Ret (Some out', true) ∧ cstr_at out' (bytes_of "/bin").
Proof.
  destruct (path_join_correct (replicate 256 7) (replicate 512 7) (lit "/usr") (lit "../bin")
    (bytes_of "/usr") (bytes_of "../bin") (replicate 9 1) 9) as (out' & H1 & _ & H2).
  - split; [repeat (constructor; [discriminate |]); constructor | exists []; reflexivity].
  - split; [repeat (constructor; [discriminate |]); constructor | exists []; reflexivity].
  - reflexivity.
  - reflexivity.
  - vm_compute. split; congruence.
  - vm_compute. split; congruence.
  - vm_compute. congruence.
  - exists out'. split; [exact H1 | exact H2].
Defined.

(** ** Walking a path *)

Lemma skip_slashes_spec s t : skip_slashes (s ++ 0 :: t) = Ret (drop (prefix_len is_slash s) s ++ 0 :: t).
Proof.
  induction s as [|c s IH]; [done |]. simpl. change (c =? SLASH) with (is_slash c). by destruct (is_slash c).
Qed.

Lemma skip_component_spec s t :
  nonul s →
  let n := prefix_len (λ c, negb (is_slash c)) s in
  skip_component (s ++ 0 :: t) = Ret (Z.of_nat n, drop n s ++ 0 :: t).
Proof.
  induction 1 as [|c s Hc Hs IH]; [done |]. simpl. change (c =? SLASH) with (is_slash c).
  destruct (Z.eqb_spec c 0); [done |]. simpl. destruct (is_slash c); simpl; [done |].
  rewrite IH. mred. do 2 f_equal. lia.
Qed.

(** One call takes the first component off the cursor. *)
Lemma path_next_component_spec cur s buf size :
  cstr_at cur s → 0 < size ≤ zlen buf →
  ∃ cur' buf' ok, path_next_component cur buf size = Ret (cur', buf', ok) ∧ zlen buf' = zlen buf ∧
    (∃ s', cstr_at cur' s' ∧ components s' = drop 1 (components s)) ∧
    match components s with
    | c :: _ => if (zlen c <? size) && forallb path_component_byte_allowed c
                then ok = true ∧ cstr_at buf' c else ok = false ∧ cstr_at buf' []
    | [] => ok = false ∧ cstr_at buf' []
    end.
Proof.
  intros [Hs [t ->]] Hsz. unfold path_next_component.
  destruct (Z.eqb_spec size 0); [lia |]. rewrite wr_inbounds by lia. mred. rewrite skip_slashes_spec. mred.
  set (n1 := prefix_len is_slash s). pose proof (prefix_len_drop is_slash s) as Hd. fold n1 in Hd.
  pose proof (prefix_len_take is_slash s) as Hsl. fold n1 in Hsl.
  assert (Hc1 : components s = components (drop n1 s)).
  { rewrite <- (take_drop n1 s) at 1. by apply components_slashes. }
  assert (Hn : nonul (drop n1 s)) by (by apply Forall_drop).
  destruct buf as [|b0 buf]; [unfold zlen in Hsz; simpl in Hsz; lia |].
  assert (Hempty : cstr_at (0 :: buf) []) by (split; [constructor | by exists buf]).
  change (<[Z.to_nat 0 := 0]> (b0 :: buf)) with (0 :: buf).
  assert (Hz0 : zlen (0 :: buf) = zlen (b0 :: buf)) by done. rewrite <- Hz0 in *.
  destruct (drop n1 s) as [|c w] eqn:E.
  { cbn [app]. rewrite rd_cons_0. mred. rewrite Z.eqb_refl. eexists _, _, _. split; [done |].
    rewrite Hc1. split_and!; try done. exists []. split; [| done]. split; [constructor | by exists t]. }
  cbn [app]. rewrite rd_cons_0. mred. inversion Hn as [|? ? Hc0 Hn']; subst.
  destruct (Z.eqb_spec c 0); [done |].
  change (c :: w ++ 0 :: t) with ((c :: w) ++ 0 :: t). rewrite skip_component_spec by done.
  pose proof (prefix_len_take (λ c, negb (is_slash c)) (c :: w)) as Hw.
  pose proof (prefix_len_drop (λ c, negb (is_slash c)) (c :: w)) as Hr.
  pose proof (prefix_len_le (λ c, negb (is_slash c)) (c :: w)) as Hle.
  assert (Hpos : (0 < prefix_len (λ c, negb (is_slash c)) (c :: w))%nat) by (simpl; rewrite Hd; simpl; lia).
  set (n2 := prefix_len (λ c, negb (is_slash c)) (c :: w)) in *. mred.
  set (wd := take n2 (c :: w)) in *. set (rest := drop n2 (c :: w)) in *.
  assert (Hlw : length wd = n2) by (unfold wd; rewrite length_take; lia).
  assert (Hcomp : components s = wd :: components rest).
  { rewrite Hc1. rewrite <- (take_drop n2 (c :: w)). fold wd rest. apply components_word.
    - intros Hwd. rewrite Hwd in Hlw. simpl in Hlw. lia.
    - eapply Forall_impl; [exact Hw |]. intros x Hx. by apply negb_true_iff.
    - destruct rest; simpl in *; [done |]. by destruct (is_slash z). }
  assert (Hrest : ∃ s', cstr_at (rest ++ 0 :: t) s' ∧ components s' = drop 1 (components s)).
  { exists rest. rewrite Hcomp. simpl. rewrite drop_0. split; [| done]. split; [| by exists t].
    by apply Forall_drop. }
  rewrite Hcomp. replace (zlen wd) with (Z.of_nat n2) by (unfold zlen; lia).
  destruct (Z.leb_spec size (Z.of_nat n2)), (Z.ltb_spec (Z.of_nat n2) size); try lia; cbn [andb].
  { rewrite wr_inbounds by lia. mred. eexists _, _, _. rewrite Hcomp in Hrest. by split_and!. }
  rewrite component_bytes_allowed_spec by (unfold zlen; rewrite length_app; lia).
  rewrite Nat2Z.id, take_app_le by lia. fold wd. mred.
  destruct (forallb path_component_byte_allowed wd); cbn [negb].
  2: { rewrite wr_inbounds by lia. mred. eexists _, _, _. rewrite Hcomp in Hrest. by split_and!. }
  rewrite memcpy_spec; [| lia | unfold zlen; rewrite length_app; lia]. mred.
  rewrite Nat2Z.id, take_app_le by lia. fold wd. unfold blit. rewrite take_0. cbn [app].
  replace (Z.of_nat n2) with (zlen wd) by (unfold zlen; lia). rewrite wr_middle.
  - mred. eexists _, _, _. rewrite Hcomp in Hrest. split_and!; try done.
    + rewrite zlen_app, zlen_cons. unfold zlen in *. rewrite !length_drop. lia.
    + split; [| by eexists]. by apply Forall_take.
  - intros E0. apply (f_equal length) in E0. rewrite length_drop in E0. unfold zlen in *. simpl in *. lia.
Qed.

(** The client loop: [while (path_next_component(&cursor, buf, size))], collecting
    the component strings. *)
Fixpoint path_walk (fuel : nat) (cur buf : list Z) (size : Z) : res (list (list Z)) :=
  '(cur, buf, ok) ← path_next_component cur buf size;
  if (ok : bool) then
    match fuel with
    | O => Fault Diverged
    | S f =>
        n ← strlen (Some buf);
        cs ← path_walk f cur buf size;
        Ret (take (Z.to_nat n) buf :: cs)
    end
  else Ret [].

(** A component that a buffer of [size] bytes can take. *)
Definition comp_fits (size : Z) (c : list Z) : bool := (zlen c <? size) && forallb path_component_byte_allowed c.

(** The components before the first that is refused. *)
Fixpoint leading (size : Z) (cs : list (list Z)) : list (list Z) :=
  match cs with [] => [] | c :: cs => if comp_fits size c then c :: leading size cs else [] end.

Lemma leading_all size cs : Forall (λ c, comp_fits size c = true) cs → leading size cs = cs.
Proof. induction 1 as [|c cs Hc _ IH]; cbn [leading]; [done |]. by rewrite Hc, IH. Qed.

Lemma path_walk_spec fuel cur s buf size :
  cstr_at cur s → 0 < size ≤ zlen buf → (length (components s) ≤ fuel)%nat →
  path_walk fuel cur buf size = Ret (leading size (components s)).
Proof.
  revert cur s buf. induction fuel as [|fuel IH]; intros cur s buf Hs Hsz Hf; cbn [path_walk];
    destruct (path_next_component_spec cur s buf size Hs Hsz)
      as (cur' & buf' & ok & -> & Hz & (s' & Hs' & Hc') & Hok); mred;
    (destruct (components s) as [|c cs]; [by destruct Hok as [-> _] |]); simpl in Hf; [lia |].
  cbn [leading]. fold (comp_fits size c) in Hok. destruct (comp_fits size c); [| by destruct Hok as [-> _]]. destruct Hok as [-> Hb].
  cbn [strlen]. rewrite (strlen_from_spec buf' c) by done. mred. simpl in Hc'. rewrite drop_0 in Hc'.
  rewrite (IH cur' s' buf'); [| done | lia | rewrite Hc'; lia]. mred.
  destruct Hb as [_ [rest ->]]. unfold zlen. by rewrite Nat2Z.id, take_app_length, Hc'.
Qed.

(** C37: walking any path with [path_next_component] and a buffer of any size terminates,
    after no more calls than the path has components and one: it yields the components in
    order up to the first that is too long for the buffer or holds a byte that is not
    allowed, and stops there.  On a normalised path with a name buffer of [VFS_NAME_MAX]
    bytes there is none such, and it yields all. *)
Theorem path_walk_components (cur s buf : list Z) (size : Z) (fuel : nat) :
  cstr_at cur s → 0 < size ≤ zlen buf → (length (components s) ≤ fuel)%nat →
  path_walk fuel cur buf size = Ret (leading size (components s)) ∧
  (∀ st, Forall good_comp st → s = render st → VFS_NAME_MAX ≤ size → path_walk fuel cur buf size = Ret st).
Proof.
  intros Hs Hb Hf. pose proof (path_walk_spec fuel cur s buf size Hs Hb Hf) as E. split; [done |]. intros st Hst -> Hn.
  rewrite E, components_render, leading_all; [done | | done]. eapply Forall_impl; [exact Hst |]. intros c (_ & _ & H & _).
  unfold comp_fits. apply andb_true_iff in H as [H1 H2]. rewrite H2, andb_true_r. lia.
Qed.

Lemma path_walk_components_witness :
  path_walk 2 (lit "/usr/bin") (replicate 64 9) VFS_NAME_MAX = Ret [bytes_of "usr"; bytes_of "bin"] ∧
  path_walk 3 (lit "a//longer/b") (replicate 64 9) 5 = Ret [bytes_of "a"].
Proof.
  assert (H : ∀ s : string, nonul (bytes_of s) → cstr_at (lit s) (bytes_of s)) by (intros s Hn; split; [done | by exists []]).
  split.
  - destruct (path_walk_components (lit "/usr/bin") (bytes_of "/usr/bin") (replicate 64 9) VFS_NAME_MAX 2) as [_ E];
      [apply H; by repeat constructor | vm_compute; split; congruence | vm_compute; lia |].
    apply E; [| reflexivity | lia]. repeat (constructor; [split_and!; [discriminate | repeat constructor | reflexivity | discriminate | discriminate] |]). constructor.
  - destruct (path_walk_components (lit "a//longer/b") (bytes_of "a//longer/b") (replicate 64 9) 5 3) as [E _];
      [apply H; by repeat constructor | vm_compute; split; congruence | vm_compute; lia |]. exact E.
Defined.
