(* ===== verification/Printf.v ===== *)
(** * Formatted output: [kernel/core/printf.c] and [kernel/lib/format.c]

    One formatter drives two sinks: a bounded buffer ([kvsnprintf]) and a chunked
    emitter ([kvprintf_emit_buffered]).  Both are proved to deliver the text the
    pure function [format_text] assigns to the format string and its arguments. *)

From Stdlib Require Import ZArith Lia String.
From stdpp Require Import prelude list_numbers.
From S2P Require Import Prelude CString.

Local Open Scope Z_scope.

(** A variadic argument with the type it was passed at: the bits of an [int] or
    [unsigned], of a 64-bit integer, a string pointer, any other pointer. *)
Inductive varg :=
| VInt (bits : Z)
| VLong (bits : Z)
| VStr (s : option (list Z))
| VPtr (p : Z).

Definition as_signed (w bits : Z) : Z := if bits <? 2 ^ (w - 1) then bits else bits - 2 ^ w.

(** [emitted] records the calls of the [emit] callback, oldest first. *)
Record outbuf_t := mk_outbuf {
  ob_buf : option (list Z);
  ob_cap : Z;
  ob_len : Z;
  ob_used : Z;
  ob_emit : bool;
  ob_emitted : list (list Z);
}.

Definition PRINTF_MAX_WIDTH : Z := 4096.
Definition KPRINTF_CHUNK_SIZE : Z := 256.

Definition set_buf (o : outbuf_t) (b : list Z) : outbuf_t :=
  mk_outbuf (Some b) (ob_cap o) (ob_len o) (ob_used o) (ob_emit o) (ob_emitted o).
Definition set_used (o : outbuf_t) (u : Z) : outbuf_t :=
  mk_outbuf (ob_buf o) (ob_cap o) (ob_len o) u (ob_emit o) (ob_emitted o).
Definition emit_call (o : outbuf_t) (s : list Z) : outbuf_t :=
  mk_outbuf (ob_buf o) (ob_cap o) (ob_len o) (ob_used o) (ob_emit o) (ob_emitted o ++ [s]).

(** [if (out->len <= (usize)-1 - n) out->len += n; else out->len = (usize)-1;] *)
Definition add_len (o : outbuf_t) (n : Z) : outbuf_t :=
  mk_outbuf (ob_buf o) (ob_cap o)
    (if ob_len o <=? U64MAX - n then ob_len o + n else U64MAX)
    (ob_used o) (ob_emit o) (ob_emitted o).

(** The bytes [emit] is handed: [used] bytes from the start of the buffer. *)
Definition out_flush (o : outbuf_t) : res outbuf_t :=
  if negb (ob_emit o) || (ob_used o =? 0) then Ret o else
  match ob_buf o with
  | None => Fault OutOfBounds
  | Some b =>
      if zlen b <? ob_used o then Fault OutOfBounds
      else Ret (set_used (emit_call o (take (Z.to_nat (ob_used o)) b)) 0)
  end.

(** The chunk loop of [out_emit_bytes]. *)
Fixpoint emit_chunks (fuel : nat) (o : outbuf_t) (s : list Z) (off n : Z) : res outbuf_t :=
  if n <=? off then Ret o else
  match fuel with
  | O => Fault Diverged
  | S k =>
      let avail := ob_cap o - ob_used o in
      '(o, avail) ← (if avail =? 0 then o ← out_flush o; Ret (o, ob_cap o) else Ret (o, avail));
      let tk := if avail <? n - off then avail else n - off in
      match ob_buf o with
      | None => Fault OutOfBounds
      | Some b =>
          b ← at_offset (ob_used o) (λ d, memcpy d (drop (Z.to_nat off) s) tk) b;
          let o := set_used (set_buf o b) (ob_used o + tk) in
          o ← (if ob_used o =? ob_cap o then out_flush o else Ret o);
          emit_chunks k o s (off + tk) n
      end
  end.

Definition out_emit_bytes (o : outbuf_t) (s : list Z) (n : Z) : res outbuf_t :=
  if n =? 0 then Ret o else
  if negb (ob_emit o) then
    o ← (if negb (ob_cap o =? 0) && (ob_len o <? ob_cap o - 1) then
           let room := ob_cap o - 1 - ob_len o in
           let tk := if n <? room then n else room in
           match ob_buf o with
           | None => Fault OutOfBounds
           | Some b => b ← at_offset (ob_len o) (λ d, memcpy d s tk) b; Ret (set_buf o b)
           end
         else Ret o);
    Ret (add_len o n)
  else
    match ob_buf o with
    | Some _ =>
        if ob_cap o =? 0 then Ret (add_len (emit_call o (take (Z.to_nat n) s)) n)
        else o ← emit_chunks (Z.to_nat n) o s 0 n; Ret (add_len o n)
    | None => Ret (add_len (emit_call o (take (Z.to_nat n) s)) n)
    end.

Definition out_char (o : outbuf_t) (c : Z) : res outbuf_t := out_emit_bytes o [c] 1.

Definition out_str (o : outbuf_t) (s : option (list Z)) : res outbuf_t :=
  let s := default (lit "(null)") s in
  n ← strlen (Some s);
  out_emit_bytes o s n.

Definition out_repeat (o : outbuf_t) (c count : Z) : res outbuf_t :=
  for_n (Z.to_nat count) 0 (λ _ o, out_char o c) o.

(** [do digits[n++] = map[v % base]; v /= base; while (v);] on the local array of
    65 bytes. *)
Fixpoint digit_loop (fuel : nat) (map digits : list Z) (n v base : Z) : res (list Z * Z) :=
  match fuel with
  | O => Fault Diverged
  | S k =>
      c ← rd map (v mod base);
      digits ← wr digits n c;
      let v := v / base in
      if v =? 0 then Ret (digits, n + 1) else digit_loop k map digits (n + 1) v base
  end.

(** [while (n) out_char(out, digits[--n]);] *)
Fixpoint out_digits (n : nat) (digits : list Z) (o : outbuf_t) : res outbuf_t :=
  match n with
  | O => Ret o
  | S k => c ← rd digits (Z.of_nat k); o ← out_char o c; out_digits k digits o
  end.

Definition digit_map (upper : bool) : list Z :=
  if upper then lit "0123456789ABCDEF" else lit "0123456789abcdef".

Definition out_uint (o : outbuf_t) (v base : Z) (upper : bool) (width : Z) (pad_zero : bool)
  : res outbuf_t :=
  '(digits, n) ← digit_loop 65 (digit_map upper) (replicate 65 0) 0 v base;
  let pad := width - n in
  o ← out_repeat o (if pad_zero then 48 else 32) pad;
  out_digits (Z.to_nat n) digits o.

Definition out_int (o : outbuf_t) (v width : Z) (pad_zero : bool) : res outbuf_t :=
  if v <? 0 then
    o ← out_char o 45;
    let u := wrap64 (wrap64 (- (v + 1)) + 1) in
    out_uint o u 10 false (if 0 <? width then width - 1 else 0) pad_zero
  else out_uint o v 10 false width pad_zero.

(** ** The format string *)

Definition is_digit (c : Z) : bool := (48 <=? c) && (c <=? 57).

Fixpoint parse_width (p : list Z) (width : Z) : res (Z * list Z) :=
  match p with
  | [] => Fault OutOfBounds
  | c :: t =>
      if is_digit c then
        let digit := c - 48 in
        parse_width t (if Z.quot (PRINTF_MAX_WIDTH - digit) 10 <? width then PRINTF_MAX_WIDTH
                       else width * 10 + digit)
      else Ret (width, p)
  end.

(** [pad_zero], [width], [long_flag], [long_long_flag] and the format string from
    the conversion character on. *)
Definition parse_directive (p : list Z) : res (bool * Z * bool * bool * list Z) :=
  c ← rd p 0;
  let pad_zero := c =? 48 in
  '(width, p) ← parse_width (if pad_zero then drop 1 p else p) 0;
  c ← rd p 0;
  if c =? 108 then
    d ← rd p 1;
    if d =? 108 then Ret (pad_zero, width, true, true, drop 2 p)
    else Ret (pad_zero, width, true, false, drop 1 p)
  else Ret (pad_zero, width, false, false, p).

(** [va_arg] at a 32-bit or 64-bit integer type, and at the pointer types. *)
Definition arg_int (long : bool) (args : list varg) : res (Z * list varg) :=
  match args with
  | VInt z :: r => if long then Fault BadVarArg else Ret (z, r)
  | VLong z :: r => if long then Ret (z, r) else Fault BadVarArg
  | _ => Fault BadVarArg
  end.
Definition arg_str (args : list varg) : res (option (list Z) * list varg) :=
  match args with VStr s :: r => Ret (s, r) | _ => Fault BadVarArg end.
Definition arg_ptr (args : list varg) : res (Z * list varg) :=
  match args with VPtr p :: r => Ret (p, r) | _ => Fault BadVarArg end.

(** The [switch] on the conversion character. *)
Definition convert (o : outbuf_t) (pad_zero : bool) (width : Z) (long : bool) (conv : Z) (args : list varg)
  : res (outbuf_t * list varg) :=
  if conv =? 37 then o ← out_char o 37; Ret (o, args)
  else if conv =? 99 then '(z, r) ← arg_int false args; o ← out_char o (wrap8 z); Ret (o, r)
  else if conv =? 115 then '(s, r) ← arg_str args; o ← out_str o s; Ret (o, r)
  else if (conv =? 100) || (conv =? 105) then
    '(z, r) ← arg_int long args;
    o ← out_int o (as_signed (if long then 64 else 32) z) width pad_zero; Ret (o, r)
  else if conv =? 117 then
    '(z, r) ← arg_int long args; o ← out_uint o z 10 false width pad_zero; Ret (o, r)
  else if (conv =? 120) || (conv =? 88) then
    '(z, r) ← arg_int long args; o ← out_uint o z 16 (conv =? 88) width pad_zero; Ret (o, r)
  else if conv =? 112 then
    '(z, r) ← arg_ptr args;
    o ← out_str o (Some (lit "0x")); o ← out_uint o z 16 false 16 true; Ret (o, r)
  else
    o ← out_char o 37;
    o ← (if negb (conv =? 0) then out_char o conv else Ret o);
    Ret (o, args).

Fixpoint format_loop (fuel : nat) (p : list Z) (o : outbuf_t) (args : list varg) : res outbuf_t :=
  match fuel with
  | O => Fault Diverged
  | S k =>
      c ← rd p 0;
      if c =? 0 then Ret o
      else if negb (c =? 37) then o ← out_char o c; format_loop k (drop 1 p) o args
      else
        '(pad_zero, width, lf, llf, q) ← parse_directive (drop 1 p);
        conv ← rd q 0;
        '(o, args) ← convert o pad_zero width (lf || llf) conv args;
        format_loop k (drop 1 q) o args
  end.

Definition kvformat (o : outbuf_t) (fmt : option (list Z)) (args : list varg) : res (outbuf_t * Z) :=
  o ← match fmt with None => Ret o | Some p => format_loop (S (length p)) p o args end;
  Ret (o, if 2147483647 <? ob_len o then 2147483647 else ob_len o).

(** Result: the buffer after the call and the returned count. *)
Definition kvsnprintf (buf : option (list Z)) (cap : Z) (fmt : option (list Z)) (args : list varg)
  : res (option (list Z) * Z) :=
  let cap := match buf with None => 0 | Some _ => cap end in
  '(o, n) ← kvformat (mk_outbuf buf cap 0 0 false []) fmt args;
  match ob_buf o with
  | Some b =>
      if negb (cap =? 0) then
        b ← wr b (if ob_len o <? cap then ob_len o else cap - 1) 0; Ret (Some b, n)
      else Ret (Some b, n)
  | None => Ret (None, n)
  end.

Definition ksnprintf (buf : option (list Z)) (cap : Z) (fmt : option (list Z)) (args : list varg)
  : res (option (list Z) * Z) := kvsnprintf buf cap fmt args.

(** Result: the [emit] calls made, in order, and the returned count. *)
Definition kvprintf_emit_buffered (emit : bool) (chunk : option (list Z)) (chunk_cap : Z)
  (fmt : option (list Z)) (args : list varg) : res (list (list Z) * Z) :=
  match fmt with
  | None => Ret ([], 0)
  | Some _ =>
      if negb emit then Ret ([], 0) else
      '(o, n) ← kvformat (mk_outbuf chunk chunk_cap 0 0 true []) fmt args;
      o ← out_flush o;
      Ret (ob_emitted o, n)
  end.

(** [chunk] is the uninitialised stack buffer; the result is the sequence of
    [console_write_n] calls [console_emit] makes. *)
Definition kprintf (chunk : list Z) (fmt : option (list Z)) (args : list varg) : res (list (list Z) * Z) :=
  '(calls, n) ← kvprintf_emit_buffered true (Some chunk) KPRINTF_CHUNK_SIZE fmt args;
  Ret (filter (λ s, s ≠ []) calls, n).

(** ** [format.c] *)

Record rabbitbone_buf_out_t := mk_bufout { bo_buf : option (list Z); bo_cap : Z; bo_used : Z }.

Definition rabbitbone_buf_init (buf : option (list Z)) (cap : Z) : res rabbitbone_buf_out_t :=
  match buf with
  | Some b => if negb (cap =? 0) then b ← wr b 0 0; Ret (mk_bufout (Some b) cap 0)
              else Ret (mk_bufout buf cap 0)
  | None => Ret (mk_bufout None cap 0)
  end.

(** The copy loop of [rabbitbone_buf_append_raw]. *)
Fixpoint append_loop (b s : list Z) (used cap : Z) : res (list Z * Z) :=
  match s with
  | [] => Fault OutOfBounds
  | c :: t => if negb (c =? 0) && (used <? cap - 1)
              then b ← wr b used c; append_loop b t (used + 1) cap else Ret (b, used)
  end.

Definition rabbitbone_buf_append_raw (out : rabbitbone_buf_out_t) (s : option (list Z))
  : res rabbitbone_buf_out_t :=
  match bo_buf out, s with
  | Some b, Some s =>
      let cap := bo_cap out in
      if cap =? 0 then Ret out else
      let used := if cap <=? bo_used out then cap - 1 else bo_used out in
      '(b, used) ← append_loop b s used cap;
      b ← wr b (if used <? cap then used else cap - 1) 0;
      Ret (mk_bufout (Some b) cap used)
  | _, _ => Ret out
  end.

Definition rabbitbone_buf_vappendf (out : rabbitbone_buf_out_t) (fmt : option (list Z)) (args : list varg)
  : res rabbitbone_buf_out_t :=
  match bo_buf out, fmt with
  | Some b, Some _ =>
      let cap := bo_cap out in
      if cap =? 0 then Ret out else
      let used := if cap <=? bo_used out then cap - 1 else bo_used out in
      let rem := cap - used in
      if zlen b <? used then Fault OutOfBounds else
      '(d, wrote) ← kvsnprintf (Some (drop (Z.to_nat used) b)) rem fmt args;
      let b := take (Z.to_nat used) b ++ default [] d in
      if wrote <=? 0 then Ret (mk_bufout (Some b) cap used) else
      let room := if rem =? 0 then 0 else rem - 1 in
      let add := if room <? wrote then room else wrote in
      let used := used + add in
      b ← wr b (if used <? cap then used else cap - 1) 0;
      Ret (mk_bufout (Some b) cap used)
  | _, _ => Ret out
  end.

Definition rabbitbone_buf_appendf (out : rabbitbone_buf_out_t) (fmt : option (list Z)) (args : list varg)
  : res rabbitbone_buf_out_t := rabbitbone_buf_vappendf out fmt args.

Example ksnprintf_ex :
  ksnprintf (Some (replicate 24 1)) 24 (Some (lit "%s:%04x %d%%|%llu")) [VStr (Some (lit "ab")); VInt 255; VInt (2 ^ 32 - 7); VLong 99]
  = Ret (Some (lit "ab:00ff -7%|99" ++ replicate 9 1), 14).
Proof. vm_compute. reflexivity. Qed.

(** ** Specification: the text of a format string *)

(** Little-endian digits of [v]. *)
Fixpoint le_digits (fuel : nat) (base v : Z) : list Z :=
  match fuel with
  | O => []
  | S k => v mod base :: (if v / base =? 0 then [] else le_digits k base (v / base))
  end.

Definition num_text (upper : bool) (base v : Z) : list Z :=
  reverse (map (λ d, default 0 (digit_map upper !! Z.to_nat d)) (le_digits 65 base v)).

Definition uint_text (v base : Z) (upper : bool) (width : Z) (pad_zero : bool) : list Z :=
  let ds := num_text upper base v in
  replicate (Z.to_nat (width - zlen ds)) (if pad_zero then 48 else 32) ++ ds.

Definition int_text (v width : Z) (pad_zero : bool) : list Z :=
  if v <? 0 then 45 :: uint_text (- v) 10 false (Z.max 0 (width - 1)) pad_zero
  else uint_text v 10 false width pad_zero.

Definition str_text (s : option (list Z)) : res (list Z) :=
  let s := default (lit "(null)") s in
  n ← strlen (Some s); Ret (take (Z.to_nat n) s).

Definition conv_text (pad_zero : bool) (width : Z) (long : bool) (conv : Z) (args : list varg)
  : res (list Z * list varg) :=
  if conv =? 37 then Ret ([37], args)
  else if conv =? 99 then '(z, r) ← arg_int false args; Ret ([wrap8 z], r)
  else if conv =? 115 then '(s, r) ← arg_str args; t ← str_text s; Ret (t, r)
  else if (conv =? 100) || (conv =? 105) then
    '(z, r) ← arg_int long args; Ret (int_text (as_signed (if long then 64 else 32) z) width pad_zero, r)
  else if conv =? 117 then '(z, r) ← arg_int long args; Ret (uint_text z 10 false width pad_zero, r)
  else if (conv =? 120) || (conv =? 88) then
    '(z, r) ← arg_int long args; Ret (uint_text z 16 (conv =? 88) width pad_zero, r)
  else if conv =? 112 then '(z, r) ← arg_ptr args; Ret (bytes_of "0x" ++ uint_text z 16 false 16 true, r)
  else Ret (37 :: (if conv =? 0 then [] else [conv]), args).

Fixpoint format_text_from (fuel : nat) (p : list Z) (args : list varg) : res (list Z) :=
  match fuel with
  | O => Fault Diverged
  | S k =>
      c ← rd p 0;
      if c =? 0 then Ret []
      else if negb (c =? 37) then t ← format_text_from k (drop 1 p) args; Ret (c :: t)
      else
        '(pad_zero, width, lf, llf, q) ← parse_directive (drop 1 p);
        conv ← rd q 0;
        '(a, args) ← conv_text pad_zero width (lf || llf) conv args;
        t ← format_text_from k (drop 1 q) args;
        Ret (a ++ t)
  end.

(** [Ret t]: the format string is well formed for these arguments and means [t];
    a fault means it reads an argument that is not there or runs off the string. *)
Definition format_text (fmt : option (list Z)) (args : list varg) : res (list Z) :=
  match fmt with None => Ret [] | Some p => format_text_from (S (length p)) p args end.

(** The integer arguments are machine words, the strings fit in memory. *)
Definition varg_ok (a : varg) : Prop :=
  match a with
  | VInt z => is_u32 z
  | VLong z | VPtr z => is_u64 z
  | VStr (Some s) => zlen s ≤ U64MAX
  | VStr None => True
  end.

(** ** Digits *)

Lemma le_digits_range k base v : 1 < base → Forall (λ d, 0 ≤ d < base) (le_digits k base v).
Proof.
  intros Hb. revert v. induction k as [|k IH]; intros v; simpl; [constructor |].
  constructor; [apply Z.mod_pos_bound; lia |]. by destruct (v / base =? 0).
Qed.

Lemma div_lt_pow base v k : 1 < base → v < base ^ Z.of_nat (S k) → v / base < base ^ Z.of_nat k.
Proof.
  intros Hb Hv. apply Z.div_lt_upper_bound; [lia |]. rewrite <- Z.pow_succ_r by lia.
  by replace (Z.succ (Z.of_nat k)) with (Z.of_nat (S k)) by lia.
Qed.

Lemma digit_loop_spec k upper digits n v base :
  base = 10 ∨ base = 16 → 0 ≤ v → v < base ^ Z.of_nat k → 0 ≤ n → n + Z.of_nat k ≤ zlen digits → (0 < k)%nat →
  ∃ digits', digit_loop k (digit_map upper) digits n v base =
               Ret (digits', n + zlen (le_digits k base v)) ∧
    digits' = blit digits (Z.to_nat n) (map (λ d, default 0 (digit_map upper !! Z.to_nat d)) (le_digits k base v)) ∧
    zlen (le_digits k base v) ≤ Z.of_nat k.
Proof.
  intros Hb. revert digits n v. induction k as [|k IH]; intros digits n v Hv Hlt Hn Hlen Hk; [lia |].
  cbn [digit_loop le_digits]. set (f := λ d, default 0 (digit_map upper !! Z.to_nat d)).
  assert (Hm : 0 ≤ v mod base < base) by (apply Z.mod_pos_bound; lia).
  assert (rd (digit_map upper) (v mod base) = Ret (f (v mod base))) as ->.
  { destruct (rd_inbounds (digit_map upper) (v mod base)) as [c Hc].
    - assert (zlen (digit_map upper) = 17) as -> by (by destruct upper). lia.
    - rewrite Hc. f_equal. apply rd_Ret in Hc as [_ Hc]. unfold f. by rewrite Hc. }
  mred. rewrite wr_inbounds by lia. mred.
  assert (Hset : <[Z.to_nat n := f (v mod base)]> digits = blit digits (Z.to_nat n) [f (v mod base)]).
  { rewrite <- blit_cons; simpl; unfold zlen in *; [| lia]. by rewrite blit_nil by lia. }
  destruct (Z.eqb_spec (v / base) 0) as [E|E].
  - eexists. split; [done |]. split; [by rewrite Hset | rewrite zlen_1; lia].
  - assert (0 < v / base) by (assert (0 ≤ v / base) by (apply Z.div_pos; lia); lia).
    assert (v / base < base ^ Z.of_nat k) by (apply div_lt_pow; lia).
    assert (0 < k)%nat by (destruct k; simpl in *; lia).
    destruct (IH (<[Z.to_nat n := f (v mod base)]> digits) (n + 1) (v / base))
      as (d' & -> & -> & Hz); [lia.. | rewrite zlen_insert; lia | done |].
    eexists. split; [do 2 f_equal; rewrite zlen_cons; lia |]. rewrite zlen_cons. split; [| lia].
    fold f. rewrite Hset. cbn [map]. set (x := f (v mod base)).
    replace (Z.to_nat (n + 1)) with (Z.to_nat n + length [x])%nat by (simpl; lia).
    apply (blit_app digits (Z.to_nat n) [x]). rewrite length_map. simpl. unfold zlen in *. lia.
Qed.

(** ** Sinks

    [Sink R] is what the formatter needs of its output: appending bytes to an
    [outbuf_t] that holds the text [t] succeeds and makes it hold [t] and the
    bytes. *)
Class Sink (R : outbuf_t → list Z → Prop) : Prop := sink_emit : ∀ o t s n,
  R o t → 0 ≤ n ≤ zlen s → n ≤ U64MAX →
  ∃ o', out_emit_bytes o s n = Ret o' ∧ R o' (t ++ take (Z.to_nat n) s).

#[local] Opaque le_digits digit_loop.

Section formatter.
Context (R : outbuf_t → list Z → Prop) `{!Sink R}.

(** [emits m txt]: running [m] from any state that holds [t] makes it hold [t ++ txt]. *)
Definition emits (m : outbuf_t → res outbuf_t) (txt : list Z) : Prop :=
  ∀ o t, R o t → ∃ o', m o = Ret o' ∧ R o' (t ++ txt).

Lemma emits_ret : emits Ret [].
Proof. intros o t H. exists o. by rewrite app_nil_r. Qed.

Lemma emits_seq m1 m2 a b : emits m1 a → emits m2 b → emits (λ o, o ← m1 o; m2 o) (a ++ b).
Proof.
  intros H1 H2 o t Ho. destruct (H1 o t Ho) as (o1 & -> & Ho1). mred.
  destruct (H2 o1 _ Ho1) as (o2 & -> & Ho2). exists o2. by rewrite app_assoc.
Qed.

Lemma emits_char c : emits (λ o, out_char o c) [c].
Proof. intros o t Ho. apply (sink_emit o t [c] 1 Ho); rewrite ?zlen_1; ulia. Qed.

Lemma emits_repeat c n : emits (λ o, out_repeat o c n) (replicate (Z.to_nat n) c).
Proof.
  unfold out_repeat. generalize 0. induction (Z.to_nat n) as [|k IH]; intros i.
  - apply emits_ret.
  - apply (emits_seq (λ o, out_char o c) (λ o, for_n k (i + 1) (λ _ o, out_char o c) o) [c]);
      [apply emits_char | apply IH].
Qed.

Lemma emits_digits ds rest k :
  (k ≤ length ds)%nat → emits (λ o, out_digits k (ds ++ rest) o) (reverse (take k ds)).
Proof.
  induction k as [|k IH]; intros Hk; [apply emits_ret |].
  destruct (lookup_lt_is_Some_2 ds k) as [c Hc]; [lia |].
  rewrite (take_S_r _ _ _ Hc), reverse_app. cbn [out_digits].
  assert (rd (ds ++ rest) (Z.of_nat k) = Ret c) as ->.
  { rewrite rd_nat, lookup_app_l by lia. by rewrite Hc. }
  apply (emits_seq (λ o, out_char o c) (λ o, out_digits k (ds ++ rest) o) [c]);
    [apply emits_char | apply IH; lia].
Qed.

Lemma emits_uint v base upper width pz :
  base = 10 ∨ base = 16 → is_u64 v →
  emits (λ o, out_uint o v base upper width pz) (uint_text v base upper width pz).
Proof.
  intros Hb Hv. unfold out_uint, is_u64 in *.
  destruct (digit_loop_spec 65 upper (replicate 65 0) 0 v base) as (ds & Hrun & Hds & Hlen); [done | lia | | lia | by rewrite zlen_replicate | lia |].
  { assert (2 ^ 64 ≤ base ^ Z.of_nat 65); [| lia].
    destruct Hb as [-> | ->]; vm_compute; congruence. }
  rewrite Hrun, Z.add_0_l. mred. unfold uint_text, num_text.
  set (txt := map _ (le_digits 65 base v)) in *.
  assert (Hz : zlen (le_digits 65 base v) = zlen txt) by (unfold txt, zlen; by rewrite length_map).
  assert (zlen (reverse txt) = zlen txt) as -> by (unfold zlen; by rewrite length_reverse).
  rewrite Hz in *. apply emits_seq; [apply emits_repeat |].
  rewrite Hds. unfold blit. rewrite take_0. cbn [app]. unfold zlen. rewrite Nat2Z.id.
  pose proof (emits_digits txt (drop (0 + length txt) (replicate 65 0)) (length txt)) as H.
  rewrite firstn_all in H. apply H. lia.
Qed.

Lemma emits_int v width pz :
  - 2 ^ 63 ≤ v < 2 ^ 63 → emits (λ o, out_int o v width pz) (int_text v width pz).
Proof.
  intros Hv. unfold out_int, int_text. destruct (Z.ltb_spec v 0).
  - rewrite (wrap_small 64 (- (v + 1))), wrap_small by lia.
    replace (- (v + 1) + 1) with (- v) by lia.
    replace (if 0 <? width then width - 1 else 0) with (Z.max 0 (width - 1))
      by (destruct (Z.ltb_spec 0 width); lia).
    apply (emits_seq (λ o, out_char o 45) _ [45]); [apply emits_char |].
    apply emits_uint; [by left | ulia].
  - apply emits_uint; [by left | ulia].
Qed.

Lemma emits_str s txt : varg_ok (VStr s) → str_text s = Ret txt → emits (λ o, out_str o s) txt.
Proof.
  unfold str_text, out_str. cbn [strlen]. intros Hs (n & Hn & [= <-])%res_bind_Ret_inv o t Ho.
  rewrite Hn. mred.
  assert (Hmax : zlen (default (lit "(null)") s) ≤ U64MAX) by (destruct s; [done | vm_compute; congruence]).
  assert (Hle : 0 ≤ n ≤ zlen (default (lit "(null)") s)); [| apply sink_emit; [done | done | lia]].
  clear Hmax Hs. revert n Hn. induction (default _ s) as [|c l IH]; cbn [strlen_from]; intros n Hn; [done |].
  rewrite zlen_cons. destruct (c =? 0); [injection Hn as <-; pose proof (zlen_nonneg l); lia |].
  apply res_bind_Ret_inv in Hn as (m & Hm & [= <-]). specialize (IH m Hm). lia.
Qed.

Lemma emits_lit0x : emits (λ o, out_str o (Some (lit "0x"))) (bytes_of "0x").
Proof. apply emits_str; [vm_compute; congruence | done]. Qed.

Lemma as_signed_range w z : 0 < w → 0 ≤ z < 2 ^ w → - 2 ^ (w - 1) ≤ as_signed w z < 2 ^ (w - 1).
Proof.
  intros Hw Hz. unfold as_signed. replace (2 ^ w) with (2 * 2 ^ (w - 1)) in *.
  - destruct (Z.ltb_spec z (2 ^ (w - 1))); lia.
  - rewrite <- Z.pow_succ_r by lia. f_equal. lia.
Qed.

Lemma arg_int_ok long args z r :
  arg_int long args = Ret (z, r) → Forall varg_ok args →
  (if long then is_u64 z else is_u32 z) ∧ Forall varg_ok r.
Proof.
  intros H Ha. destruct args as [|[] args]; simpl in H; try done; destruct long; try done;
    injection H as -> ->; by apply Forall_cons in Ha.
Qed.

Lemma convert_emits pz w long conv args txt args' :
  Forall varg_ok args → conv_text pz w long conv args = Ret (txt, args') →
  Forall varg_ok args' ∧
  ∀ o t, R o t → ∃ o', convert o pz w long conv args = Ret (o', args') ∧ R o' (t ++ txt).
Proof.
  intros Ha H. unfold conv_text in H. unfold convert.
  assert (Hret : ∀ m a (r : list varg), emits m a → ∀ o t, R o t → ∃ o', (o ← m o; Ret (o, r)) = Ret (o', r) ∧ R o' (t ++ a)).
  { intros m a r Hm o t Ho. destruct (Hm o t Ho) as (o' & -> & Ho'). mred. eauto. }
  destruct (conv =? 37); [injection H as <- <-; split; [done |]; apply (Hret (λ o, out_char o 37)), emits_char |].
  destruct (conv =? 99).
  { apply res_bind_Ret_inv in H as ([z r] & Hz & [= <- <-]). rewrite Hz. mred.
    split; [by eapply arg_int_ok |]. apply (Hret (λ o, out_char o (wrap8 z))), emits_char. }
  destruct (conv =? 115).
  { apply res_bind_Ret_inv in H as ([s r] & Hs & H). rewrite Hs. mred.
    apply res_bind_Ret_inv in H as (t & Ht & [= <- <-]).
    destruct args as [|[] args]; simpl in Hs; try done. injection Hs as -> ->.
    apply Forall_cons in Ha as [Hs Ha]. split; [done |].
    apply (Hret (λ o, out_str o s)). by apply emits_str. }
  destruct ((conv =? 100) || (conv =? 105)).
  { apply res_bind_Ret_inv in H as ([z r] & Hz & [= <- <-]). rewrite Hz. mred.
    destruct (arg_int_ok long args z r Hz Ha) as [Hr Har]. split; [done |].
    apply (Hret (λ o, out_int o (as_signed (if long then 64 else 32) z) w pz)), emits_int.
    destruct long; [apply (as_signed_range 64); ulia |].
    pose proof (as_signed_range 32 z). ulia. }
  assert (Hu : ∀ z r, arg_int long args = Ret (z, r) → is_u64 z ∧ Forall varg_ok r).
  { intros z r Hz. destruct (arg_int_ok long args z r Hz Ha). destruct long; split; try done; ulia. }
  destruct (conv =? 117).
  { apply res_bind_Ret_inv in H as ([z r] & Hz & [= <- <-]). rewrite Hz. mred.
    destruct (Hu z r Hz). split; [done |]. apply (Hret (λ o, out_uint o z 10 false w pz)), emits_uint; auto. }
  destruct ((conv =? 120) || (conv =? 88)).
  { apply res_bind_Ret_inv in H as ([z r] & Hz & [= <- <-]). rewrite Hz. mred.
    destruct (Hu z r Hz). split; [done |]. apply (Hret (λ o, out_uint o z 16 (conv =? 88) w pz)), emits_uint; auto. }
  destruct (conv =? 112).
  { apply res_bind_Ret_inv in H as ([z r] & Hz & [= <- <-]). rewrite Hz. mred.
    destruct args as [|[] args]; simpl in Hz; try done. injection Hz as -> ->. apply Forall_cons in Ha as [Hz Ha].
    split; [done |]. intros o t Ho. rewrite <- res_bind_assoc.
    apply (Hret (λ o, o ← out_str o (Some (lit "0x")); out_uint o z 16 false 16 true)); [| done].
    apply (emits_seq _ _ (bytes_of "0x")); [apply emits_lit0x | apply emits_uint; auto]. }
  injection H as <- <-. split; [done |]. intros o t Ho. rewrite <- res_bind_assoc.
  apply (Hret (λ o, o ← out_char o 37; if negb (conv =? 0) then out_char o conv else Ret o)); [| done].
  apply (emits_seq (λ o, out_char o 37) _ [37]); [apply emits_char |].
  destruct (conv =? 0); [apply emits_ret | apply emits_char].
Qed.

Lemma format_loop_emits fuel p args txt :
  Forall varg_ok args → format_text_from fuel p args = Ret txt → emits (λ o, format_loop fuel p o args) txt.
Proof.
  revert p args txt. induction fuel as [|fuel IH]; intros p args txt Ha H; simpl in H; [done |].
  apply res_bind_Ret_inv in H as (c & Hc & H). intros o t Ho. cbn [format_loop]. rewrite Hc. mred.
  destruct (c =? 0).
  { injection H as <-. exists o. by rewrite app_nil_r. }
  destruct (negb (c =? 37)).
  { apply res_bind_Ret_inv in H as (t' & Ht & [= <-]).
    apply (emits_seq (λ o, out_char o c) _ [c] t' (emits_char c) (IH _ _ _ Ha Ht) o t Ho). }
  apply res_bind_Ret_inv in H as ([[[[pz w] lf] llf] q] & Hd & H). rewrite Hd. mred.
  apply res_bind_Ret_inv in H as (conv & Hconv & H). rewrite Hconv. mred.
  apply res_bind_Ret_inv in H as ([a args'] & Hcv & H).
  apply res_bind_Ret_inv in H as (t' & Ht & [= <-]).
  destruct (convert_emits _ _ _ _ _ _ _ Ha Hcv) as [Ha' Hco].
  destruct (Hco o t Ho) as (o' & -> & Ho'). mred. rewrite app_assoc. by apply (IH _ _ _ Ha' Ht).
Qed.

Lemma kvformat_emits fmt args txt o :
  Forall varg_ok args → format_text fmt args = Ret txt → R o [] →
  ∃ o', kvformat o fmt args = Ret (o', Z.min 2147483647 (ob_len o')) ∧ R o' txt.
Proof.
  intros Ha H Ho. unfold kvformat.
  assert (∃ o', match fmt with Some p => format_loop (S (length p)) p o args | None => Ret o end = Ret o' ∧ R o' txt)
    as (o' & -> & Ho').
  { destruct fmt as [p|]; cbn [format_text] in H; [apply (format_loop_emits _ _ _ _ Ha H o [] Ho) |].
    injection H as <-. eauto. }
  mred. exists o'. split; [| done]. do 2 f_equal. destruct (Z.ltb_spec 2147483647 (ob_len o')); lia.
Qed.

(** A format that asks for an argument that is not there faults in the same way. *)
Lemma convert_faults pz w long conv args f o :
  conv_text pz w long conv args = Fault f → convert o pz w long conv args = Fault f.
Proof.
  intros H. unfold conv_text in H. unfold convert.
  destruct (conv =? 37); [done |].
  destruct (conv =? 99); [destruct (arg_int false args) as [[]|]; [done | by injection H as ->] |].
  destruct (conv =? 115).
  { destruct (arg_str args) as [[s r]|]; [| by injection H as ->]. revert H. mred. unfold str_text, out_str.
    destruct (strlen (Some (default (lit "(null)") s))); mred; [done |]. intros H. by injection H as ->. }
  destruct ((conv =? 100) || (conv =? 105)); [destruct (arg_int long args) as [[]|]; [done | by injection H as ->] |].
  destruct (conv =? 117); [destruct (arg_int long args) as [[]|]; [done | by injection H as ->] |].
  destruct ((conv =? 120) || (conv =? 88)); [destruct (arg_int long args) as [[]|]; [done | by injection H as ->] |].
  destruct (conv =? 112); [destruct (arg_ptr args) as [[]|]; [done | by injection H as ->] | done].
Qed.

Lemma format_loop_faults fuel p args f :
  Forall varg_ok args → format_text_from fuel p args = Fault f → ∀ o t, R o t → format_loop fuel p o args = Fault f.
Proof.
  revert p args. induction fuel as [|fuel IH]; intros p args Ha H o t Ho; cbn [format_text_from format_loop] in *; [by injection H as -> |].
  destruct (rd p 0) as [c|]; [| by injection H as ->]. revert H. mred. destruct (c =? 0); [done |]. destruct (negb (c =? 37)).
  { destruct (emits_char c o t Ho) as (o' & -> & Ho'). mred. destruct (format_text_from fuel (drop 1 p) args) eqn:E; mred; [done |].
    intros [= ->]. by apply (IH _ _ Ha E o' _ Ho'). }
  destruct (parse_directive (drop 1 p)) as [[[[[pz w] lf] llf] q]|]; mred; [| by intros [= ->]].
  destruct (rd q 0) as [conv|]; mred; [| by intros [= ->]].
  destruct (conv_text pz w (lf || llf) conv args) as [[a args']|] eqn:Ec; mred.
  - destruct (convert_emits _ _ _ _ _ _ _ Ha Ec) as [Ha' Hco]. destruct (Hco o t Ho) as (o' & -> & Ho'). mred.
    destruct (format_text_from fuel (drop 1 q) args') eqn:E; mred; [done |]. intros [= ->]. by apply (IH _ _ Ha' E o' _ Ho').
  - intros [= ->]. by rewrite (convert_faults _ _ _ _ _ _ o Ec).
Qed.

End formatter.

(** ** The two sinks *)

(** A bounded buffer: it holds the first [cap - 1] bytes of the text, over the
    bytes [b0] it started with, and the saturated length of all of it. *)
Definition holds_buf (b0 : option (list Z)) (cap : Z) (o : outbuf_t) (t : list Z) : Prop :=
  ob_emit o = false ∧ ob_cap o = cap ∧ ob_len o = Z.min U64MAX (zlen t) ∧
  ob_buf o = (λ b, blit b 0 (take (Z.to_nat (cap - 1)) t)) <$> b0.

Lemma add_len_min o (t x : list Z) n :
  ob_len o = Z.min U64MAX (zlen t) → n = zlen x → n ≤ U64MAX →
  ob_len (add_len o n) = Z.min U64MAX (zlen (t ++ x)).
Proof.
  intros Hl -> Hn. simpl. rewrite zlen_app. pose proof (zlen_nonneg x).
  destruct (Z.leb_spec (ob_len o) (U64MAX - zlen x)); lia.
Qed.

Lemma zlen_take {A} (l : list A) n : 0 ≤ n ≤ zlen l → zlen (take (Z.to_nat n) l) = n.
Proof. unfold zlen. rewrite length_take. lia. Qed.

Lemma sink_buf_emit b0 cap o t s n :
  0 ≤ cap ≤ U64MAX → match b0 with Some b => cap ≤ zlen b | None => cap = 0 end →
  holds_buf b0 cap o t → 0 ≤ n ≤ zlen s → n ≤ U64MAX →
  ∃ o', out_emit_bytes o s n = Ret o' ∧ holds_buf b0 cap o' (t ++ take (Z.to_nat n) s).
Proof.
  intros Hcap Hb0 (He & Hc & Hl & Hb) Hn Hmax. pose proof (zlen_take s n Hn) as Hx.
  set (x := take (Z.to_nat n) s) in *. unfold out_emit_bytes.
  destruct (Z.eqb_spec n 0) as [->|Hn0].
  { exists o. split; [done |]. assert (x = []) as ->; [done |]. by rewrite app_nil_r. }
  rewrite He, Hc. cbn [negb].
  destruct (negb (cap =? 0) && (ob_len o <? cap - 1)) eqn:E.
  - destruct b0 as [b|]; [| lia]. cbn [fmap option_fmap option_map] in Hb. rewrite Hb.
    assert (Hlt : ob_len o = zlen t) by lia. rewrite Hlt in *.
    set (room := cap - 1 - zlen t). set (tk := if n <? room then n else room).
    assert (Htk : 0 ≤ tk ≤ n ∧ zlen t + tk ≤ cap - 1).
    { unfold tk, room. destruct (Z.ltb_spec n (cap - 1 - zlen t)); lia. }
    rewrite (take_ge t) by (unfold zlen in *; lia). pose proof (zlen_nonneg t).
    rewrite memcpy_at_spec; [| lia | lia | rewrite blit_zlen; lia | lia]. mred.
    eexists. split; [done |]. split_and!; [done.. | |].
    + apply add_len_min; [by simpl; lia | done | done].
    + cbn [ob_buf add_len set_buf fmap option_fmap option_map]. f_equal.
      pose proof (zlen_take s tk ltac:(lia)) as Hxt.
      assert (Heq : take (Z.to_nat (cap - 1)) (t ++ x) = t ++ take (Z.to_nat tk) s).
      { rewrite take_app, (take_ge t) by (unfold zlen in *; lia). f_equal. unfold x.
        rewrite take_take. unfold tk, room. destruct (Z.ltb_spec n (cap - 1 - zlen t)); f_equal; unfold zlen in *; lia. }
      rewrite Heq. replace (Z.to_nat (zlen t)) with (0 + length t)%nat by (unfold zlen; lia).
      apply blit_app. unfold zlen in *. lia.
  - eexists. split; [done |]. split_and!; [done.. | by apply add_len_min |].
    cbn [ob_buf add_len]. rewrite Hb. destruct b0 as [b|]; [| done]. cbn [fmap option_fmap option_map].
    do 2 f_equal. destruct (decide (cap = 0)) as [->|]; [done |].
    rewrite take_app_le; [done |]. unfold zlen in *. lia.
Qed.

(** A chunked emitter: what was emitted, then the pending part of the chunk
    buffer; every emitted chunk is non-empty and at most one buffer long. *)
Definition holds_chunks (cap : Z) (o : outbuf_t) (t : list Z) : Prop :=
  ob_emit o = true ∧ ob_cap o = cap ∧ ob_len o = Z.min U64MAX (zlen t) ∧ 0 ≤ ob_used o < cap ∧
  Forall (λ c, 0 < zlen c ≤ cap) (ob_emitted o) ∧
  ∃ b, ob_buf o = Some b ∧ cap ≤ zlen b ∧ concat (ob_emitted o) ++ take (Z.to_nat (ob_used o)) b = t.

(** The same without a chunk buffer: every write is one call. *)
Definition holds_direct (o : outbuf_t) (t : list Z) : Prop :=
  ob_emit o = true ∧ ob_len o = Z.min U64MAX (zlen t) ∧ (ob_buf o = None ∨ ob_cap o = 0) ∧ ob_used o = 0 ∧
  concat (ob_emitted o) = t.

#[export] Instance sink_direct : Sink holds_direct.
Proof.
  intros o t s n (He & Hl & Hb & Hu & Hc) Hn Hmax. unfold out_emit_bytes.
  destruct (Z.eqb_spec n 0) as [->|Hn0].
  { exists o. split; [done |]. rewrite app_nil_r. by split_and!. }
  rewrite He. cbn [negb].
  assert (Hm : match ob_buf o with
     | Some _ => if ob_cap o =? 0 then Ret (add_len (emit_call o (take (Z.to_nat n) s)) n)
                 else o0 ← emit_chunks (Z.to_nat n) o s 0 n; Ret (add_len o0 n)
     | None => Ret (add_len (emit_call o (take (Z.to_nat n) s)) n)
     end = Ret (add_len (emit_call o (take (Z.to_nat n) s)) n)).
  { destruct Hb as [-> | ->]; [done |]. by destruct (ob_buf o). }
  rewrite Hm. eexists. split; [done |]. split_and!; try done.
  - by rewrite (add_len_min _ t (take (Z.to_nat n) s)) by (done || by rewrite zlen_take).
  - simpl. rewrite concat_app. simpl. by rewrite app_nil_r, Hc.
Qed.

(** The text held, without the length field: what the chunk loop changes. *)
Definition pending (cap : Z) (o : outbuf_t) (t : list Z) (len : Z) : Prop :=
  ob_emit o = true ∧ ob_cap o = cap ∧ ob_len o = len ∧ 0 ≤ ob_used o < cap ∧
  Forall (λ c, 0 < zlen c ≤ cap) (ob_emitted o) ∧
  ∃ b, ob_buf o = Some b ∧ cap ≤ zlen b ∧ concat (ob_emitted o) ++ take (Z.to_nat (ob_used o)) b = t.

Lemma emit_chunks_spec fuel cap o t len s off n :
  pending cap o t len → 0 ≤ off → n ≤ zlen s → n - off ≤ Z.of_nat fuel →
  ∃ o', emit_chunks fuel o s off n = Ret o' ∧
        pending cap o' (t ++ take (Z.to_nat (n - off)) (drop (Z.to_nat off) s)) len.
Proof.
  revert o t off. induction fuel as [|fuel IH]; intros o t off Ho Hoff Hn Hf; cbn [emit_chunks];
    (destruct (Z.leb_spec n off);
      [exists o; split; [done |]; replace (Z.to_nat (n - off)) with O by lia; by rewrite take_0, app_nil_r |]);
    [lia |].
  destruct Ho as (He & Hc & Hl & Hu & Hall & b & Hb & Hbl & Ht). rewrite Hc.
  destruct (Z.eqb_spec (cap - ob_used o) 0); [lia |]. mred. rewrite Hb.
  set (tk := if cap - ob_used o <? n - off then cap - ob_used o else n - off).
  assert (Htk : 0 < tk ≤ n - off ∧ ob_used o + tk ≤ cap).
  { unfold tk. destruct (Z.ltb_spec (cap - ob_used o) (n - off)); lia. }
  assert (Hds : zlen (drop (Z.to_nat off) s) = zlen s - off) by (unfold zlen in *; rewrite length_drop; lia).
  rewrite memcpy_at_spec by lia. mred. cbn [ob_used ob_cap set_used set_buf].
  set (x := take (Z.to_nat tk) (drop (Z.to_nat off) s)).
  assert (Hx : zlen x = tk) by (apply zlen_take; lia).
  set (b1 := blit b (Z.to_nat (ob_used o)) x).
  assert (Hb1 : zlen b1 = zlen b) by (apply blit_zlen; lia).
  assert (Htake : take (Z.to_nat (ob_used o + tk)) b1 = take (Z.to_nat (ob_used o)) b ++ x).
  { unfold b1, blit. rewrite app_assoc. rewrite take_app_le.
    - apply take_ge. rewrite length_app, length_take. unfold zlen in *. lia.
    - rewrite length_app, length_take. unfold zlen in *. lia. }
  assert (Hstep : ∃ o1, (if ob_used o + tk =? ob_cap o
      then out_flush (set_used (set_buf o b1) (ob_used o + tk)) else Ret (set_used (set_buf o b1) (ob_used o + tk))) = Ret o1 ∧
      pending cap o1 (t ++ x) len).
  { rewrite Hc. destruct (Z.eqb_spec (ob_used o + tk) cap) as [E|E].
    - unfold out_flush. cbn [ob_emit ob_used ob_buf set_used set_buf]. rewrite He.
      destruct (Z.eqb_spec (ob_used o + tk) 0); [lia |]. cbn [negb orb].
      destruct (Z.ltb_spec (zlen b1) (ob_used o + tk)); [lia |]. eexists. split; [done |].
      split_and!; try done; simpl; try lia.
      + apply Forall_app. split; [done |]. constructor; [| done]. rewrite zlen_take; lia.
      + exists b1. split_and!; try done; [lia |]. rewrite concat_app. simpl. rewrite !app_nil_r, Htake.
        by rewrite <- Ht, !app_assoc.
    - eexists. split; [done |]. split_and!; try done; simpl; try lia.
      exists b1. split_and!; try done; [lia |]. by rewrite Htake, app_assoc, Ht. }
  destruct Hstep as (o1 & -> & Ho1). mred.
  destruct (IH o1 (t ++ x) (off + tk) Ho1) as (o' & -> & Ho'); [lia.. |].
  exists o'. split; [done |]. rewrite <- app_assoc in Ho'.
  assert (Hjoin : x ++ take (Z.to_nat (n - (off + tk))) (drop (Z.to_nat (off + tk)) s) =
                  take (Z.to_nat (n - off)) (drop (Z.to_nat off) s)); [| by rewrite <- Hjoin].
  unfold x. replace (Z.to_nat (off + tk)) with (Z.to_nat off + Z.to_nat tk)%nat by lia.
  rewrite <- drop_drop. replace (Z.to_nat (n - off)) with (Z.to_nat tk + Z.to_nat (n - (off + tk)))%nat by lia.
  by rewrite take_take_drop.
Qed.

#[export] Instance sink_chunks cap : 0 < cap → Sink (holds_chunks cap).
Proof.
  intros Hcap o t s n (He & Hc & Hl & Hu & Hall & b & Hb & Hbl & Ht) Hn Hmax. unfold out_emit_bytes.
  destruct (Z.eqb_spec n 0) as [->|Hn0].
  { exists o. split; [done |]. rewrite app_nil_r. split_and!; try done; [lia.. |]. eauto. }
  rewrite He, Hb, Hc. cbn [negb]. destruct (Z.eqb_spec cap 0); [lia |].
  destruct (emit_chunks_spec (Z.to_nat n) cap o t (ob_len o) s 0 n) as (o' & -> & Ho').
  { split_and!; try done; [lia.. |]. eauto. }
  all: try lia. mred. rewrite Z.sub_0_r, drop_0 in Ho'.
  destruct Ho' as (He' & Hc' & Hl' & Hu' & Hall' & Hb').
  eexists. split; [done |]. split_and!; try done; [| simpl; lia..].
  apply add_len_min; [congruence | by rewrite zlen_take | done].
Qed.

(** ** Theorems *)

Lemma sink_buf b0 cap :
  0 ≤ cap ≤ U64MAX → match b0 with Some b => cap ≤ zlen b | None => cap = 0 end →
  Sink (holds_buf b0 cap).
Proof. intros Hcap Hb0 o t s n Ho Hn Hmax. by apply sink_buf_emit. Qed.

Lemma kvsnprintf_spec b cap fmt args txt :
  0 ≤ cap ≤ U64MAX → cap ≤ zlen b → Forall varg_ok args → format_text fmt args = Ret txt →
  kvsnprintf (Some b) cap fmt args =
    Ret (Some (if cap =? 0 then b else blit b 0 (take (Z.to_nat (cap - 1)) txt ++ [0])),
         Z.min 2147483647 (zlen txt)).
Proof.
  intros Hcap Hb Ha Htxt. unfold kvsnprintf.
  destruct (kvformat_emits (holds_buf (Some b) cap) (Sink0 := sink_buf (Some b) cap Hcap Hb) fmt args txt
    (mk_outbuf (Some b) cap 0 0 false []) Ha Htxt) as (o & -> & (He & Hc & Hl & Hbuf)).
  { split_and!; try done. cbn [ob_buf fmap option_fmap option_map]. by rewrite take_nil, blit_nil by lia. }
  mred. rewrite Hbuf. cbn [fmap option_fmap option_map]. rewrite Hl.
  replace (2147483647 `min` (U64MAX `min` zlen txt)) with (2147483647 `min` zlen txt) by ulia.
  pose proof (zlen_nonneg txt) as Hnn.
  destruct (Z.eqb_spec cap 0) as [->|Hc0]; cbn [negb]; [by rewrite take_0, blit_nil by lia |].
  set (x := take (Z.to_nat (cap - 1)) txt).
  assert (Hx : zlen x = Z.min (cap - 1) (zlen txt)) by (unfold x, zlen in *; rewrite length_take; lia).
  replace (if U64MAX `min` zlen txt <? cap then U64MAX `min` zlen txt else cap - 1) with (zlen x).
  2: { destruct (Z.ltb_spec (U64MAX `min` zlen txt) cap); lia. }
  rewrite wr_inbounds by (rewrite blit_zlen; lia). mred. do 3 f_equal.
  rewrite <- blit_snoc by (unfold zlen in *; lia). f_equal. unfold zlen. lia.
Qed.

(** C26: [kvsnprintf] (and [ksnprintf]) is C's [snprintf]: whenever the format
    string is well formed for its arguments and means the text [txt], the call
    writes the first [cap - 1] bytes of it and a terminator, touches no other
    byte of the buffer, and returns the untruncated length (capped at the
    largest [int]); with [cap = 0] the buffer is untouched. *)
Theorem ksnprintf_correct (b : list Z) (cap : Z) (fmt : option (list Z)) (args : list varg) (txt : list Z) :
  0 ≤ cap ≤ U64MAX → cap ≤ zlen b → Forall varg_ok args → format_text fmt args = Ret txt →
  ksnprintf (Some b) cap fmt args =
    Ret (Some (if cap =? 0 then b else blit b 0 (take (Z.to_nat (cap - 1)) txt ++ [0])),
         Z.min 2147483647 (zlen txt)).
Proof. apply kvsnprintf_spec. Qed.

Lemma ksnprintf_correct_witness :
  ksnprintf (Some (replicate 6 1)) 5 (Some (lit "%x-%d")) [VInt 255; VInt (2 ^ 32 - 41)]
  = Ret (Some (lit "ff--" ++ [1]), 6).
Proof.
  rewrite (ksnprintf_correct (replicate 6 1) 5 (Some (lit "%x-%d")) [VInt 255; VInt (2 ^ 32 - 41)] (bytes_of "ff--41")).
  - reflexivity.
  - vm_compute. split; congruence.
  - vm_compute. congruence.
  - repeat (constructor; [split; [vm_compute; congruence | vm_compute; reflexivity] |]). constructor.
  - vm_compute. reflexivity.
Defined.

Lemma kvprintf_emit_buffered_spec chunk cap fmt args txt :
  match chunk with Some b => 0 ≤ cap ≤ zlen b | None => True end →
  Forall varg_ok args → format_text (Some fmt) args = Ret txt →
  ∃ calls, kvprintf_emit_buffered true chunk cap (Some fmt) args = Ret (calls, Z.min 2147483647 (zlen txt)) ∧
    concat calls = txt ∧ (is_Some chunk → 0 < cap → Forall (λ c, 0 < zlen c ≤ cap) calls).
Proof.
  intros Hb Ha Htxt. unfold kvprintf_emit_buffered. cbn [negb].
  destruct (decide (is_Some chunk ∧ 0 < cap)) as [[[b ->] Hcap]|Hd].
  - destruct (kvformat_emits (holds_chunks cap) (Sink0 := sink_chunks cap Hcap) (Some fmt) args txt
      (mk_outbuf (Some b) cap 0 0 true []) Ha Htxt) as (o & -> & (He & Hc & Hl & Hu & Hall & b' & Hb' & Hbl & Ht)).
    { split_and!; try done. exists b. split_and!; try done. lia. }
    mred. rewrite Hl.
    replace (2147483647 `min` (U64MAX `min` zlen txt)) with (2147483647 `min` zlen txt) by ulia.
    unfold out_flush. rewrite He, Hb'. cbn [negb orb].
    destruct (Z.eqb_spec (ob_used o) 0) as [E|E]; mred.
    + eexists. split; [done |]. rewrite E in Ht. change (Z.to_nat 0) with O in Ht.
      rewrite take_0, app_nil_r in Ht. by split.
    + destruct (Z.ltb_spec (zlen b') (ob_used o)); [lia |]. mred. simpl. eexists. split; [done |].
      split; [rewrite concat_app; simpl; by rewrite app_nil_r |]. intros _ _.
      apply Forall_app. split; [done |]. constructor; [| done]. rewrite zlen_take; lia.
  - destruct (kvformat_emits holds_direct (Some fmt) args txt
      (mk_outbuf chunk cap 0 0 true []) Ha Htxt) as (o & -> & (He & Hl & Hbuf & Hu & Ht)).
    { split_and!; try done. simpl. destruct chunk as [b|]; [| by left]. right.
      destruct (decide (0 < cap)); [| lia]. exfalso. apply Hd. eauto. }
    mred. rewrite Hl.
    replace (2147483647 `min` (U64MAX `min` zlen txt)) with (2147483647 `min` zlen txt) by ulia.
    unfold out_flush. rewrite He, Hu. cbn [negb orb Z.eqb]. mred. eexists. split; [done |].
    split; [done |]. intros Hs Hcap. exfalso. by apply Hd.
Qed.

(** A format that does not fit its arguments makes [kprintf] fault. *)
Lemma kprintf_faults chunk fmt args f :
  zlen chunk = KPRINTF_CHUNK_SIZE → Forall varg_ok args → format_text (Some fmt) args = Fault f → kprintf chunk (Some fmt) args = Fault f.
Proof.
  intros Hc Ha H. unfold kprintf, kvprintf_emit_buffered, kvformat. cbn [negb format_text] in *.
  assert (Hs : Sink (holds_chunks KPRINTF_CHUNK_SIZE)) by (apply sink_chunks; unfold KPRINTF_CHUNK_SIZE; lia).
  rewrite (format_loop_faults (holds_chunks KPRINTF_CHUNK_SIZE) (S (length fmt)) fmt args f Ha H _ []); [done |].
  split_and!; try done. exists chunk. unfold KPRINTF_CHUNK_SIZE in *. split_and!; try done; cbn; lia.
Qed.

(** Buffered printing ([kprintf] and the log) hands its callback exactly the
    text the format string means, in order, whatever the chunk size; with a
    chunk buffer every call carries at least one byte and at most a buffer. *)
Theorem kprintf_emits_text (chunk : option (list Z)) (cap : Z) (fmt : list Z) (args : list varg) (txt : list Z) :
  match chunk with Some b => 0 ≤ cap ≤ zlen b | None => True end →
  Forall varg_ok args → format_text (Some fmt) args = Ret txt →
  ∃ calls, kvprintf_emit_buffered true chunk cap (Some fmt) args = Ret (calls, Z.min 2147483647 (zlen txt)) ∧
    concat calls = txt ∧ (is_Some chunk → 0 < cap → Forall (λ c, 0 < zlen c ≤ cap) calls).
Proof. apply kvprintf_emit_buffered_spec. Qed.

Lemma kprintf_emits_text_witness :
  ∃ calls, kvprintf_emit_buffered true (Some [9; 9; 9; 9]) 4 (Some (lit "%s=%u")) [VStr (Some (lit "key")); VInt 123456]
           = Ret (calls, 10) ∧ concat calls = bytes_of "key=123456".
Proof.
  destruct (kprintf_emits_text (Some [9; 9; 9; 9]) 4 (lit "%s=%u") [VStr (Some (lit "key")); VInt 123456]
    (bytes_of "key=123456")) as (calls & H1 & H2 & _).
  - vm_compute. split; congruence.
  - constructor; [vm_compute; congruence |]. constructor; [| constructor].
    split; [vm_compute; congruence | vm_compute; reflexivity].
  - vm_compute. reflexivity.
  - exists calls. split; [exact H1 | exact H2].
Defined.

(** ** Printing then parsing *)

#[local] Transparent le_digits.

Lemma num_value_snoc base v ds c : num_value base v (ds ++ [c]) = num_value base v ds * base + digit_value c.
Proof. unfold num_value. by rewrite fold_left_app. Qed.

Lemma digit_char_value upper d : 0 ≤ d < 16 → digit_value (default 0 (digit_map upper !! Z.to_nat d)) = d.
Proof.
  intros Hd. assert (d = 0 ∨ d = 1 ∨ d = 2 ∨ d = 3 ∨ d = 4 ∨ d = 5 ∨ d = 6 ∨ d = 7 ∨ d = 8 ∨ d = 9 ∨ d = 10 ∨ d = 11 ∨ d = 12 ∨ d = 13 ∨ d = 14 ∨ d = 15) as Hc by lia.
  destruct upper; repeat (destruct Hc as [-> | Hc]; [reflexivity |]); subst; reflexivity.
Qed.

Lemma le_digits_value k upper base v :
  base = 10 ∨ base = 16 → 0 ≤ v < base ^ Z.of_nat k → (0 < k)%nat →
  num_value base 0 (reverse (map (λ d, default 0 (digit_map upper !! Z.to_nat d)) (le_digits k base v))) = v.
Proof.
  intros Hb. revert v. induction k as [|k IH]; intros v Hv Hk; [lia |]. cbn [le_digits map].
  rewrite reverse_cons, num_value_snoc.
  assert (Hm : 0 ≤ v mod base < base) by (apply Z.mod_pos_bound; lia).
  rewrite digit_char_value by lia. pose proof (Z.div_mod v base ltac:(lia)) as Hdm.
  destruct (Z.eqb_spec (v / base) 0) as [E|E]; [cbn; lia |].
  assert (0 < v / base) by (assert (0 ≤ v / base) by (apply Z.div_pos; lia); lia).
  assert (v / base < base ^ Z.of_nat k) by (apply div_lt_pow; lia).
  rewrite IH; [lia | lia |]. destruct k; simpl in *; lia.
Qed.

Lemma num_text_digits upper base v :
  base = 10 ∨ base = 16 → Forall (λ c, is_digit_of base c = true) (num_text upper base v).
Proof.
  intros Hb. unfold num_text. apply Forall_reverse. apply Forall_map.
  eapply Forall_impl; [apply (le_digits_range 65 base v); lia |]. intros d Hd. simpl in Hd |- *.
  unfold is_digit_of. rewrite !digit_char_value by lia. lia.
Qed.

(** The round trip needs the buffer to take all 20 digits. *)
Lemma le_digits_length base v k m :
  1 < base → (0 < m)%nat → 0 ≤ v < base ^ Z.of_nat m → (length (le_digits k base v) ≤ m)%nat.
Proof.
  intros Hb. revert m v. induction k as [|k IH]; intros m v Hm Hv; simpl; [lia |].
  destruct (Z.eqb_spec (v / base) 0) as [E|E]; simpl; [lia |].
  destruct m as [|m]; [lia |].
  assert (0 < v / base) by (assert (0 ≤ v / base) by (apply Z.div_pos; lia); lia).
  assert (v / base < base ^ Z.of_nat m) by (apply div_lt_pow; lia).
  assert (0 < m)%nat by (destruct m; simpl in *; lia).
  specialize (IH m (v / base) ltac:(done) ltac:(lia)). lia.
Qed.

Lemma format_text_llu v : is_u64 v → format_text (Some (lit "%llu")) [VLong v] = Ret (num_text false 10 v).
Proof.
  intros Hv. change (format_text (Some (lit "%llu")) [VLong v]) with
    ('(a, args) ← conv_text false 0 true 117 [VLong v]; t ← format_text_from 4 [0] args; Ret (a ++ t)).
  cbn [conv_text Z.eqb Pos.eqb orb arg_int]. mred. change (format_text_from 4 [0] []) with (@Ret (list Z) []). mred. f_equal.
  rewrite app_nil_r. unfold uint_text.
  replace (Z.to_nat (0 - zlen (num_text false 10 v))) with O; [done |].
  pose proof (zlen_nonneg (num_text false 10 v)). lia.
Qed.

(** Printing and parsing round-trip: every 64-bit value printed with [%llu]
    into a buffer of at least 21 bytes is read back by [strtou64] in base ten,
    with [end] at the terminator. *)
Theorem printf_strtou64_roundtrip (b : list Z) (cap v : Z) :
  is_u64 v → 21 ≤ cap ≤ U64MAX → cap ≤ zlen b →
  ∃ b' n, ksnprintf (Some b) cap (Some (lit "%llu")) [VLong v] = Ret (Some b', n) ∧
          strtou64 (Some b') 10 = Ret (v, n).
Proof.
  intros Hv Hcap Hb. unfold ksnprintf. erewrite kvsnprintf_spec; [| lia | done | constructor; [exact Hv | constructor] | by apply format_text_llu].
  destruct (Z.eqb_spec cap 0); [lia |]. eexists _, _. split; [done |].
  assert (Hlen : zlen (num_text false 10 v) ≤ 20).
  { unfold num_text, zlen. rewrite length_reverse, length_map.
    pose proof (le_digits_length 10 v 65 20 ltac:(lia) ltac:(lia)) as H. unfold is_u64 in Hv.
    assert (2 ^ 64 ≤ 10 ^ Z.of_nat 20) by (vm_compute; congruence). lia. }
  rewrite (take_ge (num_text false 10 v)) by (unfold zlen in Hlen; lia).
  unfold blit. rewrite take_0. cbn [app]. rewrite <- app_assoc.
  pose proof (strtou64_digits 10 [] (num_text false 10 v) 0
    (drop (0 + length (num_text false 10 v ++ [0])) b)) as H. cbn [app] in H. cbn [app].
  rewrite H; [| lia | constructor | by apply num_text_digits; left | | reflexivity].
  - unfold num_text at 1. rewrite le_digits_value; [| by left | | lia].
    + rewrite !Z.min_r by ulia. done.
    + unfold is_u64 in Hv. assert (2 ^ 64 ≤ 10 ^ Z.of_nat 65) by (vm_compute; congruence). lia.
  - unfold num_text. cbn [le_digits map]. rewrite reverse_cons. by destruct (reverse _).
Qed.

Lemma printf_strtou64_roundtrip_witness :
  ∃ b' n, ksnprintf (Some (replicate 24 7)) 24 (Some (lit "%llu")) [VLong U64MAX] = Ret (Some b', n) ∧
          strtou64 (Some b') 10 = Ret (U64MAX, n).
Proof.
  apply printf_strtou64_roundtrip.
  - split; [vm_compute; congruence | vm_compute; reflexivity].
  - vm_compute. split; congruence.
  - vm_compute. congruence.
Defined.

(** ** A format string that ends in a percent sign *)




(** ** Well-typed calls

    The kinds of arguments a format string consumes, in order: a call whose
    arguments have these kinds is well formed, whatever their values. *)

Inductive vkind := KInt | KLong | KStr | KPtr.

Definition conv_kinds (long : bool) (conv : Z) : list vkind :=
  if conv =? 37 then [] else if conv =? 99 then [KInt] else if conv =? 115 then [KStr]
  else if (conv =? 100) || (conv =? 105) || (conv =? 117) || (conv =? 120) || (conv =? 88) then [if long then KLong else KInt]
  else if conv =? 112 then [KPtr] else [].

Fixpoint fmt_kinds_from (fuel : nat) (p : list Z) : res (list vkind) :=
  match fuel with
  | O => Fault Diverged
  | S k =>
      c ← rd p 0;
      if c =? 0 then Ret []
      else if negb (c =? 37) then fmt_kinds_from k (drop 1 p)
      else
        '(_, _, lf, llf, q) ← parse_directive (drop 1 p);
        conv ← rd q 0;
        ks ← fmt_kinds_from k (drop 1 q);
        Ret (conv_kinds (lf || llf) conv ++ ks)
  end.

Definition fmt_kinds (fmt : list Z) : res (list vkind) := fmt_kinds_from (S (length fmt)) fmt.

Definition has_kind (a : varg) (k : vkind) : Prop :=
  match a, k with
  | VInt _, KInt | VLong _, KLong | VPtr _, KPtr | VStr None, KStr => True
  | VStr (Some o), KStr => ∃ s, cstr_at o s
  | _, _ => False
  end.

Lemma str_text_cstr o s : cstr_at o s → str_text (Some o) = Ret s.
Proof.
  intros Hs. unfold str_text. cbn [default from_option id]. rewrite (strlen_spec o s Hs). mred.
  destruct Hs as [_ [rest ->]]. unfold zlen. by rewrite Nat2Z.id, take_app_length.
Qed.

Lemma arg_int_typed (long : bool) a r : has_kind a (if long then KLong else KInt) → ∃ z, arg_int long (a :: r) = Ret (z, r).
Proof. destruct long, a as [?|?|[?|]|?]; simpl; intros H; try done; eauto. Qed.

Lemma conv_text_typed pz w long conv args ks :
  Forall2 has_kind args (conv_kinds long conv ++ ks) →
  ∃ a r, conv_text pz w long conv args = Ret (a, r) ∧ Forall2 has_kind r ks.
Proof.
  unfold conv_kinds, conv_text. intros H.
  assert (Hint : ∀ l (g : Z → list Z), Forall2 has_kind args ((if l : bool then KLong else KInt) :: ks) →
    ∃ a r, ('(z, r) ← arg_int l args; Ret (g z, r)) = Ret (a, r) ∧ Forall2 has_kind r ks).
  { intros l g (a & r & Ha & Hr & ->)%Forall2_cons_inv_r. destruct (arg_int_typed l a r Ha) as [z ->]. mred. eauto. }
  destruct (conv =? 37); [eauto |].
  destruct (conv =? 99); [by apply (Hint false (λ z, [wrap8 z])) |].
  destruct (conv =? 115).
  { apply Forall2_cons_inv_r in H as (a & r & Ha & Hr & ->). destruct a as [?|?|[s|]|?]; simpl in Ha; try done; simpl.
    - destruct Ha as [x Hx]. rewrite (str_text_cstr _ _ Hx). mred. eauto.
    - eauto. }
  destruct (conv =? 100), (conv =? 105), (conv =? 117), (conv =? 120), (conv =? 88), (conv =? 112); simpl in H |- *; eauto.
  apply Forall2_cons_inv_r in H as (a & r & Ha & Hr & ->). destruct a as [?|?|[?|]|?]; simpl in Ha; try done. simpl. eauto.
Qed.

Lemma format_text_typed fmt ks args :
  fmt_kinds fmt = Ret ks → Forall2 has_kind args ks → ∃ txt, format_text (Some fmt) args = Ret txt.
Proof.
  unfold fmt_kinds, format_text. generalize (S (length fmt)). intros fuel. revert fmt ks args.
  induction fuel as [|fuel IH]; intros p ks args H Ha; [done |]. cbn [fmt_kinds_from format_text_from] in *.
  apply res_bind_Ret_inv in H as (c & -> & H). mred. destruct (c =? 0); [eauto |].
  destruct (negb (c =? 37)).
  { destruct (IH _ _ _ H Ha) as [txt ->]. mred. eauto. }
  apply res_bind_Ret_inv in H as ([[[[pz w] lf] llf] q] & -> & H). mred.
  apply res_bind_Ret_inv in H as (conv & -> & H). mred.
  apply res_bind_Ret_inv in H as (ks' & Hks & [= <-]).
  destruct (conv_text_typed pz w _ _ _ _ Ha) as (a & r & -> & Hr). mred.
  destruct (IH _ _ _ Hks Hr) as [txt ->]. mred. eauto.
Qed.

(** ** Accumulating into a buffer *)

(** The accumulator holds the text [t], truncated to its capacity, over [b0]. *)
Definition buf_holds (b0 : list Z) (cap : Z) (out : rabbitbone_buf_out_t) (t : list Z) : Prop :=
  bo_cap out = cap ∧ bo_used out = Z.min (cap - 1) (zlen t) ∧
  ∃ junk, bo_buf out = Some (take (Z.to_nat (cap - 1)) t ++ 0 :: junk) ∧
    zlen (take (Z.to_nat (cap - 1)) t ++ 0 :: junk) = zlen b0.

Section accumulate.
Context (b0 : list Z) (cap : Z) (Hcap : 0 < cap ≤ 2 ^ 31) (Hb0 : cap ≤ zlen b0).

Lemma zlen_trunc (t : list Z) : zlen (take (Z.to_nat (cap - 1)) t) = Z.min (cap - 1) (zlen t).
Proof. unfold zlen in *. rewrite length_take. lia. Qed.

Lemma buf_init_holds : ∃ out, rabbitbone_buf_init (Some b0) cap = Ret out ∧ buf_holds b0 cap out [].
Proof.
  unfold rabbitbone_buf_init. destruct (Z.eqb_spec cap 0); [lia |]. cbn [negb].
  rewrite wr_inbounds by lia. mred. eexists. split; [done |]. split_and!; [done | cbn [bo_used]; change (zlen []) with 0; lia |].
  destruct b0 as [|x b]; [unfold zlen in Hb0; simpl in Hb0; lia |]. exists b. rewrite take_nil.
  split; [done |]. autorewrite with zlen; lia.
Qed.

(** Truncating after appending only adds what still fits. *)
Lemma trunc_app (t x : list Z) :
  take (Z.to_nat (cap - 1)) (t ++ x) =
  take (Z.to_nat (cap - 1)) t ++ take (Z.to_nat (cap - 1 - Z.min (cap - 1) (zlen t))) x.
Proof. rewrite take_app. do 2 f_equal. unfold zlen. lia. Qed.

Lemma buf_appendf_holds out t fmt args txt :
  buf_holds b0 cap out t → Forall varg_ok args → format_text (Some fmt) args = Ret txt →
  ∃ out', rabbitbone_buf_appendf out (Some fmt) args = Ret out' ∧ buf_holds b0 cap out' (t ++ txt).
Proof.
  intros (Hc & Hu & junk & Hb & Hlen) Ha Htxt. unfold rabbitbone_buf_appendf, rabbitbone_buf_vappendf.
  rewrite Hb, Hc. destruct (Z.eqb_spec cap 0); [lia |]. pose proof (zlen_nonneg t). pose proof (zlen_nonneg txt).
  destruct (Z.leb_spec cap (bo_used out)); [lia |].
  set (pre := take (Z.to_nat (cap - 1)) t) in *. assert (Hpre : zlen pre = bo_used out) by (unfold pre; rewrite zlen_trunc; lia).
  rewrite Hlen. destruct (Z.ltb_spec (zlen b0) (bo_used out)); [lia |].
  assert (Hdrop : drop (Z.to_nat (bo_used out)) (pre ++ 0 :: junk) = 0 :: junk).
  { replace (Z.to_nat (bo_used out)) with (length pre) by (unfold zlen in *; lia). by rewrite drop_app_length. }
  assert (Htake : take (Z.to_nat (bo_used out)) (pre ++ 0 :: junk) = pre).
  { replace (Z.to_nat (bo_used out)) with (length pre) by (unfold zlen in *; lia). by rewrite take_app_length. }
  rewrite Hdrop, Htake. rewrite zlen_app in Hlen.
  erewrite kvsnprintf_spec; [| ulia | lia | done | done]. mred.
  destruct (Z.eqb_spec (cap - bo_used out) 0); [lia |]. cbn [default from_option id].
  set (x := take (Z.to_nat (cap - bo_used out - 1)) txt).
  assert (Hx : zlen x = Z.min (cap - bo_used out - 1) (zlen txt)) by (unfold x, zlen in *; rewrite length_take; lia).
  unfold blit. rewrite take_0. cbn [app].
  assert (Heq : take (Z.to_nat (cap - 1)) (t ++ txt) = pre ++ x).
  { rewrite trunc_app. unfold pre, x. do 3 f_equal. lia. }
  assert (Hj : zlen (drop (0 + length (x ++ [0])) (0 :: junk)) = zlen (0 :: junk) - zlen x - 1).
  { unfold zlen in *. rewrite length_drop, length_app. cbn [length] in *. lia. }
  set (j' := drop (0 + length (x ++ [0])) (0 :: junk)) in *.
  assert (Hdone : ∀ used', used' = Z.min (cap - 1) (zlen (t ++ txt)) →
    buf_holds b0 cap (mk_bufout (Some (pre ++ (x ++ [0]) ++ j')) cap used') (t ++ txt)).
  { intros used' ->. split_and!; [done | done |]. exists j'. rewrite Heq. simpl. split.
    - by rewrite <- !app_assoc.
    - autorewrite with zlen in *. lia. }
  destruct (Z.leb_spec (2147483647 `min` zlen txt) 0).
  { eexists. split; [done |]. apply Hdone. rewrite zlen_app. lia. }
  set (used' := bo_used out + _). assert (Hu' : used' = Z.min (cap - 1) (zlen (t ++ txt))).
  { unfold used'. rewrite zlen_app. destruct (Z.ltb_spec (cap - bo_used out - 1) (2147483647 `min` zlen txt)); lia. }
  assert (Hpx : used' = zlen (pre ++ x)) by (rewrite Hu', !zlen_app, Hx, Hpre; lia).
  replace (if used' <? cap then used' else cap - 1) with (zlen (pre ++ x)) by (destruct (Z.ltb_spec used' cap); lia).
  rewrite <- (app_assoc x), (app_assoc pre). rewrite wr_middle by done. mred. eexists. split; [done |].
  simpl. rewrite drop_0. specialize (Hdone used' Hu'). by rewrite <- (app_assoc x), (app_assoc pre) in Hdone.
Qed.

Lemma append_loop_spec pre s rest junk used :
  nonul s → used = zlen pre → zlen pre ≤ cap - 1 → cap ≤ zlen (pre ++ junk) →
  let x := take (Z.to_nat (cap - 1 - used)) s in
  append_loop (pre ++ junk) (s ++ 0 :: rest) used cap =
    Ret ((pre ++ x) ++ drop (length x) junk, zlen (pre ++ x)).
Proof.
  intros Hs. revert pre junk used. induction Hs as [|c s Hc Hs IH]; intros pre junk used -> Hle Hcl.
  { cbn [app append_loop]. change (0 =? 0) with true. cbn [negb andb]. rewrite take_nil, app_nil_r. done. }
  cbn [app append_loop]. destruct (Z.eqb_spec c 0); [done |]. cbn [negb andb].
  destruct (Z.ltb_spec (zlen pre) (cap - 1)).
  - assert (junk ≠ []) by (intros ->; rewrite app_nil_r in Hcl; lia).
    rewrite wr_middle by done. mred. destruct junk as [|j junk]; [done |]. cbn [drop]. rewrite drop_0.
    replace (pre ++ c :: junk) with ((pre ++ [c]) ++ junk) by (by rewrite <- app_assoc).
    rewrite IH; [| by rewrite zlen_app, zlen_1 | rewrite zlen_app, zlen_1; lia | autorewrite with zlen in *; lia].
    replace (Z.to_nat (cap - 1 - zlen pre)) with (S (Z.to_nat (cap - 1 - (zlen pre + 1)))) by lia.
    cbn [take length drop]. by rewrite <- !app_assoc.
  - replace (Z.to_nat (cap - 1 - zlen pre)) with O by lia. by rewrite take_0, app_nil_r.
Qed.

Lemma buf_append_raw_holds out t o s :
  buf_holds b0 cap out t → cstr_at o s →
  ∃ out', rabbitbone_buf_append_raw out (Some o) = Ret out' ∧ buf_holds b0 cap out' (t ++ s).
Proof.
  intros (Hc & Hu & junk & Hb & Hlen) [Hs [rest ->]]. unfold rabbitbone_buf_append_raw.
  rewrite Hb, Hc. destruct (Z.eqb_spec cap 0); [lia |]. pose proof (zlen_nonneg t). pose proof (zlen_nonneg s).
  destruct (Z.leb_spec cap (bo_used out)); [lia |].
  set (pre := take (Z.to_nat (cap - 1)) t) in *.
  assert (Hpre : zlen pre = bo_used out) by (unfold pre; rewrite zlen_trunc; lia).
  rewrite append_loop_spec; [| done | done | lia | lia]. mred.
  set (x := take (Z.to_nat (cap - 1 - bo_used out)) s).
  assert (Hx : zlen x = Z.min (cap - 1 - bo_used out) (zlen s)) by (unfold x, zlen in *; rewrite length_take; lia).
  assert (Heq : take (Z.to_nat (cap - 1)) (t ++ s) = pre ++ x).
  { rewrite trunc_app. unfold pre, x. do 3 f_equal. lia. }
  assert (Hpx : zlen (pre ++ x) = Z.min (cap - 1) (zlen (t ++ s))) by (rewrite !zlen_app, Hx, Hpre; lia).
  destruct (Z.ltb_spec (zlen (pre ++ x)) cap); [| lia].
  assert (Hd : zlen (drop (length x) (0 :: junk)) = zlen (0 :: junk) - zlen x).
  { rewrite zlen_app in Hlen. unfold zlen in *. rewrite length_drop. lia. }
  rewrite zlen_app in Hlen. rewrite wr_middle.
  2: { intros E. rewrite E, zlen_nil in Hd. rewrite zlen_app in *. lia. }
  mred. eexists. split; [done |]. split_and!; [done | done |]. eexists. rewrite Heq. split; [done |].
  assert (zlen (drop 1 (drop (length x) (0 :: junk))) = zlen (0 :: junk) - zlen x - 1) as Hd1.
  { rewrite drop_drop. unfold zlen in *. rewrite !length_drop in *. rewrite length_app in *. lia. }
  autorewrite with zlen in *. lia.
Qed.

End accumulate.

(** Appending a text whose arguments have the kinds its format asks for. *)
Lemma append_typed b0 cap (Hcap : 0 < cap ≤ 2 ^ 31) (Hb0 : zlen b0 = cap) out t fmt args ks :
  buf_holds b0 cap out t → Forall varg_ok args → fmt_kinds fmt = Ret ks → Forall2 has_kind args ks →
  ∃ out' t', rabbitbone_buf_appendf out (Some fmt) args = Ret out' ∧ buf_holds b0 cap out' t'.
Proof.
  intros Hh Ha Hk Hf. destruct (format_text_typed fmt ks args Hk Hf) as [txt Htxt].
  destruct (buf_appendf_holds b0 cap Hcap ltac:(lia) out t fmt args txt Hh Ha Htxt) as (out' & E & H'). eauto.
Qed.

(** What the caller's buffer holds in the end: a terminated text. *)
Lemma buf_holds_end b0 cap (Hb0 : zlen b0 = cap) bo t : buf_holds b0 cap bo t → ∃ out, bo_buf bo = Some out ∧ zlen out = cap ∧ ∃ txt, cstr_at out txt ∧ zlen txt < cap.
Proof.
  intros (_ & _ & junk & -> & Hz). eexists. split; [done |]. rewrite Hz, Hb0. split; [done |].
  set (out := _ ++ _) in *. destruct (cstr_found out (length out)) as (s & Hs & Hl); [rewrite take_ge by lia; subst out; apply elem_of_app; right; apply list_elem_of_here |].
  exists s. split; [done |]. unfold zlen in *. lia.
Qed.

Inductive append_op :=
| ARaw (o : list Z)
| AFmt (fmt : list Z) (args : list varg).

Definition append_step (out : rabbitbone_buf_out_t) (a : append_op) : res rabbitbone_buf_out_t :=
  match a with
  | ARaw o => rabbitbone_buf_append_raw out (Some o)
  | AFmt fmt args => rabbitbone_buf_appendf out (Some fmt) args
  end.

Fixpoint append_run (out : rabbitbone_buf_out_t) (ops : list append_op) : res rabbitbone_buf_out_t :=
  match ops with [] => Ret out | a :: ops' => out ← append_step out a; append_run out ops' end.

(** [a] appends the text [x]. *)
Definition appends (a : append_op) (x : list Z) : Prop :=
  match a with
  | ARaw o => cstr_at o x
  | AFmt fmt args => Forall varg_ok args ∧ format_text (Some fmt) args = Ret x
  end.

(** Building a report with [rabbitbone_buf_append_raw] and
    [rabbitbone_buf_appendf] leaves the concatenation of all the pieces cut at
    [cap - 1] bytes and terminated: no append ever writes outside the buffer,
    and appends after the buffer filled up change nothing. *)
Theorem buf_appends_concat (b0 : list Z) (cap : Z) (ops : list append_op) (xs : list (list Z)) :
  0 < cap ≤ 2 ^ 31 → cap ≤ zlen b0 → Forall2 appends ops xs →
  ∃ out0 out, rabbitbone_buf_init (Some b0) cap = Ret out0 ∧ append_run out0 ops = Ret out ∧
    buf_holds b0 cap out (concat xs).
Proof.
  intros Hcap Hb0 Hops. destruct (buf_init_holds b0 cap Hcap Hb0) as (out0 & H0 & Hh). exists out0.
  enough (∃ out, append_run out0 ops = Ret out ∧ buf_holds b0 cap out ([] ++ concat xs))
    as (out & H1 & H2) by (by exists out).
  clear H0. revert out0 Hh. generalize (@nil Z). induction Hops as [|a x ops xs Ha Hops IH]; intros t out0 Hh; simpl.
  { exists out0. by rewrite app_nil_r. }
  assert (∃ out1, append_step out0 a = Ret out1 ∧ buf_holds b0 cap out1 (t ++ x)) as (out1 & -> & Hh1).
  { destruct a as [o|fmt args]; [by apply buf_append_raw_holds |]. destruct Ha. by apply buf_appendf_holds. }
  mred. rewrite app_assoc. by apply IH.
Qed.

Lemma buf_appends_concat_witness :
  ∃ out0 out, rabbitbone_buf_init (Some (replicate 8 9)) 8 = Ret out0 ∧
    append_run out0 [ARaw (lit "mem "); AFmt (lit "%u KiB") [VInt 640]] = Ret out ∧
    buf_holds (replicate 8 9) 8 out (bytes_of "mem 640 KiB").
Proof.
  apply (buf_appends_concat (replicate 8 9) 8 _ [bytes_of "mem "; bytes_of "640 KiB"]).
  - lia.
  - vm_compute. congruence.
  - constructor.
    + split; [repeat (constructor; [discriminate |]); constructor | exists []; reflexivity].
    + constructor; [| constructor]. split; [| vm_compute; reflexivity].
      constructor; [split; [vm_compute; congruence | vm_compute; reflexivity] | constructor].
Defined.
