(* ===== verification/Log.v ===== *)
(** * The kernel log ring: [kernel/core/log.c]

    A two-dimensional character array used as a circular buffer of lines, first
    the static early ring and later a larger heap ring the lines are migrated
    to.  The specification is the list of the most recent lines. *)

From Stdlib Require Import ZArith Lia String.
From stdpp Require Import prelude list_numbers.
From S2P Require Import Prelude CString Circular Printf.

Local Open Scope Z_scope.

Definition LOG_EARLY_LINES : Z := 64.
Definition LOG_EARLY_LINE_LEN : Z := 192.
Definition LOG_HEAP_LINES : Z := 4096.
Definition LOG_HEAP_LINE_LEN : Z := 384.

Definition LOG_TRACE : Z := 0.
Definition LOG_INFO : Z := 1.
Definition LOG_WARN : Z := 2.
Definition LOG_ERROR : Z := 3.
Definition LOG_FATAL : Z := 4.

(** The file's static variables; [ring] is the array [ring_storage] points to,
    one list of [ring_line_len] bytes per line. *)
Record log_state := mk_log {
  ring : list (list Z);
  ring_lines : Z;
  ring_line_len : Z;
  write_index : Z;
  total_lines : Z;
  console_min_level : Z;
  serial_min_level : Z;
  heap_ring_active : bool;
}.

(** What the log sends to the console and to the serial port: the line object. *)
Inductive log_event := ConsoleWrite (line : list Z) | SerialWrite (line : list Z).

Definition ring_line (st : log_state) (idx : Z) : res (list Z) := rd (ring st) idx.

Definition log_level_name (level : Z) : list Z :=
  if level =? LOG_TRACE then lit "TRACE"
  else if level =? LOG_INFO then lit "INFO"
  else if level =? LOG_WARN then lit "WARN"
  else if level =? LOG_ERROR then lit "ERROR"
  else if level =? LOG_FATAL then lit "FATAL"
  else lit "UNKNOWN".

(** [strstr(line, marker) != 0] *)
Definition has_marker (line : list Z) (marker : string) : res bool :=
  r ← strstr (Some line) (Some (lit marker)); Ret (if r is Some _ then true else false).

(** [a || b] with [b] evaluated only when [a] is false. *)
Definition or_else (a b : res bool) : res bool := x ← a; if (x : bool) then Ret true else b.

Definition log_line_has_attention_marker (line : option (list Z)) : res bool :=
  match line with
  | None => Ret false
  | Some line =>
      or_else (has_marker line "[ fail  ]")
     (or_else (has_marker line "KTEST_STATUS: FAIL")
     (or_else (has_marker line "[ ambiguous ]")
     (or_else (has_marker line "[ inconclusive ]")
              (has_marker line "[ unknown ]"))))
  end.

(** [strncmp(line, prefix, n) == 0] *)
Definition has_prefix (line : list Z) (prefix : string) (n : Z) : res bool :=
  r ← strncmp (Some line) (Some (lit prefix)) n; Ret (r =? 0).

Definition log_formatted_line_should_emit_serial (line : option (list Z)) : res bool :=
  match line with
  | None => Ret false
  | Some l =>
      or_else (has_prefix l "[WARN]" 6)
     (or_else (has_prefix l "[ERROR]" 7)
     (or_else (has_prefix l "[FATAL]" 7)
              (log_line_has_attention_marker line)))
  end.

Definition log_line_should_emit_serial (st : log_state) (level : Z) (line : option (list Z)) : res bool :=
  or_else (Ret (serial_min_level st <=? level)) (log_formatted_line_should_emit_serial line).

(** The static initialisers of the two levels are arguments, since nothing in the
    file changes them. *)
Definition log_init (console_min serial_min : Z) : log_state :=
  mk_log (replicate (Z.to_nat LOG_EARLY_LINES) (replicate (Z.to_nat LOG_EARLY_LINE_LEN) 0))
    LOG_EARLY_LINES LOG_EARLY_LINE_LEN 0 0 console_min serial_min false.

(** [new_ring] is what [kcalloc(LOG_HEAP_LINES, LOG_HEAP_LINE_LEN)] returned. *)
Definition log_enable_heap_ring (st : log_state) (new_ring : option (list (list Z))) : res log_state :=
  if heap_ring_active st then Ret st else
  match new_ring with
  | None => Ret st
  | Some nr =>
      let copy_count := if LOG_HEAP_LINES <? total_lines st then LOG_HEAP_LINES else total_lines st in
      let old_start := if total_lines st =? ring_lines st then write_index st else 0 in
      let old_start := if copy_count <? total_lines st
                       then wrap32 (old_start + (total_lines st - copy_count)) mod ring_lines st
                       else old_start in
      nr ← for_n (Z.to_nat copy_count) 0 (λ i nr,
             src ← ring_line st (wrap32 (old_start + i) mod ring_lines st);
             dst ← rd nr i;
             '(_, dst) ← strlcpy (Some dst) (Some src) LOG_HEAP_LINE_LEN;
             dst ← wr (default [] dst) (LOG_HEAP_LINE_LEN - 1) 0;
             wr nr i dst) nr;
      Ret (mk_log nr LOG_HEAP_LINES LOG_HEAP_LINE_LEN
             (if copy_count =? LOG_HEAP_LINES then 0 else copy_count) copy_count
             (console_min_level st) (serial_min_level st) true)
  end.

Definition log_vwrite (st : log_state) (level : Z) (component : option (list Z)) (fmt : option (list Z)) (ap : list varg)
  : res (log_state * list log_event) :=
  dst ← ring_line st (write_index st);
  line ← rabbitbone_buf_init (Some dst) (ring_line_len st);
  line ← rabbitbone_buf_appendf line (Some (lit "[%s] %s: "))
           [VStr (Some (log_level_name level)); VStr (Some (default (lit "kernel") component))];
  line ← rabbitbone_buf_vappendf line (Some (default (lit "") fmt)) ap;
  line ← rabbitbone_buf_append_raw line (Some [10; 0]);
  dst ← wr (default [] (bo_buf line)) (ring_line_len st - 1) 0;
  ring' ← wr (ring st) (write_index st) dst;
  let st' := mk_log ring' (ring_lines st) (ring_line_len st)
    (wrap32 (write_index st + 1) mod ring_lines st)
    (if total_lines st <? ring_lines st then total_lines st + 1 else total_lines st)
    (console_min_level st) (serial_min_level st) (heap_ring_active st) in
  let con := if console_min_level st <=? level then [ConsoleWrite dst] else [] in
  ser ← log_line_should_emit_serial st' level (Some dst);
  Ret (st', con ++ (if ser : bool then [SerialWrite dst] else [])).

Definition log_write (st : log_state) (level : Z) (component fmt : option (list Z)) (ap : list varg)
  : res (log_state * list log_event) := log_vwrite st level component fmt ap.

(** [u32 start = total_lines == ring_lines ? write_index : 0u], the oldest line. *)
(** A call of [KLOG(level, component, fmt, ...)] made by another component. *)
Record klog_call := mk_klog { klog_level : Z; klog_component : list Z; klog_fmt : list Z; klog_args : list varg }.

Definition log_start (st : log_state) : Z :=
  if total_lines st =? ring_lines st then write_index st else 0.

(** [out] collects the lines handed to the writer, in order. *)
Definition dump_step (st : log_state) (i : Z) (out : list (list Z)) : res (list (list Z)) :=
  let idx := wrap32 (log_start st + i) mod ring_lines st in
  l ← ring_line st idx;
  Ret (out ++ [l]).

Definition log_dump_ring_ctx (st : log_state) : res (list (list Z)) :=
  for_n (Z.to_nat (total_lines st)) 0 (dump_step st) [].

Definition log_dump_ring (st : log_state) : res (list (list Z)) := log_dump_ring_ctx st.

(** The body of the backwards scan; the state is [emit_count] and [used]. *)
Definition tail_step (st : log_state) (max_bytes n : Z) (s : Z * Z) : res (ctl (Z * Z) Z) :=
  let '(emit_count, used) := s in
  let logical := total_lines st - 1 - n in
  let idx := wrap32 (log_start st + logical) mod ring_lines st in
  l ← ring_line st idx;
  len ← strnlen (Some l) (ring_line_len st);
  if negb (emit_count =? 0) && (max_bytes - used <? len) then Ret (Done emit_count)
  else if (emit_count =? 0) && (max_bytes <? len) then Ret (Done 1)
  else
    let used := used + len in
    let emit_count := emit_count + 1 in
    if max_bytes <=? used then Ret (Done emit_count) else Ret (Next (emit_count, used)).

Definition log_dump_ring_tail_ctx (st : log_state) (max_bytes : Z) : res (list (list Z)) :=
  let count := total_lines st in
  emit_count ← (if negb (count =? 0) && negb (max_bytes =? 0) then
      c ← loop_n (Z.to_nat count) 0 (tail_step st max_bytes) (0, 0);
      match c with Next (e, _) => Ret e | Done e => Ret e end
    else Ret 0);
  let first := if emit_count <=? count then count - emit_count else 0 in
  for_n (Z.to_nat (count - first)) first (dump_step st) [].

Example log_ex :
  ('(st, ev) ← log_write (log_init LOG_ERROR LOG_WARN) LOG_WARN (Some (lit "net")) (Some (lit "rx %u")) [VInt 7];
   d ← log_dump_ring st;
   Ret (map (take 14) d, length ev)) = Ret ([bytes_of "[WARN] net: rx"], 1%nat).
Proof. vm_compute. reflexivity. Qed.

(** ** Invariant and abstract value *)

(** The lines the ring keeps, oldest first. *)
Definition log_lines (st : log_state) : list (list Z) := circ (ring st) (log_start st) (total_lines st).

Record log_ok (st : log_state) : Prop := {
  lo_zlen : zlen (ring st) = ring_lines st;
  lo_lines : 0 < ring_lines st < 2 ^ 31;
  lo_len : 0 < ring_line_len st <= 2 ^ 31;
  lo_each : Forall (λ l, zlen l = ring_line_len st) (ring st);
  lo_total : 0 <= total_lines st <= ring_lines st;
  lo_write : 0 <= write_index st < ring_lines st;
  lo_partial : total_lines st < ring_lines st → write_index st = total_lines st;
  lo_early : heap_ring_active st = false →
    ring_lines st < LOG_HEAP_LINES ∧ ring_line_len st <= LOG_HEAP_LINE_LEN;
}.

(** The ring holds the lines [q], each as a C string. *)
Definition log_holds (st : log_state) (q : list (list Z)) : Prop :=
  log_ok st ∧ Forall2 cstr_at (log_lines st) q.

Lemma log_start_range st : log_ok st → 0 ≤ log_start st < ring_lines st.
Proof. intros []. unfold log_start. destruct (Z.eqb_spec (total_lines st) (ring_lines st)); lia. Qed.

Lemma log_lines_zlen st : log_ok st → zlen (log_lines st) = total_lines st.
Proof. intros []. apply circ_zlen. lia. Qed.

(** Reading the [k]-th kept line through the index arithmetic of the code. *)
Lemma ring_line_logical st k :
  log_ok st → 0 ≤ k < total_lines st →
  ∃ l, ring_line st (wrap32 (log_start st + k) mod ring_lines st) = Ret l ∧
       log_lines st !! Z.to_nat k = Some l.
Proof.
  intros Hok Hk. pose proof (log_start_range st Hok) as Hs. destruct Hok as [Hz Hl _ _ Ht _ _ _].
  rewrite wrap_small by lia. unfold log_lines. rewrite circ_lookup by lia. rewrite Hz.
  assert (0 ≤ (log_start st + k) mod ring_lines st < ring_lines st) by (apply Z.mod_pos_bound; lia).
  destruct (rd_inbounds (ring st) ((log_start st + k) mod ring_lines st)) as [l Hr]; [lia |].
  exists l. split; [done |]. by apply rd_Ret in Hr as [_ ?].
Qed.

(** The dump loop from logical index [first]. *)
Lemma dump_loop_spec st first :
  log_ok st → 0 ≤ first ≤ total_lines st →
  for_n (Z.to_nat (total_lines st - first)) first (dump_step st) [] =
  Ret (drop (Z.to_nat first) (log_lines st)).
Proof.
  intros Hok Hf. pose proof (log_lines_zlen st Hok) as Hzl.
  destruct (for_n_inv (λ i out, first ≤ i ∧ out = take (Z.to_nat (i - first)) (drop (Z.to_nat first) (log_lines st)))
    (dump_step st) (Z.to_nat (total_lines st - first)) first []) as (out & -> & _ & ->).
  - split; [lia |]. by rewrite Z.sub_diag.
  - intros i out Hi [Hfi ->]. unfold dump_step. destruct (ring_line_logical st i Hok) as (l & -> & Hl); [lia |]. mred.
    eexists. split; [done |]. split; [lia |].
    replace (Z.to_nat (i + 1 - first)) with (S (Z.to_nat (i - first))) by lia. symmetry. apply take_S_r.
    rewrite lookup_drop. rewrite <- Hl. f_equal. lia.
  - f_equal. apply take_ge. rewrite length_drop. unfold zlen in Hzl. lia.
Qed.

Lemma log_dump_ring_spec st : log_ok st → log_dump_ring st = Ret (log_lines st).
Proof.
  intros Hok. pose proof (dump_loop_spec st 0 Hok) as H. rewrite Z.sub_0_r in H.
  rewrite drop_0 in H. apply H. destruct Hok. lia.
Qed.

(** ** The text of a line *)

Definition line_text (level : Z) (comp msg : list Z) : list Z :=
  bytes_of "[" ++ removelast (log_level_name level) ++ bytes_of "] " ++ comp ++ bytes_of ": " ++ msg ++ [10].

Lemma format_char k c p args :
  c ≠ 0 → c ≠ 37 → format_text_from (S k) (c :: p) args = (t ← format_text_from k p args; Ret (c :: t)).
Proof. intros H0 H37. simpl. rewrite drop_0. by destruct (Z.eqb_spec c 0), (Z.eqb_spec c 37). Qed.

Lemma format_str k p s r :
  format_text_from (S k) (37 :: 115 :: p) (VStr s :: r) =
  (a ← str_text s; t ← format_text_from k p r; Ret (a ++ t)).
Proof.
  transitivity ('(a, args) ← (t ← str_text s; Ret (t, r)); t ← format_text_from k p args; Ret (a ++ t));
    [reflexivity | by destruct (str_text s)].
Qed.

Lemma log_level_name_cstr level : cstr_at (log_level_name level) (removelast (log_level_name level)).
Proof.
  unfold log_level_name. repeat case_match;
    (split; [repeat (constructor; [discriminate |]); constructor | exists []; reflexivity]).
Qed.

Lemma header_text level comp c :
  cstr_at comp c →
  format_text (Some (lit "[%s] %s: ")) [VStr (Some (log_level_name level)); VStr (Some comp)] =
    Ret (bytes_of "[" ++ removelast (log_level_name level) ++ bytes_of "] " ++ c ++ bytes_of ": ").
Proof.
  intros Hc. change (lit "[%s] %s: ") with [91; 37; 115; 93; 32; 37; 115; 58; 32; 0]. cbn [format_text length].
  rewrite format_char by done. rewrite format_str. rewrite (str_text_cstr _ _ (log_level_name_cstr level)). mred.
  do 2 (rewrite format_char by done). rewrite format_str. rewrite (str_text_cstr _ _ Hc). mred.
  do 2 (rewrite format_char by done). change (format_text_from 4 [0] []) with (@Ret (list Z) []). by mred.
Qed.

(** ** Writing a line *)

Lemma wr_last (x junk : list Z) n :
  zlen (x ++ 0 :: junk) = n →
  ∃ junk', wr (x ++ 0 :: junk) (n - 1) 0 = Ret (x ++ 0 :: junk') ∧ zlen (x ++ 0 :: junk') = n.
Proof.
  intros <-. rewrite zlen_app, zlen_cons. pose proof (zlen_nonneg junk). pose proof (zlen_nonneg x).
  rewrite wr_app_r by lia. destruct junk as [|j junk] using rev_ind; clear -H H0.
  - exists []. change (zlen (@nil Z)) with 0. replace (zlen x + (1 + 0) - 1 - zlen x) with 0 by lia. by rewrite zlen_app.
  - exists (junk ++ [0]). rewrite zlen_app, zlen_1 in *. rewrite wr_inbounds.
    + mred. split; [| autorewrite with zlen; lia]. do 2 f_equal.
      replace (Z.to_nat (zlen x + (1 + (zlen junk + 1)) - 1 - zlen x)) with (S (length junk)) by (unfold zlen; lia).
      change (<[S (length junk) := 0]> (0 :: junk ++ [j])) with (0 :: <[length junk := 0]> (junk ++ [j])).
      by rewrite insert_app_r_alt, Nat.sub_diag by lia.
    + autorewrite with zlen. lia.
Qed.

(** The three appends of [log_vwrite] on a line of the ring. *)
Lemma format_line dst len level comp c fmt ap msg :
  0 < len ≤ 2 ^ 31 → zlen dst = len → cstr_at comp c → zlen comp ≤ U64MAX →
  Forall varg_ok ap → format_text (Some fmt) ap = Ret msg →
  ∃ dst', (line ← rabbitbone_buf_init (Some dst) len;
    line ← rabbitbone_buf_appendf line (Some (lit "[%s] %s: ")) [VStr (Some (log_level_name level)); VStr (Some comp)];
    line ← rabbitbone_buf_vappendf line (Some fmt) ap;
    line ← rabbitbone_buf_append_raw line (Some [10; 0]);
    wr (default [] (bo_buf line)) (len - 1) 0) = Ret dst' ∧
  zlen dst' = len ∧ ∃ junk, dst' = take (Z.to_nat (len - 1)) (line_text level c msg) ++ 0 :: junk.
Proof.
  intros Hlen Hdst Hc Hcm Ha Hmsg. assert (Hle : len ≤ zlen dst) by lia.
  destruct (buf_init_holds dst len Hlen Hle) as (b0 & -> & H0). mred.
  assert (Hargs : Forall varg_ok [VStr (Some (log_level_name level)); VStr (Some comp)]).
  { constructor; [| by repeat constructor]. simpl. unfold log_level_name.
    repeat case_match; vm_compute; congruence. }
  destruct (buf_appendf_holds dst len Hlen Hle b0 [] _ _ _ H0 Hargs (header_text level comp c Hc))
    as (b1 & -> & H1).
  mred. destruct (buf_appendf_holds dst len Hlen Hle b1 _ fmt ap msg H1) as (b2 & Hb2 & H2); [done.. |].
  unfold rabbitbone_buf_appendf in Hb2. rewrite Hb2. mred.
  destruct (buf_append_raw_holds dst len Hlen Hle b2 _ [10; 0] [10] H2) as (b3 & -> & (_ & _ & junk & Hb3 & Hz)).
  { split; [by repeat constructor | by exists []]. }
  mred. rewrite Hb3. cbn [default from_option id].
  destruct (wr_last _ junk len ltac:(rewrite Hz; done)) as (junk' & -> & Hz'). eexists. split; [done |].
  split; [done |]. exists junk'. do 2 f_equal. unfold line_text. by rewrite <- !app_assoc.
Qed.

(** *** The serial filter always returns *)

Lemma strstr_from_total p s nd n needle i :
  cstr_at p s → cstr_at needle nd → ∃ r, strstr_from p needle n i = Ret r.
Proof.
  intros [Hs [rest ->]] Hn. revert i. induction Hs as [|c s Hc Hs IH]; intros i; [by exists None |].
  cbn [app strstr_from]. destruct (Z.eqb_spec c 0); [done |].
  assert (∃ r, strncmp (Some (c :: s ++ 0 :: rest)) (Some needle) n = Ret r) as [r ->].
  { unfold strncmp. destruct (n =? 0); [eauto |].
    destruct (strncmp_from_prefix (c :: s ++ 0 :: rest) needle (c :: s) nd (Z.to_nat n)) as (r & -> & _); eauto.
    split; [by constructor | by exists rest]. }
  mred. destruct (r =? 0); eauto.
Qed.

Lemma has_marker_total l s (m : string) : cstr_at l s → cstr_at (lit m) (bytes_of m) → ∃ b, has_marker l m = Ret b.
Proof.
  intros Hl Hm. unfold has_marker, strstr. rewrite (strlen_spec _ _ Hm). mred.
  destruct (zlen (bytes_of m) =? 0); mred; [eauto |].
  destruct (strstr_from_total l s _ (zlen (bytes_of m)) _ 0 Hl Hm) as [r ->]. mred. eauto.
Qed.

Lemma has_prefix_total l s (m : string) n :
  cstr_at l s → cstr_at (lit m) (bytes_of m) → 0 < n → ∃ b, has_prefix l m n = Ret b.
Proof.
  intros Hl Hm Hn. unfold has_prefix, strncmp. destruct (Z.eqb_spec n 0); [lia |].
  destruct (strncmp_from_prefix l (lit m) s _ (Z.to_nat n) Hl Hm) as (r & -> & _). mred. eauto.
Qed.

Lemma or_else_total a b : (∃ x, a = Ret x) → (∃ y, b = Ret y) → ∃ z, or_else a b = Ret z.
Proof. intros [x ->] [y ->]. unfold or_else. mred. destruct x; eauto. Qed.

Ltac lit_cstr := split; [repeat (constructor; [discriminate |]); constructor | exists []; reflexivity].

Lemma log_line_should_emit_serial_total st level l s :
  cstr_at l s → ∃ b, log_line_should_emit_serial st level (Some l) = Ret b ∧ (serial_min_level st ≤ level → b = true).
Proof.
  intros Hl. unfold log_line_should_emit_serial, or_else at 1. mred.
  destruct (Z.leb_spec (serial_min_level st) level); [eauto |].
  assert (∃ b, log_formatted_line_should_emit_serial (Some l) = Ret b) as [b ->].
  { unfold log_formatted_line_should_emit_serial, log_line_has_attention_marker.
    repeat apply or_else_total;
      first [eapply has_marker_total; [done | lit_cstr] | eapply has_prefix_total; [done | lit_cstr | lia]]. }
  exists b. split; [done | lia].
Qed.

(** *** The ring after a write *)

Definition lastn {A} (n : Z) (l : list A) : list A := drop (length l - Z.to_nat n) l.

Lemma log_advance st dst :
  log_ok st → zlen dst = ring_line_len st →
  let st' := mk_log (<[Z.to_nat (write_index st) := dst]> (ring st)) (ring_lines st) (ring_line_len st)
    (wrap32 (write_index st + 1) mod ring_lines st)
    (if total_lines st <? ring_lines st then total_lines st + 1 else total_lines st)
    (console_min_level st) (serial_min_level st) (heap_ring_active st) in
  log_ok st' ∧ log_lines st' = lastn (ring_lines st) (log_lines st ++ [dst]).
Proof.
  intros Hok Hdst st'. pose proof (log_lines_zlen st Hok) as Hzl.
  destruct Hok as [Hz Hl Hn He Ht Hw Hp Hh]. unfold st'. rewrite wrap_small by lia.
  rewrite (mod_succ_cases (write_index st)) by lia. split.
  - split; simpl; try done.
    + by rewrite zlen_insert.
    + by apply Forall_insert.
    + destruct (Z.ltb_spec (total_lines st) (ring_lines st)); lia.
    + destruct (Z.eqb_spec (write_index st + 1) (ring_lines st)); lia.
    + destruct (Z.ltb_spec (total_lines st) (ring_lines st)), (Z.eqb_spec (write_index st + 1) (ring_lines st)); lia.
  - unfold lastn. rewrite length_app. cbn [length]. unfold log_lines, log_start in *. cbn [ring total_lines ring_lines write_index].
    destruct (Z.ltb_spec (total_lines st) (ring_lines st)) as [Hlt|Hge].
    + destruct (Z.eqb_spec (total_lines st) (ring_lines st)); [lia |].
      replace (length _ + 1 - Z.to_nat (ring_lines st))%nat with O by (unfold zlen in Hzl; lia). rewrite drop_0.
      rewrite Hp in * by done.
      assert (Hs : (if total_lines st + 1 =? ring_lines st
                    then if total_lines st + 1 =? ring_lines st then 0 else total_lines st + 1 else 0) = 0).
      { by destruct (total_lines st + 1 =? ring_lines st). }
      rewrite Hs. pose proof (circ_push (ring st) 0 (total_lines st) dst ltac:(lia) ltac:(lia)) as Hc.
      rewrite Z.add_0_l, Z.mod_small in Hc by lia. exact Hc.
    + assert (Htl : total_lines st = ring_lines st) by lia. rewrite Htl in *. rewrite Z.eqb_refl in *.
      replace (length _ + 1 - Z.to_nat (ring_lines st))%nat with 1%nat by (unfold zlen in Hzl; lia).
      pose proof (circ_overwrite (ring st) (write_index st) dst ltac:(lia)) as Hc. rewrite Hz in Hc.
      rewrite mod_succ_cases in Hc by lia. rewrite Hc. rewrite drop_app_le; [done |]. unfold zlen in Hzl. lia.
Qed.

Lemma lastn_Forall2 {A B} (R : A → B → Prop) n l k : Forall2 R l k → Forall2 R (lastn n l) (lastn n k).
Proof. intros H. unfold lastn. rewrite (Forall2_length _ _ _ H). by apply Forall2_drop. Qed.

(** The events a write produces. *)
Definition line_events (st : log_state) (level : Z) (line : list Z) (ser : bool) : list log_event :=
  (if console_min_level st <=? level then [ConsoleWrite line] else []) ++
  (if ser then [SerialWrite line] else []).

Lemma log_write_spec st q level comp c fmt ap msg :
  log_holds st q → cstr_at (default (lit "kernel") comp) c → zlen (default (lit "kernel") comp) ≤ U64MAX →
  Forall varg_ok ap → format_text (Some (default (lit "") fmt)) ap = Ret msg → nonul msg →
  let t := take (Z.to_nat (ring_line_len st - 1)) (line_text level c msg) in
  ∃ st' line ser, log_write st level comp fmt ap = Ret (st', line_events st level line ser) ∧
    log_holds st' (lastn (ring_lines st) (q ++ [t])) ∧ cstr_at line t ∧
    (serial_min_level st ≤ level → ser = true) ∧
    ring_lines st' = ring_lines st ∧ ring_line_len st' = ring_line_len st ∧
    heap_ring_active st' = heap_ring_active st.
Proof.
  intros [Hok Hq] Hc Hcm Ha Hmsg Hnn t. pose proof Hok as [Hz Hl Hn He Ht Hw Hp Hh].
  unfold log_write, log_vwrite, ring_line.
  destruct (rd_inbounds (ring st) (write_index st)) as [dst Hdst]; [lia |]. rewrite Hdst. mred.
  apply rd_Ret in Hdst as [_ Hdst]. assert (Hdl : zlen dst = ring_line_len st) by exact (Forall_lookup_1 _ _ _ _ He Hdst).
  destruct (format_line dst (ring_line_len st) level _ c _ ap msg Hn Hdl Hc Hcm Ha Hmsg) as (dst' & Hrun & Hz' & junk & Hd').
  fold t in Hd'. rewrite <- !res_bind_assoc. rewrite <- !res_bind_assoc in Hrun. rewrite Hrun. mred.
  rewrite wr_inbounds by lia. mred.
  assert (Hcs : cstr_at dst' t).
  { split; [| by exists junk]. apply Forall_take. unfold line_text.
    pose proof (log_level_name_cstr level) as [Hlv _].
    repeat (apply Forall_app; split); try done; try (repeat (constructor; [discriminate |]); constructor).
    apply Hc. }
  destruct (log_advance st dst' Hok Hz') as [Hok' Hlines].
  set (st' := mk_log _ _ _ _ _ _ _ _) in *.
  destruct (log_line_should_emit_serial_total st' level dst' t Hcs) as (ser & -> & Hser). mred.
  exists st', dst', ser. split_and!; try done. split; [done |]. rewrite Hlines.
  apply lastn_Forall2. apply Forall2_app; [done |]. by constructor.
Qed.

(** ** Moving to the heap ring *)

(** What [kcalloc] promises: zeroed lines of the heap ring's shape, or NULL. *)
Definition heap_ring_shape (nr : list (list Z)) : Prop :=
  zlen nr = LOG_HEAP_LINES ∧ Forall (λ l, zlen l = LOG_HEAP_LINE_LEN) nr.

Lemma copy_line src t dst :
  cstr_at src t → zlen t < LOG_HEAP_LINE_LEN → zlen dst = LOG_HEAP_LINE_LEN →
  ∃ dst', ('(_, d) ← strlcpy (Some dst) (Some src) LOG_HEAP_LINE_LEN;
           wr (default [] d) (LOG_HEAP_LINE_LEN - 1) 0) = Ret dst' ∧
          zlen dst' = LOG_HEAP_LINE_LEN ∧ cstr_at dst' t.
Proof.
  unfold LOG_HEAP_LINE_LEN. intros Hs Ht Hd. rewrite (strlcpy_spec dst src t) by (done || lia). mred.
  cbn [default from_option id]. unfold bounded_image, blit. rewrite (take_ge t) by (unfold zlen in Ht; lia).
  rewrite take_0. cbn [app]. rewrite <- app_assoc. cbn [app].
  destruct (wr_last t (drop (0 + length (t ++ [0])) dst) 384) as (j & -> & Hz).
  { rewrite zlen_app, zlen_cons. unfold zlen in *. rewrite length_drop, length_app. simpl length. lia. }
  eexists. split; [done |]. split; [done |]. split; [apply Hs | by exists j].
Qed.

Lemma line_shorter st l t : log_ok st → cstr_at l t → l ∈ log_lines st → zlen t < ring_line_len st.
Proof.
  intros [_ _ _ He _ _ _ _] [_ [rest ->]] Hin. unfold log_lines, circ in Hin.
  assert (Hin' : t ++ 0 :: rest ∈ ring st).
  { apply (subseteq_take _ _) in Hin. apply elem_of_app in Hin as [Hin|Hin].
    - by apply (subseteq_drop _ _) in Hin.
    - by apply (subseteq_take _ _) in Hin. }
  rewrite Forall_forall in He. specialize (He _ Hin'). rewrite zlen_app, zlen_cons in He.
  pose proof (zlen_nonneg rest). lia.
Qed.

Lemma log_enable_heap_ring_spec st q nr :
  log_holds st q → heap_ring_active st = false → heap_ring_shape nr →
  ∃ st', log_enable_heap_ring st (Some nr) = Ret st' ∧ log_holds st' q ∧
    ring_lines st' = LOG_HEAP_LINES ∧ ring_line_len st' = LOG_HEAP_LINE_LEN ∧ heap_ring_active st' = true.
Proof.
  intros [Hok Hq] Hact [Hnz Hnl]. pose proof Hok as [Hz Hl Hn He Ht Hw Hp Hh].
  destruct (Hh Hact) as [Hsmall Hlen]. pose proof (log_lines_zlen st Hok) as Hzl.
  pose proof (Forall2_length _ _ _ Hq) as Hlq. unfold log_enable_heap_ring. rewrite Hact.
  destruct (Z.ltb_spec LOG_HEAP_LINES (total_lines st)); [lia |].
  destruct (Z.ltb_spec (total_lines st) (total_lines st)); [lia |]. fold (log_start st).
  set (body := λ i nr, src ← ring_line st (wrap32 (log_start st + i) mod ring_lines st);
             dst ← rd nr i;
             '(_, dst) ← strlcpy (Some dst) (Some src) LOG_HEAP_LINE_LEN;
             dst ← wr (default [] dst) (LOG_HEAP_LINE_LEN - 1) 0;
             wr nr i dst).
  destruct (for_n_inv (λ i nr, heap_ring_shape nr ∧ ∀ k, (Z.of_nat k < i) → ∃ l t, nr !! k = Some l ∧ q !! k = Some t ∧ cstr_at l t)
    body (Z.to_nat (total_lines st)) 0 nr) as (nr' & -> & [Hnz' Hnl'] & Hall).
  - split; [by split | intros; lia].
  - intros i nr1 Hi [[Hz1 Hl1] Hall]. unfold body.
    destruct (ring_line_logical st i Hok) as (src & -> & Hsrc); [lia |]. mred.
    destruct (rd_inbounds nr1 i) as [dst Hdst]; [unfold LOG_HEAP_LINES in *; lia |]. rewrite Hdst. mred.
    apply rd_Ret in Hdst as [_ Hdst].
    destruct (Forall2_lookup_l _ _ _ _ _ Hq Hsrc) as (t & Hqt & Hct).
    destruct (copy_line src t dst Hct) as (dst' & Hrun & Hd' & Hcd).
    { assert (zlen t < ring_line_len st); [| lia]. apply (line_shorter st src t Hok Hct).
      by eapply list_elem_of_lookup_2. }
    { exact (Forall_lookup_1 _ _ _ _ Hl1 Hdst). }
    destruct (strlcpy (Some dst) (Some src) LOG_HEAP_LINE_LEN) as [[z d]|] eqn:E; [| done].
    cbn [mbind res_bind] in Hrun |- *. rewrite Hrun. cbn [mbind res_bind].
    rewrite wr_inbounds by (unfold LOG_HEAP_LINES in *; lia). eexists. split; [done |].
    split; [split; [by rewrite zlen_insert | by apply Forall_insert] |].
    intros k Hk. destruct (decide (k = Z.to_nat i)) as [->|Hne].
    + exists dst', t. rewrite list_lookup_insert_eq; [by split_and! |]. apply lookup_lt_Some in Hdst. done.
    + rewrite list_lookup_insert_ne by done. apply Hall. lia.
  - mred. eexists. split; [done |]. unfold LOG_HEAP_LINES, LOG_HEAP_LINE_LEN in *. split; [| by split_and!].
    destruct (Z.eqb_spec (total_lines st) 4096); [lia |]. split.
    + split; simpl; try done; lia.
    + unfold log_lines, log_start. cbn [ring total_lines ring_lines write_index].
      destruct (Z.eqb_spec (total_lines st) 4096); [lia |]. unfold circ. change (Z.to_nat 0) with O.
      rewrite drop_0, take_0, app_nil_r. apply Forall2_same_length_lookup. split.
      { rewrite length_take. unfold zlen in *. lia. }
      intros k l t Hkl Hkt. apply lookup_take_Some in Hkl as [Hkl Hk].
      destruct (Hall k) as (l' & t' & Hl' & Ht' & Hc'); [lia |]. congruence.
Qed.

(** ** Refinement: the log is the list of the most recent lines *)

Inductive log_op :=
| LWrite (level : Z) (comp fmt : option (list Z)) (ap : list varg)
| LEnableHeap (new_ring : option (list (list Z))).

Definition log_step (st : log_state) (o : log_op) : res log_state :=
  match o with
  | LWrite level comp fmt ap => '(st', _) ← log_write st level comp fmt ap; Ret st'
  | LEnableHeap nr => log_enable_heap_ring st nr
  end.

Fixpoint log_run (st : log_state) (ops : list log_op) : res log_state :=
  match ops with [] => Ret st | o :: ops' => st ← log_step st o; log_run st ops' end.

(** The specification: kept lines, how many are kept, line size, heap in use. *)
Record log_spec := mk_spec { sp_lines : list (list Z); sp_max : Z; sp_len : Z; sp_heap : bool }.

(** A write adds the line, cut to the line size, and forgets the oldest beyond
    the capacity; enabling the heap ring only changes the two sizes. *)
Inductive spec_step : log_spec → log_op → log_spec → Prop :=
| SpWrite s level comp c fmt ap msg :
    cstr_at (default (lit "kernel") comp) c → zlen (default (lit "kernel") comp) ≤ U64MAX →
    Forall varg_ok ap → format_text (Some (default (lit "") fmt)) ap = Ret msg → nonul msg →
    spec_step s (LWrite level comp fmt ap)
      (mk_spec (lastn (sp_max s) (sp_lines s ++ [take (Z.to_nat (sp_len s - 1)) (line_text level c msg)]))
         (sp_max s) (sp_len s) (sp_heap s))
| SpNoMemory s : spec_step s (LEnableHeap None) s
| SpAgain s nr : sp_heap s = true → spec_step s (LEnableHeap (Some nr)) s
| SpHeap s nr : sp_heap s = false → heap_ring_shape nr →
    spec_step s (LEnableHeap (Some nr)) (mk_spec (sp_lines s) LOG_HEAP_LINES LOG_HEAP_LINE_LEN true).

Inductive spec_run : log_spec → list log_op → log_spec → Prop :=
| SpDone s : spec_run s [] s
| SpStep s o s1 ops s2 : spec_step s o s1 → spec_run s1 ops s2 → spec_run s (o :: ops) s2.

(** The refinement relation. *)
Definition log_rel (st : log_state) (s : log_spec) : Prop :=
  log_holds st (sp_lines s) ∧ ring_lines st = sp_max s ∧ ring_line_len st = sp_len s ∧
  heap_ring_active st = sp_heap s.

Lemma log_step_simulates st s o s' :
  log_rel st s → spec_step s o s' → ∃ st', log_step st o = Ret st' ∧ log_rel st' s'.
Proof.
  intros (Hh & Hm & Hl & Ha) Hs. destruct Hs as [s level comp c fmt ap msg Hc Hcm Hv Hf Hn|s|s nr Hact|s nr Hact Hshape]; simpl.
  - destruct (log_write_spec st (sp_lines s) level comp c fmt ap msg) as (st' & line & ser & -> & H1 & _ & _ & H2 & H3 & H4); [done.. |].
    mred. eexists. split; [done |]. rewrite Hm, Hl in *. split_and!; simpl; congruence || done.
  - exists st. split; [| done]. unfold log_enable_heap_ring. by destruct (heap_ring_active st).
  - exists st. split; [| done]. unfold log_enable_heap_ring. by rewrite Ha, Hact.
  - destruct (log_enable_heap_ring_spec st (sp_lines s) nr Hh) as (st' & -> & H1 & H2 & H3 & H4); [congruence | done |].
    eexists. split; [done |]. by split_and!.
Qed.

Lemma log_init_rel con ser :
  log_rel (log_init con ser) (mk_spec [] LOG_EARLY_LINES LOG_EARLY_LINE_LEN false).
Proof.
  split_and!; try done. split; [| constructor].
  split; cbn [log_init ring ring_lines ring_line_len total_lines write_index]; try done.
  apply Forall_replicate. apply zlen_replicate.
Qed.

(** C29: for every sequence of log writes and heap-ring activations from boot, no
    access leaves the rings and dumping the log hands out exactly the most recent
    lines in order (64 of at most 191 bytes, or 4096 of at most 383 once the heap
    ring is active); activating the heap ring loses and changes no line. *)
Theorem log_refines_recent_lines (con ser : Z) (ops : list log_op) (s : log_spec) :
  spec_run (mk_spec [] LOG_EARLY_LINES LOG_EARLY_LINE_LEN false) ops s →
  ∃ st lines, log_run (log_init con ser) ops = Ret st ∧ log_dump_ring st = Ret lines ∧
    Forall2 cstr_at lines (sp_lines s).
Proof.
  intros Hrun. pose proof (log_init_rel con ser) as Hrel. revert Hrel. generalize (log_init con ser).
  induction Hrun as [s|s o s1 ops s2 Hs Hrun IH]; intros st Hrel; simpl.
  - destruct Hrel as ([Hok Hq] & _). exists st, (log_lines st). split_and!; [done | by apply log_dump_ring_spec | done].
  - destruct (log_step_simulates st s o s1 Hrel Hs) as (st1 & -> & Hrel1). mred. by apply IH.
Qed.

(** Two writes, with a failed and a successful activation of the heap ring between. *)
Definition heap_ring : list (list Z) := replicate (Z.to_nat LOG_HEAP_LINES) (replicate (Z.to_nat LOG_HEAP_LINE_LEN) 0).

Lemma heap_ring_fits : heap_ring_shape heap_ring.
Proof. split; [apply zlen_replicate | apply Forall_replicate, zlen_replicate]. Qed.

Lemma log_refines_recent_lines_witness :
  ∃ st lines,
    log_run (log_init LOG_ERROR LOG_WARN)
      [LWrite LOG_INFO (Some (lit "mm")) (Some (lit "up")) []; LEnableHeap None; LEnableHeap (Some heap_ring);
       LWrite LOG_WARN None (Some (lit "ok")) []] = Ret st ∧
    log_dump_ring st = Ret lines ∧
    Forall2 cstr_at lines [line_text LOG_INFO (bytes_of "mm") (bytes_of "up"); line_text LOG_WARN (bytes_of "kernel") (bytes_of "ok")].
Proof.
  apply (log_refines_recent_lines LOG_ERROR LOG_WARN _
    (mk_spec [line_text LOG_INFO (bytes_of "mm") (bytes_of "up"); line_text LOG_WARN (bytes_of "kernel") (bytes_of "ok")] LOG_HEAP_LINES LOG_HEAP_LINE_LEN true)).
  eapply SpStep; [apply (SpWrite _ LOG_INFO (Some (lit "mm")) (bytes_of "mm") (Some (lit "up")) [] (bytes_of "up")) |].
  - lit_cstr.
  - vm_compute. congruence.
  - constructor.
  - reflexivity.
  - repeat (constructor; [discriminate |]). constructor.
  - eapply SpStep; [apply SpNoMemory |]. eapply SpStep; [apply SpHeap; [reflexivity | apply heap_ring_fits] |].
    eapply SpStep; [apply (SpWrite _ LOG_WARN None (bytes_of "kernel") (Some (lit "ok")) [] (bytes_of "ok")) | apply SpDone].
    + lit_cstr.
    + vm_compute. congruence.
    + constructor.
    + reflexivity.
    + repeat (constructor; [discriminate |]). constructor.
Defined.

(** ** The tail of the log *)

Definition total_len (ts : list (list Z)) : Z := foldr (λ t n, zlen t + n) 0 ts.

Lemma total_len_app a b : total_len (a ++ b) = total_len a + total_len b.
Proof. induction a as [|t a IH]; simpl; [done |]. rewrite IH. lia. Qed.

Lemma total_len_nonneg ts : 0 ≤ total_len ts.
Proof. induction ts as [|t ts IH]; simpl; [done |]. pose proof (zlen_nonneg t). lia. Qed.

Lemma line_strnlen st l t :
  log_ok st → cstr_at l t → l ∈ log_lines st → strnlen (Some l) (ring_line_len st) = Ret (zlen t).
Proof.
  intros Hok Hc Hin. pose proof (line_shorter st l t Hok Hc Hin). rewrite (strnlen_spec l t) by (done || destruct Hok; lia).
  f_equal. lia.
Qed.

Lemma drop_last_S {A} (q : list A) (e : nat) t :
  q !! (length q - S e)%nat = Some t → (e < length q)%nat → drop (length q - S e) q = t :: drop (length q - e) q.
Proof. intros Ht He. rewrite (drop_S _ _ _ Ht). do 2 f_equal. lia. Qed.

(** How many of the last lines are emitted: as many as fit in [max] bytes, and at
    least one. *)
Definition tail_choice (q : list (list Z)) (max e : Z) : Prop :=
  0 < e ≤ zlen q ∧
  (e = 1 ∨ total_len (drop (length q - Z.to_nat e) q) ≤ max) ∧
  (e = zlen q ∨ max ≤ total_len (drop (length q - Z.to_nat e) q) ∨
   max < total_len (drop (length q - Z.to_nat (e + 1)) q)).

Lemma tail_scan st q max :
  log_holds st q → 0 < total_lines st → 0 < max →
  ∃ e, (c ← loop_n (Z.to_nat (total_lines st)) 0 (tail_step st max) (0, 0);
        match c with Next (e, _) => Ret e | Done e => Ret e end) = Ret e ∧ tail_choice q max e.
Proof.
  intros [Hok Hq] Hpos Hmax. pose proof (log_lines_zlen st Hok) as Hzl.
  pose proof (Forall2_length _ _ _ Hq) as Hlq. assert (Hzq : zlen q = total_lines st) by (unfold zlen in *; lia).
  destruct (loop_n_inv (λ n '(e, used), e = n ∧ 0 ≤ n ∧ used = total_len (drop (length q - Z.to_nat n) q) ∧ used < max)
    (tail_choice q max) (tail_step st max) (Z.to_nat (total_lines st)) 0 (0, 0)) as [([e used] & -> & -> & H0 & Hu & Hlt)|(e & -> & He)].
  - split_and!; try done. change (Z.to_nat 0) with O. rewrite Nat.sub_0_r, drop_ge by lia. done.
  - intros n [e used] Hn (-> & H0 & -> & Hlt). unfold tail_step. cbn beta iota zeta.
    destruct (ring_line_logical st (total_lines st - 1 - n) Hok) as (l & -> & Hl); [lia |]. mred.
    destruct (Forall2_lookup_l _ _ _ _ _ Hq Hl) as (t & Ht & Hc).
    rewrite (line_strnlen st l t Hok Hc) by (by eapply list_elem_of_lookup_2). mred.
    set (S0 := total_len (drop (length q - Z.to_nat n) q)) in *.
    assert (Hnext : total_len (drop (length q - Z.to_nat (n + 1)) q) = zlen t + S0).
    { replace (Z.to_nat (n + 1)) with (S (Z.to_nat n)) by lia.
      rewrite (drop_last_S q (Z.to_nat n) t); [done | | unfold zlen in *; lia].
      rewrite <- Ht. f_equal. unfold zlen in *. lia. }
    pose proof (zlen_nonneg t). destruct (Z.eqb_spec n 0) as [->|Hn0]; cbn [negb andb].
    + change (Z.to_nat (0 + 1)) with 1%nat in Hnext.
      assert (HS0 : S0 = 0) by (unfold S0; change (Z.to_nat 0) with O; rewrite Nat.sub_0_r, drop_ge by lia; done).
      destruct (Z.ltb_spec max (zlen t)).
      { right. exists 1. split; [done |]. split_and!; try lia. right. left. change (Z.to_nat 1) with 1%nat. lia. }
      destruct (Z.leb_spec max (S0 + zlen t)).
      { right. eexists. split; [done |]. split_and!; try lia. right. left. change (Z.to_nat (0 + 1)) with 1%nat. lia. }
      left. eexists. split; [done |]. cbn beta iota. split_and!; try lia. change (Z.to_nat (0 + 1)) with 1%nat. lia.
    + destruct (Z.ltb_spec (max - S0) (zlen t)).
      { right. exists n. split; [done |]. split_and!; try lia. }
      destruct (Z.leb_spec max (S0 + zlen t)).
      { right. eexists. split; [done |]. split_and!; try lia. }
      left. eexists. split; [done |]. cbn beta iota. split_and!; lia.
  - mred. eexists. split; [done |]. replace (0 + Z.of_nat (Z.to_nat (total_lines st))) with (zlen q) in * by lia.
    split_and!; try lia.
  - eauto.
Qed.

(** a bounded dump of the log emits the most recent lines, in order, as many as
    fit in [max_bytes]: the lines emitted are a suffix of the log whose bytes sum
    to at most [max_bytes] (unless it is the single last line), and one more line
    would not fit; an empty log or a zero budget emits nothing. *)
Theorem log_dump_tail_correct (st : log_state) (q : list (list Z)) (max_bytes : Z) :
  log_holds st q → 0 ≤ max_bytes →
  ∃ e, log_dump_ring_tail_ctx st max_bytes = Ret (drop (length q - Z.to_nat e) (log_lines st)) ∧
    if decide (q = [] ∨ max_bytes = 0) then e = 0 else tail_choice q max_bytes e.
Proof.
  intros [Hok Hq] Hmax. pose proof (log_lines_zlen st Hok) as Hzl.
  pose proof (Forall2_length _ _ _ Hq) as Hlq. assert (Hzq : zlen q = total_lines st) by (unfold zlen in *; lia).
  unfold log_dump_ring_tail_ctx. destruct (decide (q = [] ∨ max_bytes = 0)) as [Hd|Hd].
  - assert (negb (total_lines st =? 0) && negb (max_bytes =? 0) = false) as ->.
    { destruct Hd as [->| ->]; [| by rewrite andb_false_r]. rewrite <- Hzq. done. }
    mred. exists 0. split; [| done]. destruct (Z.leb_spec 0 (total_lines st)); [| destruct Hok; lia].
    rewrite dump_loop_spec by (done || destruct Hok; lia). do 2 f_equal. unfold zlen in *. lia.
  - assert (Hqne : 0 < zlen q) by (destruct q; [exfalso; apply Hd; by left | rewrite zlen_cons; pose proof (zlen_nonneg q); lia]).
    assert (max_bytes ≠ 0) by auto.
    assert (negb (total_lines st =? 0) && negb (max_bytes =? 0) = true) as -> by lia.
    destruct (tail_scan st q max_bytes (conj Hok Hq)) as (e & -> & He); [lia.. |]. mred.
    exists e. split; [| done]. destruct He as [He _]. destruct (Z.leb_spec e (total_lines st)); [| lia].
    rewrite dump_loop_spec by (done || lia). do 2 f_equal. unfold zlen in *. lia.
Qed.

Lemma log_dump_tail_correct_witness :
  ∃ e, log_dump_ring_tail_ctx (log_init LOG_ERROR LOG_WARN) 100 = Ret (drop (0 - Z.to_nat e) []) ∧ e = 0.
Proof.
  destruct (log_dump_tail_correct (log_init LOG_ERROR LOG_WARN) [] 100) as (e & H1 & H2).
  - apply (log_init_rel LOG_ERROR LOG_WARN).
  - lia.
  - exists e. split; [exact H1 | exact H2].
Defined.
