(* ===== verification/Bootinfo.v ===== *)
(** * The boot contract: [kernel/core/bootinfo.c]

    The loader hands the kernel a structure full of physical addresses.  Memory is
    a function from addresses to bytes, readable inside the early identity map
    only: a load outside it is a fault.  The validator must therefore check
    every range before it looks inside. *)

From Stdlib Require Import ZArith Lia String.
From stdpp Require Import prelude list_numbers.
From S2P Require Import Prelude CString Printf.

Local Open Scope Z_scope.

Definition BOOTINFO_E820_MAX : Z := 128.
Definition BOOTINFO_NAME_MAX : Z := 64.
Definition BOOTINFO_MODULE_MAX : Z := 16.
Definition BOOTINFO_IDENTITY_LIMIT : Z := 1024 * 1024 * 1024.
Definition BOOTINFO_POINTER_MIN : Z := 0x1000.
Definition RABBITBONE_BOOT_MAGIC : Z := 0x52424f4e.
Definition RABBITBONE_BOOT_VERSION : Z := 2.
Definition RABBITBONE_BOOT_FLAG_BIOS_LEGACY : Z := 1.
Definition RABBITBONE_BOOT_FLAG_UEFI : Z := 2.
Definition RABBITBONE_BOOT_FLAG_LIVE_RAMDISK : Z := 4.
Definition RABBITBONE_BOOT_CMDLINE_MAX : Z := 256.
Definition BOOTINFO_KNOWN_FLAGS : Z := 7.

(** The packed sizes of the three structures. *)
Definition SIZEOF_BOOTINFO : Z := 120.
Definition SIZEOF_E820 : Z := 24.
Definition SIZEOF_MODULE : Z := 32.

Record rabbitbone_bootinfo_t := mk_bootinfo {
  magic : Z;
  version : Z;
  e820_count : Z;
  module_count : Z;
  flags : Z;
  boot_drive : Z;
  e820_addr : Z;
  kernel_lba : Z;
  kernel_sectors : Z;
  modules_addr : Z;
  root_lba : Z;
  root_sectors : Z;
  cmdline_addr : Z;
  cmdline_size : Z;
  reserved1_0 : Z;
  reserved1_1 : Z;
  reserved1_2 : Z;
  reserved1_3 : Z;
}.

Record rabbitbone_e820_entry_t := mk_e820 { e_base : Z; e_length : Z; e_type : Z; e_acpi : Z }.
Record rabbitbone_boot_module_t := mk_module { m_base : Z; m_size : Z; m_name_addr : Z }.

(** ** Physical memory *)

Definition memory := Z → Z.

Definition ld8 (m : memory) (a : Z) : res Z :=
  if (0 <? a) && (a <? BOOTINFO_IDENTITY_LIMIT) then Ret (m a) else Fault OutOfBounds.

(** [n] bytes at [a], little-endian. *)
Fixpoint ld (n : nat) (m : memory) (a : Z) : res Z :=
  match n with
  | O => Ret 0
  | S k => b ← ld8 m a; r ← ld k m (a + 1); Ret (b + 256 * r)
  end.

(** The structure at [p]; [le_bytes] reads without a check, and callers use the fields only
    once the pointer is known to be inside the map. *)
Fixpoint le_bytes (n : nat) (m : memory) (a : Z) : Z :=
  match n with O => 0 | S k => m a + 256 * le_bytes k m (a + 1) end.

Definition bootinfo_at (m : memory) (p : Z) : rabbitbone_bootinfo_t :=
  mk_bootinfo (le_bytes 4 m p) (le_bytes 4 m (p + 4)) (le_bytes 2 m (p + 8)) (le_bytes 2 m (p + 10)) (le_bytes 4 m (p + 12))
    (le_bytes 8 m (p + 16)) (le_bytes 8 m (p + 24)) (le_bytes 8 m (p + 32)) (le_bytes 8 m (p + 40)) (le_bytes 8 m (p + 48))
    (le_bytes 8 m (p + 56)) (le_bytes 8 m (p + 64)) (le_bytes 8 m (p + 72)) (le_bytes 4 m (p + 80))
    (le_bytes 8 m (p + 88)) (le_bytes 8 m (p + 96)) (le_bytes 8 m (p + 104)) (le_bytes 8 m (p + 112)).

Definition ld_e820 (m : memory) (table i : Z) : res rabbitbone_e820_entry_t :=
  let p := table + i * SIZEOF_E820 in
  b ← ld 8 m p; l ← ld 8 m (p + 8); t ← ld 4 m (p + 16); x ← ld 4 m (p + 20); Ret (mk_e820 b l t x).

Definition ld_module (m : memory) (table i : Z) : res rabbitbone_boot_module_t :=
  let p := table + i * SIZEOF_MODULE in
  b ← ld 8 m p; s ← ld 8 m (p + 8); n ← ld 8 m (p + 16); Ret (mk_module b s n).

(** ** Checks *)

Definition bootinfo_ptr_ok (p : Z) : bool :=
  (BOOTINFO_POINTER_MIN <=? p) && (p <=? BOOTINFO_IDENTITY_LIMIT - SIZEOF_BOOTINFO).

Definition range_ok (base bytes : Z) : bool :=
  if bytes =? 0 then true else
  match add_u64 base bytes with
  | None => false
  | Some e => negb ((base =? 0) || (BOOTINFO_IDENTITY_LIMIT <? e))
  end.

Definition bounded_cstr_ok (m : memory) (addr max_len : Z) : res bool :=
  if (addr =? 0) || (max_len =? 0) || negb (range_ok addr max_len) then Ret false else
  c ← loop_n (Z.to_nat max_len) 0 (λ i (_ : unit),
        b ← ld8 m (addr + i); if b =? 0 then Ret (Done true) else Ret (Next tt)) tt;
  match c with Done r => Ret r | Next _ => Ret false end.

Definition bounded_cstr_len (s : option (list Z)) (max_len : Z) : res Z := strnlen s max_len.

Definition bootinfo_flags_ok (flags : Z) : bool :=
  if negb (Z.land flags (lnot_w 32 BOOTINFO_KNOWN_FLAGS) =? 0) then false else
  if Z.land flags (Z.lor RABBITBONE_BOOT_FLAG_BIOS_LEGACY RABBITBONE_BOOT_FLAG_UEFI) =? 0 then false else
  if negb (Z.land flags RABBITBONE_BOOT_FLAG_BIOS_LEGACY =? 0) && negb (Z.land flags RABBITBONE_BOOT_FLAG_UEFI =? 0)
  then false else true.

(** A [bootinfo] pointer: its address, and the structure there; [None] is NULL. *)
Definition info_ptr := option (Z * rabbitbone_bootinfo_t).

Definition bootinfo_basic_usable (info : info_ptr) : bool :=
  match info with
  | None => false
  | Some (p, i) =>
      if negb (bootinfo_ptr_ok p) then false else
      if negb (magic i =? RABBITBONE_BOOT_MAGIC) || negb (version i =? RABBITBONE_BOOT_VERSION) then false else
      if negb (bootinfo_flags_ok (flags i)) then false else
      if (BOOTINFO_E820_MAX <? e820_count i) || (BOOTINFO_MODULE_MAX <? module_count i) then false else
      if RABBITBONE_BOOT_CMDLINE_MAX <? cmdline_size i then false else true
  end.

(** A block of the validator: a reason to refuse, or none. *)
Definition check := res (option string).

Definition check_e820 (m : memory) (i : rabbitbone_bootinfo_t) : check :=
  if e820_count i =? 0 then Ret None else
  match mul_u64 (e820_count i) SIZEOF_E820 with
  | None => Ret (Some "e820 table size overflow"%string)
  | Some bytes =>
      if negb (range_ok (e820_addr i) bytes) then Ret (Some "e820 table outside early identity map"%string) else
      c ← loop_n (Z.to_nat (e820_count i)) 0 (λ k (_ : unit),
            e ← ld_e820 m (e820_addr i) k;
            if negb (e_length e =? 0) && (if add_u64 (e_base e) (e_length e) is None then true else false)
            then Ret (Done "e820 range overflow"%string) else Ret (Next tt)) tt;
      match c with Done r => Ret (Some r) | Next _ => Ret None end
  end.

Definition check_modules (m : memory) (i : rabbitbone_bootinfo_t) : check :=
  if module_count i =? 0 then Ret None else
  match mul_u64 (module_count i) SIZEOF_MODULE with
  | None => Ret (Some "module table size overflow"%string)
  | Some bytes =>
      if negb (range_ok (modules_addr i) bytes) then Ret (Some "module table outside early identity map"%string) else
      c ← loop_n (Z.to_nat (module_count i)) 0 (λ k (_ : unit),
            md ← ld_module m (modules_addr i) k;
            if negb (m_size md =? 0) && negb (range_ok (m_base md) (m_size md))
            then Ret (Done "module payload outside early identity map"%string) else
            if m_name_addr md =? 0 then Ret (Next tt) else
            ok ← bounded_cstr_ok m (m_name_addr md) BOOTINFO_NAME_MAX;
            if negb ok then Ret (Done "module name is not a bounded string"%string) else Ret (Next tt)) tt;
      match c with Done r => Ret (Some r) | Next _ => Ret None end
  end.

Definition check_cmdline (m : memory) (i : rabbitbone_bootinfo_t) : check :=
  if RABBITBONE_BOOT_CMDLINE_MAX <? cmdline_size i then Ret (Some "cmdline too large"%string) else
  if cmdline_size i =? 0 then Ret None else
  if negb (range_ok (cmdline_addr i) (cmdline_size i)) then Ret (Some "cmdline outside early identity map"%string) else
  b ← ld8 m (cmdline_addr i + (cmdline_size i - 1));
  if negb (b =? 0) then Ret (Some "cmdline is not NUL-terminated"%string) else Ret None.

Definition bootinfo_validate_reason (m : memory) (info : info_ptr) : res string :=
  match info with
  | None => Ret "null bootinfo pointer"%string
  | Some (p, i) =>
      if negb (bootinfo_ptr_ok p) then Ret "bootinfo pointer outside early identity map"%string else
      if negb (magic i =? RABBITBONE_BOOT_MAGIC) then Ret "bad bootinfo magic"%string else
      if negb (version i =? RABBITBONE_BOOT_VERSION) then Ret "unsupported bootinfo version"%string else
      if negb (Z.land (flags i) (lnot_w 32 BOOTINFO_KNOWN_FLAGS) =? 0) then Ret "unknown boot flags"%string else
      if Z.land (flags i) (Z.lor RABBITBONE_BOOT_FLAG_BIOS_LEGACY RABBITBONE_BOOT_FLAG_UEFI) =? 0
      then Ret "missing boot source flag"%string else
      if negb (Z.land (flags i) RABBITBONE_BOOT_FLAG_BIOS_LEGACY =? 0) && negb (Z.land (flags i) RABBITBONE_BOOT_FLAG_UEFI =? 0)
      then Ret "conflicting boot source flags"%string else
      if negb (Z.land (flags i) RABBITBONE_BOOT_FLAG_LIVE_RAMDISK =? 0) && (module_count i =? 0)
      then Ret "live ramdisk flag without module"%string else
      if BOOTINFO_E820_MAX <? e820_count i then Ret "too many e820 entries"%string else
      if BOOTINFO_MODULE_MAX <? module_count i then Ret "too many boot modules"%string else
      r1 ← check_e820 m i;
      match r1 with Some r => Ret r | None =>
      r2 ← check_modules m i;
      match r2 with Some r => Ret r | None =>
      r3 ← check_cmdline m i;
      match r3 with Some r => Ret r | None => Ret "ok"%string end end end
  end.

Definition bootinfo_validate (m : memory) (info : info_ptr) : res bool :=
  r ← bootinfo_validate_reason m info;
  c ← rd (lit r) 0;
  Ret (c =? 111).

(** The remembered pointer after the call. *)
Definition bootinfo_remember (m : memory) (g info : info_ptr) : res info_ptr :=
  ok ← bootinfo_validate m info; Ret (if ok : bool then info else g).

Definition bootinfo_acpi_rsdp (g : info_ptr) : Z :=
  match g with
  | Some (_, i) => if bootinfo_basic_usable g then reserved1_3 i else 0
  | None => 0
  end.

(** The address of the entry, [None] for NULL. *)
Definition bootinfo_e820 (m : memory) (info : info_ptr) (index : Z) : res (option Z) :=
  ok ← bootinfo_validate m info;
  match info with
  | Some (_, i) => if negb ok || (e820_count i <=? index) then Ret None
                   else Ret (Some (e820_addr i + index * SIZEOF_E820))
  | None => Ret None
  end.

(** The address of the command line, [None] for the empty literal. *)
Definition bootinfo_cmdline (m : memory) (info : info_ptr) : res (option Z) :=
  ok ← bootinfo_validate m info;
  match info with
  | Some (_, i) => if negb ok || (cmdline_size i =? 0) then Ret None else Ret (Some (cmdline_addr i))
  | None => Ret None
  end.

(** ** Soundness of the validator *)

Definition bytes_mem (m : memory) : Prop := ∀ a, is_u8 (m a).

Lemma range_ok_spec base bytes :
  0 ≤ base → 0 ≤ bytes →
  range_ok base bytes = true ↔ bytes = 0 ∨ (0 < base ∧ base + bytes ≤ BOOTINFO_IDENTITY_LIMIT).
Proof.
  intros Hb Hn. unfold range_ok, add_u64, BOOTINFO_IDENTITY_LIMIT, U64MAX.
  destruct (Z.eqb_spec bytes 0); [split; [by left | done] |].
  destruct (Z.leb_spec (base + bytes) 18446744073709551615); split; intros; try done; lia.
Qed.

Lemma ld8_ok m a : 0 < a < BOOTINFO_IDENTITY_LIMIT → ld8 m a = Ret (m a).
Proof. intros Ha. unfold ld8. by assert ((0 <? a) && (a <? BOOTINFO_IDENTITY_LIMIT) = true) as -> by lia. Qed.

Lemma ld_ok n m a :
  bytes_mem m → 0 < a → a + Z.of_nat n ≤ BOOTINFO_IDENTITY_LIMIT → ∃ v, ld n m a = Ret v ∧ 0 ≤ v < 256 ^ Z.of_nat n.
Proof.
  intros Hm. revert a. induction n as [|n IH]; intros a Ha Hn; [by exists 0 |]. cbn [ld].
  rewrite ld8_ok by lia. mred. destruct (IH (a + 1)) as (v & -> & Hv); [lia.. |]. mred.
  eexists. split; [done |]. pose proof (Hm a) as Hb. unfold is_u8 in Hb.
  replace (Z.of_nat (S n)) with (1 + Z.of_nat n) by lia. rewrite Z.pow_add_r by lia. change (256 ^ 1) with 256. lia.
Qed.

Lemma ld_e820_ok m table i n :
  bytes_mem m → 0 ≤ i < n → 0 < table → table + n * SIZEOF_E820 ≤ BOOTINFO_IDENTITY_LIMIT →
  ∃ e, ld_e820 m table i = Ret e ∧ is_u64 (e_base e) ∧ is_u64 (e_length e).
Proof.
  intros Hm Hi Ht Hn. unfold ld_e820, SIZEOF_E820 in *.
  destruct (ld_ok 8 m (table + i * 24) Hm) as (b & -> & Hb); [lia.. |]. mred.
  destruct (ld_ok 8 m (table + i * 24 + 8) Hm) as (l & -> & Hl); [lia.. |]. mred.
  destruct (ld_ok 4 m (table + i * 24 + 16) Hm) as (t & -> & _); [lia.. |]. mred.
  destruct (ld_ok 4 m (table + i * 24 + 20) Hm) as (x & -> & _); [lia.. |]. mred.
  eexists. split; [done |]. change (256 ^ Z.of_nat 8) with (2 ^ 64) in *. done.
Qed.

Lemma ld_module_ok m table i n :
  bytes_mem m → 0 ≤ i < n → 0 < table → table + n * SIZEOF_MODULE ≤ BOOTINFO_IDENTITY_LIMIT →
  ∃ md, ld_module m table i = Ret md ∧ is_u64 (m_base md) ∧ is_u64 (m_size md) ∧ is_u64 (m_name_addr md).
Proof.
  intros Hm Hi Ht Hn. unfold ld_module, SIZEOF_MODULE in *.
  destruct (ld_ok 8 m (table + i * 32) Hm) as (b & -> & Hb); [lia.. |]. mred.
  destruct (ld_ok 8 m (table + i * 32 + 8) Hm) as (s & -> & Hs); [lia.. |]. mred.
  destruct (ld_ok 8 m (table + i * 32 + 16) Hm) as (nm & -> & Hnm); [lia.. |]. mred.
  eexists. split; [done |]. change (256 ^ Z.of_nat 8) with (2 ^ 64) in *. done.
Qed.

(** A string of fewer than [n] bytes at [a], inside the identity map. *)
Definition cstr_in_map (m : memory) (a n : Z) : Prop :=
  0 < a ∧ a + n ≤ BOOTINFO_IDENTITY_LIMIT ∧ ∃ k, 0 ≤ k < n ∧ m (a + k) = 0.

Lemma bounded_cstr_ok_spec m a n :
  0 ≤ a → 0 ≤ n → ∃ b, bounded_cstr_ok m a n = Ret b ∧ (b = true → cstr_in_map m a n).
Proof.
  intros Ha Hn. unfold bounded_cstr_ok. destruct ((a =? 0) || (n =? 0) || negb (range_ok a n)) eqn:E.
  { exists false. by split. }
  assert (Hr : range_ok a n = true) by (destruct (range_ok a n); [done | lia]).
  apply range_ok_spec in Hr as [?|[Hpos Hlim]]; [lia | | done | done].
  destruct (loop_n_inv (λ (_ : Z) (_ : unit), True) (λ b, b = true ∧ cstr_in_map m a n)
    (λ i (_ : unit), b ← ld8 m (a + i); if b =? 0 then Ret (Done true) else Ret (Next tt)) (Z.to_nat n) 0 tt)
    as [([] & -> & _) | (b & -> & -> & Hb)]; [done | | |].
  - intros j [] Hj _. rewrite ld8_ok by lia. mred. destruct (Z.eqb_spec (m (a + j)) 0) as [E0|E0].
    + right. eexists. split; [done |]. split; [done |]. split_and!; [done.. |]. exists j. split; [lia | done].
    + left. by exists tt.
  - mred. by exists false.
  - mred. by exists true.
Qed.

(** What the kernel may rely on after validation. *)
Record boot_tables_ok (m : memory) (i : rabbitbone_bootinfo_t) : Prop := {
  bt_e820 : ∀ k, 0 <= k < e820_count i → ∃ e, ld_e820 m (e820_addr i) k = Ret e ∧
    (e_length e ≠ 0 → e_base e + e_length e <= U64MAX);
  bt_modules : ∀ k, 0 <= k < module_count i → ∃ md, ld_module m (modules_addr i) k = Ret md ∧
    (m_size md ≠ 0 → 0 < m_base md ∧ m_base md + m_size md <= BOOTINFO_IDENTITY_LIMIT) ∧
    (m_name_addr md ≠ 0 → cstr_in_map m (m_name_addr md) BOOTINFO_NAME_MAX);
  bt_cmdline : cmdline_size i ≠ 0 → cstr_in_map m (cmdline_addr i) (cmdline_size i);
}.

Definition bootinfo_typed (i : rabbitbone_bootinfo_t) : Prop :=
  0 ≤ e820_count i ≤ U16MAX ∧ 0 ≤ module_count i ≤ U16MAX ∧ is_u64 (e820_addr i) ∧
  is_u64 (modules_addr i) ∧ is_u64 (cmdline_addr i) ∧ is_u32 (cmdline_size i).

(** A check that returns; [None] only when [P] holds, and never the word ok. *)
Definition check_sound (c : check) (P : Prop) : Prop :=
  ∃ r, c = Ret r ∧ match r with Some s => hd 0 (lit s) ≠ 111 | None => P end.

Lemma check_e820_sound m i :
  bytes_mem m → bootinfo_typed i →
  check_sound (check_e820 m i) (∀ k, 0 ≤ k < e820_count i → ∃ e, ld_e820 m (e820_addr i) k = Ret e ∧
    (e_length e ≠ 0 → e_base e + e_length e ≤ U64MAX)).
Proof.
  intros Hm (Hc & _ & Ha & _). unfold check_e820, check_sound.
  destruct (Z.eqb_spec (e820_count i) 0); [exists None; split; [done |]; intros; lia |].
  assert (mul_u64 (e820_count i) SIZEOF_E820 = Some (e820_count i * SIZEOF_E820)) as ->.
  { apply mul_u64_Some. unfold SIZEOF_E820. ulia. }
  destruct (range_ok (e820_addr i) (e820_count i * SIZEOF_E820)) eqn:E; cbn [negb]; [| by eexists].
  apply range_ok_spec in E; [| ulia | unfold SIZEOF_E820; lia]. unfold SIZEOF_E820 in E. destruct E as [?|[Hp Hl]]; [lia |].
  set (good := λ k, ∃ e, ld_e820 m (e820_addr i) k = Ret e ∧ (e_length e ≠ 0 → e_base e + e_length e ≤ U64MAX)).
  edestruct (loop_n_inv (λ k (_ : unit), ∀ j, 0 ≤ j < k → good j) (λ s, s = "e820 range overflow"%string))
    as [([] & -> & H) | (s & -> & ->)].
  - intros; lia.
  - intros j [] Hj Hall. destruct (ld_e820_ok m (e820_addr i) j (e820_count i) Hm) as (e & He & Hb & Hlen); [lia | lia | unfold SIZEOF_E820; lia |].
    rewrite He. mred. destruct (negb (e_length e =? 0) && _) eqn:E1; [right; by eexists |].
    left. exists tt. split; [done |]. intros k Hk. destruct (decide (k = j)) as [->|]; [| apply Hall; lia].
    exists e. split; [done |]. intros Hne. destruct (add_u64 (e_base e) (e_length e)) eqn:E2.
    + by apply add_u64_Some in E2 as [? _].
    + lia.
  - mred. exists None. split; [done |]. intros k Hk. apply H. lia.
  - mred. by eexists.
Qed.

Lemma check_modules_sound m i :
  bytes_mem m → bootinfo_typed i →
  check_sound (check_modules m i) (∀ k, 0 ≤ k < module_count i → ∃ md, ld_module m (modules_addr i) k = Ret md ∧
    (m_size md ≠ 0 → 0 < m_base md ∧ m_base md + m_size md ≤ BOOTINFO_IDENTITY_LIMIT) ∧
    (m_name_addr md ≠ 0 → cstr_in_map m (m_name_addr md) BOOTINFO_NAME_MAX)).
Proof.
  intros Hm (_ & Hc & _ & Ha & _). unfold check_modules, check_sound.
  destruct (Z.eqb_spec (module_count i) 0); [exists None; split; [done |]; intros; lia |].
  assert (mul_u64 (module_count i) SIZEOF_MODULE = Some (module_count i * SIZEOF_MODULE)) as ->.
  { apply mul_u64_Some. unfold SIZEOF_MODULE. ulia. }
  destruct (range_ok (modules_addr i) (module_count i * SIZEOF_MODULE)) eqn:E; cbn [negb]; [| by eexists].
  apply range_ok_spec in E; [| ulia | unfold SIZEOF_MODULE; lia]. unfold SIZEOF_MODULE in E. destruct E as [?|[Hp Hl]]; [lia |].
  set (good := λ k, ∃ md, ld_module m (modules_addr i) k = Ret md ∧
    (m_size md ≠ 0 → 0 < m_base md ∧ m_base md + m_size md ≤ BOOTINFO_IDENTITY_LIMIT) ∧
    (m_name_addr md ≠ 0 → cstr_in_map m (m_name_addr md) BOOTINFO_NAME_MAX)).
  edestruct (loop_n_inv (λ k (_ : unit), ∀ j, 0 ≤ j < k → good j) (λ s, hd 0 (lit s) ≠ 111))
    as [([] & -> & H) | (s & -> & Hs)].
  - intros; lia.
  - intros j [] Hj Hall.
    destruct (ld_module_ok m (modules_addr i) j (module_count i) Hm) as (md & He & Hb & Hlen & Hnm); [lia | lia | unfold SIZEOF_MODULE; lia |].
    rewrite He. mred. destruct (negb (m_size md =? 0) && _) eqn:E1; [right; by eexists |].
    assert (Hpay : m_size md ≠ 0 → 0 < m_base md ∧ m_base md + m_size md ≤ BOOTINFO_IDENTITY_LIMIT).
    { intros Hne. destruct (range_ok (m_base md) (m_size md)) eqn:E2; [| lia].
      apply range_ok_spec in E2 as [?|?]; [lia | done | ulia | ulia]. }
    assert (Hstep : ∀ P : Prop, (m_name_addr md ≠ 0 → cstr_in_map m (m_name_addr md) BOOTINFO_NAME_MAX) →
      ∀ k, 0 ≤ k < j + 1 → good k).
    { intros _ Hname k Hk. destruct (decide (k = j)) as [->|]; [| apply Hall; lia]. by exists md. }
    destruct (Z.eqb_spec (m_name_addr md) 0).
    + left. exists tt. split; [done |]. apply (Hstep True). lia.
    + destruct (bounded_cstr_ok_spec m (m_name_addr md) BOOTINFO_NAME_MAX) as (b & -> & Hbt); [ulia | done |]. mred.
      destruct b; cbn [negb]; [| right; by eexists]. left. exists tt. split; [done |]. apply (Hstep True). auto.
  - mred. exists None. split; [done |]. intros k Hk. apply H. lia.
  - mred. by eexists.
Qed.

Lemma check_cmdline_sound m i :
  bootinfo_typed i →
  check_sound (check_cmdline m i) (cmdline_size i ≠ 0 → cstr_in_map m (cmdline_addr i) (cmdline_size i)).
Proof.
  intros (_ & _ & _ & _ & Ha & Hs). unfold check_cmdline, check_sound.
  destruct (RABBITBONE_BOOT_CMDLINE_MAX <? cmdline_size i); [by eexists |].
  destruct (Z.eqb_spec (cmdline_size i) 0); [by exists None |].
  destruct (range_ok (cmdline_addr i) (cmdline_size i)) eqn:E; cbn [negb]; [| by eexists].
  apply range_ok_spec in E as [?|[Hp Hl]]; [lia | | ulia | ulia].
  rewrite ld8_ok by ulia. mred. destruct (Z.eqb_spec (m (cmdline_addr i + (cmdline_size i - 1))) 0); cbn [negb]; [| by eexists].
  exists None. split; [done |]. intros _. split_and!; [done.. |]. exists (cmdline_size i - 1). split; [ulia | done].
Qed.

(** C30: validating the boot structure never touches memory outside the early
    identity map, whatever the loader wrote into it; and if it reports success,
    every table entry, module payload, module name and the command line lies
    inside that map, no memory range wraps around, and the strings are
    terminated inside their bounds. *)
Theorem bootinfo_validate_sound (m : memory) (info : info_ptr) :
  bytes_mem m → (∀ p i, info = Some (p, i) → bootinfo_typed i) →
  ∃ b, bootinfo_validate m info = Ret b ∧
    (b = true → ∃ p i, info = Some (p, i) ∧ bootinfo_ptr_ok p = true ∧ boot_tables_ok m i).
Proof.
  intros Hm Ht. unfold bootinfo_validate, bootinfo_validate_reason.
  assert (Hbad : ∀ s P, hd 0 (lit s) ≠ 111 → ∃ b, (c ← rd (lit s) 0; Ret (c =? 111)) = Ret b ∧ (b = true → P)).
  { intros s P Hs. unfold lit in *. destruct (bytes_of s ++ [0]) as [|x l] eqn:E; [by destruct (bytes_of s) |].
    rewrite rd_cons_0. mred. simpl in Hs. exists (x =? 111). split; [done |]. intros H. by apply Z.eqb_eq in H. }
  destruct info as [[p i]|]; [| by apply Hbad]. specialize (Ht p i eq_refl).
  destruct (bootinfo_ptr_ok p) eqn:Hp; cbn [negb]; [| by apply Hbad].
  repeat (match goal with |- context [if ?c then Ret (String _ _) else _] => destruct c; [by apply Hbad |] end).
  destruct (check_e820_sound m i Hm Ht) as ([s|] & -> & H1); mred; [by apply Hbad |].
  destruct (check_modules_sound m i Hm Ht) as ([s|] & -> & H2); mred; [by apply Hbad |].
  destruct (check_cmdline_sound m i Ht) as ([s|] & -> & H3); mred; [by apply Hbad |].
  exists true. split; [done |]. intros _. exists p, i. by split_and!.
Qed.

Definition sample_bootinfo : rabbitbone_bootinfo_t :=
  mk_bootinfo RABBITBONE_BOOT_MAGIC RABBITBONE_BOOT_VERSION 3 2 RABBITBONE_BOOT_FLAG_UEFI 0 0x2000 0 0 0x4000 0 0 0x5000 16 0 0 0 0.

Lemma bootinfo_validate_sound_witness :
  bootinfo_validate (λ _, 0) (Some (0x1000, sample_bootinfo)) = Ret true ∧ boot_tables_ok (λ _, 0) sample_bootinfo.
Proof.
  assert (Hrun : bootinfo_validate (λ _, 0) (Some (0x1000, sample_bootinfo)) = Ret true) by (vm_compute; reflexivity).
  split; [exact Hrun |].
  destruct (bootinfo_validate_sound (λ _, 0) (Some (0x1000, sample_bootinfo))) as (b & Hb & H).
  - intros a. split; [apply Z.le_refl | reflexivity].
  - intros p i E. injection E as <- <-. unfold bootinfo_typed, sample_bootinfo; cbn. ulia.
  - rewrite Hrun in Hb. injection Hb as <-. destruct (H eq_refl) as (p & i & E & _ & Hok).
    injection E as <- <-. exact Hok.
Defined.

(** ** What the validator reads

    Two memories that agree on the structure, the tables, the names and the command line
    are validated alike. *)

Lemma loop_n_ext {S R} n i (f g : Z → S → res (ctl S R)) s : (∀ j r, i ≤ j < i + Z.of_nat n → f j r = g j r) → loop_n n i f s = loop_n n i g s.
Proof.
  revert i s. induction n as [|n IH]; intros i s H; cbn [loop_n]; [done |]. rewrite H by lia. apply res_bind_ext. intros [r|r]; [| done]. apply IH. intros j q Hj. apply H. lia.
Qed.

Lemma le_bytes_range n m a : bytes_mem m → 0 ≤ le_bytes n m a < 256 ^ Z.of_nat n.
Proof.
  intros Hm. revert a. induction n as [|n IH]; intros a; cbn [le_bytes]; [done |]. specialize (IH (a + 1)). pose proof (Hm a) as Ha. unfold is_u8 in Ha. rewrite Nat2Z.inj_succ, Z.pow_succ_r by lia. lia.
Qed.

Section reading.

Context (m m' : memory) (keep : Z → Prop) (same : ∀ a, keep a → m' a = m a).

Definition kept (a n : Z) : Prop := ∀ x, a ≤ x < a + n → keep x.

Lemma kept_sub a n b k : kept a n → a ≤ b → b + k ≤ a + n → kept b k.
Proof. intros H Hb Hk x Hx. apply H. lia. Qed.

Lemma le_bytes_kept n a : kept a (Z.of_nat n) → le_bytes n m' a = le_bytes n m a.
Proof. revert a. induction n as [|n IH]; intros a H; cbn [le_bytes]; [done |]. rewrite same by (apply H; lia). rewrite IH; [done |]. eapply kept_sub; [exact H | lia | lia]. Qed.

Lemma ld_kept n a : kept a (Z.of_nat n) → ld n m' a = ld n m a.
Proof.
  revert a. induction n as [|n IH]; intros a H; cbn [ld]; [done |]. unfold ld8. rewrite same by (apply H; lia). apply res_bind_ext. intros b. rewrite IH; [done |]. eapply kept_sub; [exact H | lia | lia].
Qed.

Lemma bootinfo_at_kept p : kept p SIZEOF_BOOTINFO → bootinfo_at m' p = bootinfo_at m p.
Proof. intros H. unfold bootinfo_at. by rewrite !le_bytes_kept by (eapply kept_sub; [exact H | lia | unfold SIZEOF_BOOTINFO; lia]). Qed.

Lemma ld_e820_kept table k n : 0 ≤ k < n → kept table (n * SIZEOF_E820) → ld_e820 m' table k = ld_e820 m table k.
Proof. intros Hk H. unfold ld_e820, SIZEOF_E820 in *. by rewrite !ld_kept by (eapply kept_sub; [exact H | lia | lia]). Qed.

Lemma ld_module_kept table k n : 0 ≤ k < n → kept table (n * SIZEOF_MODULE) → ld_module m' table k = ld_module m table k.
Proof. intros Hk H. unfold ld_module, SIZEOF_MODULE in *. by rewrite !ld_kept by (eapply kept_sub; [exact H | lia | lia]). Qed.

Lemma bounded_cstr_kept a n : kept a n → bounded_cstr_ok m' a n = bounded_cstr_ok m a n.
Proof.
  intros H. unfold bounded_cstr_ok. case_match; [done |]. f_equal. apply loop_n_ext. intros j [] Hj. unfold ld8. by rewrite same by (apply H; lia).
Qed.

(** Where the tables of a boot structure lie. *)
Record tables_kept (p : Z) (i : rabbitbone_bootinfo_t) : Prop := {
  tk_info : kept p SIZEOF_BOOTINFO;
  tk_e820 : kept (e820_addr i) (e820_count i * SIZEOF_E820);
  tk_modules : kept (modules_addr i) (module_count i * SIZEOF_MODULE);
  tk_names : ∀ k md, 0 ≤ k < module_count i → ld_module m (modules_addr i) k = Ret md → m_name_addr md ≠ 0 → kept (m_name_addr md) BOOTINFO_NAME_MAX;
  tk_cmdline : kept (cmdline_addr i) (cmdline_size i);
}.

Lemma validate_kept p i : bootinfo_typed i → tables_kept p i → bootinfo_validate m' (Some (p, i)) = bootinfo_validate m (Some (p, i)).
Proof.
  intros (He & Hmo & _ & _ & _ & Hs) K.
  assert (E1 : check_e820 m' i = check_e820 m i).
  { unfold check_e820. case_match; [done |]. case_match; [| done]. case_match; [done |]. f_equal. apply loop_n_ext. intros j [] Hj. by rewrite (ld_e820_kept _ _ (e820_count i)) by (apply K || lia). }
  assert (E2 : check_modules m' i = check_modules m i).
  { unfold check_modules. case_match; [done |]. case_match; [| done]. case_match; [done |]. f_equal. apply loop_n_ext. intros j [] Hj. rewrite (ld_module_kept _ _ (module_count i)) by (apply K || lia).
    destruct (ld_module m (modules_addr i) j) as [md|] eqn:Emd; [| done]. mred. case_match; [done |]. destruct (Z.eqb_spec (m_name_addr md) 0); [done |]. rewrite bounded_cstr_kept; [done |]. eapply (tk_names p i K j); [lia | done | done]. }
  assert (E3 : check_cmdline m' i = check_cmdline m i).
  { unfold check_cmdline. case_match; [done |]. destruct (Z.eqb_spec (cmdline_size i) 0); [done |]. case_match; [done |]. unfold ld8. rewrite same; [done |]. apply (tk_cmdline p i K). ulia. }
  unfold bootinfo_validate, bootinfo_validate_reason. by rewrite E1, E2, E3.
Qed.

End reading.
