(* ===== verification/Block.v ===== *)
(** * Block devices: [kernel/drivers/block.c], [mbr.c] and [bootramdisk.c]

    The block layer checks every transfer against the device before it reaches
    the driver; the boot ramdisk is a driver over a memory object; the MBR code
    parses the partition table found in the first sector. *)

From Stdlib Require Import ZArith Lia String.
From stdpp Require Import prelude list_numbers.
From S2P Require Import Prelude CString Printf Bootinfo.

Local Open Scope Z_scope.

Definition BLOCKDEV_SECTOR_SIZE : Z := 512.
Definition BLOCKDEV_FLAG_WRITE : Z := 1.
Definition BLOCKDEV_FLAG_FLUSH : Z := 2.
Definition MAX_BLOCK_DEVS : Z := 8.

Inductive block_status_t :=
| BLOCK_OK | BLOCK_ERR_TIMEOUT | BLOCK_ERR_IO | BLOCK_ERR_RANGE | BLOCK_ERR_NO_DEVICE | BLOCK_ERR_INVALID.

#[export] Instance block_status_eq_dec : EqDecision block_status_t.
Proof. solve_decision. Defined.

(** A caller's buffer: its address and its bytes. *)
Definition buffer := (Z * list Z)%type.

(** [D] is what the driver's [ctx] points to.  The driver entry points take it and
    return its new value when they change it. *)
Record block_device_t (D : Type) := mk_block {
  name : list Z;
  driver : option (list Z);
  sector_count : Z;
  sector_size : Z;
  buffer_alignment : Z;
  max_transfer_sectors : Z;
  bflags : Z;
  ctx : option D;
  read : option (option D → Z → Z → list Z → res (block_status_t * list Z));
  write : option (option D → Z → Z → list Z → res (block_status_t * option D));
  flush : option (option D → res (block_status_t * option D));
}.

Arguments mk_block {D}.
Arguments name {D}.
Arguments driver {D}.
Arguments sector_count {D}.
Arguments sector_size {D}.
Arguments buffer_alignment {D}.
Arguments max_transfer_sectors {D}.
Arguments bflags {D}.
Arguments ctx {D}.
Arguments read {D}.
Arguments write {D}.
Arguments flush {D}.

Section block.
Context {D : Type}.
Implicit Types (dev : block_device_t D).

(** The registry: the registered pointers with the devices they point to. *)
Definition registry := list (Z * block_device_t D).

(** The checks against the devices already there: true when none clashes. *)
Definition register_scan (devices : registry) (p : Z) (dev : block_device_t D) : res bool :=
  c ← loop_n (length devices) 0 (λ i (_ : unit),
        e ← rd devices i;
        if e.1 =? p then Ret (Done false) else
        r ← strncmp (Some (name e.2)) (Some (name dev)) 16;
        if r =? 0 then Ret (Done false) else Ret (Next tt)) tt;
  match c with Done b => Ret b | Next _ => Ret true end.

Definition register_defaults (dev : block_device_t D) : block_device_t D :=
  mk_block (name dev) (match driver dev with None => Some (lit "unknown") | d => d end)
    (sector_count dev) (sector_size dev)
    (if buffer_alignment dev =? 0 then 1 else buffer_alignment dev)
    (if max_transfer_sectors dev =? 0 then 256 else max_transfer_sectors dev)
    (let f := match write dev with Some _ => Z.lor (bflags dev) BLOCKDEV_FLAG_WRITE | None => bflags dev end in
     match flush dev with Some _ => Z.lor f BLOCKDEV_FLAG_FLUSH | None => f end)
    (ctx dev) (read dev) (write dev) (flush dev).

Definition block_register (devices : registry) (p : Z) (dev : block_device_t D) : res (registry * bool) :=
  match read dev with
  | None => Ret (devices, false)
  | Some _ =>
      if MAX_BLOCK_DEVS <=? zlen devices then Ret (devices, false) else
      if (sector_count dev =? 0) || negb (sector_size dev =? BLOCKDEV_SECTOR_SIZE) then Ret (devices, false) else
      c ← rd (name dev) 0;
      if c =? 0 then Ret (devices, false) else
      n ← strnlen (Some (name dev)) 16;
      if 16 <=? n then Ret (devices, false) else
      ok ← register_scan devices p dev;
      if (ok : bool) then Ret (devices ++ [(p, register_defaults dev)], true) else Ret (devices, false)
  end.

Definition block_get (devices : registry) (index : Z) : option Z :=
  if index <? zlen devices then fst <$> devices !! Z.to_nat index else None.

Definition block_count (devices : registry) : Z := zlen devices.

Definition validate_range (dev : block_device_t D) (lba count : Z) (buf : option buffer) : block_status_t :=
  match buf with
  | None => BLOCK_ERR_INVALID
  | Some (addr, _) =>
      if count =? 0 then BLOCK_ERR_INVALID else
      if negb (sector_size dev =? BLOCKDEV_SECTOR_SIZE) || (sector_count dev =? 0) then BLOCK_ERR_INVALID else
      if negb (buffer_alignment dev =? 0) && negb (addr mod buffer_alignment dev =? 0) then BLOCK_ERR_INVALID else
      if negb (max_transfer_sectors dev =? 0) && (max_transfer_sectors dev <? count) then BLOCK_ERR_RANGE else
      if sector_count dev <=? lba then BLOCK_ERR_RANGE else
      if sector_count dev - lba <? count then BLOCK_ERR_RANGE else BLOCK_OK
  end.

Definition block_read (dev : block_device_t D) (lba count : Z) (buf : option buffer)
  : res (block_status_t * option buffer) :=
  match read dev with
  | None => Ret (BLOCK_ERR_INVALID, buf)
  | Some rd_fn =>
      let st := validate_range dev lba count buf in
      if decide (st ≠ BLOCK_OK) then Ret (st, buf) else
      match buf with
      | None => Ret (st, buf)
      | Some (addr, b) => '(st, b) ← rd_fn (ctx dev) lba count b; Ret (st, Some (addr, b))
      end
  end.

(** The device with its contents after the call. *)
Definition with_ctx (dev : block_device_t D) (c : option D) : block_device_t D :=
  mk_block (name dev) (driver dev) (sector_count dev) (sector_size dev) (buffer_alignment dev)
    (max_transfer_sectors dev) (bflags dev) c (read dev) (write dev) (flush dev).

Definition block_write (dev : block_device_t D) (lba count : Z) (buf : option buffer)
  : res (block_status_t * block_device_t D) :=
  match write dev with
  | None => Ret (BLOCK_ERR_INVALID, dev)
  | Some wr_fn =>
      let st := validate_range dev lba count buf in
      if decide (st ≠ BLOCK_OK) then Ret (st, dev) else
      match buf with
      | None => Ret (st, dev)
      | Some (_, b) => '(st, c) ← wr_fn (ctx dev) lba count b; Ret (st, with_ctx dev c)
      end
  end.

Definition block_flush (dev : block_device_t D) : res (block_status_t * block_device_t D) :=
  match flush dev with
  | None => Ret (BLOCK_OK, dev)
  | Some f => '(st, c) ← f (ctx dev); Ret (st, with_ctx dev c)
  end.

Definition block_driver_name (dev : option (block_device_t D)) : list Z :=
  match dev with Some d => default (lit "unknown") (driver d) | None => lit "unknown" end.

End block.

Arguments registry : clear implicits.

Definition block_status_name (status : block_status_t) : list Z :=
  match status with
  | BLOCK_OK => lit "ok"
  | BLOCK_ERR_TIMEOUT => lit "timeout"
  | BLOCK_ERR_IO => lit "io"
  | BLOCK_ERR_RANGE => lit "range"
  | BLOCK_ERR_NO_DEVICE => lit "no-device"
  | BLOCK_ERR_INVALID => lit "invalid"
  end.

(** ** The partition table *)

Record mbr_partition_t := mk_part { bootable : bool; ptype : Z; lba_first : Z; psectors : Z }.

(** Always four entries. *)
Definition mbr_table_t := list mbr_partition_t.

Definition le32 (p : list Z) : res Z :=
  b0 ← rd p 0; b1 ← rd p 1; b2 ← rd p 2; b3 ← rd p 3;
  Ret (Z.lor (Z.lor (Z.lor b0 (Z.shiftl b1 8)) (Z.shiftl b2 16)) (Z.shiftl b3 24)).

(** One turn of the parse loop on the entry bytes [p]: [None] is [return false]. *)
Definition parse_entry (p : list Z) : res (option mbr_partition_t) :=
  b ← rd p 0;
  if negb (b =? 0) && negb (b =? 0x80) then Ret None else
  t ← rd p 4;
  lba ← le32 (drop 8 p);
  n ← le32 (drop 12 p);
  if (t =? 0) && (negb (lba =? 0) || negb (n =? 0)) then Ret None else
  if negb (t =? 0) && (n =? 0) then Ret None else
  Ret (Some (mk_part (b =? 0x80) t lba n)).

Definition mbr_parse_sector (sector : option (list Z)) : res (option mbr_table_t) :=
  match sector with
  | None => Ret None
  | Some s =>
      a ← rd s 510;
      b ← rd s 511;
      if negb (a =? 0x55) || negb (b =? 0xaa) then Ret None else
      c ← loop_n 4 0 (λ i out,
            e ← parse_entry (drop (Z.to_nat (446 + i * 16)) s);
            match e with None => Ret (Done tt) | Some part => Ret (Next (out ++ [part])) end) [];
      match c with Next out => Ret (Some out) | Done _ => Ret None end
  end.

(** [sector] is the uninitialised stack buffer, at address [addr]. *)
Definition mbr_read {D} (dev : block_device_t D) (addr : Z) (sector : list Z) : res (option mbr_table_t) :=
  '(st, b) ← block_read dev 0 1 (Some (addr, sector));
  if decide (st ≠ BLOCK_OK) then Ret None else mbr_parse_sector (snd <$> b).

Definition mbr_partition_valid {D} (dev : block_device_t D) (part : mbr_partition_t) : bool :=
  if psectors part =? 0 then false else
  if sector_count dev =? 0 then true else
  if sector_count dev <=? lba_first part then false else
  if sector_count dev - lba_first part <? psectors part then false else true.

Fixpoint mbr_find_linux (mbr : mbr_table_t) : option mbr_partition_t :=
  match mbr with
  | [] => None
  | p :: r => if (ptype p =? 0x83) && negb (psectors p =? 0) then Some p else mbr_find_linux r
  end.

Definition mbr_part_nonempty (p : mbr_partition_t) : bool := negb (ptype p =? 0) && negb (psectors p =? 0).

Definition mbr_parts_overlap (a b : mbr_partition_t) : bool :=
  if negb (mbr_part_nonempty a) || negb (mbr_part_nonempty b) then false else
  match add_u64 (lba_first a) (psectors a - 1), add_u64 (lba_first b) (psectors b - 1) with
  | Some a_last, Some b_last => (lba_first a <=? b_last) && (lba_first b <=? a_last)
  | _, _ => true
  end.

(** The loop over [i] with the inner loop over the entries after it. *)
Fixpoint mbr_table_valid_for_device {D} (dev : block_device_t D) (mbr : mbr_table_t) : bool :=
  match mbr with
  | [] => true
  | part :: rest =>
      if negb (mbr_part_nonempty part) then mbr_table_valid_for_device dev rest else
      if negb (mbr_partition_valid dev part) then false else
      if existsb (mbr_parts_overlap part) rest then false else mbr_table_valid_for_device dev rest
  end.

(** The search loop of [mbr_find_linux_on_device]. *)
Fixpoint find_linux_from {D} (dev : block_device_t D) (mbr : mbr_table_t) : option mbr_partition_t :=
  match mbr with
  | [] => None
  | p :: r => if (ptype p =? 0x83) && mbr_partition_valid dev p then Some p else find_linux_from dev r
  end.

Definition mbr_find_linux_on_device {D} (dev : block_device_t D) (mbr : mbr_table_t) : option mbr_partition_t :=
  if negb (mbr_table_valid_for_device dev mbr) then None else find_linux_from dev mbr.

(** ** The boot ramdisk *)

Definition BOOTRAMDISK_MAX : Z := 4.

(** [disk] is the memory object at [base], [rsize] the size field. *)
Record bootramdisk_t := mk_ramdisk { disk : list Z; rsize : Z }.

(** The byte range of a transfer, when the two products fit and it is inside. *)
Definition ramdisk_range (r : bootramdisk_t) (lba count : Z) : option (Z * Z) :=
  match mul_u64 lba BLOCKDEV_SECTOR_SIZE, mul_u64 count BLOCKDEV_SECTOR_SIZE with
  | Some off, Some bytes => if (rsize r <? off) || (rsize r - off <? bytes) then None else Some (off, bytes)
  | _, _ => None
  end.

Definition bootramdisk_read (ctx : option bootramdisk_t) (lba count : Z) (buf : list Z)
  : res (block_status_t * list Z) :=
  match ctx with
  | None => Ret (BLOCK_ERR_INVALID, buf)
  | Some r =>
      if count =? 0 then Ret (BLOCK_ERR_INVALID, buf) else
      match ramdisk_range r lba count with
      | None => Ret (BLOCK_ERR_RANGE, buf)
      | Some (off, bytes) => b ← memcpy buf (drop (Z.to_nat off) (disk r)) bytes; Ret (BLOCK_OK, b)
      end
  end.

Definition bootramdisk_write (ctx : option bootramdisk_t) (lba count : Z) (buf : list Z)
  : res (block_status_t * option bootramdisk_t) :=
  match ctx with
  | None => Ret (BLOCK_ERR_INVALID, ctx)
  | Some r =>
      if count =? 0 then Ret (BLOCK_ERR_INVALID, ctx) else
      match ramdisk_range r lba count with
      | None => Ret (BLOCK_ERR_RANGE, ctx)
      | Some (off, bytes) =>
          d ← at_offset off (λ d, memcpy d buf bytes) (disk r);
          Ret (BLOCK_OK, Some (mk_ramdisk d (rsize r)))
      end
  end.

(** The device [bootramdisk_init] builds for a module with the bytes [content]. *)
Definition ramdisk_device (nm content : list Z) : block_device_t bootramdisk_t :=
  mk_block nm (Some (lit "bootramdisk")) (zlen content / BLOCKDEV_SECTOR_SIZE) BLOCKDEV_SECTOR_SIZE 1 128 0
    (Some (mk_ramdisk content (zlen content))) (Some bootramdisk_read) (Some bootramdisk_write) None.

Definition mem_bytes (m : memory) (a n : Z) : list Z := map (λ k, m (a + Z.of_nat k)) (seq 0 (Z.to_nat n)).

(** The loop over the modules; [n] is [g_bootramdisk_count], [ptr k] the address of
    the [k]-th static ramdisk structure. *)
Fixpoint ramdisk_loop (k : nat) (i : Z) (m : memory) (ptr : Z → Z) (table : Z)
  (devices : registry bootramdisk_t) (n : Z) : res (registry bootramdisk_t * Z) :=
  match k with
  | O => Ret (devices, n)
  | S k' =>
      if BOOTRAMDISK_MAX <=? n then Ret (devices, n) else
      md ← ld_module m table i;
      if (m_base md =? 0) || (m_size md <? BLOCKDEV_SECTOR_SIZE) || negb (m_size md mod BLOCKDEV_SECTOR_SIZE =? 0)
      then ramdisk_loop k' (i + 1) m ptr table devices n else
      '(nm, _) ← ksnprintf (Some (replicate 16 0)) 16 (Some (lit "ramdisk%llu")) [VLong n];
      '(devices, ok) ← block_register devices (ptr n) (ramdisk_device (default [] nm) (mem_bytes m (m_base md) (m_size md)));
      ramdisk_loop k' (i + 1) m ptr table devices (if ok : bool then n + 1 else n)
  end.

Definition bootramdisk_init (m : memory) (info : info_ptr) (ptr : Z → Z)
  (devices : registry bootramdisk_t) (n : Z) : res (registry bootramdisk_t * Z) :=
  ok ← bootinfo_validate m info;
  match info with
  | Some (_, i) =>
      if negb ok || (module_count i =? 0) || (modules_addr i =? 0) then Ret (devices, n)
      else ramdisk_loop (Z.to_nat (module_count i)) 0 m ptr (modules_addr i) devices n
  | None => Ret (devices, n)
  end.

(** ** Reading and writing a ramdisk *)

(** The bytes of [count] sectors from [lba]. *)
Definition sectors (d : list Z) (lba count : Z) : list Z := take (Z.to_nat (count * 512)) (drop (Z.to_nat (lba * 512)) d).

Lemma ramdisk_range_ok d lba count :
  0 ≤ lba → 0 < count → zlen d ≤ U64MAX → (lba + count) * 512 ≤ zlen d →
  ramdisk_range (mk_ramdisk d (zlen d)) lba count = Some (lba * 512, count * 512).
Proof.
  intros Hl Hc Hm Hr. unfold ramdisk_range, mul_u64, BLOCKDEV_SECTOR_SIZE. cbn [rsize].
  assert ((lba * 512 <=? U64MAX) = true) as -> by lia. assert ((count * 512 <=? U64MAX) = true) as -> by lia.
  by assert ((zlen d <? lba * 512) || (zlen d - lba * 512 <? count * 512) = false) as -> by lia.
Qed.

(** What the block layer promises: the transfer is refused with this status, or it
    lies inside the device. *)
Definition transfer_status (d : list Z) (lba count : Z) : block_status_t :=
  if count =? 0 then BLOCK_ERR_INVALID
  else if zlen d / 512 =? 0 then BLOCK_ERR_INVALID
  else if 128 <? count then BLOCK_ERR_RANGE
  else if zlen d / 512 <? lba + count then BLOCK_ERR_RANGE else BLOCK_OK.

Lemma validate_ramdisk nm d lba count addr b :
  0 ≤ lba → 0 ≤ count →
  validate_range (ramdisk_device nm d) lba count (Some (addr, b)) = transfer_status d lba count.
Proof.
  intros Hl Hc. unfold validate_range, transfer_status, ramdisk_device, BLOCKDEV_SECTOR_SIZE.
  cbn [sector_size sector_count buffer_alignment max_transfer_sectors].
  destruct (Z.eqb_spec count 0); [done |]. cbn [negb orb Z.eqb Pos.eqb].
  destruct (Z.eqb_spec (zlen d / 512) 0); [done |].
  rewrite Z.mod_1_r. cbn [negb andb Z.eqb]. destruct (Z.ltb_spec 128 count); [done |].
  destruct (Z.leb_spec (zlen d / 512) lba), (Z.ltb_spec (zlen d / 512) (lba + count)),
    (Z.ltb_spec (zlen d / 512 - lba) count); lia || done.
Qed.

Lemma transfer_status_ok d lba count :
  0 ≤ lba → 0 ≤ count → transfer_status d lba count = BLOCK_OK → 0 < count ∧ (lba + count) * 512 ≤ zlen d.
Proof.
  intros Hl Hc. unfold transfer_status.
  destruct (Z.eqb_spec count 0); [done |]. destruct (Z.eqb_spec (zlen d / 512) 0); [done |].
  destruct (Z.ltb_spec 128 count); [done |]. destruct (Z.ltb_spec (zlen d / 512) (lba + count)); [done |].
  pose proof (Z.mul_div_le (zlen d) 512). intros _. lia.
Qed.

Lemma ramdisk_read_spec nm d lba count addr b :
  0 ≤ lba → 0 ≤ count → zlen d ≤ U64MAX → count * 512 ≤ zlen b →
  block_read (ramdisk_device nm d) lba count (Some (addr, b)) =
    Ret (transfer_status d lba count,
         Some (addr, if decide (transfer_status d lba count = BLOCK_OK) then blit b 0 (sectors d lba count) else b)).
Proof.
  intros Hl Hc Hm Hb. unfold block_read. cbn [read ramdisk_device].
  rewrite (validate_ramdisk nm d lba count addr b Hl Hc).
  destruct (decide (transfer_status d lba count = BLOCK_OK)) as [E|E].
  - rewrite E, decide_False by (intros H; by apply H). destruct (transfer_status_ok d lba count Hl Hc E) as [Hp Hr].
    cbn [ctx ramdisk_device]. unfold bootramdisk_read. destruct (Z.eqb_spec count 0); [lia |].
    rewrite ramdisk_range_ok by lia. cbn [disk]. rewrite memcpy_spec; [done | lia |].
    unfold zlen in *. rewrite length_drop. lia.
  - by rewrite decide_True.
Qed.

Lemma ramdisk_write_spec nm d lba count addr b :
  0 ≤ lba → 0 ≤ count → zlen d ≤ U64MAX → count * 512 ≤ zlen b →
  block_write (ramdisk_device nm d) lba count (Some (addr, b)) =
    Ret (transfer_status d lba count, ramdisk_device nm
      (if decide (transfer_status d lba count = BLOCK_OK)
       then blit d (Z.to_nat (lba * 512)) (take (Z.to_nat (count * 512)) b) else d)).
Proof.
  intros Hl Hc Hm Hb. unfold block_write. cbn [write ramdisk_device].
  rewrite (validate_ramdisk nm d lba count addr b Hl Hc).
  destruct (decide (transfer_status d lba count = BLOCK_OK)) as [E|E].
  - rewrite E, decide_False by (intros H; by apply H). destruct (transfer_status_ok d lba count Hl Hc E) as [Hp Hr].
    cbn [ctx ramdisk_device]. unfold bootramdisk_write. destruct (Z.eqb_spec count 0); [lia |].
    rewrite ramdisk_range_ok by lia. cbn [disk rsize].
    rewrite memcpy_at_spec by lia. mred. unfold with_ctx, ramdisk_device. cbn [name driver sector_count sector_size
      buffer_alignment max_transfer_sectors bflags ctx read write flush].
    rewrite !blit_zlen; [done |]. unfold zlen in *. rewrite length_take. lia.
  - by rewrite decide_True.
Qed.

(** A client of the disk: reads and writes of whole sectors. *)
Inductive disk_op :=
| DRead (lba count addr : Z) (b : list Z)
| DWrite (lba count addr : Z) (b : list Z).

(** The C contract of the caller's buffer and of the argument types. *)
Definition disk_op_ok (o : disk_op) : Prop :=
  match o with
  | DRead lba count _ b | DWrite lba count _ b => 0 ≤ lba ∧ 0 ≤ count ∧ count * 512 ≤ zlen b
  end.

Definition disk_step (dev : block_device_t bootramdisk_t) (o : disk_op)
  : res (block_device_t bootramdisk_t * (block_status_t * option buffer)) :=
  match o with
  | DRead lba count addr b => r ← block_read dev lba count (Some (addr, b)); Ret (dev, r)
  | DWrite lba count addr b =>
      '(st, dev) ← block_write dev lba count (Some (addr, b)); Ret (dev, (st, Some (addr, b)))
  end.

(** The specification: a flat byte array. *)
Definition array_step (d : list Z) (o : disk_op) : list Z * (block_status_t * option buffer) :=
  match o with
  | DRead lba count addr b =>
      let st := transfer_status d lba count in
      (d, (st, Some (addr, if decide (st = BLOCK_OK) then blit b 0 (sectors d lba count) else b)))
  | DWrite lba count addr b =>
      let st := transfer_status d lba count in
      (if decide (st = BLOCK_OK) then blit d (Z.to_nat (lba * 512)) (take (Z.to_nat (count * 512)) b) else d,
       (st, Some (addr, b)))
  end.

Fixpoint disk_run (dev : block_device_t bootramdisk_t) (ops : list disk_op) : res (list (block_status_t * option buffer)) :=
  match ops with
  | [] => Ret []
  | o :: ops' => '(dev, r) ← disk_step dev o; rs ← disk_run dev ops'; Ret (r :: rs)
  end.

Fixpoint array_run (d : list Z) (ops : list disk_op) : list (block_status_t * option buffer) :=
  match ops with
  | [] => []
  | o :: ops' => let '(d, r) := array_step d o in r :: array_run d ops'
  end.

Lemma array_step_zlen d o : disk_op_ok o → zlen (array_step d o).1 = zlen d.
Proof.
  destruct o as [|lba count addr b]; [done |]. intros (Hl & Hc & Hb). cbn [array_step fst].
  case_decide as E; [| done]. destruct (transfer_status_ok d lba count Hl Hc E) as [Hp Hr].
  apply blit_zlen. unfold zlen in *. rewrite length_take. lia.
Qed.

(** C27: through the block layer a boot ramdisk is a flat array of sectors: for any
    sequence of reads and writes, with buffers as large as the caller claims,
    no access leaves the disk or a buffer, a transfer that is empty, too long or
    past the end is refused with the documented status and changes nothing, and
    a read returns what the last writes left there. *)
Theorem ramdisk_refines_array (nm d : list Z) (ops : list disk_op) :
  zlen d ≤ U64MAX → Forall disk_op_ok ops →
  disk_run (ramdisk_device nm d) ops = Ret (array_run d ops).
Proof.
  intros Hm Hops. revert d Hm. induction Hops as [|o ops Ho Hops IH]; intros d Hm; [done |].
  cbn [disk_run array_run]. pose proof (array_step_zlen d o Ho) as Hz.
  assert (Hstep : disk_step (ramdisk_device nm d) o = Ret (ramdisk_device nm (array_step d o).1, (array_step d o).2)).
  { destruct o as [lba count addr b|lba count addr b]; destruct Ho as (Hl & Hc & Hb); cbn [disk_step array_step].
    - by rewrite ramdisk_read_spec.
    - by rewrite ramdisk_write_spec. }
  rewrite Hstep. mred. rewrite IH by lia. mred. by destruct (array_step d o).
Qed.

Lemma ramdisk_refines_array_witness :
  disk_run (ramdisk_device (lit "ramdisk0") (replicate 1024 0))
    [DWrite 1 1 64 (replicate 512 7); DRead 0 2 128 (replicate 1024 9); DRead 1 2 0 (replicate 1024 9)] =
  Ret (array_run (replicate 1024 0)
    [DWrite 1 1 64 (replicate 512 7); DRead 0 2 128 (replicate 1024 9); DRead 1 2 0 (replicate 1024 9)]).
Proof.
  apply ramdisk_refines_array.
  - vm_compute. congruence.
  - repeat (constructor; [vm_compute; split_and!; congruence |]). constructor.
Defined.

(** ** Partitions *)

Definition part_typed (p : mbr_partition_t) : Prop := is_u8 (ptype p) ∧ is_u32 (lba_first p) ∧ is_u32 (psectors p).

(** The partition occupies sectors of the device. *)
Definition part_inside {D} (dev : block_device_t D) (p : mbr_partition_t) : Prop :=
  0 < psectors p ∧ 0 ≤ lba_first p ∧ lba_first p + psectors p ≤ sector_count dev.

Definition parts_disjoint (a b : mbr_partition_t) : Prop :=
  lba_first a + psectors a ≤ lba_first b ∨ lba_first b + psectors b ≤ lba_first a.

Lemma mbr_partition_valid_spec {D} (dev : block_device_t D) p :
  part_typed p → 0 < sector_count dev → mbr_partition_valid dev p = true ↔ part_inside dev p.
Proof.
  intros (_ & Hf & Hn) Hs. unfold mbr_partition_valid, part_inside, is_u32 in *.
  destruct (Z.eqb_spec (psectors p) 0); [split; [done | lia] |].
  destruct (Z.eqb_spec (sector_count dev) 0); [lia |].
  destruct (Z.leb_spec (sector_count dev) (lba_first p)); [split; [done | lia] |].
  destruct (Z.ltb_spec (sector_count dev - lba_first p) (psectors p)); split; done || lia.
Qed.

Lemma mbr_parts_overlap_false a b :
  part_typed a → part_typed b → mbr_part_nonempty a = true → mbr_part_nonempty b = true →
  mbr_parts_overlap a b = false ↔ parts_disjoint a b.
Proof.
  intros (_ & Hfa & Hna) (_ & Hfb & Hnb) Ha Hb. unfold mbr_parts_overlap. rewrite Ha, Hb. cbn [negb orb].
  unfold mbr_part_nonempty in Ha, Hb.
  assert (add_u64 (lba_first a) (psectors a - 1) = Some (lba_first a + (psectors a - 1))) as -> by (apply add_u64_Some; ulia).
  assert (add_u64 (lba_first b) (psectors b - 1) = Some (lba_first b + (psectors b - 1))) as -> by (apply add_u64_Some; ulia).
  unfold parts_disjoint. lia.
Qed.

(** A consistent table: every non-empty partition inside, no two overlapping. *)
Definition table_ok {D} (dev : block_device_t D) (mbr : mbr_table_t) : Prop :=
  (∀ i p, mbr !! i = Some p → mbr_part_nonempty p = true → part_inside dev p) ∧
  (∀ i j p q, (i < j)%nat → mbr !! i = Some p → mbr !! j = Some q →
     mbr_part_nonempty p = true → mbr_part_nonempty q = true → parts_disjoint p q).

Lemma mbr_table_valid_spec {D} (dev : block_device_t D) mbr :
  Forall part_typed mbr → 0 < sector_count dev →
  mbr_table_valid_for_device dev mbr = true ↔ table_ok dev mbr.
Proof.
  intros Ht Hs. induction Ht as [|p mbr Hp Ht IH]; [by split; intros; [split; intros|] |]. cbn [mbr_table_valid_for_device].
  destruct (mbr_part_nonempty p) eqn:Ene; cbn [negb].
  - destruct (mbr_partition_valid dev p) eqn:Ev; cbn [negb].
    2: { split; [done |]. intros [H _]. specialize (H O p eq_refl Ene). apply mbr_partition_valid_spec in H; [congruence | done..]. }
    apply mbr_partition_valid_spec in Ev; [| done..].
    destruct (existsb (mbr_parts_overlap p) mbr) eqn:Eo.
    + split; [done |]. intros [_ H]. exfalso. apply existsb_exists in Eo as (q & Hq & Ho).
      apply list_elem_of_In, list_elem_of_lookup in Hq as [j Hj].
      assert (Hqn : mbr_part_nonempty q = true).
      { unfold mbr_parts_overlap in Ho. destruct (mbr_part_nonempty q); [done |]. by rewrite orb_true_r in Ho. }
      specialize (H O (S j) p q ltac:(lia) eq_refl Hj Ene Hqn).
      apply mbr_parts_overlap_false in H; [congruence | done | by eapply Forall_lookup_1 | done..].
    + rewrite IH. split.
      * intros [H1 H2]. split.
        -- intros [|i] q Hi Hq; [by injection Hi as <- | by eapply H1].
        -- intros [|i] [|j] q r Hij Hi Hj Hq Hr; try lia; [| apply (H2 i j q r); [lia | done..]].
           injection Hi as <-. apply mbr_parts_overlap_false; [done | by eapply Forall_lookup_1 | done | done |].
           apply not_true_is_false. intros Ho. apply not_true_iff_false in Eo. apply Eo, existsb_exists.
           exists r. split; [| done]. by apply list_elem_of_In, (list_elem_of_lookup_2 _ j).
      * intros [H1 H2]. split; [intros i q; apply (H1 (S i)) | intros i j q r Hij; apply (H2 (S i) (S j)); lia].
  - rewrite IH. split.
    + intros [H1 H2]. split.
      * intros [|i] q Hi Hq; [injection Hi as <-; congruence | by eapply H1].
      * intros [|i] [|j] q r Hij Hi Hj Hq Hr; try lia; [injection Hi as <-; congruence | apply (H2 i j q r); [lia | done..]].
    + intros [H1 H2]. split; [intros i q; apply (H1 (S i)) | intros i j q r Hij; apply (H2 (S i) (S j)); lia].
Qed.

Lemma find_linux_from_Some {D} (dev : block_device_t D) mbr p :
  find_linux_from dev mbr = Some p → ∃ i, mbr !! i = Some p ∧ ptype p = 0x83 ∧ mbr_partition_valid dev p = true.
Proof.
  induction mbr as [|q mbr IH]; cbn [find_linux_from]; [done |].
  destruct ((ptype q =? 0x83) && mbr_partition_valid dev q) eqn:E.
  - intros [= <-]. exists O. apply andb_true_iff in E as [E1 E2]. split_and!; [done | lia | done].
  - intros H. destruct (IH H) as (i & Hi & H'). by exists (S i).
Qed.

Lemma find_linux_from_None {D} (dev : block_device_t D) mbr :
  find_linux_from dev mbr = None → ∀ i p, mbr !! i = Some p → ptype p = 0x83 → mbr_partition_valid dev p = false.
Proof.
  induction mbr as [|q mbr IH]; cbn [find_linux_from]; [by intros _ [|] |].
  destruct ((ptype q =? 0x83) && mbr_partition_valid dev q) eqn:E; [done |].
  intros H [|i] p Hi Hp; [| by eapply IH]. injection Hi as <-. rewrite Hp in E. done.
Qed.

(** [mbr_find_linux_on_device] is safe and complete: a partition it returns is a
    Linux entry that lies wholly inside the device and shares no sector with any
    other non-empty entry; it returns nothing exactly when the table has an entry
    outside the device or two that overlap, or has no Linux entry with sectors. *)
Theorem mbr_find_linux_correct {D} (dev : block_device_t D) (mbr : mbr_table_t) :
  Forall part_typed mbr → 0 < sector_count dev →
  match mbr_find_linux_on_device dev mbr with
  | Some p => ∃ i, mbr !! i = Some p ∧ ptype p = 0x83 ∧ part_inside dev p ∧
      ∀ j q, j ≠ i → mbr !! j = Some q → mbr_part_nonempty q = true → parts_disjoint p q
  | None => ¬ table_ok dev mbr ∨ ∀ i p, mbr !! i = Some p → ptype p = 0x83 → psectors p = 0
  end.
Proof.
  intros Ht Hs. unfold mbr_find_linux_on_device. pose proof (mbr_table_valid_spec dev mbr Ht Hs) as Hv.
  destruct (mbr_table_valid_for_device dev mbr) eqn:E; cbn [negb].
  - destruct (proj1 Hv eq_refl) as [H1 H2]. destruct (find_linux_from dev mbr) as [p|] eqn:Ef.
    + destruct (find_linux_from_Some dev mbr p Ef) as (i & Hi & Hp & Hpv). exists i.
      pose proof (Forall_lookup_1 _ _ _ _ Ht Hi) as Hpt. pose proof Hpv as Hin.
      apply mbr_partition_valid_spec in Hin; [| done..].
      assert (Hpn : mbr_part_nonempty p = true) by (unfold mbr_part_nonempty; rewrite Hp; destruct Hin as [? _]; lia).
      split_and!; [done.. |]. intros j q Hj Hq Hqn. destruct (decide (i < j)%nat).
      * by eapply (H2 i j).
      * assert (parts_disjoint q p) as [?|?] by (eapply (H2 j i); eauto; lia); [by right | by left].
    + right. intros i p Hi Hp. pose proof (find_linux_from_None dev mbr Ef i p Hi Hp) as Hpv.
      destruct (decide (psectors p = 0)) as [|Hne]; [done |]. exfalso.
      pose proof (Forall_lookup_1 _ _ _ _ Ht Hi) as Hpt.
      assert (part_inside dev p) as Hin by (apply (H1 i); [done |]; unfold mbr_part_nonempty; rewrite Hp; lia).
      apply mbr_partition_valid_spec in Hin; [congruence | done..].
  - left. intros H. by apply Hv in H.
Qed.

Lemma mbr_find_linux_correct_witness :
  match mbr_find_linux_on_device (ramdisk_device [] (replicate 4096 0))
          [mk_part false 0x83 2 3; mk_part false 7 5 3; mk_part false 0 0 0; mk_part false 0 0 0] with
  | Some p => ∃ i, [mk_part false 0x83 2 3; mk_part false 7 5 3; mk_part false 0 0 0; mk_part false 0 0 0] !! i = Some p ∧
      part_inside (ramdisk_device [] (replicate 4096 0)) p
  | None => False
  end.
Proof.
  assert (Hs : sector_count (ramdisk_device [] (replicate 4096 0)) = 8) by (vm_compute; reflexivity).
  pose proof (mbr_find_linux_correct (ramdisk_device [] (replicate 4096 0))
    [mk_part false 0x83 2 3; mk_part false 7 5 3; mk_part false 0 0 0; mk_part false 0 0 0]) as H.
  assert (E : mbr_find_linux_on_device (ramdisk_device [] (replicate 4096 0))
    [mk_part false 0x83 2 3; mk_part false 7 5 3; mk_part false 0 0 0; mk_part false 0 0 0] = Some (mk_part false 0x83 2 3))
    by (vm_compute; reflexivity).
  rewrite E in *. destruct H as (i & Hi & _ & Hin & _).
  - repeat (constructor; [unfold part_typed; cbn; ulia |]). constructor.
  - rewrite Hs. lia.
  - exists i. split; assumption.
Defined.

(** *** Parsing *)

Definition byte_of (n k : Z) : Z := Z.land (Z.shiftr n (8 * k)) (Z.ones 8).
Definition enc_le32 (n : Z) : list Z := [byte_of n 0; byte_of n 1; byte_of n 2; byte_of n 3].

Lemma byte_of_testbit n k i :
  0 ≤ k → 0 ≤ i → Z.testbit (byte_of n k) i = Z.testbit n (8 * k + i) && (i <? 8).
Proof.
  intros Hk Hi. unfold byte_of. rewrite Z.land_spec, Z.shiftr_spec by lia.
  rewrite Z.testbit_ones_nonneg by lia. f_equal. f_equal. lia.
Qed.

Lemma shiftl_byte_testbit n k i :
  0 ≤ k → 0 ≤ i →
  Z.testbit (Z.shiftl (byte_of n k) (8 * k)) i = Z.testbit n i && (8 * k <=? i) && (i <? 8 * k + 8).
Proof.
  intros Hk Hi. rewrite Z.shiftl_spec by lia. destruct (Z.leb_spec (8 * k) i).
  - rewrite byte_of_testbit by lia. replace (8 * k + (i - 8 * k)) with i by lia. rewrite andb_true_r.
    f_equal. destruct (Z.ltb_spec (i - 8 * k) 8), (Z.ltb_spec i (8 * k + 8)); lia.
  - rewrite Z.testbit_neg_r by lia. by rewrite andb_false_r.
Qed.

Lemma le32_enc n rest : is_u32 n → le32 (enc_le32 n ++ rest) = Ret n.
Proof.
  intros Hn. unfold le32. cbn [enc_le32 app].
  change (rd (byte_of n 0 :: _) 0) with (Ret (byte_of n 0)).
  change (rd (byte_of n 0 :: byte_of n 1 :: _) 1) with (Ret (byte_of n 1)).
  change (rd (byte_of n 0 :: byte_of n 1 :: byte_of n 2 :: _) 2) with (Ret (byte_of n 2)).
  change (rd (byte_of n 0 :: byte_of n 1 :: byte_of n 2 :: byte_of n 3 :: _) 3) with (Ret (byte_of n 3)).
  mred. f_equal. apply Z.bits_inj'. intros i Hi. rewrite !Z.lor_spec.
  pose proof (shiftl_byte_testbit n 1 i ltac:(lia) Hi) as H1. pose proof (shiftl_byte_testbit n 2 i ltac:(lia) Hi) as H2.
  pose proof (shiftl_byte_testbit n 3 i ltac:(lia) Hi) as H3. pose proof (byte_of_testbit n 0 i ltac:(lia) Hi) as H0.
  change (8 * 1) with 8 in *. change (8 * 2) with 16 in *. change (8 * 3) with 24 in *. change (8 * 0 + i) with i in *.
  rewrite H0, H1, H2, H3. destruct (decide (32 ≤ i)).
  - by rewrite (testbit_high 32 n i) by (done || lia).
  - destruct (Z.testbit n i); [| done]. cbn [andb]. lia.
Qed.

(** The 16 bytes of an entry, with any cylinder-head-sector bytes. *)
Definition enc_part (chs1 chs2 : list Z) (p : mbr_partition_t) : list Z :=
  (if bootable p then 0x80 else 0) :: chs1 ++ ptype p :: chs2 ++ enc_le32 (lba_first p) ++ enc_le32 (psectors p).

(** What a well-formed entry satisfies. *)
Definition part_wf (p : mbr_partition_t) : Prop :=
  part_typed p ∧ (ptype p = 0 → lba_first p = 0 ∧ psectors p = 0) ∧ (ptype p ≠ 0 → psectors p ≠ 0).

Lemma parse_entry_enc chs1 chs2 p rest :
  length chs1 = 3%nat → length chs2 = 3%nat → part_wf p →
  parse_entry (enc_part chs1 chs2 p ++ rest) = Ret (Some p).
Proof.
  intros H1 H2 ((_ & Hl & Hn) & Hz & Hnz). unfold parse_entry, enc_part.
  destruct chs1 as [|a1 [|a2 [|a3 [|]]]]; try done. destruct chs2 as [|b1 [|b2 [|b3 [|]]]]; try done.
  cbn [app]. rewrite rd_cons_0. mred.
  assert (negb ((if bootable p then 128 else 0) =? 0) && negb ((if bootable p then 128 else 0) =? 128) = false) as ->
    by (by destruct (bootable p)).
  change (rd (_ :: a1 :: a2 :: a3 :: ptype p :: _) 4) with (Ret (ptype p)). mred. cbn [drop]. rewrite <- app_assoc.
  rewrite drop_0. rewrite le32_enc by done. mred. cbn [enc_le32 app drop]. rewrite ?drop_0.
  change (byte_of (psectors p) 0 :: byte_of (psectors p) 1 :: byte_of (psectors p) 2 :: byte_of (psectors p) 3 :: rest)
    with (enc_le32 (psectors p) ++ rest). rewrite le32_enc by done. mred.
  destruct (Z.eqb_spec (ptype p) 0) as [E|E]; cbn [andb negb].
  - destruct (Hz E) as [-> ->]. cbn. f_equal. f_equal. destruct p as [bt t l n]; simpl in *.
    destruct (Hz E) as [-> ->]. by destruct bt.
  - destruct (Z.eqb_spec (psectors p) 0); [by apply Hnz in E |]. f_equal. f_equal.
    destruct p as [bt t l k]; simpl. by destruct bt.
Qed.

(** Parsing the partition table inverts its on-disk encoding: a sector that holds
    any 446 bytes of boot code, four well-formed entries and the signature is
    parsed to exactly those entries, whatever the obsolete geometry bytes are. *)
Theorem mbr_parse_encode (boot : list Z) (chs : list Z) (p0 p1 p2 p3 : mbr_partition_t) :
  zlen boot = 446 → zlen chs = 3 → Forall part_wf [p0; p1; p2; p3] →
  let e := enc_part chs chs in
  mbr_parse_sector (Some (boot ++ e p0 ++ e p1 ++ e p2 ++ e p3 ++ [0x55; 0xaa])) = Ret (Some [p0; p1; p2; p3]).
Proof.
  intros Hb Hc Hwf e. unfold zlen in Hb, Hc. assert (Hlc : length chs = 3%nat) by lia.
  assert (He : ∀ p, length (e p) = 16%nat).
  { intros p. unfold e, enc_part, enc_le32. cbn [length]. rewrite length_app. cbn [length]. rewrite !length_app. simpl. lia. }
  assert (Hd : ∀ (l rest : list Z) k, k = length l → drop k (l ++ rest) = rest) by (intros l rest k ->; apply drop_app_length).
  set (s := boot ++ _).
  assert (H0 : drop 446 s = e p0 ++ e p1 ++ e p2 ++ e p3 ++ [0x55; 0xaa]) by (apply Hd; lia).
  assert (Hn : ∀ k p rest, drop k s = e p ++ rest → drop (k + 16) s = rest).
  { intros k p rest H. rewrite <- drop_drop, H. apply Hd. by rewrite He. }
  assert (H1 : drop 462 s = e p1 ++ e p2 ++ e p3 ++ [0x55; 0xaa]) by exact (Hn _ _ _ H0).
  assert (H2 : drop 478 s = e p2 ++ e p3 ++ [0x55; 0xaa]) by exact (Hn _ _ _ H1).
  assert (H3 : drop 494 s = e p3 ++ [0x55; 0xaa]) by exact (Hn _ _ _ H2).
  assert (H510 : drop 510 s = [0x55; 0xaa]) by exact (Hn _ _ _ H3).
  unfold mbr_parse_sector.
  pose proof (rd_drop s 510 0) as R0. pose proof (rd_drop s 510 1) as R1. rewrite H510 in R0, R1.
  change (Z.of_nat 510 + 0) with 510 in R0. change (Z.of_nat 510 + 1) with 511 in R1.
  rewrite R0, R1 by lia. mred. cbn [negb orb Z.eqb Pos.eqb]. cbn [loop_n].
  rewrite !Forall_cons in Hwf. destruct Hwf as (W0 & W1 & W2 & W3 & _).
  change (Z.to_nat (446 + 0 * 16)) with 446%nat. change (Z.to_nat (446 + (0 + 1) * 16)) with 462%nat.
  change (Z.to_nat (446 + (0 + 1 + 1) * 16)) with 478%nat. change (Z.to_nat (446 + (0 + 1 + 1 + 1) * 16)) with 494%nat.
  rewrite H0, H1, H2, H3. unfold e.
  do 4 (rewrite parse_entry_enc by done; mred). done.
Qed.

Lemma mbr_parse_encode_witness :
  let e := enc_part [1; 2; 3] [1; 2; 3] in
  mbr_parse_sector (Some (replicate 446 0xcc ++ e (mk_part true 0x83 2048 4096) ++ e (mk_part false 0x82 6144 1024)
    ++ e (mk_part false 0 0 0) ++ e (mk_part false 0 0 0) ++ [0x55; 0xaa])) =
  Ret (Some [mk_part true 0x83 2048 4096; mk_part false 0x82 6144 1024; mk_part false 0 0 0; mk_part false 0 0 0]).
Proof.
  apply (mbr_parse_encode (replicate 446 0xcc) [1; 2; 3]).
  - reflexivity.
  - reflexivity.
  - repeat (constructor; [unfold part_wf, part_typed; cbn; ulia |]). constructor.
Defined.
