(* ===== verification/Memory.v ===== *)
(** * Physical frames: [kernel/arch/x86_64/memory.c]

    A bitmap says which frames are in use and a table counts the references of
    each.  The abstract value is the reference count of every frame; a frame is
    free when its count is zero. *)

From Stdlib Require Import ZArith Lia String.
From stdpp Require Import prelude list_numbers.
From S2P Require Import Prelude Arith Bitmap Bootinfo.

Local Open Scope Z_scope.

Definition PAGE_SIZE : Z := 4096.
Definition MEMORY_KERNEL_DIRECT_LIMIT : Z := 1024 * 1024 * 1024.
Definition MAX_TRACKED_FRAMES : Z := 1024 * 1024.
Definition FRAME_BITMAP_PHYS : Z := 0x100000.
Definition FRAME_BITMAP_BYTES : Z := MAX_TRACKED_FRAMES / 8.
Definition FRAME_REFCOUNT_PHYS : Z := 0x400000.
Definition FRAME_REFCOUNT_BYTES : Z := MAX_TRACKED_FRAMES * 2.
Definition RABBITBONE_E820_USABLE : Z := 1.

(** The static variables; [refs] is the array at [FRAME_REFCOUNT_PHYS]. *)
Record mem_state := mk_mem {
  frames : bitmap_t;
  refs : list Z;
  frame_count : Z;
  total_usable : Z;
}.

Definition set_frames (st : mem_state) (b : bitmap_t) : mem_state := mk_mem b (refs st) (frame_count st) (total_usable st).
Definition set_refs (st : mem_state) (r : list Z) : mem_state := mk_mem (frames st) r (frame_count st) (total_usable st).

Definition saturating_add_u64 (a b : Z) : Z := default U64MAX (add_u64 a b).

Definition range_end_checked (base length : Z) : option Z :=
  if length =? 0 then None else
  match add_u64 base length with Some e => if base <=? e then Some e else None | None => None end.

Definition ranges_overlap_u64 (a_base a_len b_base b_len : Z) : bool :=
  match range_end_checked a_base a_len, range_end_checked b_base b_len with
  | Some a_end, Some b_end => (a_base <? b_end) && (b_base <? a_end)
  | _, _ => false
  end.

Section memory.

(** The linker's [__kernel_start] and [__kernel_end]. *)
Context (kernel_start kernel_end : Z).

Definition range_intersects_reserved (base length : Z) : bool :=
  if length =? 0 then true else
  if ranges_overlap_u64 base length 0 0x200000 then true else
  if ranges_overlap_u64 base length kernel_start (wrap64 (kernel_end - kernel_start)) then true else
  if ranges_overlap_u64 base length FRAME_BITMAP_PHYS FRAME_BITMAP_BYTES then true else
  if ranges_overlap_u64 base length FRAME_REFCOUNT_PHYS FRAME_REFCOUNT_BYTES then true else false.

Definition mark_range (st : mem_state) (base length : Z) (free : bool) : res mem_state :=
  match range_end_checked base length, align_up_u64_checked base PAGE_SIZE true with
  | Some end_addr, Some start_addr =>
      let start := start_addr / PAGE_SIZE in
      let e := ALIGN_DOWN end_addr PAGE_SIZE / PAGE_SIZE in
      if (frame_count st <=? start) || (e <=? start) then Ret st else
      let e := if frame_count st <? e then frame_count st else e in
      b ← for_n (Z.to_nat (e - start)) start (λ f b, if free then bitmap_clear b f else bitmap_set b f) (frames st);
      Ret (set_frames st b)
  | _, _ => Ret st
  end.

(** The first loop of [memory_init]: the highest address and the usable total. *)
Definition scan_e820 (m : memory) (info : info_ptr) (count : Z) : res (Z * Z) :=
  for_n (Z.to_nat count) 0 (λ i '(max_addr, usable),
    p ← bootinfo_e820 m info i;
    match p with
    | None => Ret (max_addr, usable)
    | Some a =>
        e ← ld_e820 m a 0;
        if e_length e =? 0 then Ret (max_addr, usable) else
        let end_addr := saturating_add_u64 (e_base e) (e_length e) in
        Ret (if max_addr <? end_addr then end_addr else max_addr,
             if e_type e =? RABBITBONE_E820_USABLE then saturating_add_u64 usable (e_length e) else usable)
    end) (0, 0).

(** The bitmap and the table of counts are themselves memory, at fixed addresses: what a
    reader sees while the state is [st] and the rest of memory [m]. *)
Definition byte_of (v k : Z) : Z := wrap8 (Z.shiftr v (8 * k)).

Definition memory_with (st : mem_state) (m : memory) : memory := λ a,
  if (FRAME_BITMAP_PHYS <=? a) && (a <? FRAME_BITMAP_PHYS + FRAME_BITMAP_BYTES) then
    let o := a - FRAME_BITMAP_PHYS in byte_of (default 0 (default [] (words (frames st)) !! Z.to_nat (o / 8))) (o mod 8)
  else if (FRAME_REFCOUNT_PHYS <=? a) && (a <? FRAME_REFCOUNT_PHYS + FRAME_REFCOUNT_BYTES) then
    let o := a - FRAME_REFCOUNT_PHYS in byte_of (default 0 (refs st !! Z.to_nat (o / 2))) (o mod 2)
  else m a.

(** The pointer with the structure as it is in memory. *)
Definition info_at (m : memory) (p : option Z) : info_ptr := p' ← p; Some (p', bootinfo_at m p').

(** The second loop: the usable ranges become free.  Structure and table are read anew in
    each turn, from the memory that the turns before have changed. *)
Definition free_e820 (m : memory) (p : Z) (st : mem_state) : res mem_state :=
  c ← loop_n (Z.to_nat 0x10000) 0 (λ i st,
    let now := memory_with st m in
    let info := bootinfo_at now p in
    if e820_count info <=? i then Ret (Done st) else
    e ← bootinfo_e820 now (Some (p, info)) i;
    match e with
    | None => Ret (Next st)
    | Some a => e ← ld_e820 now a 0;
                if e_type e =? RABBITBONE_E820_USABLE then st ← mark_range st (e_base e) (e_length e) true; Ret (Next st) else Ret (Next st)
    end) st;
  match c with Done st => Ret st | Next _ => Fault Diverged end.

(** The module loop: the payloads become used. *)
Definition reserve_modules (m : memory) (p mods : Z) (st : mem_state) : res mem_state :=
  c ← loop_n (Z.to_nat 0x10000) 0 (λ i st,
    let now := memory_with st m in
    if module_count (bootinfo_at now p) <=? i then Ret (Done st) else
    md ← ld_module now mods i;
    if negb (m_base md =? 0) && negb (m_size md =? 0) then st ← mark_range st (m_base md) (m_size md) false; Ret (Next st) else Ret (Next st)) st;
  match c with Done st => Ret st | Next _ => Fault Diverged end.

(** [refs[f] = bitmap_test(&frames, f) ? 1 : 0] for every frame. *)
Definition init_refs (st : mem_state) : res mem_state :=
  r ← for_n (Z.to_nat (frame_count st)) 0 (λ f r, b ← bitmap_test (frames st) f; wr r f (if b : bool then 1 else 0)) (refs st);
  Ret (set_refs st r).

(** The second half of [memory_init], with every frame marked as used.  What is read from
    here on is read from [memory_with]. *)
Definition mark_frames (m : memory) (bootinfo : option Z) (max_addr : Z) (st : mem_state) : res mem_state :=
  valid ← bootinfo_validate (memory_with st m) (info_at (memory_with st m) bootinfo);
  st ← (match bootinfo with
        | Some p => if (valid : bool) then free_e820 m p st else mark_range st 0x200000 (max_addr - 0x200000) true
        | None => mark_range st 0x200000 (max_addr - 0x200000) true end);
  st ← mark_range st 0 0x200000 false;
  st ← mark_range st kernel_start (wrap64 (kernel_end - kernel_start)) false;
  valid ← bootinfo_validate (memory_with st m) (info_at (memory_with st m) bootinfo);
  st ← (match bootinfo with
        | Some p =>
            let i := bootinfo_at (memory_with st m) p in
            if (valid : bool) && negb (module_count i =? 0) && negb (modules_addr i =? 0) then reserve_modules m p (modules_addr i) st else Ret st
        | None => Ret st end);
  st ← mark_range st FRAME_BITMAP_PHYS FRAME_BITMAP_BYTES false;
  st ← mark_range st FRAME_REFCOUNT_PHYS FRAME_REFCOUNT_BYTES false;
  init_refs st.

(** [bootinfo] is an address, [m] the memory outside the bitmap and the table of counts,
    whose previous contents do not matter because both are filled first. *)
Definition memory_init (m : memory) (bootinfo : option Z) : res mem_state :=
  let info := info_at m bootinfo in
  valid ← bootinfo_validate m info;
  '(max_addr, usable) ← (match info with
                         | Some (_, i) => if (valid : bool) then scan_e820 m info (e820_count i) else Ret (0, 0)
                         | None => Ret (0, 0) end);
  let max_addr := if max_addr <? 32 * 1024 * 1024 then 32 * 1024 * 1024 else max_addr in
  let fc := max_addr / PAGE_SIZE in
  let fc := if MAX_TRACKED_FRAMES <? fc then MAX_TRACKED_FRAMES else fc in
  b ← bitmap_init (Some (replicate (Z.to_nat (MAX_TRACKED_FRAMES / 64)) 0)) fc;
  let b := mk_bitmap (Some (replicate (Z.to_nat (FRAME_BITMAP_BYTES / 8)) U64MAX)) (bit_count b) in
  b ← for_n (Z.to_nat fc) 0 (λ f b, bitmap_set b f) b;
  let st := mk_mem b (replicate (Z.to_nat MAX_TRACKED_FRAMES) 0) fc usable in
  mark_frames m bootinfo max_addr st.

(** The inner scan of the allocator: [Some j] is the first used frame of the run. *)
Definition scan_run (b : bitmap_t) (bit pages : Z) : res (option Z) :=
  c ← loop_n (Z.to_nat pages) 0 (λ j (_ : unit),
        t ← bitmap_test b (bit + j); if (t : bool) then Ret (Done j) else Ret (Next tt)) tt;
  match c with Done j => Ret (Some j) | Next _ => Ret None end.

(** Taking the run: bits set and reference counts one. *)
Definition take_run (st : mem_state) (bit pages : Z) : res mem_state :=
  for_n (Z.to_nat pages) 0 (λ j st,
    b ← bitmap_set (frames st) (bit + j);
    r ← wr (refs st) (bit + j) 1;
    Ret (set_refs (set_frames st b) r)) st.

Fixpoint alloc_loop (fuel : nat) (st : mem_state) (bit pages max_bit : Z) : res (mem_state * Z) :=
  if max_bit <? bit + pages then Ret (st, 0) else
  match fuel with
  | O => Fault Diverged
  | S k =>
      u ← scan_run (frames st) bit pages;
      match u with
      | Some j => alloc_loop k st (bit + j + 1) pages max_bit
      | None => st ← take_run st bit pages; Ret (st, bit * PAGE_SIZE)
      end
  end.

(** The address, 0 for NULL. *)
Definition memory_alloc_contiguous_pages_below (st : mem_state) (pages max_exclusive : Z) : res (mem_state * Z) :=
  if (pages =? 0) || (max_exclusive <? PAGE_SIZE) then Ret (st, 0) else
  let max_bit := max_exclusive / PAGE_SIZE in
  let max_bit := if frame_count st <? max_bit then frame_count st else max_bit in
  if max_bit <? pages then Ret (st, 0) else
  alloc_loop (Z.to_nat max_bit) st 0 pages max_bit.

Definition memory_alloc_page_below (st : mem_state) (max_exclusive : Z) : res (mem_state * Z) :=
  memory_alloc_contiguous_pages_below st 1 max_exclusive.

Definition memory_alloc_page (st : mem_state) : res (mem_state * Z) :=
  memory_alloc_page_below st MEMORY_KERNEL_DIRECT_LIMIT.

(** The checking loop: [PANIC] on a free or a shared frame. *)
Definition check_run (st : mem_state) (bit pages : Z) : res unit :=
  for_n (Z.to_nat pages) 0 (λ i (_ : unit),
    t ← bitmap_test (frames st) (bit + i);
    if negb t then Fault Panic else
    r ← rd (refs st) (bit + i);
    if negb (r =? 1) then Fault Panic else Ret tt) tt.

Definition release_run (st : mem_state) (bit pages : Z) : res mem_state :=
  for_n (Z.to_nat pages) 0 (λ i st,
    r ← wr (refs st) (bit + i) 0;
    b ← bitmap_clear (frames st) (bit + i);
    Ret (set_refs (set_frames st b) r)) st.

Definition memory_free_contiguous_pages (st : mem_state) (base pages : Z) : res mem_state :=
  if (base =? 0) || (pages =? 0) then Ret st else
  if negb (base mod PAGE_SIZE =? 0) then Ret st else
  match mul_u64 pages PAGE_SIZE with
  | None => Ret st
  | Some length =>
      if range_intersects_reserved base length then Ret st else
      let bit := base / PAGE_SIZE in
      if (frame_count st <=? bit) || (frame_count st - bit <? pages) then Ret st else
      _ ← check_run st bit pages;
      release_run st bit pages
  end.

Definition memory_free_page (st : mem_state) (page : Z) : res mem_state := memory_free_contiguous_pages st page 1.

Definition memory_ref_page (st : mem_state) (page : Z) : res (mem_state * bool) :=
  if page =? 0 then Ret (st, false) else
  if negb (page mod PAGE_SIZE =? 0) || range_intersects_reserved page PAGE_SIZE then Ret (st, false) else
  let bit := page / PAGE_SIZE in
  if frame_count st <=? bit then Ret (st, false) else
  t ← bitmap_test (frames st) bit;
  if negb t then Ret (st, false) else
  r ← rd (refs st) bit;
  if (0 <? r) && (r <? 0xffff) then refs' ← wr (refs st) bit (wrap16 (r + 1)); Ret (set_refs st refs', true)
  else Ret (st, false).

Definition memory_unref_page (st : mem_state) (page : Z) : res (mem_state * bool) :=
  if page =? 0 then Ret (st, false) else
  if negb (page mod PAGE_SIZE =? 0) || range_intersects_reserved page PAGE_SIZE then Ret (st, false) else
  let bit := page / PAGE_SIZE in
  if frame_count st <=? bit then Ret (st, false) else
  t ← bitmap_test (frames st) bit;
  if negb t then Ret (st, false) else
  r ← rd (refs st) bit;
  if r =? 0 then Ret (st, false) else
  refs' ← wr (refs st) bit (wrap16 (r - 1));
  let st := set_refs st refs' in
  r ← rd (refs st) bit;
  if r =? 0 then b ← bitmap_clear (frames st) bit; Ret (set_frames st b, true) else Ret (st, true).

Definition memory_page_refcount (st : mem_state) (page : Z) : res Z :=
  if page =? 0 then Ret 0 else
  if negb (page mod PAGE_SIZE =? 0) then Ret 0 else
  let bit := page / PAGE_SIZE in
  if frame_count st <=? bit then Ret 0 else
  t ← bitmap_test (frames st) bit;
  if (t : bool) then rd (refs st) bit else Ret 0.

Record memory_stats_t := mk_stats {
  s_total_usable : Z;
  s_free_bytes : Z;
  s_used_bytes : Z;
  s_frame_count : Z;
  s_free_frames : Z;
}.

Definition memory_get_stats (st : mem_state) : res memory_stats_t :=
  used ← bitmap_count_set (frames st);
  let free_frames := wrap64 (frame_count st - used) in
  Ret (mk_stats (total_usable st) (wrap64 (free_frames * PAGE_SIZE)) (wrap64 (used * PAGE_SIZE)) (frame_count st) free_frames).

Definition memory_selftest (st : mem_state) : res (mem_state * bool) :=
  before ← memory_get_stats st;
  '(st, a) ← memory_alloc_page st;
  '(st, b) ← memory_alloc_page st;
  '(st, c) ← memory_alloc_contiguous_pages_below st 3 (1024 * 1024 * 1024);
  let ok := negb (a =? 0) && negb (b =? 0) && negb (c =? 0) && negb (a =? b) in
  '(st, ok) ← (if ok then
      r1 ← memory_page_refcount st a;
      if negb (r1 =? 1) then Ret (st, false) else
      '(st, r) ← memory_ref_page st a;
      if negb r then Ret (st, false) else
      r2 ← memory_page_refcount st a;
      if negb (r2 =? 2) then Ret (st, false) else
      '(st, u) ← memory_unref_page st a;
      if negb u then Ret (st, false) else
      r3 ← memory_page_refcount st a;
      Ret (st, r3 =? 1)
    else Ret (st, false));
  let ok := ok && (Z.land a (PAGE_SIZE - 1) =? 0) && (Z.land b (PAGE_SIZE - 1) =? 0) && (Z.land c (PAGE_SIZE - 1) =? 0) in
  st ← (if negb (a =? 0) then memory_free_page st a else Ret st);
  st ← (if negb (b =? 0) then memory_free_page st b else Ret st);
  st ← (if negb (c =? 0) then memory_free_contiguous_pages st c 3 else Ret st);
  if negb ok then Ret (st, false) else
  after ← memory_get_stats st;
  Ret (st, (s_free_frames after =? s_free_frames before) && (s_used_bytes after =? s_used_bytes before)).

(** ** The abstract value *)

Definition rc (st : mem_state) (f : Z) : Z := default 0 (refs st !! Z.to_nat f).

(** The state stores the reference counts [c] of [n] frames: the table has them
    and the bitmap marks exactly the frames in use. *)
Record holds (st : mem_state) (n : Z) (c : Z → Z) : Prop := {
  h_bitmap : bitmap_ok (frames st);
  h_bits : bit_count (frames st) = n;
  h_count : frame_count st = n;
  h_max : 0 <= n <= MAX_TRACKED_FRAMES;
  h_table : zlen (refs st) = MAX_TRACKED_FRAMES;
  h_rc : ∀ f, 0 <= f < n → rc st f = c f;
  h_used : ∀ f, 0 <= f < n → bit_at (frames st) f = (0 <? c f);
  h_u16 : ∀ f, 0 <= f < n → 0 <= c f <= U16MAX;
}.

Definition in_run (b p f : Z) : bool := (b <=? f) && (f <? b + p).
Definition fill (c : Z → Z) (b p v : Z) : Z → Z := λ f, if in_run b p f then v else c f.

Lemma in_run_spec b p f : BoolSpec (b ≤ f < b + p) (¬ (b ≤ f < b + p)) (in_run b p f).
Proof. unfold in_run. destruct (Z.leb_spec b f), (Z.ltb_spec f (b + p)); constructor; lia. Qed.

Lemma rd_rc st n c f : holds st n c → 0 ≤ f < n → rd (refs st) f = Ret (c f).
Proof.
  intros Hh Hf. apply rd_Ret. split; [lia |]. rewrite <- (h_rc _ _ _ Hh f Hf). unfold rc.
  pose proof (h_table _ _ _ Hh) as Ht. pose proof (h_max _ _ _ Hh).
  destruct (lookup_lt_is_Some_2 (refs st) (Z.to_nat f)) as [v ->]; [unfold zlen in *; lia | done].
Qed.

Lemma test_rc st n c f : holds st n c → 0 ≤ f < n → bitmap_test (frames st) f = Ret (0 <? c f).
Proof.
  intros Hh Hf. rewrite bitmap_test_spec by (apply Hh || lia). by rewrite (h_used _ _ _ Hh).
Qed.

Lemma holds_ext st n c c' : (∀ f, 0 ≤ f < n → c f = c' f) → holds st n c → holds st n c'.
Proof. intros He []; split; try done; intros f Hf; rewrite <- He by done; auto. Qed.

(** Changing one frame: the count in the table and the bit in the bitmap. *)
Lemma holds_update st n c i v bm :
  holds st n c → 0 ≤ i < n → 0 ≤ v ≤ U16MAX → bitmap_ok bm → bit_count bm = n →
  (∀ j, 0 ≤ j → bit_at bm j = if j =? i then 0 <? v else bit_at (frames st) j) →
  holds (mk_mem bm (<[Z.to_nat i := v]> (refs st)) (frame_count st) (total_usable st)) n (fill c i 1 v).
Proof.
  intros Hh Hi Hv Hb Hn Hbit. pose proof (h_table _ _ _ Hh) as Ht. pose proof (h_max _ _ _ Hh).
  destruct Hh. split; cbn [frames refs frame_count]; try done.
  - by rewrite zlen_insert.
  - intros f Hf. unfold rc, fill. cbn [refs]. destruct (in_run_spec i 1 f).
    + replace f with i by lia. rewrite list_lookup_insert_eq; [done |]. unfold zlen in *; lia.
    + rewrite list_lookup_insert_ne by lia. by apply h_rc0.
  - intros f Hf. rewrite Hbit by lia. unfold fill. destruct (in_run_spec i 1 f), (Z.eqb_spec f i); try lia; auto.
  - intros f Hf. unfold fill. destruct (in_run_spec i 1 f); auto.
Qed.

Lemma take_run_spec st n c b p :
  holds st n c → 0 ≤ b → 0 ≤ p → b + p ≤ n →
  ∃ st', take_run st b p = Ret st' ∧ holds st' n (fill c b p 1) ∧ total_usable st' = total_usable st.
Proof.
  intros Hh Hb Hp Hn. unfold take_run.
  destruct (for_n_inv (λ j s, holds s n (fill c b j 1) ∧ total_usable s = total_usable st)
    (λ j st, bm ← bitmap_set (frames st) (b + j); r ← wr (refs st) (b + j) 1; Ret (set_refs (set_frames st bm) r))
    (Z.to_nat p) 0 st) as (st' & -> & H).
  - split; [| done]. eapply holds_ext; [| done]. intros f _. unfold fill. destruct (in_run_spec b 0 f); [lia | done].
  - intros j s Hj [Hs Hu]. pose proof (h_table _ _ _ Hs). pose proof (h_max _ _ _ Hs).
    destruct (bitmap_set_spec (frames s) (b + j)) as (bm & -> & H1 & H2 & H3); [apply Hs | lia |].
    mred. rewrite wr_inbounds by lia. mred. eexists. split; [done |]. split; [| done].
    assert (Hbits := h_bits _ _ _ Hs).
    eapply holds_ext; [| apply (holds_update _ _ _ (b + j) 1 bm Hs); [lia | unfold U16MAX; lia | done | lia |]].
    + intros f Hf. unfold fill. destruct (in_run_spec (b + j) 1 f), (in_run_spec b j f), (in_run_spec b (j + 1) f); done || lia.
    + intros k Hk. rewrite H3 by done. by destruct (Z.ltb_spec (b + j) (bit_count (frames s))); [| lia].
  - rewrite Z.add_0_l, Z2Nat.id in H by done. by exists st'.
Qed.

Lemma release_run_spec st n c b p :
  holds st n c → 0 ≤ b → 0 ≤ p → b + p ≤ n →
  ∃ st', release_run st b p = Ret st' ∧ holds st' n (fill c b p 0) ∧ total_usable st' = total_usable st.
Proof.
  intros Hh Hb Hp Hn. unfold release_run.
  destruct (for_n_inv (λ j s, holds s n (fill c b j 0) ∧ total_usable s = total_usable st)
    (λ j st, r ← wr (refs st) (b + j) 0; bm ← bitmap_clear (frames st) (b + j); Ret (set_refs (set_frames st bm) r))
    (Z.to_nat p) 0 st) as (st' & -> & H).
  - split; [| done]. eapply holds_ext; [| done]. intros f _. unfold fill. destruct (in_run_spec b 0 f); [lia | done].
  - intros j s Hj [Hs Hu]. pose proof (h_table _ _ _ Hs). pose proof (h_max _ _ _ Hs).
    rewrite wr_inbounds by lia. mred.
    destruct (bitmap_clear_spec (frames s) (b + j)) as (bm & -> & H1 & H2 & H3); [apply Hs | lia |].
    mred. eexists. split; [done |]. split; [| done]. assert (Hbits := h_bits _ _ _ Hs).
    eapply holds_ext; [| apply (holds_update _ _ _ (b + j) 0 bm Hs); [lia | unfold U16MAX; lia | done | lia | done]].
    intros f Hf. unfold fill. destruct (in_run_spec (b + j) 1 f), (in_run_spec b j f), (in_run_spec b (j + 1) f); done || lia.
  - rewrite Z.add_0_l, Z2Nat.id in H by done. by exists st'.
Qed.

(** ** Allocation: first fit, and complete *)

Definition free_run (c : Z → Z) (b p : Z) : Prop := ∀ f, b ≤ f < b + p → c f = 0.

Lemma scan_run_spec st n c b p :
  holds st n c → 0 ≤ b → 0 ≤ p → b + p ≤ n →
  ∃ u, scan_run (frames st) b p = Ret u ∧
    match u with Some j => 0 ≤ j < p ∧ c (b + j) ≠ 0 | None => free_run c b p end.
Proof.
  intros Hh Hb Hp Hn. unfold scan_run.
  destruct (loop_n_inv (λ j (_ : unit), free_run c b j) (λ j, 0 ≤ j < p ∧ c (b + j) ≠ 0)
    (λ j (_ : unit), t ← bitmap_test (frames st) (b + j); if (t : bool) then Ret (Done j) else Ret (Next tt))
    (Z.to_nat p) 0 tt) as [(s & -> & H) | (j & -> & H)].
  - intros f Hf. lia.
  - intros j [] Hj Hr. rewrite (test_rc _ _ _ _ Hh) by lia. mred.
    destruct (Z.ltb_spec 0 (c (b + j))) as [|Hz]; [right; exists j; split; [done |]; lia | left].
    exists tt. split; [done |]. intros f Hf. pose proof (h_u16 _ _ _ Hh f). destruct (decide (f = b + j)) as [->|]; [lia |].
    apply Hr. lia.
  - exists None. rewrite Z.add_0_l, Z2Nat.id in H by done. done.
  - by exists (Some j).
Qed.

Lemma alloc_loop_spec fuel st n c b p m :
  holds st n c → 0 ≤ b → 0 < p → m ≤ n → m - b ≤ Z.of_nat fuel →
  (∀ b', 0 ≤ b' < b → ¬ free_run c b' p) →
  ∃ st' r, alloc_loop fuel st b p m = Ret (st', r) ∧
    ((r = 0 ∧ st' = st ∧ ∀ b', 0 ≤ b' → b' + p ≤ m → ¬ free_run c b' p) ∨
     ∃ b', r = b' * PAGE_SIZE ∧ 0 ≤ b' ∧ b' + p ≤ m ∧ free_run c b' p ∧ (∀ b'', 0 ≤ b'' < b' → ¬ free_run c b'' p) ∧
           holds st' n (fill c b' p 1) ∧ total_usable st' = total_usable st).
Proof.
  intros Hh. revert b. induction fuel as [|k IH]; intros b Hb Hp Hm Hf Hno; simpl.
  { destruct (Z.ltb_spec m (b + p)); [| lia]. exists st, 0. split; [done |]. left. split_and!; [done.. |].
    intros b' H1 H2. apply Hno. lia. }
  destruct (Z.ltb_spec m (b + p)).
  { exists st, 0. split; [done |]. left. split_and!; [done.. |]. intros b' H1 H2. apply Hno. lia. }
  destruct (scan_run_spec st n c b p) as ([j|] & -> & Hu); [done || lia.. | |]; mred.
  - apply IH; [lia.. |]. intros b' Hb' Hr. destruct (decide (b' < b)); [by apply (Hno b'); [lia |] |].
    apply (proj2 Hu), Hr. lia.
  - destruct (take_run_spec st n c b p) as (st' & -> & H1 & H2); [done || lia.. |]. mred.
    exists st', (b * PAGE_SIZE). split; [done |]. right. exists b. split_and!; done.
Qed.

Lemma alloc_spec st n c p limit :
  holds st n c → 0 ≤ p → 0 ≤ limit →
  ∃ st' r, memory_alloc_contiguous_pages_below st p limit = Ret (st', r) ∧
    ((r = 0 ∧ st' = st ∧ (p = 0 ∨ ∀ b, 0 ≤ b → (b + p) * PAGE_SIZE ≤ limit → b + p ≤ n → ¬ free_run c b p)) ∨
     ∃ b, p ≠ 0 ∧ r = b * PAGE_SIZE ∧ 0 ≤ b ∧ (b + p) * PAGE_SIZE ≤ limit ∧ b + p ≤ n ∧ free_run c b p ∧
          (∀ b', 0 ≤ b' < b → ¬ free_run c b' p) ∧
          holds st' n (fill c b p 1) ∧ total_usable st' = total_usable st).
Proof.
  intros Hh Hp Hl. unfold memory_alloc_contiguous_pages_below, PAGE_SIZE in *.
  pose proof (Z.div_mod limit 4096 ltac:(lia)) as Hd. pose proof (Z.mod_pos_bound limit 4096 ltac:(lia)) as Hd2.
  destruct (Z.eqb_spec p 0) as [|Hp0]; [by exists st, 0; split; [done |]; left; eauto |]. simpl orb.
  destruct (Z.ltb_spec limit 4096).
  { exists st, 0. split; [done |]. left. split_and!; [done.. |]. right. lia. }
  rewrite (h_count _ _ _ Hh). set (m := if n <? limit / 4096 then n else limit / 4096).
  assert (Hm : m = Z.min n (limit / 4096)) by (subst m; destruct (Z.ltb_spec n (limit / 4096)); lia).
  clearbody m. pose proof (h_max _ _ _ Hh).
  destruct (Z.ltb_spec m p).
  { exists st, 0. split; [done |]. left. split_and!; [done.. |]. right. lia. }
  destruct (alloc_loop_spec (Z.to_nat m) st n c 0 p m) as (st' & r & E & [(-> & -> & Hno) | (b & Hb)]); [done || lia.. | |].
  - exists st, 0. split; [done |]. left. split_and!; [done.. |]. right. intros b ? ? ?. apply Hno; lia.
  - exists st', r. split; [done |]. right. exists b. unfold PAGE_SIZE in Hb. destruct Hb as (-> & ? & ? & ? & ? & ? & ?).
    split_and!; done || lia.
Qed.

(** ** Reserved ranges *)

Context (kernel_range : 0 <= kernel_start <= kernel_end).
Context (kernel_u64 : kernel_end <= U64MAX).

(** The bytes that hold the kernel, the low 2 MiB and the allocator's tables. *)
Definition reserved_byte (a : Z) : Prop :=
  0 ≤ a < 0x200000 ∨ kernel_start ≤ a < kernel_end ∨
  FRAME_REFCOUNT_PHYS ≤ a < FRAME_REFCOUNT_PHYS + FRAME_REFCOUNT_BYTES.

Lemma ranges_overlap_u64_spec a l b k :
  0 ≤ a → 0 ≤ l → 0 ≤ b → 0 ≤ k → a + l ≤ U64MAX → b + k ≤ U64MAX →
  BoolSpec (∃ x, a ≤ x < a + l ∧ b ≤ x < b + k) (∀ x, a ≤ x < a + l → ¬ (b ≤ x < b + k)) (ranges_overlap_u64 a l b k).
Proof.
  intros Ha Hl Hb Hk H1 H2. unfold ranges_overlap_u64, range_end_checked, add_u64.
  destruct (Z.eqb_spec l 0); [constructor; lia |].
  rewrite (proj2 (Z.leb_le (a + l) U64MAX)) by done.
  destruct (Z.leb_spec a (a + l)); [| lia].
  destruct (Z.eqb_spec k 0); [constructor; lia |].
  rewrite (proj2 (Z.leb_le (b + k) U64MAX)) by done.
  destruct (Z.leb_spec b (b + k)); [| lia].
  destruct (Z.ltb_spec a (b + k)), (Z.ltb_spec b (a + l)); constructor; try lia.
  exists (Z.max a b). lia.
Qed.

Lemma range_intersects_reserved_spec base l :
  0 ≤ base → 0 < l → base + l ≤ U64MAX →
  BoolSpec (∃ x, base ≤ x < base + l ∧ reserved_byte x) (∀ x, base ≤ x < base + l → ¬ reserved_byte x)
    (range_intersects_reserved base l).
Proof.
  intros Hb Hl Hmax. unfold range_intersects_reserved, reserved_byte.
  rewrite (wrap_small 64) by (unfold U64MAX in *; lia).
  destruct (Z.eqb_spec l 0); [lia |].
  destruct (ranges_overlap_u64_spec base l 0 0x200000) as [(x & ? & ?)|H1]; [unfold U64MAX in *; lia.. | |].
  { constructor. exists x. lia. }
  destruct (ranges_overlap_u64_spec base l kernel_start (kernel_end - kernel_start)) as [(x & ? & ?)|H2]; [unfold U64MAX in *; lia.. | |].
  { constructor. exists x. lia. }
  change FRAME_BITMAP_BYTES with 131072. change FRAME_REFCOUNT_BYTES with 2097152. unfold FRAME_BITMAP_PHYS, FRAME_REFCOUNT_PHYS.
  destruct (ranges_overlap_u64_spec base l 0x100000 131072) as [(x & ? & ?)|H3]; [unfold U64MAX in *; lia.. | |].
  { constructor. exists x. lia. }
  destruct (ranges_overlap_u64_spec base l 0x400000 2097152) as [(x & ? & ?)|H4]; [unfold U64MAX in *; lia.. | |].
  { constructor. exists x. lia. }
  constructor. intros x Hx. specialize (H1 x Hx); specialize (H2 x Hx); specialize (H4 x Hx). lia.
Qed.

(** A page-aligned run of tracked frames without a reserved byte: what [free],
    [ref] and [unref] act on. *)
Definition valid_run (n base p : Z) : Prop :=
  base ≠ 0 ∧ p ≠ 0 ∧ base mod PAGE_SIZE = 0 ∧ base / PAGE_SIZE + p ≤ n ∧
  ∀ x, base ≤ x < base + p * PAGE_SIZE → ¬ reserved_byte x.

(** The guard of the three functions decides [valid_run]. *)
Definition run_guard (n base p : Z) : bool :=
  negb ((base =? 0) || (p =? 0)) && (base mod PAGE_SIZE =? 0) &&
  match mul_u64 p PAGE_SIZE with
  | None => false
  | Some l => negb (range_intersects_reserved base l) && negb ((n <=? base / PAGE_SIZE) || (n - base / PAGE_SIZE <? p))
  end.

Lemma run_guard_spec n base p :
  n ≤ MAX_TRACKED_FRAMES → 0 ≤ base → 0 ≤ p → BoolSpec (valid_run n base p) (¬ valid_run n base p) (run_guard n base p).
Proof.
  intros Hn Hb Hp. unfold run_guard, valid_run, PAGE_SIZE in *. change MAX_TRACKED_FRAMES with 1048576 in Hn.
  pose proof (Z.div_mod base 4096 ltac:(lia)). pose proof (Z.mod_pos_bound base 4096 ltac:(lia)).
  destruct (Z.eqb_spec base 0); [constructor; by intros (? & _) |].
  destruct (Z.eqb_spec p 0); [constructor; by intros (_ & ? & _) |].
  destruct (Z.eqb_spec (base mod 4096) 0); [| constructor; by intros (_ & _ & ? & _)].
  simpl andb. destruct (mul_u64 p 4096) as [l|] eqn:El.
  - apply mul_u64_Some in El as [Hl ->].
    destruct (Z.leb_spec n (base / 4096)) as [|H1]; [rewrite andb_false_r; constructor; lia |].
    destruct (Z.ltb_spec (n - base / 4096) p) as [|H2]; [rewrite andb_false_r; constructor; lia |].
    destruct (range_intersects_reserved_spec base (p * 4096)) as [(x & Hx & Hr)|H3]; [unfold U64MAX; lia.. | |]; constructor.
    + intros (_ & _ & _ & _ & H3). exact (H3 x Hx Hr).
    + split_and!; done || lia.
  - constructor. unfold mul_u64 in El. destruct (Z.leb_spec (p * 4096) U64MAX); [done |]. unfold U64MAX in *. lia.
Qed.

Lemma for_n_check (g : Z → bool) (f : Z → unit → res unit) k i e :
  (∀ j, i ≤ j < i + Z.of_nat k → f j tt = if g j then Ret tt else Fault e) →
  (for_n k i f tt = Ret tt ∧ ∀ j, i ≤ j < i + Z.of_nat k → g j = true) ∨
  (for_n k i f tt = Fault e ∧ ∃ j, i ≤ j < i + Z.of_nat k ∧ g j = false).
Proof.
  revert i. induction k as [|k IH]; intros i Hf; cbn [for_n]; [left; split; [done | lia] |].
  rewrite Hf by lia. destruct (g i) eqn:Eg; [| by right; split; [done |]; exists i; split; [lia |]].
  mred. destruct (IH (i + 1)) as [[-> H]|(-> & j & Hj & H)]; [intros j Hj; apply Hf; lia | left | right].
  - split; [done |]. intros j Hj. destruct (decide (j = i)) as [->|]; [done |]. apply H. lia.
  - split; [done |]. exists j. split; [lia | done].
Qed.

Lemma check_run_spec st n c b p :
  holds st n c → 0 ≤ b → 0 ≤ p → b + p ≤ n →
  (check_run st b p = Ret tt ∧ ∀ f, b ≤ f < b + p → c f = 1) ∨
  (check_run st b p = Fault Panic ∧ ∃ f, b ≤ f < b + p ∧ c f ≠ 1).
Proof.
  intros Hh Hb Hp Hn. unfold check_run.
  edestruct (for_n_check (λ j, c (b + j) =? 1)) as [[-> H]|(-> & j & Hj & H)]; [| left | right].
  - intros j Hj. cbn beta. rewrite Z.add_0_l, Z2Nat.id in Hj by done. rewrite (test_rc _ _ _ _ Hh) by lia. mred. rewrite (rd_rc _ _ _ _ Hh) by lia.
    destruct (Z.ltb_spec 0 (c (b + j))); cbn [negb]; mred; destruct (Z.eqb_spec (c (b + j)) 1); done || lia.
  - split; [done |]. intros f Hf. replace f with (b + (f - b)) by lia. apply Z.eqb_eq, H. lia.
  - split; [done |]. exists (b + j). split; [lia |]. by apply Z.eqb_neq.
Qed.

(** ** The abstract machine *)

Inductive mem_op :=
  | OpAlloc (pages limit : Z)
  | OpFree (base pages : Z)
  | OpRef (page : Z)
  | OpUnref (page : Z).

(** One call and what it returns: the address, or the boolean as 0 or 1. *)
Definition mem_step (st : mem_state) (o : mem_op) : res (mem_state * Z) :=
  match o with
  | OpAlloc p l => memory_alloc_contiguous_pages_below st p l
  | OpFree b p => st ← memory_free_contiguous_pages st b p; Ret (st, 0)
  | OpRef a => '(st, ok) ← memory_ref_page st a; Ret (st, Z.b2z ok)
  | OpUnref a => '(st, ok) ← memory_unref_page st a; Ret (st, Z.b2z ok)
  end.

Definition op_ok (o : mem_op) : Prop :=
  match o with OpAlloc p l => 0 ≤ p ∧ 0 ≤ l | OpFree b p => 0 ≤ b ∧ 0 ≤ p | OpRef a | OpUnref a => 0 ≤ a end.

(** What a call may do to the counts [c] of [n] frames; [None] is the panic. *)
Inductive abs_step (n : Z) (c : Z → Z) : mem_op → option (Z * (Z → Z)) → Prop :=
  | abs_alloc p l b :
      p ≠ 0 → 0 ≤ b → (b + p) * PAGE_SIZE ≤ l → b + p ≤ n → free_run c b p →
      (∀ b', 0 ≤ b' < b → ¬ free_run c b' p) →
      abs_step n c (OpAlloc p l) (Some (b * PAGE_SIZE, fill c b p 1))
  | abs_alloc_fail p l :
      p = 0 ∨ (∀ b, 0 ≤ b → (b + p) * PAGE_SIZE ≤ l → b + p ≤ n → ¬ free_run c b p) →
      abs_step n c (OpAlloc p l) (Some (0, c))
  | abs_free base p :
      valid_run n base p → (∀ f, base / PAGE_SIZE ≤ f < base / PAGE_SIZE + p → c f = 1) →
      abs_step n c (OpFree base p) (Some (0, fill c (base / PAGE_SIZE) p 0))
  | abs_free_panic base p f :
      valid_run n base p → base / PAGE_SIZE ≤ f < base / PAGE_SIZE + p → c f ≠ 1 →
      abs_step n c (OpFree base p) None
  | abs_free_ignored base p : ¬ valid_run n base p → abs_step n c (OpFree base p) (Some (0, c))
  | abs_ref a :
      valid_run n a 1 → 0 < c (a / PAGE_SIZE) < U16MAX →
      abs_step n c (OpRef a) (Some (1, fill c (a / PAGE_SIZE) 1 (c (a / PAGE_SIZE) + 1)))
  | abs_ref_refused a :
      ¬ valid_run n a 1 ∨ ¬ (0 < c (a / PAGE_SIZE) < U16MAX) → abs_step n c (OpRef a) (Some (0, c))
  | abs_unref a :
      valid_run n a 1 → 0 < c (a / PAGE_SIZE) →
      abs_step n c (OpUnref a) (Some (1, fill c (a / PAGE_SIZE) 1 (c (a / PAGE_SIZE) - 1)))
  | abs_unref_refused a :
      ¬ valid_run n a 1 ∨ c (a / PAGE_SIZE) = 0 → abs_step n c (OpUnref a) (Some (0, c)).

(** The concrete outcome matches the abstract one. *)
Definition matches (n : Z) (m : res (mem_state * Z)) (o : option (Z * (Z → Z))) : Prop :=
  match m, o with
  | Ret (st, r), Some (r', c) => r = r' ∧ holds st n c
  | Fault Panic, None => True
  | _, _ => False
  end.

Lemma free_step st n c base p :
  holds st n c → 0 ≤ base → 0 ≤ p →
  ∃ o, abs_step n c (OpFree base p) o ∧ matches n (mem_step st (OpFree base p)) o.
Proof.
  intros Hh Hb Hp. pose proof (h_max _ _ _ Hh) as Hm.
  assert (E : memory_free_contiguous_pages st base p =
    if run_guard n base p then _ ← check_run st (base / PAGE_SIZE) p; release_run st (base / PAGE_SIZE) p else Ret st).
  { unfold memory_free_contiguous_pages, run_guard. rewrite (h_count _ _ _ Hh).
    destruct ((base =? 0) || (p =? 0)); [done |]. destruct (base mod PAGE_SIZE =? 0); [| done]. cbn [negb andb].
    destruct (mul_u64 p PAGE_SIZE); [| done]. destruct (range_intersects_reserved base z); [done |]. cbn [negb andb].
    by destruct ((n <=? base / PAGE_SIZE) || (n - base / PAGE_SIZE <? p)). }
  cbn [mem_step]. rewrite E. clear E.
  destruct (run_guard_spec n base p) as [Hv|Hv]; [lia.. | |].
  2: { exists (Some (0, c)). split; [by apply abs_free_ignored | done]. }
  pose proof Hv as (_ & _ & _ & H4 & _).
  assert (0 ≤ base / PAGE_SIZE) by (apply Z.div_pos; unfold PAGE_SIZE; lia).
  destruct (check_run_spec st n c (base / PAGE_SIZE) p) as [[-> H1]|(-> & f & H1 & H2)]; [done || lia.. | |]; mred.
  - destruct (release_run_spec st n c (base / PAGE_SIZE) p) as (st' & -> & H2 & _); [done || lia.. |]. mred.
    eexists. split; [by apply abs_free | done].
  - exists None. split; [by eapply abs_free_panic | done].
Qed.

(** The guard of [memory_ref_page] and [memory_unref_page] is the one-page case. *)
Lemma page_guard {A} n a (x y : A) :
  (if a =? 0 then x else
   if negb (a mod PAGE_SIZE =? 0) || range_intersects_reserved a PAGE_SIZE then x else
   if n <=? a / PAGE_SIZE then x else y) = if run_guard n a 1 then y else x.
Proof.
  unfold run_guard. change (mul_u64 1 PAGE_SIZE) with (Some PAGE_SIZE).
  destruct (a =? 0); [done |]. cbn [orb negb andb Z.eqb]. destruct (a mod PAGE_SIZE =? 0); [| done]. cbn [negb orb andb].
  destruct (range_intersects_reserved a PAGE_SIZE); [done |]. cbn [negb andb].
  destruct (Z.leb_spec n (a / PAGE_SIZE)), (Z.ltb_spec (n - a / PAGE_SIZE) 1); done || lia.
Qed.

Lemma valid_run_index n a : 0 ≤ a → valid_run n a 1 → 0 ≤ a / PAGE_SIZE < n.
Proof. intros Ha (_ & _ & _ & H & _). split; [apply Z.div_pos; [done | unfold PAGE_SIZE; lia] | lia]. Qed.

Lemma ref_step st n c a :
  holds st n c → 0 ≤ a → ∃ o, abs_step n c (OpRef a) o ∧ matches n (mem_step st (OpRef a)) o.
Proof.
  intros Hh Ha. pose proof (h_max _ _ _ Hh) as Hm. cbn [mem_step]. unfold memory_ref_page. cbv zeta.
  rewrite (h_count _ _ _ Hh), page_guard.
  destruct (run_guard_spec n a 1) as [Hv|Hv]; [lia.. | |].
  2: { exists (Some (0, c)). split; [apply abs_ref_refused; by left | done]. }
  pose proof (valid_run_index _ _ Ha Hv) as Hi. set (f := a / PAGE_SIZE) in *.
  rewrite (test_rc _ _ _ _ Hh), (rd_rc _ _ _ _ Hh) by lia. mred. pose proof (h_u16 _ _ _ Hh f Hi) as Hu. unfold U16MAX in Hu.
  assert (Hno : ¬ (0 < c f < U16MAX) → ∃ o, abs_step n c (OpRef a) o ∧ matches n (Ret (st, 0)) o).
  { intros H. exists (Some (0, c)). split; [apply abs_ref_refused; by right | done]. }
  unfold U16MAX in Hno.
  destruct (Z.ltb_spec 0 (c f)); cbn [negb andb]; [| apply Hno; lia].
  destruct (Z.ltb_spec (c f) 65535); [| apply Hno; lia].
  rewrite wr_inbounds by (rewrite (h_table _ _ _ Hh); lia). mred. rewrite (wrap_small 16) by lia.
  eexists. split; [apply abs_ref; [done | fold f; unfold U16MAX; lia] |]. split; [done |].
  apply (holds_update _ _ _ f _ _ Hh); [done | unfold U16MAX; lia | apply Hh | apply Hh |].
  intros j Hj. destruct (Z.eqb_spec j f) as [->|]; [| done]. rewrite (h_used _ _ _ Hh) by lia.
  destruct (Z.ltb_spec 0 (c f)), (Z.ltb_spec 0 (c f + 1)); done || lia.
Qed.

Lemma unref_step st n c a :
  holds st n c → 0 ≤ a → ∃ o, abs_step n c (OpUnref a) o ∧ matches n (mem_step st (OpUnref a)) o.
Proof.
  intros Hh Ha. pose proof (h_max _ _ _ Hh) as Hm. cbn [mem_step]. unfold memory_unref_page. cbv zeta.
  rewrite (h_count _ _ _ Hh), page_guard.
  destruct (run_guard_spec n a 1) as [Hv|Hv]; [lia.. | |].
  2: { exists (Some (0, c)). split; [apply abs_unref_refused; by left | done]. }
  pose proof (valid_run_index _ _ Ha Hv) as Hi. set (f := a / PAGE_SIZE) in *.
  rewrite (test_rc _ _ _ _ Hh), (rd_rc _ _ _ _ Hh) by lia. mred. pose proof (h_u16 _ _ _ Hh f Hi) as Hu. unfold U16MAX in Hu.
  destruct (Z.ltb_spec 0 (c f)); cbn [negb].
  2: { exists (Some (0, c)). split; [apply abs_unref_refused; right; unfold f in *; lia | done]. }
  destruct (Z.eqb_spec (c f) 0); [lia |].
  rewrite wr_inbounds by (rewrite (h_table _ _ _ Hh); lia). mred. rewrite (wrap_small 16) by lia.
  cbn [refs set_refs frames]. rewrite (proj2 (rd_Ret _ f (c f - 1))).
  2: { split; [lia |]. apply list_lookup_insert_eq. pose proof (h_table _ _ _ Hh). unfold zlen in *. lia. }
  mred. eassert (Hs : abs_step n c (OpUnref a) (Some (1, _))) by (apply abs_unref; [done | fold f; lia]).
  fold f in Hs. destruct (Z.eqb_spec (c f - 1) 0) as [E|E].
  - destruct (bitmap_clear_spec (frames st) f) as (bm & -> & H1 & H2 & H3); [apply Hh | lia |]. mred.
    eexists. split; [exact Hs |]. split; [done |]. rewrite E.
    apply (holds_update _ _ _ f 0 bm Hh); [done | unfold U16MAX; lia | done | by rewrite H2; apply Hh | done].
  - eexists. split; [exact Hs |]. split; [done |].
    apply (holds_update _ _ _ f _ _ Hh); [done | unfold U16MAX; lia | apply Hh | apply Hh |].
    intros j Hj. destruct (Z.eqb_spec j f) as [->|]; [| done]. rewrite (h_used _ _ _ Hh) by lia.
    destruct (Z.ltb_spec 0 (c f)), (Z.ltb_spec 0 (c f - 1)); done || lia.
Qed.

Lemma mem_step_refines st n c o :
  holds st n c → op_ok o → ∃ r, abs_step n c o r ∧ matches n (mem_step st o) r.
Proof.
  intros Hh Ho. destruct o as [p l|b p|a|a]; simpl in Ho;
    [| destruct Ho; by apply free_step | by apply ref_step | by apply unref_step].
  destruct Ho.
  cbn [mem_step].
  destruct (alloc_spec st n c p l) as (st' & r & -> & [(-> & -> & ?)|(b & ? & -> & ? & ? & ? & ? & ? & ? & _)]);
    [done || lia.. | |].
  - eexists. by split; [apply abs_alloc_fail |].
  - eexists. by split; [apply abs_alloc |].
Qed.

(** The frames that hold a reserved byte are in use. *)
Definition reserved_used (n : Z) (c : Z → Z) : Prop :=
  ∀ f x, 0 ≤ f < n → f * PAGE_SIZE ≤ x < (f + 1) * PAGE_SIZE → reserved_byte x → 0 < c f.

Lemma valid_run_not_reserved n a p f x :
  0 ≤ a → valid_run n a p → a / PAGE_SIZE ≤ f < a / PAGE_SIZE + p → f * PAGE_SIZE ≤ x < (f + 1) * PAGE_SIZE → ¬ reserved_byte x.
Proof.
  intros Ha (_ & _ & Hm & _ & H) Hf Hx. apply H. unfold PAGE_SIZE in *.
  pose proof (Z.div_mod a 4096 ltac:(lia)). lia.
Qed.

Lemma abs_step_reserved n c o r c' :
  op_ok o → reserved_used n c → abs_step n c o (Some (r, c')) → reserved_used n c'.
Proof.
  intros Ho Hr Hs f x Hf Hx Hb. specialize (Hr f x Hf Hx Hb).
  inversion Hs; subst; simpl in Ho; try done; unfold fill.
  - destruct (in_run_spec b p f); [lia | done].
  - destruct (in_run_spec (base / PAGE_SIZE) p f); [| done].
    by destruct (valid_run_not_reserved n base p f x); [lia | ..].
  - destruct (in_run_spec (a / PAGE_SIZE) 1 f); [lia | done].
  - destruct (in_run_spec (a / PAGE_SIZE) 1 f); [| done].
    by destruct (valid_run_not_reserved n a 1 f x).
Qed.

Fixpoint mem_run (st : mem_state) (ops : list mem_op) : res (mem_state * list Z) :=
  match ops with
  | [] => Ret (st, [])
  | o :: ops => '(st, r) ← mem_step st o; '(st, rs) ← mem_run st ops; Ret (st, r :: rs)
  end.

(** A sequence of calls; [None] when one of them panics. *)
Inductive abs_run (n : Z) : (Z → Z) → list mem_op → option (list Z * (Z → Z)) → Prop :=
  | abs_run_nil c : abs_run n c [] (Some ([], c))
  | abs_run_cons c o r c' ops rs c'' :
      abs_step n c o (Some (r, c')) → abs_run n c' ops (Some (rs, c'')) → abs_run n c (o :: ops) (Some (r :: rs, c''))
  | abs_run_panic c o ops : abs_step n c o None → abs_run n c (o :: ops) None
  | abs_run_later c o r c' ops :
      abs_step n c o (Some (r, c')) → abs_run n c' ops None → abs_run n c (o :: ops) None.

(** C2: the frame allocator implements a table of reference counts.  Any
    sequence of [memory_alloc_contiguous_pages_below], [memory_free_contiguous_pages],
    [memory_ref_page] and [memory_unref_page] returns what the abstract machine
    returns (first fit, refusals included) and ends with its counts, or panics
    exactly where the abstract machine finds a run with a free or a shared frame;
    it never reads or writes outside the two tables and always terminates.
    Frames with a reserved byte stay in use throughout. *)
Theorem frames_refine_refcounts st n c ops :
  holds st n c → reserved_used n c → Forall op_ok ops →
  match mem_run st ops with
  | Ret (st', rs) => ∃ c', abs_run n c ops (Some (rs, c')) ∧ holds st' n c' ∧ reserved_used n c'
  | Fault Panic => abs_run n c ops None
  | Fault _ => False
  end.
Proof.
  intros Hh Hr Hops. revert st c Hh Hr. induction Hops as [|o ops Ho Hops IH]; intros st c Hh Hr; cbn [mem_run].
  { exists c. split; [constructor | done]. }
  destruct (mem_step_refines st n c o Hh Ho) as (r & Hs & Hm). unfold matches in Hm.
  destruct (mem_step st o) as [[st1 z]|[]], r as [[z' c1]|]; try done; mred; [| by apply abs_run_panic].
  destruct Hm as [-> H1]. pose proof (abs_step_reserved n c o _ _ Ho Hr Hs) as Hr1.
  specialize (IH st1 c1 H1 Hr1). destruct (mem_run st1 ops) as [[st2 rs]|[]]; mred; try done.
  - destruct IH as (c' & ? & ?). exists c'. split; [by eapply abs_run_cons | done].
  - by eapply abs_run_later.
Qed.

(** An allocation is a page-aligned, non-NULL run of the requested length below
    the limit; every frame of it was unreferenced, contains no byte of the kernel,
    the low 2 MiB or the allocator's own tables, and now has one reference; no
    other count changes; it is the lowest such run; and NULL is returned only when
    no such run exists (or for zero pages), leaving the state as it was. *)
Theorem memory_alloc_correct st n c p limit :
  holds st n c → reserved_used n c → 0 < n → 0 ≤ p → 0 ≤ limit →
  ∃ st' r, memory_alloc_contiguous_pages_below st p limit = Ret (st', r) ∧
    if r =? 0 then st' = st ∧ (p = 0 ∨ ∀ b, 0 ≤ b → (b + p) * PAGE_SIZE ≤ limit → b + p ≤ n → ¬ free_run c b p)
    else r mod PAGE_SIZE = 0 ∧ 0 < r ∧ r + p * PAGE_SIZE ≤ limit ∧
         (∀ f, r / PAGE_SIZE ≤ f < r / PAGE_SIZE + p → 0 ≤ f < n ∧ c f = 0 ∧ rc st' f = 1) ∧
         (∀ f, 0 ≤ f < n → ¬ (r / PAGE_SIZE ≤ f < r / PAGE_SIZE + p) → rc st' f = c f) ∧
         (∀ x, r ≤ x < r + p * PAGE_SIZE → ¬ reserved_byte x) ∧
         (∀ b, 0 ≤ b < r / PAGE_SIZE → ¬ free_run c b p) ∧ holds st' n (fill c (r / PAGE_SIZE) p 1).
Proof.
  intros Hh Hr Hn Hp Hl.
  destruct (alloc_spec st n c p limit) as (st' & r & E & H); [done.. |]. exists st', r. split; [done |]. clear E.
  destruct H as [(-> & -> & H)|(b & Hp0 & -> & Hb & Hlim & Hbn & Hfree & Hlow & Hh' & _)]; [done |].
  assert (Hsafe : ∀ f x, b ≤ f < b + p → f * PAGE_SIZE ≤ x < (f + 1) * PAGE_SIZE → ¬ reserved_byte x).
  { intros f x Hf Hx Hx'. specialize (Hr f x ltac:(lia) Hx Hx'). rewrite (Hfree f Hf) in Hr. lia. }
  assert (b ≠ 0).
  { intros ->. apply (Hsafe 0 0); unfold PAGE_SIZE, reserved_byte; lia. }
  destruct (Z.eqb_spec (b * PAGE_SIZE) 0) as [|_]; [unfold PAGE_SIZE in *; lia |].
  rewrite Z.div_mul, Z_mod_mult by done. split_and!; try done; try (unfold PAGE_SIZE in *; lia).
  - intros f Hf. split; [lia |]. split; [by apply Hfree |]. rewrite (h_rc _ _ _ Hh') by lia.
    unfold fill. by destruct (in_run_spec b p f).
  - intros f Hf Hout. rewrite (h_rc _ _ _ Hh') by lia. unfold fill. by destruct (in_run_spec b p f).
  - intros x Hx. pose proof (Z.div_mod x PAGE_SIZE ltac:(done)). pose proof (Z.mod_pos_bound x PAGE_SIZE ltac:(done)).
    apply (Hsafe (x / PAGE_SIZE)); unfold PAGE_SIZE in *; lia.
Qed.

(** [memory_get_stats] and [memory_page_refcount] report the abstract value:
    the number of unreferenced frames, the rest as used bytes, and the count of
    a page. *)
Theorem memory_observers_correct st n c :
  holds st n c →
  (let free := count_true (λ f, c f =? 0) (Z.to_nat n) in
   memory_get_stats st = Ret (mk_stats (total_usable st) (free * PAGE_SIZE) ((n - free) * PAGE_SIZE) n free)) ∧
  ∀ a, 0 ≤ a → memory_page_refcount st a =
    Ret (if (a =? 0) || negb (a mod PAGE_SIZE =? 0) || (n <=? a / PAGE_SIZE) then 0 else c (a / PAGE_SIZE)).
Proof.
  intros Hh. pose proof (h_max _ _ _ Hh) as Hm. change MAX_TRACKED_FRAMES with 1048576 in Hm. split.
  - cbv zeta. unfold memory_get_stats. rewrite bitmap_count_set_spec by apply Hh. mred.
    rewrite (h_bits _ _ _ Hh), (h_count _ _ _ Hh).
    assert (Hc : count_true (bit_at (frames st)) (Z.to_nat n) + count_true (λ f, c f =? 0) (Z.to_nat n) = n).
    { rewrite (count_true_ext (bit_at (frames st)) (λ f, negb (c f =? 0))).
      - pose proof (count_true_negb (λ f, c f =? 0) (Z.to_nat n)). lia.
      - intros f Hf. rewrite (h_used _ _ _ Hh) by lia. pose proof (h_u16 _ _ _ Hh f).
        destruct (Z.ltb_spec 0 (c f)), (Z.eqb_spec (c f) 0); done || lia. }
    set (u := count_true (bit_at (frames st)) (Z.to_nat n)) in *.
    pose proof (count_true_range (bit_at (frames st)) (Z.to_nat n)) as Hu. fold u in Hu. clearbody u.
    replace (count_true (λ f, c f =? 0) (Z.to_nat n)) with (n - u) by lia.
    unfold PAGE_SIZE. rewrite (wrap_small 64 (n - u)), !(wrap_small 64) by lia. do 2 f_equal. lia.
  - intros a Ha. unfold memory_page_refcount. cbv zeta. rewrite (h_count _ _ _ Hh).
    destruct (a =? 0); [done |]. destruct (a mod PAGE_SIZE =? 0); [| done]. cbn [negb orb].
    destruct (Z.leb_spec n (a / PAGE_SIZE)); [done |].
    assert (0 ≤ a / PAGE_SIZE) by (apply Z.div_pos; [done | unfold PAGE_SIZE; lia]).
    rewrite (test_rc _ _ _ _ Hh), (rd_rc _ _ _ _ Hh) by lia. mred.
    pose proof (h_u16 _ _ _ Hh (a / PAGE_SIZE)). destruct (Z.ltb_spec 0 (c (a / PAGE_SIZE))); [done |]. f_equal. lia.
Qed.

(** ** Initialisation *)

(** Frame [f] lies inside the range; ranges that wrap contain no frame. *)
Definition frame_in (f base len : Z) : bool :=
  (base <=? f * PAGE_SIZE) && ((f + 1) * PAGE_SIZE <=? base + len) && (base + len <=? U64MAX).

(** The state while [memory_init] marks ranges. *)
Record marking (st : mem_state) (n : Z) (g : Z → bool) : Prop := {
  k_bitmap : bitmap_ok (frames st);
  k_bits : bit_count (frames st) = n;
  k_count : frame_count st = n;
  k_max : 0 <= n <= MAX_TRACKED_FRAMES;
  k_table : zlen (refs st) = MAX_TRACKED_FRAMES;
  k_used : ∀ f, 0 <= f < n → bit_at (frames st) f = g f;
}.

Lemma marking_ext st n g g' : (∀ f, 0 ≤ f < n → g f = g' f) → marking st n g → marking st n g'.
Proof. intros He []; split; try done. intros f Hf. rewrite <- He by done. auto. Qed.

(** The frames that [mark_range] visits are those inside the range. *)
Lemma mark_bounds f base len :
  is_u64 base → is_u64 len → base + len ≤ U64MAX → 0 ≤ f →
  frame_in f base len = in_run ((base + 4095) / 4096) ((base + len) / 4096 - (base + 4095) / 4096) f.
Proof.
  intros Hb Hl Hs Hf. unfold frame_in, in_run, PAGE_SIZE.
  pose proof (Z.div_mod (base + 4095) 4096 ltac:(lia)). pose proof (Z.mod_pos_bound (base + 4095) 4096 ltac:(lia)).
  pose proof (Z.div_mod (base + len) 4096 ltac:(lia)). pose proof (Z.mod_pos_bound (base + len) 4096 ltac:(lia)).
  rewrite (proj2 (Z.leb_le (base + len) U64MAX)) by done. rewrite andb_true_r.
  f_equal; apply eq_true_iff_eq; rewrite ?Z.leb_le, ?Z.ltb_lt; lia.
Qed.

Lemma mark_loop st n g s e (free : bool) :
  marking st n g → 0 ≤ s → s ≤ e ≤ n →
  ∃ b, for_n (Z.to_nat (e - s)) s (λ f b, if free then bitmap_clear b f else bitmap_set b f) (frames st) = Ret b ∧
    marking (set_frames st b) n (λ f, if in_run s (e - s) f then negb free else g f).
Proof.
  intros Hm Hs He. pose proof (k_max _ _ _ Hm) as Hmax.
  destruct (for_n_inv (λ j b, marking (set_frames st b) n (λ f, if in_run s (j - s) f then negb free else g f))
    (λ f b, if free then bitmap_clear b f else bitmap_set b f) (Z.to_nat (e - s)) s (frames st)) as (b & -> & H).
  - destruct Hm. split; try done. intros f Hf. cbn [set_frames frames].
    destruct (in_run_spec s (s - s) f); [lia | auto].
  - intros j b Hj Hb. pose proof (k_bits _ _ _ Hb) as Hbits. pose proof (k_used _ _ _ Hb) as Hu. cbn [set_frames frames] in *.
    assert (∃ b', (if free then bitmap_clear b j else bitmap_set b j) = Ret b' ∧ bitmap_ok b' ∧ bit_count b' = n ∧
      ∀ k, 0 ≤ k → bit_at b' k = if k =? j then negb free else bit_at b k) as (b' & -> & H1 & H2 & H3).
    { pose proof (k_bitmap _ _ _ Hb) as Hok. destruct free.
      - destruct (bitmap_clear_spec b j) as (b' & ? & ? & ? & ?); [done | lia |]. exists b'. split_and!; done || lia.
      - destruct (bitmap_set_spec b j) as (b' & ? & ? & ? & H); [done | lia |]. exists b'. split_and!; try done || lia.
        intros k Hk. rewrite H by done. by destruct (Z.ltb_spec j (bit_count b)); [| lia]. }
    exists b'. split; [done |]. destruct Hm. split; cbn [set_frames frames frame_count refs]; try done.
    intros f Hf. rewrite H3, Hu by lia.
    destruct (Z.eqb_spec f j), (in_run_spec s (j - s) f), (in_run_spec s (j + 1 - s) f); done || lia.
  - exists b. split; [done |]. eapply marking_ext; [| exact H]. intros f Hf. cbn beta.
    by replace (s + Z.of_nat (Z.to_nat (e - s)) - s) with (e - s) by lia.
Qed.

Lemma mark_range_spec st n g base len free :
  marking st n g → is_u64 base → is_u64 len →
  ∃ st', mark_range st base len free = Ret st' ∧
    marking st' n (λ f, if frame_in f base len then negb free else g f) ∧
    refs st' = refs st ∧ total_usable st' = total_usable st.
Proof.
  intros Hm Hb Hl. unfold mark_range. pose proof (k_max _ _ _ Hm) as Hmax. change MAX_TRACKED_FRAMES with 1048576 in Hmax.
  assert (Hskip : (∀ f, 0 ≤ f < n → frame_in f base len = false) →
    ∃ st', Ret st = Ret st' ∧ marking st' n (λ f, if frame_in f base len then negb free else g f) ∧
      refs st' = refs st ∧ total_usable st' = total_usable st).
  { intros H. exists st. split_and!; [done | | done..]. eapply marking_ext; [| done]. intros f Hf. cbn beta. by rewrite H. }
  unfold range_end_checked, add_u64. destruct (Z.eqb_spec len 0) as [->|Hl0].
  { apply Hskip. intros f Hf. unfold frame_in, PAGE_SIZE.
    destruct (Z.leb_spec base (f * 4096)), (Z.leb_spec ((f + 1) * 4096) (base + 0)); done || lia. }
  destruct (Z.leb_spec (base + len) U64MAX) as [Hs|Hs].
  2: { apply Hskip. intros f Hf. unfold frame_in. destruct (Z.leb_spec (base + len) U64MAX); [lia | apply andb_false_r]. }
  destruct (Z.leb_spec base (base + len)); [| ulia].
  change PAGE_SIZE with (2 ^ 12). rewrite align_up_u64_checked_pow2 by (done || lia).
  unfold ALIGN_DOWN. rewrite land_align_mask by (unfold is_u64, U64MAX in *; lia). change (2 ^ 12) with 4096.
  change (4096 - 1) with 4095.
  pose proof (Z.div_mod (base + 4095) 4096 ltac:(lia)). pose proof (Z.mod_pos_bound (base + 4095) 4096 ltac:(lia)).
  pose proof (Z.div_mod (base + len) 4096 ltac:(lia)). pose proof (Z.mod_pos_bound (base + len) 4096 ltac:(lia)).
  destruct (Z.leb_spec (base + 4095) U64MAX).
  2: { apply Hskip. intros f Hf. rewrite mark_bounds by (done || lia).
       destruct (in_run_spec ((base + 4095) / 4096) ((base + len) / 4096 - (base + 4095) / 4096) f); [unfold U64MAX in *; lia | done]. }
  cbv zeta. rewrite !Z.div_mul, (k_count _ _ _ Hm) by lia.
  set (s := (base + 4095) / 4096) in *. set (e := (base + len) / 4096) in *.
  destruct (Z.leb_spec n s) as [|H5]; cbn [orb].
  { apply Hskip. intros f Hf. rewrite mark_bounds by (done || lia). fold s e. destruct (in_run_spec s (e - s) f); [lia | done]. }
  destruct (Z.leb_spec e s) as [|H6].
  { apply Hskip. intros f Hf. rewrite mark_bounds by (done || lia). fold s e. destruct (in_run_spec s (e - s) f); [lia | done]. }
  set (e' := if n <? e then n else e).
  assert (He' : e' = Z.min n e) by (subst e'; destruct (Z.ltb_spec n e); lia). clearbody e'.
  destruct (mark_loop st n g s e' free Hm) as (b & -> & Hb'); [unfold is_u64 in *; lia | lia |]. mred.
  eexists. split_and!; [done | | done..]. eapply marking_ext; [| exact Hb'].
  intros f Hf. cbn beta. rewrite mark_bounds by (done || lia). fold s e.
  destruct (in_run_spec s (e' - s) f), (in_run_spec s (e - s) f); done || lia.
Qed.

Lemma ld_range (m : memory) k a v :
  (∀ x, is_u8 (m x)) → ld k m a = Ret v → 0 ≤ v < 256 ^ Z.of_nat k.
Proof.
  intros Hm. revert a v. induction k as [|k IH]; intros a v H; cbn [ld] in H; [injection H as <-; simpl; lia |].
  apply res_bind_Ret_inv in H as (b & Hb & H). apply res_bind_Ret_inv in H as (r & Hr & H). injection H as <-.
  apply IH in Hr. unfold ld8 in Hb. destruct (_ && _); [| done]. injection Hb as <-. pose proof (Hm a) as Ha. unfold is_u8 in Ha.
  rewrite Nat2Z.inj_succ, Z.pow_succ_r by lia. lia.
Qed.

Lemma ld_e820_range (m : memory) t k e : (∀ x, is_u8 (m x)) → ld_e820 m t k = Ret e → is_u64 (e_base e) ∧ is_u64 (e_length e).
Proof.
  intros Hm H. unfold ld_e820 in H. apply res_bind_Ret_inv in H as (b & Hb & H). apply res_bind_Ret_inv in H as (l & Hl & H).
  apply res_bind_Ret_inv in H as (ty & _ & H). apply res_bind_Ret_inv in H as (x & _ & H). injection H as <-.
  apply ld_range in Hb, Hl; [| done..]. done.
Qed.

Lemma ld_module_range (m : memory) t k e : (∀ x, is_u8 (m x)) → ld_module m t k = Ret e → is_u64 (m_base e) ∧ is_u64 (m_size e).
Proof.
  intros Hm H. unfold ld_module in H. apply res_bind_Ret_inv in H as (b & Hb & H). apply res_bind_Ret_inv in H as (l & Hl & H).
  apply res_bind_Ret_inv in H as (x & _ & H). injection H as <-.
  apply ld_range in Hb, Hl; [| done..]. done.
Qed.

(** Outside the bitmap and the table of counts. *)
Definition not_own (a : Z) : Prop :=
  ¬ (FRAME_BITMAP_PHYS ≤ a < FRAME_BITMAP_PHYS + FRAME_BITMAP_BYTES) ∧ ¬ (FRAME_REFCOUNT_PHYS ≤ a < FRAME_REFCOUNT_PHYS + FRAME_REFCOUNT_BYTES).

(** The boot tables: a validated structure at [p] whose memory map is [es] and
    whose modules are [mds], none of it where the allocator keeps its own tables. *)
Record boot_tables (m : memory) (p : Z) (i : rabbitbone_bootinfo_t) (es : list rabbitbone_e820_entry_t)
    (mds : list rabbitbone_boot_module_t) : Prop := {
  t_bytes : ∀ x, is_u8 (m x);
  t_info : i = bootinfo_at m p;
  t_valid : bootinfo_validate m (Some (p, i)) = Ret true;
  t_apart : tables_kept m not_own p i;
  t_e820 : zlen es = e820_count i;
  t_entry : ∀ k e, es !! k = Some e → ld_e820 m (e820_addr i) (Z.of_nat k) = Ret e;
  t_modules : zlen mds = module_count i;
  t_module : ∀ k e, mds !! k = Some e → ld_module m (modules_addr i) (Z.of_nat k) = Ret e;
}.

Lemma memory_with_own st m a : not_own a → memory_with st m a = m a.
Proof.
  intros [H1 H2]. unfold memory_with. destruct (Z.leb_spec FRAME_BITMAP_PHYS a), (Z.ltb_spec a (FRAME_BITMAP_PHYS + FRAME_BITMAP_BYTES)); cbn [andb]; [by destruct H1 |..];
    destruct (Z.leb_spec FRAME_REFCOUNT_PHYS a), (Z.ltb_spec a (FRAME_REFCOUNT_PHYS + FRAME_REFCOUNT_BYTES)); cbn [andb]; done || by destruct H2.
Qed.

Lemma memory_with_bytes st m : bytes_mem m → bytes_mem (memory_with st m).
Proof. intros Hm a. unfold memory_with, byte_of. repeat case_match; [apply (wrap_range 8); lia.. | apply Hm]. Qed.

Lemma bootinfo_at_typed m p : bytes_mem m → bootinfo_typed (bootinfo_at m p).
Proof.
  intros Hm. unfold bootinfo_typed, bootinfo_at. cbn [e820_count module_count e820_addr modules_addr cmdline_addr cmdline_size].
  pose proof (λ n a, le_bytes_range n m a Hm) as H. pose proof (H 2%nat (p + 8)). pose proof (H 2%nat (p + 10)). pose proof (H 8%nat (p + 24)). pose proof (H 8%nat (p + 48)). pose proof (H 8%nat (p + 72)). pose proof (H 4%nat (p + 80)).
  change (256 ^ Z.of_nat 8) with (2 ^ 64) in *. change (256 ^ Z.of_nat 4) with (2 ^ 32) in *. change (256 ^ Z.of_nat 2) with 65536 in *. ulia.
Qed.

(** Such tables are still there when the allocator has written its own. *)
Lemma tables_stay m p i es mds st : boot_tables m p i es mds → boot_tables (memory_with st m) p i es mds.
Proof.
  intros [T1 T2 T3 K T5 T6 T7 T8]. pose proof (memory_with_own st m) as Hs. pose proof (memory_with_bytes st m T1) as Hb. pose proof (bootinfo_at_typed m p T1) as Hty. rewrite <- T2 in Hty.
  generalize dependent (memory_with st m). intros now Hs Hb.
  assert (Hmod : ∀ k, 0 ≤ k < module_count i → ld_module now (modules_addr i) k = ld_module m (modules_addr i) k) by (intros k Hk; apply (ld_module_kept m _ not_own Hs _ _ (module_count i) Hk), (tk_modules _ _ _ _ K)).
  split; [exact Hb | | | | exact T5 | | exact T7 |].
  - by rewrite (bootinfo_at_kept m _ not_own Hs p (tk_info _ _ _ _ K)).
  - by rewrite (validate_kept m _ not_own Hs p i Hty K).
  - destruct K as [K1 K2 K3 K4 K5]. split; try assumption. intros k md Hk. rewrite Hmod by exact Hk. by apply K4.
  - intros k e He. rewrite (ld_e820_kept m _ not_own Hs _ _ (e820_count i)); [by apply T6 | | apply (tk_e820 _ _ _ _ K)]. rewrite <- T5. apply lookup_lt_Some in He. unfold zlen. lia.
  - intros k e He. rewrite Hmod; [by apply T8 |]. rewrite <- T7. apply lookup_lt_Some in He. unfold zlen. lia.
Qed.

Definition usable_in (f : Z) (e : rabbitbone_e820_entry_t) : bool :=
  (e_type e =? RABBITBONE_E820_USABLE) && frame_in f (e_base e) (e_length e).
Definition module_in (f : Z) (md : rabbitbone_boot_module_t) : bool :=
  negb (m_base md =? 0) && negb (m_size md =? 0) && frame_in f (m_base md) (m_size md).

(** The frames free after [memory_init]. *)
Definition init_free (es : list rabbitbone_e820_entry_t) (mds : list rabbitbone_boot_module_t) (f : Z) : bool :=
  existsb (usable_in f) es &&
  negb (frame_in f 0 0x200000 || frame_in f kernel_start (kernel_end - kernel_start) || existsb (module_in f) mds ||
        frame_in f FRAME_BITMAP_PHYS FRAME_BITMAP_BYTES || frame_in f FRAME_REFCOUNT_PHYS FRAME_REFCOUNT_BYTES).

Section init.

Context (m : memory) (p : Z) (i : rabbitbone_bootinfo_t).
Context (es : list rabbitbone_e820_entry_t) (mds : list rabbitbone_boot_module_t).
Context (T : boot_tables m p i es mds).

Lemma table_counts : 0 ≤ e820_count i < 65536 ∧ 0 ≤ module_count i < 65536.
Proof. pose proof (bootinfo_at_typed m p (t_bytes _ _ _ _ _ T)) as (H1 & H2 & _). rewrite <- (t_info _ _ _ _ _ T) in H1, H2. unfold U16MAX in *. lia. Qed.

Lemma e820_entry k e :
  es !! k = Some e →
  bootinfo_e820 m (Some (p, i)) (Z.of_nat k) = Ret (Some (e820_addr i + Z.of_nat k * SIZEOF_E820)) ∧
  ld_e820 m (e820_addr i + Z.of_nat k * SIZEOF_E820) 0 = Ret e ∧ is_u64 (e_base e) ∧ is_u64 (e_length e).
Proof.
  intros He. pose proof (t_entry _ _ _ _ _ T k e He) as Hl. split_and!.
  - unfold bootinfo_e820. rewrite (t_valid _ _ _ _ _ T). mred. apply lookup_lt_Some in He. pose proof (t_e820 _ _ _ _ _ T).
    unfold zlen in *. by destruct (Z.leb_spec (e820_count i) (Z.of_nat k)); [lia |].
  - rewrite <- Hl. unfold ld_e820. by rewrite Z.mul_0_l, Z.add_0_r.
  - by apply (ld_e820_range m _ _ _ (t_bytes _ _ _ _ _ T) Hl).
  - by apply (ld_e820_range m _ _ _ (t_bytes _ _ _ _ _ T) Hl).
Qed.

(** A loop over the entries of a table; [P] holds of the prefix processed so far. *)
Lemma for_table {A S} (l : list A) (P : list A → S → Prop) (f : Z → S → res S) s :
  P [] s →
  (∀ k x t, l !! k = Some x → P (take k l) t → ∃ t', f (Z.of_nat k) t = Ret t' ∧ P (take k l ++ [x]) t') →
  ∃ s', for_n (Z.to_nat (zlen l)) 0 f s = Ret s' ∧ P l s'.
Proof.
  intros H0 Hstep.
  destruct (for_n_inv (λ j t, P (take (Z.to_nat j) l) t) f (Z.to_nat (zlen l)) 0 s) as (s' & -> & H).
  - done.
  - intros j t Hj Ht. destruct (lookup_lt_is_Some_2 l (Z.to_nat j)) as [x Hx]; [unfold zlen in *; lia |].
    destruct (Hstep (Z.to_nat j) x t Hx Ht) as (t' & E & Ht'). rewrite Z2Nat.id in E by lia. exists t'. split; [done |].
    replace (Z.to_nat (j + 1)) with (Datatypes.S (Z.to_nat j)) by lia. by rewrite (take_S_r _ _ _ Hx).
  - exists s'. split; [done |]. rewrite take_ge in H by (unfold zlen; lia). done.
Qed.

(** The same for a loop that asks for the length of the table in each turn. *)
Lemma loop_table {A S} (l : list A) (P : list A → S → Prop) (f : Z → S → res (ctl S S)) s :
  zlen l < 65536 → P [] s →
  (∀ k x t, l !! k = Some x → P (take k l) t → ∃ t', f (Z.of_nat k) t = Ret (Next t') ∧ P (take k l ++ [x]) t') →
  (∀ t, P l t → f (zlen l) t = Ret (Done t)) →
  ∃ s', loop_n (Z.to_nat 0x10000) 0 f s = Ret (Done s') ∧ P l s'.
Proof.
  intros Hl H0 Hstep Hend. destruct (loop_n_inv (λ j t, j ≤ zlen l ∧ P (take (Z.to_nat j) l) t) (P l) f (Z.to_nat 0x10000) 0 s) as [(s' & _ & Hj & _)|H]; [split; [apply zlen_nonneg | done] | | lia | done].
  intros j t Hj [Hle Ht]. destruct (decide (j = zlen l)) as [->|Hne].
  - right. rewrite take_ge in Ht by (unfold zlen; lia). by exists t; split; [apply Hend |].
  - left. destruct (lookup_lt_is_Some_2 l (Z.to_nat j)) as [x Hx]; [unfold zlen in *; lia |]. destruct (Hstep (Z.to_nat j) x t Hx Ht) as (t' & E & Ht'). rewrite Z2Nat.id in E by lia. exists t'. split; [done |]. split; [lia |].
    replace (Z.to_nat (j + 1)) with (Datatypes.S (Z.to_nat j)) by lia. by rewrite (take_S_r _ _ _ Hx).
Qed.

Lemma scan_e820_spec :
  ∃ top us, scan_e820 m (Some (p, i)) (e820_count i) = Ret (top, us) ∧ 0 ≤ top ≤ U64MAX ∧
    Forall (λ e, e_length e ≠ 0 → Z.min U64MAX (e_base e + e_length e) ≤ top) es.
Proof.
  unfold scan_e820. rewrite <- (t_e820 _ _ _ _ _ T).
  edestruct (for_table es (λ l (s : Z * Z), 0 ≤ s.1 ≤ U64MAX ∧ Forall (λ e, e_length e ≠ 0 → Z.min U64MAX (e_base e + e_length e) ≤ s.1) l))
    as ([top us] & -> & H1 & H2); [| | by exists top, us].
  - split; [unfold U64MAX; simpl; lia | constructor].
  - intros k e [top us] He [Hr Ht]. cbn [fst] in *. destruct (e820_entry k e He) as (-> & Hld & Hb & Hl). mred. rewrite Hld. mred.
    destruct (Z.eqb_spec (e_length e) 0) as [E|_].
    { eexists. split; [done |]. split; [done |]. apply Forall_app. split; [done |]. by constructor. }
    eexists. split; [done |]. cbn [fst].
    assert (Es : saturating_add_u64 (e_base e) (e_length e) = Z.min U64MAX (e_base e + e_length e)).
    { unfold saturating_add_u64, add_u64. destruct (Z.leb_spec (e_base e + e_length e) U64MAX); simpl; lia. }
    rewrite Es. unfold is_u64 in *. split; [destruct (Z.ltb_spec top (Z.min U64MAX (e_base e + e_length e))); unfold U64MAX in *; lia |].
    apply Forall_app. split.
    + eapply Forall_impl; [exact Ht |]. intros e' H He'. specialize (H He'). cbn beta in H.
      destruct (Z.ltb_spec top (Z.min U64MAX (e_base e + e_length e))); lia.
    + constructor; [| constructor]. intros _. destruct (Z.ltb_spec top (Z.min U64MAX (e_base e + e_length e))); lia.
Qed.

End init.

(** The loops after the allocator has its tables. *)
Section after.

Context (m : memory) (p : Z) (i : rabbitbone_bootinfo_t).
Context (es : list rabbitbone_e820_entry_t) (mds : list rabbitbone_boot_module_t).
Context (T : boot_tables m p i es mds).

Lemma free_e820_spec st n g :
  marking st n g →
  ∃ st', free_e820 m p st = Ret st' ∧
    marking st' n (λ f, if existsb (usable_in f) es then false else g f) ∧ total_usable st' = total_usable st.
Proof.
  intros Hm. unfold free_e820. pose proof (table_counts m p i es mds T) as [Hc _]. pose proof (t_e820 _ _ _ _ _ T) as Hz.
  match goal with |- context [loop_n _ _ ?body _] => destruct (loop_table es (λ l s, marking s n (λ f, if existsb (usable_in f) l then false else g f) ∧ total_usable s = total_usable st) body st) as (st' & -> & H) end; [lia | done | | | by exists st'].
  - intros k e s He [Hs Hu]. cbv zeta. pose proof (tables_stay m p i es mds s T) as T'. generalize dependent (memory_with s m). intros now T'. rewrite <- (t_info _ _ _ _ _ T').
    destruct (e820_entry now p i es mds T' k e He) as (E & Hld & Hb & Hl). pose proof (lookup_lt_Some _ _ _ He). unfold zlen in Hz. bfalse (e820_count i <=? Z.of_nat k). rewrite E. mred. rewrite Hld. mred.
    destruct (Z.eqb_spec (e_type e) RABBITBONE_E820_USABLE) as [Ee|Ee].
    + destruct (mark_range_spec s n _ (e_base e) (e_length e) true Hs Hb Hl) as (s' & -> & Hs' & _ & Hu').
      exists s'. split; [done |]. split; [| congruence]. eapply marking_ext; [| exact Hs']. intros f Hf. cbn beta.
      rewrite existsb_app. cbn [existsb]. rewrite orb_false_r. unfold usable_in at 3. rewrite Ee, Z.eqb_refl. cbn [andb negb].
      by destruct (frame_in f (e_base e) (e_length e)), (existsb (usable_in f) (take k es)).
    + exists s. split; [done |]. split; [| done]. eapply marking_ext; [| exact Hs]. intros f Hf. cbn beta.
      rewrite existsb_app. cbn [existsb]. rewrite orb_false_r. unfold usable_in at 3.
      destruct (Z.eqb_spec (e_type e) RABBITBONE_E820_USABLE); [done |]. cbn [andb]. by rewrite orb_false_r.
  - intros s _. cbv zeta. rewrite <- (t_info _ _ _ _ _ (tables_stay m p i es mds s T)), Hz. by rewrite Z.leb_refl.
Qed.

Lemma reserve_modules_spec st n g :
  marking st n g →
  ∃ st', reserve_modules m p (modules_addr i) st = Ret st' ∧
    marking st' n (λ f, if existsb (module_in f) mds then true else g f) ∧ total_usable st' = total_usable st.
Proof.
  intros Hm. unfold reserve_modules. pose proof (table_counts m p i es mds T) as [_ Hc]. pose proof (t_modules _ _ _ _ _ T) as Hz.
  match goal with |- context [loop_n _ _ ?body _] => destruct (loop_table mds (λ l s, marking s n (λ f, if existsb (module_in f) l then true else g f) ∧ total_usable s = total_usable st) body st) as (st' & -> & H) end; [lia | done | | | by exists st'].
  - intros k e s He [Hs Hu]. cbv zeta. pose proof (tables_stay m p i es mds s T) as T'. generalize dependent (memory_with s m). intros now T'. rewrite <- (t_info _ _ _ _ _ T').
    pose proof (t_module _ _ _ _ _ T' k e He) as Hld. pose proof (lookup_lt_Some _ _ _ He). unfold zlen in Hz. bfalse (module_count i <=? Z.of_nat k). rewrite Hld. mred.
    destruct (ld_module_range now _ _ _ (t_bytes _ _ _ _ _ T') Hld) as [Hb Hl].
    assert (Hx : ∀ f, existsb (module_in f) (take k mds ++ [e]) = existsb (module_in f) (take k mds) || module_in f e).
    { intros f. rewrite existsb_app. cbn [existsb]. by rewrite orb_false_r. }
    destruct (negb (m_base e =? 0) && negb (m_size e =? 0)) eqn:E.
    + destruct (mark_range_spec s n _ (m_base e) (m_size e) false Hs Hb Hl) as (s' & -> & Hs' & _ & Hu').
      exists s'. split; [done |]. split; [| congruence]. eapply marking_ext; [| exact Hs']. intros f Hf. cbn beta.
      rewrite Hx. unfold module_in at 3. rewrite E. cbn [andb negb].
      by destruct (frame_in f (m_base e) (m_size e)), (existsb (module_in f) (take k mds)).
    + exists s. split; [done |]. split; [| done]. eapply marking_ext; [| exact Hs]. intros f Hf. cbn beta.
      rewrite Hx. unfold module_in at 3. rewrite E. cbn [andb]. by rewrite orb_false_r.
  - intros s _. cbv zeta. rewrite <- (t_info _ _ _ _ _ (tables_stay m p i es mds s T)), Hz. by rewrite Z.leb_refl.
Qed.

(** A module table at address zero cannot be read. *)
Lemma modules_guard :
  negb (module_count i =? 0) && negb (modules_addr i =? 0) = negb (module_count i =? 0).
Proof.
  destruct (Z.eqb_spec (module_count i) 0) as [|Hc]; [done |]. destruct (Z.eqb_spec (modules_addr i) 0) as [E|]; [| done].
  pose proof (t_modules _ _ _ _ _ T) as Hn. destruct mds as [|md l] eqn:Em; [done |].
  pose proof (t_module _ _ _ _ _ T 0%nat md) as H. rewrite E in H. specialize (H eq_refl). done.
Qed.

Lemma all_used fc us :
  0 < fc ≤ MAX_TRACKED_FRAMES →
  ∃ b0 b, bitmap_init (Some (replicate (Z.to_nat (MAX_TRACKED_FRAMES / 64)) 0)) fc = Ret b0 ∧
    for_n (Z.to_nat fc) 0 (λ f b, bitmap_set b f)
      (mk_bitmap (Some (replicate (Z.to_nat (FRAME_BITMAP_BYTES / 8)) U64MAX)) (bit_count b0)) = Ret b ∧
    marking (mk_mem b (replicate (Z.to_nat MAX_TRACKED_FRAMES) 0) fc us) fc (λ _, true).
Proof.
  intros Hfc. change (MAX_TRACKED_FRAMES / 64) with 16384. change (FRAME_BITMAP_BYTES / 8) with 16384.
  assert (Hr : zlen (replicate (Z.to_nat MAX_TRACKED_FRAMES) 0) = MAX_TRACKED_FRAMES) by (rewrite zlen_replicate; lia).
  assert (H0 : zlen (replicate (Z.to_nat 16384) 0) = 16384) by (rewrite zlen_replicate; lia).
  assert (H1 : zlen (replicate (Z.to_nat 16384) U64MAX) = 16384) by (rewrite zlen_replicate; lia).
  assert (F0 : Forall is_u64 (replicate (Z.to_nat 16384) 0)) by (apply Forall_replicate; unfold is_u64; lia).
  assert (F1 : Forall is_u64 (replicate (Z.to_nat 16384) U64MAX)) by (apply Forall_replicate; unfold is_u64, U64MAX; lia).
  revert Hr H0 H1 F0 F1. generalize (replicate (Z.to_nat MAX_TRACKED_FRAMES) 0) as r.
  generalize (replicate (Z.to_nat 16384) 0) as w0. generalize (replicate (Z.to_nat 16384) U64MAX) as w1. intros w1 w0 r Hr H0 H1 F0 F1.
  pose proof Hfc as Hmax. change MAX_TRACKED_FRAMES with 1048576 in Hmax.
  destruct (bitmap_init_spec w0 fc) as (b0 & -> & _ & Hb & _); [done | lia | unfold U64MAX; lia |].
  exists b0. rewrite Hb. set (b1 := mk_bitmap (Some w1) fc).
  destruct (mark_loop (mk_mem b1 r fc us) fc (bit_at b1) 0 fc false) as (b & E & Hm); [| lia.. |].
  { split; cbn [frames refs frame_count]; try done; [| lia].
    exists w1. unfold b1. cbn [bit_count words]. unfold U64MAX. split_and!; [done.. | lia | lia | lia]. }
  rewrite Z.sub_0_r in *. exists b. split; [done |]. split; [exact E |].
  eapply marking_ext; [| exact Hm]. intros f Hf. cbn beta. by destruct (in_run_spec 0 fc f); [| lia].
Qed.

End after.

Lemma init_refs_spec st n g :
  marking st n g → ∃ st', init_refs st = Ret st' ∧ holds st' n (λ f, if g f then 1 else 0) ∧ total_usable st' = total_usable st.
Proof.
  intros Hm. unfold init_refs. rewrite (k_count _ _ _ Hm). pose proof (k_max _ _ _ Hm). pose proof (k_table _ _ _ Hm) as Ht.
  edestruct (for_n_inv (λ j r, zlen r = MAX_TRACKED_FRAMES ∧ ∀ f, 0 ≤ f < j → r !! Z.to_nat f = Some (if g f then 1 else 0)))
    as (r & -> & Hl & Hr).
  - split; [exact Ht | lia].
  - intros j r Hj [Hl Hr]. cbn beta. rewrite bitmap_test_spec by (apply Hm || lia). mred.
    rewrite (k_used _ _ _ Hm), wr_inbounds by lia. eexists. split; [done |]. rewrite zlen_insert. split; [done |].
    intros f Hf. destruct (decide (f = j)) as [->|].
    + rewrite list_lookup_insert_eq; [done |]. unfold zlen in *. lia.
    + rewrite list_lookup_insert_ne by lia. apply Hr. lia.
  - mred. eexists. split; [done |]. split; [| done]. destruct Hm. split; cbn [set_refs frames refs frame_count]; try done.
    + intros f Hf. unfold rc. cbn [refs]. rewrite Hr by lia. done.
    + intros f Hf. rewrite k_used0 by done. by destruct (g f).
    + intros f Hf. unfold U16MAX. destruct (g f); lia.
Qed.

(** With a page-aligned kernel image (or one below 2 MiB) the marking covers every
    frame with a reserved byte. *)
Lemma init_reserved n es mds :
  n ≤ MAX_TRACKED_FRAMES →
  kernel_end ≤ 0x200000 ∨ (kernel_start mod PAGE_SIZE = 0 ∧ kernel_end mod PAGE_SIZE = 0) →
  reserved_used n (λ f, if negb (init_free es mds f) then 1 else 0).
Proof.
  intros Hn Hk f x Hf Hx Hr. enough (init_free es mds f = false) as -> by (simpl; lia).
  unfold init_free. apply andb_false_intro2, negb_false_iff. unfold reserved_byte in Hr.
  change MAX_TRACKED_FRAMES with 1048576 in Hn. change FRAME_REFCOUNT_BYTES with 2097152 in *. unfold FRAME_REFCOUNT_PHYS in *.
  unfold frame_in. unfold PAGE_SIZE, U64MAX in *.
  pose proof (Z.div_mod kernel_start 4096 ltac:(lia)). pose proof (Z.div_mod kernel_end 4096 ltac:(lia)).
  rewrite !orb_true_iff, !andb_true_iff, !Z.leb_le.
  assert (Hd : x < 0x200000 ∨ (0x200000 ≤ x ∧ kernel_start ≤ x < kernel_end) ∨ 0x400000 ≤ x < 0x400000 + 2097152) by lia.
  destruct Hd as [Hd|[Hd|Hd]]; [do 4 left | do 3 left; right | right]; lia.
Qed.

Lemma bind_Ret {A B} (a : A) (f : A → res B) : (Ret a ≫= f) = f a.
Proof. done. Qed.

Lemma mark_frames_spec m p i es mds n ma st :
  boot_tables m p i es mds → marking st n (λ _, true) →
  ∃ st', mark_frames m (Some p) ma st = Ret st' ∧ holds st' n (λ f, if negb (init_free es mds f) then 1 else 0).
Proof.
  intros T M0. assert (Hinfo : ∀ st, bootinfo_at (memory_with st m) p = i ∧ bootinfo_validate (memory_with st m) (Some (p, i)) = Ret true) by (intros s; destruct (tables_stay m p i es mds s T) as [_ E1 E2 _ _ _ _ _]; by split).
  unfold mark_frames. cbn [info_at mbind option_bind]. destruct (Hinfo st) as [-> ->]. rewrite bind_Ret. cbv iota.
  destruct (free_e820_spec m p i es mds T _ n _ M0) as (s1 & -> & M1 & _). rewrite bind_Ret.
  destruct (mark_range_spec _ _ _ 0 0x200000 false M1) as (s2 & -> & M2 & _); [unfold is_u64; lia.. |]. rewrite bind_Ret.
  rewrite (wrap_small 64) by (unfold U64MAX in *; lia).
  destruct (mark_range_spec _ _ _ kernel_start (kernel_end - kernel_start) false M2) as (s3 & -> & M3 & _);
    [unfold is_u64, U64MAX in *; lia.. |]. rewrite bind_Ret. destruct (Hinfo s3) as [-> ->]. rewrite bind_Ret. cbn [andb]. rewrite (modules_guard m p i es mds T).
  assert (∃ s4, (if negb (module_count i =? 0) then reserve_modules m p (modules_addr i) s3 else Ret s3) = Ret s4 ∧
    marking s4 n (λ f, if existsb (module_in f) mds then true else
      if frame_in f kernel_start (kernel_end - kernel_start) then negb false else
      if frame_in f 0 0x200000 then negb false else if existsb (usable_in f) es then false else true)) as (s4 & -> & M4).
  { destruct (Z.eqb_spec (module_count i) 0) as [E0|E0]; cbn [negb].
    - exists s3. split; [done |]. pose proof (t_modules _ _ _ _ _ T) as Hz. destruct mds; [done |]. unfold zlen in Hz. simpl in Hz. lia.
    - destruct (reserve_modules_spec m p i es mds T _ n _ M3) as (s4 & -> & M4 & _). by exists s4. }
  rewrite bind_Ret. destruct (mark_range_spec _ _ _ FRAME_BITMAP_PHYS FRAME_BITMAP_BYTES false M4) as (s5 & -> & M5 & _); [done.. |]. rewrite bind_Ret.
  destruct (mark_range_spec _ _ _ FRAME_REFCOUNT_PHYS FRAME_REFCOUNT_BYTES false M5) as (s6 & -> & M6 & _); [done.. |]. rewrite bind_Ret.
  destruct (init_refs_spec _ _ _ M6) as (st' & -> & Hh & _). exists st'. split; [done |]. eapply holds_ext; [| exact Hh]. intros f Hf. cbn beta. unfold init_free.
  destruct (frame_in f FRAME_REFCOUNT_PHYS FRAME_REFCOUNT_BYTES), (frame_in f FRAME_BITMAP_PHYS FRAME_BITMAP_BYTES),
    (existsb (module_in f) mds), (frame_in f kernel_start (kernel_end - kernel_start)), (frame_in f 0 0x200000),
    (existsb (usable_in f) es); reflexivity.
Qed.

(** C20: [memory_init] over validated boot tables that do not lie where the allocator keeps
    its bitmap and its counts (the tables are read again after those have been
    written).  It tracks every non-empty
    range of the memory map below 4 GiB (at least 32 MiB), leaves free exactly the
    frames that lie inside a usable range and not inside the low 2 MiB, the
    kernel image, a boot module or the allocator's tables, gives every other frame one
    reference, and, for a page-aligned kernel image, keeps every frame with a
    reserved byte in use: the invariant of the allocator holds from the start. *)
Theorem memory_init_correct m p i es mds :
  boot_tables m p i es mds →
  ∃ st n, memory_init m (Some p) = Ret st ∧ 8192 ≤ n ≤ MAX_TRACKED_FRAMES ∧
    (∀ e, e ∈ es → e_length e ≠ 0 → (e_base e + e_length e) / PAGE_SIZE ≤ n ∨ n = MAX_TRACKED_FRAMES) ∧
    holds st n (λ f, if negb (init_free es mds f) then 1 else 0) ∧
    (kernel_end ≤ 0x200000 ∨ (kernel_start mod PAGE_SIZE = 0 ∧ kernel_end mod PAGE_SIZE = 0) →
     reserved_used n (λ f, if negb (init_free es mds f) then 1 else 0)).
Proof.
  intros T. unfold memory_init. cbn [info_at mbind option_bind]. rewrite <- (t_info _ _ _ _ _ T), (t_valid _ _ _ _ _ T). mred.
  destruct (scan_e820_spec m p i es mds T) as (top & us & -> & Htop & Hes). mred.
  set (ma := if top <? 32 * 1024 * 1024 then 32 * 1024 * 1024 else top).
  assert (Hma : ma = Z.max 33554432 top) by (subst ma; destruct (Z.ltb_spec top (32 * 1024 * 1024)); lia). clearbody ma.
  set (n := if MAX_TRACKED_FRAMES <? ma / PAGE_SIZE then MAX_TRACKED_FRAMES else ma / PAGE_SIZE).
  assert (Hn : n = Z.min MAX_TRACKED_FRAMES (ma / PAGE_SIZE)).
  { subst n. destruct (Z.ltb_spec MAX_TRACKED_FRAMES (ma / PAGE_SIZE)); lia. } clearbody n.
  assert (8192 ≤ ma / PAGE_SIZE) by (apply Z.div_le_lower_bound; unfold PAGE_SIZE; lia).
  assert (Hb : 8192 ≤ n ≤ MAX_TRACKED_FRAMES) by (change MAX_TRACKED_FRAMES with 1048576 in *; lia).
  destruct (all_used n us) as (b0 & b & -> & E & M0); [lia |]. mred. rewrite E. mred. clear E.
  destruct (mark_frames_spec m p i es mds n ma _ T M0) as (st & -> & Hh). exists st, n. split_and!; [done | lia | lia | | exact Hh |].
  - intros e He Hl. rewrite Forall_forall in Hes. specialize (Hes e He Hl).
    destruct (decide (n = MAX_TRACKED_FRAMES)); [by right | left]. destruct (decide (e_base e + e_length e ≤ U64MAX)).
    + etransitivity; [apply (Z.div_le_mono _ ma PAGE_SIZE); [done | lia] | lia].
    + assert (MAX_TRACKED_FRAMES ≤ ma / PAGE_SIZE); [| lia]. apply Z.div_le_lower_bound; unfold PAGE_SIZE, U64MAX in *; [lia |].
      change MAX_TRACKED_FRAMES with 1048576. lia.
  - intros Hk. apply init_reserved; [lia | done].
Qed.

End memory.

(** ** Concrete runs *)

(** 576 frames of which the first 512 are in use; the kernel is below 1 MiB. *)
Definition sample_counts (f : Z) : Z := if f <? 512 then 1 else 0.
Definition sample_mem : mem_state :=
  mk_mem (mk_bitmap (Some (replicate 8 U64MAX ++ [0])) 576)
    (replicate (Z.to_nat 512) 1 ++ replicate (Z.to_nat (MAX_TRACKED_FRAMES - 512)) 0) 576 (64 * PAGE_SIZE).

Lemma sample_holds : holds sample_mem 576 sample_counts.
Proof.
  unfold sample_mem. split; cbn [frames refs frame_count bit_count].
  - exists (replicate 8 U64MAX ++ [0]). split; [reflexivity |]. split; [apply Forall_app; split; [apply Forall_replicate; ulia | apply Forall_cons; split; [ulia | by apply Forall_nil]] | split_and!; vm_compute; discriminate].
  - done.
  - done.
  - unfold MAX_TRACKED_FRAMES. lia.
  - rewrite zlen_app, !zlen_replicate. unfold MAX_TRACKED_FRAMES. lia.
  - intros f Hf. unfold rc, sample_counts. cbn [refs]. destruct (Z.ltb_spec f 512).
    + rewrite lookup_app_l by (rewrite length_replicate; lia). by rewrite lookup_replicate_2 by lia.
    + rewrite lookup_app_r by (rewrite length_replicate; lia). rewrite length_replicate.
      rewrite lookup_replicate_2; [done |]. unfold MAX_TRACKED_FRAMES. lia.
  - intros f Hf.
    assert (H : forallb (λ k, Bool.eqb (bit_at (mk_bitmap (Some (replicate 8 U64MAX ++ [0])) 576) (Z.of_nat k))
      (0 <? sample_counts (Z.of_nat k))) (seq 0 576) = true) by (vm_compute; reflexivity).
    rewrite forallb_forall in H. specialize (H (Z.to_nat f)). rewrite in_seq, Z2Nat.id, eqb_true_iff in H by lia. apply H. lia.
  - intros f _. unfold sample_counts, U16MAX. destruct (f <? 512); lia.
Qed.

Lemma sample_reserved : reserved_used 0x10000 0x90000 576 sample_counts.
Proof.
  intros f x Hf Hx Hr. unfold reserved_byte, sample_counts, FRAME_REFCOUNT_PHYS, PAGE_SIZE in *.
  destruct (Z.ltb_spec f 512); lia.
Qed.

Lemma frames_refine_refcounts_witness :
  match mem_run 0x10000 0x90000 sample_mem [OpAlloc 2 0x40000000; OpRef 0x200000; OpUnref 0x200000; OpFree 0x200000 2] with
  | Ret (st', rs) => ∃ c', abs_run 0x10000 0x90000 576 sample_counts
      [OpAlloc 2 0x40000000; OpRef 0x200000; OpUnref 0x200000; OpFree 0x200000 2] (Some (rs, c')) ∧
      holds st' 576 c' ∧ reserved_used 0x10000 0x90000 576 c'
  | Fault Panic => abs_run 0x10000 0x90000 576 sample_counts
      [OpAlloc 2 0x40000000; OpRef 0x200000; OpUnref 0x200000; OpFree 0x200000 2] None
  | Fault _ => False
  end.
Proof.
  apply (frames_refine_refcounts 0x10000 0x90000 ltac:(lia) ltac:(ulia)); [exact sample_holds | exact sample_reserved |].
  repeat constructor; simpl; lia.
Defined.

Lemma memory_alloc_correct_witness :
  ∃ st' r, memory_alloc_contiguous_pages_below sample_mem 3 0x40000000 = Ret (st', r).
Proof.
  destruct (memory_alloc_correct 0x10000 0x90000 sample_mem 576 sample_counts 3 0x40000000 sample_holds sample_reserved)
    as (st' & r & H & _); [lia.. |]. exists st', r. exact H.
Defined.

Lemma memory_observers_correct_witness :
  memory_page_refcount sample_mem (100 * PAGE_SIZE) = Ret 1.
Proof.
  destruct (memory_observers_correct sample_mem 576 sample_counts sample_holds) as [_ H].
  refine (eq_trans (H (100 * PAGE_SIZE) _) _); [unfold PAGE_SIZE; lia | reflexivity].
Defined.

(** A structure at [0x1000]; one usable range of 48 MiB at 16 MiB and a module of two pages
    inside it, in tables at [0x2000]. *)
Fixpoint to_bytes (n : nat) (v : Z) : list Z := match n with O => [] | S k => v mod 256 :: to_bytes k (v / 256) end.

Definition sample_info : rabbitbone_bootinfo_t :=
  mk_bootinfo RABBITBONE_BOOT_MAGIC RABBITBONE_BOOT_VERSION 1 1 RABBITBONE_BOOT_FLAG_UEFI 0 0x2000 0 0 0x2018 0 0 0 0 0 0 0 0.

Definition sample_bytes : list Z :=
  to_bytes 4 RABBITBONE_BOOT_MAGIC ++ to_bytes 4 RABBITBONE_BOOT_VERSION ++ to_bytes 2 1 ++ to_bytes 2 1 ++ to_bytes 4 RABBITBONE_BOOT_FLAG_UEFI ++
  to_bytes 8 0 ++ to_bytes 8 0x2000 ++ to_bytes 16 0 ++ to_bytes 8 0x2018.

Definition sample_entries : list Z :=
  to_bytes 8 0x1000000 ++ to_bytes 8 0x3000000 ++ to_bytes 4 1 ++ to_bytes 4 0 ++ to_bytes 8 0x1100000 ++ to_bytes 8 0x2000 ++ to_bytes 8 0.

Definition sample_tables : memory := λ a,
  default 0 (if (0x1000 <=? a) && (a <? 0x2000) then sample_bytes !! Z.to_nat (a - 0x1000) else if 0x2000 <=? a then sample_entries !! Z.to_nat (a - 0x2000) else None).

Lemma to_bytes_u8 n v : Forall is_u8 (to_bytes n v).
Proof. revert v. induction n as [|n IH]; intros v; constructor; [apply Z.mod_pos_bound; lia | apply IH]. Qed.

Lemma sample_boot_tables : boot_tables sample_tables 0x1000 sample_info [mk_e820 0x1000000 0x3000000 1 0] [mk_module 0x1100000 0x2000 0].
Proof.
  assert (Hlow : ∀ a n, a + n ≤ 0x100000 → kept not_own a n) by (intros a n Ha x Hx; unfold not_own, FRAME_BITMAP_PHYS, FRAME_REFCOUNT_PHYS; lia).
  split; [| vm_compute; reflexivity | vm_compute; reflexivity | | reflexivity | | reflexivity |].
  - assert (Hu : ∀ l x, Forall is_u8 l → is_u8 (default 0 (l !! Z.to_nat x))) by (intros l x Hl; destruct (_ !! _) eqn:E; [by apply (Forall_lookup_1 _ _ _ _ Hl E) | done]).
    intros x. unfold sample_tables. repeat case_match; [apply Hu; unfold sample_bytes | apply Hu; unfold sample_entries | done]; rewrite !Forall_app; split_and!; apply to_bytes_u8.
  - split; [apply Hlow; vm_compute; congruence | apply Hlow; vm_compute; congruence | apply Hlow; vm_compute; congruence | | apply Hlow; vm_compute; congruence].
    intros k md Hk E Hn. assert (k = 0) as -> by (cbn in Hk; lia). vm_compute in E. injection E as <-. by destruct Hn.
  - intros [|k] e He; [| done]. injection He as <-. vm_compute. reflexivity.
  - intros [|k] e He; [| done]. injection He as <-. vm_compute. reflexivity.
Qed.

Lemma memory_init_correct_witness :
  ∃ st n, memory_init 0x10000 0x90000 sample_tables (Some 0x1000) = Ret st ∧ 8192 ≤ n ≤ MAX_TRACKED_FRAMES ∧ rc st 0x1000 = 0 ∧ rc st 0x1100 = 1.
Proof.
  destruct (memory_init_correct 0x10000 0x90000 ltac:(lia) ltac:(ulia) sample_tables 0x1000 sample_info _ _ sample_boot_tables) as (st & n & H & Hn & _ & Hh & _).
  exists st, n. split; [exact H |]. split; [exact Hn |]. split; (etrans; [apply (h_rc _ _ _ Hh); lia |]; vm_compute; reflexivity).
Defined.
