(* ===== verification/Keyboard.v ===== *)
(** * The PS/2 keyboard: [kernel/drivers/keyboard.c]

    A scancode decoder with modifier keys in front of a ring of 64 events.  One
    slot stays empty to tell a full ring from an empty one, so the driver promises
    a queue of at most 63 events that drops the newest when full. *)

From Stdlib Require Import ZArith Lia String.
From stdpp Require Import prelude list_numbers zmap.
From S2P Require Import Prelude Circular.

Local Open Scope Z_scope.

Definition QUEUE_SIZE : Z := 64.
Definition KBD_IRQ_DRAIN_LIMIT : Z := 32.

Definition RABBITBONE_KEY_NONE : Z := 0.
Definition RABBITBONE_KEY_CHAR : Z := 1.
Definition RABBITBONE_KEY_ENTER : Z := 2.
Definition RABBITBONE_KEY_BACKSPACE : Z := 3.
Definition RABBITBONE_KEY_TAB : Z := 4.
Definition RABBITBONE_KEY_ESC : Z := 5.
Definition RABBITBONE_KEY_UP : Z := 100.
Definition RABBITBONE_KEY_DOWN : Z := 101.
Definition RABBITBONE_KEY_LEFT : Z := 102.
Definition RABBITBONE_KEY_RIGHT : Z := 103.
Definition RABBITBONE_KEY_DELETE : Z := 104.
Definition RABBITBONE_KEY_HOME : Z := 105.
Definition RABBITBONE_KEY_END : Z := 106.
Definition RABBITBONE_KEY_PAGEUP : Z := 107.
Definition RABBITBONE_KEY_PAGEDOWN : Z := 108.
Definition RABBITBONE_KEY_MOD_SHIFT : Z := 1.
Definition RABBITBONE_KEY_MOD_CTRL : Z := 2.
Definition RABBITBONE_KEY_MOD_ALT : Z := 4.

Record rabbitbone_key_event_t := mk_event { ev_code : Z; ev_mods : Z; ev_ch : Z; ev_scancode : Z }.

(** The static variables. *)
Record kbd_state := mk_kbd {
  queue : list rabbitbone_key_event_t;
  head : Z;
  tail : Z;
  shift_down : bool;
  ctrl_down : bool;
  alt_down : bool;
  extended : bool;
}.

Definition set_queue (s : kbd_state) (q : list rabbitbone_key_event_t) (h t : Z) : kbd_state :=
  mk_kbd q h t (shift_down s) (ctrl_down s) (alt_down s) (extended s).
Definition set_shift (s : kbd_state) (b : bool) : kbd_state := mk_kbd (queue s) (head s) (tail s) b (ctrl_down s) (alt_down s) (extended s).
Definition set_ctrl (s : kbd_state) (b : bool) : kbd_state := mk_kbd (queue s) (head s) (tail s) (shift_down s) b (alt_down s) (extended s).
Definition set_alt (s : kbd_state) (b : bool) : kbd_state := mk_kbd (queue s) (head s) (tail s) (shift_down s) (ctrl_down s) b (extended s).
Definition set_extended (s : kbd_state) (b : bool) : kbd_state := mk_kbd (queue s) (head s) (tail s) (shift_down s) (ctrl_down s) (alt_down s) b.

Definition normal_map : list Z :=
  [0; 27] ++ bytes_of "1234567890-=" ++ [8; 9] ++ bytes_of "qwertyuiop[]" ++ [10; 0] ++
  bytes_of "asdfghjkl;'`" ++ [0; 92] ++ bytes_of "zxcvbnm,./" ++ [0; 42; 0; 32] ++ replicate 70 0.

Definition shift_map : list Z :=
  [0; 27] ++ bytes_of "!@#$%^&*()_+" ++ [8; 9] ++ bytes_of "QWERTYUIOP{}" ++ [10; 0] ++
  bytes_of "ASDFGHJKL:" ++ [34; 126; 0; 124] ++ bytes_of "ZXCVBNM<>?" ++ [0; 42; 0; 32] ++ replicate 70 0.

Definition mods (s : kbd_state) : Z :=
  Z.lor (Z.lor (if shift_down s then RABBITBONE_KEY_MOD_SHIFT else 0) (if ctrl_down s then RABBITBONE_KEY_MOD_CTRL else 0))
    (if alt_down s then RABBITBONE_KEY_MOD_ALT else 0).

Definition enqueue_event (s : kbd_state) (code ch scancode : Z) : res kbd_state :=
  let next := wrap32 (tail s + 1) mod QUEUE_SIZE in
  if next =? head s then Ret s else
  q ← wr (queue s) (tail s) (mk_event code (mods s) ch scancode);
  Ret (set_queue s q (head s) next).

Definition enqueue_char (s : kbd_state) (c scancode : Z) : res kbd_state :=
  let code := if c =? 10 then RABBITBONE_KEY_ENTER
              else if c =? 8 then RABBITBONE_KEY_BACKSPACE
              else if c =? 9 then RABBITBONE_KEY_TAB
              else if c =? 27 then RABBITBONE_KEY_ESC else RABBITBONE_KEY_CHAR in
  enqueue_event s code c scancode.

Definition keyboard_init (s : kbd_state) : kbd_state := mk_kbd (queue s) 0 0 false false false false.

(** The switch on extended codes. *)
Definition extended_key (s : kbd_state) (code sc : Z) : res kbd_state :=
  if code =? 0x48 then enqueue_event s RABBITBONE_KEY_UP 0 sc else
  if code =? 0x50 then enqueue_event s RABBITBONE_KEY_DOWN 0 sc else
  if code =? 0x4b then enqueue_event s RABBITBONE_KEY_LEFT 0 sc else
  if code =? 0x4d then enqueue_event s RABBITBONE_KEY_RIGHT 0 sc else
  if code =? 0x53 then enqueue_event s RABBITBONE_KEY_DELETE 0 sc else
  if code =? 0x47 then enqueue_event s RABBITBONE_KEY_HOME 0 sc else
  if code =? 0x4f then enqueue_event s RABBITBONE_KEY_END 0 sc else
  if code =? 0x49 then enqueue_event s RABBITBONE_KEY_PAGEUP 0 sc else
  if code =? 0x51 then enqueue_event s RABBITBONE_KEY_PAGEDOWN 0 sc else
  Ret s.

Definition keyboard_process_scancode (s : kbd_state) (sc : Z) : res kbd_state :=
  if (sc =? 0xfa) || (sc =? 0xfe) then Ret s else
  if sc =? 0xe0 then Ret (set_extended s true) else
  if sc =? 0xe1 then Ret (set_extended s false) else
  let release := negb (Z.land sc 0x80 =? 0) in
  let code := Z.land sc 0x7f in
  let was_extended := extended s in
  let s := set_extended s false in
  if negb was_extended && ((code =? 42) || (code =? 54)) then Ret (set_shift s (negb release)) else
  if negb was_extended && (code =? 29) then Ret (set_ctrl s (negb release)) else
  if negb was_extended && (code =? 56) then Ret (set_alt s (negb release)) else
  if was_extended && (code =? 29) then Ret (set_ctrl s (negb release)) else
  if was_extended && (code =? 56) then Ret (set_alt s (negb release)) else
  if release then Ret s else
  if was_extended then extended_key s code sc else
  c ← (if code <? 128 then rd (if shift_down s then shift_map else normal_map) code else Ret 0);
  let c := if negb (c =? 0) && ctrl_down s && (97 <=? c) && (c <=? 122) then c - 97 + 1 else c in
  let c := if negb (c =? 0) && ctrl_down s && (65 <=? c) && (c <=? 90) then c - 65 + 1 else c in
  if negb (c =? 0) then enqueue_char s c sc else Ret s.

(** [ports] are the bytes the controller has ready: bit 0 of the status port says
    whether there is one, the data port takes it.  The rest is returned. *)
Definition keyboard_irq (s : kbd_state) (ports : list Z) : res (kbd_state * list Z) :=
  c ← loop_n (Z.to_nat KBD_IRQ_DRAIN_LIMIT) 0 (λ _ '(s, ports),
        match ports with
        | [] => Ret (Done (s, ports))
        | sc :: ports => s ← keyboard_process_scancode s sc; Ret (Next (s, ports))
        end) (s, ports);
  match c with Done r | Next r => Ret r end.

(** The event is the result; a NULL [out] ignores it. *)
Definition keyboard_get_event (s : kbd_state) : res (kbd_state * option rabbitbone_key_event_t) :=
  if head s =? tail s then Ret (s, None) else
  ev ← rd (queue s) (head s);
  Ret (set_queue s (queue s) (wrap32 (head s + 1) mod QUEUE_SIZE) (tail s), Some ev).

(** [free k] says whether the [k]-th attempt takes the lock. *)
Definition keyboard_try_get_event (s : kbd_state) (free : Z → bool) : res (kbd_state * option rabbitbone_key_event_t) :=
  c ← loop_n 1024 0 (λ spin (_ : unit),
        if free spin then
          if negb (head s =? tail s) then
            ev ← rd (queue s) (head s);
            Ret (Done (set_queue s (queue s) (wrap32 (head s + 1) mod QUEUE_SIZE) (tail s), Some ev))
          else Ret (Done (s, None))
        else Ret (Next tt)) tt;
  match c with Done r => Ret r | Next _ => Ret (s, None) end.

Definition keyboard_peek_event (s : kbd_state) : res (option rabbitbone_key_event_t) :=
  if head s =? tail s then Ret None else ev ← rd (queue s) (head s); Ret (Some ev).

Definition keyboard_pending (s : kbd_state) : Z :=
  if head s <=? tail s then tail s - head s else wrap32 (QUEUE_SIZE - head s + tail s).

(** Every round takes an event, and there are fewer than [QUEUE_SIZE]. *)
Fixpoint getc_loop (fuel : nat) (s : kbd_state) : res (kbd_state * option Z) :=
  match fuel with
  | O => Fault Diverged
  | S k =>
      '(s, ev) ← keyboard_get_event s;
      match ev with
      | None => Ret (s, None)
      | Some ev => if negb (ev_ch ev =? 0) then Ret (s, Some (wrap8 (ev_ch ev))) else getc_loop k s
      end
  end.

Definition keyboard_getc (s : kbd_state) : res (kbd_state * option Z) := getc_loop (Z.to_nat QUEUE_SIZE) s.

(** ** What the driver promises *)

Definition modkeys : Type := bool * bool * bool * bool.

Definition navigation_keys : Zmap Z :=
  list_to_map [(0x48, RABBITBONE_KEY_UP); (0x50, RABBITBONE_KEY_DOWN); (0x4b, RABBITBONE_KEY_LEFT);
    (0x4d, RABBITBONE_KEY_RIGHT); (0x53, RABBITBONE_KEY_DELETE); (0x47, RABBITBONE_KEY_HOME);
    (0x4f, RABBITBONE_KEY_END); (0x49, RABBITBONE_KEY_PAGEUP); (0x51, RABBITBONE_KEY_PAGEDOWN)].

Definition editing_keys : Zmap Z :=
  list_to_map [(10, RABBITBONE_KEY_ENTER); (8, RABBITBONE_KEY_BACKSPACE); (9, RABBITBONE_KEY_TAB); (27, RABBITBONE_KEY_ESC)].

(** The decoder without its queue: the new modifier state and the key, if any. *)
Definition decode (m : modkeys) (sc : Z) : modkeys * option (Z * Z) :=
  let '(sh, ct, al, ex) := m in
  let code := sc mod 128 in let press := sc <? 128 in
  if (sc =? 0xfa) || (sc =? 0xfe) then (m, None) else
  if sc =? 0xe0 then ((sh, ct, al, true), None) else
  if sc =? 0xe1 then ((sh, ct, al, false), None) else
  if negb ex && ((code =? 42) || (code =? 54)) then ((press, ct, al, false), None) else
  if code =? 29 then ((sh, press, al, false), None) else
  if code =? 56 then ((sh, ct, press, false), None) else
  ((sh, ct, al, false),
   if negb press then None else
   if ex then
     (λ k, (k, 0)) <$> navigation_keys !! code
   else
     let c := default 0 ((if sh then shift_map else normal_map) !! Z.to_nat code) in
     let c := if ct && ((97 <=? c) && (c <=? 122)) then c - 96 else if ct && ((65 <=? c) && (c <=? 90)) then c - 64 else c in
     if c =? 0 then None else
     Some (default RABBITBONE_KEY_CHAR (editing_keys !! c), c)).

Definition mod_bits (m : modkeys) : Z :=
  let '(sh, ct, al, _) := m in Z.b2z sh + 2 * Z.b2z ct + 4 * Z.b2z al.

(** The queue drops the newest event when it holds 63. *)
Definition offer {A} (q : list A) (x : A) : list A := if zlen q <? QUEUE_SIZE - 1 then q ++ [x] else q.

Definition akbd : Type := modkeys * list rabbitbone_key_event_t.

Definition a_scan (a : akbd) (sc : Z) : akbd :=
  let '(m', k) := decode a.1 sc in
  (m', match k with Some (code, ch) => offer a.2 (mk_event code (mod_bits m') ch sc) | None => a.2 end).

Definition has_char (ev : rabbitbone_key_event_t) : Prop := ev_ch ev ≠ 0.
#[global] Instance has_char_dec ev : Decision (has_char ev) := ltac:(unfold has_char; apply _).

(** Events without a character are skipped and lost. *)
Fixpoint a_getc (q : list rabbitbone_key_event_t) : list rabbitbone_key_event_t * option Z :=
  match q with
  | [] => ([], None)
  | ev :: q => if decide (has_char ev) then (q, Some (wrap8 (ev_ch ev))) else a_getc q
  end.

Inductive kbd_op := KIrq (ports : list Z) | KGet | KTryGet (free : Z → bool) | KPeek | KPending | KGetc.

Inductive kbd_obs := OPorts (rest : list Z) | OEvent (ev : option rabbitbone_key_event_t) | ONum (n : Z) | OChar (c : option Z).

Definition kbd_step (s : kbd_state) (o : kbd_op) : res (kbd_state * kbd_obs) :=
  match o with
  | KIrq ports => '(s, rest) ← keyboard_irq s ports; Ret (s, OPorts rest)
  | KGet => '(s, ev) ← keyboard_get_event s; Ret (s, OEvent ev)
  | KTryGet free => '(s, ev) ← keyboard_try_get_event s free; Ret (s, OEvent ev)
  | KPeek => ev ← keyboard_peek_event s; Ret (s, OEvent ev)
  | KPending => Ret (s, ONum (keyboard_pending s))
  | KGetc => '(s, c) ← keyboard_getc s; Ret (s, OChar c)
  end.

(** Whether one of the 1024 attempts takes the lock. *)
Definition lock_taken (free : Z → bool) : bool := existsb (λ k, free (Z.of_nat k)) (seq 0 1024).

Definition a_step (a : akbd) (o : kbd_op) : akbd * kbd_obs :=
  match o with
  | KIrq ports => (foldl a_scan a (take 32 ports), OPorts (drop 32 ports))
  | KGet => ((a.1, drop 1 a.2), OEvent (a.2 !! 0%nat))
  | KTryGet free => if lock_taken free then ((a.1, drop 1 a.2), OEvent (a.2 !! 0%nat)) else (a, OEvent None)
  | KPeek => (a, OEvent (a.2 !! 0%nat))
  | KPending => (a, ONum (zlen a.2))
  | KGetc => let '(q, c) := a_getc a.2 in ((a.1, q), OChar c)
  end.

Fixpoint kbd_run (s : kbd_state) (ops : list kbd_op) : res (kbd_state * list kbd_obs) :=
  match ops with
  | [] => Ret (s, [])
  | o :: ops => '(s, v) ← kbd_step s o; '(s, vs) ← kbd_run s ops; Ret (s, v :: vs)
  end.

Fixpoint a_run (a : akbd) (ops : list kbd_op) : akbd * list kbd_obs :=
  match ops with
  | [] => (a, [])
  | o :: ops => let '(a, v) := a_step a o in let '(a, vs) := a_run a ops in (a, v :: vs)
  end.

(** ** The ring implements the queue *)

Definition kbd_rel (s : kbd_state) (a : akbd) : Prop :=
  a.1 = (shift_down s, ctrl_down s, alt_down s, extended s) ∧
  zlen (queue s) = QUEUE_SIZE ∧ 0 ≤ head s < QUEUE_SIZE ∧ zlen a.2 < QUEUE_SIZE ∧
  tail s = (head s + zlen a.2) mod QUEUE_SIZE ∧ a.2 = circ (queue s) (head s) (zlen a.2).

Lemma rel_queue s m q q' h t n l :
  kbd_rel s (m, q) → zlen q' = QUEUE_SIZE → 0 ≤ h < QUEUE_SIZE → 0 ≤ n < QUEUE_SIZE → t = (h + n) mod QUEUE_SIZE →
  l = circ q' h n → kbd_rel (set_queue s q' h t) (m, l).
Proof.
  intros (Hm & _) Hq Hh Hn Ht Hl. assert (Hz : zlen l = n) by (rewrite Hl; apply circ_zlen; lia).
  unfold kbd_rel. cbn [fst snd set_queue queue head tail shift_down ctrl_down alt_down extended] in *.
  rewrite Hz. split_and!; done || lia.
Qed.

Lemma mods_bits s m q : kbd_rel s (m, q) → mods s = mod_bits m.
Proof. intros (Hm & _). cbn [fst] in Hm. rewrite Hm. unfold mods, mod_bits. by destruct (shift_down s), (ctrl_down s), (alt_down s). Qed.

Lemma enqueue_event_spec s m q code ch sc :
  kbd_rel s (m, q) →
  ∃ s', enqueue_event s code ch sc = Ret s' ∧ kbd_rel s' (m, offer q (mk_event code (mod_bits m) ch sc)).
Proof.
  intros H. pose proof H as (Hm & Hl & Hh & Hn & Ht & Hq). cbn [fst snd] in *. unfold enqueue_event, QUEUE_SIZE in *.
  pose proof (zlen_nonneg q) as H0. assert (0 ≤ tail s < 64) by (rewrite Ht; apply Z.mod_pos_bound; lia).
  rewrite (wrap_small 32) by lia. unfold offer, QUEUE_SIZE.
  assert (En : (tail s + 1) mod 64 = (head s + (zlen q + 1)) mod 64) by (rewrite Ht, Z.add_mod_idemp_l by lia; f_equal; lia).
  rewrite En. assert (Hnx := mod_add_cases (head s) (zlen q + 1) 64 ltac:(lia) ltac:(lia)).
  destruct (Z.ltb_spec (zlen q) (64 - 1)).
  - destruct (Z.eqb_spec ((head s + (zlen q + 1)) mod 64) (head s)).
    { destruct (Z.ltb_spec (head s + (zlen q + 1)) 64); lia. }
    rewrite wr_inbounds, (mods_bits s m q) by (done || lia). mred. eexists. split; [done |].
    eapply (rel_queue s m q _ _ _ (zlen q + 1)); [done | by rewrite zlen_insert | done | unfold QUEUE_SIZE; lia | done |].
    rewrite Ht, <- Hl, circ_push, <- Hq by lia. done.
  - exists s. split; [| done]. rewrite Hnx. destruct (Z.ltb_spec (head s + (zlen q + 1)) 64); [lia |].
    by destruct (Z.eqb_spec (head s + (zlen q + 1) - 64) (head s)); [| lia].
Qed.

Lemma get_event_spec s m q :
  kbd_rel s (m, q) → ∃ s', keyboard_get_event s = Ret (s', q !! 0%nat) ∧ kbd_rel s' (m, drop 1 q).
Proof.
  intros H. pose proof H as (Hm & Hl & Hh & Hn & Ht & Hq). cbn [fst snd] in *. unfold keyboard_get_event, QUEUE_SIZE in *.
  pose proof (zlen_nonneg q). rewrite mod_add_cases in Ht by lia. destruct q as [|ev q].
  { change (zlen (@nil rabbitbone_key_event_t)) with 0 in *. rewrite Z.add_0_r in Ht. destruct (Z.ltb_spec (head s) 64); [| lia].
    rewrite Ht, Z.eqb_refl. by exists s. }
  rewrite zlen_cons in *. pose proof (zlen_nonneg q). destruct (circ_pop (queue s) (head s) (1 + zlen q)) as (v & Hv & Hc); [lia.. |].
  rewrite <- Hq in Hc. injection Hc as <- Hq'.
  destruct (Z.eqb_spec (head s) (tail s)); [destruct (Z.ltb_spec (head s + (1 + zlen q)) 64); lia |].
  rewrite (proj2 (rd_Ret _ _ ev)) by (split; [lia | done]). mred. rewrite (wrap_small 32) by lia.
  eexists. split; [done |]. cbn [drop].
  eapply (rel_queue s m (ev :: q) _ _ _ (zlen q)); [done | done | by apply Z.mod_pos_bound | unfold QUEUE_SIZE; lia | |].
  - unfold QUEUE_SIZE. rewrite Z.add_mod_idemp_l, Ht, <- mod_add_cases by lia. f_equal. lia.
  - rewrite drop_0, Hq' at 1. rewrite Hl. f_equal. lia.
Qed.

(** ** The decoder *)

Lemma rel_mods s a m' :
  kbd_rel s a → m' = (shift_down s, ctrl_down s, alt_down s, extended s) → kbd_rel s (m', a.2).
Proof. intros (_ & H) Hm. done. Qed.

Lemma release_spec sc : 0 ≤ sc < 256 → negb (Z.land sc 0x80 =? 0) = negb (sc <? 128) ∧ Z.land sc 0x7f = sc mod 128.
Proof.
  intros H. split; [| by apply (Z.land_ones sc 7)].
  assert (Hf : forallb (λ k, Bool.eqb (negb (Z.land (Z.of_nat k) 0x80 =? 0)) (negb (Z.of_nat k <? 128))) (seq 0 256) = true) by (vm_compute; reflexivity).
  rewrite forallb_forall in Hf. specialize (Hf (Z.to_nat sc)). rewrite in_seq, Z2Nat.id, eqb_true_iff in Hf by lia. apply Hf. lia.
Qed.

Lemma map_rd (sh : bool) code :
  0 ≤ code < 128 →
  ∃ c, rd (if sh then shift_map else normal_map) code = Ret c ∧ (if sh then shift_map else normal_map) !! Z.to_nat code = Some c ∧ 0 ≤ c < 128.
Proof.
  intros H. destruct (rd_inbounds (if sh then shift_map else normal_map) code) as [c Hc]; [by destruct sh |].
  exists c. split; [done |]. apply rd_Ret in Hc as [_ Hc]. split; [done |].
  assert (Hf : forallb (λ c, (0 <=? c) && (c <? 128)) (if sh then shift_map else normal_map) = true) by (destruct sh; vm_compute; reflexivity).
  rewrite forallb_forall in Hf. apply list_elem_of_lookup_2, list_elem_of_In, Hf in Hc. lia.
Qed.

Lemma extended_key_spec s code sc :
  extended_key s code sc = match navigation_keys !! code with Some k => enqueue_event s k 0 sc | None => Ret s end.
Proof.
  unfold extended_key.
  repeat (match goal with |- context [code =? ?n] => destruct (Z.eqb_spec code n) as [->|]; [reflexivity |] end).
  unfold navigation_keys. rewrite not_elem_of_list_to_map_1; [done |]. cbn. rewrite !not_elem_of_cons. split_and!; try done.
  apply not_elem_of_nil.
Qed.

Lemma enqueue_char_spec s c sc :
  enqueue_char s c sc = enqueue_event s (default RABBITBONE_KEY_CHAR (editing_keys !! c)) c sc.
Proof.
  unfold enqueue_char.
  repeat (match goal with |- context [c =? ?n] => destruct (Z.eqb_spec c n) as [->|]; [reflexivity |] end).
  unfold editing_keys. rewrite not_elem_of_list_to_map_1; [done |]. cbn. rewrite !not_elem_of_cons. split_and!; try done.
  apply not_elem_of_nil.
Qed.

(** The control conversion of the two ranges of letters. *)
Lemma control_char (ct : bool) c :
  0 ≤ c →
  (let c := if negb (c =? 0) && ct && (97 <=? c) && (c <=? 122) then c - 97 + 1 else c in
   if negb (c =? 0) && ct && (65 <=? c) && (c <=? 90) then c - 65 + 1 else c) =
  (if ct && ((97 <=? c) && (c <=? 122)) then c - 96 else if ct && ((65 <=? c) && (c <=? 90)) then c - 64 else c).
Proof.
  intros Hc. cbv zeta. destruct ct; [| by rewrite !andb_false_r].
  destruct (Z.eqb_spec c 0) as [->|]; [done |]. cbn [negb andb].
  destruct (Z.leb_spec 97 c), (Z.leb_spec c 122); cbn [andb].
  - destruct (Z.leb_spec 65 (c - 97 + 1)); [lia |]. rewrite andb_false_r. simpl. lia.
  - destruct (Z.eqb_spec c 0); [lia |]. cbn [negb andb]. destruct (Z.leb_spec c 90); [lia |]. by rewrite andb_false_r.
  - destruct (Z.eqb_spec c 0); [lia |]. cbn [negb andb]. destruct ((65 <=? c) && (c <=? 90)); lia.
  - lia.
Qed.

Ltac kdone := rewrite ?negb_involutive; eexists; split; [reflexivity | cbn [fst snd]; assumption || (match goal with H : ∀ _ _ _ _, kbd_rel _ _ |- _ => apply H end)].

Lemma scan_spec s a sc :
  kbd_rel s a → 0 ≤ sc < 256 → ∃ s', keyboard_process_scancode s sc = Ret s' ∧ kbd_rel s' (a_scan a sc).
Proof.
  intros H Hsc. destruct a as [m q]. unfold keyboard_process_scancode, a_scan. cbn [fst snd].
  pose proof (proj1 H) as Hm. cbn [fst] in Hm. subst m. destruct (release_spec sc Hsc) as [-> ->].
  assert (Hcode : 0 ≤ sc mod 128 < 128) by (apply Z.mod_pos_bound; lia).
  assert (Hset : ∀ sh ct al ex, kbd_rel (mk_kbd (queue s) (head s) (tail s) sh ct al ex) ((sh, ct, al, ex), q)) by (intros; by destruct H).
  unfold decode. destruct ((sc =? 0xfa) || (sc =? 0xfe)); [kdone |].
  destruct (sc =? 0xe0); [kdone |]. destruct (sc =? 0xe1); [kdone |].
  set (code := sc mod 128) in *. destruct (extended s) eqn:Ex; cbn [negb andb].
  - destruct (Z.eqb_spec code 29); [kdone |].
    destruct (Z.eqb_spec code 56); [kdone |].
    destruct (sc <? 128); cbn [negb]; [| kdone].
    rewrite extended_key_spec. destruct (navigation_keys !! code) as [k|]; [| kdone].
    apply enqueue_event_spec, Hset.
  - destruct ((code =? 42) || (code =? 54)); [kdone |].
    destruct (Z.eqb_spec code 29); [kdone |].
    destruct (Z.eqb_spec code 56); [kdone |].
    destruct (sc <? 128); cbn [negb]; [| kdone].
    destruct (Z.ltb_spec code 128); [| lia]. cbn [shift_down ctrl_down set_extended].
    destruct (map_rd (shift_down s) code Hcode) as (c & -> & -> & Hc). mred. cbn [default].
    rewrite control_char by lia.
    set (c' := if ctrl_down s && _ then _ else _). destruct (c' =? 0); cbn [negb]; [kdone |].
    rewrite enqueue_char_spec. apply enqueue_event_spec, Hset.
Qed.

Lemma irq_spec s a ports :
  kbd_rel s a → Forall is_u8 ports →
  ∃ s', keyboard_irq s ports = Ret (s', drop 32 ports) ∧ kbd_rel s' (foldl a_scan a (take 32 ports)).
Proof.
  unfold keyboard_irq. change (Z.to_nat KBD_IRQ_DRAIN_LIMIT) with 32%nat. generalize 32%nat as n. generalize 0 as i.
  intros i n. revert i s a ports. induction n as [|n IH]; intros i s a ports H Hp; cbn [loop_n].
  { mred. exists s. by rewrite take_0, drop_0. }
  destruct Hp as [|sc ports Hsc Hp]; mred; [by exists s |].
  destruct (scan_spec s a sc H Hsc) as (s1 & -> & H1). mred. apply IH; done.
Qed.

Lemma try_get_spec s m q free :
  kbd_rel s (m, q) →
  ∃ s', keyboard_try_get_event s free = Ret (s', if lock_taken free then q !! 0%nat else None) ∧
        kbd_rel s' (m, if lock_taken free then drop 1 q else q).
Proof.
  intros H. destruct (get_event_spec s m q H) as (s' & E & H'). unfold keyboard_get_event in E. unfold keyboard_try_get_event, lock_taken.
  assert (Hl : ∀ n i, loop_n n (Z.of_nat i) (λ spin (_ : unit), if free spin then
      if negb (head s =? tail s) then ev ← rd (queue s) (head s);
        Ret (Done (set_queue s (queue s) (wrap32 (head s + 1) mod QUEUE_SIZE) (tail s), Some ev)) else Ret (Done (s, None))
      else Ret (Next tt)) tt = Ret (if existsb (λ k, free (Z.of_nat k)) (seq i n) then Done (s', q !! 0%nat) else Next tt)).
  { intros n. induction n as [|n IH]; intros i; cbn [loop_n seq existsb]; [done |]. destruct (free (Z.of_nat i)); cbn [orb].
    - destruct (head s =? tail s); cbn [negb]; [by injection E as -> <- |].
      destruct (rd (queue s) (head s)); mred; [| done]. revert E. mred. intros E. by injection E as -> <-.
    - mred. rewrite <- IH. f_equal. lia. }
  specialize (Hl 1024%nat O). change (Z.of_nat 0) with 0 in Hl. rewrite Hl. mred.
  destruct (existsb (λ k, free (Z.of_nat k)) (seq 0 1024)); [by exists s' | by exists s].
Qed.

Lemma getc_loop_spec fuel s m q :
  kbd_rel s (m, q) → (length q < fuel)%nat →
  ∃ s', getc_loop fuel s = Ret (s', (a_getc q).2) ∧ kbd_rel s' (m, (a_getc q).1).
Proof.
  revert s q. induction fuel as [|k IH]; intros s q H Hf; [lia |]. cbn [getc_loop].
  destruct (get_event_spec s m q H) as (s1 & -> & H1). mred. destruct q as [|ev q]; [by exists s1 |].
  cbn [lookup list_lookup a_getc drop] in *. rewrite drop_0 in H1.
  unfold has_char. destruct (Z.eqb_spec (ev_ch ev) 0) as [E|E]; cbn [negb].
  - rewrite decide_False by (by intros Hn). apply IH; [done |]. simpl in Hf. lia.
  - rewrite decide_True by done. by exists s1.
Qed.

Lemma pending_spec s a : kbd_rel s a → keyboard_pending s = zlen a.2.
Proof.
  intros (_ & _ & Hh & Hn & Ht & _). unfold keyboard_pending, QUEUE_SIZE in *. pose proof (zlen_nonneg a.2).
  rewrite mod_add_cases in Ht by lia. rewrite (wrap_small 32); destruct (Z.ltb_spec (head s + zlen a.2) 64), (Z.leb_spec (head s) (tail s)); lia.
Qed.

Lemma kbd_step_spec s a o :
  kbd_rel s a → (∀ ports, o = KIrq ports → Forall is_u8 ports) →
  ∃ s', kbd_step s o = Ret (s', (a_step a o).2) ∧ kbd_rel s' (a_step a o).1.
Proof.
  intros H Ho. destruct a as [m q], o as [ports| |free| | |]; cbn [kbd_step a_step fst snd].
  - destruct (irq_spec s _ ports H (Ho _ eq_refl)) as (s' & -> & H'). mred. by exists s'.
  - destruct (get_event_spec s m q H) as (s' & -> & H'). mred. by exists s'.
  - destruct (try_get_spec s m q free H) as (s' & -> & H'). mred. exists s'. by destruct (lock_taken free).
  - destruct (get_event_spec s m q H) as (s' & E & _). unfold keyboard_get_event in E. unfold keyboard_peek_event.
    exists s. split; [| done]. destruct (head s =? tail s); [by injection E as _ -> |].
    destruct (rd (queue s) (head s)); [| done]. revert E. mred. intros E. by injection E as _ ->.
  - exists s. split; [| done]. by rewrite (pending_spec s (m, q) H).
  - destruct (getc_loop_spec (Z.to_nat QUEUE_SIZE) s m q H) as (s' & E & H').
    { destruct H as (_ & _ & _ & Hn & _). cbn [snd] in Hn. unfold zlen, QUEUE_SIZE in *. lia. }
    unfold keyboard_getc. rewrite E. mred. exists s'. by destruct (a_getc q).
Qed.

Definition scancodes_ok (o : kbd_op) : Prop := match o with KIrq ports => Forall is_u8 ports | _ => True end.

Definition idle : akbd := ((false, false, false, false), []).

Lemma kbd_run_spec s a ops :
  kbd_rel s a → Forall scancodes_ok ops →
  ∃ s', kbd_run s ops = Ret (s', (a_run a ops).2) ∧ kbd_rel s' (a_run a ops).1.
Proof.
  intros H Hops. revert a s H.
  induction Hops as [|o ops Ho Hops IH]; intros a s H; cbn [kbd_run a_run]; [by exists s |].
  destruct (kbd_step_spec s a o H) as (s1 & -> & H1); [intros ports ->; done |]. mred.
  destruct (a_step a o) as [a1 v]. cbn [fst snd] in *. destruct (IH a1 s1 H1) as (s2 & -> & H2). mred.
  exists s2. by destruct (a_run a1 ops).
Qed.

Lemma init_rel s0 : zlen (queue s0) = QUEUE_SIZE → kbd_rel (keyboard_init s0) idle.
Proof. intros Hq. unfold kbd_rel, keyboard_init, idle. cbn. unfold QUEUE_SIZE in *. split_and!; done || lia. Qed.

(** C24: from [keyboard_init] on, any interleaving of interrupts and readers
    ([keyboard_get_event], [keyboard_try_get_event], [keyboard_peek_event],
    [keyboard_pending], [keyboard_getc]) observes a FIFO of at most 63 decoded
    events that drops the newest when full: the ring indices never leave the
    array, every reader terminates, an interrupt takes at most 32 bytes. *)
Theorem keyboard_refines_queue s0 ops :
  zlen (queue s0) = QUEUE_SIZE → Forall scancodes_ok ops →
  ∃ s', kbd_run (keyboard_init s0) ops = Ret (s', (a_run ((false, false, false, false), []) ops).2) ∧
        kbd_rel s' (a_run ((false, false, false, false), []) ops).1.
Proof.
  intros Hq Hops. by apply kbd_run_spec; [apply init_rel |].
Qed.

Lemma keyboard_refines_queue_witness :
  ∃ s', kbd_run (keyboard_init (mk_kbd (replicate 64 (mk_event 0 0 0 0)) 5 7 true true true true)) [KIrq [42; 30; 158; 170]; KPending; KGetc; KGetc] =
    Ret (s', [OPorts []; ONum 1; OChar (Some 65); OChar None]).
Proof.
  destruct (keyboard_refines_queue (mk_kbd (replicate 64 (mk_event 0 0 0 0)) 5 7 true true true true)
    [KIrq [42; 30; 158; 170]; KPending; KGetc; KGetc]) as (s' & H & _); [reflexivity | | exists s'; exact H].
  repeat constructor; unfold is_u8; lia.
Defined.

(** ** Typing *)

(** The US keyboard, as its keys lie: the scancode of the first key of each row, what the
    keys of the row give, and what they give with shift. *)
Definition us_rows : list (Z * list Z * list Z) :=
  [(2, bytes_of "1234567890-=", bytes_of "!@#$%^&*()_+");
   (16, bytes_of "qwertyuiop[]", bytes_of "QWERTYUIOP{}");
   (30, bytes_of "asdfghjkl;'`", bytes_of "ASDFGHJKL:" ++ [34; 126]);
   (43, bytes_of "\", bytes_of "|");
   (44, bytes_of "zxcvbnm,./", bytes_of "ZXCVBNM<>?");
   (57, bytes_of " ", [])].

Fixpoint index_of (c : Z) (l : list Z) (i : Z) : option Z :=
  match l with [] => None | x :: l => if x =? c then Some i else index_of c l (i + 1) end.

(** The key of a character, and whether it needs shift. *)
Fixpoint us_key (rows : list (Z * list Z * list Z)) (c : Z) : option (Z * bool) :=
  match rows with
  | [] => None
  | (first, plain, shifted) :: rows =>
      match index_of c plain first, index_of c shifted first with
      | Some k, _ => Some (k, false)
      | None, Some k => Some (k, true)
      | None, None => us_key rows c
      end
  end.

(** Escape, backspace, tab and enter have keys of their own. *)
Definition key_of (c : Z) : option (Z * bool) :=
  if c =? 27 then Some (1, false) else if c =? 8 then Some (14, false) else if c =? 9 then Some (15, false) else
  if c =? 10 then Some (28, false) else us_key us_rows c.

(** Press and release, inside a press and release of the left shift where it is needed. *)
Definition keystrokes (c : Z) : list Z :=
  match key_of c with
  | Some (k, false) => [k; k + 128]
  | Some (k, true) => [42; k; k + 128; 170]
  | None => []
  end.

Definition scancodes_of (text : list Z) : list Z := concat (map keystrokes text).

Definition typable (c : Z) : Prop := 32 ≤ c ≤ 126 ∨ c = 8 ∨ c = 9 ∨ c = 10 ∨ c = 27.

(** The events of a scancode sequence, without the queue. *)
Fixpoint decode_all (m : modkeys) (scs : list Z) : modkeys * list rabbitbone_key_event_t :=
  match scs with
  | [] => (m, [])
  | sc :: scs =>
      let '(m', k) := decode m sc in
      let '(m'', evs) := decode_all m' scs in
      (m'', match k with Some (code, ch) => mk_event code (mod_bits m') ch sc :: evs | None => evs end)
  end.

Lemma a_scan_all m q scs :
  zlen q + zlen (decode_all m scs).2 < QUEUE_SIZE →
  foldl a_scan (m, q) scs = ((decode_all m scs).1, q ++ (decode_all m scs).2).
Proof.
  revert m q. induction scs as [|sc scs IH]; intros m q H; cbn [foldl decode_all] in *; [by rewrite app_nil_r |].
  unfold a_scan at 2. cbn [fst snd]. destruct (decode m sc) as [m1 k] eqn:Ed. specialize (IH m1).
  destruct (decode_all m1 scs) as [m2 evs]. cbn [fst snd] in *. pose proof (zlen_nonneg evs).
  destruct k as [[code ch]|]; [| by apply IH].
  rewrite zlen_cons in H. unfold offer. destruct (Z.ltb_spec (zlen q) (QUEUE_SIZE - 1)); [| lia].
  rewrite IH by (rewrite zlen_app, zlen_1; lia). by rewrite <- app_assoc.
Qed.

(** Every typable character has a key, which decodes to it and leaves no modifier down. *)
Definition key_ok (c : Z) : bool :=
  forallb (λ sc, (0 <=? sc) && (sc <? 256)) (keystrokes c) &&
  match decode_all idle.1 (keystrokes c) with ((false, false, false, false), [ev]) => ev_ch ev =? c | _ => false end.

Lemma keystrokes_spec c : typable c → Forall is_u8 (keystrokes c) ∧ ∃ ev, decode_all idle.1 (keystrokes c) = (idle.1, [ev]) ∧ ev_ch ev = c.
Proof.
  intros Hc. assert (Hf : forallb (λ k, key_ok (Z.of_nat k)) ([8; 9; 10; 27]%nat ++ seq 32 95) = true) by (vm_compute; reflexivity).
  rewrite forallb_forall in Hf. specialize (Hf (Z.to_nat c)). rewrite in_app_iff, in_seq, Z2Nat.id in Hf by (unfold typable in Hc; lia).
  assert (H : key_ok c = true).
  { apply Hf. unfold typable in Hc. destruct Hc as [Hc|[->|[->|[->| ->]]]]; [right; lia | left; cbn; tauto..]. }
  apply andb_prop in H as [H1 H2]. split.
  - apply Forall_forall. intros sc Hsc. rewrite forallb_forall in H1. specialize (H1 sc (proj1 (list_elem_of_In _ _) Hsc)). unfold is_u8. lia.
  - destruct (decode_all idle.1 (keystrokes c)) as [[[[[] []] []] []] [|ev [|]]]; try done. exists ev. split; [done | lia].
Qed.

Lemma decode_all_app m a b :
  decode_all m (a ++ b) = ((decode_all (decode_all m a).1 b).1, (decode_all m a).2 ++ (decode_all (decode_all m a).1 b).2).
Proof.
  revert m. induction a as [|sc a IH]; intros m; cbn [app decode_all fst snd]; [by destruct (decode_all m b) |].
  destruct (decode m sc) as [m1 k]. rewrite IH. destruct (decode_all m1 a) as [m2 evs]. cbn [fst snd]. by destruct k as [[]|].
Qed.

Lemma scancodes_of_spec text :
  Forall typable text → Forall is_u8 (scancodes_of text) ∧ ∃ evs, decode_all idle.1 (scancodes_of text) = (idle.1, evs) ∧ map ev_ch evs = text.
Proof.
  induction 1 as [|c text Hc Ht [IH1 (evs & IH2 & IH3)]]; [by split; [| exists []] |]. destruct (keystrokes_spec c Hc) as (H1 & ev & H3 & H4). unfold scancodes_of in *. cbn [map concat].
  split; [by apply Forall_app |]. exists (ev :: evs). rewrite decode_all_app, H3. cbn [fst snd]. rewrite IH2. cbn [fst snd app map]. by rewrite H4, IH3.
Qed.

(** Draining a queue whose events all have characters. *)
Lemma a_run_getc m q :
  Forall (λ c, 0 < c < 128) (map ev_ch q) →
  a_run (m, q) (replicate (S (length q)) KGetc) = ((m, []), map (OChar ∘ Some) (map ev_ch q) ++ [OChar None]).
Proof.
  induction q as [|ev q IH]; intros H; [done |]. inversion H as [|? ? H1 H2]; subst.
  change (replicate (S (length (ev :: q))) KGetc) with (KGetc :: replicate (S (length q)) KGetc).
  cbn [a_run a_step fst snd a_getc]. rewrite decide_True by (unfold has_char; lia). rewrite (IH H2).
  cbn [map app]. rewrite (wrap_small 8) by lia. done.
Qed.

Lemma a_run_app a ops1 ops2 :
  a_run a (ops1 ++ ops2) = ((a_run (a_run a ops1).1 ops2).1, (a_run a ops1).2 ++ (a_run (a_run a ops1).1 ops2).2).
Proof.
  revert a. induction ops1 as [|o ops1 IH]; intros a; cbn [app a_run fst snd]; [by destruct (a_run a ops2) |].
  destruct (a_step a o) as [a1 v]. rewrite IH. destruct (a_run a1 ops1) as [a2 vs]. cbn [fst snd]. done.
Qed.

Lemma a_run_irqs a chunks :
  Forall (λ l, (length l ≤ 32)%nat) chunks →
  a_run a (map KIrq chunks) = (foldl a_scan a (concat chunks), replicate (length chunks) (OPorts [])).
Proof.
  intros H. revert a. induction H as [|l chunks Hl H IH]; intros a; [done |]. cbn [map a_run a_step concat length replicate].
  rewrite take_ge, drop_ge by lia. rewrite IH, foldl_app. done.
Qed.

(** A round of typing: a text arrives in interrupts, and is read until nothing is left. *)
Definition round_ops (r : list Z * list (list Z)) : list kbd_op := map KIrq r.2 ++ replicate (S (length r.1)) KGetc.
Definition round_obs (r : list Z * list (list Z)) : list kbd_obs := replicate (length r.2) (OPorts []) ++ map (OChar ∘ Some) r.1 ++ [OChar None].

(** At most 63 characters, over interrupts with at most 32 scancodes each. *)
Definition round_ok (r : list Z * list (list Z)) : Prop :=
  Forall typable r.1 ∧ (length r.1 ≤ 63)%nat ∧ concat r.2 = scancodes_of r.1 ∧ Forall (λ l, (length l ≤ 32)%nat) r.2.

Lemma round_spec r : round_ok r → a_run idle (round_ops r) = (idle, round_obs r) ∧ Forall scancodes_ok (round_ops r).
Proof.
  destruct r as [text chunks]. intros (Ht & Hlen & Hc & Hch). cbn [fst snd] in *. destruct (scancodes_of_spec text Ht) as (Hu & evs & Hd & Hm). unfold round_ops, round_obs. cbn [fst snd]. split.
  - assert (length evs = length text) as Hl by (rewrite <- Hm; by rewrite length_map). assert (Hr : Forall (λ c, 0 < c < 128) text) by (eapply Forall_impl; [exact Ht |]; unfold typable; intros c; cbn beta; lia).
    rewrite a_run_app, a_run_irqs, Hc by done. cbn [fst snd]. unfold idle in *. cbn [fst] in Hd. rewrite a_scan_all by (rewrite Hd; cbn [fst snd]; unfold zlen, QUEUE_SIZE; simpl; lia).
    rewrite Hd. cbn [fst snd app]. rewrite <- Hl, a_run_getc by (by rewrite Hm). cbn [fst snd]. by rewrite Hm.
  - apply Forall_app. split; [| apply Forall_replicate; exact I]. apply Forall_map. rewrite <- Hc in Hu. clear -Hu. induction chunks as [|l chunks IH]; [by constructor |]. cbn [concat] in Hu.
    apply Forall_app in Hu as [H1 H2]. constructor; [done | by apply IH].
Qed.

(** C34: typing works.  The scancodes that a US keyboard sends for a text of printable
    ASCII characters, enter, backspace, tab and escape come back from [keyboard_getc] as
    exactly that text.  The text may be of any length when it is typed in rounds of at
    most 63 characters, each read to its end before the next; within a round the
    scancodes are spread over interrupts in any way with at most 32 each.  The layout is
    [us_rows], not the tables of the driver. *)
Theorem keyboard_types_text s0 rounds :
  zlen (queue s0) = QUEUE_SIZE → Forall round_ok rounds →
  ∃ s', kbd_run (keyboard_init s0) (concat (map round_ops rounds)) = Ret (s', concat (map round_obs rounds)).
Proof.
  intros Hq Hr. assert (H : a_run idle (concat (map round_ops rounds)) = (idle, concat (map round_obs rounds)) ∧ Forall scancodes_ok (concat (map round_ops rounds))).
  { induction Hr as [|r rounds H Hr [IH1 IH2]]; [done |]. destruct (round_spec r H) as [E1 E2]. cbn [map concat]. split; [| by apply Forall_app]. rewrite a_run_app, E1. cbn [fst snd]. by rewrite IH1. }
  destruct H as [E Hok]. destruct (kbd_run_spec (keyboard_init s0) idle _ (init_rel s0 Hq) Hok) as (s' & Er & _). exists s'. by rewrite Er, E.
Qed.

Lemma keyboard_types_text_witness :
  ∃ s', kbd_run (keyboard_init (mk_kbd (replicate 64 (mk_event 0 0 0 0)) 0 0 false false false false))
    (map KIrq [[42; 35; 163]; [170; 23; 151]] ++ replicate 3 KGetc ++ map KIrq [[28; 156]] ++ replicate 2 KGetc) =
    Ret (s', replicate 2 (OPorts []) ++ map (OChar ∘ Some) (bytes_of "Hi") ++ [OChar None; OPorts []; OChar (Some 10); OChar None]).
Proof.
  destruct (keyboard_types_text (mk_kbd (replicate 64 (mk_event 0 0 0 0)) 0 0 false false false false)
    [(bytes_of "Hi", [[42; 35; 163]; [170; 23; 151]]); ([10], [[28; 156]])]) as (s' & E); [reflexivity | | exists s'; exact E].
  repeat constructor; unfold typable; cbn; lia.
Defined.
