(* ===== verification/Tty.v ===== *)
(** * The terminal: [kernel/core/tty.c]

    Terminal modes per process in a table of 32 slots, and the reading side of
    the keyboard.  The screen ([vga.c] behind [console.c]) and the process table
    are seen through the class [Terminal]. *)

From Stdlib Require Import ZArith Lia String.
From stdpp Require Import prelude list_numbers zmap.
From S2P Require Import Prelude Keyboard.

Local Open Scope Z_scope.

Definition TTY_MODE_SLOTS : Z := 32.
Definition RABBITBONE_TTY_MODE_RAW : Z := 1.
Definition RABBITBONE_TTY_MODE_ECHO : Z := 2.
Definition RABBITBONE_TTY_MODE_CANON : Z := 4.
Definition RABBITBONE_TTY_READ_NONBLOCK : Z := 1.
Definition TTY_DEFAULT_MODE : Z := Z.lor RABBITBONE_TTY_MODE_CANON RABBITBONE_TTY_MODE_ECHO.

Record tty_mode_slot_t := mk_slot { used : bool; pid : Z; mode : Z }.

(** The static variables. *)
Record tty_state := mk_tty { kernel_tty_mode : Z; tty_modes : list tty_mode_slot_t }.

(** What the terminal calls: the screen [D] and the running process. *)
Class Terminal (D : Type) := {
  vga_get_size : D → Z * Z;
  vga_get_cursor : D → Z * Z;
  vga_enable_scrollback : D → D * bool;
  console_flush : D → D;
  console_scroll : D → Z → D * bool;
  console_move_cursor : D → Z → Z → D * bool;
  console_set_cursor_visible : D → bool → D * bool;
  console_clear_line : D → D * bool;
  console_clear : D → D;
  process_user_active : D → bool;
  process_current_pid : D → Z;
}.

Definition tty_mode_valid (mode : Z) : bool :=
  let allowed := Z.lor (Z.lor RABBITBONE_TTY_MODE_RAW RABBITBONE_TTY_MODE_ECHO) RABBITBONE_TTY_MODE_CANON in
  if negb (Z.land mode (lnot_w 32 allowed) =? 0) then false else
  if negb (Z.land mode RABBITBONE_TTY_MODE_RAW =? 0) && negb (Z.land mode RABBITBONE_TTY_MODE_CANON =? 0) then false else
  true.

Definition has_pid (s : tty_mode_slot_t) (p : Z) : bool := used s && (pid s =? p).

(** The index of the slot, [None] for NULL. *)
Definition tty_find_slot_locked (t : tty_state) (p : Z) (create : bool) : res (tty_state * option Z) :=
  c ← loop_n (Z.to_nat TTY_MODE_SLOTS) 0 (λ i free_slot,
        s ← rd (tty_modes t) i;
        if has_pid s p then Ret (Done i) else
        match free_slot with
        | None => Ret (Next (if negb (used s) then Some i else None))
        | Some _ => Ret (Next free_slot)
        end) (@None Z);
  match c with
  | Done i => Ret (t, Some i)
  | Next None => Ret (t, None)
  | Next (Some i) =>
      if negb create then Ret (t, None) else
      l ← wr (tty_modes t) i (mk_slot true p TTY_DEFAULT_MODE);
      Ret (mk_tty (kernel_tty_mode t) l, Some i)
  end.

Definition empty_slot : tty_mode_slot_t := mk_slot false 0 0.

(** [current_tty_pid] is an argument of the bodies below. *)
Definition get_mode_of (t : tty_state) (p : Z) : res Z :=
  if negb (p =? 0) then
    '(t, i) ← tty_find_slot_locked t p false;
    match i with Some i => s ← rd (tty_modes t) i; Ret (mode s) | None => Ret (kernel_tty_mode t) end
  else Ret (kernel_tty_mode t).

Definition tty_forget_pid (t : tty_state) (p : Z) : res tty_state :=
  if p =? 0 then Ret t else
  c ← loop_n (Z.to_nat TTY_MODE_SLOTS) 0 (λ i (_ : unit),
        s ← rd (tty_modes t) i;
        if has_pid s p then l ← wr (tty_modes t) i empty_slot; Ret (Done (mk_tty (kernel_tty_mode t) l)) else Ret (Next tt)) tt;
  match c with Done t => Ret t | Next _ => Ret t end.

Definition set_mode_of (t : tty_state) (p m : Z) : res (tty_state * bool) :=
  if negb (tty_mode_valid m) then Ret (t, false) else
  if negb (p =? 0) then
    '(t, i) ← tty_find_slot_locked t p true;
    match i with
    | None => Ret (t, false)
    | Some i => s ← rd (tty_modes t) i; l ← wr (tty_modes t) i (mk_slot (used s) (pid s) m); Ret (mk_tty (kernel_tty_mode t) l, true)
    end
  else Ret (mk_tty m (tty_modes t), true).

Record rabbitbone_ttyinfo_t := mk_ttyinfo {
  rows : Z; cols : Z; cursor_row : Z; cursor_col : Z; info_mode : Z; pending_keys : Z; reserved0 : Z; reserved1 : Z;
}.

Definition tty_key_none : rabbitbone_key_event_t := mk_event RABBITBONE_KEY_NONE 0 0 0.

Section terminal.

Context {D : Type} `{!Terminal D}.

Definition current_tty_pid (d : D) : Z := if process_user_active d then process_current_pid d else 0.

Definition tty_init (d : D) : D * tty_state :=
  let '(d, ok) := vga_enable_scrollback d in
  (d, mk_tty TTY_DEFAULT_MODE (replicate (Z.to_nat TTY_MODE_SLOTS) empty_slot)).

Definition tty_get_mode (d : D) (t : tty_state) : res Z := get_mode_of t (current_tty_pid d).
Definition tty_set_mode (d : D) (t : tty_state) (m : Z) : res (tty_state * bool) := set_mode_of t (current_tty_pid d) m.

(** Every round takes an event of the ring. *)
Fixpoint read_char_loop (fuel : nat) (k : kbd_state) : res (kbd_state * option Z) :=
  match fuel with
  | O => Fault Diverged
  | S n =>
      '(k, ev) ← keyboard_get_event k;
      match ev with
      | None => Ret (k, None)
      | Some ev => if ev_ch ev =? 0 then read_char_loop n k else Ret (k, Some (wrap8 (ev_ch ev)))
      end
  end.

Definition tty_read_char (d : D) (k : kbd_state) : res (D * kbd_state * option Z) :=
  let d := console_flush d in
  '(k, c) ← read_char_loop (Z.to_nat QUEUE_SIZE) k; Ret (d, k, c).

Definition tty_getinfo (d : D) (t : tty_state) (k : kbd_state) : res rabbitbone_ttyinfo_t :=
  let '(r, c) := vga_get_size d in
  let '(cr, cc) := vga_get_cursor d in
  m ← tty_get_mode d t;
  Ret (mk_ttyinfo r c cr cc m (keyboard_pending k) 0 0).

Definition tty_scroll (d : D) (lines : Z) : D * bool := console_scroll d lines.

Definition tty_set_cursor (d : D) (row col : Z) : D * bool :=
  let '(r, c) := vga_get_size d in
  if (r =? 0) || (c =? 0) then (d, false) else
  if (r <=? row) || (c <=? col) then (d, false) else
  console_move_cursor d row col.

Definition tty_set_cursor_visible (d : D) (visible : bool) : D * bool := console_set_cursor_visible d visible.
Definition tty_clear_line (d : D) : D * bool := console_clear_line d.
Definition tty_clear (d : D) : D * bool := (console_clear d, true).

(** The blocking wait: every halt ends with an interrupt that may bring
    scancodes; the list is the future.  Running out of it is waiting forever. *)
Fixpoint wait_key (k : kbd_state) (arrivals : list (list Z)) : res (kbd_state * rabbitbone_key_event_t) :=
  match arrivals with
  | [] => Fault Diverged
  | ports :: arrivals =>
      '(k, _) ← keyboard_irq k ports;
      '(k, ev) ← keyboard_get_event k;
      match ev with Some ev => Ret (k, ev) | None => wait_key k arrivals end
  end.

(** The event stored in [out] (NULL when [has_out] is false) and the result. *)
Definition tty_read_key (d : D) (k : kbd_state) (has_out : bool) (flags : Z) (arrivals : list (list Z))
    : res (D * kbd_state * option rabbitbone_key_event_t * bool) :=
  let d := console_flush d in
  if negb has_out then Ret (d, k, None, false) else
  if negb (Z.land flags (lnot_w 32 RABBITBONE_TTY_READ_NONBLOCK) =? 0) then Ret (d, k, Some tty_key_none, false) else
  '(k, ev) ← keyboard_get_event k;
  match ev with
  | Some ev => Ret (d, k, Some ev, true)
  | None =>
      if negb (Z.land flags RABBITBONE_TTY_READ_NONBLOCK =? 0) || process_user_active d
      then Ret (d, k, Some tty_key_none, true)
      else '(k, ev) ← wait_key k arrivals; Ret (d, k, Some ev, true)
  end.

Definition tty_selftest (d : D) (t : tty_state) (k : kbd_state) : res (D * tty_state * kbd_state * bool) :=
  info ← tty_getinfo d t k;
  if (rows info <? 12) || (cols info <? 40) || (rows info <=? cursor_row info) || (cols info <=? cursor_col info)
  then Ret (d, t, k, false) else
  old ← tty_get_mode d t;
  '(t, ok) ← tty_set_mode d t RABBITBONE_TTY_MODE_RAW;
  if negb ok then Ret (d, t, k, false) else
  m ← tty_get_mode d t;
  if negb (m =? RABBITBONE_TTY_MODE_RAW) then Ret (d, t, k, false) else
  '(t, bad) ← tty_set_mode d t (Z.lor RABBITBONE_TTY_MODE_RAW RABBITBONE_TTY_MODE_CANON);
  if (bad : bool) then Ret (d, t, k, false) else
  '(t, ok) ← tty_set_mode d t old;
  if negb ok then Ret (d, t, k, false) else
  let '(d, ok) := tty_set_cursor d (rows info - 1) (cols info - 1) in
  if negb ok then Ret (d, t, k, false) else
  let '(d, ok) := tty_set_cursor d (if cursor_row info <? rows info then cursor_row info else 0)
                    (if cursor_col info <? cols info then cursor_col info else 0) in
  if negb ok then Ret (d, t, k, false) else
  '(d, k, ev, ok) ← tty_read_key d k true RABBITBONE_TTY_READ_NONBLOCK [];
  if negb ok then Ret (d, t, k, false) else
  match ev with
  | Some ev => Ret (d, t, k, (ev_code ev =? RABBITBONE_KEY_NONE) || (ev_code ev =? RABBITBONE_KEY_CHAR) || (RABBITBONE_KEY_UP <=? ev_code ev))
  | None => Fault Panic
  end.

End terminal.

(** ** The table is a map from processes to modes *)

Definition slot_entry (s : tty_mode_slot_t) : option (Z * Z) := if used s then Some (pid s, mode s) else None.
Definition entries (l : list tty_mode_slot_t) : list (Z * Z) := omap slot_entry l.

(** [m] has the modes set by processes, at most 32. *)
Record tty_rel (t : tty_state) (km : Z) (m : Zmap Z) : Prop := {
  tr_kernel : kernel_tty_mode t = km;
  tr_slots : zlen (tty_modes t) = TTY_MODE_SLOTS;
  tr_nodup : NoDup (entries (tty_modes t)).*1;
  tr_map : m = list_to_map (entries (tty_modes t));
}.

Lemma entries_app l1 l2 : entries (l1 ++ l2) = entries l1 ++ entries l2.
Proof. apply omap_app. Qed.

Lemma entries_middle l1 s l2 :
  used s = true → entries (l1 ++ s :: l2) ≡ₚ ((pid s, mode s) :: entries (l1 ++ l2)).
Proof. intros Hs. rewrite !entries_app. cbn. unfold slot_entry. rewrite Hs. cbn. by rewrite Permutation_middle. Qed.

Lemma entries_unused l1 s l2 : used s = false → entries (l1 ++ s :: l2) = entries (l1 ++ l2).
Proof. intros Hs. rewrite !entries_app. cbn. unfold slot_entry. by rewrite Hs. Qed.

Lemma rel_middle l1 s l2 :
  used s = true → NoDup (entries (l1 ++ s :: l2)).*1 →
  list_to_map (entries (l1 ++ s :: l2)) = (<[pid s := mode s]> (list_to_map (entries (l1 ++ l2)) : Zmap Z)) ∧
  (pid s ∉ (entries (l1 ++ l2)).*1) ∧ NoDup (entries (l1 ++ l2)).*1.
Proof.
  intros Hs Hn. pose proof (entries_middle l1 s l2 Hs) as Hp. split.
  - rewrite (list_to_map_proper _ _ Hn Hp). done.
  - rewrite Hp in Hn. cbn in Hn. by apply NoDup_cons in Hn.
Qed.

(** The scan finds the slot of the process or the first free one. *)
Lemma find_split (l : list tty_mode_slot_t) p :
  (∃ l1 s l2, l = l1 ++ s :: l2 ∧ has_pid s p = true ∧ Forall (λ s, has_pid s p = false) l1) ∨
  Forall (λ s, has_pid s p = false) l.
Proof.
  induction l as [|s l IH]; [by right |]. destruct (has_pid s p) eqn:E; [left; exists [], s, l; by split_and! |].
  destruct IH as [(l1 & s' & l2 & -> & H1 & H2)|H]; [left | right; by constructor].
  exists (s :: l1), s', l2. split_and!; [done.. |]. by constructor.
Qed.

Definition first_free (l : list tty_mode_slot_t) (i : Z) (f : option Z) : option Z :=
  match f with Some _ => f | None => (λ k, i + Z.of_nat k.1) <$> list_find (λ s, used s = false) l end.

Lemma first_free_cons s l i f :
  first_free (s :: l) i f = first_free l (i + 1) (match f with None => if negb (used s) then Some i else None | Some _ => f end).
Proof.
  unfold first_free. destruct f; [done |]. simpl. destruct (used s); cbn [negb].
  - rewrite decide_False by done. destruct (list_find _ l) as [[k x]|]; simpl; [f_equal; lia | done].
  - rewrite decide_True by done. simpl. f_equal. lia.
Qed.

Lemma find_scan (pre l post : list tty_mode_slot_t) p f :
  Forall (λ s, has_pid s p = false) l →
  loop_n (length l) (zlen pre) (λ i free_slot,
    s ← rd (pre ++ l ++ post) i;
    if has_pid s p then Ret (Done i) else
    match free_slot with
    | None => Ret (Next (if negb (used s) then Some i else None))
    | Some _ => Ret (Next free_slot)
    end) f = Ret (Next (first_free l (zlen pre) f)).
Proof.
  revert pre f. induction l as [|s l IH]; intros pre f H; cbn [length loop_n]; [by destruct f |].
  inversion H as [|? ? H1 H2]; subst. rewrite rd_app_r by lia. rewrite Z.sub_diag. cbn [app]. rewrite rd_cons_0. mred. rewrite H1.
  assert (E : pre ++ s :: l ++ post = (pre ++ [s]) ++ l ++ post) by (by rewrite <- app_assoc).
  specialize (IH (pre ++ [s])). rewrite zlen_app, zlen_1 in IH. rewrite E, first_free_cons.
  destruct f; mred; by apply IH.
Qed.

Lemma find_slot_found t p create l1 s l2 :
  zlen (tty_modes t) = TTY_MODE_SLOTS → tty_modes t = l1 ++ s :: l2 → has_pid s p = true →
  Forall (λ s, has_pid s p = false) l1 → tty_find_slot_locked t p create = Ret (t, Some (zlen l1)).
Proof.
  intros Hl E Hs H1. unfold tty_find_slot_locked. rewrite <- Hl, E. unfold zlen at 1. rewrite Nat2Z.id, length_app.
  rewrite loop_n_app. pose proof (find_scan [] l1 (s :: l2) p None H1) as Hf. cbn [app] in Hf. change (zlen []) with 0 in Hf.
  rewrite Hf. mred. cbn [length loop_n]. rewrite Z.add_0_l. fold (zlen l1). rewrite rd_app_r, Z.sub_diag, rd_cons_0 by lia. mred.
  rewrite Hs. done.
Qed.

Lemma find_slot_missing t p create :
  zlen (tty_modes t) = TTY_MODE_SLOTS → Forall (λ s, has_pid s p = false) (tty_modes t) →
  (∃ l1 s l2, tty_modes t = l1 ++ s :: l2 ∧ used s = false ∧
     tty_find_slot_locked t p create =
       Ret (if create then (mk_tty (kernel_tty_mode t) (l1 ++ mk_slot true p TTY_DEFAULT_MODE :: l2), Some (zlen l1)) else (t, None))) ∨
  (Forall (λ s, used s = true) (tty_modes t) ∧ tty_find_slot_locked t p create = Ret (t, None)).
Proof.
  intros Hl H. pose proof (find_scan [] (tty_modes t) [] p None H) as Hf. cbn [app] in Hf. rewrite app_nil_r in Hf.
  change (zlen []) with 0 in Hf. unfold tty_find_slot_locked. rewrite <- Hl. unfold zlen. rewrite Nat2Z.id, Hf. mred.
  unfold first_free. destruct (list_find (λ s, used s = false) (tty_modes t)) as [[k s]|] eqn:E; simpl.
  - left. apply list_find_Some in E as (Hk & Hs & _). destruct (list_elem_of_split_length _ _ _ Hk) as (l1 & l2 & E & ->).
    exists l1, s, l2. split_and!; [done.. |]. destruct create; cbn [negb]; [| done].
    rewrite E. fold (zlen l1). rewrite Z.add_0_l, wr_middle by done. done.
  - right. split; [| done]. apply list_find_None in E. eapply Forall_impl; [exact E |]. intros s Hs. destruct (used s) eqn:Eu; [done | by destruct Hs].
Qed.

Lemma entries_missing l p : Forall (λ s, has_pid s p = false) l → p ∉ (entries l).*1.
Proof.
  intros H Hin. apply list_elem_of_fmap in Hin as ([q m] & -> & Hin). unfold entries in Hin. apply list_elem_of_omap in Hin as (s & Hs & E).
  rewrite Forall_forall in H. specialize (H s Hs). unfold slot_entry in E. unfold has_pid in H. destruct (used s); [| done].
  injection E as <- <-. cbn in H. by rewrite Z.eqb_refl in H.
Qed.

Lemma entries_full l : Forall (λ s, used s = true) l → length (entries l) = length l.
Proof. induction 1 as [|s l Hs H IH]; [done |]. cbn. unfold slot_entry. rewrite Hs. cbn. f_equal. exact IH. Qed.

Lemma entries_le l : (length (entries l) ≤ length l)%nat.
Proof. induction l as [|s l IH]; [done |]. cbn. destruct (slot_entry s); cbn; unfold entries in IH; lia. Qed.

Lemma size_entries l : NoDup (entries l).*1 → size (list_to_map (entries l) : Zmap Z) = length (entries l).
Proof. intros H. rewrite <- length_map_to_list. by rewrite map_to_list_to_map. Qed.

(** What the terminal promises about modes. *)
Definition a_get (km : Z) (m : Zmap Z) (p : Z) : Z := if p =? 0 then km else default km (m !! p).
Definition a_forget (m : Zmap Z) (p : Z) : Zmap Z := if p =? 0 then m else delete p m.
Definition a_set (km : Z) (m : Zmap Z) (p md : Z) : Z * Zmap Z * bool :=
  if negb (tty_mode_valid md) then (km, m, false) else
  if p =? 0 then (md, m, true) else
  if decide (is_Some (m !! p) ∨ (size m < 32)%nat) then (km, <[p := md]> m, true) else (km, m, false).

Lemma get_mode_spec t km m p : tty_rel t km m → get_mode_of t p = Ret (a_get km m p).
Proof.
  intros [Hk Hl Hn ->]. unfold get_mode_of, a_get. destruct (p =? 0); [by rewrite Hk |]. cbn [negb].
  destruct (find_split (tty_modes t) p) as [(l1 & s & l2 & E & Hs & H1)|H].
  - rewrite (find_slot_found t p false l1 s l2) by done. mred. rewrite E, rd_app_r, Z.sub_diag, rd_cons_0 by lia. mred.
    apply andb_prop in Hs as [Hu Hp]. apply Z.eqb_eq in Hp. subst p. rewrite E in Hn.
    destruct (rel_middle l1 s l2 Hu Hn) as [-> _]. by rewrite lookup_insert_eq.
  - rewrite not_elem_of_list_to_map_1 by (by apply entries_missing). simpl.
    destruct (find_slot_missing t p false Hl H) as [(l1 & s & l2 & _ & _ & ->)|[_ ->]]; mred; by rewrite Hk.
Qed.

Lemma forget_spec t km m p : tty_rel t km m → ∃ t', tty_forget_pid t p = Ret t' ∧ tty_rel t' km (a_forget m p).
Proof.
  intros Hr. pose proof Hr as [Hk Hl Hn Hm]. unfold tty_forget_pid, a_forget. destruct (p =? 0); [by exists t |].
  rewrite <- Hl. unfold zlen. rewrite Nat2Z.id.
  assert (Hscan : ∀ pre l post, Forall (λ s, has_pid s p = false) l →
    loop_n (length l) (zlen pre) (λ i (_ : unit), s ← rd (pre ++ l ++ post) i;
      if has_pid s p then l' ← wr (pre ++ l ++ post) i empty_slot; Ret (Done (mk_tty (kernel_tty_mode t) l')) else Ret (Next tt)) tt
    = Ret (Next tt)).
  { intros pre l. revert pre. induction l as [|s l IH]; intros pre post H; [done |]. cbn [length loop_n app].
    inversion H as [|? ? H1 H2]; subst. rewrite rd_app_r, Z.sub_diag, rd_cons_0 by lia. mred. rewrite H1.
    specialize (IH (pre ++ [s]) post H2). rewrite zlen_app, zlen_1, <- app_assoc in IH. exact IH. }
  destruct (find_split (tty_modes t) p) as [(l1 & s & l2 & E & Hs & H1)|H].
  - rewrite E, length_app, loop_n_app. specialize (Hscan [] l1 (s :: l2) H1). cbn [app] in Hscan. change (zlen []) with 0 in Hscan.
    rewrite Hscan. mred. cbn [length loop_n]. rewrite Z.add_0_l. fold (zlen l1). rewrite rd_app_r, Z.sub_diag, rd_cons_0 by lia. mred.
    rewrite Hs, wr_middle by done. mred. eexists. split; [done |]. cbn [drop]. rewrite drop_0.
    apply andb_prop in Hs as [Hu Hp]. apply Z.eqb_eq in Hp. subst p. rewrite E in Hn.
    destruct (rel_middle l1 s l2 Hu Hn) as (E2 & Hnin & Hn2). split; cbn [tty_modes kernel_tty_mode]; [done | | |].
    + rewrite <- Hl, E, !zlen_app, !zlen_cons. lia.
    + by rewrite entries_unused.
    + rewrite entries_unused by done. rewrite Hm, E, E2, delete_insert_id; [done |]. by apply not_elem_of_list_to_map_1.
  - specialize (Hscan [] (tty_modes t) [] H). cbn [app] in Hscan. rewrite app_nil_r in Hscan. change (zlen []) with 0 in Hscan.
    rewrite Hscan. mred. exists t. split; [done |]. rewrite delete_id; [done |]. rewrite Hm.
    by apply not_elem_of_list_to_map_1, entries_missing.
Qed.

Lemma set_mode_spec t km m p md :
  tty_rel t km m → ∃ t', set_mode_of t p md = Ret (t', (a_set km m p md).2) ∧ tty_rel t' (a_set km m p md).1.1 (a_set km m p md).1.2.
Proof.
  intros Hr. pose proof Hr as [Hk Hl Hn Hm]. unfold set_mode_of, a_set. destruct (tty_mode_valid md); cbn [negb]; [| by exists t].
  destruct (p =? 0); cbn [negb]; [by eexists |].
  destruct (find_split (tty_modes t) p) as [(l1 & s & l2 & E & Hs & H1)|H].
  - rewrite (find_slot_found t p true l1 s l2) by done. mred. rewrite E, rd_app_r, Z.sub_diag, rd_cons_0 by lia. mred.
    rewrite wr_middle by done. mred. apply andb_prop in Hs as [Hu Hp]. apply Z.eqb_eq in Hp. subst p. rewrite Hu. cbn [drop]. rewrite drop_0.
    rewrite E in Hn. destruct (rel_middle l1 s l2 Hu Hn) as (E2 & Hnin & Hn2).
    rewrite decide_True by (left; rewrite Hm, E, E2, lookup_insert_eq; eauto). cbn [fst snd].
    eexists. split; [done |]. set (s' := mk_slot true (pid s) md).
    assert (Hp : entries (l1 ++ s' :: l2) ≡ₚ ((pid s, md) :: entries (l1 ++ l2))) by (by apply (entries_middle l1 s' l2)).
    assert (Hn3 : NoDup (entries (l1 ++ s' :: l2)).*1) by (rewrite Hp; by apply NoDup_cons).
    split; cbn [tty_modes kernel_tty_mode]; [done | | done |].
    + rewrite <- Hl, E, !zlen_app, !zlen_cons. lia.
    + rewrite (proj1 (rel_middle l1 s' l2 eq_refl Hn3)). rewrite Hm, E, E2, insert_insert_eq. done.
  - assert (Hnone : m !! p = None) by (rewrite Hm; by apply not_elem_of_list_to_map_1, entries_missing).
    assert (Hsize : size m = length (entries (tty_modes t))) by (rewrite Hm; by apply size_entries).
    destruct (find_slot_missing t p true Hl H) as [(l1 & s & l2 & E & Hs & ->)|[Hfull ->]]; mred.
    + cbn [tty_modes kernel_tty_mode]. rewrite rd_app_r, Z.sub_diag, rd_cons_0 by lia. mred. rewrite wr_middle by done. mred.
      cbn [used pid drop]. rewrite drop_0. rewrite E in Hn, Hsize, Hm, H. rewrite entries_unused in Hn, Hsize, Hm by done.
      assert (Hlt : (size m < 32)%nat).
      { rewrite Hsize. rewrite E in Hl. unfold zlen, TTY_MODE_SLOTS in Hl. rewrite length_app in Hl. cbn [length] in Hl.
        eapply Nat.le_lt_trans; [apply entries_le |]. rewrite length_app. lia. }
      rewrite decide_True by (by right). cbn [fst snd]. eexists. split; [done |]. set (s' := mk_slot true p md).
      assert (Hp : entries (l1 ++ s' :: l2) ≡ₚ ((p, md) :: entries (l1 ++ l2))) by (by apply (entries_middle l1 s' l2)).
      assert (Hn3 : NoDup (entries (l1 ++ s' :: l2)).*1).
      { rewrite Hp. apply NoDup_cons. split; [| done]. apply entries_missing. apply Forall_app in H as [H2 H3].
        inversion H3; subst. by apply Forall_app. }
      split; cbn [tty_modes kernel_tty_mode]; [done | | done |].
      * rewrite <- Hl, E, !zlen_app, !zlen_cons. lia.
      * rewrite (proj1 (rel_middle l1 s' l2 eq_refl Hn3)). by rewrite Hm.
    + rewrite decide_False; [by exists t |]. intros [[x Hx]|Hlt]; [by rewrite Hnone in Hx |].
      rewrite Hsize, entries_full in Hlt by done. unfold zlen, TTY_MODE_SLOTS in Hl. lia.
Qed.

Inductive tty_op := TSet (p md : Z) | TGet (p : Z) | TForget (p : Z).

Definition tty_step (t : tty_state) (o : tty_op) : res (tty_state * Z) :=
  match o with
  | TSet p md => '(t, ok) ← set_mode_of t p md; Ret (t, Z.b2z ok)
  | TGet p => m ← get_mode_of t p; Ret (t, m)
  | TForget p => t ← tty_forget_pid t p; Ret (t, 0)
  end.

Definition map_step (a : Z * Zmap Z) (o : tty_op) : Z * Zmap Z * Z :=
  match o with
  | TSet p md => ((a_set a.1 a.2 p md).1, Z.b2z (a_set a.1 a.2 p md).2)
  | TGet p => (a, a_get a.1 a.2 p)
  | TForget p => ((a.1, a_forget a.2 p), 0)
  end.

Fixpoint tty_run (t : tty_state) (ops : list tty_op) : res (tty_state * list Z) :=
  match ops with [] => Ret (t, []) | o :: ops => '(t, v) ← tty_step t o; '(t, vs) ← tty_run t ops; Ret (t, v :: vs) end.

Fixpoint map_run (a : Z * Zmap Z) (ops : list tty_op) : Z * Zmap Z * list Z :=
  match ops with [] => (a, []) | o :: ops => let '(a, v) := map_step a o in let '(a, vs) := map_run a ops in (a, v :: vs) end.

(** The mode table implements a map from processes to modes.  From [tty_init]
    on, any sequence of [tty_set_mode], [tty_get_mode] and [tty_forget_pid] on
    behalf of any processes returns what the map returns: a process reads back the
    last mode it set, falls back to the kernel's mode, one process never sees
    another's, invalid modes are refused, and setting fails only when 32 other
    processes hold a slot. *)
Theorem tty_modes_refine_map {D} `{!Terminal D} (d : D) (ops : list tty_op) :
  ∃ t', tty_run (tty_init d).2 ops = Ret (t', (map_run (TTY_DEFAULT_MODE, ∅) ops).2) ∧
        tty_rel t' (map_run (TTY_DEFAULT_MODE, ∅) ops).1.1 (map_run (TTY_DEFAULT_MODE, ∅) ops).1.2.
Proof.
  assert (H : tty_rel (tty_init d).2 TTY_DEFAULT_MODE ∅).
  { unfold tty_init. destruct (vga_enable_scrollback d). split; try done. apply NoDup_nil_2. }
  revert H. generalize ((tty_init d).2) as t. generalize TTY_DEFAULT_MODE as km. generalize (∅ : Zmap Z) as m.
  induction ops as [|o ops IH]; intros m km t H; cbn [tty_run map_run]; [by exists t |].
  assert (Hstep : ∃ t', tty_step t o = Ret (t', (map_step (km, m) o).2) ∧
    tty_rel t' (map_step (km, m) o).1.1 (map_step (km, m) o).1.2).
  { destruct o as [p md|p|p]; cbn [tty_step map_step fst snd].
    - destruct (set_mode_spec t km m p md H) as (t' & -> & H'). mred. by exists t'.
    - rewrite (get_mode_spec t km m p H). mred. by exists t.
    - destruct (forget_spec t km m p H) as (t' & -> & H'). mred. by exists t'. }
  destruct Hstep as (t1 & -> & H1). mred. destruct (map_step (km, m) o) as [[km1 m1] v]. cbn [fst snd] in *.
  destruct (IH m1 km1 t1 H1) as (t2 & -> & H2). mred. exists t2. by destruct (map_run (km1, m1) ops).
Qed.

(** A fixed 25 by 80 screen with a cursor, and a running process. *)
#[local] Instance fixed_terminal : Terminal (Z * Z * Z) := {
  vga_get_size _ := (25, 80);
  vga_get_cursor d := (d.1.1, d.1.2);
  vga_enable_scrollback d := (d, true);
  console_flush d := d;
  console_scroll d _ := (d, true);
  console_move_cursor d r c := ((r, c, d.2), true);
  console_set_cursor_visible d _ := (d, true);
  console_clear_line d := (d, true);
  console_clear d := (0, 0, d.2);
  process_user_active d := negb (d.2 =? 0);
  process_current_pid d := d.2;
}.

Lemma tty_modes_refine_map_witness :
  ∃ t', tty_run (tty_init (0, 0, 7)).2 [TSet 7 1; TGet 7; TGet 8; TSet 8 5; TForget 7; TGet 7] = Ret (t', [1; 1; 6; 0; 0; 6]).
Proof.
  destruct (tty_modes_refine_map (0, 0, 7) [TSet 7 1; TGet 7; TGet 8; TSet 8 5; TForget 7; TGet 7]) as (t' & H & _).
  exists t'. refine (eq_trans H _). vm_compute. reflexivity.
Defined.

(** ** Reading keys *)

(** The first key that the interrupts to come bring, with the queue after it. *)
Fixpoint a_wait (a : akbd) (arrivals : list (list Z)) : option (akbd * rabbitbone_key_event_t) :=
  match arrivals with
  | [] => None
  | ports :: arrivals =>
      let a := foldl a_scan a (take 32 ports) in
      match a.2 with ev :: q => Some ((a.1, q), ev) | [] => a_wait a arrivals end
  end.

Lemma wait_key_spec k a arrivals :
  kbd_rel k a → Forall (Forall is_u8) arrivals →
  match a_wait a arrivals with
  | Some (a', ev) => ∃ k', wait_key k arrivals = Ret (k', ev) ∧ kbd_rel k' a'
  | None => wait_key k arrivals = Fault Diverged
  end.
Proof.
  intros H Harr. revert k a H. induction Harr as [|ports arrivals Hp Harr IH]; intros k a H; cbn [a_wait wait_key]; [done |].
  destruct (irq_spec k a ports H Hp) as (k1 & -> & H1). mred. set (a1 := foldl a_scan a (take 32 ports)) in *.
  destruct a1 as [m1 q1]. destruct (get_event_spec k1 m1 q1 H1) as (k2 & -> & H2). mred.
  destruct q1 as [|ev q1]; cbn [snd fst lookup list_lookup drop] in *.
  - by apply IH.
  - rewrite drop_0 in H2. by exists k2.
Qed.

(** [tty_read_key] returns the oldest pending event and removes it; without
    one, a non-blocking or user-process caller gets [KEY_NONE] at once, while a
    kernel caller waits through interrupts and returns the first event they bring
    (waiting forever only if none ever does); unknown flags and a NULL
    destination fail without touching the queue. *)
Theorem tty_read_key_correct {D} `{!Terminal D} (d : D) k a flags arrivals :
  kbd_rel k a → is_u32 flags → Forall (Forall is_u8) arrivals →
  tty_read_key d k false flags arrivals = Ret (console_flush d, k, None, false) ∧
  (2 ≤ flags → tty_read_key d k true flags arrivals = Ret (console_flush d, k, Some tty_key_none, false)) ∧
  (flags < 2 →
   match a.2 with
   | ev :: q => ∃ k', tty_read_key d k true flags arrivals = Ret (console_flush d, k', Some ev, true) ∧ kbd_rel k' (a.1, q)
   | [] =>
       if (flags =? 1) || process_user_active (console_flush d)
       then ∃ k', tty_read_key d k true flags arrivals = Ret (console_flush d, k', Some tty_key_none, true) ∧ kbd_rel k' a
       else match a_wait a arrivals with
            | Some (a', ev) => ∃ k', tty_read_key d k true flags arrivals = Ret (console_flush d, k', Some ev, true) ∧ kbd_rel k' a'
            | None => tty_read_key d k true flags arrivals = Fault Diverged
            end
   end).
Proof.
  intros H Hf Harr. unfold tty_read_key. cbn [negb]. split; [done |].
  assert (Hmask : (Z.land flags (lnot_w 32 RABBITBONE_TTY_READ_NONBLOCK) =? 0) = (flags <? 2)).
  { apply eq_true_iff_eq. rewrite Z.eqb_eq, Z.ltb_lt. unfold RABBITBONE_TTY_READ_NONBLOCK.
    rewrite (lnot_w_ldiff 32) by lia. change (Z.ldiff (Z.ones 32) 1) with (Z.ones 31 * 2 ^ 1).
    rewrite <- Z.shiftl_mul_pow2 by lia.
    assert (E : Z.land flags (Z.shiftl (Z.ones 31) 1) = flags / 2 * 2).
    { change 2 with (2 ^ 1) at 1 2. rewrite <- (Z.shiftr_div_pow2 flags 1), <- (Z.shiftl_mul_pow2 _ 1) by lia. apply Z.bits_inj'. intros n Hn.
      rewrite Z.land_spec. destruct (decide (n < 1)).
      - rewrite !Z.shiftl_spec_low by lia. apply andb_false_r.
      - rewrite !Z.shiftl_spec by lia. rewrite Z.shiftr_spec by lia. replace (n - 1 + 1) with n by lia.
        destruct (decide (n - 1 < 31)); [rewrite Z.ones_spec_low by lia; apply andb_true_r |].
        rewrite Z.ones_spec_high by lia. rewrite andb_false_r. symmetry. apply (testbit_high 32); [done | lia]. }
    rewrite E. pose proof (Z.div_mod flags 2 ltac:(lia)). pose proof (Z.mod_pos_bound flags 2 ltac:(lia)). unfold is_u32 in Hf. lia. }
  rewrite Hmask. split.
  { intros H2. destruct (Z.ltb_spec flags 2); [lia | done]. }
  intros H2. destruct (Z.ltb_spec flags 2); [| lia]. cbn [negb].
  destruct a as [m q]. destruct (get_event_spec k m q H) as (k1 & -> & H1). mred.
  destruct q as [|ev q]; cbn [fst snd lookup list_lookup drop] in *; [| rewrite drop_0 in H1; by exists k1].

  assert (Hnb : negb (Z.land flags RABBITBONE_TTY_READ_NONBLOCK =? 0) = (flags =? 1)).
  { unfold is_u32 in Hf. assert (flags = 0 ∨ flags = 1) as [->| ->] by lia; done. }
  rewrite Hnb. destruct ((flags =? 1) || process_user_active (console_flush d)); [by exists k1 |].
  pose proof (wait_key_spec k1 (m, []) arrivals H1 Harr) as Hw. destruct (a_wait (m, []) arrivals) as [[a' ev]|].
  - destruct Hw as (k' & -> & Hk). mred. by exists k'.
  - by rewrite Hw.
Qed.

Lemma tty_read_key_correct_witness :
  tty_read_key (0, 0, 0) (keyboard_init (mk_kbd (replicate 64 (mk_event 0 0 0 0)) 0 0 false false false false)) false 0 [[]] =
  Ret ((0, 0, 0), keyboard_init (mk_kbd (replicate 64 (mk_event 0 0 0 0)) 0 0 false false false false), None, false).
Proof.
  apply (proj1 (tty_read_key_correct (0, 0, 0) (keyboard_init (mk_kbd (replicate 64 (mk_event 0 0 0 0)) 0 0 false false false false))
    idle 0 [[]] (init_rel (mk_kbd (replicate 64 (mk_event 0 0 0 0)) 0 0 false false false false) eq_refl) ltac:(unfold is_u32; lia)
    ltac:(repeat constructor))).
Defined.
