(* ===== verification/Task.v ===== *)
(** * Kernel tasks: [kernel/sched/task.c]

    A table of 64 slots, a current task per processor and a process id counter.
    Pointers into the table are indices.  Entry points are numbers ([0] is NULL)
    that [task_run_ready] interprets through its argument [run]. *)

From Stdlib Require Import ZArith Lia String.
From stdpp Require Import prelude list_numbers.
From S2P Require Import Prelude CString Printf.

Local Open Scope Z_scope.

Definition TASK_MAX : Z := 64.
Definition TASK_NAME_MAX : Z := 32.
Definition SMP_MAX_CPUS : Z := 16.
Definition TASK_SNAPSHOT_MAGIC : Z := 0x52424f4e52415453.
(** [sizeof(task_snapshot_t)] on x86-64. *)
Definition SIZEOF_TASK_SNAPSHOT : Z := 5728.

Inductive task_state_t := TASK_UNUSED | TASK_READY | TASK_RUNNING | TASK_BLOCKED | TASK_EXITED.

#[global] Instance task_state_eq_dec : EqDecision task_state_t.
Proof. solve_decision. Defined.

Record task_info_t := mk_info {
  pid : Z;
  parent_pid : Z;
  state : task_state_t;
  name : list Z;
  created_tick : Z;
  run_count : Z;
  exit_code : Z;
}.

Record task_t := mk_task { info : task_info_t; entry : Z; ctx : Z }.

Record task_table := mk_table {
  tasks : list task_t;
  current_by_cpu : list (option Z);
  next_pid : Z;
  total_runs : Z;
  initialized : bool;
}.

Definition zero_task : task_t := mk_task (mk_info 0 0 TASK_UNUSED (replicate (Z.to_nat TASK_NAME_MAX) 0) 0 0 0) 0 0.

Definition set_tasks (t : task_table) (l : list task_t) : task_table :=
  mk_table l (current_by_cpu t) (next_pid t) (total_runs t) (initialized t).
Definition set_current (t : task_table) (c : list (option Z)) : task_table :=
  mk_table (tasks t) c (next_pid t) (total_runs t) (initialized t).
Definition set_next_pid (t : task_table) (p : Z) : task_table :=
  mk_table (tasks t) (current_by_cpu t) p (total_runs t) (initialized t).
Definition set_total_runs (t : task_table) (n : Z) : task_table :=
  mk_table (tasks t) (current_by_cpu t) (next_pid t) n (initialized t).
Definition set_state (k : task_t) (s : task_state_t) : task_t :=
  mk_task (mk_info (pid (info k)) (parent_pid (info k)) s (name (info k)) (created_tick (info k)) (run_count (info k)) (exit_code (info k)))
    (entry k) (ctx k).
Definition set_exit_code (k : task_t) (c : Z) : task_t :=
  mk_task (mk_info (pid (info k)) (parent_pid (info k)) (state (info k)) (name (info k)) (created_tick (info k)) (run_count (info k)) c)
    (entry k) (ctx k).
Definition set_run_count (k : task_t) (n : Z) : task_t :=
  mk_task (mk_info (pid (info k)) (parent_pid (info k)) (state (info k)) (name (info k)) (created_tick (info k)) n (exit_code (info k)))
    (entry k) (ctx k).

(** [id] is [smp_current_cpu_id()]. *)
Definition task_cpu_slot (id : Z) : Z := if id <? SMP_MAX_CPUS then id else 0.

Definition task_current_locked (t : task_table) (id : Z) : res (option Z) := rd (current_by_cpu t) (task_cpu_slot id).

Definition task_set_current_locked (t : task_table) (id : Z) (i : option Z) : res task_table :=
  c ← wr (current_by_cpu t) (task_cpu_slot id) i; Ret (set_current t c).

(** ** Snapshots *)

Record task_snapshot_t := mk_snapshot {
  snap_magic : Z;
  tasks_copy : list task_t;
  current_index : list Z;
  next_pid_copy : Z;
  total_runs_copy : Z;
  initialized_copy : bool;
}.

Definition task_snapshot_size : Z := SIZEOF_TASK_SNAPSHOT.

(** The contents of the buffer afterwards; [None] when the call fails. *)
Definition task_snapshot_save (t : task_table) (has_buffer : bool) (size : Z) : res (option task_snapshot_t) :=
  if negb has_buffer || (size <? SIZEOF_TASK_SNAPSHOT) then Ret None else
  idx ← for_n (Z.to_nat SMP_MAX_CPUS) 0 (λ cpu idx, wr idx cpu (-1)) (replicate (Z.to_nat SMP_MAX_CPUS) 0);
  idx ← for_n (Z.to_nat SMP_MAX_CPUS) 0 (λ cpu idx,
    cur ← rd (current_by_cpu t) cpu;
    match cur with
    | None => Ret idx
    | Some cur =>
        c ← loop_n (Z.to_nat TASK_MAX) 0 (λ i (_ : unit), if i =? cur then Ret (Done i) else Ret (Next tt)) tt;
        match c with Done i => wr idx cpu i | Next _ => Ret idx end
    end) idx;
  Ret (Some (mk_snapshot TASK_SNAPSHOT_MAGIC (tasks t) idx (next_pid t) (total_runs t) (initialized t))).

Definition task_snapshot_restore (t : task_table) (buffer : option task_snapshot_t) (size : Z) : res (task_table * bool) :=
  match buffer with
  | None => Ret (t, false)
  | Some snap =>
      if size <? SIZEOF_TASK_SNAPSHOT then Ret (t, false) else
      if negb (snap_magic snap =? TASK_SNAPSHOT_MAGIC) then Ret (t, false) else
      cur ← for_n (Z.to_nat SMP_MAX_CPUS) 0 (λ cpu c,
        i ← rd (current_index snap) cpu;
        wr c cpu (if (0 <=? i) && (i <? TASK_MAX) then Some i else None)) (current_by_cpu t);
      Ret (mk_table (tasks_copy snap) cur (next_pid_copy snap) (total_runs_copy snap) (initialized_copy snap), true)
  end.

(** ** Life cycle *)

Definition fresh_table : task_table :=
  mk_table (replicate (Z.to_nat TASK_MAX) zero_task) (replicate (Z.to_nat SMP_MAX_CPUS) None) 1 0 true.

Definition task_reset_for_test (t : task_table) : task_table := fresh_table.

Definition is_live (k : task_t) : bool :=
  match state (info k) with TASK_READY | TASK_RUNNING | TASK_BLOCKED => true | _ => false end.

Definition task_table_has_live_locked (t : task_table) : res bool :=
  c ← loop_n (Z.to_nat TASK_MAX) 0 (λ i (_ : unit),
        k ← rd (tasks t) i; if is_live k then Ret (Done tt) else Ret (Next tt)) tt;
  match c with Done _ => Ret true | Next _ => Ret false end.

Definition task_state_name (s : task_state_t) : string :=
  match s with
  | TASK_UNUSED => "unused" | TASK_READY => "ready" | TASK_RUNNING => "running"
  | TASK_BLOCKED => "blocked" | TASK_EXITED => "exited"
  end.

Definition task_is_initialized (t : task_table) : bool := initialized t.

Definition task_init (t : task_table) : res task_table :=
  live ← (if initialized t then task_table_has_live_locked t else Ret false);
  if (live : bool) then Ret t else Ret fresh_table.

(** The index of a free slot. *)
Definition alloc_slot_locked (t : task_table) : res (option Z) :=
  c ← loop_n (Z.to_nat TASK_MAX) 0 (λ i (_ : unit),
        k ← rd (tasks t) i; if decide (state (info k) = TASK_UNUSED) then Ret (Done i) else Ret (Next tt)) tt;
  match c with Done i => Ret (Some i) | Next _ => Ret None end.

Definition uses_pid (k : task_t) (p : Z) : bool := bool_decide (state (info k) ≠ TASK_UNUSED) && (pid (info k) =? p).

Definition task_pid_in_use_locked (t : task_table) (p : Z) : res bool :=
  if p =? 0 then Ret true else
  c ← loop_n (Z.to_nat TASK_MAX) 0 (λ i (_ : unit),
        k ← rd (tasks t) i; if uses_pid k p then Ret (Done tt) else Ret (Next tt)) tt;
  match c with Done _ => Ret true | Next _ => Ret false end.

(** The source allows [2^32 - 1] attempts.  At most 64 ids are in use, so one of
    66 consecutive values of the counter (zero included) is free. *)
Fixpoint allocate_pid_loop (fuel : nat) (t : task_table) : res (task_table * Z) :=
  match fuel with
  | O => Fault Diverged
  | S k =>
      let p := next_pid t in
      let n := wrap32 (next_pid t + 1) in
      let n := if n =? 0 then 1 else n in
      let t := set_next_pid t n in
      u ← task_pid_in_use_locked t p;
      if negb u then Ret (t, p) else allocate_pid_loop k t
  end.

Definition allocate_task_pid_locked (t : task_table) : res (task_table * Z) := allocate_pid_loop 66 t.

Definition as_i32 (x : Z) : Z := if x <? 2 ^ 31 then x else x - 2 ^ 32.

(** The part under the lock, for a checked name and entry; [tick] is [now_tick()]. *)
Definition spawn_locked (t : task_table) (id tick : Z) (nm : option (list Z)) (ent c : Z) : res (task_table * Z) :=
  slot ← alloc_slot_locked t;
  match slot with
  | None => Ret (t, -2)
  | Some i =>
      '(t, p) ← allocate_task_pid_locked t;
      if p =? 0 then Ret (t, -3) else
      l ← wr (tasks t) i zero_task;
      let t := set_tasks t l in
      parent ← task_current_locked t id;
      pp ← (match parent with Some j => k ← rd (tasks t) j; Ret (pid (info k)) | None => Ret 0 end);
      '(_, buf) ← strlcpy (Some (name (info zero_task))) nm TASK_NAME_MAX;
      l ← wr (tasks t) i (mk_task (mk_info p pp TASK_READY (default [] buf) tick 0 0) ent c);
      Ret (set_tasks t l, as_i32 p)
  end.

Definition task_spawn_kernel (t : task_table) (id tick : Z) (nm : option (list Z)) (ent c : Z) : res (task_table * Z) :=
  t ← (if initialized t then Ret t else task_init t);
  if ent =? 0 then Ret (t, -1) else
  match nm with
  | None => Ret (t, -1)
  | Some nm' => c0 ← rd nm' 0; if c0 =? 0 then Ret (t, -1) else spawn_locked t id tick nm ent c
  end.

Definition task_exit_current (t : task_table) (id code : Z) : res task_table :=
  cur ← task_current_locked t id;
  match cur with
  | None => Ret t
  | Some i => k ← rd (tasks t) i; l ← wr (tasks t) i (set_state (set_exit_code k code) TASK_EXITED); Ret (set_tasks t l)
  end.

Section run.

(** What an entry point does when called with its context: to the table, and to
    the rest of memory [W]. *)
Context {W : Type} (run : Z → Z → task_table → W → res (task_table * W)).

(** One slot: the state is the table, the tasks run and the dispatch notes. *)
Definition run_slot (id i : Z) (t : task_table) (w : W) (ran : Z) : res (task_table * W * Z) :=
  k ← rd (tasks t) i;
  if decide (state (info k) = TASK_READY) then
    if entry k =? 0 then Ret (t, w, ran) else
    t ← task_set_current_locked t id (Some i);
    l ← wr (tasks t) i (set_run_count (set_state k TASK_RUNNING) (wrap64 (run_count (info k) + 1)));
    let t := set_total_runs (set_tasks t l) (wrap64 (total_runs t + 1)) in
    '(t, w) ← run (entry k) (ctx k) t w;
    cur ← task_current_locked t id;
    t ← (if decide (cur = Some i) then
           k ← rd (tasks t) i;
           l ← (if decide (state (info k) = TASK_RUNNING) then wr (tasks t) i (set_state k TASK_EXITED) else Ret (tasks t));
           task_set_current_locked (set_tasks t l) id None
         else Ret t);
    Ret (t, w, ran + 1)
  else Ret (t, w, ran).

(** The result is the table and how often [scheduler_note_kernel_task_dispatch] was called. *)
Definition task_run_ready (t : task_table) (w : W) (id max_tasks : Z) : res (task_table * W * Z) :=
  t ← (if initialized t then Ret t else task_init t);
  let max_tasks := if max_tasks =? 0 then TASK_MAX else max_tasks in
  c ← loop_n (Z.to_nat TASK_MAX) 0 (λ i '(t, w, ran),
        if ran <? max_tasks then r ← run_slot id i t w ran; Ret (Next r) else Ret (Done (t, w, ran))) (t, w, 0);
  match c with Done r | Next r => Ret r end.

End run.

Definition task_reap_exited (t : task_table) : res task_table :=
  l ← for_n (Z.to_nat TASK_MAX) 0 (λ i l,
        k ← rd l i; if decide (state (info k) = TASK_EXITED) then wr l i zero_task else Ret l) (tasks t);
  Ret (set_tasks t l).

Definition task_get_info (t : task_table) (p : Z) (has_out : bool) : res (option task_info_t) :=
  if (p =? 0) || negb has_out then Ret None else
  c ← loop_n (Z.to_nat TASK_MAX) 0 (λ i (_ : unit),
        k ← rd (tasks t) i; if uses_pid k p then Ret (Done (info k)) else Ret (Next tt)) tt;
  match c with Done r => Ret (Some r) | Next _ => Ret None end.

Record task_stats_t := mk_stats {
  used_slots : Z; ready : Z; running : Z; blocked : Z; exited : Z; stats_next_pid : Z; stats_total_runs : Z;
}.

Definition task_get_stats (t : task_table) : res task_stats_t :=
  for_n (Z.to_nat TASK_MAX) 0 (λ i s,
    k ← rd (tasks t) i;
    let '(mk_stats u r n b e p q) := s in
    Ret (match state (info k) with
         | TASK_UNUSED => s
         | TASK_READY => mk_stats (u + 1) (r + 1) n b e p q
         | TASK_RUNNING => mk_stats (u + 1) r (n + 1) b e p q
         | TASK_BLOCKED => mk_stats (u + 1) r n (b + 1) e p q
         | TASK_EXITED => mk_stats (u + 1) r n b (e + 1) p q
         end)) (mk_stats 0 0 0 0 0 (next_pid t) (total_runs t)).

(** The line of one task. *)
Definition dump_row (k : task_t) (stk : list Z) : res (list (list Z) * Z) :=
  kprintf stk (Some (lit "  %-5u %-5u %-8s %-5llu %s
"))
    [VInt (pid (info k)); VInt (parent_pid (info k)); VStr (Some (lit (task_state_name (state (info k)))));
     VLong (run_count (info k)); VStr (Some (name (info k)))].

(** The calls of [console_write_n]; [stk] is the uninitialised chunk of [kprintf]. *)
Definition task_dump (t : task_table) (stk : list Z) : res (list (list Z)) :=
  st ← task_get_stats t;
  '(o1, _) ← kprintf stk (Some (lit "tasks: used=%u ready=%u running=%u blocked=%u exited=%u total_runs=%llu next_pid=%u
"))
    [VInt (used_slots st); VInt (ready st); VInt (running st); VInt (blocked st); VInt (exited st);
     VLong (stats_total_runs st); VInt (stats_next_pid st)];
  '(o2, _) ← kprintf stk (Some (lit "  pid   ppid  state    runs  name
")) [];
  o3 ← for_n (Z.to_nat TASK_MAX) 0 (λ i out,
    k ← rd (tasks t) i;
    if decide (state (info k) = TASK_UNUSED) then Ret out else
    '(o, _) ← dump_row k stk;
    Ret (out ++ o)) [];
  Ret (o1 ++ o2 ++ o3).

(** [task_test_entry]: the memory is the counter, the contexts 1 and 2 are the
    structures [a] and [b] of the self-test. *)
Definition task_test_entry (id c : Z) (t : task_table) (counter : Z) : res (task_table * Z) :=
  let value := if c =? 1 then 3 else 7 in
  let counter := wrap32 (counter + value) in
  t ← task_exit_current t id (as_i32 value);
  Ret (t, counter).

Definition task_selftest (t : task_table) (id tick : Z) : res (task_table * bool) :=
  t ← task_init t;
  '(t, pa) ← task_spawn_kernel t id tick (Some (lit "ktest-a")) 1 1;
  '(t, pb) ← task_spawn_kernel t id tick (Some (lit "ktest-b")) 1 2;
  if (pa <=? 0) || (pb <=? 0) || (pa =? pb) then Ret (t, false) else
  '(t, counter, _) ← task_run_ready (λ _ c t w, task_test_entry id c t w) t 0 id 16;
  ia ← task_get_info t (wrap32 pa) true;
  ib ← task_get_info t (wrap32 pb) true;
  match ia, ib with
  | Some ia, Some ib =>
      if negb (counter =? 10) then Ret (t, false) else
      if decide (state ia = TASK_EXITED ∧ state ib = TASK_EXITED) then
        if negb (exit_code ia =? 3) || negb (exit_code ib =? 7) then Ret (t, false) else
        t ← task_reap_exited t;
        st ← task_get_stats t;
        Ret (t, used_slots st =? 0)
      else Ret (t, false)
  | _, _ => Ret (t, false)
  end.

(** ** The table invariant *)

Definition is_used (k : task_t) : Prop := state (info k) ≠ TASK_UNUSED.

Record task_ok (t : task_table) : Prop := {
  ok_tasks : zlen (tasks t) = TASK_MAX;
  ok_cpus : zlen (current_by_cpu t) = SMP_MAX_CPUS;
  ok_current : ∀ c i, current_by_cpu t !! c = Some (Some i) →
    0 <= i < TASK_MAX ∧ ∃ k, tasks t !! Z.to_nat i = Some k ∧ is_used k;
  ok_next : 0 < next_pid t < 2 ^ 32;
  ok_pid : ∀ i k, tasks t !! i = Some k → is_used k → 0 < pid (info k) < 2 ^ 32;
  ok_unique : ∀ i j a b, tasks t !! i = Some a → tasks t !! j = Some b → is_used a → is_used b →
    pid (info a) = pid (info b) → i = j;
}.

Lemma uses_pid_spec k p : uses_pid k p = true ↔ is_used k ∧ pid (info k) = p.
Proof. unfold uses_pid, is_used. by rewrite andb_true_iff, bool_decide_eq_true, Z.eqb_eq. Qed.

Lemma tasks_length t : task_ok t → length (tasks t) = Z.to_nat TASK_MAX.
Proof. intros H. pose proof (ok_tasks _ H). unfold zlen in *. lia. Qed.

Lemma rd_lookup {A} (l : list A) k x : l !! k = Some x → rd l (Z.of_nat k) = Ret x.
Proof. intros H. by rewrite rd_nat, H. Qed.

Lemma pid_in_use_spec t p :
  task_ok t → p ≠ 0 →
  ∃ b, task_pid_in_use_locked t p = Ret b ∧
    if b then ∃ i k, tasks t !! i = Some k ∧ is_used k ∧ pid (info k) = p
    else ∀ i k, tasks t !! i = Some k → is_used k → pid (info k) ≠ p.
Proof.
  intros Hok Hp. unfold task_pid_in_use_locked. destruct (Z.eqb_spec p 0); [done |]. rewrite <- (tasks_length t Hok).
  destruct (loop_find (tasks t) (λ _ k, if uses_pid k p then Some tt else None)
    (λ i (_ : unit), k ← rd (tasks t) i; if uses_pid k p then Ret (Done tt) else Ret (Next tt)))
    as [(i & k & r & Hk & Hg & -> & _)|[-> H]].
  - intros i k Hk. rewrite (rd_lookup _ _ _ Hk). mred. by destruct (uses_pid k p).
  - exists true. split; [done |]. exists i, k. destruct (uses_pid k p) eqn:E; [| done]. by apply uses_pid_spec in E.
  - exists false. split; [done |]. intros i k Hk Hu Hpid. specialize (H i k Hk).
    rewrite (proj2 (uses_pid_spec k p) (conj Hu Hpid)) in H. done.
Qed.

(** The values the counter takes, starting from [p]. *)
Definition succ_pid (p : Z) : Z := if p =? 2 ^ 32 - 1 then 1 else p + 1.

Lemma next_pid_succ p : 0 < p < 2 ^ 32 → (let n := wrap32 (p + 1) in if n =? 0 then 1 else n) = succ_pid p ∧ 0 < succ_pid p < 2 ^ 32.
Proof.
  intros Hp. cbv zeta. unfold succ_pid. destruct (Z.eqb_spec p (2 ^ 32 - 1)) as [->|]; [done |].
  rewrite (wrap_small 32) by lia. destruct (Z.eqb_spec (p + 1) 0); lia.
Qed.

Definition nth_pid (p j : Z) : Z := (p - 1 + j) mod (2 ^ 32 - 1) + 1.

Lemma nth_pid_0 p : 0 < p < 2 ^ 32 → nth_pid p 0 = p.
Proof. intros H. unfold nth_pid. rewrite Z.mod_small by lia. lia. Qed.

Lemma nth_pid_succ p j : succ_pid (nth_pid p j) = nth_pid p (j + 1).
Proof.
  unfold nth_pid, succ_pid. replace (p - 1 + (j + 1)) with (p - 1 + j + 1) by lia.
  rewrite <- (Z.add_mod_idemp_l (p - 1 + j)) by lia. pose proof (Z.mod_pos_bound (p - 1 + j) (2 ^ 32 - 1) ltac:(lia)).
  set (x := (p - 1 + j) mod (2 ^ 32 - 1)) in *. destruct (Z.eqb_spec (x + 1) (2 ^ 32 - 1)) as [E|E].
  - rewrite E, Z.mod_same; lia.
  - rewrite Z.mod_small; lia.
Qed.

Lemma nth_pid_inj p i j : 0 ≤ i < 66 → 0 ≤ j < 66 → nth_pid p i = nth_pid p j → i = j.
Proof.
  intros Hi Hj H. unfold nth_pid in H.
  pose proof (Z.div_mod (p - 1 + i) (2 ^ 32 - 1) ltac:(lia)). pose proof (Z.div_mod (p - 1 + j) (2 ^ 32 - 1) ltac:(lia)). nia.
Qed.

(** The ids of the used slots. *)
Definition used_pids (t : task_table) : list Z := map (λ k, pid (info k)) (tasks t).

Lemma pigeonhole t p :
  task_ok t → ¬ (∀ j, 0 ≤ j < 66 → ∃ i k, tasks t !! i = Some k ∧ is_used k ∧ pid (info k) = nth_pid p j).
Proof.
  intros Hok H. set (l := map (λ j, nth_pid p (Z.of_nat j)) (seq 0 66)).
  assert (Hnd : NoDup l).
  { apply NoDup_fmap_2_strong; [| apply NoDup_seq]. intros x y Hx Hy E. apply elem_of_seq in Hx, Hy.
    apply nth_pid_inj in E; lia. }
  assert (Hsub : l ⊆+ used_pids t).
  { apply NoDup_submseteq; [done |]. intros x Hx. apply list_elem_of_fmap in Hx as (j & -> & Hj). apply elem_of_seq in Hj.
    destruct (H (Z.of_nat j)) as (i & k & Hk & _ & <-); [lia |]. apply list_elem_of_fmap. exists k. split; [done |].
    by eapply list_elem_of_lookup_2. }
  apply submseteq_length in Hsub. unfold used_pids in Hsub. rewrite length_map, (tasks_length t Hok) in Hsub.
  unfold l in Hsub. rewrite length_map, length_seq in Hsub. change (Z.to_nat TASK_MAX) with 64%nat in Hsub. lia.
Qed.

Lemma task_ok_next t p : task_ok t → 0 < p < 2 ^ 32 → task_ok (set_next_pid t p).
Proof. intros [] Hp. split; done. Qed.

Lemma allocate_pid_loop_spec fuel t p0 j :
  task_ok t → next_pid t = nth_pid p0 j → 0 ≤ j → j + Z.of_nat fuel = 66 →
  (∀ i, 0 ≤ i < j → ∃ s k, tasks t !! s = Some k ∧ is_used k ∧ pid (info k) = nth_pid p0 i) →
  ∃ p n, allocate_pid_loop fuel t = Ret (set_next_pid t n, p) ∧ 0 < p < 2 ^ 32 ∧ 0 < n < 2 ^ 32 ∧
    ∀ i k, tasks t !! i = Some k → is_used k → pid (info k) ≠ p.
Proof.
  revert t j. induction fuel as [|fuel IH]; intros t j Hok Hn Hj Hfuel Hused.
  { exfalso. apply (pigeonhole t p0 Hok). intros i Hi. apply Hused. lia. }
  cbn [allocate_pid_loop]. pose proof (ok_next _ Hok) as Hr. destruct (next_pid_succ (next_pid t) Hr) as [E Hr'].
  cbv zeta in E |- *. rewrite E. pose proof (task_ok_next t _ Hok Hr') as Hok'.
  destruct (pid_in_use_spec (set_next_pid t (succ_pid (next_pid t))) (next_pid t) Hok') as (b & -> & Hb); [lia |]. mred.
  destruct b; cbn [negb].
  - destruct (IH (set_next_pid t (succ_pid (next_pid t))) (j + 1)) as (p & n & Hrun & H); [done | | lia.. | | ].
    + cbn [next_pid set_next_pid]. by rewrite Hn, nth_pid_succ.
    + intros i Hi. destruct (decide (i = j)) as [->|]; [by rewrite <- Hn | apply Hused; lia].
    + exists p, n. split; [exact Hrun | exact H].
  - exists (next_pid t), (succ_pid (next_pid t)). split_and!; try done; lia.
Qed.

Lemma allocate_task_pid_spec t :
  task_ok t →
  ∃ p n, allocate_task_pid_locked t = Ret (set_next_pid t n, p) ∧ 0 < p < 2 ^ 32 ∧ 0 < n < 2 ^ 32 ∧
    ∀ i k, tasks t !! i = Some k → is_used k → pid (info k) ≠ p.
Proof.
  intros Hok. apply (allocate_pid_loop_spec 66 t (next_pid t) 0); [done | | lia.. | ].
  - symmetry. apply nth_pid_0, Hok.
  - intros i Hi. lia.
Qed.

Lemma alloc_slot_spec t :
  task_ok t →
  (∃ i k, alloc_slot_locked t = Ret (Some (Z.of_nat i)) ∧ tasks t !! i = Some k ∧ ¬ is_used k ∧
     ∀ j y, (j < i)%nat → tasks t !! j = Some y → is_used y) ∨
  (alloc_slot_locked t = Ret None ∧ ∀ i k, tasks t !! i = Some k → is_used k).
Proof.
  intros Hok. unfold alloc_slot_locked. rewrite <- (tasks_length t Hok).
  destruct (loop_find (tasks t) (λ i k, if decide (state (info k) = TASK_UNUSED) then Some i else None)
    (λ i (_ : unit), k ← rd (tasks t) i; if decide (state (info k) = TASK_UNUSED) then Ret (Done i) else Ret (Next tt)))
    as [(i & k & r & Hk & Hg & -> & Hlow)|[-> H]].
  - intros i k Hk. rewrite (rd_lookup _ _ _ Hk). mred. by destruct (decide (state (info k) = TASK_UNUSED)).
  - left. exists i, k. destruct (decide (state (info k) = TASK_UNUSED)) as [E|]; [| done]. injection Hg as <-.
    split_and!; [done.. | by intros Hu |]. intros j y Hj Hy. specialize (Hlow j y Hj Hy).
    by destruct (decide (state (info y) = TASK_UNUSED)).
  - right. split; [done |]. intros i k Hk. specialize (H i k Hk). by destruct (decide (state (info k) = TASK_UNUSED)).
Qed.

(** A slot no processor is running. *)
Definition not_current (t : task_table) (i : nat) : Prop := ∀ c j, current_by_cpu t !! c = Some (Some j) → Z.to_nat j ≠ i.

(** Writing one slot keeps the invariant when the new id is nobody else's and a
    current task stays used. *)
Lemma task_ok_insert t i k :
  task_ok t → is_used k ∨ not_current t i → (is_used k → 0 < pid (info k) < 2 ^ 32 ∧
    ∀ j y, j ≠ i → tasks t !! j = Some y → is_used y → pid (info y) ≠ pid (info k)) →
  task_ok (set_tasks t (<[i := k]> (tasks t))).
Proof.
  intros Hok Hcur Hk. pose proof Hok as [H1 H2 H3 H4 H5 H6].
  split; cbn [set_tasks tasks current_by_cpu next_pid]; try done.
  - by rewrite zlen_insert.
  - intros c j Hc. destruct (H3 c j Hc) as (Hj & y & Hy & Hu). split; [done |].
    destruct (decide (Z.to_nat j = i)) as [E|]; [| by exists y; rewrite list_lookup_insert_ne by done].
    destruct Hcur as [Hk'|Hn]; [| by destruct (Hn c j Hc)]. exists k. subst i.
    by rewrite list_lookup_insert_eq by (by apply lookup_lt_Some in Hy).
  - intros j y Hy Hu. destruct (decide (j = i)) as [->|].
    + rewrite list_lookup_insert in Hy. case_match; [| by eapply H5]. simplify_eq. by apply Hk.
    + rewrite list_lookup_insert_ne in Hy by done. by eapply H5.
  - intros a b x y Hx Hy Hux Huy E.
    apply list_lookup_insert_Some in Hx as [(<- & <- & _)|[Hxi Hx]]; apply list_lookup_insert_Some in Hy as [(<- & <- & _)|[Hyi Hy]]; [done | ..].
    + destruct (Hk Hux) as [_ Hd]. by destruct (Hd b y ltac:(congruence) Hy Huy).
    + destruct (Hk Huy) as [_ Hd]. by destruct (Hd a x ltac:(congruence) Hx Hux).
    + by eapply H6.
Qed.

Lemma unused_not_current t i k : task_ok t → tasks t !! i = Some k → ¬ is_used k → not_current t i.
Proof.
  intros Hok Hk Hu c j Hc <-. destruct (ok_current _ Hok c j Hc) as (_ & y & Hy & Huy). by simplify_eq.
Qed.

(** ** Spawning *)

(** The name a task gets: the first 31 bytes, padded with zeros. *)
Definition task_name (s : list Z) : list Z := bounded_image (replicate (Z.to_nat TASK_NAME_MAX) 0) s TASK_NAME_MAX.

Lemma task_name_spec nm s :
  cstr_at nm s → strlcpy (Some (name (info zero_task))) (Some nm) TASK_NAME_MAX = Ret (zlen s, Some (task_name s)).
Proof.
  intros H. unfold zero_task, task_name. cbn [info name]. apply strlcpy_spec; [exact H |].
  rewrite zlen_replicate. unfold TASK_NAME_MAX. lia.
Qed.

(** The id of the current task of processor [id]: the new task's parent. *)
Definition parent_of (t : task_table) (id : Z) : Z :=
  match current_by_cpu t !! Z.to_nat (task_cpu_slot id) with
  | Some (Some j) => match tasks t !! Z.to_nat j with Some k => pid (info k) | None => 0 end
  | _ => 0
  end.

Lemma cpu_slot_range id : 0 ≤ id → 0 ≤ task_cpu_slot id < SMP_MAX_CPUS.
Proof. intros H. unfold task_cpu_slot, SMP_MAX_CPUS. destruct (Z.ltb_spec id 16); lia. Qed.

Lemma current_spec t id :
  task_ok t → 0 ≤ id →
  ∃ cur, task_current_locked t id = Ret cur ∧ current_by_cpu t !! Z.to_nat (task_cpu_slot id) = Some cur ∧
    ∀ i, cur = Some i → 0 ≤ i < TASK_MAX ∧ ∃ k, tasks t !! Z.to_nat i = Some k ∧ is_used k.
Proof.
  intros Hok Hid. pose proof (cpu_slot_range id Hid) as Hs. unfold task_current_locked.
  destruct (rd_inbounds (current_by_cpu t) (task_cpu_slot id)) as [cur Hc]; [by rewrite (ok_cpus _ Hok) |].
  exists cur. split; [done |]. apply rd_Ret in Hc as [_ Hc]. split; [done |]. intros i ->. by eapply (ok_current _ Hok).
Qed.

Lemma slot_lookup t i : task_ok t → 0 ≤ i < TASK_MAX → ∃ k, rd (tasks t) i = Ret k ∧ tasks t !! Z.to_nat i = Some k.
Proof.
  intros Hok Hi. destruct (rd_inbounds (tasks t) i) as [k Hk]; [by rewrite (ok_tasks _ Hok) |].
  exists k. split; [done |]. by apply rd_Ret in Hk as [_ Hk].
Qed.

Lemma zero_unused : ¬ is_used zero_task.
Proof. intros H. by apply H. Qed.

(** The new task with id [p]. *)
Definition new_task (t : task_table) (id p tick : Z) (s : list Z) (ent c : Z) : task_t :=
  mk_task (mk_info p (parent_of t id) TASK_READY (task_name s) tick 0 0) ent c.

Lemma spawn_locked_spec t id tick nm s ent c :
  task_ok t → 0 ≤ id → cstr_at nm s →
  (Forall is_used (tasks t) ∧ spawn_locked t id tick (Some nm) ent c = Ret (t, -2)) ∨
  ∃ i p n k0, tasks t !! i = Some k0 ∧ ¬ is_used k0 ∧ (∀ j y, (j < i)%nat → tasks t !! j = Some y → is_used y) ∧
    0 < p < 2 ^ 32 ∧ 0 < n < 2 ^ 32 ∧ (∀ j y, tasks t !! j = Some y → is_used y → pid (info y) ≠ p) ∧
    spawn_locked t id tick (Some nm) ent c =
      Ret (set_next_pid (set_tasks t (<[i := new_task t id p tick s ent c]> (tasks t))) n, as_i32 p).
Proof.
  intros Hok Hid Hs. unfold spawn_locked.
  destruct (allocate_task_pid_spec t Hok) as (p & n & Hap & Hp & Hn & Hfresh). rewrite Hap.
  destruct (alloc_slot_spec t Hok) as [(i & k0 & Hal & Hk0 & Hun & Hlow)|[Hal Hall]]; rewrite Hal; clear Hap Hal; mred.
  2: { left. split; [| done]. apply Forall_lookup. exact Hall. }
  right.
  destruct (Z.eqb_spec p 0); [lia |]. cbn [set_next_pid tasks].
  assert (Hi : 0 ≤ Z.of_nat i < zlen (tasks t)) by (apply lookup_lt_Some in Hk0; unfold zlen; lia).
  rewrite wr_inbounds by done. mred. rewrite Nat2Z.id.
  set (t1 := set_tasks (set_next_pid t n) (<[i := zero_task]> (tasks t))).
  pose proof (unused_not_current t i k0 Hok Hk0 Hun) as Hnc.
  assert (Hok1 : task_ok t1).
  { refine (task_ok_next (set_tasks t (<[i := zero_task]> (tasks t))) n _ Hn).
    apply task_ok_insert; [exact Hok | by right | intros H; by destruct zero_unused]. }
  destruct (current_spec t1 id Hok1 Hid) as (cur & Hc & Hcur & Hcr). rewrite Hc. mred.
  assert (Hpar : (match cur with Some j => k ← rd (tasks t1) j; Ret (pid (info k)) | None => Ret 0 end) = Ret (parent_of t id)).
  { unfold parent_of. change (current_by_cpu t1) with (current_by_cpu t) in Hcur. rewrite Hcur.
    destruct cur as [j|]; [| done]. destruct (slot_lookup t1 j Hok1 (proj1 (Hcr j eq_refl))) as (k & -> & Hk). mred.
    change (tasks t1) with (<[i := zero_task]> (tasks t)) in Hk. rewrite list_lookup_insert_ne in Hk; [by rewrite Hk |].
    intros E. by apply (Hnc _ j Hcur). }
  rewrite Hpar. mred. rewrite (task_name_spec nm s Hs). mred. cbn [default].
  change (tasks t1) with (<[i := zero_task]> (tasks t)). rewrite wr_inbounds by (rewrite zlen_insert; done). mred.
  rewrite Nat2Z.id, list_insert_insert_eq. exists i, p, n, k0. split_and!; try done; lia.
Qed.

Lemma task_spawn_spec t id tick nm s ent c :
  task_ok t → initialized t = true → 0 ≤ id → cstr_at nm s →
  if (ent =? 0) || (zlen s =? 0) then task_spawn_kernel t id tick (Some nm) ent c = Ret (t, -1)
  else if decide (Forall is_used (tasks t)) then task_spawn_kernel t id tick (Some nm) ent c = Ret (t, -2)
  else ∃ i p n, let t' := set_next_pid (set_tasks t (<[i := new_task t id p tick s ent c]> (tasks t))) n in
    task_spawn_kernel t id tick (Some nm) ent c = Ret (t', as_i32 p) ∧
    (∃ k0, tasks t !! i = Some k0 ∧ ¬ is_used k0) ∧ (∀ j y, (j < i)%nat → tasks t !! j = Some y → is_used y) ∧
    0 < p < 2 ^ 32 ∧ (∀ j y, tasks t !! j = Some y → is_used y → pid (info y) ≠ p) ∧ task_ok t'.
Proof.
  intros Hok Hin Hid Hs. unfold task_spawn_kernel. rewrite Hin. mred. destruct (Z.eqb_spec ent 0) as [|Hent]; [done |]. cbn [orb].
  assert (∃ c0, rd nm 0 = Ret c0 ∧ (c0 =? 0) = (zlen s =? 0)) as (c0 & E0 & Ec).
  { destruct Hs as [Hn [rest ->]]. destruct s as [|x s]; [by exists 0 |]. exists x. split; [done |].
    inversion Hn; subst. rewrite zlen_cons. pose proof (zlen_nonneg s). destruct (Z.eqb_spec x 0), (Z.eqb_spec (1 + zlen s) 0); done || lia. }
  rewrite E0. mred. rewrite Ec. destruct (zlen s =? 0); [done |].
  destruct (spawn_locked_spec t id tick nm s ent c Hok Hid Hs) as [[Hf E]|(i & p & n & k0 & Hk0 & Hun & Hlow & Hp & Hn & Hfr & E)].
  { by rewrite decide_True. }
  rewrite decide_False by (intros H; apply Hun; by eapply Forall_lookup_1).
  exists i, p, n. split; [exact E |]. split; [by exists k0 |]. split; [exact Hlow |]. split; [exact Hp |]. split; [exact Hfr |].
  apply task_ok_next; [| exact Hn]. apply task_ok_insert; [exact Hok | by left |]. intros _. split; [exact Hp |].
  intros j y _ Hy Hu. exact (Hfr j y Hy Hu).
Qed.

(** C13: spawning a task.  A bad name or entry point is refused with -1 and a full
    table with -2, leaving the table as it was; otherwise the first free slot gets
    a READY task with the name cut to 31 bytes, the caller's task as parent and an
    id no other task has, every other slot is untouched, the id is returned, and
    id allocation never fails (-3 is unreachable). *)
Theorem task_spawn_correct t id tick nm s ent c :
  task_ok t → initialized t = true → 0 ≤ id → cstr_at nm s →
  if (ent =? 0) || (zlen s =? 0) then task_spawn_kernel t id tick (Some nm) ent c = Ret (t, -1)
  else if decide (Forall is_used (tasks t)) then task_spawn_kernel t id tick (Some nm) ent c = Ret (t, -2)
  else ∃ i p n, let t' := set_next_pid (set_tasks t (<[i := new_task t id p tick s ent c]> (tasks t))) n in
    task_spawn_kernel t id tick (Some nm) ent c = Ret (t', as_i32 p) ∧
    (∃ k0, tasks t !! i = Some k0 ∧ ¬ is_used k0) ∧ (∀ j y, (j < i)%nat → tasks t !! j = Some y → is_used y) ∧
    0 < p < 2 ^ 32 ∧ (∀ j y, tasks t !! j = Some y → is_used y → pid (info y) ≠ p) ∧ task_ok t'.
Proof. apply task_spawn_spec. Qed.

Lemma fresh_ok : task_ok fresh_table.
Proof.
  assert (Hz : ∀ i k, tasks fresh_table !! i = Some k → k = zero_task).
  { intros i k H. unfold fresh_table in H. cbn [tasks] in H. by apply lookup_replicate in H as [-> _]. }
  split; cbn [fresh_table tasks current_by_cpu next_pid].
  - by rewrite zlen_replicate.
  - by rewrite zlen_replicate.
  - intros c i H. by apply lookup_replicate in H as [? _].
  - lia.
  - intros i k H Hu. rewrite (Hz i k H) in Hu. by destruct zero_unused.
  - intros i j a b Ha Hb Hu _ _. rewrite (Hz i a Ha) in Hu. by destruct zero_unused.
Qed.

Lemma task_spawn_correct_witness :
  ∃ i p n, task_spawn_kernel fresh_table 0 7 (Some (lit "init")) 1 0 =
    Ret (set_next_pid (set_tasks fresh_table (<[i := new_task fresh_table 0 p 7 (bytes_of "init") 1 0]> (tasks fresh_table))) n, as_i32 p).
Proof.
  assert (Hs : cstr_at (lit "init") (bytes_of "init")) by (split; [repeat constructor; done | by exists []]).
  pose proof (task_spawn_correct fresh_table 0 7 (lit "init") (bytes_of "init") 1 0 fresh_ok eq_refl ltac:(lia) Hs) as H.
  change ((1 =? 0) || (zlen (bytes_of "init") =? 0)) with false in H. rewrite decide_False in H.
  - destruct H as (i & p & n & H & _). exists i, p, n. exact H.
  - intros Hf. apply zero_unused. refine (Forall_lookup_1 _ _ O _ Hf _). reflexivity.
Defined.

(** ** Every operation keeps the table well formed *)

(** Changing the fields of a used slot other than its id. *)
Lemma task_ok_same_pid t i k k' :
  task_ok t → tasks t !! i = Some k → is_used k → is_used k' → pid (info k') = pid (info k) →
  task_ok (set_tasks t (<[i := k']> (tasks t))).
Proof.
  intros Hok Hk Hu Hu' E. apply task_ok_insert; [done | by left |]. intros _. rewrite E.
  split; [by eapply (ok_pid _ Hok) |]. intros j y Hj Hy Huy E'. apply Hj. symmetry. by eapply (ok_unique _ Hok i j k y).
Qed.

Lemma set_current_ok t id i :
  task_ok t → 0 ≤ id → (∀ j, i = Some j → 0 ≤ j < TASK_MAX ∧ ∃ k, tasks t !! Z.to_nat j = Some k ∧ is_used k) →
  task_set_current_locked t id i = Ret (set_current t (<[Z.to_nat (task_cpu_slot id) := i]> (current_by_cpu t))) ∧
  task_ok (set_current t (<[Z.to_nat (task_cpu_slot id) := i]> (current_by_cpu t))).
Proof.
  intros Hok Hid Hi. pose proof (cpu_slot_range id Hid) as Hs. unfold task_set_current_locked.
  rewrite wr_inbounds by (by rewrite (ok_cpus _ Hok)). mred. split; [done |].
  destruct Hok. split; cbn [set_current tasks current_by_cpu next_pid]; try done.
  - by rewrite zlen_insert.
  - intros c j H. apply list_lookup_insert_Some in H as [(_ & -> & _)|[_ H]]; [by apply Hi | by eapply ok_current0].
Qed.

Lemma exit_current_ok t id code :
  task_ok t → 0 ≤ id → ∃ t', task_exit_current t id code = Ret t' ∧ task_ok t' ∧ initialized t' = initialized t.
Proof.
  intros Hok Hid. unfold task_exit_current. destruct (current_spec t id Hok Hid) as (cur & -> & _ & Hr). mred.
  destruct cur as [i|]; [| by exists t]. destruct (Hr i eq_refl) as (Hi & k & Hk & Hu).
  rewrite (proj2 (rd_Ret _ i k)) by (split; [lia | done]). mred. rewrite wr_inbounds by (by rewrite (ok_tasks _ Hok)). mred.
  eexists. split; [done |]. split; [| done]. by apply (task_ok_same_pid t _ k).
Qed.

(** Reaping outside of any task: exited tasks disappear, the others stay. *)
Lemma reap_ok t :
  task_ok t → (∀ i, not_current t i) →
  ∃ l, task_reap_exited t = Ret (set_tasks t l) ∧ task_ok (set_tasks t l) ∧
    ∀ i k, tasks t !! i = Some k → l !! i = Some (if decide (state (info k) = TASK_EXITED) then zero_task else k).
Proof.
  intros Hok Hidle. unfold task_reap_exited. pose proof (ok_tasks _ Hok) as Hl.
  edestruct (for_n_inv (λ j l, task_ok (set_tasks t l) ∧ ∀ i k, tasks t !! i = Some k →
    l !! i = Some (if decide (Z.of_nat i < j ∧ state (info k) = TASK_EXITED) then zero_task else k)))
    as (l & -> & H1 & H2).
  - split; [by destruct t |]. intros i k Hk. by rewrite decide_False by lia.
  - intros j l Hj [H1 H2]. cbn beta. unfold TASK_MAX in Hj.
    destruct (slot_lookup (set_tasks t l) j H1) as (k & E & Hk); [unfold TASK_MAX; lia |]. cbn [set_tasks tasks] in *. rewrite E. mred.
    destruct (lookup_lt_is_Some_2 (tasks t) (Z.to_nat j)) as [k0 Hk0]; [unfold zlen, TASK_MAX in *; lia |].
    pose proof (H2 _ _ Hk0) as E2. rewrite decide_False in E2 by lia. rewrite Hk in E2. injection E2 as ->.
    assert (Hcase : ∀ i k, tasks t !! i = Some k → i ≠ Z.to_nat j →
      (if decide (Z.of_nat i < j ∧ state (info k) = TASK_EXITED) then zero_task else k) =
      (if decide (Z.of_nat i < j + 1 ∧ state (info k) = TASK_EXITED) then zero_task else k)).
    { intros i k _ Hne. destruct (decide (Z.of_nat i < j ∧ _)) as [[]|Hn1], (decide (Z.of_nat i < j + 1 ∧ _)) as [[]|Hn2];
        try done; exfalso; [apply Hn2 | apply Hn1]; (split; [lia | done]). }
    destruct (decide (state (info k0) = TASK_EXITED)) as [Ex|Ex].
    + rewrite wr_inbounds by (apply lookup_lt_Some in Hk; unfold zlen in *; lia).
      eexists. split; [done |]. split.
      { refine (task_ok_insert (set_tasks t l) (Z.to_nat j) zero_task H1 (or_intror (Hidle _)) _). intros Hu. by destruct zero_unused. }
      intros i k Hi. destruct (decide (i = Z.to_nat j)) as [->|].
      * simplify_eq. rewrite list_lookup_insert_eq by (by apply lookup_lt_Some in Hk). by rewrite decide_True by (split; [lia | done]).
      * rewrite list_lookup_insert_ne, (H2 i k Hi) by done. f_equal. by apply Hcase.
    + exists l. split; [done |]. split; [done |]. intros i k Hi. rewrite (H2 i k Hi). f_equal.
      destruct (decide (i = Z.to_nat j)) as [->|]; [| by apply Hcase]. simplify_eq. by rewrite !decide_False by (by intros []).
  - mred. exists l. split; [done |]. split; [done |]. change (0 + Z.of_nat (Z.to_nat TASK_MAX)) with 64 in H2.
    intros i k Hk. rewrite (H2 i k Hk). f_equal.
    assert (Z.of_nat i < 64) by (apply lookup_lt_Some in Hk; unfold zlen, TASK_MAX in Hl; lia).
    destruct (decide (state (info k) = TASK_EXITED)).
    + by rewrite decide_True by (split; [lia | done]).
    + by rewrite decide_False by (by intros []).
Qed.

(** ** Snapshots of the table *)

Definition snapshot_index (c : option Z) : Z := match c with Some i => i | None => -1 end.

Definition snapshot_of (t : task_table) : task_snapshot_t :=
  mk_snapshot TASK_SNAPSHOT_MAGIC (tasks t) (map snapshot_index (current_by_cpu t)) (next_pid t) (total_runs t) (initialized t).

(** The search for the index of a pointer into the table. *)
Lemma index_search i :
  0 ≤ i < TASK_MAX →
  loop_n (Z.to_nat TASK_MAX) 0 (λ k (_ : unit), if k =? i then Ret (Done k) else Ret (Next tt)) tt = Ret (Done i).
Proof.
  intros Hi. destruct (loop_n_inv (λ k (_ : unit), k ≤ i) (λ r, r = i) (λ k (_ : unit), if k =? i then Ret (Done k) else Ret (Next tt))
    (Z.to_nat TASK_MAX) 0 tt) as [([] & _ & Hx)|(r & -> & ->)]; [lia | | unfold TASK_MAX in *; lia | done].
  intros k [] Hk Hle. destruct (Z.eqb_spec k i) as [->|]; [right; by exists i | left; exists tt; split; [done | lia]].
Qed.

Lemma snapshot_save_spec t size :
  task_ok t → SIZEOF_TASK_SNAPSHOT ≤ size → task_snapshot_save t true size = Ret (Some (snapshot_of t)).
Proof.
  intros Hok Hsz. unfold task_snapshot_save. destruct (Z.ltb_spec size SIZEOF_TASK_SNAPSHOT); [lia |]. cbn [negb orb].
  pose proof (ok_cpus _ Hok) as Hc. unfold zlen, SMP_MAX_CPUS in Hc. change (Z.to_nat SMP_MAX_CPUS) with 16%nat.
  rewrite (for_n_fill (replicate 16 (-1)) (replicate 16 0)); [| done |].
  2: { intros j l x Hx Hl _. apply lookup_replicate in Hx as [-> Hj]. rewrite wr_inbounds, Nat2Z.id; [done |]. unfold zlen. rewrite Hl. simpl. lia. }
  mred. assert (Hl : length (map snapshot_index (current_by_cpu t)) = 16%nat) by (rewrite length_map; lia).
  rewrite <- Hl at 1. rewrite (for_n_fill (map snapshot_index (current_by_cpu t))); [done | done |].
  intros j l x Hx Hll Hd. apply list_lookup_fmap_Some in Hx as (cur & -> & Hcur). cbn beta. rewrite (rd_lookup _ _ _ Hcur). mred.
  pose proof (lookup_lt_Some _ _ _ Hcur) as Hj. destruct cur as [i|]; cbn [snapshot_index].
  - rewrite (index_search i) by (by apply (ok_current _ Hok j i)). mred. rewrite wr_inbounds, Nat2Z.id; [done |]. unfold zlen. lia.
  - rewrite list_insert_id; [done |]. rewrite <- (Nat.add_0_r j), <- lookup_drop, Hd, lookup_drop, Nat.add_0_r.
    apply lookup_replicate_2. lia.
Qed.

Lemma snapshot_restore_spec t t2 size :
  task_ok t → zlen (current_by_cpu t2) = SMP_MAX_CPUS → SIZEOF_TASK_SNAPSHOT ≤ size →
  task_snapshot_restore t2 (Some (snapshot_of t)) size = Ret (t, true).
Proof.
  intros Hok Hc2 Hsz. unfold task_snapshot_restore. destruct (Z.ltb_spec size SIZEOF_TASK_SNAPSHOT); [lia |].
  cbn [snapshot_of snap_magic current_index tasks_copy next_pid_copy total_runs_copy initialized_copy]. rewrite Z.eqb_refl. cbn [negb].
  pose proof (ok_cpus _ Hok) as Hc. unfold zlen, SMP_MAX_CPUS in Hc, Hc2. change (Z.to_nat SMP_MAX_CPUS) with 16%nat.
  assert (Hl : length (current_by_cpu t) = 16%nat) by lia. rewrite <- Hl.
  rewrite (for_n_fill (current_by_cpu t)); [by destruct t | lia |].
  intros j l cur Hcur Hll _. cbn beta. pose proof (lookup_lt_Some _ _ _ Hcur) as Hj.
  rewrite (rd_lookup _ j (snapshot_index cur)) by (by rewrite list_lookup_fmap, Hcur). mred.
  rewrite wr_inbounds, Nat2Z.id by (unfold zlen; lia). do 2 f_equal. destruct cur as [i|]; [| done]. cbn [snapshot_index].
  destruct (ok_current _ Hok _ _ Hcur) as (Hi & _). by destruct (Z.leb_spec 0 i), (Z.ltb_spec i TASK_MAX); try lia.
Qed.

(** C35: a snapshot is faithful.  A buffer that is too small is refused; otherwise
    restoring what was saved brings back the whole table, the current tasks and
    the counters, whatever happened to the table in between, and a buffer without
    the magic number is refused without a change. *)
Theorem task_snapshot_roundtrip t t2 size :
  task_ok t → zlen (current_by_cpu t2) = SMP_MAX_CPUS →
  (size < task_snapshot_size → task_snapshot_save t true size = Ret None ∧
     ∀ snap, task_snapshot_restore t2 (Some snap) size = Ret (t2, false)) ∧
  (task_snapshot_size ≤ size →
     (∃ snap, task_snapshot_save t true size = Ret (Some snap) ∧ task_snapshot_restore t2 (Some snap) size = Ret (t, true)) ∧
     ∀ snap, snap_magic snap ≠ TASK_SNAPSHOT_MAGIC → task_snapshot_restore t2 (Some snap) size = Ret (t2, false)).
Proof.
  intros Hok Hc2. unfold task_snapshot_size. split; intros Hsz.
  - unfold task_snapshot_save, task_snapshot_restore. cbn [negb orb]. by destruct (Z.ltb_spec size SIZEOF_TASK_SNAPSHOT); [| lia].
  - split; [exists (snapshot_of t); split; [by apply snapshot_save_spec | by apply snapshot_restore_spec] |].
    intros snap Hm. unfold task_snapshot_restore. destruct (Z.ltb_spec size SIZEOF_TASK_SNAPSHOT); [lia |].
    by destruct (Z.eqb_spec (snap_magic snap) TASK_SNAPSHOT_MAGIC).
Qed.

Lemma task_snapshot_roundtrip_witness :
  task_snapshot_restore (task_reset_for_test fresh_table) (Some (snapshot_of fresh_table)) 6000 = Ret (fresh_table, true) ∧
  task_snapshot_save fresh_table true 100 = Ret None.
Proof.
  destruct (task_snapshot_roundtrip fresh_table (task_reset_for_test fresh_table) 6000 fresh_ok eq_refl) as [_ H].
  destruct (task_snapshot_roundtrip fresh_table (task_reset_for_test fresh_table) 100 fresh_ok eq_refl) as [H2 _].
  split; [| apply H2; unfold task_snapshot_size, SIZEOF_TASK_SNAPSHOT; lia].
  destruct H as [(snap & Hs & Hr) _]; [unfold task_snapshot_size, SIZEOF_TASK_SNAPSHOT; lia |].
  rewrite snapshot_save_spec in Hs; [| exact fresh_ok | unfold SIZEOF_TASK_SNAPSHOT; lia].
  injection Hs as <-. exact Hr.
Defined.

(** ** Running *)

Definition runnable (k : task_t) : bool := bool_decide (state (info k) = TASK_READY) && negb (entry k =? 0).

(** A task that has run once and exited, with some exit code. *)
Definition finished (k k' : task_t) : Prop :=
  ∃ code, k' = set_run_count (set_state (set_exit_code k code) TASK_EXITED) (wrap64 (run_count (info k) + 1)).

Definition count_runnable (l : list task_t) : Z := zlen (filter (λ k, runnable k = true) l).

(** A free slot may be given to a new task. *)
Definition born (k : task_t) : Prop := state (info k) = TASK_READY ∧ run_count (info k) = 0 ∧ entry k ≠ 0.
Definition waiting (k k' : task_t) : Prop := k' = k ∨ (¬ is_used k ∧ born k').

(** After its turn: a runnable task has finished, another is as it was, and a task that
    came to a free slot has had its turn or not. *)
Definition visited (k k' : task_t) : Prop :=
  if runnable k then finished k k' else k' = k ∨ (¬ is_used k ∧ (born k' ∨ ∃ kb, born kb ∧ finished kb k')).

Lemma finished_used k k' : finished k k' → is_used k'.
Proof. by intros [code ->]. Qed.

Lemma born_used k : born k → is_used k.
Proof. intros (H & _). unfold is_used. by rewrite H. Qed.

Lemma runnable_used k : runnable k = true → is_used k.
Proof. intros [H _]%andb_prop. apply bool_decide_eq_true in H. unfold is_used. by rewrite H. Qed.

Lemma waiting_trans k y y' : waiting k y → waiting y y' → waiting k y'.
Proof. intros [->|[Hk Hb]]; [done |]. intros [->|[Hy _]]; [by right | by destruct Hy; apply born_used]. Qed.

Lemma visited_waiting k y y' : visited k y → waiting y y' → visited k y'.
Proof.
  intros Hv [->|[Hy Hb]]; [done |]. unfold visited in *. destruct (runnable k); [by destruct Hy; eapply finished_used |].
  destruct Hv as [->|[Hk [H|(kb & _ & H)]]]; [right; by split; [| left] | by destruct Hy; apply born_used | by destruct Hy; eapply finished_used].
Qed.

(** The calls an entry point may make on the table. *)
Inductive entry_call (id : Z) : task_table → task_table → Prop :=
| call_exit t t' code : task_exit_current t id code = Ret t' → entry_call id t t'
| call_spawn t t' tick nm s ent c r : cstr_at nm s → task_spawn_kernel t id tick (Some nm) ent c = Ret (t', r) → entry_call id t t'.

(** Entry points return, having exited the current task or spawned others any number of times. *)
Definition entries_return {W} (run : Z → Z → task_table → W → res (task_table * W)) (id : Z) : Prop :=
  ∀ e c t w, task_ok t → initialized t = true → ∃ t' w', run e c t w = Ret (t', w') ∧ rtc (entry_call id) t t'.

(** Entry points that exit the current task at most. *)
Definition entries_exit {W} (run : Z → Z → task_table → W → res (task_table * W)) (id : Z) : Prop :=
  ∀ e c t w, ∃ w', run e c t w = Ret (t, w') ∨ ∃ code, run e c t w = (t' ← task_exit_current t id code; Ret (t', w')).

Section run_ready.

Context {W : Type} (run : Z → Z → task_table → W → res (task_table * W)) (id : Z).
Context (id_ok : 0 <= id).

Definition started (k : task_t) : task_t := set_run_count (set_state k TASK_RUNNING) (wrap64 (run_count (info k) + 1)).

(** The table while slot [i] runs. *)
Definition running_table (t : task_table) (i : nat) (k : task_t) : task_table :=
  mk_table (<[i := started k]> (tasks t))
    (<[Z.to_nat (task_cpu_slot id) := Some (Z.of_nat i)]> (current_by_cpu t)) (next_pid t) (wrap64 (total_runs t + 1)) (initialized t).

Lemma running_ok t i k :
  task_ok t → tasks t !! i = Some k → state (info k) = TASK_READY → task_ok (running_table t i k).
Proof.
  intros Hok Hk Hs. set (k1 := set_run_count (set_state k TASK_RUNNING) (wrap64 (run_count (info k) + 1))).
  assert (Hu : is_used k) by (unfold is_used; by rewrite Hs).
  assert (H1 : task_ok (set_tasks t (<[i := k1]> (tasks t)))) by (by apply (task_ok_same_pid t i k)).
  destruct (set_current_ok _ id (Some (Z.of_nat i)) H1 id_ok) as [_ H2].
  - intros j [= <-]. rewrite Nat2Z.id. pose proof (lookup_lt_Some _ _ _ Hk) as Hlt. split.
    + pose proof (ok_tasks _ Hok) as Hl. unfold zlen in Hl. lia.
    + exists k1. cbn [set_tasks tasks]. by rewrite list_lookup_insert_eq.
  - by destruct H2; split.
Qed.

Lemma running_current t i k :
  task_ok t → tasks t !! i = Some k → task_current_locked (running_table t i k) id = Ret (Some (Z.of_nat i)).
Proof.
  intros Hok Hk. pose proof (cpu_slot_range id id_ok) as Hs. pose proof (ok_cpus _ Hok) as Hc. unfold task_current_locked.
  apply rd_Ret. split; [lia |]. cbn [running_table current_by_cpu]. apply list_lookup_insert_eq. unfold zlen in Hc. lia.
Qed.

(** Dropping the current task of a table. *)
Lemma drop_current t :
  task_ok t → ∃ c, task_set_current_locked t id None = Ret (set_current t c) ∧ task_ok (set_current t c).
Proof. intros Hok. destruct (set_current_ok t id None Hok id_ok) as [H1 H2]; [done |]. by eexists. Qed.

(** What an entry point may leave behind: its slot is running or has exited, the other
    tasks are as they were. *)
Record returned (t : task_table) (i : nat) (k : task_t) (t2 : task_table) : Prop := {
  rt_ok : task_ok t2;
  rt_init : initialized t2 = initialized t;
  rt_current : current_by_cpu t2 = current_by_cpu (running_table t i k);
  rt_total : total_runs t2 = wrap64 (total_runs t + 1);
  rt_slot : ∃ k', tasks t2 !! i = Some k' ∧ (k' = started k ∨ finished k k');
  rt_others : ∀ j y, j ≠ i → tasks t !! j = Some y → ∃ y', tasks t2 !! j = Some y' ∧ waiting y y';
}.

Lemma returned_current t i k t2 : task_ok t → tasks t !! i = Some k → returned t i k t2 → task_current_locked t2 id = Ret (Some (Z.of_nat i)).
Proof. intros Hok Hk Hr. unfold task_current_locked. rewrite (rt_current _ _ _ _ Hr). by apply running_current. Qed.

(** Changing only its own slot. *)
Lemma returned_alone t i k k' : task_ok t → tasks t !! i = Some k → runnable k = true → k' = started k ∨ finished k k' → returned t i k (set_tasks (running_table t i k) (<[i := k']> (tasks t))).
Proof.
  intros Hok Hk Hr Hk'. pose proof (runnable_used k Hr) as Hu. apply andb_prop in Hr as [Hs _]. apply bool_decide_eq_true in Hs. pose proof (running_ok t i k Hok Hk Hs) as Hok1. pose proof (lookup_lt_Some _ _ _ Hk) as Hlt.
  assert (Hp : is_used k' ∧ pid (info k') = pid (info k)) by (destruct Hk' as [->|[code ->]]; done). split; try done.
  - replace (<[i := k']> (tasks t)) with (<[i := k']> (tasks (running_table t i k))) by (cbn [running_table tasks]; by rewrite list_insert_insert_eq).
    apply (task_ok_same_pid _ i (started k)); [done | by apply list_lookup_insert_eq | done | apply Hp..].
  - exists k'. split; [by apply list_lookup_insert_eq | done].
  - intros j y Hj Hy. exists y. cbn [set_tasks tasks]. rewrite list_lookup_insert_ne by done. by split; [| left].
Qed.

Lemma returned_call t i k t2 t3 : task_ok t → initialized t = true → tasks t !! i = Some k → returned t i k t2 → entry_call id t2 t3 → returned t i k t3.
Proof.
  intros Hok Hin Hk Hr Hc. pose proof (returned_current t i k t2 Hok Hk Hr) as Hcur. destruct Hr as [R1 R2 R3 R4 (k' & Hk' & Hs) R6]. destruct Hc as [t2 t3 code E|t2 t3 tick nm s ent c r Hnm E].
  - unfold task_exit_current in E. rewrite Hcur in E. cbn [mbind res_bind] in E. rewrite (rd_lookup _ _ _ Hk') in E. pose proof (lookup_lt_Some _ _ _ Hk') as Hlt. cbn [mbind res_bind] in E. rewrite wr_inbounds, Nat2Z.id in E by (unfold zlen; lia). injection E as <-. set (k3 := set_state (set_exit_code k' code) TASK_EXITED).
    assert (Hf : finished k k3) by (exists code; unfold k3; destruct Hs as [->|[code' ->]]; done). split; cbn [set_tasks tasks current_by_cpu total_runs initialized]; try done.
    + apply (task_ok_same_pid t2 i k'); try done. by destruct Hs as [->|[code' ->]].
    + exists k3. split; [by apply list_lookup_insert_eq | by right].
    + intros j y Hj Hy. rewrite list_lookup_insert_ne by done. by apply R6.
  - pose proof (task_spawn_spec t2 id tick nm s ent c R1 ltac:(congruence) id_ok Hnm) as H. destruct ((ent =? 0) || (zlen s =? 0)) eqn:Ee; [rewrite H in E; injection E as <- _; split; eauto |]. case_decide; [rewrite H in E; injection E as <- _; split; eauto |].
    destruct H as (q & p & n & H & (k0 & Hk0 & Hun) & _ & _ & _ & Hok3). rewrite H in E. injection E as <- _. apply orb_false_iff in Ee as [Ee _]. apply Z.eqb_neq in Ee.
    assert (Hborn : born (new_task t2 id p tick s ent c)) by done. split; cbn [set_next_pid set_tasks tasks current_by_cpu total_runs initialized]; try done.
    + exists k'. split; [| done]. rewrite list_lookup_insert_ne; [done |]. intros ->. rewrite Hk' in Hk0. injection Hk0 as <-. apply Hun. by destruct Hs as [->|[code' ->]].
    + intros j y Hj Hy. destruct (R6 j y Hj Hy) as (y' & Hy' & Hw). destruct (decide (j = q)) as [->|]; [| rewrite list_lookup_insert_ne by done; by exists y'].
      exists (new_task t2 id p tick s ent c). split; [apply list_lookup_insert_eq; by eapply lookup_lt_Some |]. rewrite Hk0 in Hy'. injection Hy' as <-. apply (waiting_trans _ _ _ Hw). by right.
Qed.

Lemma returned_calls t i k t2 t3 : task_ok t → initialized t = true → tasks t !! i = Some k → returned t i k t2 → rtc (entry_call id) t2 t3 → returned t i k t3.
Proof. intros Hok Hin Hk Hr Hc. induction Hc; [done |]. by eauto using returned_call. Qed.

(** The slot after the entry point returned. *)
Lemma run_slot_returned t i k w w' ran t2 :
  task_ok t → tasks t !! i = Some k → runnable k = true → run (entry k) (ctx k) (running_table t i k) w = Ret (t2, w') → returned t i k t2 →
  ∃ t' k', run_slot run id (Z.of_nat i) t w ran = Ret (t', w', ran + 1) ∧ finished k k' ∧ tasks t' = <[i := k']> (tasks t2) ∧
    total_runs t' = total_runs t2 ∧ next_pid t' = next_pid t2 ∧ initialized t' = initialized t2 ∧ task_ok t'.
Proof.
  intros Hok Hk Hr E Hret. pose proof (runnable_used k Hr) as Hu. apply andb_prop in Hr as [Hs He]. apply bool_decide_eq_true in Hs. apply negb_true_iff in He.
  unfold run_slot. rewrite (rd_lookup _ _ _ Hk). mred. rewrite decide_True, He by done. pose proof (lookup_lt_Some _ _ _ Hk) as Hlt.
  destruct (set_current_ok t id (Some (Z.of_nat i)) Hok id_ok) as [-> _].
  { intros j [= <-]. rewrite Nat2Z.id. split; [pose proof (ok_tasks _ Hok) as Hl; unfold zlen in Hl; lia | by exists k]. }
  mred. rewrite wr_inbounds, Nat2Z.id by (unfold zlen; cbn [set_current tasks]; lia). mred. cbn [set_current set_tasks set_total_runs tasks total_runs].
  match goal with |- context [run _ _ ?r w] => change r with (running_table t i k) end. rewrite E. mred. rewrite (returned_current t i k t2 Hok Hk Hret). mred. rewrite decide_True by done.
  destruct Hret as [R1 R2 R3 R4 (k' & Hk' & Hk2) R6]. rewrite (rd_lookup _ _ _ Hk'). mred. pose proof (lookup_lt_Some _ _ _ Hk') as Hlt2.
  assert (∃ k'', finished k k'' ∧ (if decide (state (info k') = TASK_RUNNING) then wr (tasks t2) (Z.of_nat i) (set_state k' TASK_EXITED) else Ret (tasks t2)) = Ret (<[i := k'']> (tasks t2)) ∧ is_used k' ∧ pid (info k'') = pid (info k')) as (k'' & Hf & -> & Hu' & Hp'').
  { destruct Hk2 as [->|Hf].
    - rewrite decide_True by done. rewrite wr_inbounds, Nat2Z.id by (unfold zlen; lia). eexists. split; [exists (exit_code (info k)); reflexivity |]. by split_and!.
    - exists k'. split; [done |]. pose proof (finished_used _ _ Hf). destruct Hf as [code ->]. rewrite decide_False by done. by rewrite list_insert_id. }
  mred. assert (Hok3 : task_ok (set_tasks t2 (<[i := k'']> (tasks t2)))) by (apply (task_ok_same_pid t2 i k'); [done | done | done | by eapply finished_used | done]).
  destruct (drop_current _ Hok3) as (c & -> & Hok4). mred. eexists _, k''. split; [reflexivity |]. by split_and!.
Qed.

Lemma run_slot_skip t i k w ran :
  tasks t !! i = Some k → runnable k = false → run_slot run id (Z.of_nat i) t w ran = Ret (t, w, ran).
Proof.
  intros Hk Hr. unfold run_slot. rewrite (rd_lookup _ _ _ Hk). mred. unfold runnable in Hr.
  destruct (decide (state (info k) = TASK_READY)) as [Hs|]; [| done]. rewrite bool_decide_eq_true_2 in Hr by done. cbn [andb] in Hr.
  apply negb_false_iff in Hr. by rewrite Hr.
Qed.

(** *** Entry points that may spawn *)

Section spawning.

Context (calls : entries_return run id).

Lemma run_slot_dispatch t i k w ran :
  task_ok t → initialized t = true → tasks t !! i = Some k → runnable k = true →
  ∃ t' w' k', run_slot run id (Z.of_nat i) t w ran = Ret (t', w', ran + 1) ∧ finished k k' ∧ tasks t' !! i = Some k' ∧
    (∀ j y, j ≠ i → tasks t !! j = Some y → ∃ y', tasks t' !! j = Some y' ∧ waiting y y') ∧
    total_runs t' = wrap64 (total_runs t + 1) ∧ initialized t' = true ∧ task_ok t'.
Proof.
  intros Hok Hin Hk Hr. assert (Hst : returned t i k (running_table t i k)) by exact (returned_alone t i k _ Hok Hk Hr (or_introl eq_refl)).
  destruct (calls (entry k) (ctx k) (running_table t i k) w (rt_ok _ _ _ _ Hst) Hin) as (t2 & w' & E & Hc).
  pose proof (returned_calls t i k _ t2 Hok Hin Hk Hst Hc) as Hret. destruct (run_slot_returned t i k w w' ran t2 Hok Hk Hr E Hret) as (t' & k' & Er & Hf & Ht & Htot & _ & Hi & Hok').
  exists t', w', k'. destruct Hret as [_ R2 _ R4 (k2 & Hk2 & _) R6]. split_and!; [done | done | | | congruence | congruence | done].
  - rewrite Ht. apply list_lookup_insert_eq. by eapply lookup_lt_Some.
  - intros j y Hj Hy. rewrite Ht, list_lookup_insert_ne by done. by apply R6.
Qed.

(** The table when slots below [j] have had their turn. *)
Record passed (t : task_table) (m : Z) (j : nat) (t' : task_table) (ran : Z) : Prop := {
  q_ran : count_runnable (take j (tasks t)) ≤ ran ≤ m;
  q_done : ∀ i k, (i < j)%nat → tasks t !! i = Some k → ∃ k', tasks t' !! i = Some k' ∧ visited k k';
  q_rest : ∀ i k, (j ≤ i)%nat → tasks t !! i = Some k → ∃ k', tasks t' !! i = Some k' ∧ waiting k k';
  q_total : total_runs t' = wrap64 (total_runs t + ran);
  q_init : initialized t' = true;
  q_ok : task_ok t';
}.

Lemma count_runnable_snoc l k : count_runnable (l ++ [k]) = count_runnable l + Z.b2z (runnable k).
Proof.
  unfold count_runnable. rewrite filter_app, zlen_app. f_equal. rewrite filter_cons. destruct (runnable k) eqn:E.
  - by rewrite decide_True by done.
  - by rewrite decide_False by done.
Qed.

Lemma passed_step t m j t1 w ran :
  (j < length (tasks t))%nat → passed t m j t1 ran → ran < m →
  ∃ t2 w' ran', run_slot run id (Z.of_nat j) t1 w ran = Ret (t2, w', ran') ∧ passed t m (S j) t2 ran'.
Proof.
  intros Hj [Q1 Q2 Q3 Q4 Q5 Q6] Hran. destruct (lookup_lt_is_Some_2 _ _ Hj) as [k Hk]. destruct (Q3 j k ltac:(lia) Hk) as (k1 & Hk1 & Hw).
  assert (Hc : count_runnable (take (S j) (tasks t)) = count_runnable (take j (tasks t)) + Z.b2z (runnable k)) by by rewrite (take_S_r _ _ _ Hk), count_runnable_snoc.
  destruct (runnable k1) eqn:Er.
  - destruct (run_slot_dispatch t1 j k1 w ran Q6 Q5 Hk1 Er) as (t2 & w' & k2 & E & Hf & Hk2 & Hoth & Htot & Hin & Hok). exists t2, w', (ran + 1). split; [done |]. split; try done.
    + rewrite Hc. destruct (runnable k); simpl Z.b2z; lia.
    + intros i y Hi Hy. destruct (decide (i = j)) as [->|].
      * rewrite Hk in Hy. injection Hy as <-. exists k2. split; [done |]. unfold visited. destruct Hw as [->|[Hun Hb]]; [by rewrite Er |]. destruct (runnable k) eqn:Ek; [by destruct Hun; apply runnable_used |]. right. split; [done |]. right. by exists k1.
      * destruct (Q2 i y ltac:(lia) Hy) as (y1 & Hy1 & Hv). destruct (Hoth i y1 ltac:(done) Hy1) as (y2 & Hy2 & Hw2). exists y2. split; [done |]. by eapply visited_waiting.
    + intros i y Hi Hy. destruct (Q3 i y ltac:(lia) Hy) as (y1 & Hy1 & Hw1). destruct (Hoth i y1 ltac:(lia) Hy1) as (y2 & Hy2 & Hw2). exists y2. split; [done |]. by eapply waiting_trans.
    + rewrite Htot, Q4. unfold wrap. rewrite Z.add_mod_idemp_l by lia. f_equal. lia.
  - exists t1, w, ran. split; [by apply (run_slot_skip t1 j k1) |]. assert (runnable k = false ∧ k1 = k) as [Hr0 ->].
    { destruct Hw as [->|[Hun (Hs & _ & He)]]; [done |]. unfold runnable in Er. rewrite Hs, bool_decide_true in Er by done. apply negb_false_iff, Z.eqb_eq in Er. done. }
    split; try done.
    + rewrite Hc, Hr0. simpl Z.b2z. lia.
    + intros i y Hi Hy. destruct (decide (i = j)) as [->|]; [| apply Q2; [lia | done]]. rewrite Hk in Hy. injection Hy as <-. exists k. split; [done |]. unfold visited. rewrite Hr0. by left.
    + intros i y Hi Hy. apply Q3; [lia | done].
Qed.

Lemma run_ready_spawning t w m :
  task_ok t → initialized t = true → is_u64 (total_runs t) → 0 < m →
  ∃ t' w' ran stop c, loop_n (Z.to_nat TASK_MAX) 0 (λ i '(t, w, ran), if ran <? m then r ← run_slot run id i t w ran; Ret (Next r) else Ret (Done (t, w, ran))) (t, w, 0) = Ret c ∧
    (c = Next (t', w', ran) ∨ c = Done (t', w', ran)) ∧ passed t m stop t' ran ∧ (stop ≤ 64)%nat ∧ (ran < m → stop = 64%nat).
Proof.
  intros Hok Hin Htot Hm. pose proof (tasks_length t Hok) as Hl. change (Z.to_nat TASK_MAX) with 64%nat in *.
  assert (H0 : passed t m 0 t 0).
  { split; try done; [rewrite take_0; unfold count_runnable, zlen; cbn; lia | lia | intros i k _ Hk; exists k; by split; [| left] |]. by rewrite Z.add_0_r, (wrap_small 64). }
  match goal with |- context [loop_n ?n ?i0 ?f ?s0] => destruct (loop_n_inv (λ j (x : task_table * W * Z), passed t m (Z.to_nat j) x.1.1 x.2) (λ x : task_table * W * Z, m ≤ x.2 ∧ ∃ stop, (stop ≤ 64)%nat ∧ passed t m stop x.1.1 x.2) f n i0 s0)
    as [([[t' w'] ran] & -> & HP)|([[t' w'] ran] & -> & Hge & stop & Hst & HP)] end.
  - exact H0.
  - intros j [[t1 w1] ran] Hj HP. cbn beta iota. cbn [fst snd] in *. destruct (Z.ltb_spec ran m) as [Hlt|Hge].
    + destruct (passed_step t m (Z.to_nat j) t1 w1 ran ltac:(lia) HP Hlt) as (t2 & w2 & ran2 & E & HP2). rewrite Z2Nat.id in E by lia. left. exists (t2, w2, ran2). rewrite E. split; [done |].
      by replace (Z.to_nat (j + 1)) with (S (Z.to_nat j)) by lia.
    + right. exists (t1, w1, ran). split; [done |]. split; [done |]. exists (Z.to_nat j). split; [lia | done].
  - cbn [fst snd] in HP. exists t', w', ran, 64%nat, (Next (t', w', ran)). by split_and!; [| left | ..].
  - cbn [fst snd] in *. exists t', w', ran, stop, (Done (t', w', ran)). split_and!; [done | by right | done | done | lia].
Qed.

End spawning.

(** *** Entry points that exit at most *)

Context (entries : entries_exit run id).

(** What such an entry point leaves behind. *)
Lemma entry_outcome t i k w :
  task_ok t → tasks t !! i = Some k → runnable k = true →
  ∃ w' k', run (entry k) (ctx k) (running_table t i k) w = Ret (set_tasks (running_table t i k) (<[i := k']> (tasks t)), w') ∧
    (k' = started k ∨ finished k k').
Proof.
  intros Hok Hk Hr. destruct (entries (entry k) (ctx k) (running_table t i k) w) as (w' & [E|[code E]]).
  - exists w', (started k). split; [exact E | by left].
  - exists w', (set_run_count (set_state (set_exit_code k code) TASK_EXITED) (wrap64 (run_count (info k) + 1))). split; [| right; by exists code].
    rewrite E. unfold task_exit_current. rewrite (running_current t i k Hok Hk). mred. pose proof (lookup_lt_Some _ _ _ Hk) as Hlt.
    assert (Hk1 : tasks (running_table t i k) !! i = Some (started k)) by (by apply list_lookup_insert_eq).
    rewrite (rd_lookup _ _ _ Hk1). mred. rewrite wr_inbounds, Nat2Z.id.
    + mred. cbn [running_table tasks]. by rewrite list_insert_insert_eq.
    + apply lookup_lt_Some in Hk1. unfold zlen. lia.
Qed.

Lemma run_slot_runnable t i k w ran :
  task_ok t → tasks t !! i = Some k → runnable k = true →
  ∃ t' w' k', run_slot run id (Z.of_nat i) t w ran = Ret (t', w', ran + 1) ∧ finished k k' ∧ tasks t' = <[i := k']> (tasks t) ∧
    total_runs t' = wrap64 (total_runs t + 1) ∧ next_pid t' = next_pid t ∧ initialized t' = initialized t ∧ task_ok t'.
Proof.
  intros Hok Hk Hr. destruct (entry_outcome t i k w Hok Hk Hr) as (w' & k' & E & Hk'). pose proof (returned_alone t i k k' Hok Hk Hr Hk') as Hret.
  destruct (run_slot_returned t i k w w' ran _ Hok Hk Hr E Hret) as (t' & k2 & Er & Hf & Ht & H1 & H2 & H3 & H4). exists t', w', k2. split_and!; try done.
  rewrite Ht. cbn [set_tasks tasks]. by rewrite list_insert_insert_eq.
Qed.

(** Slot [i] gets its turn when it is runnable and fewer than [m] before it are. *)
Definition gets_turn (l : list task_t) (m : Z) (i : nat) (k : task_t) : bool := runnable k && (count_runnable (take i l) <? m).

(** The table after the first [j] slots of [t] had their turn. *)
Record progress (t : task_table) (m : Z) (j : nat) (t' : task_table) (ran : Z) : Prop := {
  p_ran : ran = Z.min m (count_runnable (take j (tasks t)));
  p_done : ∀ i k, (i < j)%nat → tasks t !! i = Some k →
    ∃ k', tasks t' !! i = Some k' ∧ if gets_turn (tasks t) m i k then finished k k' else k' = k;
  p_rest : ∀ i, (j ≤ i)%nat → tasks t' !! i = tasks t !! i;
  p_total : total_runs t' = wrap64 (total_runs t + ran);
  p_pid : next_pid t' = next_pid t;
  p_init : initialized t' = initialized t;
  p_ok : task_ok t';
}.

Lemma progress_step t m j k t1 w ran :
  0 < m → tasks t !! j = Some k → progress t m j t1 ran → ran < m →
  ∃ t2 w' ran', run_slot run id (Z.of_nat j) t1 w ran = Ret (t2, w', ran') ∧ progress t m (S j) t2 ran'.
Proof.
  intros Hm Hk [P1 P2 P3 P4 P5 P6 P7] Hran. assert (Hk1 : tasks t1 !! j = Some k) by (by rewrite P3).
  assert (Hc : count_runnable (take (S j) (tasks t)) = count_runnable (take j (tasks t)) + Z.b2z (runnable k)).
  { by rewrite (take_S_r _ _ _ Hk), count_runnable_snoc. }
  assert (Hturn : gets_turn (tasks t) m j k = runnable k).
  { unfold gets_turn. destruct (runnable k); [| done]. cbn [andb]. apply Z.ltb_lt. lia. }
  destruct (runnable k) eqn:Er.
  - destruct (run_slot_runnable t1 j k w ran P7 Hk1 Er) as (t2 & w' & k' & E & Hf & Ht & Htr & Hp & Hi & Hok).
    exists t2, w', (ran + 1). split; [exact E |]. split; try congruence.
    + rewrite Hc. simpl Z.b2z. lia.
    + intros i y Hi' Hy. rewrite Ht. destruct (decide (i = j)) as [->|].
      * simplify_eq. exists k'. rewrite Hturn. split; [| done]. apply list_lookup_insert_eq. by eapply lookup_lt_Some.
      * rewrite list_lookup_insert_ne by done. apply P2; [lia | done].
    + intros i Hi'. rewrite Ht, list_lookup_insert_ne by lia. apply P3. lia.
    + rewrite Htr, P4. unfold wrap. rewrite Z.add_mod_idemp_l by lia. f_equal. lia.
  - rewrite (run_slot_skip t1 j k w ran Hk1 Er). exists t1, w, ran. split; [done |]. split; try done.
    + rewrite Hc. simpl Z.b2z. lia.
    + intros i y Hi Hy. destruct (decide (i = j)) as [->|]; [| apply P2; [lia | done]].
      simplify_eq. eexists. rewrite Hturn. by split.
    + intros i Hi. apply P3. lia.
Qed.

(** Once [m] tasks have run, the remaining slots are left alone. *)
Lemma progress_full t m j t1 ran :
  progress t m j t1 ran → m ≤ ran → (j ≤ length (tasks t))%nat → progress t m (length (tasks t)) t1 ran.
Proof.
  intros [P1 P2 P3 P4 P5 P6 P7] Hran Hj.
  assert (Hmono : ∀ i, (j ≤ i)%nat → count_runnable (take j (tasks t)) ≤ count_runnable (take i (tasks t))).
  { intros i Hi. replace (take i (tasks t)) with (take j (tasks t) ++ drop j (take i (tasks t))).
    - unfold count_runnable. rewrite filter_app, zlen_app. pose proof (zlen_nonneg (filter (λ k, runnable k = true) (drop j (take i (tasks t))))). lia.
    - replace (take j (tasks t)) with (take j (take i (tasks t))) by (rewrite take_take; f_equal; lia). apply take_drop. }
  split; try done.
  - specialize (Hmono (length (tasks t)) Hj). lia.
  - intros i k Hi Hk. destruct (decide (i < j)%nat); [by apply P2 |]. exists k. rewrite P3 by lia. split; [done |].
    unfold gets_turn. specialize (Hmono i ltac:(lia)). destruct (Z.ltb_spec (count_runnable (take i (tasks t))) m); [lia |].
    by rewrite andb_false_r.
  - intros i Hi. apply P3. lia.
Qed.

Lemma run_ready_exact t w max :
  task_ok t → initialized t = true → is_u64 (total_runs t) → 0 ≤ max →
  let m := if max =? 0 then TASK_MAX else max in
  ∃ t' w', task_run_ready run t w id max = Ret (t', w', Z.min m (count_runnable (tasks t))) ∧
    (∀ i k, tasks t !! i = Some k → ∃ k', tasks t' !! i = Some k' ∧ if gets_turn (tasks t) m i k then finished k k' else k' = k) ∧
    total_runs t' = wrap64 (total_runs t + Z.min m (count_runnable (tasks t))) ∧ next_pid t' = next_pid t ∧ task_ok t'.
Proof.
  intros Hok Hin Htot Hmax m. unfold task_run_ready. rewrite Hin. mred. fold m.
  assert (Hm : 0 < m) by (unfold m, TASK_MAX; destruct (Z.eqb_spec max 0); lia). clearbody m.
  pose proof (tasks_length t Hok) as Hl. rewrite <- Hl.
  assert (H0 : progress t m 0 t 0).
  { split; try done; [rewrite take_0; unfold count_runnable, zlen; simpl; lia | lia |]. by rewrite Z.add_0_r, (wrap_small 64). }
  assert (Hfinal : ∀ t' ran, progress t m (length (tasks t)) t' ran → ran = Z.min m (count_runnable (tasks t)) ∧
    (∀ i k, tasks t !! i = Some k → ∃ k', tasks t' !! i = Some k' ∧ if gets_turn (tasks t) m i k then finished k k' else k' = k) ∧
    total_runs t' = wrap64 (total_runs t + ran) ∧ next_pid t' = next_pid t ∧ task_ok t').
  { intros t' ran [P1 P2 P3 P4 P5 P6 P7]. rewrite take_ge in P1 by lia. split_and!; try done.
    intros i k Hk. apply P2; [by eapply lookup_lt_Some | done]. }
  edestruct (loop_n_inv (λ j (s : task_table * W * Z), progress t m (Z.to_nat j) s.1.1 s.2)
    (λ s : task_table * W * Z, progress t m (length (tasks t)) s.1.1 s.2)) as [([[t' w'] ran] & -> & HP)|([[t' w'] ran] & -> & HP)].
  - exact H0.
  - intros j [[t1 w1] ran] Hj HP. cbn beta iota. cbn [fst snd] in *.
    destruct (lookup_lt_is_Some_2 (tasks t) (Z.to_nat j)) as [k Hk]; [lia |]. destruct (Z.ltb_spec ran m) as [Hlt|Hge].
    + destruct (progress_step t m (Z.to_nat j) k t1 w1 ran Hm Hk HP Hlt) as (t2 & w2 & ran2 & E & HP2).
      rewrite Z2Nat.id in E by lia. left. exists (t2, w2, ran2). rewrite E. split; [done |].
      by replace (Z.to_nat (j + 1)) with (S (Z.to_nat j)) by lia.
    + right. exists (t1, w1, ran). split; [done |]. cbn [fst snd]. apply (progress_full t m (Z.to_nat j)); [done | lia | lia].
  - mred. rewrite Z.add_0_l, Nat2Z.id in HP. destruct (Hfinal t' ran HP) as (-> & H). by exists t', w'.
  - mred. destruct (Hfinal t' ran HP) as (-> & H). by exists t', w'.
Qed.

End run_ready.

(** C25: [task_run_ready], for entry points that return and whose calls on the table are any
    number of exits of the current task and of spawns.  It returns and dispatches in slot
    order, at most [max_tasks] tasks (64 for 0): there is a slot up to which every task
    that was ready has run once and exited, whether or not it called
    [task_exit_current], and it is the end of the table unless the limit was reached;
    all other tasks are as they were; a task spawned meanwhile waits, or ran once and
    exited; the counters advance by the number of dispatches noted with the scheduler,
    and the table stays well formed.  If no entry point spawns, the tasks run are exactly
    the first ones that were ready, up to the limit, and no other slot changes. *)
Theorem task_run_ready_correct {W} (run : Z → Z → task_table → W → res (task_table * W)) id t w max :
  0 ≤ id → entries_return run id → task_ok t → initialized t = true → is_u64 (total_runs t) → 0 ≤ max →
  let m := if max =? 0 then TASK_MAX else max in
  ∃ t' w' ran, task_run_ready run t w id max = Ret (t', w', ran) ∧ ran ≤ m ∧ total_runs t' = wrap64 (total_runs t + ran) ∧ task_ok t' ∧
    (∃ stop, count_runnable (take stop (tasks t)) ≤ ran ∧ (ran < m → stop = 64%nat) ∧
       ∀ i k, tasks t !! i = Some k → ∃ k', tasks t' !! i = Some k' ∧ if decide (i < stop)%nat then visited k k' else waiting k k') ∧
    (entries_exit run id → ran = Z.min m (count_runnable (tasks t)) ∧ next_pid t' = next_pid t ∧
       ∀ i k, tasks t !! i = Some k → ∃ k', tasks t' !! i = Some k' ∧ if gets_turn (tasks t) m i k then finished k k' else k' = k).
Proof.
  intros Hid Hret Hok Hin Htot Hmax m. assert (Hm : 0 < m) by (unfold m, TASK_MAX; destruct (Z.eqb_spec max 0); lia).
  destruct (run_ready_spawning run id Hid Hret t w m Hok Hin Htot Hm) as (t' & w' & ran & stop & c & E & Hc & [Q1 Q2 Q3 Q4 _ Q6] & _ & Hstop).
  assert (Er : task_run_ready run t w id max = Ret (t', w', ran)) by (unfold task_run_ready; rewrite Hin; mred; fold m; rewrite E; by destruct Hc as [->| ->]).
  exists t', w', ran. split_and!; [done | lia | done | done | |].
  - exists stop. split_and!; [lia | done |]. intros i k Hk. case_decide; [by apply Q2 | apply Q3; [lia | done]].
  - intros Hex. destruct (run_ready_exact run id Hid Hex t w max Hok Hin Htot Hmax) as (t2 & w2 & E2 & H1 & _ & H3 & _). fold m in E2, H1. rewrite Er in E2. injection E2 as -> -> ->. by split_and!.
Qed.

(** A table with two tasks; the first spawns a third and exits. *)
Definition spawner (e c : Z) (t : task_table) (w : Z) : res (task_table * Z) :=
  if c =? 1 then
    t ← task_exit_current t 0 5;
    '(t, _) ← task_spawn_kernel t 0 9 (Some (lit "child")) 1 2;
    Ret (t, w + 1)
  else Ret (t, w + 10).

Definition two_tasks : task_table :=
  set_tasks fresh_table (new_task fresh_table 0 1 0 (bytes_of "a") 1 1 :: new_task fresh_table 0 2 0 (bytes_of "b") 1 2 :: replicate 62 zero_task).

Lemma two_tasks_ok : task_ok two_tasks.
Proof.
  assert (H : ∀ i k, tasks two_tasks !! i = Some k → is_used k → i = O ∧ pid (info k) = 1 ∨ i = 1%nat ∧ pid (info k) = 2).
  { intros [|[|i]] k Hk Hu; cbn [two_tasks set_tasks tasks lookup list_lookup] in Hk; [injection Hk as <-; by left | injection Hk as <-; by right |]. fold (replicate 62 zero_task !! i) in Hk. apply lookup_replicate in Hk as [-> _]. by destruct zero_unused. }
  split; cbn [two_tasks set_tasks tasks current_by_cpu next_pid].
  - reflexivity.
  - reflexivity.
  - intros c i Hc. by apply lookup_replicate in Hc as [? _].
  - cbn. lia.
  - intros i k Hk Hu. destruct (H i k Hk Hu) as [[_ ->]|[_ ->]]; lia.
  - intros i j a b Ha Hb Hua Hub E. destruct (H i a Ha Hua) as [[-> Ea]|[-> Ea]], (H j b Hb Hub) as [[-> Eb]|[-> Eb]]; congruence.
Qed.

Lemma spawner_returns : entries_return spawner 0.
Proof.
  intros e c t w Hok Hin. unfold spawner. destruct (c =? 1); [| by exists t, (w + 10)].
  destruct (exit_current_ok t 0 5 Hok ltac:(lia)) as (t1 & E1 & Hok1 & Hin1). rewrite E1. mred. assert (Hs : cstr_at (lit "child") (bytes_of "child")) by (split; [repeat constructor; done | by exists []]).
  assert (∃ t2 r, task_spawn_kernel t1 0 9 (Some (lit "child")) 1 2 = Ret (t2, r)) as (t2 & r & E2).
  { pose proof (task_spawn_spec t1 0 9 (lit "child") (bytes_of "child") 1 2 Hok1 ltac:(congruence) ltac:(lia) Hs) as H. cbn [Z.eqb orb] in H. change (zlen (bytes_of "child") =? 0) with false in H. cbn iota in H. case_decide; [by eexists _, _ |]. destruct H as (i & p & n & H & _). by eexists _, _. }
  rewrite E2. mred. exists t2, (w + 1). split; [done |]. eapply rtc_l; [by eapply call_exit |]. eapply rtc_l; [by eapply call_spawn |]. done.
Qed.

(** The two tasks and the spawned one run, and all have exited. *)
Lemma task_run_ready_correct_witness :
  ∃ t' w' ran, task_run_ready spawner two_tasks 0 0 16 = Ret (t', w', ran) ∧ ran = 3 ∧ w' = 21 ∧ total_runs t' = 3 ∧
    ∃ ka, tasks t' !! O = Some ka ∧ finished (new_task fresh_table 0 1 0 (bytes_of "a") 1 1) ka.
Proof.
  destruct (task_run_ready_correct spawner 0 two_tasks 0 16 ltac:(lia) spawner_returns two_tasks_ok eq_refl ltac:(unfold is_u64; cbn; lia) ltac:(lia))
    as (t' & w' & ran & E & _ & Htot & _ & (stop & _ & Hstop & Hv) & _).
  exists t', w', ran. split; [exact E |].
  assert (Hrun : match task_run_ready spawner two_tasks 0 0 16 with Ret (_, w, r) => (w =? 21) && (r =? 3) | Fault _ => false end = true) by (vm_compute; reflexivity).
  rewrite E in Hrun. apply andb_prop in Hrun as [Hw Hr]. apply Z.eqb_eq in Hw, Hr. subst w' ran. split; [reflexivity |]. split; [reflexivity |]. split; [exact Htot |].
  destruct (Hv O _ eq_refl) as (ka & Hka & Hvis). rewrite (Hstop ltac:(cbn; lia)) in Hvis. exists ka. split; [exact Hka | exact Hvis].
Defined.

(** The self-test passes from a fresh table. *)
Theorem task_selftest_passes t :
  initialized t = false → ∃ t', task_selftest t 0 0 = Ret (t', true).
Proof.
  intros Hi. unfold task_selftest, task_init. rewrite Hi. mred. eexists. vm_compute. reflexivity.
Qed.

(** The numbers of the line are machine words. *)
Definition info_typed (k : task_t) : Prop :=
  is_u32 (pid (info k)) ∧ is_u32 (parent_pid (info k)) ∧ is_u64 (run_count (info k)) ∧ zlen (name (info k)) = TASK_NAME_MAX.

(** C39: the line of a task cannot be printed.  The conversions [%-5u] and [%-8s]
    are not in the language of [kvformat]: it prints a percent sign and a minus and
    consumes no argument, so the closing [%s] takes the first argument, the
    process id, as a string pointer. *)
Theorem task_dump_misreads_arguments k stk :
  zlen stk = KPRINTF_CHUNK_SIZE → info_typed k → dump_row k stk = Fault BadVarArg.
Proof.
  intros Hs (Hp & Hpp & Hr & Hn). apply kprintf_faults; [done | | reflexivity].
  repeat (apply Forall_cons; split); try done.
  - unfold varg_ok. by destruct (state (info k)).
  - unfold varg_ok. rewrite Hn. done.
Qed.

Lemma task_dump_misreads_arguments_witness :
  dump_row (new_task fresh_table 0 1 0 (bytes_of "init") 1 0) (replicate 256 0) = Fault BadVarArg.
Proof.
  apply task_dump_misreads_arguments; [reflexivity |].
  unfold info_typed, is_u32, is_u64. split_and!; vm_compute; reflexivity || discriminate.
Defined.

Lemma task_selftest_passes_witness :
  ∃ t', task_selftest (mk_table (replicate 64 zero_task) (replicate 16 None) 0 0 false) 0 0 = Ret (t', true).
Proof. exact (task_selftest_passes (mk_table (replicate 64 zero_task) (replicate 16 None) 0 0 false) eq_refl). Defined.
