(* ===== verification/Console.v ===== *)
(** * The console: [kernel/core/console.c]

    An ANSI escape-sequence interpreter in front of the text screen.  The screen is
    the class [Screen]: its functions take the display and return its new value.
    Characters are bytes; the spinlock is not modelled. *)

From Stdlib Require Import ZArith Lia String.
From stdpp Require Import prelude list_numbers.
From S2P Require Import Prelude CString.

Local Open Scope Z_scope.

Definition RABBITBONE_THEME_LEGACY : Z := 0.
Definition RABBITBONE_THEME_BLACK : Z := 1.
Definition RABBITBONE_THEME_MAX : Z := 2.

Inductive ansi_state_t := ANSI_TEXT | ANSI_ESC | ANSI_CSI.

#[global] Instance ansi_state_eq_dec : EqDecision ansi_state_t.
Proof. solve_decision. Defined.

Record console_theme_def_t := mk_theme { theme_id : Z; theme_name : list Z; theme_fg : Z; theme_bg : Z; panic_fg : Z; panic_bg : Z }.

Definition themes : list console_theme_def_t :=
  [mk_theme RABBITBONE_THEME_LEGACY (lit "legacy") 15 1 15 4; mk_theme RABBITBONE_THEME_BLACK (lit "black") 15 0 15 0].

(** The static variables. *)
Record console_state := mk_console {
  ansi_state : ansi_state_t;
  ansi_args : list Z;
  ansi_argc : Z;
  ansi_arg_active : bool;
  active_theme : Z;
}.

Class Screen (V : Type) := {
  vga_init : V → V;
  vga_putc : V → Z → V;
  vga_clear : V → V;
  vga_clear_line : V → V;
  vga_move_cursor : V → Z → Z → V;
  vga_get_cursor : V → Z * Z;
  vga_get_size : V → Z * Z;
  vga_set_color : V → Z → Z → V;
  vga_get_color : V → Z;
  vga_recolor : V → Z → Z → V;
  vga_set_cursor_visible : V → bool → V;
  vga_scroll_view : V → Z → bool * V;
  vga_begin_update : V → V;
  vga_end_update : V → V;
  vga_flush : V → V;
  serial_init : V → V;
}.

Definition theme_by_id (id : Z) : res console_theme_def_t :=
  c ← loop_n (length themes) 0 (λ i (_ : unit), t ← rd themes i; if theme_id t =? id then Ret (Done t) else Ret (Next tt)) tt;
  match c with Done t => Ret t | Next _ => rd themes 0 end.

Definition current_theme_def (s : console_state) : res console_theme_def_t := theme_by_id (active_theme s).

Definition ansi_reset (s : console_state) : console_state := mk_console ANSI_TEXT (replicate 4 0) 0 false (active_theme s).

Definition ansi_arg (s : console_state) (idx def : Z) : res Z :=
  if ansi_argc s <=? idx then Ret def else
  v ← rd (ansi_args s) idx;
  Ret (if v =? 0 then def else v).

Definition clamp_u32 (v max : Z) : Z := if max <? v then max else v.

Section console.
Context {V : Type} `{Screen V}.

Definition apply_normal_theme_unlocked (s : console_state) (v : V) : res V :=
  t ← current_theme_def s; Ret (vga_set_color v (theme_fg t) (theme_bg t)).

Definition recolor_normal_theme_unlocked (s : console_state) (v : V) : res V :=
  t ← current_theme_def s;
  Ret (vga_recolor (vga_set_color v (theme_fg t) (theme_bg t)) (theme_fg t) (theme_bg t)).

(** One attribute of an [m] sequence. *)
Definition sgr (s : console_state) (theme : console_theme_def_t) (a : Z) (v : V) : res V :=
  if a =? 0 then apply_normal_theme_unlocked s v else
  let attr := vga_get_color v in
  let fg := Z.land attr 0xf in
  let bg := Z.land (Z.shiftr attr 4) 0xf in
  Ret (if (30 <=? a) && (a <=? 37) then vga_set_color v (a - 30) bg
       else if (40 <=? a) && (a <=? 47) then vga_set_color v fg (a - 40)
       else if a =? 39 then vga_set_color v (theme_fg theme) bg
       else if a =? 49 then vga_set_color v fg (theme_bg theme) else v).

Definition ansi_finish (s : console_state) (cmd : Z) (v : V) : res (console_state * V) :=
  let '(row, col) := vga_get_cursor v in
  let '(rows, cols) := vga_get_size v in
  let max_row := if negb (rows =? 0) then rows - 1 else 0 in
  let max_col := if negb (cols =? 0) then cols - 1 else 0 in
  let row := clamp_u32 row max_row in
  let col := clamp_u32 col max_col in
  theme ← current_theme_def s;
  v ← (if (cmd =? 72) || (cmd =? 102) then
         r ← ansi_arg s 0 1;
         c ← ansi_arg s 1 1;
         Ret (vga_move_cursor v (clamp_u32 (if negb (r =? 0) then r - 1 else 0) max_row) (clamp_u32 (if negb (c =? 0) then c - 1 else 0) max_col))
       else if cmd =? 65 then
         n ← ansi_arg s 0 1; Ret (vga_move_cursor v (if n <? row then row - n else 0) col)
       else if cmd =? 66 then
         n ← ansi_arg s 0 1;
         Ret (vga_move_cursor v (clamp_u32 (wrap32 (row + (if max_row - row <? n then max_row - row else n))) max_row) col)
       else if cmd =? 67 then
         n ← ansi_arg s 0 1;
         Ret (vga_move_cursor v row (clamp_u32 (wrap32 (col + (if max_col - col <? n then max_col - col else n))) max_col))
       else if cmd =? 68 then
         n ← ansi_arg s 0 1; Ret (vga_move_cursor v row (if n <? col then col - n else 0))
       else if cmd =? 74 then
         n ← ansi_arg s 0 0; Ret (if (n =? 2) || (ansi_argc s =? 0) then vga_clear v else v)
       else if cmd =? 75 then Ret (vga_clear_line v)
       else if cmd =? 109 then
         a0 ← rd (ansi_args s) 0;
         v ← (if (ansi_argc s =? 0) || (a0 =? 0) then apply_normal_theme_unlocked s v else Ret v);
         for_n (Z.to_nat (ansi_argc s)) 0 (λ i v, a ← rd (ansi_args s) i; sgr s theme a v) v
       else Ret v);
  Ret (ansi_reset s, v).

Definition vga_ansi_putc (s : console_state) (c : Z) (v : V) : res (console_state * V) :=
  match ansi_state s with
  | ANSI_TEXT =>
      if c =? 0x1b then Ret (mk_console ANSI_ESC (ansi_args s) (ansi_argc s) (ansi_arg_active s) (active_theme s), v)
      else Ret (s, vga_putc v c)
  | ANSI_ESC =>
      if c =? 91 then
        args ← wr (ansi_args s) 0 0;
        Ret (mk_console ANSI_CSI args 1 false (active_theme s), v)
      else Ret (ansi_reset s, vga_putc v c)
  | ANSI_CSI =>
      if (48 <=? c) && (c <=? 57) then
        let argc := if ansi_argc s =? 0 then 1 else ansi_argc s in
        let idx := argc - 1 in
        a ← rd (ansi_args s) idx;
        args ← (if a <=? 9999 then wr (ansi_args s) idx (wrap32 (a * 10 + (c - 48))) else Ret (ansi_args s));
        Ret (mk_console ANSI_CSI args argc true (active_theme s), v)
      else if c =? 59 then
        if ansi_argc s <? 4 then
          args ← wr (ansi_args s) (ansi_argc s) 0;
          Ret (mk_console ANSI_CSI args (ansi_argc s + 1) false (active_theme s), v)
        else Ret (s, v)
      else
        a0 ← rd (ansi_args s) 0;
        let argc := if negb (ansi_arg_active s) && (ansi_argc s =? 1) && (a0 =? 0) then 0 else ansi_argc s in
        ansi_finish (mk_console ANSI_CSI (ansi_args s) argc (ansi_arg_active s) (active_theme s)) c v
  end.

Definition console_putc_unlocked (s : console_state) (c : Z) (v : V) : res (console_state * V) :=
  '(s, v) ← vga_ansi_putc s c (vga_begin_update v);
  Ret (s, vga_end_update v).

Definition console_init (s : console_state) (v : V) : res (console_state * V) :=
  let v := serial_init (vga_init v) in
  let s := mk_console (ansi_state s) (ansi_args s) (ansi_argc s) (ansi_arg_active s) RABBITBONE_THEME_LEGACY in
  v ← apply_normal_theme_unlocked s v;
  Ret (ansi_reset s, v).

Definition console_putc (s : console_state) (c : Z) (v : V) : res (console_state * V) := console_putc_unlocked s c v.

Definition console_write_n (s : console_state) (str : option (list Z)) (n : Z) (v : V) : res (console_state * V) :=
  match str with
  | None => if negb (n =? 0) then Ret (s, v) else Ret (s, vga_end_update (vga_begin_update v))
  | Some str =>
      '(s, v) ← for_n (Z.to_nat n) 0 (λ i '(s, v), c ← rd str i; vga_ansi_putc s c v) (s, vga_begin_update v);
      Ret (s, vga_end_update v)
  end.

Definition console_write (s : console_state) (str : option (list Z)) (v : V) : res (console_state * V) :=
  match str with
  | None => Ret (s, v)
  | Some _ => n ← strlen str; console_write_n s str n v
  end.

Definition console_flush (v : V) : V := vga_flush v.

Definition console_clear (s : console_state) (v : V) : res (console_state * V) :=
  v ← apply_normal_theme_unlocked s v;
  Ret (ansi_reset s, vga_clear v).

Definition console_scroll (v : V) (lines : Z) : bool * V := vga_scroll_view v lines.
Definition console_move_cursor (v : V) (row col : Z) : bool * V := (true, vga_move_cursor v row col).
Definition console_set_cursor_visible (v : V) (visible : bool) : bool * V := (true, vga_set_cursor_visible v visible).
Definition console_clear_line (v : V) : bool * V := (true, vga_clear_line v).
Definition console_set_color (v : V) (fg bg : Z) : V := vga_set_color v fg bg.
Definition console_theme (s : console_state) : Z := active_theme s.

Definition console_set_theme (s : console_state) (id : Z) (v : V) : res (console_state * V * bool) :=
  if RABBITBONE_THEME_MAX <=? id then Ret (s, v, false) else
  let s := mk_console (ansi_state s) (ansi_args s) (ansi_argc s) (ansi_arg_active s) id in
  v ← recolor_normal_theme_unlocked s v;
  Ret (s, v, true).

Definition console_apply_theme (s : console_state) (v : V) : res V := apply_normal_theme_unlocked s v.

Definition console_panic_begin (s : console_state) (v : V) : res (console_state * V) :=
  theme ← current_theme_def s;
  Ret (ansi_reset s, vga_clear (vga_set_color v (panic_fg theme) (panic_bg theme))).

End console.

Definition console_theme_name (id : Z) : res (list Z) := t ← theme_by_id id; Ret (theme_name t).

(** ** What the console promises

    The output is a sequence of characters and commands; [encode] is how a program
    writes it. *)

Inductive token :=
| Txt (c : Z)
| EscChar (c : Z)
| Csi (params : list (list Z)) (final : Z).

Fixpoint join_params (params : list (list Z)) : list Z :=
  match params with
  | [] => []
  | [p] => p
  | p :: ps => p ++ 59 :: join_params ps
  end.

Definition encode (t : token) : list Z :=
  match t with
  | Txt c => [c]
  | EscChar c => [0x1b; c]
  | Csi ps f => 0x1b :: 91 :: join_params ps ++ [f]
  end.

Definition is_digit (c : Z) : bool := (48 <=? c) && (c <=? 57).

Definition token_ok (t : token) : Prop :=
  match t with
  | Txt c => c ≠ 0x1b
  | EscChar c => c ≠ 91
  | Csi ps f => ps ≠ [] ∧ Forall (Forall (λ c, is_digit c = true)) ps ∧ is_digit f = false ∧ f ≠ 59
  end.

(** A parameter: digits after the value has passed 9999 are ignored. *)
Definition digit_step (a c : Z) : Z := if a <=? 9999 then a * 10 + (c - 48) else a.
Definition param_value (ds : list Z) : Z := foldl digit_step 0 ds.

(** The console keeps four parameters; the digits of the fourth and all later ones
    run together. *)
Definition kept_params (ps : list (list Z)) : list Z :=
  map param_value (take 3 ps) ++ (if (4 <=? length ps)%nat then [param_value (concat (drop 3 ps))] else []).

(** The parameter list of a command: a single omitted parameter is no parameter. *)
Definition csi_params (ps : list (list Z)) : list Z := if decide (ps = [[]]) then [] else kept_params ps.

Definition param (args : list Z) (i : nat) (def : Z) : Z :=
  match args !! i with Some v => if v =? 0 then def else v | None => def end.

Definition theme_of (id : Z) : console_theme_def_t :=
  if id =? RABBITBONE_THEME_BLACK then mk_theme RABBITBONE_THEME_BLACK (lit "black") 15 0 15 0
  else mk_theme RABBITBONE_THEME_LEGACY (lit "legacy") 15 1 15 4.

(** Screens report machine words. *)
Class ScreenWords (V : Type) `{Screen V} := {
  cursor_words : ∀ v, is_u32 (vga_get_cursor v).1 ∧ is_u32 (vga_get_cursor v).2;
  size_words : ∀ v, is_u32 (vga_get_size v).1 ∧ is_u32 (vga_get_size v).2;
}.

Section spec.
Context {V : Type} `{ScreenWords V}.

Definition a_sgr (theme : console_theme_def_t) (v : V) (a : Z) : V :=
  let fg := vga_get_color v mod 16 in
  let bg := vga_get_color v / 16 mod 16 in
  if a =? 0 then vga_set_color v (theme_fg theme) (theme_bg theme)
  else if (30 <=? a) && (a <=? 37) then vga_set_color v (a - 30) bg
  else if (40 <=? a) && (a <=? 47) then vga_set_color v fg (a - 40)
  else if a =? 39 then vga_set_color v (theme_fg theme) bg
  else if a =? 49 then vga_set_color v fg (theme_bg theme) else v.

(** The effect of a command with parameters [args] on the screen. *)
Definition csi_effect (theme : console_theme_def_t) (args : list Z) (cmd : Z) (v : V) : V :=
  let last_row := Z.max 0 ((vga_get_size v).1 - 1) in
  let last_col := Z.max 0 ((vga_get_size v).2 - 1) in
  let row := Z.min (vga_get_cursor v).1 last_row in
  let col := Z.min (vga_get_cursor v).2 last_col in
  let n := param args 0 1 in
  if (cmd =? 72) || (cmd =? 102) then vga_move_cursor v (Z.min (n - 1) last_row) (Z.min (param args 1 1 - 1) last_col)
  else if cmd =? 65 then vga_move_cursor v (Z.max 0 (row - n)) col
  else if cmd =? 66 then vga_move_cursor v (Z.min (row + n) last_row) col
  else if cmd =? 67 then vga_move_cursor v row (Z.min (col + n) last_col)
  else if cmd =? 68 then vga_move_cursor v row (Z.max 0 (col - n))
  else if cmd =? 74 then if (param args 0 0 =? 2) || bool_decide (args = []) then vga_clear v else v
  else if cmd =? 75 then vga_clear_line v
  else if cmd =? 109 then foldl (a_sgr theme) v (if (param args 0 0 =? 0) then 0 :: args else args)
  else v.

Definition token_effect (theme : console_theme_def_t) (v : V) (t : token) : V :=
  match t with
  | Txt c | EscChar c => vga_putc v c
  | Csi ps f => csi_effect theme (csi_params ps) f v
  end.

Definition idle (id : Z) : console_state := mk_console ANSI_TEXT (replicate 4 0) 0 false id.

Lemma theme_by_id_spec id : theme_by_id id = Ret (theme_of id).
Proof.
  unfold theme_by_id, theme_of. cbn [length themes loop_n]. change (0 + 1) with 1.
  change (rd themes 0) with (Ret (mk_theme RABBITBONE_THEME_LEGACY (lit "legacy") 15 1 15 4)).
  change (rd themes 1) with (Ret (mk_theme RABBITBONE_THEME_BLACK (lit "black") 15 0 15 0)). mred. cbn [theme_id].
  unfold RABBITBONE_THEME_LEGACY, RABBITBONE_THEME_BLACK. rewrite !(Z.eqb_sym _ id).
  by destruct (Z.eqb_spec id 0) as [->|]; [| destruct (Z.eqb_spec id 1)].
Qed.

(** ** Parameters *)

Lemma digit_step_range a c : 0 ≤ a ≤ 99999 → is_digit c = true → 0 ≤ digit_step a c ≤ 99999.
Proof. unfold digit_step, is_digit. intros Ha Hc. destruct (Z.leb_spec a 9999); lia. Qed.

Lemma param_value_range ds : Forall (λ c, is_digit c = true) ds → 0 ≤ param_value ds ≤ 99999.
Proof.
  unfold param_value. intros Hds. assert (Hgo : ∀ a, 0 ≤ a ≤ 99999 → 0 ≤ foldl digit_step a ds ≤ 99999).
  { induction Hds as [|c ds Hc _ IH]; intros a Ha; cbn [foldl]; [done |]. apply IH. by apply digit_step_range. }
  by apply Hgo.
Qed.

Lemma kept_length ps : length (kept_params ps) = (length ps `min` 4)%nat.
Proof.
  unfold kept_params. rewrite length_app, length_map, length_take. destruct (Nat.leb_spec 4 (length ps)); cbn [length]; lia.
Qed.

Lemma kept_range ps : Forall (Forall (λ c, is_digit c = true)) ps → Forall (λ a, 0 ≤ a ≤ 99999) (kept_params ps).
Proof.
  intros Hps. unfold kept_params. apply Forall_app. split.
  - apply Forall_fmap. apply Forall_take. eapply Forall_impl; [done |]. intros ds Hds. by apply param_value_range.
  - case_match; [| constructor]. apply Forall_singleton. apply param_value_range. apply Forall_concat. by apply Forall_drop.
Qed.

(** A further digit changes the last kept parameter. *)
Lemma kept_digit qs l c :
  ∃ init x, kept_params (qs ++ [l]) = init ++ [x] ∧ kept_params (qs ++ [l ++ [c]]) = init ++ [digit_step x c].
Proof.
  unfold kept_params. rewrite !length_app. cbn [length]. destruct (Nat.leb_spec 4 (length qs + 1)).
  - rewrite !take_app_le, !drop_app_le by lia. exists (map param_value (take 3 qs)), (param_value (concat (drop 3 qs ++ [l]))).
    split; [done |]. do 2 f_equal. rewrite !concat_app. cbn [concat]. rewrite !app_nil_r, app_assoc. unfold param_value. by rewrite foldl_app.
  - rewrite !app_nil_r, !take_ge by (rewrite length_app; cbn [length]; lia). rewrite !map_app. cbn [map].
    eexists _, _. split; [done |]. unfold param_value. by rewrite foldl_app.
Qed.

(** A separator opens a new one while there is room. *)
Lemma kept_separator ps :
  kept_params (ps ++ [[]]) = if (length ps <? 4)%nat then kept_params ps ++ [0] else kept_params ps.
Proof.
  unfold kept_params. rewrite !length_app. cbn [length]. destruct (Nat.ltb_spec (length ps) 4).
  - destruct (Nat.leb_spec 4 (length ps)); [lia |]. rewrite app_nil_r. destruct (Nat.leb_spec 4 (length ps + 1)).
    + rewrite take_app_le, drop_app_le by lia. rewrite (drop_ge ps) by lia. done.
    + rewrite app_nil_r, !take_ge by (rewrite ?length_app; cbn [length]; lia). by rewrite map_app.
  - destruct (Nat.leb_spec 4 (length ps)); [| lia]. destruct (Nat.leb_spec 4 (length ps + 1)); [| lia].
    rewrite take_app_le, drop_app_le by lia. by rewrite concat_app, app_nil_r.
Qed.

(** The interpreter after the parameters [ps] of a command. *)
Record csi_rel (id : Z) (ps : list (list Z)) (s : console_state) : Prop := {
  cr_state : ansi_state s = ANSI_CSI;
  cr_args : ansi_args s = kept_params ps ++ replicate (4 - length (kept_params ps)) 0;
  cr_argc : ansi_argc s = zlen (kept_params ps);
  cr_active : length ps = 1%nat → ansi_arg_active s = bool_decide (ps ≠ [[]]);
  cr_theme : active_theme s = id;
  cr_digits : Forall (Forall (λ c, is_digit c = true)) ps;
  cr_some : ps ≠ [];
}.

Lemma csi_open id v :
  ∃ s, (s1 ← vga_ansi_putc (idle id) 0x1b v; vga_ansi_putc s1.1 91 s1.2) = Ret (s, v) ∧ csi_rel id [[]] s.
Proof. eexists. split; [done |]. split; try done. by repeat constructor. Qed.

Lemma rd_last {A} (init : list A) x k z : rd ((init ++ [x]) ++ replicate k z) (zlen (init ++ [x]) - 1) = Ret x.
Proof.
  rewrite <- app_assoc, zlen_app, zlen_1, rd_app_r by lia. replace (zlen init + 1 - 1 - zlen init) with 0 by lia. done.
Qed.

Lemma wr_last_param {A} (init : list A) x y k z :
  wr ((init ++ [x]) ++ replicate k z) (zlen (init ++ [x]) - 1) y = Ret ((init ++ [y]) ++ replicate k z).
Proof.
  rewrite <- !app_assoc, zlen_app, zlen_1. replace (zlen init + 1 - 1) with (zlen init) by lia. rewrite wr_middle by done. done.
Qed.

Lemma csi_digit id ps l s c v :
  csi_rel id (ps ++ [l]) s → is_digit c = true →
  ∃ s', vga_ansi_putc s c v = Ret (s', v) ∧ csi_rel id (ps ++ [l ++ [c]]) s'.
Proof.
  intros [H1 H2 H3 H4 H5 H6 H7] Hc. unfold vga_ansi_putc. rewrite H1. fold (is_digit c). rewrite Hc, H2, H3.
  destruct (kept_digit ps l c) as (init & x & E1 & E2). rewrite E1 in *.
  destruct (Z.eqb_spec (zlen (init ++ [x])) 0) as [E0|_]; [rewrite zlen_app, zlen_1 in E0; pose proof (zlen_nonneg init); lia |].
  rewrite rd_last. mred.
  assert (Hx : 0 ≤ x ≤ 99999).
  { pose proof (kept_range _ H6) as Hr. rewrite E1 in Hr. apply Forall_app in Hr as [_ Hr]. by apply Forall_cons in Hr as [? _]. }
  assert (E3 : (if x <=? 9999 then wr ((init ++ [x]) ++ replicate (4 - length (init ++ [x])) 0) (zlen (init ++ [x]) - 1) (wrap32 (x * 10 + (c - 48)))
    else Ret ((init ++ [x]) ++ replicate (4 - length (init ++ [x])) 0)) = Ret ((init ++ [digit_step x c]) ++ replicate (4 - length (init ++ [x])) 0)).
  { unfold digit_step. unfold is_digit in Hc. destruct (Z.leb_spec x 9999); [| done]. rewrite wrap_small by lia. apply wr_last_param. }
  rewrite E3. mred. eexists. split; [done |].
  split; cbn [ansi_state ansi_args ansi_argc ansi_arg_active active_theme]; rewrite ?E2, ?length_app, ?zlen_app, ?zlen_1; try done.
  - intros _. rewrite bool_decide_true; [done |]. destruct ps as [|? [|? ?]]; [destruct l | |]; done.
  - apply Forall_app in H6 as [? Hl]. apply Forall_app. split; [done |]. apply Forall_cons in Hl as [Hl _]. apply Forall_singleton, Forall_app.
    split; [done | by apply Forall_singleton].
  - by destruct ps.
Qed.

Lemma csi_separator id ps s v : csi_rel id ps s → ∃ s', vga_ansi_putc s 59 v = Ret (s', v) ∧ csi_rel id (ps ++ [[]]) s'.
Proof.
  intros [H1 H2 H3 H4 H5 H6 H7]. unfold vga_ansi_putc. rewrite H1. cbn [Z.leb Z.compare andb Z.eqb Pos.compare Pos.compare_cont Pos.eqb].
  pose proof (kept_length ps) as Hl. pose proof (kept_separator ps) as Hs. rewrite H3.
  destruct (Nat.ltb_spec (length ps) 4) as [Hlt|Hge].
  - destruct (Z.ltb_spec (zlen (kept_params ps)) 4) as [_|]; [| unfold zlen in *; lia].
    rewrite H2. replace (4 - length (kept_params ps))%nat with (S (3 - length (kept_params ps))) by lia. rewrite wr_middle by done. mred.
    eexists. split; [done |]. split; cbn [ansi_state ansi_args ansi_argc ansi_arg_active active_theme]; rewrite ?Hs; try done.
    + rewrite length_app, <- app_assoc. cbn [length app replicate drop]. rewrite drop_0. do 3 f_equal. lia.
    + by rewrite zlen_app, zlen_1.
    + intros Hx. rewrite length_app in Hx. cbn [length] in Hx. destruct ps; [done | cbn [length] in Hx; lia].
    + apply Forall_app. split; [done |]. by apply Forall_singleton.
    + by destruct ps.
  - destruct (Z.ltb_spec (zlen (kept_params ps)) 4); [unfold zlen in *; lia |]. exists s. split; [done |].
    split; rewrite ?Hs; try done.
    + intros Hx. rewrite length_app in Hx. cbn [length] in Hx. lia.
    + apply Forall_app. split; [done |]. by apply Forall_singleton.
    + by destruct ps.
Qed.

Lemma csi_arg id ps s i def argc :
  csi_rel id ps s → argc = zlen (csi_params ps) →
  ansi_arg (mk_console ANSI_CSI (ansi_args s) argc (ansi_arg_active s) id) (Z.of_nat i) def = Ret (param (csi_params ps) i def).
Proof.
  intros R ->. unfold ansi_arg, param. cbn [ansi_argc ansi_args].
  destruct (Z.leb_spec (zlen (csi_params ps)) (Z.of_nat i)); [rewrite lookup_ge_None_2 by (unfold zlen in *; lia); done |].
  destruct (lookup_lt_is_Some_2 (csi_params ps) i) as [x Hx]; [unfold zlen in *; lia |]. rewrite Hx.
  rewrite (cr_args _ _ _ R), rd_nat. unfold csi_params in *. case_decide; [done |]. by rewrite (lookup_app_l_Some _ _ _ _ Hx).
Qed.

Lemma sgr_spec s a v : sgr s (theme_of (active_theme s)) a v = Ret (a_sgr (theme_of (active_theme s)) v a).
Proof.
  unfold sgr, a_sgr, apply_normal_theme_unlocked, current_theme_def. rewrite theme_by_id_spec. mred.
  change 0xf with (Z.ones 4). rewrite !Z.land_ones, Z.shiftr_div_pow2 by lia. by destruct (a =? 0).
Qed.

Lemma fold_sgr s l v : fold_res (λ a v, sgr s (theme_of (active_theme s)) a v) l v = Ret (foldl (a_sgr (theme_of (active_theme s))) v l).
Proof. revert v. induction l as [|a l IH]; intros v; cbn [fold_res foldl]; [done |]. rewrite sgr_spec. mred. apply IH. Qed.

Lemma clamp_min a b : clamp_u32 a b = Z.min a b.
Proof. unfold clamp_u32. destruct (Z.ltb_spec b a); lia. Qed.

Lemma last_index n : 0 ≤ n → (if negb (n =? 0) then n - 1 else 0) = Z.max 0 (n - 1).
Proof. intros. destruct (Z.eqb_spec n 0); cbn [negb]; lia. Qed.

(** Moving towards the end of an axis, without overflow. *)
Lemma step_forward x n last :
  0 ≤ x ≤ last → 0 ≤ n → last < 2 ^ 32 → clamp_u32 (wrap32 (x + (if last - x <? n then last - x else n))) last = Z.min (x + n) last.
Proof. intros Hx Hn Hl. rewrite clamp_min. destruct (Z.ltb_spec (last - x) n); rewrite wrap_small by lia; lia. Qed.

Lemma step_back x n : (if n <? x then x - n else 0) = Z.max 0 (x - n).
Proof. destruct (Z.ltb_spec n x); lia. Qed.

Lemma csi_args_take id ps s : csi_rel id ps s → take (length (csi_params ps)) (ansi_args s) = csi_params ps.
Proof. intros R. rewrite (cr_args _ _ _ R). unfold csi_params. case_decide; [done |]. by rewrite take_app_length. Qed.

Lemma csi_param_nonneg id ps s i def : csi_rel id ps s → 0 ≤ def → 0 ≤ param (csi_params ps) i def ∧ (def = 1 → 1 ≤ param (csi_params ps) i def).
Proof.
  intros R Hd. pose proof (kept_range _ (cr_digits _ _ _ R)) as Hr. unfold param.
  destruct (csi_params ps !! i) as [x|] eqn:E; [| lia]. unfold csi_params in E. case_decide; [done |].
  rewrite Forall_lookup in Hr. specialize (Hr _ _ E). cbn in Hr. destruct (Z.eqb_spec x 0); lia.
Qed.

Lemma csi_argc_spec id ps s :
  csi_rel id ps s → ∃ a0, rd (ansi_args s) 0 = Ret a0 ∧ (csi_params ps = [] → a0 = 0) ∧ (csi_params ps ≠ [] → csi_params ps !! 0%nat = Some a0) ∧
    (if negb (ansi_arg_active s) && (ansi_argc s =? 1) && (a0 =? 0) then 0 else ansi_argc s) = zlen (csi_params ps).
Proof.
  intros [H1 H2 H3 H4 H5 H6 H7]. pose proof (kept_length ps) as Hl.
  destruct (kept_params ps) as [|a0 rest] eqn:E; [destruct ps; [done | cbn [length] in Hl; lia] |].
  exists a0. rewrite H2. split; [done |]. unfold csi_params. rewrite E, H3. case_decide as Hps.
  - subst ps. injection E as <- <-. split; [done |]. split; [done |]. by rewrite (H4 eq_refl).
  - split; [done |]. split; [done |]. destruct (Z.eqb_spec (zlen (a0 :: rest)) 1) as [E1|]; [| by rewrite andb_false_r].
    rewrite H4, bool_decide_true; [done | done |]. unfold zlen in E1. lia.
Qed.

(** The attribute command. *)
Lemma csi_attributes id ps s v :
  csi_rel id ps s →
  let st := mk_console ANSI_CSI (ansi_args s) (zlen (csi_params ps)) (ansi_arg_active s) id in
  (a1 ← rd (ansi_args st) 0;
   v0 ← (if (ansi_argc st =? 0) || (a1 =? 0) then apply_normal_theme_unlocked st v else Ret v);
   for_n (Z.to_nat (ansi_argc st)) 0 (λ i v, a ← rd (ansi_args st) i; sgr st (theme_of id) a v) v0) =
  Ret (foldl (a_sgr (theme_of id)) v (if param (csi_params ps) 0 0 =? 0 then 0 :: csi_params ps else csi_params ps)).
Proof.
  intros R st. destruct (csi_argc_spec id ps s R) as (a0 & Ha0 & Hnil & Hcons & _). cbn [st ansi_args ansi_argc]. rewrite Ha0. mred.
  assert (Hloop : ∀ v0, for_n (Z.to_nat (zlen (csi_params ps))) 0 (λ i v, a ← rd (ansi_args s) i; sgr st (theme_of id) a v) v0 =
    Ret (foldl (a_sgr (theme_of id)) v0 (csi_params ps))).
  { intros v0. unfold zlen. rewrite Nat2Z.id. rewrite (for_n_rd (λ a v, sgr st (theme_of id) a v)), (csi_args_take id ps s R).
    - exact (fold_sgr st (csi_params ps) v0).
    - rewrite <- (csi_args_take id ps s R) at 1. rewrite length_take. lia. }
  assert (Hz : (zlen (csi_params ps) =? 0) || (a0 =? 0) = (param (csi_params ps) 0 0 =? 0)).
  { unfold param. destruct (csi_params ps) as [|x l]; [done |]. injection (Hcons ltac:(done)) as ->. cbn [lookup list_lookup].
    destruct (Z.eqb_spec (zlen (a0 :: l)) 0) as [E|_]; [rewrite zlen_cons in E; pose proof (zlen_nonneg l); lia |]. cbn [orb].
    by destruct (Z.eqb_spec a0 0) as [->|]; [| destruct (Z.eqb_spec a0 0)]. }
  rewrite Hz. destruct (param (csi_params ps) 0 0 =? 0).
  - unfold apply_normal_theme_unlocked, current_theme_def. rewrite theme_by_id_spec. mred. rewrite Hloop. done.
  - mred. apply Hloop.
Qed.

Lemma csi_final id ps s f v :
  csi_rel id ps s → is_digit f = false → f ≠ 59 →
  vga_ansi_putc s f v = Ret (idle id, csi_effect (theme_of id) (csi_params ps) f v).
Proof.
  intros R Hf Hs. unfold vga_ansi_putc. rewrite (cr_state _ _ _ R). fold (is_digit f). rewrite Hf.
  destruct (Z.eqb_spec f 59); [done |]. destruct (csi_argc_spec id ps s R) as (a0 & Ha0 & Hnil & Hcons & Hargc).
  rewrite Ha0. mred. rewrite Hargc, (cr_theme _ _ _ R). unfold ansi_finish. cbn [current_theme_def active_theme].
  unfold current_theme_def. cbn [active_theme]. rewrite theme_by_id_spec. mred.
  pose proof (cursor_words v) as [Hr Hc]. pose proof (size_words v) as [Hrs Hcs].
  unfold csi_effect. destruct (vga_get_cursor v) as [row col], (vga_get_size v) as [rows cols]. cbn [fst snd] in *.
  rewrite !last_index by ulia. rewrite !clamp_min.
  pose proof (csi_attributes id ps s v R) as AM. cbv zeta in AM.
  set (st := mk_console ANSI_CSI _ _ _ _) in *.
  assert (A0 := csi_arg id ps s 0 1 _ R eq_refl : ansi_arg st 0 1 = _). assert (A1 := csi_arg id ps s 1 1 _ R eq_refl : ansi_arg st 1 1 = _).
  assert (A2 := csi_arg id ps s 0 0 _ R eq_refl : ansi_arg st 0 0 = _).
  pose proof (csi_param_nonneg id ps s 0 1 R ltac:(lia)) as [P0 P0']. pose proof (csi_param_nonneg id ps s 1 1 R ltac:(lia)) as [P1 P1'].
  specialize (P0' eq_refl). specialize (P1' eq_refl).
  change (ansi_reset st) with (idle id). rewrite A0, A1, A2.
  destruct ((f =? 72) || (f =? 102)).
  { mred. rewrite !last_index by lia. by rewrite (Z.max_r 0 (param (csi_params ps) 0 1 - 1)), (Z.max_r 0 (param (csi_params ps) 1 1 - 1)), !clamp_min by lia. }
  destruct (f =? 65); [mred; by rewrite step_back |].
  destruct (f =? 66); [mred; by rewrite step_forward by ulia |].
  destruct (f =? 67); [mred; by rewrite step_forward by ulia |].
  destruct (f =? 68); [mred; by rewrite step_back |].
  destruct (f =? 74).
  { mred. cbn [st ansi_argc]. by destruct (csi_params ps). }
  destruct (f =? 75); [done |]. destruct (f =? 109); [| done]. rewrite AM. by mred.
Qed.

(** ** Streams *)

Definition put_all (bs : list Z) (x : console_state * V) : res (console_state * V) :=
  fold_res (λ c '(s, v), vga_ansi_putc s c v) bs x.

Lemma put_all_app a b x : put_all (a ++ b) x = (x ← put_all a x; put_all b x).
Proof. apply fold_res_app. Qed.

Lemma write_n_put_all s str n v :
  0 ≤ n ≤ zlen str → console_write_n s (Some str) n v = ('(s, v) ← put_all (take (Z.to_nat n) str) (s, vga_begin_update v); Ret (s, vga_end_update v)).
Proof.
  intros Hn. unfold console_write_n, put_all. rewrite <- for_n_rd by (unfold zlen in *; lia). f_equal.
  generalize (s, vga_begin_update v) as x. generalize 0 as i. generalize (Z.to_nat n) as k. induction k as [|k IH]; intros i x; [done |].
  cbn [for_n]. destruct x as [s0 v0]. destruct (rd str i ≫= λ c, vga_ansi_putc s0 c v0); mred; [apply IH | done].
Qed.

Lemma put_params id ps q s v :
  csi_rel id (q ++ [[]]) s → Forall (Forall (λ c, is_digit c = true)) ps → ps ≠ [] →
  ∃ s', put_all (join_params ps) (s, v) = Ret (s', v) ∧ csi_rel id (q ++ ps) s'.
Proof.
  assert (Hone : ∀ ds q l s, csi_rel id (q ++ [l]) s → Forall (λ c, is_digit c = true) ds →
    ∃ s', put_all ds (s, v) = Ret (s', v) ∧ csi_rel id (q ++ [l ++ ds]) s').
  { induction ds as [|c ds IH]; intros q0 l s0 R Hd; [rewrite app_nil_r; eauto |]. apply Forall_cons in Hd as [Hc Hd].
    destruct (csi_digit id q0 l s0 c v R Hc) as (s1 & E & R1). unfold put_all. cbn [fold_res]. rewrite E. mred.
    destruct (IH q0 (l ++ [c]) s1 R1 Hd) as (s2 & E2 & R2). exists s2. by rewrite <- app_assoc in R2. }
  revert q s. induction ps as [|p ps IH]; intros q s R Hps Hne; [done |]. apply Forall_cons in Hps as [Hp Hps].
  destruct (Hone p q [] s R Hp) as (s1 & E1 & R1). cbn [app] in R1. destruct ps as [|p' ps]; [by exists s1 |].
  cbn [join_params]. rewrite put_all_app, E1. mred. unfold put_all. cbn [fold_res].
  destruct (csi_separator id (q ++ [p]) s1 v R1) as (s2 & -> & R2). mred.
  destruct (IH (q ++ [p]) s2 R2 Hps ltac:(done)) as (s3 & E3 & R3). exists s3. by rewrite <- app_assoc in R3.
Qed.

Lemma put_token id t v : token_ok t → put_all (encode t) (idle id, v) = Ret (idle id, token_effect (theme_of id) v t).
Proof.
  destruct t as [c|c|ps f]; cbn [token_ok encode token_effect]; intros Hok.
  - unfold put_all, vga_ansi_putc. cbn. by destruct (Z.eqb_spec c 27).
  - unfold put_all, vga_ansi_putc. cbn. by destruct (Z.eqb_spec c 91).
  - destruct Hok as (Hne & Hps & Hf & H59). change (0x1b :: 91 :: join_params ps ++ [f]) with ([0x1b; 91] ++ join_params ps ++ [f]).
    rewrite !put_all_app. destruct (csi_open id v) as (s & E & R).
    assert (put_all [0x1b; 91] (idle id, v) = Ret (s, v)) as -> by exact E. mred. rewrite put_all_app.
    destruct (put_params id ps [] s v R Hps Hne) as (s' & -> & R'). mred. cbn [app] in R'.
    unfold put_all. cbn [fold_res]. by rewrite (csi_final id ps s' f v R' Hf H59).
Qed.

Lemma put_tokens id ts v :
  Forall token_ok ts → put_all (concat (map encode ts)) (idle id, v) = Ret (idle id, foldl (token_effect (theme_of id)) v ts).
Proof.
  intros Hts. revert v. induction Hts as [|t ts Ht _ IH]; intros v; cbn [map concat foldl]; [done |].
  rewrite put_all_app, (put_token id t v Ht). mred. apply IH.
Qed.

Lemma write_tokens id ts v rest :
  Forall token_ok ts →
  let text := concat (map encode ts) in
  console_write_n (idle id) (Some (text ++ rest)) (zlen text) v =
    Ret (idle id, vga_end_update (foldl (token_effect (theme_of id)) (vga_begin_update v) ts)).
Proof.
  intros Hts text. rewrite write_n_put_all by (rewrite zlen_app; pose proof (zlen_nonneg text); pose proof (zlen_nonneg rest); lia).
  unfold zlen. rewrite Nat2Z.id, take_app_length. unfold text. by rewrite put_tokens.
Qed.

End spec.

(** C17: Writing any sequence of characters and escape sequences to the console has
    exactly the effect of the sequence on the screen and leaves the interpreter
    idle: cursor commands move within the screen, missing or zero parameters take
    their defaults, attributes apply in order.  The four-parameter limit shows here:
    the digits of a fifth and later parameter join those of the fourth. *)
Theorem console_write_correct {V : Type} `{ScreenWords V} (id : Z) (ts : list token) (v : V) (rest : list Z) :
  Forall token_ok ts →
  let text := concat (map encode ts) in
  console_write_n (idle id) (Some (text ++ rest)) (zlen text) v =
    Ret (idle id, vga_end_update (foldl (token_effect (theme_of id)) (vga_begin_update v) ts)).
Proof. apply write_tokens. Qed.

(** ** Arbitrary bytes *)

(** A property of screens that survives everything but a cursor move off the
    screen. *)
Class ScreenInvariant {V : Type} `{Screen V} (P : V → Prop) := {
  inv_putc : ∀ v c, P v → P (vga_putc v c);
  inv_clear : ∀ v, P v → P (vga_clear v);
  inv_clear_line : ∀ v, P v → P (vga_clear_line v);
  inv_set_color : ∀ v fg bg, P v → P (vga_set_color v fg bg);
  inv_begin : ∀ v, P v → P (vga_begin_update v);
  inv_end : ∀ v, P v → P (vga_end_update v);
  inv_move : ∀ v r c, P v → 0 ≤ r ≤ Z.max 0 ((vga_get_size v).1 - 1) → 0 ≤ c ≤ Z.max 0 ((vga_get_size v).2 - 1) → P (vga_move_cursor v r c);
}.

Record console_ok (s : console_state) : Prop := {
  co_args : length (ansi_args s) = 4%nat;
  co_range : Forall (λ a, 0 ≤ a ≤ 99999) (ansi_args s);
  co_argc : 0 ≤ ansi_argc s ≤ 4;
}.

Section bytes.
Context {V : Type} `{ScreenWords V} (P : V → Prop) `{Pinv : !ScreenInvariant P}.

Lemma arg_total s i def : console_ok s → 0 ≤ i → 0 ≤ def → ∃ n, ansi_arg s i def = Ret n ∧ 0 ≤ n.
Proof.
  intros [Hl Hr Hc] Hi Hd. unfold ansi_arg. destruct (Z.leb_spec (ansi_argc s) i); [eauto |].
  destruct (rd_inbounds (ansi_args s) i) as [x Hx]; [unfold zlen; lia |]. rewrite Hx. mred. eexists. split; [done |].
  apply rd_Ret in Hx as [_ Hx]. rewrite Forall_lookup in Hr. specialize (Hr _ _ Hx). cbn in Hr. destruct (Z.eqb_spec x 0); lia.
Qed.

Lemma sgr_inv th v a : P v → P (a_sgr th v a).
Proof. intros Hv. unfold a_sgr. repeat case_match; try done; by apply inv_set_color. Qed.

Lemma finish_total s cmd v : console_ok s → P v → ∃ v', ansi_finish s cmd v = Ret (idle (active_theme s), v') ∧ P v'.
Proof.
  intros Hs Hv. unfold ansi_finish. pose proof (cursor_words v) as [Hr Hc]. pose proof (size_words v) as [Hrs Hcs]. pose proof (inv_move v) as Hmove.
  destruct (vga_get_cursor v) as [row col], (vga_get_size v) as [rows cols]. cbn [fst snd] in *.
  unfold current_theme_def. rewrite theme_by_id_spec. mred. rewrite !last_index by ulia. rewrite !clamp_min.
  destruct (arg_total s 0 1 Hs) as (a0 & -> & Ha0); [done | done |]. destruct (arg_total s 1 1 Hs) as (a1 & -> & Ha1); [done | done |].
  destruct (arg_total s 0 0 Hs) as (a2 & -> & Ha2); [done | done |]. mred. change (ansi_reset s) with (idle (active_theme s)).
  destruct ((cmd =? 72) || (cmd =? 102)).
  { mred. eexists. split; [done |]. rewrite !last_index, !clamp_min by done. apply Hmove; [done | lia | lia]. }
  destruct (cmd =? 65); [mred; eexists; split; [done |]; rewrite step_back; apply Hmove; [done | ulia | ulia] |].
  destruct (cmd =? 66); [mred; eexists; split; [done |]; rewrite step_forward by ulia; apply Hmove; [done | ulia | ulia] |].
  destruct (cmd =? 67); [mred; eexists; split; [done |]; rewrite step_forward by ulia; apply Hmove; [done | ulia | ulia] |].
  destruct (cmd =? 68); [mred; eexists; split; [done |]; rewrite step_back; apply Hmove; [done | ulia | ulia] |].
  destruct (cmd =? 74); [mred; eexists; split; [done |]; case_match; [by apply inv_clear | done] |].
  destruct (cmd =? 75); [mred; eexists; split; [done | by apply inv_clear_line] |].
  destruct (cmd =? 109); [| mred; eauto]. destruct Hs as [Hl _ Hn].
  destruct (rd_inbounds (ansi_args s) 0) as [x Hx]; [unfold zlen; lia |]. rewrite Hx. mred.
  assert (∃ v0, (if (ansi_argc s =? 0) || (x =? 0) then apply_normal_theme_unlocked s v else Ret v) = Ret v0 ∧ P v0) as (v0 & -> & Hv0).
  { case_match; [| eauto]. unfold apply_normal_theme_unlocked, current_theme_def. rewrite theme_by_id_spec. mred. eexists. split; [done |]. by apply inv_set_color. }
  mred. rewrite (for_n_rd (λ a v, sgr s (theme_of (active_theme s)) a v)) by lia. rewrite fold_sgr. mred. eexists. split; [done |].
  revert v0 Hv0. induction (take _ _) as [|a l IH]; intros v0 Hv0; cbn [foldl]; [done |]. apply IH. by apply sgr_inv.
Qed.

Lemma putc_total s c v : console_ok s → P v → ∃ s' v', vga_ansi_putc s c v = Ret (s', v') ∧ console_ok s' ∧ P v'.
Proof.
  intros Hs Hv. pose proof Hs as [Hl Hr Hn]. unfold vga_ansi_putc.
  assert (Hidle : ∀ id, console_ok (idle id)) by (intros id; split; [done | by repeat constructor | done]).
  assert (Hstore : ∀ i x st n act, 0 ≤ i < 4 → 0 ≤ x ≤ 99999 → 0 ≤ n ≤ 4 → ∃ l, wr (ansi_args s) i x = Ret l ∧ console_ok (mk_console st l n act (active_theme s))).
  { intros i x st n act Hi Hx Hn'. rewrite wr_inbounds by (unfold zlen; lia). eexists. split; [done |].
    split; cbn [ansi_args ansi_argc]; [by rewrite length_insert | by apply Forall_insert | done]. }
  destruct (ansi_state s).
  - case_match; eexists _, _; (split; [done |]); (split; [| by (done || apply inv_putc)]); by split.
  - case_match.
    + destruct (Hstore 0 0 ANSI_CSI 1 false) as (l & -> & Hok); [lia.. |]. mred. eauto.
    + eexists _, _. split; [done |]. split; [apply Hidle | by apply inv_putc].
  - destruct ((48 <=? c) && (c <=? 57)) eqn:Hd.
    + set (argc := if ansi_argc s =? 0 then 1 else ansi_argc s). assert (Hargc : 1 ≤ argc ≤ 4) by (subst argc; case_match eqn:E; lia).
      destruct (rd_inbounds (ansi_args s) (argc - 1)) as [x Hx]; [unfold zlen; lia |]. rewrite Hx. mred.
      apply rd_Ret in Hx as [_ Hx]. pose proof Hr as Hr'. rewrite Forall_lookup in Hr'. specialize (Hr' _ _ Hx). cbn in Hr'.
      destruct (Z.leb_spec x 9999); [| mred; eexists _, _; split; [done |]; split; [by split; cbn [ansi_args ansi_argc]; try done; lia | done]].
      rewrite wrap_small by lia.
      destruct (Hstore (argc - 1) (x * 10 + (c - 48)) ANSI_CSI argc true) as (l & -> & Hok); [lia.. |]. mred. eauto.
    + case_match.
      * destruct (Z.ltb_spec (ansi_argc s) 4); [| eauto].
        destruct (Hstore (ansi_argc s) 0 ANSI_CSI (ansi_argc s + 1) false) as (l & -> & Hok); [lia.. |]. mred. eauto.
      * destruct (rd_inbounds (ansi_args s) 0) as [x Hx]; [unfold zlen; lia |]. rewrite Hx. mred.
        match goal with |- context [mk_console ANSI_CSI (ansi_args s) ?a _ _] => set (argc := a) end. destruct (finish_total (mk_console ANSI_CSI (ansi_args s) argc (ansi_arg_active s) (active_theme s)) c v) as (v' & -> & Hv').
        { split; cbn [ansi_args ansi_argc]; [done.. |]. subst argc. case_match; lia. }
        { done. }
        eauto.
Qed.

Lemma put_all_total bs s v : console_ok s → P v → ∃ s' v', put_all bs (s, v) = Ret (s', v') ∧ console_ok s' ∧ P v'.
Proof.
  revert s v. induction bs as [|c bs IH]; intros s v Hs Hv; [unfold put_all; cbn [fold_res]; eauto |].
  destruct (putc_total s c v Hs Hv) as (s1 & v1 & E & Hs1 & Hv1). unfold put_all. cbn [fold_res]. rewrite E. mred. by apply IH.
Qed.

End bytes.

(** No byte sequence can derail the console.  From any sound state, whatever
    the bytes, [console_write_n] returns, the parameter array and the parameter
    count stay in bounds, and the cursor is only ever moved to a position on the
    screen: an invariant of the screen that tolerates such moves is kept. *)
Theorem console_survives_any_bytes {V : Type} `{ScreenWords V} (P : V → Prop) (Pinv : ScreenInvariant P) (s : console_state) (v : V) (bs : list Z) :
  console_ok s → P v → ∃ s' v', console_write_n s (Some bs) (zlen bs) v = Ret (s', v') ∧ console_ok s' ∧ P v'.
Proof.
  intros Hs Hv. rewrite write_n_put_all by (pose proof (zlen_nonneg bs); lia). unfold zlen. rewrite Nat2Z.id, take_ge by lia.
  destruct (put_all_total P bs s (vga_begin_update v) Hs (inv_begin v Hv)) as (s' & v' & -> & Hs' & Hv'). mred.
  eexists _, _. split; [done |]. split; [done | by apply inv_end].
Qed.

(** ** A screen

    A cursor on a grid of 25 by 80, the attribute byte and the characters written:
    enough to run the console. *)

Record grid := mk_grid { g_row : Z; g_col : Z; g_color : Z; g_out : list (Z * Z * Z) }.

#[export] Instance grid_screen : Screen grid := {|
  vga_init := λ g, mk_grid 0 0 7 [];
  vga_putc := λ g c, mk_grid (g_row g) (Z.min 79 (g_col g + 1)) (g_color g) (g_out g ++ [(g_row g, g_col g, c)]);
  vga_clear := λ g, mk_grid 0 0 (g_color g) [];
  vga_clear_line := λ g, g;
  vga_move_cursor := λ g r c, mk_grid (wrap32 r) (wrap32 c) (g_color g) (g_out g);
  vga_get_cursor := λ g, (wrap32 (g_row g), wrap32 (g_col g));
  vga_get_size := λ _, (25, 80);
  vga_set_color := λ g fg bg, mk_grid (g_row g) (g_col g) (bg mod 16 * 16 + fg mod 16) (g_out g);
  vga_get_color := g_color;
  vga_recolor := λ g _ _, g;
  vga_set_cursor_visible := λ g _, g;
  vga_scroll_view := λ g _, (false, g);
  vga_begin_update := λ g, g;
  vga_end_update := λ g, g;
  vga_flush := λ g, g;
  serial_init := λ g, g;
|}.

#[export] Instance grid_words : ScreenWords grid.
Proof. split; intros v; [split; apply (wrap_range 32); lia | vm_compute; split; split; congruence]. Qed.

Definition on_grid (g : grid) : Prop := 0 ≤ g_row g < 25 ∧ 0 ≤ g_col g < 80.

#[export] Instance grid_invariant : ScreenInvariant on_grid.
Proof.
  split; unfold on_grid; try done; cbn; intros; try lia. rewrite !wrap_small by lia. lia.
Qed.

(** [ESC[5;3H], an [A] in red on the current background, five parameters. *)
Lemma console_write_correct_witness :
  let ts := [Csi [[53]; [51]] 72; Csi [[51; 49]] 109; Txt 65; Csi [[48]; []; []; [52]; [49]] 109] in
  console_write_n (idle 0) (Some (concat (map encode ts) ++ [0])) (zlen (concat (map encode ts))) (mk_grid 0 0 31 []) =
    Ret (idle 0, mk_grid 4 3 (1 * 16 + 15) [(4, 2, 65)]).
Proof.
  intros ts. refine (eq_trans (console_write_correct 0 ts (mk_grid 0 0 31 []) [0] _) _); [| vm_compute; reflexivity].
  repeat (apply Forall_cons; split); try done; (split_and!; [done | by apply (bool_decide_unpack _) | done | done]).
Defined.

Lemma console_survives_any_bytes_witness :
  ∃ s' v', console_write_n (idle 0) (Some [0x1b; 91; 57; 57; 57; 57; 57; 66; 0x1b; 91; 59; 59; 59; 59; 59; 57; 72; 200]) 18 (mk_grid 0 0 31 []) = Ret (s', v') ∧
    console_ok s' ∧ on_grid v'.
Proof.
  apply (console_survives_any_bytes on_grid grid_invariant (idle 0) (mk_grid 0 0 31 []) [0x1b; 91; 57; 57; 57; 57; 57; 66; 0x1b; 91; 59; 59; 59; 59; 59; 57; 72; 200]).
  - split; [done | by apply (bool_decide_unpack _) | done].
  - vm_compute. split; split; congruence.
Defined.
