(* ===== verification/Net.v ===== *)
(** * The network core: [kernel/drivers/net.c]

    A registry of at most four devices, the receive queue of each, and the
    counters.  Drivers sit below it: an operation table is named by a number that
    [ops_at] interprets, its functions may change the device structure and the
    world [W] the drivers own.  A device pointer is an [option] (NULL is [None])
    and the structure after the call is part of the result.  The registry holds
    addresses; [heap] gives the structures behind them.  [KLOG] calls are returned
    as data.  The locks are not modelled: calls are atomic. *)

From Stdlib Require Import ZArith Lia String.
From stdpp Require Import prelude list_numbers zmap.
From S2P Require Import Prelude Arith CString Circular Printf Log.

Local Open Scope Z_scope.

Definition NET_MAX_DEVS : Z := 4.
Definition NET_NAME_LEN : Z := 16.
Definition NET_ETH_ADDR_LEN : Z := 6.
Definition NET_ETH_HEADER_LEN : Z := 14.
Definition NET_ETH_MAX_FRAME : Z := 2048.
Definition NET_RX_BACKLOG : Z := 64.

Definition NETDEV_F_UP : Z := 1.
Definition NETDEV_F_RUNNING : Z := 2.
Definition NETDEV_F_LINK_UP : Z := 4.
Definition NETDEV_F_PROMISC : Z := 8.
Definition NETDEV_F_ALLMULTI : Z := 16.

Definition NET_RX_OK : Z := 1.
Definition NET_RX_CSUM_OK : Z := 2.
Definition NET_RX_VLAN : Z := 4.
Definition NET_TX_CSUM : Z := 1.
Definition NET_TX_VLAN : Z := 4.

Inductive net_status_t :=
| NET_OK | NET_ERR_INVAL | NET_ERR_NOMEM | NET_ERR_NODEV | NET_ERR_BUSY | NET_ERR_RANGE | NET_ERR_IO | NET_ERR_UNSUPPORTED.

#[global] Instance net_status_eq_dec : EqDecision net_status_t.
Proof. solve_decision. Defined.

(** The fields of [net_stats_t], and the structure as its values. *)
Inductive net_counter :=
| rx_packets | tx_packets | rx_bytes | tx_bytes | rx_errors | tx_errors | rx_dropped | tx_dropped | rx_truncated
| rx_multicast | rx_broadcast | tx_busy | tx_timeouts | interrupts | polls | link_changes | rx_queue_high_water
| resets | dma_errors | csum_rx_good | csum_tx_offloaded | vlan_rx | vlan_tx.

#[global] Instance net_counter_eq_dec : EqDecision net_counter.
Proof. solve_decision. Defined.

Definition net_stats_t := net_counter → Z.

Definition set_counter (s : net_stats_t) (c : net_counter) (v : Z) : net_stats_t := λ c', if decide (c' = c) then v else s c'.
Definition add_counter (s : net_stats_t) (c : net_counter) (n : Z) : net_stats_t := set_counter s c (wrap64 (s c + n)).

Record net_rx_meta_t := mk_rx_meta { rxm_vlan_tag : Z; rxm_protocol : Z; rxm_flags : Z }.
Record net_tx_meta_t := mk_tx_meta { txm_vlan_tag : Z; txm_mss : Z; txm_header_len : Z; txm_protocol : Z; txm_flags : Z }.

Record net_frame_slot_t := mk_slot { slot_len : Z; slot_meta : net_rx_meta_t; slot_data : list Z }.

Record net_device_t := mk_net {
  name : list Z;
  driver : option (list Z);
  mac : list Z;
  mtu : Z;
  max_mtu : Z;
  flags : Z;
  caps : Z;
  link_speed_mbps : Z;
  link_duplex : Z;
  tx_queue_len : Z;
  rx_queue_len : Z;
  ctx : Z;
  ops : option Z;
  stats : net_stats_t;
  rx_queue : option (list net_frame_slot_t);
  rx_head : Z;
  rx_tail : Z;
  rx_count : Z;
  rx_callback : option Z;
  rx_callback_ctx : Z;
}.

Definition set_stats (d : net_device_t) (s : net_stats_t) : net_device_t :=
  mk_net (name d) (driver d) (mac d) (mtu d) (max_mtu d) (flags d) (caps d) (link_speed_mbps d) (link_duplex d) (tx_queue_len d)
    (rx_queue_len d) (ctx d) (ops d) s (rx_queue d) (rx_head d) (rx_tail d) (rx_count d) (rx_callback d) (rx_callback_ctx d).
Definition set_flags (d : net_device_t) (f : Z) : net_device_t :=
  mk_net (name d) (driver d) (mac d) (mtu d) (max_mtu d) f (caps d) (link_speed_mbps d) (link_duplex d) (tx_queue_len d)
    (rx_queue_len d) (ctx d) (ops d) (stats d) (rx_queue d) (rx_head d) (rx_tail d) (rx_count d) (rx_callback d) (rx_callback_ctx d).
Definition set_mtu (d : net_device_t) (m : Z) : net_device_t :=
  mk_net (name d) (driver d) (mac d) m (max_mtu d) (flags d) (caps d) (link_speed_mbps d) (link_duplex d) (tx_queue_len d)
    (rx_queue_len d) (ctx d) (ops d) (stats d) (rx_queue d) (rx_head d) (rx_tail d) (rx_count d) (rx_callback d) (rx_callback_ctx d).
Definition set_speed (d : net_device_t) (speed duplex : Z) : net_device_t :=
  mk_net (name d) (driver d) (mac d) (mtu d) (max_mtu d) (flags d) (caps d) speed duplex (tx_queue_len d)
    (rx_queue_len d) (ctx d) (ops d) (stats d) (rx_queue d) (rx_head d) (rx_tail d) (rx_count d) (rx_callback d) (rx_callback_ctx d).
Definition set_ring (d : net_device_t) (q : list net_frame_slot_t) (head tail count : Z) : net_device_t :=
  mk_net (name d) (driver d) (mac d) (mtu d) (max_mtu d) (flags d) (caps d) (link_speed_mbps d) (link_duplex d) (tx_queue_len d)
    (rx_queue_len d) (ctx d) (ops d) (stats d) (Some q) head tail count (rx_callback d) (rx_callback_ctx d).
Definition set_callback (d : net_device_t) (cb : option Z) (cx : Z) : net_device_t :=
  mk_net (name d) (driver d) (mac d) (mtu d) (max_mtu d) (flags d) (caps d) (link_speed_mbps d) (link_duplex d) (tx_queue_len d)
    (rx_queue_len d) (ctx d) (ops d) (stats d) (rx_queue d) (rx_head d) (rx_tail d) (rx_count d) cb cx.

Definition count (d : net_device_t) (c : net_counter) (n : Z) : net_device_t := set_stats d (add_counter (stats d) c n).
Definition has (d : net_device_t) (bit : Z) : bool := negb (Z.land (flags d) bit =? 0).
Definition raise (d : net_device_t) (bits : Z) : net_device_t := set_flags d (Z.lor (flags d) bits).
Definition lower (d : net_device_t) (bits : Z) : net_device_t := set_flags d (Z.land (flags d) (lnot_w 32 bits)).

Record net_state := mk_net_state { net_devices : list (option Z); net_device_count : Z; net_ready : bool }.

Definition net_frame_len_ok (len : Z) : bool := (NET_ETH_HEADER_LEN <=? len) && (len <=? NET_ETH_MAX_FRAME).

Definition net_mac_is_zero (m : option (list Z)) : res bool :=
  match m with
  | None => Ret true
  | Some m =>
      v ← for_n (Z.to_nat NET_ETH_ADDR_LEN) 0 (λ i v, b ← rd m i; Ret (Z.lor v b)) 0;
      Ret (v =? 0)
  end.

Definition net_mac_is_multicast (m : option (list Z)) : res bool :=
  match m with
  | None => Ret false
  | Some m => b ← rd m 0; Ret (negb (Z.land b 1 =? 0))
  end.

Definition net_format_mac (m out : option (list Z)) (out_len : Z) : res (option (list Z)) :=
  match out with
  | None => Ret None
  | Some _ =>
      if out_len =? 0 then Ret out else
      match m with
      | None => '(_, out) ← strlcpy out (Some (lit "00:00:00:00:00:00")) out_len; Ret out
      | Some m =>
          b0 ← rd m 0; b1 ← rd m 1; b2 ← rd m 2; b3 ← rd m 3; b4 ← rd m 4; b5 ← rd m 5;
          '(out, _) ← ksnprintf out out_len (Some (lit "%02x:%02x:%02x:%02x:%02x:%02x"))
            [VInt b0; VInt b1; VInt b2; VInt b3; VInt b4; VInt b5];
          Ret out
      end
  end.

Definition net_init (s : net_state) : net_state := mk_net_state (replicate (Z.to_nat NET_MAX_DEVS) None) 0 true.

Definition netdev_count (s : net_state) : Z := net_device_count s.

Definition netdev_get (s : net_state) (index : Z) : res (option Z) :=
  if index <? net_device_count s then rd (net_devices s) index else Ret None.

Definition deref (heap : Zmap net_device_t) (p : Z) : res net_device_t :=
  match heap !! p with Some d => Ret d | None => Fault OutOfBounds end.

Definition netdev_find (s : net_state) (heap : Zmap net_device_t) (nm : option (list Z)) : res (option Z) :=
  match nm with
  | None => Ret None
  | Some nm =>
      c ← loop_n (Z.to_nat (net_device_count s)) 0 (λ i (_ : unit),
            dev ← rd (net_devices s) i;
            match dev with
            | None => Ret (Next tt)
            | Some p =>
                d ← deref heap p;
                r ← strcmp (Some (name d)) (Some nm);
                if r =? 0 then Ret (Done p) else Ret (Next tt)
            end) tt;
      match c with Done p => Ret (Some p) | Next _ => Ret None end
  end.

Definition net_status_name (status : net_status_t) : list Z :=
  match status with
  | NET_OK => lit "ok"
  | NET_ERR_INVAL => lit "invalid"
  | NET_ERR_NOMEM => lit "no-memory"
  | NET_ERR_NODEV => lit "no-device"
  | NET_ERR_BUSY => lit "busy"
  | NET_ERR_RANGE => lit "range"
  | NET_ERR_IO => lit "io"
  | NET_ERR_UNSUPPORTED => lit "unsupported"
  end.

(** ** Devices *)

Section net.
Context {W : Type}.

(** What a driver function leaves: the device and the world. *)
Definition after (A : Type) : Type := res (A * net_device_t * W).

Record net_device_ops_t := mk_ops {
  op_open : option (net_device_t → W → after net_status_t);
  op_close : option (net_device_t → W → after unit);
  op_transmit : option (net_device_t → list Z → Z → option net_tx_meta_t → W → after net_status_t);
  op_poll : option (net_device_t → W → after unit);
  op_set_promisc : option (net_device_t → bool → W → after net_status_t);
  op_set_allmulti : option (net_device_t → bool → W → after net_status_t);
  op_set_mac : option (net_device_t → list Z → W → after net_status_t);
  op_set_mtu : option (net_device_t → Z → W → after net_status_t);
  op_set_vlan : option (net_device_t → Z → bool → W → after net_status_t);
  op_update_link : option (net_device_t → W → after unit);
  op_format_driver : option (net_device_t → list Z → Z → W → after (list Z));
}.

(** The operation tables and receive callbacks the numbers in a device stand for. *)
Context (ops_at : Z → net_device_ops_t).
Context (callback_at : Z → net_device_t → list Z → Z → option net_rx_meta_t → Z → W → after unit).

(** [dev->ops && dev->ops->field]. *)
Definition op {A} (d : net_device_t) (field : net_device_ops_t → option A) : option A := ops d ≫= λ o, field (ops_at o).

Definition zero_slot : net_frame_slot_t := mk_slot 0 (mk_rx_meta 0 0 0) (replicate (Z.to_nat NET_ETH_MAX_FRAME) 0).

(** The fields [netdev_register] fills in for the device that gets number [index],
    up to the queue. *)
Definition register_defaults (d : net_device_t) (index : Z) : res net_device_t :=
  c ← rd (name d) 0;
  nm ← (if c =? 0 then '(b, _) ← ksnprintf (Some (name d)) NET_NAME_LEN (Some (lit "net%llu")) [VLong index]; Ret (default [] b)
        else Ret (name d));
  let m := if mtu d =? 0 then 1500 else mtu d in
  let m := if max_mtu d <? m then max_mtu d else m in
  let rxl := if (rx_queue_len d =? 0) || (NET_RX_BACKLOG <? rx_queue_len d) then NET_RX_BACKLOG else rx_queue_len d in
  let txl := if tx_queue_len d =? 0 then 64 else tx_queue_len d in
  Ret (mk_net nm (driver d) (mac d) m (max_mtu d) (flags d) (caps d) (link_speed_mbps d) (link_duplex d) txl rxl (ctx d) (ops d)
         (stats d) (rx_queue d) (rx_head d) (rx_tail d) (rx_count d) (rx_callback d) (rx_callback_ctx d)).

Definition set_rx_queue (d : net_device_t) (q : option (list net_frame_slot_t)) : net_device_t :=
  mk_net (name d) (driver d) (mac d) (mtu d) (max_mtu d) (flags d) (caps d) (link_speed_mbps d) (link_duplex d) (tx_queue_len d)
    (rx_queue_len d) (ctx d) (ops d) (stats d) q (rx_head d) (rx_tail d) (rx_count d) (rx_callback d) (rx_callback_ctx d).

(** The result of a registration: the registry, the device, the messages logged. *)
Definition registered : Type := net_state * net_device_t * list klog_call.

(** [dev] is the address and the structure; [mem] is whether [kcalloc] finds
    memory; [macbuf] is the uninitialised stack buffer of the message. *)
Definition netdev_register (s : net_state) (dev : option (Z * net_device_t)) (mem : bool) (macbuf : list Z)
  : res (net_status_t * option registered) :=
  match dev with
  | None => Ret (NET_ERR_INVAL, None)
  | Some (p, d) =>
      match op d op_transmit, driver d with
      | Some _, Some drv =>
          if max_mtu d <? 576 then Ret (NET_ERR_INVAL, Some (s, d, [])) else
          let s := if negb (net_ready s) then net_init s else s in
          if NET_MAX_DEVS <=? net_device_count s then Ret (NET_ERR_BUSY, Some (s, d, [])) else
          c ← loop_n (Z.to_nat (net_device_count s)) 0 (λ i (_ : unit),
                q ← rd (net_devices s) i;
                if decide (q = Some p) then Ret (Done tt) else Ret (Next tt)) tt;
          match c with
          | Done _ => Ret (NET_ERR_BUSY, Some (s, d, []))
          | Next _ =>
              d ← register_defaults d (net_device_count s);
              if negb mem then Ret (NET_ERR_NOMEM, Some (s, set_rx_queue d None, [])) else
              let d := set_rx_queue d (Some (replicate (Z.to_nat (rx_queue_len d)) zero_slot)) in
              devs ← wr (net_devices s) (net_device_count s) (Some p);
              text ← net_format_mac (Some (mac d)) (Some macbuf) 24;
              Ret (NET_OK, Some (mk_net_state devs (net_device_count s + 1) (net_ready s), d,
                [mk_klog LOG_INFO (lit "net") (lit "registered %s driver=%s mac=%s mtu=%u caps=0x%x")
                   [VStr (Some (name d)); VStr (Some drv); VStr text; VInt (mtu d); VInt (caps d)]]))
          end
      | _, _ => Ret (NET_ERR_INVAL, Some (s, d, []))
      end
  end.

Definition netdev_open (dev : option net_device_t) (w : W) : res (net_status_t * option net_device_t * W) :=
  match dev with
  | None => Ret (NET_ERR_NODEV, None, w)
  | Some d =>
      '(st, d, w) ← match op d op_open with Some f => f d w | None => Ret (NET_OK, d, w) end;
      Ret (st, Some (if decide (st = NET_OK) then raise d NETDEV_F_UP else d), w)
  end.

Definition netdev_close (dev : option net_device_t) (w : W) : res (option net_device_t * W) :=
  match dev with
  | None => Ret (None, w)
  | Some d =>
      '(_, d, w) ← match op d op_close with Some f => f d w | None => Ret (tt, d, w) end;
      Ret (Some (lower d (Z.lor NETDEV_F_UP NETDEV_F_RUNNING)), w)
  end.

(** [meta && (meta->flags & bit)]. *)
Definition rx_flag (meta : option net_rx_meta_t) (bit : Z) : bool :=
  match meta with Some m => negb (Z.land (rxm_flags m) bit =? 0) | None => false end.
Definition tx_flag (meta : option net_tx_meta_t) (bit : Z) : bool :=
  match meta with Some m => negb (Z.land (txm_flags m) bit =? 0) | None => false end.

Definition netdev_send (dev : option net_device_t) (frame : option (list Z)) (len : Z) (meta : option net_tx_meta_t) (w : W)
  : res (net_status_t * option net_device_t * W) :=
  match dev, frame with
  | Some d, Some frame =>
      if negb (net_frame_len_ok len) then Ret (NET_ERR_RANGE, Some d, w) else
      if negb (has d NETDEV_F_UP) then Ret (NET_ERR_NODEV, Some d, w) else
      '(st, d, w) ← match op d op_transmit with Some f => f d frame len meta w | None => Fault OutOfBounds end;
      let d := match st with
        | NET_OK =>
            let d := count d tx_packets 1 in
            let d := count d tx_bytes len in
            let d := if tx_flag meta NET_TX_CSUM then count d csum_tx_offloaded 1 else d in
            if tx_flag meta NET_TX_VLAN then count d vlan_tx 1 else d
        | NET_ERR_BUSY => count d tx_busy 1
        | _ => count d tx_errors 1
        end in
      Ret (st, Some d, w)
  | _, _ => Ret (NET_ERR_INVAL, dev, w)
  end.

Definition net_count_rx_address_stats (dev : option net_device_t) (frame : option (list Z)) : res (option net_device_t) :=
  match dev, frame with
  | Some d, Some f =>
      r ← memcmp f (replicate (Z.to_nat NET_ETH_ADDR_LEN) 0xff) NET_ETH_ADDR_LEN;
      if r =? 0 then Ret (Some (count d rx_broadcast 1)) else
      m ← net_mac_is_multicast (Some f);
      Ret (Some (if m : bool then count d rx_multicast 1 else d))
  | _, _ => Ret dev
  end.

(** The store into the slot at the tail. *)
Definition enqueue_frame (d : net_device_t) (q : list net_frame_slot_t) (frame : list Z) (len : Z) (meta : option net_rx_meta_t)
  : res net_device_t :=
  slot ← rd q (rx_tail d);
  data ← memcpy (slot_data slot) frame len;
  q ← wr q (rx_tail d) (mk_slot (wrap16 len) (default (mk_rx_meta 0 0 NET_RX_OK) meta) data);
  let d := set_ring d q (rx_head d) (wrap16 (wrap32 (rx_tail d + 1) mod rx_queue_len d)) (wrap16 (rx_count d + 1)) in
  Ret (if stats d rx_queue_high_water <? rx_count d then set_stats d (set_counter (stats d) rx_queue_high_water (rx_count d)) else d).

Definition netdev_receive (dev : option net_device_t) (frame : option (list Z)) (len : Z) (meta : option net_rx_meta_t) (w : W)
  : res (net_status_t * option net_device_t * W) :=
  match dev, frame with
  | Some d, Some frame =>
      if negb (net_frame_len_ok len) then Ret (NET_ERR_RANGE, Some d, w) else
      '(_, d, w) ← match rx_callback d with
                   | Some cb => callback_at cb d frame len meta (rx_callback_ctx d) w
                   | None => Ret (tt, d, w)
                   end;
      let d := count d rx_packets 1 in
      let d := count d rx_bytes len in
      let d := if rx_flag meta NET_RX_CSUM_OK then count d csum_rx_good 1 else d in
      let d := if rx_flag meta NET_RX_VLAN then count d vlan_rx 1 else d in
      d ← net_count_rx_address_stats (Some d) (Some frame);
      match d with
      | None => Ret (NET_ERR_INVAL, None, w)
      | Some d =>
          match rx_queue d with
          | None => Ret (NET_ERR_BUSY, Some (count d rx_dropped 1), w)
          | Some q =>
              if (rx_queue_len d =? 0) || (rx_queue_len d <=? rx_count d) then Ret (NET_ERR_BUSY, Some (count d rx_dropped 1), w) else
              d ← enqueue_frame d q frame len meta;
              Ret (NET_OK, Some d, w)
          end
      end
  | _, _ => Ret (NET_ERR_INVAL, dev, w)
  end.

Definition netdev_poll (dev : option net_device_t) (w : W) : res (option net_device_t * W) :=
  match dev with
  | None => Ret (None, w)
  | Some d =>
      '(_, d, w) ← match op d op_poll with Some f => f d w | None => Ret (tt, d, w) end;
      Ret (Some (count d polls 1), w)
  end.

(** What a read hands out: the bytes stored in [*read_out], the buffer, and
    [*meta_out] when it was written. *)
Definition read_result : Type := Z * option (list Z) * option net_rx_meta_t.

Definition netdev_read_frame (dev : option net_device_t) (buffer : option (list Z)) (size : Z) (w : W)
  : res (net_status_t * read_result * option net_device_t * W) :=
  if (match dev with None => true | Some _ => false end)
     || (negb (size =? 0) && (match buffer with None => true | Some _ => false end))
  then Ret (NET_ERR_INVAL, (0, buffer, None), dev, w) else
  '(dev, w) ← netdev_poll dev w;
  match dev with
  | None => Ret (NET_ERR_INVAL, (0, buffer, None), None, w)
  | Some d =>
      match rx_queue d with
      | None => Ret (NET_OK, (0, buffer, None), Some d, w)
      | Some q =>
          if rx_count d =? 0 then Ret (NET_OK, (0, buffer, None), Some d, w) else
          slot ← rd q (rx_head d);
          let '(take, d) := if size <? slot_len slot then (size, count d rx_truncated 1) else (slot_len slot, d) in
          buf ← (if negb (take =? 0) then
                   match buffer with Some b => b ← memcpy b (slot_data slot) take; Ret (Some b) | None => Fault OutOfBounds end
                 else Ret buffer);
          let d := set_ring d q (wrap16 (wrap32 (rx_head d + 1) mod rx_queue_len d)) (rx_tail d) (wrap16 (rx_count d - 1)) in
          Ret (NET_OK, (take, buf, Some (slot_meta slot)), Some d, w)
      end
  end.

(** The number stored in [*written_out] comes with the status. *)
Definition netdev_write_frame (dev : option net_device_t) (buffer : option (list Z)) (size : Z) (w : W)
  : res (net_status_t * Z * option net_device_t * W) :=
  '(st, dev, w) ← netdev_send dev buffer size None w;
  Ret (st, if decide (st = NET_OK) then size else 0, dev, w).

Definition net_poll_all (s : net_state) (heap : Zmap net_device_t) (w : W) : res (Zmap net_device_t * W) :=
  for_n (Z.to_nat (net_device_count s)) 0 (λ i '(heap, w),
    dev ← rd (net_devices s) i;
    match dev with
    | None => '(_, w) ← netdev_poll None w; Ret (heap, w)
    | Some p =>
        d ← deref heap p;
        '(d, w) ← netdev_poll (Some d) w;
        Ret (match d with Some d => <[p := d]> heap | None => heap end, w)
    end) (heap, w).

(** The common shape of [netdev_set_promisc] and [netdev_set_allmulti]. *)
Definition set_mode (dev : option net_device_t) (field : net_device_ops_t → option (net_device_t → bool → W → after net_status_t))
    (bit : Z) (enabled : bool) (w : W) : res (net_status_t * option net_device_t * W) :=
  match dev with
  | None => Ret (NET_ERR_NODEV, None, w)
  | Some d =>
      '(st, d, w) ← match op d field with
                    | Some f => f d enabled w
                    | None => Ret (if enabled then NET_ERR_UNSUPPORTED else NET_OK, d, w)
                    end;
      Ret (st, Some (if decide (st = NET_OK) then if enabled then raise d bit else lower d bit else d), w)
  end.

Definition netdev_set_promisc (dev : option net_device_t) (enabled : bool) (w : W) : res (net_status_t * option net_device_t * W) :=
  set_mode dev op_set_promisc NETDEV_F_PROMISC enabled w.

Definition netdev_set_allmulti (dev : option net_device_t) (enabled : bool) (w : W) : res (net_status_t * option net_device_t * W) :=
  set_mode dev op_set_allmulti NETDEV_F_ALLMULTI enabled w.

Definition netdev_set_mtu (dev : option net_device_t) (m : Z) (w : W) : res (net_status_t * option net_device_t * W) :=
  match dev with
  | None => Ret (NET_ERR_NODEV, None, w)
  | Some d =>
      if (m <? 576) || (max_mtu d <? m) then Ret (NET_ERR_RANGE, Some d, w) else
      '(st, d, w) ← match op d op_set_mtu with Some f => f d m w | None => Ret (NET_OK, d, w) end;
      Ret (st, Some (if decide (st = NET_OK) then set_mtu d m else d), w)
  end.

Definition netdev_set_vlan (dev : option net_device_t) (vlan : Z) (enabled : bool) (w : W)
  : res (net_status_t * option net_device_t * W) :=
  match dev with
  | None => Ret (NET_ERR_INVAL, None, w)
  | Some d =>
      if 4096 <=? vlan then Ret (NET_ERR_INVAL, Some d, w) else
      match op d op_set_vlan with
      | Some f => '(st, d, w) ← f d vlan enabled w; Ret (st, Some d, w)
      | None => Ret (if enabled then NET_ERR_UNSUPPORTED else NET_OK, Some d, w)
      end
  end.

Definition netdev_set_link (dev : option net_device_t) (up : bool) (speed_mbps duplex : Z) : option net_device_t :=
  match dev with
  | None => None
  | Some d =>
      let old := has d NETDEV_F_LINK_UP in
      let bits := Z.lor NETDEV_F_LINK_UP NETDEV_F_RUNNING in
      let d := if up then raise d bits else lower d bits in
      let d := set_speed d (if up then speed_mbps else 0) (if up then duplex else 0) in
      Some (if negb (eqb old up) then count d link_changes 1 else d)
  end.

Definition netdev_set_rx_callback (dev : option net_device_t) (callback : option Z) (cx : Z) : option net_device_t :=
  match dev with None => None | Some d => Some (set_callback d callback cx) end.

(** ** Reports *)

Definition link_word (d : net_device_t) : varg := VInt (if has d NETDEV_F_LINK_UP then 1 else 0).
Definition counters (d : net_device_t) (cs : list net_counter) : list varg := map (λ c, VLong (stats d c)) cs.

(** The lines of one device; [drv] is its [driver] string. *)
Definition status_lines (bo : rabbitbone_buf_out_t) (d : net_device_t) (macbuf : list Z) : res rabbitbone_buf_out_t :=
  text ← net_format_mac (Some (mac d)) (Some macbuf) 24;
  bo ← rabbitbone_buf_appendf bo
    (Some (lit "  %s driver=%s mac=%s mtu=%u max_mtu=%u flags=0x%x caps=0x%x link=%u speed=%u duplex=%u rxq=%u/%u txqlen=%u
"))
    [VStr (Some (name d)); VStr (driver d); VStr text; VInt (mtu d); VInt (max_mtu d); VInt (flags d); VInt (caps d); link_word d;
     VInt (link_speed_mbps d); VInt (link_duplex d); VInt (rx_count d); VInt (rx_queue_len d); VInt (tx_queue_len d)];
  bo ← rabbitbone_buf_appendf bo
    (Some (lit "    rx_packets=%llu rx_bytes=%llu rx_errors=%llu rx_dropped=%llu rx_truncated=%llu rx_multicast=%llu rx_broadcast=%llu
"))
    (counters d [rx_packets; rx_bytes; rx_errors; rx_dropped; rx_truncated; rx_multicast; rx_broadcast]);
  rabbitbone_buf_appendf bo
    (Some (lit "    tx_packets=%llu tx_bytes=%llu tx_errors=%llu tx_dropped=%llu tx_busy=%llu tx_timeouts=%llu interrupts=%llu polls=%llu resets=%llu dma_errors=%llu
"))
    (counters d [tx_packets; tx_bytes; tx_errors; tx_dropped; tx_busy; tx_timeouts; interrupts; polls; resets; dma_errors]).

(** The driver's own text, behind what is there, and the length found again. *)
Definition status_driver (bo : rabbitbone_buf_out_t) (d : net_device_t) (w : W) : res (rabbitbone_buf_out_t * net_device_t * W) :=
  '(bo, d, w) ← match op d op_format_driver, bo_buf bo with
                | Some f, Some b =>
                    let room := if bo_used bo <? bo_cap bo then bo_cap bo - bo_used bo else 0 in
                    '(tail, d, w) ← f d (drop (Z.to_nat (bo_used bo)) b) room w;
                    Ret (mk_bufout (Some (take (Z.to_nat (bo_used bo)) b ++ tail)) (bo_cap bo) (bo_used bo), d, w)
                | _, _ => Ret (bo, d, w)
                end;
  n ← strnlen (bo_buf bo) (bo_cap bo);
  Ret (mk_bufout (bo_buf bo) (bo_cap bo) n, d, w).

Definition status_device (macbuf : list Z) (p : Z) (bo : rabbitbone_buf_out_t) (heap : Zmap net_device_t) (w : W)
  : res (rabbitbone_buf_out_t * Zmap net_device_t * W) :=
  d ← deref heap p;
  '(_, d, w) ← match op d op_update_link with Some f => f d w | None => Ret (tt, d, w) end;
  bo ← status_lines bo d macbuf;
  '(bo, d, w) ← status_driver bo d w;
  Ret (bo, <[p := d]> heap, w).

Definition net_format_status (s : net_state) (heap : Zmap net_device_t) (macbuf : list Z) (out : option (list Z)) (out_len : Z) (w : W)
  : res (option (list Z) * Zmap net_device_t * W) :=
  match out with
  | None => Ret (None, heap, w)
  | Some _ =>
      if out_len =? 0 then Ret (out, heap, w) else
      bo ← rabbitbone_buf_init out out_len;
      bo ← rabbitbone_buf_appendf bo (Some (lit "net: count=%llu
")) [VLong (net_device_count s)];
      bo ← (if net_device_count s =? 0 then
              rabbitbone_buf_appendf bo
                (Some (lit "  hint: VMware virtualDev must be e1000 or e1000e; expected PCI ids include 8086:10d3, 8086:100f, 8086:100e
")) []
            else Ret bo);
      '(bo, heap, w) ← for_n (Z.to_nat (net_device_count s)) 0 (λ i '(bo, heap, w),
        dev ← rd (net_devices s) i;
        match dev with
        | None => Ret (bo, heap, w)
        | Some p => status_device macbuf p bo heap w
        end) (bo, heap, w);
      Ret (bo_buf bo, heap, w)
  end.

Definition net_log_devices (s : net_state) (heap : Zmap net_device_t) (macbuf : list Z) : res (list klog_call) :=
  for_n (Z.to_nat (net_device_count s)) 0 (λ i out,
    dev ← rd (net_devices s) i;
    match dev with
    | None => Ret out
    | Some p =>
        d ← deref heap p;
        text ← net_format_mac (Some (mac d)) (Some macbuf) 24;
        Ret (out ++ [mk_klog LOG_INFO (lit "net") (lit "%s driver=%s mac=%s mtu=%u flags=0x%x caps=0x%x link=%u speed=%u")
          [VStr (Some (name d)); VStr (driver d); VStr text; VInt (mtu d); VInt (flags d); VInt (caps d); link_word d; VInt (link_speed_mbps d)]])
    end)
    [mk_klog LOG_INFO (lit "net") (lit "registered devices=%llu") [VLong (net_device_count s)]].

End net.

(** ** What the core promises its clients

    A queue of frames with a fixed capacity that drops the newest when full, with
    exact counts of what was received, dropped and handed out. *)

Record anet := mk_anet {
  a_queue : list (list Z * net_rx_meta_t);
  a_cap : Z;
  a_up : bool;
  a_received : Z;
  a_dropped : Z;
  a_taken : Z;
  a_high : Z;
}.

Definition rx_frame : Type := list Z * option net_rx_meta_t.

Definition frame_ok (f : list Z) : bool := net_frame_len_ok (zlen f).

Definition a_receive (a : anet) (f : rx_frame) : anet :=
  if negb (frame_ok f.1) then a else
  if zlen (a_queue a) <? a_cap a then
    mk_anet (a_queue a ++ [(f.1, default (mk_rx_meta 0 0 NET_RX_OK) f.2)]) (a_cap a) (a_up a) (a_received a + 1) (a_dropped a) (a_taken a)
      (Z.max (a_high a) (zlen (a_queue a) + 1))
  else mk_anet (a_queue a) (a_cap a) (a_up a) (a_received a + 1) (a_dropped a + 1) (a_taken a) (a_high a).

Definition a_receive_status (a : anet) (f : rx_frame) : net_status_t :=
  if negb (frame_ok f.1) then NET_ERR_RANGE else if zlen (a_queue a) <? a_cap a then NET_OK else NET_ERR_BUSY.

Definition a_pop (a : anet) : anet :=
  match a_queue a with
  | [] => a
  | _ :: q => mk_anet q (a_cap a) (a_up a) (a_received a) (a_dropped a) (a_taken a + 1) (a_high a)
  end.

Definition a_set_up (a : anet) (up : bool) : anet :=
  mk_anet (a_queue a) (a_cap a) up (a_received a) (a_dropped a) (a_taken a) (a_high a).

(** What [netdev_read_frame] hands out from the queue into a buffer. *)
Definition a_read (a : anet) (b : list Z) (size : Z) : read_result :=
  match a_queue a with
  | [] => (0, Some b, None)
  | (f, m) :: _ => (Z.min size (zlen f), Some (blit b 0 (take (Z.to_nat size) f)), Some m)
  end.

(** The part of a device the core owns, the queue and its counters: a driver may
    change the rest. *)
Record same_ring (d d' : net_device_t) : Prop := {
  sr_queue : rx_queue d' = rx_queue d;
  sr_len : rx_queue_len d' = rx_queue_len d;
  sr_head : rx_head d' = rx_head d;
  sr_tail : rx_tail d' = rx_tail d;
  sr_count : rx_count d' = rx_count d;
  sr_callback : rx_callback d' = rx_callback d;
  sr_ops : ops d' = ops d;
  sr_up : has d' NETDEV_F_UP = has d NETDEV_F_UP;
}.

Definition core_counters : list net_counter := [rx_packets; rx_dropped; rx_queue_high_water].

(** Membership in the list above. *)
Ltac core := apply (bool_decide_unpack _); vm_compute; exact I.

Definition same_core (d d' : net_device_t) : Prop :=
  same_ring d d' ∧ ∀ c, c ∈ core_counters → stats d' c = stats d c.

(** How a device stores the abstract queue. *)
Definition slot_holds (s : net_frame_slot_t) (e : list Z * net_rx_meta_t) : Prop :=
  slot_len s = zlen e.1 ∧ slot_meta s = e.2 ∧ take (length e.1) (slot_data s) = e.1.

Record ring_rel (o : Z) (d : net_device_t) (a : anet) : Prop := {
  nr_slots : ∃ q, rx_queue d = Some q ∧ zlen q = a_cap a ∧ Forall (λ s, zlen (slot_data s) = NET_ETH_MAX_FRAME) q ∧
    Forall2 slot_holds (circ q (rx_head d) (rx_count d)) (a_queue a);
  nr_cap : rx_queue_len d = a_cap a ∧ 0 < a_cap a ≤ NET_RX_BACKLOG;
  nr_head : 0 ≤ rx_head d < a_cap a;
  nr_tail : rx_tail d = (rx_head d + rx_count d) mod a_cap a;
  nr_count : rx_count d = zlen (a_queue a) ∧ zlen (a_queue a) ≤ a_cap a;
  nr_callback : rx_callback d = None;
  nr_ops : ops d = Some o;
  nr_up : has d NETDEV_F_UP = a_up a;
}.

Record net_rel (o : Z) (d : net_device_t) (a : anet) : Prop := {
  nr_ring : ring_rel o d a;
  nr_received : stats d rx_packets = wrap64 (a_received a);
  nr_dropped : stats d rx_dropped = wrap64 (a_dropped a);
  nr_high : stats d rx_queue_high_water = a_high a ∧ zlen (a_queue a) ≤ a_high a ≤ a_cap a;
  nr_conserved : a_received a = a_dropped a + a_taken a + zlen (a_queue a);
}.

(** Rewrites the driver call that a law describes. *)
Ltac by_law E := match goal with |- context [mbind ?k ?M] => replace (mbind k M) with (mbind k (Ret ltac:(match type of E with _ = Ret ?v => exact v end))) by (rewrite <- E; reflexivity) end; mred.

Section refinement.
Context {W : Type} (ops_at : Z → @net_device_ops_t W)
  (callback_at : Z → net_device_t → list Z → Z → option net_rx_meta_t → Z → W → @after W unit).

(** A driver at work on its device: it changes what is its own and delivers
    frames through [netdev_receive]. *)
Inductive driver_run : net_device_t → W → list rx_frame → net_device_t → W → Prop :=
| run_done d w : driver_run d w [] d w
| run_touch d d1 w w1 fs d2 w2 : same_core d d1 → driver_run d1 w1 fs d2 w2 → driver_run d w fs d2 w2
| run_receive d d1 w w1 f st fs d2 w2 :
    netdev_receive callback_at (Some d) (Some f.1) (zlen f.1) f.2 w = Ret (st, Some d1, w1) →
    driver_run d1 w1 fs d2 w2 → driver_run d w (f :: fs) d2 w2.

(** What the core needs of the driver behind operation table [o]: its functions
    return, and touch the device only as [driver_run] allows.  [drv_poll w] are
    the frames a poll delivers, [drv_transmit] the outcome of a transmission. *)
Class NetDriver (o : Z) := {
  drv_poll : W → list rx_frame * W;
  drv_transmit : W → list Z → net_status_t * W;
  drv_open : W → net_status_t * W;
  drv_close : W → W;
  law_poll : ∀ d a w, net_rel o d a → ∃ d', match op_poll (ops_at o) with Some f => f d w | None => Ret (tt, d, w) end = Ret (tt, d', (drv_poll w).2) ∧
    driver_run d w (drv_poll w).1 d' (drv_poll w).2;
  law_transmit : ∀ d f w, ∃ t d', op_transmit (ops_at o) = Some t ∧
    t d f (zlen f) None w = Ret ((drv_transmit w f).1, d', (drv_transmit w f).2) ∧ same_core d d';
  law_open : ∀ d w, ∃ d', match op_open (ops_at o) with Some f => f d w | None => Ret (NET_OK, d, w) end
      = Ret ((drv_open w).1, d', (drv_open w).2) ∧ same_core d d';
  law_close : ∀ d w, ∃ d', match op_close (ops_at o) with Some f => f d w | None => Ret (tt, d, w) end
      = Ret (tt, d', drv_close w) ∧ same_core d d';
}.

Inductive net_op :=
| NReceive (f : rx_frame)
| NPoll
| NRead (buffer : list Z) (size : Z)
| NWrite (frame : list Z)
| NOpen
| NClose
| NLink (up : bool) (speed duplex : Z).

Inductive net_obs :=
| OStatus (st : net_status_t)
| ORead (st : net_status_t) (r : read_result)
| OWritten (st : net_status_t) (n : Z)
| ONone.

Definition net_step (d : net_device_t) (w : W) (o : net_op) : res (option net_device_t * W * net_obs) :=
  match o with
  | NReceive f => '(st, d, w) ← netdev_receive callback_at (Some d) (Some f.1) (zlen f.1) f.2 w; Ret (d, w, OStatus st)
  | NPoll => '(d, w) ← netdev_poll ops_at (Some d) w; Ret (d, w, ONone)
  | NRead b size => '(st, r, d, w) ← netdev_read_frame ops_at (Some d) (Some b) size w; Ret (d, w, ORead st r)
  | NWrite f => '(st, n, d, w) ← netdev_write_frame ops_at (Some d) (Some f) (zlen f) w; Ret (d, w, OWritten st n)
  | NOpen => '(st, d, w) ← netdev_open ops_at (Some d) w; Ret (d, w, OStatus st)
  | NClose => '(d, w) ← netdev_close ops_at (Some d) w; Ret (d, w, ONone)
  | NLink up sp du => Ret (netdev_set_link (Some d) up sp du, w, ONone)
  end.

Fixpoint net_run (d : net_device_t) (w : W) (l : list net_op) : res (net_device_t * W * list net_obs) :=
  match l with
  | [] => Ret (d, w, [])
  | o :: l =>
      '(d, w, x) ← net_step d w o;
      match d with
      | None => Fault Panic
      | Some d => '(d, w, xs) ← net_run d w l; Ret (d, w, x :: xs)
      end
  end.

Definition net_op_ok (o : net_op) : Prop :=
  match o with NRead b size => 0 ≤ size ≤ zlen b | _ => True end.

Context (o : Z) `{drv : !NetDriver o}.
Local Abbreviation ring_rel := (ring_rel o).
Local Abbreviation net_rel := (net_rel o).

Definition an_step (a : anet) (w : W) (x : net_op) : anet * W * net_obs :=
  match x with
  | NReceive f => (a_receive a f, w, OStatus (a_receive_status a f))
  | NPoll => (foldl a_receive a (drv_poll w).1, (drv_poll w).2, ONone)
  | NRead b size => let a := foldl a_receive a (drv_poll w).1 in (a_pop a, (drv_poll w).2, ORead NET_OK (a_read a b size))
  | NWrite f =>
      if negb (frame_ok f) then (a, w, OWritten NET_ERR_RANGE 0) else
      if negb (a_up a) then (a, w, OWritten NET_ERR_NODEV 0) else
      let '(st, w) := drv_transmit w f in (a, w, OWritten st (if decide (st = NET_OK) then zlen f else 0))
  | NOpen => let '(st, w) := drv_open w in (if decide (st = NET_OK) then a_set_up a true else a, w, OStatus st)
  | NClose => (a_set_up a false, drv_close w, ONone)
  | NLink _ _ _ => (a, w, ONone)
  end.

Fixpoint an_run (a : anet) (w : W) (l : list net_op) : anet * W * list net_obs :=
  match l with
  | [] => (a, w, [])
  | x :: l => let '(a, w, ob) := an_step a w x in let '(a, w, obs) := an_run a w l in (a, w, ob :: obs)
  end.

Lemma same_ring_refl d : same_ring d d.
Proof. by split. Qed.

Lemma same_ring_trans d1 d2 d3 : same_ring d1 d2 → same_ring d2 d3 → same_ring d1 d3.
Proof. intros [] []. split; congruence. Qed.

Lemma count_same_ring d c n : same_ring d (count d c n).
Proof. by split. Qed.

Lemma count_stats d c n c' : stats (count d c n) c' = if decide (c' = c) then wrap64 (stats d c + n) else stats d c'.
Proof. unfold count, set_stats, add_counter, set_counter. cbn [stats]. done. Qed.

Lemma ring_rel_same d d' a : ring_rel d a → same_ring d d' → ring_rel d' a.
Proof.
  intros [H1 H2 H3 H4 H5 H6 H7 H8] [E1 E2 E3 E4 E5 E6 E7 E8].
  split; rewrite ?E1, ?E2, ?E3, ?E4, ?E5, ?E6, ?E7, ?E8; done.
Qed.

Lemma net_rel_same d d' a : net_rel d a → same_core d d' → net_rel d' a.
Proof.
  intros [H1 H2 H3 H4 H5] [E1 E2]. split; [by eapply ring_rel_same | ..]; rewrite ?E2; try done; core.
Qed.

Lemma count_same_core d c n : c ∉ core_counters → same_core d (count d c n).
Proof.
  intros Hc. split; [apply count_same_ring |]. intros c' Hc'. rewrite count_stats. case_decide; [by subst | done].
Qed.

(** The counters [netdev_receive] updates before it looks at the queue. *)
Lemma receive_counts d f (meta : option net_rx_meta_t) :
  NET_ETH_HEADER_LEN ≤ zlen f →
  let d1 := count (count d rx_packets 1) rx_bytes (zlen f) in
  let d2 := if rx_flag meta NET_RX_CSUM_OK then count d1 csum_rx_good 1 else d1 in
  let d3 := if rx_flag meta NET_RX_VLAN then count d2 vlan_rx 1 else d2 in
  ∃ d4, net_count_rx_address_stats (Some d3) (Some f) = Ret (Some d4) ∧ same_ring d d4 ∧
    stats d4 rx_packets = wrap64 (stats d rx_packets + 1) ∧ stats d4 rx_dropped = stats d rx_dropped ∧
    stats d4 rx_queue_high_water = stats d rx_queue_high_water.
Proof.
  intros Hf d1 d2 d3. unfold net_count_rx_address_stats.
  destruct (memcmp_spec f (replicate (Z.to_nat NET_ETH_ADDR_LEN) 255) NET_ETH_ADDR_LEN) as (r & -> & _); [done | unfold NET_ETH_HEADER_LEN, NET_ETH_ADDR_LEN in *; lia | done |].
  destruct (rd_inbounds f 0) as [b Hb]; [unfold NET_ETH_HEADER_LEN in Hf; lia |].
  assert (H3 : same_ring d d3 ∧ ∀ c, c ∈ core_counters → stats d3 c = stats d1 c).
  { subst d3 d2 d1. split.
    - repeat case_match; by split.
    - intros c Hc. repeat case_match; rewrite !count_stats; repeat case_decide; subst; try done; exfalso; revert Hc; apply (bool_decide_unpack _); vm_compute; exact I. }
  destruct H3 as [H3 H4].
  assert (Hgo : ∀ c, c ∉ core_counters → same_ring d (count d3 c 1) ∧
    stats (count d3 c 1) rx_packets = wrap64 (stats d rx_packets + 1) ∧ stats (count d3 c 1) rx_dropped = stats d rx_dropped ∧
    stats (count d3 c 1) rx_queue_high_water = stats d rx_queue_high_water).
  { intros c Hc. split; [eapply same_ring_trans; [exact H3 | apply count_same_ring] |].
    pose proof (count_same_core d3 c 1 Hc) as [_ Hs]. rewrite !Hs by core. rewrite !H4 by core. done. }
  mred. destruct (r =? 0); mred; [eexists; split; [done | apply Hgo; core] |].
  unfold net_mac_is_multicast. rewrite Hb. mred. case_match.
  - eexists. split; [done | apply Hgo; core].
  - eexists. split; [done |]. rewrite !H4 by core. done.
Qed.

Lemma slot_holds_blit s f m :
  zlen (slot_data s) = NET_ETH_MAX_FRAME → frame_ok f = true →
  slot_holds (mk_slot (wrap16 (zlen f)) m (blit (slot_data s) 0 f)) (f, m).
Proof.
  unfold frame_ok, net_frame_len_ok, NET_ETH_HEADER_LEN, NET_ETH_MAX_FRAME. intros Hs Hf. split_and!; [| done |]; cbn.
  - apply wrap_small. lia.
  - unfold blit. rewrite take_0. simpl. by rewrite take_app_length.
Qed.

Lemma ring_step x cap : 0 ≤ x < cap → cap ≤ NET_RX_BACKLOG → wrap16 (wrap32 (x + 1) mod cap) = (x + 1) mod cap.
Proof.
  unfold NET_RX_BACKLOG. intros. assert (0 ≤ (x + 1) mod cap < cap) by (apply Z.mod_pos_bound; lia).
  rewrite (wrap_small 32) by lia. rewrite wrap_small; lia.
Qed.

Definition a_push (a : anet) (f : rx_frame) : anet :=
  mk_anet (a_queue a ++ [(f.1, default (mk_rx_meta 0 0 NET_RX_OK) f.2)]) (a_cap a) (a_up a) (a_received a + 1) (a_dropped a) (a_taken a)
    (Z.max (a_high a) (zlen (a_queue a) + 1)).

Lemma set_ring_push d a q s f :
  ring_rel d a → rx_queue d = Some q → q !! Z.to_nat (rx_tail d) = Some s → frame_ok f.1 = true → zlen (a_queue a) < a_cap a →
  ring_rel (set_ring d (<[Z.to_nat (rx_tail d) := mk_slot (wrap16 (zlen f.1)) (default (mk_rx_meta 0 0 NET_RX_OK) f.2) (blit (slot_data s) 0 f.1)]> q)
    (rx_head d) ((rx_tail d + 1) mod a_cap a) (rx_count d + 1)) (a_push a f).
Proof.
  intros [(q' & Hq & Hlen & Hdata & Hs) [Hcap1 Hcap2] Hhead Htail [Hc1 Hc2] Hcb Hops Hup] Hq' Hx Hf Hroom. simplify_eq.
  pose proof (zlen_nonneg (a_queue a)).
  assert (Hsd : zlen (slot_data s) = NET_ETH_MAX_FRAME) by (rewrite Forall_lookup in Hdata; by eapply Hdata).
  split; cbn [set_ring rx_queue rx_head rx_tail rx_count rx_queue_len rx_callback ops a_push a_cap a_queue a_up]; [ | done | done | | | done | done | done].
  - eexists. split_and!; [done | by rewrite zlen_insert | |].
    + apply Forall_insert; [done |]. cbn. rewrite blit_zlen; [done |]. rewrite Hsd.
      unfold frame_ok, net_frame_len_ok, NET_ETH_MAX_FRAME in *. lia.
    + rewrite Htail, <- Hlen. rewrite circ_push by lia. apply Forall2_app; [done |].
      constructor; [| done]. by apply slot_holds_blit.
  - rewrite Htail, Z.add_mod_idemp_l by lia. f_equal. lia.
  - rewrite zlen_app, zlen_1. lia.
Qed.

Lemma enqueue_spec d a q f :
  ring_rel d a → rx_queue d = Some q → frame_ok f.1 = true → zlen (a_queue a) < a_cap a →
  stats d rx_queue_high_water = a_high a →
  ∃ d', enqueue_frame d q f.1 (zlen f.1) f.2 = Ret d' ∧ ring_rel d' (a_push a f) ∧
    stats d' rx_queue_high_water = a_high (a_push a f) ∧
    stats d' rx_packets = stats d rx_packets ∧ stats d' rx_dropped = stats d rx_dropped.
Proof.
  intros R Hq Hf Hroom Hh. pose proof R as [(q' & Hq' & Hlen & Hdata & Hs) [Hcap1 Hcap2] Hhead Htail [Hc1 Hc2] Hcb Hops Hup].
  simplify_eq. assert (Ht : 0 ≤ rx_tail d < zlen q) by (rewrite Htail, Hlen; apply Z.mod_pos_bound; lia).
  destruct (rd_inbounds q (rx_tail d) Ht) as [s Hrd]. pose proof Hrd as [_ Hlk]%rd_Ret.
  assert (Hsd : zlen (slot_data s) = NET_ETH_MAX_FRAME) by (rewrite Forall_lookup in Hdata; by eapply Hdata).
  pose proof (set_ring_push d a q s f R Hq Hlk Hf Hroom) as HR.
  unfold enqueue_frame. rewrite Hrd. mred. pose proof Hf as Hf'. unfold frame_ok, net_frame_len_ok, NET_ETH_HEADER_LEN in Hf'.
  rewrite memcpy_spec by (rewrite ?Hsd; unfold NET_ETH_MAX_FRAME in *; lia). mred.
  rewrite take_ge by (unfold zlen; lia). rewrite wr_inbounds by done. mred.
  rewrite Hcap1, ring_step by lia. rewrite (wrap_small 16 (rx_count d + 1)) by (unfold NET_RX_BACKLOG in *; pose proof (zlen_nonneg (a_queue a)); lia).
  cbn [set_ring stats rx_count]. eexists. split; [done |].
  destruct (Z.ltb_spec (stats d rx_queue_high_water) (rx_count d + 1)); cbn [a_push a_high].
  - split_and!.
    + eapply ring_rel_same; [exact HR |]. by split.
    + change (rx_count d + 1 = Z.max (a_high a) (zlen (a_queue a) + 1)). lia.
    + done.
    + done.
  - split_and!; [done | change (stats d rx_queue_high_water = Z.max (a_high a) (zlen (a_queue a) + 1)); lia | done | done].
Qed.

Lemma receive_spec d a f w :
  net_rel d a → ∃ d', netdev_receive callback_at (Some d) (Some f.1) (zlen f.1) f.2 w = Ret (a_receive_status a f, Some d', w) ∧
    net_rel d' (a_receive a f).
Proof.
  intros R. unfold netdev_receive, a_receive_status, a_receive, frame_ok.
  destruct (net_frame_len_ok (zlen f.1)) eqn:Hf; cbn [negb]; [| by eexists].
  pose proof R as [Rr Hrec Hdrop [Hh1 Hh2] Hcons].
  pose proof Rr as [(q & Hq & Hlen & Hdata & Hs) [Hcap1 Hcap2] Hhead Htail [Hc1 Hc2] Hcb Hops Hup].
  rewrite Hcb. mred.
  destruct (receive_counts d f.1 f.2) as (d4 & -> & Hsr & H1 & H2 & H3); [unfold net_frame_len_ok in Hf; lia |].
  mred. pose proof (ring_rel_same _ _ _ Rr Hsr) as R4. rewrite (sr_queue _ _ Hsr), Hq.
  rewrite (sr_len _ _ Hsr), (sr_count _ _ Hsr), Hcap1, Hc1.
  assert ((a_cap a =? 0) = false) as -> by lia. cbn [orb]. rewrite Z.leb_antisym.
  destruct (Z.ltb_spec (zlen (a_queue a)) (a_cap a)) as [Hroom|Hroom]; cbn [negb].
  - destruct (enqueue_spec d4 a q f R4) as (d5 & -> & R5 & E1 & E2 & E3); [by rewrite (sr_queue _ _ Hsr) | done | done | by rewrite H3 |].
    mred. eexists. split; [done |].
    split; cbn [a_received a_dropped a_queue a_cap a_high a_taken]; [exact R5 | rewrite E2, H1, Hrec | congruence | rewrite E1; cbn [a_push a_high] | ].
    + unfold wrap. by rewrite Z.add_mod_idemp_l.
    + rewrite zlen_app, zlen_1. lia.
    + rewrite zlen_app, zlen_1. lia.
  - eexists. split; [done |]. split; rewrite ?count_stats; cbn [a_received a_dropped a_queue a_cap a_high a_taken];
      [| rewrite decide_False, H1, Hrec by done | rewrite decide_True, H2, Hdrop by done | rewrite decide_False, H3 by done; done | lia].
    + pose proof (ring_rel_same _ _ _ R4 (count_same_ring d4 rx_dropped 1)) as []. split; done.
    + unfold wrap. by rewrite Z.add_mod_idemp_l.
    + unfold wrap. by rewrite Z.add_mod_idemp_l.
Qed.

Lemma driver_run_spec d w fs d' w' a :
  driver_run d w fs d' w' → net_rel d a → net_rel d' (foldl a_receive a fs).
Proof.
  intros H. revert a. induction H as [|d d1 w w1 fs d2 w2 Hs _ IH|d d1 w w1 f st fs d2 w2 Hr _ IH]; intros a R; simpl; [done | |].
  - apply IH. by eapply net_rel_same.
  - apply IH. destruct (receive_spec d a f w R) as (d' & E & R'). rewrite Hr in E. by simplify_eq.
Qed.

Lemma poll_spec d a w :
  net_rel d a → ∃ d', netdev_poll ops_at (Some d) w = Ret (Some d', (drv_poll w).2) ∧ net_rel d' (foldl a_receive a (drv_poll w).1).
Proof.
  intros R. destruct (law_poll d a w R) as (d1 & E & Hrun). unfold netdev_poll, op. rewrite (nr_ops _ _ _ (nr_ring _ _ _ R)). cbn [mbind option_bind].
  by_law E. eexists. split; [done |]. eapply net_rel_same; [by eapply driver_run_spec |]. apply count_same_core. core.
Qed.

(** Taking the oldest frame. *)
Lemma pop_spec d a :
  net_rel d a →
  ∃ q, rx_queue d = Some q ∧
  if rx_count d =? 0 then a_queue a = [] else
  ∃ slot f m rest, rd q (rx_head d) = Ret slot ∧ a_queue a = (f, m) :: rest ∧ slot_holds slot (f, m) ∧
    zlen (slot_data slot) = NET_ETH_MAX_FRAME ∧ zlen f ≤ NET_ETH_MAX_FRAME ∧
    ring_rel (set_ring d q ((rx_head d + 1) mod rx_queue_len d) (rx_tail d) (rx_count d - 1)) (a_pop a).
Proof.
  intros [R _ _ _ _]. pose proof R as [(q & Hq & Hlen & Hdata & Hs) [Hcap1 Hcap2] Hhead Htail [Hc1 Hc2] Hcb Hops Hup].
  exists q. split; [done |]. destruct (Z.eqb_spec (rx_count d) 0) as [H0|H0].
  { rewrite Hc1 in H0. unfold zlen in H0. destruct (a_queue a); [done | simpl in H0; lia]. }
  pose proof (zlen_nonneg (a_queue a)).
  destruct (circ_pop q (rx_head d) (rx_count d)) as (slot & Hlk & Hcirc); [lia.. |].
  rewrite Hcirc in Hs. apply Forall2_cons_inv_l in Hs as ([f m] & rest & Hsl & Hrest & Hqa).
  assert (Hsd : zlen (slot_data slot) = NET_ETH_MAX_FRAME) by (rewrite Forall_lookup in Hdata; by eapply Hdata).
  exists slot, f, m, rest. split_and!; [by apply rd_Ret; split; [lia |] | done | done | done | |].
  - destruct Hsl as (_ & _ & E). apply (f_equal length) in E. rewrite length_take in E. unfold zlen in *. cbn in E. lia.
  - unfold a_pop. rewrite Hqa in *. rewrite zlen_cons in *. rewrite Hcap1.
    split; cbn [set_ring rx_queue rx_head rx_tail rx_count rx_queue_len rx_callback ops a_cap a_queue a_up]; try done.
    + exists q. split_and!; [done.. |]. by rewrite <- Hlen.
    + apply Z.mod_pos_bound. lia.
    + rewrite Z.add_mod_idemp_l by lia. rewrite Htail. f_equal. lia.
    + lia.
Qed.

Lemma ring_rel_counters d d' a : ring_rel d a → (∀ s, d' = set_stats d s → ring_rel d' a).
Proof. intros [] s ->. by split. Qed.

Lemma read_spec d a (b : list Z) size w :
  net_rel d a → 0 ≤ size ≤ zlen b →
  let a1 := foldl a_receive a (drv_poll w).1 in
  ∃ d', netdev_read_frame ops_at (Some d) (Some b) size w = Ret (NET_OK, a_read a1 b size, Some d', (drv_poll w).2) ∧ net_rel d' (a_pop a1).
Proof.
  intros R Hsize a1. unfold netdev_read_frame. rewrite andb_false_r. cbn [orb].
  destruct (poll_spec d a w R) as (d1 & -> & R1). fold a1 in R1. mred.
  destruct (pop_spec d1 a1 R1) as (q & -> & Hq). unfold a_read. pose proof R1 as [Rr Hrec Hdrop Hh Hcons].
  destruct (Z.eqb_spec (rx_count d1) 0).
  { rewrite Hq. eexists. split; [done |]. unfold a_pop. by rewrite Hq. }
  destruct Hq as (slot & f & m & rest & -> & Hqa & (Hl & Hm & Hd) & Hsd & Hf & Rr'). rewrite Hqa. cbn [fst snd] in *. mred.
  pose proof Rr as [_ [Hcap1 Hcap2] Hhead _ [Hc1 Hc2] _ _ _]. rewrite Hqa, zlen_cons in Hc1, Hc2. pose proof (zlen_nonneg rest).
  pose proof (zlen_nonneg f). rewrite Hl.
  assert (Htk : ∀ k, 0 ≤ k ≤ size → k ≤ zlen f → (if negb (k =? 0) then b' ← memcpy b (slot_data slot) k; Ret (Some b') else Ret (Some b))
    = Ret (Some (blit b 0 (take (Z.to_nat k) f)))).
  { intros k Hk1 Hk2. destruct (Z.eqb_spec k 0) as [->|]; cbn [negb].
    - change (Z.to_nat 0) with O. rewrite take_0. by rewrite blit_nil by lia.
    - rewrite memcpy_spec by lia. mred. do 3 f_equal. transitivity (take (Z.to_nat k) (take (length f) (slot_data slot))); [| by rewrite Hd].
      rewrite take_take. f_equal. unfold zlen in *. lia. }
  assert (Hfin : ∀ d2 : net_device_t, (∃ s, d2 = set_stats d1 s ∧ ∀ c, c ∈ core_counters → s c = stats d1 c) →
    net_rel (set_ring d2 q (wrap16 (wrap32 (rx_head d2 + 1) mod rx_queue_len d2)) (rx_tail d2) (wrap16 (rx_count d2 - 1))) (a_pop a1)).
  { intros d2 (s & -> & Hstats). cbn [set_stats rx_head rx_tail rx_count rx_queue_len].
    rewrite Hcap1, ring_step by lia. rewrite (wrap_small 16) by (unfold NET_RX_BACKLOG in *; lia). rewrite <- Hcap1.
    split; [eapply ring_rel_counters; [exact Rr' | done] | ..]; cbn [set_ring set_stats stats]; rewrite ?Hstats by core;
      unfold a_pop; rewrite ?Hqa in *; cbn [a_received a_dropped a_queue a_cap a_high a_taken]; rewrite ?zlen_cons in *; (done || lia). }
  destruct (Z.ltb_spec size (zlen f)).
  - rewrite Htk by lia. mred. rewrite Z.min_l by lia. rewrite Hm. eexists. split; [done |]. apply Hfin. eexists. split; [done |].
    intros c Hc. unfold add_counter, set_counter. rewrite decide_False; [done |]. intros ->. revert Hc. core.
  - rewrite Htk by lia. mred. rewrite Z.min_r by lia. rewrite Hm, (take_ge f (Z.to_nat (zlen f))) by (unfold zlen; lia).
    rewrite take_ge by (unfold zlen in *; lia). eexists. split; [done |]. apply Hfin. exists (stats d1). split; [by destruct d1 | done].
Qed.

Lemma has_up_bit d : has d NETDEV_F_UP = Z.testbit (flags d) 0.
Proof.
  unfold has, NETDEV_F_UP. pose proof (land_1_testbit (flags d) 0 ltac:(lia)) as E. rewrite Z.shiftr_0_r in E. rewrite E.
  by destruct (Z.testbit (flags d) 0).
Qed.

Lemma set_flags_rel d a f : net_rel d a → net_rel (set_flags d f) (a_set_up a (Z.testbit f 0)).
Proof. intros [[] ? ? ? ?]. split; [split |..]; try done. by rewrite has_up_bit. Qed.

Lemma a_set_up_id a : a_set_up a (a_up a) = a.
Proof. by destruct a. Qed.

Lemma set_link_rel d a up sp du : net_rel d a → ∃ d', netdev_set_link (Some d) up sp du = Some d' ∧ net_rel d' a.
Proof.
  intros R. unfold netdev_set_link. eexists. split; [done |].
  assert (Hup : ∀ f, Z.testbit f 0 = Z.testbit (flags d) 0 → net_rel (set_speed (set_flags d f) (if up then sp else 0) (if up then du else 0)) a).
  { intros f Hf. apply (net_rel_same (set_flags d f)); [| by split; [split |]].
    pose proof (set_flags_rel d a f R) as R'. by rewrite Hf, <- has_up_bit, (nr_up _ _ _ (nr_ring _ _ _ R)), a_set_up_id in R'. }
  set (d1 := set_speed _ _ _). assert (R1 : net_rel d1 a).
  { subst d1. destruct up; apply Hup; [rewrite Z.lor_spec | rewrite Z.land_spec]; cbn; [apply orb_false_r | apply andb_true_r]. }
  destruct (negb _); [| exact R1]. eapply net_rel_same; [exact R1 |]. apply count_same_core. core.
Qed.

Lemma send_counts d st len : same_core d
  match st with NET_OK => count (count d tx_packets 1) tx_bytes len | NET_ERR_BUSY => count d tx_busy 1 | _ => count d tx_errors 1 end.
Proof.
  assert (H : ∀ d2, same_core d d2 → same_core d (count d2 tx_bytes len)).
  { intros d2 [H1 H2]. split; [by eapply same_ring_trans; [| apply count_same_ring] |]. intros c Hc.
    rewrite count_stats, decide_False by (intros ->; revert Hc; core). by apply H2. }
  destruct st; try (apply count_same_core; core). apply H, count_same_core. core.
Qed.

Lemma write_spec d a f w :
  net_rel d a → ∃ d' st n a' w', netdev_write_frame ops_at (Some d) (Some f) (zlen f) w = Ret (st, n, Some d', w') ∧
    an_step a w (NWrite f) = (a', w', OWritten st n) ∧ net_rel d' a'.
Proof.
  intros R. unfold netdev_write_frame, netdev_send, an_step, frame_ok.
  destruct (net_frame_len_ok (zlen f)); cbn [negb]; [| by eexists _, _, _, _, _; mred].
  rewrite (nr_up _ _ _ (nr_ring _ _ _ R)). destruct (a_up a); cbn [negb]; [| by eexists _, _, _, _, _; mred].
  destruct (law_transmit d f w) as (tr & d1 & Ht & E & Hs). unfold op. rewrite (nr_ops _ _ _ (nr_ring _ _ _ R)).
  cbn [mbind option_bind]. rewrite Ht. rewrite res_bind_assoc. by_law E.
  destruct (drv_transmit w f) as [st w']. cbn [fst snd]. eexists _, _, _, _, _. split; [done |]. split; [done |].
  eapply net_rel_same; [exact (net_rel_same _ _ _ R Hs) | apply send_counts].
Qed.

Lemma step_simulates d a w x :
  net_rel d a → net_op_ok x →
  let '(a', w', ob) := an_step a w x in ∃ d', net_step d w x = Ret (Some d', w', ob) ∧ net_rel d' a'.
Proof.
  intros R Hx. destruct x as [f| |b size|f| | |up sp du]; cbn [net_step].
  - destruct (receive_spec d a f w R) as (d' & E & R'). cbn [an_step]. rewrite E. mred. eauto.
  - destruct (poll_spec d a w R) as (d' & E & R'). cbn [an_step]. rewrite E. mred. eauto.
  - destruct (read_spec d a b size w R Hx) as (d' & E & R'). cbn [an_step]. rewrite E. mred. eauto.
  - destruct (write_spec d a f w R) as (d' & st & n & a' & w' & E1 & E2 & R'). rewrite E2, E1. mred. eauto.
  - destruct (law_open d w) as (d1 & E & Hs). cbn [an_step]. unfold netdev_open, op. rewrite (nr_ops _ _ _ (nr_ring _ _ _ R)).
    cbn [mbind option_bind]. by_law E. pose proof (net_rel_same _ _ _ R Hs) as R1.
    destruct (drv_open w) as [st w']. cbn [fst snd]. eexists. split; [done |]. case_decide; [| done].
    pose proof (set_flags_rel d1 a (Z.lor (flags d1) NETDEV_F_UP) R1) as R2. by rewrite Z.lor_spec, orb_true_r in R2.
  - destruct (law_close d w) as (d1 & E & Hs). cbn [an_step]. unfold netdev_close, op. rewrite (nr_ops _ _ _ (nr_ring _ _ _ R)).
    cbn [mbind option_bind]. by_law E. pose proof (net_rel_same _ _ _ R Hs) as R1. eexists. split; [done |].
    pose proof (set_flags_rel d1 a (Z.land (flags d1) (lnot_w 32 (Z.lor NETDEV_F_UP NETDEV_F_RUNNING))) R1) as R2.
    by rewrite Z.land_spec, andb_false_r in R2.
  - destruct (set_link_rel d a up sp du R) as (d' & -> & R'). cbn [an_step]. eauto.
Qed.

Lemma run_simulates d a w l :
  net_rel d a → Forall net_op_ok l →
  let '(a', w', obs) := an_run a w l in ∃ d', net_run d w l = Ret (d', w', obs) ∧ net_rel d' a'.
Proof.
  revert d a w. induction l as [|x l IH]; intros d a w R Hl; cbn [an_run net_run]; [eauto |].
  apply Forall_cons in Hl as [Hx Hl]. pose proof (step_simulates d a w x R Hx) as Hs.
  destruct (an_step a w x) as [[a1 w1] ob]. destruct Hs as (d1 & -> & R1). mred.
  specialize (IH d1 a1 w1 R1 Hl). destruct (an_run a1 w1 l) as [[a2 w2] obs]. destruct IH as (d2 & -> & R2). mred. eauto.
Qed.

End refinement.

(** ** Registration *)

Definition hex2 (b : Z) : list Z := map (λ n, default 0 (digit_map false !! Z.to_nat n)) [b / 16; b mod 16].

Definition mac_text (m : list Z) : list Z :=
  match m with
  | [b0; b1; b2; b3; b4; b5] => hex2 b0 ++ 58 :: hex2 b1 ++ 58 :: hex2 b2 ++ 58 :: hex2 b3 ++ 58 :: hex2 b4 ++ 58 :: hex2 b5
  | _ => []
  end.

Lemma uint_text_hex2 b : is_u8 b → uint_text b 16 false 2 true = hex2 b.
Proof.
  intros Hb. assert (H : Forall (λ n, uint_text n 16 false 2 true = hex2 n) (seqZ 0 256)).
  { apply (bool_decide_unpack _). vm_compute. exact I. }
  rewrite Forall_forall in H. apply H. apply elem_of_seqZ. ulia.
Qed.

Lemma hex2_nonul b : is_u8 b → nonul (hex2 b).
Proof.
  intros Hb. assert (H : Forall (λ n, nonul (hex2 n)) (seqZ 0 256)).
  { apply (bool_decide_unpack _). vm_compute. exact I. }
  rewrite Forall_forall in H. apply H. apply elem_of_seqZ. ulia.
Qed.

Lemma mac_text_nonul m : Forall is_u8 m → nonul (mac_text m).
Proof.
  intros H. unfold mac_text. do 6 (destruct m as [|? m]; [constructor |]). destruct m; [| constructor].
  repeat (apply Forall_cons in H as [? H]). unfold nonul.
  repeat first [apply Forall_app; split | by apply hex2_nonul | constructor; [done |]].
Qed.

Lemma format_02x k p b r :
  is_u8 b → format_text_from (S k) (37 :: 48 :: 50 :: 120 :: p) (VInt b :: r) = (t ← format_text_from k p r; Ret (hex2 b ++ t)).
Proof.
  intros Hb. rewrite <- uint_text_hex2 by done. change (drop 1 (120 :: p)) with p. reflexivity.
Qed.

Lemma mac_format b0 b1 b2 b3 b4 b5 :
  Forall is_u8 [b0; b1; b2; b3; b4; b5] →
  format_text (Some (lit "%02x:%02x:%02x:%02x:%02x:%02x")) [VInt b0; VInt b1; VInt b2; VInt b3; VInt b4; VInt b5] =
    Ret (mac_text [b0; b1; b2; b3; b4; b5]).
Proof.
  intros H. repeat (apply Forall_cons in H as [? H]).
  change (lit "%02x:%02x:%02x:%02x:%02x:%02x") with
    [37; 48; 50; 120; 58; 37; 48; 50; 120; 58; 37; 48; 50; 120; 58; 37; 48; 50; 120; 58; 37; 48; 50; 120; 58; 37; 48; 50; 120; 0].
  cbn [format_text length]. do 5 (rewrite format_02x by done; rewrite format_char by done). rewrite format_02x by done.
  change (format_text_from 20 [0] []) with (@Ret (list Z) []). mred. unfold mac_text. by rewrite app_nil_r.
Qed.

Lemma u8_vint b : is_u8 b → varg_ok (VInt b).
Proof. unfold varg_ok. ulia. Qed.

Lemma net_format_mac_spec m out out_len :
  zlen m = NET_ETH_ADDR_LEN → Forall is_u8 m → 0 < out_len ≤ U64MAX → out_len ≤ zlen out →
  net_format_mac (Some m) (Some out) out_len = Ret (Some (blit out 0 (take (Z.to_nat (out_len - 1)) (mac_text m) ++ [0]))).
Proof.
  intros Hl Hm Ho Hout. do 6 (destruct m as [|? m]; [discriminate |]). destruct m; [| unfold zlen, NET_ETH_ADDR_LEN in Hl; cbn [length] in Hl; lia].
  unfold net_format_mac. destruct (Z.eqb_spec out_len 0); [lia |].
  change (rd [z; z0; z1; z2; z3; z4] 0) with (Ret z). change (rd [z; z0; z1; z2; z3; z4] 1) with (Ret z0).
  change (rd [z; z0; z1; z2; z3; z4] 2) with (Ret z1). change (rd [z; z0; z1; z2; z3; z4] 3) with (Ret z2).
  change (rd [z; z0; z1; z2; z3; z4] 4) with (Ret z3). change (rd [z; z0; z1; z2; z3; z4] 5) with (Ret z4).
  mred. unfold ksnprintf. erewrite kvsnprintf_spec; [| lia | done | | by apply mac_format].
  - mred. destruct (Z.eqb_spec out_len 0); [lia | done].
  - repeat (apply Forall_cons in Hm as [? Hm]). repeat (constructor; [by apply u8_vint |]). constructor.
Qed.

Lemma mac_buffer_cstr m macbuf n :
  Forall is_u8 m → cstr_at (blit macbuf 0 (take n (mac_text m) ++ [0])) (take n (mac_text m)).
Proof.
  intros H. unfold blit. rewrite take_0, <- app_assoc. split; [| by eexists]. by apply Forall_take, mac_text_nonul.
Qed.

(** The registry holds the addresses [ps] in order; before the first use it counts
    as empty. *)
Definition reg_view (s : net_state) : net_state := if negb (net_ready s) then net_init s else s.

Definition reg_ok (s : net_state) (ps : list Z) : Prop :=
  zlen ps ≤ NET_MAX_DEVS ∧ NoDup ps ∧ net_device_count (reg_view s) = zlen ps ∧
  net_devices (reg_view s) = map Some ps ++ replicate (4 - length ps) None.

Lemma reg_view_ready s : net_ready (reg_view s) = true.
Proof. unfold reg_view. destruct (net_ready s) eqn:E; done. Qed.

(** The name a device gets when it brings none. *)
Definition default_name (d : net_device_t) (index : Z) : list Z :=
  if bool_decide (name d !! 0%nat = Some 0) then blit (name d) 0 (bytes_of "net" ++ [48 + index; 0]) else name d.

Record filled_in (d d1 : net_device_t) (index : Z) : Prop := {
  fi_name : name d1 = default_name d index;
  fi_driver : driver d1 = driver d;
  fi_mac : mac d1 = mac d;
  fi_mtu : mtu d1 = Z.min (max_mtu d) (if mtu d =? 0 then 1500 else mtu d);
  fi_rx : rx_queue_len d1 = (if (1 <=? rx_queue_len d) && (rx_queue_len d <=? NET_RX_BACKLOG) then rx_queue_len d else NET_RX_BACKLOG);
  fi_tx : tx_queue_len d1 = (if tx_queue_len d =? 0 then 64 else tx_queue_len d);
  fi_ring : rx_head d1 = rx_head d ∧ rx_tail d1 = rx_tail d ∧ rx_count d1 = rx_count d ∧ rx_callback d1 = rx_callback d;
  fi_rest : ops d1 = ops d ∧ flags d1 = flags d ∧ caps d1 = caps d ∧ stats d1 = stats d;
}.

Lemma register_defaults_spec d index :
  zlen (name d) = NET_NAME_LEN → 0 ≤ index < NET_MAX_DEVS → 0 ≤ rx_queue_len d →
  ∃ d1, register_defaults d index = Ret d1 ∧ filled_in d d1 index.
Proof.
  intros Hn Hi Hr. unfold register_defaults. destruct (rd_inbounds (name d) 0) as [c Hc]; [by rewrite Hn |]. rewrite Hc. mred.
  apply rd_Ret in Hc as [_ Hc]. change (Z.to_nat 0) with O in Hc.
  assert (∃ nm, (if c =? 0 then '(b, _) ← ksnprintf (Some (name d)) NET_NAME_LEN (Some (lit "net%llu")) [VLong index]; Ret (default [] b)
        else Ret (name d)) = Ret nm ∧ nm = default_name d index) as (nm & -> & ->).
  { unfold default_name. rewrite Hc. destruct (Z.eqb_spec c 0) as [->|Hne].
    - rewrite bool_decide_true by done. unfold ksnprintf.
      rewrite (kvsnprintf_spec (name d) NET_NAME_LEN _ _ (bytes_of "net" ++ [48 + index])).
      + mred. eexists. split; reflexivity.
      + vm_compute. split; congruence.
      + by rewrite Hn.
      + constructor; [| done]. unfold varg_ok, NET_MAX_DEVS in *. ulia.
      + assert (index = 0 ∨ index = 1 ∨ index = 2 ∨ index = 3) as [->|[->|[->| ->]]] by (unfold NET_MAX_DEVS in *; lia); reflexivity.
    - rewrite bool_decide_false by congruence. eauto. }
  mred. eexists. split; [done |]. split; try done; cbn [mtu rx_queue_len].
  - destruct (Z.eqb_spec (mtu d) 0); case_match eqn:E; lia.
  - unfold NET_RX_BACKLOG. destruct (Z.eqb_spec (rx_queue_len d) 0), (Z.ltb_spec 64 (rx_queue_len d)), (Z.leb_spec 1 (rx_queue_len d)), (Z.leb_spec (rx_queue_len d) 64); cbn [orb andb]; lia.
Qed.

Section registration.
Context {W : Type} (ops_at : Z → @net_device_ops_t W).

Definition acceptable (d : net_device_t) : bool :=
  match op ops_at d op_transmit, driver d with Some _, Some _ => 576 <=? max_mtu d | _, _ => false end.

Lemma register_scan_spec s (ps : list Z) p (body : Z → unit → res (ctl unit unit)) :
  net_devices s = map Some ps ++ replicate (4 - length ps) None →
  (∀ i u, body i u = (q ← rd (net_devices s) i; if decide (q = Some p) then Ret (Done tt) else Ret (Next tt))) →
  loop_n (length ps) 0 body tt = Ret (if decide (p ∈ ps) then Done tt else Next tt).
Proof.
  intros Hs Hb.
  destruct (loop_find ps (λ _ x, if decide (x = p) then Some tt else None) body) as [(k & x & [] & Hk & Hg & -> & _)|[-> Hnone]].
  - intros k x Hk. rewrite Hb, Hs, rd_nat, lookup_app_l by (rewrite length_map; by eapply lookup_lt_Some).
    rewrite list_lookup_fmap, Hk. cbn. repeat case_decide; try done; congruence.
  - case_decide; [subst x | done]. rewrite decide_True; [done |]. by eapply list_elem_of_lookup_2.
  - rewrite decide_False; [done |]. intros [k Hk]%list_elem_of_lookup_1. specialize (Hnone k p Hk). by rewrite decide_True in Hnone.
Qed.

Lemma register_append (ps : list Z) p :
  zlen ps < NET_MAX_DEVS →
  wr (map Some ps ++ replicate (4 - length ps) None) (zlen ps) (Some p) = Ret (map Some (ps ++ [p]) ++ replicate (4 - length (ps ++ [p])) None).
Proof.
  intros Hl. replace (zlen ps) with (zlen (map Some ps)) by (unfold zlen; by rewrite length_map).
  assert (length ps < 4)%nat by (unfold zlen, NET_MAX_DEVS in Hl; lia). destruct (4 - length ps)%nat as [|k] eqn:E; [lia |].
  rewrite wr_middle by done. rewrite map_app, length_app. cbn [length map replicate drop].
  rewrite <- app_assoc. replace (4 - (length ps + 1))%nat with k by lia. by rewrite drop_0.
Qed.

(** What [netdev_register] does with device [d] at address [p] when the registry
    holds [ps]. *)
Definition register_outcome (s : net_state) (ps : list Z) (p : Z) (d : net_device_t) (mem : bool)
    (st : net_status_t) (s' : net_state) (d' : net_device_t) (log : list klog_call) : Prop :=
  if negb (acceptable d) then st = NET_ERR_INVAL ∧ s' = s ∧ d' = d ∧ log = []
  else if bool_decide (zlen ps = NET_MAX_DEVS ∨ p ∈ ps) then st = NET_ERR_BUSY ∧ s' = reg_view s ∧ d' = d ∧ log = []
  else ∃ d1, filled_in d d1 (zlen ps) ∧
    if mem then
      st = NET_OK ∧ reg_ok s' (ps ++ [p]) ∧ netdev_get s' (zlen ps) = Ret (Some p) ∧ netdev_count s' = zlen ps + 1 ∧
      d' = set_rx_queue d1 (Some (replicate (Z.to_nat (rx_queue_len d1)) zero_slot)) ∧
      ((∃ n, cstr_at (name d') n) → (∃ n, cstr_at (default [] (driver d)) n) →
        ∃ e txt, log = [e] ∧ format_text (Some (klog_fmt e)) (klog_args e) = Ret txt)
    else st = NET_ERR_NOMEM ∧ s' = reg_view s ∧ d' = set_rx_queue d1 None ∧ log = [].

Record device_ok (d : net_device_t) : Prop := {
  do_name : zlen (name d) = NET_NAME_LEN;
  do_mac : zlen (mac d) = NET_ETH_ADDR_LEN ∧ Forall is_u8 (mac d);
  do_rx : 0 ≤ rx_queue_len d;
}.

Lemma netdev_register_spec s ps p d mem macbuf :
  reg_ok s ps → device_ok d → 24 ≤ zlen macbuf →
  ∃ st s' d' log, netdev_register ops_at s (Some (p, d)) mem macbuf = Ret (st, Some (s', d', log)) ∧
    register_outcome s ps p d mem st s' d' log.
Proof.
  intros (Hlen & Hnd & Hcnt & Hdev) [Hn [Hm Hm8] Hrx] Hbuf. unfold netdev_register, register_outcome, acceptable.
  destruct (op ops_at d op_transmit) as [tr|]; [| eexists _, _, _, _; by split].
  destruct (driver d) as [drv|] eqn:Hdrv; [| eexists _, _, _, _; by split].
  rewrite (Z.leb_antisym (max_mtu d) 576). destruct (max_mtu d <? 576); cbn [negb]; [eexists _, _, _, _; by split |].
  fold (reg_view s). rewrite Hcnt. destruct (Z.leb_spec NET_MAX_DEVS (zlen ps)).
  { eexists _, _, _, _. split; [done |]. rewrite bool_decide_true by (left; lia). done. }
  replace (Z.to_nat (zlen ps)) with (length ps) by (unfold zlen; lia).
  rewrite (register_scan_spec (reg_view s) ps p _ Hdev (λ _ _, eq_refl)). mred.
  destruct (decide (p ∈ ps)).
  { eexists _, _, _, _. split; [done |]. rewrite bool_decide_true by auto. done. }
  rewrite bool_decide_false by (intros [?|?]; [lia | done]).
  destruct (register_defaults_spec d (zlen ps)) as (d1 & -> & Hd1); [done | unfold zlen in *; lia | done |]. mred.
  destruct mem; cbn [negb]; [| by eexists _, _, _, _; split; [done |]; exists d1].
  rewrite Hdev, (register_append ps p) by done. mred. cbn [set_rx_queue mac]. rewrite (fi_mac _ _ _ Hd1).
  rewrite net_format_mac_spec by (done || ulia). mred.
  eexists _, _, _, _. split; [done |]. exists d1. split; [done |]. split; [done |]. split_and!.
  - rewrite reg_view_ready. split_and!; [rewrite zlen_app, zlen_1; lia | | by rewrite zlen_app, zlen_1 | done].
    apply NoDup_app. split_and!; [done | by intros x Hx ->%list_elem_of_singleton | apply NoDup_singleton].
  - unfold netdev_get. cbn [net_device_count net_devices]. destruct (Z.ltb_spec (zlen ps) (zlen ps + 1)); [| lia].
    apply rd_Ret. split; [apply zlen_nonneg |]. unfold zlen. rewrite Nat2Z.id, lookup_app_l by (rewrite length_map, length_app; simpl; lia).
    rewrite list_lookup_fmap, lookup_app_r, Nat.sub_diag by lia. done.
  - done.
  - done.
  - intros Hname Hdr. eexists. cbn [klog_fmt klog_args].
    destruct (format_text_typed (lit "registered %s driver=%s mac=%s mtu=%u caps=0x%x") [KStr; KStr; KStr; KInt; KInt]
      [VStr (Some (name d1)); VStr (Some drv); VStr (Some (blit macbuf 0 (take (Z.to_nat (24 - 1)) (mac_text (mac d)) ++ [0]))); VInt (mtu d1); VInt (caps d1)])
      as [txt Htxt]; [reflexivity | | by exists txt].
    repeat (constructor; [try exact I |]); [exact Hname | exact Hdr | | constructor].
    eexists. by apply mac_buffer_cstr.
Qed.

(** Registration either refuses a device and leaves it alone (an unusable
    device, a full registry, a device already there), reports that there is no
    memory, or appends the address to the registry under the next number, fills in
    the defaults (a name, a transfer unit not above the device's maximum, a queue of
    1 to 64 frames) and gives it an empty queue.  The message it logs is well
    formed. *)
Theorem netdev_register_correct s ps p d mem macbuf :
  reg_ok s ps → device_ok d → 24 ≤ zlen macbuf →
  ∃ st s' d' log, netdev_register ops_at s (Some (p, d)) mem macbuf = Ret (st, Some (s', d', log)) ∧
    register_outcome s ps p d mem st s' d' log.
Proof. apply netdev_register_spec. Qed.

(** A device structure as a driver hands it in. *)
Definition fresh_device (d : net_device_t) : Prop :=
  rx_head d = 0 ∧ rx_tail d = 0 ∧ rx_count d = 0 ∧ rx_callback d = None ∧ has d NETDEV_F_UP = false ∧
  ∀ c, c ∈ core_counters → stats d c = 0.

Definition a_empty (cap : Z) : anet := mk_anet [] cap false 0 0 0 0.

Lemma registered_rel d d1 o index :
  fresh_device d → ops d = Some o → filled_in d d1 index →
  net_rel o (set_rx_queue d1 (Some (replicate (Z.to_nat (rx_queue_len d1)) zero_slot))) (a_empty (rx_queue_len d1)).
Proof.
  intros (Hh & Ht & Hc & Hcb & Hup & Hs) Ho [_ _ _ _ Hrx _ (E1 & E2 & E3 & E4) (E5 & E6 & _ & E8)].
  assert (Hcap : 0 < rx_queue_len d1 ≤ NET_RX_BACKLOG).
  { rewrite Hrx. unfold NET_RX_BACKLOG. destruct (Z.leb_spec 1 (rx_queue_len d)), (Z.leb_spec (rx_queue_len d) 64); simpl; lia. }
  split; cbn [set_rx_queue stats]; rewrite ?E8, ?Hs by core; try done; [| split; [done |]; cbn [a_empty a_queue a_high a_cap]; rewrite zlen_nil; lia].
  split; cbn [set_rx_queue rx_queue rx_head rx_tail rx_count rx_queue_len rx_callback ops a_empty a_cap a_queue a_up]; try congruence.
  - eexists. rewrite zlen_replicate. split_and!; [done | lia | | rewrite E3, Hc; constructor].
    apply Forall_replicate. unfold zero_slot. cbn [slot_data]. rewrite zlen_replicate. done.
  - done.
  - lia.
  - rewrite E1, E2, E3, Hh, Ht, Hc. by rewrite Z.mod_0_l by lia.
  - rewrite zlen_nil. lia.
  - by rewrite has_up_bit in *; cbn [set_rx_queue flags]; rewrite E6.
Qed.

End registration.

(** ** The status report *)

Section report.
Context {W : Type} (ops_at : Z → @net_device_ops_t W).

Definition is_u64s (s : net_stats_t) : Prop := ∀ c, is_u64 (s c).

(** What the report needs of a device: proper strings and machine words. *)
Record report_ok (d : net_device_t) : Prop := {
  ro_name : (∃ n, cstr_at (name d) n) ∧ zlen (name d) ≤ U64MAX;
  ro_driver : match driver d with Some s => (∃ n, cstr_at s n) ∧ zlen s ≤ U64MAX | None => True end;
  ro_mac : zlen (mac d) = NET_ETH_ADDR_LEN ∧ Forall is_u8 (mac d);
  ro_words : Forall is_u32 [mtu d; max_mtu d; flags d; caps d; link_speed_mbps d; link_duplex d; rx_count d; rx_queue_len d; tx_queue_len d];
  ro_stats : is_u64s (stats d);
}.

(** The driver functions the report calls keep that up; [format_driver] stays in
    the room it is given and leaves a terminated text there. *)
Class NetReporter := {
  law_update_link : ∀ o f d w, op_update_link (ops_at o) = Some f → report_ok d → ∃ d' w', f d w = Ret (tt, d', w') ∧ report_ok d';
  law_format_driver : ∀ o f d b room w, op_format_driver (ops_at o) = Some f → report_ok d → 0 < room ≤ zlen b → 0 ∈ take (Z.to_nat room) b →
    ∃ b' d' w', f d b room w = Ret (b', d', w') ∧ zlen b' = zlen b ∧ 0 ∈ take (Z.to_nat room) b' ∧ report_ok d';
}.

Context `{rep : !NetReporter}.
Context (b0 : list Z) (cap : Z) (Hcap : 0 < cap ≤ 2 ^ 31) (Hb0 : zlen b0 = cap).

Lemma counters_ok d cs : is_u64s (stats d) → Forall varg_ok (counters d cs).
Proof. intros H. unfold counters. induction cs as [|c cs IH]; constructor; [apply H | done]. Qed.

Lemma counters_kinds d cs : Forall2 has_kind (counters d cs) (replicate (length cs) KLong).
Proof. induction cs; constructor; done. Qed.

Lemma status_lines_spec bo t d macbuf :
  buf_holds b0 cap bo t → report_ok d → zlen macbuf = 24 →
  ∃ bo' t', status_lines bo d macbuf = Ret bo' ∧ buf_holds b0 cap bo' t'.
Proof.
  intros Hh [[[n Hn] Hn2] Hd [Hm1 Hm2] Hw Hs] Hbuf. unfold status_lines.
  rewrite net_format_mac_spec by (done || ulia). mred. set (text := blit _ _ _).
  assert (Ht : (∃ n, cstr_at text n) ∧ zlen text ≤ U64MAX).
  { split; [eexists; apply mac_buffer_cstr; done |]. unfold text. rewrite blit_zlen; [ulia |].
    unfold zlen in *. rewrite length_app, length_take. cbn [length]. lia. }
  repeat (apply Forall_cons in Hw as [? Hw]).
  match goal with |- context [rabbitbone_buf_appendf bo (Some ?f) ?a] =>
    destruct (append_typed b0 cap Hcap Hb0 bo t f a [KStr; KStr; KStr; KInt; KInt; KInt; KInt; KInt; KInt; KInt; KInt; KInt; KInt] Hh) as (bo1 & t1 & -> & Hh1) end.
  { repeat (apply Forall_cons; split); try done; [by destruct (driver d) as [?|]; [destruct Hd |] | by destruct Ht |].
    unfold link_word, varg_ok. destruct (has d NETDEV_F_LINK_UP); ulia. }
  { reflexivity. }
  { repeat (constructor; [try done |]); try constructor; [by exists n | by destruct (driver d) as [?|]; [destruct Hd |] | by destruct Ht]. }
  mred. match goal with |- context [rabbitbone_buf_appendf bo1 (Some ?f) ?a] =>
    destruct (append_typed b0 cap Hcap Hb0 bo1 t1 f a (replicate 7 KLong) Hh1) as (bo2 & t2 & -> & Hh2) end;
    [by apply counters_ok | reflexivity | apply counters_kinds |].
  mred. eapply append_typed; [exact Hcap | exact Hb0 | exact Hh2 | by apply counters_ok | reflexivity | apply counters_kinds].
Qed.

(** Any terminated text of the right size is a state of the accumulator. *)
Lemma buf_holds_found b : zlen b = cap → 0 ∈ b → ∃ n t, strnlen (Some b) cap = Ret n ∧ buf_holds b0 cap (mk_bufout (Some b) cap n) t.
Proof.
  intros Hb H0. destruct (cstr_found b (length b)) as (s & Hs & Hl); [by rewrite take_ge |].
  change (Z.of_nat (length b)) with (zlen b) in Hl. rewrite Hb in Hl. pose proof (zlen_nonneg s).
  exists (zlen s), s. rewrite (strnlen_spec b s) by (done || lia). split; [f_equal; lia |].
  destruct Hs as [_ [rest ->]]. split_and!; [done | cbn [bo_used]; lia |]. exists rest. rewrite take_ge by (unfold zlen in *; lia).
  by rewrite Hb0.
Qed.

Lemma status_driver_spec bo t d w :
  buf_holds b0 cap bo t → report_ok d →
  ∃ bo' d' w' t', status_driver ops_at bo d w = Ret (bo', d', w') ∧ buf_holds b0 cap bo' t' ∧ report_ok d'.
Proof.
  intros (Hc & Hu & junk & Hb & Hz) Hd. set (pre := take (Z.to_nat (cap - 1)) t) in *. unfold status_driver, op.
  assert (Hpre : zlen pre = bo_used bo) by (unfold pre; rewrite (zlen_trunc b0 cap Hcap); lia). pose proof (zlen_nonneg t).
  assert (Hfin : ∀ b' d' (w' : W), zlen b' = cap → 0 ∈ b' → report_ok d' → ∃ bo' d2 w2 t',
    (n ← strnlen (Some b') (bo_cap bo); Ret (mk_bufout (Some b') (bo_cap bo) n, d', w')) = Ret (bo', d2, w2) ∧ buf_holds b0 cap bo' t' ∧ report_ok d2).
  { intros b' d' w' Hb' H0 Hd'. rewrite Hc. destruct (buf_holds_found b' Hb' H0) as (n & t' & -> & Hh). mred. eauto 10. }
  assert (Hsame : ∃ bo' d2 w2 t', (n ← strnlen (bo_buf bo) (bo_cap bo); Ret (mk_bufout (bo_buf bo) (bo_cap bo) n, d, w)) = Ret (bo', d2, w2) ∧
    buf_holds b0 cap bo' t' ∧ report_ok d2).
  { rewrite Hb. apply Hfin; [lia | apply elem_of_app; right; apply list_elem_of_here | done]. }
  destruct (ops d) as [o|]; cbn [mbind option_bind]; [| exact Hsame].
  destruct (op_format_driver (ops_at o)) as [f|] eqn:Hop; [| exact Hsame]. rewrite Hb, Hc.
  destruct (Z.ltb_spec (bo_used bo) cap); [| lia].
  assert (Hlen : Z.to_nat (bo_used bo) = length pre) by (unfold zlen in *; lia).
  rewrite Hlen, drop_app_length, take_app_length. rewrite zlen_app in Hz.
  destruct (law_format_driver o f d (0 :: junk) (cap - bo_used bo) w Hop Hd) as (b' & d' & w' & -> & Hl' & H0' & Hd').
  { lia. } { destruct (Z.to_nat (cap - bo_used bo)) eqn:E; [lia |]. cbn [take]. apply list_elem_of_here. }
  mred. cbn [bo_buf bo_cap]. rewrite Hc in Hfin. apply Hfin; [rewrite zlen_app; lia | | done].
  apply elem_of_app. right. rewrite <- (take_drop (Z.to_nat (cap - bo_used bo)) b'). apply elem_of_app. by left.
Qed.

Lemma status_device_spec macbuf p bo t heap d w :
  buf_holds b0 cap bo t → zlen macbuf = 24 → heap !! p = Some d → report_ok d →
  ∃ bo' d' w' t', status_device ops_at macbuf p bo heap w = Ret (bo', <[p := d']> heap, w') ∧ buf_holds b0 cap bo' t' ∧ report_ok d'.
Proof.
  intros Hh Hm Hp Hd. unfold status_device, deref, op. rewrite Hp. mred.
  assert (∃ d1 w1, match ops d ≫= λ o, op_update_link (ops_at o) with Some f => f d w | None => Ret (tt, d, w) end = Ret (tt, d1, w1) ∧ report_ok d1)
    as (d1 & w1 & E & Hd1).
  { destruct (ops d) as [o|]; cbn [mbind option_bind]; [| eauto].
    destruct (op_update_link (ops_at o)) as [f|] eqn:Hop; [| eauto]. by eapply law_update_link. }
  by_law E. destruct (status_lines_spec bo t d1 macbuf Hh Hd1 Hm) as (bo1 & t1 & -> & Hh1). mred.
  destruct (status_driver_spec bo1 t1 d1 w1 Hh1 Hd1) as (bo2 & d2 & w2 & t2 & -> & Hh2 & Hd2). mred. eauto 10.
Qed.

Lemma status_loop s ps heap macbuf bo t w :
  reg_ok s ps → net_ready s = true → zlen macbuf = 24 → buf_holds b0 cap bo t → (∀ p, p ∈ ps → ∃ d, heap !! p = Some d ∧ report_ok d) →
  ∃ bo' heap' w' t', for_n (Z.to_nat (net_device_count s)) 0 (λ i '(bo, heap, w),
      dev ← rd (net_devices s) i;
      match dev with None => Ret (bo, heap, w) | Some p => status_device ops_at macbuf p bo heap w end) (bo, heap, w) = Ret (bo', heap', w') ∧
    buf_holds b0 cap bo' t'.
Proof.
  intros (Hl & _ & Hc & Hd) Hr Hm Hh Hheap. unfold reg_view in *. rewrite Hr in *. cbn [negb] in *.
  edestruct (for_n_inv (λ (_ : Z) (st : rabbitbone_buf_out_t * Zmap net_device_t * W), (∃ t, buf_holds b0 cap st.1.1 t) ∧
    ∀ p, p ∈ ps → ∃ d, st.1.2 !! p = Some d ∧ report_ok d)) as ([[bo' heap'] w'] & E & [[t' Ht'] _]); [| | by eauto 10].
  - eauto.
  - intros i [[bo1 heap1] w1] Hi [[t1 Ht1] Hh1]. cbn [fst snd] in *. rewrite Hc in Hi. unfold zlen in Hi.
    destruct (lookup_lt_is_Some_2 ps (Z.to_nat i)) as [p Hp]; [lia |].
    assert (rd (net_devices s) i = Ret (Some p)) as ->.
    { apply rd_Ret. split; [lia |]. rewrite Hd, lookup_app_l by (rewrite length_map; by eapply lookup_lt_Some).
      by rewrite list_lookup_fmap, Hp. }
    mred. destruct (Hh1 p) as (d & Hd1 & Hok); [by eapply list_elem_of_lookup_2 |].
    destruct (status_device_spec macbuf p bo1 t1 heap1 d w1 Ht1 Hm Hd1 Hok) as (bo2 & d2 & w2 & t2 & -> & Hh2 & Hd2).
    eexists. split; [done |]. cbn [fst snd]. split; [eauto |]. intros q Hq. destruct (decide (p = q)) as [->|].
    + exists d2. by rewrite lookup_insert_eq.
    + rewrite lookup_insert_ne by done. by apply Hh1.
Qed.

End report.

(** The status report of any registry of well-formed devices is produced
    without leaving the caller's buffer, whatever its size: the formats match their
    arguments, each device adds its lines and its driver's own text, and the buffer
    ends up terminated. *)
Theorem net_format_status_safe {W : Type} (ops_at : Z → @net_device_ops_t W) (rep : NetReporter ops_at)
  s ps heap macbuf out w :
  reg_ok s ps → net_ready s = true → zlen macbuf = 24 → 0 < zlen out ≤ 2 ^ 31 →
  (∀ p, p ∈ ps → ∃ d, heap !! p = Some d ∧ report_ok d) →
  ∃ out' heap' w', net_format_status ops_at s heap macbuf (Some out) (zlen out) w = Ret (Some out', heap', w') ∧
    zlen out' = zlen out ∧ ∃ txt, cstr_at out' txt ∧ zlen txt < zlen out.
Proof.
  intros Hs Hr Hm Hcap Hheap. unfold net_format_status. destruct (Z.eqb_spec (zlen out) 0); [lia |].
  destruct (buf_init_holds out (zlen out) Hcap ltac:(lia)) as (bo & -> & H0). mred.
  assert (Hn : 0 ≤ net_device_count s ≤ 4).
  { destruct Hs as (Hl & _ & Hc & _). unfold reg_view in Hc. rewrite Hr in Hc. cbn [negb] in Hc. rewrite Hc. pose proof (zlen_nonneg ps). done. }
  match goal with |- context [rabbitbone_buf_appendf bo (Some ?f) ?a] =>
    destruct (append_typed out (zlen out) Hcap eq_refl bo [] f a [KLong] H0) as (bo1 & t1 & -> & H1) end;
    [by constructor; [unfold varg_ok; ulia |] | reflexivity | by repeat constructor |]. mred.
  assert (∃ bo2 t2, (if net_device_count s =? 0 then
              rabbitbone_buf_appendf bo1
                (Some (lit "  hint: VMware virtualDev must be e1000 or e1000e; expected PCI ids include 8086:10d3, 8086:100f, 8086:100e
")) [] else Ret bo1) = Ret bo2 ∧ buf_holds out (zlen out) bo2 t2) as (bo2 & t2 & -> & H2).
  { case_match; [| eauto]. eapply append_typed with (ks := []); [done | done | exact H1 | constructor | reflexivity | constructor]. }
  mred. destruct (status_loop ops_at out (zlen out) Hcap eq_refl s ps heap macbuf bo2 t2 w Hs Hr Hm H2 Hheap) as (bo3 & heap' & w' & t3 & -> & H3).
  mred. destruct (buf_holds_end out (zlen out) eq_refl bo3 t3 H3) as (out' & -> & Hz & Htxt). eauto 10.
Qed.

(** C8: On a registered device, frames arriving, polls, reads, writes, opening,
    closing and link changes in any order behave like a bounded queue of frames:
    frames come out in arrival order and unaltered, cut only to the reader's
    buffer; a frame that meets a full queue is refused and counted, and every frame
    counted as received was dropped, handed out or is still queued.  Writing reaches
    the driver exactly when the frame has a legal length and the device is up. *)
Theorem netdev_refines_queue {W : Type} (ops_at : Z → @net_device_ops_t W)
  (callback_at : Z → net_device_t → list Z → Z → option net_rx_meta_t → Z → W → @after W unit)
  (o : Z) (drv : NetDriver ops_at callback_at o) s ps p d s' d' log macbuf w l :
  reg_ok s ps → device_ok d → 24 ≤ zlen macbuf → fresh_device d → ops d = Some o →
  netdev_register ops_at s (Some (p, d)) true macbuf = Ret (NET_OK, Some (s', d', log)) →
  Forall net_op_ok l →
  let '(a, w', obs) := an_run ops_at callback_at o (a_empty (rx_queue_len d')) w l in
  ∃ d2, net_run ops_at callback_at d' w l = Ret (d2, w', obs) ∧
    rx_count d2 = zlen (a_queue a) ∧ has d2 NETDEV_F_UP = a_up a ∧
    stats d2 rx_packets = wrap64 (a_received a) ∧ stats d2 rx_dropped = wrap64 (a_dropped a) ∧
    stats d2 rx_queue_high_water = a_high a ∧ a_high a ≤ NET_RX_BACKLOG ∧
    a_received a = a_dropped a + a_taken a + zlen (a_queue a).
Proof.
  intros Hs Hd Hb Hf Ho Hreg Hl.
  destruct (netdev_register_spec ops_at s ps p d true macbuf Hs Hd Hb) as (st & s1 & d1 & lg & E & Hout).
  rewrite Hreg in E. injection E as <- <- <- <-. unfold register_outcome in Hout.
  destruct (negb _); [by destruct Hout |]. destruct (bool_decide _); [by destruct Hout |]. destruct Hout as (d1 & Hfi & _ & _ & _ & _ & -> & _).
  pose proof (registered_rel d d1 o (zlen ps) Hf Ho Hfi) as R. cbn [set_rx_queue rx_queue_len].
  pose proof (run_simulates ops_at callback_at o _ _ w l R Hl) as Hrun.
  destruct (an_run _ _ _ _ _ _) as [[a w'] obs]. destruct Hrun as (d2 & -> & [Rr H1 H2 [H3 H4] H5]).
  destruct Rr as [_ [_ Hc] _ _ [Hn _] _ _ Hup]. eexists. split; [done |]. split_and!; try done; lia.
Qed.

(** ** A loopback driver

    It satisfies what the core asks of a driver: what is sent comes back at the
    next poll. *)

Definition no_callback {W} : Z → net_device_t → list Z → Z → option net_rx_meta_t → Z → W → @after W unit :=
  λ _ d _ _ _ _ w, Ret (tt, d, w).

Fixpoint loop_deliver (d : net_device_t) (fs : list (list Z)) : res (unit * net_device_t * list (list Z)) :=
  match fs with
  | [] => Ret (tt, d, [])
  | f :: fs =>
      '(_, d', _) ← netdev_receive no_callback (Some d) (Some f) (zlen f) None (f :: fs);
      match d' with Some d' => loop_deliver d' fs | None => Fault Panic end
  end.

Definition loop_ops : @net_device_ops_t (list (list Z)) :=
  mk_ops None None (Some (λ d f _ _ w, Ret (NET_OK, d, w ++ [f]))) (Some loop_deliver) None None None None None None None.

Lemma loop_deliver_spec d fs a o :
  net_rel o d a → ∃ d', loop_deliver d fs = Ret (tt, d', []) ∧ driver_run no_callback d fs (map (λ f, (f, None)) fs) d' [].
Proof.
  revert d a. induction fs as [|f fs IH]; intros d a R; cbn [loop_deliver map]; [eexists; split; [done | constructor] |].
  destruct (receive_spec no_callback o d a (f, None) (f :: fs) R) as (d1 & E & R1). cbn [fst snd] in E. rewrite E. mred.
  destruct (IH d1 _ R1) as (d2 & E2 & Hrun). rewrite E2. eexists. split; [done |].
  eapply (run_receive no_callback d d1 _ (f :: fs) (f, None)); [exact E |].
  eapply (run_touch no_callback d1 d1 (f :: fs) fs); [| exact Hrun]. by split; [apply same_ring_refl |].
Qed.

#[export] Instance loop_driver o : NetDriver (λ _, loop_ops) no_callback o.
Proof.
  refine {| drv_poll := λ w, (map (λ f, (f, None)) w, []); drv_transmit := λ w f, (NET_OK, w ++ [f]);
            drv_open := λ w, (NET_OK, w); drv_close := λ w, w |}; cbn.
  - intros d a w R. by eapply loop_deliver_spec.
  - intros d f w. eexists _, _. split; [done |]. split; [done |]. by split; [apply same_ring_refl |].
  - intros d w. eexists. split; [done |]. by split; [apply same_ring_refl |].
  - intros d w. eexists. split; [done |]. by split; [apply same_ring_refl |].
Defined.

Definition test_frame : list Z := replicate 6 255 ++ seqZ 1 20.
Definition test_device : net_device_t :=
  mk_net (replicate 16 0) (Some (lit "loop")) [2; 0; 0; 0; 0; 171] 0 1500 0x60 0 0 0 0 2 0 (Some 7) (λ _, 0) None 0 0 0 None 0.
Definition boot_net : net_state := mk_net_state (replicate 4 None) 0 false.

Lemma boot_net_ok : reg_ok boot_net [].
Proof. split_and!; [done | constructor | done | done]. Qed.

Lemma test_device_ok : device_ok test_device.
Proof. split; [done | split; [done |] | done]. by apply (bool_decide_unpack _). Qed.

Lemma netdev_register_correct_witness :
  ∃ d' log, netdev_register (λ _, loop_ops) boot_net (Some (64, test_device)) true (replicate 24 0) =
    Ret (NET_OK, Some (mk_net_state [Some 64; None; None; None] 1 true, d', log)) ∧ name d' = lit "net0" ++ replicate 11 0.
Proof.
  destruct (netdev_register_correct (λ _, loop_ops) boot_net [] 64 test_device true (replicate 24 0) boot_net_ok test_device_ok ltac:(done))
    as (st & s' & d' & log & E & d1 & Hfi & -> & Hs' & _ & Hc & Hd' & _).
  exists d', log. rewrite E. split; [| rewrite Hd'; exact (fi_name _ _ _ Hfi)].
  destruct s' as [l n r]. vm_compute in E. injection E as <- <- <- _ _. done.
Defined.

Lemma netdev_refines_queue_witness :
  ∃ d' d2 s' log, netdev_register (λ _, loop_ops) boot_net (Some (64, test_device)) true (replicate 24 0) = Ret (NET_OK, Some (s', d', log)) ∧
    net_run (λ _, loop_ops) no_callback d' [] [NWrite test_frame; NOpen; NWrite test_frame; NWrite test_frame; NWrite test_frame; NRead (replicate 64 0) 8] =
      Ret (d2, [], [OWritten NET_ERR_NODEV 0; OStatus NET_OK; OWritten NET_OK 26; OWritten NET_OK 26; OWritten NET_OK 26;
        ORead NET_OK (8, Some (take 8 test_frame ++ replicate 56 0), Some (mk_rx_meta 0 0 NET_RX_OK))]) ∧
    rx_count d2 = 1 ∧ stats d2 rx_packets = 3 ∧ stats d2 rx_dropped = 1.
Proof.
  destruct (netdev_register_spec (λ _, loop_ops) boot_net [] 64 test_device true (replicate 24 0) boot_net_ok test_device_ok ltac:(done))
    as (st & s' & d' & log & E & d1 & Hfi & -> & Hs' & _ & Hc & Hd' & _).
  pose proof (netdev_refines_queue (λ _, loop_ops) no_callback 7 (loop_driver 7) boot_net [] 64 test_device s' d' log (replicate 24 0) []
    [NWrite test_frame; NOpen; NWrite test_frame; NWrite test_frame; NWrite test_frame; NRead (replicate 64 0) 8]
    boot_net_ok test_device_ok ltac:(done)) as H.
  assert (Hq : rx_queue_len d' = 2) by (rewrite Hd'; exact (fi_rx _ _ _ Hfi)). rewrite Hq in H.
  match type of H with context [an_run ?a ?b ?c ?d ?e ?f] =>
    let v := eval vm_compute in (an_run a b c d e f) in
    assert (Ha : an_run a b c d e f = v) by (vm_compute; reflexivity); rewrite Ha in H end.
  destruct H as (d2 & E2 & H1 & _ & H2 & H3 & _).
  - split_and!; done.
  - done.
  - exact E.
  - repeat (constructor; [try exact I; vm_compute; split; congruence |]). constructor.
  - exists d', d2, s', log. split; [exact E |]. split; [refine (eq_trans E2 _); reflexivity |].
    split_and!; [exact H1 | exact H2 | exact H3].
Defined.

(** A driver that reports a fixed text. *)
Definition chatty_format (d : net_device_t) (b : list Z) (room : Z) (w : unit) : res (list Z * net_device_t * unit) :=
  '(_, b) ← strlcpy (Some b) (Some (lit "    irq=11
")) room; Ret (default [] b, d, w).
Definition chatty_ops : @net_device_ops_t unit :=
  mk_ops None None None None None None None None None None (Some chatty_format).

Lemma bounded_image_ends (b s : list Z) size :
  0 < size ≤ zlen b → zlen (bounded_image b s size) = zlen b ∧ 0 ∈ take (Z.to_nat size) (bounded_image b s size).
Proof.
  intros Hs. assert (Hl : (length (take (Z.to_nat (size - 1)) s ++ [0%Z]) ≤ Z.to_nat size)%nat) by (rewrite length_app, length_take; cbn [length]; lia).
  unfold bounded_image. split; [apply blit_zlen; unfold zlen in *; lia |].
  unfold blit. rewrite take_0, app_nil_l, take_app_ge by done. apply elem_of_app. left. apply elem_of_app. right. apply list_elem_of_here.
Qed.

#[export] Instance chatty_reporter : NetReporter (λ _, chatty_ops).
Proof.
  split; [discriminate |]. intros o f d b room w Hf Hd Hroom H0. change (Some chatty_format = Some f) in Hf.
  assert (chatty_format = f) as <- by congruence. unfold chatty_format. rewrite (strlcpy_spec b _ (bytes_of "    irq=11
")) by (done || by split; [repeat constructor | by exists []]).
  mred. cbn [default from_option id]. destruct (bounded_image_ends b (bytes_of "    irq=11
") room Hroom). eauto 10.
Qed.

Definition chatty_device : net_device_t :=
  mk_net (lit "eth0" ++ replicate 11 0) (Some (lit "chatty")) [2; 0; 0; 0; 0; 171] 1500 1500 0x61 0 1000 2 64 64 0 (Some 7) (λ _, 5) None 0 0 0 None 0.

Lemma net_format_status_safe_witness :
  ∃ out' heap' w', net_format_status (λ _, chatty_ops) (mk_net_state [Some 64; None; None; None] 1 true) (<[64 := chatty_device]> ∅)
    (replicate 24 0) (Some (replicate 700 1)) 700 tt = Ret (Some out', heap', w') ∧
    zlen out' = 700 ∧ ∃ txt, cstr_at out' txt ∧ zlen txt < 700.
Proof.
  apply (net_format_status_safe (λ _, chatty_ops) chatty_reporter (mk_net_state [Some 64; None; None; None] 1 true) [64]
    (<[64 := chatty_device]> ∅) (replicate 24 0) (replicate 700 1) tt).
  - split_and!; [done | apply NoDup_singleton | done | done].
  - done.
  - done.
  - done.
  - intros p ->%list_elem_of_singleton. exists chatty_device. rewrite lookup_insert_eq. split; [done |].
    split; [split; [exists (bytes_of "eth0"); split; [repeat constructor; discriminate | by eexists] | done] | split; [exists (bytes_of "chatty"); split; [repeat constructor; discriminate | by exists []] | done]
      | split; [done | by apply (bool_decide_unpack _)] | repeat constructor; vm_compute; congruence | intros c; vm_compute; split; congruence].
Defined.
