(* ===== verification/Kmem.v ===== *)
(** * The heap as its clients see it: the interface of [kernel/mm/kmem.c]

    A client of the heap relies on four facts: an allocation either fails and
    changes nothing or yields a new zeroed block, freeing NULL does nothing,
    freeing a live block removes it, and writing to a live block changes it alone.
    The class states them over the map from block addresses to contents; [Heap]
    implements it. *)

From Stdlib Require Import ZArith Lia.
From stdpp Require Import prelude list_numbers zmap.
From S2P Require Import Prelude.

Local Open Scope Z_scope.

Class Kmem (H : Type) := {
  blocks : H → Zmap (list Z);
  kmalloc : H → Z → option Z * H;
  kfree : H → Z → res H;
  poke : H → Z → list Z → H;
  kmalloc_some : ∀ h n p h', kmalloc h n = (Some p, h') →
    p ≠ 0 ∧ blocks h !! p = None ∧ blocks h' = <[p := replicate (Z.to_nat n) 0]> (blocks h);
  kmalloc_none : ∀ h n h', kmalloc h n = (None, h') → blocks h' = blocks h;
  kfree_null : ∀ h, kfree h 0 = Ret h;
  kfree_live : ∀ h p b, p ≠ 0 → blocks h !! p = Some b → ∃ h', kfree h p = Ret h' ∧ blocks h' = delete p (blocks h);
  poke_live : ∀ h p b c, blocks h !! p = Some b → zlen c = zlen b → blocks (poke h p c) = <[p := c]> (blocks h);
}.

Definition kcalloc {H} `{Kmem H} (h : H) (count size : Z) : option Z * H :=
  if negb (size =? 0) && (U64MAX / size <? count) then (None, h) else kmalloc h (wrap64 (count * size)).

(** The bytes of a live block. *)
Definition peek {H} `{Kmem H} (h : H) (p : Z) : res (list Z) :=
  match blocks h !! p with Some b => Ret b | None => Fault OutOfBounds end.

Section kmem.
Context {H : Type} `{Kmem H}.

Lemma kcalloc_some h count size p h' :
  0 ≤ count → 0 < size → kcalloc h count size = (Some p, h') →
  p ≠ 0 ∧ blocks h !! p = None ∧ blocks h' = <[p := replicate (Z.to_nat (count * size)) 0]> (blocks h).
Proof.
  intros Hc Hs. unfold kcalloc. destruct (Z.eqb_spec size 0); [lia |]. cbn [negb andb].
  destruct (Z.ltb_spec (U64MAX / size) count) as [|Hle]; [discriminate |]. intros E.
  assert (count * size ≤ U64MAX).
  { pose proof (Z.mul_div_le U64MAX size ltac:(lia)). nia. }
  rewrite wrap_small in E by (unfold U64MAX in *; lia). by apply kmalloc_some.
Qed.

Lemma kcalloc_none h count size h' : kcalloc h count size = (None, h') → blocks h' = blocks h.
Proof. unfold kcalloc. case_match; [by intros [= <-] | apply kmalloc_none]. Qed.

Lemma peek_live h p b : blocks h !! p = Some b → peek h p = Ret b.
Proof. unfold peek. by intros ->. Qed.

End kmem.

(** ** An instance

    Addresses are handed out in steps of 16 until a budget is spent. *)

Record arena := mk_arena { ar_blocks : Zmap (list Z); ar_next : positive; ar_budget : nat }.

Definition arena_alloc (a : arena) (n : Z) : option Z * arena :=
  match ar_budget a with
  | O => (None, a)
  | S k =>
      let p := Z.pos (ar_next a) in
      match ar_blocks a !! p with
      | Some _ => (None, a)
      | None => (Some p, mk_arena (<[p := replicate (Z.to_nat n) 0]> (ar_blocks a)) (ar_next a + 16) k)
      end
  end.

Definition arena_free (a : arena) (p : Z) : res arena :=
  if p =? 0 then Ret a else
  match ar_blocks a !! p with
  | Some _ => Ret (mk_arena (delete p (ar_blocks a)) (ar_next a) (ar_budget a))
  | None => Fault Panic
  end.

#[export] Instance arena_kmem : Kmem arena.
Proof.
  refine {| blocks := ar_blocks; kmalloc := arena_alloc; kfree := arena_free;
            poke := λ a p c, mk_arena (<[p := c]> (ar_blocks a)) (ar_next a) (ar_budget a) |}.
  - intros h n p h'. unfold arena_alloc. destruct (ar_budget h); [discriminate |].
    destruct (ar_blocks h !! _) eqn:E; [discriminate |]. intros [= <- <-]. done.
  - intros h n h'. unfold arena_alloc. destruct (ar_budget h); [by intros [= <-] |].
    destruct (ar_blocks h !! _) eqn:E; [by intros [= <-] | discriminate].
  - done.
  - intros h p b Hp Hb. unfold arena_free. destruct (Z.eqb_spec p 0); [done |]. rewrite Hb. by eexists.
  - done.
Defined.

Definition empty_arena (budget : nat) : arena := mk_arena ∅ 16 budget.
