(* ===== verification/Heap.v ===== *)
(** * The kernel heap: [kernel/mm/kmem.c]

    A doubly linked list of blocks, each a header of 40 bytes and a payload,
    carved out of runs of pages the frame allocator hands out.  Headers are kept in
    a map from addresses to structures and payload bytes in [ram]; a header inside
    what has become payload is never read again, so the two need not share bytes.
    Pointers are addresses, 0 is NULL.  The lock is not modelled.  The frame
    allocator is the class [PageSource], which [Memory] implements. *)

From Stdlib Require Import ZArith Lia String.
From stdpp Require Import prelude list_numbers fin_maps fin_map_dom zmap.
From S2P Require Import Prelude Arith CString Bitmap Printf Log Memory Kmem.

Local Open Scope Z_scope.

Definition KMEM_MAGIC_ALLOC : Z := 0xA0B0C0D0E0F01234.
Definition KMEM_MAGIC_FREE : Z := 0x43210F0E0D0C0B0A.
Definition KMEM_MIN_SPLIT : Z := 32.
Definition KMEM_BOOT_PAGES : Z := 16.
Definition KMALLOC_MAX : Z := 64 * 1024 * 1024.
Definition SIZEOF_BLOCK : Z := 40.

Record kmem_block_t := mk_block { magic : Z; size : Z; free : bool; prev : Z; next : Z }.

Record kmem_stats_t := mk_stats {
  heap_bytes : Z;
  used_bytes : Z;
  free_bytes : Z;
  allocation_count : Z;
  page_bytes_requested : Z;
  failed_allocations : Z;
}.

(** What the heap relies on: pages come as runs of frames that were not in use and
    now are. *)
Class PageSource (M : Type) := {
  alloc_pages : M → Z → res (M * Z);
  pages_ok : M → Prop;
  in_use : M → Z → Prop;
  alloc_pages_law : ∀ m p, pages_ok m → 0 < p → ∃ m' r, alloc_pages m p = Ret (m', r) ∧ pages_ok m' ∧
    (r = 0 ∧ (∀ f, in_use m' f ↔ in_use m f) ∨
     ∃ b, r = b * PAGE_SIZE ∧ 0 < b ∧ (b + p) * PAGE_SIZE ≤ MEMORY_KERNEL_DIRECT_LIMIT ∧
          (∀ f, b ≤ f < b + p → ¬ in_use m f) ∧ (∀ f, in_use m' f ↔ in_use m f ∨ b ≤ f < b + p));
}.

Definition align16_checked (n : Z) : option Z :=
  match add_u64 n 15 with None => None | Some t => Some (Z.land t (lnot_w 64 15)) end.

Definition align16 (n : Z) : Z := default 0 (align16_checked n).

Definition block_payload (b : Z) : Z := b + SIZEOF_BLOCK.
Definition payload_block (p : Z) : Z := p - SIZEOF_BLOCK.

Section heap.
Context {M : Type} `{PageSource M}.

(** The static variables, the memory they point into and the frame allocator. *)
Record heap := mk_heap {
  headers : Zmap kmem_block_t;
  ram : Z → Z;
  heap_head : Z;
  heap_tail : Z;
  stats : kmem_stats_t;
  initialized : bool;
  source : M;
  logged : list klog_call;
}.

Definition with_headers (h : heap) (m : Zmap kmem_block_t) : heap := mk_heap m (ram h) (heap_head h) (heap_tail h) (stats h) (initialized h) (source h) (logged h).
Definition with_ram (h : heap) (r : Z → Z) : heap := mk_heap (headers h) r (heap_head h) (heap_tail h) (stats h) (initialized h) (source h) (logged h).
Definition with_head (h : heap) (a : Z) : heap := mk_heap (headers h) (ram h) a (heap_tail h) (stats h) (initialized h) (source h) (logged h).
Definition with_tail (h : heap) (a : Z) : heap := mk_heap (headers h) (ram h) (heap_head h) a (stats h) (initialized h) (source h) (logged h).
Definition with_stats (h : heap) (s : kmem_stats_t) : heap := mk_heap (headers h) (ram h) (heap_head h) (heap_tail h) s (initialized h) (source h) (logged h).
Definition with_source (h : heap) (m : M) : heap := mk_heap (headers h) (ram h) (heap_head h) (heap_tail h) (stats h) (initialized h) m (logged h).
Definition with_log (h : heap) (l : klog_call) : heap := mk_heap (headers h) (ram h) (heap_head h) (heap_tail h) (stats h) (initialized h) (source h) (logged h ++ [l]).

(** Reading and writing a block header. *)
Definition ld (h : heap) (b : Z) : res kmem_block_t :=
  match headers h !! b with Some k => Ret k | None => Fault OutOfBounds end.
Definition put (h : heap) (b : Z) (k : kmem_block_t) : heap := with_headers h (<[b := k]> (headers h)).

Definition set_size (k : kmem_block_t) (n : Z) : kmem_block_t := mk_block (magic k) n (free k) (prev k) (next k).
Definition set_prev (k : kmem_block_t) (a : Z) : kmem_block_t := mk_block (magic k) (size k) (free k) a (next k).
Definition set_next (k : kmem_block_t) (a : Z) : kmem_block_t := mk_block (magic k) (size k) (free k) (prev k) a.
Definition set_magic (k : kmem_block_t) (m : Z) : kmem_block_t := mk_block m (size k) (free k) (prev k) (next k).
Definition set_free (k : kmem_block_t) (f : bool) (m : Z) : kmem_block_t := mk_block m (size k) f (prev k) (next k).

(** [stats.used_bytes += used; stats.free_bytes += free]. *)
Definition account (h : heap) (used fr : Z) : heap :=
  let s := stats h in
  with_stats h (mk_stats (heap_bytes s) (wrap64 (used_bytes s + used)) (wrap64 (free_bytes s + fr)) (allocation_count s) (page_bytes_requested s) (failed_allocations s)).

Definition count_failure (h : heap) : heap :=
  let s := stats h in
  with_stats h (mk_stats (heap_bytes s) (used_bytes s) (free_bytes s) (allocation_count s) (page_bytes_requested s) (wrap64 (failed_allocations s + 1))).

Definition insert_block (h : heap) (b : Z) : res heap :=
  k ← ld h b;
  let h := put h b (mk_block (magic k) (size k) (free k) (heap_tail h) 0) in
  h ← (if negb (heap_tail h =? 0) then t ← ld h (heap_tail h); Ret (put h (heap_tail h) (set_next t b)) else Ret (with_head h b));
  Ret (with_tail h b).

(** [b->next = next; if (next) next->prev = b; else heap_tail = b]. *)
Definition relink (h : heap) (nxt b : Z) : res heap :=
  if negb (nxt =? 0) then n ← ld h nxt; Ret (put h nxt (set_prev n b)) else Ret (with_tail h b).

Fixpoint merge_forward (fuel : nat) (h : heap) (b : Z) : res heap :=
  match fuel with
  | O => Fault Diverged
  | S f =>
      if b =? 0 then Ret h else
      k ← ld h b;
      if (next k =? 0) || negb (free k) then Ret h else
      n ← ld h (next k);
      if negb (free n) || negb (block_payload b + size k =? next k) then Ret h else
      match add_u64 (size k) SIZEOF_BLOCK ≫= λ m, add_u64 m (size n) with
      | None => Fault Panic
      | Some merged =>
          let h := put h b (mk_block (magic k) merged (free k) (prev k) (next n)) in
          let h := account h 0 SIZEOF_BLOCK in
          h ← relink h (next n) b;
          n' ← ld h (next k);
          merge_forward f (put h (next k) (set_magic n' 0)) b
      end
  end.

(** The bytes a block must have to be split. *)
Definition split_threshold (wanted : Z) : option Z := add_u64 wanted SIZEOF_BLOCK ≫= λ t, add_u64 t KMEM_MIN_SPLIT.

(** The new free block behind the first [wanted] bytes of [b], linked in. *)
Definition carve (h : heap) (b : Z) (k : kmem_block_t) (wanted : Z) : res heap :=
  let rest := block_payload b + wanted in
  let h := put h rest (mk_block KMEM_MAGIC_FREE (size k - wanted - SIZEOF_BLOCK) true b (next k)) in
  h ← relink h (next k) rest;
  Ret (put h b (mk_block (magic k) wanted (free k) (prev k) rest)).

Definition split_block (h : heap) (b wanted : Z) : res heap :=
  let wanted := align16 wanted in
  if b =? 0 then Ret h else
  k ← ld h b;
  if negb (free k) then Ret h else
  match split_threshold wanted with
  | None => Ret h
  | Some t => if size k <? t then Ret h else h ← carve h b k wanted; Ret (account h 0 (- SIZEOF_BLOCK))
  end.

(** Enough turns for a loop over the list. *)
Definition turns (h : heap) : nat := S (base.size (headers h)).

Definition split_allocated_block (h : heap) (b wanted : Z) : res heap :=
  let wanted := align16 wanted in
  if b =? 0 then Ret h else
  k ← ld h b;
  if free k then Ret h else
  match split_threshold wanted with
  | None => Ret h
  | Some t =>
      if size k <? t then Ret h else
      h ← carve h b k wanted;
      let h := account h (- (size k - wanted)) (size k - wanted - SIZEOF_BLOCK) in
      merge_forward (turns h) h (block_payload b + wanted)
  end.

Definition add_heap_pages (h : heap) (pages : Z) : res (heap * bool) :=
  if (pages =? 0) || (U64MAX / PAGE_SIZE <? pages) then Ret (h, false) else
  let bytes := pages * PAGE_SIZE in
  if bytes <=? SIZEOF_BLOCK then Ret (h, false) else
  '(m, mem) ← alloc_pages (source h) pages;
  let h := with_source h m in
  if mem =? 0 then Ret (h, false) else
  let h := put h mem (mk_block KMEM_MAGIC_FREE (bytes - SIZEOF_BLOCK) true 0 0) in
  h ← insert_block h mem;
  let s := stats h in
  Ret (with_stats h (mk_stats (wrap64 (heap_bytes s + bytes)) (used_bytes s) (wrap64 (free_bytes s + (bytes - SIZEOF_BLOCK))) (allocation_count s)
                       (wrap64 (page_bytes_requested s + bytes)) (failed_allocations s)), true).

Definition kmem_init_locked (h : heap) : res heap :=
  let h := mk_heap (headers h) (ram h) 0 0 (mk_stats 0 0 0 0 0 0) true (source h) (logged h) in
  '(h, ok) ← add_heap_pages h KMEM_BOOT_PAGES;
  if negb ok then Fault Panic else
  Ret (with_log h (mk_klog LOG_INFO (lit "kmem") (lit "heap initialized: %llu KiB") [VLong (heap_bytes (stats h) / 1024)])).

Definition kmem_init (h : heap) : res heap := if negb (initialized h) then kmem_init_locked h else Ret h.

Definition fill_bytes (r : Z → Z) (a n v : Z) : Z → Z := λ x, if (a <=? x) && (x <? a + n) then v else r x.
Definition copy_bytes (r : Z → Z) (dst src n : Z) : Z → Z := λ x, if (dst <=? x) && (x <? dst + n) then r (x - dst + src) else r x.

(** The first free block that is large enough. *)
Fixpoint find_fit (fuel : nat) (h : heap) (b n : Z) : res (option Z) :=
  match fuel with
  | O => Fault Diverged
  | S f =>
      if b =? 0 then Ret None else
      k ← ld h b;
      if negb (magic k =? KMEM_MAGIC_FREE) && negb (magic k =? KMEM_MAGIC_ALLOC) then Fault Panic else
      if free k && (n <=? size k) then Ret (Some b) else find_fit f h (next k) n
  end.

(** Taking a free block. *)
Definition take_block (h : heap) (b n : Z) : res (heap * Z) :=
  h ← split_block h b n;
  k ← ld h b;
  let h := put h b (set_free k false KMEM_MAGIC_ALLOC) in
  let h := account h (size k) (- size k) in
  let s := stats h in
  let h := with_stats h (mk_stats (heap_bytes s) (used_bytes s) (free_bytes s) (wrap64 (allocation_count s + 1)) (page_bytes_requested s) (failed_allocations s)) in
  Ret (with_ram h (fill_bytes (ram h) (block_payload b) (size k) 0), block_payload b).

(** From [retry] on; [fuel] bounds the retries. *)
Fixpoint alloc_retry (fuel : nat) (h : heap) (n : Z) : res (heap * Z) :=
  match fuel with
  | O => Fault Diverged
  | S f =>
      b ← find_fit (turns h) h (heap_head h) n;
      match b with
      | Some b => take_block h b n
      | None =>
          match add_u64 n SIZEOF_BLOCK ≫= λ t, add_u64 t (PAGE_SIZE - 1) with
          | None => Ret (count_failure h, 0)
          | Some needed =>
              let pages := needed / PAGE_SIZE in
              let pages := if pages <? 4 then 4 else pages in
              '(h, ok) ← add_heap_pages h pages;
              if ok : bool then alloc_retry f h n
              else Ret (with_log (count_failure h) (mk_klog LOG_ERROR (lit "kmem") (lit "allocation failed: %llu") [VLong n]), 0)
          end
      end
  end.

Definition kmalloc_locked (h : heap) (n : Z) : res (heap * Z) :=
  h ← kmem_init h;
  if n =? 0 then Ret (h, 0) else
  if KMALLOC_MAX <? n then Ret (count_failure h, 0) else
  match align16_checked n with
  | None => Ret (count_failure h, 0)
  | Some n => if n =? 0 then Ret (count_failure h, 0) else alloc_retry 2 h n
  end.

Definition kmalloc (h : heap) (n : Z) : res (heap * Z) := kmalloc_locked h n.

Definition kfree_locked (h : heap) (p : Z) : res heap :=
  if p =? 0 then Ret h else
  let b := payload_block p in
  k ← ld h b;
  if negb (magic k =? KMEM_MAGIC_ALLOC) || free k then Fault Panic else
  let h := put h b (set_free k true KMEM_MAGIC_FREE) in
  let h := account h (- size k) (size k) in
  b ← (if negb (prev k =? 0) then
         q ← ld h (prev k);
         Ret (if free q && (block_payload (prev k) + size q =? b) then prev k else b)
       else Ret b);
  merge_forward (turns h) h b.

Definition kfree (h : heap) (p : Z) : res heap := kfree_locked h p.

(** Growing [b] over the free block behind it. *)
Definition absorb_next (h : heap) (b : Z) (k n : kmem_block_t) (combined : Z) : res heap :=
  let h := account h (SIZEOF_BLOCK + size n) (- size n) in
  let h := put h b (mk_block (magic k) combined (free k) (prev k) (next n)) in
  h ← relink h (next n) b;
  n' ← ld h (next k);
  Ret (put h (next k) (set_magic n' 0)).

(** Moving the payload to a new block. *)
Definition move_block (h : heap) (p n : Z) (k : kmem_block_t) : res (heap * Z) :=
  '(h, np) ← kmalloc_locked h n;
  if np =? 0 then Ret (h, 0) else
  let h := with_ram h (copy_bytes (ram h) np p (size k)) in
  h ← kfree_locked h p;
  Ret (h, np).

Definition krealloc (h : heap) (p n : Z) : res (heap * Z) :=
  if p =? 0 then kmalloc h n else
  if n =? 0 then h ← kfree h p; Ret (h, 0) else
  let b := payload_block p in
  k ← ld h b;
  if negb (magic k =? KMEM_MAGIC_ALLOC) || free k then Fault Panic else
  match (if KMALLOC_MAX <? n then None else align16_checked n) with
  | None => Ret (count_failure h, 0)
  | Some n =>
      if n =? 0 then Ret (count_failure h, 0) else
      if n <=? size k then h ← split_allocated_block h b n; Ret (h, p) else
      if negb (next k =? 0) then
        q ← ld h (next k);
        if free q && (block_payload b + size k =? next k) then
          match add_u64 (size k) SIZEOF_BLOCK ≫= λ t, add_u64 t (size q) with
          | Some combined =>
              if n <=? combined then h ← absorb_next h b k q combined; h ← split_allocated_block h b n; Ret (h, p)
              else move_block h p n k
          | None => move_block h p n k
          end
        else move_block h p n k
      else move_block h p n k
  end.

(** A store of the bytes [c] at [p]. *)
Definition write_bytes (r : Z → Z) (p : Z) (c : list Z) : Z → Z :=
  λ x, if (p <=? x) && (x <? p + zlen c) then default 0 (c !! Z.to_nat (x - p)) else r x.

Definition kstrdup (h : heap) (s : option (list Z)) : res (heap * Z) :=
  match s with
  | None => Ret (h, 0)
  | Some o =>
      len_no_nul ← strnlen s KMALLOC_MAX;
      if KMALLOC_MAX <=? len_no_nul then Ret (h, 0) else
      match add_u64 len_no_nul 1 with
      | None => Ret (h, 0)
      | Some len =>
          '(h, out) ← kmalloc h len;
          if out =? 0 then Ret (h, 0) else
          if zlen o <? len then Fault OutOfBounds else
          Ret (with_ram h (write_bytes (ram h) out (take (Z.to_nat len) o)), out)
      end
  end.

Definition kmem_get_stats (h : heap) : kmem_stats_t := stats h.

End heap.

(** ** The list of blocks *)

(** A block of the list: address, payload size, whether free. *)
Record kb := mk_kb { ba : Z; bz : Z; bf : bool }.

#[global] Instance kb_eq_dec : EqDecision kb.
Proof. solve_decision. Defined.

Definition kb_end (b : kb) : Z := ba b + SIZEOF_BLOCK + bz b.
Definition magic_of (f : bool) : Z := if f then KMEM_MAGIC_FREE else KMEM_MAGIC_ALLOC.
Definition header_of (b : kb) (p n : Z) : kmem_block_t := mk_block (magic_of (bf b)) (bz b) (bf b) p n.

Definition first (l : list kb) (d : Z) : Z := match l with [] => d | b :: _ => ba b end.
Fixpoint lasta (l : list kb) (d : Z) : Z := match l with [] => d | b :: r => lasta r (ba b) end.

(** [l] is laid out in [m] between the block at [p] and the one at [n]. *)
Fixpoint seg (m : Zmap kmem_block_t) (p : Z) (l : list kb) (n : Z) : Prop :=
  match l with
  | [] => True
  | b :: r => m !! ba b = Some (header_of b p (first r n)) ∧ seg m (ba b) r n
  end.

Lemma first_app l1 l2 d : first (l1 ++ l2) d = first l1 (first l2 d).
Proof. by destruct l1. Qed.

Lemma lasta_app l1 l2 d : lasta (l1 ++ l2) d = lasta l2 (lasta l1 d).
Proof. revert d. induction l1 as [|b l1 IH]; intros d; [done | apply IH]. Qed.

Lemma seg_app m p l1 l2 n : seg m p (l1 ++ l2) n ↔ seg m p l1 (first l2 n) ∧ seg m (lasta l1 p) l2 n.
Proof.
  revert p. induction l1 as [|b l1 IH]; intros p; cbn [app seg lasta]; [tauto |]. rewrite IH, first_app. tauto.
Qed.

Lemma seg_frame m m' p l n : (∀ b, b ∈ l → m' !! ba b = m !! ba b) → seg m p l n → seg m' p l n.
Proof.
  revert p. induction l as [|b l IH]; intros p Hm; cbn [seg]; [done |]. intros [H1 H2]. split.
  - rewrite Hm; [done | by apply elem_of_cons; left].
  - apply IH; [| done]. intros c Hc. apply Hm. by apply elem_of_cons; right.
Qed.

Lemma seg_insert m p l n a k : a ∉ map ba l → seg m p l n → seg (<[a := k]> m) p l n.
Proof.
  intros Ha. apply seg_frame. intros b Hb. rewrite lookup_insert_ne; [done |]. intros ->. apply Ha. by apply list_elem_of_fmap_2.
Qed.

(** ** Spans *)

Definition apart (b c : kb) : Prop := kb_end b ≤ ba c ∨ kb_end c ≤ ba b.

Fixpoint pairwise (l : list kb) : Prop :=
  match l with [] => True | b :: r => Forall (apart b) r ∧ pairwise r end.

Lemma apart_sym b c : apart b c → apart c b.
Proof. unfold apart. tauto. Qed.

Lemma pairwise_app l1 l2 : pairwise (l1 ++ l2) ↔ pairwise l1 ∧ pairwise l2 ∧ ∀ b c, b ∈ l1 → c ∈ l2 → apart b c.
Proof.
  induction l1 as [|x l1 IH]; cbn [app pairwise].
  - split; [intros H; split_and!; [done | done |] | tauto]. by intros b c Hb%elem_of_nil.
  - rewrite IH, Forall_app, !Forall_forall. setoid_rewrite elem_of_cons. split.
    + intros ([H1 H2] & H3 & H4 & H5). split_and!; try done. intros b c [->|Hb] Hc; auto.
    + intros ((H1 & H2) & H3 & H4). split_and!; auto.
Qed.

Lemma pairwise_middle l1 x l2 :
  pairwise (l1 ++ x ++ l2) ↔ pairwise (l1 ++ l2) ∧ pairwise x ∧ ∀ b c, b ∈ l1 ++ l2 → c ∈ x → apart b c.
Proof.
  rewrite !pairwise_app. setoid_rewrite elem_of_app. split.
  - intros (H1 & (H2 & H3 & H4) & H5). split_and!; auto. intros b c [Hb|Hb] Hc; [by apply H5; auto | apply apart_sym; auto].
  - intros ((H1 & H2 & H3) & H4 & H5). split_and!; auto; [intros b c Hb Hc; apply apart_sym; auto |]. intros b c Hb [Hc|Hc]; auto.
Qed.

Definition in_bounds (b : kb) : Prop := 0 < ba b ∧ 0 ≤ bz b ∧ kb_end b ≤ MEMORY_KERNEL_DIRECT_LIMIT.

Lemma apart_addr b c : in_bounds b → in_bounds c → apart b c → ba b ≠ ba c.
Proof. unfold in_bounds, apart, kb_end, SIZEOF_BLOCK. lia. Qed.

Lemma pairwise_nodup l : Forall in_bounds l → pairwise l → NoDup (map ba l).
Proof.
  intros Hb. induction Hb as [|b l Hb Hl IH]; intros Hp; [constructor |]. destruct Hp as [H1 H2]. cbn [map]. constructor; [| by apply IH].
  intros (c & E & Hc)%list_elem_of_fmap. rewrite Forall_forall in H1, Hl. by apply (apart_addr b c); auto.
Qed.

(** A block is told apart from its neighbours by address. *)
Lemma nodup_middle l1 b l2 : NoDup (map ba (l1 ++ b :: l2)) → (ba b ∉ map ba l1) ∧ (ba b ∉ map ba l2) ∧ NoDup (map ba (l1 ++ l2)).
Proof.
  rewrite !map_app. cbn [map]. rewrite !NoDup_app, NoDup_cons. intros (H1 & H2 & H3 & H4). split_and!; try done.
  - intros Hb. apply (H2 _ Hb). by apply elem_of_cons; left.
  - intros x Hx Hx2. apply (H2 _ Hx). by apply elem_of_cons; right.
Qed.

Lemma in_middle {A} (b : A) l : b ∈ l → ∃ l1 l2, l = l1 ++ b :: l2.
Proof. apply list_elem_of_split. Qed.

(** ** The heap invariant *)

Definition total (f : kb → Z) (l : list kb) : Z := foldr (λ b acc, f b + acc) 0 l.
Definition used_of (b : kb) : Z := if bf b then 0 else bz b.
Definition free_of (b : kb) : Z := if bf b then bz b else 0.
Definition whole_of (b : kb) : Z := SIZEOF_BLOCK + bz b.

Lemma total_app f l1 l2 : total f (l1 ++ l2) = total f l1 + total f l2.
Proof. induction l1 as [|b l1 IH]; cbn [app total foldr]; [done |]. unfold total in *. lia. Qed.

Lemma total_nil f : total f [] = 0.
Proof. done. Qed.

Lemma total_cons f b l : total f (b :: l) = f b + total f l.
Proof. done. Qed.

Section invariant.
Context {M : Type} `{PageSource M}.

(** The list [l] is in memory, in one piece and on pages of the heap. *)
Record shape (h : @heap M) (l : list kb) : Prop := {
  sh_init : initialized h = true;
  sh_seg : seg (headers h) 0 l 0;
  sh_head : heap_head h = first l 0;
  sh_tail : heap_tail h = lasta l 0;
  sh_range : Forall in_bounds l;
  sh_apart : pairwise l;
  sh_pages : pages_ok (source h);
  sh_used : ∀ b x, b ∈ l → ba b ≤ x < kb_end b → in_use (source h) (x / PAGE_SIZE);
}.

(** The statistics describe [l]. *)
Record counted (s : kmem_stats_t) (l : list kb) : Prop := {
  ct_used : used_bytes s = wrap64 (total used_of l);
  ct_free : free_bytes s = wrap64 (total free_of l);
  ct_heap : heap_bytes s = wrap64 (total whole_of l);
}.

(** Only the list structure changes. *)
Definition relist (h : @heap M) (m : Zmap kmem_block_t) (t : Z) : heap :=
  mk_heap m (ram h) (heap_head h) t (stats h) (initialized h) (source h) (logged h).

Lemma relist_put h m t b k : put (relist h m t) b k = relist h (<[b := k]> m) t.
Proof. done. Qed.

Lemma shape_nodup h l : shape h l → NoDup (map ba l).
Proof. intros Hs. apply pairwise_nodup; apply Hs. Qed.

Lemma shape_middle h l1 b l2 :
  shape h (l1 ++ b :: l2) →
  headers h !! ba b = Some (header_of b (lasta l1 0) (first l2 0)) ∧ in_bounds b ∧ (ba b ∉ map ba l1) ∧ (ba b ∉ map ba l2).
Proof.
  intros Hs. pose proof (sh_seg _ _ Hs) as Hg. apply seg_app in Hg as [_ [Hb _]]. split; [done |].
  split; [pose proof (sh_range _ _ Hs) as Hr; by apply Forall_app in Hr as [_ [Hr _]%Forall_cons] |].
  pose proof (nodup_middle l1 b l2 (shape_nodup _ _ Hs)). tauto.
Qed.

Lemma length_turns h l : shape h l → (length l < turns h)%nat.
Proof.
  intros Hs. unfold turns. assert (Hle : (length (map ba l) ≤ base.size (dom (headers h) : Zset))%nat).
  { rewrite <- (size_list_to_set (C := Zset)) by by eapply shape_nodup. apply subseteq_size. intros x Hx.
    apply elem_of_list_to_set, list_elem_of_fmap in Hx as (b & -> & Hb). apply in_middle in Hb as (l1 & l2 & ->).
    apply elem_of_dom. destruct (shape_middle _ _ _ _ Hs) as (-> & _). by eexists. }
  rewrite size_dom, length_map in Hle. lia.
Qed.

(** Giving the blocks [l2] a new predecessor. *)
Lemma relink_spec h p l2 a :
  seg (headers h) p l2 0 → Forall in_bounds l2 → NoDup (map ba l2) →
  ∃ m, relink h (first l2 0) a = Ret (relist h m (match l2 with [] => a | _ => heap_tail h end)) ∧ seg m a l2 0 ∧
    (∀ x, x ∉ map ba l2 → m !! x = headers h !! x).
Proof.
  intros Hg Hr Hn. unfold relink. destruct l2 as [|c l2]; cbn [first].
  - exists (headers h). split; [by destruct h | done].
  - destruct Hg as [Hc Hg]. apply Forall_cons in Hr as [Hc0 _]. destruct (Z.eqb_spec (ba c) 0); [unfold in_bounds in Hc0; lia |]. cbn [negb].
    unfold ld. rewrite Hc. mred. cbn [map] in Hn. apply NoDup_cons in Hn as [Hn _]. eexists. split; [done |]. split.
    + cbn [seg]. rewrite lookup_insert_eq. split; [done |]. by apply seg_insert.
    + intros x Hx. rewrite lookup_insert_ne; [done |]. intros <-. apply Hx. cbn. by apply elem_of_cons; left.
Qed.

(** Replacing some blocks by others on the same bytes. *)
Definition covers (x x' : list kb) : Prop := ∀ c' a, c' ∈ x' → ba c' ≤ a < kb_end c' → ∃ c, c ∈ x ∧ ba c ≤ a < kb_end c.

Lemma apart_bytes b c : in_bounds b → in_bounds c → (apart b c ↔ ∀ a, ba b ≤ a < kb_end b → ba c ≤ a < kb_end c → False).
Proof.
  unfold in_bounds, apart, kb_end, SIZEOF_BLOCK. intros Hb Hc. split; [lia |]. intros Hno. specialize (Hno (Z.max (ba b) (ba c))). lia.
Qed.

Lemma reshape h h' l1 x x' l2 :
  shape h (l1 ++ x ++ l2) → initialized h' = true → source h' = source h → heap_head h' = first (l1 ++ x' ++ l2) 0 →
  heap_tail h' = lasta (l1 ++ x' ++ l2) 0 → seg (headers h') 0 (l1 ++ x' ++ l2) 0 → Forall in_bounds x' → pairwise x' → covers x x' →
  shape h' (l1 ++ x' ++ l2).
Proof.
  intros [_ _ _ _ Hr Hp Hk Hu] Hi Hsrc Hh Ht Hg Hr' Hp' Hcov. rewrite !Forall_app in Hr. destruct Hr as (Hr1 & Hrx & Hr2).
  apply pairwise_middle in Hp as (Hp & _ & Hax). split; try done.
  - by rewrite !Forall_app.
  - apply pairwise_middle. split_and!; [done | done |]. intros d c' Hd Hc'.
    assert (Hd0 : in_bounds d) by (apply elem_of_app in Hd as [Hd|Hd]; [by eapply Forall_forall in Hr1 | by eapply Forall_forall in Hr2]).
    assert (Hc0 : in_bounds c') by by eapply Forall_forall in Hr'.
    apply (apart_bytes d c'); [done | done |]. intros a Ha Ha'. destruct (Hcov c' a Hc' Ha') as (c & Hc & Hac).
    assert (in_bounds c) by by eapply Forall_forall in Hrx. by eapply (proj1 (apart_bytes d c ltac:(done) ltac:(done)) (Hax d c Hd Hc)).
  - by rewrite Hsrc.
  - intros b a Hb Ha. rewrite Hsrc. rewrite !elem_of_app in Hb. destruct Hb as [Hb|[Hb|Hb]].
    + apply (Hu b); [rewrite !elem_of_app; tauto | done].
    + destruct (Hcov b a Hb Ha) as (c & Hc & Hac). apply (Hu c); [rewrite !elem_of_app; tauto | done].
    + apply (Hu b); [rewrite !elem_of_app; tauto | done].
Qed.

Lemma shape_tail_seg h l1 b l2 : shape h (l1 ++ b :: l2) → seg (headers h) (ba b) l2 0 ∧ Forall in_bounds l2 ∧ NoDup (map ba l2).
Proof.
  intros Hs. pose proof (sh_seg _ _ Hs) as Hg. apply seg_app in Hg as [_ [_ Hg]]. split; [done |].
  pose proof (sh_range _ _ Hs) as Hr. apply Forall_app in Hr as [_ Hr]. apply Forall_cons in Hr as [_ Hr]. split; [done |].
  pose proof (shape_nodup _ _ Hs) as Hn. rewrite map_app in Hn. apply NoDup_app in Hn as (_ & _ & Hn). by apply NoDup_cons in Hn as [_ Hn].
Qed.

Lemma lasta_nonempty l d d' : l ≠ [] → lasta l d = lasta l d'.
Proof. by destruct l. Qed.

(** A block's bytes belong to no other block. *)
Lemma inside_not_other h l1 b l2 a : shape h (l1 ++ b :: l2) → ba b ≤ a < kb_end b → (a ∉ map ba l1) ∧ (a ∉ map ba l2).
Proof.
  intros Hs Ha. pose proof (sh_apart _ _ Hs) as Hp. apply (pairwise_middle l1 [b] l2) in Hp as (_ & _ & Hax).
  pose proof (sh_range _ _ Hs) as Hr. rewrite Forall_forall in Hr.
  split; intros (c & -> & Hc)%list_elem_of_fmap; (assert (Hac : apart c b) by (apply Hax; [rewrite elem_of_app; tauto | by apply elem_of_cons; left]));
    (assert (in_bounds c) by (apply Hr; rewrite elem_of_app, elem_of_cons; tauto)); unfold apart, in_bounds, kb_end, SIZEOF_BLOCK in *; lia.
Qed.

Lemma carve_spec h l1 b l2 w :
  shape h (l1 ++ b :: l2) → 0 ≤ w → w + SIZEOF_BLOCK ≤ bz b →
  ∃ m t, carve h (ba b) (header_of b (lasta l1 0) (first l2 0)) w = Ret (relist h m t) ∧
    shape (relist h m t) (l1 ++ [mk_kb (ba b) w (bf b); mk_kb (ba b + SIZEOF_BLOCK + w) (bz b - w - SIZEOF_BLOCK) true] ++ l2).
Proof.
  intros Hs Hw Hbz. destruct (shape_middle _ _ _ _ Hs) as (Hb & Hb0 & Hb1 & Hb2). destruct (shape_tail_seg _ _ _ _ Hs) as (Hg2 & Hr2 & Hn2).
  set (rest := ba b + SIZEOF_BLOCK + w). unfold carve, block_payload. fold rest. cbn [size next prev free magic header_of].
  assert (Hin : ba b ≤ rest < kb_end b) by (unfold rest, kb_end, SIZEOF_BLOCK in *; lia).
  destruct (inside_not_other _ _ _ _ _ Hs Hin) as [Hx1 Hx2].
  set (h1 := put h rest _). destruct (relink_spec h1 (ba b) l2 rest) as (m & -> & Hg & Hm); [by apply seg_insert | done | done |]. mred.
  rewrite relist_put. eexists _, _. split; [done |].
  assert (Hne : rest ≠ ba b) by (unfold rest, SIZEOF_BLOCK; lia).
  apply (reshape h _ l1 [b] _ l2); [exact Hs | apply Hs | done | | | | | |].
  - cbn [heap_head relist]. change (heap_head h1) with (heap_head h). rewrite (sh_head _ _ Hs). by rewrite !first_app.
  - cbn [heap_tail relist]. change (heap_tail h1) with (heap_tail h). rewrite (sh_tail _ _ Hs), !lasta_app. cbn [lasta app]. by destruct l2.
  - cbn [headers relist]. rewrite seg_app. split.
    + cbn [app first]. apply seg_insert; [done |]. pose proof (sh_seg _ _ Hs) as Hg0. apply seg_app in Hg0 as [Hg0 _].
      eapply seg_frame; [| exact Hg0]. intros c Hc. assert (ba c ∈ map ba l1) by by apply list_elem_of_fmap_2.
      rewrite Hm; [cbn; by rewrite lookup_insert_ne by congruence |]. pose proof (shape_nodup _ _ Hs) as Hnd. rewrite map_app in Hnd.
      apply NoDup_app in Hnd as (_ & Hnd & _). intros Hc2. apply (Hnd (ba c)); [done |]. cbn. by apply elem_of_cons; right.
    + cbn [app seg first]. rewrite lookup_insert_eq. split; [done |]. rewrite lookup_insert_ne by done. rewrite Hm by done. cbn. rewrite lookup_insert_eq.
      split; [done |]. by apply seg_insert.
  - unfold in_bounds, kb_end, SIZEOF_BLOCK in *. cbn. repeat apply Forall_cons; split_and!; cbn; try lia. apply Forall_cons. split; [cbn; subst rest; lia | constructor].
  - cbn [pairwise]. split; [| split; [constructor | done]]. apply Forall_cons. split; [left; cbn; done | constructor].
  - intros c' a Hc' Ha. exists b. split; [by apply elem_of_cons; left |]. rewrite !elem_of_cons in Hc'.
    unfold kb_end, SIZEOF_BLOCK in *. destruct Hc' as [->|[->|Hc']]; [cbn in Ha; lia | cbn in Ha; subst rest; lia | by apply elem_of_nil in Hc'].
Qed.

(** The block [b] takes over the one behind it. *)
Definition absorb (h : @heap M) (b : Z) (k n : kmem_block_t) (merged : Z) : res heap :=
  h ← relink (put h b (mk_block (magic k) merged (free k) (prev k) (next n))) (next n) b;
  n' ← ld h (next k);
  Ret (put h (next k) (set_magic n' 0)).

Lemma absorb_spec h l1 b n l2 :
  shape h (l1 ++ b :: n :: l2) → kb_end b = ba n →
  ∃ m t, absorb h (ba b) (header_of b (lasta l1 0) (ba n)) (header_of n (ba b) (first l2 0)) (bz b + SIZEOF_BLOCK + bz n) = Ret (relist h m t) ∧
    shape (relist h m t) (l1 ++ [mk_kb (ba b) (bz b + SIZEOF_BLOCK + bz n) (bf b)] ++ l2).
Proof.
  intros Hs He. destruct (shape_middle _ _ _ _ Hs) as (Hb & Hb0 & Hb1 & Hb2).
  assert (Hs' : shape h ((l1 ++ [b]) ++ n :: l2)) by by rewrite <- app_assoc.
  destruct (shape_middle _ _ _ _ Hs') as (Hn & Hn0 & Hn1 & Hn2). destruct (shape_tail_seg _ _ _ _ Hs') as (Hg2 & Hr2 & Hnd2).
  cbn [map] in Hb2. apply not_elem_of_cons in Hb2 as [Hbn Hb2]. rewrite map_app, elem_of_app in Hn1.
  unfold absorb. cbn [magic free prev next header_of]. set (h1 := put h (ba b) _).
  destruct (relink_spec h1 (ba n) l2 (ba b)) as (m & -> & Hg & Hm); [by apply seg_insert | done | done |]. mred.
  unfold ld. cbn [headers relist]. rewrite Hm by done. cbn [headers h1 put with_headers]. rewrite lookup_insert_ne, Hn by done. mred. rewrite relist_put.
  eexists _, _. split; [done |].
  assert (Hs2 : shape h (l1 ++ [b; n] ++ l2)) by done. apply (reshape h _ l1 [b; n] _ l2 Hs2); [apply Hs | done | | | | | |].
  - cbn [heap_head relist]. change (heap_head h1) with (heap_head h). rewrite (sh_head _ _ Hs). by rewrite !first_app.
  - cbn [heap_tail relist]. change (heap_tail h1) with (heap_tail h). rewrite (sh_tail _ _ Hs), !lasta_app. cbn [lasta app]. by destruct l2.
  - cbn [headers relist]. rewrite seg_app. split.
    + cbn [app first]. apply seg_insert; [tauto |]. pose proof (sh_seg _ _ Hs) as Hg0. apply seg_app in Hg0 as [Hg0 _].
      eapply seg_frame; [| exact Hg0]. intros c Hc. assert (ba c ∈ map ba l1) by by apply list_elem_of_fmap_2.
      rewrite Hm; [cbn; by rewrite lookup_insert_ne by congruence |]. pose proof (shape_nodup _ _ Hs) as Hnd. rewrite map_app in Hnd.
      apply NoDup_app in Hnd as (_ & Hnd & _). intros Hc2. apply (Hnd (ba c)); [done |]. cbn. apply elem_of_cons; right. by apply elem_of_cons; right.
    + cbn [app seg first ba]. rewrite lookup_insert_ne by done. rewrite Hm by done. cbn [headers h1 put with_headers]. rewrite lookup_insert_eq. split; [done |].
      by apply seg_insert.
  - apply Forall_cons. split; [| constructor]. unfold in_bounds, kb_end, SIZEOF_BLOCK in *. cbn. lia.
  - cbn. split; [constructor | done].
  - intros c' a Hc' Ha. apply elem_of_cons in Hc' as [->|Hc']; [| by apply elem_of_nil in Hc']. unfold kb_end in *. cbn [ba bz] in Ha.
    destruct (decide (a < ba n)); [exists b | exists n]; (split; [rewrite !elem_of_cons; tauto | lia]).
Qed.

Definition heap_inv (h : @heap M) (l : list kb) : Prop := shape h l ∧ counted (stats h) l.

Lemma counted_account (h : @heap M) l l' u f :
  counted (stats h) l → total used_of l' = total used_of l + u → total free_of l' = total free_of l + f → total whole_of l' = total whole_of l →
  counted (stats (account h u f)) l'.
Proof.
  intros [H1 H2 H3] E1 E2 E3. split; cbn [account with_stats stats used_bytes free_bytes heap_bytes].
  - rewrite H1, E1. unfold wrap. by rewrite Zplus_mod_idemp_l.
  - rewrite H2, E2. unfold wrap. by rewrite Zplus_mod_idemp_l.
  - by rewrite H3, E3.
Qed.

Lemma shape_account h l u f : shape h l ↔ shape (account h u f) l.
Proof. split; intros []; split; done. Qed.

Lemma find_fit_spec (h : @heap M) l p n fuel :
  seg (headers h) p l 0 → Forall in_bounds l → (length l < fuel)%nat →
  (∃ l1 b l2, l = l1 ++ b :: l2 ∧ bf b = true ∧ n ≤ bz b ∧ find_fit fuel h (first l 0) n = Ret (Some (ba b))) ∨
  (find_fit fuel h (first l 0) n = Ret None ∧ Forall (λ b, bf b = true → bz b < n) l).
Proof.
  intros Hg Hr. revert p fuel Hg. induction Hr as [|b l Hb Hr IH]; intros p fuel Hg Hf; (destruct fuel as [|fuel]; [cbn in Hf; lia |]); cbn [find_fit first].
  { right. done. }
  destruct Hg as [Hb1 Hg]. destruct (Z.eqb_spec (ba b) 0); [unfold in_bounds in Hb; lia |]. unfold ld. rewrite Hb1. mred. cbn [magic size free next header_of].
  assert (negb (magic_of (bf b) =? KMEM_MAGIC_FREE) && negb (magic_of (bf b) =? KMEM_MAGIC_ALLOC) = false) as -> by by destruct (bf b).
  destruct (bf b && (n <=? bz b)) eqn:E.
  - left. exists [], b, l. apply andb_true_iff in E as [E1 E2]. split_and!; [done | done | lia | done].
  - destruct (IH (ba b) fuel Hg) as [(l1 & c & l2 & -> & H1 & H2 & H3)|[H1 H2]]; [cbn in Hf; lia | |].
    + left. by exists (b :: l1), c, l2.
    + right. split; [done |]. apply Forall_cons. split; [| done]. intros E1. rewrite E1 in E. cbn in E. lia.
Qed.

Definition allocs (l : list kb) : list kb := filter (λ b, bf b = false) l.

Lemma allocs_app l1 l2 : allocs (l1 ++ l2) = allocs l1 ++ allocs l2.
Proof. apply filter_app. Qed.

Lemma allocs_cons b l : allocs (b :: l) = (if bf b then [] else [b]) ++ allocs l.
Proof. unfold allocs. rewrite filter_cons. destruct (bf b); [by rewrite decide_False | by rewrite decide_True]. Qed.

(** The payloads and the pages are as they were. *)
Definition same_bytes (h h' : @heap M) : Prop := ram h' = ram h ∧ source h' = source h.

Ltac totals := repeat first [rewrite total_app | rewrite total_cons | rewrite total_nil]; unfold used_of, free_of, whole_of, SIZEOF_BLOCK in *; cbn [bf bz ba] in *.

Lemma ld_some (h : @heap M) b k : headers h !! b = Some k → ld h b = Ret k.
Proof. unfold ld. by intros ->. Qed.

Lemma add_small a b c : a + b + c ≤ U64MAX → 0 ≤ c → (add_u64 a b ≫= λ t, add_u64 t c) = Some (a + b + c).
Proof. intros Ht Hc. unfold add_u64. destruct (Z.leb_spec (a + b) U64MAX); [cbn | lia]. destruct (Z.leb_spec (a + b + c) U64MAX); [done | lia]. Qed.

Lemma merge_forward_spec fuel h l1 b l2 :
  heap_inv h (l1 ++ b :: l2) → bf b = true → (length l2 < fuel)%nat →
  ∃ h' z l2', merge_forward fuel h (ba b) = Ret h' ∧ heap_inv h' (l1 ++ mk_kb (ba b) z true :: l2') ∧ allocs l2' = allocs l2 ∧ same_bytes h h'.
Proof.
  revert h b l2. induction fuel as [|fuel IH]; intros h b l2 [Hs Hc] Hf Hl; [lia |]. cbn [merge_forward].
  destruct (shape_middle _ _ _ _ Hs) as (Hb & Hb0 & _). destruct (Z.eqb_spec (ba b) 0) as [|Hb00]; [unfold in_bounds in Hb0; lia |].
  rewrite (ld_some _ _ _ Hb). mred. cbn [header_of next free size]. rewrite Hf. cbn [negb]. rewrite orb_false_r.
  assert (Hstop : ∃ h' z l2', Ret h = Ret h' ∧ heap_inv h' (l1 ++ mk_kb (ba b) z true :: l2') ∧ allocs l2' = allocs l2 ∧ same_bytes h h').
  { exists h, (bz b), l2. split; [done |]. split; [| done]. rewrite <- Hf. by destruct b. }
  destruct l2 as [|n l2]; cbn [first]; [exact Hstop |].
  assert (Hs' : shape h ((l1 ++ [b]) ++ n :: l2)) by by rewrite <- app_assoc.
  destruct (shape_middle _ _ _ _ Hs') as (Hn & Hn0 & _). destruct (Z.eqb_spec (ba n) 0) as [|Hn00]; [unfold in_bounds in Hn0; lia |].
  rewrite (ld_some _ _ _ Hn). mred. cbn [header_of free size next]. destruct (bf n) eqn:Hfn; cbn [negb orb]; [| exact Hstop].
  unfold block_payload. destruct (Z.eqb_spec (ba b + SIZEOF_BLOCK + bz b) (ba n)) as [He|]; cbn [negb]; [| exact Hstop].
  rewrite add_small by (unfold in_bounds, kb_end, SIZEOF_BLOCK, MEMORY_KERNEL_DIRECT_LIMIT in *; ulia).
  set (h1 := account h 0 SIZEOF_BLOCK). assert (Hs1 : shape h1 (l1 ++ b :: n :: l2)) by by apply shape_account.
  destruct (absorb_spec h1 l1 b n l2 Hs1 He) as (m & t & E & Hsh).
  match goal with |- context [?e = Ret _] => replace e with (absorb h1 (ba b) (header_of b (lasta l1 0) (ba n)) (header_of n (ba b) (first l2 0)) (bz b + SIZEOF_BLOCK + bz n) ≫= λ h, merge_forward fuel h (ba b)) end.
  2: { unfold absorb. cbn [header_of magic free prev next]. rewrite Hf, res_bind_assoc. apply res_bind_ext. intros x. by rewrite res_bind_assoc. }
  rewrite E. mred. cbn [length] in Hl.
  destruct (IH (relist h1 m t) (mk_kb (ba b) (bz b + SIZEOF_BLOCK + bz n) true) l2) as (h' & z & l2' & E' & Hi & Ha & Hsb); [| done | lia |].
  - split; [by rewrite <- Hf |]. apply (counted_account h (l1 ++ b :: n :: l2)); [done | | |]; totals; rewrite ?Hf, ?Hfn; lia.
  - exists h', z, l2'. split; [exact E' |]. split; [exact Hi |]. split; [| exact Hsb]. rewrite allocs_cons, Hfn. exact Ha.
Qed.

(** Sizes are rounded up to a multiple of 16. *)
Definition up16 (n : Z) : Z := (n + 15) / 16 * 16.

Lemma up16_bounds n : n ≤ up16 n < n + 16.
Proof. unfold up16. pose proof (Z.div_mod (n + 15) 16 ltac:(lia)). pose proof (Z.mod_pos_bound (n + 15) 16 ltac:(lia)). lia. Qed.

Lemma up16_idem n : up16 (up16 n) = up16 n.
Proof.
  unfold up16 at 1. unfold up16 at 1. replace ((n + 15) / 16 * 16 + 15) with (15 + (n + 15) / 16 * 16) by lia. rewrite Z.div_add by lia. done.
Qed.

Lemma align16_spec n : 0 ≤ n ≤ KMALLOC_MAX → align16_checked n = Some (up16 n).
Proof.
  unfold KMALLOC_MAX. intros Hn. unfold align16_checked, add_u64. destruct (Z.leb_spec (n + 15) U64MAX); [| ulia].
  f_equal. apply (land_align_mask (n + 15) 4); ulia.
Qed.

Lemma up16_max n : 0 ≤ n ≤ KMALLOC_MAX → 0 ≤ up16 n ≤ KMALLOC_MAX.
Proof.
  unfold KMALLOC_MAX, up16. intros Hn. split; [apply Z.mul_nonneg_nonneg; [apply Z.div_pos; lia | lia] |].
  change (64 * 1024 * 1024) with (4194304 * 16) in *. apply Z.mul_le_mono_nonneg_r; [lia |].
  apply Z.lt_succ_r, Z.div_lt_upper_bound; lia.
Qed.

Lemma align16_aligned w n : 0 ≤ n ≤ KMALLOC_MAX → w = up16 n → align16 w = w.
Proof. intros Hn ->. unfold align16. rewrite align16_spec by by apply up16_max. cbn. apply up16_idem. Qed.

(** Marking a block allocated or free. *)
Lemma flag_spec h l1 b l2 f :
  shape h (l1 ++ b :: l2) →
  shape (put h (ba b) (header_of (mk_kb (ba b) (bz b) f) (lasta l1 0) (first l2 0))) (l1 ++ mk_kb (ba b) (bz b) f :: l2).
Proof.
  intros Hs. destruct (shape_middle _ _ _ _ Hs) as (Hb & Hb0 & Hb1 & Hb2).
  apply (reshape h _ l1 [b] [mk_kb (ba b) (bz b) f] l2); [exact Hs | apply Hs | done | | | | | |].
  - cbn [heap_head put with_headers]. rewrite (sh_head _ _ Hs). by rewrite !first_app.
  - cbn [heap_tail put with_headers]. rewrite (sh_tail _ _ Hs), !lasta_app. done.
  - pose proof (sh_seg _ _ Hs) as Hg. apply seg_app in Hg as [Hg1 [_ Hg2]]. cbn [headers put with_headers].
    apply seg_app. split; [by apply seg_insert |]. cbn [app seg ba]. rewrite lookup_insert_eq. split; [done |]. by apply seg_insert.
  - apply Forall_cons. split; [exact Hb0 | constructor].
  - cbn. split; [constructor | done].
  - intros c a Hc Ha. apply elem_of_cons in Hc as [->|Hc]; [| by apply elem_of_nil in Hc]. exists b. split; [by apply elem_of_cons; left | exact Ha].
Qed.

Lemma split_block_spec h l1 b l2 w :
  heap_inv h (l1 ++ b :: l2) → bf b = true → 0 ≤ w ≤ bz b → align16 w = w →
  ∃ h' z x, split_block h (ba b) w = Ret h' ∧ heap_inv h' (l1 ++ mk_kb (ba b) z true :: x ++ l2) ∧ w ≤ z ∧ allocs x = [] ∧ same_bytes h h'.
Proof.
  intros [Hs Hc] Hf Hw Ha. destruct (shape_middle _ _ _ _ Hs) as (Hb & Hb0 & _). unfold split_block. rewrite Ha.
  assert (Hstop : ∃ h' z x, Ret h = Ret h' ∧ heap_inv h' (l1 ++ mk_kb (ba b) z true :: x ++ l2) ∧ w ≤ z ∧ allocs x = [] ∧ same_bytes h h').
  { exists h, (bz b), []. split; [done |]. split; [| split; [lia | done]]. rewrite <- Hf. by destruct b. }
  destruct (Z.eqb_spec (ba b) 0) as [|_]; [exact Hstop |]. rewrite (ld_some _ _ _ Hb). mred. cbn [free header_of size]. rewrite Hf. cbn [negb].
  unfold split_threshold. rewrite add_small by (unfold in_bounds, kb_end, SIZEOF_BLOCK, KMEM_MIN_SPLIT, MEMORY_KERNEL_DIRECT_LIMIT in *; ulia).
  destruct (Z.ltb_spec (bz b) (w + SIZEOF_BLOCK + KMEM_MIN_SPLIT)) as [|Hge]; [exact Hstop |]. unfold KMEM_MIN_SPLIT in Hge.
  destruct (carve_spec h l1 b l2 w Hs) as (m & t & E & Hs'); [lia | lia |]. rewrite E. mred.
  eexists _, w, [mk_kb (ba b + SIZEOF_BLOCK + w) (bz b - w - SIZEOF_BLOCK) true]. split; [done |]. rewrite Hf in Hs'. split; [| split; [lia | done]].
  split; [by apply shape_account |]. apply (counted_account (relist h m t) (l1 ++ b :: l2)); [done | | |]; totals; rewrite ?Hf; lia.
Qed.

Lemma take_block_spec h l1 b l2 w :
  heap_inv h (l1 ++ b :: l2) → bf b = true → 0 ≤ w ≤ bz b → align16 w = w →
  ∃ h' z l', take_block h (ba b) w = Ret (h', block_payload (ba b)) ∧ heap_inv h' l' ∧ w ≤ z ∧
    allocs l' = allocs l1 ++ mk_kb (ba b) z false :: allocs l2 ∧ source h' = source h ∧ ram h' = fill_bytes (ram h) (block_payload (ba b)) z 0.
Proof.
  intros Hi Hf Hw Ha. destruct (split_block_spec h l1 b l2 w Hi Hf Hw Ha) as (h1 & z & x & E & [Hs Hc] & Hz & Hx & Hr & Hsrc).
  unfold take_block. rewrite E. mred. destruct (shape_middle _ _ _ _ Hs) as (Hb & _). cbn [ba] in Hb. rewrite (ld_some _ _ _ Hb). mred. cbn [size header_of bz].
  eexists _, z, (l1 ++ mk_kb (ba b) z false :: x ++ l2). split; [done |]. split; [split |].
  - pose proof (flag_spec h1 l1 _ (x ++ l2) false Hs) as [H1 H2 H3 H4 H5 H6 H7 H8]. split; done.
  - pose proof (counted_account h1 (l1 ++ mk_kb (ba b) z true :: x ++ l2) (l1 ++ mk_kb (ba b) z false :: x ++ l2) z (- z) Hc) as [H1 H2 H3];
      [totals; lia.. |]. split; done.
  - split; [done |]. rewrite allocs_app, allocs_cons, allocs_app, Hx. cbn [bf app]. split; [done |]. split; [exact Hsrc |]. cbn. by rewrite Hr.
Qed.

(** A block on pages that were not in use is apart from the others. *)
Lemma fresh_span h l b p :
  shape h l → 0 < p → 0 < b → (b + p) * PAGE_SIZE ≤ MEMORY_KERNEL_DIRECT_LIMIT → (∀ f, b ≤ f < b + p → ¬ in_use (source h) f) →
  let n := mk_kb (b * PAGE_SIZE) (p * PAGE_SIZE - SIZEOF_BLOCK) true in in_bounds n ∧ ∀ c, c ∈ l → apart c n.
Proof.
  intros Hs Hp Hb Hl Hf n. unfold PAGE_SIZE in *. assert (Hn : in_bounds n) by (unfold in_bounds, n, kb_end, SIZEOF_BLOCK in *; cbn; lia).
  split; [done |]. intros c Hc. pose proof (sh_range _ _ Hs) as Hr. rewrite Forall_forall in Hr. apply apart_bytes; [by apply Hr | done |].
  intros a Hac Han. apply (Hf (a / 4096)); [| by eapply (sh_used _ _ Hs c)]. unfold n, kb_end, SIZEOF_BLOCK in Han. cbn in Han.
  split; [apply Z.div_le_lower_bound; lia | apply Z.div_lt_upper_bound; lia].
Qed.

Lemma insert_block_spec h l n :
  shape h l → in_bounds n → (∀ c, c ∈ l → apart c n) → bf n = true →
  ∃ m, insert_block (put h (ba n) (header_of n 0 0)) (ba n) =
    Ret (mk_heap m (ram h) (first (l ++ [n]) 0) (ba n) (stats h) (initialized h) (source h) (logged h)) ∧ seg m 0 (l ++ [n]) 0.
Proof.
  intros Hs Hn Ha Hf. assert (Hnl : ba n ∉ map ba l).
  { intros (c & E & Hc)%list_elem_of_fmap. pose proof (sh_range _ _ Hs) as Hr. rewrite Forall_forall in Hr. by apply (apart_addr c n); auto. }
  unfold insert_block. rewrite (ld_some _ _ (header_of n 0 0)) by apply lookup_insert_eq. mred. cbn [magic size free header_of heap_tail put with_headers headers].
  rewrite (sh_tail _ _ Hs). destruct l as [|c l1 _] using rev_ind.
  - cbn [lasta Z.eqb negb app first]. mred. eexists. split; [done |]. cbn [seg first]. split; [| done]. apply lookup_insert_eq.
  - rewrite lasta_app. cbn [lasta]. destruct (shape_middle h l1 c [] Hs) as (Hc & Hc0 & Hc1 & _).
    rewrite map_app, elem_of_app in Hnl. assert (Hcn : ba c ≠ ba n) by (intros E; apply Hnl; right; rewrite <- E; by apply elem_of_cons; left).
    destruct (Z.eqb_spec (ba c) 0); [unfold in_bounds in Hc0; lia |]. cbn [negb].
    rewrite (ld_some _ _ (header_of c (lasta l1 0) 0)) by (cbn; by rewrite !lookup_insert_ne by done). mred. cbn [set_next header_of magic size free prev].
    assert (first ((l1 ++ [c]) ++ [n]) 0 = heap_head h) as -> by (rewrite (sh_head _ _ Hs), !first_app; by destruct l1). eexists. split; [done |].
    rewrite <- app_assoc. apply seg_app. cbn [app first seg headers put with_headers with_tail]. rewrite lookup_insert_eq. rewrite lookup_insert_ne, lookup_insert_eq by done. split; [| done].
    pose proof (sh_seg _ _ Hs) as Hg. apply seg_app in Hg as [Hg _]. by repeat apply seg_insert; try tauto.
Qed.

Lemma add_heap_pages_spec h l p :
  heap_inv h l → 0 < p → p ≤ U64MAX / PAGE_SIZE →
  ∃ h' ok, add_heap_pages h p = Ret (h', ok) ∧ ram h' = ram h ∧
    if ok : bool then ∃ a, heap_inv h' (l ++ [mk_kb a (p * PAGE_SIZE - SIZEOF_BLOCK) true])
    else heap_inv h' l ∧ ∃ m, alloc_pages (source h) p = Ret (m, 0).
Proof.
  intros [Hs Hc] Hp Hmax. unfold add_heap_pages. destruct (Z.eqb_spec p 0); [lia |]. destruct (Z.ltb_spec (U64MAX / PAGE_SIZE) p); [lia |]. cbn [orb].
  destruct (Z.leb_spec (p * PAGE_SIZE) SIZEOF_BLOCK); [unfold PAGE_SIZE, SIZEOF_BLOCK in *; lia |].
  destruct (alloc_pages_law (source h) p (sh_pages _ _ Hs) Hp) as (m & r & E & Hok & [(-> & Hsame)|(b & -> & Hb & Hlim & Hfree & Huse)]); rewrite E; mred.
  - cbn [Z.eqb]. eexists _, false. split; [done |]. split; [done |]. split; [| by eexists]. split; [| done].
    destruct Hs as [S1 S2 S3 S4 S5 S6 S7 S8]. split; try done. intros c x Hcx Hx. apply Hsame. by eapply S8.
  - destruct (Z.eqb_spec (b * PAGE_SIZE) 0); [unfold PAGE_SIZE in *; lia |].
    destruct (fresh_span h l b p Hs Hp Hb Hlim Hfree) as [Hn Ha]. set (nb := mk_kb (b * PAGE_SIZE) _ true) in *.
    destruct (insert_block_spec (with_source h m) l nb) as (m' & E' & Hg); [| done | done | done |].
    { destruct Hs as [S1 S2 S3 S4 S5 S6 S7 S8]. split; try done. intros c x Hcx Hx. apply Huse. left. by eapply S8. }
    change (header_of nb 0 0) with (mk_block KMEM_MAGIC_FREE (p * PAGE_SIZE - SIZEOF_BLOCK) true 0 0) in E'. cbn [ba nb] in E'. rewrite E'. mred.
    eexists _, true. split; [done |]. split; [done |]. exists (b * PAGE_SIZE). fold nb. split.
    + destruct Hs as [S1 S2 S3 S4 S5 S6 S7 S8]. split; try done.
      * cbn. by rewrite lasta_app.
      * apply Forall_app. split; [done |]. by apply Forall_singleton.
      * apply pairwise_app. split_and!; [done | by split | ]. intros c d Hcl Hd. apply elem_of_cons in Hd as [->|Hd]; [by apply Ha | by apply elem_of_nil in Hd].
      * intros c x Hcx Hx. apply Huse. apply elem_of_app in Hcx as [Hcx|Hcx]; [left; by eapply S8 |]. right.
        apply elem_of_cons in Hcx as [->|Hd]; [| by apply elem_of_nil in Hd]. unfold nb, kb_end, SIZEOF_BLOCK, PAGE_SIZE in *. cbn in Hx.
        split; [apply Z.div_le_lower_bound; lia | apply Z.div_lt_upper_bound; lia].
    + destruct Hc as [T1 T2 T3]. split; cbn; totals; unfold nb; cbn [bf bz].
      * by rewrite T1, !Z.add_0_r.
      * rewrite T2. unfold wrap. rewrite Zplus_mod_idemp_l. f_equal. lia.
      * rewrite T3. unfold wrap. rewrite Zplus_mod_idemp_l. f_equal. lia.
Qed.

Lemma inv_failure h l : heap_inv h l → heap_inv (count_failure h) l.
Proof. intros [[] []]. by split; split. Qed.

Lemma inv_log h l k : heap_inv h l → heap_inv (with_log h k) l.
Proof. intros [[] []]. by split; split. Qed.

(** A free block has become an allocated one of at least [w] bytes, cleared. *)
Definition took (h : @heap M) (l : list kb) (w : Z) (h' : @heap M) (q : Z) (l' : list kb) : Prop :=
  ∃ a z l1 l2, q = block_payload a ∧ w ≤ z ∧ allocs l = l1 ++ l2 ∧ allocs l' = l1 ++ mk_kb a z false :: l2 ∧
    ram h' = fill_bytes (ram h) (block_payload a) z 0.

(** The frame allocator had no run for [w] bytes. *)
Definition no_pages (h : @heap M) (w : Z) : Prop :=
  ∃ p m, p = Z.max 4 ((w + SIZEOF_BLOCK + (PAGE_SIZE - 1)) / PAGE_SIZE) ∧ alloc_pages (source h) p = Ret (m, 0).

Lemma alloc_retry_S f (h : @heap M) w :
  alloc_retry (S f) h w =
    (b ← find_fit (turns h) h (heap_head h) w;
     match b with
     | Some b => take_block h b w
     | None =>
         match add_u64 w SIZEOF_BLOCK ≫= λ t, add_u64 t (PAGE_SIZE - 1) with
         | None => Ret (count_failure h, 0)
         | Some needed =>
             let pages := needed / PAGE_SIZE in
             let pages := if pages <? 4 then 4 else pages in
             '(h, ok) ← add_heap_pages h pages;
             if ok : bool then alloc_retry f h w
             else Ret (with_log (count_failure h) (mk_klog LOG_ERROR (lit "kmem") (lit "allocation failed: %llu") [VLong w]), 0)
         end
     end).
Proof. done. Qed.

Lemma alloc_fits f h l1 b l2 w :
  heap_inv h (l1 ++ b :: l2) → bf b = true → w ≤ bz b → 0 < w → align16 w = w →
  ∃ h' q l', alloc_retry (S f) h w = Ret (h', q) ∧ heap_inv h' l' ∧ took h (l1 ++ b :: l2) w h' q l'.
Proof.
  intros Hi Hf Hw Hw0 Ha. rewrite alloc_retry_S. pose proof Hi as [Hs _]. rewrite (sh_head _ _ Hs).
  destruct (find_fit_spec h _ 0 w (turns h) (sh_seg _ _ Hs) (sh_range _ _ Hs) (length_turns _ _ Hs)) as [(l1' & c & l2' & El & Hcf & Hcz & ->)|[_ Hno]].
  - mred. rewrite El in Hi |- *. destruct (take_block_spec h l1' c l2' w Hi Hcf) as (h' & z & l' & -> & Hi' & Hz & Hal & _ & Hram); [lia | done |].
    exists h', (block_payload (ba c)), l'. split; [done |]. split; [done |]. exists (ba c), z, (allocs l1'), (allocs l2').
    rewrite allocs_app, allocs_cons, Hcf. done.
  - apply Forall_app in Hno as [_ Hno]. apply Forall_cons in Hno as [Hno _]. specialize (Hno Hf). lia.
Qed.

(** An allocation succeeds, or the frame allocator had no pages for it. *)
Lemma alloc_retry_spec h l w :
  heap_inv h l → 0 < w ≤ KMALLOC_MAX → align16 w = w →
  ∃ h' q l', alloc_retry 2 h w = Ret (h', q) ∧ heap_inv h' l' ∧
    (took h l w h' q l' ∨ q = 0 ∧ l' = l ∧ ram h' = ram h ∧ no_pages h w).
Proof.
  intros Hi Hw Ha. pose proof Hi as [Hs _].
  destruct (find_fit_spec h l 0 w (turns h) (sh_seg _ _ Hs) (sh_range _ _ Hs) (length_turns _ _ Hs)) as [(l1 & c & l2 & -> & Hcf & Hcz & _)|[E Hno]].
  { destruct (alloc_fits 1 h l1 c l2 w) as (h' & q & l' & E & Hi' & Ht); [done | done | done | lia | done |]. exists h', q, l'. tauto. }
  rewrite alloc_retry_S, (sh_head _ _ Hs), E. mred. unfold KMALLOC_MAX in Hw.
  rewrite add_small by (unfold SIZEOF_BLOCK, PAGE_SIZE; ulia). cbv zeta. set (p := if _ <? 4 then 4 else _).
  assert (Hp : w + SIZEOF_BLOCK ≤ p * PAGE_SIZE ∧ 4 ≤ p ≤ 65536 ∧ p = Z.max 4 ((w + SIZEOF_BLOCK + (PAGE_SIZE - 1)) / PAGE_SIZE)).
  { unfold p, PAGE_SIZE, SIZEOF_BLOCK. pose proof (Z.div_mod (w + 40 + (4096 - 1)) 4096 ltac:(lia)) as Hd.
    pose proof (Z.mod_pos_bound (w + 40 + (4096 - 1)) 4096 ltac:(lia)). destruct (Z.ltb_spec ((w + 40 + (4096 - 1)) / 4096) 4); lia. }
  destruct (add_heap_pages_spec h l p Hi) as (h1 & ok & -> & Hr & Hok); [lia | change (U64MAX / PAGE_SIZE) with 4503599627370495; lia |]. mred. destruct ok.
  - destruct Hok as (a & Hi1).
    destruct (alloc_fits 0 h1 l (mk_kb a (p * PAGE_SIZE - SIZEOF_BLOCK) true) [] w Hi1) as (h' & q & l' & -> & Hi' & Ht); [done | cbn; lia | lia | done |].
    exists h', q, l'. split; [done |]. split; [done |]. left. unfold took in *. rewrite allocs_app, allocs_cons in Ht. cbn [bf app] in Ht.
    change (allocs []) with (@nil kb) in Ht. by rewrite app_nil_r, Hr in Ht.
  - destruct Hok as [Hi1 [m Em]]. eexists _, 0, l. split; [done |]. split; [by apply inv_log, inv_failure |]. right. split_and!; [done | done | exact Hr |].
    exists p, m. split; [lia | done].
Qed.

(** An initialised heap allocates: refusals are an empty or oversized request or a
    lack of pages. *)
Lemma kmalloc_spec h l n :
  heap_inv h l → 0 ≤ n →
  ∃ h' q l', kmalloc h n = Ret (h', q) ∧ heap_inv h' l' ∧
    (took h l n h' q l' ∧ 0 < n ≤ KMALLOC_MAX ∨ q = 0 ∧ l' = l ∧ ram h' = ram h ∧ (n = 0 ∨ KMALLOC_MAX < n ∨ no_pages h (up16 n))).
Proof.
  intros Hi Hn. unfold kmalloc, kmalloc_locked, kmem_init. rewrite (sh_init _ _ (proj1 Hi)). cbn [negb]. mred.
  destruct (Z.eqb_spec n 0) as [|Hn0]; [by exists h, 0, l; split_and!; [| done | right; tauto] |].
  destruct (Z.ltb_spec KMALLOC_MAX n) as [|Hmax]; [by eexists _, 0, l; split_and!; [| by apply inv_failure | right; tauto] |].
  rewrite align16_spec by lia. pose proof (up16_bounds n). pose proof (up16_max n ltac:(lia)). destruct (Z.eqb_spec (up16 n) 0); [lia |].
  destruct (alloc_retry_spec h l (up16 n) Hi) as (h' & q & l' & -> & Hi' & [Ht|Ht]); [lia | by apply (align16_aligned _ n); [lia |] | |].
  - exists h', q, l'. split; [done |]. split; [done |]. left. split; [| lia]. destruct Ht as (a & z & l1 & l2 & ? & ? & ?). exists a, z, l1, l2. split_and!; [done | lia | tauto | tauto | tauto].
  - exists h', q, l'. split; [done |]. split; [done |]. right. tauto.
Qed.

Lemma turns_account (h : @heap M) u f : turns (account h u f) = turns h.
Proof. done. Qed.

Lemma length_turns_tail h l1 b l2 : shape h (l1 ++ b :: l2) → (length l2 < turns h)%nat.
Proof. intros Hs%length_turns. rewrite length_app in Hs. cbn in Hs. lia. Qed.

Lemma allocs_mid l1 b l2 : allocs (l1 ++ b :: l2) = allocs l1 ++ (if bf b then [] else [b]) ++ allocs l2.
Proof. by rewrite allocs_app, allocs_cons. Qed.

(** Freeing an allocated block. *)
Lemma kfree_spec h l1 b l2 :
  heap_inv h (l1 ++ b :: l2) → bf b = false →
  ∃ h' l', kfree h (block_payload (ba b)) = Ret h' ∧ heap_inv h' l' ∧ allocs l' = allocs l1 ++ allocs l2 ∧ same_bytes h h'.
Proof.
  intros [Hs Hc] Hf. destruct (shape_middle _ _ _ _ Hs) as (Hb & Hb0 & _). unfold kfree, kfree_locked, block_payload, payload_block.
  destruct (Z.eqb_spec (ba b + SIZEOF_BLOCK) 0); [unfold in_bounds, SIZEOF_BLOCK in *; lia |].
  replace (ba b + SIZEOF_BLOCK - SIZEOF_BLOCK) with (ba b) by lia. rewrite (ld_some _ _ _ Hb). mred. cbn [magic free size prev header_of]. rewrite Hf.
  change (negb (magic_of false =? KMEM_MAGIC_ALLOC) || false) with false. cbv iota.
  set (b' := mk_kb (ba b) (bz b) true). set (h1 := account (put h (ba b) _) (- bz b) (bz b)).
  assert (Hi1 : heap_inv h1 (l1 ++ b' :: l2)).
  { split; [apply shape_account; exact (flag_spec h l1 b l2 true Hs) |].
    apply (counted_account _ (l1 ++ b :: l2)); [done | | |]; totals; rewrite ?Hf; unfold b'; cbn [bf bz]; lia. }
  assert (Hsame : same_bytes h h1) by done.
  destruct l1 as [|c l0 _] using rev_ind.
  - cbn [lasta Z.eqb negb]. mred.
    destruct (merge_forward_spec (turns h1) h1 [] b' l2) as (h' & z & l2' & E & Hi' & Ha & Hsb); [exact Hi1 | done | eapply length_turns_tail, Hi1 |].
    exists h', (mk_kb (ba b) z true :: l2'). split; [exact E |]. split; [exact Hi' |]. split; [by rewrite allocs_cons | exact Hsb].
  - rewrite lasta_app. cbn [lasta]. assert (Hi2 : heap_inv h1 (l0 ++ c :: b' :: l2)) by by rewrite <- app_assoc in Hi1.
    destruct (shape_middle _ _ _ _ (proj1 Hi2)) as (Hch & Hc0 & _). destruct (Z.eqb_spec (ba c) 0); [unfold in_bounds in Hc0; lia |]. cbn [negb].
    rewrite (ld_some _ _ _ Hch). mred. cbn [free size header_of]. unfold block_payload. destruct (bf c && (ba c + SIZEOF_BLOCK + bz c =? ba b)) eqn:Ej.
    + apply andb_true_iff in Ej as [Ecf _].
      destruct (merge_forward_spec (turns h1) h1 l0 c (b' :: l2)) as (h' & z & l2' & E & Hi' & Ha & Hsb); [exact Hi2 | done | eapply length_turns_tail, Hi2 |].
      exists h', (l0 ++ mk_kb (ba c) z true :: l2'). split; [exact E |]. split; [exact Hi' |]. split; [| exact Hsb].
      rewrite allocs_mid, Ha, allocs_cons, allocs_app, (allocs_cons c), Ecf. cbn [bf b' app]. change (allocs []) with (@nil kb). by rewrite app_nil_r.
    + destruct (merge_forward_spec (turns h1) h1 (l0 ++ [c]) b' l2) as (h' & z & l2' & E & Hi' & Ha & Hsb); [exact Hi1 | done | eapply length_turns_tail, Hi1 |].
      exists h', ((l0 ++ [c]) ++ mk_kb (ba b) z true :: l2'). split; [exact E |]. split; [exact Hi' |]. split; [| exact Hsb].
      by rewrite allocs_mid, Ha.
Qed.

Lemma split_allocated_spec h l1 b l2 w :
  heap_inv h (l1 ++ b :: l2) → bf b = false → 0 ≤ w ≤ bz b → align16 w = w →
  ∃ h' z l', split_allocated_block h (ba b) w = Ret h' ∧ heap_inv h' l' ∧ w ≤ z ≤ bz b ∧
    allocs l' = allocs l1 ++ mk_kb (ba b) z false :: allocs l2 ∧ same_bytes h h'.
Proof.
  intros [Hs Hc] Hf Hw Ha. destruct (shape_middle _ _ _ _ Hs) as (Hb & Hb0 & _). unfold split_allocated_block. rewrite Ha.
  assert (Hstop : ∃ h' z l', Ret h = Ret h' ∧ heap_inv h' l' ∧ w ≤ z ≤ bz b ∧ allocs l' = allocs l1 ++ mk_kb (ba b) z false :: allocs l2 ∧ same_bytes h h').
  { exists h, (bz b), (l1 ++ b :: l2). split; [done |]. split; [done |]. split; [lia |]. rewrite allocs_mid, Hf. split; [| done]. rewrite <- Hf. by destruct b. }
  destruct (Z.eqb_spec (ba b) 0) as [|_]; [exact Hstop |]. rewrite (ld_some _ _ _ Hb). mred. cbn [free header_of size]. rewrite Hf.
  unfold split_threshold. rewrite add_small by (unfold in_bounds, kb_end, SIZEOF_BLOCK, KMEM_MIN_SPLIT, MEMORY_KERNEL_DIRECT_LIMIT in *; ulia).
  destruct (Z.ltb_spec (bz b) (w + SIZEOF_BLOCK + KMEM_MIN_SPLIT)) as [|Hge]; [exact Hstop |]. unfold KMEM_MIN_SPLIT in Hge.
  destruct (carve_spec h l1 b l2 w Hs) as (m & t & E & Hs'); [lia | lia |]. rewrite E. mred. rewrite Hf in Hs'.
  set (r := mk_kb (ba b + SIZEOF_BLOCK + w) (bz b - w - SIZEOF_BLOCK) true) in *. set (h1 := account (relist h m t) _ _).
  assert (Hi1 : heap_inv h1 ((l1 ++ [mk_kb (ba b) w false]) ++ r :: l2)).
  { split; [rewrite <- app_assoc; by apply shape_account |].
    apply (counted_account _ (l1 ++ b :: l2)); [done | | |]; totals; rewrite ?Hf; unfold r; cbn [bf bz]; lia. }
  destruct (merge_forward_spec (turns h1) h1 (l1 ++ [mk_kb (ba b) w false]) r l2) as (h' & z & l2' & E' & Hi' & Hal & Hsb); [exact Hi1 | done | eapply length_turns_tail, Hi1 |].
  exists h', w, ((l1 ++ [mk_kb (ba b) w false]) ++ mk_kb (ba r) z true :: l2'). split; [exact E' |]. split; [exact Hi' |]. split; [unfold SIZEOF_BLOCK in *; lia |].
  split; [| exact Hsb]. rewrite allocs_mid, Hal, allocs_app, allocs_cons. cbn [bf app]. change (allocs []) with (@nil kb). by rewrite <- app_assoc.
Qed.

(** ** The client's view *)

Lemma elem_allocs b l : b ∈ allocs l ↔ b ∈ l ∧ bf b = false.
Proof. unfold allocs. rewrite list_elem_of_filter. tauto. Qed.

Lemma allocs_pairwise l : pairwise l → pairwise (allocs l).
Proof.
  induction l as [|b l IH]; [done |]. intros [H1 H2]. rewrite allocs_cons. destruct (bf b); [by apply IH |]. split; [| by apply IH].
  apply Forall_forall. intros c Hc. apply elem_allocs in Hc as [Hc _]. by eapply Forall_forall in H1.
Qed.

Lemma shape_allocs h l : shape h l → pairwise (allocs l) ∧ Forall in_bounds (allocs l).
Proof.
  intros Hs. split; [apply allocs_pairwise, Hs |]. pose proof (sh_range _ _ Hs) as Hr. rewrite Forall_forall in Hr |- *.
  intros b Hb. apply Hr. by apply elem_allocs in Hb as [Hb _].
Qed.

Lemma allocs_split h l a1 b a2 :
  shape h l → allocs l = a1 ++ b :: a2 → (b ∉ a1 ++ a2) ∧ ∀ c, c ∈ a1 ++ a2 → apart c b ∧ ba c ≠ ba b.
Proof.
  intros Hs E. destruct (shape_allocs _ _ Hs) as [Hp Hr]. rewrite E in Hp, Hr. apply (pairwise_middle a1 [b] a2) in Hp as (_ & _ & Ha).
  rewrite Forall_forall in Hr. assert (Hb : in_bounds b) by (apply Hr; rewrite elem_of_app, elem_of_cons; tauto).
  assert (Hall : ∀ c, c ∈ a1 ++ a2 → apart c b ∧ ba c ≠ ba b).
  { intros c Hc. assert (Hcb : apart c b) by (apply Ha; [done | by apply elem_of_cons; left]). split; [done |]. apply apart_addr; [| done | done].
    apply Hr. rewrite elem_of_app, elem_of_cons. rewrite elem_of_app in Hc. tauto. }
  split; [| done]. intros Hb'. by destruct (Hall b Hb').
Qed.

(** The blocks clients hold, by address, with the sizes they asked for. *)
Record view (l : list kb) (req : Zmap Z) : Prop := {
  vw_live : ∀ p n, req !! p = Some n → ∃ b, b ∈ allocs l ∧ p = block_payload (ba b) ∧ 0 ≤ n ≤ bz b;
  vw_all : ∀ b, b ∈ allocs l → is_Some (req !! block_payload (ba b));
}.

Definition bytes_at (r : Z → Z) (p n : Z) : list Z := map r (seqZ p n).
Definition contents (r : Z → Z) (req : Zmap Z) : Zmap (list Z) := map_imap (λ p n, Some (bytes_at r p n)) req.

Lemma contents_lookup r req p : contents r req !! p = bytes_at r p <$> req !! p.
Proof. unfold contents. rewrite map_lookup_imap. by destruct (req !! p). Qed.

Lemma bytes_at_ext r r' p n : (∀ x, p ≤ x < p + n → r x = r' x) → bytes_at r p n = bytes_at r' p n.
Proof. intros E. apply map_ext_in. intros x Hx%list_elem_of_In%elem_of_seqZ. apply E. lia. Qed.

Lemma contents_ext r r' req : (∀ p n, req !! p = Some n → ∀ x, p ≤ x < p + n → r x = r' x) → contents r req = contents r' req.
Proof.
  intros E. apply map_eq. intros p. rewrite !contents_lookup. destruct (req !! p) as [n|] eqn:Hp; [| done]. cbn. f_equal. by apply bytes_at_ext, E.
Qed.

Lemma bytes_filled r a n z : n ≤ z → bytes_at (fill_bytes r a z 0) a n = replicate (Z.to_nat n) 0.
Proof.
  intros Hn. symmetry. apply replicate_as_elem_of. unfold bytes_at. rewrite length_map, length_seqZ. split; [done |].
  intros y (x & -> & Hx)%list_elem_of_fmap. apply elem_of_seqZ in Hx. unfold fill_bytes. destruct (Z.leb_spec a x), (Z.ltb_spec x (a + z)); cbn; lia.
Qed.

Lemma zlen_bytes_at r p n : 0 ≤ n → zlen (bytes_at r p n) = n.
Proof. intros Hn. unfold zlen, bytes_at. rewrite length_map, length_seqZ. lia. Qed.

Lemma take_bytes_at r p n k : 0 ≤ k ≤ n → take (Z.to_nat k) (bytes_at r p n) = bytes_at r p k.
Proof.
  intros Hk. unfold bytes_at. rewrite firstn_map. f_equal. replace n with (k + (n - k)) by lia. rewrite seqZ_app by lia.
  rewrite take_app_le by (rewrite length_seqZ; lia). apply take_ge. rewrite length_seqZ. lia.
Qed.

Lemma contents_insert r req p n : contents r (<[p := n]> req) = <[p := bytes_at r p n]> (contents r req).
Proof.
  apply map_eq. intros q. rewrite contents_lookup. destruct (decide (q = p)) as [->|]; [by rewrite !lookup_insert_eq |].
  by rewrite !lookup_insert_ne, contents_lookup by done.
Qed.

Lemma contents_delete r req p : contents r (delete p req) = delete p (contents r req).
Proof.
  apply map_eq. intros q. rewrite contents_lookup. destruct (decide (q = p)) as [->|]; [by rewrite !lookup_delete_eq |].
  by rewrite !lookup_delete_ne, contents_lookup by done.
Qed.

(** Replacing the allocated block [b] by [b'] (or adding, or removing). *)
Lemma view_insert h' l l' a1 a2 b' req n :
  shape h' l' → view l req → allocs l = a1 ++ a2 → allocs l' = a1 ++ b' :: a2 → 0 ≤ n ≤ bz b' →
  view l' (<[block_payload (ba b') := n]> req) ∧ req !! block_payload (ba b') = None.
Proof.
  intros Hs [V1 V2] E E' Hn. destruct (allocs_split _ _ _ _ _ Hs E') as [_ Ha]. unfold block_payload.
  split; [split |].
  - intros p m. destruct (decide (p = ba b' + SIZEOF_BLOCK)) as [->|].
    + rewrite lookup_insert_eq. intros [= <-]. exists b'. split; [rewrite E', elem_of_app, elem_of_cons; tauto | done].
    + rewrite lookup_insert_ne by done. intros Hp. destruct (V1 p m Hp) as (b & Hb & H1). exists b. split; [| done].
      rewrite E, elem_of_app in Hb. rewrite E', elem_of_app, elem_of_cons. tauto.
  - intros b Hb. rewrite E', elem_of_app, elem_of_cons in Hb. destruct (decide (b = b')) as [->|]; [by rewrite lookup_insert_eq |].
    assert (Hb2 : b ∈ a1 ++ a2) by (rewrite elem_of_app; tauto). rewrite lookup_insert_ne; [apply V2; by rewrite E |].
    destruct (Ha b Hb2). unfold block_payload. lia.
  - destruct (req !! _) as [m|] eqn:Ep; [| done]. exfalso. destruct (V1 _ _ Ep) as (b & Hb & Hpb & _). unfold block_payload in Hpb.
    rewrite E in Hb. destruct (Ha b Hb). lia.
Qed.

Lemma view_delete h l l' a1 b a2 req :
  shape h l → view l req → allocs l = a1 ++ b :: a2 → allocs l' = a1 ++ a2 → view l' (delete (block_payload (ba b)) req).
Proof.
  intros Hs [V1 V2] E E'. destruct (allocs_split _ _ _ _ _ Hs E) as [Hb Ha]. split.
  - intros p m. rewrite lookup_delete_Some. intros [Hp Hm]. destruct (V1 p m Hm) as (c & Hc & -> & Hn). exists c. split; [| done].
    rewrite E, elem_of_app, elem_of_cons in Hc. rewrite E', elem_of_app. destruct Hc as [Hc|[->|Hc]]; tauto.
  - intros c Hc. rewrite E' in Hc. destruct (Ha c Hc). rewrite lookup_delete_ne; [| unfold block_payload; lia]. apply V2.
    rewrite E, elem_of_app, elem_of_cons. rewrite elem_of_app in Hc. tauto.
Qed.

(** Bytes of one block are not bytes of another. *)
Lemma live_apart h l a1 b a2 req p n x :
  shape h l → view l req → allocs l = a1 ++ b :: a2 → req !! p = Some n → p ≠ block_payload (ba b) → p ≤ x < p + n → ¬ (ba b ≤ x < kb_end b).
Proof.
  intros Hs [V1 _] E Hp Hne Hx Hxb. destruct (V1 p n Hp) as (c & Hc & -> & Hn). rewrite E, elem_of_app, elem_of_cons in Hc.
  destruct (allocs_split _ _ _ _ _ Hs E) as [_ Ha]. assert (c ≠ b) by (intros ->; done).
  destruct (Ha c) as [Hcb _]; [rewrite elem_of_app; tauto |]. unfold apart, kb_end, block_payload, SIZEOF_BLOCK in *. lia.
Qed.

Definition heap_ok (h : @heap M) (req : Zmap Z) : Prop := ∃ l, heap_inv h l ∧ view l req.

Lemma payload_nonzero h l b : shape h l → b ∈ allocs l → block_payload (ba b) ≠ 0.
Proof.
  intros Hs Hb. destruct (shape_allocs _ _ Hs) as [_ Hr]. rewrite Forall_forall in Hr. specialize (Hr b Hb).
  unfold in_bounds, block_payload, SIZEOF_BLOCK in *. lia.
Qed.

(** A request that was granted: a new, cleared block; nothing else changes. *)
Lemma took_view h l req n h' q l' :
  view l req → heap_inv h' l' → took h l n h' q l' → 0 ≤ n →
  q ≠ 0 ∧ req !! q = None ∧ view l' (<[q := n]> req) ∧
  contents (ram h') (<[q := n]> req) = <[q := replicate (Z.to_nat n) 0]> (contents (ram h) req).
Proof.
  intros Hv [Hs Hc] (a & z & a1 & a2 & -> & Hz & E & E' & Hram) Hn.
  assert (Hin : mk_kb a z false ∈ allocs l') by (rewrite E', elem_of_app, elem_of_cons; tauto).
  split; [exact (payload_nonzero h' l' _ Hs Hin) |].
  destruct (view_insert h' l l' a1 a2 (mk_kb a z false) req n Hs Hv E E') as [Hv' Hnone]; [cbn; lia |]. cbn [ba] in Hv', Hnone.
  split; [done |]. split; [done |]. rewrite contents_insert, Hram, bytes_filled by done. f_equal. apply contents_ext. intros p k Hp x Hx.
  unfold fill_bytes. destruct ((block_payload a <=? x) && (x <? block_payload a + z)) eqn:Eb; [| done]. exfalso.
  apply (live_apart h' l' a1 (mk_kb a z false) a2 (<[block_payload a := n]> req) p k x); try done.
  - rewrite lookup_insert_ne; [done |]. intros <-. by rewrite Hnone in Hp.
  - intros ->. cbn [ba] in Hp. by rewrite Hnone in Hp.
  - unfold kb_end, block_payload, SIZEOF_BLOCK in *. cbn [ba bz]. lia.
Qed.

Lemma kmalloc_view h req n :
  heap_ok h req → 0 ≤ n →
  ∃ h' q, kmalloc h n = Ret (h', q) ∧
    if q =? 0 then heap_ok h' req ∧ contents (ram h') req = contents (ram h) req ∧ (n = 0 ∨ KMALLOC_MAX < n ∨ no_pages h (up16 n))
    else req !! q = None ∧ heap_ok h' (<[q := n]> req) ∧
         contents (ram h') (<[q := n]> req) = <[q := replicate (Z.to_nat n) 0]> (contents (ram h) req).
Proof.
  intros (l & Hi & Hv) Hn. destruct (kmalloc_spec h l n Hi Hn) as (h' & q & l' & -> & Hi' & [[Ht Hn']|(-> & -> & Hr & Hwhy)]); exists h'.
  - exists q. split; [done |]. destruct (took_view h l req n h' q l' Hv Hi' Ht Hn) as (Hq & Hnone & Hv' & Hc).
    destruct (Z.eqb_spec q 0); [done |]. split; [done |]. split; [by exists l' | done].
  - exists 0. split; [done |]. cbn [Z.eqb]. rewrite Hr. split; [by exists l | done].
Qed.

(** The place of a live block in the list. *)
Lemma live_block h l req p n :
  shape h l → view l req → req !! p = Some n →
  ∃ l1 b l2, l = l1 ++ b :: l2 ∧ bf b = false ∧ p = block_payload (ba b) ∧ 0 ≤ n ≤ bz b ∧ allocs l = allocs l1 ++ b :: allocs l2.
Proof.
  intros Hs [V1 _] Hp. destruct (V1 p n Hp) as (b & Hb & -> & Hn). apply elem_allocs in Hb as [Hb Hf]. apply in_middle in Hb as (l1 & l2 & ->).
  exists l1, b, l2. split_and!; try done; try lia. by rewrite allocs_mid, Hf.
Qed.

Lemma kfree_view h req p n :
  heap_ok h req → req !! p = Some n →
  ∃ h', kfree h p = Ret h' ∧ heap_ok h' (delete p req) ∧ ram h' = ram h.
Proof.
  intros (l & Hi & Hv) Hp. destruct (live_block h l req p n (proj1 Hi) Hv Hp) as (l1 & b & l2 & -> & Hf & -> & Hn & E).
  destruct (kfree_spec h l1 b l2 Hi Hf) as (h' & l' & -> & Hi' & Ha & Hr & _). exists h'. split; [done |]. split; [| done].
  exists l'. split; [done |]. by eapply (view_delete h _ l' (allocs l1) b (allocs l2) req (proj1 Hi)).
Qed.

(** ** Resizing *)

Lemma bytes_at_shift r r' p q n : (∀ i, 0 ≤ i < n → r (p + i) = r' (q + i)) → bytes_at r p n = bytes_at r' q n.
Proof.
  intros E. apply list_eq. intros i. unfold bytes_at. rewrite !list_lookup_fmap. destruct (decide (Z.of_nat i < n)).
  - rewrite !lookup_seqZ_lt by lia. cbn. f_equal. apply E. lia.
  - by rewrite !lookup_seqZ_ge by lia.
Qed.

Lemma allocs_idem l1 l2 : allocs (allocs l1 ++ allocs l2) = allocs l1 ++ allocs l2.
Proof. unfold allocs. by rewrite filter_app, !list_filter_filter_l by done. Qed.

(** What a successful resize gives: [q] holds [n] bytes that start like the old
    ones, and the old block is gone unless it is the same. *)
Definition resized (h : @heap M) (req : Zmap Z) (p k n : Z) (h' : @heap M) (q : Z) : Prop :=
  q ≠ 0 ∧ (q = p ∨ req !! q = None) ∧ heap_ok h' (<[q := n]> (delete p req)) ∧
  ∃ c, zlen c = n ∧ take (Z.to_nat (Z.min k n)) c = bytes_at (ram h) p (Z.min k n) ∧
    contents (ram h') (<[q := n]> (delete p req)) = <[q := c]> (delete p (contents (ram h) req)).

Lemma resized_in_place h l req a1 b a2 k n h' l' z :
  shape h l → view l req → allocs l = a1 ++ b :: a2 → heap_inv h' l' → allocs l' = a1 ++ mk_kb (ba b) z false :: a2 → a1 ++ a2 = allocs (a1 ++ a2) →
  0 ≤ k → 0 ≤ n ≤ z → ram h' = ram h → resized h req (block_payload (ba b)) k n h' (block_payload (ba b)).
Proof.
  intros Hs Hv E Hi' E' Hidem Hk Hn Hr.
  assert (Hb : b ∈ allocs l) by (rewrite E, elem_of_app, elem_of_cons; tauto).
  pose proof (view_delete h l (a1 ++ a2) a1 b a2 req Hs Hv E (eq_sym Hidem)) as Hd.
  destruct (view_insert h' (a1 ++ a2) l' a1 a2 (mk_kb (ba b) z false) _ n (proj1 Hi') Hd (eq_sym Hidem) E') as [Hv' _]; [cbn; lia |]. cbn [ba] in Hv'.
  split; [by eapply payload_nonzero |]. split; [by left |]. split; [by exists l' |]. exists (bytes_at (ram h) (block_payload (ba b)) n).
  split; [apply zlen_bytes_at; lia |]. split; [apply take_bytes_at; lia |]. by rewrite contents_insert, contents_delete, Hr.
Qed.

Lemma inv_ram h l r : heap_inv h l → heap_inv (with_ram h r) l.
Proof. intros [[] []]. by split; split. Qed.

Lemma took_weaken h l w n h' q l' : n ≤ w → took h l w h' q l' → took h l n h' q l'.
Proof. intros Hn (a & z & l1 & l2 & ? & ? & ?). exists a, z, l1, l2. split; [done |]. split; [lia | done]. Qed.

(** The whole of a live block is outside a block just taken. *)
Lemma took_outside h l n h' q l' b x :
  heap_inv h' l' → took h l n h' q l' → b ∈ allocs l → ba b ≤ x < kb_end b →
  ∃ a z, q = block_payload a ∧ n ≤ z ∧ ram h' = fill_bytes (ram h) q z 0 ∧ (x < q ∨ q + z ≤ x).
Proof.
  intros [Hs _] (a & z & l1 & l2 & -> & Hz & E & E' & Hr) Hb Hx. destruct (allocs_split _ _ _ _ _ Hs E') as [_ Ha].
  rewrite E in Hb. destruct (Ha b Hb) as [Hab _]. exists a, z. split_and!; [done | done | done |].
  unfold apart, kb_end, block_payload, SIZEOF_BLOCK in *. cbn in Hab. lia.
Qed.

Lemma move_block_spec h l req l1 b l2 k n :
  heap_inv h l → view l req → l = l1 ++ b :: l2 → bf b = false → req !! block_payload (ba b) = Some k → 0 < n ≤ KMALLOC_MAX → bz b < up16 n →
  ∃ h' q, move_block h (block_payload (ba b)) (up16 n) (header_of b (lasta l1 0) (first l2 0)) = Ret (h', q) ∧
    if q =? 0 then heap_ok h' req ∧ ram h' = ram h ∧ no_pages h (up16 n)
    else resized h req (block_payload (ba b)) k n h' q.
Proof.
  intros Hi Hv El Hf Hk Hn Hbig. pose proof (up16_bounds n) as Hup. pose proof (up16_max n ltac:(lia)) as Hmax. unfold move_block. set (p := block_payload (ba b)) in *.
  assert (Hb : b ∈ allocs l) by (apply elem_allocs; rewrite El, elem_of_app, elem_of_cons; tauto).
  assert (Hkb : 0 ≤ k ≤ bz b).
  { destruct (vw_live _ _ Hv _ _ Hk) as (c & Hc & Hpc & Hkc). destruct (in_middle _ _ Hb) as (a1 & a2 & E).
    destruct (allocs_split _ _ _ _ _ (proj1 Hi) E) as [_ Ha]. destruct (decide (c = b)) as [->|]; [done |]. exfalso.
    rewrite E, elem_of_app, elem_of_cons in Hc. destruct (Ha c) as [_ Hne]; [rewrite elem_of_app; tauto |]. unfold p, block_payload in Hpc. lia. }
  destruct (kmalloc_spec h l (up16 n) Hi ltac:(lia)) as (h1 & q & lm & E1 & Hi1 & [[Ht _]|(-> & -> & Hr & Hwhy)]); unfold kmalloc in E1; rewrite E1; mred.
  2: { exists h1, 0. split; [done |]. cbn [Z.eqb]. split; [by exists l |]. split; [done |]. rewrite up16_idem in Hwhy. destruct Hwhy as [|[|]]; [lia | lia | done]. }
  destruct (took_view h l req n h1 q lm Hv Hi1 (took_weaken h l (up16 n) n h1 q lm ltac:(lia) Ht) ltac:(lia)) as (Hq & Hnone & Hv1 & _).
  destruct (Z.eqb_spec q 0); [done |]. cbn [size header_of]. set (r2 := copy_bytes (ram h1) q p (bz b)).
  assert (Hpq : p ≠ q) by (intros <-; by rewrite Hk in Hnone).
  destruct (kfree_view (with_ram h1 r2) (<[q := n]> req) p k) as (h2 & E2 & Hok2 & Hr2); [exists lm; split; [by apply inv_ram | done] | by rewrite lookup_insert_ne |].
  unfold kfree in E2. rewrite E2. mred. exists h2, q. split; [done |]. destruct (Z.eqb_spec q 0); [done |].
  assert (Hout : ∀ c x, c ∈ allocs l → ba c ≤ x < kb_end c → r2 x = ram h x ∧ ∃ z, up16 n ≤ z ∧ (x < q ∨ q + z ≤ x) ∧ ram h1 = fill_bytes (ram h) q z 0).
  { intros c x Hc Hx. destruct (took_outside _ _ _ _ _ _ c x Hi1 Ht Hc Hx) as (a & z & -> & Hz & Hrm & Hxz). split; [| by exists z].
    unfold r2, copy_bytes. assert ((block_payload a <=? x) && (x <? block_payload a + bz b) = false) as -> by lia.
    rewrite Hrm. unfold fill_bytes. by assert ((block_payload a <=? x) && (x <? block_payload a + z) = false) as -> by lia. }
  split; [done |]. split; [by right |]. rewrite delete_insert_ne in Hok2 by done. split; [done |]. exists (bytes_at r2 q n). change (ram (with_ram h1 r2)) with r2 in Hr2.
  split; [apply zlen_bytes_at; lia |]. split.
  - rewrite take_bytes_at by lia. apply bytes_at_shift. intros i Hi0. unfold r2, copy_bytes. assert ((q <=? q + i) && (q + i <? q + bz b) = true) as -> by lia.
    replace (q + i - q + p) with (p + i) by lia. destruct (Hout b (p + i) Hb) as [_ (z & Hz & Hxz & ->)]; [unfold p, block_payload, kb_end, SIZEOF_BLOCK in *; lia |].
    unfold fill_bytes. by assert ((q <=? p + i) && (p + i <? q + z) = false) as -> by lia.
  - rewrite contents_insert, contents_delete, Hr2. do 2 f_equal. apply contents_ext. intros p' n' Hp' x Hx.
    destruct (vw_live _ _ Hv _ _ Hp') as (c & Hc & -> & Hnc). apply (Hout c); [done |]. unfold block_payload, kb_end, SIZEOF_BLOCK in *. lia.
Qed.

Lemma absorb_next_spec h l1 b n l2 :
  heap_inv h (l1 ++ b :: n :: l2) → bf b = false → bf n = true → kb_end b = ba n →
  ∃ h', absorb_next h (ba b) (header_of b (lasta l1 0) (ba n)) (header_of n (ba b) (first l2 0)) (bz b + SIZEOF_BLOCK + bz n) = Ret h' ∧
    heap_inv h' (l1 ++ mk_kb (ba b) (bz b + SIZEOF_BLOCK + bz n) false :: l2) ∧ ram h' = ram h.
Proof.
  intros [Hs Hc] Hf Hfn He. set (h1 := account h (SIZEOF_BLOCK + bz n) (- bz n)).
  destruct (absorb_spec h1 l1 b n l2 (proj1 (shape_account _ _ _ _) Hs) He) as (m & t & E & Hs'). rewrite Hf in Hs'.
  exists (relist h1 m t). split; [exact E |]. split; [| done]. split; [exact Hs' |].
  apply (counted_account h (l1 ++ b :: n :: l2)); [done | | |]; totals; rewrite ?Hf, ?Hfn; lia.
Qed.

(** Shrinking or growing inside the block. *)
Lemma split_resized h0 h l0 req a1 b a2 k n l1 c l2 :
  heap_inv h0 l0 → view l0 req → allocs l0 = a1 ++ b :: a2 → heap_inv h (l1 ++ c :: l2) → allocs l1 = a1 → allocs l2 = a2 → ba c = ba b → bf c = false →
  ram h = ram h0 → 0 ≤ k → 0 < n ≤ KMALLOC_MAX → up16 n ≤ bz c →
  ∃ h' q, (h ← split_allocated_block h (ba b) (up16 n); Ret (h, block_payload (ba b))) = Ret (h', q) ∧
    if q =? 0 then heap_ok h' req ∧ ram h' = ram h0 ∧ (KMALLOC_MAX < n ∨ no_pages h0 (up16 n)) else resized h0 req (block_payload (ba b)) k n h' q.
Proof.
  intros Hi0 Hv E0 Hi E1 E2 Hba Hf Hr Hk Hn Hz. pose proof (up16_bounds n). pose proof (up16_max n ltac:(lia)).
  destruct (split_allocated_spec h l1 c l2 (up16 n) Hi Hf) as (h' & z & l' & E & Hi' & Hz' & Ha & Hsb & _); [lia | by apply (align16_aligned _ n); [lia |] |].
  rewrite Hba in E. rewrite E. mred. exists h', (block_payload (ba b)). split; [done |]. subst a1 a2. rewrite Hba in Ha.
  assert (Hres : resized h0 req (block_payload (ba b)) k n h' (block_payload (ba b))).
  { eapply (resized_in_place h0 l0 req (allocs l1) b (allocs l2) k n h' l' z); [apply Hi0 | done | done | done | done | by rewrite allocs_idem | done | lia | by rewrite Hsb]. }
  destruct (Z.eqb_spec (block_payload (ba b)) 0); [by destruct Hres | done].
Qed.

Lemma krealloc_view h req p k n :
  heap_ok h req → req !! p = Some k → 0 < n →
  ∃ h' q, krealloc h p n = Ret (h', q) ∧
    if q =? 0 then heap_ok h' req ∧ ram h' = ram h ∧ (KMALLOC_MAX < n ∨ no_pages h (up16 n)) else resized h req p k n h' q.
Proof.
  intros (l & Hi & Hv) Hp Hn. pose proof Hi as [Hs _]. destruct (live_block h l req p k Hs Hv Hp) as (l1 & b & l2 & -> & Hf & -> & Hk & E).
  destruct (shape_middle _ _ _ _ Hs) as (Hb & Hb0 & _). unfold krealloc.
  destruct (Z.eqb_spec (block_payload (ba b)) 0); [unfold block_payload, in_bounds, SIZEOF_BLOCK in *; lia |]. destruct (Z.eqb_spec n 0); [lia |].
  unfold payload_block. replace (block_payload (ba b) - SIZEOF_BLOCK) with (ba b) by (unfold block_payload; lia). rewrite (ld_some _ _ _ Hb). mred.
  cbn [magic free size next header_of]. rewrite Hf. change (negb (magic_of false =? KMEM_MAGIC_ALLOC) || false) with false. cbv iota.
  destruct (Z.ltb_spec KMALLOC_MAX n).
  { eexists _, 0. split; [done |]. split; [exists (l1 ++ b :: l2); split; [by apply inv_failure | done] | split; [done | by left]]. }
  rewrite align16_spec by lia. pose proof (up16_bounds n). destruct (Z.eqb_spec (up16 n) 0); [lia |].
  destruct (Z.leb_spec (up16 n) (bz b)) as [Hle|Hgt].
  { by eapply (split_resized h h (l1 ++ b :: l2) req (allocs l1) b (allocs l2) k n l1 b l2); try done; lia. }
  assert (Hmove : ∃ h' q, move_block h (block_payload (ba b)) (up16 n) (header_of b (lasta l1 0) (first l2 0)) = Ret (h', q) ∧
    if q =? 0 then heap_ok h' req ∧ ram h' = ram h ∧ (KMALLOC_MAX < n ∨ no_pages h (up16 n)) else resized h req (block_payload (ba b)) k n h' q).
  { destruct (move_block_spec h _ req l1 b l2 k n Hi Hv eq_refl Hf Hp) as (h' & q & E' & Hq); [lia | done |]. exists h', q. split; [done |]. destruct (q =? 0); tauto. }
  destruct l2 as [|c l2]; cbn [first] in *; [exact Hmove |].
  assert (Hs' : shape h ((l1 ++ [b]) ++ c :: l2)) by by rewrite <- app_assoc. destruct (shape_middle _ _ _ _ Hs') as (Hc & Hc0 & _).
  destruct (Z.eqb_spec (ba c) 0); [unfold in_bounds in Hc0; lia |]. cbn [negb]. rewrite lasta_app in Hc. cbn [lasta] in Hc. rewrite (ld_some _ _ _ Hc). mred.
  cbn [free size header_of]. destruct (bf c && (block_payload (ba b) + bz b =? ba c)) eqn:Ej; [| exact Hmove]. apply andb_true_iff in Ej as [Hfc He%Z.eqb_eq].
  rewrite add_small by (unfold in_bounds, kb_end, SIZEOF_BLOCK, MEMORY_KERNEL_DIRECT_LIMIT in *; ulia).
  destruct (Z.leb_spec (up16 n) (bz b + SIZEOF_BLOCK + bz c)) as [Hfit|]; [| exact Hmove].
  destruct (absorb_next_spec h l1 b c l2 Hi Hf Hfc) as (h1 & E1 & Hi1 & Hr1); [unfold kb_end; unfold block_payload in He; lia |].
  rewrite E1. mred.
  eapply (split_resized h h1 _ req (allocs l1) b (allocs (c :: l2)) k n l1 (mk_kb (ba b) (bz b + SIZEOF_BLOCK + bz c) false) l2); try done; [| cbn; lia].
  by rewrite allocs_cons, Hfc.
Qed.

(** ** Initialisation and accounts *)

Lemma kmem_init_spec h :
  initialized h = false → pages_ok (source h) →
  (∃ h', kmem_init h = Ret h' ∧ heap_ok h' ∅) ∨ (kmem_init h = Fault Panic ∧ ∃ m, alloc_pages (source h) KMEM_BOOT_PAGES = Ret (m, 0)).
Proof.
  intros Hi Hp. unfold kmem_init, kmem_init_locked. rewrite Hi. cbn [negb]. set (h0 := mk_heap _ _ _ _ _ _ _ _).
  assert (Hinv : heap_inv h0 []) by (split; split; try done; by intros b x Hb%elem_of_nil).
  destruct (add_heap_pages_spec h0 [] KMEM_BOOT_PAGES Hinv) as (h1 & ok & -> & _ & Hok); [done | by vm_compute |]. mred. destruct ok; cbn [negb].
  - left. destruct Hok as (a & Hok). eexists. split; [done |]. exists [mk_kb a (KMEM_BOOT_PAGES * PAGE_SIZE - SIZEOF_BLOCK) true]. split; [by apply inv_log |].
    split; [intros p n; by rewrite lookup_empty | intros b Hb; by apply elem_of_nil in Hb].
  - right. split; [done |]. apply Hok.
Qed.

(** Disjoint spans in a range fill it at most once. *)
Lemma spans_fit (n : nat) l lo hi :
  (length l ≤ n)%nat → lo ≤ hi → pairwise l → Forall (λ b, 0 ≤ bz b ∧ lo ≤ ba b ∧ kb_end b ≤ hi) l → total whole_of l ≤ hi - lo.
Proof.
  revert l lo hi. induction n as [|n IH]; intros l lo hi Hn Hlh Hp Hr; (destruct l as [|b l]; [cbn; lia |]); [cbn in Hn; lia |].
  destruct Hp as [Ha Hp]. apply Forall_cons in Hr as [Hb Hr]. rewrite total_cons.
  assert (Hsplit : ∀ P : kb → Prop, ∀ D : (∀ x, Decision (P x)), total whole_of l = total whole_of (filter P l) + total whole_of (filter (λ x, ¬ P x) l)).
  { intros P D. clear. induction l as [|c l IHl]; [done |]. rewrite !filter_cons, !total_cons. destruct (decide (P c)), (decide (¬ P c)); rewrite ?total_cons; tauto || lia. }
  rewrite (Hsplit (λ c, kb_end c ≤ ba b) _).
  assert (Hlen : ∀ P : kb → Prop, ∀ D : (∀ x, Decision (P x)), (length (filter P l) ≤ n)%nat).
  { intros P D. pose proof (length_filter P l). cbn in Hn. lia. }
  assert (Hpf : ∀ P : kb → Prop, ∀ D : (∀ x, Decision (P x)), pairwise (filter P l)).
  { intros P D. clear -Hp. induction l as [|c l IHl]; [done |]. destruct Hp as [H1 H2]. rewrite filter_cons. destruct (decide (P c)); [| by apply IHl].
    split; [| by apply IHl]. apply Forall_forall. intros x [_ Hx]%list_elem_of_filter. by eapply Forall_forall in H1. }
  rewrite Forall_forall in Ha, Hr. unfold whole_of at 1.
  assert (total whole_of (filter (λ c, kb_end c ≤ ba b) l) ≤ ba b - lo).
  { apply IH; [apply Hlen | lia | apply Hpf |]. apply Forall_forall. intros c [Hc Hcl]%list_elem_of_filter. specialize (Hr c Hcl). lia. }
  assert (total whole_of (filter (λ c, ¬ kb_end c ≤ ba b) l) ≤ hi - kb_end b).
  { apply IH; [apply Hlen | lia | apply Hpf |]. apply Forall_forall. intros c [Hc Hcl]%list_elem_of_filter. specialize (Hr c Hcl). specialize (Ha c Hcl).
    unfold apart in Ha. lia. }
  unfold kb_end in *. lia.
Qed.

Lemma accounts h l :
  heap_inv h l →
  used_bytes (stats h) = total used_of l ∧ free_bytes (stats h) = total free_of l ∧ heap_bytes (stats h) = total whole_of l ∧
  0 ≤ total used_of l ∧ 0 ≤ total free_of l ∧ total used_of l + total free_of l ≤ total whole_of l ≤ MEMORY_KERNEL_DIRECT_LIMIT.
Proof.
  intros [Hs [H1 H2 H3]]. assert (Hfit : total whole_of l ≤ MEMORY_KERNEL_DIRECT_LIMIT - 0).
  { apply (spans_fit (length l)); [done | done | apply Hs |]. eapply Forall_impl; [apply Hs |]. unfold in_bounds. intros b. cbn. lia. }
  assert (Hsum : 0 ≤ total used_of l ∧ 0 ≤ total free_of l ∧ total used_of l + total free_of l ≤ total whole_of l).
  { pose proof (sh_range _ _ Hs) as Hr. clear -Hr. induction Hr as [|b l Hb Hr IH]; [done |]. rewrite !total_cons. unfold used_of, free_of, whole_of, in_bounds, SIZEOF_BLOCK in *.
    destruct (bf b); lia. }
  unfold MEMORY_KERNEL_DIRECT_LIMIT in *. rewrite H1, H2, H3, !wrap_small by lia. lia.
Qed.

End invariant.

(** ** The heap is a map of blocks *)

Inductive heap_op :=
| HMalloc (n : Z)
| HFree (p : Z)
| HRealloc (p n : Z)
| HStrdup (o : list Z)
| HWrite (p : Z) (c : list Z).

Definition heap_step {M} `{PageSource M} (h : @heap M) (o : heap_op) : res (@heap M * Z) :=
  match o with
  | HMalloc n => kmalloc h n
  | HFree p => h ← kfree h p; Ret (h, 0)
  | HRealloc p n => krealloc h p n
  | HStrdup o => kstrdup h (Some o)
  | HWrite p c => Ret (with_ram h (write_bytes (ram h) p c), 0)
  end.

(** What may happen to the map of live blocks; the number is what is returned. *)
Inductive abs_step (m : Zmap (list Z)) : heap_op → Z → Zmap (list Z) → Prop :=
| as_refuse n : abs_step m (HMalloc n) 0 m
| as_malloc n q : q ≠ 0 → m !! q = None → abs_step m (HMalloc n) q (<[q := replicate (Z.to_nat n) 0]> m)
| as_free_null : abs_step m (HFree 0) 0 m
| as_free p b : m !! p = Some b → abs_step m (HFree p) 0 (delete p m)
| as_realloc_null_refuse n : abs_step m (HRealloc 0 n) 0 m
| as_realloc_null n q : q ≠ 0 → m !! q = None → abs_step m (HRealloc 0 n) q (<[q := replicate (Z.to_nat n) 0]> m)
| as_realloc_free p b : m !! p = Some b → abs_step m (HRealloc p 0) 0 (delete p m)
| as_realloc_refuse p n : 0 < n → abs_step m (HRealloc p n) 0 m
| as_realloc p b n q c : m !! p = Some b → 0 < n → q ≠ 0 → q = p ∨ m !! q = None → zlen c = n →
    take (Z.to_nat (Z.min (zlen b) n)) c = take (Z.to_nat (Z.min (zlen b) n)) b → abs_step m (HRealloc p n) q (<[q := c]> (delete p m))
| as_strdup_refuse o : abs_step m (HStrdup o) 0 m
| as_strdup o s q : cstr_at o s → q ≠ 0 → m !! q = None → abs_step m (HStrdup o) q (<[q := s ++ [0]]> m)
| as_write p b c : m !! p = Some b → zlen c = zlen b → abs_step m (HWrite p c) 0 (<[p := c]> m).

(** Clients name only their own blocks. *)
Definition legal (m : Zmap (list Z)) (o : heap_op) : Prop :=
  match o with
  | HMalloc n => 0 ≤ n
  | HFree p => p = 0 ∨ is_Some (m !! p)
  | HRealloc p n => (p = 0 ∨ is_Some (m !! p)) ∧ 0 ≤ n
  | HStrdup o => ∃ s, cstr_at o s
  | HWrite p c => ∃ b, m !! p = Some b ∧ zlen c = zlen b
  end.

Section refinement.
Context {M : Type} `{PageSource M}.

(** Why an allocation is refused. *)
Definition refusal (h : @heap M) (o : heap_op) : Prop :=
  match o with
  | HMalloc n | HRealloc _ n => n = 0 ∨ KMALLOC_MAX < n ∨ no_pages h (up16 n)
  | HStrdup o => ∀ s, cstr_at o s → KMALLOC_MAX ≤ zlen s ∨ no_pages h (up16 (zlen s + 1))
  | _ => True
  end.

Definition represents (h : @heap M) (m : Zmap (list Z)) : Prop := ∃ req, heap_ok h req ∧ m = contents (ram h) req.

Lemma represents_lookup (h : @heap M) req p : contents (ram h) req !! p = None ↔ req !! p = None.
Proof. rewrite contents_lookup. by destruct (req !! p). Qed.

Lemma live_bytes (h : @heap M) req p b : contents (ram h) req !! p = Some b → ∃ n, req !! p = Some n ∧ b = bytes_at (ram h) p n.
Proof. rewrite contents_lookup. destruct (req !! p) as [n|]; [| done]. intros [= <-]. by exists n. Qed.

Lemma live_size (h : @heap M) req p n : heap_ok h req → req !! p = Some n → 0 ≤ n.
Proof. intros (l & _ & Hv) Hp. destruct (vw_live _ _ Hv _ _ Hp) as (b & _ & _ & Hn). lia. Qed.

Lemma store_spec (h : @heap M) req p n c :
  heap_ok h req → req !! p = Some n → zlen c = n →
  heap_ok (with_ram h (write_bytes (ram h) p c)) req ∧ contents (write_bytes (ram h) p c) req = <[p := c]> (contents (ram h) req).
Proof.
  intros (l & Hi & Hv) Hp Hc. split; [exists l; split; [by apply inv_ram | done] |].
  destruct (live_block h l req p n (proj1 Hi) Hv Hp) as (l1 & b & l2 & _ & _ & Hpb & Hn & E).
  apply map_eq. intros q. rewrite contents_lookup. destruct (decide (q = p)) as [->|Hq].
  - rewrite lookup_insert_eq, Hp. cbn. f_equal. apply list_eq. intros i. unfold bytes_at. rewrite list_lookup_fmap. unfold zlen in Hc.
    destruct (decide (Z.of_nat i < n)).
    + rewrite lookup_seqZ_lt by lia. cbn. unfold write_bytes, zlen. assert ((p <=? p + Z.of_nat i) && (p + Z.of_nat i <? p + Z.of_nat (length c)) = true) as -> by lia.
      replace (Z.to_nat (p + Z.of_nat i - p)) with i by lia. destruct (lookup_lt_is_Some_2 c i) as [v ->]; [lia | done].
    + rewrite lookup_seqZ_ge by lia. symmetry. apply lookup_ge_None_2. lia.
  - rewrite lookup_insert_ne, contents_lookup by done. destruct (req !! q) as [k|] eqn:Ek; [| done]. cbn. f_equal. apply bytes_at_ext. intros x Hx.
    unfold write_bytes. destruct ((p <=? x) && (x <? p + zlen c)) eqn:Eb; [| done]. exfalso.
    apply (live_apart h l (allocs l1) b (allocs l2) req q k x (proj1 Hi) Hv E Ek); [congruence | done |].
    unfold kb_end, block_payload, SIZEOF_BLOCK in *. lia.
Qed.

Lemma malloc_step (h : @heap M) req n :
  heap_ok h req → 0 ≤ n →
  ∃ h' q, kmalloc h n = Ret (h', q) ∧
    (q = 0 ∧ represents h' (contents (ram h) req) ∧ (n = 0 ∨ KMALLOC_MAX < n ∨ no_pages h (up16 n)) ∨
     q ≠ 0 ∧ contents (ram h) req !! q = None ∧ represents h' (<[q := replicate (Z.to_nat n) 0]> (contents (ram h) req))).
Proof.
  intros Hok Hn. destruct (kmalloc_view h req n Hok Hn) as (h' & q & -> & Hq). exists h', q. split; [done |]. revert Hq. destruct (Z.eqb_spec q 0) as [Hq0|Hq0]; intros Hq; [subst q |].
  - destruct Hq as (Hok' & Hc & Hwhy). left. split_and!; [done | by exists req | done].
  - destruct Hq as (Hnone & Hok' & Hc). right. split_and!; [done | by apply represents_lookup | by exists (<[q := n]> req)].
Qed.

Lemma realloc_step (h : @heap M) req p n :
  heap_ok h req → is_Some (contents (ram h) req !! p) → 0 ≤ n →
  ∃ h' r m', krealloc h p n = Ret (h', r) ∧ abs_step (contents (ram h) req) (HRealloc p n) r m' ∧ represents h' m' ∧
    (r = 0 → n = 0 ∨ KMALLOC_MAX < n ∨ no_pages h (up16 n)).
Proof.
  intros Hok [b Hb] Hn. destruct (live_bytes h req p b Hb) as (k & Hk & Eb). pose proof (live_size h req p k Hok Hk) as Hk0.
  assert (Hp : p ≠ 0) by (destruct Hok as (l & Hi & Hv); destruct (vw_live _ _ Hv _ _ Hk) as (c & Hc & -> & _); exact (payload_nonzero h l c (proj1 Hi) Hc)).
  destruct (Z.eq_dec n 0) as [->|Hn0].
  - unfold krealloc. destruct (Z.eqb_spec p 0); [done |]. cbn [Z.eqb]. destruct (kfree_view h req p k Hok Hk) as (h' & -> & Hok' & Hr). mred.
    eexists _, 0, _. split; [done |]. split; [by eapply as_realloc_free |]. split; [| by left]. exists (delete p req). by rewrite contents_delete, Hr.
  - destruct (krealloc_view h req p k n Hok Hk) as (h' & q & -> & Hq); [lia |]. revert Hq. destruct (Z.eqb_spec q 0) as [Hq0|Hq0]; intros Hq; [subst q |].
    + destruct Hq as (Hok' & Hr & Hwhy). eexists _, 0, _. split; [done |]. split; [apply as_realloc_refuse; lia |]. split; [| tauto]. exists req. by rewrite Hr.
    + destruct Hq as (_ & Hfresh & Hok' & c & Hc & Ht & Hcont). eexists _, q, _. split; [done |]. split; [| split; [by exists (<[q := n]> (delete p req)) | done]].
      eapply as_realloc; [exact Hb | lia | done | | done |]; [by rewrite represents_lookup |]. rewrite Eb, zlen_bytes_at by done. rewrite Ht. symmetry. apply take_bytes_at. lia.
Qed.

Lemma cstr_at_fun o s s' : cstr_at o s → cstr_at o s' → s = s'.
Proof.
  intros Hs Hs'. pose proof (strlen_spec o s Hs) as E. rewrite (strlen_spec o s' Hs') in E. injection E as E.
  destruct Hs as (_ & r & ->), Hs' as (_ & r' & Hr). unfold zlen in E. apply app_inj_1 in Hr as [? _]; [done | lia].
Qed.

Lemma strdup_step (h : @heap M) req o s :
  heap_ok h req → cstr_at o s →
  ∃ h' r m', kstrdup h (Some o) = Ret (h', r) ∧ abs_step (contents (ram h) req) (HStrdup o) r m' ∧ represents h' m' ∧ (r = 0 → refusal h (HStrdup o)).
Proof.
  intros Hok Hs. pose proof (zlen_nonneg s). unfold kstrdup. rewrite (strnlen_spec o s) by (done || (unfold KMALLOC_MAX; lia)). mred.
  assert (Hwhy : ∀ P : Prop, KMALLOC_MAX ≤ zlen s ∨ no_pages h (up16 (zlen s + 1)) → P → refusal h (HStrdup o)).
  { intros P Hd _ s' Hs'. by rewrite (cstr_at_fun o s' s). }
  destruct (Z.leb_spec KMALLOC_MAX (Z.min KMALLOC_MAX (zlen s))).
  { eexists _, 0, _. split; [done |]. split; [apply as_strdup_refuse |]. split; [by exists req |]. apply Hwhy. lia. }
  rewrite Z.min_r by lia. rewrite (proj2 (add_u64_Some (zlen s) 1 (zlen s + 1))) by (unfold KMALLOC_MAX, U64MAX in *; lia).
  destruct (malloc_step h req (zlen s + 1) Hok) as (h' & q & -> & Hq); [lia |]. mred.
  destruct Hq as [(-> & Hrep & Hd)|(Hq & Hnone & req' & Hok' & Hc)].
  { eexists _, 0, _. split; [done |]. split; [apply as_strdup_refuse |]. split; [done |]. apply Hwhy. destruct Hd as [?|[?|?]]; [lia | lia | by right]. }
  destruct (Z.eqb_spec q 0) as [|_]; [done |]. pose proof Hs as (_ & rest & ->).
  rewrite zlen_app, zlen_cons. pose proof (zlen_nonneg rest). destruct (Z.ltb_spec (zlen s + (1 + zlen rest)) (zlen s + 1)); [lia |].
  assert (Ht : take (Z.to_nat (zlen s + 1)) (s ++ 0 :: rest) = s ++ [0]).
  { rewrite take_app_ge by (unfold zlen; lia). f_equal. by replace (Z.to_nat (zlen s + 1) - length s)%nat with 1%nat by (unfold zlen; lia). }
  rewrite Ht. assert (Hl : contents (ram h') req' !! q = Some (replicate (Z.to_nat (zlen s + 1)) 0)) by (by rewrite <- Hc, lookup_insert_eq).
  destruct (live_bytes h' req' q _ Hl) as (k & Hk & Eb). pose proof (live_size h' req' q k Hok' Hk).
  assert (Hkl : zlen (s ++ [0]) = k).
  { apply (f_equal zlen) in Eb. rewrite zlen_bytes_at, zlen_replicate in Eb by lia. rewrite zlen_app. unfold zlen at 2. cbn. lia. }
  destruct (store_spec h' req' q k (s ++ [0]) Hok' Hk Hkl) as [Hok2 Hcont]. eexists _, q, _. split; [done |].
  split; [by eapply as_strdup |]. split; [| done]. exists req'. split; [done |]. cbn [ram with_ram]. by rewrite Hcont, <- Hc, insert_insert_eq.
Qed.

Lemma heap_step_simulates (h : @heap M) m o :
  represents h m → legal m o →
  ∃ h' r m', heap_step h o = Ret (h', r) ∧ abs_step m o r m' ∧ represents h' m' ∧
    (r = 0 → refusal h o).
Proof.
  intros (req & Hok & ->) Hl. destruct o as [n|p|p n|o|p c]; cbn [heap_step legal] in *.
  - destruct (malloc_step h req n Hok Hl) as (h' & q & -> & [(-> & Hrep & Hwhy)|(Hq & Hnone & Hrep)]).
    + eexists _, 0, _. split; [done |]. split; [apply as_refuse | done].
    + eexists _, q, _. split; [done |]. split; [by apply as_malloc | done].
  - destruct Hl as [->|[b Hb]]; [eexists _, 0, _; split; [done |]; split; [apply as_free_null |]; split; [by exists req | done] |].
    destruct (live_bytes h req p b Hb) as (k & Hk & _). destruct (kfree_view h req p k Hok Hk) as (h' & -> & Hok' & Hr). mred.
    eexists _, 0, _. split; [done |]. split; [by eapply as_free |]. split; [| done]. exists (delete p req). by rewrite contents_delete, Hr.
  - destruct Hl as [[->|Hp] Hn]; [| by apply realloc_step]. cbn [krealloc Z.eqb].
    destruct (malloc_step h req n Hok Hn) as (h' & q & -> & [(-> & Hrep & Hwhy)|(Hq & Hnone & Hrep)]).
    + eexists _, 0, _. split; [done |]. split; [apply as_realloc_null_refuse | done].
    + eexists _, q, _. split; [done |]. split; [by apply as_realloc_null | done].
  - destruct Hl as [s Hs]. by apply (strdup_step h req o s).
  - destruct Hl as (b & Hb & Hc). destruct (live_bytes h req p b Hb) as (k & Hk & Eb). pose proof (live_size h req p k Hok Hk).
    rewrite Eb, zlen_bytes_at in Hc by done. destruct (store_spec h req p k c Hok Hk Hc) as [Hok' Hcont]. eexists _, 0, _. split; [done |].
    split; [eapply as_write; [done | by rewrite Eb, zlen_bytes_at] |]. split; [| done]. exists req. by rewrite <- Hcont.
Qed.

End refinement.

(** C3: The heap is a map of blocks.  Initialisation yields an empty one, or stops
    the kernel when there are not 16 pages.  From then on every operation of a
    client on its own blocks returns, and changes the map as it should: a new block
    is at a fresh address, zeroed and disjoint from the others; freeing removes
    exactly that block; resizing keeps the common prefix, in place or moved;
    duplicating a string yields a block that holds it; a store changes one block alone.  A request is refused only when it is empty,
    above 64 MiB, or the frame allocator has no pages, and the statistics add up
    exactly, without overflow. *)
Theorem heap_refines_blocks {M : Type} `{PageSource M} :
  (∀ h : @heap M, initialized h = false → pages_ok (source h) →
     (∃ h', kmem_init h = Ret h' ∧ represents h' ∅) ∨ (kmem_init h = Fault Panic ∧ ∃ m, alloc_pages (source h) KMEM_BOOT_PAGES = Ret (m, 0))) ∧
  (∀ (h : @heap M) m o, represents h m → legal m o →
     ∃ h' r m', heap_step h o = Ret (h', r) ∧ abs_step m o r m' ∧ represents h' m' ∧
       (r = 0 → refusal h o)) ∧
  (∀ (h : @heap M) m, represents h m →
     let s := kmem_get_stats h in
     0 ≤ used_bytes s ∧ 0 ≤ free_bytes s ∧ used_bytes s + free_bytes s ≤ heap_bytes s ≤ MEMORY_KERNEL_DIRECT_LIMIT).
Proof.
  split_and!.
  - intros h Hi Hp. destruct (kmem_init_spec h Hi Hp) as [(h' & E & Hok)|Hf]; [left | by right]. exists h'. split; [done |]. by exists ∅.
  - intros h m o. apply heap_step_simulates.
  - intros h m (req & (l & Hi & _) & _). unfold kmem_get_stats. destruct (accounts h l Hi) as (-> & -> & -> & ? & ? & ?). tauto.
Qed.

(** ** The frame allocator is a source of pages *)

#[export] Instance memory_pages : PageSource mem_state.
Proof.
  refine {| alloc_pages st p := memory_alloc_contiguous_pages_below st p MEMORY_KERNEL_DIRECT_LIMIT;
            pages_ok st := ∃ n c, holds st n c ∧ 0 < n ∧ c 0 ≠ 0;
            in_use st f := 0 ≤ f < frame_count st ∧ bit_at (frames st) f = true |}.
  intros st p (n & c & Hh & Hn & H0) Hp.
  destruct (alloc_spec st n c p MEMORY_KERNEL_DIRECT_LIMIT Hh) as (st' & r & E & Hr); [lia | unfold MEMORY_KERNEL_DIRECT_LIMIT; lia |].
  exists st', r. split; [done |]. destruct Hr as [(-> & -> & _)|(b & _ & -> & Hb & Hlim & Hbn & Hfree & _ & Hh' & _)].
  { split; [by exists n, c |]. left. by split. }
  assert (0 < b). { destruct (Z.eq_dec b 0) as [->|]; [| lia]. exfalso. apply H0, Hfree. lia. }
  assert (Hin : ∀ f, in_run b p f = true ↔ b ≤ f < b + p) by (intros f; destruct (in_run_spec b p f); split; (done || lia)).
  split. { exists n, (fill c b p 1). split_and!; [done | done |]. unfold fill. by destruct (in_run b p 0). }
  right. exists b. split_and!; [done | done | done | |].
  - intros f Hf [Hfn Hbit]. rewrite (h_used _ _ _ Hh) in Hbit by (rewrite (h_count _ _ _ Hh) in Hfn; done). rewrite (Hfree f Hf) in Hbit. done.
  - intros f. rewrite (h_count _ _ _ Hh), (h_count _ _ _ Hh'). split.
    + intros [Hf Hbit]. rewrite (h_used _ _ _ Hh' f Hf) in Hbit. unfold fill in Hbit. destruct (in_run_spec b p f) as [|Hno]; [by right |].
      left. split; [done |]. by rewrite (h_used _ _ _ Hh f Hf).
    + intros Hf. assert (0 ≤ f < n) by (destruct Hf as [[? _]|?]; lia). split; [done |]. rewrite (h_used _ _ _ Hh') by done. unfold fill.
      destruct (in_run_spec b p f); [done |]. destruct Hf as [[? Hbit]|?]; [| done]. by rewrite (h_used _ _ _ Hh) in Hbit.
Defined.

Definition sample_heap : @heap mem_state := mk_heap ∅ (λ _, 0) 0 0 (mk_stats 0 0 0 0 0 0) false sample_mem [].

Lemma sample_pages : pages_ok (source sample_heap).
Proof. exists 576, sample_counts. split; [exact sample_holds |]. split; [lia | by vm_compute]. Qed.

Lemma pages_available (st : mem_state) n c p b :
  holds st n c → c 0 ≠ 0 → 0 < p → 0 ≤ b → free_run c b p → b + p ≤ n → (b + p) * PAGE_SIZE ≤ MEMORY_KERNEL_DIRECT_LIMIT →
  ¬ ∃ m, alloc_pages st p = Ret (m, 0).
Proof.
  intros Hh H0 Hp Hb Hf Hn Hl (m & E).
  destruct (alloc_spec st n c p MEMORY_KERNEL_DIRECT_LIMIT Hh) as (st' & r & E' & Hr); [lia | unfold MEMORY_KERNEL_DIRECT_LIMIT; lia |].
  cbn [alloc_pages memory_pages] in E. rewrite E' in E. injection E as -> ->.
  destruct Hr as [(_ & _ & [?|Hno])|(b' & _ & Hb' & ? & _ & _ & Hf' & _)]; [lia | by apply (Hno b) |].
  apply H0, Hf'. unfold PAGE_SIZE in *. lia.
Qed.

Lemma sample_available : ¬ ∃ m, alloc_pages (source sample_heap) KMEM_BOOT_PAGES = Ret (m, 0).
Proof.
  apply (pages_available sample_mem 576 sample_counts KMEM_BOOT_PAGES 512 sample_holds); unfold KMEM_BOOT_PAGES, PAGE_SIZE, MEMORY_KERNEL_DIRECT_LIMIT; try lia.
  - done.
  - intros f Hf. unfold sample_counts. destruct (Z.ltb_spec f 512); [lia | done].
Qed.

(** The first heap of a kernel with 64 free frames, and a block of 100 bytes in it. *)
Lemma heap_refines_blocks_witness :
  (∃ h', kmem_init sample_heap = Ret h' ∧ represents h' ∅) ∧
  (∀ h', represents h' ∅ → ∃ h2 r m, heap_step h' (HMalloc 100) = Ret (h2, r) ∧ abs_step ∅ (HMalloc 100) r m ∧ represents h2 m).
Proof.
  destruct (heap_refines_blocks (M := mem_state)) as (Hinit & Hstep & _). split.
  - destruct (Hinit sample_heap eq_refl sample_pages) as [Hok|(_ & m & E)]; [exact Hok |]. exfalso. exact (sample_available (ex_intro _ m E)).
  - intros h' Hr. destruct (Hstep h' ∅ (HMalloc 100) Hr) as (h2 & r & m & E & Ha & Hm & _); [cbn; lia |]. by exists h2, r, m.
Defined.

(** ** The heap keeps the promises its clients rely on *)

Section clients.
Context {M : Type} `{PageSource M}.

(** A heap in a good state, with the sizes its clients asked for. *)
Definition good_heap : Type := { s : @heap M * Zmap Z | heap_ok s.1 s.2 }.

Definition good_blocks (g : good_heap) : Zmap (list Z) := contents (ram (`g).1) (`g).2.

Lemma malloc_refused h req n h' q : heap_ok h req → 0 ≤ n → kmalloc h n = Ret (h', q) → q = 0 → heap_ok h' req.
Proof. intros Hok Hn E ->. destruct (kmalloc_view h req n Hok Hn) as (h2 & q & E2 & Hq). rewrite E2 in E. injection E as -> ->. apply Hq. Qed.

Lemma malloc_granted h req n h' q : heap_ok h req → 0 ≤ n → kmalloc h n = Ret (h', q) → q ≠ 0 → heap_ok h' (<[q := n]> req).
Proof.
  intros Hok Hn E Hq0. destruct (kmalloc_view h req n Hok Hn) as (h2 & q2 & E2 & Hq). rewrite E2 in E. injection E as -> ->.
  revert Hq. destruct (Z.eqb_spec q 0); [done |]. by intros (_ & ? & _).
Qed.

Lemma free_released h req p h' : heap_ok h req → is_Some (req !! p) → kfree h p = Ret h' → heap_ok h' (delete p req).
Proof. intros Hok [n Hn] E. destruct (kfree_view h req p n Hok Hn) as (h2 & E2 & Hok' & _). rewrite E2 in E. by injection E as ->. Qed.

Definition malloc_result (g : good_heap) (n : Z) (Hn : 0 ≤ n) (r : res (heap * Z)) : kmalloc (`g).1 n = r → option Z * good_heap :=
  match r with
  | Ret (h, q) => λ E,
      match decide (q = 0) with
      | left Hq => (None, (h, (`g).2) ↾ malloc_refused _ _ n h q (proj2_sig g) Hn E Hq)
      | right Hq => (Some q, (h, <[q := n]> (`g).2) ↾ malloc_granted _ _ n h q (proj2_sig g) Hn E Hq)
      end
  | Fault _ => λ _, (None, g)
  end.

Definition good_malloc (g : good_heap) (n : Z) : option Z * good_heap :=
  match decide (0 ≤ n) with right _ => (None, g) | left Hn => malloc_result g n Hn _ eq_refl end.

Definition free_result (g : good_heap) (p : Z) (Hp : is_Some ((`g).2 !! p)) (r : res heap) : kfree (`g).1 p = r → res good_heap :=
  match r with
  | Ret h => λ E, Ret ((h, delete p (`g).2) ↾ free_released _ _ p h (proj2_sig g) Hp E)
  | Fault f => λ _, Fault f
  end.

Definition good_free (g : good_heap) (p : Z) : res good_heap :=
  if p =? 0 then Ret g else
  match decide (is_Some ((`g).2 !! p)) with left Hp => free_result g p Hp _ eq_refl | right _ => Fault Panic end.

Definition good_poke (g : good_heap) (p : Z) (c : list Z) : good_heap :=
  match decide ((`g).2 !! p = Some (zlen c)) with
  | left Hp => (with_ram (`g).1 (write_bytes (ram (`g).1) p c), (`g).2) ↾ proj1 (store_spec (`g).1 (`g).2 p (zlen c) c (proj2_sig g) Hp eq_refl)
  | right _ => g
  end.

Lemma good_malloc_spec g n :
  (∃ g', good_malloc g n = (None, g') ∧ good_blocks g' = good_blocks g) ∨
  (∃ q g', good_malloc g n = (Some q, g') ∧ q ≠ 0 ∧ good_blocks g !! q = None ∧ good_blocks g' = <[q := replicate (Z.to_nat n) 0]> (good_blocks g)).
Proof.
  unfold good_malloc. destruct (decide (0 ≤ n)) as [Hn|]; [| left; by eexists]. destruct (kmalloc_view _ _ n (proj2_sig g) Hn) as (h & q & E & Hq).
  generalize (eq_refl (kmalloc (`g).1 n)). generalize (kmalloc (`g).1 n) at 2 3 4. intros r Er. assert (r = Ret (h, q)) as -> by congruence. cbn. destruct (decide (q = 0)) as [Hq0|Hq0].
  - left. eexists. split; [done |]. subst q. apply Hq.
  - right. rewrite (proj2 (Z.eqb_neq q 0) Hq0) in Hq. destruct Hq as (Hnone & _ & Hc). eexists q, _. split; [done |]. split_and!; [done | | exact Hc].
    by apply represents_lookup.
Qed.

Lemma good_free_spec g p b : p ≠ 0 → good_blocks g !! p = Some b → ∃ g', good_free g p = Ret g' ∧ good_blocks g' = delete p (good_blocks g).
Proof.
  intros Hp Hb. destruct (live_bytes _ _ _ _ Hb) as (n & Hn & _). unfold good_free. destruct (Z.eqb_spec p 0) as [|_]; [done |].
  destruct (decide (is_Some _)) as [Hs|Hs]; [| exfalso; apply Hs; by exists n]. destruct (kfree_view _ _ p n (proj2_sig g) Hn) as (h & E & _ & Hr).
  generalize (eq_refl (kfree (`g).1 p)). generalize (kfree (`g).1 p) at 2 3. intros r Er. assert (r = Ret h) as -> by congruence. cbn. eexists. split; [done |]. unfold good_blocks. cbn. by rewrite Hr, contents_delete.
Qed.

Lemma good_poke_spec g p b c : good_blocks g !! p = Some b → zlen c = zlen b → good_blocks (good_poke g p c) = <[p := c]> (good_blocks g).
Proof.
  intros Hb Hc. destruct (live_bytes _ _ _ _ Hb) as (n & Hn & ->). pose proof (live_size _ _ _ _ (proj2_sig g) Hn). rewrite zlen_bytes_at in Hc by done. subst n.
  unfold good_poke. destruct (decide _) as [Hp|]; [| done]. unfold good_blocks. cbn. by apply (store_spec _ _ p (zlen c)); [apply (proj2_sig g) | |].
Qed.

#[export] Instance good_heap_kmem : Kmem good_heap.
Proof.
  refine {| blocks := good_blocks; Kmem.kmalloc := good_malloc; Kmem.kfree := good_free; poke := good_poke |}.
  - intros g n q g' E. destruct (good_malloc_spec g n) as [(? & E2 & _)|(q2 & g2 & E2 & Hq)]; rewrite E2 in E; [done |]. by injection E as -> ->.
  - intros g n g' E. destruct (good_malloc_spec g n) as [(? & E2 & Hq)|(q2 & g2 & E2 & _)]; rewrite E2 in E; [| done]. by injection E as ->.
  - done.
  - apply good_free_spec.
  - apply good_poke_spec.
Defined.

End clients.
