(* ===== verification/Update.v ===== *)
(** * Record update

    [r <| p := x |>] is the record [r] with field [p] replaced by [x].  A record type
    declares its fields by an instance of [Fields], the constructor applied to all
    projections; the setter of a field replaces that field in it. *)

From stdpp Require Import prelude.

Class Fields (R : Type) := rebuild : R → R.

Class Field {R T : Type} (p : R → T) := set_field : T → R → R.

Ltac solve_field p :=
  match type of p with
  | ?R → ?T =>
      let x := fresh "x" in
      let r := fresh "r" in
      refine (λ (x : T) (r : R), _);
      let e := eval hnf in (rebuild r) in
      let e := eval pattern (p r) in e in
      match e with ?g _ => let b := eval cbv beta in (g x) in exact b end
  end.

#[export] Hint Extern 1 (Field ?p) => solve_field p : typeclass_instances.

Arguments set_field {R T} p {_} x r /.

Notation "r <| p := x |>" := (set_field p x r) (at level 1, left associativity, p at level 10, x at level 200).
