(* ===== verification/Array.v ===== *)
(** * Arrays

    Cell and pixel memory: an array is its length and a map of the cells written so
    far, unwritten ones being 0.  Access outside the length is a fault.  Loops over
    rows and rectangles are stated by what they make of each cell. *)

From Stdlib Require Import ZArith Lia.
From stdpp Require Import prelude list_numbers fin_maps zmap.
From S2P Require Import Prelude.

Local Open Scope Z_scope.

Lemma for_n_ext {S} n i (f g : Z → S → res S) s : (∀ j r, i ≤ j < i + Z.of_nat n → f j r = g j r) → for_n n i f s = for_n n i g s.
Proof.
  revert i s. induction n as [|n IH]; intros i s E; [done |]. cbn [for_n]. rewrite E by lia. apply res_bind_ext. intros r. apply IH. intros j r' Hj. apply E. lia.
Qed.

Record arr := mk_arr { alen : Z; acells : Zmap Z }.

Definition aget (a : arr) (i : Z) : Z := default 0 (acells a !! i).
Definition aset (a : arr) (i x : Z) : arr := mk_arr (alen a) (<[i := x]> (acells a)).
Definition anew (n : Z) : arr := mk_arr n ∅.

Definition inside (a : arr) (i : Z) : bool := (0 <=? i) && (i <? alen a).

Definition ard (a : arr) (i : Z) : res Z := if inside a i then Ret (aget a i) else Fault OutOfBounds.
Definition awr (a : arr) (i x : Z) : res arr := if inside a i then Ret (aset a i x) else Fault OutOfBounds.

Lemma ard_ok a i : 0 ≤ i < alen a → ard a i = Ret (aget a i).
Proof. intros Hi. unfold ard, inside. by rewrite (proj2 (Z.leb_le 0 i)), (proj2 (Z.ltb_lt i (alen a))) by lia. Qed.

Lemma awr_ok a i x : 0 ≤ i < alen a → awr a i x = Ret (aset a i x).
Proof. intros Hi. unfold awr, inside. by rewrite (proj2 (Z.leb_le 0 i)), (proj2 (Z.ltb_lt i (alen a))) by lia. Qed.

Lemma alen_aset a i x : alen (aset a i x) = alen a.
Proof. done. Qed.

Lemma aget_aset a i x j : aget (aset a i x) j = if j =? i then x else aget a j.
Proof.
  unfold aget, aset. cbn [acells]. destruct (Z.eqb_spec j i) as [->|]; [by rewrite lookup_insert_eq | by rewrite lookup_insert_ne].
Qed.

Lemma aget_anew n i : aget (anew n) i = 0.
Proof. unfold aget, anew. cbn. by rewrite lookup_empty. Qed.

(** ** Arrays of rows

    [pitch] cells make a row; the cell in column [x] of row [y] is at [y * pitch + x]. *)

Definition pix (pitch : Z) (a : arr) (x y : Z) : Z := aget a (y * pitch + x).

(** [a'] is [a] painted over with [f]. *)
Definition painted (pitch : Z) (a : arr) (f : Z → Z → option Z) (a' : arr) : Prop :=
  alen a' = alen a ∧ ∀ x y, 0 ≤ x < pitch → pix pitch a' x y = default (pix pitch a x y) (f x y).

Lemma index_inj pitch x y x' y' : 0 ≤ x < pitch → 0 ≤ x' < pitch → y * pitch + x = y' * pitch + x' → x = x' ∧ y = y'.
Proof. intros Hx Hx' E. assert (y = y') by nia. subst. lia. Qed.

Lemma painted_refl pitch a f : (∀ x y, 0 ≤ x < pitch → f x y = None) → painted pitch a f a.
Proof. intros Hf. split; [done |]. intros x y Hx. by rewrite Hf. Qed.

Lemma painted_trans pitch a f a1 g a2 h :
  painted pitch a f a1 → painted pitch a1 g a2 →
  (∀ x y, 0 ≤ x < pitch → h x y = match g x y with Some p => Some p | None => f x y end) → painted pitch a h a2.
Proof. intros [L1 F1] [L2 F2] Hh. split; [congruence |]. intros x y Hx. rewrite F2, F1, Hh by done. by destruct (g x y). Qed.

Lemma painted_ext pitch a f g a' : painted pitch a f a' → (∀ x y, 0 ≤ x < pitch → f x y = g x y) → painted pitch a g a'.
Proof. intros [L F] E. split; [done |]. intros x y Hx. by rewrite F, E. Qed.

Lemma painted_aset pitch a x0 y0 i p f :
  0 ≤ x0 < pitch → i = y0 * pitch + x0 → (∀ x y, 0 ≤ x < pitch → f x y = if (x =? x0) && (y =? y0) then Some p else None) →
  painted pitch a f (aset a i p).
Proof.
  intros Hx0 -> Hf. split; [done |]. intros x y Hx. unfold pix. rewrite aget_aset, Hf by done. destruct (Z.eqb_spec (y * pitch + x) (y0 * pitch + x0)) as [E|E].
  - apply index_inj in E as [-> ->]; [| done | done]. by rewrite !Z.eqb_refl.
  - destruct (Z.eqb_spec x x0) as [->|]; [| done]. destruct (Z.eqb_spec y y0) as [->|]; [| done]. lia.
Qed.

(** A loop over states with an array in them, whose turns paint what [F] says. *)
Lemma paint_loop_in {S} (view : S → arr) (J : S → Prop) pitch (n : nat) i0 (body : Z → S → res S) (g : Z → Z → Z → option Z) (F : Z → Z → option Z) s :
  J s →
  (∀ i r, i0 ≤ i < i0 + Z.of_nat n → J r → alen (view r) = alen (view s) →
     ∃ r', body i r = Ret r' ∧ J r' ∧ painted pitch (view r) (g i) (view r')) →
  (∀ i x y p, i0 ≤ i < i0 + Z.of_nat n → 0 ≤ x < pitch → g i x y = Some p → F x y = Some p) →
  (∀ x y p, 0 ≤ x < pitch → F x y = Some p → ∃ i, i0 ≤ i < i0 + Z.of_nat n ∧ g i x y = Some p) →
  ∃ s', for_n n i0 body s = Ret s' ∧ J s' ∧ painted pitch (view s) F (view s').
Proof.
  intros HJ Hbody Hsub Hcov.
  destruct (for_n_inv (λ k r, J r ∧ alen (view r) = alen (view s) ∧ ∀ x y, 0 ≤ x < pitch →
      (∀ i p, i0 ≤ i < k → g i x y = Some p → pix pitch (view r) x y = p) ∧
      ((∀ i, i0 ≤ i < k → g i x y = None) → pix pitch (view r) x y = pix pitch (view s) x y)) body n i0 s)
    as (s' & E & HJ' & HL & Ha).
  - split_and!; [done | done |]. intros x y Hx. split; [lia | done].
  - intros k r Hk (HJr & HL & Hb). destruct (Hbody k r Hk HJr HL) as (r' & -> & HJr' & HL' & Hb'). exists r'. split; [done |]. split_and!; [done | congruence |].
    intros x y Hx. destruct (Hb x y Hx) as [Hin Hout]. rewrite Hb' by done. split.
    + intros i p Hi Hg. destruct (g k x y) as [q|] eqn:Eq; cbn.
      * assert (F x y = Some q) by (by eapply (Hsub k)). assert (F x y = Some p) by (eapply (Hsub i); [lia | done | done]). congruence.
      * apply (Hin i p); [| done]. destruct (Z.eq_dec i k) as [->|]; [congruence | lia].
    + intros Hnone. rewrite (Hnone k) by lia. apply Hout. intros i Hi. apply Hnone. lia.
  - exists s'. split; [done |]. split; [done |]. split; [done |]. intros x y Hx. destruct (Ha x y Hx) as [Hin Hout]. destruct (F x y) as [p|] eqn:EF.
    + destruct (Hcov x y p Hx EF) as (i & Hi & Hg). by apply (Hin i).
    + apply Hout. intros i Hi. destruct (g i x y) as [q|] eqn:Eg; [| done]. exfalso. pose proof (Hsub i x y q Hi Hx Eg). congruence.
Qed.

Lemma paint_loop pitch (n : nat) i0 (body : Z → arr → res arr) (g : Z → Z → Z → option Z) (F : Z → Z → option Z) a :
  (∀ i b, i0 ≤ i < i0 + Z.of_nat n → alen b = alen a → ∃ b', body i b = Ret b' ∧ painted pitch b (g i) b') →
  (∀ i x y p, i0 ≤ i < i0 + Z.of_nat n → 0 ≤ x < pitch → g i x y = Some p → F x y = Some p) →
  (∀ x y p, 0 ≤ x < pitch → F x y = Some p → ∃ i, i0 ≤ i < i0 + Z.of_nat n ∧ g i x y = Some p) →
  ∃ a', for_n n i0 body a = Ret a' ∧ painted pitch a F a'.
Proof.
  intros Hbody Hsub Hcov. destruct (paint_loop_in (λ b, b) (λ _, True) pitch n i0 body g F a) as (a' & E & _ & Pa); [done | | done | done | by exists a'].
  intros i r Hi _ HL. destruct (Hbody i r Hi HL) as (r' & E & Pr). by exists r'.
Qed.

(** Column by column along one row, and row by row. *)
Lemma row_loop {S} (view : S → arr) (J : S → Prop) pitch y0 x0 n (body : Z → S → res S) (val : Z → Z) s :
  0 ≤ n → J s →
  (∀ x r, x0 ≤ x < x0 + n → J r → alen (view r) = alen (view s) →
     ∃ r', body x r = Ret r' ∧ J r' ∧ painted pitch (view r) (λ X Y, if (X =? x) && (Y =? y0) then Some (val x) else None) (view r')) →
  ∃ s', for_n (Z.to_nat n) x0 body s = Ret s' ∧ J s' ∧
    painted pitch (view s) (λ X Y, if (x0 <=? X) && (X <? x0 + n) && (Y =? y0) then Some (val X) else None) (view s').
Proof.
  intros Hn HJ Hbody. apply (paint_loop_in view J pitch _ _ _ (λ x X Y, if (X =? x) && (Y =? y0) then Some (val x) else None)); [done | | |].
  - intros i r Hi. apply Hbody. lia.
  - intros i X Y p Hi HX. destruct (Z.eqb_spec X i) as [->|]; [| done]. cbn. rewrite (proj2 (Z.leb_le x0 i)), (proj2 (Z.ltb_lt i (x0 + n))) by lia. done.
  - intros X Y p HX. destruct (Z.leb_spec x0 X); [| done]. destruct (Z.ltb_spec X (x0 + n)); [| done]. cbn. intros E. exists X. split; [lia |]. by rewrite Z.eqb_refl.
Qed.

(** Row by row and column by column; [ph] says where row [y] is kept. *)
Section grid_loop.
Context {S : Type} (view : S → arr) (J : S → Prop) (pitch rows cols : Z) (ph : Z → Z) (val : Z → Z → Z) (body : Z → Z → S → res S) (s : S).
Context (Hrows : 0 ≤ rows) (Hcols : 0 ≤ cols ≤ pitch).
Context (Hinj : ∀ y y', 0 ≤ y < rows → 0 ≤ y' < rows → ph y = ph y' → y = y').
Context (Hbody : ∀ y x r, 0 ≤ y < rows → 0 ≤ x < cols → J r → alen (view r) = alen (view s) → pix pitch (view r) x (ph y) = pix pitch (view s) x (ph y) →
  ∃ r', body y x r = Ret r' ∧ J r' ∧ painted pitch (view r) (λ X Y, if (X =? x) && (Y =? ph y) then Some (val y x) else None) (view r')).

(** The first [k] rows, and [n] cells of row [k], are done. *)
Definition done_to (k n : Z) (r : S) : Prop :=
  J r ∧ alen (view r) = alen (view s) ∧
  (∀ y x, 0 ≤ y < rows → 0 ≤ x < cols → y < k ∨ y = k ∧ x < n → pix pitch (view r) x (ph y) = val y x) ∧
  (∀ X Y, 0 ≤ X < pitch → (∀ y, 0 ≤ y < rows → Y = ph y → X < cols → k < y ∨ y = k ∧ n ≤ X) → pix pitch (view r) X Y = pix pitch (view s) X Y).

Lemma grid_step k n r : 0 ≤ k < rows → 0 ≤ n < cols → done_to k n r → ∃ r', body k n r = Ret r' ∧ done_to k (n + 1) r'.
Proof.
  intros Hk Hn (HJ & HL & Hin & Hout). destruct (Hbody k n r Hk Hn HJ HL) as (r' & -> & HJ' & HL' & Pr).
  { apply Hout; [lia |]. intros y Hy Ey _. apply Hinj in Ey; [lia | done | done]. }
  exists r'. split; [done |]. split_and!; [done | congruence | |].
  - intros y x Hy Hx Hd. rewrite Pr by lia. destruct (Z.eqb_spec x n) as [->|Hne].
    + destruct (Z.eqb_spec (ph y) (ph k)) as [Ep|Ep]; [apply Hinj in Ep as ->; done |]. cbn. apply Hin; [done | done |].
      destruct Hd as [?|[-> _]]; [by left | done].
    + cbn. apply Hin; [done | done | lia].
  - intros X Y HX Hno. rewrite Pr by done. destruct (Z.eqb_spec X n) as [->|Hne]; [destruct (Z.eqb_spec Y (ph k)) as [->|Hne] |]; cbn.
    + exfalso. destruct (Hno k Hk eq_refl ltac:(lia)) as [?|[_ ?]]; lia.
    + apply Hout; [done |]. intros y Hy -> Hc. destruct (Hno y Hy eq_refl Hc) as [?|[-> ?]]; [by left | done].
    + apply Hout; [done |]. intros y Hy -> Hc. destruct (Hno y Hy eq_refl Hc) as [?|[-> ?]]; [by left | lia].
Qed.

Lemma grid_loop :
  J s →
  ∃ s', for_n (Z.to_nat rows) 0 (λ y, for_n (Z.to_nat cols) 0 (body y)) s = Ret s' ∧ J s' ∧ alen (view s') = alen (view s) ∧
    (∀ y x, 0 ≤ y < rows → 0 ≤ x < cols → pix pitch (view s') x (ph y) = val y x) ∧
    (∀ X Y, 0 ≤ X < pitch → (∀ y, 0 ≤ y < rows → Y = ph y → cols ≤ X) → pix pitch (view s') X Y = pix pitch (view s) X Y).
Proof.
  intros HJ. destruct (for_n_inv (λ k r, done_to k 0 r) (λ y, for_n (Z.to_nat cols) 0 (body y)) (Z.to_nat rows) 0 s) as (s' & -> & HJ' & HL & Hin & Hout).
  - split_and!; [done | done | lia | done].
  - intros k r Hk Hr. destruct (for_n_inv (λ n r, done_to k n r) (body k) (Z.to_nat cols) 0 r) as (r' & -> & HJr & HLr & Hin & Hout); [done | |].
    { intros n r0 Hn. apply grid_step; lia. }
    exists r'. split; [done |]. rewrite Z.add_0_l, Z2Nat.id in Hin, Hout by lia. split_and!; [done | done | |].
    + intros y x Hy Hx Hd. apply Hin; [done | done | lia].
    + intros X Y HX Hno. apply Hout; [done |]. intros y Hy EY Hc. destruct (Hno y Hy EY Hc) as [?|[-> ?]]; lia.
  - exists s'. rewrite Z.add_0_l, Z2Nat.id in Hin, Hout by lia. split_and!; [done | done | done | |].
    + intros y x Hy Hx. apply Hin; lia.
    + intros X Y HX Hno. apply Hout; [done |]. intros y Hy EY Hc. specialize (Hno y Hy EY). lia.
Qed.

End grid_loop.
