(* ===== verification/PageMap.v ===== *)
(** * The page tables as their clients see them: [kernel/include/rabbitbone/vmm.h]

    The flags of a mapping, the class of what a driver asks of the page tables (looking
    up an address and mapping a page in the kernel's address space) and the class of what
    it may rely on.  [VmmPages] implements both. *)

From Stdlib Require Import ZArith.
From stdpp Require Import prelude.
From S2P Require Import Prelude Memory.

Local Open Scope Z_scope.

Definition VMM_PRESENT : Z := 2 ^ 0.
Definition VMM_WRITE : Z := 2 ^ 1.
Definition VMM_USER : Z := 2 ^ 2.
Definition VMM_WRITETHR : Z := 2 ^ 3.
Definition VMM_NOCACHE : Z := 2 ^ 4.
Definition VMM_ACCESSED : Z := 2 ^ 5.
Definition VMM_DIRTY : Z := 2 ^ 6.
Definition VMM_HUGE : Z := 2 ^ 7.
Definition VMM_GLOBAL : Z := 2 ^ 8.
Definition VMM_COW : Z := 2 ^ 9.
Definition VMM_WRITECOMB : Z := 2 ^ 10.
Definition VMM_NX : Z := 2 ^ 63.

Class PageMap (P : Type) := {
  vmm_translate : P → Z → option (Z * Z);
  vmm_map_4k : P → Z → Z → Z → P * bool;
}.

(** Pages are mapped as a whole; a page that was mapped is found at its address; what was
    found before is still found where it was. *)
Class PageMapSpec (P : Type) `{PM : PageMap P} := {
  pages_ok : P → Prop;
  whole_page : ∀ p v a f o, pages_ok p → is_u64 v → v mod PAGE_SIZE = 0 → vmm_translate p v = Some (a, f) → 0 ≤ o < PAGE_SIZE → vmm_translate p (v + o) = Some (a + o, f);
  map_keeps : ∀ p v a f, pages_ok p → is_u64 v → is_u64 a → is_u64 f →
    pages_ok (vmm_map_4k p v a f).1 ∧ ∀ v' t, is_u64 v' → vmm_translate p v' = Some t → vmm_translate (vmm_map_4k p v a f).1 v' = Some t;
  map_finds : ∀ p v a f, pages_ok p → is_u64 v → 0 ≤ a < 2 ^ 52 → a mod PAGE_SIZE = 0 → is_u64 f → (vmm_map_4k p v a f).2 = true → ∃ f', vmm_translate (vmm_map_4k p v a f).1 v = Some (a, f');
}.
