(* ===== verification/Vmm.v ===== *)
(** * Page tables: [kernel/mm/vmm]

    Four levels of tables of 512 entries, each in a frame of its own; an address space
    is a root table and the list of the tables it owns.  [tables] is the memory of the
    table frames by address; reading a table that is not there is a fault.  Address
    spaces are objects named by a number, [KERNEL] is [kernel_space_obj]; NULL is
    [None].  The frame allocator is the class [FrameSource], the other processors are
    the class [Cpus]. *)

From Stdlib Require Import ZArith Lia String.
From stdpp Require Import prelude list_numbers fin_maps zmap.
From S2P Require Import Prelude Update Array Arith CString Printf Log Bootinfo Memory PageMap.

Local Open Scope Z_scope.

Definition PT_ENTRIES : Z := 512.
Definition PTE_ADDR_MASK : Z := 0x000ffffffffff000.
Definition VMM_KERNEL_DIRECT_LIMIT : Z := MEMORY_KERNEL_DIRECT_LIMIT.
Definition VMM_ALLOWED_LEAF_FLAGS : Z :=
  Z.lor VMM_WRITE (Z.lor VMM_USER (Z.lor VMM_WRITETHR (Z.lor VMM_NOCACHE (Z.lor VMM_GLOBAL (Z.lor VMM_COW (Z.lor VMM_WRITECOMB VMM_NX)))))).
Definition VMM_ALLOWED_TABLE_FLAGS : Z := Z.lor VMM_WRITE (Z.lor VMM_USER (Z.lor VMM_WRITETHR VMM_NOCACHE)).
Definition VMM_CANONICAL_LOW_TOP : Z := 0x0000800000000000.
Definition VMM_CANONICAL_HIGH_BASE : Z := 0xffff800000000000.
Definition VMM_USER_MIN : Z := PAGE_SIZE.
Definition VMM_USER_TOP : Z := VMM_CANONICAL_LOW_TOP.
Definition VMM_SPACE_MAX_TABLES : Z := 128.
Definition SMP_MAX_CPUS : Z := 16.
Definition HUGE_SIZE : Z := 2 * 1024 * 1024.

Record vmm_space_t := mk_space {
  pml4_physical : Z;
  owned_tables : list Z;
  owned_count : Z;
  user_space : bool;
  active_cpu_mask : Z;
  tlb_generation : Z;
  tlb_seen_generation : list Z;
  tlb_shootdowns : Z;
  tlb_full_shootdowns : Z;
  tlb_failures : Z;
}.

#[global] Instance space_fields : Fields vmm_space_t :=
  λ s, mk_space (pml4_physical s) (owned_tables s) (owned_count s) (user_space s) (active_cpu_mask s) (tlb_generation s) (tlb_seen_generation s) (tlb_shootdowns s)
         (tlb_full_shootdowns s) (tlb_failures s).

Definition zero_space : vmm_space_t := mk_space 0 (replicate (Z.to_nat VMM_SPACE_MAX_TABLES) 0) 0 false 0 0 (replicate (Z.to_nat SMP_MAX_CPUS) 0) 0 0 0.

Record vmm_stats_t := mk_vmm_stats {
  mapped_4k_pages : Z;
  mapped_2m_pages : Z;
  table_pages : Z;
  identity_bytes : Z;
  stats_pml4_physical : Z;
  current_pml4_physical : Z;
  spaces_created : Z;
  spaces_destroyed : Z;
  kernel_text_ro : bool;
  kernel_rodata_nx : bool;
  kernel_data_nx : bool;
}.

#[global] Instance vmm_stats_fields : Fields vmm_stats_t :=
  λ s, mk_vmm_stats (mapped_4k_pages s) (mapped_2m_pages s) (table_pages s) (identity_bytes s) (stats_pml4_physical s) (current_pml4_physical s) (spaces_created s)
         (spaces_destroyed s) (kernel_text_ro s) (kernel_rodata_nx s) (kernel_data_nx s).

Definition zero_stats : vmm_stats_t := mk_vmm_stats 0 0 0 0 0 0 0 0 false false false.

(** What the page tables need of the frame allocator: a page below a limit that was not
    in use, and taking back a page that has one user. *)
Class FrameSource (M : Type) := {
  alloc_page_below : M → Z → res (M * Z);
  free_page : M → Z → res M;
  frames_ok : M → Prop;
  held : M → Z → Prop;
  alloc_page_law : ∀ m limit, frames_ok m → 0 ≤ limit → ∃ m' r, alloc_page_below m limit = Ret (m', r) ∧ frames_ok m' ∧
    (r = 0 ∧ (∀ p, held m' p ↔ held m p) ∨
     0 < r ∧ r mod PAGE_SIZE = 0 ∧ r + PAGE_SIZE ≤ limit ∧ ¬ held m r ∧ (∀ p, held m' p ↔ held m p ∨ p = r));
  free_page_law : ∀ m p, frames_ok m → held m p → ∃ m', free_page m p = Ret m' ∧ frames_ok m' ∧ (∀ q, held m' q ↔ held m q ∧ q ≠ p);
}.

(** What they need of the processors ([drivers/smp.c]): a processor without its own block
    knows no current space, and flushing changes none. *)
Class Cpus (S : Type) := {
  smp_get_current_address_space : S → option Z;
  smp_set_current_address_space : S → Z → S;
  smp_set_current_cr3 : S → Z → S;
  smp_current_cpu_id : S → Z;
  smp_started_cpu_mask : S → Z;
  smp_tlb_shootdown_mask : S → Z → Z → Z → Z → Z → Z → S * bool;
  smp_cpu_id_law : ∀ s, 0 ≤ smp_current_cpu_id s;
  smp_space_law : ∀ s r, smp_get_current_address_space (smp_set_current_address_space s r) ∈ [Some r; None];
  smp_cr3_law : ∀ s x, smp_get_current_address_space (smp_set_current_cr3 s x) = smp_get_current_address_space s;
  smp_shootdown_law : ∀ s virt length target mask generation ticks,
    smp_get_current_address_space (smp_tlb_shootdown_mask s virt length target mask generation ticks).1 = smp_get_current_address_space s;
}.

Definition KERNEL : Z := 0.

Definition has (x flag : Z) : bool := negb (Z.land x flag =? 0).

(** ** Addresses and flags *)

Definition vmm_is_canonical (virt : Z) : bool := (virt <? VMM_CANONICAL_LOW_TOP) || (VMM_CANONICAL_HIGH_BASE <=? virt).

Definition vmm_is_user_range (virt bytes : Z) : bool :=
  if (bytes =? 0) || (virt <? VMM_USER_MIN) || (VMM_USER_TOP <=? virt) then false else
  match add_u64 virt (bytes - 1) with None => false | Some e => e <? VMM_USER_TOP end.

Definition vmm_ranges_overlap (a_start a_end b_start b_end : Z) : bool := (a_start <? a_end) && (b_start <? b_end) && (a_start <? b_end) && (b_start <? a_end).

Definition vmm_leaf_pte_flags (flags : Z) : Z :=
  if has flags VMM_WRITECOMB then Z.lor (Z.land flags (lnot_w 64 VMM_WRITECOMB)) VMM_WRITETHR else flags.

Definition vmm_table_pte_flags (flags : Z) : Z :=
  let flags := if has flags VMM_WRITECOMB then Z.land flags (lnot_w 64 (Z.lor VMM_WRITECOMB (Z.lor VMM_WRITETHR VMM_NOCACHE))) else flags in
  Z.land flags VMM_ALLOWED_TABLE_FLAGS.

Definition split_indices (virt : Z) : Z * Z * Z * Z :=
  (Z.land (Z.shiftr virt 39) 0x1ff, Z.land (Z.shiftr virt 30) 0x1ff, Z.land (Z.shiftr virt 21) 0x1ff, Z.land (Z.shiftr virt 12) 0x1ff).

Definition vmm_user_table_entry_allows_user (entry : Z) : bool := has entry VMM_PRESENT && has entry VMM_USER && negb (has entry VMM_HUGE).

Definition effective_leaf_flags (pml4e pdpte pde pte : Z) (huge : bool) : Z :=
  let add (c : bool) flag e := if c then Z.lor e flag else e in
  let e := VMM_PRESENT in
  let e := add (has pml4e VMM_WRITE && has pdpte VMM_WRITE && has pde VMM_WRITE && (huge || has pte VMM_WRITE)) VMM_WRITE e in
  let e := add (has pml4e VMM_USER && has pdpte VMM_USER && has pde VMM_USER && (huge || has pte VMM_USER)) VMM_USER e in
  let e := add (has (Z.lor pml4e (Z.lor pdpte (Z.lor pde (if huge then 0 else pte)))) VMM_NX) VMM_NX e in
  let e := add (negb huge && has pte VMM_GLOBAL) VMM_GLOBAL e in
  let e := add (negb huge && has pte VMM_COW) VMM_COW e in
  let e := add (huge && has pde VMM_GLOBAL) VMM_GLOBAL e in
  let e := add (negb huge && has pte VMM_DIRTY) VMM_DIRTY e in
  let e := add (negb huge && has pte VMM_ACCESSED) VMM_ACCESSED e in
  add huge VMM_HUGE e.

Record vmm (M S : Type) := mk_vmm {
  tables : Zmap arr;
  source : M;
  spaces : Zmap vmm_space_t;
  current_space_obj : option Z;
  stats : vmm_stats_t;
  cpus : S;
  cr3 : Z;
  log : list klog_call;
}.

Arguments mk_vmm {M S}.
Arguments tables {M S}.
Arguments source {M S}.
Arguments spaces {M S}.
Arguments current_space_obj {M S}.
Arguments stats {M S}.
Arguments cpus {M S}.
Arguments cr3 {M S}.
Arguments log {M S}.

#[global] Instance vmm_fields {M S} : Fields (vmm M S) :=
  λ v, mk_vmm (tables v) (source v) (spaces v) (current_space_obj v) (stats v) (cpus v) (cr3 v) (log v).

Section vmm.
Context {M S : Type} `{FrameSource M} `{Cpus S}.

(** The linker's symbols. *)
Context (kernel_start kernel_end text_start text_end rodata_start rodata_end data_start data_end bss_start bss_end : Z).

Implicit Types vm : vmm M S.

Definition vmm_range_overlaps_kernel_image (virt bytes : Z) : bool :=
  if bytes =? 0 then false else
  match add_u64 virt bytes with None => true | Some e => vmm_ranges_overlap virt e kernel_start kernel_end end.

Definition vmm_leaf_flags_valid_for_space (space : option vmm_space_t) (virt flags : Z) : bool :=
  match space with
  | None => false
  | Some s =>
      if has flags (lnot_w 64 VMM_ALLOWED_LEAF_FLAGS) || negb (vmm_is_canonical virt) then false else
      if has flags VMM_COW && has flags VMM_WRITE then false else
      if has flags VMM_GLOBAL && has flags VMM_USER then false else
      if user_space s then has flags VMM_USER && vmm_is_user_range virt PAGE_SIZE && negb (vmm_range_overlaps_kernel_image virt PAGE_SIZE)
      else negb (has flags VMM_USER)
  end.

(** ** Memory and objects *)

Definition get_space vm (r : Z) : res vmm_space_t := match spaces vm !! r with Some s => Ret s | None => Fault OutOfBounds end.
Definition put_space vm (r : Z) (s : vmm_space_t) : vmm M S := vm <| spaces := <[r := s]> (spaces vm) |>.

(** The object a pointer names. *)
Definition deref vm (space : option Z) : res (option vmm_space_t) := match space with None => Ret None | Some r => s ← get_space vm r; Ret (Some s) end.

Definition pt_rd vm (table i : Z) : res Z := match tables vm !! table with Some a => ard a i | None => Fault OutOfBounds end.
Definition pt_wr vm (table i e : Z) : res (vmm M S) :=
  match tables vm !! table with
  | Some a => a ← awr a i e; Ret (vm <| tables := <[table := a]> (tables vm) |>)
  | None => Fault OutOfBounds
  end.

Definition vmm_current_space_local vm : Z :=
  match smp_get_current_address_space (cpus vm) with
  | Some r => r
  | None => default KERNEL (current_space_obj vm)
  end.

Definition vmm_mark_space_active_on_current_cpu vm (r : Z) : res (vmm M S) :=
  s ← get_space vm r;
  let cpu := smp_current_cpu_id (cpus vm) in
  let cpu := if SMP_MAX_CPUS <=? cpu then 0 else cpu in
  seen ← wr (tlb_seen_generation s) cpu (tlb_generation s);
  let s := s <| active_cpu_mask := Z.lor (active_cpu_mask s) (Z.shiftl 1 cpu) |> <| tlb_seen_generation := seen |> in
  Ret ((put_space vm r s) <| cpus := smp_set_current_cr3 (cpus vm) (pml4_physical s) |>).

Definition vmm_set_current_space_local vm (space : option Z) : res (vmm M S) :=
  let r := default KERNEL space in
  let vm := vm <| current_space_obj := Some r |> in
  let vm := vm <| cpus := smp_set_current_address_space (cpus vm) r |> in
  vmm_mark_space_active_on_current_cpu vm r.

(** ** Tables *)

Definition track_table vm (r table : Z) : res (vmm M S * bool) :=
  if table =? 0 then Ret (vm, false) else
  s ← get_space vm r;
  if VMM_SPACE_MAX_TABLES <=? owned_count s then Ret (vm, false) else
  owned ← wr (owned_tables s) (owned_count s) table;
  let vm := put_space vm r (s <| owned_tables := owned |> <| owned_count := owned_count s + 1 |>) in
  Ret (vm <| stats := (stats vm) <| table_pages := wrap64 (table_pages (stats vm) + 1) |> |>, true).

Definition alloc_table_for vm (r : Z) : res (vmm M S * Z) :=
  '(m, p) ← alloc_page_below (source vm) VMM_KERNEL_DIRECT_LIMIT;
  let vm := vm <| source := m |> in
  if p =? 0 then Ret (vm, 0) else
  let vm := vm <| tables := <[p := anew PT_ENTRIES]> (tables vm) |> in
  '(vm, ok) ← track_table vm r p;
  if negb ok then m ← free_page (source vm) p; Ret (vm <| source := m |> <| tables := delete p (tables vm) |>, 0)
  else Ret (vm, p).

Definition alloc_kernel_table vm : res (vmm M S * Z) :=
  '(vm, p) ← alloc_table_for vm KERNEL;
  if p =? 0 then Fault Panic else Ret (vm, p).

Definition untrack_table vm (r table : Z) : res (vmm M S * bool) :=
  if table =? 0 then Ret (vm, false) else
  s ← get_space vm r;
  c ← loop_n (Z.to_nat (owned_count s)) 0 (λ i (_ : unit),
    x ← rd (owned_tables s) i;
    if x =? table then
      last ← rd (owned_tables s) (owned_count s - 1);
      owned ← wr (owned_tables s) i last;
      owned ← wr owned (owned_count s - 1) 0;
      let vm := put_space vm r (s <| owned_tables := owned |> <| owned_count := owned_count s - 1 |>) in
      Ret (Done (if negb (table_pages (stats vm) =? 0) then vm <| stats := (stats vm) <| table_pages := table_pages (stats vm) - 1 |> |> else vm))
    else Ret (Next tt)) tt;
  Ret (match c with Done vm => (vm, true) | Next _ => (vm, false) end).

Definition free_tracked_table vm (r table : Z) : res (vmm M S) :=
  if table =? 0 then Ret vm else
  '(vm, ok) ← untrack_table vm r table;
  if ok : bool then m ← free_page (source vm) table; Ret (vm <| source := m |> <| tables := delete table (tables vm) |>) else Ret vm.

(** A table made on the way, with the entry that points to it. *)
Record vmm_created_table_t := mk_created { parent : Z; index : Z; table : Z }.

Definition rollback_created_tables vm (r : Z) (created : list vmm_created_table_t) : res (vmm M S) :=
  fold_res (λ c vm,
    e ← (if negb (parent c =? 0) && negb (table c =? 0) then pt_rd vm (parent c) (index c) else Ret 0);
    vm ← (if negb (parent c =? 0) && negb (table c =? 0) && (Z.land e PTE_ADDR_MASK =? table c) then pt_wr vm (parent c) (index c) 0 else Ret vm);
    free_tracked_table vm r (table c)) (rev created) vm.

Definition next_table vm (r parent idx : Z) (create : bool) (flags : Z) : res (vmm M S * Z) :=
  if has flags (lnot_w 64 VMM_ALLOWED_TABLE_FLAGS) then Ret (vm, 0) else
  e ← pt_rd vm parent idx;
  if has e VMM_PRESENT then
    if has e VMM_HUGE then Ret (vm, 0) else
    if has flags VMM_USER && negb (has e VMM_USER) then Ret (vm, 0) else
    Ret (vm, Z.land e PTE_ADDR_MASK)
  else if negb create then Ret (vm, 0) else
  '(vm, child) ← alloc_table_for vm r;
  if child =? 0 then Ret (vm, 0) else
  vm ← pt_wr vm parent idx (Z.lor (Z.lor (Z.lor (Z.land child PTE_ADDR_MASK) VMM_PRESENT) VMM_WRITE)
                                  (Z.land flags (Z.lor VMM_USER (Z.lor VMM_WRITETHR VMM_NOCACHE))));
  Ret (vm, child).

Definition vmm_split_huge_pde_locked vm (r pd idx : Z) : res (vmm M S * bool) :=
  if (pd =? 0) || (PT_ENTRIES <=? idx) then Ret (vm, false) else
  huge ← pt_rd vm pd idx;
  if negb (Z.land huge (Z.lor VMM_PRESENT VMM_HUGE) =? Z.lor VMM_PRESENT VMM_HUGE) then Ret (vm, true) else
  '(vm, pt) ← alloc_table_for vm r;
  if pt =? 0 then Ret (vm, false) else
  let phys_base := Z.land huge PTE_ADDR_MASK in
  let leaf_flags := Z.land (Z.land huge (lnot_w 64 PTE_ADDR_MASK)) (lnot_w 64 VMM_HUGE) in
  vm ← for_n (Z.to_nat PT_ENTRIES) 0 (λ i vm, pt_wr vm pt i (Z.lor (Z.lor (wrap64 (phys_base + i * PAGE_SIZE)) leaf_flags) VMM_PRESENT)) vm;
  let table_flags := Z.lor (Z.lor VMM_PRESENT VMM_WRITE) (Z.land huge (Z.lor VMM_USER (Z.lor VMM_WRITETHR VMM_NOCACHE))) in
  vm ← pt_wr vm pd idx (Z.lor (Z.land pt PTE_ADDR_MASK) table_flags);
  let st := stats vm in
  let st := if negb (mapped_2m_pages st =? 0) then st <| mapped_2m_pages := mapped_2m_pages st - 1 |> else st in
  Ret (vm <| stats := st <| mapped_4k_pages := wrap64 (mapped_4k_pages st + PT_ENTRIES) |> |>, true).

Definition vmm_space_existing_path_is_user vm (s : vmm_space_t) (virt : Z) : res bool :=
  if negb (user_space s) || negb (vmm_is_user_range virt PAGE_SIZE) then Ret false else
  if pml4_physical s =? 0 then Ret false else
  let '(a, b, c, _) := split_indices virt in
  pml4e ← pt_rd vm (pml4_physical s) a;
  if negb (vmm_user_table_entry_allows_user pml4e) then Ret false else
  pdpte ← pt_rd vm (Z.land pml4e PTE_ADDR_MASK) b;
  if negb (vmm_user_table_entry_allows_user pdpte) then Ret false else
  pde ← pt_rd vm (Z.land pdpte PTE_ADDR_MASK) c;
  Ret (vmm_user_table_entry_allows_user pde).

(** ** Translation *)

Definition vmm_space_translate vm (space : option Z) (virt : Z) : res (option (Z * Z)) :=
  sp ← deref vm space;
  match sp with
  | None => Ret None
  | Some s =>
      if negb (vmm_is_canonical virt) then Ret None else
      if pml4_physical s =? 0 then Ret None else
      let '(a, b, c, d) := split_indices virt in
      pml4e ← pt_rd vm (pml4_physical s) a;
      if negb (has pml4e VMM_PRESENT) then Ret None else
      pdpte ← pt_rd vm (Z.land pml4e PTE_ADDR_MASK) b;
      if negb (has pdpte VMM_PRESENT) then Ret None else
      pde ← pt_rd vm (Z.land pdpte PTE_ADDR_MASK) c;
      if negb (has pde VMM_PRESENT) then Ret None else
      if has pde VMM_HUGE then Ret (Some (Z.land pde PTE_ADDR_MASK + Z.land virt (HUGE_SIZE - 1), effective_leaf_flags pml4e pdpte pde 0 true)) else
      leaf ← pt_rd vm (Z.land pde PTE_ADDR_MASK) d;
      if negb (has leaf VMM_PRESENT) then Ret None else
      Ret (Some (Z.land leaf PTE_ADDR_MASK + Z.land virt (PAGE_SIZE - 1), effective_leaf_flags pml4e pdpte pde leaf false))
  end.

Definition vmm_translate vm (virt : Z) : res (option (Z * Z)) := vmm_space_translate vm (Some (vmm_current_space_local vm)) virt.

(** ** Other processors *)

Definition vmm_note_cpu_current_space vm (space : option Z) : res (vmm M S) :=
  let r := default KERNEL space in
  vmm_mark_space_active_on_current_cpu (vm <| cpus := smp_set_current_address_space (cpus vm) r |>) r.

(** The processors in [mask] have seen [generation]. *)
Definition note_seen (mask generation : Z) (seen : list Z) : res (list Z) :=
  for_n (Z.to_nat SMP_MAX_CPUS) 0 (λ cpu seen, if has mask (Z.shiftl 1 cpu) then wr seen cpu generation else Ret seen) seen.

Definition vmm_space_tlb_shootdown vm (space : option Z) (virt length : Z) (full_flush : bool) (timeout_ticks : Z) : res (vmm M S * bool) :=
  match space with
  | None => Ret (vm, false)
  | Some r =>
      s ← get_space vm r;
      if pml4_physical s =? 0 then Ret (vm, false) else
      let generation := wrap64 (tlb_generation s + 1) in
      let mask :=
        if r =? KERNEL then let m := smp_started_cpu_mask (cpus vm) in if m =? 0 then 1 else m
        else
          let m := Z.land (active_cpu_mask s) (smp_started_cpu_mask (cpus vm)) in
          let cpu := smp_current_cpu_id (cpus vm) in
          if (m =? 0) && (cpu <? 32) then Z.shiftl 1 cpu else m in
      let target_cr3 := if r =? KERNEL then 0 else pml4_physical s in
      let '(cs, ok) := smp_tlb_shootdown_mask (cpus vm) (if full_flush then 0 else virt) (if full_flush then 0 else length) target_cr3 mask generation timeout_ticks in
      seen ← (if ok : bool then note_seen mask generation (tlb_seen_generation s) else Ret (tlb_seen_generation s));
      let s := s <| tlb_generation := generation |> <| tlb_seen_generation := seen |> <| tlb_shootdowns := wrap64 (tlb_shootdowns s + 1) |>
                 <| tlb_full_shootdowns := if full_flush then wrap64 (tlb_full_shootdowns s + 1) else tlb_full_shootdowns s |>
                 <| tlb_failures := if ok : bool then tlb_failures s else wrap64 (tlb_failures s + 1) |> in
      Ret ((put_space vm r s) <| cpus := cs |>, ok)
  end.

(** ** Mapping *)

Definition vmm_space_map_4k vm (space : option Z) (virt phys flags : Z) : res (vmm M S * bool) :=
  sp ← deref vm space;
  if has virt (PAGE_SIZE - 1) || has phys (PAGE_SIZE - 1) || negb (vmm_leaf_flags_valid_for_space sp virt flags) then Ret (vm, false) else
  match space, sp with
  | Some r, Some s =>
      let pml4 := pml4_physical s in
      if pml4 =? 0 then Ret (vm, false) else
      let table_flags := vmm_table_pte_flags flags in
      let '(a, b, c, d) := split_indices virt in
      let fail vm created := vm ← rollback_created_tables vm r created; Ret (vm, false) in
      e ← pt_rd vm pml4 a;
      let created_pdpt := negb (has e VMM_PRESENT) in
      '(vm, pdpt) ← next_table vm r pml4 a true table_flags;
      if pdpt =? 0 then fail vm [] else
      let created := if created_pdpt then [mk_created pml4 a pdpt] else [] in
      e ← pt_rd vm pdpt b;
      let created_pd := negb (has e VMM_PRESENT) in
      '(vm, pd) ← next_table vm r pdpt b true table_flags;
      if pd =? 0 then fail vm created else
      let created := created ++ (if created_pd then [mk_created pdpt b pd] else []) in
      e ← pt_rd vm pd c;
      if has e VMM_HUGE then fail vm created else
      let created_pt := negb (has e VMM_PRESENT) in
      '(vm, pt) ← next_table vm r pd c true table_flags;
      if pt =? 0 then fail vm created else
      e ← pt_rd vm pt d;
      if has e VMM_PRESENT then fail vm created else
      vm ← pt_wr vm pt d (Z.lor (Z.lor (Z.land phys PTE_ADDR_MASK) (vmm_leaf_pte_flags flags)) VMM_PRESENT);
      Ret (vm <| stats := (stats vm) <| mapped_4k_pages := wrap64 (mapped_4k_pages (stats vm) + 1) |> |>, true)
  | _, _ => Ret (vm, false)
  end.

Definition vmm_map_4k vm (virt phys flags : Z) : res (vmm M S * bool) := vmm_space_map_4k vm (Some KERNEL) virt phys flags.

Definition vmm_map_2m vm (virt phys flags : Z) : res (vmm M S * bool) :=
  if negb (vmm_is_canonical virt) || has flags VMM_USER || has flags VMM_GLOBAL || has flags VMM_COW || has flags (lnot_w 64 VMM_ALLOWED_LEAF_FLAGS) ||
     has virt (HUGE_SIZE - 1) || has phys (HUGE_SIZE - 1) then Ret (vm, false) else
  s ← get_space vm KERNEL;
  let pml4 := pml4_physical s in
  if pml4 =? 0 then Ret (vm, false) else
  let table_flags := vmm_table_pte_flags flags in
  let '(a, b, c, _) := split_indices virt in
  let fail vm created := vm ← rollback_created_tables vm KERNEL created; Ret (vm, false) in
  e ← pt_rd vm pml4 a;
  let created_pdpt := negb (has e VMM_PRESENT) in
  '(vm, pdpt) ← next_table vm KERNEL pml4 a true table_flags;
  if pdpt =? 0 then fail vm [] else
  let created := if created_pdpt then [mk_created pml4 a pdpt] else [] in
  e ← pt_rd vm pdpt b;
  let created_pd := negb (has e VMM_PRESENT) in
  '(vm, pd) ← next_table vm KERNEL pdpt b true table_flags;
  if pd =? 0 then fail vm created else
  e ← pt_rd vm pd c;
  if has e VMM_PRESENT then fail vm created else
  vm ← pt_wr vm pd c (Z.lor (Z.lor (Z.lor (Z.land phys PTE_ADDR_MASK) (vmm_leaf_pte_flags flags)) VMM_PRESENT) VMM_HUGE);
  Ret (vm <| stats := (stats vm) <| mapped_2m_pages := wrap64 (mapped_2m_pages (stats vm) + 1) |> |>, true).

(** The table with the entry of [virt], or 0: the walk that unmapping, protecting and
    remapping begin with.  A large page on the way is split. *)
Definition leaf_table vm (r : Z) (s : vmm_space_t) (virt : Z) : res (vmm M S * Z) :=
  user ← (if user_space s then vmm_space_existing_path_is_user vm s virt else Ret true);
  if negb user then Ret (vm, 0) else
  if pml4_physical s =? 0 then Ret (vm, 0) else
  let '(a, b, c, _) := split_indices virt in
  '(vm, pdpt) ← next_table vm r (pml4_physical s) a false 0;
  if pdpt =? 0 then Ret (vm, 0) else
  '(vm, pd) ← next_table vm r pdpt b false 0;
  if pd =? 0 then Ret (vm, 0) else
  e ← pt_rd vm pd c;
  '(vm, ok) ← (if has e VMM_HUGE then if user_space s then Ret (vm, false) else vmm_split_huge_pde_locked vm r pd c else Ret (vm, true));
  if negb ok then Ret (vm, 0) else
  next_table vm r pd c false 0.

(** Replacing the present entry of [virt] by [f] of it. *)
Definition update_leaf vm (r : Z) (s : vmm_space_t) (virt : Z) (f : Z → Z) : res (vmm M S * bool) :=
  '(vm, pt) ← leaf_table vm r s virt;
  if pt =? 0 then Ret (vm, false) else
  let '(_, _, _, d) := split_indices virt in
  e ← pt_rd vm pt d;
  if negb (has e VMM_PRESENT) then Ret (vm, false) else
  vm ← pt_wr vm pt d (f e);
  Ret (vm, true).

Definition vmm_space_unmap_4k vm (space : option Z) (virt : Z) : res (vmm M S * bool) :=
  match space with
  | None => Ret (vm, false)
  | Some r =>
      if has virt (PAGE_SIZE - 1) || negb (vmm_is_canonical virt) then Ret (vm, false) else
      s ← get_space vm r;
      '(vm, ok) ← update_leaf vm r s virt (λ _, 0);
      if negb ok then Ret (vm, false) else
      let st := stats vm in
      let vm := if negb (mapped_4k_pages st =? 0) then vm <| stats := st <| mapped_4k_pages := mapped_4k_pages st - 1 |> |> else vm in
      '(vm, _) ← vmm_space_tlb_shootdown vm space virt PAGE_SIZE false 0;
      Ret (vm, true)
  end.

Definition vmm_space_protect_4k vm (space : option Z) (virt flags : Z) : res (vmm M S * bool) :=
  sp ← deref vm space;
  if has virt (PAGE_SIZE - 1) || negb (vmm_leaf_flags_valid_for_space sp virt flags) then Ret (vm, false) else
  match space, sp with
  | Some r, Some s =>
      '(vm, ok) ← update_leaf vm r s virt (λ e,
        Z.lor (Z.lor (Z.land e PTE_ADDR_MASK) (Z.land (vmm_leaf_pte_flags flags) (lnot_w 64 PTE_ADDR_MASK))) VMM_PRESENT);
      if negb ok then Ret (vm, false) else
      '(vm, _) ← vmm_space_tlb_shootdown vm space virt PAGE_SIZE false 0;
      Ret (vm, true)
  | _, _ => Ret (vm, false)
  end.

Definition vmm_unmap_4k vm (virt : Z) : res (vmm M S * bool) := vmm_space_unmap_4k vm (Some KERNEL) virt.

Definition vmm_space_remap_4k vm (space : option Z) (virt phys flags : Z) : res (vmm M S * bool) :=
  sp ← deref vm space;
  if has virt (PAGE_SIZE - 1) || has phys (PAGE_SIZE - 1) || negb (vmm_leaf_flags_valid_for_space sp virt flags) then Ret (vm, false) else
  match space, sp with
  | Some r, Some s =>
      '(vm, ok) ← update_leaf vm r s virt (λ _,
        Z.lor (Z.lor (Z.land phys PTE_ADDR_MASK) (Z.land (vmm_leaf_pte_flags flags) (lnot_w 64 PTE_ADDR_MASK))) VMM_PRESENT);
      if negb ok then Ret (vm, false) else
      '(vm, _) ← vmm_space_tlb_shootdown vm space virt PAGE_SIZE false 0;
      Ret (vm, true)
  | _, _ => Ret (vm, false)
  end.

(** ** Address spaces *)

Definition vmm_space_create_user vm (space : option Z) : res (vmm M S * bool) :=
  match space with
  | None => Ret (vm, false)
  | Some r =>
      k ← get_space vm KERNEL;
      if pml4_physical k =? 0 then Ret (vm, false) else
      let s := zero_space <| user_space := true |> in
      let vm := put_space vm r s in
      '(m, root) ← alloc_page_below (source vm) VMM_KERNEL_DIRECT_LIMIT;
      let vm := vm <| source := m |> in
      if root =? 0 then Ret (vm, false) else
      let vm := vm <| tables := <[root := anew PT_ENTRIES]> (tables vm) |> in
      vm ← for_n (Z.to_nat PT_ENTRIES) 0 (λ i vm, e ← pt_rd vm (pml4_physical k) i; pt_wr vm root i (Z.land e (lnot_w 64 VMM_USER))) vm;
      let vm := put_space vm r (s <| pml4_physical := root |>) in
      '(vm, ok) ← track_table vm r root;
      if negb ok then
        m ← free_page (source vm) root;
        Ret ((put_space vm r zero_space) <| source := m |> <| tables := delete root (tables vm) |>, false)
      else Ret (vm <| stats := (stats vm) <| spaces_created := wrap64 (spaces_created (stats vm) + 1) |> |>, true)
  end.

(** Giving back the tables of a space, the last one first. *)
Definition free_tables vm (owned : list Z) (count : Z) : res (vmm M S) :=
  for_n (Z.to_nat count) 0 (λ i vm,
    p ← rd owned (count - 1 - i);
    if p =? 0 then Ret vm else
    m ← free_page (source vm) p;
    let vm := vm <| source := m |> <| tables := delete p (tables vm) |> in
    Ret (if negb (table_pages (stats vm) =? 0) then vm <| stats := (stats vm) <| table_pages := table_pages (stats vm) - 1 |> |> else vm)) vm.

Definition vmm_space_destroy vm (space : option Z) : res (vmm M S) :=
  match space with
  | None => Ret vm
  | Some r =>
      s ← get_space vm r;
      if pml4_physical s =? 0 then Ret vm else
      let old_cr3 := pml4_physical s in
      vm ← (if r =? vmm_current_space_local vm then
              let vm := vm <| cpus := smp_set_current_address_space (cpus vm) KERNEL |> in
              k ← get_space vm KERNEL;
              vm ← vmm_mark_space_active_on_current_cpu (vm <| cr3 := pml4_physical k |>) KERNEL;
              Ret (vm <| current_space_obj := Some KERNEL |>)
            else Ret vm);
      s ← get_space vm r;
      let shoot_mask := Z.land (active_cpu_mask s) (smp_started_cpu_mask (cpus vm)) in
      let generation := wrap64 (tlb_generation s + 1) in
      let s := s <| tlb_generation := generation |> in
      '(cs, s) ← (if negb (shoot_mask =? 0) then
                    let '(cs, flushed) := smp_tlb_shootdown_mask (cpus vm) 0 0 old_cr3 shoot_mask generation 0 in
                    if flushed : bool then seen ← note_seen shoot_mask generation (tlb_seen_generation s); Ret (cs, s <| tlb_seen_generation := seen |>)
                    else Ret (cs, s <| tlb_failures := wrap64 (tlb_failures s + 1) |>)
                  else Ret (cpus vm, s));
      let vm := (put_space vm r s) <| cpus := cs |> in
      if negb (pml4_physical s =? old_cr3) then Ret vm else
      vm ← free_tables vm (owned_tables s) (owned_count s);
      let vm := put_space vm r zero_space in
      Ret (vm <| stats := (stats vm) <| spaces_destroyed := wrap64 (spaces_destroyed (stats vm) + 1) |> |>)
  end.

Definition vmm_switch_space vm (space : option Z) : res (vmm M S) :=
  match space with
  | None => Fault Panic
  | Some r =>
      s ← get_space vm r;
      if pml4_physical s =? 0 then Fault Panic else
      let vm := vm <| cpus := smp_set_current_address_space (cpus vm) r |> <| cr3 := pml4_physical s |> in
      vm ← vmm_mark_space_active_on_current_cpu vm r;
      Ret (vm <| current_space_obj := Some r |>)
  end.

Definition vmm_switch_kernel vm : res (vmm M S) := vmm_switch_space vm (Some KERNEL).

(** ** The kernel's own map *)

Definition page_overlaps (page start e : Z) : bool := (start <? e) && (page <? e) && (start <? page + PAGE_SIZE).

Definition align_down_uptr (value align : Z) : Z := Z.land value (lnot_w 64 (align - 1)).

Definition align_up_uptr_checked (value align : Z) : option Z :=
  if (align =? 0) || has align (align - 1) then None else
  match add_u64 value (align - 1) with None => None | Some tmp => Some (Z.land tmp (lnot_w 64 (align - 1))) end.

Definition align_up_uptr (value align : Z) : Z := default 0 (align_up_uptr_checked value align).

Definition VMM_SMP_TRAMPOLINE_BASE : Z := 0x7000.
Definition VMM_SMP_TRAMPOLINE_SIZE : Z := PAGE_SIZE.

Definition identity_page_is_smp_trampoline (page : Z) : bool := (VMM_SMP_TRAMPOLINE_BASE <=? page) && (page <? VMM_SMP_TRAMPOLINE_BASE + VMM_SMP_TRAMPOLINE_SIZE).

Definition identity_4k_flags (addr : Z) : Z :=
  if identity_page_is_smp_trampoline addr then Z.lor VMM_WRITE (Z.lor VMM_GLOBAL VMM_NX) else
  if page_overlaps addr text_start text_end then VMM_GLOBAL else
  if page_overlaps addr rodata_start rodata_end then Z.lor VMM_GLOBAL VMM_NX else
  if page_overlaps addr data_start data_end || page_overlaps addr bss_start bss_end then Z.lor VMM_WRITE (Z.lor VMM_GLOBAL VMM_NX) else
  Z.lor VMM_WRITE VMM_NX.

Definition identity_2m_window_requires_4k (base : Z) : bool :=
  vmm_ranges_overlap base (base + HUGE_SIZE) kernel_start kernel_end ||
  vmm_ranges_overlap base (base + HUGE_SIZE) VMM_SMP_TRAMPOLINE_BASE (VMM_SMP_TRAMPOLINE_BASE + VMM_SMP_TRAMPOLINE_SIZE).

Definition vmm_range_has_flags vm (start e required forbidden : Z) : res bool :=
  if e <=? start then Ret true else
  let first := align_down_uptr start PAGE_SIZE in
  let last := align_up_uptr e PAGE_SIZE in
  c ← loop_n (Z.to_nat ((last - first) / PAGE_SIZE)) 0 (λ i (_ : unit),
    let page := first + i * PAGE_SIZE in
    t ← vmm_space_translate vm (Some KERNEL) page;
    match t with
    | None => Ret (Done false)
    | Some (phys, flags) =>
        if negb (phys =? page) then Ret (Done false) else
        if negb (Z.land flags required =? required) then Ret (Done false) else
        if has flags forbidden then Ret (Done false) else
        if has flags VMM_HUGE then Ret (Done false) else Ret (Next tt)
    end) tt;
  Ret (match c with Done b => b | Next _ => true end).

Definition vmm_kernel_protection_status vm : res (bool * bool * bool) :=
  text_ro ← vmm_range_has_flags vm text_start text_end (Z.lor VMM_PRESENT VMM_GLOBAL) (Z.lor VMM_WRITE (Z.lor VMM_NX (Z.lor VMM_USER VMM_HUGE)));
  rodata_nx ← vmm_range_has_flags vm rodata_start rodata_end (Z.lor VMM_PRESENT (Z.lor VMM_GLOBAL VMM_NX)) (Z.lor VMM_WRITE (Z.lor VMM_USER VMM_HUGE));
  data_ok ← vmm_range_has_flags vm data_start data_end (Z.lor VMM_PRESENT (Z.lor VMM_GLOBAL (Z.lor VMM_WRITE VMM_NX))) (Z.lor VMM_USER VMM_HUGE);
  bss_ok ← vmm_range_has_flags vm bss_start bss_end (Z.lor VMM_PRESENT (Z.lor VMM_GLOBAL (Z.lor VMM_WRITE VMM_NX))) (Z.lor VMM_USER VMM_HUGE);
  Ret (text_ro, rodata_nx, data_ok && bss_ok).

(** One window of 2 MiB of the identity map. *)
Definition map_window vm (addr identity : Z) : res (vmm M S) :=
  if identity_2m_window_requires_4k addr then
    for_n (Z.to_nat (Z.min ((identity - addr) / PAGE_SIZE) PT_ENTRIES)) 0 (λ i vm,
      let page := addr + i * PAGE_SIZE in
      '(vm, ok) ← vmm_map_4k vm page page (identity_4k_flags page);
      if negb ok then Fault Panic else Ret vm) vm
  else
    '(vm, ok) ← vmm_map_2m vm addr addr (Z.lor VMM_WRITE VMM_NX);
    if negb ok then Fault Panic else Ret vm.

Definition vmm_init vm (bytes : Z) : res (vmm M S) :=
  let vm := (put_space vm KERNEL zero_space) <| stats := zero_stats |> in
  '(vm, root) ← alloc_kernel_table vm;
  k ← get_space vm KERNEL;
  let vm := put_space vm KERNEL (k <| pml4_physical := root |>) in
  vm ← vmm_set_current_space_local vm (Some KERNEL);
  let bytes := if bytes <? 64 * 1024 * 1024 then 64 * 1024 * 1024 else bytes in
  let bytes := if bytes <? kernel_end then kernel_end else bytes in
  match align_up_u64_checked bytes HUGE_SIZE true with
  | None => Fault Panic
  | Some identity =>
      vm ← for_n (Z.to_nat (identity / HUGE_SIZE)) 0 (λ i vm, map_window vm (i * HUGE_SIZE) identity) vm;
      k ← get_space vm KERNEL;
      let root := pml4_physical k in
      let vm := vm <| stats := (stats vm) <| identity_bytes := identity |> <| stats_pml4_physical := root |> |> <| cr3 := root |> in
      Ret (vm <| log := log vm ++ [mk_klog LOG_INFO (lit "vmm") (lit "loaded pml4=%p identity=%llu MiB cr3=%p") [VPtr root; VLong (identity / 1024 / 1024); VPtr (cr3 vm)]] |>)
  end.

Definition vmm_get_stats vm : res vmm_stats_t :=
  s ← get_space vm (vmm_current_space_local vm);
  '(text_ro, rodata_nx, data_nx) ← vmm_kernel_protection_status vm;
  Ret ((stats vm) <| current_pml4_physical := pml4_physical s |> <| kernel_text_ro := text_ro |> <| kernel_rodata_nx := rodata_nx |> <| kernel_data_nx := data_nx |>).

End vmm.
