(* ===== verification/VmmTables.v ===== *)
(** * Page tables as trees

    Every table of [Vmm] stands at one place of one address space: an owner, a level and
    the part of the address that leads to it.  The invariant ties the entries to these
    places; a walk then visits only tables on the way of its own address, and a new
    empty table changes no translation. *)

From Stdlib Require Import ZArith Lia String.
From stdpp Require Import prelude list_numbers fin_maps zmap.
From S2P Require Import Prelude Update Array Arith CString Printf Log Bootinfo Memory PageMap Vmm.

Local Open Scope Z_scope.

(** ** Bits *)

Lemma has_bit x k : 0 ≤ k → has x (2 ^ k) = Z.testbit x k.
Proof.
  intros Hk. unfold has. destruct (Z.testbit x k) eqn:E.
  - apply negb_true_iff, Z.eqb_neq. intros E0. apply (f_equal (λ y, Z.testbit y k)) in E0. rewrite Z.land_spec, E, Z.pow2_bits_true, Z.bits_0 in E0 by done. done.
  - apply negb_false_iff, Z.eqb_eq. apply Z.bits_inj'. intros n Hn. rewrite Z.land_spec, Z.pow2_bits_eqb, Z.bits_0 by done. destruct (Z.eqb_spec k n) as [->|]; [by rewrite E | by rewrite andb_false_r].
Qed.

Lemma mask_bit n : 0 ≤ n → Z.testbit PTE_ADDR_MASK n = (12 <=? n) && (n <? 52).
Proof.
  intros Hn. change PTE_ADDR_MASK with (Z.shiftl (Z.ones 40) 12). rewrite Z.shiftl_spec by done. destruct (Z.leb_spec 12 n); cbn [andb].
  - rewrite Z.testbit_ones_nonneg by lia. destruct (Z.ltb_spec (n - 12) 40), (Z.ltb_spec n 52); lia || done.
  - apply Z.testbit_neg_r. lia.
Qed.

Definition addr (e : Z) : Z := Z.land e PTE_ADDR_MASK.

Lemma addr_bit e n : 0 ≤ n → Z.testbit (addr e) n = Z.testbit e n && ((12 <=? n) && (n <? 52)).
Proof. intros Hn. unfold addr. by rewrite Z.land_spec, mask_bit. Qed.

(** An address with flags beside it. *)
Lemma addr_lor x f : addr f = 0 → addr (Z.lor (addr x) f) = addr x.
Proof.
  intros Hf. apply Z.bits_inj'. intros n Hn. apply (f_equal (λ y, Z.testbit y n)) in Hf. rewrite addr_bit, Z.bits_0 in Hf by done. rewrite addr_bit, Z.lor_spec, addr_bit by done.
  destruct (Z.testbit x n), (Z.testbit f n), (12 <=? n), (n <? 52); done.
Qed.

(** The low bits of an address are clear. *)
Lemma addr_low e n : 0 ≤ n < 12 → Z.testbit (addr e) n = false.
Proof. intros Hn. rewrite addr_bit by lia. bfalse (12 <=? n). apply andb_false_r. Qed.

Lemma addr_high e n : 52 ≤ n → Z.testbit (addr e) n = false.
Proof. intros Hn. rewrite addr_bit by lia. bfalse (n <? 52). by rewrite !andb_false_r. Qed.

Lemma aligned_addr p : 0 ≤ p < 2 ^ 52 → p mod 4096 = 0 → addr p = p.
Proof.
  intros Hp Hm. apply Z.bits_inj'. intros n Hn. rewrite addr_bit by done. destruct (Z.leb_spec 12 n).
  - destruct (Z.ltb_spec n 52); [by rewrite andb_true_r |]. cbn. rewrite andb_false_r. symmetry. rewrite <- (Z.mod_small p (2 ^ 52)) by done. apply Z.mod_pow2_bits_high. lia.
  - cbn. rewrite andb_false_r. symmetry. change 4096 with (2 ^ 12) in Hm. rewrite <- (Z.mod_pow2_bits_low p 12 n) by lia. by rewrite Hm, Z.bits_0.
Qed.

(** ** Places *)

Record node := mk_node { n_owner : Z; n_level : Z; n_prefix : Z }.

#[global] Instance node_eq_dec : EqDecision node.
Proof. solve_decision. Defined.

(** The page number inside the 48-bit address space, and the index at a level. *)
Definition vpn (virt : Z) : Z := virt / 4096 mod 2 ^ 36.
Definition pfx (virt l : Z) : Z := vpn virt / 512 ^ (l - 1).
Definition idx (virt l : Z) : Z := pfx virt l mod 512.

Lemma vpn_range virt : 0 ≤ vpn virt < 2 ^ 36.
Proof. apply Z.mod_pos_bound. lia. Qed.

Lemma idx_range virt l : 0 ≤ idx virt l < 512.
Proof. apply Z.mod_pos_bound. lia. Qed.

Lemma pfx_step virt l : 1 ≤ l → pfx virt l = pfx virt (l + 1) * 512 + idx virt l.
Proof.
  intros Hl. unfold idx, pfx. replace (l + 1 - 1) with (Z.succ (l - 1)) by lia. rewrite Z.pow_succ_r by lia. rewrite (Z.mul_comm 512), <- Z.div_div by lia.
  rewrite (Z.div_mod (vpn virt / 512 ^ (l - 1)) 512) at 1 by lia. lia.
Qed.

Lemma pfx_top virt : pfx virt 5 = 0.
Proof. unfold pfx. apply Z.div_small. pose proof (vpn_range virt). change (512 ^ (5 - 1)) with (2 ^ 36). lia. Qed.

Lemma pfx_page virt : pfx virt 1 = vpn virt.
Proof. unfold pfx. change (512 ^ (1 - 1)) with 1. apply Z.div_1_r. Qed.

Lemma split_idx virt k l : 0 ≤ virt → k = 12 + 9 * (l - 1) → 1 ≤ l ≤ 4 → Z.land (Z.shiftr virt k) 0x1ff = idx virt l.
Proof.
  intros Hv -> Hl. change 0x1ff with (Z.ones 9). rewrite Z.land_ones, Z.shiftr_div_pow2 by lia. unfold idx, pfx, vpn. change 512 with (2 ^ 9) at 2. rewrite Z.pow_add_r by lia. change (2 ^ 12) with 4096.
  rewrite <- Z.div_div by lia. rewrite Z.pow_mul_r by lia. change (2 ^ 9) with 512. assert (Hd : (512 ^ (l - 1) * 512 | 2 ^ 36)).
  { assert (l = 1 ∨ l = 2 ∨ l = 3 ∨ l = 4) as [->|[->|[->| ->]]] by lia; [exists (2 ^ 27) | exists (2 ^ 18) | exists (2 ^ 9) | exists 1]; reflexivity. }
  destruct Hd as [q Hq]. rewrite Hq. assert (Hpos : 0 < 512 ^ (l - 1)) by lia. rewrite (Z.mul_comm q), <- Z.mul_assoc. 
  assert (0 < q) by (assert (0 < q * (512 ^ (l - 1) * 512)) by (rewrite <- Hq; lia); nia).
  rewrite Z.rem_mul_r by nia. rewrite (Z.mul_comm (512 ^ (l - 1)) (_ mod _)), Z.div_add, (Z.div_small (_ mod _)), Z.add_0_l by (lia || apply Z.mod_pos_bound; lia).
  rewrite Z.rem_mul_r by lia. rewrite (Z.mul_comm 512), Z.mod_add, Z.mod_mod by lia. done.
Qed.

Lemma split_indices_spec virt : 0 ≤ virt → split_indices virt = (idx virt 4, idx virt 3, idx virt 2, idx virt 1).
Proof. intros Hv. unfold split_indices. by rewrite (split_idx virt 39 4), (split_idx virt 30 3), (split_idx virt 21 2), (split_idx virt 12 1) by (done || lia). Qed.

(** ** Walks *)

Notation "'present' e" := (Z.testbit e 0) (at level 10, e at level 9).
Notation "'large' e" := (Z.testbit e 7) (at level 10, e at level 9).

(** The entries from the table [p] of level [l] down to the leaf, if it is present. *)
Fixpoint walk (ent : Z → Z → option Z) (l : nat) (p virt : Z) : option (list Z) :=
  match l with
  | O => None
  | S l' =>
      e ← ent p (idx virt (Z.of_nat l));
      if negb (present e) then None else
      if (l =? 1)%nat || (l =? 2)%nat && large e then Some [e] else
      es ← walk ent l' (addr e) virt; Some (e :: es)
  end.

(** What [vmm_space_translate] makes of the entries. *)
Definition leaf_of (virt : Z) (es : list Z) : option (Z * Z) :=
  match es with
  | [e4; e3; e2] => Some (addr e2 + Z.land virt (HUGE_SIZE - 1), effective_leaf_flags e4 e3 e2 0 true)
  | [e4; e3; e2; e1] => Some (addr e1 + Z.land virt (PAGE_SIZE - 1), effective_leaf_flags e4 e3 e2 e1 false)
  | _ => None
  end.

(** What [effective_leaf_flags] reports of a leaf below tables that add nothing. *)
Definition REPORTED : Z :=
  Z.lor VMM_PRESENT (Z.lor VMM_WRITE (Z.lor VMM_USER (Z.lor VMM_NX (Z.lor VMM_GLOBAL (Z.lor VMM_COW (Z.lor VMM_DIRTY VMM_ACCESSED)))))).

(** An entry for a table of the space [o]. *)
Definition good (o e : Z) : Prop := Z.testbit e 1 = true ∧ Z.testbit e 63 = false ∧ Z.testbit e 2 = negb (o =? KERNEL).

(** The entry [e] of the table at [n], index [i], leads to the table at [n']: one of
    the same space, or a table of the kernel's below the root of another space. *)
Definition link (n n' : node) (i e : Z) : Prop :=
  n_level n' = n_level n - 1 ∧ n_prefix n' = n_prefix n * 512 + i ∧ good (n_owner n') e ∧
  (n_owner n' = n_owner n ∨ n_level n = 4 ∧ n_owner n' = KERNEL).

(** A page of 2 MiB. *)
Definition large_ok (n : node) (e : Z) : Prop :=
  n_level n = 2 ∧ n_owner n = KERNEL ∧ Z.testbit e 2 = false ∧ (∀ k, k ∈ [5; 6; 8; 9] → Z.testbit e k = false) ∧ addr e mod HUGE_SIZE = 0.

(** An entry without a table below it. *)
Definition leaf_ok (n : node) (e : Z) : Prop :=
  e = 0 ∨ present e = true ∧ 0 ≤ e < 2 ^ 64 ∧ (n_level n = 1 ∧ Z.testbit e 2 = negb (n_owner n =? KERNEL) ∨ large e = true ∧ large_ok n e).

Definition table_entry (n : node) (e : Z) : Prop := present e = true ∧ 2 ≤ n_level n ∧ large e = false.

Record tree_ok (ent : Z → Z → option Z) (tree : Z → option node) : Prop := {
  to_size : ∀ p i, is_Some (ent p i) ↔ is_Some (tree p) ∧ 0 ≤ i < 512;
  to_addr : ∀ p n, tree p = Some n → 0 < p ∧ addr p = p;
  to_inj : ∀ p q n, tree p = Some n → tree q = Some n → p = q;
  to_level : ∀ p n, tree p = Some n → 1 ≤ n_level n ≤ 4 ∧ (n_level n = 4 → n_prefix n = 0);
  to_entry : ∀ p n i e, tree p = Some n → ent p i = Some e → leaf_ok n e ∨ table_entry n e ∧ 0 ≤ e < 2 ^ 64;
  to_link : ∀ p n i e, tree p = Some n → ent p i = Some e → table_entry n e → ∃ n', tree (addr e) = Some n' ∧ link n n' i e;
  to_parent : ∀ q n', tree q = Some n' → n_level n' < 4 → ∃ p n i e, tree p = Some n ∧ n_owner n = n_owner n' ∧ ent p i = Some e ∧ table_entry n e ∧ addr e = q;
}.

Definition look (ent : Z → Z → option Z) (root virt : Z) : option (Z * Z) := walk ent 4 root virt ≫= leaf_of virt.

(** ** What a leaf shows *)

Lemma testbit_if (b : bool) x f n : Z.testbit (if b then Z.lor x f else x) n = Z.testbit x n || b && Z.testbit f n.
Proof. destruct b; cbn [andb]; [apply Z.lor_spec | by rewrite orb_false_r]. Qed.

(** One bit of two words built from flags. *)
Ltac flag_bit n k :=
  destruct (Z.eqb_spec k n) as [<-|]; [cbn [Z.eqb Pos.eqb andb orb]; rewrite ?andb_false_r, ?andb_true_r, ?andb_diag, ?orb_false_r; cbn [andb orb]; rewrite ?andb_false_r, ?orb_false_r; congruence |].

Lemma effective_page o e4 e3 e2 e1 :
  good o e4 → good o e3 → good o e2 → present e1 = true → Z.testbit e1 2 = negb (o =? KERNEL) → effective_leaf_flags e4 e3 e2 e1 false = Z.land e1 REPORTED.
Proof.
  intros (W4 & X4 & U4) (W3 & X3 & U3) (W2 & X2 & U2) P1 U1. unfold effective_leaf_flags, REPORTED, VMM_PRESENT, VMM_WRITE, VMM_USER, VMM_NX, VMM_GLOBAL, VMM_COW, VMM_DIRTY, VMM_ACCESSED, VMM_HUGE.
  rewrite !has_bit, !Z.lor_spec, W4, W3, W2, X4, X3, X2, U4, U3, U2, <- U1 by lia. cbn [negb andb orb]. replace (Z.testbit e1 2 && _) with (Z.testbit e1 2) by by destruct (Z.testbit e1 2).
  apply Z.bits_inj'. intros n Hn. rewrite !testbit_if, Z.land_spec, !Z.lor_spec, !Z.pow2_bits_eqb by lia. cbn [andb]. rewrite ?orb_false_r.
  flag_bit n 0. flag_bit n 1. flag_bit n 2. flag_bit n 63. flag_bit n 8. flag_bit n 9. flag_bit n 6. flag_bit n 5. by rewrite !andb_false_r.
Qed.

Lemma effective_large n e4 e3 e2 :
  good KERNEL e4 → good KERNEL e3 → present e2 = true → large_ok n e2 → effective_leaf_flags e4 e3 e2 0 true = Z.lor (Z.land e2 REPORTED) VMM_HUGE.
Proof.
  intros (W4 & X4 & U4) (W3 & X3 & U3) P2 (_ & _ & U2 & Hk & _). unfold effective_leaf_flags, REPORTED, VMM_PRESENT, VMM_WRITE, VMM_USER, VMM_NX, VMM_GLOBAL, VMM_COW, VMM_DIRTY, VMM_ACCESSED, VMM_HUGE.
  assert (Z.testbit e2 5 = false ∧ Z.testbit e2 6 = false ∧ Z.testbit e2 8 = false ∧ Z.testbit e2 9 = false) as (B5 & B6 & B8 & B9) by (split_and!; apply Hk, list_elem_of_In; cbn; lia).
  rewrite !has_bit, !Z.lor_spec, W4, W3, X4, X3, U4, U3, U2, B8 by lia. cbn [negb andb orb]. rewrite ?orb_true_r, ?andb_true_r, ?andb_false_r, ?Z.testbit_0_l, ?orb_false_r.
  apply Z.bits_inj'. intros m Hm. repeat (rewrite testbit_if || rewrite Z.lor_spec || rewrite Z.land_spec). rewrite !Z.pow2_bits_eqb by lia. cbn [andb].
  flag_bit m 0. flag_bit m 1. flag_bit m 2. flag_bit m 63. flag_bit m 8. flag_bit m 9. flag_bit m 6. flag_bit m 5. by rewrite !andb_false_r.
Qed.

(** The place below the entry [i] of the table at [n]. *)
Definition place (n : node) (i : Z) : node := mk_node (n_owner n) (n_level n - 1) (n_prefix n * 512 + i).

(** [ent'] is [ent] with the table [q] below the entry [i0] of [p0]; [f] are its leaves. *)
Record grown (ent : Z → Z → option Z) (tree : Z → option node) (p0 : Z) (n0 : node) (i0 q : Z) (f : Z → Z) (ent' : Z → Z → option Z) : Prop := {
  gr_node : tree p0 = Some n0;
  gr_level : 2 ≤ n_level n0;
  gr_old : ∃ e0, ent p0 i0 = Some e0 ∧ ¬ table_entry n0 e0;
  gr_fresh : tree q = None;
  gr_addr : 0 < q ∧ addr q = q;
  gr_same : ∀ x j, x ≠ q → (x, j) ≠ (p0, i0) → ent' x j = ent x j;
  gr_new : ∃ e1, ent' p0 i0 = Some e1 ∧ table_entry n0 e1 ∧ addr e1 = q ∧ 0 ≤ e1 < 2 ^ 64 ∧ good (n_owner n0) e1;
  gr_table : ∀ j, ent' q j = if (0 <=? j) && (j <? 512) then Some (f j) else None;
  gr_leaves : ∀ j, 0 ≤ j < 512 → leaf_ok (place n0 i0) (f j);
}.

(** [ent'] is [ent] with the leaf [e'] at the entry [i0] of [p0]. *)
Record rewritten (ent : Z → Z → option Z) (tree : Z → option node) (p0 : Z) (n0 : node) (i0 e' : Z) (ent' : Z → Z → option Z) : Prop := {
  rw_node : tree p0 = Some n0;
  rw_old : ∃ e0, ent p0 i0 = Some e0 ∧ ¬ table_entry n0 e0;
  rw_same : ∀ x j, (x, j) ≠ (p0, i0) → ent' x j = ent x j;
  rw_new : ent' p0 i0 = Some e';
  rw_leaf : leaf_ok n0 e';
}.

Definition tins (q : Z) (n : node) (tree : Z → option node) : Z → option node := λ x, if x =? q then Some n else tree x.

(** ** Walks in a tree *)

Section tree.
Context (ent : Z → Z → option Z) (tree : Z → option node) (Htree : tree_ok ent tree).

Lemma ent_some p n i : tree p = Some n → 0 ≤ i < 512 → ∃ e, ent p i = Some e.
Proof. intros Hn Hi. apply (to_size _ _ Htree). split; [by eexists | done]. Qed.

Lemma ent_index p i e : ent p i = Some e → 0 ≤ i < 512.
Proof. intros He. by apply (to_size _ _ Htree p i). Qed.

Lemma ent_node p i e : ent p i = Some e → ∃ n, tree p = Some n.
Proof. intros He. by apply (to_size _ _ Htree p i). Qed.

Lemma ent_word p i e : ent p i = Some e → 0 ≤ e < 2 ^ 64.
Proof. intros He. destruct (ent_node _ _ _ He) as [n Hn]. destruct (to_entry _ _ Htree p n i e Hn He) as [[->|(_ & Hw & _)]|[_ Hw]]; [lia | done..]. Qed.

(** An entry on the way is a table's, or a walk ends there. *)
Lemma walk_inner p n i e l :
  tree p = Some n → n_level n = Z.of_nat l → ent p i = Some e → present e = true → ((l =? 1)%nat || (l =? 2)%nat && large e) = false ↔ table_entry n e.
Proof.
  intros Hn Hl He Hpr. split.
  - intros [H1 H2]%orb_false_iff. apply Nat.eqb_neq in H1. pose proof (to_level _ _ Htree p n Hn) as [Hlev _].
    destruct (to_entry _ _ Htree p n i e Hn He) as [[->|(_ & _ & [[? _]|[Hlg [? _]]])]|[? _]]; [by rewrite Z.testbit_0_l in Hpr | lia | | done].
    rewrite Hlg, andb_true_r in H2. apply Nat.eqb_neq in H2. lia.
  - intros (_ & Hlev & Hlg). rewrite Hlg, andb_false_r, orb_false_r. apply Nat.eqb_neq. lia.
Qed.

Lemma walk_step p n v l e :
  tree p = Some n → n_level n = Z.of_nat (S l) → ent p (idx v (n_level n)) = Some e → table_entry n e → walk ent (S l) p v = es ← walk ent l (addr e) v; Some (e :: es).
Proof.
  intros Hn Hl He Ht. cbn [walk]. rewrite <- Hl, He. cbn [mbind option_bind]. pose proof Ht as (Hpr & _ & _). rewrite Hpr. cbn [negb]. by rewrite (proj2 (walk_inner p n _ e (S l) Hn Hl He Hpr) Ht).
Qed.

Lemma walk_absent p v l : ent p (idx v (Z.of_nat l)) = Some 0 → walk ent l p v = None.
Proof. intros He. destruct l as [|l]; [done |]. cbn [walk]. by rewrite He. Qed.

Lemma walk_leaf p n v l e :
  tree p = Some n → n_level n = Z.of_nat (S l) → ent p (idx v (n_level n)) = Some e → leaf_ok n e → present e = true → walk ent (S l) p v = Some [e].
Proof.
  intros Hn Hl He Hleaf Hpr. cbn [walk]. rewrite <- Hl, He. cbn [mbind option_bind]. rewrite Hpr. cbn [negb]. destruct ((S l =? 1)%nat || (S l =? 2)%nat && large e) eqn:E; [done |].
  apply (walk_inner p n _ e (S l) Hn Hl He Hpr) in E as (_ & H2 & Hlg). destruct Hleaf as [->|(_ & _ & [[? _]|[? _]])]; [by rewrite Z.testbit_0_l in Hpr | lia | congruence].
Qed.

(** The place below an entry on the way of [v] is on the way of [v]. *)
Lemma link_prefix n n' v e : 1 ≤ n_level n → n_prefix n = pfx v (n_level n + 1) → link n n' (idx v (n_level n)) e → n_prefix n' = pfx v (n_level n' + 1).
Proof. intros Hl Hp (Hl' & Hp' & _). rewrite Hp', Hl'. replace (n_level n - 1 + 1) with (n_level n) by lia. rewrite Hp. symmetry. by apply pfx_step. Qed.

(** Walks that agree on the entries they can meet agree; a walk meets only tables of
    the owners in [P]. *)
Lemma walk_frame ent' v (P : Z → Prop) l : ∀ p n,
  tree p = Some n → n_level n = Z.of_nat l → n_prefix n = pfx v (n_level n + 1) → P (n_owner n) → (n_level n = 4 → P KERNEL) →
  (∀ q m, tree q = Some m → P (n_owner m) → n_prefix m = pfx v (n_level m + 1) → ent' q (idx v (n_level m)) = ent q (idx v (n_level m))) →
  walk ent' l p v = walk ent l p v.
Proof.
  induction l as [|l IH]; intros p n Hn Hl Hp Ho Hk Hsame; [done |]. cbn [walk]. pose proof (to_level _ _ Htree p n Hn) as [Hlev _].
  rewrite <- Hl, (Hsame p n Hn Ho Hp). destruct (ent_some p n (idx v (n_level n)) Hn (idx_range _ _)) as [e Ee]. rewrite Ee. cbn [mbind option_bind].
  destruct (present e) eqn:Epr; cbn [negb]; [| done]. destruct ((S l =? 1)%nat || (S l =? 2)%nat && large e) eqn:Eleaf; [done |].
  apply (walk_inner p n _ e _ Hn Hl Ee Epr) in Eleaf. destruct (to_link _ _ Htree p n _ e Hn Ee Eleaf) as (n' & Hn' & Hlk).
  pose proof (link_prefix n n' v e ltac:(lia) Hp Hlk). destruct Hlk as (Hl' & _ & _ & Ho'). rewrite (IH (addr e) n' Hn'); [done | lia | done | | lia | done].
  destruct Ho' as [->|[H4 ->]]; [done | by apply Hk].
Qed.

(** A table at the new place [place n0 i0], below an entry that led to none. *)
Lemma walk_grow ent' p0 n0 i0 q f v l : ∀ p n, grown ent tree p0 n0 i0 q f ent' → tree p = Some n → n_level n = Z.of_nat l →
  walk ent' l p v = walk ent l p v ∨
  ∃ pre e0 e1 l0, ent p0 i0 = Some e0 ∧ ent' p0 i0 = Some e1 ∧ good (n_owner n0) e1 ∧ n_level n0 = Z.of_nat (S l0) ∧ idx v (n_level n0) = i0 ∧ l = (length pre + S l0)%nat ∧
    Forall (good (n_owner n0)) pre ∧ (n_level n < 4 → n_owner n = n_owner n0) ∧
    walk ent l p v = (es ← walk ent (S l0) p0 v; Some (pre ++ es)) ∧ walk ent' l p v = (es ← walk ent' l0 q v; Some (pre ++ e1 :: es)).
Proof.
  induction l as [|l IH]; intros p n Hg Hn Hl; [by left |]. pose proof (to_level _ _ Htree p n Hn) as [Hlev _]. pose proof Hg as [H0 Hlev0 (e0 & He0 & Hold) Hq _ Hsame (e1 & He1 & Ht1 & Ha1 & _ & Hg1) _ _].
  assert (p ≠ q) by congruence. destruct (decide ((p, idx v (n_level n)) = (p0, i0))) as [[= -> Ei]|Hne].
  - assert (n = n0) as -> by congruence. right. exists [], e0, e1, l. split_and!; try done; [by destruct (walk ent (S l) p0 v) |]. cbn [walk]. rewrite <- Hl, Ei, He1. cbn [mbind option_bind].
    destruct Ht1 as (Hpr & _ & Hlg). rewrite Hpr, Hlg, Ha1. cbn [negb]. rewrite andb_false_r, orb_false_r. destruct l as [|l]; [lia | done].
  - destruct (ent_some p n (idx v (n_level n)) Hn (idx_range _ _)) as [e Ee]. pose proof (Hsame _ _ ltac:(done) Hne) as Ee'. rewrite Ee in Ee'.
    destruct (present e) eqn:Epr; [| left; cbn [walk]; rewrite <- Hl, Ee, Ee'; cbn [mbind option_bind]; by rewrite Epr].
    destruct ((S l =? 1)%nat || (S l =? 2)%nat && large e) eqn:Eleaf; [left; cbn [walk]; rewrite <- Hl, Ee, Ee'; cbn [mbind option_bind]; by rewrite Epr, Eleaf |].
    pose proof (proj1 (walk_inner p n _ e _ Hn Hl Ee Epr) Eleaf) as Ht. destruct (to_link _ _ Htree p n _ e Hn Ee Ht) as (n' & Hn' & Hl' & _ & Hg' & Ho').
    assert (E' : walk ent' (S l) p v = es ← walk ent' l (addr e) v; Some (e :: es)) by (cbn [walk]; rewrite <- Hl, Ee'; cbn [mbind option_bind]; by rewrite Epr, Eleaf).
    rewrite (walk_step p n v l e Hn Hl Ee Ht), E'. destruct (IH (addr e) n' Hg Hn' ltac:(lia)) as [->|(pre & x0 & x1 & l0 & E0 & E1 & E2 & E3 & E4 & E5 & E6 & E7 & E8 & E9)]; [by left |].
    right. exists (e :: pre), x0, x1, l0. rewrite E8, E9. assert (n_owner n' = n_owner n0) by (apply E7; lia).
    split_and!; try done; [cbn; lia | constructor; congruence | intros; destruct Ho' as [|[? _]]; [congruence | lia] | |].
    + by destruct (walk ent (S l0) p0 v).
    + by destruct (walk ent' l0 q v).
Qed.

(** Every place of a space is reached from its root. *)
Lemma walk_reach o root v : tree root = Some (mk_node o 4 0) → ∀ k p n,
  tree p = Some n → n_owner n = o → n_level n = 4 - Z.of_nat k → n_prefix n = pfx v (n_level n + 1) →
  ∃ pre, length pre = k ∧ Forall (good o) pre ∧ walk ent 4 root v = es ← walk ent (4 - k) p v; Some (pre ++ es).
Proof.
  intros Hroot. induction k as [|k IH]; intros p n Hn Ho Hl Hp.
  - exists []. split_and!; [done.. |]. destruct n as [o' l' pre']. change (4 - Z.of_nat 0) with 4 in Hl. cbn in Ho, Hl, Hp. subst o' l'. change (4 + 1) with 5 in Hp. rewrite Hp, (pfx_top v) in Hn. rewrite (to_inj _ _ Htree p root _ Hn Hroot). change (4 - 0)%nat with 4%nat. by destruct (walk ent 4 root v).
  - destruct (to_parent _ _ Htree p n Hn ltac:(lia)) as (p' & n' & i & e & Hn' & Ho' & He & Ht & Ha). pose proof (to_level _ _ Htree p n Hn) as [Hlev _].
    destruct (to_link _ _ Htree p' n' i e Hn' He Ht) as (n2 & Hn2 & Hl2 & Hp2 & Hg & _). rewrite Ha, Hn in Hn2. injection Hn2 as <-. pose proof (ent_index _ _ _ He) as Hi.
    rewrite Hp2, (pfx_step v (n_level n + 1)) in Hp by lia. pose proof (idx_range v (n_level n + 1)). assert (n_prefix n' = pfx v (n_level n + 1 + 1)) as Hp' by lia.
    assert (Hi' : i = idx v (n_level n')) by (replace (n_level n') with (n_level n + 1) by lia; lia).
    replace (n_level n + 1) with (n_level n') in Hp' by lia. destruct (IH p' n' Hn' ltac:(congruence) ltac:(lia) Hp') as (pre & Hlen & Hpre & E).
    exists (pre ++ [e]). rewrite length_app, Hlen. split_and!; [cbn; lia | apply Forall_app; split; [done |]; constructor; [| done]; congruence |]. rewrite E.
    replace (4 - k)%nat with (S (4 - S k)) by lia. rewrite (walk_step p' n' v (4 - S k) e Hn' ltac:(lia)) by congruence. rewrite Ha. destruct (walk ent (4 - S k) p v) as [es|]; [| done]. cbn. by rewrite <- app_assoc.
Qed.

(** ** Changing the tree *)

Lemma leaf_not_table n e : leaf_ok n e → ¬ table_entry n e.
Proof. intros [->|(_ & _ & [[? _]|[? _]])] (Hpr & Hl & Hlg); [by rewrite Z.testbit_0_l in Hpr | lia | congruence]. Qed.

(** There is one entry for a place. *)
Lemma place_entry q p n i : tree q = Some (place n i) → n_level n ≤ 4 → tree p = Some n → 0 ≤ i < 512 → ∃ e, ent p i = Some e ∧ table_entry n e ∧ addr e = q.
Proof.
  intros Hq Hl Hn Hi. destruct (to_parent _ _ Htree q _ Hq) as (p' & n' & i' & e & Hn' & Ho' & He & Ht & Ha); [cbn; lia |].
  destruct (to_link _ _ Htree p' n' i' e Hn' He Ht) as (n2 & Hn2 & Hl2 & Hp2 & _). rewrite Ha, Hq in Hn2. injection Hn2 as <-. cbn in Hl2, Hp2, Ho'. pose proof (ent_index _ _ _ He).
  assert (n' = n) as -> by (destruct n', n; cbn in *; f_equal; lia). assert (i' = i) as -> by lia. rewrite (to_inj _ _ Htree p p' n Hn Hn'). eauto.
Qed.

Lemma tins_eq q n (t : Z → option node) : tins q n t q = Some n.
Proof. unfold tins. by rewrite Z.eqb_refl. Qed.

Lemma tins_ne q n (t : Z → option node) x : x ≠ q → tins q n t x = t x.
Proof. intros Hx. unfold tins. by rewrite (proj2 (Z.eqb_neq x q)). Qed.

Lemma tins_inv q n (t : Z → option node) x m : tins q n t x = Some m → x = q ∧ m = n ∨ x ≠ q ∧ t x = Some m.
Proof. unfold tins. destruct (Z.eqb_spec x q); [left | right]; by simplify_eq. Qed.

Lemma tree_rewrite ent' p0 n0 i0 e' : rewritten ent tree p0 n0 i0 e' ent' → tree_ok ent' tree.
Proof.
  intros [Hn0 (e0 & He0 & Hold) Hsame Hnew Hleaf]. split; [| by apply Htree.. | | |].
  - intros p i. rewrite <- (to_size _ _ Htree). destruct (decide ((p, i) = (p0, i0))) as [[= -> ->]|Hne]; [rewrite Hnew, He0; split; by eexists | by rewrite Hsame].
  - intros p n i e Hn He. destruct (decide ((p, i) = (p0, i0))) as [[= -> ->]|Hne]; [left; congruence | rewrite Hsame in He by done; by apply (to_entry _ _ Htree p n i)].
  - intros p n i e Hn He Ht. destruct (decide ((p, i) = (p0, i0))) as [[= -> ->]|Hne]; [| rewrite Hsame in He by done; by apply (to_link _ _ Htree p n i)].
    exfalso. apply (leaf_not_table n e); [congruence | done].
  - intros q n' Hq Hl. destruct (to_parent _ _ Htree q n' Hq Hl) as (p & n & i & e & Hn & Ho & He & Ht & Ha). exists p, n, i, e. split_and!; try done.
    rewrite Hsame; [done |]. intros [= -> ->]. apply Hold. congruence.
Qed.

Lemma tree_grow ent' p0 n0 i0 q f : grown ent tree p0 n0 i0 q f ent' → tree_ok ent' (tins q (place n0 i0) tree).
Proof.
  intros [Hn0 Hlev0 (e0 & He0 & Hold) Hq [Hq0 Haq] Hsame (e1 & He1 & Ht1 & Ha1 & Hw1 & Hg1) Htab Hleaf]. pose proof (to_level _ _ Htree p0 n0 Hn0) as [Hl0 _]. pose proof (ent_index _ _ _ He0) as Hi0.
  assert (Hpq : p0 ≠ q) by congruence. assert (Hnew : ∀ x, tree x ≠ Some (place n0 i0)).
  { intros x Hx. destruct (place_entry x p0 n0 i0 Hx ltac:(lia) Hn0 Hi0) as (e & He & Ht & _). apply Hold. congruence. }
  split.
  - intros p i. destruct (decide (p = q)) as [->|Hp].
    + rewrite tins_eq, Htab. destruct (Z.leb_spec 0 i), (Z.ltb_spec i 512); cbn [andb]; (split; [intros [? Hx]; first [discriminate Hx | split; [by eexists | lia]] | intros [_ Hx]; first [lia | by eexists]]).
    + rewrite tins_ne, <- (to_size _ _ Htree) by done. destruct (decide ((p, i) = (p0, i0))) as [[= -> ->]|Hne]; [rewrite He1, He0; split; by eexists | by rewrite Hsame].
  - intros p n [[-> ->]|[_ Hn]]%tins_inv; [done | by apply (to_addr _ _ Htree p n)].
  - intros p p' n [[-> ->]|[_ Hn]]%tins_inv [[-> Hx]|[_ Hn']]%tins_inv; [done | by destruct (Hnew p') | subst n; by destruct (Hnew p) | by apply (to_inj _ _ Htree p p' n)].
  - intros p n [[-> ->]|[_ Hn]]%tins_inv; [cbn; lia | by apply (to_level _ _ Htree p n)].
  - intros p n i e [[-> ->]|[Hp Hn]]%tins_inv He.
    + left. rewrite Htab in He. destruct ((0 <=? i) && (i <? 512)) eqn:Hi; simplify_eq. apply Hleaf. lia.
    + destruct (decide ((p, i) = (p0, i0))) as [[= -> ->]|Hne]; [right; assert (n = n0) as -> by congruence; assert (e = e1) as -> by congruence; done |]. rewrite Hsame in He by done. by apply (to_entry _ _ Htree p n i).
  - intros p n i e [[-> ->]|[Hp Hn]]%tins_inv He Ht.
    + rewrite Htab in He. destruct ((0 <=? i) && (i <? 512)) eqn:Hi; simplify_eq. by destruct (leaf_not_table _ _ (Hleaf i ltac:(lia))).
    + destruct (decide ((p, i) = (p0, i0))) as [[= -> ->]|Hne].
      * assert (n = n0) as -> by congruence. assert (e = e1) as -> by congruence. rewrite Ha1, tins_eq. eexists. split; [done |]. split_and!; try done. by left.
      * rewrite Hsame in He by done. destruct (to_link _ _ Htree p n i e Hn He Ht) as (n' & Hn' & Hlk). exists n'. split; [| done]. rewrite tins_ne; [done | congruence].
  - intros x n' [[-> ->]|[Hx Hn']]%tins_inv Hl.
    + exists p0, n0, i0, e1. split_and!; try done. by rewrite tins_ne.
    + destruct (to_parent _ _ Htree x n' Hn' Hl) as (p & n & i & e & Hn & Ho & He & Ht & Ha). exists p, n, i, e. assert (p ≠ q) by congruence. rewrite tins_ne by done. split_and!; try done.
      rewrite Hsame; [done.. |]. intros [= -> ->]. apply Hold. congruence.
Qed.

(** The root of a new space, which is the kernel's. *)
Lemma tree_root ent' kroot r q :
  tree kroot = Some (mk_node KERNEL 4 0) → r ≠ KERNEL → (∀ p n, tree p = Some n → n_owner n ≠ r) → tree q = None → 0 < q → addr q = q →
  (∀ x j, x ≠ q → ent' x j = ent x j) → (∀ j, ent' q j = ent kroot j) → tree_ok ent' (tins q (mk_node r 4 0) tree).
Proof.
  intros Hk Hr Hnone Hq Hq0 Haq Hsame Hnew. assert (kroot ≠ q) by congruence. split.
  - intros p i. destruct (decide (p = q)) as [->|Hp]; [rewrite tins_eq, Hnew, (to_size _ _ Htree), Hk; split; intros [_ ?]; (split; [by eexists | done]) |]. by rewrite tins_ne, <- (to_size _ _ Htree), Hsame.
  - intros p n [[-> ->]|[_ Hn]]%tins_inv; [done | by apply (to_addr _ _ Htree p n)].
  - intros p p' n [[-> ->]|[_ Hn]]%tins_inv [[-> Hx]|[_ Hn']]%tins_inv; [done | by destruct (Hnone p' _ Hn') | subst n; by destruct (Hnone p _ Hn) | by apply (to_inj _ _ Htree p p' n)].
  - intros p n [[-> ->]|[_ Hn]]%tins_inv; [cbn; lia | by apply (to_level _ _ Htree p n)].
  - intros p n i e [[-> ->]|[Hp Hn]]%tins_inv He; [| rewrite Hsame in He by done; by apply (to_entry _ _ Htree p n i)].
    rewrite Hnew in He. destruct (to_entry _ _ Htree kroot _ i e Hk He) as [[->|(_ & _ & [[? _]|[_ [? _]]])]|[Ht Hw]]; [by left; left | done.. | by right].
  - intros p n i e [[-> ->]|[Hp Hn]]%tins_inv He Ht.
    + rewrite Hnew in He. destruct (to_link _ _ Htree kroot _ i e Hk He Ht) as (n' & Hn' & Hl' & Hp' & Hg' & Ho'). exists n'. split; [rewrite tins_ne; congruence |]. split_and!; try done. right. split; [done |]. by destruct Ho' as [|[_ ?]].
    + rewrite Hsame in He by done. destruct (to_link _ _ Htree p n i e Hn He Ht) as (n' & Hn' & Hlk). exists n'. split; [| done]. rewrite tins_ne; [done | congruence].
  - intros x n' [[-> ->]|[Hx Hn']]%tins_inv Hl; [cbn in Hl; lia |]. destruct (to_parent _ _ Htree x n' Hn' Hl) as (p & n & i & e & Hn & Ho & He & Ht & Ha). exists p, n, i, e.
    assert (p ≠ q) by congruence. rewrite tins_ne, Hsame by done. done.
Qed.

(** A space with its tables gone. *)
Lemma tree_prune ent' tree' r :
  r ≠ KERNEL → (∀ p, tree' p = match tree p with Some n => if n_owner n =? r then None else Some n | None => None end) →
  (∀ p i, ent' p i = match tree' p with Some _ => ent p i | None => None end) → tree_ok ent' tree'.
Proof.
  intros Hr Ht' He'. assert (Hin : ∀ p n, tree' p = Some n ↔ tree p = Some n ∧ n_owner n ≠ r).
  { intros p n. rewrite Ht'. destruct (tree p) as [m|]; [| by split; [| intros [? _]]]. destruct (Z.eqb_spec (n_owner m) r); split; intros; destruct_and?; simplify_eq; done. }
  assert (Hent : ∀ p n i e, tree' p = Some n → ent' p i = Some e → ent p i = Some e) by (intros p n i e Hn; rewrite He', Hn; done). split.
  - intros p i. rewrite He'. destruct (tree' p) as [n|] eqn:Hn.
    + rewrite (to_size _ _ Htree). apply Hin in Hn as [-> _]. split; intros [_ ?]; (split; [by eexists | done]).
    + split; [by intros [? ?] | intros [[? ?] _]; done].
  - intros p n [Hn _]%Hin. by apply (to_addr _ _ Htree p n).
  - intros p p' n [Hn _]%Hin [Hn' _]%Hin. by apply (to_inj _ _ Htree p p' n).
  - intros p n [Hn _]%Hin. by apply (to_level _ _ Htree p n).
  - intros p n i e Hn He. eapply Hent in He; [| done]. apply Hin in Hn as [Hn _]. by apply (to_entry _ _ Htree p n i).
  - intros p n i e Hn He Ht. eapply Hent in He; [| done]. apply Hin in Hn as [Hn Hne]. destruct (to_link _ _ Htree p n i e Hn He Ht) as (n' & Hn' & Hlk). exists n'. split; [| done]. apply Hin.
    split; [done |]. destruct Hlk as (_ & _ & _ & [->|[_ ->]]); [done | congruence].
  - intros q n' [Hq Hne]%Hin Hl. destruct (to_parent _ _ Htree q n' Hq Hl) as (p & n & i & e & Hn & Ho & He & Ht & Ha). exists p, n, i, e. assert (Hp : tree' p = Some n) by (apply Hin; split; [done | congruence]).
    split_and!; try done. by rewrite He', Hp.
Qed.

(** ** What the spaces see *)

(** The leaf [e] of a table at [n] as an address below it sees it. *)
Definition shown (n : node) (e v : Z) : option (Z * Z) :=
  if negb (present e) then None else
  if n_level n =? 1 then Some (addr e + Z.land v (PAGE_SIZE - 1), Z.land e REPORTED)
  else Some (addr e + Z.land v (HUGE_SIZE - 1), Z.lor (Z.land e REPORTED) VMM_HUGE).

(** [v] is below the entry [i] of the table at [n]. *)
Definition below (n : node) (i v : Z) : Prop := pfx v (n_level n) = n_prefix n * 512 + i.

Lemma below_idx n i v : 1 ≤ n_level n → 0 ≤ i < 512 → below n i v ↔ i = idx v (n_level n) ∧ n_prefix n = pfx v (n_level n + 1).
Proof. intros Hl Hi. unfold below. rewrite (pfx_step v (n_level n)) by done. pose proof (idx_range v (n_level n)). lia. Qed.

Lemma look_leaf root p n i e v :
  tree root = Some (mk_node (n_owner n) 4 0) → tree p = Some n → ent p i = Some e → leaf_ok n e → below n i v → look ent root v = shown n e v.
Proof.
  intros Hroot Hn He Hleaf Hb. pose proof (to_level _ _ Htree p n Hn) as [Hlev _]. apply below_idx in Hb as [-> Hp]; [| lia | by eapply ent_index].
  destruct (walk_reach _ root v Hroot (Z.to_nat (4 - n_level n)) p n Hn) as (pre & Hlen & Hpre & E); [done | lia | done |]. unfold look. rewrite E. clear E. unfold shown.
  destruct (present e) eqn:Epr; cbn [negb].
  2: { destruct Hleaf as [->|[? _]]; [| congruence]. rewrite walk_absent; [done |]. by replace (Z.of_nat (4 - Z.to_nat (4 - n_level n))) with (n_level n) by lia. }
  replace (4 - Z.to_nat (4 - n_level n))%nat with (S (Z.to_nat (n_level n - 1))) by lia. rewrite (walk_leaf p n v _ e Hn) by (done || lia). cbn [mbind option_bind].
  destruct Hleaf as [->|(_ & _ & [[Hl1 Hu]|[_ Hlg]])]; [by rewrite Z.testbit_0_l in Epr | |].
  - rewrite Hl1 in *. btrue (1 =? 1). destruct pre as [|e4 [|e3 [|e2 [|]]]]; try (cbn in Hlen; lia). rewrite !Forall_cons in Hpre. destruct Hpre as (H4 & H3 & H2 & _). cbn [leaf_of app].
    by rewrite (effective_page (n_owner n)).
  - pose proof Hlg as (Hl2 & Hk & _). rewrite Hl2 in *. bfalse (2 =? 1). destruct pre as [|e4 [|e3 [|]]]; try (cbn in Hlen; lia). rewrite !Forall_cons, Hk in Hpre. destruct Hpre as (H4 & H3 & _). cbn [leaf_of app].
    by rewrite (effective_large n).
Qed.

(** A leaf matters only below its entry, and to the spaces that share the table. *)
Lemma look_rewrite ent' p0 n0 i0 e' root r v :
  rewritten ent tree p0 n0 i0 e' ent' → tree root = Some (mk_node r 4 0) → ¬ below n0 i0 v ∨ n_owner n0 ≠ r ∧ n_owner n0 ≠ KERNEL → look ent' root v = look ent root v.
Proof.
  intros Hrw Hroot Hno. unfold look. rewrite (walk_frame ent' v (λ o, o = r ∨ o = KERNEL) 4 root _ Hroot); [done | done | cbn; symmetry; apply pfx_top | by left | by right |].
  intros q m Hm Ho Hp. apply (rw_same _ _ _ _ _ _ _ Hrw). intros [= -> Ei]. pose proof (rw_node _ _ _ _ _ _ _ Hrw) as Hn. rewrite Hm in Hn. injection Hn as ->.
  destruct Hno as [Hnb|[? ?]]; [| by destruct Ho]. apply Hnb. pose proof (to_level _ _ Htree _ _ Hm) as [? _]. apply below_idx; [lia | rewrite <- Ei; apply idx_range | done].
Qed.

(** A new empty table changes nothing. *)
Lemma look_grow ent' p0 n0 i0 q root r v : grown ent tree p0 n0 i0 q (λ _, 0) ent' → ent p0 i0 = Some 0 → tree root = Some (mk_node r 4 0) → look ent' root v = look ent root v.
Proof.
  intros Hg H0 Hroot. unfold look. destruct (walk_grow ent' p0 n0 i0 q _ v 4 root _ Hg Hroot eq_refl) as [->|(pre & e0 & e1 & l0 & He0 & He1 & _ & Hl & Hi & _ & _ & _ & -> & ->)]; [done |].
  rewrite (walk_absent p0) by (rewrite <- Hl, Hi; done). destruct l0 as [|l0]; [done |]. cbn [walk]. rewrite (gr_table _ _ _ _ _ _ _ _ Hg).
  pose proof (idx_range v (Z.of_nat (S l0))). btrue (0 <=? idx v (Z.of_nat (S l0))). by btrue (idx v (Z.of_nat (S l0)) <? 512).
Qed.

(** The tables of the kernel below the root of another space are seen as the kernel sees them. *)
Lemma look_shared root r kroot e n' v :
  tree root = Some (mk_node r 4 0) → tree kroot = Some (mk_node KERNEL 4 0) → ent root (idx v 4) = Some e → table_entry (mk_node r 4 0) e → tree (addr e) = Some n' → n_owner n' = KERNEL →
  look ent root v = look ent kroot v.
Proof.
  intros Hroot Hk He Ht Hn' Ho. destruct (to_link _ _ Htree _ _ _ _ Hroot He Ht) as (n2 & Hn2 & Hl2 & Hp2 & Hg2 & _). rewrite Hn' in Hn2. injection Hn2 as <-. cbn in Hl2, Hp2.
  assert (Hpl : tree (addr e) = Some (place (mk_node KERNEL 4 0) (idx v 4))) by (rewrite Hn'; f_equal; destruct n'; unfold place; cbn in *; congruence).
  destruct (place_entry (addr e) kroot _ _ Hpl ltac:(cbn; lia) Hk (idx_range _ _)) as (ek & Hek & Htk & Hak). destruct (to_link _ _ Htree _ _ _ _ Hk Hek Htk) as (n3 & Hn3 & _ & _ & Hg3 & _).
  rewrite Hak, Hn' in Hn3. injection Hn3 as <-. unfold look. rewrite (walk_step root _ v 3 e Hroot eq_refl He Ht), (walk_step kroot _ v 3 ek Hk eq_refl Hek Htk), Hak.
  destruct (walk ent 3 (addr e) v) as [es|]; [| done]. cbn [mbind option_bind]. destruct Hg2 as (W & X & U), Hg3 as (W' & X' & U').
  destruct es as [|e3 [|e2 [|e1 [|]]]]; try done; cbn [leaf_of]; unfold effective_leaf_flags, VMM_WRITE, VMM_USER, VMM_NX; by rewrite !has_bit, !Z.lor_spec, W, W', X, X', U, U' by lia.
Qed.

(** The root of a new space shows what the kernel sees. *)
Lemma look_root ent' kroot q v :
  tree kroot = Some (mk_node KERNEL 4 0) → tree q = None → (∀ x j, x ≠ q → ent' x j = ent x j) → (∀ j, ent' q j = ent kroot j) → look ent' q v = look ent kroot v.
Proof.
  intros Hk Hq Hsame Hnew. unfold look. f_equal. cbn [walk]. rewrite Hnew. change (Z.of_nat 4) with 4. destruct (ent_some kroot _ (idx v 4) Hk (idx_range _ _)) as [e He]. rewrite He. cbn [mbind option_bind].
  destruct (present e) eqn:Epr; cbn [negb]; [| done]. pose proof (proj1 (walk_inner kroot _ _ e 4 Hk eq_refl He Epr) eq_refl) as Ht. destruct (to_link _ _ Htree _ _ _ _ Hk He Ht) as (n' & Hn' & Hlk).
  pose proof (link_prefix (mk_node KERNEL 4 0) n' v e ltac:(cbn; lia) ltac:(cbn; symmetry; apply pfx_top) Hlk) as Hp. destruct Hlk as (Hl' & _ & _ & Ho'). cbn in Hl'. change ((es ← walk ent' 3 (addr e) v; Some (e :: es)) = (es ← walk ent 3 (addr e) v; Some (e :: es))).
  rewrite (walk_frame ent' v (λ _, True) 3 (addr e) n' Hn'); try done. intros x m Hm _ _. apply Hsame. congruence.
Qed.

(** Tables of which [r] has none do not matter to it. *)
Lemma look_frame ent' root r v :
  tree root = Some (mk_node r 4 0) → (∀ x n j, tree x = Some n → n_owner n = r ∨ n_owner n = KERNEL → ent' x j = ent x j) → look ent' root v = look ent root v.
Proof.
  intros Hroot Hsame. unfold look. rewrite (walk_frame ent' v (λ o, o = r ∨ o = KERNEL) 4 root _ Hroot); [done | done | cbn; symmetry; apply pfx_top | by left | by right |].
  intros q m Hm Ho _. by apply (Hsame q m).
Qed.

End tree.

(** When only tables of the kernel change, another space sees what it saw, or what the
    kernel sees, as before. *)
Lemma look_kernel_change ent tree ent' tree' root r kroot v :
  tree_ok ent tree → tree_ok ent' tree' → (∀ x n, tree x = Some n → tree' x = Some n) → (∀ x n j, tree x = Some n → n_owner n ≠ KERNEL → ent' x j = ent x j) →
  tree root = Some (mk_node r 4 0) → tree kroot = Some (mk_node KERNEL 4 0) → r ≠ KERNEL →
  look ent' root v = look ent root v ∨ look ent root v = look ent kroot v ∧ look ent' root v = look ent' kroot v.
Proof.
  intros Htree Htree' Hext Hsame Hroot Hk Hr. destruct (ent_some _ _ Htree root _ (idx v 4) Hroot (idx_range _ _)) as [e He]. pose proof (Hsame root _ (idx v 4) Hroot Hr) as He'. rewrite He in He'.
  destruct (to_entry _ _ Htree _ _ _ _ Hroot He) as [[->|(_ & _ & [[? _]|[_ [? _]]])]|[Ht _]]; [| done.. |].
  - left. unfold look. by rewrite !walk_absent.
  - destruct (to_link _ _ Htree _ _ _ _ Hroot He Ht) as (n' & Hn' & Hlk). pose proof (link_prefix (mk_node r 4 0) n' v e ltac:(cbn; lia) ltac:(cbn; symmetry; apply pfx_top) Hlk) as Hp.
    destruct (decide (n_owner n' = KERNEL)) as [Ho|Ho]; [right; split; [by eapply (look_shared ent tree) | by eapply (look_shared ent' tree'); eauto] |].
    left. destruct Hlk as (Hl' & _ & _ & _). cbn in Hl'. unfold look. f_equal. destruct (to_link _ _ Htree' root _ _ e (Hext _ _ Hroot) He' Ht) as (n2 & Hn2 & _).
    rewrite (walk_step _ _ Htree root _ v 3 e Hroot eq_refl He Ht). cbn [walk]. change (Z.of_nat 4) with 4. rewrite He'. cbn [mbind option_bind]. pose proof Ht as (-> & _ & _). cbn [negb].
    change ((es ← walk ent' 3 (addr e) v; Some (e :: es)) = (es ← walk ent 3 (addr e) v; Some (e :: es))).
    rewrite (walk_frame _ _ Htree ent' v (λ o, o ≠ KERNEL) 3 (addr e) n' Hn'); try done; [lia |]. intros x m Hm Hom _. by apply (Hsame x m).
Qed.

(** ** Entries made of an address and flags *)

Lemma entry_addr a fl : addr a = a → addr fl = 0 → addr (Z.lor a fl) = a.
Proof. intros Ha Hf. rewrite <- Ha at 1. by rewrite addr_lor. Qed.

Lemma entry_bit a fl n : addr a = a → 0 ≤ n < 12 ∨ 52 ≤ n → Z.testbit (Z.lor a fl) n = Z.testbit fl n.
Proof. intros Ha [Hn|Hn]; rewrite Z.lor_spec, <- Ha; [by rewrite addr_low | by rewrite addr_high]. Qed.

Lemma entry_reported a fl : addr a = a → Z.land (Z.lor a fl) REPORTED = Z.land fl REPORTED.
Proof. intros Ha. rewrite Z.land_lor_distr_l, <- Ha. unfold addr. by rewrite <- Z.land_assoc, (Z.land_0_r a : Z.land a (Z.land PTE_ADDR_MASK REPORTED) = 0). Qed.

Lemma addr_range e : 0 ≤ e → 0 ≤ addr e < 2 ^ 52.
Proof. intros He. unfold addr. rewrite Z.land_comm. apply land_range; [lia | done | done]. Qed.

Lemma addr_idem e : addr (addr e) = addr e.
Proof. unfold addr. by rewrite <- Z.land_assoc, Z.land_diag. Qed.

(** ** Splitting a large page *)

Definition split_flags (e : Z) : Z := Z.lor (Z.land (Z.land e (lnot_w 64 PTE_ADDR_MASK)) (lnot_w 64 VMM_HUGE)) VMM_PRESENT.
Definition split_leaf (e j : Z) : Z := Z.lor (addr e + j * PAGE_SIZE) (split_flags e).

(** A translation up to the size of the page. *)
Definition plain (t : Z * Z) : Z * Z := (t.1, Z.ldiff t.2 VMM_HUGE).

Lemma split_flags_bit e n : 0 ≤ n < 12 ∨ 52 ≤ n < 64 → Z.testbit (split_flags e) n = (Z.testbit e n && negb (n =? 7)) || (n =? 0).
Proof.
  intros Hn. unfold split_flags. rewrite Z.lor_spec, !Z.land_spec, !lnot_w_testbit, mask_bit by (lia || done). unfold VMM_HUGE, VMM_PRESENT. rewrite !Z.pow2_bits_eqb by lia. btrue (n <? 64). cbn [andb].
  replace ((12 <=? n) && (n <? 52)) with false by (symmetry; apply andb_false_iff; destruct Hn; [left; apply Z.leb_gt | right; apply Z.ltb_ge]; lia). cbn [negb]. rewrite andb_true_r, (Z.eqb_sym 7), (Z.eqb_sym 0). done.
Qed.

Lemma split_flags_addr e : addr (split_flags e) = 0.
Proof.
  apply Z.bits_inj'. intros n Hn. rewrite addr_bit, Z.bits_0 by done. destruct (Z.leb_spec 12 n), (Z.ltb_spec n 52); rewrite ?andb_false_r; [| done..]. unfold split_flags.
  rewrite Z.lor_spec, !Z.land_spec, !lnot_w_testbit, mask_bit by (lia || done). btrue (12 <=? n). btrue (n <? 52). unfold VMM_PRESENT. rewrite Z.pow2_bits_eqb by lia. bfalse (0 =? n). cbn. by rewrite !andb_false_r.
Qed.

Lemma split_flags_reported e : present e = true → Z.land (split_flags e) REPORTED = Z.land e REPORTED.
Proof.
  intros Hpr. apply Z.bits_inj'. intros n Hn. rewrite !Z.land_spec. destruct (Z.testbit REPORTED n) eqn:E; [rewrite !andb_true_r | by rewrite !andb_false_r].
  assert (n = 0 ∨ n = 1 ∨ n = 2 ∨ n = 63 ∨ n = 8 ∨ n = 9 ∨ n = 6 ∨ n = 5) as Hc.
  { unfold REPORTED, VMM_PRESENT, VMM_WRITE, VMM_USER, VMM_NX, VMM_GLOBAL, VMM_COW, VMM_DIRTY, VMM_ACCESSED in E. rewrite !Z.lor_spec, !Z.pow2_bits_eqb in E by lia. rewrite !orb_true_iff, !Z.eqb_eq in E. lia. }
  rewrite split_flags_bit by lia. bfalse (n =? 7). cbn [negb]. rewrite andb_true_r. destruct (Z.eqb_spec n 0) as [->|]; [by rewrite Hpr | by rewrite orb_false_r].
Qed.

Lemma split_addr n e j : 0 ≤ e → large_ok n e → 0 ≤ j < 512 → addr (addr e + j * PAGE_SIZE) = addr e + j * PAGE_SIZE.
Proof.
  intros He (_ & _ & _ & _ & Hal) Hj. pose proof (addr_range e He) as Ha. unfold PAGE_SIZE. pose proof (Z.div_mod (addr e) HUGE_SIZE ltac:(done)) as Hd. rewrite Hal in Hd. unfold HUGE_SIZE in *.
  apply aligned_addr; [lia |]. replace (addr e + j * 4096) with ((512 * (addr e / (2 * 1024 * 1024)) + j) * 4096) by lia. apply Z.mod_mul. lia.
Qed.

Lemma split_leaf_ok n0 i0 e j : n_level n0 = 2 → 0 ≤ e < 2 ^ 64 → present e = true → large_ok n0 e → 0 ≤ j < 512 → leaf_ok (place n0 i0) (split_leaf e j).
Proof.
  intros Hl He Hpr Hlg Hj. pose proof (split_addr n0 e j ltac:(lia) Hlg Hj) as Ha. pose proof (addr_range e ltac:(lia)). right. unfold split_leaf. rewrite !entry_bit, !split_flags_bit by (done || lia). rewrite Hpr. split; [done |]. split.
  - apply lor_range; [lia | unfold PAGE_SIZE; lia |]. unfold split_flags. apply lor_range; [lia | | by vm_compute]. apply land_range; [lia | | by vm_compute]. apply land_range; [lia | done | by vm_compute].
  - left. split; [cbn; lia |]. destruct Hlg as (_ & Hk & Hu & _). cbn [place n_owner]. by rewrite Hu, Hk.
Qed.

Lemma split_leaf_present n e j : 0 ≤ e → large_ok n e → 0 ≤ j < 512 → present (split_leaf e j) = true.
Proof. intros He Hlg Hj. unfold split_leaf. rewrite entry_bit, split_flags_bit by (lia || by eapply split_addr). apply orb_true_r. Qed.

Lemma page_in_window v : 0 ≤ v → Z.land v (HUGE_SIZE - 1) = idx v 1 * PAGE_SIZE + Z.land v (PAGE_SIZE - 1).
Proof.
  intros Hv. change (HUGE_SIZE - 1) with (Z.ones 21). change (PAGE_SIZE - 1) with (Z.ones 12). rewrite !Z.land_ones by lia. unfold idx. rewrite pfx_page. unfold vpn, PAGE_SIZE.
  change (2 ^ 36) with (512 * 2 ^ 27). rewrite Z.rem_mul_r by lia. rewrite (Z.mul_comm 512 (_ mod _)), Z.mod_add, Z.mod_mod by lia. change (2 ^ 21) with (4096 * 512). rewrite Z.rem_mul_r by lia. change (2 ^ 12) with 4096. lia.
Qed.

Lemma look_split ent tree ent' p0 n0 i0 q e0 root r v :
  tree_ok ent tree → grown ent tree p0 n0 i0 q (split_leaf e0) ent' → ent p0 i0 = Some e0 → present e0 = true → large e0 = true → tree root = Some (mk_node r 4 0) → 0 ≤ v →
  plain <$> look ent' root v = plain <$> look ent root v.
Proof.
  intros Ht Hg He0 Hpr Hlg Hroot Hv. pose proof (gr_node _ _ _ _ _ _ _ _ Hg) as Hn0. pose proof (ent_word _ _ Ht _ _ _ He0) as Hw.
  assert (Hleaf : leaf_ok n0 e0) by (destruct (to_entry _ _ Ht _ _ _ _ Hn0 He0) as [|[(_ & _ & ?) _]]; [done | congruence]).
  assert (Hlok : large_ok n0 e0). { destruct Hleaf as [->|(_ & _ & [[Hl1 _]|[_ ?]])]; [done | | done]. pose proof (gr_level _ _ _ _ _ _ _ _ Hg). lia. }
  pose proof Hlok as (Hl2 & Hk & _). unfold look. destruct (walk_grow ent tree Ht ent' p0 n0 i0 q _ v 4 root _ Hg Hroot eq_refl) as [->|(pre & e0' & e1 & l0 & He0' & He1 & Hg1 & Hl & Hi & Hlen & Hpre & _ & -> & ->)]; [done |].
  assert (l0 = 1%nat) as -> by lia. rewrite (walk_leaf _ _ Ht p0 n0 v 1 e0) by (done || by rewrite Hi). pose proof (idx_range v 1) as Hj. cbn [walk]. rewrite (gr_table _ _ _ _ _ _ _ _ Hg). change (Z.of_nat 1) with 1.
  btrue (0 <=? idx v 1). btrue (idx v 1 <? 512). cbn [andb mbind option_bind]. pose proof (split_addr n0 e0 _ ltac:(lia) Hlok Hj) as Ha.
  pose proof (split_leaf_present n0 e0 _ ltac:(lia) Hlok Hj) as Hp1. rewrite Hp1. cbn [negb Nat.eqb orb mbind option_bind].
  destruct pre as [|e4 [|e3 [|]]]; try (cbn in Hlen; lia). rewrite !Forall_cons, Hk in Hpre. destruct Hpre as (H4 & H3 & _). cbn [app leaf_of fmap option_fmap option_map]. rewrite Hk in Hg1. destruct Hlok as (? & ? & Hu & ?).
  rewrite (effective_large n0), (effective_page KERNEL); try done.
  2: { unfold split_leaf. rewrite entry_bit, split_flags_bit by (done || lia). by rewrite Hu. }
  unfold plain. cbn [fst snd]. unfold split_leaf at 1 2. rewrite entry_addr, entry_reported, split_flags_reported by (done || apply split_flags_addr). rewrite page_in_window by done. f_equal. f_equal; [lia |].
  apply Z.bits_inj'. intros k Hk0. rewrite !Z.ldiff_spec, Z.lor_spec. destruct (Z.testbit VMM_HUGE k); [by rewrite !andb_false_r | by rewrite orb_false_r].
Qed.
