(* ===== verification/VmmSpaces.v ===== *)
(** * Address spaces

    The invariant of [Vmm]'s state: its tables form the trees of [VmmTables], each in a
    frame it holds and listed by the space that owns it.  Every operation keeps the
    invariant, and what a space translates changes as the operation says; a mapping
    that fails half-way is undone. *)

From Stdlib Require Import ZArith Lia String.
From stdpp Require Import prelude list_numbers fin_maps zmap.
From S2P Require Import Prelude Update Array Arith CString Printf Log Bootinfo Memory PageMap Vmm VmmTables.

Local Open Scope Z_scope.

Section spaces.
Context {M S : Type} `{FS : FrameSource M} `{CS : Cpus S}.

Implicit Types vm : vmm M S.

(** ** Entries *)

Definition ent vm (p i : Z) : option Z := match tables vm !! p with Some a => if inside a i then Some (aget a i) else None | None => None end.

Lemma pt_rd_ent vm p i e : ent vm p i = Some e → pt_rd vm p i = Ret e.
Proof. unfold ent, pt_rd, ard. destruct (tables vm !! p); [| done]. destruct (inside a i); [| done]. by intros [= ->]. Qed.

Lemma ent_put_space vm r s p i : ent (put_space vm r s) p i = ent vm p i.
Proof. done. Qed.

(** [vm'] is [vm] with other tables. *)
Definition same_but_tables vm vm' : Prop := ∃ ts, vm' = vm <| tables := ts |>.

Lemma pt_wr_ent vm p i e0 e : ent vm p i = Some e0 →
  ∃ vm', pt_wr vm p i e = Ret vm' ∧ same_but_tables vm vm' ∧ ent vm' p i = Some e ∧ (∀ x j, (x, j) ≠ (p, i) → ent vm' x j = ent vm x j).
Proof.
  unfold ent, pt_wr, awr. destruct (tables vm !! p) as [a|] eqn:Ea; [| done]. destruct (inside a i) eqn:Ei; [| done]. intros _. mred. eexists. split; [done |]. split; [by eexists |]. cbn. split.
  - rewrite lookup_insert_eq. unfold inside in *. cbn. rewrite Ei, aget_aset, Z.eqb_refl. done.
  - intros x j Hne. destruct (decide (x = p)) as [->|]; [| by rewrite lookup_insert_ne]. rewrite lookup_insert_eq, Ea, aget_aset. unfold inside. cbn. destruct (Z.eqb_spec j i) as [->|]; [congruence | done].
Qed.

Lemma ent_new vm vm' p x j : tables vm' = <[p := anew PT_ENTRIES]> (tables vm) → ent vm' x j = if x =? p then (if (0 <=? j) && (j <? 512) then Some 0 else None) else ent vm x j.
Proof.
  intros E. unfold ent. rewrite E. destruct (Z.eqb_spec x p) as [->|]; [| by rewrite lookup_insert_ne]. rewrite lookup_insert_eq. unfold inside. by rewrite aget_anew.
Qed.

Lemma ent_delete vm vm' p x j : tables vm' = delete p (tables vm) → ent vm' x j = if x =? p then None else ent vm x j.
Proof. intros E. unfold ent. rewrite E. destruct (Z.eqb_spec x p) as [->|]; [by rewrite lookup_delete_eq | by rewrite lookup_delete_ne]. Qed.

(** ** The invariant *)

(** The list of tables: [l], then zeros. *)
Definition padded (l : list Z) : list Z := l ++ replicate (128 - length l) 0.

Record space_ok (tree : Z → option node) (r : Z) (s : vmm_space_t) : Prop := {
  so_owned : ∃ l, owned_tables s = padded l ∧ owned_count s = zlen l ∧ (length l ≤ 128)%nat ∧ NoDup l ∧ (∀ p, p ∈ l ↔ ∃ n, tree p = Some n ∧ n_owner n = r);
  so_seen : zlen (tlb_seen_generation s) = SMP_MAX_CPUS;
  so_root : pml4_physical s ≠ 0 → tree (pml4_physical s) = Some (mk_node r 4 0) ∧ user_space s = negb (r =? KERNEL);
  so_dead : pml4_physical s = 0 → owned_count s = 0;
}.

Record vmm_inv vm (tree : Z → option node) : Prop := {
  vi_tree : tree_ok (ent vm) tree;
  vi_frames : frames_ok (source vm);
  vi_held : ∀ p n, tree p = Some n → held (source vm) p;
  vi_spaces : ∀ r s, spaces vm !! r = Some s → space_ok tree r s;
  vi_owners : ∀ p n, tree p = Some n → is_Some (spaces vm !! n_owner n);
  vi_kernel : ∃ k, spaces vm !! KERNEL = Some k ∧ pml4_physical k ≠ 0;
  vi_current : is_Some (spaces vm !! vmm_current_space_local vm);
}.

Definition root vm (r : Z) : option Z := match spaces vm !! r with Some s => if pml4_physical s =? 0 then None else Some (pml4_physical s) | None => None end.

(** What the space [r] makes of an address. *)
Definition view vm (r v : Z) : option (Z * Z) := if vmm_is_canonical v then root vm r ≫= λ p, look (ent vm) p v else None.

Lemma root_node vm tree r p : vmm_inv vm tree → root vm r = Some p → tree p = Some (mk_node r 4 0).
Proof.
  intros Hi. unfold root. destruct (spaces vm !! r) as [s|] eqn:Es; [| done]. destruct (Z.eqb_spec (pml4_physical s) 0); [done |]. intros [= <-]. by apply (so_root _ _ _ (vi_spaces _ _ Hi r s Es)).
Qed.

Lemma translate_spec vm tree r s v : vmm_inv vm tree → spaces vm !! r = Some s → 0 ≤ v → vmm_space_translate vm (Some r) v = Ret (view vm r v).
Proof.
  intros Hi Hs Hv. unfold vmm_space_translate, deref, get_space, view, root. rewrite Hs. mred. destruct (vmm_is_canonical v); cbn [negb]; [| done]. destruct (Z.eqb_spec (pml4_physical s) 0) as [|Hp]; [done |]. cbn [mbind option_bind].
  destruct (so_root _ _ _ (vi_spaces _ _ Hi r s Hs) Hp) as [Hroot _]. rewrite split_indices_spec by done. pose proof (vi_tree _ _ Hi) as Ht. unfold VMM_PRESENT, VMM_HUGE. unfold look.
  destruct (ent_some _ _ Ht _ _ (idx v 4) Hroot (idx_range _ _)) as [e4 E4]. rewrite (pt_rd_ent _ _ _ _ E4). mred. rewrite has_bit by lia. fold (addr e4).
  destruct (to_entry _ _ Ht _ _ _ _ Hroot E4) as [[->|(_ & _ & [[? _]|[_ [? _]]])]|[T4 _]]; [by rewrite walk_absent | done.. |]. rewrite (walk_step _ _ Ht _ _ v 3 e4 Hroot eq_refl E4 T4). rewrite (proj1 T4). cbn [negb].
  destruct (to_link _ _ Ht _ _ _ _ Hroot E4 T4) as (n3 & H3 & L3 & _). cbn in L3. destruct (ent_some _ _ Ht _ _ (idx v 3) H3 (idx_range _ _)) as [e3 E3]. rewrite (pt_rd_ent _ _ _ _ E3). mred. rewrite has_bit by lia. fold (addr e3).
  destruct (to_entry _ _ Ht _ _ _ _ H3 E3) as [[->|(_ & _ & [[? _]|[_ [? _]]])]|[T3 _]]; [by rewrite (walk_absent _ (addr e4)) | lia.. |]. rewrite (walk_step _ _ Ht _ _ v 2 e3 H3 L3) by (done || by rewrite L3). rewrite (proj1 T3). cbn [negb].
  destruct (to_link _ _ Ht _ _ _ _ H3 E3 T3) as (n2 & H2 & L2 & _). rewrite L3 in L2. cbn in L2. destruct (ent_some _ _ Ht _ _ (idx v 2) H2 (idx_range _ _)) as [e2 E2]. rewrite (pt_rd_ent _ _ _ _ E2). mred. rewrite !has_bit by lia. fold (addr e2).
  destruct (present e2) eqn:P2; cbn [negb].
  2: { cbn [walk]. change (Z.of_nat 2) with 2. rewrite E2. cbn [mbind option_bind]. by rewrite P2. }
  destruct (large e2) eqn:L.
  { cbn [walk]. change (Z.of_nat 2) with 2. rewrite E2. cbn [mbind option_bind]. rewrite P2, L. done. }
  assert (T2 : table_entry n2 e2) by (split_and!; [done | lia | done]). rewrite (walk_step _ _ Ht _ _ v 1 e2 H2 L2) by (done || by rewrite L2).
  destruct (to_link _ _ Ht _ _ _ _ H2 E2 T2) as (n1 & H1 & L1 & _). rewrite L2 in L1. cbn in L1. destruct (ent_some _ _ Ht _ _ (idx v 1) H1 (idx_range _ _)) as [e1 E1]. rewrite (pt_rd_ent _ _ _ _ E1). mred. rewrite has_bit by lia. fold (addr e1).
  cbn [walk]. change (Z.of_nat 1) with 1. rewrite E1. cbn [mbind option_bind]. by destruct (present e1).
Qed.

(** ** States that differ in counters *)

Record same vm vm' : Prop := {
  sm_ent : ∀ p i, ent vm' p i = ent vm p i;
  sm_spaces : spaces vm' = spaces vm;
  sm_frames : frames_ok (source vm) → frames_ok (source vm');
  sm_held : ∀ p, held (source vm') p ↔ held (source vm) p;
  sm_current : current_space_obj vm' = current_space_obj vm;
  sm_cpus : cpus vm' = cpus vm;
}.

Lemma same_refl vm : same vm vm.
Proof. done. Qed.

Lemma same_trans vm1 vm2 vm3 : same vm1 vm2 → same vm2 vm3 → same vm1 vm3.
Proof. intros [A1 A2 A3 A4 A5 A6] [B1 B2 B3 B4 B5 B6]. split; [intros p i; by rewrite B1, A1 | congruence | auto | intros p; by rewrite B4, A4 | congruence | congruence]. Qed.

Lemma same_stats vm st : same vm (vm <| stats := st |>).
Proof. done. Qed.

Lemma tree_ok_ext en en' tree : (∀ p i, en' p i = en p i) → tree_ok en tree → tree_ok en' tree.
Proof. intros E [T1 T2 T3 T4 T5 T6 T7]. split; try done; intros *; rewrite ?E; eauto. intros H1 H2. destruct (T7 q n' H1 H2) as (p & n & i & e & ?). exists p, n, i, e. by rewrite E. Qed.

Lemma walk_ext en en' l v : (∀ p i, en' p i = en p i) → ∀ p, walk en' l p v = walk en l p v.
Proof. intros E. induction l as [|l IH]; intros p; [done |]. cbn [walk]. rewrite E. destruct (en p _) as [e|]; [| done]. cbn [mbind option_bind]. by rewrite IH. Qed.

Lemma same_inv vm vm' tree : same vm vm' → vmm_inv vm tree → vmm_inv vm' tree.
Proof.
  intros [A1 A2 A3 A4 A5 A6] [I1 I2 I3 I4 I5 I6 I7]. split; rewrite ?A2; auto; [by eapply tree_ok_ext | intros p n Hn; apply A4; eauto |].
  unfold vmm_current_space_local in *. by rewrite A5, A6.
Qed.

Lemma view_ext vm vm' r v : (∀ p i, ent vm' p i = ent vm p i) → root vm' r = root vm r → view vm' r v = view vm r v.
Proof. intros E1 E2. unfold view, look. rewrite E2. destruct (vmm_is_canonical v), (root vm r); [| done..]. cbn [mbind option_bind]. by rewrite (walk_ext (ent vm)). Qed.

Lemma same_view vm vm' r v : same vm vm' → view vm' r v = view vm r v.
Proof. intros [A1 A2 _ _ _ _]. apply view_ext; [done |]. unfold root. by rewrite A2. Qed.

(** ** Making a table *)

Definition tracked (s : vmm_space_t) (l : list Z) : vmm_space_t := s <| owned_tables := padded l |> <| owned_count := zlen l |>.

(** The space [r] lists [q] besides its tables [l]. *)
Definition tracks vm (r q : Z) vm' : Prop :=
  ∃ s l, spaces vm !! r = Some s ∧ owned_tables s = padded l ∧ owned_count s = zlen l ∧ (length l < 128)%nat ∧ spaces vm' = <[r := tracked s (l ++ [q])]> (spaces vm).

(** [q] is a frame that was not held before. *)
Definition takes vm (q : Z) vm' : Prop :=
  0 < q ∧ addr q = q ∧ ¬ held (source vm) q ∧ frames_ok (source vm') ∧ (∀ x, held (source vm') x ↔ held (source vm) x ∨ x = q).

Definition same_cpus vm vm' : Prop := current_space_obj vm' = current_space_obj vm ∧ cpus vm' = cpus vm.

(** [k] frames can be had. *)
Fixpoint enough (k : nat) (m : M) : Prop :=
  match k with O => True | Datatypes.S k => ∃ m' p, alloc_page_below m VMM_KERNEL_DIRECT_LIMIT = Ret (m', p) ∧ p ≠ 0 ∧ enough k m' end.

(** [k] tables can be had for [r]. *)
Definition room (k : nat) vm (r : Z) : Prop := enough k (source vm) ∧ ∃ s, spaces vm !! r = Some s ∧ owned_count s + Z.of_nat k ≤ VMM_SPACE_MAX_TABLES.

Lemma padded_wr l q : (length l < 128)%nat → wr (padded l) (zlen l) q = Ret (padded (l ++ [q])).
Proof.
  intros Hl. unfold padded. rewrite wr_middle.
  - rewrite length_app. cbn [length]. f_equal. rewrite <- app_assoc. cbn. replace (128 - length l)%nat with (Datatypes.S (128 - (length l + 1))) by lia. cbn. by rewrite drop_0.
  - replace (128 - length l)%nat with (Datatypes.S (128 - (length l + 1))) by lia. done.
Qed.

Lemma table_addr p : 0 < p → p mod PAGE_SIZE = 0 → p + PAGE_SIZE ≤ VMM_KERNEL_DIRECT_LIMIT → addr p = p.
Proof. intros Hp Hm Hl. apply aligned_addr; [| done]. unfold VMM_KERNEL_DIRECT_LIMIT, MEMORY_KERNEL_DIRECT_LIMIT, PAGE_SIZE in *. lia. Qed.

Lemma alloc_table_spec vm tree r s : vmm_inv vm tree → spaces vm !! r = Some s →
  ∃ vm' q, alloc_table_for vm r = Ret (vm', q) ∧
    (q = 0 ∧ same vm vm' ∧ ¬ room 1 vm r ∨
     takes vm q vm' ∧ tracks vm r q vm' ∧ same_cpus vm vm' ∧ (∀ k, room (Datatypes.S k) vm r → room k vm' r) ∧
     ∀ x j, ent vm' x j = if x =? q then (if (0 <=? j) && (j <? 512) then Some 0 else None) else ent vm x j).
Proof.
  intros Hi Hs. unfold alloc_table_for. destruct (alloc_page_law (source vm) VMM_KERNEL_DIRECT_LIMIT (vi_frames _ _ Hi) ltac:(done)) as (m & q & Ea & Hf & Hq). rewrite Ea. mred. destruct Hq as [[-> Hh]|(Hq0 & Hqm & Hql & Hnh & Hh)].
  { eexists _, 0. split; [done |]. left. split_and!; [done | by split | ]. intros [(m' & p & Ea' & Hp & _) _]. rewrite Ea in Ea'. by injection Ea' as _ <-. }
  bfalse (q =? 0). unfold track_table. bfalse (q =? 0). unfold get_space. cbn [spaces set_field]. rewrite Hs. mred.
  destruct (so_owned _ _ _ (vi_spaces _ _ Hi r s Hs)) as (l & El & Ec & Hl & _). unfold zlen in Ec. rewrite Ec. destruct (Z.leb_spec VMM_SPACE_MAX_TABLES (Z.of_nat (length l))) as [Hfull|Hfull]; mred; cbn [negb].
  - cbn [source set_field]. destruct (free_page_law m q Hf) as (m2 & E2 & Hf2 & Hh2); [apply Hh; by right |]. rewrite E2. mred. eexists _, 0. split; [done |]. left. split; [done |]. split.
    + split; try done. 2: { intros p. cbn [source set_field]. rewrite Hh2, Hh. split; [intros [[?|?] ?]; done | intros Hp; split; [by left | intros ->; done]]. }
      intros p i. unfold ent. cbn [tables set_field]. rewrite delete_insert_eq. destruct (decide (p = q)) as [->|]; [| by rewrite lookup_delete_ne]. rewrite lookup_delete_eq. destruct (tables vm !! q) as [a|] eqn:Eq; [| done].
      destruct (inside a i) eqn:Ei; [| done]. exfalso. apply Hnh. destruct (ent_node _ _ (vi_tree _ _ Hi) q i (aget a i)) as [n Hn]; [unfold ent; by rewrite Eq, Ei |]. by eapply vi_held.
    + intros [_ (s' & Hs' & Hroom)]. assert (s' = s) as -> by congruence. rewrite Ec in Hroom. change VMM_SPACE_MAX_TABLES with 128 in *. lia.
  - change VMM_SPACE_MAX_TABLES with 128 in Hfull. rewrite El. change (Z.of_nat (length l)) with (zlen l). rewrite padded_wr by lia. mred. cbn [negb]. eexists _, q. split; [done |]. right. split; [| split; [| split; [done | split]]].
    + split_and!; [done | by apply table_addr | done | exact Hf | exact Hh].
    + exists s, l. split_and!; try done; [lia |]. cbn [spaces set_field put_space]. do 2 f_equal. unfold tracked. by rewrite zlen_app.
    + intros k [(m' & p & Ea' & _ & He) (s' & Hs' & Hroom)]. rewrite Ea in Ea'. injection Ea' as <- <-. split; [done |]. eexists. cbn [spaces set_field put_space]. rewrite lookup_insert_eq. split; [done |]. cbn [owned_count set_field].
      assert (s' = s) as -> by congruence. rewrite Ec in Hroom. change VMM_SPACE_MAX_TABLES with 128 in *. unfold zlen. lia.
    + intros x j. by apply ent_new.
Qed.

Lemma padded_inj l l' : padded l = padded l' → zlen l = zlen l' → l = l'.
Proof. intros E Hl. apply app_inj_1 in E as [? _]; [done |]. unfold zlen in Hl. lia. Qed.

Lemma padded_last l q : (length l < 128)%nat → rd (padded (l ++ [q])) (zlen l) = Ret q.
Proof. intros Hl. apply rd_Ret. split; [apply zlen_nonneg |]. unfold padded, zlen. rewrite Nat2Z.id, <- app_assoc, lookup_app_r, Nat.sub_diag by lia. done. Qed.

Lemma padded_rd l q j : 0 ≤ j < zlen l → rd (padded (l ++ [q])) j = rd l j.
Proof. intros Hj. unfold padded. by rewrite <- app_assoc, rd_app_l. Qed.

Lemma padded_drop l q : (length l < 128)%nat → wr (padded (l ++ [q])) (zlen l) 0 = Ret (padded l).
Proof.
  intros Hl. unfold padded at 1. rewrite <- app_assoc. rewrite wr_middle by done. f_equal. unfold padded. f_equal. rewrite length_app. cbn. rewrite drop_0. replace (128 - length l)%nat with (Datatypes.S (128 - (length l + 1))) by lia. done.
Qed.

Lemma padded_zlen l : (length l ≤ 128)%nat → zlen (padded l) = 128.
Proof. intros Hl. unfold padded. rewrite zlen_app, zlen_replicate. unfold zlen. lia. Qed.

Lemma tracked_id s l : owned_tables s = padded l → owned_count s = zlen l → tracked s l = s.
Proof. intros E1 E2. destruct s. cbn in *. unfold tracked. cbn. by rewrite E1, E2. Qed.

Lemma tracks_root vm r q vm' r' : tracks vm r q vm' → root vm' r' = root vm r'.
Proof. intros (s & l & Hs & _ & _ & _ & E). unfold root. rewrite E. destruct (decide (r' = r)) as [->|]; [by rewrite lookup_insert_eq, Hs | by rewrite lookup_insert_ne]. Qed.

(** ** A table below an entry *)

Record extended vm (tree : Z → option node) (p0 : Z) (n0 : node) (i0 q : Z) (f : Z → Z) vm' : Prop := {
  ex_grown : grown (ent vm) tree p0 n0 i0 q f (ent vm');
  ex_takes : takes vm q vm';
  ex_tracks : tracks vm (n_owner n0) q vm';
  ex_cpus : same_cpus vm vm';
}.

Lemma insert_is_Some {A} (m : Zmap A) i j x : is_Some (m !! j) → is_Some (<[i := x]> m !! j).
Proof. intros Hj. destruct (decide (i = j)) as [->|]; [rewrite lookup_insert_eq; by eexists | by rewrite lookup_insert_ne]. Qed.

Lemma live_owner vm tree p n s : vmm_inv vm tree → tree p = Some n → spaces vm !! n_owner n = Some s → pml4_physical s ≠ 0.
Proof.
  intros Hi Hp Hs E. pose proof (vi_spaces _ _ Hi _ s Hs) as Hso. destruct (so_owned _ _ _ Hso) as (l & _ & Ec & _ & _ & Hel). pose proof (so_dead _ _ _ Hso E) as Ez.
  assert (p ∈ l) as Hin by (apply Hel; eauto). destruct l; [by apply not_elem_of_nil in Hin |]. rewrite zlen_cons in Ec. pose proof (zlen_nonneg l). lia.
Qed.

Lemma extended_spaces vm tree p0 n0 i0 q f vm' : vmm_inv vm tree → extended vm tree p0 n0 i0 q f vm' → ∀ r s, spaces vm' !! r = Some s → space_ok (tins q (place n0 i0) tree) r s.
Proof.
  intros Hi [Hg _ (s0 & l & Hs0 & El & Ec & Hl & E) _] r s Hs. rewrite E in Hs. pose proof (gr_fresh _ _ _ _ _ _ _ _ Hg) as Hq. pose proof (gr_node _ _ _ _ _ _ _ _ Hg) as Hn0.
  assert (Htree : ∀ x n, tree x = Some n → tins q (place n0 i0) tree x = Some n) by (intros x n Hx; rewrite tins_ne; congruence). destruct (decide (r = n_owner n0)) as [->|Hr].
  - rewrite lookup_insert_eq in Hs. injection Hs as <-. pose proof (vi_spaces _ _ Hi _ s0 Hs0) as Hso. pose proof (live_owner _ _ _ _ _ Hi Hn0 Hs0) as Hlive. split; [| apply Hso | | done].
    + destruct (so_owned _ _ _ Hso) as (l' & El' & Ec' & _ & Hnd & Hel). assert (l' = l) as -> by (apply padded_inj; congruence). exists (l ++ [q]). split_and!; [done.. | rewrite length_app; cbn; lia | |].
      * apply NoDup_app. split_and!; [done | | apply NoDup_singleton]. intros x Hx ->%list_elem_of_singleton. apply Hel in Hx as (n & Hx & _). congruence.
      * intros x. rewrite elem_of_app, list_elem_of_singleton, Hel. split.
        { intros [(n & Hx & Ho)| ->]; [exists n; split; [by apply Htree | done] | rewrite tins_eq; by eexists]. }
        { intros (n & [[-> _]|[_ Hx]]%tins_inv & Ho); [by right | left; eauto]. }
    + intros _. split; [by apply Htree, (so_root _ _ _ Hso) | by apply (so_root _ _ _ Hso)].
  - rewrite lookup_insert_ne in Hs by done. destruct (vi_spaces _ _ Hi r s Hs) as [(l' & El' & Ec' & Hl' & Hnd & Hel) Hse Hro Hde]. split; [| done | intros Hp; split; [apply Htree |]; by apply Hro | done].
    exists l'. split_and!; try done. intros x. rewrite Hel. split; intros (n & Hx & Ho); exists n; [by split; [apply Htree |] |]. apply tins_inv in Hx as [[-> ->]|[_ Hx]]; [cbn in Ho; congruence | done].
Qed.

Lemma extended_inv vm tree p0 n0 i0 q f vm' : vmm_inv vm tree → extended vm tree p0 n0 i0 q f vm' → vmm_inv vm' (tins q (place n0 i0) tree).
Proof.
  intros Hi Hx. pose proof Hx as [Hg (Hq0 & Haq & Hnh & Hf & Hh) (s0 & l & Hs0 & _ & _ & _ & E) [Hc1 Hc2]]. split.
  - eapply tree_grow; [apply Hi | done].
  - done.
  - intros p n [[-> _]|[_ Hn]]%tins_inv; apply Hh; [by right | left; by eapply vi_held].
  - by eapply extended_spaces.
  - intros p n Hn. rewrite E. apply insert_is_Some. apply tins_inv in Hn as [[_ ->]|[_ Hn]]; [cbn [place n_owner]; rewrite Hs0; by eexists | by apply (vi_owners _ _ Hi p n)].
  - destruct (vi_kernel _ _ Hi) as (k & Hk & Hp). rewrite E. destruct (decide (n_owner n0 = KERNEL)) as [Ho|]; [rewrite Ho, lookup_insert_eq; eexists; split; [done |]; rewrite Ho in Hs0; cbn; congruence | rewrite lookup_insert_ne by done; eauto].
  - unfold vmm_current_space_local. rewrite Hc1, Hc2, E. apply insert_is_Some, Hi.
Qed.

Lemma extended_view vm tree p0 n0 i0 q vm' r v : vmm_inv vm tree → extended vm tree p0 n0 i0 q (λ _, 0) vm' → ent vm p0 i0 = Some 0 → view vm' r v = view vm r v.
Proof.
  intros Hi [Hg _ Htr _] H0. unfold view. rewrite (tracks_root _ _ _ _ r Htr). destruct (vmm_is_canonical v); [| done]. destruct (root vm r) as [p|] eqn:Ep; [| done]. cbn [mbind option_bind].
  eapply look_grow; [apply Hi | done | done | by eapply root_node].
Qed.

(** ** Undoing *)

(** The last table listed is taken off the list. *)
Lemma untrack_spec vm r s l q :
  spaces vm !! r = Some (tracked s (l ++ [q])) → (length l < 128)%nat → NoDup (l ++ [q]) → q ≠ 0 →
  ∃ vm' st, untrack_table vm r q = Ret (vm', true) ∧ vm' = (put_space vm r (tracked s l)) <| stats := st |>.
Proof.
  intros Hs Hl Hnd Hq. unfold untrack_table. bfalse (q =? 0). unfold get_space. rewrite Hs. mred. set (s' := tracked s (l ++ [q])) in *.
  assert (Ec : owned_count s' = zlen l + 1) by (cbn; by rewrite zlen_app). assert (Eo : owned_tables s' = padded (l ++ [q])) by done. rewrite Ec, Eo. pose proof (zlen_nonneg l) as Hz.
  match goal with |- context [loop_n ?n ?i ?f ?t] =>
    destruct (loop_n_inv (λ j (_ : unit), j ≤ zlen l) (λ vm', ∃ st, vm' = (put_space vm r (tracked s l)) <| stats := st |>) f n i t) as [(u & E & Hc)|(vm' & E & st & Hvm)] end.
  - done.
  - intros j [] Hj Hle. destruct (decide (j = zlen l)) as [->|Hne].
    + right. rewrite padded_last by done. mred. rewrite Z.eqb_refl, Z.add_simpl_r, padded_last by done. mred. rewrite wr_inbounds by (rewrite padded_zlen by (rewrite length_app; cbn; lia); unfold zlen; lia). mred.
      rewrite list_insert_id by (apply (proj1 (rd_Ret _ _ _) (padded_last l q Hl))). rewrite padded_drop by done. mred. eexists. split; [done |].
      assert (Et : s' <| owned_tables := padded l |> <| owned_count := zlen l |> = tracked s l) by done. rewrite Et.
      destruct (negb _); [by eexists | exists (stats vm); by destruct vm].
    + left. exists tt. split; [| lia]. assert (Hjl : 0 ≤ j < zlen l) by lia. rewrite (padded_rd l q j) by done. destruct (rd_inbounds l j Hjl) as [x Ex]. rewrite Ex. mred.
      destruct (Z.eqb_spec x q) as [->|]; [| done]. exfalso. apply rd_Ret in Ex as [_ Ex]. apply NoDup_app in Hnd as (_ & Hd & _). apply (Hd q); [by eapply list_elem_of_lookup_2 | by apply list_elem_of_singleton].
  - lia.
  - rewrite E. mred. eauto.
Qed.

Definition zeros : Z → Z := λ _, 0.

Lemma undo_spec vm tree c n0 vm1 vm2 :
  vmm_inv vm tree → extended vm tree (parent c) n0 (index c) (table c) zeros vm1 → ent vm (parent c) (index c) = Some 0 → same vm1 vm2 →
  ∃ vm3, rollback_created_tables vm2 (n_owner n0) [c] = Ret vm3 ∧ same vm vm3.
Proof.
  intros Hi Hx H0 [S1 S2 S3 S4 S5 S6]. pose proof (extended_inv _ _ _ _ _ _ _ _ Hi Hx) as Hi1. pose proof Hx as [Hg (Hq0 & Haq & Hnh & Hf & Hh) (s & l & Hs & El & Ec & Hl & E) [Hc1 Hc2]]. destruct c as [p0 i0 q]. cbn [parent index table] in *.
  pose proof Hg as [Hn0 Hl0 _ Hfresh _ Hsame (e1 & He1 & Ht1 & Ha1 & _) Htab _]. destruct (to_addr _ _ (vi_tree _ _ Hi) _ _ Hn0) as [Hp0 _]. unfold rollback_created_tables. cbn [rev app fold_res parent index table].
  bfalse (p0 =? 0). bfalse (q =? 0). cbn [negb andb]. rewrite (pt_rd_ent vm2 p0 i0 e1) by (by rewrite S1). mred. change (Z.land e1 PTE_ADDR_MASK) with (addr e1). rewrite Ha1, Z.eqb_refl.
  destruct (pt_wr_ent vm2 p0 i0 e1 0 ltac:(by rewrite S1)) as (vm3 & E3 & [ts ->] & H3 & H3'). rewrite E3. mred. unfold free_tracked_table. bfalse (q =? 0).
  destruct (untrack_spec (vm2 <| tables := ts |>) (n_owner n0) s l q) as (vm4 & st & E4 & E4'); [cbn; by rewrite S2, E, lookup_insert_eq | done | | lia |].
  { destruct (so_owned _ _ _ (vi_spaces _ _ Hi1 (n_owner n0) (tracked s (l ++ [q])) ltac:(by rewrite E, lookup_insert_eq))) as (l' & El' & Ec' & _ & Hnd & _). assert (l ++ [q] = l') as -> by by apply padded_inj. done. }
  rewrite E4. subst vm4. mred. cbn [source set_field put_space]. destruct (free_page_law (source vm2) q (S3 Hf)) as (m & Em & Hfm & Hhm); [apply S4, Hh; by right |]. rewrite Em. mred. eexists. split; [done |].
  rewrite (tracked_id s l El Ec). split.
  - intros x j. erewrite (ent_delete (vm2 <| tables := ts |>)) by done. destruct (Z.eqb_spec x q) as [->|Hxq].
    + destruct (ent vm q j) eqn:Eq; [| done]. exfalso. destruct (ent_node _ _ (vi_tree _ _ Hi) _ _ _ Eq) as [n Hn]. congruence.
    + destruct (decide ((x, j) = (p0, i0))) as [[= -> ->]|Hne]; [by rewrite H3, H0 |]. rewrite H3', S1 by done. by apply Hsame.
  - cbn. rewrite S2, E, insert_insert_eq, insert_id; done.
  - intros _. exact Hfm.
  - intros x. cbn [source set_field]. rewrite Hhm, S4, Hh. split; [intros [[?|?] ?]; done | intros Hp; split; [by left | intros ->; done]].
  - cbn. congruence.
  - cbn. congruence.
Qed.

(** The states on the way of a mapping, with the tables made so far. *)
Inductive trail (r : Z) vm0 : list vmm_created_table_t → vmm M S → Prop :=
  | trail_start vm : same vm0 vm → trail r vm0 [] vm
  | trail_made cs c vm tree n0 vm1 vm2 :
      trail r vm0 cs vm → vmm_inv vm tree → extended vm tree (parent c) n0 (index c) (table c) zeros vm1 → ent vm (parent c) (index c) = Some 0 → n_owner n0 = r → same vm1 vm2 →
      trail r vm0 (cs ++ [c]) vm2.

Lemma trail_same r vm0 cs vm vm' : trail r vm0 cs vm → same vm vm' → trail r vm0 cs vm'.
Proof. intros Ht Hs. destruct Ht; [constructor | econstructor]; eauto using same_trans. Qed.

Lemma trail_view r vm0 cs vm r' v : trail r vm0 cs vm → view vm r' v = view vm0 r' v.
Proof. induction 1 as [vm Hs|cs c vm tree n0 vm1 vm2 Ht IH Hi Hx H0 Ho Hs]; [by apply same_view |]. by rewrite (same_view _ _ r' v Hs), (extended_view _ _ _ _ _ _ _ r' v Hi Hx H0). Qed.

Lemma same_root vm vm' r : same vm vm' → root vm' r = root vm r.
Proof. intros [_ A2 _ _ _ _]. unfold root. by rewrite A2. Qed.

Lemma trail_root r vm0 cs vm r' : trail r vm0 cs vm → root vm r' = root vm0 r'.
Proof. induction 1 as [vm Hs|cs c vm tree n0 vm1 vm2 Ht IH Hi Hx H0 Ho Hs]; [by apply same_root |]. by rewrite (same_root _ _ r' Hs), (tracks_root _ _ _ _ r' (ex_tracks _ _ _ _ _ _ _ _ Hx)). Qed.

Lemma same_cpus_trans vm1 vm2 vm3 : same_cpus vm1 vm2 → same_cpus vm2 vm3 → same_cpus vm1 vm3.
Proof. intros [A1 A2] [B1 B2]. split; congruence. Qed.

Lemma same_same_cpus vm vm' : same vm vm' → same_cpus vm vm'.
Proof. intros [_ _ _ _ A5 A6]. done. Qed.

Lemma trail_cpus r vm0 cs vm : trail r vm0 cs vm → same_cpus vm0 vm.
Proof. induction 1 as [vm Hs|cs c vm tree n0 vm1 vm2 Ht IH Hi Hx H0 Ho Hs]; [by apply same_same_cpus |]. eapply same_cpus_trans; [exact IH |]. eapply same_cpus_trans; [apply (ex_cpus _ _ _ _ _ _ _ _ Hx) | by apply same_same_cpus]. Qed.

(** Rolling back leads to where the trail began. *)
Lemma rollback_spec r vm0 cs vm : trail r vm0 cs vm → ∃ vm', rollback_created_tables vm r cs = Ret vm' ∧ same vm0 vm'.
Proof.
  intros Ht. assert (G : ∀ vm1, same vm vm1 → ∃ vm', rollback_created_tables vm1 r cs = Ret vm' ∧ same vm0 vm'); [| by apply G, same_refl].
  induction Ht as [vm Hs|cs c vm tree n0 vm1 vm2 Ht IH Hi Hx H0 Ho Hs]; intros vm3 Hs3; [by exists vm3; split; [| eapply same_trans] |].
  destruct (undo_spec _ _ _ _ _ vm3 Hi Hx H0 (same_trans _ _ _ Hs Hs3)) as (vm4 & E4 & Hs4). destruct (IH vm4 Hs4) as (vm5 & E5 & Hs5). exists vm5. split; [| done].
  unfold rollback_created_tables in *. rewrite rev_app_distr. rewrite fold_res_app. rewrite Ho in E4. change (rev [c]) with [c] in E4 |- *. by rewrite E4.
Qed.

(** ** The next table *)

(** Flags for a table of [r]. *)
Definition table_flags_ok (r tf : Z) : Prop := 0 ≤ tf ∧ has tf (lnot_w 64 VMM_ALLOWED_TABLE_FLAGS) = false ∧ Z.testbit tf 2 = negb (r =? KERNEL).

Definition table_word (q tf : Z) : Z := Z.lor (Z.lor (Z.lor (Z.land q PTE_ADDR_MASK) VMM_PRESENT) VMM_WRITE) (Z.land tf (Z.lor VMM_USER (Z.lor VMM_WRITETHR VMM_NOCACHE))).

Lemma table_word_spec r q tf n : 0 < q → addr q = q → 0 ≤ tf → Z.testbit tf 2 = negb (r =? KERNEL) → 2 ≤ n_level n →
  table_entry n (table_word q tf) ∧ addr (table_word q tf) = q ∧ 0 ≤ table_word q tf < 2 ^ 64 ∧ good r (table_word q tf).
Proof.
  intros Hq Ha Htf Hu Hl. unfold table_word. rewrite <- !Z.lor_assoc. change (Z.land q PTE_ADDR_MASK) with (addr q). rewrite Ha.
  assert (Hb : ∀ k, 0 ≤ k < 12 ∨ 52 ≤ k → Z.testbit (Z.lor q (Z.lor VMM_PRESENT (Z.lor VMM_WRITE (Z.land tf (Z.lor VMM_USER (Z.lor VMM_WRITETHR VMM_NOCACHE)))))) k = (k =? 0) || (k =? 1) || (Z.testbit tf k && ((k =? 2) || (k =? 3) || (k =? 4)))).
  { intros k Hk. rewrite entry_bit by done. unfold VMM_PRESENT, VMM_WRITE, VMM_USER, VMM_WRITETHR, VMM_NOCACHE. rewrite !Z.lor_spec, Z.land_spec, !Z.lor_spec, !Z.pow2_bits_eqb by lia. rewrite !(Z.eqb_sym _ k). by rewrite <- !orb_assoc. }
  split; [| split; [| split]].
  - split_and!; [by rewrite Hb by lia | done | rewrite Hb by lia; by rewrite andb_false_r].
  - apply entry_addr; [done |]. unfold addr. rewrite !Z.land_lor_distr_l, <- Z.land_assoc. change (Z.land (Z.lor VMM_USER _) PTE_ADDR_MASK) with 0. by rewrite Z.land_0_r.
  - apply lor_range; [lia | rewrite <- Ha; pose proof (addr_range q ltac:(lia)); lia |]. apply lor_range; [lia | done |]. apply lor_range; [lia | done |]. rewrite Z.land_comm. by apply land_range.
  - unfold good. rewrite !Hb by lia. split_and!; [done | by rewrite andb_false_r | by rewrite andb_true_r, Hu].
Qed.

(** Why there is no next table: none can be had, a large page is there, or a table of
    the kernel's below another root. *)
Definition refused vm (n : node) (p i : Z) : Prop :=
  ent vm p i = Some 0 ∧ ¬ room 1 vm (n_owner n) ∨ ∃ e, ent vm p i = Some e ∧ present e = true ∧ (large e = true ∨ n_level n = 4 ∧ n_owner n ≠ KERNEL ∧ Z.testbit e 2 = false).

Lemma next_table_spec vm tree p n i s tf :
  vmm_inv vm tree → tree p = Some n → 2 ≤ n_level n → 0 ≤ i < 512 → spaces vm !! n_owner n = Some s → table_flags_ok (n_owner n) tf →
  ∃ vm' q, next_table vm (n_owner n) p i true tf = Ret (vm', q) ∧
    (q = 0 ∧ same vm vm' ∧ refused vm n p i ∨
     0 < q ∧ vm' = vm ∧ tree q = Some (place n i) ∧ (∃ e, ent vm p i = Some e ∧ present e = true) ∨
     0 < q ∧ ent vm p i = Some 0 ∧ extended vm tree p n i q zeros vm' ∧ ∀ k, room (Datatypes.S k) vm (n_owner n) → room k vm' (n_owner n)).
Proof.
  intros Hi Hn Hl Hidx Hs (Htf0 & Htf & Hu). pose proof (vi_tree _ _ Hi) as Ht. unfold next_table. rewrite Htf. destruct (ent_some _ _ Ht p n i Hn Hidx) as [e He]. rewrite (pt_rd_ent _ _ _ _ He). mred.
  unfold VMM_PRESENT, VMM_HUGE, VMM_USER. rewrite !has_bit, Hu by lia. destruct (present e) eqn:Hpr.
  - destruct (large e) eqn:Hlg; [eexists _, 0; split; [done |]; left; split_and!; [done.. | right; eauto] |]. assert (Hte : table_entry n e) by done. destruct (to_link _ _ Ht _ _ _ _ Hn He Hte) as (n' & Hn' & Hl' & Hp' & (_ & _ & Hu') & Ho').
    destruct (Z.eqb_spec (n_owner n) KERNEL) as [Ek|Ek]; cbn [negb andb].
    + eexists _, _. split; [done |]. right. left. destruct (to_addr _ _ Ht _ _ Hn') as [? _]. split_and!; try done; [| eauto]. change (Z.land e PTE_ADDR_MASK) with (addr e). rewrite Hn'. f_equal. destruct n'; cbn in *. unfold place. f_equal; [destruct Ho' as [|[_ ?]]; congruence | lia..].
    + destruct (Z.testbit e 2) eqn:Eu; cbn [negb].
      * eexists _, _. split; [done |]. right. left. destruct (to_addr _ _ Ht _ _ Hn') as [? _]. split_and!; try done; [| eauto]. change (Z.land e PTE_ADDR_MASK) with (addr e). rewrite Hn'. f_equal. destruct n'; cbn in *. unfold place.
        destruct (Z.eqb_spec n_owner KERNEL); [done |]. f_equal; [destruct Ho' as [|[_ ?]]; congruence | lia..].
      * eexists _, 0. split; [done |]. left. split_and!; [done.. |]. right. exists e. split_and!; try done. right. split_and!; try done. destruct Ho' as [Ho'|[? _]]; [| done]. rewrite Ho' in Hu'. by destruct (Z.eqb_spec (n_owner n) KERNEL).
  - assert (e = 0) as -> by (destruct (to_entry _ _ Ht _ _ _ _ Hn He) as [[?|[? _]]|[[? _] _]]; [done | congruence..]). cbn [negb]. destruct (alloc_table_spec vm tree (n_owner n) s Hi Hs) as (vm1 & q & E1 & [(-> & Hsm & Hno)|(Htk & Htr & Hcp & Hroom & Hent)]); rewrite E1; mred.
    { eexists _, 0. split; [done |]. left. split_and!; try done. by left. }
    pose proof Htk as (Hq & Haq & Hnh & _). bfalse (q =? 0). assert (Hpq : p ≠ q) by (intros ->; apply Hnh; by eapply vi_held). assert (He1 : ent vm1 p i = Some 0) by (rewrite Hent; by bfalse (p =? q)).
    destruct (pt_wr_ent vm1 p i 0 (table_word q tf) He1) as (vm2 & E2 & [ts ->] & H2 & H2'). unfold table_word in E2. unfold VMM_PRESENT, VMM_USER in E2. rewrite E2. mred. eexists _, q. split; [done |]. right. right. split_and!; [done.. | | done].
    destruct (table_word_spec (n_owner n) q tf n Hq Haq Htf0 Hu Hl) as (W1 & W2 & W3 & W4). split; [| done..]. split; [done.. | eexists; split; [done |]; by intros [? _] | | done | | by eexists | | ].
    + destruct (tree q) eqn:Eq; [| done]. exfalso. apply Hnh. by eapply vi_held.
    + intros x j Hx Hne. rewrite H2', Hent by done. by bfalse (x =? q).
    + intros j. rewrite H2', Hent, Z.eqb_refl by congruence. done.
    + intros j _. by left.
Qed.

(** ** Replacing a leaf *)

Definition elsewhere vm vm' (r : Z) : Prop := ∀ r' v, r' ≠ r →
  view vm' r' v = view vm r' v ∨ r = KERNEL ∧ view vm r' v = view vm KERNEL v ∧ view vm' r' v = view vm' KERNEL v.

Lemma owner_root vm tree p n : vmm_inv vm tree → tree p = Some n → ∃ rt, root vm (n_owner n) = Some rt ∧ tree rt = Some (mk_node (n_owner n) 4 0).
Proof.
  intros Hi Hn. destruct (vi_owners _ _ Hi p n Hn) as [s Hs]. pose proof (live_owner _ _ _ _ _ Hi Hn Hs) as Hp. exists (pml4_physical s). split; [unfold root; rewrite Hs; by bfalse (pml4_physical s =? 0) | by apply (so_root _ _ _ (vi_spaces _ _ Hi _ s Hs))].
Qed.

Lemma kernel_root vm tree : vmm_inv vm tree → ∃ rt, root vm KERNEL = Some rt ∧ tree rt = Some (mk_node KERNEL 4 0).
Proof.
  intros Hi. destruct (vi_kernel _ _ Hi) as (k & Hk & Hp). exists (pml4_physical k). split; [unfold root; rewrite Hk; by bfalse (pml4_physical k =? 0) | by apply (so_root _ _ _ (vi_spaces _ _ Hi _ k Hk))].
Qed.

Lemma write_leaf vm tree p n i e0 e' :
  vmm_inv vm tree → tree p = Some n → ent vm p i = Some e0 → ¬ table_entry n e0 → leaf_ok n e' →
  ∃ vm', pt_wr vm p i e' = Ret vm' ∧ vmm_inv vm' tree ∧ same_but_tables vm vm' ∧
    (∀ v, vmm_is_canonical v = true → below n i v → view vm' (n_owner n) v = shown n e' v) ∧ (∀ v, ¬ below n i v → view vm' (n_owner n) v = view vm (n_owner n) v) ∧ elsewhere vm vm' (n_owner n).
Proof.
  intros Hi Hn He0 Hold Hleaf. pose proof (vi_tree _ _ Hi) as Ht. destruct (pt_wr_ent vm p i e0 e' He0) as (vm' & E & [ts ->] & H1 & H2). set (vm' := vm <| tables := ts |>) in *. exists vm'.
  assert (Hrw : rewritten (ent vm) tree p n i e' (ent vm')) by (split; eauto). pose proof (tree_rewrite _ _ Ht _ _ _ _ _ Hrw) as Ht'. destruct (owner_root _ _ _ _ Hi Hn) as (rt & Hrt & Hnrt). assert (Hroots : ∀ r, root vm' r = root vm r) by done.
  split_and!; [done | | by exists ts | | |].
  - destruct Hi. by split.
  - intros v Hc Hb. unfold view. rewrite Hc, Hroots, Hrt. cbn [mbind option_bind]. by apply (look_leaf _ _ Ht' rt p n i e').
  - intros v Hb. unfold view. rewrite Hroots, Hrt. destruct (vmm_is_canonical v); [| done]. cbn [mbind option_bind]. eapply look_rewrite; eauto.
  - intros r' v Hne. unfold view. rewrite !Hroots. destruct (vmm_is_canonical v); [| by left]. destruct (root vm r') as [rt'|] eqn:Hrt'; [| by left]. cbn [mbind option_bind]. pose proof (root_node _ _ _ _ Hi Hrt') as Hnrt'.
    destruct (decide (n_owner n = KERNEL)) as [Hk|Hk]; [| left; eapply look_rewrite; eauto]. rewrite <- Hk, Hrt. cbn [mbind option_bind]. rewrite Hk in Hne, Hnrt |- *.
    destruct (look_kernel_change (ent vm) tree (ent vm') tree rt' r' rt v) as [->|[-> ->]]; auto. intros x m j Hm Ho. apply H2. intros [= -> ->]. congruence.
Qed.

(** ** Leaf entries *)

Definition flags_allowed (flags : Z) : Prop := 0 ≤ flags < 2 ^ 64 ∧ has flags (lnot_w 64 VMM_ALLOWED_LEAF_FLAGS) = false.

Lemma flags_allowed_bit flags k : flags_allowed flags → 0 ≤ k → Z.testbit flags k = true → k ∈ [1; 2; 3; 4; 8; 9; 10; 63].
Proof.
  intros [Hf Ha] Hk Hb. unfold has in Ha. apply negb_false_iff, Z.eqb_eq in Ha. apply (f_equal (λ x, Z.testbit x k)) in Ha. rewrite Z.land_spec, Hb, lnot_w_testbit, Z.bits_0 in Ha by done.
  destruct (Z.ltb_spec k 64); [| rewrite <- (Z.mod_small flags (2 ^ 64)), Z.mod_pow2_bits_high in Hb by lia; done]. cbn [andb] in Ha. apply negb_false_iff in Ha.
  unfold VMM_ALLOWED_LEAF_FLAGS, VMM_WRITE, VMM_USER, VMM_WRITETHR, VMM_NOCACHE, VMM_GLOBAL, VMM_COW, VMM_WRITECOMB, VMM_NX in Ha. rewrite !Z.lor_spec, !Z.pow2_bits_eqb, !orb_true_iff, !Z.eqb_eq in Ha by lia. apply list_elem_of_In. cbn. lia.
Qed.

Lemma flags_addr flags : (∀ k, 0 ≤ k → Z.testbit flags k = true → k < 12 ∨ 52 ≤ k) → addr flags = 0.
Proof.
  intros Hf. apply Z.bits_inj'. intros k Hk. rewrite addr_bit, Z.bits_0 by done. destruct (Z.testbit flags k) eqn:E; [| done]. destruct (Hf k Hk E); [bfalse (12 <=? k); done | bfalse (k <? 52); apply andb_false_r].
Qed.

Lemma leaf_pte_bit flags k : flags_allowed flags → 0 ≤ k → Z.testbit (vmm_leaf_pte_flags flags) k = (Z.testbit flags k && negb (k =? 10)) || (Z.testbit flags 10 && (k =? 3)).
Proof.
  intros [Hf _] Hk. unfold vmm_leaf_pte_flags, VMM_WRITECOMB, VMM_WRITETHR. rewrite has_bit by lia. destruct (Z.testbit flags 10) eqn:E10; cbn [andb].
  - rewrite Z.lor_spec, Z.land_spec, lnot_w_testbit, !Z.pow2_bits_eqb by lia. rewrite (Z.eqb_sym 10), (Z.eqb_sym 3). destruct (Z.ltb_spec k 64); [done |]. rewrite <- (Z.mod_small flags (2 ^ 64)), Z.mod_pow2_bits_high by lia. done.
  - rewrite orb_false_r. destruct (Z.eqb_spec k 10) as [->|]; [by rewrite E10 | by rewrite andb_true_r].
Qed.

Lemma leaf_pte_range flags : flags_allowed flags → 0 ≤ vmm_leaf_pte_flags flags < 2 ^ 64.
Proof. intros [Hf _]. unfold vmm_leaf_pte_flags. destruct (has _ _); [| done]. apply lor_range; [lia | by apply land_range | done]. Qed.

Lemma leaf_pte_addr flags : flags_allowed flags → addr (vmm_leaf_pte_flags flags) = 0.
Proof.
  intros Hf. apply flags_addr. intros k Hk. rewrite leaf_pte_bit by done. intros [[Hb _]%andb_true_iff|[_ Hb%Z.eqb_eq]%andb_true_iff]%orb_true_iff; [| lia].
  apply flags_allowed_bit in Hb; [| done..]. apply list_elem_of_In in Hb. cbn in Hb. lia.
Qed.

(** What [map], [remap] and [protect] write. *)
Definition leaf_word (a flags : Z) : Z := Z.lor a (Z.lor (vmm_leaf_pte_flags flags) VMM_PRESENT).

Definition shown_flags (flags : Z) : Z := Z.lor (Z.land flags REPORTED) VMM_PRESENT.

Lemma leaf_word_addr a flags : addr a = a → flags_allowed flags → addr (leaf_word a flags) = a.
Proof. intros Ha Hf. apply entry_addr; [done |]. unfold addr at 1. rewrite Z.land_lor_distr_l. fold (addr (vmm_leaf_pte_flags flags)). by rewrite leaf_pte_addr. Qed.

Lemma leaf_word_bit a flags k : addr a = a → flags_allowed flags → 0 ≤ k < 12 ∨ 52 ≤ k → k ≠ 3 → k ≠ 10 → Z.testbit (leaf_word a flags) k = Z.testbit flags k || (k =? 0).
Proof.
  intros Ha Hf Hk H3 H10. unfold leaf_word. rewrite entry_bit, Z.lor_spec, leaf_pte_bit by (done || lia). bfalse (k =? 10). bfalse (k =? 3). rewrite andb_true_r, andb_false_r, orb_false_r. unfold VMM_PRESENT. rewrite Z.pow2_bits_eqb by lia. by rewrite (Z.eqb_sym 0).
Qed.

Lemma reported_bit k : 0 ≤ k → Z.testbit REPORTED k = true → k ∈ [0; 1; 2; 5; 6; 8; 9; 63].
Proof.
  intros Hk E. unfold REPORTED, VMM_PRESENT, VMM_WRITE, VMM_USER, VMM_NX, VMM_GLOBAL, VMM_COW, VMM_DIRTY, VMM_ACCESSED in E. rewrite !Z.lor_spec, !Z.pow2_bits_eqb in E by lia. rewrite !orb_true_iff, !Z.eqb_eq in E. apply list_elem_of_In. cbn. lia.
Qed.

Lemma leaf_word_reported a flags : addr a = a → flags_allowed flags → Z.land (leaf_word a flags) REPORTED = shown_flags flags.
Proof.
  intros Ha Hf. apply Z.bits_inj'. intros k Hk. unfold shown_flags. rewrite Z.lor_spec, !Z.land_spec. destruct (Z.testbit REPORTED k) eqn:E.
  - rewrite !andb_true_r. apply reported_bit in E; [| done]. apply list_elem_of_In in E. cbn in E. rewrite leaf_word_bit by (done || lia). unfold VMM_PRESENT. rewrite Z.pow2_bits_eqb by lia. by rewrite (Z.eqb_sym 0).
  - rewrite !andb_false_r. unfold VMM_PRESENT. rewrite Z.pow2_bits_eqb by lia. destruct (Z.eqb_spec 0 k) as [<-|]; [by vm_compute in E | done].
Qed.

Lemma leaf_word_range a flags : addr a = a → 0 ≤ a → flags_allowed flags → 0 ≤ leaf_word a flags < 2 ^ 64.
Proof. intros Ha Ha0 Hf. pose proof (addr_range a Ha0). rewrite Ha in *. apply lor_range; [lia | lia |]. apply lor_range; [lia | by apply leaf_pte_range | done]. Qed.

Lemma leaf_word_ok n a flags : n_level n = 1 → addr a = a → 0 ≤ a → flags_allowed flags → Z.testbit flags 2 = negb (n_owner n =? KERNEL) → leaf_ok n (leaf_word a flags).
Proof. intros Hl Ha Ha0 Hf Hu. right. rewrite !leaf_word_bit by (done || lia). split_and!; [by rewrite orb_true_r | by apply leaf_word_range.. |]. left. split; [done |]. rewrite Hu. apply orb_false_r. Qed.

End spaces.
