(* ===== verification/VmmMapping.v ===== *)
(** * Mapping, unmapping and protecting pages

    What the operations of [Vmm] on one page do to the translations of every address
    space, and when they succeed. *)

From Stdlib Require Import ZArith Lia String.
From stdpp Require Import prelude list_numbers fin_maps zmap.
From S2P Require Import Prelude Update Array Arith CString Printf Log Bootinfo Memory PageMap Vmm VmmTables VmmSpaces.

Local Open Scope Z_scope.

(** ** Pages *)

Lemma pfx_vpn v n : n_level n = 1 → ∀ virt, n_prefix n = pfx virt 2 → below n (idx virt 1) v ↔ vpn v = vpn virt.
Proof. intros Hl virt Hp. unfold below. rewrite Hl, Hp, !pfx_page. rewrite <- (pfx_page virt), (pfx_step virt 1) by lia. done. Qed.

(** Canonical addresses of one page number are in one page. *)
Lemma canonical_page v v' : 0 ≤ v < 2 ^ 64 → 0 ≤ v' < 2 ^ 64 → vmm_is_canonical v = true → vmm_is_canonical v' = true → vpn v = vpn v' ↔ v / PAGE_SIZE = v' / PAGE_SIZE.
Proof.
  intros Hv Hv'. unfold vmm_is_canonical, VMM_CANONICAL_LOW_TOP, VMM_CANONICAL_HIGH_BASE, vpn, PAGE_SIZE. rewrite !orb_true_iff, !Z.ltb_lt, !Z.leb_le. intros Hc Hc'.
  pose proof (Z.div_mod v 4096 ltac:(lia)). pose proof (Z.mod_pos_bound v 4096 ltac:(lia)). pose proof (Z.div_mod v' 4096 ltac:(lia)). pose proof (Z.mod_pos_bound v' 4096 ltac:(lia)).
  pose proof (Z.div_mod (v / 4096) (2 ^ 36) ltac:(lia)). pose proof (Z.mod_pos_bound (v / 4096) (2 ^ 36) ltac:(lia)). pose proof (Z.div_mod (v' / 4096) (2 ^ 36) ltac:(lia)). pose proof (Z.mod_pos_bound (v' / 4096) (2 ^ 36) ltac:(lia)).
  split; [intros E | congruence]. assert (v / 4096 / 2 ^ 36 = v' / 4096 / 2 ^ 36); lia.
Qed.

Lemma page_canonical v v' : 0 ≤ v → v / PAGE_SIZE = v' / PAGE_SIZE → vmm_is_canonical v' = true → vmm_is_canonical v = true.
Proof.
  intros Hv. unfold vmm_is_canonical, VMM_CANONICAL_LOW_TOP, VMM_CANONICAL_HIGH_BASE, PAGE_SIZE. rewrite !orb_true_iff, !Z.ltb_lt, !Z.leb_le. intros E Hc.
  pose proof (Z.div_mod v 4096 ltac:(lia)). pose proof (Z.mod_pos_bound v 4096 ltac:(lia)). pose proof (Z.div_mod v' 4096 ltac:(lia)). pose proof (Z.mod_pos_bound v' 4096 ltac:(lia)). lia.
Qed.

Section mapping.
Context {M S : Type} `{FS : FrameSource M} `{CS : Cpus S}.
Context (kernel_start kernel_end : Z).

Implicit Types vm : vmm M S.

(** ** Flags *)

Lemma flags_valid_spec tree r s virt flags :
  space_ok tree r s → pml4_physical s ≠ 0 → 0 ≤ flags < 2 ^ 64 → vmm_leaf_flags_valid_for_space kernel_start kernel_end (Some s) virt flags = true → flags_allowed flags ∧ vmm_is_canonical virt = true ∧ Z.testbit flags 2 = negb (r =? KERNEL).
Proof.
  intros Hs Hp Hf. unfold vmm_leaf_flags_valid_for_space. destruct (has flags _) eqn:E; [done |]. destruct (vmm_is_canonical virt); [| done]. cbn [negb orb]. destruct (has flags VMM_COW && _); [done |]. destruct (has flags VMM_GLOBAL && _); [done |].
  destruct (so_root _ _ _ Hs Hp) as [_ Hu]. unfold VMM_USER. rewrite !has_bit, Hu by lia. intros Hv. split_and!; [by split | done |]. destruct (r =? KERNEL); cbn [negb] in *.
  - by apply negb_true_iff in Hv.
  - by apply andb_true_iff in Hv as [[? _]%andb_true_iff _].
Qed.

Lemma table_pte_flags_ok r flags : 0 ≤ flags < 2 ^ 64 → Z.testbit flags 2 = negb (r =? KERNEL) → table_flags_ok r (vmm_table_pte_flags flags).
Proof.
  intros Hf Hu. unfold vmm_table_pte_flags. set (x := if has flags VMM_WRITECOMB then _ else flags).
  assert (Hx : 0 ≤ x < 2 ^ 64 ∧ Z.testbit x 2 = Z.testbit flags 2).
  { unfold x. destruct (has flags VMM_WRITECOMB); [| done]. split; [by apply land_range |]. rewrite Z.land_spec, lnot_w_testbit by (done || lia). by rewrite andb_true_r. }
  destruct Hx as [Hx Ex]. clearbody x. split; [by apply (land_range 64) |]. split.
  - unfold has. apply negb_false_iff, Z.eqb_eq. rewrite <- Z.land_assoc. change (Z.land VMM_ALLOWED_TABLE_FLAGS _) with 0. apply Z.land_0_r.
  - rewrite Z.land_spec, Ex, Hu. apply andb_true_r.
Qed.

(** ** The way down *)

Lemma enough_less k (m : M) : enough (Datatypes.S k) m → enough k m.
Proof. revert m. induction k as [|k IH]; [done |]. intros m (m' & p & E & Hp & He). exists m', p. split_and!; [done.. |]. by apply IH. Qed.

Lemma room_less k vm r : room (Datatypes.S k) vm r → room k vm r.
Proof. intros [He (s & Hs & Hc)]. split; [by apply enough_less |]. exists s. split; [done | lia]. Qed.

Lemma room_le k k' vm r : (k' ≤ k)%nat → room k vm r → room k' vm r.
Proof. induction 1; [done |]. intros. by apply IHle, room_less. Qed.

Definition on_way (r v l : Z) : node := mk_node r l (pfx v (l + 1)).

Lemma place_way r v l : 1 ≤ l → place (on_way r v l) (idx v l) = on_way r v (l - 1).
Proof. intros Hl. unfold place, on_way. cbn. f_equal. rewrite <- pfx_step by done. f_equal. lia. Qed.

Lemma way_top r v : on_way r v 4 = mk_node r 4 0.
Proof. unfold on_way. change (4 + 1) with 5. by rewrite pfx_top. Qed.

(** There is a table on the way of [v], [n] levels above its last one. *)
Definition reach (tree : Z → option node) (r v : Z) (n : nat) : Prop := ∃ p, tree p = Some (on_way r v (Z.of_nat n + 1)).

Lemma reach_up en tree r v n : tree_ok en tree → reach tree r v n → (n < 3)%nat → reach tree r v (Datatypes.S n).
Proof.
  intros Ht [p Hp] Hn. destruct (to_parent _ _ Ht p _ Hp) as (q & m & i & e & Hm & Ho & He & Hte & Ha); [cbn; lia |]. destruct (to_link _ _ Ht _ _ _ _ Hm He Hte) as (m' & Hm' & Hl' & Hp' & _). rewrite Ha, Hp in Hm'. injection Hm' as <-. cbn in Ho, Hl', Hp'.
  pose proof (ent_index _ _ Ht _ _ _ He) as Hi. rewrite (pfx_step v) in Hp' by lia. pose proof (idx_range v (Z.of_nat n + 1 + 1)) as Hx. exists q. rewrite Hm. f_equal. destruct m as [o l x]. cbn in *. unfold on_way. replace (Z.of_nat (Datatypes.S n) + 1) with (Z.of_nat n + 1 + 1) by lia. f_equal; lia.
Qed.

Lemma reach_le en tree r v n m : tree_ok en tree → reach tree r v n → (n ≤ m ≤ 3)%nat → reach tree r v m.
Proof. intros Ht Hr [Hle Hm]. induction Hle as [|m Hle IH]; [done |]. apply (reach_up en); [done | apply IH; lia | lia]. Qed.

(** Where there is no entry, there is no table below. *)
Lemma reach_entry en tree r v l p n : tree_ok en tree → tree p = Some (on_way r v l) → en p (idx v l) = Some 0 → 2 ≤ l ≤ 4 → reach tree r v n → Z.of_nat n ≤ l - 1 → Z.of_nat n = l - 1.
Proof.
  intros Ht Hp He Hl Hr Hn. destruct (decide (Z.of_nat n = l - 1)) as [|Hne]; [done |]. exfalso. destruct (reach_le en tree r v n (Z.to_nat (l - 2)) Ht Hr ltac:(lia)) as [q Hq]. replace (Z.of_nat (Z.to_nat (l - 2)) + 1) with (l - 1) in Hq by lia.
  rewrite <- place_way in Hq by lia. destruct (place_entry _ _ Ht q p (on_way r v l) (idx v l) Hq ltac:(cbn; lia) Hp (idx_range _ _)) as (e & He' & (Hpr & _) & _). rewrite He in He'. by injection He' as <-.
Qed.

(** Tables were added on the way of [v], from level [l] up. *)
Definition grows (l r v : Z) (tree tree' : Z → option node) : Prop :=
  (∀ x m, tree x = Some m → tree' x = Some m) ∧ (∀ x m, tree' x = Some m → tree x = Some m ∨ ∃ l', l ≤ l' ∧ m = on_way r v l').

Lemma grows_refl l r v tree : grows l r v tree tree.
Proof. split; auto. Qed.

Lemma grows_trans l l1 r v t1 t2 t3 : grows l1 r v t1 t2 → grows l r v t2 t3 → l ≤ l1 → grows l r v t1 t3.
Proof. intros [A1 A2] [B1 B2] Hl. split; [auto |]. intros x m Hm. destruct (B2 x m Hm) as [H|?]; [| by right]. destruct (A2 x m H) as [?|(l' & ? & ->)]; [by left | right; exists l'; split; [lia | done]]. Qed.

(** Why there is no table: it is missing and cannot be had, a large page, or a table of the kernel's. *)
Definition stuck (n : nat) vm (r v l p : Z) : Prop :=
  ¬ room 1 vm r ∧ Z.of_nat n = l - 1 ∨ ∃ e, ent vm p (idx v l) = Some e ∧ present e = true ∧ (large e = true ∨ l = 4 ∧ r ≠ KERNEL ∧ Z.testbit e 2 = false).

Lemma descend n vm0 cs vm tree r s v l p tf e :
  vmm_inv vm tree → tree p = Some (on_way r v l) → 2 ≤ l → spaces vm !! r = Some s → table_flags_ok r tf → ent vm p (idx v l) = Some e → trail r vm0 cs vm → reach tree r v n → Z.of_nat n ≤ l - 1 →
  ∃ vm' q, next_table vm r p (idx v l) true tf = Ret (vm', q) ∧
    (q = 0 ∧ trail r vm0 cs vm' ∧ stuck n vm r v l p ∨
     0 < q ∧ ∃ tree' s', vmm_inv vm' tree' ∧ spaces vm' !! r = Some s' ∧ tree' q = Some (on_way r v (l - 1)) ∧ grows (l - 1) r v tree tree' ∧
       trail r vm0 (cs ++ if negb (has e VMM_PRESENT) then [mk_created p (idx v l) q] else []) vm' ∧
       (∃ c n', n' = Nat.min n (Z.to_nat (l - 2)) ∧ (c + n' ≤ n)%nat ∧ reach tree' r v n' ∧ ∀ k, room (c + k) vm r → room k vm' r) ∧
       (present e = false → ∀ j, 0 ≤ j < 512 → ent vm' q j = Some 0) ∧ (present e = true → vm' = vm ∧ tree' = tree)).
Proof.
  intros Hi Hp Hl Hs Htf He Htr Hrn Hn. pose proof (vi_tree _ _ Hi) as Ht. pose proof (to_level _ _ Ht _ _ Hp) as [Hlev _]. cbn in Hlev.
  destruct (next_table_spec vm tree p _ (idx v l) s tf Hi Hp Hl (idx_range _ _) Hs Htf) as (vm' & q & E & Hc). exists vm', q. split; [done |]. cbn [n_owner on_way] in Hc. rewrite place_way in Hc by lia.
  unfold VMM_PRESENT. rewrite has_bit by done. destruct Hc as [(-> & Hsm & Href)|[(Hq & -> & Hn' & e' & He' & Hpr)|(Hq & H0 & Hx & Hroom)]].
  - left. split_and!; [done | by eapply trail_same |]. destruct Href as [[H0 Hno]|?]; [left | by right]. split; [done |]. by apply (reach_entry _ _ _ _ _ _ _ Ht Hp H0 ltac:(lia) Hrn).
  - right. split; [done |]. exists tree, s. assert (e' = e) as -> by congruence. rewrite Hpr. cbn [negb]. rewrite app_nil_r. split_and!; try done; [apply grows_refl |]. exists 0%nat. eexists. split; [done |]. split; [lia |]. split; [| done].
    destruct (Nat.min_spec n (Z.to_nat (l - 2))) as [[? ->]|[? ->]]; [done |]. exists q. by replace (Z.of_nat (Z.to_nat (l - 2)) + 1) with (l - 1) by lia.
  - right. split; [done |]. assert (e = 0) as -> by congruence. rewrite Z.testbit_0_l. cbn [negb]. pose proof (ex_tracks _ _ _ _ _ _ _ _ Hx) as (s0 & l0 & _ & _ & _ & _ & Es). cbn [n_owner on_way] in Es. eexists (tins q _ tree), _. split; [by eapply extended_inv |].
    pose proof (reach_entry _ _ _ _ _ _ _ Ht Hp H0 ltac:(lia) Hrn Hn) as En. assert (Hnew : tins q (place (on_way r v l) (idx v l)) tree q = Some (on_way r v (l - 1))) by (rewrite tins_eq; by rewrite place_way by lia).
    split; [rewrite Es; apply lookup_insert_eq |]. split; [done |]. split; [split; [intros x m Hm; rewrite tins_ne; [done |]; intros ->; rewrite (gr_fresh _ _ _ _ _ _ _ _ (ex_grown _ _ _ _ _ _ _ _ Hx)) in Hm; done | intros x m [[-> ->]|[_ ?]]%tins_inv; [right; exists (l - 1); by rewrite place_way by lia | by left]] |].
    split; [eapply trail_made; [done | done | exact Hx | done | done | apply same_refl] |]. split; [| split; [| done]].
    + exists 1%nat, (Z.to_nat (l - 2)). split; [lia |]. split; [lia |]. split; [exists q; by replace (Z.of_nat (Z.to_nat (l - 2)) + 1) with (l - 1) by lia |]. exact Hroom.
    + intros _ j Hj. rewrite (gr_table _ _ _ _ _ _ _ _ (ex_grown _ _ _ _ _ _ _ _ Hx)). btrue (0 <=? j). by btrue (j <? 512).
Qed.

(** ** Mapping a page *)

(** From [vm] to [vm'] the space [r] sees [t] where [hit], and every space sees what it
    saw, up to [φ], or what the kernel sees where it shares the kernel's tables. *)
Record changes (φ : option (Z * Z) → option (Z * Z)) vm vm' (r : Z) (hit : Z → Prop) (t : Z → option (Z * Z)) : Prop := {
  ch_here : ∀ v, 0 ≤ v < 2 ^ 64 → hit v → view vm' r v = t v;
  ch_rest : ∀ v, 0 ≤ v < 2 ^ 64 → ¬ hit v → φ (view vm' r v) = φ (view vm r v);
  ch_else : ∀ r' v, 0 ≤ v < 2 ^ 64 → r' ≠ r → φ (view vm' r' v) = φ (view vm r' v) ∨ r = KERNEL ∧ φ (view vm r' v) = φ (view vm KERNEL v) ∧ view vm' r' v = view vm' KERNEL v;
  ch_root : ∀ r, root vm' r = root vm r;
}.

Definition same_page (v v' : Z) : Prop := v / PAGE_SIZE = v' / PAGE_SIZE.

(** The page at [a] with [flags]. *)
Definition page_at (a flags v : Z) : option (Z * Z) := Some (a + Z.land v (PAGE_SIZE - 1), shown_flags flags).

(** The address is in a region whose tables are the kernel's. *)
Definition shared_region vm (r v : Z) : Prop := r ≠ KERNEL ∧ ∃ rt e, root vm r = Some rt ∧ ent vm rt (idx v 4) = Some e ∧ present e = true ∧ Z.testbit e 2 = false.

Lemma way_view vm tree p r v l e :
  vmm_inv vm tree → tree p = Some (on_way r v l) → ent vm p (idx v l) = Some e → leaf_ok (on_way r v l) e → vmm_is_canonical v = true → view vm r v = shown (on_way r v l) e v.
Proof.
  intros Hi Hn He Hl Hc. pose proof (to_level _ _ (vi_tree _ _ Hi) _ _ Hn) as [? _]. destruct (owner_root _ _ _ _ Hi Hn) as (rt & Hrt & Hnrt). cbn in Hrt, Hnrt. unfold view. rewrite Hc, Hrt. cbn [mbind option_bind].
  eapply look_leaf; [apply Hi | done | done | done | done |]. apply below_idx; [lia | apply idx_range | done].
Qed.

Lemma stuck_room n vm tree r v l p :
  vmm_inv vm tree → tree p = Some (on_way r v l) → l = 3 ∨ l = 2 ∧ (∀ e, ent vm p (idx v l) = Some e → large e = false) → stuck n vm r v l p → ¬ room 1 vm r ∧ Z.of_nat n = l - 1.
Proof.
  intros Hi Hp Hl [Hr|(e & He & Hpr & Hcase)]; [done |]. exfalso. destruct Hcase as [Hlg|(H4 & _)]; [| lia].
  destruct Hl as [->|[-> Hno]]; [| rewrite (Hno e He) in Hlg; done]. destruct (to_entry _ _ (vi_tree _ _ Hi) _ _ _ _ Hp He) as [[->|(_ & _ & [[? _]|[_ [? _]]])]|[(_ & _ & ?) _]]; [done | cbn in *; lia.. | congruence].
Qed.

Lemma shown_page r virt a flags v : addr a = a → flags_allowed flags → shown (on_way r virt 1) (leaf_word a flags) v = page_at a flags v.
Proof. intros Ha Hf. unfold shown, page_at. cbn [n_level on_way]. btrue (1 =? 1). by rewrite leaf_word_bit, orb_true_r, leaf_word_addr, leaf_word_reported by (done || lia). Qed.

(** Writing the leaf of a page. *)
Lemma write_page vm tree r virt p e0 e' :
  vmm_inv vm tree → tree p = Some (on_way r virt 1) → ent vm p (idx virt 1) = Some e0 → 0 ≤ virt < 2 ^ 64 → vmm_is_canonical virt = true → leaf_ok (on_way r virt 1) e' →
  ∃ vm', pt_wr vm p (idx virt 1) e' = Ret vm' ∧ vmm_inv vm' tree ∧ same_but_tables vm vm' ∧ changes id vm vm' r (same_page virt) (shown (on_way r virt 1) e').
Proof.
  intros Hi Hp He0 Hv Hc Hleaf. destruct (write_leaf vm tree p (on_way r virt 1) (idx virt 1) e0 e') as (vm' & E & Hi' & Hsb & Hhere & Hrest & Helse); [done.. | intros (_ & H2 & _); cbn in H2; lia | done |].
  exists vm'. split_and!; try done. cbn [n_owner on_way] in *. assert (Hpage : ∀ v, 0 ≤ v < 2 ^ 64 → vmm_is_canonical v = true → below (on_way r virt 1) (idx virt 1) v ↔ same_page virt v).
  { intros v Hv' Hc'. rewrite (pfx_vpn v (on_way r virt 1) eq_refl virt eq_refl), (canonical_page v virt) by done. unfold same_page. done. }
  split.
  - intros v Hv' Hpg. assert (vmm_is_canonical v = true) as Hc' by (eapply page_canonical; [lia | symmetry; exact Hpg | done]). apply Hhere; [done | by apply Hpage].
  - intros v Hv' Hpg. cbn [id]. destruct (vmm_is_canonical v) eqn:Hc'; [| unfold view; by rewrite Hc']. apply Hrest. by rewrite Hpage.
  - intros r' v _ Hr'. apply Helse. done.
  - by destruct Hsb as [ts ->].
Qed.

Lemma stats_same vm st : same vm (vm <| stats := st |>).
Proof. done. Qed.

Lemma changes_same φ vm vm1 vm2 r hit t : changes φ vm vm1 r hit t → same vm1 vm2 → changes φ vm vm2 r hit t.
Proof.
  intros [C1 C2 C3 C4] Hs. split; intros; rewrite ?(same_view _ _ _ _ Hs), ?(same_root _ _ _ Hs); auto.
Qed.

Lemma changes_ext φ vm vm' r hit t t' : (∀ v, t v = t' v) → changes φ vm vm' r hit t → changes φ vm vm' r hit t'.
Proof. intros E [C1 C2 C3 C4]. split; [intros; rewrite <- E; auto | done..]. Qed.

Lemma changes_weaken φ vm vm' r hit t : changes id vm vm' r hit t → changes φ vm vm' r hit t.
Proof. intros [C1 C2 C3 C4]. split; [done | intros; f_equal; by apply C2 | | done]. intros r' v Hr Hne. destruct (C3 r' v Hr Hne) as [E|(E1 & E2 & E3)]; cbn [id] in *; [left; by f_equal | right; split_and!; [done | by f_equal | done]]. Qed.

Lemma changes_from φ vm0 vm1 vm2 r hit t : (∀ r v, 0 ≤ v → φ (view vm1 r v) = φ (view vm0 r v)) → (∀ r, root vm1 r = root vm0 r) → changes φ vm1 vm2 r hit t → changes φ vm0 vm2 r hit t.
Proof.
  intros Hv Hrt [C1 C2 C3 C4]. split; [done | intros; rewrite C2, Hv by (done || lia); done | | intros; by rewrite C4, Hrt].
  intros r' v Hr Hne. destruct (C3 r' v Hr Hne) as [E|(E1 & E2 & E3)]; [left; by rewrite E, Hv by lia | right; by rewrite <- !Hv by lia].
Qed.

Lemma not_present vm tree p i e : vmm_inv vm tree → ent vm p i = Some e → present e = false → e = 0.
Proof. intros Hi He Hp. destruct (ent_node _ _ (vi_tree _ _ Hi) _ _ _ He) as [n Hn]. destruct (to_entry _ _ (vi_tree _ _ Hi) _ _ _ _ Hn He) as [[?|[? _]]|[[? _] _]]; [done | congruence..]. Qed.

(** What a present entry on the way of [v] is. *)
Lemma way_child vm tree p r v l e :
  vmm_inv vm tree → tree p = Some (on_way r v l) → 2 ≤ l → ent vm p (idx v l) = Some e → present e = true →
  (large e = true ∧ l = 2 ∧ r = KERNEL) ∨ (large e = false ∧ tree (addr e) = Some (on_way r v (l - 1)) ∧ Z.testbit e 2 = negb (r =? KERNEL)) ∨ (large e = false ∧ l = 4 ∧ r ≠ KERNEL ∧ Z.testbit e 2 = false).
Proof.
  intros Hi Hp Hl He Hpr. pose proof (vi_tree _ _ Hi) as Ht. destruct (large e) eqn:Hlg.
  - left. destruct (to_entry _ _ Ht _ _ _ _ Hp He) as [[->|(_ & _ & [[? _]|[_ (? & ? & _)]])]|[(_ & _ & ?) _]]; [done | cbn in *; lia | done | congruence].
  - right. destruct (to_link _ _ Ht _ _ _ _ Hp He) as (n' & Hn' & Hl' & Hp' & (_ & _ & Hu) & Ho'); [done |]. cbn in Hl', Hp', Ho'. rewrite <- pfx_step in Hp' by lia.
    destruct (decide (n_owner n' = r)) as [Ho|Ho]; [left | right].
    + split_and!; [done | | by rewrite <- Ho]. rewrite Hn'. f_equal. destruct n'. unfold on_way. cbn in *. f_equal; [done | done |]. rewrite Hp'. f_equal. lia.
    + destruct Ho' as [|[-> Hk]]; [done |]. rewrite Hk in Hu. split_and!; [done | done | congruence | done].
Qed.

(** The way down to the page directory. *)
Lemma descend_pd n vm tree r s virt tf :
  vmm_inv vm tree → spaces vm !! r = Some s → pml4_physical s ≠ 0 → table_flags_ok r tf → reach tree r virt n → (n ≤ 3)%nat →
  ∃ e4 vm1 pdpt, pt_rd vm (pml4_physical s) (idx virt 4) = Ret e4 ∧ next_table vm r (pml4_physical s) (idx virt 4) true tf = Ret (vm1, pdpt) ∧
    (pdpt = 0 ∧ trail r vm [] vm1 ∧ (¬ room (n - 1) vm r ∨ shared_region vm r virt) ∨
     0 < pdpt ∧ ∃ e3 vm2 pd cs, pt_rd vm1 pdpt (idx virt 3) = Ret e3 ∧ next_table vm1 r pdpt (idx virt 3) true tf = Ret (vm2, pd) ∧
       cs = (if negb (has e4 VMM_PRESENT) then [mk_created (pml4_physical s) (idx virt 4) pdpt] else []) ∧
       (pd = 0 ∧ trail r vm cs vm2 ∧ ¬ room (n - 1) vm r ∨
        0 < pd ∧ ∃ tree' s' e2, vmm_inv vm2 tree' ∧ spaces vm2 !! r = Some s' ∧ tree' pd = Some (on_way r virt 2) ∧ grows 2 r virt tree tree' ∧ ent vm2 pd (idx virt 2) = Some e2 ∧
          trail r vm (cs ++ if negb (has e3 VMM_PRESENT) then [mk_created pdpt (idx virt 3) pd] else []) vm2 ∧
          (∃ c n', n' = Nat.min n 1 ∧ (c ≤ n - n')%nat ∧ reach tree' r virt n' ∧ ∀ k, room (c + k) vm r → room k vm2 r) ∧ (present e2 = true → has e3 VMM_PRESENT = true ∧ vm2 = vm ∧ tree' = tree))).
Proof.
  intros Hi Hs Hlive Htf Hrn Hn. destruct (so_root _ _ _ (vi_spaces _ _ Hi r s Hs) Hlive) as [Hroot _]. rewrite <- (way_top r virt) in Hroot. pose proof (trail_start r vm vm (same_refl vm)) as Tr0.
  destruct (ent_some _ _ (vi_tree _ _ Hi) _ _ (idx virt 4) Hroot (idx_range _ _)) as [e4 E4].
  destruct (descend n vm [] vm tree r s virt 4 (pml4_physical s) tf e4 Hi Hroot ltac:(lia) Hs Htf E4 Tr0 Hrn ltac:(lia)) as (vm1 & pdpt & N1 & D1). exists e4, vm1, pdpt. split; [by apply pt_rd_ent |]. split; [done |].
  destruct D1 as [(-> & Tr1 & Href)|(Hq1 & t1 & s1 & Hi1 & Hs1 & Hn1 & Ext1 & Tr1 & (c1' & n1 & En1 & Hc1 & Hrn1 & Room1) & Zero1 & Old1)]; [left | right].
  { split_and!; [done.. |]. destruct Href as [[Hno En]|(e & He & Hpr & [Hlg|(_ & Hk & Hub)])]; [left; by intros Hr%(room_le _ 1); [| lia] | | right; split; [done |]; exists (pml4_physical s), e; split_and!; try done; unfold root; rewrite Hs; by bfalse (pml4_physical s =? 0)].
    destruct (way_child vm tree _ r virt 4 e Hi Hroot ltac:(lia) He Hpr) as [(_ & ? & _)|[(? & _)|(? & _)]]; [done | congruence..]. }
  split; [done |]. change (4 - 1) with 3 in Hn1. cbn [app] in Tr1. set (c1 := if negb (has e4 VMM_PRESENT) then _ else _) in *.
  destruct (ent_some _ _ (vi_tree _ _ Hi1) _ _ (idx virt 3) Hn1 (idx_range _ _)) as [e3 E3].
  destruct (descend n1 vm c1 vm1 t1 r s1 virt 3 pdpt tf e3 Hi1 Hn1 ltac:(lia) Hs1 Htf E3 Tr1 Hrn1 ltac:(lia)) as (vm2 & pd & N2 & D2). exists e3, vm2, pd, c1. split; [by apply pt_rd_ent |]. split; [done |]. split; [done |].
  destruct D2 as [(-> & Tr2 & Href)|(Hq2 & t2 & s2 & Hi2 & Hs2 & Hn2 & Ext2 & Tr2 & (c2' & n2 & En2 & Hc2 & Hrn2 & Room2) & Zero2 & Old2)]; [left | right].
  { split_and!; [done.. |]. intros Hr. apply (stuck_room n1 vm1 t1 r virt 3 pdpt Hi1 Hn1) in Href as [Hno En]; [| by left]. apply Hno, Room1. by apply (room_le (n - 1)); [lia |]. }
  split; [done |]. change (3 - 1) with 2 in Hn2. destruct (ent_some _ _ (vi_tree _ _ Hi2) _ _ (idx virt 2) Hn2 (idx_range _ _)) as [e2 E2]. exists t2, s2, e2. split_and!; try done; [by eapply grows_trans; [exact Ext1 | exact Ext2 | lia] | exists (c1' + c2')%nat, n2; split_and!; [lia | lia | done | intros k Hk; apply Room2, Room1; by rewrite Nat.add_assoc] |]. intros P2.
  assert (P3 : present e3 = true) by (destruct (present e3) eqn:P3; [done | rewrite (Zero2 eq_refl _ (idx_range _ _)) in E2; injection E2 as <-; done]). destruct (Old2 P3) as [-> ->].
  assert (P4 : present e4 = true) by (destruct (present e4) eqn:P4; [done | rewrite (Zero1 eq_refl _ (idx_range _ _)) in E3; injection E3 as <-; done]). destruct (Old1 P4) as [-> ->]. split; [unfold VMM_PRESENT; by rewrite has_bit | done].
Qed.

(** The whole of [vmm_space_map_4k]. *)
Definition map_guard (s : vmm_space_t) (virt phys flags : Z) : bool :=
  negb (has virt (PAGE_SIZE - 1) || has phys (PAGE_SIZE - 1) || negb (vmm_leaf_flags_valid_for_space kernel_start kernel_end (Some s) virt flags)) && negb (pml4_physical s =? 0).

(** What [vmm_space_map_4k] leaves behind where [n] tables are missing. *)
Definition map_post (n : nat) vm (tree : Z → option node) (r : Z) (s : vmm_space_t) (virt phys flags : Z) vm' (ok : bool) : Prop :=
  if ok then map_guard s virt phys flags = true ∧ view vm r virt = None ∧ changes id vm vm' r (same_page virt) (page_at (addr phys) flags) ∧
    same_cpus vm vm' ∧ ∃ tree', vmm_inv vm' tree' ∧ grows 1 r virt tree tree' ∧ reach tree' r virt 0 ∧ ∀ k, room (n + k) vm r → room k vm' r
  else same vm vm' ∧ (map_guard s virt phys flags = false ∨ view vm r virt ≠ None ∨ ¬ room n vm r ∨ shared_region vm r virt).

Lemma map_4k_spec n vm tree r s virt phys flags :
  vmm_inv vm tree → spaces vm !! r = Some s → 0 ≤ virt < 2 ^ 64 → 0 ≤ phys → 0 ≤ flags < 2 ^ 64 → (pml4_physical s ≠ 0 → reach tree r virt n) → (n ≤ 3)%nat →
  ∃ vm' ok, vmm_space_map_4k kernel_start kernel_end vm (Some r) virt phys flags = Ret (vm', ok) ∧ map_post n vm tree r s virt phys flags vm' ok.
Proof.
  intros Hi Hs Hv Hph Hf Hreach Hn. unfold vmm_space_map_4k, deref, get_space. rewrite Hs. mred. destruct (map_guard s virt phys flags) eqn:Hg; unfold map_guard in Hg.
  2: { exists vm, false. split; [| split; [apply same_refl | by left]]. destruct (has virt _ || _ || _); [done |]. cbn [negb andb] in Hg. by destruct (pml4_physical s =? 0). }
  apply andb_true_iff in Hg as [Eg%negb_true_iff Hlive%negb_true_iff]. rewrite Eg, Hlive. apply Z.eqb_neq in Hlive. apply orb_false_iff in Eg as [Ea Eg%negb_false_iff].
  assert (Hg : map_guard s virt phys flags = true) by (unfold map_guard; rewrite Ea, Eg; cbn [negb orb andb]; by bfalse (pml4_physical s =? 0)).
  pose proof (vi_spaces _ _ Hi r s Hs) as Hso. destruct (flags_valid_spec _ _ _ _ _ Hso Hlive Hf Eg) as (Hfa & Hc & Hu). pose proof (table_pte_flags_ok r flags Hf Hu) as Htf. rewrite split_indices_spec by lia.
  assert (Hfail : ∀ cs vm1, trail r vm cs vm1 → view vm r virt ≠ None ∨ ¬ room n vm r ∨ shared_region vm r virt → ∃ vm' ok, (vm' ← rollback_created_tables vm1 r cs; Ret (vm', false)) = Ret (vm', ok) ∧ map_post n vm tree r s virt phys flags vm' ok).
  { intros cs vm1 Htr Hwhy. destruct (rollback_spec _ _ _ _ Htr) as (vm2 & -> & Hsm). mred. exists vm2, false. split; [done |]. split; [done | by right]. }
  destruct (descend_pd n vm tree r s virt _ Hi Hs Hlive Htf (Hreach Hlive) Hn) as (e4 & vm1 & pdpt & -> & -> & [(-> & Tr1 & Hwhy)|(Hq1 & e3 & vm2 & pd & c1 & E3 & N2 & Ec1 & D2)]); mred.
  { cbn [Z.eqb]. apply Hfail; [done |]. destruct Hwhy as [Hr|?]; [right; left; by intros Hr'%(room_le _ (n - 1)); [| lia] | by right; right]. }
  bfalse (pdpt =? 0). rewrite E3. mred. rewrite N2. mred. rewrite <- Ec1. destruct D2 as [(-> & Tr2 & Hr)|(Hq2 & t2 & s2 & e2 & Hi2 & Hs2 & Hn2 & Ext2 & E2 & Tr2 & (c2' & n2 & En2 & Hc2 & Hrn2 & Room2) & _)]; [cbn [Z.eqb]; apply Hfail; [done |]; right; left; by intros Hr'%(room_le _ (n - 1)); [| lia] |].
  bfalse (pd =? 0). set (c2 := c1 ++ _) in *. rewrite (pt_rd_ent _ _ _ _ E2). mred. assert (Hh : has e2 VMM_HUGE = large e2) by (by apply has_bit). rewrite Hh. destruct (large e2) eqn:Hlg.
  { apply Hfail; [done |]. left. rewrite <- (trail_view _ _ _ _ r virt Tr2). destruct (to_entry _ _ (vi_tree _ _ Hi2) _ _ _ _ Hn2 E2) as [Hleaf|[(_ & _ & ?) _]]; [| congruence].
    rewrite (way_view vm2 t2 pd r virt 2 e2 Hi2 Hn2 E2 Hleaf Hc). unfold shown. destruct Hleaf as [->|[-> _]]; [done |]. cbn. done. }
  destruct (descend n2 vm c2 vm2 t2 r s2 virt 2 pd _ e2 Hi2 Hn2 ltac:(lia) Hs2 Htf E2 Tr2 Hrn2 ltac:(lia)) as (vm3 & pt & -> & [(-> & Tr3 & Href)|(Hq3 & t3 & s3 & Hi3 & Hs3 & Hn3 & Ext3 & Tr3 & (c3' & n3 & En3 & Hc3 & _ & Room3) & Zero3 & _)]); mred.
  { cbn [Z.eqb]. apply Hfail; [done |]. right. left. intros Hr3. apply (stuck_room n2 vm2 t2 r virt 2 pd Hi2 Hn2) in Href as [Hno En]; [| right; split; [done |]; intros e He; congruence]. apply Hno, Room2. by apply (room_le n); [lia |]. }
  bfalse (pt =? 0). change (2 - 1) with 1 in Hn3. destruct (ent_some _ _ (vi_tree _ _ Hi3) _ _ (idx virt 1) Hn3 (idx_range _ _)) as [e1 E1]. rewrite (pt_rd_ent _ _ _ _ E1). mred. assert (Hpr : has e1 VMM_PRESENT = present e1) by (by apply has_bit). rewrite Hpr.
  destruct (present e1) eqn:Hp1.
  - destruct (present e2) eqn:Hp2; [| rewrite (Zero3 eq_refl _ (idx_range _ _)) in E1; injection E1 as <-; done]. assert (Hb2 : has e2 VMM_PRESENT = true) by (unfold VMM_PRESENT; by rewrite has_bit). rewrite Hb2 in Tr3. cbn [negb] in Tr3. rewrite app_nil_r in Tr3.
    apply Hfail; [done |]. left. rewrite <- (trail_view _ _ _ _ r virt Tr3). destruct (to_entry _ _ (vi_tree _ _ Hi3) _ _ _ _ Hn3 E1) as [Hleaf|[(_ & ? & _) _]]; [| cbn in *; lia].
    rewrite (way_view vm3 t3 pt r virt 1 e1 Hi3 Hn3 E1 Hleaf Hc). unfold shown. by rewrite Hp1.
  - rewrite (not_present _ _ _ _ _ Hi3 E1 Hp1) in E1. rewrite <- Z.lor_assoc. change (Z.lor (Z.land phys PTE_ADDR_MASK) (Z.lor (vmm_leaf_pte_flags flags) VMM_PRESENT)) with (leaf_word (addr phys) flags).
    destruct (write_page vm3 t3 r virt pt 0 (leaf_word (addr phys) flags)) as (vm4 & -> & Hi4 & [ts ->] & Hch); [done.. | apply leaf_word_ok; [done | apply addr_idem | by apply addr_range | done..] |]. mred.
    eexists _, true. split; [done |]. split; [done |]. split; [| split; [| split; [by apply (trail_cpus _ _ _ _ Tr3) |]]].
    + rewrite <- (trail_view _ _ _ _ r virt Tr3). rewrite (way_view vm3 t3 pt r virt 1 0 Hi3 Hn3 E1 ltac:(by left) Hc). done.
    + eapply changes_same; [| apply stats_same]. eapply changes_from; [intros r' v _; cbn [id]; by eapply trail_view | intros; by eapply trail_root |]. eapply changes_ext; [| exact Hch]. intros v. apply shown_page; [apply addr_idem | done].
    + exists t3. split; [by eapply same_inv; [apply stats_same |] |]. split; [by eapply grows_trans; [exact Ext2 | exact Ext3 | lia] |]. split; [by exists pt |]. intros k Hk. apply Room3, Room2. by apply (room_le (n + k)); [lia |].
Qed.

(** ** Splitting a large page *)

Lemma extended_same vm tree p n i q f vm1 vm2 : extended vm tree p n i q f vm1 → same vm1 vm2 → extended vm tree p n i q f vm2.
Proof.
  intros [[G1 G2 G3 G4 G5 G6 G7 G8 G9] (T1 & T2 & T3 & T4 & T5) (s & l & K1 & K2 & K3 & K4 & K5) [C1 C2]] [A1 A2 A3 A4 A5 A6]. split; [split; try done; intros *; rewrite ?A1; auto | | |].
  - split_and!; auto. intros x. by rewrite A4, T5.
  - exists s, l. by rewrite A2.
  - split; congruence.
Qed.

Lemma split_word e i : 0 ≤ e < 2 ^ 64 → 0 ≤ i < 512 →
  Z.lor (Z.lor (wrap64 (Z.land e PTE_ADDR_MASK + i * PAGE_SIZE)) (Z.land (Z.land e (lnot_w 64 PTE_ADDR_MASK)) (lnot_w 64 VMM_HUGE))) VMM_PRESENT = split_leaf e i.
Proof. intros He Hi. unfold split_leaf, split_flags. rewrite Z.lor_assoc. do 2 f_equal. apply wrap_small. change (Z.land e PTE_ADDR_MASK) with (addr e). pose proof (addr_range e ltac:(lia)). unfold PAGE_SIZE. lia. Qed.

(** The loop that fills the new table. *)
Lemma fill_spec vm q (f : Z → Z) : (∀ j, 0 ≤ j < 512 → ∃ e, ent vm q j = Some e) →
  ∃ vm', for_n (Z.to_nat PT_ENTRIES) 0 (λ i vm, pt_wr vm q i (f i)) vm = Ret vm' ∧ same_but_tables vm vm' ∧ (∀ x j, x ≠ q → ent vm' x j = ent vm x j) ∧ (∀ j, ent vm' q j = if (0 <=? j) && (j <? 512) then Some (f j) else ent vm q j).
Proof.
  intros Hq. destruct (for_n_inv (λ k vm', same_but_tables vm vm' ∧ (∀ x j, x ≠ q → ent vm' x j = ent vm x j) ∧ (∀ j, ent vm' q j = if (0 <=? j) && (j <? k) then Some (f j) else ent vm q j)) (λ i vm, pt_wr vm q i (f i)) (Z.to_nat PT_ENTRIES) 0 vm) as (vm' & E & Hsb & H1 & H2).
  - split_and!; [exists (tables vm); by destruct vm | done |]. intros j. destruct (Z.leb_spec 0 j), (Z.ltb_spec j 0); cbn; try done. lia.
  - intros k vm1 Hk ([ts ->] & H1 & H2). change (Z.of_nat (Z.to_nat PT_ENTRIES)) with 512 in Hk. destruct (Hq k ltac:(lia)) as [e He]. destruct (pt_wr_ent (vm <| tables := ts |>) q k e (f k)) as (vm2 & E2 & [ts2 ->] & H3 & H4); [rewrite H2; bfalse (k <? k); by rewrite andb_false_r |].
    eexists. split; [exact E2 |]. split_and!; [by exists ts2 | intros x j Hx; rewrite H4 by congruence; by apply H1 |]. intros j. destruct (decide (j = k)) as [->|Hne]; [rewrite H3; btrue (0 <=? k); by btrue (k <? k + 1) |].
    rewrite H4, H2 by congruence. destruct (Z.leb_spec 0 j), (Z.ltb_spec j k), (Z.ltb_spec j (k + 1)); cbn; try done; lia.
  - exists vm'. change (0 + Z.of_nat (Z.to_nat PT_ENTRIES)) with 512 in H2. done.
Qed.

Lemma split_spec vm tree pd n i e0 s :
  vmm_inv vm tree → tree pd = Some n → spaces vm !! n_owner n = Some s → ent vm pd i = Some e0 → present e0 = true → large e0 = true → n_level n = 2 →
  ∃ vm' ok, vmm_split_huge_pde_locked vm (n_owner n) pd i = Ret (vm', ok) ∧
    if ok : bool then ∃ q, extended vm tree pd n i q (split_leaf e0) vm' else same vm vm' ∧ ¬ room 1 vm (n_owner n).
Proof.
  intros Hi Hn Hs He Hpr Hlg Hl. pose proof (vi_tree _ _ Hi) as Ht. pose proof (ent_index _ _ Ht _ _ _ He) as Hidx. pose proof (ent_word _ _ Ht _ _ _ He) as Hw. destruct (to_addr _ _ Ht _ _ Hn) as [Hpd _].
  assert (Hlok : large_ok n e0). { destruct (to_entry _ _ Ht _ _ _ _ Hn He) as [[->|(_ & _ & [[? _]|[_ ?]])]|[(_ & _ & ?) _]]; [done | lia | done | congruence]. }
  unfold vmm_split_huge_pde_locked. bfalse (pd =? 0). change PT_ENTRIES with 512 at 1. bfalse (512 <=? i). cbn [orb]. rewrite (pt_rd_ent _ _ _ _ He). mred.
  assert (Hph : Z.land e0 (Z.lor VMM_PRESENT VMM_HUGE) = Z.lor VMM_PRESENT VMM_HUGE).
  { apply Z.bits_inj'. intros k Hk. unfold VMM_PRESENT, VMM_HUGE. rewrite Z.land_spec, !Z.lor_spec, !Z.pow2_bits_eqb by lia. destruct (Z.eqb_spec 0 k) as [<-|]; [by rewrite Hpr |]. destruct (Z.eqb_spec 7 k) as [<-|]; [by rewrite Hlg |]. apply andb_false_r. }
  rewrite Hph, Z.eqb_refl. cbn [negb]. destruct (alloc_table_spec vm tree (n_owner n) s Hi Hs) as (vm1 & q & -> & [(-> & Hsm & Hno)|(Htk & Htr & Hcp & _ & Hent)]); mred; [by exists vm1, false |].
  pose proof Htk as (Hq & Haq & Hnh & _). bfalse (q =? 0). assert (Hpq : pd ≠ q) by (intros ->; apply Hnh; by eapply vi_held).
  rewrite (for_n_ext _ _ _ (λ i vm, pt_wr vm q i (split_leaf e0 i))).
  2: { intros j vm' Hj. change (Z.of_nat (Z.to_nat PT_ENTRIES)) with 512 in Hj. by rewrite split_word by lia. }
  destruct (fill_spec vm1 q (split_leaf e0)) as (vm2 & -> & [ts ->] & F1 & F2).
  { intros j Hj. rewrite Hent, Z.eqb_refl. btrue (0 <=? j). btrue (j <? 512). by eexists. }
  mred. assert (Hpd1 : ent (vm1 <| tables := ts |>) pd i = Some e0) by (rewrite F1, Hent by done; by bfalse (pd =? q)).
  destruct (pt_wr_ent _ pd i e0 (table_word q e0) Hpd1) as (vm3 & E3 & [ts3 ->] & H3 & H4). unfold table_word in E3. rewrite !Z.lor_assoc. rewrite !Z.lor_assoc in E3. rewrite E3. mred. eexists _, true. split; [done |]. exists q. eapply extended_same; [| apply stats_same].
  pose proof Hlok as (_ & Hk & Hu & _). destruct (table_word_spec (n_owner n) q e0 n Hq Haq ltac:(lia)) as (W1 & W2 & W3 & W4); [by rewrite Hu, Hk | lia |]. split; [| done..]. split; [done | lia | | | done | | by eexists | |].
  - eexists. split; [done |]. intros (_ & _ & ?). congruence.
  - destruct (tree q) eqn:Eq; [| done]. exfalso. apply Hnh. by eapply vi_held.
  - intros x j Hx Hne. rewrite H4, F1, Hent by done. by bfalse (x =? q).
  - intros j. rewrite H4, F2 by congruence. destruct ((0 <=? j) && (j <? 512)) eqn:Ej; [done |]. by rewrite Hent, Z.eqb_refl, Ej.
  - intros j Hj. by apply split_leaf_ok.
Qed.

Lemma extended_split_view vm tree p0 n0 i0 q e0 vm' r v :
  vmm_inv vm tree → extended vm tree p0 n0 i0 q (split_leaf e0) vm' → ent vm p0 i0 = Some e0 → present e0 = true → large e0 = true → 0 ≤ v → plain <$> view vm' r v = plain <$> view vm r v.
Proof.
  intros Hi [Hg _ Htr _] H0 Hpr Hlg Hv. unfold view. rewrite (tracks_root _ _ _ _ r Htr). destruct (vmm_is_canonical v); [| done]. destruct (root vm r) as [p|] eqn:Ep; [| done]. cbn [mbind option_bind].
  eapply look_split; [apply Hi | done | done | done | done | by eapply root_node | done].
Qed.

(** ** The table of a page *)

Lemma next_look vm r p i e : ent vm p i = Some e → next_table vm r p i false 0 = Ret (vm, if present e && negb (large e) then addr e else 0).
Proof.
  intros He. unfold next_table. change (has 0 _) with false. rewrite (pt_rd_ent _ _ _ _ He). mred. change (has 0 VMM_USER) with false. unfold VMM_PRESENT, VMM_HUGE. rewrite !has_bit by lia.
  destruct (present e), (large e); done.
Qed.

(** Why there is no table with the page. *)
Definition unreachable vm (r virt : Z) : Prop := view vm r virt = None ∨ shared_region vm r virt ∨ r ≠ KERNEL ∧ vmm_is_user_range virt PAGE_SIZE = false.

Lemma absent_view vm tree p r v l : vmm_inv vm tree → tree p = Some (on_way r v l) → ent vm p (idx v l) = Some 0 → view vm r v = None.
Proof.
  intros Hi Hp He. destruct (vmm_is_canonical v) eqn:Hc; [| unfold view; by rewrite Hc]. by rewrite (way_view vm tree p r v l 0 Hi Hp He ltac:(by left) Hc).
Qed.

Lemma allows_user e : vmm_user_table_entry_allows_user e = present e && Z.testbit e 2 && negb (large e).
Proof. unfold vmm_user_table_entry_allows_user, VMM_PRESENT, VMM_USER, VMM_HUGE. by rewrite !has_bit. Qed.

Lemma path_user_spec vm tree r s virt :
  vmm_inv vm tree → spaces vm !! r = Some s → pml4_physical s ≠ 0 → r ≠ KERNEL → 0 ≤ virt →
  ∃ b, vmm_space_existing_path_is_user vm s virt = Ret b ∧
    if b : bool then ∃ e4, ent vm (pml4_physical s) (idx virt 4) = Some e4 ∧ Z.testbit e4 2 = true else unreachable vm r virt.
Proof.
  intros Hi Hs Hlive Hr Hv. destruct (so_root _ _ _ (vi_spaces _ _ Hi r s Hs) Hlive) as [Hroot Hu]. rewrite <- (way_top r virt) in Hroot. pose proof (vi_tree _ _ Hi) as Ht. assert (Hk : (r =? KERNEL) = false) by by apply Z.eqb_neq.
  assert (Hrt : root vm r = Some (pml4_physical s)) by (unfold root; rewrite Hs; by bfalse (pml4_physical s =? 0)).
  unfold vmm_space_existing_path_is_user. rewrite Hu, Hk. cbn [negb orb]. destruct (vmm_is_user_range virt PAGE_SIZE) eqn:Hur; cbn [negb]; [| exists false; split; [done |]; by right; right]. bfalse (pml4_physical s =? 0). rewrite split_indices_spec by done.
  destruct (ent_some _ _ Ht _ _ (idx virt 4) Hroot (idx_range _ _)) as [e4 E4]. rewrite (pt_rd_ent _ _ _ _ E4). mred. rewrite allows_user. destruct (present e4) eqn:P4; cbn [negb andb].
  2: { exists false. split; [done |]. left. rewrite (not_present _ _ _ _ _ Hi E4 P4) in E4. by eapply absent_view. }
  destruct (way_child vm tree _ r virt 4 e4 Hi Hroot ltac:(lia) E4 P4) as [(_ & ? & _)|[(L4 & H3 & U4)|(L4 & _ & _ & U4)]]; [done | |].
  2: { rewrite U4. exists false. split; [done |]. right. left. split; [done |]. eauto 6. }
  rewrite L4, U4, Hk. cbn [negb andb]. change (4 - 1) with 3 in H3. change (Z.land e4 PTE_ADDR_MASK) with (addr e4). destruct (ent_some _ _ Ht _ _ (idx virt 3) H3 (idx_range _ _)) as [e3 E3]. rewrite (pt_rd_ent _ _ _ _ E3). mred. rewrite allows_user.
  destruct (present e3) eqn:P3; cbn [negb andb]; [| exists false; split; [done |]; left; rewrite (not_present _ _ _ _ _ Hi E3 P3) in E3; by eapply absent_view].
  destruct (way_child vm tree _ r virt 3 e3 Hi H3 ltac:(lia) E3 P3) as [(_ & ? & _)|[(L3 & H2 & U3)|(_ & ? & _)]]; [done | | done]. rewrite L3, U3, Hk. cbn [negb andb]. change (3 - 1) with 2 in H2. change (Z.land e3 PTE_ADDR_MASK) with (addr e3).
  destruct (ent_some _ _ Ht _ _ (idx virt 2) H2 (idx_range _ _)) as [e2 E2]. rewrite (pt_rd_ent _ _ _ _ E2). mred. rewrite allows_user.
  destruct (present e2) eqn:P2; cbn [negb andb]; [| exists false; split; [done |]; left; rewrite (not_present _ _ _ _ _ Hi E2 P2) in E2; by eapply absent_view].
  destruct (way_child vm tree _ r virt 2 e2 Hi H2 ltac:(lia) E2 P2) as [(_ & _ & ?)|[(L2 & _ & U2)|(_ & ? & _)]]; [done | | done]. rewrite L2, U2, Hk. exists true. split; [done |]. exists e4. by rewrite U4, Hk.
Qed.

Lemma leaf_table_spec vm tree r s virt :
  vmm_inv vm tree → spaces vm !! r = Some s → 0 ≤ virt →
  ∃ vm' pt, leaf_table vm r s virt = Ret (vm', pt) ∧
    (pt = 0 ∧ same vm vm' ∧ (unreachable vm r virt ∨ r = KERNEL ∧ ¬ room 1 vm r) ∨
     0 < pt ∧ pml4_physical s ≠ 0 ∧ (∀ e, ent vm' pt (idx virt 1) = Some e → present e = false → vm' = vm) ∧
     ∃ tree' s', vmm_inv vm' tree' ∧ spaces vm' !! r = Some s' ∧ tree' pt = Some (on_way r virt 1) ∧ (∀ r, root vm' r = root vm r) ∧ ∀ r v, 0 ≤ v → plain <$> view vm' r v = plain <$> view vm r v).
Proof.
  intros Hi Hs Hv. unfold leaf_table. destruct (Z.eqb_spec (pml4_physical s) 0) as [Hdead|Hlive].
  { assert (Hno : unreachable vm r virt) by (left; unfold view, root; rewrite Hs, Hdead; by destruct (vmm_is_canonical virt)). unfold vmm_space_existing_path_is_user. rewrite Hdead. cbn [Z.eqb].
    destruct (user_space s); [destruct (vmm_is_user_range virt PAGE_SIZE) |]; cbn [negb orb]; mred; cbn [negb]; (exists vm, 0; split; [done |]; left; split_and!; [done | apply same_refl | by left]). }
  destruct (so_root _ _ _ (vi_spaces _ _ Hi r s Hs) Hlive) as [Hroot Hu]. rewrite <- (way_top r virt) in Hroot. pose proof (vi_tree _ _ Hi) as Ht.
  assert (Huser : ∃ b, (if user_space s then vmm_space_existing_path_is_user vm s virt else Ret true) = Ret b ∧ if b : bool then r = KERNEL ∨ ∃ e4, ent vm (pml4_physical s) (idx virt 4) = Some e4 ∧ Z.testbit e4 2 = true else unreachable vm r virt).
  { rewrite Hu. destruct (Z.eqb_spec r KERNEL) as [->|Hr]; cbn [negb]; [exists true; split; [done | by left] |]. destruct (path_user_spec vm tree r s virt Hi Hs Hlive Hr Hv) as (b & E & Hb). exists b. split; [done |]. destruct b; [by right | done]. }
  destruct Huser as (b & -> & Hb). mred. destruct b; cbn [negb]; [| exists vm, 0; split; [done |]; left; split_and!; [done | apply same_refl | by left]]. bfalse (pml4_physical s =? 0). rewrite split_indices_spec by done.
  assert (Hno : ∀ p l, tree p = Some (on_way r virt l) → ∀ e, ent vm p (idx virt l) = Some e → present e = false → ∃ vm' pt, Ret (vm, 0) = Ret (vm', pt) ∧
    (pt = 0 ∧ same vm vm' ∧ (unreachable vm r virt ∨ r = KERNEL ∧ ¬ room 1 vm r) ∨
     0 < pt ∧ pml4_physical s ≠ 0 ∧ (∀ e, ent vm' pt (idx virt 1) = Some e → present e = false → vm' = vm) ∧
     ∃ tree' s', vmm_inv vm' tree' ∧ spaces vm' !! r = Some s' ∧ tree' pt = Some (on_way r virt 1) ∧ (∀ r, root vm' r = root vm r) ∧ ∀ r v, 0 ≤ v → plain <$> view vm' r v = plain <$> view vm r v)).
  { intros p l Hp e He Hpr. exists vm, 0. split; [done |]. left. split_and!; [done | apply same_refl |]. do 2 left. rewrite (not_present _ _ _ _ _ Hi He Hpr) in He. by eapply absent_view. }
  destruct (ent_some _ _ Ht _ _ (idx virt 4) Hroot (idx_range _ _)) as [e4 E4]. rewrite (next_look _ _ _ _ _ E4). mred. destruct (present e4) eqn:P4; cbn [andb]; [| cbn [Z.eqb]; by eapply Hno].
  destruct (way_child vm tree _ r virt 4 e4 Hi Hroot ltac:(lia) E4 P4) as [(_ & ? & _)|[(L4 & H3 & U4)|(_ & _ & Hr & U4)]]; [done | | destruct Hb as [|(e & He & ?)]; congruence].
  rewrite L4. cbn [negb]. change (4 - 1) with 3 in H3. destruct (to_addr _ _ Ht _ _ H3) as [Hpos3 _]. bfalse (addr e4 =? 0).
  destruct (ent_some _ _ Ht _ _ (idx virt 3) H3 (idx_range _ _)) as [e3 E3]. rewrite (next_look _ _ _ _ _ E3). mred. destruct (present e3) eqn:P3; cbn [andb]; [| cbn [Z.eqb]; by eapply Hno].
  destruct (way_child vm tree _ r virt 3 e3 Hi H3 ltac:(lia) E3 P3) as [(_ & ? & _)|[(L3 & H2 & U3)|(_ & ? & _)]]; [done | | done]. rewrite L3. cbn [negb]. change (3 - 1) with 2 in H2. destruct (to_addr _ _ Ht _ _ H2) as [Hpos2 _]. bfalse (addr e3 =? 0).
  destruct (ent_some _ _ Ht _ _ (idx virt 2) H2 (idx_range _ _)) as [e2 E2]. rewrite (pt_rd_ent _ _ _ _ E2). mred. assert (Hh : has e2 VMM_HUGE = large e2) by by apply has_bit. rewrite Hh. destruct (large e2) eqn:L2; mred.
  - assert (P2 : present e2 = true). { destruct (present e2) eqn:P2; [done |]. by rewrite (not_present _ _ _ _ _ Hi E2 P2) in L2. }
    destruct (way_child vm tree _ r virt 2 e2 Hi H2 ltac:(lia) E2 P2) as [(_ & _ & Hk)|[(? & _)|(? & _)]]; [| congruence..]. rewrite Hu, Hk. cbn [negb Z.eqb KERNEL]. subst r.
    destruct (split_spec vm tree (addr e3) _ (idx virt 2) e2 s Hi H2 Hs E2 P2 L2 eq_refl) as (vm1 & ok & E & Hok). cbn [n_owner on_way] in E. rewrite E. mred. destruct ok; cbn [negb].
    2: { exists vm1, 0. split; [done |]. left. destruct Hok as [? ?]. split_and!; [done.. |]. by right. }
    destruct Hok as [q Hx]. pose proof (extended_inv _ _ _ _ _ _ _ _ Hi Hx) as Hi1. pose proof (ex_grown _ _ _ _ _ _ _ _ Hx) as Hg. destruct (gr_new _ _ _ _ _ _ _ _ Hg) as (e1 & He1 & (P1 & _ & L1) & Ha1 & _). rewrite (next_look _ _ _ _ _ He1), P1, L1, Ha1. cbn [negb andb].
    exists vm1, q. split; [done |]. right. destruct (gr_addr _ _ _ _ _ _ _ _ Hg) as [? _]. split; [done |]. split; [done |]. split.
    { intros e He Hp. rewrite (gr_table _ _ _ _ _ _ _ _ Hg) in He. pose proof (idx_range virt 1) as Hj. rewrite (proj2 (andb_true_iff _ _)) in He by lia. injection He as <-. destruct (to_entry _ _ Ht _ _ _ _ H2 E2) as [[->|(_ & Hw & [[? _]|[_ Hlok]])]|[(_ & _ & ?) _]]; [done | cbn in *; lia | | congruence].
      rewrite (split_leaf_present _ _ _ (proj1 Hw) Hlok Hj) in Hp. done. }
    pose proof (ex_tracks _ _ _ _ _ _ _ _ Hx) as (s0 & l0 & _ & _ & _ & _ & Es). cbn [n_owner on_way] in Es. eexists _, _.
    split; [exact Hi1 |]. split; [rewrite Es; apply lookup_insert_eq |]. split; [rewrite tins_eq; by rewrite place_way by lia |]. split; [intros r'; by eapply tracks_root, ex_tracks |]. intros r' v Hv'. by eapply extended_split_view.
  - cbn [negb]. rewrite (next_look _ _ _ _ _ E2), L2. destruct (present e2) eqn:P2; cbn [andb negb]; [| by eapply Hno]. destruct (way_child vm tree _ r virt 2 e2 Hi H2 ltac:(lia) E2 P2) as [(? & _)|[(_ & H1 & _)|(_ & ? & _)]]; [congruence | | done].
    eexists _, _. split; [done |]. right. destruct (to_addr _ _ Ht _ _ H1) as [? _]. split_and!; [done.. |]. exists tree, s. done.
Qed.

End mapping.
