(* ===== verification/VmmOps.v ===== *)
(** * The operations on address spaces

    Unmapping, protecting and remapping a page, large pages, the processors' part of an
    address space, and making and destroying spaces. *)

From Stdlib Require Import ZArith Lia String.
From stdpp Require Import prelude list_numbers fin_maps zmap.
From S2P Require Import Prelude Update Array Arith CString Printf Log Bootinfo Memory PageMap Vmm VmmTables VmmSpaces VmmMapping.

Local Open Scope Z_scope.

Section ops.
Context {M S : Type} `{FS : FrameSource M} `{CS : Cpus S}.

Implicit Types vm : vmm M S.

(** ** The processors *)

(** Spaces that differ in what the processors have seen. *)
Record quiet (s s' : vmm_space_t) : Prop := {
  q_root : pml4_physical s' = pml4_physical s;
  q_owned : owned_tables s' = owned_tables s;
  q_count : owned_count s' = owned_count s;
  q_user : user_space s' = user_space s;
  q_seen : zlen (tlb_seen_generation s') = zlen (tlb_seen_generation s);
}.

Record processors vm vm' (r : Z) : Prop := {
  pr_tables : tables vm' = tables vm;
  pr_source : source vm' = source vm;
  pr_spaces : ∃ s s', spaces vm !! r = Some s ∧ quiet s s' ∧ spaces vm' = <[r := s']> (spaces vm);
  pr_current : is_Some (spaces vm !! vmm_current_space_local vm) → is_Some (spaces vm !! vmm_current_space_local vm');
}.

Lemma processors_inv vm vm' r tree : processors vm vm' r → vmm_inv vm tree → vmm_inv vm' tree.
Proof.
  intros [P1 P2 (s & s' & Hs & [Q1 Q2 Q3 Q4 Q5] & E) P4] [I1 I2 I3 I4 I5 I6 I7]. assert (Hent : ∀ p i, ent vm' p i = ent vm p i) by (intros; unfold ent; by rewrite P1). split; rewrite ?P2; auto.
  - by eapply tree_ok_ext.
  - intros r' x. rewrite E. destruct (decide (r' = r)) as [->|]; [| rewrite lookup_insert_ne by done; apply I4]. rewrite lookup_insert_eq. intros [= <-]. destruct (I4 r s Hs) as [S1 S2 S3 S4]. split; rewrite ?Q1, ?Q2, ?Q3, ?Q4, ?Q5; auto.
  - intros p n Hn. rewrite E. apply insert_is_Some. eauto.
  - destruct I6 as (k & Hk & Hp). rewrite E. destruct (decide (r = KERNEL)) as [->|]; [rewrite lookup_insert_eq; eexists; split; [done |]; rewrite Q1; congruence | rewrite lookup_insert_ne by done; eauto].
  - rewrite E. apply insert_is_Some. auto.
Qed.

Lemma processors_root vm vm' r r' : processors vm vm' r → root vm' r' = root vm r'.
Proof. intros [_ _ (s & s' & Hs & [Q1 _ _ _ _] & E) _]. unfold root. rewrite E. destruct (decide (r' = r)) as [->|]; [by rewrite lookup_insert_eq, Hs, Q1 | by rewrite lookup_insert_ne]. Qed.

Lemma processors_view vm vm' r r' v : processors vm vm' r → view vm' r' v = view vm r' v.
Proof. intros Hp. apply view_ext; [intros; unfold ent; by rewrite (pr_tables _ _ _ Hp) | by apply (processors_root _ _ r)]. Qed.

Lemma note_seen_spec mask g seen : zlen seen = SMP_MAX_CPUS → ∃ seen', note_seen mask g seen = Ret seen' ∧ zlen seen' = SMP_MAX_CPUS.
Proof.
  intros Hs. unfold note_seen. destruct (for_n_inv (λ _ seen, zlen seen = SMP_MAX_CPUS) (λ cpu seen, if has mask (Z.shiftl 1 cpu) then wr seen cpu g else Ret seen) (Z.to_nat SMP_MAX_CPUS) 0 seen) as (seen' & E & H1); [done | | eauto].
  intros j t Hj Ht. change (Z.of_nat (Z.to_nat SMP_MAX_CPUS)) with 16 in Hj. destruct (has mask _); [| eauto]. rewrite wr_inbounds by (rewrite Ht; unfold SMP_MAX_CPUS; lia). eexists. split; [done |]. by rewrite zlen_insert.
Qed.

Lemma shootdown_spec vm tree r s virt len full ticks : vmm_inv vm tree → spaces vm !! r = Some s →
  ∃ vm' ok, vmm_space_tlb_shootdown vm (Some r) virt len full ticks = Ret (vm', ok) ∧ (vm' = vm ∨ processors vm vm' r).
Proof.
  intros Hi Hs. unfold vmm_space_tlb_shootdown, get_space. rewrite Hs. mred. destruct (pml4_physical s =? 0); [by eauto |].
  match goal with |- context [smp_tlb_shootdown_mask ?a ?b ?c ?d ?e ?f ?g] => pose proof (smp_shootdown_law a b c d e f g) as Hlaw; destruct (smp_tlb_shootdown_mask a b c d e f g) as [cs ok] end. cbn [fst] in Hlaw. pose proof (so_seen _ _ _ (vi_spaces _ _ Hi r s Hs)) as Hseen.
  assert (Hn : ∀ mask g, ∃ seen', (if ok then note_seen mask g (tlb_seen_generation s) else Ret (tlb_seen_generation s)) = Ret seen' ∧ zlen seen' = SMP_MAX_CPUS) by (intros; destruct ok; [by apply note_seen_spec | eauto]).
  match goal with |- context [note_seen ?m ?g _] => destruct (Hn m g) as (seen' & -> & Hz) end. mred. eexists _, _. split; [done |]. right. split; [done | done | |].
  - eexists s, _. split; [done |]. split; [| done]. split; [done.. |]. cbn. congruence.
  - unfold vmm_current_space_local. cbn. by rewrite Hlaw.
Qed.

Lemma mark_active_spec vm r s : spaces vm !! r = Some s → zlen (tlb_seen_generation s) = SMP_MAX_CPUS →
  ∃ s' c, quiet s s' ∧ vmm_mark_space_active_on_current_cpu vm r = Ret ((put_space vm r s') <| cpus := smp_set_current_cr3 (cpus vm) c |>).
Proof.
  intros Hs Hseen. unfold vmm_mark_space_active_on_current_cpu, get_space. rewrite Hs. mred. pose proof (smp_cpu_id_law (cpus vm)). set (cpu := if SMP_MAX_CPUS <=? _ then 0 else _).
  assert (0 ≤ cpu < 16) by (unfold cpu; destruct (Z.leb_spec SMP_MAX_CPUS (smp_current_cpu_id (cpus vm))); unfold SMP_MAX_CPUS in *; lia). rewrite wr_inbounds by (rewrite Hseen; unfold SMP_MAX_CPUS; lia). mred. eexists _, _. split; [| done].
  split; [done.. |]. cbn. by rewrite zlen_insert.
Qed.

(** The space that is current after [smp_set_current_address_space] and the store to [current_space_obj]. *)
Lemma current_set (vm : vmm M S) r sp c : vmm_current_space_local (vm <| spaces := sp |> <| cpus := smp_set_current_cr3 (smp_set_current_address_space (cpus vm) r) c |> <| current_space_obj := Some r |>) = r.
Proof.
  unfold vmm_current_space_local. cbn [cpus set_field current_space_obj]. rewrite smp_cr3_law. pose proof (smp_space_law (cpus vm) r) as Hl. apply list_elem_of_In in Hl. cbn in Hl. destruct Hl as [<-|[<-|[]]]; done.
Qed.

(** ** Unmapping, protecting, remapping *)

(** [f] makes leaves of leaves. *)
Definition leaf_map (r virt : Z) (f : Z → Z) : Prop := ∀ e, leaf_ok (on_way r virt 1) e → 0 ≤ e < 2 ^ 64 → present e = true → leaf_ok (on_way r virt 1) (f e).

Lemma update_leaf_spec vm tree r s virt f :
  vmm_inv vm tree → spaces vm !! r = Some s → 0 ≤ virt < 2 ^ 64 → vmm_is_canonical virt = true → (pml4_physical s ≠ 0 → leaf_map r virt f) →
  ∃ vm' ok, update_leaf vm r s virt f = Ret (vm', ok) ∧
    if ok : bool then ∃ tree' s' e, vmm_inv vm' tree' ∧ spaces vm' !! r = Some s' ∧ 0 ≤ e ∧ present e = true ∧ plain <$> view vm r virt = plain <$> shown (on_way r virt 1) e virt ∧
      changes (fmap plain) vm vm' r (same_page virt) (shown (on_way r virt 1) (f e))
    else same vm vm' ∧ (unreachable vm r virt ∨ r = KERNEL ∧ ¬ room 1 vm r).
Proof.
  intros Hi Hs Hv Hc Hf. unfold update_leaf. destruct (leaf_table_spec vm tree r s virt Hi Hs ltac:(lia)) as (vm1 & pt & -> & [(-> & Hsm & Hwhy)|(Hpt & Hlive & Hsplit & t1 & s1 & Hi1 & Hs1 & Hn1 & Hroots & Hview)]); mred.
  { cbn [Z.eqb]. by exists vm1, false. }
  bfalse (pt =? 0). rewrite split_indices_spec by lia. destruct (ent_some _ _ (vi_tree _ _ Hi1) _ _ (idx virt 1) Hn1 (idx_range _ _)) as [e E1]. rewrite (pt_rd_ent _ _ _ _ E1). mred. assert (Hpr : has e VMM_PRESENT = present e) by by apply has_bit. rewrite Hpr.
  assert (Hleaf : leaf_ok (on_way r virt 1) e) by (destruct (to_entry _ _ (vi_tree _ _ Hi1) _ _ _ _ Hn1 E1) as [|[(_ & ? & _) _]]; [done | cbn in *; lia]). pose proof (ent_word _ _ (vi_tree _ _ Hi1) _ _ _ E1) as Hw.
  pose proof (way_view vm1 t1 pt r virt 1 e Hi1 Hn1 E1 Hleaf Hc) as Hshown. destruct (present e) eqn:P; cbn [negb].
  - destruct (write_page vm1 t1 r virt pt e (f e)) as (vm2 & -> & Hi2 & [ts ->] & Hch); [done.. | by apply Hf |]. mred. eexists _, true. split; [done |]. exists t1, s1, e. split_and!; [done | done | lia | done | by rewrite <- Hshown, Hview by lia |].
    eapply changes_from; [exact Hview | done | by apply changes_weaken].
  - exists vm1, false. split; [done |]. rewrite (Hsplit e E1 P). split; [apply same_refl |]. left. left. specialize (Hview r virt ltac:(lia)). rewrite Hshown in Hview. unfold shown in Hview. rewrite P in Hview. cbn in Hview. by destruct (view vm r virt).
Qed.

(** Why a page could not be changed. *)
Definition cannot_update vm (r virt : Z) : Prop := unreachable vm r virt ∨ r = KERNEL ∧ ¬ room 1 vm r.

Lemma changes_processors φ vm vm1 vm2 r r0 hit t : changes φ vm vm1 r hit t → vm2 = vm1 ∨ processors vm1 vm2 r0 → changes φ vm vm2 r hit t.
Proof. intros Hc [->|Hp]; [done |]. destruct Hc as [C1 C2 C3 C4]. split; intros; rewrite ?(processors_view _ _ _ _ _ Hp), ?(processors_root _ _ _ _ Hp); auto. Qed.

(** An update of the page, then the shootdown. *)
Lemma update_then_flush vm tree r s virt f (g : vmm M S → vmm M S) :
  vmm_inv vm tree → spaces vm !! r = Some s → 0 ≤ virt < 2 ^ 64 → vmm_is_canonical virt = true → (pml4_physical s ≠ 0 → leaf_map r virt f) → (∀ vm, same vm (g vm)) →
  ∃ vm' ok, ('(vm, ok) ← update_leaf vm r s virt f; if negb ok then Ret (vm, false) else '(vm, _) ← vmm_space_tlb_shootdown (g vm) (Some r) virt PAGE_SIZE false 0; Ret (vm, true)) = Ret (vm', ok) ∧
    (∃ tree', vmm_inv vm' tree') ∧
    if ok : bool then ∃ e, 0 ≤ e ∧ present e = true ∧ plain <$> view vm r virt = plain <$> shown (on_way r virt 1) e virt ∧ changes (fmap plain) vm vm' r (same_page virt) (shown (on_way r virt 1) (f e))
    else same vm vm' ∧ cannot_update vm r virt.
Proof.
  intros Hi Hs Hv Hc Hf Hg. destruct (update_leaf_spec vm tree r s virt f Hi Hs Hv Hc Hf) as (vm1 & ok & -> & Hok). mred. destruct ok; cbn [negb].
  - destruct Hok as (t1 & s1 & e & Hi1 & Hs1 & He0 & Hpr & Hsh & Hch). pose proof (same_inv _ _ _ (Hg vm1) Hi1) as Hi2. destruct (shootdown_spec (g vm1) t1 r s1 virt PAGE_SIZE false 0 Hi2) as (vm3 & ok & -> & H3); [by rewrite (sm_spaces _ _ (Hg vm1)) |]. mred.
    eexists _, true. split; [done |]. split; [exists t1; destruct H3 as [->|H3]; [done | by eapply processors_inv] |]. exists e. split_and!; try done. eapply changes_processors; [| exact H3]. by eapply changes_same.
  - destruct Hok as [Hsm Hwhy]. exists vm1, false. split_and!; try done. exists tree. by eapply same_inv.
Qed.

Lemma shown_some r virt e : present e = true → plain <$> shown (on_way r virt 1) e virt = Some (addr e + Z.land virt (PAGE_SIZE - 1), Z.ldiff (Z.land e REPORTED) VMM_HUGE).
Proof. intros P. unfold shown. by rewrite P. Qed.

Lemma shown_view vm r virt e : present e = true → plain <$> view vm r virt = plain <$> shown (on_way r virt 1) e virt → ∃ fl, view vm r virt = Some (addr e + Z.land virt (PAGE_SIZE - 1), fl).
Proof. intros P. rewrite shown_some by done. destruct (view vm r virt) as [[a fl]|]; [| done]. intros [= -> _]. by exists fl. Qed.

Lemma unmap_4k_spec vm tree r s virt :
  vmm_inv vm tree → spaces vm !! r = Some s → 0 ≤ virt < 2 ^ 64 →
  ∃ vm' ok, vmm_space_unmap_4k vm (Some r) virt = Ret (vm', ok) ∧ (∃ tree', vmm_inv vm' tree') ∧
    if ok : bool then view vm r virt ≠ None ∧ changes (fmap plain) vm vm' r (same_page virt) (λ _, None)
    else same vm vm' ∧ (has virt (PAGE_SIZE - 1) = true ∨ vmm_is_canonical virt = false ∨ cannot_update vm r virt).
Proof.
  intros Hi Hs Hv. unfold vmm_space_unmap_4k. destruct (has virt _); cbn [orb]; [exists vm, false; split_and!; eauto using same_refl |]. destruct (vmm_is_canonical virt) eqn:Hc; cbn [negb]; [| exists vm, false; split_and!; eauto using same_refl].
  unfold get_space. rewrite Hs. mred. set (g := λ vm : vmm M S, if negb (mapped_4k_pages (stats vm) =? 0) then vm <| stats := (stats vm) <| mapped_4k_pages := mapped_4k_pages (stats vm) - 1 |> |> else vm).
  destruct (update_then_flush vm tree r s virt (λ _, 0) g Hi Hs Hv Hc) as (vm1 & ok & E & Hi1 & Hok); [by left | intros vm0; unfold g; destruct (negb _); [apply stats_same | apply same_refl] |].
  change (λ vm, _) with g in E. exists vm1, ok. split; [exact E |]. split; [done |]. destruct ok.
  - destruct Hok as (e & He & P & Hsh & Hch). split; [| done]. destruct (shown_view _ _ _ _ P Hsh) as [fl ->]. done.
  - destruct Hok as [? ?]. split; [done |]. by right; right.
Qed.

Lemma leaf_pte_mask flags : flags_allowed flags → Z.land (vmm_leaf_pte_flags flags) (lnot_w 64 PTE_ADDR_MASK) = vmm_leaf_pte_flags flags.
Proof.
  intros Hf. apply Z.bits_inj'. intros k Hk. rewrite Z.land_spec, lnot_w_testbit, mask_bit by done. pose proof (leaf_pte_range flags Hf) as Hr. pose proof (leaf_pte_addr flags Hf) as Ha. apply (f_equal (λ x, Z.testbit x k)) in Ha. rewrite addr_bit, Z.bits_0 in Ha by done.
  destruct (Z.testbit (vmm_leaf_pte_flags flags) k) eqn:E; [| done]. cbn [andb] in *. rewrite Ha. destruct (Z.ltb_spec k 64); [done |]. rewrite <- (Z.mod_small _ _ Hr), Z.mod_pow2_bits_high in E by lia. done.
Qed.

(** The words that [protect] and [remap] write. *)
Lemma update_word a flags : flags_allowed flags → Z.lor (Z.lor (Z.land a PTE_ADDR_MASK) (Z.land (vmm_leaf_pte_flags flags) (lnot_w 64 PTE_ADDR_MASK))) VMM_PRESENT = leaf_word (addr a) flags.
Proof. intros Hf. rewrite leaf_pte_mask, <- Z.lor_assoc by done. done. Qed.

Lemma update_word_map r virt flags (h : Z → Z) :
  flags_allowed flags → Z.testbit flags 2 = negb (r =? KERNEL) → (∀ e, 0 ≤ e → 0 ≤ h e) →
  leaf_map r virt (λ e, Z.lor (Z.lor (Z.land (h e) PTE_ADDR_MASK) (Z.land (vmm_leaf_pte_flags flags) (lnot_w 64 PTE_ADDR_MASK))) VMM_PRESENT).
Proof. intros Hf Hu Hh e _ He _. rewrite update_word by done. apply leaf_word_ok; [done | apply addr_idem | apply addr_range, Hh; lia | done..]. Qed.

Section image.
Context (kernel_start kernel_end : Z).

Lemma valid_flags_allowed s virt flags : 0 ≤ flags < 2 ^ 64 → vmm_leaf_flags_valid_for_space kernel_start kernel_end (Some s) virt flags = true → vmm_is_canonical virt = true ∧ flags_allowed flags.
Proof. intros Hf. unfold vmm_leaf_flags_valid_for_space, flags_allowed. destruct (has flags (lnot_w 64 _)); [done |]. by destruct (vmm_is_canonical virt). Qed.

Lemma protect_4k_spec vm tree r s virt flags :
  vmm_inv vm tree → spaces vm !! r = Some s → 0 ≤ virt < 2 ^ 64 → 0 ≤ flags < 2 ^ 64 →
  ∃ vm' ok, vmm_space_protect_4k kernel_start kernel_end vm (Some r) virt flags = Ret (vm', ok) ∧ (∃ tree', vmm_inv vm' tree') ∧
    if ok : bool then has virt (PAGE_SIZE - 1) = false ∧ vmm_leaf_flags_valid_for_space kernel_start kernel_end (Some s) virt flags = true ∧ ∃ a fl, view vm r virt = Some (a, fl) ∧ changes (fmap plain) vm vm' r (same_page virt) (page_at a flags)
    else same vm vm' ∧ (has virt (PAGE_SIZE - 1) = true ∨ vmm_leaf_flags_valid_for_space kernel_start kernel_end (Some s) virt flags = false ∨ cannot_update vm r virt).
Proof.
  intros Hi Hs Hv Hfl. unfold vmm_space_protect_4k, deref, get_space. rewrite Hs. mred. destruct (has virt _) eqn:Hal; cbn [orb]; [exists vm, false; split_and!; eauto using same_refl |].
  destruct (vmm_leaf_flags_valid_for_space _ _ _ virt flags) eqn:Hval; cbn [negb]; [| exists vm, false; split_and!; eauto using same_refl].
  destruct (valid_flags_allowed s virt flags Hfl Hval) as [Hc Hfa].
  match goal with |- context [update_leaf vm r s virt ?f] => destruct (update_then_flush vm tree r s virt f id Hi Hs Hv Hc) as (vm1 & ok & E & Hi1 & Hok) end; [| intros; apply same_refl |].
  { intros Hlive. destruct (flags_valid_spec _ _ _ _ _ _ _ (vi_spaces _ _ Hi r s Hs) Hlive Hfl Hval) as (_ & _ & Hu). by apply (update_word_map r virt flags id). }
  exists vm1, ok. split; [exact E |]. split; [done |]. destruct ok; [| destruct Hok as [? ?]; split; [done |]; by right; right]. destruct Hok as (e & He & P & Hsh & Hch). destruct (shown_view _ _ _ _ P Hsh) as [fl Hvw].
  assert (Hz : Z.land virt (PAGE_SIZE - 1) = 0) by (unfold has in Hal; by apply negb_false_iff, Z.eqb_eq in Hal). rewrite Hz, Z.add_0_r in Hvw. split; [done |]. split; [done |]. exists (addr e), fl. split; [done |]. eapply changes_ext; [| exact Hch]. intros v. rewrite update_word by done. apply shown_page; [apply addr_idem | done].
Qed.

Lemma remap_4k_spec vm tree r s virt phys flags :
  vmm_inv vm tree → spaces vm !! r = Some s → 0 ≤ virt < 2 ^ 64 → 0 ≤ phys → 0 ≤ flags < 2 ^ 64 →
  ∃ vm' ok, vmm_space_remap_4k kernel_start kernel_end vm (Some r) virt phys flags = Ret (vm', ok) ∧ (∃ tree', vmm_inv vm' tree') ∧
    if ok : bool then has virt (PAGE_SIZE - 1) = false ∧ vmm_leaf_flags_valid_for_space kernel_start kernel_end (Some s) virt flags = true ∧ view vm r virt ≠ None ∧ changes (fmap plain) vm vm' r (same_page virt) (page_at (addr phys) flags)
    else same vm vm' ∧ (has virt (PAGE_SIZE - 1) = true ∨ has phys (PAGE_SIZE - 1) = true ∨ vmm_leaf_flags_valid_for_space kernel_start kernel_end (Some s) virt flags = false ∨ cannot_update vm r virt).
Proof.
  intros Hi Hs Hv Hph Hfl. unfold vmm_space_remap_4k, deref, get_space. rewrite Hs. mred. destruct (has virt _) eqn:Hal; cbn [orb]; [exists vm, false; split_and!; eauto using same_refl |]. destruct (has phys _) eqn:Hal'; cbn [orb]; [exists vm, false; split_and!; eauto using same_refl |].
  destruct (vmm_leaf_flags_valid_for_space _ _ _ virt flags) eqn:Hval; cbn [negb]; [| exists vm, false; split_and!; eauto 6 using same_refl].
  destruct (valid_flags_allowed s virt flags Hfl Hval) as [Hc Hfa].
  match goal with |- context [update_leaf vm r s virt ?f] => destruct (update_then_flush vm tree r s virt f id Hi Hs Hv Hc) as (vm1 & ok & E & Hi1 & Hok) end; [| intros; apply same_refl |].
  { intros Hlive. destruct (flags_valid_spec _ _ _ _ _ _ _ (vi_spaces _ _ Hi r s Hs) Hlive Hfl Hval) as (_ & _ & Hu). by apply (update_word_map r virt flags (λ _, phys)). }
  exists vm1, ok. split; [exact E |]. split; [done |]. destruct ok; [| destruct Hok as [? ?]; split; [done |]; by right; right; right]. destruct Hok as (e & He & P & Hsh & Hch). destruct (shown_view _ _ _ _ P Hsh) as [fl ->]. split_and!; [done.. |].
  eapply changes_ext; [| exact Hch]. intros v. rewrite update_word by done. apply shown_page; [apply addr_idem | done].
Qed.

End image.

(** ** Large pages *)

Definition same_window (v v' : Z) : Prop := v / HUGE_SIZE = v' / HUGE_SIZE.

(** The large page at [a] with [flags]. *)
Definition window_at (a flags v : Z) : option (Z * Z) := Some (a + Z.land v (HUGE_SIZE - 1), Z.lor (shown_flags flags) VMM_HUGE).

Lemma canonical_window v virt : 0 ≤ v < 2 ^ 64 → 0 ≤ virt < 2 ^ 64 → vmm_is_canonical v = true → vmm_is_canonical virt = true → below (on_way KERNEL virt 2) (idx virt 2) v ↔ same_window virt v.
Proof.
  intros Hv Hv' Hc Hc'. unfold below, on_way, same_window. cbn [n_level n_prefix]. rewrite <- (pfx_step virt 2) by lia. unfold pfx, vpn, HUGE_SIZE. change (512 ^ (2 - 1)) with 512.
  revert Hc Hc'. unfold vmm_is_canonical, VMM_CANONICAL_LOW_TOP, VMM_CANONICAL_HIGH_BASE. rewrite !orb_true_iff, !Z.ltb_lt, !Z.leb_le. intros Hc Hc'. change (2 ^ 36) with (512 * 2 ^ 27). change (2 * 1024 * 1024) with (4096 * 512). rewrite <- !Z.div_div by lia.
  rewrite !Z.rem_mul_r by lia. rewrite !(Z.mul_comm 512), !Z.div_add, !(Z.div_small (_ mod 512)), !Z.add_0_l by (lia || apply Z.mod_pos_bound; lia).
  assert (Hw : ∀ x, 0 ≤ x < 2 ^ 64 → (x < 2 ^ 47 → 0 ≤ x / 4096 / 512 < 2 ^ 26) ∧ (2 ^ 64 - 2 ^ 47 ≤ x → 2 ^ 43 - 2 ^ 26 ≤ x / 4096 / 512 < 2 ^ 43)).
  { intros x Hx. pose proof (Z.div_mod x 4096 ltac:(lia)). pose proof (Z.mod_pos_bound x 4096 ltac:(lia)). pose proof (Z.div_mod (x / 4096) 512 ltac:(lia)). pose proof (Z.mod_pos_bound (x / 4096) 512 ltac:(lia)). lia. }
  pose proof (Hw v Hv). pose proof (Hw virt Hv'). set (a := v / 4096 / 512) in *. set (b := virt / 4096 / 512) in *. pose proof (Z.div_mod a (2 ^ 27) ltac:(lia)). pose proof (Z.mod_pos_bound a (2 ^ 27) ltac:(lia)). pose proof (Z.div_mod b (2 ^ 27) ltac:(lia)). pose proof (Z.mod_pos_bound b (2 ^ 27) ltac:(lia)).
  assert (v < 2 ^ 47 ∨ 2 ^ 64 - 2 ^ 47 ≤ v) by lia. assert (virt < 2 ^ 47 ∨ 2 ^ 64 - 2 ^ 47 ≤ virt) by lia. split; intros E; [| congruence]. assert (a / 2 ^ 27 = b / 2 ^ 27 ∨ a mod 2 ^ 27 ≠ b mod 2 ^ 27); lia.
Qed.

Lemma window_canonical v virt : 0 ≤ v < 2 ^ 64 → 0 ≤ virt < 2 ^ 64 → same_window virt v → vmm_is_canonical virt = true → vmm_is_canonical v = true.
Proof.
  intros Hv Hv'. unfold same_window, HUGE_SIZE, vmm_is_canonical, VMM_CANONICAL_LOW_TOP, VMM_CANONICAL_HIGH_BASE. rewrite !orb_true_iff, !Z.ltb_lt, !Z.leb_le. intros E Hc.
  pose proof (Z.div_mod v (2 * 1024 * 1024) ltac:(lia)). pose proof (Z.mod_pos_bound v (2 * 1024 * 1024) ltac:(lia)). pose proof (Z.div_mod virt (2 * 1024 * 1024) ltac:(lia)). pose proof (Z.mod_pos_bound virt (2 * 1024 * 1024) ltac:(lia)). lia.
Qed.

(** The guard of [vmm_map_2m]. *)
Definition large_guard (virt phys flags : Z) : bool :=
  negb (negb (vmm_is_canonical virt) || has flags VMM_USER || has flags VMM_GLOBAL || has flags VMM_COW || has flags (lnot_w 64 VMM_ALLOWED_LEAF_FLAGS) || has virt (HUGE_SIZE - 1) || has phys (HUGE_SIZE - 1)).

Definition large_word (phys flags : Z) : Z := Z.lor (leaf_word (addr phys) flags) VMM_HUGE.

Lemma large_word_bit phys flags k : flags_allowed flags → 0 ≤ k < 12 ∨ 52 ≤ k → k ≠ 3 → k ≠ 10 → Z.testbit (large_word phys flags) k = Z.testbit flags k || (k =? 0) || (k =? 7).
Proof. intros Hf Hk H3 H10. unfold large_word, VMM_HUGE. rewrite Z.lor_spec, leaf_word_bit, Z.pow2_bits_eqb by (done || lia || apply addr_idem). by rewrite (Z.eqb_sym 7). Qed.

Lemma large_word_addr phys flags : flags_allowed flags → addr (large_word phys flags) = addr phys.
Proof. intros Hf. unfold large_word. unfold addr at 1. rewrite Z.land_lor_distr_l. change (Z.land VMM_HUGE PTE_ADDR_MASK) with 0. rewrite Z.lor_0_r. apply leaf_word_addr; [apply addr_idem | done]. Qed.

Lemma addr_huge phys : 0 ≤ phys → has phys (HUGE_SIZE - 1) = false → addr phys mod HUGE_SIZE = 0.
Proof.
  intros Hp. unfold has. intros E%negb_false_iff%Z.eqb_eq. change HUGE_SIZE with (2 ^ 21) in *. change (2 ^ 21 - 1) with (Z.ones 21) in E. rewrite Z.land_ones in E by lia. rewrite <- Z.land_ones by lia. apply Z.bits_inj'. intros k Hk. rewrite Z.land_spec, Z.bits_0, addr_bit by done.
  destruct (Z.testbit (Z.ones 21) k) eqn:Eo; [| apply andb_false_r]. apply Z.ones_spec_iff in Eo; [| lia]. rewrite <- (Z.mod_pow2_bits_low phys 21 k) by lia. by rewrite E, Z.bits_0.
Qed.

Lemma large_word_ok virt phys flags : 0 ≤ phys → flags_allowed flags → large_guard virt phys flags = true → leaf_ok (on_way KERNEL virt 2) (large_word phys flags).
Proof.
  intros Hp Hf Hg. unfold large_guard in Hg. apply negb_true_iff in Hg. rewrite !orb_false_iff in Hg. destruct Hg as ((((((_ & Hu) & Hgl) & Hcow) & _) & _) & Hal). unfold VMM_USER, VMM_GLOBAL, VMM_COW in *. rewrite has_bit in Hu, Hgl, Hcow by lia.
  assert (Hno : ∀ k, k ∈ [5; 6] → Z.testbit flags k = false). { intros k Hk. destruct (Z.testbit flags k) eqn:E; [| done]. apply list_elem_of_In in Hk. cbn in Hk. apply flags_allowed_bit in E; [| done | lia]. apply list_elem_of_In in E. cbn in E. lia. }
  right. rewrite !large_word_bit by (done || lia). split; [by rewrite orb_true_r |]. split.
  { unfold large_word. apply lor_range; [lia | | done]. apply leaf_word_range; [apply addr_idem | by apply addr_range | done]. }
  right. split; [apply orb_true_r |]. split_and!; [done | done | rewrite large_word_bit by (done || lia); by rewrite Hu | | rewrite large_word_addr by done; by apply addr_huge].
  intros k Hk. apply list_elem_of_In in Hk. cbn in Hk. rewrite large_word_bit by (done || lia). destruct Hk as [<-|[<-|[<-|[<-|[]]]]]; rewrite ?Hgl, ?Hcow, ?Hno; try done; apply list_elem_of_In; cbn; lia.
Qed.

Lemma shown_window virt phys flags v : flags_allowed flags → shown (on_way KERNEL virt 2) (large_word phys flags) v = window_at (addr phys) flags v.
Proof.
  intros Hf. unfold shown, window_at. rewrite large_word_bit, orb_true_r by (done || lia). cbn [negb n_level on_way]. bfalse (2 =? 1). rewrite large_word_addr by done. unfold large_word. rewrite Z.land_lor_distr_l, leaf_word_reported by (done || apply addr_idem). by rewrite (Z.lor_0_r (shown_flags flags) : Z.lor _ (Z.land VMM_HUGE REPORTED) = _).
Qed.

(** What [vmm_map_2m] leaves behind where [n] tables are missing. *)
Definition map_2m_post (n : nat) vm (tree : Z → option node) (virt phys flags : Z) vm' (ok : bool) : Prop :=
  if ok then large_guard virt phys flags = true ∧ (∀ v, 0 ≤ v < 2 ^ 64 → same_window virt v → view vm KERNEL v = None) ∧ changes id vm vm' KERNEL (same_window virt) (window_at (addr phys) flags) ∧
    ∃ tree', vmm_inv vm' tree' ∧ grows 2 KERNEL virt tree tree' ∧ reach tree' KERNEL virt 1 ∧ ∀ k, room (n + k) vm KERNEL → room k vm' KERNEL
  else same vm vm' ∧ (large_guard virt phys flags = false ∨ ¬ room n vm KERNEL ∨ ∃ pd e, tree pd = Some (on_way KERNEL virt 2) ∧ ent vm pd (idx virt 2) = Some e ∧ present e = true).

Lemma map_2m_spec n vm tree virt phys flags :
  vmm_inv vm tree → 0 ≤ virt < 2 ^ 64 → 0 ≤ phys → 0 ≤ flags < 2 ^ 64 → reach tree KERNEL virt (Datatypes.S n) → (n ≤ 2)%nat →
  ∃ vm' ok, vmm_map_2m vm virt phys flags = Ret (vm', ok) ∧ map_2m_post n vm tree virt phys flags vm' ok.
Proof.
  intros Hi Hv Hph Hfl Hreach Hn. unfold vmm_map_2m. destruct (large_guard virt phys flags) eqn:Hg; pose proof Hg as Eg; unfold large_guard in Eg; [apply negb_true_iff in Eg | apply negb_false_iff in Eg]; rewrite Eg; [| exists vm, false; split; [done | split; [apply same_refl | by left]]].
  assert (Hfa : flags_allowed flags ∧ vmm_is_canonical virt = true ∧ Z.testbit flags 2 = false).
  { rewrite !orb_false_iff in Eg. destruct Eg as ((((((Hc & Hu) & _) & _) & Ha) & _) & _). split_and!; [by split | by apply negb_false_iff | rewrite <- (has_bit flags 2) by lia; exact Hu]. }
  destruct Hfa as (Hfa & Hc & Hu). assert (Hword : leaf_ok (on_way KERNEL virt 2) (large_word phys flags)) by (apply large_word_ok; [done.. |]; unfold large_guard; by rewrite Eg). clear Eg.
  destruct (vi_kernel _ _ Hi) as (s & Hs & Hlive). unfold get_space. rewrite Hs. mred. bfalse (pml4_physical s =? 0). pose proof (table_pte_flags_ok KERNEL flags Hfl Hu) as Htf. rewrite split_indices_spec by lia.
  assert (Hfail : ∀ cs vm1, trail KERNEL vm cs vm1 → (¬ room n vm KERNEL ∨ ∃ pd e, tree pd = Some (on_way KERNEL virt 2) ∧ ent vm pd (idx virt 2) = Some e ∧ present e = true) →
    ∃ vm' ok, (vm' ← rollback_created_tables vm1 KERNEL cs; Ret (vm', false)) = Ret (vm', ok) ∧ map_2m_post n vm tree virt phys flags vm' ok).
  { intros cs vm1 Htr Hwhy. destruct (rollback_spec _ _ _ _ Htr) as (vm2 & -> & Hsm). mred. exists vm2, false. split; [done |]. split; [done | by right]. }
  destruct (descend_pd (Datatypes.S n) vm tree KERNEL s virt _ Hi Hs Hlive Htf Hreach ltac:(lia)) as (e4 & vm1 & pdpt & -> & -> & [(-> & Tr1 & Hwhy)|(Hq1 & e3 & vm2 & pd & c1 & E3 & N2 & Ec1 & D2)]); mred.
  { cbn [Z.eqb]. apply Hfail; [done |]. left. destruct Hwhy as [Hr|[? _]]; [| done]. by replace (Datatypes.S n - 1)%nat with n in Hr by lia. }
  bfalse (pdpt =? 0). rewrite E3. mred. rewrite N2. mred. rewrite <- Ec1. destruct D2 as [(-> & Tr2 & Hr)|(Hq2 & t2 & s2 & e2 & Hi2 & Hs2 & Hn2 & Ext2 & E2 & Tr2 & (c & n2 & En2 & Hcn & Hrn2 & Room2) & Old)].
  { cbn [Z.eqb]. apply Hfail; [done |]. left. by replace (Datatypes.S n - 1)%nat with n in Hr by lia. }
  bfalse (pd =? 0). rewrite (pt_rd_ent _ _ _ _ E2). mred. assert (Hh : has e2 VMM_PRESENT = present e2) by by apply has_bit. rewrite Hh.
  destruct (present e2) eqn:P2.
  - destruct (Old eq_refl) as (Hb & -> & ->). rewrite Hb in Tr2. cbn [negb] in Tr2. rewrite app_nil_r in Tr2.
    apply Hfail; [done |]. right. eauto.
  - rewrite (not_present _ _ _ _ _ Hi2 E2 P2) in E2. change (Z.lor (Z.lor (Z.lor (Z.land phys PTE_ADDR_MASK) (vmm_leaf_pte_flags flags)) VMM_PRESENT) VMM_HUGE) with (Z.lor (Z.lor (Z.lor (addr phys) (vmm_leaf_pte_flags flags)) VMM_PRESENT) VMM_HUGE). rewrite <- (Z.lor_assoc (addr phys)).
    change (Z.lor (Z.lor (addr phys) (Z.lor (vmm_leaf_pte_flags flags) VMM_PRESENT)) VMM_HUGE) with (large_word phys flags).
    destruct (write_leaf vm2 t2 pd (on_way KERNEL virt 2) (idx virt 2) 0 (large_word phys flags)) as (vm3 & -> & Hi3 & Hsb & Hhere & Hrest & Helse); [done.. | by intros (? & _) | done |]. mred. cbn [n_owner on_way] in *.
    eexists _, true. split; [done |]. split; [done |]. split; [| split].
    + intros v Hv' Hw. rewrite <- (trail_view _ _ _ _ KERNEL v Tr2). assert (Hc' : vmm_is_canonical v = true) by by apply (window_canonical v virt). destruct (owner_root _ _ _ _ Hi2 Hn2) as (rt & Hrt & Hnrt). cbn [n_owner on_way] in Hrt, Hnrt. unfold view. rewrite Hc', Hrt. cbn [mbind option_bind].
      rewrite (look_leaf _ _ (vi_tree _ _ Hi2) rt pd (on_way KERNEL virt 2) (idx virt 2) 0 v Hnrt Hn2 E2 ltac:(by left)); [done |]. by apply canonical_window.
    + eapply changes_same; [| apply stats_same]. eapply changes_from; [intros r' v _; cbn [id]; by eapply trail_view | intros; by eapply trail_root |]. split.
      * intros v Hv' Hw. assert (Hc' : vmm_is_canonical v = true) by by apply (window_canonical v virt). rewrite Hhere by (done || by apply canonical_window). by apply shown_window.
      * intros v Hv' Hw. cbn [id]. destruct (vmm_is_canonical v) eqn:Hc'; [| unfold view; by rewrite Hc']. apply Hrest. by rewrite canonical_window.
      * intros r' v _ Hr'. by apply Helse.
      * by destruct Hsb as [ts ->].
    + destruct Hsb as [ts ->]. exists t2. split; [by eapply same_inv; [apply stats_same |] |]. split; [done |]. split; [by exists pd |]. intros k Hk. apply Room2. by apply (room_le (n + k)); [lia |].
Qed.

(** ** Making a space *)

Lemma kernel_entry vm tree rt i e : vmm_inv vm tree → tree rt = Some (mk_node KERNEL 4 0) → ent vm rt i = Some e → Z.land e (lnot_w 64 VMM_USER) = e.
Proof.
  intros Hi Hrt He. pose proof (vi_tree _ _ Hi) as Ht. pose proof (ent_word _ _ Ht _ _ _ He) as Hw. destruct (to_entry _ _ Ht _ _ _ _ Hrt He) as [[->|(_ & _ & [[? _]|[_ [? _]]])]|[Hte _]]; [done.. |].
  destruct (to_link _ _ Ht _ _ _ _ Hrt He Hte) as (n' & Hn' & _ & _ & (_ & _ & Hu) & Ho'). cbn in Ho'. assert (n_owner n' = KERNEL) as Hk by (by destruct Ho' as [|[_ ?]]). rewrite Hk in Hu. change (negb (KERNEL =? KERNEL)) with false in Hu.
  apply Z.bits_inj'. intros k Hk0. rewrite Z.land_spec, lnot_w_testbit by (done || lia). unfold VMM_USER. rewrite Z.pow2_bits_eqb by lia. destruct (Z.eqb_spec 2 k) as [<-|]; [by rewrite Hu |]. destruct (Z.ltb_spec k 64); [apply andb_true_r |].
  rewrite <- (Z.mod_small e (2 ^ 64)), Z.mod_pow2_bits_high by lia. done.
Qed.

(** The loop that copies the root of the kernel. *)
Lemma copy_root_spec vm tree rt q :
  vmm_inv vm tree → tree rt = Some (mk_node KERNEL 4 0) → tree q = None → ∀ vm1, (∀ x j, ent vm1 x j = if x =? q then (if (0 <=? j) && (j <? 512) then Some 0 else None) else ent vm x j) →
  ∃ vm', for_n (Z.to_nat PT_ENTRIES) 0 (λ i vm, e ← pt_rd vm rt i; pt_wr vm q i (Z.land e (lnot_w 64 VMM_USER))) vm1 = Ret vm' ∧ same_but_tables vm1 vm' ∧ (∀ x j, ent vm' x j = if x =? q then ent vm rt j else ent vm x j).
Proof.
  intros Hi Hrt Hq vm1 H1. pose proof (vi_tree _ _ Hi) as Ht. assert (Hne : rt ≠ q) by congruence.
  destruct (for_n_inv (λ k vm', same_but_tables vm1 vm' ∧ (∀ x j, x ≠ q → ent vm' x j = ent vm x j) ∧ (∀ j, ent vm' q j = if (0 <=? j) && (j <? k) then ent vm rt j else ent vm1 q j))
    (λ i vm, e ← pt_rd vm rt i; pt_wr vm q i (Z.land e (lnot_w 64 VMM_USER))) (Z.to_nat PT_ENTRIES) 0 vm1) as (vm' & E & Hsb & F1 & F2).
  - split_and!; [exists (tables vm1); by destruct vm1 | intros x j Hx; rewrite H1; by bfalse (x =? q) |]. intros j. destruct (Z.leb_spec 0 j), (Z.ltb_spec j 0); cbn; try done. lia.
  - intros k vm2 Hk ([ts ->] & F1 & F2). change (Z.of_nat (Z.to_nat PT_ENTRIES)) with 512 in Hk. destruct (ent_some _ _ Ht _ _ k Hrt ltac:(lia)) as [e He]. rewrite (pt_rd_ent _ rt k e) by (by rewrite F1). mred. rewrite (kernel_entry vm tree rt k e) by done.
    destruct (pt_wr_ent (vm1 <| tables := ts |>) q k 0 e) as (vm3 & E3 & [ts3 ->] & H3 & H4); [rewrite F2, H1, Z.eqb_refl; bfalse (k <? k); rewrite andb_false_r; btrue (0 <=? k); by btrue (k <? 512) |].
    eexists. split; [exact E3 |]. split_and!; [by exists ts3 | intros x j Hx; rewrite H4 by congruence; by apply F1 |]. intros j. destruct (decide (j = k)) as [->|Hjk]; [rewrite H3; btrue (0 <=? k); by btrue (k <? k + 1) |].
    rewrite H4, F2 by congruence. destruct (Z.leb_spec 0 j), (Z.ltb_spec j k), (Z.ltb_spec j (k + 1)); cbn; try done; lia.
  - exists vm'. split; [done |]. split; [done |]. intros x j. destruct (Z.eqb_spec x q) as [->|Hx]; [| by apply F1]. rewrite F2. change (0 + Z.of_nat (Z.to_nat PT_ENTRIES)) with 512. destruct ((0 <=? j) && (j <? 512)) eqn:Ej; [done |].
    rewrite H1, Z.eqb_refl, Ej. destruct (ent vm rt j) eqn:Er; [| done]. apply (ent_index _ _ Ht) in Er. lia.
Qed.

(** A space without tables. *)
Lemma no_tables vm tree r p n : vmm_inv vm tree → root vm r = None → tree p = Some n → n_owner n ≠ r.
Proof. intros Hi Hr Hn Ho. destruct (owner_root _ _ _ _ Hi Hn) as (rt & E & _). congruence. Qed.

Lemma dead_space_ok tree r u : (∀ p n, tree p = Some n → n_owner n ≠ r) → space_ok tree r (zero_space <| user_space := u |>).
Proof.
  intros Hno. split; [| done..]. exists []. split_and!; [done | done | cbn; lia | constructor |]. intros p. split; [by intros ?%not_elem_of_nil | intros (n & Hn & Ho); by destruct (Hno p n)].
Qed.

Lemma put_dead_inv vm tree r s : vmm_inv vm tree → r ≠ KERNEL → space_ok tree r s → vmm_inv (put_space vm r s) tree.
Proof.
  intros [I1 I2 I3 I4 I5 I6 I7] Hr Hs. split; try done; cbn [put_space spaces set_field source].
  - intros r' x. destruct (decide (r' = r)) as [->|]; [rewrite lookup_insert_eq; by intros [= <-] | rewrite lookup_insert_ne by done; apply I4].
  - intros p n Hn. apply insert_is_Some. eauto.
  - destruct I6 as (k & Hk & Hp). exists k. by rewrite lookup_insert_ne.
  - apply insert_is_Some, I7.
Qed.

Lemma put_dead_view vm r s r' v : root vm r = None → pml4_physical s = 0 → view (put_space vm r s) r' v = view vm r' v.
Proof.
  intros Hr Hs. apply view_ext; [done |]. unfold root in *. cbn [put_space spaces set_field]. destruct (decide (r' = r)) as [->|]; [rewrite lookup_insert_eq, Hs; done | by rewrite lookup_insert_ne].
Qed.

Lemma tracked_root_ok tree r q :
  (∀ p n, tree p = Some n → n_owner n ≠ r) → q ≠ 0 → r ≠ KERNEL → space_ok (tins q (mk_node r 4 0) tree) r (tracked (zero_space <| user_space := true |> <| pml4_physical := q |>) [q]).
Proof.
  intros Hno Hq Hr. split; [| done | | done].
  - exists [q]. split_and!; [done | done | cbn; lia | apply NoDup_singleton |]. intros p. rewrite list_elem_of_singleton. split.
    + intros ->. rewrite tins_eq. by eexists.
    + intros (n & [[-> _]|[_ Hn]]%tins_inv & Ho); [done | by destruct (Hno p n)].
  - intros _. cbn. rewrite tins_eq. split; [done |]. by rewrite (proj2 (Z.eqb_neq r KERNEL) Hr).
Qed.

Lemma tins_space_ok tree q n r s : tree q = None → n_owner n ≠ r → space_ok tree r s → space_ok (tins q n tree) r s.
Proof.
  intros Hq Ho [(l & E1 & E2 & E3 & E4 & E5) S2 S3 S4]. split; [| done | | done].
  - exists l. split_and!; try done. intros p. rewrite E5. split; intros (m & Hm & Hom); exists m; (split; [| done]); [rewrite tins_ne; [done | congruence] |]. apply tins_inv in Hm as [[-> ->]|[_ Hm]]; [congruence | done].
  - intros Hp. destruct (S3 Hp) as [Hr Hu]. split; [| done]. rewrite tins_ne; [done | congruence].
Qed.

(** The new space sees what the kernel sees. *)
Lemma create_user_spec vm tree r :
  vmm_inv vm tree → r ≠ KERNEL → root vm r = None →
  ∃ vm' ok, vmm_space_create_user vm (Some r) = Ret (vm', ok) ∧ (∃ tree', vmm_inv vm' tree') ∧ is_Some (spaces vm' !! r) ∧ (∀ r', r' ≠ r → root vm' r' = root vm r' ∧ ∀ v, view vm' r' v = view vm r' v) ∧
    if ok : bool then root vm' r ≠ None ∧ ∀ v, view vm' r v = view vm KERNEL v else root vm' r = None ∧ ¬ enough 1 (source vm).
Proof.
  intros Hi Hr Hdead. pose proof (vi_tree _ _ Hi) as Ht. destruct (vi_kernel _ _ Hi) as (k & Hk & Hkl). destruct (so_root _ _ _ (vi_spaces _ _ Hi _ k Hk) Hkl) as [Hkr _]. unfold vmm_space_create_user, get_space. rewrite Hk. mred. bfalse (pml4_physical k =? 0).
  set (s := zero_space <| user_space := true |>). assert (Hno : ∀ p n, tree p = Some n → n_owner n ≠ r) by (intros p n; by eapply no_tables). pose proof (put_dead_inv vm tree r s Hi Hr (dead_space_ok tree r true Hno)) as Hi1.
  cbn [source put_space set_field]. destruct (alloc_page_law (source vm) VMM_KERNEL_DIRECT_LIMIT (vi_frames _ _ Hi) ltac:(done)) as (m & q & Ea & Hf & Hq). rewrite Ea. mred. destruct Hq as [[-> Hh]|(Hq0 & Hqm & Hql & Hnh & Hh)].
  { cbn [Z.eqb]. eexists _, false. split; [done |]. split; [exists tree; eapply same_inv; [| exact Hi1]; by split |]. split; [cbn; rewrite lookup_insert_eq; by eexists |]. split; [intros r' Hr'; split; [unfold root; cbn; by rewrite lookup_insert_ne | intros v; exact (put_dead_view vm r s r' v Hdead eq_refl)] |].
    split; [unfold root; cbn; by rewrite lookup_insert_eq |]. intros (m' & p & Ea' & Hp & _). rewrite Ea in Ea'. by injection Ea' as _ <-. }
  bfalse (q =? 0). pose proof (table_addr q Hq0 Hqm Hql) as Haq. assert (Hqt : tree q = None) by (destruct (tree q) eqn:Eq; [| done]; exfalso; apply Hnh; by eapply vi_held).
  match goal with |- context [for_n _ _ _ ?x] => set (vm1 := x) end. destruct (copy_root_spec vm tree (pml4_physical k) q Hi Hkr Hqt vm1) as (vm2 & E2 & [ts ->] & H2); [intros x j; by apply ent_new |]. rewrite E2. mred.
  unfold track_table. bfalse (q =? 0). unfold get_space. cbn [spaces put_space set_field vm1]. rewrite lookup_insert_eq. mred. change (wr _ _ q) with (wr (padded []) (zlen (@nil Z)) q). rewrite padded_wr by (cbn; lia). mred. cbn [negb].
  eexists _, true. split; [done |]. match goal with |- context [vmm_inv ?x _] => set (vm3 := x) end. assert (Hsp : spaces vm3 = <[r := tracked (s <| pml4_physical := q |>) [q]]> (spaces vm)) by (subst vm3 vm1; cbn; by rewrite !insert_insert_eq).
  assert (Hent : ∀ x j, ent vm3 x j = if x =? q then ent vm (pml4_physical k) j else ent vm x j) by (intros; rewrite <- H2; done). assert (Hsrc : source vm3 = m) by done. assert (Hcur : vmm_current_space_local vm3 = vmm_current_space_local vm) by done. clearbody vm3. clear E2 H2 vm1 ts.
  assert (Hother : ∀ x j, x ≠ q → ent vm3 x j = ent vm x j) by (intros x j Hx; rewrite Hent; by bfalse (x =? q)). assert (Hcopy : ∀ j, ent vm3 q j = ent vm (pml4_physical k) j) by (intros j; by rewrite Hent, Z.eqb_refl).
  split; [exists (tins q (mk_node r 4 0) tree); split |].
  - by eapply tree_root.
  - by rewrite Hsrc.
  - intros p n. rewrite Hsrc, Hh. intros [[-> _]|[_ Hn]]%tins_inv; [by right | left; by eapply vi_held].
  - intros r' x. rewrite Hsp. destruct (decide (r' = r)) as [->|]; [rewrite lookup_insert_eq; intros [= <-]; by apply tracked_root_ok; [| lia |] | rewrite lookup_insert_ne by done; intros Hx; apply tins_space_ok; [done | cbn; congruence | by apply (vi_spaces _ _ Hi)]].
  - intros p n Hn. rewrite Hsp. apply tins_inv in Hn as [[-> ->]|[_ Hn]]; [cbn; rewrite lookup_insert_eq; by eexists | by eapply insert_is_Some, vi_owners].
  - exists k. by rewrite Hsp, lookup_insert_ne.
  - rewrite Hcur, Hsp. apply insert_is_Some, Hi.
  - assert (Hroots : ∀ r', r' ≠ r → root vm3 r' = root vm r') by (intros r' Hr'; unfold root; by rewrite Hsp, lookup_insert_ne). assert (Hrr : root vm3 r = Some q) by (unfold root; rewrite Hsp, lookup_insert_eq; cbn; by bfalse (q =? 0)).
    assert (Hrk : root vm KERNEL = Some (pml4_physical k)) by (unfold root; rewrite Hk; by bfalse (pml4_physical k =? 0)).
    split; [rewrite Hsp, lookup_insert_eq; by eexists |]. split; [| rewrite Hrr; split; [done |]].
    + intros r' Hr'. split; [by apply Hroots |]. intros v. unfold view. rewrite Hroots by done. destruct (vmm_is_canonical v); [| done]. destruct (root vm r') as [p|] eqn:Ep; [| done]. cbn [mbind option_bind]. apply (look_frame _ tree Ht _ p r'); [by apply (root_node vm) |]. intros x n j Hx _. apply Hother. congruence.
    + intros v. unfold view. rewrite Hrr, Hrk. destruct (vmm_is_canonical v); [| done]. cbn [mbind option_bind]. by eapply look_root.
Qed.

(** ** Switching *)

Lemma quiet_refl s : quiet s s.
Proof. done. Qed.

Lemma inv_seen vm tree r s : vmm_inv vm tree → spaces vm !! r = Some s → zlen (tlb_seen_generation s) = SMP_MAX_CPUS.
Proof. intros Hi Hs. apply (so_seen _ _ _ (vi_spaces _ _ Hi r s Hs)). Qed.

(** Making [r] current: the processor's block, [CR3], the space's mask, then [current_space_obj]. *)
Lemma make_current_spec vm tree r s c : vmm_inv vm tree → spaces vm !! r = Some s →
  ∃ vm', (vm1 ← vmm_mark_space_active_on_current_cpu (vm <| cpus := smp_set_current_address_space (cpus vm) r |> <| cr3 := c |>) r; Ret (vm1 <| current_space_obj := Some r |>)) = Ret vm' ∧
    processors vm vm' r ∧ vmm_current_space_local vm' = r ∧ cr3 vm' = c.
Proof.
  intros Hi Hs. match goal with |- context [vmm_mark_space_active_on_current_cpu ?v r] => destruct (mark_active_spec v r s Hs (inv_seen _ _ _ _ Hi Hs)) as (s' & x & Hq & ->) end. mred. eexists. split; [done |].
  pose proof (current_set vm r (<[r := s']> (spaces vm)) x) as Hcur. split; [| done]. split; [done | done | by exists s, s' |]. intros _. change (is_Some (spaces vm !! vmm_current_space_local (vm <| spaces := <[r := s']> (spaces vm) |> <| cpus := smp_set_current_cr3 (smp_set_current_address_space (cpus vm) r) x |> <| current_space_obj := Some r |>))).
  rewrite Hcur, Hs. by eexists.
Qed.

Lemma switch_spec vm tree r s : vmm_inv vm tree → spaces vm !! r = Some s → pml4_physical s ≠ 0 →
  ∃ vm', vmm_switch_space vm (Some r) = Ret vm' ∧ processors vm vm' r ∧ vmm_current_space_local vm' = r ∧ cr3 vm' = pml4_physical s.
Proof. intros Hi Hs Hp. unfold vmm_switch_space, get_space. rewrite Hs. mred. bfalse (pml4_physical s =? 0). by apply (make_current_spec vm tree r s). Qed.

(** ** Destroying a space *)

Lemma drop_rd (l : list Z) i : 0 ≤ i < zlen l → ∃ p, rd (padded l) (zlen l - 1 - i) = Ret p ∧ drop (length l - Z.to_nat (i + 1)) l = p :: drop (length l - Z.to_nat i) l.
Proof.
  intros Hi. destruct (rd_inbounds l (zlen l - 1 - i) ltac:(lia)) as [p Hp]. exists p. split; [unfold padded; rewrite rd_app_l by lia; done |]. apply rd_Ret in Hp as [_ Hp]. unfold zlen in *.
  replace (Z.to_nat (Z.of_nat (length l) - 1 - i)) with (length l - Z.to_nat (i + 1))%nat in Hp by lia. rewrite (drop_S l p _ Hp). do 2 f_equal. lia.
Qed.

Lemma free_tables_spec vm (l : list Z) :
  frames_ok (source vm) → NoDup l → (∀ p, p ∈ l → held (source vm) p ∧ p ≠ 0) →
  ∃ vm', free_tables vm (padded l) (zlen l) = Ret vm' ∧ frames_ok (source vm') ∧ (∀ p, held (source vm') p ↔ held (source vm) p ∧ p ∉ l) ∧
    (∀ p i, ent vm' p i = if bool_decide (p ∈ l) then None else ent vm p i) ∧ spaces vm' = spaces vm ∧ current_space_obj vm' = current_space_obj vm ∧ cpus vm' = cpus vm ∧ cr3 vm' = cr3 vm.
Proof.
  intros Hf Hnd Hh. set (gone := λ i : Z, drop (length l - Z.to_nat i) l). unfold free_tables.
  match goal with |- context [for_n ?n ?i0 ?f ?t] =>
    destruct (for_n_inv (λ k vm', frames_ok (source vm') ∧ (∀ p, held (source vm') p ↔ held (source vm) p ∧ p ∉ gone k) ∧ (∀ p i, ent vm' p i = if bool_decide (p ∈ gone k) then None else ent vm p i) ∧
      spaces vm' = spaces vm ∧ current_space_obj vm' = current_space_obj vm ∧ cpus vm' = cpus vm ∧ cr3 vm' = cr3 vm) f n i0 t) as (vm' & E & H1 & H2 & H3 & H4) end.
  - assert (gone 0 = []) as -> by (unfold gone; apply drop_ge; lia). split_and!; try done. intros p. split; [intros; split; [done | apply not_elem_of_nil] | tauto].
  - intros k vm1 Hk (F1 & F2 & F3 & F4). rewrite Z2Nat.id in Hk by apply zlen_nonneg. destruct (drop_rd l k ltac:(lia)) as (p & -> & Hg). mred. fold (gone k) in Hg. fold (gone (k + 1)) in Hg.
    assert (Hpl : p ∈ l). { rewrite <- (take_drop (length l - Z.to_nat (k + 1)) l). apply elem_of_app. right. fold (gone (k + 1)). rewrite Hg. by left. }
    destruct (Hh p Hpl) as [Hhp Hp0]. bfalse (p =? 0). assert (Hng : p ∉ gone k). { assert (Hnd' : NoDup (gone (k + 1))) by (rewrite <- (take_drop (length l - Z.to_nat (k + 1)) l) in Hnd; by apply NoDup_app in Hnd as (_ & _ & ?)). rewrite Hg in Hnd'. by inversion Hnd'. }
    destruct (free_page_law (source vm1) p F1) as (m & -> & Fm & Hm); [by apply F2 |]. mred. eexists. split; [done |]. rewrite Hg. match goal with |- context [if negb ?b then _ else _] => set (b0 := b) end.
    assert (Hgoal : ∀ vm2, source vm2 = m → tables vm2 = delete p (tables vm1) → spaces vm2 = spaces vm1 → current_space_obj vm2 = current_space_obj vm1 → cpus vm2 = cpus vm1 → cr3 vm2 = cr3 vm1 →
      frames_ok (source vm2) ∧ (∀ x, held (source vm2) x ↔ held (source vm) x ∧ x ∉ p :: gone k) ∧ (∀ x i, ent vm2 x i = if bool_decide (x ∈ p :: gone k) then None else ent vm x i) ∧
      spaces vm2 = spaces vm ∧ current_space_obj vm2 = current_space_obj vm ∧ cpus vm2 = cpus vm ∧ cr3 vm2 = cr3 vm); [| destruct (negb b0); by apply Hgoal].
    intros vm2 -> Et -> -> -> ->. split_and!; try done; try apply F4.
    + intros x. rewrite Hm, F2, not_elem_of_cons. tauto.
    + intros x i. rewrite (ent_delete vm1 vm2 p) by done. rewrite F3. destruct (Z.eqb_spec x p) as [->|Hx]; [by rewrite bool_decide_eq_true_2 by left |]. rewrite (bool_decide_ext (x ∈ p :: gone k) (x ∈ gone k)) by (rewrite elem_of_cons; tauto). done.
  - exists vm'. split; [done |]. assert (Hall : gone (0 + Z.of_nat (Z.to_nat (zlen l))) = l) by (unfold gone, zlen; replace (length l - _)%nat with 0%nat by lia; done). rewrite Hall in *. done.
Qed.

Definition prune (tree : Z → option node) (r : Z) : Z → option node := λ p, match tree p with Some n => if n_owner n =? r then None else Some n | None => None end.

Lemma prune_spec tree r p n : prune tree r p = Some n ↔ tree p = Some n ∧ n_owner n ≠ r.
Proof. unfold prune. destruct (tree p) as [m|]; [| by split; [| intros [? _]]]. destruct (Z.eqb_spec (n_owner m) r); split; intros; destruct_and?; simplify_eq; done. Qed.

Lemma prune_space_ok tree r r' s : r' ≠ r → space_ok tree r' s → space_ok (prune tree r) r' s.
Proof.
  intros Hr [(l & E1 & E2 & E3 & E4 & E5) S2 S3 S4]. split; [| done | | done].
  - exists l. split_and!; try done. intros p. rewrite E5. split; intros (n & Hn & Ho); exists n; (split; [| done]); [apply prune_spec; split; [done | congruence] | by apply prune_spec in Hn as [? _]].
  - intros Hp. destruct (S3 Hp) as [Hroot Hu]. split; [| done]. by apply prune_spec.
Qed.

(** The tables [l] of [r] gone, and its object cleared. *)
Lemma pruned_inv vm tree r (l : list Z) vm1 vm2 st :
  vmm_inv vm tree → r ≠ KERNEL → (∀ p, p ∈ l ↔ ∃ n, tree p = Some n ∧ n_owner n = r) →
  frames_ok (source vm1) → (∀ p, held (source vm1) p ↔ held (source vm) p ∧ p ∉ l) → (∀ p i, ent vm1 p i = if bool_decide (p ∈ l) then None else ent vm p i) → spaces vm1 = spaces vm → current_space_obj vm1 = current_space_obj vm → cpus vm1 = cpus vm →
  vm2 = (put_space vm1 r zero_space) <| stats := st |> → vmm_inv vm2 (prune tree r) ∧ root vm2 r = None ∧ ∀ r', r' ≠ r → root vm2 r' = root vm r' ∧ ∀ v, view vm2 r' v = view vm r' v.
Proof.
  intros Hi Hr Hl Hf Hh He Hs Hc1 Hc2 ->. pose proof (vi_tree _ _ Hi) as Ht. set (vm2 := (put_space vm1 r zero_space) <| stats := st |>). assert (Hsp : spaces vm2 = <[r := zero_space]> (spaces vm)) by (cbn; by rewrite Hs). assert (Hent : ∀ p i, ent vm2 p i = ent vm1 p i) by done.
  assert (Hcur : vmm_current_space_local vm2 = vmm_current_space_local vm) by (unfold vmm_current_space_local; cbn; by rewrite Hc1, Hc2). split; [split |].
  - apply (tree_prune (ent vm) tree Ht _ _ r Hr); [done |]. intros p i. rewrite Hent, He. destruct (bool_decide_reflect (p ∈ l)) as [Hp|Hp].
    + destruct (prune tree r p) eqn:Ep; [| done]. apply prune_spec in Ep as [? ?]. apply Hl in Hp as (m & ? & ?). congruence.
    + destruct (prune tree r p) eqn:Ep; [done |]. destruct (ent vm p i) eqn:Ei; [| done]. destruct (ent_node _ _ Ht _ _ _ Ei) as [n Hn]. destruct (decide (n_owner n = r)); [destruct Hp; apply Hl; eauto |]. assert (prune tree r p = Some n) by (by apply prune_spec). congruence.
  - done.
  - intros p n [Hn Ho]%prune_spec. apply Hh. split; [by eapply vi_held |]. intros (m & ? & ?)%Hl. congruence.
  - intros r' x. rewrite Hsp. destruct (decide (r' = r)) as [->|]; [rewrite lookup_insert_eq; intros [= <-]; apply (dead_space_ok _ r false); by intros p n [_ ?]%prune_spec | rewrite lookup_insert_ne by done; intros Hx; apply prune_space_ok; [done |]; by apply (vi_spaces _ _ Hi)].
  - intros p n [Hn Ho]%prune_spec. rewrite Hsp. by eapply insert_is_Some, vi_owners.
  - destruct (vi_kernel _ _ Hi) as (k & Hk & Hp). exists k. by rewrite Hsp, lookup_insert_ne.
  - rewrite Hcur, Hsp. apply insert_is_Some, Hi.
  - assert (Hroots : ∀ r', r' ≠ r → root vm2 r' = root vm r') by (intros r' Hr'; unfold root; by rewrite Hsp, lookup_insert_ne). split; [unfold root; by rewrite Hsp, lookup_insert_eq |].
    intros r' Hr'. split; [by apply Hroots |]. intros v. unfold view. rewrite Hroots by done. destruct (vmm_is_canonical v); [| done]. destruct (root vm r') as [p|] eqn:Ep; [| done]. cbn [mbind option_bind]. apply (look_frame _ tree Ht _ p r'); [by apply (root_node vm) |].
    intros x n j Hx Ho. rewrite Hent, He, bool_decide_eq_false_2; [done |]. intros (m & ? & ?)%Hl. assert (m = n) as -> by congruence. destruct Ho; congruence.
Qed.

(** Leaving the space that is to be destroyed, if it is current. *)
Lemma leave_spec vm tree r s : vmm_inv vm tree → r ≠ KERNEL → spaces vm !! r = Some s →
  ∃ vm1, (if r =? vmm_current_space_local vm then
            let vm := vm <| cpus := smp_set_current_address_space (cpus vm) KERNEL |> in
            k ← get_space vm KERNEL;
            vm ← vmm_mark_space_active_on_current_cpu (vm <| cr3 := pml4_physical k |>) KERNEL;
            Ret (vm <| current_space_obj := Some KERNEL |>)
          else Ret vm) = Ret vm1 ∧ vmm_inv vm1 tree ∧ spaces vm1 !! r = Some s ∧ (∀ r, root vm1 r = root vm r) ∧ (∀ r v, view vm1 r v = view vm r v) ∧ source vm1 = source vm ∧ vmm_current_space_local vm1 ≠ r.
Proof.
  intros Hi Hr Hs. destruct (Z.eqb_spec r (vmm_current_space_local vm)) as [Hc|Hc]; [| exists vm; by split_and!]. destruct (vi_kernel _ _ Hi) as (k & Hk & Hp). cbv zeta. unfold get_space. cbn [spaces set_field]. rewrite Hk. mred.
  destruct (make_current_spec vm tree KERNEL k (pml4_physical k) Hi Hk) as (vm1 & E & Hpr & Hcur & _). exists vm1. split; [exact E |]. split_and!; [by eapply processors_inv | | intros r'; by eapply processors_root | intros r' v; by eapply processors_view | by apply (pr_source _ _ _ Hpr) | congruence].
  destruct (pr_spaces _ _ _ Hpr) as (s0 & s' & _ & _ & ->). by rewrite lookup_insert_ne.
Qed.

Lemma destroy_spec vm tree r s :
  vmm_inv vm tree → r ≠ KERNEL → spaces vm !! r = Some s →
  ∃ vm', vmm_space_destroy vm (Some r) = Ret vm' ∧ (∃ tree', vmm_inv vm' tree') ∧ root vm' r = None ∧ (∀ r', r' ≠ r → root vm' r' = root vm r' ∧ ∀ v, view vm' r' v = view vm r' v) ∧
    (∀ p, held (source vm') p ↔ held (source vm) p ∧ ¬ (∃ n, tree p = Some n ∧ n_owner n = r)) ∧ (root vm r ≠ None → vmm_current_space_local vm' ≠ r).
Proof.
  intros Hi Hr Hs. assert (Eg : get_space vm r = Ret s) by (unfold get_space; by rewrite Hs). unfold vmm_space_destroy. rewrite Eg. mred. destruct (Z.eqb_spec (pml4_physical s) 0) as [Hd|Hlive].
  { assert (Hrt : root vm r = None) by (unfold root; rewrite Hs, Hd; done). exists vm. split_and!; [done | by exists tree | done | done | | done]. intros p. split; [intros Hp; split; [done |]; intros (n & Hn & Ho); by destruct (no_tables _ _ _ _ _ Hi Hrt Hn) | by intros [? _]]. }
  destruct (leave_spec vm tree r s Hi Hr Hs) as (vm1 & E1 & Hi1 & Hs1 & Hr1 & Hv1 & Hsrc1 & Hcur1).
  match goal with |- context [if r =? vmm_current_space_local vm then ?a else ?b] => change (if r =? vmm_current_space_local vm then a else b) with (if r =? vmm_current_space_local vm then a else Ret vm); replace (if r =? vmm_current_space_local vm then a else Ret vm) with (Ret vm1) by (symmetry; exact E1) end. clear E1. mred. unfold get_space. rewrite Hs1. mred. pose proof (inv_seen _ _ _ _ Hi1 Hs1) as Hseen. set (g := wrap64 (tlb_generation s + 1)).
  assert (Hflush : ∃ cs s', (if negb (Z.land (active_cpu_mask s) (smp_started_cpu_mask (cpus vm1)) =? 0) then
      let '(cs, flushed) := smp_tlb_shootdown_mask (cpus vm1) 0 0 (pml4_physical s) (Z.land (active_cpu_mask s) (smp_started_cpu_mask (cpus vm1))) g 0 in
      if flushed : bool then seen ← note_seen (Z.land (active_cpu_mask s) (smp_started_cpu_mask (cpus vm1))) g (tlb_seen_generation s); Ret (cs, s <| tlb_generation := g |> <| tlb_seen_generation := seen |>)
      else Ret (cs, s <| tlb_generation := g |> <| tlb_failures := wrap64 (tlb_failures s + 1) |>)
    else Ret (cpus vm1, s <| tlb_generation := g |>)) = Ret (cs, s') ∧ quiet s s' ∧ smp_get_current_address_space cs = smp_get_current_address_space (cpus vm1)).
  { destruct (negb _); [| by eexists _, _]. pose proof (smp_shootdown_law (cpus vm1) 0 0 (pml4_physical s) (Z.land (active_cpu_mask s) (smp_started_cpu_mask (cpus vm1))) g 0) as Hlaw. destruct (smp_tlb_shootdown_mask _ _ _ _ _ _ _) as [cs [|]]; cbn [fst] in Hlaw; [| by eexists _, _].
    destruct (note_seen_spec (Z.land (active_cpu_mask s) (smp_started_cpu_mask (cpus vm1))) g _ Hseen) as (seen & -> & Hz). mred. eexists _, _. split; [done |]. split; [| done]. split; [done.. |]. cbn. congruence. }
  destruct Hflush as (cs & s' & E2 & Hq & Hget). change (tlb_seen_generation (s <| tlb_generation := g |>)) with (tlb_seen_generation s). change (tlb_failures (s <| tlb_generation := g |>)) with (tlb_failures s). rewrite E2. clear E2. mred.
  pose proof Hq as [Q1 Q2 Q3 Q4 Q5]. rewrite Q1, Z.eqb_refl. cbn [negb]. rewrite Q2, Q3. set (vm2 := (put_space vm1 r s') <| cpus := cs |>).
  assert (Hp2 : processors vm1 vm2 r) by (split; [done | done | by exists s, s' | unfold vmm_current_space_local; cbn; by rewrite Hget]). pose proof (processors_inv _ _ _ _ Hp2 Hi1) as Hi2.
  destruct (so_owned _ _ _ (vi_spaces _ _ Hi1 r s Hs1)) as (l & El & Ec & _ & Hnd & Hel). rewrite El, Ec. destruct (free_tables_spec vm2 l) as (vm3 & -> & F1 & F2 & F3 & F4 & F5 & F6 & _); [apply Hi2 | done | |].
  { intros p (n & Hn & _)%Hel. split; [by eapply (vi_held vm2) | by apply (to_addr _ _ (vi_tree _ _ Hi1)) in Hn as [? _]; lia]. }
  mred. eexists. split; [done |]. match goal with |- context [vmm_inv ?x _] => destruct (pruned_inv vm2 tree r l vm3 x (stats x) Hi2 Hr Hel F1 F2 F3 F4 F5 F6 eq_refl) as (Hi4 & Hr4 & Hv4) end. split; [by eexists |]. split; [done |]. split; [intros r' Hr'; destruct (Hv4 r' Hr') as [R4 V4]; split; [by rewrite R4, (processors_root _ _ _ _ Hp2), Hr1 | intros v; by rewrite V4, (processors_view _ _ _ _ _ Hp2), Hv1] |]. split.
  - intros p. cbn [source set_field put_space]. rewrite F2. change (source vm2) with (source vm1). rewrite Hsrc1, Hel. done.
  - intros _. unfold vmm_current_space_local. cbn [cpus current_space_obj set_field put_space]. rewrite F5, F6. unfold vm2. cbn. rewrite Hget. exact Hcur1.
Qed.

End ops.
