(* ===== verification/VmmRefine.v ===== *)
(** * Address spaces as maps

    An address space is a map from addresses to physical addresses and flags; the kernel's
    is one of them.  [Vmm]'s operations, run on page tables that satisfy the invariant,
    do to these maps what their names say, and never change what another space lets its
    user reach. *)

From Stdlib Require Import ZArith Lia String.
From stdpp Require Import prelude list_numbers fin_maps zmap.
From S2P Require Import Prelude Update Array Arith CString Printf Log Bootinfo Memory PageMap Vmm VmmTables VmmSpaces VmmMapping VmmOps.

Local Open Scope Z_scope.

Inductive vm_op :=
  | Map (r virt phys flags : Z)
  | MapLarge (virt phys flags : Z)
  | Unmap (r virt : Z)
  | Protect (r virt flags : Z)
  | Remap (r virt phys flags : Z)
  | CreateUser (r : Z)
  | Destroy (r : Z)
  | Switch (r : Z).

Definition op_space (o : vm_op) : Z :=
  match o with Map r _ _ _ | Unmap r _ | Protect r _ _ | Remap r _ _ _ | CreateUser r | Destroy r | Switch r => r | MapLarge _ _ _ => KERNEL end.

(** The address spaces as maps, up to the size of pages; [None] is a space without tables. *)
Definition spaces_map := Z → option (Z → option (Z * Z)).

Definition seen (A : spaces_map) (r v : Z) : option (Z * Z) := A r ≫= λ m, m v.

(** What the spaces other than [r] see afterwards. *)
Definition others (A A' : spaces_map) (r : Z) : Prop := ∀ r', r' ≠ r → (is_Some (A' r') ↔ is_Some (A r')) ∧
  ∀ v, 0 ≤ v < 2 ^ 64 → seen A' r' v = seen A r' v ∨ r = KERNEL ∧ seen A r' v = seen A KERNEL v ∧ seen A' r' v = seen A' KERNEL v.

(** [r] sees [t] where [hit]. *)
Definition becomes_at (A A' : spaces_map) (r : Z) (hit : Z → Prop) (t : Z → option (Z * Z)) : Prop :=
  is_Some (A r) ∧ is_Some (A' r) ∧ (∀ v, 0 ≤ v < 2 ^ 64 → (hit v → seen A' r v = t v) ∧ (¬ hit v → seen A' r v = seen A r v)) ∧ others A A' r.

Definition same_maps (A A' : spaces_map) : Prop := ∀ r, (is_Some (A' r) ↔ is_Some (A r)) ∧ ∀ v, 0 ≤ v < 2 ^ 64 → seen A' r v = seen A r v.

Section effect.
Context (kernel_start kernel_end : Z).

(** A page at [virt] with these flags may be in the space [r]. *)
Definition may_map (r virt flags : Z) : bool := negb (has virt (PAGE_SIZE - 1)) && vmm_leaf_flags_valid_for_space kernel_start kernel_end (Some (zero_space <| user_space := negb (r =? KERNEL) |>)) virt flags.

(** The effect of an operation on the maps. *)
Definition vm_effect (A : spaces_map) (o : vm_op) (ok : bool) (A' : spaces_map) : Prop :=
  if negb ok then same_maps A A' else
  match o with
  | Map r virt phys flags => may_map r virt flags = true ∧ (∀ v, 0 ≤ v < 2 ^ 64 → same_page virt v → seen A r v = None) ∧ becomes_at A A' r (same_page virt) (page_at (addr phys) flags)
  | MapLarge virt phys flags => large_guard virt phys flags = true ∧ (∀ v, 0 ≤ v < 2 ^ 64 → same_window virt v → seen A KERNEL v = None) ∧ becomes_at A A' KERNEL (same_window virt) (λ v, Some (addr phys + Z.land v (HUGE_SIZE - 1), shown_flags flags))
  | Unmap r virt => seen A r virt ≠ None ∧ becomes_at A A' r (same_page virt) (λ _, None)
  | Protect r virt flags => may_map r virt flags = true ∧ ∃ a fl, seen A r virt = Some (a, fl) ∧ becomes_at A A' r (same_page virt) (page_at a flags)
  | Remap r virt phys flags => may_map r virt flags = true ∧ seen A r virt ≠ None ∧ becomes_at A A' r (same_page virt) (page_at (addr phys) flags)
  | CreateUser r => A r = None ∧ is_Some (A' r) ∧ (∀ v, 0 ≤ v < 2 ^ 64 → seen A' r v = seen A KERNEL v) ∧ others A A' r
  | Destroy r => A' r = None ∧ others A A' r
  | Switch r => same_maps A A'
  end.

Lemma effect_others A o ok A' : vm_effect A o ok A' → others A A' (op_space o) ∨ same_maps A A'.
Proof.
  unfold vm_effect. destruct ok; cbn [negb]; [| by right]. destruct o; cbn [op_space].
  - intros (_ & _ & _ & _ & _ & Ho). by left.
  - intros (_ & _ & _ & _ & _ & Ho). by left.
  - intros (_ & _ & _ & _ & Ho). by left.
  - intros (_ & a & fl & _ & _ & _ & _ & Ho). by left.
  - intros (_ & _ & _ & _ & _ & Ho). by left.
  - intros (_ & _ & _ & Ho). by left.
  - intros (_ & Ho). by left.
  - by right.
Qed.

End effect.

Section refine.
Context {M S : Type} `{FS : FrameSource M} `{CS : Cpus S}.
Context (kernel_start kernel_end : Z).

Implicit Types vm : vmm M S.

Definition vm_step vm (o : vm_op) : res (vmm M S * bool) :=
  match o with
  | Map r virt phys flags => vmm_space_map_4k kernel_start kernel_end vm (Some r) virt phys flags
  | MapLarge virt phys flags => vmm_map_2m vm virt phys flags
  | Unmap r virt => vmm_space_unmap_4k vm (Some r) virt
  | Protect r virt flags => vmm_space_protect_4k kernel_start kernel_end vm (Some r) virt flags
  | Remap r virt phys flags => vmm_space_remap_4k kernel_start kernel_end vm (Some r) virt phys flags
  | CreateUser r => vmm_space_create_user vm (Some r)
  | Destroy r => vm ← vmm_space_destroy vm (Some r); Ret (vm, true)
  | Switch r => vm ← vmm_switch_space vm (Some r); Ret (vm, true)
  end.

(** The calls the kernel may make: on an object that exists, on the kernel's space no
    making and destroying, a space is made once, and one without tables is not entered. *)
Definition legal vm (o : vm_op) : Prop :=
  match o with
  | Map r virt phys flags | Remap r virt phys flags => is_Some (spaces vm !! r) ∧ is_u64 virt ∧ is_u64 phys ∧ is_u64 flags
  | MapLarge virt phys flags => is_u64 virt ∧ is_u64 phys ∧ is_u64 flags
  | Unmap r virt => is_Some (spaces vm !! r) ∧ is_u64 virt
  | Protect r virt flags => is_Some (spaces vm !! r) ∧ is_u64 virt ∧ is_u64 flags
  | CreateUser r => r ≠ KERNEL ∧ root vm r = None
  | Destroy r => r ≠ KERNEL ∧ is_Some (spaces vm !! r)
  | Switch r => root vm r ≠ None
  end.

(** The maps that the page tables of [vm] store. *)
Definition maps_of vm : spaces_map := λ r, match root vm r with Some _ => Some (λ v, plain <$> view vm r v) | None => None end.

Lemma at_maps vm r v : seen (maps_of vm) r v = plain <$> view vm r v.
Proof. unfold seen, maps_of, view. destruct (root vm r); [done |]. by destruct (vmm_is_canonical v). Qed.

Lemma maps_live vm r : is_Some (maps_of vm r) ↔ root vm r ≠ None.
Proof. unfold maps_of. destruct (root vm r); split; try done; by intros [? ?]. Qed.

(** What the code computes is the map. *)
Lemma translate_maps vm tree r v : vmm_inv vm tree → is_Some (spaces vm !! r) → 0 ≤ v → ∃ t, vmm_space_translate vm (Some r) v = Ret t ∧ plain <$> t = seen (maps_of vm) r v.
Proof. intros Hi [s Hs] Hv. eexists. split; [by eapply translate_spec | by rewrite at_maps]. Qed.

Definition vmm_ok vm : Prop := ∃ tree, vmm_inv vm tree.

Lemma same_maps_of vm vm' : (∀ r, root vm' r = root vm r) → (∀ r v, 0 ≤ v → plain <$> view vm' r v = plain <$> view vm r v) → same_maps (maps_of vm) (maps_of vm').
Proof. intros Hr Hv r. split; [by rewrite !maps_live, Hr |]. intros v Hu. rewrite !at_maps. apply Hv. lia. Qed.

Lemma same_same_maps vm vm' : same vm vm' → same_maps (maps_of vm) (maps_of vm').
Proof. intros Hs. apply same_maps_of; [intros; by apply same_root | intros r v _; by rewrite (same_view _ _ r v Hs)]. Qed.

Lemma changes_becomes vm vm' r hit t t' :
  changes (fmap plain) vm vm' r hit t → root vm r ≠ None → (∀ v, plain <$> t v = t' v) → becomes_at (maps_of vm) (maps_of vm') r hit t'.
Proof.
  intros [C1 C2 C3 C4] Hr Ht. split_and!; [by apply maps_live | apply maps_live; by rewrite C4 | |].
  - intros v Hv. rewrite !at_maps. split; intros Hh; [by rewrite C1, Ht | by apply C2].
  - intros r' Hr'. split; [by rewrite !maps_live, C4 |]. intros v Hv. rewrite !at_maps. destruct (C3 r' v Hv Hr') as [?|(? & ? & ->)]; auto.
Qed.

Lemma others_maps vm vm' r : (∀ r', r' ≠ r → root vm' r' = root vm r' ∧ ∀ v, view vm' r' v = view vm r' v) → others (maps_of vm) (maps_of vm') r.
Proof. intros H r' Hr'. destruct (H r' Hr') as [E1 E2]. split; [by rewrite !maps_live, E1 |]. intros v _. left. by rewrite !at_maps, E2. Qed.

Lemma reported_plain x : Z.testbit x 7 = false → Z.ldiff x VMM_HUGE = x.
Proof. intros H7. apply Z.bits_inj'. intros k Hk. rewrite Z.ldiff_spec. unfold VMM_HUGE. rewrite Z.pow2_bits_eqb by lia. destruct (Z.eqb_spec 7 k) as [<-|]; [by rewrite H7 | apply andb_true_r]. Qed.

Lemma shown_flags_7 flags : Z.testbit (shown_flags flags) 7 = false.
Proof. unfold shown_flags. rewrite Z.lor_spec, Z.land_spec. by rewrite andb_false_r. Qed.

Lemma plain_page a flags v : plain <$> page_at a flags v = page_at a flags v.
Proof. unfold page_at, plain. cbn. by rewrite reported_plain by apply shown_flags_7. Qed.

Lemma plain_window a flags v : plain <$> window_at a flags v = Some (a + Z.land v (HUGE_SIZE - 1), shown_flags flags).
Proof.
  unfold window_at, plain. cbn. do 2 f_equal. rewrite <- (reported_plain (shown_flags flags)) at 2 by apply shown_flags_7. apply Z.bits_inj'. intros k Hk. rewrite !Z.ldiff_spec, Z.lor_spec. destruct (Z.testbit VMM_HUGE k); [by rewrite !andb_false_r | by rewrite orb_false_r].
Qed.

Lemma view_live vm r v t : view vm r v = Some t → root vm r ≠ None.
Proof. unfold view. destruct (root vm r); [done |]. by destruct (vmm_is_canonical v). Qed.

Lemma is_u64_pow x : is_u64 x ↔ 0 ≤ x < 2 ^ 64.
Proof. ulia. Qed.

(** A page is mapped as a whole. *)
Lemma walk_page en l v v' : v / PAGE_SIZE = v' / PAGE_SIZE → ∀ p, walk en l p v = walk en l p v'.
Proof.
  intros E. assert (Ei : ∀ k, idx v k = idx v' k) by (intros k; unfold idx, pfx, vpn; unfold PAGE_SIZE in E; by rewrite E). induction l as [|l IH]; intros p; [done |]. cbn [walk]. rewrite Ei. destruct (en p _) as [e|]; [| done]. cbn [mbind option_bind]. by rewrite IH.
Qed.

Lemma page_none vm r v v' : 0 ≤ v → 0 ≤ v' → same_page v v' → view vm r v = None → view vm r v' = None.
Proof.
  unfold same_page. intros Hv Hv' E. unfold view. destruct (vmm_is_canonical v') eqn:Hc'; [| done]. assert (vmm_is_canonical v = true) as -> by by apply (page_canonical v v'). destruct (root vm r); [| done]. cbn [mbind option_bind]. unfold look. rewrite (walk_page _ _ v v' E).
  destruct (walk _ _ _ v') as [es|]; [| done]. cbn [mbind option_bind]. destruct es as [|? [|? [|? [|? [|? ?]]]]]; done.
Qed.

Lemma reach_root vm tree r rt virt : vmm_inv vm tree → root vm r = Some rt → reach tree r virt 3.
Proof. intros Hi Hrt. exists rt. change (Z.of_nat 3 + 1) with 4. rewrite way_top. by eapply root_node. Qed.

Lemma reach_space vm tree r s virt : vmm_inv vm tree → spaces vm !! r = Some s → pml4_physical s ≠ 0 → reach tree r virt 3.
Proof. intros Hi Hs Hp. apply (reach_root vm tree r (pml4_physical s)); [done |]. unfold root. rewrite Hs. by bfalse (pml4_physical s =? 0). Qed.

Lemma root_live vm r s : spaces vm !! r = Some s → root vm r ≠ None → pml4_physical s ≠ 0.
Proof. intros Hs. unfold root. rewrite Hs. by destruct (Z.eqb_spec (pml4_physical s) 0). Qed.

Lemma may_map_valid vm tree r s virt flags : vmm_inv vm tree → spaces vm !! r = Some s → root vm r ≠ None → has virt (PAGE_SIZE - 1) = false → may_map kernel_start kernel_end r virt flags = vmm_leaf_flags_valid_for_space kernel_start kernel_end (Some s) virt flags.
Proof. intros Hi Hs Hr Ha. destruct (so_root _ _ _ (vi_spaces _ _ Hi r s Hs) (root_live _ _ _ Hs Hr)) as [_ Hu]. unfold may_map, vmm_leaf_flags_valid_for_space. rewrite Ha. cbn [user_space set_field]. by rewrite Hu. Qed.

Lemma vm_step_refines vm o :
  vmm_ok vm → legal vm o → ∃ vm' ok, vm_step vm o = Ret (vm', ok) ∧ vmm_ok vm' ∧ vm_effect kernel_start kernel_end (maps_of vm) o ok (maps_of vm').
Proof.
  intros [tree Hi]. destruct o as [r virt phys flags|virt phys flags|r virt|r virt flags|r virt phys flags|r|r|r]; cbn [legal vm_step]; rewrite ?is_u64_pow.
  - intros ([s Hs] & Hv & Hp & Hf). destruct (map_4k_spec kernel_start kernel_end 3 vm tree r s virt phys flags Hi Hs Hv (proj1 Hp) Hf (reach_space _ _ _ _ virt Hi Hs) ltac:(lia)) as (vm' & ok & -> & Hres). exists vm', ok. split; [done |]. destruct ok; cbn [map_post vm_effect negb] in *; [| destruct Hres as [Hsm _]; split; [exists tree; by eapply same_inv | by apply same_same_maps]].
    destruct Hres as (Hg & Hnone & Hch & _ & tree' & Hi' & _). split; [by exists tree' |]. unfold map_guard in Hg. apply andb_true_iff in Hg as [Hval Hg]. assert (Hr : root vm r ≠ None) by (unfold root; rewrite Hs; by destruct (pml4_physical s =? 0)).
    apply negb_true_iff, orb_false_iff in Hval as [[Hal _]%orb_false_iff Hval%negb_false_iff]. rewrite (may_map_valid _ _ _ _ _ _ Hi Hs Hr Hal). split; [done |]. split; [intros v Hv' Hpg; by rewrite at_maps, (page_none vm r virt v) by (done || lia) |]. eapply changes_becomes; [by apply changes_weaken | done | apply plain_page].
  - intros (Hv & Hp & Hf). destruct (kernel_root _ _ Hi) as (rt & Hrt & _). destruct (map_2m_spec 2 vm tree virt phys flags Hi Hv (proj1 Hp) Hf (reach_root _ _ _ _ virt Hi Hrt) ltac:(lia)) as (vm' & ok & -> & Hres). exists vm', ok. split; [done |]. destruct ok; cbn [map_2m_post vm_effect negb] in *; [| destruct Hres as [Hsm _]; split; [exists tree; by eapply same_inv | by apply same_same_maps]].
    destruct Hres as (Hg & Hnone & Hch & tree' & Hi' & _). split; [by exists tree' |]. split; [done |]. split; [intros v Hv' Hw; by rewrite at_maps, Hnone |]. eapply changes_becomes; [by apply changes_weaken | by rewrite Hrt | apply plain_window].
  - intros ([s Hs] & Hv). destruct (unmap_4k_spec vm tree r s virt Hi Hs Hv) as (vm' & ok & -> & Hok & Hres). exists vm', ok. split_and!; [done.. |]. destruct ok; cbn [vm_effect negb]; [| apply same_same_maps, Hres].
    destruct Hres as (Hsome & Hch). rewrite at_maps. destruct (view vm r virt) as [t|] eqn:Ev; [| done]. split; [done |]. by eapply changes_becomes; [| eapply view_live |].
  - intros ([s Hs] & Hv & Hf). destruct (protect_4k_spec kernel_start kernel_end vm tree r s virt flags Hi Hs Hv Hf) as (vm' & ok & -> & Hok & Hres). exists vm', ok. split_and!; [done.. |]. destruct ok; cbn [vm_effect negb]; [| apply same_same_maps, Hres].
    destruct Hres as (Hal & Hval & a & fl & Ev & Hch). rewrite (may_map_valid _ _ _ _ _ _ Hi Hs) by (done || by eapply view_live). split; [done |]. exists a, (Z.ldiff fl VMM_HUGE). rewrite at_maps, Ev. split; [done |]. eapply changes_becomes; [done | by eapply view_live | apply plain_page].
  - intros ([s Hs] & Hv & Hp & Hf). destruct (remap_4k_spec kernel_start kernel_end vm tree r s virt phys flags Hi Hs Hv (proj1 Hp) Hf) as (vm' & ok & -> & Hok & Hres). exists vm', ok. split_and!; [done.. |]. destruct ok; cbn [vm_effect negb]; [| apply same_same_maps, Hres].
    destruct Hres as (Hal & Hval & Hsome & Hch). rewrite at_maps. destruct (view vm r virt) as [t|] eqn:Ev; [| done]. rewrite (may_map_valid _ _ _ _ _ _ Hi Hs) by (done || by eapply view_live). split; [done |]. split; [done |]. eapply changes_becomes; [done | by eapply view_live | apply plain_page].
  - intros (Hr & Hd). destruct (create_user_spec vm tree r Hi Hr Hd) as (vm' & ok & -> & Hok & _ & Helse & Hres). exists vm', ok. split_and!; [done.. |]. destruct ok; cbn [vm_effect negb].
    + destruct Hres as [Hl Hv]. split_and!; [unfold maps_of; by rewrite Hd | by apply maps_live | intros v _; by rewrite !at_maps, Hv | by apply others_maps].
    + destruct Hres as [Hd' _]. apply same_maps_of; [intros r'; destruct (decide (r' = r)) as [->|Hne]; [congruence | by apply Helse] |]. intros r' v _. destruct (decide (r' = r)) as [->|Hne]; [unfold view; by rewrite Hd, Hd' | by rewrite (proj2 (Helse r' Hne))].
  - intros (Hr & [s Hs]). destruct (destroy_spec vm tree r s Hi Hr Hs) as (vm' & -> & Hok & Hd & Helse & _). mred. exists vm', true. split; [done |]. split; [done |]. cbn [vm_effect negb]. split; [unfold maps_of; by rewrite Hd | by apply others_maps].
  - intros Hl. unfold root in Hl. destruct (spaces vm !! r) as [s|] eqn:Hs; [| done]. destruct (Z.eqb_spec (pml4_physical s) 0) as [|Hp]; [done |]. destruct (switch_spec vm tree r s Hi Hs Hp) as (vm' & -> & Hpr & _). mred. exists vm', true.
    split; [done |]. split; [exists tree; by eapply processors_inv |]. cbn [vm_effect negb]. apply same_maps_of; [intros; by eapply processors_root | intros r' v _; by rewrite (processors_view _ _ _ r' v Hpr)].
Qed.

(** ** Who may reach what *)

(** Where a space has the kernel's tables, it sees what the kernel sees. *)
Lemma shared_view vm tree r v : vmm_inv vm tree → shared_region vm r v → view vm r v = view vm KERNEL v.
Proof.
  intros Hi (Hr & rt & e & Hrt & He & P & Hu). pose proof (root_node _ _ _ _ Hi Hrt) as Hroot. pose proof (vi_tree _ _ Hi) as Ht. rewrite <- (way_top r v) in Hroot.
  destruct (way_child vm tree rt r v 4 e Hi Hroot ltac:(lia) He P) as [(_ & ? & _)|[(_ & _ & Hu')|(Hlg & _)]]; [done | rewrite Hu in Hu'; by destruct (Z.eqb_spec r KERNEL) |].
  destruct (kernel_root _ _ Hi) as (krt & Hkrt & Hkn). unfold view. rewrite Hrt, Hkrt. destruct (vmm_is_canonical v); [| done]. cbn [mbind option_bind]. rewrite (way_top r v) in Hroot. assert (Hte : table_entry (mk_node r 4 0) e) by (split_and!; [done | cbn; lia | done]).
  destruct (to_link _ _ Ht _ _ _ _ Hroot He Hte) as (n' & Hn' & _ & _ & (_ & _ & Hu') & _). eapply look_shared; eauto. rewrite Hu in Hu'. by destruct (Z.eqb_spec (n_owner n') KERNEL).
Qed.

(** What a space sees is a leaf of its own tables, or what the kernel sees. *)
Lemma view_cases vm tree r rt v :
  vmm_inv vm tree → root vm r = Some rt → vmm_is_canonical v = true →
  (∃ l p e, tree p = Some (on_way r v l) ∧ ent vm p (idx v l) = Some e ∧ leaf_ok (on_way r v l) e ∧ view vm r v = shown (on_way r v l) e v) ∨ r ≠ KERNEL ∧ view vm r v = view vm KERNEL v.
Proof.
  intros Hi Hrt Hc. pose proof (root_node _ _ _ _ Hi Hrt) as Hroot. pose proof (vi_tree _ _ Hi) as Ht.
  assert (Hown : ∀ k l p, l = Z.of_nat (Datatypes.S k) → l ≤ 3 ∨ r = KERNEL → tree p = Some (on_way r v l) → ∃ l p e, tree p = Some (on_way r v l) ∧ ent vm p (idx v l) = Some e ∧ leaf_ok (on_way r v l) e ∧ view vm r v = shown (on_way r v l) e v).
  { induction k as [|k IH]; intros l p El Hl Hp; destruct (ent_some _ _ Ht _ _ (idx v l) Hp (idx_range _ _)) as [e He]; (destruct (to_entry _ _ Ht _ _ _ _ Hp He) as [Hleaf|[(Hpr & Hl2 & Hlg) _]]; [exists l, p, e; split_and!; try done; by eapply way_view |]); cbn in Hl2; [lia |].
    destruct (way_child vm tree p r v l e Hi Hp Hl2 He Hpr) as [(? & _)|[(_ & Hn & _)|(_ & H4 & Hk & _)]]; [congruence | | destruct Hl; [lia | done]]. eapply (IH _ (addr e)); [| | exact Hn]; lia. }
  rewrite <- (way_top r v) in Hroot. destruct (decide (r = KERNEL)) as [->|Hr]; [left; apply (Hown 3%nat 4 rt); [done | by right | done] |].
  destruct (ent_some _ _ Ht _ _ (idx v 4) Hroot (idx_range _ _)) as [e He]. destruct (present e) eqn:P.
  - destruct (way_child vm tree rt r v 4 e Hi Hroot ltac:(lia) He P) as [(_ & ? & _)|[(_ & Hn & _)|(Hlg & _ & _ & Hu)]]; [done | left; apply (Hown 2%nat 3 (addr e)); [done | by left | done] |]. right. split; [done |]. eapply shared_view; [done |]. split; [done |]. by exists rt, e.
  - left. exists 4, rt, e. pose proof (not_present _ _ _ _ _ Hi He P) as ->. assert (Hz : leaf_ok (on_way r v 4) 0) by by left. split_and!; [done.. |]. by eapply way_view.
Qed.

(** The kernel's translations are for the kernel. *)
Lemma kernel_supervisor vm tree v a fl : vmm_inv vm tree → view vm KERNEL v = Some (a, fl) → Z.testbit fl 2 = false.
Proof.
  intros Hi Hv. destruct (vmm_is_canonical v) eqn:Hc; [| unfold view in Hv; by rewrite Hc in Hv]. destruct (kernel_root _ _ Hi) as (rt & Hrt & _). destruct (view_cases vm tree KERNEL rt v Hi Hrt Hc) as [(l & p & e & Hp & He & Hleaf & E)|[? _]]; [| done].
  rewrite E in Hv. unfold shown in Hv. destruct Hleaf as [->|(P & _ & Hcase)]; [done |]. rewrite P in Hv. cbn [negb] in Hv. assert (Hu : Z.testbit e 2 = false) by (destruct Hcase as [[_ ?]|[_ (_ & _ & ? & _)]]; done).
  destruct (n_level _ =? 1); injection Hv as _ <-; rewrite ?Z.lor_spec, Z.land_spec, Hu; done.
Qed.

(** The part of a translation that user code can use. *)
Definition user_part (t : option (Z * Z)) : option (Z * Z) := match t with Some (a, fl) => if has fl VMM_USER then Some (plain (a, fl)) else None | None => None end.

Lemma user_part_plain t : user_part (plain <$> t) = user_part t.
Proof.
  destruct t as [[a fl]|]; [| done]. cbn. unfold VMM_USER. rewrite !has_bit, Z.ldiff_spec by lia. rewrite andb_true_r. destruct (Z.testbit fl 2); [| done]. unfold plain. cbn. do 2 f_equal. apply Z.bits_inj'. intros k Hk. rewrite !Z.ldiff_spec. by destruct (Z.testbit fl k), (Z.testbit VMM_HUGE k).
Qed.

Lemma user_part_kernel vm v : vmm_ok vm → user_part (view vm KERNEL v) = None.
Proof. intros [tree Hi]. destruct (view vm KERNEL v) as [[a fl]|] eqn:E; [| done]. cbn. unfold VMM_USER. rewrite has_bit by lia. by rewrite (kernel_supervisor _ _ _ _ _ Hi E). Qed.

(** Calls one after the other. *)
Inductive runs : vmm M S → list vm_op → vmm M S → Prop :=
  | runs_nil vm : runs vm [] vm
  | runs_cons vm o ok vm1 ops vm' : legal vm o → vm_step vm o = Ret (vm1, ok) → runs vm1 ops vm' → runs vm (o :: ops) vm'.

Lemma others_user vm vm' r r' v : vmm_ok vm → vmm_ok vm' → others (maps_of vm) (maps_of vm') r → r' ≠ r → is_u64 v → user_part (view vm' r' v) = user_part (view vm r' v).
Proof.
  intros Hi Hi' Ho Hr Hv%is_u64_pow. destruct (proj2 (Ho r' Hr) v Hv) as [E|(-> & E1 & E2)]; rewrite !at_maps in *; rewrite <- (user_part_plain (view vm' r' v)), <- (user_part_plain (view vm r' v)).
  - by rewrite E.
  - by rewrite E1, E2, !user_part_plain, !user_part_kernel.
Qed.

Lemma step_isolated vm o ok vm' r v : vmm_ok vm → legal vm o → vm_step vm o = Ret (vm', ok) → op_space o ≠ r ∨ (∃ r, o = Switch r) → is_u64 v → user_part (view vm' r v) = user_part (view vm r v).
Proof.
  intros Hi Hl E Hr Hv. destruct (vm_step_refines vm o Hi Hl) as (vm1 & ok1 & E1 & Hi' & He). rewrite E in E1. injection E1 as <- <-. assert (Hsame : same_maps (maps_of vm) (maps_of vm') → user_part (view vm' r v) = user_part (view vm r v)).
  { intros Hs. apply is_u64_pow in Hv. pose proof (proj2 (Hs r) v Hv) as E2. rewrite !at_maps in E2. by rewrite <- user_part_plain, E2, user_part_plain. }
  destruct (effect_others _ _ _ _ _ _ He) as [Ho|Hs]; [| by apply Hsame]. destruct Hr as [Hr|[r0 ->]]; [by apply (others_user vm vm' (op_space o)) | by destruct ok; apply Hsame].
Qed.

End refine.
