(* ===== verification/VmmInit.v ===== *)
(** * The kernel's own address space

    [vmm_init] makes the kernel's root table and maps the low memory onto itself: in
    pages of 4 KiB where the kernel's image or the start code of the other processors
    lies, in large pages elsewhere.  With the frames for the tables at hand it returns,
    and the map is the identity in which no page is both writable and executable. *)

From Stdlib Require Import ZArith Lia String.
From stdpp Require Import prelude list_numbers fin_maps zmap.
From S2P Require Import Prelude Update Array Arith CString Printf Log Bootinfo Memory PageMap Vmm VmmTables VmmSpaces VmmMapping VmmOps VmmRefine.

Local Open Scope Z_scope.

(** The memory one page directory maps. *)
Definition GIB : Z := 2 ^ 30.

(** ** Where the tables of an address are *)

Lemma pfx_small v l : 0 ≤ v < 2 ^ 48 → 1 ≤ l → pfx v l = v / (4096 * 512 ^ (l - 1)).
Proof. intros Hv Hl. unfold pfx, vpn. rewrite (Z.mod_small (v / 4096)) by (split; [apply Z.div_pos; lia | apply Z.div_lt_upper_bound; lia]). pose proof (Z.pow_pos_nonneg 512 (l - 1)). by rewrite Z.div_div by lia. Qed.

(** The addresses of a window have their last table in common. *)
Lemma reach_window tree r v v' : 0 ≤ v < GIB → 0 ≤ v' < GIB → same_window v v' → reach tree r v 0 → reach tree r v' 0.
Proof.
  unfold GIB, same_window. intros Hv Hv' Hw [p Hp]. exists p. rewrite Hp. unfold on_way. change (Z.of_nat 0 + 1) with 1. do 2 f_equal. rewrite !pfx_small by lia. exact Hw.
Qed.

Lemma reach_gib tree r v v' : 0 ≤ v < GIB → 0 ≤ v' < GIB → reach tree r v 1 → reach tree r v' 1.
Proof.
  unfold GIB. intros Hv Hv' [p Hp]. exists p. rewrite Hp. unfold on_way. change (Z.of_nat 1 + 1) with 2. do 2 f_equal. rewrite !pfx_small by lia. change (4096 * 512 ^ (2 + 1 - 1)) with (2 ^ 30). by rewrite !Z.div_small by lia.
Qed.

Lemma grows_reach l r v tree tree' n v' : grows l r v tree tree' → reach tree r v' n → reach tree' r v' n.
Proof. intros [Hg _] [p Hp]. exists p. auto. Qed.

(** A last table that is new is the one of [v]. *)
Lemma grows_window l r v tree tree' v' : grows l r v tree tree' → reach tree' r v' 0 → 0 ≤ v < GIB → 0 ≤ v' < GIB → reach tree r v' 0 ∨ l ≤ 1 ∧ same_window v v'.
Proof.
  unfold GIB, same_window. intros [_ Hg] [p Hp] Hv Hv'. destruct (Hg _ _ Hp) as [?|(l' & Hl & E)]; [left; by exists p |]. right. injection E as El Ep. rewrite <- El in *. change (Z.of_nat 0 + 1) with 1 in *. split; [done |].
  rewrite !pfx_small in Ep by lia. symmetry. exact Ep.
Qed.

Section init.
Context {M S : Type} `{FS : FrameSource M} `{CS : Cpus S}.
Context (kernel_start kernel_end text_start text_end rodata_start rodata_end data_start data_end bss_start bss_end : Z).

Implicit Types vm : vmm M S.

Abbreviation page_flags := (identity_4k_flags text_start text_end rodata_start rodata_end data_start data_end bss_start bss_end).
Abbreviation small_window := (identity_2m_window_requires_4k kernel_start kernel_end).

Definition window_of (v : Z) : Z := v / HUGE_SIZE * HUGE_SIZE.

(** What the kernel's space makes of [v]: the address itself, with the flags of its page. *)
Definition identity_at (v : Z) : Z * Z :=
  if small_window (window_of v) then (v, shown_flags (page_flags (v / PAGE_SIZE * PAGE_SIZE))) else (v, Z.lor (shown_flags (Z.lor VMM_WRITE VMM_NX)) VMM_HUGE).

(** The windows in pages of 4 KiB from the [c]-th on. *)
Definition small_windows (identity c : Z) : nat := length (filter (λ i, small_window (i * HUGE_SIZE) = true) (seqZ c (identity / HUGE_SIZE - c))).

(** The tables of the whole map: three on the way to the page directory, one for each of these windows. *)
Definition tables_needed (identity : Z) : nat := 3 + small_windows identity 0.

(** The tables that are missing on the way to [a], where everything below [a] is mapped. *)
Definition missing (a : Z) : nat := if a =? 0 then 3 else if a mod HUGE_SIZE =? 0 then 1 else 0.

Record filled (identity a : Z) vm (tree : Z → option node) : Prop := {
  fi_inv : vmm_inv vm tree;
  fi_view : ∀ v, 0 ≤ v < 2 ^ 64 → view vm KERNEL v = if v <? a then Some (identity_at v) else None;
  fi_reach : ∀ v, a ≤ v < GIB → same_window a v → reach tree KERNEL v (missing a);
  fi_free : ∀ v, a ≤ window_of v → v < GIB → ¬ reach tree KERNEL v 0;
  fi_alone : ∀ r, r ≠ KERNEL → root vm r = None;
  fi_room : room (missing a - 1 + small_windows identity ((a + HUGE_SIZE - 1) / HUGE_SIZE)) vm KERNEL;
}.

Lemma small_windows_step identity c : 0 ≤ c < identity / HUGE_SIZE → small_windows identity c = ((if small_window (c * HUGE_SIZE) then 1 else 0) + small_windows identity (c + 1))%nat.
Proof.
  intros Hc. unfold small_windows. rewrite (seqZ_cons c) by lia. replace (Z.pred (identity / HUGE_SIZE - c)) with (identity / HUGE_SIZE - (c + 1)) by lia. rewrite <- Z.add_1_r, filter_cons.
  destruct (small_window (c * HUGE_SIZE)); [by rewrite decide_True | by rewrite decide_False].
Qed.

(** *** One page *)

Lemma page_flags_cases v : page_flags v ∈ [Z.lor VMM_WRITE (Z.lor VMM_GLOBAL VMM_NX); VMM_GLOBAL; Z.lor VMM_GLOBAL VMM_NX; Z.lor VMM_WRITE VMM_NX].
Proof. unfold identity_4k_flags. repeat case_match; set_solver. Qed.

Lemma page_flags_valid s v : user_space s = false → vmm_is_canonical v = true → vmm_leaf_flags_valid_for_space kernel_start kernel_end (Some s) v (page_flags v) = true.
Proof.
  intros Hu Hc. pose proof (page_flags_cases v) as Hf. unfold vmm_leaf_flags_valid_for_space. rewrite Hc, Hu. rewrite !elem_of_cons, elem_of_nil in Hf. destruct Hf as [->|[->|[->|[->|[]]]]]; reflexivity.
Qed.

Lemma page_flags_range v : 0 ≤ page_flags v < 2 ^ 64.
Proof. pose proof (page_flags_cases v) as Hf. rewrite !elem_of_cons, elem_of_nil in Hf. destruct Hf as [->|[->|[->|[->|[]]]]]; by vm_compute. Qed.

Lemma aligned_has a k : 0 ≤ a → 0 ≤ k → a mod 2 ^ k = 0 → has a (2 ^ k - 1) = false.
Proof. intros Ha Hk Hm. unfold has. replace (2 ^ k - 1) with (Z.ones k) by (rewrite Z.ones_equiv; lia). rewrite Z.land_ones by done. by rewrite Hm. Qed.

Lemma kernel_space vm tree : vmm_inv vm tree → ∃ s, spaces vm !! KERNEL = Some s ∧ pml4_physical s ≠ 0 ∧ user_space s = false.
Proof. intros Hi. destruct (vi_kernel _ _ Hi) as (s & Hs & Hl). exists s. split_and!; [done.. |]. by destruct (so_root _ _ _ (vi_spaces _ _ Hi _ s Hs) Hl) as [_ ->]. Qed.

Lemma canonical_low v : 0 ≤ v < 2 ^ 47 → vmm_is_canonical v = true.
Proof. intros Hv. unfold vmm_is_canonical, VMM_CANONICAL_LOW_TOP. by btrue (v <? 0x0000800000000000). Qed.

(** The [x]-th page is in the window [x / 512]. *)
Lemma page_window x : 0 ≤ x → (4096 * x + HUGE_SIZE - 1) / HUGE_SIZE = (if x mod 512 =? 0 then x / 512 else x / 512 + 1).
Proof.
  intros Hx. unfold HUGE_SIZE. pose proof (Z.div_mod x 512 ltac:(lia)) as E. pose proof (Z.mod_pos_bound x 512 ltac:(lia)) as B. destruct (Z.eqb_spec (x mod 512) 0) as [E0|E0]; symmetry.
  - apply (Z.div_unique _ _ _ (2 * 1024 * 1024 - 1)); lia.
  - apply (Z.div_unique _ _ _ (4096 * (x mod 512) - 1)); lia.
Qed.

Lemma page_window_next x : 0 ≤ x → (4096 * (x + 1) + HUGE_SIZE - 1) / HUGE_SIZE = x / 512 + 1.
Proof.
  intros Hx. unfold HUGE_SIZE. pose proof (Z.div_mod x 512 ltac:(lia)) as E. pose proof (Z.mod_pos_bound x 512 ltac:(lia)) as B. symmetry. apply (Z.div_unique _ _ _ (4096 * (x mod 512 + 1) - 1)); lia.
Qed.

Lemma page_huge x : 4096 * x / HUGE_SIZE = x / 512.
Proof. change HUGE_SIZE with (4096 * 512). by rewrite Z.div_mul_cancel_l by lia. Qed.

Lemma page_huge_mod x : (4096 * x) mod HUGE_SIZE = 4096 * (x mod 512).
Proof. change HUGE_SIZE with (4096 * 512). by rewrite Z.mul_mod_distr_l by lia. Qed.

Lemma huge_page v : 0 ≤ v → v / HUGE_SIZE = v / 4096 / 512.
Proof. intros Hv. change HUGE_SIZE with (4096 * 512). by rewrite Z.div_div by lia. Qed.

Lemma window_below v : window_of v ≤ v.
Proof. unfold window_of, HUGE_SIZE. pose proof (Z.div_mod v (2 * 1024 * 1024) ltac:(lia)). pose proof (Z.mod_pos_bound v (2 * 1024 * 1024) ltac:(lia)). lia. Qed.

Lemma offset_in a k v : 0 ≤ k → v / 2 ^ k * 2 ^ k = a → a + Z.land v (2 ^ k - 1) = v.
Proof. intros Hk <-. replace (2 ^ k - 1) with (Z.ones k) by (rewrite Z.ones_equiv; lia). rewrite Z.land_ones by done. pose proof (Z.div_mod v (2 ^ k)). lia. Qed.

Lemma identity_page x v : 0 ≤ v → v / 4096 = x → small_window (window_of (4096 * x)) = true → page_at (4096 * x) (page_flags (4096 * x)) v = Some (identity_at v).
Proof.
  intros Hv Ex Hsw. unfold identity_at, page_at. assert (window_of v = window_of (4096 * x)) as -> by (unfold window_of; rewrite huge_page, page_huge by done; congruence). rewrite Hsw. unfold PAGE_SIZE. rewrite Ex, (Z.mul_comm x 4096).
  change (4096 - 1) with (2 ^ 12 - 1). rewrite offset_in; [done | lia | change (2 ^ 12) with 4096; lia].
Qed.

Lemma missing_page x : 0 ≤ x → missing (4096 * x) = if x =? 0 then 3%nat else if x mod 512 =? 0 then 1%nat else 0%nat.
Proof. intros Hx. unfold missing. rewrite page_huge_mod. destruct (Z.eqb_spec x 0) as [->|]; [done |]. bfalse (4096 * x =? 0). destruct (Z.eqb_spec (x mod 512) 0) as [->|]; [done |]. by bfalse (4096 * (x mod 512) =? 0). Qed.

Lemma tables_left identity x : 0 ≤ x → x / 512 < identity / HUGE_SIZE → small_window (window_of (4096 * x)) = true →
  (missing (4096 * x) - 1 + small_windows identity ((4096 * x + HUGE_SIZE - 1) / HUGE_SIZE) = missing (4096 * x) + small_windows identity ((4096 * (x + 1) + HUGE_SIZE - 1) / HUGE_SIZE))%nat.
Proof.
  intros Hx Hlt Hsw. rewrite page_window, page_window_next, missing_page by done. pose proof (Z.div_pos x 512 Hx ltac:(lia)) as H0. destruct (Z.eqb_spec (x mod 512) 0) as [E0|E0].
  - rewrite (small_windows_step identity (x / 512)) by lia. unfold window_of in Hsw. rewrite page_huge in Hsw. rewrite Hsw. destruct (x =? 0); lia.
  - by destruct (Z.eqb_spec x 0) as [->|].
Qed.

Lemma page_step identity x vm tree :
  filled identity (4096 * x) vm tree → 0 ≤ x → 4096 * (x + 1) ≤ identity → identity ≤ GIB → x / 512 < identity / HUGE_SIZE → small_window (window_of (4096 * x)) = true →
  ∃ vm' tree', vmm_map_4k kernel_start kernel_end vm (4096 * x) (4096 * x) (page_flags (4096 * x)) = Ret (vm', true) ∧ filled identity (4096 * (x + 1)) vm' tree'.
Proof.
  intros [Hi Hview Hreach Hfree Halone Hroom] Hx Hle Hid Hlt Hsw. rewrite tables_left in Hroom by done. set (a := 4096 * x) in *. unfold GIB in *. destruct (kernel_space _ _ Hi) as (s & Hs & Hlive & Hu). unfold vmm_map_4k.
  pose proof (page_flags_range a) as Hfr. pose proof (canonical_low a ltac:(lia)) as Hc. assert (Hal : a mod 2 ^ 12 = 0) by (unfold a; rewrite Z.mul_comm; by apply Z.mod_mul).
  assert (Hg : map_guard kernel_start kernel_end s a a (page_flags a) = true). { unfold map_guard. rewrite page_flags_valid by done. change (PAGE_SIZE - 1) with (2 ^ 12 - 1). rewrite aligned_has by (done || lia). by bfalse (pml4_physical s =? 0). }
  assert (Hm3 : (missing a ≤ 3)%nat) by (unfold missing; repeat case_match; lia).
  destruct (map_4k_spec kernel_start kernel_end (missing a) vm tree KERNEL s a a (page_flags a)) as (vm' & ok & -> & Hpost); [done.. | lia | lia | lia | intros _; by apply Hreach; [lia |] | done |].
  destruct ok; cbn [map_post] in Hpost.
  2: { exfalso. destruct Hpost as [_ [?|[?|[Hno|[? _]]]]]; [congruence | | | done]. { rewrite Hview, Z.ltb_irrefl in H by lia. done. } apply Hno. by eapply room_le; [| exact Hroom]; lia. }
  destruct Hpost as (_ & _ & Hch & _ & tree' & Hi' & Hgr & Hr0 & Hr). exists vm', tree'. split; [done |]. pose proof (Z.div_mod x 512 ltac:(lia)) as Ex. pose proof (Z.mod_pos_bound x 512 ltac:(lia)) as Bx. split; [done | | | | |].
  - intros v Hv. pose proof (Z.mod_pos_bound v 4096). pose proof (Z.div_mod v 4096). destruct (decide (x = v / 4096)) as [Ev|Ev].
    + rewrite (ch_here _ _ _ _ _ _ Hch v Hv) by (unfold same_page, PAGE_SIZE, a; rewrite Z.mul_comm, Z.div_mul by lia; done). rewrite aligned_addr by (done || lia). unfold a. rewrite identity_page by (done || lia). by btrue (v <? 4096 * (x + 1)).
    + etrans; [apply (ch_rest _ _ _ _ _ _ Hch v Hv); unfold same_page, PAGE_SIZE, a; by rewrite Z.mul_comm, Z.div_mul by lia |]. cbn [id]. rewrite Hview by done.
      destruct (Z.ltb_spec v a), (Z.ltb_spec v (4096 * (x + 1))); [done | lia | | done]. exfalso. unfold a in *. lia.
  - intros v Hv Hw. rewrite missing_page by lia. bfalse (x + 1 =? 0). destruct (Z.eqb_spec ((x + 1) mod 512) 0) as [E0|E0].
    + apply (reach_gib _ _ a); [unfold GIB in *; lia.. |]. by apply (reach_up _ _ _ _ _ (vi_tree _ _ Hi')); [| lia].
    + apply (reach_window _ _ a); [unfold GIB in *; lia.. | | done]. unfold same_window in *. rewrite <- Hw. unfold a. rewrite !page_huge. pose proof (Z.div_mod (x + 1) 512 ltac:(lia)). pose proof (Z.mod_pos_bound (x + 1) 512 ltac:(lia)). lia.
  - intros v Hv Hv' H0. pose proof (window_below v) as Hwb. destruct (grows_window _ _ _ _ _ v Hgr H0) as [H1|[_ Hw]]; [unfold GIB in *; lia.. | |].
    + apply (Hfree v); [lia | done | done].
    + unfold same_window in Hw. unfold window_of in Hv, Hwb. rewrite <- Hw in Hv. pose proof (window_below a). unfold window_of in *. lia.
  - intros r Hne. rewrite (ch_root _ _ _ _ _ _ Hch). by apply Halone.
  - rewrite missing_page by lia. bfalse (x + 1 =? 0). replace (_ - 1)%nat with 0%nat by (destruct (_ =? 0); done). by apply Hr.
Qed.

(** *** One window *)

Lemma missing_window c : 0 ≤ c → missing (c * HUGE_SIZE) = if c =? 0 then 3%nat else 1%nat.
Proof. intros Hc. unfold missing. rewrite Z.mod_mul by done. unfold HUGE_SIZE. destruct (Z.eqb_spec c 0) as [->|]; [done |]. by bfalse (c * (2 * 1024 * 1024) =? 0). Qed.

Lemma window_number c : (c * HUGE_SIZE + HUGE_SIZE - 1) / HUGE_SIZE = c.
Proof. symmetry. unfold HUGE_SIZE. apply (Z.div_unique _ _ _ (2 * 1024 * 1024 - 1)); lia. Qed.

Lemma identity_window c v : 0 ≤ v → v / HUGE_SIZE = c → small_window (c * HUGE_SIZE) = false → window_at (c * HUGE_SIZE) (Z.lor VMM_WRITE VMM_NX) v = Some (identity_at v).
Proof.
  intros Hv Ec Hsw. unfold identity_at, window_at, window_of. rewrite Ec, Hsw. change HUGE_SIZE with (2 ^ 21) in *. rewrite offset_in; [done | lia | by rewrite Ec].
Qed.

(** The entry of a window without its last table, that maps nothing, is free. *)
Lemma window_entry_free vm tree v pd e :
  vmm_inv vm tree → vmm_is_canonical v = true → view vm KERNEL v = None → ¬ reach tree KERNEL v 0 → tree pd = Some (on_way KERNEL v 2) → ent vm pd (idx v 2) = Some e → present e = false.
Proof.
  intros Hi Hc Hv Hr Hpd He. destruct (present e) eqn:P; [| done]. exfalso. destruct (way_child vm tree pd KERNEL v 2 e Hi Hpd ltac:(lia) He P) as [(Hlg & _)|[(_ & Hn & _)|(_ & ? & _)]]; [| apply Hr; by exists (addr e) | done].
  destruct (to_entry _ _ (vi_tree _ _ Hi) _ _ _ _ Hpd He) as [Hleaf|[(_ & _ & ?) _]]; [| congruence]. rewrite (way_view vm tree pd KERNEL v 2 e Hi Hpd He Hleaf Hc) in Hv. unfold shown in Hv. by rewrite P in Hv.
Qed.

Lemma large_step identity c vm tree :
  filled identity (c * HUGE_SIZE) vm tree → 0 ≤ c < identity / HUGE_SIZE → (c + 1) * HUGE_SIZE ≤ identity → identity ≤ GIB → small_window (c * HUGE_SIZE) = false →
  ∃ vm' tree', vmm_map_2m vm (c * HUGE_SIZE) (c * HUGE_SIZE) (Z.lor VMM_WRITE VMM_NX) = Ret (vm', true) ∧ filled identity ((c + 1) * HUGE_SIZE) vm' tree'.
Proof.
  intros [Hi Hview Hreach Hfree Halone Hroom] Hc Hle Hid Hsw. rewrite window_number, small_windows_step, Hsw in Hroom by done. cbn [Nat.add] in Hroom. set (a := c * HUGE_SIZE) in *. assert (Ha : 0 ≤ a ∧ a + HUGE_SIZE ≤ GIB) by (unfold a, HUGE_SIZE in *; lia). assert (Hbig : GIB = 2 ^ 30) by done.
  assert (Hal : a mod 2 ^ 21 = 0) by (by apply Z.mod_mul). assert (Hwa : window_of a = a) by (unfold window_of, a; by rewrite Z.div_mul). assert (HH : HUGE_SIZE = 2097152) by done. pose proof (canonical_low a ltac:(lia)) as Hcan.
  assert (Hm : missing a = Datatypes.S (missing a - 1) ∧ (missing a - 1 ≤ 2)%nat) by (unfold a; rewrite missing_window by lia; destruct (c =? 0); lia). destruct Hm as [Hm Hm2].
  destruct (map_2m_spec (missing a - 1) vm tree a a (Z.lor VMM_WRITE VMM_NX)) as (vm' & ok & -> & Hpost); [done | lia | lia | by vm_compute | rewrite <- Hm; by apply Hreach; [lia |] | done |].
  destruct ok; cbn [map_2m_post] in Hpost.
  2: { exfalso. destruct Hpost as [_ [Hg|[Hno|(pd & e & Hpd & He & P)]]].
    - unfold large_guard in Hg. rewrite Hcan in Hg. change (HUGE_SIZE - 1) with (2 ^ 21 - 1) in Hg. rewrite aligned_has in Hg by (done || lia). done.
    - apply Hno. by eapply room_le; [| exact Hroom]; lia.
    - rewrite (window_entry_free vm tree a pd e) in P; try done; [rewrite Hview by lia; by rewrite Z.ltb_irrefl |]. apply Hfree; lia. }
  destruct Hpost as (_ & _ & Hch & tree' & Hi' & Hgr & Hr1 & Hr). exists vm', tree'. split; [done |]. split; [done | | | | |].
  - intros v Hv. pose proof (Z.mod_pos_bound v HUGE_SIZE ltac:(lia)). pose proof (Z.div_mod v HUGE_SIZE ltac:(lia)). destruct (decide (c = v / HUGE_SIZE)) as [Ev|Ev].
    + rewrite (ch_here _ _ _ _ _ _ Hch v Hv) by (unfold same_window, a; by rewrite Z.div_mul by lia). rewrite aligned_addr; [| lia | change 4096 with (2 ^ 12); unfold a; change HUGE_SIZE with (2 ^ 9 * 2 ^ 12); by rewrite Z.mul_assoc, Z.mod_mul]. unfold a. rewrite identity_window by (done || lia). by btrue (v <? (c + 1) * HUGE_SIZE).
    + etrans; [apply (ch_rest _ _ _ _ _ _ Hch v Hv); unfold same_window, a; by rewrite Z.div_mul by lia |]. cbn [id]. rewrite Hview by done. destruct (Z.ltb_spec v a), (Z.ltb_spec v ((c + 1) * HUGE_SIZE)); [done | lia | | done]. exfalso. unfold a in *. nia.
  - intros v Hv Hw. rewrite missing_window by lia. bfalse (c + 1 =? 0). apply (reach_gib _ _ a); [lia.. | done].
  - intros v Hv Hv' H0. pose proof (window_below v) as Hwb. destruct (grows_window _ _ _ _ _ v Hgr H0) as [H1|[? _]]; [lia.. | apply (Hfree v); [lia | done | done] | done].
  - intros r Hne. rewrite (ch_root _ _ _ _ _ _ Hch). by apply Halone.
  - rewrite missing_window, window_number by lia. bfalse (c + 1 =? 0). by apply Hr.
Qed.

Lemma window_step identity c vm tree :
  filled identity (c * HUGE_SIZE) vm tree → 0 ≤ c < identity / HUGE_SIZE → (c + 1) * HUGE_SIZE ≤ identity → identity ≤ GIB →
  ∃ vm', map_window kernel_start kernel_end text_start text_end rodata_start rodata_end data_start data_end bss_start bss_end vm (c * HUGE_SIZE) identity = Ret vm' ∧ ∃ tree', filled identity ((c + 1) * HUGE_SIZE) vm' tree'.
Proof.
  intros Hf Hc Hle Hid. unfold map_window. destruct (small_window (c * HUGE_SIZE)) eqn:Hsw.
  2: { destruct (large_step identity c vm tree Hf Hc Hle Hid Hsw) as (vm' & tree' & -> & Hf'). mred. eauto. }
  assert (HH : HUGE_SIZE = 512 * 4096) by done. replace (Z.min _ PT_ENTRIES) with 512.
  2: { symmetry. apply Z.min_r. unfold PT_ENTRIES, PAGE_SIZE. apply Z.div_le_lower_bound; lia. }
  match goal with |- context [for_n ?n ?i ?f ?t] => destruct (for_n_inv (λ j vm, ∃ tree, filled identity (4096 * (512 * c + j)) vm tree) f n i t) as (vm' & E & tree' & Hf') end.
  - exists tree. by replace (4096 * (512 * c + 0)) with (c * HUGE_SIZE) by lia.
  - intros j vm' Hj (tree' & Hf'). assert (Hpg : c * HUGE_SIZE + j * PAGE_SIZE = 4096 * (512 * c + j)) by (unfold PAGE_SIZE; lia). rewrite Hpg. assert (Hd : (512 * c + j) / 512 = c) by (symmetry; apply (Z.div_unique _ _ _ j); lia).
    destruct (page_step identity (512 * c + j) vm' tree') as (vm'' & tree'' & -> & Hf''); [done | lia | lia | done | lia | unfold window_of; by rewrite page_huge, Hd |]. mred. exists vm''. split; [done |]. exists tree''. by rewrite Z.add_assoc.
  - exists vm'. split; [done |]. exists tree'. by replace ((c + 1) * HUGE_SIZE) with (4096 * (512 * c + (0 + Z.of_nat (Z.to_nat 512)))) by lia.
Qed.

(** *** From the first table on *)

(** Before [vmm_init] there are no tables. *)
Definition blank vm : Prop := tables vm = ∅ ∧ spaces vm = ∅ ∧ frames_ok (source vm).

(** The tree of a single root. *)
Definition sapling (q : Z) : Z → option node := λ p, if p =? q then Some (mk_node KERNEL 4 0) else None.

Lemma sapling_inv q p n : sapling q p = Some n → p = q ∧ n = mk_node KERNEL 4 0.
Proof. unfold sapling. destruct (Z.eqb_spec p q); [by intros [= <-] | done]. Qed.

Lemma sapling_ok en q : 0 < q → addr q = q → (∀ p i, en p i = if p =? q then (if (0 <=? i) && (i <? 512) then Some 0 else None) else None) → tree_ok en (sapling q).
Proof.
  intros Hq Ha Hen. split.
  - intros p i. rewrite Hen. unfold sapling. destruct (p =? q); [| by split; [intros [? ?] | intros [[? ?] _]]]. destruct (Z.leb_spec 0 i), (Z.ltb_spec i 512); cbn [andb]; split; try (by intros [? ?]); intros; try lia; repeat split; eauto; lia.
  - by intros p n [-> ->]%sapling_inv.
  - by intros p p' n [-> ->]%sapling_inv [-> _]%sapling_inv.
  - intros p n [-> ->]%sapling_inv. cbn. lia.
  - intros p n i e [-> ->]%sapling_inv. rewrite Hen, Z.eqb_refl. destruct (_ && _); [| done]. intros [= <-]. by left; left.
  - intros p n i e [-> ->]%sapling_inv. rewrite Hen, Z.eqb_refl. destruct (_ && _); [| done]. intros [= <-] (? & _). done.
  - intros p n [-> ->]%sapling_inv. cbn. lia.
Qed.

Lemma root_filled identity vm q s :
  0 < q → addr q = q → (∀ p i, ent vm p i = if p =? q then (if (0 <=? i) && (i <? 512) then Some 0 else None) else None) → frames_ok (source vm) → held (source vm) q →
  spaces vm = {[KERNEL := s]} → pml4_physical s = q → owned_tables s = padded [q] → owned_count s = 1 → user_space s = false → zlen (tlb_seen_generation s) = SMP_MAX_CPUS → vmm_current_space_local vm = KERNEL →
  enough (2 + small_windows identity 0) (source vm) → (tables_needed identity ≤ 128)%nat → filled identity 0 vm (sapling q).
Proof.
  intros Hq Ha Hen Hf Hh Hsp Hpml Hown Hcnt Hus Hseen Hcur Hen2 Hmax. pose proof (sapling_ok _ _ Hq Ha Hen) as Ht. assert (Hk : spaces vm !! KERNEL = Some s) by (by rewrite Hsp, lookup_singleton_eq).
  assert (Hrt : root vm KERNEL = Some q) by (unfold root; rewrite Hk, Hpml; by bfalse (q =? 0)). assert (Hnode : sapling q q = Some (mk_node KERNEL 4 0)) by (unfold sapling; by rewrite Z.eqb_refl). split.
  - split; try done.
    + by intros p n [-> ->]%sapling_inv.
    + intros r s'. rewrite Hsp. intros [<- <-]%lookup_singleton_Some. split; [| done | by rewrite Hpml | intros E; rewrite Hpml in E; lia].
      exists [q]. split_and!; [done | by rewrite Hcnt | cbn; lia | apply NoDup_singleton |]. intros p. rewrite list_elem_of_singleton. split; [intros ->; eauto | by intros (n & [-> _]%sapling_inv & _)].
    + intros p n [-> ->]%sapling_inv. cbn [n_owner]. rewrite Hk. by eexists.
    + exists s. split; [done | lia].
    + rewrite Hcur, Hk. by eexists.
  - intros v Hv. bfalse (v <? 0). unfold view. rewrite Hrt. destruct (vmm_is_canonical v); [| done]. cbn [mbind option_bind]. assert (E0 : ent vm q (idx v 4) = Some 0) by (rewrite Hen, Z.eqb_refl; pose proof (idx_range v 4); btrue (0 <=? idx v 4); by btrue (idx v 4 <? 512)).
    unfold look. by rewrite walk_absent.
  - intros v _ _. exists q. change (Z.of_nat (missing 0) + 1) with 4. by rewrite way_top.
  - intros v _ _ [p Hp]. apply sapling_inv in Hp as [_ Hp]. by injection Hp.
  - intros r Hr. unfold root. rewrite Hsp, lookup_singleton_ne; done.
  - change (missing 0 - 1)%nat with 2%nat. change ((0 + HUGE_SIZE - 1) / HUGE_SIZE) with 0. split; [done |]. exists s. split; [done |]. rewrite Hcnt. unfold tables_needed in Hmax. change VMM_SPACE_MAX_TABLES with 128. lia.
Qed.

(** The memory mapped for a call of [vmm_init]: at least 64 MiB and the image, in whole windows. *)
Definition identity_size (bytes : Z) : Z := (Z.max (Z.max bytes (64 * 1024 * 1024)) kernel_end + (HUGE_SIZE - 1)) / HUGE_SIZE * HUGE_SIZE.

Lemma identity_size_bound bytes : bytes ≤ GIB → kernel_end ≤ GIB → 64 * 1024 * 1024 ≤ identity_size bytes ≤ GIB ∧ kernel_end ≤ identity_size bytes ∧ bytes ≤ identity_size bytes.
Proof.
  intros Hb Hk. unfold identity_size. set (x := Z.max _ kernel_end). assert (Hx : 64 * 1024 * 1024 ≤ x ≤ GIB ∧ kernel_end ≤ x ∧ bytes ≤ x) by (unfold x, GIB in *; lia). unfold GIB, HUGE_SIZE in *. 
  pose proof (Z.div_mod (x + (2 * 1024 * 1024 - 1)) (2 * 1024 * 1024) ltac:(lia)). pose proof (Z.mod_pos_bound (x + (2 * 1024 * 1024 - 1)) (2 * 1024 * 1024) ltac:(lia)). 
  assert ((x + (2 * 1024 * 1024 - 1)) / (2 * 1024 * 1024) ≤ 512) by (apply Z.lt_succ_r, Z.div_lt_upper_bound; lia). lia.
Qed.

Lemma identity_size_windows bytes : identity_size bytes = identity_size bytes / HUGE_SIZE * HUGE_SIZE.
Proof. unfold identity_size. by rewrite Z.div_mul. Qed.

Lemma identity_size_align bytes : 0 ≤ bytes ≤ GIB → 0 ≤ kernel_end ≤ GIB →
  (let bytes := if bytes <? 64 * 1024 * 1024 then 64 * 1024 * 1024 else bytes in let bytes := if bytes <? kernel_end then kernel_end else bytes in align_up_u64_checked bytes HUGE_SIZE true) = Some (identity_size bytes).
Proof.
  intros Hb Hk. cbv zeta. unfold identity_size. set (x := Z.max (Z.max bytes _) _). assert (Hif : (if (if bytes <? 64 * 1024 * 1024 then 64 * 1024 * 1024 else bytes) <? kernel_end then kernel_end else (if bytes <? 64 * 1024 * 1024 then 64 * 1024 * 1024 else bytes)) = x).
  { unfold x. destruct (Z.ltb_spec bytes (64 * 1024 * 1024)); match goal with |- context [?p <? ?q] => destruct (Z.ltb_spec p q) end; lia. }
  rewrite Hif. assert (0 ≤ x ≤ GIB) by (unfold x, GIB in *; lia). change HUGE_SIZE with (2 ^ 21). rewrite align_up_u64_checked_pow2; [| unfold GIB in *; ulia | lia]. unfold GIB, U64MAX in *. by btrue (x + (2 ^ 21 - 1) <=? 18446744073709551615).
Qed.

Lemma track_first vm r q : q ≠ 0 → spaces vm !! r = Some zero_space → ∃ st, track_table vm r q = Ret ((put_space vm r (tracked zero_space [q])) <| stats := st |>, true).
Proof. intros Hq Hr. unfold track_table, get_space. bfalse (q =? 0). rewrite Hr. mred. change (wr _ _ q) with (wr (padded []) (zlen (@nil Z)) q). rewrite padded_wr by (cbn; lia). mred. by eexists. Qed.

Lemma make_root identity vm :
  blank vm → enough (tables_needed identity) (source vm) → (tables_needed identity ≤ 128)%nat →
  ∃ vm1 q, alloc_kernel_table ((put_space vm KERNEL zero_space) <| stats := zero_stats |>) = Ret (vm1, q) ∧ ∃ k, get_space vm1 KERNEL = Ret k ∧ ∃ vm2, vmm_set_current_space_local (put_space vm1 KERNEL (k <| pml4_physical := q |>)) (Some KERNEL) = Ret vm2 ∧ filled identity 0 vm2 (sapling q).
Proof.
  intros (Ht & Hsp & Hf) Hen Hmax. destruct (alloc_page_law (source vm) VMM_KERNEL_DIRECT_LIMIT Hf ltac:(done)) as (m & q & Ea & Hf' & Hq). unfold tables_needed in Hen. cbn [Nat.add enough] in Hen. destruct Hen as (m' & q' & Ea' & Hq0 & Hen). rewrite Ea in Ea'. injection Ea' as <- <-.
  destruct Hq as [[-> _]|(Hq1 & Hqm & Hql & Hnh & Hh)]; [done |]. unfold alloc_kernel_table, alloc_table_for. cbn [source put_space set_field]. rewrite Ea. mred. bfalse (q =? 0).
  match goal with |- context [track_table ?v KERNEL q] => destruct (track_first v KERNEL q ltac:(lia)) as (st & Etr); [apply lookup_insert_eq |] end. rewrite Etr. mred. cbn [negb]. mred. bfalse (q =? 0). eexists _, q. split; [done |]. unfold get_space. cbn [spaces set_field put_space]. rewrite lookup_insert_eq. eexists. split; [done |].
  unfold vmm_set_current_space_local. cbv zeta. change (default KERNEL (Some KERNEL)) with KERNEL. match goal with |- context [vmm_mark_space_active_on_current_cpu ?v KERNEL] => destruct (mark_active_spec v KERNEL ((tracked zero_space [q]) <| pml4_physical := q |>)) as (s' & x & Hqt & ->) end; [cbn; by rewrite lookup_insert_eq | done |].
  eexists. split; [done |]. destruct Hqt as [Q1 Q2 Q3 Q4 Q5]. apply (root_filled _ _ q s'); cbn [tables source spaces set_field put_space]; try done.
  - by apply table_addr.
  - intros p i. erewrite (ent_new vm) by done. destruct (p =? q); [done |]. unfold ent. by rewrite Ht, lookup_empty.
  - apply Hh. by right.
  - by rewrite Hsp, !insert_insert_eq.
  - exact (current_set vm KERNEL ∅ x).
Qed.

Abbreviation init := (vmm_init kernel_start kernel_end text_start text_end rodata_start rodata_end data_start data_end bss_start bss_end).

Lemma vmm_init_spec vm bytes :
  blank vm → 0 ≤ bytes ≤ GIB → 0 ≤ kernel_end ≤ GIB → enough (tables_needed (identity_size bytes)) (source vm) → (tables_needed (identity_size bytes) ≤ 128)%nat →
  ∃ vm', init vm bytes = Ret vm' ∧ vmm_ok vm' ∧ (∀ v, 0 ≤ v < 2 ^ 64 → view vm' KERNEL v = if v <? identity_size bytes then Some (identity_at v) else None) ∧
    (∀ r, r ≠ KERNEL → root vm' r = None) ∧ root vm' KERNEL = Some (cr3 vm') ∧ identity_bytes (stats vm') = identity_size bytes.
Proof.
  intros Hbl Hb Hk Hen Hmax. pose proof (identity_size_align bytes Hb Hk) as Eal. cbv zeta in Eal. pose proof (identity_size_bound bytes (proj2 Hb) (proj2 Hk)) as (Hsz & _). pose proof (identity_size_windows bytes) as Hwin. pose proof (Z.div_pos (identity_size bytes) HUGE_SIZE ltac:(lia) ltac:(done)) as Hn0.
  set (identity := identity_size bytes) in *. destruct (make_root identity vm Hbl Hen Hmax) as (vm1 & q & E1 & k & E2 & vm2 & E3 & Hf2). unfold vmm_init. rewrite E1. mred. rewrite E2. mred. rewrite E3. mred. rewrite Eal. assert (HH : 0 < HUGE_SIZE) by done.
  match goal with |- context [for_n ?n ?i ?f ?t] => destruct (for_n_inv (λ c vm, ∃ tree, filled identity (c * HUGE_SIZE) vm tree) f n i t) as (vm3 & E4 & tree & Hf3) end.
  - by exists (sapling q).
  - intros c vm' Hc (tree & Hf). destruct (window_step identity c vm' tree Hf) as (vm'' & E & Hf''); [lia | nia | lia |]. by exists vm''.
  - rewrite E4. mred. replace ((0 + Z.of_nat (Z.to_nat (identity / HUGE_SIZE))) * HUGE_SIZE) with identity in Hf3 by lia. destruct Hf3 as [Hi Hv _ _ Halone _]. destruct (kernel_space _ _ Hi) as (s & Hs & Hl & _). unfold get_space. rewrite Hs. mred.
    eexists. split; [done |]. split; [exists tree; eapply same_inv; [| exact Hi]; done |]. split; [done |]. split; [exact Halone |]. split; [| done]. unfold root. cbn. rewrite Hs. by bfalse (pml4_physical s =? 0).
Qed.

(** ** What the map protects *)

Lemma identity_fst v : (identity_at v).1 = v.
Proof. unfold identity_at. by destruct (small_window _). Qed.

Lemma identity_wx v : has (identity_at v).2 VMM_WRITE = true → has (identity_at v).2 VMM_NX = true.
Proof.
  unfold identity_at. destruct (small_window _); cbn [snd]; [| by vm_compute]. pose proof (page_flags_cases (v / PAGE_SIZE * PAGE_SIZE)) as Hf. rewrite !elem_of_cons, elem_of_nil in Hf. destruct Hf as [->|[->|[->|[->|[]]]]]; by vm_compute.
Qed.

Lemma identity_supervisor v : has (identity_at v).2 VMM_USER = false.
Proof.
  unfold identity_at. destruct (small_window _); cbn [snd]; [| by vm_compute]. pose proof (page_flags_cases (v / PAGE_SIZE * PAGE_SIZE)) as Hf. rewrite !elem_of_cons, elem_of_nil in Hf. destruct Hf as [->|[->|[->|[->|[]]]]]; by vm_compute.
Qed.

(** The sections of the image ([kernel.ld]): whole pages, in this order. *)
Record image_layout : Prop := {
  il_low : 0x10000 = kernel_start;
  il_pages : ∀ x, x ∈ [text_start; text_end; rodata_start; rodata_end; data_start; data_end; bss_start; bss_end] → x mod PAGE_SIZE = 0;
  il_order : kernel_start = text_start ∧ text_start ≤ text_end ∧ text_end = rodata_start ∧ rodata_start ≤ rodata_end ∧ rodata_end = data_start ∧ data_start ≤ data_end ∧ data_end = bss_start ∧ bss_start ≤ bss_end ∧ bss_end = kernel_end;
}.

Lemma image_page p : kernel_start ≤ p < kernel_end → p mod PAGE_SIZE = 0 → identity_at p = (p, shown_flags (page_flags p)).
Proof.
  intros Hp Hm. unfold identity_at. replace (small_window (window_of p)) with true; [unfold PAGE_SIZE in *; replace (p / 4096 * 4096) with p; [done |]; pose proof (Z.div_mod p 4096); lia |].
  symmetry. pose proof (Z.div_mod p HUGE_SIZE ltac:(done)) as Hd. pose proof (Z.mod_pos_bound p HUGE_SIZE ltac:(done)) as Hb. unfold identity_2m_window_requires_4k, vmm_ranges_overlap, window_of, HUGE_SIZE in *.
  btrue (kernel_start <? kernel_end). apply orb_true_iff. left. rewrite !andb_true_iff, !Z.ltb_lt. lia.
Qed.

Lemma align_down_page x : is_u64 x → x mod PAGE_SIZE = 0 → align_down_uptr x PAGE_SIZE = x.
Proof. intros Hx Hm. unfold align_down_uptr, PAGE_SIZE in *. change 4096 with (2 ^ 12) in *. rewrite land_align_mask by (done || lia). pose proof (Z.div_mod x (2 ^ 12)). lia. Qed.

Lemma align_up_page x : 0 ≤ x ≤ GIB → x mod PAGE_SIZE = 0 → align_up_uptr x PAGE_SIZE = x.
Proof.
  intros Hx Hm. unfold align_up_uptr, align_up_uptr_checked, PAGE_SIZE, GIB in *. change (has 4096 (4096 - 1)) with false. cbn [Z.eqb orb]. unfold add_u64, U64MAX. btrue (x + (4096 - 1) <=? 18446744073709551615). cbn [default]. change 4096 with (2 ^ 12) in *. rewrite land_align_mask by (ulia || lia).
  pose proof (Z.div_mod x (2 ^ 12) ltac:(lia)) as Hd. replace (x + (2 ^ 12 - 1)) with (x / 2 ^ 12 * 2 ^ 12 + (2 ^ 12 - 1)) by lia. rewrite Z.div_add_l by lia. change ((2 ^ 12 - 1) / 2 ^ 12) with 0. change (2 ^ 12) with 4096 in *. cbn [id]. lia.
Qed.

Lemma range_has_flags vm tree start e required forbidden :
  vmm_inv vm tree → 0 ≤ start → start ≤ e ≤ GIB → start mod PAGE_SIZE = 0 → e mod PAGE_SIZE = 0 →
  (∀ p, start ≤ p < e → p mod PAGE_SIZE = 0 → ∃ fl, view vm KERNEL p = Some (p, fl) ∧ Z.land fl required = required ∧ has fl forbidden = false ∧ has fl VMM_HUGE = false) →
  vmm_range_has_flags vm start e required forbidden = Ret true.
Proof.
  intros Hi H0 He Hs Hm Hp. destruct (kernel_space _ _ Hi) as (s & Hk & _). unfold vmm_range_has_flags. destruct (Z.leb_spec e start); [done |]. rewrite align_down_page by (unfold GIB in *; ulia || done). rewrite align_up_page by (done || lia).
  match goal with |- context [loop_n ?n ?i ?f ?t] => destruct (loop_n_inv (λ _ (_ : unit), True) (λ _, False) f n i t) as [(u & E & _)|(b & _ & [])] end; [done | | by rewrite E].
  intros j [] Hj _. left. exists tt. split; [| done]. set (p := start + j * PAGE_SIZE). assert (Hpr : start ≤ p < e). { assert ((e - start) / PAGE_SIZE * PAGE_SIZE ≤ e - start) by (unfold PAGE_SIZE; pose proof (Z.mul_div_le (e - start) 4096); lia). unfold p, PAGE_SIZE in *. lia. }
  destruct (Hp p Hpr) as (fl & Ev & Er & Ef & Eh). { unfold p. by rewrite Z.mod_add. } rewrite (translate_spec vm tree KERNEL s p Hi Hk ltac:(lia)). mred. rewrite Ev, Z.eqb_refl, Er, Z.eqb_refl, Ef, Eh. done.
Qed.

Local Ltac in_list := rewrite !elem_of_cons; tauto.

Lemma protection_status vm bytes : vmm_ok vm → image_layout → kernel_end ≤ GIB → kernel_end ≤ identity_size bytes → (∀ v, 0 ≤ v < 2 ^ 64 → view vm KERNEL v = if v <? identity_size bytes then Some (identity_at v) else None) →
  vmm_kernel_protection_status text_start text_end rodata_start rodata_end data_start data_end bss_start bss_end vm = Ret (true, true, true).
Proof.
  intros [tree Hi] [Hlow Hpages Hord] HG Hk Hv. unfold GIB in *.
  assert (Hsec : ∀ start e fl required forbidden, start ∈ [text_start; rodata_start; data_start; bss_start] → e ∈ [text_end; rodata_end; data_end; bss_end] → start ≤ e → (∀ p, start ≤ p < e → page_flags p = fl) →
    Z.land (shown_flags fl) required = required → has (shown_flags fl) forbidden = false → has (shown_flags fl) VMM_HUGE = false → vmm_range_has_flags vm start e required forbidden = Ret true).
  { intros start e fl required forbidden Hs He Hle Hfl E1 E2 E3. assert (kernel_start ≤ start ∧ e ≤ kernel_end) by (rewrite !elem_of_cons, elem_of_nil in Hs, He; intuition lia). eapply range_has_flags; [done | lia | unfold GIB; lia | apply Hpages; rewrite !elem_of_cons, elem_of_nil in *; tauto.. |].
    intros p Hp Hm. exists (shown_flags fl). split; [| done]. rewrite Hv by lia. btrue (p <? identity_size bytes). rewrite image_page by (done || lia). by rewrite Hfl by lia. }
  unfold vmm_kernel_protection_status. assert (Htr : ∀ p, kernel_start ≤ p → identity_page_is_smp_trampoline p = false) by (intros p Hp; unfold identity_page_is_smp_trampoline, VMM_SMP_TRAMPOLINE_BASE, VMM_SMP_TRAMPOLINE_SIZE, PAGE_SIZE; apply andb_false_iff; right; apply Z.ltb_ge; lia).
  assert (Hin : ∀ p a b, a ≤ p < b → page_overlaps p a b = true) by (intros p a b Hab; unfold page_overlaps, PAGE_SIZE; rewrite !andb_true_iff, !Z.ltb_lt; lia). assert (Hout : ∀ p a b, b ≤ p → page_overlaps p a b = false) by (intros p a b Hb; unfold page_overlaps; bfalse (p <? b); by rewrite andb_false_r).
  rewrite (Hsec text_start text_end VMM_GLOBAL); [| in_list | in_list | lia | intros p Hp; unfold identity_4k_flags; rewrite Htr, Hin by lia; done | done..]. mred.
  rewrite (Hsec rodata_start rodata_end (Z.lor VMM_GLOBAL VMM_NX)); [| in_list | in_list | lia | intros p Hp; unfold identity_4k_flags; rewrite Htr, (Hout p text_start), Hin by lia; done | done..]. mred.
  rewrite (Hsec data_start data_end (Z.lor VMM_WRITE (Z.lor VMM_GLOBAL VMM_NX))); [| in_list | in_list | lia | intros p Hp; unfold identity_4k_flags; rewrite Htr, (Hout p text_start), (Hout p rodata_start), Hin by lia; done | done..]. mred.
  rewrite (Hsec bss_start bss_end (Z.lor VMM_WRITE (Z.lor VMM_GLOBAL VMM_NX))); [| in_list | in_list | lia | intros p Hp; unfold identity_4k_flags; rewrite Htr, (Hout p text_start), (Hout p rodata_start), (Hout p data_start), Hin by lia; done | done..]. done.
Qed.

End init.
