(* ===== verification/VmmFrames.v ===== *)
(** * The frame allocator under the page tables

    [Memory]'s allocator is the [FrameSource] of [Vmm]: a frame is held while its
    reference count is one.  One processor without a block of its own, which is what
    runs until the others are started, is an instance of [Cpus]. *)

From Stdlib Require Import ZArith Lia String.
From stdpp Require Import prelude list_numbers fin_maps zmap.
From S2P Require Import Prelude Update Array Arith CString Printf Log Bootinfo Memory PageMap Vmm VmmTables VmmSpaces VmmMapping VmmOps VmmRefine VmmInit.

Local Open Scope Z_scope.

Section frames.
Context (kernel_start kernel_end : Z) (kernel_range : 0 <= kernel_start <= kernel_end) (kernel_u64 : kernel_end <= U64MAX).

Definition mem_ok (m : mem_state) : Prop := ∃ n c, holds m n c ∧ reserved_used kernel_start kernel_end n c.

Definition mem_held (m : mem_state) (p : Z) : Prop := 0 < p ∧ valid_run kernel_start kernel_end (frame_count m) p 1 ∧ rc m (p / PAGE_SIZE) = 1.

Lemma held_count m n c p : holds m n c → mem_held m p ↔ 0 < p ∧ valid_run kernel_start kernel_end n p 1 ∧ c (p / PAGE_SIZE) = 1.
Proof.
  intros Hh. unfold mem_held. rewrite (h_count _ _ _ Hh). split; intros (Hp & Hv & Hc); (split_and!; [done.. |]); pose proof (valid_run_index _ _ n p ltac:(lia) Hv); [by rewrite <- (h_rc _ _ _ Hh) | by rewrite (h_rc _ _ _ Hh)].
Qed.

(** A frame that nobody uses is not reserved. *)
Lemma free_valid n c b : reserved_used kernel_start kernel_end n c → 0 ≤ b → b + 1 ≤ n → c b = 0 → 0 < b * PAGE_SIZE ∧ valid_run kernel_start kernel_end n (b * PAGE_SIZE) 1.
Proof.
  intros Hr Hb Hn Hc. assert (Hno : ∀ x, b * PAGE_SIZE ≤ x < b * PAGE_SIZE + 1 * PAGE_SIZE → ¬ reserved_byte kernel_start kernel_end x). { intros x Hx Hx'. specialize (Hr b x ltac:(lia) ltac:(unfold PAGE_SIZE in *; lia) Hx'). lia. }
  assert (b ≠ 0). { intros ->. apply (Hno 0); [done |]. left. lia. } unfold PAGE_SIZE in *. split; [lia |]. split_and!; [lia | done | by apply Z.mod_mul | rewrite Z.div_mul by done; lia | done].
Qed.

Lemma page_index_eq p b : p mod PAGE_SIZE = 0 → p / PAGE_SIZE = b ↔ p = b * PAGE_SIZE.
Proof. intros Hm. unfold PAGE_SIZE in *. pose proof (Z.div_mod p 4096). split; [lia | intros ->; by rewrite Z.div_mul]. Qed.

Lemma in_run_one b f : in_run b 1 f = (f =? b).
Proof. destruct (in_run_spec b 1 f), (Z.eqb_spec f b); try done; lia. Qed.

Lemma mem_alloc_law m limit : mem_ok m → 0 ≤ limit → ∃ m' r, memory_alloc_page_below m limit = Ret (m', r) ∧ mem_ok m' ∧
  (r = 0 ∧ (∀ p, mem_held m' p ↔ mem_held m p) ∨ 0 < r ∧ r mod PAGE_SIZE = 0 ∧ r + PAGE_SIZE ≤ limit ∧ ¬ mem_held m r ∧ (∀ p, mem_held m' p ↔ mem_held m p ∨ p = r)).
Proof.
  intros (n & c & Hh & Hr) Hl. unfold memory_alloc_page_below. destruct (alloc_spec m n c 1 limit Hh ltac:(lia) Hl) as (m' & r & -> & [(-> & -> & _)|(b & _ & -> & Hb & Hbl & Hbn & Hfree & Hfirst & Hh' & _)]); eexists _, _; (split; [done |]).
  { split; [by exists n, c |]. by left. }
  assert (Hcb : c b = 0) by (apply Hfree; lia). destruct (free_valid n c b Hr Hb Hbn Hcb) as [Hpos Hv]. split.
  - exists n, (fill c b 1 1). split; [done |]. by eapply (abs_step_reserved kernel_start kernel_end n c (OpAlloc 1 limit)); [cbn; lia | done | by apply abs_alloc].
  - right. split_and!; [done | by apply Z.mod_mul | lia | |].
    + rewrite (held_count _ _ _ _ Hh). intros (_ & _ & Hc1). rewrite Z.div_mul in Hc1 by done. lia.
    + intros p. rewrite (held_count _ _ _ _ Hh), (held_count _ _ _ _ Hh'). unfold fill. rewrite in_run_one. split.
      * intros (Hp & Hvp & Hc1). destruct (Z.eqb_spec (p / PAGE_SIZE) b) as [E|E]; [right; apply page_index_eq; [apply Hvp | done] | by left].
      * intros [(Hp & Hvp & Hc1)| ->]; [split_and!; [done.. |]; destruct (_ =? b); [done | exact Hc1] |]. split_and!; [done.. |]. by rewrite Z.div_mul, Z.eqb_refl.
Qed.

Lemma mem_free_law m p : mem_ok m → mem_held m p → ∃ m', memory_free_page kernel_start kernel_end m p = Ret m' ∧ mem_ok m' ∧ (∀ q, mem_held m' q ↔ mem_held m q ∧ q ≠ p).
Proof.
  intros (n & c & Hh & Hr) Hheld. pose proof Hheld as (Hp & Hv & Hc)%(held_count _ _ _ _ Hh). destruct (free_step kernel_start kernel_end kernel_range kernel_u64 m n c p 1 Hh ltac:(lia) ltac:(lia)) as (o & Ho & Hm).
  pose proof (abs_step_reserved kernel_start kernel_end n c (OpFree p 1)) as Hres. unfold memory_free_page. cbn [mem_step] in Hm. inversion Ho; subst; [| by replace f with (p / PAGE_SIZE) in * by lia | done].
  destruct (memory_free_contiguous_pages kernel_start kernel_end m p 1) as [m'|[]]; [| done..]. cbn in Hm. destruct Hm as [_ Hh']. exists m'. split; [done |]. split; [exists n; eexists; split; [exact Hh' |]; eapply Hres; [cbn; lia | done | exact Ho] |].
  intros q. rewrite (held_count _ _ _ _ Hh), (held_count _ _ _ _ Hh'). unfold fill. rewrite in_run_one. split.
  - intros (Hq & Hvq & Hcq). destruct (Z.eqb_spec (q / PAGE_SIZE) (p / PAGE_SIZE)) as [E|E]; [done |]. split; [done | by intros ->].
  - intros [(Hq & Hvq & Hcq) Hne]. split_and!; [done.. |]. destruct (Z.eqb_spec (q / PAGE_SIZE) (p / PAGE_SIZE)) as [E|E]; [| done]. exfalso. apply Hne. apply page_index_eq in E; [| apply Hvq]. rewrite E. symmetry. apply page_index_eq; [apply Hv | done].
Qed.

#[export] Instance frame_source : FrameSource mem_state :=
  {| alloc_page_below := memory_alloc_page_below; free_page := memory_free_page kernel_start kernel_end; frames_ok := mem_ok; held := mem_held;
     alloc_page_law := mem_alloc_law; free_page_law := mem_free_law |}.

(** ** Frames for a number of tables *)

Lemma filter_ne_length (b : Z) l : NoDup l → (length l ≤ Datatypes.S (length (filter (λ x, x ≠ b) l)))%nat.
Proof.
  induction 1 as [|x l Hx Hnd IH]; [cbn; lia |]. rewrite filter_cons. destruct (decide (x ≠ b)) as [Hne|Hne]; cbn [length]; [lia |]. assert (x = b) as -> by (destruct (decide (x = b)); done).
  assert (Hall : ∀ l' : list Z, b ∉ l' → filter (λ x, x ≠ b) l' = l') by (intros l'; induction l' as [|y l' IHl]; [done |]; intros [Hy Hl]%not_elem_of_cons; rewrite filter_cons_True by congruence; f_equal; by apply IHl). by rewrite Hall.
Qed.

(** Each of the frames [fs] is free and can hold a table. *)
Definition table_frames (n : Z) (c : Z → Z) (fs : list Z) : Prop := NoDup fs ∧ ∀ f, f ∈ fs → 0 ≤ f < n ∧ (f + 1) * PAGE_SIZE ≤ VMM_KERNEL_DIRECT_LIMIT ∧ c f = 0.

Lemma frames_enough k : ∀ m n c fs, holds m n c → reserved_used kernel_start kernel_end n c → table_frames n c fs → (k ≤ length fs)%nat → enough k m.
Proof.
  induction k as [|k IH]; intros m n c fs Hh Hr [Hnd Hfs] Hk; [done |]. cbn [enough]. cbn [alloc_page_below frame_source]. unfold memory_alloc_page_below.
  destruct (alloc_spec m n c 1 VMM_KERNEL_DIRECT_LIMIT Hh ltac:(lia) ltac:(done)) as (m' & r & -> & [(-> & -> & Hno)|(b & _ & -> & Hb & Hbl & Hbn & Hfree & Hfirst & Hh' & _)]).
  - exfalso. destruct fs as [|f fs]; [cbn in Hk; lia |]. destruct (Hfs f ltac:(by left)) as (Hf & Hl & Hc). destruct Hno as [|Hno]; [done |]. apply (Hno f); [lia | done | lia |]. intros g Hg. by replace g with f by lia.
  - assert (Hcb : c b = 0) by (apply Hfree; lia). destruct (free_valid n c b Hr Hb Hbn Hcb) as [Hpos _]. eexists _, _. split; [done |]. split; [lia |]. apply (IH m' n (fill c b 1 1) (filter (λ x, x ≠ b) fs)); [done | | |].
    + by eapply (abs_step_reserved kernel_start kernel_end n c (OpAlloc 1 VMM_KERNEL_DIRECT_LIMIT)); [cbn; split; [lia | done] | done | by apply abs_alloc].
    + split; [by apply NoDup_filter |]. intros f [Hne Hf]%list_elem_of_filter. unfold fill. rewrite in_run_one. bfalse (f =? b). by apply Hfs.
    + pose proof (filter_ne_length b fs Hnd). lia.
Qed.

End frames.

(** ** One processor *)

#[export] Instance lone_cpu : Cpus unit.
Proof.
  refine {| smp_get_current_address_space := λ _, None; smp_set_current_address_space := λ _ _, tt; smp_set_current_cr3 := λ _ _, tt; smp_current_cpu_id := λ _, 0;
            smp_started_cpu_mask := λ _, 0; smp_tlb_shootdown_mask := λ _ _ _ _ _ _ _, (tt, true) |}; try done.
  intros _ r. by right; left.
Defined.
