(* ===== verification/VmmPages.v ===== *)
(** * The page tables under the drivers

    [Vmm] implements what [PageMap] asks of the page tables, and what it promises, while
    the kernel's address space is the current one. *)

From Stdlib Require Import ZArith Lia String.
From stdpp Require Import prelude list_numbers fin_maps zmap.
From S2P Require Import Prelude Update Array Arith CString Printf Log Bootinfo Memory PageMap Vmm VmmTables VmmSpaces VmmMapping VmmOps VmmRefine.

Local Open Scope Z_scope.

(** The outcome of a call, [d] for one that does not return. *)
Definition state {A} (d : A) (m : res A) : A := match m with Ret x => x | Fault _ => d end.

Section pages.
Context {M S : Type} `{FS : FrameSource M} `{CS : Cpus S}.
Context (kernel_start kernel_end : Z).

Implicit Types vm : vmm M S.

#[export] Instance vmm_pages : PageMap (vmm M S) :=
  {| PageMap.vmm_translate := λ vm v, state None (Vmm.vmm_translate vm v); PageMap.vmm_map_4k := λ vm virt phys flags, state (vm, false) (Vmm.vmm_map_4k kernel_start kernel_end vm virt phys flags) |}.

Definition kernel_current vm : Prop := vmm_ok vm ∧ vmm_current_space_local vm = KERNEL.

Lemma pages_translate vm v : kernel_current vm → 0 ≤ v → Vmm.vmm_translate vm v = Ret (view vm KERNEL v) ∧ PageMap.vmm_translate vm v = view vm KERNEL v.
Proof.
  intros [[tree Hi] Hc] Hv. destruct (vi_kernel _ _ Hi) as (s & Hs & _). assert (E : Vmm.vmm_translate vm v = Ret (view vm KERNEL v)) by (unfold Vmm.vmm_translate; rewrite Hc; by eapply translate_spec). split; [done |]. cbn [PageMap.vmm_translate vmm_pages]. by rewrite E.
Qed.

(** The calls return on well-formed tables, so the instance is the code. *)
Lemma pages_map vm virt phys flags : kernel_current vm → is_u64 virt → is_u64 phys → is_u64 flags →
  ∃ vm' ok, Vmm.vmm_map_4k kernel_start kernel_end vm virt phys flags = Ret (vm', ok) ∧ PageMap.vmm_map_4k vm virt phys flags = (vm', ok) ∧ kernel_current vm' ∧
    if ok then view vm KERNEL virt = None ∧ changes id vm vm' KERNEL (same_page virt) (page_at (addr phys) flags) ∧ has virt (PAGE_SIZE - 1) = false else ∀ v, view vm' KERNEL v = view vm KERNEL v.
Proof.
  intros [[tree Hi] Hc] Hv%is_u64_pow Hp%is_u64_pow Hf%is_u64_pow. destruct (vi_kernel _ _ Hi) as (s & Hs & _).
  destruct (map_4k_spec kernel_start kernel_end 3 vm tree KERNEL s virt phys flags Hi Hs Hv (proj1 Hp) Hf (reach_space _ _ _ _ virt Hi Hs) ltac:(lia)) as (vm' & ok & E & Hres). exists vm', ok. cbn [PageMap.vmm_map_4k vmm_pages]. unfold Vmm.vmm_map_4k. rewrite E. split; [done |]. split; [done |]. destruct ok; cbn [map_post] in Hres.
  - destruct Hres as (Hg & Hnone & Hch & [C1 C2] & tree' & Hi' & _). split; [split; [by exists tree' | unfold vmm_current_space_local in *; by rewrite C1, C2] |]. split_and!; [done | done |]. unfold map_guard in Hg. apply andb_true_iff in Hg as [Hg%negb_true_iff _]. by apply orb_false_iff in Hg as [[? _]%orb_false_iff _].
  - destruct Hres as [Hsm _]. destruct (same_same_cpus _ _ Hsm) as [C1 C2]. split; [split; [exists tree; by eapply same_inv | unfold vmm_current_space_local in *; by rewrite C1, C2] |]. intros v. by apply same_view.
Qed.

(** What a leaf shows moves with the address inside a page. *)
Lemma leaf_of_offset es v o : 0 ≤ v → v mod PAGE_SIZE = 0 → 0 ≤ o < PAGE_SIZE → leaf_of (v + o) es = (λ t : Z * Z, (t.1 + o, t.2)) <$> leaf_of v es.
Proof.
  intros Hv Hm Ho. unfold PAGE_SIZE in *. pose proof (Z.div_mod v 4096 ltac:(lia)) as Ev. rewrite Hm in Ev. set (x := v / 4096) in *.
  assert (Hk : ∀ k, 12 ≤ k → Z.land (v + o) (2 ^ k - 1) = Z.land v (2 ^ k - 1) + o).
  { intros k Hk. replace (2 ^ k - 1) with (Z.ones k) by (rewrite Z.ones_equiv; lia). rewrite !Z.land_ones by lia. replace k with (12 + (k - 12)) by lia. rewrite Z.pow_add_r by lia. change (2 ^ 12) with 4096. pose proof (Z.pow_pos_nonneg 2 (k - 12)) as Hpos. set (y := 2 ^ (k - 12)) in *.
    rewrite Ev, Z.add_0_r, Z.mul_mod_distr_l by lia. symmetry. apply (Z.mod_unique _ _ (x / y)); [left; pose proof (Z.mod_pos_bound x y); nia |]. pose proof (Z.div_mod x y). nia. }
  destruct es as [|? [|? [|? [|? [|? ?]]]]]; try done; cbn [leaf_of fmap option_fmap option_map fst snd]; do 2 f_equal; [change (HUGE_SIZE - 1) with (2 ^ 21 - 1) | change (Memory.PAGE_SIZE - 1) with (2 ^ 12 - 1)]; rewrite Hk by lia; lia.
Qed.

Lemma view_offset vm r v o : is_u64 v → v mod PAGE_SIZE = 0 → 0 ≤ o < PAGE_SIZE → view vm r (v + o) = (λ t : Z * Z, (t.1 + o, t.2)) <$> view vm r v.
Proof.
  intros Hv Hm Ho. assert (Epg : (v + o) / PAGE_SIZE = v / PAGE_SIZE) by (unfold PAGE_SIZE in *; pose proof (Z.div_mod v 4096); symmetry; apply (Z.div_unique _ _ _ o); lia). assert (Hv0 : 0 ≤ v) by apply Hv. unfold view.
  assert (vmm_is_canonical (v + o) = vmm_is_canonical v) as ->. { apply eq_true_iff_eq. split; apply page_canonical; by (lia || rewrite Epg). }
  destruct (vmm_is_canonical v); [| done]. destruct (root vm r); [| done]. cbn [mbind option_bind]. unfold look. rewrite (walk_page _ _ (v + o) v Epg). destruct (walk _ _ _ v); [| done]. cbn [mbind option_bind]. by apply leaf_of_offset.
Qed.

Lemma pages_whole vm v a f o : kernel_current vm → is_u64 v → v mod PAGE_SIZE = 0 → PageMap.vmm_translate vm v = Some (a, f) → 0 ≤ o < PAGE_SIZE → PageMap.vmm_translate vm (v + o) = Some (a + o, f).
Proof.
  intros Hok Hv Hm Et Ho. assert (0 ≤ v) by apply Hv. rewrite (proj2 (pages_translate vm v Hok ltac:(done))) in Et. rewrite (proj2 (pages_translate vm (v + o) Hok ltac:(lia))), view_offset by done. by rewrite Et.
Qed.

Lemma pages_keep vm v a f : kernel_current vm → is_u64 v → is_u64 a → is_u64 f →
  kernel_current (PageMap.vmm_map_4k vm v a f).1 ∧ ∀ v' t, is_u64 v' → PageMap.vmm_translate vm v' = Some t → PageMap.vmm_translate (PageMap.vmm_map_4k vm v a f).1 v' = Some t.
Proof.
  intros Hok Hv Ha Hf. destruct (pages_map vm v a f Hok Hv Ha Hf) as (vm' & ok & _ & -> & Hok' & Hres). cbn [fst]. split; [done |]. intros v' t Hv'. assert (0 ≤ v') by apply Hv'. rewrite (proj2 (pages_translate vm v' Hok ltac:(done))), (proj2 (pages_translate vm' v' Hok' ltac:(done))).
  destruct ok; [| by rewrite Hres]. destruct Hres as (Hnone & Hch & _). intros Et. destruct (decide (v / PAGE_SIZE = v' / PAGE_SIZE)) as [Epg|Epg].
  - rewrite (page_none vm KERNEL v v') in Et; [done | apply Hv | done | done | done].
  - etrans; [apply (ch_rest _ _ _ _ _ _ Hch v'); [by apply is_u64_pow | done] | done].
Qed.

Lemma pages_find vm v a f : kernel_current vm → is_u64 v → 0 ≤ a < 2 ^ 52 → a mod PAGE_SIZE = 0 → is_u64 f → (PageMap.vmm_map_4k vm v a f).2 = true → ∃ f', PageMap.vmm_translate (PageMap.vmm_map_4k vm v a f).1 v = Some (a, f').
Proof.
  intros Hok Hv Ha Hm Hf. destruct (pages_map vm v a f Hok Hv ltac:(ulia) Hf) as (vm' & ok & _ & -> & Hok' & Hres). cbn [fst snd]. intros ->. destruct Hres as (_ & Hch & Hal). assert (0 ≤ v) by apply Hv. rewrite (proj2 (pages_translate vm' v Hok' ltac:(done))). rewrite (ch_here _ _ _ _ _ _ Hch v) by (done || by apply is_u64_pow).
  unfold page_at. assert (Z.land v (PAGE_SIZE - 1) = 0) as -> by (unfold has in Hal; by apply negb_false_iff, Z.eqb_eq in Hal). rewrite aligned_addr, Z.add_0_r by done. by eexists.
Qed.

#[export] Instance vmm_pages_spec : PageMapSpec (vmm M S) (PM := vmm_pages) :=
  {| pages_ok := kernel_current; whole_page := pages_whole; map_keeps := pages_keep; map_finds := pages_find |}.

End pages.
