(* ===== verification/VmmCorrect.v ===== *)
(** * Virtual memory: what it promises

    The theorems on [kernel/mm/vmm] as a whole: from [vmm_init] on, the page tables
    implement maps of addresses, whatever calls are made and in whichever order. *)

From Stdlib Require Import ZArith Lia String.
From stdpp Require Import prelude list_numbers fin_maps zmap.
From S2P Require Import Prelude Update Array Arith CString Printf Log Bootinfo Memory PageMap Vmm VmmTables VmmSpaces VmmMapping VmmOps VmmRefine VmmInit VmmFrames VmmPages.

Local Open Scope Z_scope.

Section image.
Context (kernel_start kernel_end : Z).

(** Where user code may have pages. *)
Definition user_address (v : Z) : Prop := PAGE_SIZE ≤ v < VMM_USER_TOP ∧ ¬ kernel_start ≤ v < kernel_end.

Lemma unaligned_has a : has a (PAGE_SIZE - 1) = false → a mod PAGE_SIZE = 0.
Proof. unfold has, PAGE_SIZE. rewrite negb_false_iff, Z.eqb_eq. change (4096 - 1) with (Z.ones 12). by rewrite Z.land_ones. Qed.

Lemma may_map_user r virt flags v : may_map kernel_start kernel_end r virt flags = true → has flags VMM_USER = true → 0 ≤ virt < 2 ^ 64 → same_page virt v → user_address v.
Proof.
  unfold may_map, vmm_leaf_flags_valid_for_space. intros [Hal%negb_true_iff Hval]%andb_true_iff Hu Hv Hpg. apply unaligned_has in Hal. rewrite Hu in Hval. cbn [user_space set_field] in Hval.
  repeat match type of Hval with (if ?b then _ else _) = true => destruct b; try done end. cbn [andb] in Hval. apply andb_true_iff in Hval as [Hr Hov%negb_true_iff].
  unfold vmm_is_user_range in Hr. destruct (_ || _) eqn:Eg in Hr; [done |]. apply orb_false_iff in Eg as [[_ H1%Z.ltb_ge]%orb_false_iff H2%Z.leb_gt]. destruct (add_u64 virt (PAGE_SIZE - 1)) as [e|] eqn:Ee; [| done]. apply Z.ltb_lt in Hr.
  unfold vmm_range_overlaps_kernel_image in Hov. cbn [Z.eqb PAGE_SIZE] in Hov. unfold add_u64 in *. destruct (virt + PAGE_SIZE <=? U64MAX); [| done]. destruct (_ <=? U64MAX) in Ee; [| done]. injection Ee as <-. unfold vmm_ranges_overlap in Hov. unfold user_address, same_page, VMM_USER_MIN, PAGE_SIZE in *.
  pose proof (Z.div_mod virt 4096 ltac:(lia)). pose proof (Z.div_mod v 4096 ltac:(lia)). pose proof (Z.mod_pos_bound v 4096 ltac:(lia)). split; [lia |]. intros Hk. rewrite !andb_false_iff, !Z.ltb_ge in Hov. lia.
Qed.

(** ** Users stay where they may be *)

Definition users_confined (A : spaces_map) : Prop := ∀ r v, 0 ≤ v < 2 ^ 64 → user_part (seen A r v) ≠ None → user_address v.

Lemma user_shown flags : has (shown_flags flags) VMM_USER = has flags VMM_USER.
Proof. unfold shown_flags, VMM_USER. rewrite !has_bit by lia. rewrite Z.lor_spec, Z.land_spec. change (Z.testbit REPORTED 2) with true. change (Z.testbit VMM_PRESENT 2) with false. by rewrite andb_true_r, orb_false_r. Qed.

Lemma user_flags a flags : user_part (Some (a, shown_flags flags)) ≠ None → has flags VMM_USER = true.
Proof. cbn. rewrite user_shown. by destruct (has flags VMM_USER). Qed.

Lemma others_confined A A' r : others A A' r → (∀ v, user_part (seen A' KERNEL v) = None) → users_confined A → ∀ r' v, r' ≠ r → 0 ≤ v < 2 ^ 64 → user_part (seen A' r' v) ≠ None → user_address v.
Proof. intros Ho Hk HA r' v Hr' Hv Hu. destruct (proj2 (Ho r' Hr') v Hv) as [E|(_ & _ & E)]; rewrite E in Hu; [by apply (HA r') | by rewrite Hk in Hu]. Qed.

Lemma becomes_confined A A' r hit t :
  becomes_at A A' r hit t → (∀ v, user_part (seen A' KERNEL v) = None) → users_confined A → (∀ v, hit v ∨ ¬ hit v) → (∀ v, 0 ≤ v < 2 ^ 64 → hit v → user_part (t v) ≠ None → user_address v) → users_confined A'.
Proof.
  intros (_ & _ & Hr & Ho) Hk HA Hdec Ht r' v Hv Hu. destruct (decide (r' = r)) as [->|Hne]; [| by apply (others_confined A A' r Ho Hk HA r')]. destruct (Hr v Hv) as [H1 H2]. destruct (Hdec v) as [Hh|Hh]; [rewrite H1 in Hu by done; by apply Ht | rewrite H2 in Hu by done; by apply (HA r)].
Qed.

Lemma effect_confined A o ok A' :
  vm_effect kernel_start kernel_end A o ok A' → (∀ v, user_part (seen A KERNEL v) = None) → (∀ v, user_part (seen A' KERNEL v) = None) → (match o with Map _ virt _ _ | MapLarge virt _ _ | Unmap _ virt | Protect _ virt _ | Remap _ virt _ _ => 0 ≤ virt < 2 ^ 64 | _ => True end) →
  users_confined A → users_confined A'.
Proof.
  unfold vm_effect. intros He Hk Hk' Hv HA. assert (Hsame : same_maps A A' → users_confined A') by (intros Hs r v Hv' Hu; rewrite (proj2 (Hs r) v Hv') in Hu; by apply (HA r)). destruct ok; cbn [negb] in He; [| by apply Hsame].
  assert (Hpage : ∀ virt v, same_page virt v ∨ ¬ same_page virt v) by (intros virt v; unfold same_page; destruct (decide (virt / PAGE_SIZE = v / PAGE_SIZE)); auto).
  destruct o as [r virt phys flags|virt phys flags|r virt|r virt flags|r virt phys flags|r|r|r]; [| | | | | | | by apply Hsame].
  - destruct He as (Hm & _ & Hb). eapply becomes_confined; [exact Hb | done | done | apply Hpage |]. intros v _ Hpg Hu. eapply may_map_user; [exact Hm | by eapply user_flags | done..].
  - destruct He as (Hg & _ & Hb). eapply becomes_confined; [exact Hb | done | done | intros v; unfold same_window; destruct (decide (virt / HUGE_SIZE = v / HUGE_SIZE)); auto |].
    intros v _ _ Hu%user_flags. unfold large_guard in Hg. rewrite Hu, orb_true_r in Hg. done.
  - destruct He as (_ & Hb). by eapply becomes_confined; [exact Hb | ..].
  - destruct He as (Hm & a & fl & _ & Hb). eapply becomes_confined; [exact Hb | done | done | apply Hpage |]. intros v _ Hpg Hu. eapply may_map_user; [exact Hm | by eapply user_flags | done..].
  - destruct He as (Hm & _ & Hb). eapply becomes_confined; [exact Hb | done | done | apply Hpage |]. intros v _ Hpg Hu. eapply may_map_user; [exact Hm | by eapply user_flags | done..].
  - destruct He as (_ & _ & Hs & Ho). intros r' v Hv' Hu. destruct (decide (r' = r)) as [->|Hne]; [by rewrite Hs, Hk in Hu by done | by apply (others_confined A A' r Ho Hk' HA r')].
  - destruct He as (Hs & Ho). intros r' v Hv' Hu. destruct (decide (r' = r)) as [->|Hne]; [unfold seen in Hu; by rewrite Hs in Hu | by apply (others_confined A A' r Ho Hk' HA r')].
Qed.

End image.

Section correct.
Context {M S : Type} `{FS : FrameSource M} `{CS : Cpus S}.
Context (kernel_start kernel_end : Z).

Implicit Types vm : vmm M S.

Abbreviation step := (vm_step kernel_start kernel_end).
Abbreviation vm_runs := (runs kernel_start kernel_end).

Lemma legal_address vm o : legal vm o → match o with Map _ virt _ _ | MapLarge virt _ _ | Unmap _ virt | Protect _ virt _ | Remap _ virt _ _ => 0 ≤ virt < 2 ^ 64 | _ => True end.
Proof. destruct o; cbn [legal]; rewrite ?is_u64_pow; tauto. Qed.

Lemma maps_kernel vm v : vmm_ok vm → user_part (seen (maps_of vm) KERNEL v) = None.
Proof. intros Hok. by rewrite at_maps, user_part_plain, user_part_kernel. Qed.

Lemma runs_ok vm ops vm' : vm_runs vm ops vm' → vmm_ok vm → vmm_ok vm'.
Proof.
  induction 1 as [|vm o ok vm1 ops vm' Hl E _ IH]; [done |]. intros Hok. destruct (vm_step_refines kernel_start kernel_end vm o Hok Hl) as (vm2 & ok2 & E2 & Hok2 & _). apply IH. congruence.
Qed.

Lemma runs_confined vm ops vm' : vm_runs vm ops vm' → vmm_ok vm → users_confined kernel_start kernel_end (maps_of vm) → users_confined kernel_start kernel_end (maps_of vm').
Proof.
  induction 1 as [|vm o ok vm1 ops vm' Hl E _ IH]; [done |]. intros Hok HA. destruct (vm_step_refines kernel_start kernel_end vm o Hok Hl) as (vm2 & ok2 & E2 & Hok2 & He). rewrite E in E2. injection E2 as <- <-. apply IH; [done |].
  eapply effect_confined; [exact He | intros; by apply maps_kernel | intros; by apply maps_kernel | by eapply legal_address | done].
Qed.

Lemma runs_isolated vm ops vm' r v :
  vm_runs vm ops vm' → vmm_ok vm → (∀ o, o ∈ ops → op_space o ≠ r ∨ ∃ r', o = Switch r') → is_u64 v → user_part (view vm' r v) = user_part (view vm r v).
Proof.
  induction 1 as [|vm o ok vm1 ops vm' Hl E Hr IH]; [done |]. intros Hok Hops Hv. destruct (vm_step_refines kernel_start kernel_end vm o Hok Hl) as (vm2 & ok2 & E2 & Hok2 & _). rewrite E in E2. injection E2 as <- <-.
  rewrite IH; [| done | intros o' Ho'; apply Hops; by right | done]. eapply step_isolated; [exact Hok | exact Hl | exact E | apply Hops; by left | done].
Qed.

Lemma may_map_user_space r virt flags : r ≠ KERNEL → may_map kernel_start kernel_end r virt flags = true → has flags VMM_USER = true ∧ vmm_is_user_range virt PAGE_SIZE = true ∧ vmm_is_canonical virt = true ∧ has virt (PAGE_SIZE - 1) = false.
Proof.
  unfold may_map, vmm_leaf_flags_valid_for_space. intros Hr [Ha%negb_true_iff Hm]%andb_true_iff. cbn [user_space set_field] in Hm. rewrite (proj2 (Z.eqb_neq r KERNEL) Hr) in Hm. cbn [negb] in Hm. destruct (has flags (lnot_w 64 _)); [done |]. destruct (vmm_is_canonical virt); [| done]. cbn [negb orb] in Hm.
  repeat match type of Hm with (if ?b then false else _) = true => destruct b; try done end. by apply andb_true_iff in Hm as [[? ?]%andb_true_iff _].
Qed.

(** *** One call *)

(** C1: On well-formed page tables every call the kernel may make returns and keeps them well-formed, and what
    it does to the address spaces is its effect on maps: a page is mapped, unmapped, protected or remapped as a
    whole where the flags allow it, a large page fills its window, a new user space starts as the kernel's, a
    destroyed one is gone, no other space's map changes except where it shares the kernel's tables, and a call that
    fails changes nothing; [vmm_space_translate] computes the map. *)
Theorem address_spaces_refine vm o :
  vmm_ok vm → legal vm o →
  ∃ vm' ok, step vm o = Ret (vm', ok) ∧ vmm_ok vm' ∧ vm_effect kernel_start kernel_end (maps_of vm) o ok (maps_of vm') ∧
    ∀ r v, is_Some (spaces vm' !! r) → is_u64 v → ∃ t, vmm_space_translate vm' (Some r) v = Ret t ∧ plain <$> t = seen (maps_of vm') r v.
Proof.
  intros Hok Hl. destruct (vm_step_refines kernel_start kernel_end vm o Hok Hl) as (vm' & ok & E & Hok' & He). exists vm', ok. split_and!; try done. intros r v Hr Hv. destruct Hok' as [tree Hi]. apply (translate_maps vm' tree r v Hi Hr). apply Hv.
Qed.

(** C21: Mapping a page succeeds when the address and flags are allowed, the page is not mapped, the address is
    not in a region of the kernel's tables, and three tables can be had. *)
Theorem map_succeeds vm r virt phys flags :
  vmm_ok vm → legal vm (Map r virt phys flags) → root vm r ≠ None → phys mod PAGE_SIZE = 0 → may_map kernel_start kernel_end r virt flags = true →
  seen (maps_of vm) r virt = None → ¬ shared_region vm r virt → room 3 vm r →
  ∃ vm', step vm (Map r virt phys flags) = Ret (vm', true) ∧ seen (maps_of vm') r virt = Some (addr phys, shown_flags flags).
Proof.
  intros [tree Hi] ([s Hs] & Hv%is_u64_pow & Hp%is_u64_pow & Hf%is_u64_pow) Hr Hpa Hm Hnone Hsh Hroom. cbn [vm_step]. rewrite at_maps in Hnone.
  destruct (map_4k_spec kernel_start kernel_end 3 vm tree r s virt phys flags Hi Hs Hv (proj1 Hp) Hf (reach_space _ _ _ _ virt Hi Hs) ltac:(lia)) as (vm' & ok & -> & Hres). exists vm'. assert (Ha : has virt (PAGE_SIZE - 1) = false) by (unfold may_map in Hm; by apply andb_true_iff in Hm as [?%negb_true_iff _]).
  rewrite (may_map_valid _ _ _ _ _ _ _ _ Hi Hs Hr Ha) in Hm. destruct ok; cbn [map_post] in Hres.
  - split; [done |]. destruct Hres as (_ & _ & Hch & _). rewrite at_maps, (ch_here _ _ _ _ _ _ Hch virt Hv eq_refl), plain_page. unfold page_at. assert (Z.land virt (PAGE_SIZE - 1) = 0) as -> by (unfold has in Ha; by apply negb_false_iff, Z.eqb_eq in Ha). by rewrite Z.add_0_r.
  - exfalso. destruct Hres as [_ [Hg|[?|[?|?]]]]; [| by destruct (view vm r virt) | done | done]. unfold map_guard in Hg. rewrite Ha, Hm in Hg. change (PAGE_SIZE - 1) with (2 ^ 12 - 1) in Hg. rewrite (aligned_has phys 12) in Hg by (exact Hpa || exact (proj1 Hp) || lia). by rewrite (proj2 (Z.eqb_neq _ 0) (root_live _ _ _ Hs Hr)) in Hg.
Qed.

(** C22: In a user space, unmapping the page just mapped succeeds and every address space is again the map it was. *)
Theorem map_unmap_roundtrip vm r virt phys flags vm1 :
  vmm_ok vm → r ≠ KERNEL → legal vm (Map r virt phys flags) → step vm (Map r virt phys flags) = Ret (vm1, true) →
  ∃ vm2, step vm1 (Unmap r virt) = Ret (vm2, true) ∧ same_maps (maps_of vm) (maps_of vm2).
Proof.
  intros Hok Hrk Hl E. destruct (vm_step_refines kernel_start kernel_end vm _ Hok Hl) as (vm1' & ok & E1 & Hok1 & He). rewrite E in E1. injection E1 as <- <-. cbn [vm_effect negb] in He. destruct He as (Hm & Hnone & Hr0%maps_live & Hr1 & Hch & Ho).
  destruct Hl as ([s Hs] & Hv & _). apply is_u64_pow in Hv. apply maps_live in Hr1. assert (Hs1 : is_Some (spaces vm1 !! r)) by (unfold root in Hr1; destruct (spaces vm1 !! r); [by eexists | done]). destruct Hok1 as [tree Hi1]. destruct Hs1 as [s1 Hs1].
  pose proof (proj1 (Hch virt Hv) eq_refl) as Hsee. rewrite at_maps in Hsee. destruct (may_map_user_space r virt flags Hrk Hm) as [Huser Hrange].
  cbn [vm_step]. destruct (unmap_4k_spec vm1 tree r s1 virt Hi1 Hs1 Hv) as (vm2 & ok & -> & Hok2 & Hres). exists vm2. destruct ok.
  - split; [done |]. destruct Hres as [_ [C1 C2 C3 C4]]. intros r'. split.
    + rewrite !maps_live, C4. destruct (decide (r' = r)) as [->|Hne]; [tauto | by rewrite <- !maps_live, (proj1 (Ho r' Hne))].
    + intros v Hv'. rewrite !at_maps. destruct (decide (r' = r)) as [->|Hne].
      * specialize (Hch v Hv'). specialize (Hnone v Hv'). rewrite (at_maps vm1), (at_maps vm) in Hch. rewrite at_maps in Hnone. destruct (decide (virt / PAGE_SIZE = v / PAGE_SIZE)) as [Hp|Hp]; [by rewrite C1, Hnone | etrans; [by apply C2 | by apply Hch]].
      * destruct (C3 r' v Hv' Hne) as [E2|[? _]]; [| done]. rewrite E2. destruct (proj2 (Ho r' Hne) v Hv') as [E3|[? _]]; [| done]. by rewrite !at_maps in E3.
  - exfalso. destruct Hrange as (Hur & Hcan & Hal). assert (Hno : view vm1 r virt ≠ None) by (intros Ev; by rewrite Ev in Hsee). destruct Hres as [_ [?|[?|[[?|[Hsh|[_ ?]]]|[? _]]]]]; [congruence | congruence | done | | congruence | done].
    rewrite (shared_view _ _ _ _ Hi1 Hsh) in Hsee. destruct (view vm1 KERNEL virt) as [[a fl]|] eqn:Ek; [| done]. injection Hsee as _ Hfl. pose proof (kernel_supervisor _ _ _ _ _ Hi1 Ek) as Hsup.
    rewrite <- user_shown in Huser. unfold VMM_USER in Huser. rewrite has_bit in Huser by lia. rewrite <- Hfl, Z.ldiff_spec, Hsup in Huser. done.
Qed.

(** *** Sequences of calls *)

Definition spares (r : Z) (ops : list vm_op) : Prop := ∀ o, o ∈ ops → op_space o ≠ r ∨ ∃ r', o = Switch r'.

Lemma runs_live vm ops vm' r : vm_runs vm ops vm' → vmm_ok vm → spares r ops → root vm r ≠ None → root vm' r ≠ None.
Proof.
  induction 1 as [|vm o ok vm1 ops vm' Hl E Hr IH]; [done |]. intros Hok Hops Hlive. destruct (vm_step_refines kernel_start kernel_end vm o Hok Hl) as (vm2 & ok2 & E2 & Hok2 & He). rewrite E in E2. injection E2 as <- <-.
  apply IH; [done | intros o' Ho'; apply Hops; by right |]. apply maps_live in Hlive. apply maps_live. destruct (effect_others _ _ _ _ _ _ He) as [Ho|Hs]; [| by apply Hs]. destruct (Hops o ltac:(by left)) as [Hne|[r' ->]]; [by apply Ho | destruct ok; by apply He].
Qed.

Lemma live_space vm r : root vm r ≠ None → is_Some (spaces vm !! r).
Proof. unfold root. destruct (spaces vm !! r); [by eexists | done]. Qed.

Lemma live_translate vm tree r v : vmm_inv vm tree → root vm r ≠ None → is_u64 v → vmm_space_translate vm (Some r) v = Ret (view vm r v).
Proof. intros Hi Hr Hv. unfold root in Hr. destruct (spaces vm !! r) as [s|] eqn:Hs; [| done]. eapply translate_spec; [done | done | apply Hv]. Qed.

(** C4: Calls that name other spaces, or the kernel's, and switches do not change what user code of a space can
    reach: every translation its user may use is the same before and after. *)
Theorem spaces_isolated vm ops vm' r v :
  vmm_ok vm → vm_runs vm ops vm' → spares r ops → root vm r ≠ None → is_u64 v →
  ∃ t t', vmm_space_translate vm (Some r) v = Ret t ∧ vmm_space_translate vm' (Some r) v = Ret t' ∧ user_part t' = user_part t.
Proof.
  intros Hok Hr Hops Hlive Hv. pose proof (runs_live _ _ _ _ Hr Hok Hops Hlive) as Hlive'. pose proof (runs_ok _ _ _ Hr Hok) as [tree' Hi']. pose proof Hok as [tree Hi].
  exists (view vm r v), (view vm' r v). split_and!; [by eapply live_translate.. |]. by eapply runs_isolated.
Qed.

End correct.

(** ** From the start *)

Section boot.
Context {M S : Type} `{FS : FrameSource M} `{CS : Cpus S}.
Context (kernel_start kernel_end text_start text_end rodata_start rodata_end data_start data_end bss_start bss_end : Z).

Implicit Types vm : vmm M S.

Abbreviation init := (vmm_init kernel_start kernel_end text_start text_end rodata_start rodata_end data_start data_end bss_start bss_end).
Abbreviation tables_for := (tables_needed kernel_start kernel_end).
Abbreviation identity_of := (identity_at kernel_start kernel_end text_start text_end rodata_start rodata_end data_start data_end bss_start bss_end).
Abbreviation layout := (image_layout kernel_start kernel_end text_start text_end rodata_start rodata_end data_start data_end bss_start bss_end).

(** [vmm_init] was called with the frames for its tables at hand. *)
Definition bootable vm (bytes : Z) : Prop :=
  blank vm ∧ 0 ≤ bytes ≤ GIB ∧ 0 ≤ kernel_end ≤ GIB ∧ enough (tables_for (identity_size kernel_end bytes)) (source vm) ∧ (tables_for (identity_size kernel_end bytes) ≤ 128)%nat.

Definition booted vm : Prop := ∃ vm0 bytes, bootable vm0 bytes ∧ init vm0 bytes = Ret vm.

Lemma booted_spec vm : booted vm → vmm_ok vm ∧ ∀ r v, r ≠ KERNEL → view vm r v = None.
Proof.
  intros (vm0 & bytes & (Hb & Hby & Hk & Hen & Hmax) & E). destruct (vmm_init_spec kernel_start kernel_end text_start text_end rodata_start rodata_end data_start data_end bss_start bss_end vm0 bytes Hb Hby Hk Hen Hmax) as (vm' & E' & Hok & _ & Halone & _). rewrite E in E'. injection E' as <-.
  split; [done |]. intros r v Hr. unfold view. rewrite Halone by done. by destruct (vmm_is_canonical v).
Qed.

(** C5: With the frames for its tables at hand [vmm_init] returns with well-formed page tables loaded: the kernel's
    space translates exactly the addresses below the identity size, each to itself, no page is both writable and
    executable or open to users, and for an image laid out by the linker the text is read-only, the constants
    neither writable nor executable, the data not executable, as [vmm_kernel_protection_status] reports. *)
Theorem kernel_map_correct vm bytes :
  bootable vm bytes → layout →
  ∃ vm', init vm bytes = Ret vm' ∧ vmm_ok vm' ∧ root vm' KERNEL = Some (cr3 vm') ∧ identity_bytes (stats vm') = identity_size kernel_end bytes ∧ Z.max bytes kernel_end ≤ identity_size kernel_end bytes ∧
    (∀ v, is_u64 v → vmm_space_translate vm' (Some KERNEL) v = Ret (if v <? identity_size kernel_end bytes then Some (identity_of v) else None)) ∧
    (∀ v, (identity_of v).1 = v ∧ (has (identity_of v).2 VMM_WRITE = true → has (identity_of v).2 VMM_NX = true) ∧ has (identity_of v).2 VMM_USER = false) ∧
    vmm_kernel_protection_status text_start text_end rodata_start rodata_end data_start data_end bss_start bss_end vm' = Ret (true, true, true).
Proof.
  intros (Hb & Hby & Hk & Hen & Hmax) Hlay. destruct (vmm_init_spec kernel_start kernel_end text_start text_end rodata_start rodata_end data_start data_end bss_start bss_end vm bytes Hb Hby Hk Hen Hmax) as (vm' & E & Hok & Hv & _ & Hcr3 & Hid).
  pose proof (identity_size_bound kernel_end bytes (proj2 Hby) (proj2 Hk)) as (_ & Hke & Hbe). exists vm'. split_and!; try done.
  - lia.
  - intros v Hu. destruct Hok as [tree Hi]. rewrite (live_translate vm' tree) by (done || by rewrite Hcr3). by rewrite Hv by apply Hu.
  - intros v. split_and!; [apply identity_fst | apply identity_wx | apply identity_supervisor].
  - eapply (protection_status kernel_start kernel_end); [done | done | lia | exact Hke | done].
Qed.

(** C11: Whatever calls are made after [vmm_init], the page tables stay well-formed (each table in a frame of its
    own, listed by its one owner, reached by one entry of its parent, its entries leaves the space may have or
    tables one level down) and no call the kernel may make reads or writes outside a table or a list. *)
Theorem tables_stay_well_formed vm ops vm' :
  booted vm → runs kernel_start kernel_end vm ops vm' → vmm_ok vm' ∧ ∀ o, legal vm' o → ∃ vm'' ok, vm_step kernel_start kernel_end vm' o = Ret (vm'', ok).
Proof.
  intros [Hok _]%booted_spec Hr. pose proof (runs_ok _ _ _ _ _ Hr Hok) as Hok'. split; [done |]. intros o Hl. destruct (vm_step_refines kernel_start kernel_end vm' o Hok' Hl) as (vm'' & ok & E & _). by exists vm'', ok.
Qed.

(** C12: Whatever calls are made after [vmm_init], an address that a space translates for user code is above the
    first page, below the end of the lower half and outside the kernel's image. *)
Theorem users_stay_in_range vm ops vm' r v a fl :
  booted vm → runs kernel_start kernel_end vm ops vm' → is_u64 v → vmm_space_translate vm' (Some r) v = Ret (Some (a, fl)) → has fl VMM_USER = true → user_address kernel_start kernel_end v.
Proof.
  intros [Hok Hnone]%booted_spec Hr Hv Et Hu. pose proof (runs_ok _ _ _ _ _ Hr Hok) as [tree Hi]. assert (HA : users_confined kernel_start kernel_end (maps_of vm)).
  { intros r' v' _ Hup. destruct (decide (r' = KERNEL)) as [->|Hne]; [by rewrite maps_kernel in Hup | by rewrite at_maps, Hnone in Hup]. }
  apply (runs_confined _ _ _ _ _ Hr Hok HA r v Hv). rewrite at_maps, user_part_plain. unfold vmm_space_translate, deref, get_space in Et. destruct (spaces vm' !! r) as [s|] eqn:Hs; [| done]. pose proof (translate_spec vm' tree r s v Hi Hs (proj1 Hv)) as Et'. unfold vmm_space_translate, deref, get_space in Et'. rewrite Hs in Et'. rewrite Et' in Et. injection Et as ->. cbn. by rewrite Hu.
Qed.

End boot.

(** ** Concrete runs *)

(** Frames handed out one after the other: the frames held and the next one. *)
Definition pile_alloc (m : list Z * Z) (limit : Z) : res (list Z * Z * Z) := let '(l, n) := m in if n + PAGE_SIZE <=? limit then Ret ((n :: l, n + PAGE_SIZE), n) else Ret (m, 0).
Definition pile_free (m : list Z * Z) (p : Z) : res (list Z * Z) := Ret (filter (λ x, x ≠ p) m.1, m.2).
Definition pile_ok (m : list Z * Z) : Prop := 0 < m.2 ∧ m.2 mod PAGE_SIZE = 0 ∧ ∀ p, p ∈ m.1 → p < m.2.

#[local] Instance pile : FrameSource (list Z * Z).
Proof.
  refine {| alloc_page_below := pile_alloc; free_page := pile_free; frames_ok := pile_ok; held := λ m p, p ∈ m.1 |}.
  - intros [l n] limit (H1 & H2 & H3) _. cbn in *. destruct (Z.leb_spec (n + PAGE_SIZE) limit) as [Hl|Hl]; eexists _, _; (split; [done |]); [| by split; [| left]]. unfold PAGE_SIZE in *. split.
    + split_and!; cbn [fst snd]; [lia | rewrite <- Z.add_mod_idemp_r by done; by rewrite Z.mod_same, Z.add_0_r by done |]. intros p [->|Hp]%elem_of_cons; [lia | specialize (H3 p Hp); lia].
    + right. cbn [fst]. split_and!; try done; [intros Hn; specialize (H3 n Hn); lia |]. intros p. rewrite elem_of_cons. tauto.
  - intros [l n] p (H1 & H2 & H3) Hp. cbn in *. eexists. split; [done |]. cbn. split; [split_and!; cbn; [done.. |]; intros q [_ Hq]%list_elem_of_filter; auto |]. intros q. rewrite list_elem_of_filter. tauto.
Defined.

(** An image of four sections of 128 KiB; memory from 16 MiB on. *)
Abbreviation sample_init := (vmm_init 0x10000 0x90000 0x10000 0x30000 0x30000 0x50000 0x50000 0x70000 0x70000 0x90000).
Abbreviation sample_step := (vm_step 0x10000 0x90000).

Definition pile_vm : vmm (list Z * Z) unit := mk_vmm ∅ ([], 0x1000000) ∅ None zero_stats tt 0 [].

Definition boot_vm : vmm (list Z * Z) unit := state pile_vm (sample_init pile_vm 0).
Definition user_vm : vmm (list Z * Z) unit := (state (pile_vm, false) (sample_step boot_vm (CreateUser 1))).1.
Definition map_page : vm_op := Map 1 0x10000200000 0x2000000 (Z.lor VMM_USER (Z.lor VMM_WRITE VMM_NX)).
Definition mapped_vm : vmm (list Z * Z) unit := (state (pile_vm, false) (sample_step user_vm map_page)).1.

Lemma boot_runs : sample_init pile_vm 0 = Ret boot_vm.
Proof. vm_compute. reflexivity. Qed.

Lemma user_runs : sample_step boot_vm (CreateUser 1) = Ret (user_vm, true).
Proof. vm_compute. reflexivity. Qed.

Lemma mapped_runs : sample_step user_vm map_page = Ret (mapped_vm, true).
Proof. vm_compute. reflexivity. Qed.

#[local] Opaque boot_vm user_vm mapped_vm.

Lemma pile_enough k l n : n + Z.of_nat k * PAGE_SIZE ≤ VMM_KERNEL_DIRECT_LIMIT → 0 < n → enough k (l, n).
Proof.
  revert l n. induction k as [|k IH]; intros l n Hk Hn; [done |]. cbn [enough]. eexists _, n. cbn [alloc_page_below pile pile_alloc]. unfold PAGE_SIZE in *. btrue (n + 4096 <=? VMM_KERNEL_DIRECT_LIMIT). split; [done |]. split; [lia |]. apply IH; lia.
Qed.

Lemma pile_bootable : bootable 0x10000 0x90000 pile_vm 0.
Proof.
  assert (Hn : tables_needed 0x10000 0x90000 (identity_size 0x90000 0) = 4%nat) by by vm_compute. unfold bootable. rewrite Hn. split; [| split; [unfold GIB; lia | split; [unfold GIB; lia | split; [by apply pile_enough | lia]]]].
  split; [done |]. split; [done |]. split_and!; [done | done |]. by intros p Hp%elem_of_nil.
Qed.

Lemma boot_booted : booted 0x10000 0x90000 0x10000 0x30000 0x30000 0x50000 0x50000 0x70000 0x70000 0x90000 boot_vm.
Proof. exists pile_vm, 0. split; [apply pile_bootable | apply boot_runs]. Qed.

Lemma boot_ok : vmm_ok boot_vm.
Proof. by destruct (booted_spec _ _ _ _ _ _ _ _ _ _ _ boot_booted). Qed.

Lemma step_ok vm o vm' ok : vmm_ok vm → legal vm o → sample_step vm o = Ret (vm', ok) → vmm_ok vm'.
Proof. intros Hok Hl E. destruct (vm_step_refines 0x10000 0x90000 vm o Hok Hl) as (vm1 & ok1 & E1 & Hok1 & _). congruence. Qed.

Lemma user_legal : legal boot_vm (CreateUser 1).
Proof. split; [done |]. by vm_compute. Qed.

Lemma user_ok : vmm_ok user_vm.
Proof. exact (step_ok _ _ _ _ boot_ok user_legal user_runs). Qed.

Lemma map_legal : legal user_vm map_page.
Proof. split; [| split_and!; ulia || by vm_compute]. by apply live_space; vm_compute. Qed.

Lemma user_room : room 3 user_vm 1.
Proof.
  split; [rewrite (surjective_pairing (source user_vm)); apply pile_enough; by vm_compute |]. assert (Hc : from_option owned_count 128 (spaces user_vm !! 1) + 3 ≤ VMM_SPACE_MAX_TABLES) by by vm_compute.
  destruct (spaces user_vm !! 1) as [s|]; [by exists s | by vm_compute in Hc].
Qed.

Lemma sample_layout : image_layout 0x10000 0x90000 0x10000 0x30000 0x30000 0x50000 0x50000 0x70000 0x70000 0x90000.
Proof.
  split; [done | | lia]. intros x Hx. rewrite !elem_of_cons, elem_of_nil in Hx. by repeat destruct Hx as [->|Hx].
Qed.

Lemma address_spaces_refine_witness :
  ∃ vm' ok, sample_step user_vm map_page = Ret (vm', ok) ∧ vm_effect 0x10000 0x90000 (maps_of user_vm) map_page ok (maps_of vm').
Proof. destruct (address_spaces_refine 0x10000 0x90000 user_vm map_page user_ok map_legal) as (vm' & ok & E & _ & He & _). exists vm', ok. split; [exact E | exact He]. Defined.

Lemma map_succeeds_witness : ∃ vm', sample_step user_vm map_page = Ret (vm', true) ∧ seen (maps_of vm') 1 0x10000200000 = Some (0x2000000, 0x8000000000000007).
Proof.
  destruct (map_succeeds 0x10000 0x90000 user_vm 1 0x10000200000 0x2000000 (Z.lor VMM_USER (Z.lor VMM_WRITE VMM_NX)) user_ok map_legal) as (vm' & E & Hs); [by vm_compute | done | done | by vm_compute | | |].
  - intros (_ & rt & e & Hrt & He & P & _). assert (E0 : ent user_vm (default 0 (root user_vm 1)) (idx 0x10000200000 4) = Some 0) by by vm_compute. rewrite Hrt in E0. change (ent user_vm rt (idx 0x10000200000 4) = Some 0) in E0. rewrite He in E0. injection E0 as ->. done.
  - exact user_room.
  - exists vm'. split; [exact E | exact Hs].
Defined.

Lemma map_unmap_roundtrip_witness : ∃ vm2, sample_step mapped_vm (Unmap 1 0x10000200000) = Ret (vm2, true) ∧ same_maps (maps_of user_vm) (maps_of vm2).
Proof. apply (map_unmap_roundtrip 0x10000 0x90000 user_vm 1 0x10000200000 0x2000000 (Z.lor VMM_USER (Z.lor VMM_WRITE VMM_NX)) mapped_vm user_ok); [done | exact map_legal | exact mapped_runs]. Defined.

Definition sample_source : FrameSource mem_state := frame_source 0x10000 0x90000 ltac:(lia) ltac:(ulia).
Definition sample_vm : vmm mem_state unit := mk_vmm ∅ sample_mem ∅ None zero_stats tt 0 [].

Lemma sample_frames : table_frames 576 sample_counts (seqZ 512 64).
Proof. split; [apply NoDup_seqZ |]. intros f Hf%elem_of_seqZ. unfold sample_counts, PAGE_SIZE, VMM_KERNEL_DIRECT_LIMIT, MEMORY_KERNEL_DIRECT_LIMIT. bfalse (f <? 512). lia. Qed.

Lemma sample_bootable : @bootable _ _ sample_source 0x10000 0x90000 sample_vm GIB.
Proof.
  assert (Hn : tables_needed 0x10000 0x90000 (identity_size 0x90000 GIB) = 4%nat) by by vm_compute. unfold bootable. rewrite Hn. split; [| split; [unfold GIB; lia | split; [unfold GIB; lia | split; [| lia]]]].
  - split; [done |]. split; [done |]. exists 576, sample_counts. split; [exact sample_holds | exact sample_reserved].
  - eapply (frames_enough 0x10000 0x90000); [exact sample_holds | exact sample_reserved | exact sample_frames |]. rewrite length_seqZ. lia.
Qed.

Lemma kernel_map_correct_witness :
  ∃ vm', @vmm_init _ _ sample_source _ 0x10000 0x90000 0x10000 0x30000 0x30000 0x50000 0x50000 0x70000 0x70000 0x90000 sample_vm GIB = Ret vm' ∧
    vmm_space_translate vm' (Some KERNEL) 0x12345 = Ret (Some (0x12345, 0x101)) ∧ vmm_kernel_protection_status 0x10000 0x30000 0x30000 0x50000 0x50000 0x70000 0x70000 0x90000 vm' = Ret (true, true, true).
Proof.
  destruct (@kernel_map_correct _ _ sample_source _ 0x10000 0x90000 0x10000 0x30000 0x30000 0x50000 0x50000 0x70000 0x70000 0x90000 sample_vm GIB sample_bootable sample_layout) as (vm' & E & _ & _ & _ & _ & Ht & _ & Hp).
  exists vm'. split; [exact E |]. split; [| exact Hp]. rewrite Ht by ulia. by vm_compute.
Defined.

Lemma tables_stay_well_formed_witness : vmm_ok mapped_vm.
Proof.
  apply (tables_stay_well_formed 0x10000 0x90000 0x10000 0x30000 0x30000 0x50000 0x50000 0x70000 0x70000 0x90000 boot_vm [CreateUser 1; map_page] mapped_vm boot_booted).
  eapply runs_cons; [exact user_legal | exact user_runs |]. eapply runs_cons; [exact map_legal | exact mapped_runs | apply runs_nil].
Defined.

Lemma users_stay_in_range_witness : user_address 0x10000 0x90000 0x10000200010.
Proof.
  apply (users_stay_in_range 0x10000 0x90000 0x10000 0x30000 0x30000 0x50000 0x50000 0x70000 0x70000 0x90000 boot_vm [CreateUser 1; map_page] mapped_vm 1 0x10000200010 0x2000010 0x8000000000000007 boot_booted); [| ulia | by vm_compute | done].
  eapply runs_cons; [exact user_legal | exact user_runs |]. eapply runs_cons; [exact map_legal | exact mapped_runs | apply runs_nil].
Defined.

Lemma spaces_isolated_witness :
  ∃ t t', vmm_space_translate mapped_vm (Some 1) 0x10000200010 = Ret t ∧ vmm_space_translate (state (pile_vm, false) (sample_step mapped_vm (Unmap 0 0x200000))).1 (Some 1) 0x10000200010 = Ret t' ∧ user_part t' = user_part t.
Proof.
  apply (spaces_isolated 0x10000 0x90000 mapped_vm [Unmap 0 0x200000] _ 1 0x10000200010); [exact (step_ok _ _ _ _ user_ok map_legal mapped_runs) | | | by vm_compute | ulia].
  - eapply (runs_cons _ _ _ _ true); [| vm_compute; reflexivity | apply runs_nil]. split; [| ulia]. by apply live_space; vm_compute.
  - intros o Ho%list_elem_of_singleton. left. by subst o.
Defined.
