(* ===== verification/Vga.v ===== *)
(** * The text screen: [kernel/drivers/vga.c]

    A grid of cells kept in memory as a ring of rows, a scrollback ring behind it, a
    window over both, and two ways of showing it: the VGA text memory with its
    hardware cursor, and a linear framebuffer drawn through a shadow copy that is
    presented lazily.  The static variables are split in two: [term] is what the
    terminal holds, [dev] is what the devices show and the bookkeeping about it.
    Functions that only draw take the one and return the other.  Memory is an [arr];
    a pointer into the heap is its address with the contents the driver owns. *)

From Stdlib Require Import ZArith Lia String.
From stdpp Require Import prelude list_numbers fin_maps zmap.
From S2P Require Import Prelude Update Array Arith CString Printf Log Bootinfo Kmem PageMap.

Local Open Scope Z_scope.

Definition VGA_LEGACY_COLS : Z := 80.
Definition VGA_LEGACY_ROWS : Z := 25.
Definition VGA_FONT_W : Z := 8.
Definition VGA_FONT_H : Z := 16.
Definition VGA_MIN_COLS : Z := 40.
Definition VGA_MIN_ROWS : Z := 12.
Definition VGA_MAX_COLS : Z := 240.
Definition VGA_MAX_ROWS : Z := 90.
Definition VGA_SCROLLBACK_DEFAULT_LINES : Z := 1024.
Definition VGA_SCROLLBACK_MIN_LINES : Z := 64.
Definition VGA_SCROLLBACK_EMERGENCY_LINES : Z := 16.
Definition FB_PRESENT_CELL_BUDGET : Z := 512.
Definition FB_PRESENT_MAX_DIRTY_ROWS : Z := 8.
Definition FB_PRESENT_MIN_HEAVY_TICKS : Z := 100.
Definition RABBITBONE_BOOT_FB_FORMAT_RGBX : Z := 1.
Definition RABBITBONE_BOOT_FB_FORMAT_BGRX : Z := 2.
Definition PAGE_SIZE : Z := 4096.

(** Where [screen_cells] points. *)
Inductive cells_ptr := PNull | PBoot | PHeap.

#[global] Instance cells_ptr_eq_dec : EqDecision cells_ptr.
Proof. solve_decision. Defined.

Record term (H P : Type) := mk_term {
  row : Z;
  col : Z;
  term_rows : Z;
  term_cols : Z;
  color : Z;
  screen_ptr : cells_ptr;
  boot_screen_cells : arr;
  heap_screen_cells : arr;
  screen_row_start : Z;
  scrollback_cells : option (Z * arr);
  scrollback_capacity : Z;
  scrollback_stride : Z;
  scrollback_start : Z;
  scrollback_count : Z;
  viewport_offset : Z;
  resize_scratch_cells : option (Z * arr);
  resize_scratch_capacity : Z;
  heap : H;
  pages : P;
  logged : list klog_call;
}.

Arguments mk_term {H P}.
Arguments row {H P}.
Arguments col {H P}.
Arguments term_rows {H P}.
Arguments term_cols {H P}.
Arguments color {H P}.
Arguments screen_ptr {H P}.
Arguments boot_screen_cells {H P}.
Arguments heap_screen_cells {H P}.
Arguments screen_row_start {H P}.
Arguments scrollback_cells {H P}.
Arguments scrollback_capacity {H P}.
Arguments scrollback_stride {H P}.
Arguments scrollback_start {H P}.
Arguments scrollback_count {H P}.
Arguments viewport_offset {H P}.
Arguments resize_scratch_cells {H P}.
Arguments resize_scratch_capacity {H P}.
Arguments heap {H P}.
Arguments pages {H P}.
Arguments logged {H P}.

#[export] Instance term_fields H P : Fields (term H P) := λ t,
  mk_term (row t) (col t) (term_rows t) (term_cols t) (color t) (screen_ptr t) (boot_screen_cells t) (heap_screen_cells t) (screen_row_start t)
    (scrollback_cells t) (scrollback_capacity t) (scrollback_stride t) (scrollback_start t) (scrollback_count t) (viewport_offset t)
    (resize_scratch_cells t) (resize_scratch_capacity t) (heap t) (pages t) (logged t).

Record framebuffer_console_t := mk_fb {
  active : bool;
  pixels : Z;
  shadow_pixels : option (Z * arr);
  shadow_bytes : Z;
  width : Z;
  height : Z;
  pitch_pixels : Z;
  format : Z;
  cursor_drawn : bool;
  cursor_row : Z;
  cursor_col : Z;
}.

#[export] Instance fb_fields : Fields framebuffer_console_t := λ f,
  mk_fb (active f) (pixels f) (shadow_pixels f) (shadow_bytes f) (width f) (height f) (pitch_pixels f) (format f) (cursor_drawn f) (cursor_row f) (cursor_col f).

(** The hardware: text memory at 0xb8000, pixels at [pixels (fb d)], port writes, and
    the tick counter as a function of time, of which reading takes an instant. *)
Record dev := mk_dev {
  cursor_visible_requested : bool;
  hw_cursor_is_visible : bool;
  hw_cursor_last_pos : Z;
  update_depth : Z;
  cursor_update_pending : bool;
  fb_dirty_rows : list Z;
  fb_dirty_all : bool;
  fb_dirty_cell_budget : Z;
  fb_last_present_tick : Z;
  fb_pending_scroll_rows : Z;
  fb : framebuffer_console_t;
  vga_memory : arr;
  video_memory : arr;
  ports : list (Z * Z);
  pit_at : Z → Z;
  instant : Z;
}.

#[export] Instance dev_fields : Fields dev := λ d,
  mk_dev (cursor_visible_requested d) (hw_cursor_is_visible d) (hw_cursor_last_pos d) (update_depth d) (cursor_update_pending d) (fb_dirty_rows d)
    (fb_dirty_all d) (fb_dirty_cell_budget d) (fb_last_present_tick d) (fb_pending_scroll_rows d) (fb d) (vga_memory d) (video_memory d) (ports d) (pit_at d) (instant d).

Definition outb (d : dev) (port v : Z) : dev := d <| ports := ports d ++ [(port, v)] |>.
Definition pit_ticks (d : dev) : Z * dev := (pit_at d (instant d), d <| instant := instant d + 1 |>).

(** ** Pixels *)

Definition fb_font5x7 : list (list Z) :=
  replicate 32 (replicate 7 0) ++
  [[0; 0; 0; 0; 0; 0; 0]; [4; 4; 4; 4; 4; 0; 4]; [10; 10; 10; 0; 0; 0; 0]; [10; 10; 31; 10; 31; 10; 10];
   [4; 15; 20; 14; 5; 30; 4]; [24; 25; 2; 4; 8; 19; 3]; [12; 18; 20; 8; 21; 18; 13]; [4; 4; 8; 0; 0; 0; 0];
   [2; 4; 8; 8; 8; 4; 2]; [8; 4; 2; 2; 2; 4; 8]; [0; 4; 21; 14; 21; 4; 0]; [0; 4; 4; 31; 4; 4; 0];
   [0; 0; 0; 0; 4; 4; 8]; [0; 0; 0; 31; 0; 0; 0]; [0; 0; 0; 0; 0; 6; 6]; [1; 2; 4; 8; 16; 0; 0];
   [14; 17; 19; 21; 25; 17; 14]; [4; 12; 4; 4; 4; 4; 14]; [14; 17; 1; 2; 4; 8; 31]; [30; 1; 1; 14; 1; 1; 30];
   [2; 6; 10; 18; 31; 2; 2]; [31; 16; 30; 1; 1; 17; 14]; [6; 8; 16; 30; 17; 17; 14]; [31; 1; 2; 4; 8; 8; 8];
   [14; 17; 17; 14; 17; 17; 14]; [14; 17; 17; 15; 1; 2; 12]; [0; 6; 6; 0; 6; 6; 0]; [0; 6; 6; 0; 6; 6; 8];
   [2; 4; 8; 16; 8; 4; 2]; [0; 0; 31; 0; 31; 0; 0]; [8; 4; 2; 1; 2; 4; 8]; [14; 17; 1; 2; 4; 0; 4];
   [14; 17; 1; 13; 21; 21; 14]; [14; 17; 17; 31; 17; 17; 17]; [30; 17; 17; 30; 17; 17; 30]; [14; 17; 16; 16; 16; 17; 14];
   [30; 17; 17; 17; 17; 17; 30]; [31; 16; 16; 30; 16; 16; 31]; [31; 16; 16; 30; 16; 16; 16]; [14; 17; 16; 23; 17; 17; 15];
   [17; 17; 17; 31; 17; 17; 17]; [14; 4; 4; 4; 4; 4; 14]; [7; 2; 2; 2; 2; 18; 12]; [17; 18; 20; 24; 20; 18; 17];
   [16; 16; 16; 16; 16; 16; 31]; [17; 27; 21; 21; 17; 17; 17]; [17; 25; 21; 19; 17; 17; 17]; [14; 17; 17; 17; 17; 17; 14];
   [30; 17; 17; 30; 16; 16; 16]; [14; 17; 17; 17; 21; 18; 13]; [30; 17; 17; 30; 20; 18; 17]; [15; 16; 16; 14; 1; 1; 30];
   [31; 4; 4; 4; 4; 4; 4]; [17; 17; 17; 17; 17; 17; 14]; [17; 17; 17; 17; 17; 10; 4]; [17; 17; 17; 21; 21; 21; 10];
   [17; 17; 10; 4; 10; 17; 17]; [17; 17; 10; 4; 4; 4; 4]; [31; 1; 2; 4; 8; 16; 31]; [14; 8; 8; 8; 8; 8; 14];
   [16; 8; 4; 2; 1; 0; 0]; [14; 2; 2; 2; 2; 2; 14]; [4; 10; 17; 0; 0; 0; 0]; [0; 0; 0; 0; 0; 0; 31];
   [8; 4; 2; 0; 0; 0; 0]; [0; 0; 14; 1; 15; 17; 15]; [16; 16; 30; 17; 17; 17; 30]; [0; 0; 14; 16; 16; 17; 14];
   [1; 1; 15; 17; 17; 17; 15]; [0; 0; 14; 17; 31; 16; 14]; [6; 8; 8; 30; 8; 8; 8]; [0; 0; 15; 17; 17; 15; 1];
   [16; 16; 30; 17; 17; 17; 17]; [4; 0; 12; 4; 4; 4; 14]; [2; 0; 6; 2; 2; 18; 12]; [16; 16; 18; 20; 24; 20; 18];
   [12; 4; 4; 4; 4; 4; 14]; [0; 0; 26; 21; 21; 17; 17]; [0; 0; 30; 17; 17; 17; 17]; [0; 0; 14; 17; 17; 17; 14];
   [0; 0; 30; 17; 17; 30; 16]; [0; 0; 15; 17; 17; 15; 1]; [0; 0; 22; 24; 16; 16; 16]; [0; 0; 15; 16; 14; 1; 30];
   [8; 8; 30; 8; 8; 9; 6]; [0; 0; 17; 17; 17; 17; 15]; [0; 0; 17; 17; 17; 10; 4]; [0; 0; 17; 17; 21; 21; 10];
   [0; 0; 17; 10; 4; 10; 17]; [0; 0; 17; 17; 17; 15; 1]; [0; 0; 31; 2; 4; 8; 31]; [2; 4; 4; 8; 4; 4; 2];
   [4; 4; 4; 4; 4; 4; 4]; [8; 4; 4; 2; 4; 4; 8]; [0; 0; 8; 21; 2; 0; 0]; [0; 0; 0; 0; 0; 0; 0]].

Definition fb_vga_rgb : list Z :=
  [0x000000; 0x0000aa; 0x00aa00; 0x00aaaa; 0xaa0000; 0xaa00aa; 0xaa5500; 0xaaaaaa;
   0x555555; 0x5555ff; 0x55ff55; 0x55ffff; 0xff5555; 0xff55ff; 0xffff55; 0xffffff].

Definition fb_pack_rgb (d : dev) (rgb : Z) : Z :=
  let r := Z.land (Z.shiftr rgb 16) 0xff in
  let g := Z.land (Z.shiftr rgb 8) 0xff in
  let b := Z.land rgb 0xff in
  if format (fb d) =? RABBITBONE_BOOT_FB_FORMAT_RGBX then Z.lor (Z.lor r (Z.shiftl g 8)) (Z.shiftl b 16)
  else Z.lor (Z.lor b (Z.shiftl g 8)) (Z.shiftl r 16).

Definition fb_attr_fg (d : dev) (attr : Z) : res Z := c ← rd fb_vga_rgb (Z.land attr 0xf); Ret (fb_pack_rgb d c).
Definition fb_attr_bg (d : dev) (attr : Z) : res Z := c ← rd fb_vga_rgb (Z.land (Z.shiftr attr 4) 0xf); Ret (fb_pack_rgb d c).

(** The memory [fb_draw_base] points to, with its address. *)
Inductive base := Shadow (addr : Z) (a : arr) | Video (addr : Z) (a : arr).

Definition fb_draw_base (d : dev) : option base :=
  if negb (active (fb d)) then None else
  match shadow_pixels (fb d) with
  | Some (p, a) => Some (Shadow p a)
  | None => if pixels (fb d) =? 0 then None else Some (Video (pixels (fb d)) (video_memory d))
  end.

Definition base_addr (b : base) : Z := match b with Shadow p _ | Video p _ => p end.
Definition base_arr (b : base) : arr := match b with Shadow _ a | Video _ a => a end.

(** The device after [a] has been drawn in the memory [b]. *)
Definition drawn (d : dev) (b : base) (a : arr) : dev :=
  match b with
  | Shadow p _ => d <| fb := (fb d) <| shadow_pixels := Some (p, a) |> |>
  | Video _ _ => d <| video_memory := a |>
  end.

(** [count] pixels from [src + si] to [dst + di]; a 64-bit move is two pixels. *)
Definition fb_copy_pixels_to_hw (src_addr : Z) (src : arr) (si : Z) (dst_addr : Z) (dst : arr) (di count : Z) : res arr :=
  if (dst_addr =? 0) || (count =? 0) then Ret dst else
  if Z.land (Z.lor (src_addr + 4 * si) (dst_addr + 4 * di)) 7 =? 0 then
    dst ← for_n (Z.to_nat (count / 2)) 0 (λ i dst,
      lo ← ard src (si + 2 * i); hi ← ard src (si + 2 * i + 1);
      dst ← awr dst (di + 2 * i) lo; awr dst (di + 2 * i + 1) hi) dst;
    if negb (Z.land count 1 =? 0) then p ← ard src (si + (count - 1)); awr dst (di + (count - 1)) p else Ret dst
  else for_n (Z.to_nat count) 0 (λ i dst, p ← ard src (si + i); awr dst (di + i) p) dst.

Definition fb_copy_shadow_to_hw (d : dev) : res dev :=
  let f := fb d in
  match shadow_pixels f with
  | None => Ret d
  | Some (sp, s) =>
      if negb (active f) || (pixels f =? 0) then Ret d else
      v ← for_n (Z.to_nat (height f)) 0 (λ y v,
        fb_copy_pixels_to_hw sp s (y * pitch_pixels f) (pixels f) v (y * pitch_pixels f) (width f)) (video_memory d);
      Ret (d <| video_memory := v |>)
  end.

Definition fb_fill_pixels (addr : Z) (dst : arr) (di count pixel : Z) : res arr :=
  if count =? 0 then Ret dst else
  if Z.land (addr + 4 * di) 7 =? 0 then
    dst ← for_n (Z.to_nat (count / 2)) 0 (λ i dst, dst ← awr dst (di + 2 * i) pixel; awr dst (di + 2 * i + 1) pixel) dst;
    if negb (Z.land count 1 =? 0) then awr dst (di + (count - 1)) pixel else Ret dst
  else for_n (Z.to_nat count) 0 (λ i dst, awr dst (di + i) pixel) dst.

Definition fb_fill_rect (d : dev) (x y w h pixel : Z) : res dev :=
  let f := fb d in
  if negb (active f) || (pixels f =? 0) || (width f <=? x) || (height f <=? y) then Ret d else
  let w := if width f - x <? w then width f - x else w in
  let h := if height f - y <? h then height f - y else h in
  match fb_draw_base d with
  | None => Ret d
  | Some b =>
      a ← for_n (Z.to_nat h) 0 (λ yy a, fb_fill_pixels (base_addr b) a ((y + yy) * pitch_pixels f + x) w pixel) (base_arr b);
      Ret (drawn d b a)
  end.

(** ** Cells *)

Definition attr_cell (attr c : Z) : Z := Z.lor (Z.land c 0xff) (Z.shiftl attr 8).
Definition recolor_cell (cell attr : Z) : Z := Z.lor (Z.land cell 0xff) (Z.shiftl attr 8).

(** [sanitize_cell] with the current attribute [now]. *)
Definition sanitize (now cell : Z) : Z :=
  let ch := Z.land cell 0xff in
  let attr := wrap8 (Z.shiftr cell 8) in
  let ch := if ch =? 0 then 32 else ch in
  let attr := if attr =? 0 then now else attr in
  Z.lor ch (Z.shiftl attr 8).

Section driver.
Context {H P : Type} `{Kmem H} `{PageMap P}.

#[local] Abbreviation term := (term H P).

Implicit Types (t : term) (d : dev).

Definition text_rows t : Z := if negb (term_rows t =? 0) then term_rows t else VGA_LEGACY_ROWS.
Definition text_cols t : Z := if negb (term_cols t =? 0) then term_cols t else VGA_LEGACY_COLS.

Definition cell_index t (y x : Z) : Z := y * text_cols t + x.

Definition live_cell_index t (y x : Z) : Z :=
  let rows := text_rows t in
  if rows =? 0 then cell_index t y x else
  let phys_y := screen_row_start t + y in
  let phys_y := if rows <=? phys_y then phys_y - rows else phys_y in
  phys_y * text_cols t + x.

Definition cell_count t : Z := text_rows t * text_cols t.

Definition make_cell t (c : Z) : Z := attr_cell (color t) c.
Definition blank_cell t : Z := make_cell t 32.
Definition current_attr t : Z := color t.
Definition sanitize_cell t (cell : Z) : Z := sanitize (current_attr t) cell.

Definition screen_cells t : option arr :=
  match screen_ptr t with PNull => None | PBoot => Some (boot_screen_cells t) | PHeap => Some (heap_screen_cells t) end.

Definition set_screen t (a : arr) : term :=
  match screen_ptr t with PNull => t | PBoot => t <| boot_screen_cells := a |> | PHeap => t <| heap_screen_cells := a |> end.

Definition hw_get_cell t d (y x : Z) : res Z :=
  if (VGA_LEGACY_ROWS <=? y) || (VGA_LEGACY_COLS <=? x) then Ret (blank_cell t) else
  c ← ard (vga_memory d) (y * VGA_LEGACY_COLS + x); Ret (sanitize_cell t c).

Definition live_get_cell t d (y x : Z) : res Z :=
  match screen_cells t with
  | Some a => c ← ard a (live_cell_index t y x); Ret (sanitize_cell t c)
  | None => hw_get_cell t d y x
  end.

(** The glyph of [ch] with the corner of its cell at pixel ([px], [py]). *)
Definition draw_background (pitch px py bg : Z) (a : arr) : res arr :=
  for_n (Z.to_nat VGA_FONT_H) 0 (λ yy a, for_n (Z.to_nat VGA_FONT_W) 0 (λ xx a, awr a ((py + yy) * pitch + px + xx) bg) a) a.

Definition draw_glyph (pitch px py fg ch : Z) (a : arr) : res arr :=
  let ch := if (128 <=? ch) || (ch <? 32) then 63 else ch in
  for_n 7 0 (λ gy a,
    glyph ← rd fb_font5x7 ch;
    bits ← rd glyph gy;
    let r0 := (py + 1 + gy * 2) * pitch + px + 1 in
    for_n 5 0 (λ gx a,
      if Z.testbit bits (4 - gx) then a ← awr a (r0 + gx) fg; awr a (r0 + pitch + gx) fg else Ret a) a) a.

Definition fb_draw_cell t d (y x cell : Z) : res dev :=
  let f := fb d in
  if negb (active f) || (pixels f =? 0) || (text_cols t <=? x) || (text_rows t <=? y) then Ret d else
  match fb_draw_base d with
  | None => Ret d
  | Some b =>
      let cell := sanitize_cell t cell in
      let px := x * VGA_FONT_W in
      let py := y * VGA_FONT_H in
      if (width f <? px + VGA_FONT_W) || (height f <? py + VGA_FONT_H) then Ret d else
      let attr := wrap8 (Z.shiftr cell 8) in
      fg ← fb_attr_fg d attr;
      bg ← fb_attr_bg d attr;
      a ← draw_background (pitch_pixels f) px py bg (base_arr b);
      let ch := Z.land cell 0xff in
      a ← (if ch =? 32 then Ret a else draw_glyph (pitch_pixels f) px py fg ch a);
      Ret (drawn d b a)
  end.

Definition hw_set_cell t d (y x cell : Z) : res dev :=
  let cell := sanitize_cell t cell in
  if active (fb d) then fb_draw_cell t d y x cell else
  if (y <? VGA_LEGACY_ROWS) && (x <? VGA_LEGACY_COLS) then
    m ← awr (vga_memory d) (y * VGA_LEGACY_COLS + x) cell; Ret (d <| vga_memory := m |>)
  else Ret d.

Definition fb_clear_full d (attr : Z) : res dev :=
  if negb (active (fb d)) || (pixels (fb d) =? 0) then Ret d else
  bg ← fb_attr_bg d attr; fb_fill_rect d 0 0 (width (fb d)) (height (fb d)) bg.

Definition fb_clear_unused_margins t d : res dev :=
  if negb (active (fb d)) || (pixels (fb d) =? 0) then Ret d else
  let used_w := text_cols t * VGA_FONT_W in
  let used_h := text_rows t * VGA_FONT_H in
  let w := width (fb d) in
  let h := height (fb d) in
  bg ← fb_attr_bg d (current_attr t);
  d ← (if used_w <? w then fb_fill_rect d used_w 0 (w - used_w) h bg else Ret d);
  if used_h <? h then fb_fill_rect d 0 used_h (if used_w <? w then used_w else w) (h - used_h) bg else Ret d.

(** ** Dirty rows *)

Definition fb_dirty_reset d : dev :=
  d <| fb_pending_scroll_rows := 0 |> <| fb_dirty_rows := replicate 2 0 |> <| fb_dirty_all := false |> <| fb_dirty_cell_budget := 0 |>.

Definition fb_mark_dirty_all t d : dev :=
  if negb (active (fb d)) then d else
  d <| fb_dirty_all := true |> <| fb_pending_scroll_rows := 0 |> <| fb_dirty_cell_budget := wrap32 (text_cols t * text_rows t) |>.

Definition fb_mark_dirty_row t d (y : Z) : res dev :=
  if negb (active (fb d)) || (text_rows t <=? y) then Ret d else
  w ← rd (fb_dirty_rows d) (y / 64);
  rows ← wr (fb_dirty_rows d) (y / 64) (Z.lor w (Z.shiftl 1 (y mod 64)));
  let d := d <| fb_dirty_rows := rows |> in
  Ret (if fb_dirty_cell_budget d <? 0xfffffff0 then d <| fb_dirty_cell_budget := wrap32 (fb_dirty_cell_budget d + text_cols t) |> else d).

Definition fb_has_dirty d : bool :=
  if negb (active (fb d)) then false else
  if negb (fb_pending_scroll_rows d =? 0) then true else
  if fb_dirty_all d then true else
  existsb (λ w, negb (w =? 0)) (fb_dirty_rows d).

(** [while (bits) { bits &= bits - 1; ++count; }]: each turn clears a bit. *)
Fixpoint bit_loop (fuel : nat) (bits count : Z) : res Z :=
  if bits =? 0 then Ret count else
  match fuel with O => Fault Diverged | S f => bit_loop f (Z.land bits (bits - 1)) (count + 1) end.

Definition fb_dirty_row_count t d : res Z :=
  if negb (fb_pending_scroll_rows d =? 0) then Ret (text_rows t) else
  if fb_dirty_all d then Ret (text_rows t) else
  fold_res (λ bits count, bit_loop 64 bits count) (fb_dirty_rows d) 0.

Definition row_dirty d (y : Z) : res bool :=
  w ← rd (fb_dirty_rows d) (y / 64); Ret (Z.testbit w (y mod 64)).

(** ** The cursor *)

Definition fb_copy_cell_to_hw t d (y x : Z) : res dev :=
  let f := fb d in
  match shadow_pixels f with
  | None => Ret d
  | Some (sp, s) =>
      if negb (active f) || (pixels f =? 0) || (text_rows t <=? y) || (text_cols t <=? x) then Ret d else
      let px := x * VGA_FONT_W in
      let py := y * VGA_FONT_H in
      if (width f <? px + VGA_FONT_W) || (height f <? py + VGA_FONT_H) then Ret d else
      v ← for_n (Z.to_nat VGA_FONT_H) 0 (λ yy v,
        let i := (py + yy) * pitch_pixels f + px in fb_copy_pixels_to_hw sp s i (pixels f) v i VGA_FONT_W) (video_memory d);
      Ret (d <| video_memory := v |>)
  end.

Definition fb_redraw_cursor_cell t d : res dev :=
  if negb (active (fb d)) || negb (cursor_drawn (fb d)) then Ret d else
  let old_row := cursor_row (fb d) in
  let old_col := cursor_col (fb d) in
  let d := d <| fb := (fb d) <| cursor_drawn := false |> |> in
  if (old_row <? text_rows t) && (old_col <? text_cols t) then
    c ← live_get_cell t d old_row old_col;
    d ← fb_draw_cell t d old_row old_col c;
    fb_copy_cell_to_hw t d old_row old_col
  else Ret d.

Definition fb_draw_cursor t d : res dev :=
  if negb (active (fb d)) || negb (cursor_visible_requested d) || negb (viewport_offset t =? 0) then Ret d else
  if (text_rows t <=? row t) || (text_cols t <=? col t) then Ret d else
  cell ← live_get_cell t d (row t) (col t);
  fg ← fb_attr_fg d (wrap8 (Z.shiftr cell 8));
  d ← fb_fill_rect d (col t * VGA_FONT_W + 1) (row t * VGA_FONT_H + VGA_FONT_H - 2) (VGA_FONT_W - 2) 1 fg;
  let d := d <| fb := (fb d) <| cursor_row := row t |> <| cursor_col := col t |> <| cursor_drawn := true |> |> in
  fb_copy_cell_to_hw t d (row t) (col t).

Definition hw_cursor_hide t d : res dev :=
  if active (fb d) then fb_redraw_cursor_cell t d else
  if negb (hw_cursor_is_visible d) then Ret d else
  Ret ((outb (outb d 0x3d4 0x0a) 0x3d5 0x20) <| hw_cursor_is_visible := false |>).

Definition hw_cursor_show d : dev :=
  if hw_cursor_is_visible d then d else
  (outb (outb (outb (outb d 0x3d4 0x0a) 0x3d5 0x0e) 0x3d4 0x0b) 0x3d5 0x0f) <| hw_cursor_is_visible := true |>.

Definition hw_cursor_update t d : res dev :=
  if negb (update_depth d =? 0) then Ret (d <| cursor_update_pending := true |>) else
  let d := d <| cursor_update_pending := false |> in
  if active (fb d) then
    d ← fb_redraw_cursor_cell t d;
    if cursor_visible_requested d && (viewport_offset t =? 0) then fb_draw_cursor t d else Ret d
  else
  if negb (cursor_visible_requested d) || negb (viewport_offset t =? 0) then hw_cursor_hide t d else
  let d := hw_cursor_show d in
  let pos := wrap16 (row t * VGA_LEGACY_COLS + col t) in
  if pos =? hw_cursor_last_pos d then Ret d else
  Ret ((outb (outb (outb (outb d 0x3d4 0x0f) 0x3d5 (Z.land pos 0xff)) 0x3d4 0x0e) 0x3d5 (Z.land (Z.shiftr pos 8) 0xff)) <| hw_cursor_last_pos := pos |>).

(** ** The live screen *)

Definition live_store_cell t d (y x cell : Z) : res (term * dev) :=
  let cell := sanitize_cell t cell in
  match screen_cells t with
  | Some a => a ← awr a (live_cell_index t y x) cell; Ret (set_screen t a, d)
  | None =>
      if negb (active (fb d)) && (y <? VGA_LEGACY_ROWS) && (x <? VGA_LEGACY_COLS) then
        m ← awr (vga_memory d) (y * VGA_LEGACY_COLS + x) cell; Ret (t, d <| vga_memory := m |>)
      else Ret (t, d)
  end.

Definition live_set_cell t d (y x cell : Z) : res (term * dev) :=
  if (text_rows t <=? y) || (text_cols t <=? x) then Ret (t, d) else
  let cell := sanitize_cell t cell in
  t ← match screen_cells t with
      | Some a => a ← awr a (live_cell_index t y x) cell; Ret (set_screen t a)
      | None => Ret t
      end;
  if active (fb d) then
    d ← fb_mark_dirty_row t d y;
    Ret (t, d <| cursor_update_pending := true |>)
  else if viewport_offset t =? 0 then d ← hw_set_cell t d y x cell; Ret (t, d)
  else Ret (t, d).

Definition clamp_cursor t : term :=
  let t := if text_rows t <=? row t then t <| row := text_rows t - 1 |> else t in
  if text_cols t <=? col t then t <| col := text_cols t - 1 |> else t.

Definition clear_live_line t d (y from_col : Z) : res (term * dev) :=
  if (text_rows t <=? y) || (text_cols t <=? from_col) then Ret (t, d) else
  let cell := blank_cell t in
  for_n (Z.to_nat (text_cols t - from_col)) from_col (λ x '(t, d), live_set_cell t d y x cell) (t, d).

(** ** Scrollback *)

Definition scrollback_usable t : bool :=
  match scrollback_cells t with
  | Some _ => negb (scrollback_capacity t =? 0) && (scrollback_stride t =? text_cols t)
  | None => false
  end.

Definition clear_scrollback t : res term :=
  let t := t <| scrollback_start := 0 |> <| scrollback_count := 0 |> <| viewport_offset := 0 |> in
  match scrollback_cells t with
  | None => Ret t
  | Some (p, a) =>
      if (scrollback_capacity t =? 0) || (scrollback_stride t =? 0) then Ret t else
      let cell := blank_cell t in
      a ← for_n (Z.to_nat (scrollback_capacity t)) 0 (λ y,
            for_n (Z.to_nat (scrollback_stride t)) 0 (λ x a, awr a (y * scrollback_stride t + x) cell)) a;
      Ret (t <| scrollback_cells := Some (p, a) |>)
  end.

Definition clear_live_screen t d : res (term * dev) :=
  let t := t <| screen_row_start := 0 |> in
  let cell := blank_cell t in
  let cols := text_cols t in
  '(t, d) ← for_n (Z.to_nat (text_rows t)) 0 (λ y, for_n (Z.to_nat cols) 0 (λ x '(t, d), live_store_cell t d y x cell)) (t, d);
  Ret (t, fb_mark_dirty_all t d).

Definition history_push_line t (line : list Z) : res term :=
  if negb (scrollback_usable t) then Ret t else
  match scrollback_cells t with
  | None => Ret t
  | Some (p, a) =>
      let '(pos, t) :=
        if scrollback_count t <? scrollback_capacity t then
          ((scrollback_start t + scrollback_count t) mod scrollback_capacity t, t <| scrollback_count := scrollback_count t + 1 |>)
        else (scrollback_start t, t <| scrollback_start := (scrollback_start t + 1) mod scrollback_capacity t |>) in
      a ← for_n (Z.to_nat (text_cols t)) 0 (λ x a, c ← rd line x; awr a (pos * scrollback_stride t + x) (sanitize_cell t c)) a;
      Ret (t <| scrollback_cells := Some (p, a) |>)
  end.

(** The line's offset in the scrollback memory. *)
Definition history_line_at t (idx : Z) : option Z :=
  if negb (scrollback_usable t) || (scrollback_count t <=? idx) then None
  else Some ((scrollback_start t + idx) mod scrollback_capacity t * scrollback_stride t).

Definition scrollback_max_offset t : Z := if scrollback_usable t then scrollback_count t else 0.

(** ** Rendering *)

Definition render_cells t d (y offset : Z) : res dev :=
  for_n (Z.to_nat (text_cols t)) 0 (λ x d,
    c ← match scrollback_cells t with Some (_, a) => ard a (offset + x) | None => Fault OutOfBounds end;
    hw_set_cell t d y x c) d.

Definition render_live_line t d (dst_y live_y : Z) : res dev :=
  for_n (Z.to_nat (text_cols t)) 0 (λ x d, c ← live_get_cell t d live_y x; hw_set_cell t d dst_y x c) d.

Definition render_blank_line t d (y : Z) : res dev :=
  let cell := blank_cell t in
  for_n (Z.to_nat (text_cols t)) 0 (λ x d, hw_set_cell t d y x cell) d.

(** [memmove] of [n] pixels inside one array: the source is read before it is
    overwritten. *)
Definition move_pixels (a : arr) (dst src n : Z) : res arr :=
  for_n (Z.to_nat n) 0 (λ i b, p ← ard a (src + i); awr b (dst + i) p) a.

Definition fb_scroll_shadow_rows t d (rows : Z) : res dev :=
  let f := fb d in
  match shadow_pixels f with
  | None => Ret d
  | Some (sp, s) =>
      if negb (active f) || (rows =? 0) then Ret d else
      if text_rows t <=? rows then Ret d else
      let pixel_rows := rows * VGA_FONT_H in
      let text_h := text_rows t * VGA_FONT_H in
      let text_w := text_cols t * VGA_FONT_W in
      let text_h := if height f <? text_h then height f else text_h in
      let text_w := if width f <? text_w then width f else text_w in
      if (text_h <=? pixel_rows) || (text_w =? 0) then Ret d else
      let move_rows := text_h - pixel_rows in
      s ← for_n (Z.to_nat move_rows) 0 (λ y s, move_pixels s (y * pitch_pixels f) ((y + pixel_rows) * pitch_pixels f) text_w) s;
      bg ← fb_attr_bg d (current_attr t);
      s ← for_n (Z.to_nat (text_h - move_rows)) move_rows (λ y s, fb_fill_pixels sp s (y * pitch_pixels f) text_w bg) s;
      Ret (d <| fb := f <| shadow_pixels := Some (sp, s) |> |>)
  end.

Definition forget_cursor d : dev :=
  if active (fb d) && cursor_drawn (fb d) then d <| fb := (fb d) <| cursor_drawn := false |> |> else d.

Definition render_row t d (start y : Z) : res dev :=
  let visible_scrollback_count := if scrollback_usable t then scrollback_count t else 0 in
  let idx := start + y in
  if idx <? visible_scrollback_count then
    match history_line_at t idx with Some o => render_cells t d y o | None => render_blank_line t d y end
  else
    let live_y := idx - visible_scrollback_count in
    if live_y <? text_rows t then render_live_line t d y live_y else render_blank_line t d y.

Definition view_start t : Z :=
  let visible_scrollback_count := if scrollback_usable t then scrollback_count t else 0 in
  let total := visible_scrollback_count + text_rows t in
  let max_start := if text_rows t <? total then total - text_rows t else 0 in
  if negb (viewport_offset t =? 0) then
    let off := if scrollback_max_offset t <? viewport_offset t then scrollback_max_offset t else viewport_offset t in
    if off <? max_start then max_start - off else 0
  else visible_scrollback_count.

Definition render_view t d : res dev :=
  let d := forget_cursor d in
  d ← for_n (Z.to_nat (text_rows t)) 0 (λ y d, render_row t d (view_start t) y) d;
  d ← fb_clear_unused_margins t d;
  let '(now, d) := pit_ticks d in
  let d := d <| fb_last_present_tick := now |> <| fb_pending_scroll_rows := 0 |> in
  let d := fb_dirty_reset d in
  d ← hw_cursor_update t d;
  fb_copy_shadow_to_hw d.

Definition render_dirty_rows t d : res dev :=
  for_n (Z.to_nat (text_rows t)) 0 (λ y d, dirty ← row_dirty d y; if dirty : bool then render_live_line t d y y else Ret d) d.

(** What is drawn: everything, or the shadow copy scrolled and the uncovered and dirty
    rows, or the dirty rows. *)
Definition present_rows t d : res dev :=
  if fb_dirty_all d || negb (viewport_offset t =? 0) || (text_rows t <=? fb_pending_scroll_rows d) then
    d ← for_n (Z.to_nat (text_rows t)) 0 (λ y d, render_live_line t d y y) d;
    fb_clear_unused_margins t d
  else if negb (fb_pending_scroll_rows d =? 0) then
    let scrolled := fb_pending_scroll_rows d in
    d ← fb_scroll_shadow_rows t d scrolled;
    d ← for_n (Z.to_nat scrolled) (text_rows t - scrolled) (λ y d, render_live_line t d y y) d;
    render_dirty_rows t d
  else render_dirty_rows t d.

Definition fb_present_dirty t d (force : bool) : res dev :=
  if negb (active (fb d)) || negb (fb_has_dirty d) then
    if force && cursor_update_pending d then hw_cursor_update t d else Ret d
  else
  let '(now, d) := pit_ticks d in
  dirty_rows ← fb_dirty_row_count t d;
  let scroll_heavy := negb (fb_pending_scroll_rows d =? 0) in
  let heavy := scroll_heavy || fb_dirty_all d || (FB_PRESENT_MAX_DIRTY_ROWS <? dirty_rows) || (FB_PRESENT_CELL_BUDGET <? fb_dirty_cell_budget d) in
  if negb force && scroll_heavy then Ret d else
  if negb force && heavy && (wrap64 (now - fb_last_present_tick d) <? FB_PRESENT_MIN_HEAVY_TICKS) then Ret d else
  let d := if cursor_drawn (fb d) then d <| fb := (fb d) <| cursor_drawn := false |> |> else d in
  d ← present_rows t d;
  let d := fb_dirty_reset d in
  d ← (if cursor_update_pending d || force then hw_cursor_update t d else Ret d);
  d ← fb_copy_shadow_to_hw d;
  let '(now, d) := pit_ticks d in
  Ret (d <| fb_last_present_tick := now |>).

Definition ensure_live_view t d : res (term * dev) :=
  if negb (viewport_offset t =? 0) then
    let t := t <| viewport_offset := 0 |> in d ← render_view t d; Ret (t, d)
  else Ret (t, d).

(** The rows move up by one when the screen is not kept in memory. *)
Definition shift_rows t d : res (term * dev) :=
  let cols := text_cols t in
  for_n (Z.to_nat (text_rows t - 1)) 1 (λ y,
    for_n (Z.to_nat cols) 0 (λ x '(t, d), c ← live_get_cell t d y x; live_store_cell t d (y - 1) x c)) (t, d).

Definition scroll_live_one t d : res (term * dev) :=
  let live_view := viewport_offset t =? 0 in
  d ← (if live_view && active (fb d) then fb_redraw_cursor_cell t d else Ret d);
  top ← for_n (Z.to_nat (text_cols t)) 0 (λ x top, c ← live_get_cell t d 0 x; wr top x c) (replicate (Z.to_nat VGA_MAX_COLS) 0);
  t ← history_push_line t top;
  '(t, d) ← match screen_cells t with
            | Some _ =>
                if 1 <? text_rows t then Ret (t <| screen_row_start := (screen_row_start t + 1) mod text_rows t |>, d)
                else shift_rows t d
            | None => shift_rows t d
            end;
  let blank := blank_cell t in
  '(t, d) ← for_n (Z.to_nat (text_cols t)) 0 (λ x '(t, d), live_store_cell t d (text_rows t - 1) x blank) (t, d);
  let t := t <| row := text_rows t - 1 |> in
  if live_view && active (fb d) then
    let d := if fb_pending_scroll_rows d <? text_rows t then d <| fb_pending_scroll_rows := fb_pending_scroll_rows d + 1 |>
             else fb_mark_dirty_all t d in
    d ← fb_mark_dirty_row t d (text_rows t - 1);
    let d := d <| cursor_update_pending := true |> in
    d ← (if update_depth d =? 0 then fb_present_dirty t d false else Ret d);
    Ret (t, d)
  else d ← render_view t d; Ret (t, d).

(** [while (row >= VGA_HEIGHT) scroll_live_one();], which ends after one turn. *)
Fixpoint scroll_loop (fuel : nat) t d : res (term * dev) :=
  if row t <? text_rows t then Ret (t, d) else
  match fuel with O => Fault Diverged | S f => '(t, d) ← scroll_live_one t d; scroll_loop f t d end.

Definition scroll_if_needed t d : res (term * dev) := scroll_loop 1 t d.

(** ** Memory *)

Definition ensure_resize_scratch t (required_cells : Z) : res (term * bool) :=
  let enough := match resize_scratch_cells t with Some _ => required_cells <=? resize_scratch_capacity t | None => false end in
  if enough then Ret (t, true) else
  match kmalloc (heap t) (2 * required_cells) with
  | (None, h) => Ret (t <| heap := h |>, false)
  | (Some p, h) =>
      h ← match resize_scratch_cells t with Some (old, _) => kfree h old | None => Ret h end;
      Ret (t <| heap := h |> <| resize_scratch_cells := Some (p, anew required_cells) |> <| resize_scratch_capacity := required_cells |>, true)
  end.

Definition clamp_dim (value lo hi : Z) : Z := if value <? lo then lo else if hi <? value then hi else value.

Definition copy_hw_to_screen t d (target : arr) (rows cols : Z) : res arr :=
  for_n (Z.to_nat rows) 0 (λ y a, for_n (Z.to_nat cols) 0 (λ x a,
    c ← hw_get_cell t d y x; awr a (y * cols + x) (sanitize_cell t c)) a) target.

Definition allocate_screen_shadow t d : res (term * bool) :=
  match screen_cells t with
  | Some _ => Ret (t, true)
  | None =>
      match kmalloc (heap t) (2 * cell_count t) with
      | (None, h) => Ret (t <| heap := h |>, false)
      | (Some p, h) =>
          a ← copy_hw_to_screen t d (anew (cell_count t)) (text_rows t) (text_cols t);
          Ret (t <| heap := h |> <| heap_screen_cells := a |> <| screen_ptr := PHeap |> <| screen_row_start := 0 |>, true)
      end
  end.

Definition allocate_history t (lines : Z) : res (term * bool) :=
  if lines =? 0 then Ret (t, false) else
  match mul_u64 lines (text_cols t) with
  | None => Ret (t, false)
  | Some cells =>
      match mul_u64 cells 2 with
      | None => Ret (t, false)
      | Some bytes =>
          match kmalloc (heap t) bytes with
          | (None, h) => Ret (t <| heap := h |>, false)
          | (Some p, h) =>
              t ← clear_scrollback (t <| heap := h |> <| scrollback_cells := Some (p, anew cells) |> <| scrollback_capacity := lines |>
                                      <| scrollback_stride := text_cols t |>);
              Ret (t, true)
          end
      end
  end.

(** ** The interface *)

Definition vga_set_color t (fg bg : Z) : term := t <| color := Z.lor (Z.shiftl (Z.land bg 0xf) 4) (Z.land fg 0xf) |>.
Definition vga_get_color t : Z := color t.

Definition recolor_history t (attr : Z) : res term :=
  match scrollback_cells t with
  | None => Ret t
  | Some (p, a) =>
      if scrollback_stride t =? 0 then Ret t else
      a ← for_n (Z.to_nat (scrollback_capacity t)) 0 (λ y, for_n (Z.to_nat (scrollback_stride t)) 0 (λ x a,
            let idx := y * scrollback_stride t + x in c ← ard a idx; awr a idx (recolor_cell c attr))) a;
      Ret (t <| scrollback_cells := Some (p, a) |>)
  end.

Definition vga_recolor t d (fg bg : Z) : res (term * dev) :=
  let t := vga_set_color t fg bg in
  let attr := current_attr t in
  let cols := text_cols t in
  '(t, d) ← for_n (Z.to_nat (text_rows t)) 0 (λ y, for_n (Z.to_nat cols) 0 (λ x '(t, d),
      c ← live_get_cell t d y x; live_store_cell t d y x (recolor_cell c attr))) (t, d);
  t ← recolor_history t attr;
  d ← render_view t d;
  Ret (t, d).

Definition vga_fill_color t d (fg bg : Z) : res (term * dev) :=
  let old := color t in
  let t := vga_set_color t fg bg in
  '(t, d) ← clear_live_screen t d;
  d ← render_view t d;
  let t := t <| color := old |> in
  d ← hw_cursor_update t d;
  Ret (t, d).

Definition vga_get_size t : Z * Z := (wrap32 (text_rows t), wrap32 (text_cols t)).

Definition vga_move_cursor t d (r c : Z) : res (term * dev) :=
  '(t, d) ← ensure_live_view t d;
  let t := t <| row := if r <? text_rows t then r else text_rows t - 1 |> <| col := if c <? text_cols t then c else text_cols t - 1 |> in
  d ← hw_cursor_update t d;
  Ret (t, d).

Definition vga_get_cursor t : Z * Z := (wrap32 (row t), wrap32 (col t)).

Definition vga_set_cursor_visible t d (visible : bool) : res dev :=
  let d := d <| cursor_visible_requested := visible |> in
  if visible then hw_cursor_update t d else hw_cursor_hide t d.

Definition vga_clear_line t d : res (term * dev) :=
  '(t, d) ← ensure_live_view t d;
  let t := clamp_cursor t in
  '(t, d) ← clear_live_line t d (row t) (col t);
  d ← hw_cursor_update t d;
  Ret (t, d).

Definition vga_clear t d : res (term * dev) :=
  t ← clear_scrollback t;
  '(t, d) ← clear_live_screen t d;
  let t := t <| row := 0 |> <| col := 0 |> in
  d ← render_view t d;
  Ret (t, d).

Definition vga_init t d : res (term * dev) :=
  let f := fb d in
  let f := mk_fb false 0 None 0 0 0 0 0 false (cursor_row f) (cursor_col f) in
  let t := mk_term (row t) (col t) VGA_LEGACY_ROWS VGA_LEGACY_COLS (color t) PBoot (boot_screen_cells t) (heap_screen_cells t) 0
             None 0 0 0 0 0 None 0 (heap t) (pages t) (logged t) in
  let d := d <| fb := f |> <| update_depth := 0 |> <| cursor_update_pending := false |> <| cursor_visible_requested := true |>
             <| hw_cursor_is_visible := false |> <| hw_cursor_last_pos := 0xffff |> in
  let t := vga_set_color t 15 1 in
  vga_clear t d.

Definition klog_tty t (level : Z) (fmt : string) (args : list varg) : term :=
  t <| logged := logged t ++ [mk_klog level (lit "tty") (lit fmt) args] |>.

(** [for (lines = 1024; lines >= 64; lines /= 2)]. *)
Fixpoint history_loop (fuel : nat) t (lines : Z) : res (term * bool) :=
  if lines <? VGA_SCROLLBACK_MIN_LINES then Ret (t, false) else
  match fuel with
  | O => Fault Diverged
  | S f =>
      '(t, ok) ← allocate_history t lines;
      if ok : bool then Ret (klog_tty t LOG_INFO "scrollback lines=%llu" [VLong lines], true) else
      if lines =? VGA_SCROLLBACK_MIN_LINES then Ret (t, false) else history_loop f t (lines / 2)
  end.

Definition drop_history t : res term :=
  match scrollback_cells t with
  | None => Ret t
  | Some (p, _) =>
      h ← kfree (heap t) p;
      Ret (t <| heap := h |> <| scrollback_cells := None |> <| scrollback_capacity := 0 |> <| scrollback_stride := 0 |>
             <| scrollback_start := 0 |> <| scrollback_count := 0 |> <| viewport_offset := 0 |>)
  end.

Definition vga_enable_scrollback t d : res (term * bool) :=
  '(t, ok) ← allocate_screen_shadow t d;
  if negb ok then Ret (t, false) else
  if scrollback_usable t then Ret (t, true) else
  t ← drop_history t;
  '(t, ok) ← history_loop 11 t VGA_SCROLLBACK_DEFAULT_LINES;
  if ok : bool then Ret (t, true) else
  '(t, ok) ← allocate_history t VGA_SCROLLBACK_EMERGENCY_LINES;
  if ok : bool then
    Ret (klog_tty t LOG_WARN "large scrollback unavailable; using %u-line emergency buffer" [VInt VGA_SCROLLBACK_EMERGENCY_LINES], true)
  else Ret (klog_tty t LOG_WARN "scrollback unavailable: unable to allocate even the emergency buffer" [], false).

Definition vga_putc t d (c : Z) : res (term * dev) :=
  '(t, d) ← ensure_live_view t d;
  let t := clamp_cursor t in
  if c =? 13 then
    let t := t <| col := 0 |> in d ← hw_cursor_update t d; Ret (t, d)
  else if c =? 10 then
    let t := t <| col := 0 |> <| row := row t + 1 |> in
    '(t, d) ← scroll_if_needed t d; d ← hw_cursor_update t d; Ret (t, d)
  else if c =? 8 then
    let t := if 0 <? col t then t <| col := col t - 1 |> else t in
    let t := clamp_cursor t in
    '(t, d) ← live_set_cell t d (row t) (col t) (blank_cell t); d ← hw_cursor_update t d; Ret (t, d)
  else
    '(t, d) ← live_set_cell t d (row t) (col t) (make_cell t c);
    let t := t <| col := col t + 1 |> in
    '(t, d) ← (if text_cols t <=? col t then scroll_if_needed (t <| col := 0 |> <| row := row t + 1 |>) d else Ret (t, d));
    d ← hw_cursor_update t d;
    Ret (t, d).

(** [delta] is a signed 32-bit number. *)
Definition vga_scroll_view t d (delta : Z) : res (term * dev * bool) :=
  if delta =? 0 then Ret (t, d, true) else
  let max := scrollback_max_offset t in
  let t := if 0 <? delta then
             let next := viewport_offset t + delta in t <| viewport_offset := wrap32 (if max <? next then max else next) |>
           else
             let e := - delta in t <| viewport_offset := if e <? viewport_offset t then viewport_offset t - e else 0 |> in
  d ← render_view t d;
  Ret (t, d, true).

(** The old contents in the upper left corner of a blank grid. *)
Definition regrid t d (new_rows new_cols copy_rows copy_cols : Z) (scratch : arr) : res (term * arr) :=
  match screen_cells t with
  | Some _ =>
      scratch ← for_n (Z.to_nat copy_rows) 0 (λ y, for_n (Z.to_nat copy_cols) 0 (λ x s,
        c ← live_get_cell t d y x; awr s (y * new_cols + x) c)) scratch;
      let t := t <| term_rows := new_rows |> <| term_cols := new_cols |> <| screen_row_start := 0 |> in
      t ← for_n (Z.to_nat (cell_count t)) 0 (λ i t,
        match screen_cells t with
        | Some a => c ← ard scratch i; a ← awr a i (sanitize_cell t c); Ret (set_screen t a)
        | None => Fault OutOfBounds
        end) t;
      Ret (t, scratch)
  | None => Ret (t <| term_rows := new_rows |> <| term_cols := new_cols |>, scratch)
  end.

Definition reconfigure_text_grid t d (new_rows new_cols : Z) : res term :=
  let new_rows := clamp_dim new_rows VGA_MIN_ROWS VGA_MAX_ROWS in
  let new_cols := clamp_dim new_cols VGA_MIN_COLS VGA_MAX_COLS in
  if (new_rows =? text_rows t) && (new_cols =? text_cols t) then Ret t else
  let new_count := new_rows * new_cols in
  '(t, ok) ← ensure_resize_scratch t new_count;
  if negb ok then Ret (klog_tty t LOG_WARN "text grid resize skipped: scratch allocation failed" []) else
  match resize_scratch_cells t with
  | None => Fault OutOfBounds
  | Some (sp, scratch) =>
      let blank := blank_cell t in
      scratch ← for_n (Z.to_nat new_count) 0 (λ i s, awr s i blank) scratch;
      let old_rows := text_rows t in
      let old_cols := text_cols t in
      let copy_rows := if old_rows <? new_rows then old_rows else new_rows in
      let copy_cols := if old_cols <? new_cols then old_cols else new_cols in
      let had_scrollback := match scrollback_cells t with Some _ => negb (scrollback_capacity t =? 0) | None => false end in
      let old_scrollback_capacity := scrollback_capacity t in
      let renew := had_scrollback && negb (old_cols =? new_cols) in
      t ← (if renew then drop_history t else Ret t);
      '(t, scratch) ← regrid t d new_rows new_cols copy_rows copy_cols scratch;
      let t := t <| resize_scratch_cells := Some (sp, scratch) |> in
      '(t, _) ← (if renew then allocate_history t old_scrollback_capacity else Ret (t, false));
      clear_scrollback (clamp_cursor t)
  end.

Definition reconfigure_text_grid_for_framebuffer t d (w h : Z) : res term :=
  let cols := w / VGA_FONT_W in
  let rows := h / VGA_FONT_H in
  reconfigure_text_grid t d rows cols.

Definition fb_map_identity t (base_address bytes : Z) : res (term * bool) :=
  if (base_address =? 0) || (bytes =? 0) then Ret (t, false) else
  match add_u64 base_address bytes with
  | None => Ret (t, false)
  | Some end_raw =>
      match align_up_usize_checked end_raw PAGE_SIZE true with
      | None => Ret (t, false)
      | Some e =>
          let start := Z.land base_address (lnot_w 64 (PAGE_SIZE - 1)) in
          c ← loop_n (Z.to_nat ((e - start) / PAGE_SIZE)) 0 (λ i t,
            let page := start + i * PAGE_SIZE in
            let mapped := match vmm_translate (pages t) page with
                          | Some (phys, flags) => (phys =? page) && negb (Z.land flags VMM_PRESENT =? 0)
                          | None => false
                          end in
            if mapped then Ret (Next t) else
            let '(ps, ok) := vmm_map_4k (pages t) page page (Z.lor (Z.lor VMM_WRITE VMM_WRITECOMB) VMM_NX) in
            let t := t <| pages := ps |> in
            if negb ok then Ret (Done t) else Ret (Next t)) t;
          Ret (match c with Next t => (t, true) | Done t => (t, false) end)
      end
  end.

(** Base, width, height, pitch and format. *)
Definition boot_framebuffer_fields (info : info_ptr) : option (Z * Z * Z * Z * Z) :=
  match info with
  | None => None
  | Some (_, i) =>
      if negb (bootinfo_basic_usable info) then None else
      let base_address := reserved1_0 i in
      let w := Z.land (Z.shiftr (reserved1_1 i) 32) 0xffffffff in
      let h := Z.land (reserved1_1 i) 0xffffffff in
      let pitch := Z.land (Z.shiftr (reserved1_2 i) 32) 0xffffffff in
      let fmt := Z.land (reserved1_2 i) 0xffffffff in
      if (base_address =? 0) || (w <? VGA_MIN_COLS * VGA_FONT_W) || (h <? VGA_MIN_ROWS * VGA_FONT_H) || (pitch <? w) then None else
      if negb (fmt =? RABBITBONE_BOOT_FB_FORMAT_RGBX) && negb (fmt =? RABBITBONE_BOOT_FB_FORMAT_BGRX) then None else
      Some (base_address, w, h, pitch, fmt)
  end.

Definition vga_enable_boot_framebuffer_raw t d (base_address w h pitch fmt : Z) : res (term * dev * bool) :=
  let f := fb d in
  if active f then
    Ret (t, d, (pixels f =? base_address) && (width f =? w) && (height f =? h) && (pitch_pixels f =? pitch) && (format f =? fmt))
  else
  match mul_u64 pitch 4 ≫= λ rows_bytes, mul_u64 rows_bytes h with
  | None => Ret (t, d, false)
  | Some bytes =>
      '(t, ok) ← fb_map_identity t base_address bytes;
      if negb ok then Ret (t, d, false) else
      match kmalloc (heap t) bytes with
      | (None, hp) => Ret (t <| heap := hp |>, d, false)
      | (Some sp, hp) =>
          let t := t <| heap := hp |> in
          t ← reconfigure_text_grid_for_framebuffer t d w h;
          let d := d <| fb := mk_fb true base_address (Some (sp, anew (pitch * h))) bytes w h pitch fmt false 0 0 |> in
          let '(now, d) := pit_ticks d in
          let d := d <| fb_last_present_tick := now |> <| fb_pending_scroll_rows := 0 |> in
          let d := fb_dirty_reset d in
          d ← fb_clear_full d (color t);
          d ← render_view t d;
          Ret (t <| logged := logged t ++ [mk_klog LOG_INFO (lit "fbcon") (lit "UEFI framebuffer enabled base=%p %ux%u pitch=%u format=%u")
                                             [VPtr base_address; VInt w; VInt h; VInt pitch; VInt fmt]] |>, d, true)
      end
  end.

Definition vga_use_boot_framebuffer_early t d (info : info_ptr) : res (term * dev * bool) :=
  match boot_framebuffer_fields info with
  | None => Ret (t, d, false)
  | Some (base_address, w, h, pitch, fmt) => vga_enable_boot_framebuffer_raw t d base_address w h pitch fmt
  end.

Definition vga_use_boot_framebuffer t d (m : memory) (info : info_ptr) : res (term * dev * bool) :=
  ok ← bootinfo_validate m info;
  if negb ok then Ret (t, d, false) else vga_use_boot_framebuffer_early t d info.

Definition vga_begin_update t d : res dev :=
  d ← (if (update_depth d =? 0) && active (fb d) && cursor_drawn (fb d) then fb_redraw_cursor_cell t d else Ret d);
  Ret (if negb (update_depth d =? U32MAX) then d <| update_depth := update_depth d + 1 |> else d <| cursor_update_pending := true |>).

Definition vga_end_update t d : res dev :=
  if update_depth d =? 0 then Ret d else
  let d := d <| update_depth := update_depth d - 1 |> in
  if update_depth d =? 0 then
    if active (fb d) then fb_present_dirty t d false
    else if cursor_update_pending d then hw_cursor_update t d else Ret d
  else Ret d.

Definition vga_flush t d : res dev :=
  if active (fb d) then fb_present_dirty t d true
  else if cursor_update_pending d then hw_cursor_update t d else Ret d.

Definition vga_write_n t d (s : option (list Z)) (n : Z) : res (term * dev) :=
  match s with
  | None => if negb (n =? 0) then Ret (t, d) else d ← vga_begin_update t d; d ← vga_end_update t d; Ret (t, d)
  | Some s =>
      d ← vga_begin_update t d;
      '(t, d) ← for_n (Z.to_nat n) 0 (λ i '(t, d), c ← rd s i; vga_putc t d c) (t, d);
      d ← vga_end_update t d;
      Ret (t, d)
  end.

Definition vga_write t d (s : option (list Z)) : res (term * dev) :=
  match s with None => Ret (t, d) | Some _ => n ← strlen s; vga_write_n t d s n end.

End driver.
