(* ===== verification/VgaPixels.v ===== *)
(** * Drawing: what the framebuffer routines of [vga.c] paint

    Each routine returns, stays inside the shadow copy and the video memory, and
    paints the rectangle it is meant to; 64-bit and 32-bit moves make no difference. *)

From Stdlib Require Import ZArith Lia String.
From stdpp Require Import prelude list_numbers fin_maps zmap.
From S2P Require Import Prelude Update Array Arith CString Printf Log Bootinfo Kmem PageMap Vga.

Local Open Scope Z_scope.

(** A conditional painting of one row. *)
Definition in_span (lo n x : Z) : bool := (lo <=? x) && (x <? lo + n).

Lemma in_span_spec lo n x : BoolSpec (lo ≤ x < lo + n) (¬ (lo ≤ x < lo + n)) (in_span lo n x).
Proof. unfold in_span. destruct (Z.leb_spec lo x), (Z.ltb_spec x (lo + n)); constructor; lia. Qed.

(** Decides the boolean tests of a goal about paintings. *)
Ltac cases :=
  repeat match goal with
  | |- context [in_span ?a ?b ?c] => destruct (in_span_spec a b c)
  | |- context [Z.eqb ?a ?b] => destruct (Z.eqb_spec a b)
  | |- context [Z.ltb ?a ?b] => destruct (Z.ltb_spec a b)
  | |- context [Z.leb ?a ?b] => destruct (Z.leb_spec a b)
  end; cbn [andb orb negb].

(** The address of a pixel in a row of the buffer. *)
Lemma row_bound pitch h x y : 0 ≤ x < pitch → 0 ≤ y < h → 0 ≤ y * pitch + x < pitch * h.
Proof. nia. Qed.

Lemma odd_bit n : negb (Z.land n 1 =? 0) = Z.odd n.
Proof. change 1 with (Z.ones 1). rewrite Z.land_ones by lia. rewrite Zmod_odd. by destruct (Z.odd n). Qed.

Lemma half_odd n : 0 ≤ n → n = 2 * (n / 2) + (if Z.odd n then 1 else 0).
Proof. intros Hn. rewrite <- Zmod_odd. apply Z.div_mod. lia. Qed.

Section rows.
Context (pitch h : Z).

Definition fits (a : arr) : Prop := alen a = pitch * h.

Lemma row_ard a x y : fits a → 0 ≤ x < pitch → 0 ≤ y < h → ard a (y * pitch + x) = Ret (pix pitch a x y).
Proof. intros Ha Hx Hy. rewrite ard_ok; [done |]. rewrite Ha. by apply row_bound. Qed.

(** One pixel. *)
Lemma row_awr a x y i p :
  fits a → 0 ≤ x < pitch → 0 ≤ y < h → i = y * pitch + x →
  ∃ a', awr a i p = Ret a' ∧ painted pitch a (λ X Y, if (X =? x) && (Y =? y) then Some p else None) a'.
Proof.
  intros Ha Hx Hy ->. rewrite awr_ok by (rewrite Ha; by apply row_bound). eexists. split; [done |]. by apply (painted_aset pitch a x y).
Qed.

(** Two neighbours. *)
Lemma row_awr2 a x y i p q :
  fits a → 0 ≤ x → x + 1 < pitch → 0 ≤ y < h → i = y * pitch + x →
  ∃ a', (b ← awr a i p; awr b (i + 1) q) = Ret a' ∧
    painted pitch a (λ X Y, if Y =? y then if X =? x then Some p else if X =? x + 1 then Some q else None else None) a'.
Proof.
  intros Ha Hx Hx1 Hy ->. destruct (row_awr a x y _ p Ha ltac:(lia) Hy eq_refl) as (a1 & -> & P1). mred.
  destruct (row_awr a1 (x + 1) y (y * pitch + x + 1) q) as (a2 & -> & P2); [unfold fits; by rewrite (proj1 P1) | lia | lia | lia |].
  exists a2. split; [done |]. apply (painted_trans _ _ _ _ _ _ _ P1 P2). intros X Y HX. cases; try done; lia.
Qed.

(** Copying part of a row. *)
Definition copied (src : arr) (x0 y0 n : Z) : Z → Z → option Z :=
  λ X Y, if (Y =? y0) && in_span x0 n X then Some (pix pitch src X Y) else None.

Lemma copy_span_spec sa src da dst x y n :
  fits src → fits dst → da ≠ 0 → 0 ≤ x → 0 ≤ n → x + n ≤ pitch → 0 ≤ y < h →
  ∃ dst', fb_copy_pixels_to_hw sa src (y * pitch + x) da dst (y * pitch + x) n = Ret dst' ∧ painted pitch dst (copied src x y n) dst'.
Proof.
  intros Hs Hd Hda Hx Hn Hxn Hy. unfold fb_copy_pixels_to_hw. rewrite (proj2 (Z.eqb_neq da 0) Hda). cbn [orb].
  destruct (Z.eqb_spec n 0) as [->|Hn0].
  { exists dst. split; [done |]. apply painted_refl. intros X Y HX. unfold copied. cases; (done || lia). }
  destruct (Z.land _ 7 =? 0).
  2: { apply (paint_loop _ _ _ _ (λ i, copied src (x + i) y 1)).
       - intros i b Hi Hb. rewrite <- Z.add_assoc, row_ard by (done || lia). mred.
         destruct (row_awr b (x + i) y (y * pitch + (x + i)) (pix pitch src (x + i) y)) as (b' & -> & Pb); [unfold fits; congruence | lia | done | done |].
         exists b'. split; [done |]. apply (painted_ext _ _ _ _ _ Pb). intros X Y HX. unfold copied. cases; try lia; try done. congruence.
       - intros i X Y p Hi HX. unfold copied. cases; try lia; done.
       - intros X Y p HX. unfold copied. cases; try done. intros E. exists (X - x). split; [lia |]. cases; try lia; done. }
  pose proof (half_odd n Hn) as Eh. set (k := n / 2) in *. rewrite odd_bit.
  destruct (paint_loop pitch (Z.to_nat k) 0 (λ i b, lo ← ard src (y * pitch + x + 2 * i); hi ← ard src (y * pitch + x + 2 * i + 1);
      b ← awr b (y * pitch + x + 2 * i) lo; awr b (y * pitch + x + 2 * i + 1) hi) (λ i, copied src (x + 2 * i) y 2) (copied src x y (2 * k)) dst)
    as (d1 & -> & P1).
  - intros i b Hi Hb. assert (0 ≤ i < k) by lia. assert (2 * k ≤ n) by (destruct (Z.odd n); lia).
    replace (y * pitch + x + 2 * i) with (y * pitch + (x + 2 * i)) by lia.
    rewrite (row_ard src (x + 2 * i) y) by (done || lia). mred. replace (y * pitch + (x + 2 * i) + 1) with (y * pitch + (x + 2 * i + 1)) by lia.
    rewrite (row_ard src (x + 2 * i + 1) y) by (done || lia). mred. replace (y * pitch + (x + 2 * i + 1)) with (y * pitch + (x + 2 * i) + 1) by lia.
    destruct (row_awr2 b (x + 2 * i) y (y * pitch + (x + 2 * i)) (pix pitch src (x + 2 * i) y) (pix pitch src (x + 2 * i + 1) y)) as (b' & -> & Pb); try done; [unfold fits; congruence | lia | lia |].
    exists b'. split; [done |]. apply (painted_ext _ _ _ _ _ Pb). intros X Y HX. unfold copied. cases; try lia; try done; congruence.
  - intros i X Y p Hi HX. unfold copied. cases; try lia; done.
  - intros X Y p HX. unfold copied. cases; try done. intros E. exists ((X - x) / 2). assert (0 ≤ (X - x) mod 2 < 2) by (apply Z.mod_pos_bound; lia).
    pose proof (Z.div_mod (X - x) 2 ltac:(lia)). split; [lia |]. cases; try lia; done.
  - mred. destruct (Z.odd n).
    + replace (y * pitch + x + (n - 1)) with (y * pitch + (x + (n - 1))) by lia. rewrite row_ard by (done || lia). mred.
      destruct (row_awr d1 (x + (n - 1)) y (y * pitch + (x + (n - 1))) (pix pitch src (x + (n - 1)) y)) as (d2 & -> & P2); try done; [unfold fits; rewrite (proj1 P1); done | lia |].
      exists d2. split; [done |]. apply (painted_trans _ _ _ _ _ _ _ P1 P2). intros X Y HX. unfold copied. cases; try lia; try done; congruence.
    + exists d1. split; [done |]. apply (painted_ext _ _ _ _ _ P1). intros X Y HX. unfold copied. cases; try lia; done.
Qed.

(** Filling part of a row, and a rectangle. *)
Definition rect (x0 y0 w hh p : Z) : Z → Z → option Z := λ X Y, if in_span x0 w X && in_span y0 hh Y then Some p else None.

Lemma fill_span_spec addr dst x y n p :
  fits dst → 0 ≤ x → 0 ≤ n → x + n ≤ pitch → 0 ≤ y < h →
  ∃ dst', fb_fill_pixels addr dst (y * pitch + x) n p = Ret dst' ∧ painted pitch dst (rect x y n 1 p) dst'.
Proof.
  intros Hd Hx Hn Hxn Hy. unfold fb_fill_pixels. destruct (Z.eqb_spec n 0) as [->|Hn0].
  { exists dst. split; [done |]. apply painted_refl. intros X Y HX. unfold rect. cases; (done || lia). }
  destruct (Z.land _ 7 =? 0).
  2: { apply (paint_loop _ _ _ _ (λ i, rect (x + i) y 1 1 p)).
       - intros i b Hi Hb. destruct (row_awr b (x + i) y (y * pitch + x + i) p) as (b' & -> & Pb); [unfold fits; congruence | lia | done | lia |].
         exists b'. split; [done |]. apply (painted_ext _ _ _ _ _ Pb). intros X Y HX. unfold rect. cases; (done || lia).
       - intros i X Y q Hi HX. unfold rect. cases; try lia; done.
       - intros X Y q HX. unfold rect. cases; try done. intros E. exists (X - x). split; [lia |]. cases; try lia; done. }
  pose proof (half_odd n Hn) as Eh. set (k := n / 2) in *. rewrite odd_bit.
  destruct (paint_loop pitch (Z.to_nat k) 0 (λ i b, b ← awr b (y * pitch + x + 2 * i) p; awr b (y * pitch + x + 2 * i + 1) p)
      (λ i, rect (x + 2 * i) y 2 1 p) (rect x y (2 * k) 1 p) dst) as (d1 & -> & P1).
  - intros i b Hi Hb. assert (2 * k ≤ n) by (destruct (Z.odd n); lia).
    destruct (row_awr2 b (x + 2 * i) y (y * pitch + x + 2 * i) p p) as (b' & -> & Pb); [unfold fits; congruence | lia | lia | done | lia |].
    exists b'. split; [done |]. apply (painted_ext _ _ _ _ _ Pb). intros X Y HX. unfold rect. cases; (done || lia).
  - intros i X Y q Hi HX. unfold rect. cases; try lia; done.
  - intros X Y q HX. unfold rect. cases; try done. intros E. exists ((X - x) / 2). assert (0 ≤ (X - x) mod 2 < 2) by (apply Z.mod_pos_bound; lia).
    pose proof (Z.div_mod (X - x) 2 ltac:(lia)). split; [lia |]. cases; try lia; done.
  - mred. destruct (Z.odd n).
    + destruct (row_awr d1 (x + (n - 1)) y (y * pitch + x + (n - 1)) p) as (d2 & -> & P2); [unfold fits; by rewrite (proj1 P1) | lia | done | lia |].
      exists d2. split; [done |]. apply (painted_trans _ _ _ _ _ _ _ P1 P2). intros X Y HX. unfold rect. cases; (done || lia).
    + exists d1. split; [done |]. apply (painted_ext _ _ _ _ _ P1). intros X Y HX. unfold rect. cases; (done || lia).
Qed.

(** A loop over the rows of a rectangle, each painted by [row]. *)
Lemma rows_loop (a : arr) n y0 (body : Z → arr → res arr) (line : Z → Z → Z → option Z) F :
  0 ≤ n →
  (∀ i b, y0 ≤ i < y0 + n → alen b = alen a → ∃ b', body i b = Ret b' ∧ painted pitch b (line i) b') →
  (∀ i x y, 0 ≤ x < pitch → y ≠ i → line i x y = None) →
  (∀ x y, 0 ≤ x < pitch → F x y = if in_span y0 n y then line y x y else None) →
  ∃ a', for_n (Z.to_nat n) y0 body a = Ret a' ∧ painted pitch a F a'.
Proof.
  intros Hn Hbody Hoff HF. apply (paint_loop pitch _ _ _ line).
  - intros i b Hi. apply Hbody. lia.
  - intros i x y p Hi Hx Hl. rewrite HF by done. destruct (Z.eq_dec y i) as [->|Hy]; [| by rewrite (Hoff i x y Hx Hy) in Hl].
    destruct (in_span_spec y0 n i); [done | lia].
  - intros x y p Hx. rewrite HF by done. destruct (in_span_spec y0 n y); [| done]. intros E. exists y. split; [lia | done].
Qed.

Lemma fill_rect_spec addr a x y w hh p :
  fits a → 0 ≤ x → 0 ≤ w → x + w ≤ pitch → 0 ≤ y → 0 ≤ hh → y + hh ≤ h →
  ∃ a', for_n (Z.to_nat hh) 0 (λ yy a, fb_fill_pixels addr a ((y + yy) * pitch + x) w p) a = Ret a' ∧ painted pitch a (rect x y w hh p) a'.
Proof.
  intros Ha Hx Hw Hxw Hy Hh Hyh. rewrite (for_n_shift _ 0 y (λ Y a, fb_fill_pixels addr a (Y * pitch + x) w p)). rewrite Z.add_0_r.
  apply (rows_loop a hh y _ (λ Y, rect x Y w 1 p)); [done | | |].
  - intros Y b HY Hb. apply fill_span_spec; [unfold fits; congruence | lia..].
  - intros Y X Z0 HX Hne. unfold rect. cases; (done || lia).
  - intros X Y HX. unfold rect. cases; (done || lia).
Qed.

(** ** Glyphs *)

Definition glyph_char (ch : Z) : Z := if (128 <=? ch) || (ch <? 32) then 63 else ch.
Definition font_row (ch gy : Z) : Z := default 0 (default [] (fb_font5x7 !! Z.to_nat (glyph_char ch)) !! Z.to_nat gy).

(** Whether the pixel in column [cx] and row [cy] of the cell of [ch] is lit. *)
Definition lit_at (ch cx cy : Z) : bool :=
  negb (ch =? 32) && in_span 1 5 cx && in_span 1 14 cy && Z.testbit (font_row ch ((cy - 1) / 2)) (5 - cx).

Lemma font_shape : length fb_font5x7 = 128%nat ∧ Forall (λ g, length g = 7%nat) fb_font5x7.
Proof. split; [done |]. by apply (bool_decide_unpack _). Qed.

Lemma font_rd ch gy : 0 ≤ gy < 7 → (g ← rd fb_font5x7 (glyph_char ch); rd g gy) = Ret (font_row ch gy).
Proof.
  intros Hg. destruct font_shape as [Hl Hf]. assert (0 ≤ glyph_char ch < 128) by (unfold glyph_char; cases; lia).
  destruct (rd_inbounds fb_font5x7 (glyph_char ch)) as [g Eg]; [unfold zlen; rewrite Hl; lia |]. rewrite Eg. mred.
  apply rd_Ret in Eg as [_ Eg]. pose proof (proj1 (Forall_lookup _ _) Hf _ _ Eg) as Hgl. cbn in Hgl.
  destruct (rd_inbounds g gy) as [b Eb]; [unfold zlen; rewrite Hgl; lia |]. rewrite Eb. apply rd_Ret in Eb as [_ Eb]. unfold font_row. rewrite Eg. cbn. by rewrite Eb.
Qed.

Lemma draw_background_spec a px py bg :
  fits a → 0 ≤ px → px + 8 ≤ pitch → 0 ≤ py → py + 16 ≤ h →
  ∃ a', draw_background pitch px py bg a = Ret a' ∧ painted pitch a (rect px py 8 16 bg) a'.
Proof.
  intros Ha Hx Hxw Hy Hyh. unfold draw_background, VGA_FONT_H, VGA_FONT_W.
  rewrite (for_n_shift _ 0 py (λ Y a, for_n (Z.to_nat 8) 0 (λ xx a, awr a (Y * pitch + px + xx) bg) a)). rewrite Z.add_0_r.
  apply (rows_loop a 16 py _ (λ Y, rect px Y 8 1 bg)); [lia | | |].
  - intros Y b HY Hb. apply (paint_loop pitch _ _ _ (λ i, rect (px + i) Y 1 1 bg)).
    + intros i c Hi Hc. destruct (row_awr c (px + i) Y (Y * pitch + px + i) bg) as (c' & -> & Pc); [unfold fits; congruence | lia | lia | lia |].
      exists c'. split; [done |]. apply (painted_ext _ _ _ _ _ Pc). intros X Y' HX. unfold rect. cases; (done || lia).
    + intros i X Y' q Hi HX. unfold rect. cases; try lia; done.
    + intros X Y' q HX. unfold rect. cases; try done. intros E. exists (X - px). split; [lia |]. cases; try lia; done.
  - intros Y X Y' HX Hne. unfold rect. cases; (done || lia).
  - intros X Y HX. unfold rect. cases; (done || lia).
Qed.

(** The pixels of the two lines that row [gy] of the glyph paints. *)
Definition glyph_line (px py fg ch gy : Z) : Z → Z → option Z :=
  λ X Y, if in_span (py + 1 + gy * 2) 2 Y && in_span (px + 1) 5 X && Z.testbit (font_row ch gy) (4 - (X - px - 1)) then Some fg else None.

Lemma draw_glyph_row a px py fg ch gy :
  fits a → 0 ≤ px → px + 8 ≤ pitch → 0 ≤ py → py + 16 ≤ h → 0 ≤ gy < 7 →
  ∃ a', for_n 5 0 (λ gx a, if Z.testbit (font_row ch gy) (4 - gx)
      then a ← awr a ((py + 1 + gy * 2) * pitch + px + 1 + gx) fg; awr a ((py + 1 + gy * 2) * pitch + px + 1 + pitch + gx) fg else Ret a) a = Ret a' ∧
    painted pitch a (glyph_line px py fg ch gy) a'.
Proof.
  intros Ha Hx Hxw Hy Hyh Hg.
  apply (paint_loop pitch _ _ _ (λ gx X Y, if in_span (py + 1 + gy * 2) 2 Y && (X =? px + 1 + gx) && Z.testbit (font_row ch gy) (4 - gx) then Some fg else None)).
  - intros gx b Hgx Hb. destruct (Z.testbit (font_row ch gy) (4 - gx)) eqn:Et.
    + destruct (row_awr b (px + 1 + gx) (py + 1 + gy * 2) ((py + 1 + gy * 2) * pitch + px + 1 + gx) fg) as (b1 & -> & P1);
        [unfold fits; congruence | lia | lia | lia |]. mred.
      destruct (row_awr b1 (px + 1 + gx) (py + 2 + gy * 2) ((py + 1 + gy * 2) * pitch + px + 1 + pitch + gx) fg) as (b2 & -> & P2);
        [unfold fits; rewrite (proj1 P1); congruence | lia | lia | lia |].
      exists b2. split; [done |]. apply (painted_trans _ _ _ _ _ _ _ P1 P2). intros X Y HX. cases; (done || lia).
    + exists b. split; [done |]. apply painted_refl. intros X Y HX. by rewrite andb_false_r.
  - intros gx X Y q Hgx HX. unfold glyph_line. destruct (in_span_spec (py + 1 + gy * 2) 2 Y); cbn [andb]; [| done].
    destruct (Z.eqb_spec X (px + 1 + gx)) as [->|]; cbn [andb]; [| done]. replace (4 - (px + 1 + gx - px - 1)) with (4 - gx) by lia.
    destruct (in_span_spec (px + 1) 5 (px + 1 + gx)); [done | lia].
  - intros X Y q HX. unfold glyph_line. destruct (in_span_spec (py + 1 + gy * 2) 2 Y); cbn [andb]; [| done].
    destruct (in_span_spec (px + 1) 5 X); cbn [andb]; [| done]. intros E. exists (X - px - 1). split; [lia |].
    replace (X =? px + 1 + (X - px - 1)) with true by lia. done.
Qed.

Lemma draw_glyph_spec a px py fg ch :
  fits a → ch ≠ 32 → 0 ≤ px → px + 8 ≤ pitch → 0 ≤ py → py + 16 ≤ h →
  ∃ a', draw_glyph pitch px py fg ch a = Ret a' ∧
    painted pitch a (λ X Y, if lit_at ch (X - px) (Y - py) then Some fg else None) a'.
Proof.
  intros Ha Hch Hx Hxw Hy Hyh. unfold draw_glyph. fold (glyph_char ch).
  apply (paint_loop pitch _ _ _ (glyph_line px py fg ch)).
  - intros gy b Hgy Hb. assert (E := font_rd ch gy ltac:(lia)). destruct (rd fb_font5x7 (glyph_char ch)) as [g|]; [| done]. cbn in E |- *. rewrite E. cbn.
    apply draw_glyph_row; [unfold fits; congruence | lia..].
  - intros gy X Y q Hgy HX. unfold glyph_line, lit_at. destruct (in_span_spec (py + 1 + gy * 2) 2 Y) as [HY|]; cbn [andb]; [| done].
    destruct (in_span_spec (px + 1) 5 X) as [HXs|]; cbn [andb]; [| done]. intros E. rewrite (proj2 (Z.eqb_neq ch 32) Hch).
    assert ((Y - py - 1) / 2 = gy) as -> by (symmetry; apply (Z.div_unique _ 2 gy (Y - py - 1 - 2 * gy)); lia).
    destruct (in_span_spec 1 5 (X - px)); [| lia]. destruct (in_span_spec 1 14 (Y - py)); [| lia]. cbn [andb negb].
    by replace (5 - (X - px)) with (4 - (X - px - 1)) by lia.
  - intros X Y q HX. unfold lit_at. rewrite (proj2 (Z.eqb_neq ch 32) Hch). cbn [negb andb]. destruct (in_span_spec 1 5 (X - px)); cbn [andb]; [| done].
    destruct (in_span_spec 1 14 (Y - py)); cbn [andb]; [| done]. intros E. exists ((Y - py - 1) / 2).
    pose proof (Z.div_mod (Y - py - 1) 2 ltac:(lia)). pose proof (Z.mod_pos_bound (Y - py - 1) 2 ltac:(lia)). split; [lia |]. unfold glyph_line.
    destruct (in_span_spec (py + 1 + (Y - py - 1) / 2 * 2) 2 Y); [| lia]. destruct (in_span_spec (px + 1) 5 X); [| lia]. cbn [andb].
    by replace (4 - (X - px - 1)) with (5 - (X - px)) by lia.
Qed.

End rows.

(** ** The device *)

(** The shadow copy, and a device with another one. *)
Definition shadow (d : dev) : arr := match shadow_pixels (fb d) with Some (_, s) => s | None => anew 0 end.
Definition shadow_addr (d : dev) : Z := match shadow_pixels (fb d) with Some (p, _) => p | None => 0 end.
Definition reshadow (d : dev) (s : arr) : dev := d <| fb := (fb d) <| shadow_pixels := Some (shadow_addr d, s) |> |>.

(** The framebuffer is on and its memory is as large as it says. *)
Record fb_ok (d : dev) : Prop := {
  fo_active : active (fb d) = true;
  fo_pixels : pixels (fb d) ≠ 0;
  fo_has_shadow : shadow_pixels (fb d) = Some (shadow_addr d, shadow d);
  fo_shadow : fits (pitch_pixels (fb d)) (height (fb d)) (shadow d);
  fo_video : fits (pitch_pixels (fb d)) (height (fb d)) (video_memory d);
  fo_width : 0 < width (fb d) ≤ pitch_pixels (fb d);
  fo_height : 0 < height (fb d);
}.

Lemma reshadow_same d : fb_ok d → reshadow d (shadow d) = d.
Proof. intros Hd. unfold reshadow. destruct d as [? ? ? ? ? ? ? ? ? ? f ? ? ? ? ?], f. cbn. pose proof (fo_has_shadow _ Hd) as E. cbn in E. by rewrite <- E. Qed.

Lemma shadow_reshadow d s : shadow (reshadow d s) = s.
Proof. done. Qed.

Lemma reshadow_reshadow d s s' : reshadow (reshadow d s) s' = reshadow d s'.
Proof. done. Qed.

Lemma fb_ok_reshadow d s : fb_ok d → alen s = alen (shadow d) → fb_ok (reshadow d s).
Proof. intros [] Hs. split; cbn; try done. unfold fits in *. congruence. Qed.

Lemma fb_ok_video d v : fb_ok d → alen v = alen (video_memory d) → fb_ok (d <| video_memory := v |>).
Proof. intros [] Hv. split; cbn; try done. unfold fits in *. congruence. Qed.

Lemma draw_base_ok d : fb_ok d → fb_draw_base d = Some (Shadow (shadow_addr d) (shadow d)).
Proof. intros Hd. unfold fb_draw_base. by rewrite (fo_active _ Hd), (fo_has_shadow _ Hd). Qed.

(** The colours of an attribute. *)
Definition fg_of (d : dev) (attr : Z) : Z := fb_pack_rgb d (default 0 (fb_vga_rgb !! Z.to_nat (Z.land attr 0xf))).
Definition bg_of (d : dev) (attr : Z) : Z := fb_pack_rgb d (default 0 (fb_vga_rgb !! Z.to_nat (Z.land (Z.shiftr attr 4) 0xf))).

Lemma rgb_rd n : (c ← rd fb_vga_rgb (Z.land n 0xf); Ret c) = Ret (default 0 (fb_vga_rgb !! Z.to_nat (Z.land n 0xf))).
Proof.
  change 0xf with (Z.ones 4). rewrite Z.land_ones by lia. pose proof (Z.mod_pos_bound n (2 ^ 4) ltac:(lia)).
  destruct (rd_inbounds fb_vga_rgb (n mod 2 ^ 4)) as [c E]; [unfold zlen; cbn; lia |]. rewrite E. apply rd_Ret in E as [_ ->]. done.
Qed.

Lemma attr_fg_spec d attr : fb_attr_fg d attr = Ret (fg_of d attr).
Proof. unfold fb_attr_fg, fg_of. pose proof (rgb_rd attr) as E. destruct (rd _ _); [| done]. cbn in *. by injection E as ->. Qed.

Lemma attr_bg_spec d attr : fb_attr_bg d attr = Ret (bg_of d attr).
Proof. unfold fb_attr_bg, bg_of. pose proof (rgb_rd (Z.shiftr attr 4)) as E. destruct (rd _ _); [| done]. cbn in *. by injection E as ->. Qed.

(** The picture of a cell. *)
Definition cell_pixel (d : dev) (cell cx cy : Z) : Z :=
  let attr := wrap8 (Z.shiftr cell 8) in
  if lit_at (Z.land cell 0xff) cx cy then fg_of d attr else bg_of d attr.

(** What drawing [cell] at row [y] and column [x] of the grid paints. *)
Definition cell_paint (d : dev) (y x cell : Z) : Z → Z → option Z := λ X Y,
  if (8 * x + 8 <=? width (fb d)) && (16 * y + 16 <=? height (fb d)) && in_span (8 * x) 8 X && in_span (16 * y) 16 Y
  then Some (cell_pixel d cell (X - 8 * x) (Y - 16 * y)) else None.

Section device.
Context {H P : Type} `{Kmem H} `{PageMap P}.

Implicit Types (t : term H P) (d : dev).

Lemma fb_fill_rect_spec d x y w hh p :
  fb_ok d → 0 ≤ x → 0 ≤ y → 0 ≤ w → 0 ≤ hh →
  ∃ s, fb_fill_rect d x y w hh p = Ret (reshadow d s) ∧
    painted (pitch_pixels (fb d)) (shadow d)
      (λ X Y, if (X <? width (fb d)) && (Y <? height (fb d)) then rect x y w hh p X Y else None) s.
Proof.
  intros Hd Hx Hy Hw Hh. unfold fb_fill_rect. rewrite (fo_active _ Hd), (proj2 (Z.eqb_neq _ 0) (fo_pixels _ Hd)). cbn [negb orb].
  assert (Hnone : ∀ F : Z → Z → option Z, (∀ X Y, 0 ≤ X < pitch_pixels (fb d) → F X Y = None) →
    ∃ s, Ret d = Ret (reshadow d s) ∧ painted (pitch_pixels (fb d)) (shadow d) F s).
  { intros F HF. exists (shadow d). rewrite reshadow_same by done. split; [done |]. by apply painted_refl. }
  destruct (Z.leb_spec (width (fb d)) x); [apply Hnone; intros X Y HX; unfold rect; cases; (done || lia) |].
  destruct (Z.leb_spec (height (fb d)) y); [apply Hnone; intros X Y HX; unfold rect; cases; (done || lia) |]. cbn [orb].
  rewrite draw_base_ok by done. cbn [base_addr base_arr drawn]. pose proof (fo_width _ Hd).
  set (w' := if width (fb d) - x <? w then width (fb d) - x else w). set (h' := if height (fb d) - y <? hh then height (fb d) - y else hh).
  assert (0 ≤ w' ≤ width (fb d) - x ∧ w' ≤ w ∧ (w' = w ∨ w' = width (fb d) - x)) as (? & ? & ?) by (unfold w'; destruct (Z.ltb_spec (width (fb d) - x) w); lia).
  assert (0 ≤ h' ≤ height (fb d) - y ∧ h' ≤ hh ∧ (h' = hh ∨ h' = height (fb d) - y)) as (? & ? & ?) by (unfold h'; destruct (Z.ltb_spec (height (fb d) - y) hh); lia).
  destruct (fill_rect_spec (pitch_pixels (fb d)) (height (fb d)) (shadow_addr d) (shadow d) x y w' h' p) as (s & -> & Ps); [apply Hd | lia.. |].
  exists s. split; [done |]. apply (painted_ext _ _ _ _ _ Ps). intros X Y HX. unfold rect. cases; (done || lia).
Qed.

Lemma fb_draw_cell_spec t d y x cell :
  fb_ok d → 0 ≤ x < text_cols t → 0 ≤ y < text_rows t →
  ∃ s, fb_draw_cell t d y x cell = Ret (reshadow d s) ∧ painted (pitch_pixels (fb d)) (shadow d) (cell_paint d y x (sanitize_cell t cell)) s.
Proof.
  intros Hd Hx Hy. unfold fb_draw_cell. rewrite (fo_active _ Hd), (proj2 (Z.eqb_neq _ 0) (fo_pixels _ Hd)). cbn [negb orb].
  destruct (Z.leb_spec (text_cols t) x); [lia |]. destruct (Z.leb_spec (text_rows t) y); [lia |]. cbn [orb]. rewrite draw_base_ok by done.
  cbn [base_arr drawn]. unfold VGA_FONT_W, VGA_FONT_H. set (c := sanitize_cell t cell). pose proof (fo_width _ Hd). unfold cell_paint.
  destruct (Z.ltb_spec (width (fb d)) (x * 8 + 8)).
  { exists (shadow d). rewrite reshadow_same by done. split; [done |]. apply painted_refl. intros X Y HX. destruct (Z.leb_spec (8 * x + 8) (width (fb d))); [lia | done]. }
  destruct (Z.ltb_spec (height (fb d)) (y * 16 + 16)).
  { exists (shadow d). rewrite reshadow_same by done. split; [done |]. apply painted_refl. intros X Y HX.
    destruct (Z.leb_spec (16 * y + 16) (height (fb d))); [lia |]. by rewrite andb_false_r. }
  cbn [orb]. rewrite attr_fg_spec, attr_bg_spec. mred.
  rewrite (proj2 (Z.leb_le (8 * x + 8) (width (fb d)))), (proj2 (Z.leb_le (16 * y + 16) (height (fb d)))) by lia. cbn [andb].
  destruct (draw_background_spec (pitch_pixels (fb d)) (height (fb d)) (shadow d) (x * 8) (y * 16) (bg_of d (wrap8 (Z.shiftr c 8)))) as (s1 & -> & P1);
    [apply Hd | lia.. |]. mred.
  destruct (Z.eqb_spec (Z.land c 0xff) 32) as [Hsp|Hsp].
  - mred. exists s1. split; [done |]. apply (painted_ext _ _ _ _ _ P1). intros X Y HX. unfold rect, cell_pixel, lit_at. rewrite Hsp. cbn [Z.eqb negb andb]. cases; (done || lia).
  - destruct (draw_glyph_spec (pitch_pixels (fb d)) (height (fb d)) s1 (x * 8) (y * 16) (fg_of d (wrap8 (Z.shiftr c 8))) (Z.land c 0xff)) as (s2 & -> & P2);
      [unfold fits; rewrite (proj1 P1); apply Hd | done | lia.. |]. mred.
    exists s2. split; [done |]. apply (painted_trans _ _ _ _ _ _ _ P1 P2). intros X Y HX. unfold rect, cell_pixel.
    replace (8 * x) with (x * 8) by lia. replace (16 * y) with (y * 16) by lia.
    destruct (lit_at (Z.land c 0xff) (X - x * 8) (Y - y * 16)) eqn:El; [| by destruct (in_span_spec (x * 8) 8 X), (in_span_spec (y * 16) 16 Y)].
    unfold lit_at in El. apply andb_prop in El as [El _]. apply andb_prop in El as [El Hy14]. apply andb_prop in El as [_ Hx5].
    revert Hx5 Hy14. destruct (in_span_spec 1 5 (X - x * 8)); [| done]. destruct (in_span_spec 1 14 (Y - y * 16)); [| done]. intros _ _.
    destruct (in_span_spec (x * 8) 8 X); [| lia]. destruct (in_span_spec (y * 16) 16 Y); [done | lia].
Qed.

(** Rectangles of the shadow copy reach the video memory. *)
Definition shown (d : dev) (x0 y0 w hh : Z) : Z → Z → option Z := λ X Y,
  if in_span x0 w X && in_span y0 hh Y then Some (pix (pitch_pixels (fb d)) (shadow d) X Y) else None.

Lemma fb_copy_cell_spec t d y x :
  fb_ok d → 0 ≤ x < text_cols t → 0 ≤ y < text_rows t →
  ∃ v, fb_copy_cell_to_hw t d y x = Ret (d <| video_memory := v |>) ∧
    painted (pitch_pixels (fb d)) (video_memory d)
      (λ X Y, if (8 * x + 8 <=? width (fb d)) && (16 * y + 16 <=? height (fb d)) then shown d (8 * x) (16 * y) 8 16 X Y else None) v.
Proof.
  intros Hd Hx Hy. unfold fb_copy_cell_to_hw. rewrite (fo_has_shadow _ Hd), (fo_active _ Hd), (proj2 (Z.eqb_neq _ 0) (fo_pixels _ Hd)). cbn [negb orb].
  destruct (Z.leb_spec (text_rows t) y); [lia |]. destruct (Z.leb_spec (text_cols t) x); [lia |]. cbn [orb]. unfold VGA_FONT_W, VGA_FONT_H.
  pose proof (fo_width _ Hd). assert (Hsame : d = d <| video_memory := video_memory d |>) by (by destruct d).
  destruct (Z.ltb_spec (width (fb d)) (x * 8 + 8)).
  { exists (video_memory d). split; [by rewrite <- Hsame |]. apply painted_refl. intros X Y HX. destruct (Z.leb_spec (8 * x + 8) (width (fb d))); [lia | done]. }
  destruct (Z.ltb_spec (height (fb d)) (y * 16 + 16)).
  { exists (video_memory d). split; [by rewrite <- Hsame |]. apply painted_refl. intros X Y HX.
    destruct (Z.leb_spec (16 * y + 16) (height (fb d))); [lia |]. by rewrite andb_false_r. }
  cbn [orb]. rewrite (proj2 (Z.leb_le (8 * x + 8) (width (fb d)))), (proj2 (Z.leb_le (16 * y + 16) (height (fb d)))) by lia. cbn [andb].
  rewrite (for_n_shift _ 0 (y * 16) (λ Y v, fb_copy_pixels_to_hw (shadow_addr d) (shadow d) (Y * pitch_pixels (fb d) + x * 8) (pixels (fb d)) v (Y * pitch_pixels (fb d) + x * 8) 8)).
  rewrite Z.add_0_r.
  destruct (rows_loop (pitch_pixels (fb d)) (video_memory d) 16 (y * 16)
    (λ Y v, fb_copy_pixels_to_hw (shadow_addr d) (shadow d) (Y * pitch_pixels (fb d) + x * 8) (pixels (fb d)) v (Y * pitch_pixels (fb d) + x * 8) 8)
    (λ Y, copied (pitch_pixels (fb d)) (shadow d) (x * 8) Y 8) (shown d (8 * x) (16 * y) 8 16)) as (v & -> & Pv); [lia | | | | by exists v].
  - intros Y b HY Hb. apply (copy_span_spec _ (height (fb d))); [apply Hd | unfold fits; rewrite Hb; apply Hd | apply Hd | lia..].
  - intros Y X Y' HX Hne. unfold copied. cases; (done || lia).
  - intros X Y HX. unfold copied, shown. cases; (done || lia).
Qed.

Lemma fb_copy_shadow_spec d :
  fb_ok d → ∃ v, fb_copy_shadow_to_hw d = Ret (d <| video_memory := v |>) ∧
    painted (pitch_pixels (fb d)) (video_memory d) (shown d 0 0 (width (fb d)) (height (fb d))) v.
Proof.
  intros Hd. unfold fb_copy_shadow_to_hw. rewrite (fo_has_shadow _ Hd), (fo_active _ Hd), (proj2 (Z.eqb_neq _ 0) (fo_pixels _ Hd)). cbn [negb orb].
  pose proof (fo_width _ Hd). pose proof (fo_height _ Hd).
  destruct (rows_loop (pitch_pixels (fb d)) (video_memory d) (height (fb d)) 0
    (λ y v, fb_copy_pixels_to_hw (shadow_addr d) (shadow d) (y * pitch_pixels (fb d)) (pixels (fb d)) v (y * pitch_pixels (fb d)) (width (fb d)))
    (λ Y, copied (pitch_pixels (fb d)) (shadow d) 0 Y (width (fb d))) (shown d 0 0 (width (fb d)) (height (fb d)))) as (v & -> & Pv); [lia | | | | by exists v].
  - intros Y b HY Hb. pose proof (copy_span_spec (pitch_pixels (fb d)) (height (fb d)) (shadow_addr d) (shadow d) (pixels (fb d)) b 0 Y (width (fb d))) as Hc.
    rewrite Z.add_0_r in Hc. apply Hc; [apply Hd | unfold fits; rewrite Hb; apply Hd | apply Hd | lia..].
  - intros Y X Y' HX Hne. unfold copied. cases; (done || lia).
  - intros X Y HX. unfold copied, shown. cases; (done || lia).
Qed.

Lemma fb_clear_margins_spec t d :
  fb_ok d → 0 < text_cols t → 0 < text_rows t →
  ∃ s, fb_clear_unused_margins t d = Ret (reshadow d s) ∧
    painted (pitch_pixels (fb d)) (shadow d)
      (λ X Y, if (X <? width (fb d)) && (0 <=? Y) && (Y <? height (fb d)) && ((8 * text_cols t <=? X) || (16 * text_rows t <=? Y))
              then Some (bg_of d (color t)) else None) s.
Proof.
  intros Hd Hc Hr. unfold fb_clear_unused_margins. rewrite (fo_active _ Hd), (proj2 (Z.eqb_neq _ 0) (fo_pixels _ Hd)). cbn [negb orb].
  rewrite attr_bg_spec. mred. unfold VGA_FONT_W, VGA_FONT_H, current_attr. set (bg := bg_of d (color t)). pose proof (fo_width _ Hd). pose proof (fo_height _ Hd).
  assert (∃ s1, (if text_cols t * 8 <? width (fb d) then fb_fill_rect d (text_cols t * 8) 0 (width (fb d) - text_cols t * 8) (height (fb d)) bg else Ret d) = Ret (reshadow d s1) ∧
    painted (pitch_pixels (fb d)) (shadow d) (λ X Y, if (X <? width (fb d)) && (0 <=? Y) && (Y <? height (fb d)) && (8 * text_cols t <=? X) then Some bg else None) s1)
    as (s1 & -> & P1).
  { destruct (Z.ltb_spec (text_cols t * 8) (width (fb d))).
    - destruct (fb_fill_rect_spec d (text_cols t * 8) 0 (width (fb d) - text_cols t * 8) (height (fb d)) bg) as (s1 & -> & P1); [done | lia.. |].
      exists s1. split; [done |]. apply (painted_ext _ _ _ _ _ P1). intros X Y HX. unfold rect. cases; (done || lia).
    - exists (shadow d). rewrite reshadow_same by done. split; [done |]. apply painted_refl. intros X Y HX. cases; (done || lia). }
  mred. assert (Hd1 : fb_ok (reshadow d s1)) by (apply fb_ok_reshadow; [done | apply P1]).
  destruct (Z.ltb_spec (text_rows t * 16) (height (fb d))).
  - destruct (fb_fill_rect_spec (reshadow d s1) 0 (text_rows t * 16) (if text_cols t * 8 <? width (fb d) then text_cols t * 8 else width (fb d))
      (height (fb d) - text_rows t * 16) bg) as (s2 & -> & P2); [done | lia | lia | destruct (Z.ltb_spec (text_cols t * 8) (width (fb d))); lia | lia |].
    rewrite reshadow_reshadow. exists s2. split; [done |]. apply (painted_trans _ _ _ _ _ _ _ P1 P2). intros X Y HX. cbn. unfold rect. destruct (Z.ltb_spec (text_cols t * 8) (width (fb d))); cases; (done || lia).
  - exists s1. split; [done |]. apply (painted_ext _ _ _ _ _ P1). intros X Y HX. cases; (done || lia).
Qed.

(** Scrolling moves the text area up by [16 * n] lines of pixels and clears what it
    uncovers. *)
Lemma move_row_spec pitch h a y pr n :
  fits pitch h a → 0 ≤ n ≤ pitch → 0 ≤ y → 0 ≤ pr → y + pr < h →
  ∃ a', move_pixels a (y * pitch) ((y + pr) * pitch) n = Ret a' ∧
    painted pitch a (λ X Y, if (Y =? y) && in_span 0 n X then Some (pix pitch a X (y + pr)) else None) a'.
Proof.
  intros Ha Hn Hy Hpr Hh. unfold move_pixels.
  apply (paint_loop pitch _ _ _ (λ i X Y, if (Y =? y) && (X =? i) then Some (pix pitch a X (y + pr)) else None)).
  - intros i b Hi Hb. rewrite (row_ard pitch h) by (done || lia). mred.
    destruct (row_awr pitch h b i y (y * pitch + i) (pix pitch a i (y + pr))) as (b' & -> & Pb); [unfold fits; congruence | lia | lia | done |].
    exists b'. split; [done |]. apply (painted_ext _ _ _ _ _ Pb). intros X Y HX. cases; try done. by subst.
  - intros i X Y p Hi HX. cases; try done; lia.
  - intros X Y p HX. cases; try done. intros E. exists X. split; [lia |]. cases; (done || lia).
Qed.

Lemma move_rows_spec pitch h a pr n m :
  fits pitch h a → 0 ≤ n ≤ pitch → 0 < pr → 0 ≤ m → m + pr ≤ h →
  ∃ a', for_n (Z.to_nat m) 0 (λ y a, move_pixels a (y * pitch) ((y + pr) * pitch) n) a = Ret a' ∧
    painted pitch a (λ X Y, if in_span 0 m Y && in_span 0 n X then Some (pix pitch a X (Y + pr)) else None) a'.
Proof.
  intros Ha Hn Hpr Hm Hh.
  destruct (for_n_inv (λ k b, painted pitch a (λ X Y, if in_span 0 k Y && in_span 0 n X then Some (pix pitch a X (Y + pr)) else None) b)
    (λ y a, move_pixels a (y * pitch) ((y + pr) * pitch) n) (Z.to_nat m) 0 a) as (a' & E & Pa).
  - apply painted_refl. intros X Y HX. cases; (done || lia).
  - intros k b Hk Pb. destruct (move_row_spec pitch h b k pr n) as (b' & E & Pb'); [unfold fits; rewrite (proj1 Pb); done | lia.. |].
    exists b'. split; [done |]. apply (painted_trans _ _ _ _ _ _ _ Pb Pb'). intros X Y HX. rewrite (proj2 Pb X (k + pr) HX).
    destruct (in_span_spec 0 k (k + pr)); [lia |]. cbn [andb default].
    cases; try done; try lia. by subst.
  - exists a'. split; [done |]. rewrite Z2Nat.id in Pa by done. done.
Qed.

Definition text_area t d : Z * Z := (Z.min (width (fb d)) (8 * text_cols t), Z.min (height (fb d)) (16 * text_rows t)).

Lemma fb_scroll_shadow_spec t d rows :
  fb_ok d → 0 < rows → 0 < text_cols t → 0 < text_rows t →
  ∃ s, fb_scroll_shadow_rows t d rows = Ret (reshadow d s) ∧
    painted (pitch_pixels (fb d)) (shadow d) (λ X Y,
      let '(tw, th) := text_area t d in
      if (16 * rows <? th) && (rows <? text_rows t) && in_span 0 tw X && in_span 0 th Y then
        Some (if Y <? th - 16 * rows then pix (pitch_pixels (fb d)) (shadow d) X (Y + 16 * rows) else bg_of d (color t))
      else None) s.
Proof.
  intros Hd Hrows Hc Hr. unfold fb_scroll_shadow_rows, text_area. rewrite (fo_has_shadow _ Hd), (fo_active _ Hd). cbn [negb orb].
  rewrite (proj2 (Z.eqb_neq rows 0)) by lia. unfold VGA_FONT_W, VGA_FONT_H, current_attr. pose proof (fo_width _ Hd). pose proof (fo_height _ Hd).
  destruct (Z.leb_spec (text_rows t) rows).
  { exists (shadow d). rewrite reshadow_same by done. split; [done |]. apply painted_refl. intros X Y HX.
    destruct (Z.ltb_spec rows (text_rows t)); [lia |]. by rewrite andb_false_r. }
  replace (if height (fb d) <? text_rows t * 16 then height (fb d) else text_rows t * 16) with (Z.min (height (fb d)) (16 * text_rows t))
    by (destruct (Z.ltb_spec (height (fb d)) (text_rows t * 16)); lia).
  replace (if width (fb d) <? text_cols t * 8 then width (fb d) else text_cols t * 8) with (Z.min (width (fb d)) (8 * text_cols t))
    by (destruct (Z.ltb_spec (width (fb d)) (text_cols t * 8)); lia).
  set (tw := Z.min (width (fb d)) (8 * text_cols t)). set (th := Z.min (height (fb d)) (16 * text_rows t)).
  assert (0 < tw ≤ pitch_pixels (fb d)) by lia. assert (0 < th ≤ height (fb d)) by lia. rewrite (proj2 (Z.eqb_neq tw 0)), orb_false_r by lia.
  destruct (Z.leb_spec th (rows * 16)).
  { exists (shadow d). rewrite reshadow_same by done. split; [done |]. apply painted_refl. intros X Y HX.
    destruct (Z.ltb_spec (16 * rows) th); [lia | done]. }
  rewrite (proj2 (Z.ltb_lt (16 * rows) th)), (proj2 (Z.ltb_lt rows (text_rows t))) by lia. cbn [andb].
  destruct (move_rows_spec (pitch_pixels (fb d)) (height (fb d)) (shadow d) (rows * 16) tw (th - rows * 16)) as (s1 & -> & P1); [apply Hd | lia.. |]. mred.
  rewrite attr_bg_spec. mred.
  destruct (rows_loop (pitch_pixels (fb d)) s1 (th - (th - rows * 16)) (th - rows * 16) (λ y s, fb_fill_pixels (shadow_addr d) s (y * pitch_pixels (fb d)) tw (bg_of d (color t)))
    (λ y, rect 0 y tw 1 (bg_of d (color t))) (rect 0 (th - rows * 16) tw (rows * 16) (bg_of d (color t)))) as (s2 & -> & P2).
  - lia.
  - intros y b Hy Hb. pose proof (fill_span_spec (pitch_pixels (fb d)) (height (fb d)) (shadow_addr d) b 0 y tw (bg_of d (color t))) as Hf.
    rewrite Z.add_0_r in Hf. apply Hf; [unfold fits; rewrite Hb, (proj1 P1); apply Hd | lia..].
  - intros y X Y HX Hne. unfold rect. cases; (done || lia).
  - intros X Y HX. unfold rect. cases; (done || lia).
  - mred. exists s2. split; [done |]. apply (painted_trans _ _ _ _ _ _ _ P1 P2). intros X Y HX. unfold rect.
    cases; try done; try lia. by replace (Y + 16 * rows) with (Y + rows * 16) by lia.
Qed.

End device.
