(* ===== verification/VgaText.v ===== *)
(** * The terminal [vga.c] implements

    The ring of rows and the scrollback ring are a list of lines with a history; in
    text mode the VGA memory shows the window over them and the hardware cursor
    follows.  Drawing is described in [VgaPixels]. *)

From Stdlib Require Import ZArith Lia String.
From stdpp Require Import prelude list_numbers fin_maps zmap.
From S2P Require Import Prelude Update Array Arith CString Printf Log Bootinfo Kmem PageMap Vga VgaPixels.

Local Open Scope Z_scope.

(** ** Cells *)

Definition cell_char (c : Z) : Z := Z.land c 0xff.
Definition cell_attr (c : Z) : Z := wrap8 (Z.shiftr c 8).

Lemma cell_char_range c : 0 ≤ cell_char c < 256.
Proof. unfold cell_char. change 0xff with (Z.ones 8). rewrite Z.land_ones by lia. apply Z.mod_pos_bound. lia. Qed.

Lemma cell_attr_range c : 0 ≤ cell_attr c < 256.
Proof. apply (wrap_range 8). lia. Qed.

Lemma cell_parts ch attr : 0 ≤ ch < 256 → 0 ≤ attr < 256 → cell_char (Z.lor ch (Z.shiftl attr 8)) = ch ∧ cell_attr (Z.lor ch (Z.shiftl attr 8)) = attr.
Proof.
  intros Hc Ha. unfold cell_char, cell_attr, wrap. change 0xff with (Z.ones 8). rewrite Z.land_ones by lia. split.
  - rewrite <- Z.land_ones, Z.land_lor_distr_l by lia. rewrite !Z.land_ones by lia. rewrite Z.shiftl_mul_pow2 by lia.
    rewrite (Z.mod_small ch) by lia. rewrite Z.mod_mul by lia. apply Z.lor_0_r.
  - rewrite Z.shiftr_lor, Z.shiftr_shiftl_l by lia. rewrite Z.shiftr_div_pow2 by lia. rewrite Z.div_small by lia.
    replace (Z.shiftl attr (8 - 8)) with attr by (by rewrite Z.shiftl_0_r). rewrite Z.lor_0_l. apply Z.mod_small. lia.
Qed.

Lemma sanitize_parts now c : 0 ≤ now < 256 →
  cell_char (sanitize now c) = (if cell_char c =? 0 then 32 else cell_char c) ∧ cell_attr (sanitize now c) = (if cell_attr c =? 0 then now else cell_attr c).
Proof.
  intros Hn. unfold sanitize. fold (cell_char c) (cell_attr c). pose proof (cell_char_range c). pose proof (cell_attr_range c).
  apply cell_parts; case_match; lia.
Qed.

Lemma sanitize_idem now c : 0 ≤ now < 256 → sanitize now (sanitize now c) = sanitize now c.
Proof.
  intros Hn. unfold sanitize at 1. fold (cell_char (sanitize now c)) (cell_attr (sanitize now c)). destruct (sanitize_parts now c Hn) as [-> ->].
  unfold sanitize. fold (cell_char c) (cell_attr c).
  destruct (cell_char c =? 0) eqn:E1, (cell_attr c =? 0) eqn:E2; rewrite ?E1, ?E2; cbn [Z.eqb]; try done.
  - by destruct (now =? 0).
  - by destruct (now =? 0).
Qed.

(** What the hardware shows for a cell: blank for NUL, and some attribute for 0. *)
Definition displays (hw c : Z) : Prop := ∃ now, 0 ≤ now < 256 ∧ hw = sanitize now c.

(** ** Lists of lines *)

Definition grid (rows cols : Z) (f : Z → Z → Z) : list (list Z) := (λ y, f y <$> seqZ 0 cols) <$> seqZ 0 rows.

Lemma grid_ext rows cols f g : (∀ y x, 0 ≤ y < rows → 0 ≤ x < cols → f y x = g y x) → grid rows cols f = grid rows cols g.
Proof.
  intros E. apply list_fmap_ext. intros i y Hy%lookup_seqZ. apply list_fmap_ext. intros j x Hx%lookup_seqZ. apply E; lia.
Qed.

Lemma seqZ_lookup n (i : nat) : seqZ 0 n !! i = if decide (Z.of_nat i < n) then Some (Z.of_nat i) else None.
Proof. destruct (decide _); [by rewrite lookup_seqZ_lt | by rewrite lookup_seqZ_ge by lia]. Qed.

Lemma grid_lookup rows cols f (i : nat) : grid rows cols f !! i = if decide (Z.of_nat i < rows) then Some (f (Z.of_nat i) <$> seqZ 0 cols) else None.
Proof. unfold grid. rewrite list_lookup_fmap, seqZ_lookup. by destruct (decide _). Qed.

Lemma row_put cols (f : Z → Z) x c : 0 ≤ x < cols → (λ X, if X =? x then c else f X) <$> seqZ 0 cols = <[Z.to_nat x := c]> (f <$> seqZ 0 cols).
Proof.
  intros Hx. apply list_eq. intros i. rewrite list_lookup_fmap, seqZ_lookup. destruct (decide (i = Z.to_nat x)) as [->|Hi].
  - rewrite list_lookup_insert_eq by (rewrite length_fmap, length_seqZ; lia). destruct (decide _); [| lia]. cbn. by btrue (Z.of_nat (Z.to_nat x) =? x).
  - rewrite list_lookup_insert_ne, list_lookup_fmap, seqZ_lookup by done. destruct (decide _); [| done]. cbn. by bfalse (Z.of_nat i =? x).
Qed.

Lemma grid_put rows cols f y x c :
  0 ≤ y < rows → 0 ≤ x < cols →
  grid rows cols (λ Y X, if (X =? x) && (Y =? y) then c else f Y X) = alter (<[Z.to_nat x := c]>) (Z.to_nat y) (grid rows cols f).
Proof.
  intros Hy Hx. apply list_eq. intros i. rewrite grid_lookup. destruct (decide (i = Z.to_nat y)) as [->|Hi].
  - rewrite list_lookup_alter_eq, grid_lookup. destruct (decide _); [| lia]. cbn. f_equal. rewrite <- row_put by done. apply list_fmap_ext. intros j X _.
    btrue (Z.of_nat (Z.to_nat y) =? y). by rewrite andb_true_r.
  - rewrite list_lookup_alter_ne, grid_lookup by done. destruct (decide _); [| done]. f_equal. apply list_fmap_ext. intros j X _.
    bfalse (Z.of_nat i =? y). by rewrite andb_false_r.
Qed.

Lemma grid_const rows cols c : grid rows cols (λ _ _, c) = replicate (Z.to_nat rows) (replicate (Z.to_nat cols) c).
Proof.
  apply list_eq. intros i. rewrite grid_lookup. destruct (decide _).
  - rewrite lookup_replicate_2 by lia. f_equal. apply list_eq. intros j. rewrite list_lookup_fmap, seqZ_lookup. destruct (decide _); [by rewrite lookup_replicate_2 by lia |].
    symmetry. apply lookup_replicate_None. lia.
  - symmetry. apply lookup_replicate_None. lia.
Qed.

Lemma const_row cols (c : Z) : (λ _ : Z, c) <$> seqZ 0 cols = replicate (Z.to_nat cols) c.
Proof. rewrite (const_fmap _ _ c) by done. by rewrite length_seqZ. Qed.

(** One line up. *)
Lemma grid_shift rows cols f (l : Z → Z) :
  0 < rows → grid rows cols (λ y x, if y =? rows - 1 then l x else f (y + 1) x) = drop 1 (grid rows cols f) ++ [l <$> seqZ 0 cols].
Proof.
  intros Hr. apply list_eq. intros i. rewrite grid_lookup. assert (Hl : length (drop 1 (grid rows cols f)) = Z.to_nat (rows - 1)) by (unfold grid; rewrite length_drop, length_fmap, length_seqZ; lia).
  destruct (decide (Z.of_nat i < rows - 1)).
  - rewrite lookup_app_l, lookup_drop, grid_lookup by lia. rewrite !decide_True by lia. f_equal. apply list_fmap_ext. intros j x _.
    bfalse (Z.of_nat i =? rows - 1). f_equal. lia.
  - rewrite lookup_app_r by lia. rewrite Hl. destruct (decide (Z.of_nat i < rows)).
    + replace (i - Z.to_nat (rows - 1))%nat with 0%nat by lia. cbn. f_equal. apply list_fmap_ext. intros j x _.
      by btrue (Z.of_nat i =? rows - 1).
    + symmetry. apply lookup_ge_None. cbn. lia.
Qed.

(** [n] cells from column [x] on. *)
Lemma grid_tail rows cols f y x c :
  0 ≤ y < rows → 0 ≤ x < cols →
  grid rows cols (λ Y X, if (x <=? X) && (Y =? y) then c else f Y X) =
    alter (λ l, take (Z.to_nat x) l ++ replicate (Z.to_nat (cols - x)) c) (Z.to_nat y) (grid rows cols f).
Proof.
  intros Hy Hx. apply list_eq. intros i. rewrite grid_lookup. destruct (decide (i = Z.to_nat y)) as [->|Hi].
  - rewrite list_lookup_alter_eq, grid_lookup. destruct (decide _); [| lia]. cbn. f_equal. apply list_eq. intros j. rewrite list_lookup_fmap, seqZ_lookup.
    btrue (Z.of_nat (Z.to_nat y) =? y).
    assert (Hl : length (take (Z.to_nat x) (f (Z.of_nat (Z.to_nat y)) <$> seqZ 0 cols)) = Z.to_nat x) by (rewrite length_take, length_fmap, length_seqZ; lia).
    destruct (decide (Z.of_nat j < x)).
    + rewrite lookup_app_l, lookup_take_lt, list_lookup_fmap, seqZ_lookup by lia. rewrite !decide_True by lia. cbn. by bfalse (x <=? Z.of_nat j).
    + rewrite lookup_app_r, Hl by lia. destruct (decide (Z.of_nat j < cols)).
      * rewrite lookup_replicate_2 by lia. cbn. by btrue (x <=? Z.of_nat j).
      * symmetry. apply lookup_replicate_None. lia.
  - rewrite list_lookup_alter_ne, grid_lookup by done. destruct (decide _); [| done]. f_equal. apply list_fmap_ext. intros j X _.
    bfalse (Z.of_nat i =? y). by rewrite andb_false_r.
Qed.

Lemma grid_snoc n cols f : 0 ≤ n → grid (n + 1) cols f = grid n cols f ++ [f n <$> seqZ 0 cols].
Proof. intros Hn. unfold grid. rewrite seqZ_app, fmap_app by lia. by rewrite Z.add_0_l. Qed.

Lemma grid_length rows cols f : length (grid rows cols f) = Z.to_nat rows.
Proof. unfold grid. by rewrite length_fmap, length_seqZ. Qed.

(** A history that keeps the last [cap] lines. *)
Definition push (cap : Z) (past : list (list Z)) (l : list Z) : list (list Z) := drop (length past + 1 - Z.to_nat cap) (past ++ [l]).

Section terminal.
Context {H P : Type} `{Kmem H} `{PageMap P}.

Implicit Types (t : term H P) (d : dev).

(** ** The invariant *)

Definition hist_ok t : Prop :=
  match scrollback_cells t with
  | None => scrollback_capacity t = 0 ∧ scrollback_stride t = 0 ∧ scrollback_start t = 0 ∧ scrollback_count t = 0
  | Some (_, a) =>
      0 < scrollback_capacity t ≤ 1024 ∧ scrollback_stride t = term_cols t ∧ alen a = scrollback_capacity t * term_cols t ∧
      0 ≤ scrollback_start t < scrollback_capacity t ∧ 0 ≤ scrollback_count t ≤ scrollback_capacity t
  end.

Record grid_ok t : Prop := {
  go_rows : 12 ≤ term_rows t ≤ 90;
  go_cols : 40 ≤ term_cols t ≤ 240;
  go_ptr : screen_ptr t = PBoot;
  go_len : alen (boot_screen_cells t) = VGA_MAX_ROWS * VGA_MAX_COLS;
  go_start : 0 ≤ screen_row_start t < term_rows t;
  go_color : 0 ≤ color t < 256;
  go_hist : hist_ok t;
  go_view : 0 ≤ viewport_offset t ≤ scrollback_count t;
}.

Definition cursor_in t : Prop := 0 ≤ row t < term_rows t ∧ 0 ≤ col t < term_cols t.

Lemma rows_ok t : grid_ok t → text_rows t = term_rows t.
Proof. intros []. unfold text_rows. by bfalse (term_rows t =? 0). Qed.

Lemma cols_ok t : grid_ok t → text_cols t = term_cols t.
Proof. intros []. unfold text_cols. by bfalse (term_cols t =? 0). Qed.

Lemma hist_count t : grid_ok t → 0 ≤ scrollback_count t ≤ scrollback_capacity t.
Proof. intros [_ _ _ _ _ _ Hh _]. unfold hist_ok in Hh. destruct (scrollback_cells t) as [[]|]; lia. Qed.

Lemma usable_ok t : grid_ok t → scrollback_usable t = (0 <? scrollback_capacity t).
Proof.
  intros Hg. pose proof (go_hist _ Hg) as Hh. unfold hist_ok, scrollback_usable in *. rewrite (cols_ok t Hg). destruct (scrollback_cells t) as [[p a]|].
  - destruct Hh as (Hc & -> & _). rewrite Z.eqb_refl. bfalse (scrollback_capacity t =? 0). by btrue (0 <? scrollback_capacity t).
  - by destruct Hh as (-> & _).
Qed.

(** ** What the terminal holds *)

(** The physical row of line [y]. *)
Definition phys t (y : Z) : Z := if term_rows t <=? screen_row_start t + y then screen_row_start t + y - term_rows t else screen_row_start t + y.

Definition cell_at t (y x : Z) : Z := pix (term_cols t) (boot_screen_cells t) x (phys t y).

Definition hist_at t (i x : Z) : Z :=
  match scrollback_cells t with
  | Some (_, a) => pix (term_cols t) a x ((scrollback_start t + i) mod scrollback_capacity t)
  | None => 0
  end.

Definition lines t : list (list Z) := grid (term_rows t) (term_cols t) (cell_at t).
Definition past t : list (list Z) := grid (scrollback_count t) (term_cols t) (hist_at t).

Lemma phys_range t y : grid_ok t → 0 ≤ y < term_rows t → 0 ≤ phys t y < term_rows t.
Proof. intros [] Hy. unfold phys. destruct (Z.leb_spec (term_rows t) (screen_row_start t + y)); lia. Qed.

Lemma phys_inj t y y' : grid_ok t → 0 ≤ y < term_rows t → 0 ≤ y' < term_rows t → phys t y = phys t y' → y = y'.
Proof.
  intros [] Hy Hy'. unfold phys. destruct (Z.leb_spec (term_rows t) (screen_row_start t + y)), (Z.leb_spec (term_rows t) (screen_row_start t + y')); lia.
Qed.

Lemma live_index t y x : grid_ok t → live_cell_index t y x = phys t y * term_cols t + x.
Proof. intros Hg. unfold live_cell_index, phys. rewrite (rows_ok t Hg), (cols_ok t Hg). by rewrite (proj2 (Z.eqb_neq (term_rows t) 0)) by (destruct Hg; lia). Qed.

Lemma live_inside t y x : grid_ok t → 0 ≤ y < term_rows t → 0 ≤ x < term_cols t → 0 ≤ phys t y * term_cols t + x < alen (boot_screen_cells t).
Proof. intros Hg Hy Hx. pose proof (phys_range t y Hg Hy). destruct Hg as [? ? _ -> _ _ _ _]. unfold VGA_MAX_ROWS, VGA_MAX_COLS. nia. Qed.

Lemma screen_ok t : grid_ok t → screen_cells t = Some (boot_screen_cells t).
Proof. intros Hg. unfold screen_cells. by rewrite (go_ptr t Hg). Qed.

Lemma live_get t d y x : grid_ok t → 0 ≤ y < term_rows t → 0 ≤ x < term_cols t → live_get_cell t d y x = Ret (sanitize (color t) (cell_at t y x)).
Proof.
  intros Hg Hy Hx. unfold live_get_cell. rewrite screen_ok, live_index by done. rewrite ard_ok by (by apply live_inside). done.
Qed.

(** The terminal with other cells. *)
Definition recells t (a : arr) : term H P := t <| boot_screen_cells := a |>.

Lemma recells_same t : recells t (boot_screen_cells t) = t.
Proof. by destruct t. Qed.

Lemma recells_ok t a : grid_ok t → alen a = alen (boot_screen_cells t) → grid_ok (recells t a).
Proof. intros [] Ha. by split; cbn; rewrite ?Ha. Qed.

Lemma live_store t d y x c :
  grid_ok t → 0 ≤ y < term_rows t → 0 ≤ x < term_cols t →
  ∃ a, live_store_cell t d y x c = Ret (recells t a, d) ∧
    painted (term_cols t) (boot_screen_cells t) (λ X Y, if (X =? x) && (Y =? phys t y) then Some (sanitize (color t) c) else None) a.
Proof.
  intros Hg Hy Hx. unfold live_store_cell. rewrite screen_ok, live_index by done. rewrite awr_ok by (by apply live_inside). mred.
  unfold set_screen. rewrite (go_ptr t Hg). eexists. split; [done |]. by apply (painted_aset _ _ x (phys t y)).
Qed.

(** ** Pushing a line into the history *)

Lemma hist_inside t p a y x :
  grid_ok t → scrollback_cells t = Some (p, a) → 0 ≤ y < scrollback_capacity t → 0 ≤ x < term_cols t → 0 ≤ y * term_cols t + x < alen a.
Proof. intros Hg E Hy Hx. pose proof (go_hist t Hg) as Hh. unfold hist_ok in Hh. rewrite E in Hh. destruct Hh as (_ & _ & -> & _). nia. Qed.

(** Writing one row of the history. *)
Lemma hist_row_spec t p a y (line : list Z) :
  grid_ok t → scrollback_cells t = Some (p, a) → 0 ≤ y < scrollback_capacity t → term_cols t ≤ zlen line →
  ∃ a', for_n (Z.to_nat (text_cols t)) 0 (λ x a, c ← rd line x; awr a (y * scrollback_stride t + x) (sanitize_cell t c)) a = Ret a' ∧
    painted (term_cols t) a (λ X Y, if Y =? y then Some (sanitize (color t) (default 0 (line !! Z.to_nat X))) else None) a'.
Proof.
  intros Hg E Hy Hl. rewrite (cols_ok t Hg). assert (Hst : scrollback_stride t = term_cols t) by (pose proof (go_hist t Hg) as Hh; unfold hist_ok in Hh; rewrite E in Hh; tauto).
  rewrite Hst. pose proof (go_cols t Hg).
  destruct (row_loop (λ b, b) (λ _, True) (term_cols t) y 0 (term_cols t) (λ x a, c ← rd line x; awr a (y * term_cols t + x) (sanitize_cell t c))
    (λ x, sanitize (color t) (default 0 (line !! Z.to_nat x))) a) as (a' & -> & _ & Pa); [lia | done | | exists a'; split; [done |]].
  - intros x b Hx _ Hb. destruct (rd_inbounds line x) as [c Ec]; [lia |]. rewrite Ec. mred. apply rd_Ret in Ec as [_ ->]. cbn [default].
    rewrite awr_ok by (rewrite Hb; eapply hist_inside; (done || lia)). eexists. split; [done |]. split; [done |]. apply (painted_aset _ _ x y); [lia | done | done].
  - apply (painted_ext _ _ _ _ _ Pa). intros X Y HX. btrue (0 <=? X). btrue (X <? 0 + term_cols t). done.
Qed.

Lemma mod_add_inj a b n i j : 0 < n → 0 ≤ i < n → 0 ≤ j < n → a = b → (a + i) mod n = (b + j) mod n → i = j.
Proof.
  intros Hn Hi Hj -> E. pose proof (Z.div_mod (b + i) n ltac:(lia)) as Ei. pose proof (Z.div_mod (b + j) n ltac:(lia)) as Ej. rewrite E in Ei.
  generalize dependent ((b + i) / n). intros q. generalize dependent ((b + j) / n). intros q' Ej Ei. assert (i - j = n * (q - q')) by lia. assert (q = q') by nia. subst. lia.
Qed.

Lemma history_push_spec t line :
  grid_ok t → term_cols t ≤ zlen line →
  ∃ t' s k sc, history_push_line t line = Ret t' ∧ t' = t <| scrollback_start := s |> <| scrollback_count := k |> <| scrollback_cells := sc |> ∧ grid_ok t' ∧
    past t' = push (scrollback_capacity t) (past t) (sanitize (color t) <$> take (Z.to_nat (term_cols t)) line) ∧ fst <$> scrollback_cells t = fst <$> sc.
Proof.
  intros Hg Hl. unfold history_push_line. rewrite usable_ok by done. pose proof (go_hist t Hg) as Hh. unfold hist_ok in Hh.
  destruct (scrollback_cells t) as [[p a]|] eqn:E.
  2: { destruct Hh as (Hc & ? & Hs & Hk). rewrite Hc. cbn [Z.ltb Z.compare negb]. exists t, 0, 0, None. split; [done |].
       assert (t = t <| scrollback_start := 0 |> <| scrollback_count := 0 |> <| scrollback_cells := None |>) as Ht by (destruct t; cbn in *; congruence).
       split_and!; [done | done | | done]. unfold past, push. rewrite Hk. cbn. done. }
  destruct Hh as (Hcap & Hst & Ha & Hs & Hk). btrue (0 <? scrollback_capacity t). cbn [negb].
  assert (Hline : ∀ x, 0 ≤ x < term_cols t → sanitize (color t) (default 0 (line !! Z.to_nat x)) = default 0 ((sanitize (color t) <$> take (Z.to_nat (term_cols t)) line) !! Z.to_nat x)).
  { intros x Hx. rewrite list_lookup_fmap, lookup_take_lt by lia. destruct (lookup_lt_is_Some_2 line (Z.to_nat x)) as [c ->]; [unfold zlen in Hl; lia | done]. }
  assert (Hrow : (λ x, sanitize (color t) (default 0 (line !! Z.to_nat x))) <$> seqZ 0 (term_cols t) = sanitize (color t) <$> take (Z.to_nat (term_cols t)) line).
  { apply list_eq. intros i. rewrite list_lookup_fmap, seqZ_lookup, list_lookup_fmap. destruct (decide _) as [Hi|Hi]; cbn.
    - rewrite lookup_take_lt by lia. rewrite Nat2Z.id. destruct (lookup_lt_is_Some_2 line i) as [c ->]; [unfold zlen in Hl; lia | done].
    - rewrite lookup_take_ge by lia. done. }
  destruct (Z.ltb_spec (scrollback_count t) (scrollback_capacity t)) as [Hlt|Hge].
  - set (pos := (scrollback_start t + scrollback_count t) mod scrollback_capacity t). assert (0 ≤ pos < scrollback_capacity t) by (apply Z.mod_pos_bound; lia).
    set (t1 := t <| scrollback_count := scrollback_count t + 1 |>).
    assert (Hg1 : grid_ok t1).
    { destruct Hg. split; try done; cbn; [unfold hist_ok; cbn; rewrite E; split_and!; (done || lia) | lia]. }
    destruct (hist_row_spec t1 p a pos line Hg1 E) as (a' & -> & Pa); [done | done |]. mred. unfold t1 in Pa. cbn in Pa.
    eexists _, (scrollback_start t), (scrollback_count t + 1), (Some (p, a')). split; [done |]. split; [by destruct t |].
    split; [| split; [| done]].
    { destruct Hg1. split; try done. unfold hist_ok. cbn. rewrite (proj1 Pa). split_and!; (done || lia). }
    unfold past, push. cbn [scrollback_count scrollback_cells term_cols set_field]. cbn. rewrite grid_snoc by lia. rewrite grid_length.
    replace (Z.to_nat (scrollback_count t) + 1 - Z.to_nat (scrollback_capacity t))%nat with 0%nat by lia. rewrite drop_0. f_equal.
    + apply grid_ext. intros i x Hi Hx. unfold hist_at. cbn. rewrite E. rewrite (proj2 Pa) by done. cbn.
      destruct (Z.eqb_spec ((scrollback_start t + i) mod scrollback_capacity t) pos) as [Ep|]; [| done]. exfalso.
      pose proof (mod_add_inj (scrollback_start t) (scrollback_start t) (scrollback_capacity t) i (scrollback_count t) ltac:(lia) ltac:(lia) ltac:(lia) eq_refl Ep). lia.
    + f_equal. rewrite <- Hrow. apply list_fmap_ext. intros j x Hj%lookup_seqZ. unfold hist_at. cbn. rewrite (proj2 Pa) by lia. cbn. by rewrite Z.eqb_refl.
  - assert (Hfull : scrollback_count t = scrollback_capacity t) by lia. set (t1 := t <| scrollback_start := (scrollback_start t + 1) mod scrollback_capacity t |>).
    assert (Hm : 0 ≤ (scrollback_start t + 1) mod scrollback_capacity t < scrollback_capacity t) by (apply Z.mod_pos_bound; lia).
    assert (Hg1 : grid_ok t1).
    { destruct Hg. split; try done. unfold hist_ok. cbn. rewrite E. split_and!; (done || lia). }
    destruct (hist_row_spec t1 p a (scrollback_start t) line Hg1 E) as (a' & -> & Pa); [done | done |]. mred. unfold t1 in Pa. cbn in Pa.
    eexists _, ((scrollback_start t + 1) mod scrollback_capacity t), (scrollback_count t), (Some (p, a')). split; [done |]. split; [by destruct t |].
    split; [| split; [| done]].
    { destruct Hg1. split; try done. unfold hist_ok. cbn. rewrite (proj1 Pa). split_and!; (done || lia). }
    unfold past, push. cbn. rewrite grid_length, Hfull.
    replace (Z.to_nat (scrollback_capacity t) + 1 - Z.to_nat (scrollback_capacity t))%nat with 1%nat by lia.
    rewrite drop_app_le by (rewrite grid_length; lia). rewrite <- Hrow, <- grid_shift by lia. apply grid_ext. intros i x Hi Hx. unfold hist_at. cbn. rewrite E.
    rewrite (proj2 Pa) by done. cbn. rewrite Zplus_mod_idemp_l.
    destruct (Z.eqb_spec i (scrollback_capacity t - 1)) as [->|Hne].
    + replace (scrollback_start t + 1 + (scrollback_capacity t - 1)) with (scrollback_start t + 1 * scrollback_capacity t) by lia.
      rewrite Z.mod_add, Z.mod_small by lia. by rewrite Z.eqb_refl.
    + destruct (Z.eqb_spec ((scrollback_start t + 1 + i) mod scrollback_capacity t) (scrollback_start t)) as [Ep|]; [| cbn; f_equal; f_equal; lia]. exfalso.
      rewrite <- (Z.mod_small (scrollback_start t) (scrollback_capacity t)) in Ep at 2 by lia. rewrite <- (Z.add_0_r (scrollback_start t)) in Ep at 2.
      rewrite <- Z.add_assoc in Ep. pose proof (mod_add_inj _ _ (scrollback_capacity t) (1 + i) 0 ltac:(lia) ltac:(lia) ltac:(lia) eq_refl Ep). lia.
Qed.

(** ** Clearing and recolouring *)

Definition char_cell (attr c : Z) : Z := attr_cell attr (if cell_char c =? 0 then 32 else c).

Lemma attr_cell_parts attr c : 0 ≤ attr < 256 → cell_char (attr_cell attr c) = cell_char c ∧ cell_attr (attr_cell attr c) = attr.
Proof. intros Ha. unfold attr_cell. fold (cell_char c). pose proof (cell_char_range c). by apply cell_parts. Qed.

Lemma sanitize_made now c : 0 ≤ now < 256 → sanitize now (attr_cell now c) = char_cell now c.
Proof.
  intros Hn. unfold sanitize. fold (cell_char (attr_cell now c)) (cell_attr (attr_cell now c)). destruct (attr_cell_parts now c Hn) as [-> ->].
  unfold char_cell, attr_cell. fold (cell_char c). destruct (cell_char c =? 0); [by destruct (Z.eqb_spec now 0) as [->|] |]. fold (cell_char c). by destruct (Z.eqb_spec now 0) as [->|].
Qed.

Lemma sanitize_blank t : grid_ok t → sanitize (color t) (blank_cell t) = blank_cell t.
Proof. intros Hg. unfold blank_cell, make_cell. by rewrite (sanitize_made _ 32 (go_color t Hg)). Qed.

Lemma clear_scrollback_spec t :
  grid_ok t → ∃ sc, clear_scrollback t = Ret (t <| scrollback_start := 0 |> <| scrollback_count := 0 |> <| viewport_offset := 0 |> <| scrollback_cells := sc |>) ∧
    grid_ok (t <| scrollback_start := 0 |> <| scrollback_count := 0 |> <| viewport_offset := 0 |> <| scrollback_cells := sc |>) ∧
    fst <$> scrollback_cells t = fst <$> sc.
Proof.
  intros Hg. set (t1 := t <| scrollback_start := 0 |> <| scrollback_count := 0 |> <| viewport_offset := 0 |>). unfold clear_scrollback. fold t1. cbv zeta.
  change (scrollback_cells t1) with (scrollback_cells t). change (scrollback_capacity t1) with (scrollback_capacity t).
  change (scrollback_stride t1) with (scrollback_stride t). change (blank_cell t1) with (blank_cell t).
  pose proof (go_hist t Hg) as Hh. unfold hist_ok in Hh. pose proof (go_cols t Hg). destruct (scrollback_cells t) as [[p a]|] eqn:E.
  2: { exists None. assert (t1 = t1 <| scrollback_cells := None |>) as <- by (subst t1; destruct t; cbn in *; by subst). split; [done |]. split; [| done].
       destruct Hg. split; try done. unfold hist_ok. change (scrollback_cells t1) with (scrollback_cells t). rewrite E. split_and!; (done || apply Hh). }
  destruct Hh as (Hcap & Hst & Ha & Hs & Hk). rewrite Hst. bfalse (scrollback_capacity t =? 0). bfalse (term_cols t =? 0). cbn [orb].
  destruct (grid_loop (λ b : arr, b) (λ _, True) (term_cols t) (scrollback_capacity t) (term_cols t) (λ y, y) (λ _ _, blank_cell t)
    (λ y x a, awr a (y * term_cols t + x) (blank_cell t)) a) as (a' & E' & _ & HL & _); [lia | lia | done | | done |].
  - intros y x b Hy Hx _ Hb _. rewrite awr_ok by (rewrite Hb, Ha; nia). eexists. split; [done |]. split; [done |]. apply (painted_aset _ _ x y); (done || lia).
  - cbv beta in E'. rewrite E'. mred. exists (Some (p, a')). split; [done |]. split; [| done]. destruct Hg. split; try done. unfold hist_ok. cbn. split_and!; (done || lia).
Qed.

(** Storing into every cell of the screen. *)
Lemma store_all t d (val : Z → Z → Z) (body : Z → Z → term H P * dev → res (term H P * dev)) :
  grid_ok t →
  (∀ y x t', 0 ≤ y < term_rows t → 0 ≤ x < term_cols t → grid_ok t' → t' = recells t (boot_screen_cells t') → cell_at t' y x = cell_at t y x →
     ∃ c, body y x (t', d) = live_store_cell t' d y x c ∧ sanitize (color t) c = val y x) →
  ∃ a, for_n (Z.to_nat (term_rows t)) 0 (λ y, for_n (Z.to_nat (term_cols t)) 0 (body y)) (t, d) = Ret (recells t a, d) ∧
    grid_ok (recells t a) ∧ (∀ y x, 0 ≤ y < term_rows t → 0 ≤ x < term_cols t → cell_at (recells t a) y x = val y x).
Proof.
  intros Hg Hbody. pose proof (go_rows t Hg). pose proof (go_cols t Hg).
  destruct (grid_loop (λ r : term H P * dev, boot_screen_cells r.1) (λ r, r.2 = d ∧ r.1 = recells t (boot_screen_cells r.1)) (term_cols t) (term_rows t) (term_cols t) (phys t) val body (t, d))
    as ([t' d'] & E & [Hd Ht] & HL & Hin & _); [lia | lia | intros; by eapply phys_inj | | | ].
  - intros y x [t1 d1] Hy Hx [Hd1 Ht1] HL Hp. cbn [fst snd] in *. subst d1.
    assert (Hg1 : grid_ok t1) by (rewrite Ht1; apply recells_ok; done).
    assert (Hsame : term_cols t1 = term_cols t ∧ color t1 = color t ∧ ∀ y, phys t1 y = phys t y ∧ term_rows t1 = term_rows t) by (rewrite Ht1; done).
    destruct Hsame as (Hc & Hcol & Hph). destruct (Hbody y x t1 Hy Hx Hg1 Ht1) as (c & -> & Hv).
    { unfold cell_at. by rewrite Hc, (proj1 (Hph y)). }
    destruct (live_store t1 d y x c) as (a & -> & Pa); [done | by rewrite (proj2 (Hph y)) | by rewrite Hc |].
    rewrite Hc, Hcol, Hv, (proj1 (Hph y)) in Pa. eexists. split; [done |]. cbn. split; [split; [done | by rewrite Ht1] | done].
  - cbn. by rewrite recells_same.
  - cbn in *. subst d'. exists (boot_screen_cells t'). rewrite E. split; [by rewrite <- Ht |]. split; [by apply recells_ok |]. intros y x Hy Hx. by apply (Hin y x).
Qed.

Lemma restart_ok t : grid_ok t → grid_ok (t <| screen_row_start := 0 |>).
Proof. intros []. split; try done. cbn. lia. Qed.

Lemma clear_live_screen_spec t d :
  grid_ok t → ∃ a, let t' := recells (t <| screen_row_start := 0 |>) a in
    clear_live_screen t d = Ret (t', fb_mark_dirty_all t' d) ∧ grid_ok t' ∧ lines t' = replicate (Z.to_nat (term_rows t)) (replicate (Z.to_nat (term_cols t)) (blank_cell t)).
Proof.
  intros Hg. pose proof (restart_ok t Hg) as Hg0. unfold clear_live_screen. rewrite (rows_ok _ Hg0), (cols_ok _ Hg0).
  destruct (store_all (t <| screen_row_start := 0 |>) d (λ _ _, blank_cell t) (λ y x '(t', d'), live_store_cell t' d' y x (blank_cell t)) Hg0) as (a & E & Ha & Hc).
  - intros y x t' Hy Hx Hg' _ _. eexists. split; [done |]. by apply (sanitize_blank t Hg).
  - cbn zeta. replace (blank_cell (t <| screen_row_start := 0 |>)) with (blank_cell t) by done. rewrite E. mred. exists a. split; [done |]. split; [done |].
    rewrite <- grid_const. by apply grid_ext.
Qed.

Lemma recolor_parts c attr : 0 ≤ attr < 256 → recolor_cell c attr = attr_cell attr c.
Proof. done. Qed.

(** ** The window *)

Lemma view_start_ok t : grid_ok t → view_start t = scrollback_count t - viewport_offset t.
Proof.
  intros Hg. pose proof (hist_count t Hg) as Hk. pose proof (go_view t Hg). pose proof (go_rows t Hg). unfold view_start, scrollback_max_offset.
  rewrite usable_ok, rows_ok by done.
  assert ((if 0 <? scrollback_capacity t then scrollback_count t else 0) = scrollback_count t) as -> by (destruct (Z.ltb_spec 0 (scrollback_capacity t)); lia).
  destruct (Z.eqb_spec (viewport_offset t) 0) as [->|Hv]; cbn [negb]; [lia |]. btrue (term_rows t <? scrollback_count t + term_rows t).
  bfalse (scrollback_count t <? viewport_offset t). destruct (Z.ltb_spec (viewport_offset t) (scrollback_count t + term_rows t - term_rows t)); lia.
Qed.

(** The cell in column [x] of row [y] of the window. *)
Definition window t (y x : Z) : Z :=
  let i := scrollback_count t - viewport_offset t + y in
  if i <? scrollback_count t then hist_at t i x else cell_at t (i - scrollback_count t) x.

Definition source t (y x : Z) : Z :=
  let i := scrollback_count t - viewport_offset t + y in
  if i <? scrollback_count t then hist_at t i x else sanitize (color t) (cell_at t (i - scrollback_count t) x).

Lemma source_window t y x : grid_ok t → sanitize (color t) (source t y x) = sanitize (color t) (window t y x).
Proof. intros Hg. unfold source, window. cbv zeta. case_match; [done |]. apply sanitize_idem, Hg. Qed.

Lemma render_row_eq t d y :
  grid_ok t → 0 ≤ y < term_rows t →
  render_row t d (view_start t) y = for_n (Z.to_nat (term_cols t)) 0 (λ x d, hw_set_cell t d y x (source t y x)) d.
Proof.
  intros Hg Hy. pose proof (hist_count t Hg) as Hk. pose proof (go_view t Hg) as Hv. unfold render_row. rewrite view_start_ok, usable_ok, rows_ok by done.
  assert ((if 0 <? scrollback_capacity t then scrollback_count t else 0) = scrollback_count t) as -> by (destruct (Z.ltb_spec 0 (scrollback_capacity t)); lia).
  unfold source. cbv zeta. set (i := scrollback_count t - viewport_offset t + y). destruct (Z.ltb_spec i (scrollback_count t)) as [Hi|Hi].
  - unfold history_line_at. rewrite usable_ok by done. btrue (0 <? scrollback_capacity t). bfalse (scrollback_count t <=? i). cbn [negb orb].
    unfold render_cells. rewrite cols_ok by done. apply for_n_ext. intros x r Hx. pose proof (go_hist t Hg) as Hh. unfold hist_ok, hist_at in *.
    destruct (scrollback_cells t) as [[p a]|] eqn:E; [| lia]. destruct Hh as (Hcap & -> & Ha & _). rewrite ard_ok; [done |].
    pose proof (Z.mod_pos_bound (scrollback_start t + i) (scrollback_capacity t) ltac:(lia)). rewrite Ha. pose proof (go_cols t Hg). nia.
  - btrue (i - scrollback_count t <? term_rows t). unfold render_live_line. rewrite cols_ok by done. apply for_n_ext. intros x r Hx.
    by rewrite live_get by (done || lia).
Qed.

(** ** Text mode *)

Record text_dev t d : Prop := {
  td_mode : active (fb d) = false;
  td_grid : term_rows t = VGA_LEGACY_ROWS ∧ term_cols t = VGA_LEGACY_COLS;
  td_memory : alen (vga_memory d) = VGA_LEGACY_ROWS * VGA_LEGACY_COLS;
}.

Lemma hw_set_text t d y x c :
  text_dev t d → 0 ≤ y < 25 → 0 ≤ x < 80 →
  ∃ m, hw_set_cell t d y x c = Ret (d <| vga_memory := m |>) ∧
    painted 80 (vga_memory d) (λ X Y, if (X =? x) && (Y =? y) then Some (sanitize (color t) c) else None) m.
Proof.
  intros Ht Hy Hx. unfold hw_set_cell, VGA_LEGACY_ROWS, VGA_LEGACY_COLS. rewrite (td_mode _ _ Ht). btrue (y <? 25). btrue (x <? 80). cbn [andb].
  rewrite awr_ok by (rewrite (td_memory _ _ Ht); unfold VGA_LEGACY_ROWS, VGA_LEGACY_COLS; lia). mred. eexists. split; [done |]. by apply (painted_aset _ _ x y).
Qed.

Lemma text_dev_memory t d m : text_dev t d → alen m = alen (vga_memory d) → text_dev t (d <| vga_memory := m |>).
Proof. intros [] Hm. split; cbn; [done | done | congruence]. Qed.

(** What [render_view] puts into the text memory: every cell of the window. *)
Lemma render_rows_text t d :
  grid_ok t → text_dev t d →
  ∃ m, for_n (Z.to_nat (text_rows t)) 0 (λ y d, render_row t d (view_start t) y) d = Ret (d <| vga_memory := m |>) ∧ alen m = alen (vga_memory d) ∧
    ∀ y x, 0 ≤ y < 25 → 0 ≤ x < 80 → pix 80 m x y = sanitize (color t) (window t y x).
Proof.
  intros Hg Ht. destruct (td_grid t d Ht) as [Hr Hc]. rewrite rows_ok by done. unfold VGA_LEGACY_ROWS, VGA_LEGACY_COLS in *.
  rewrite (for_n_ext _ _ _ (λ y, for_n (Z.to_nat 80) 0 (λ x d, hw_set_cell t d y x (source t y x)))) by (intros y r Hy; rewrite render_row_eq, Hc by (done || lia); done).
  rewrite Hr.
  destruct (grid_loop vga_memory (λ r, r = d <| vga_memory := vga_memory r |>) 80 25 80 (λ y, y) (λ y x, sanitize (color t) (window t y x))
    (λ y x d, hw_set_cell t d y x (source t y x)) d) as (d' & -> & Hd & HL & Hin & _); [lia | lia | done | | by destruct d |].
  - intros y x r Hy Hx Hd HL _. destruct (hw_set_text t r y x (source t y x)) as (m & -> & Pm); [rewrite Hd; by apply text_dev_memory | done | done |].
    eexists. split; [done |]. rewrite source_window in Pm by done. split; [by rewrite Hd | done].
  - exists (vga_memory d'). rewrite <- Hd. split; [done |]. split; [done |]. intros y x Hy Hx. by apply Hin.
Qed.

(** ** The hardware cursor *)

(** The selected register and the registers of the display controller. *)
Definition crtc_step (s : Z * (Z → Z)) (w : Z * Z) : Z * (Z → Z) :=
  let '(sel, regs) := s in
  let '(port, v) := w in
  if port =? 0x3d4 then (v, regs) else if port =? 0x3d5 then (sel, λ r, if r =? sel then v else regs r) else s.

Definition crtc (ws : list (Z * Z)) : Z → Z := (foldl crtc_step (0, λ _, 0) ws).2.

Definition hw_position d : Z := crtc (ports d) 0x0e * 256 + crtc (ports d) 0x0f.
Definition hw_off d : bool := Z.testbit (crtc (ports d) 0x0a) 5.

(** The driver's memory of the registers is right. *)
Definition regs_ok d : Prop := hw_cursor_is_visible d = negb (hw_off d) ∧ (hw_cursor_last_pos d = 0xffff ∨ hw_position d = hw_cursor_last_pos d).

(** Just after [vga_init]. *)
Definition regs_fresh t d : Prop :=
  hw_cursor_is_visible d = false ∧ hw_cursor_last_pos d = 0xffff ∧ cursor_visible_requested d = true ∧ viewport_offset t = 0 ∧ update_depth d = 0.

(** The cursor is where the terminal's is, or off. *)
Definition cursor_shown t d : Prop :=
  if cursor_visible_requested d && (viewport_offset t =? 0) then hw_off d = false ∧ hw_position d = row t * 80 + col t else hw_off d = true.

Lemma crtc_write d r v r' : crtc (ports (outb (outb d 0x3d4 r) 0x3d5 v)) r' = if r' =? r then v else crtc (ports d) r'.
Proof. unfold crtc. cbn [ports outb set_field]. cbn. rewrite !foldl_app. cbn. destruct (foldl crtc_step _ (ports d)) as [sel regs]. done. Qed.

(** The result of [hw_cursor_update] in text mode. *)
Definition cursor_text t d : dev :=
  if negb (update_depth d =? 0) then d <| cursor_update_pending := true |> else
  let d := d <| cursor_update_pending := false |> in
  if negb (cursor_visible_requested d) || negb (viewport_offset t =? 0) then
    if hw_cursor_is_visible d then (outb (outb d 0x3d4 0x0a) 0x3d5 0x20) <| hw_cursor_is_visible := false |> else d
  else
  let d := hw_cursor_show d in
  let pos := wrap16 (row t * 80 + col t) in
  if pos =? hw_cursor_last_pos d then d else
  (outb (outb (outb (outb d 0x3d4 0x0f) 0x3d5 (Z.land pos 0xff)) 0x3d4 0x0e) 0x3d5 (Z.land (Z.shiftr pos 8) 0xff)) <| hw_cursor_last_pos := pos |>.

Lemma hw_cursor_text t d : active (fb d) = false → hw_cursor_update t d = Ret (cursor_text t d).
Proof.
  intros Ha. unfold hw_cursor_update, cursor_text, hw_cursor_hide, VGA_LEGACY_COLS. destruct (negb (update_depth d =? 0)); [done |]. cbn [fb set_field]. cbn. rewrite Ha.
  repeat (case_match; try done).
Qed.

(** Everything but the cursor's own state. *)
Definition same_text d d' : Prop :=
  fb d' = fb d ∧ vga_memory d' = vga_memory d ∧ video_memory d' = video_memory d ∧ update_depth d' = update_depth d ∧
  cursor_visible_requested d' = cursor_visible_requested d ∧ fb_dirty_rows d' = fb_dirty_rows d ∧ fb_pending_scroll_rows d' = fb_pending_scroll_rows d.

Lemma cursor_text_same t d : same_text d (cursor_text t d).
Proof. unfold cursor_text, hw_cursor_show. repeat case_match; done. Qed.

Lemma split_byte n : 0 ≤ n < 2 ^ 16 → Z.land (Z.shiftr n 8) 0xff * 256 + Z.land n 0xff = n.
Proof.
  intros Hn. change 0xff with (Z.ones 8). rewrite !Z.land_ones by lia. rewrite Z.shiftr_div_pow2 by lia. change (2 ^ 8) with 256.
  pose proof (Z.div_mod n 256 ltac:(lia)). assert (0 ≤ n / 256 < 256) by (split; [apply Z.div_pos; lia | apply Z.div_lt_upper_bound; lia]).
  rewrite (Z.mod_small (n / 256)) by lia. lia.
Qed.

Definition cursor_ok t d : Prop :=
  regs_ok d ∧ (update_depth d = 0 → cursor_update_pending d = false) ∧ (cursor_update_pending d = false → cursor_shown t d).

Lemma show_shown d : regs_ok d ∨ hw_cursor_is_visible d = false → hw_off (hw_cursor_show d) = false ∧ hw_cursor_is_visible (hw_cursor_show d) = true ∧ hw_position (hw_cursor_show d) = hw_position d.
Proof.
  intros Hr. unfold hw_cursor_show. destruct (hw_cursor_is_visible d) eqn:E.
  - destruct Hr as [[Hv _]|]; [| done]. rewrite E in Hv. split_and!; [| done | done]. by destruct (hw_off d).
  - unfold hw_off, hw_position. cbn [ports set_field]. change (ports (?x <| hw_cursor_is_visible := true |>)) with (ports x). rewrite !crtc_write. done.
Qed.

Lemma cursor_text_ok t d :
  0 ≤ row t < 25 → 0 ≤ col t < 80 → (regs_ok d ∨ regs_fresh t d) → cursor_ok t (cursor_text t d).
Proof.
  intros Hr Hc Hregs. unfold cursor_ok, cursor_text. destruct (Z.eqb_spec (update_depth d) 0) as [Hd|Hd]; cbn [negb].
  2: { destruct Hregs as [Hregs|(_ & _ & _ & _ & ?)]; [| done]. split_and!; [exact Hregs | intros; cbn in *; lia | done]. }
  set (d0 := d <| cursor_update_pending := false |>). assert (Hregs0 : regs_ok d0 ∨ regs_fresh t d0) by exact Hregs. clear Hregs.
  assert (Hpos : wrap16 (row t * 80 + col t) = row t * 80 + col t) by (apply wrap_small; lia).
  destruct (negb (cursor_visible_requested d0) || negb (viewport_offset t =? 0)) eqn:Ev.
  - assert (Hsel : cursor_visible_requested d0 && (viewport_offset t =? 0) = false) by (destruct (cursor_visible_requested d0), (viewport_offset t =? 0); done).
    destruct Hregs0 as [[Hv Hp]|(_ & _ & Hreq & Hvp & _)]; [| rewrite Hreq, Hvp in Hsel; done]. unfold cursor_shown.
    destruct (hw_cursor_is_visible d0) eqn:Eh.
    + set (d1 := outb (outb d0 0x3d4 0x0a) 0x3d5 0x20).
      assert (Hoff : hw_off (d1 <| hw_cursor_is_visible := false |>) = true) by (unfold hw_off; change (ports (?x <| hw_cursor_is_visible := false |>)) with (ports x); unfold d1; by rewrite crtc_write).
      split_and!; [split; [by rewrite Hoff |] | done | intros _; change (cursor_visible_requested (d1 <| hw_cursor_is_visible := false |>)) with (cursor_visible_requested d0); by rewrite Hsel].
      unfold hw_position. change (ports (?x <| hw_cursor_is_visible := false |>)) with (ports x). unfold d1. rewrite !crtc_write. exact Hp.
    + split_and!; [split; [by rewrite Eh | done] | done | intros _; rewrite Hsel; by destruct (hw_off d0)].
  - assert (Hsel : cursor_visible_requested d0 && (viewport_offset t =? 0) = true) by (destruct (cursor_visible_requested d0), (viewport_offset t =? 0); done).
    destruct (show_shown d0) as (Hoff & Hvis & Hpo); [destruct Hregs0 as [|(? & _)]; [by left | by right] |].
    assert (Hl : hw_cursor_last_pos (hw_cursor_show d0) = hw_cursor_last_pos d0) by (unfold hw_cursor_show; by case_match).
    assert (Hq : cursor_visible_requested (hw_cursor_show d0) = cursor_visible_requested d0) by (unfold hw_cursor_show; by case_match).
    assert (Hpe : cursor_update_pending (hw_cursor_show d0) = false) by (unfold hw_cursor_show; by case_match).
    set (d1 := hw_cursor_show d0) in *. rewrite Hpos, Hl. unfold cursor_shown. destruct (Z.eqb_spec (row t * 80 + col t) (hw_cursor_last_pos d0)) as [Ep|Ep].
    + assert (hw_position d0 = row t * 80 + col t) by (destruct Hregs0 as [[_ [?|?]]|(_ & ? & _)]; lia). rewrite Hq, Hsel.
      split_and!; [split; [by rewrite Hoff, Hvis | right; congruence] | done | intros _; split; [done | congruence]].
    + set (d2 := outb (outb (outb (outb d1 0x3d4 0x0f) 0x3d5 _) 0x3d4 0x0e) 0x3d5 _).
      assert (Hposn : hw_position (d2 <| hw_cursor_last_pos := row t * 80 + col t |>) = row t * 80 + col t).
      { unfold hw_position. change (ports (?x <| hw_cursor_last_pos := ?y |>)) with (ports x). unfold d2. rewrite !crtc_write. cbn [Z.eqb Pos.eqb]. apply split_byte. lia. }
      assert (Hoffn : hw_off (d2 <| hw_cursor_last_pos := row t * 80 + col t |>) = false).
      { unfold hw_off. change (ports (?x <| hw_cursor_last_pos := ?y |>)) with (ports x). unfold d2. rewrite !crtc_write. cbn [Z.eqb Pos.eqb]. exact Hoff. }
      change (cursor_visible_requested (d2 <| hw_cursor_last_pos := row t * 80 + col t |>)) with (cursor_visible_requested d1). rewrite Hq, Hsel.
      split_and!; [split; [rewrite Hoffn; exact Hvis | by right] | done | done].
Qed.

End terminal.
