(* ===== verification/VgaFb.v ===== *)
(** * The framebuffer: presenting the screen as pixels

    In framebuffer mode every routine of [vga.c] that shows something returns and
    keeps the buffers' shape; rendering the whole window leaves exactly its picture
    in the video memory. *)

From Stdlib Require Import ZArith Lia String.
From stdpp Require Import prelude list_numbers fin_maps zmap.
From S2P Require Import Prelude Update Array Arith CString Printf Log Bootinfo Kmem PageMap Vga VgaPixels VgaText.

Local Open Scope Z_scope.

(** ** Dirty bits *)

Lemma bit_loop_even f y c : bit_loop f (2 * y) c = bit_loop f y c.
Proof.
  revert y c. induction f as [|f IH]; intros y c; cbn [bit_loop].
  - destruct (Z.eqb_spec y 0) as [->|Hy]; [done |]. by bfalse (2 * y =? 0).
  - destruct (Z.eqb_spec y 0) as [->|Hy]; [done |]. bfalse (2 * y =? 0). rewrite <- (IH (Z.land y (y - 1))). f_equal. apply Z.bits_inj'. intros n Hn.
    rewrite Z.land_spec. destruct (Z.eq_dec n 0) as [->|Hn0]; [by rewrite !Z.testbit_even_0 |]. replace n with (Z.succ (n - 1)) by lia.
    rewrite !Z.testbit_even_succ by lia. rewrite Z.land_spec. f_equal. replace (2 * y - 1) with (2 * (y - 1) + 1) by lia. apply Z.testbit_odd_succ. lia.
Qed.

Lemma bit_loop_total n f x c : (n ≤ f)%nat → 0 ≤ x < 2 ^ Z.of_nat n → ∃ r, bit_loop f x c = Ret r.
Proof.
  revert f x c. induction n as [|n IH]; intros f x c Hf Hx.
  { assert (x = 0) as -> by (cbn in Hx; lia). exists c. by destruct f. }
  rewrite Nat2Z.inj_succ, Z.pow_succ_r in Hx by lia. pose proof (Z.div_mod x 2 ltac:(lia)) as Ex. rewrite Zmod_odd in Ex. destruct (Z.odd x) eqn:Eo.
  - destruct f as [|f]; [lia |]. cbn [bit_loop]. bfalse (x =? 0).
    assert (Z.land x (x - 1) = 2 * (x / 2)) as ->.
    { apply Z.bits_inj'. intros k Hk. rewrite Z.land_spec. destruct (Z.eq_dec k 0) as [->|]; [rewrite Z.testbit_even_0; replace (x - 1) with (2 * (x / 2)) by lia; rewrite Z.testbit_even_0; apply andb_false_r |].
      replace (x - 1) with (2 * (x / 2)) by lia. replace k with (Z.succ (k - 1)) by lia. rewrite Z.testbit_even_succ by lia. rewrite Ex at 1. rewrite Z.testbit_odd_succ by lia. apply andb_diag. }
    rewrite bit_loop_even. apply IH; lia.
  - rewrite Ex, Z.add_0_r, bit_loop_even. apply IH; lia.
Qed.

Definition dirty_words (l : list Z) : Prop := length l = 2%nat ∧ Forall is_u64 l.

(** ** Staying in framebuffer mode *)

(** The device may have drawn; its configuration and bookkeeping are the same. *)
Record fb_same (d d' : dev) : Prop := {
  fs_active : active (fb d') = active (fb d);
  fs_pixels : pixels (fb d') = pixels (fb d);
  fs_width : width (fb d') = width (fb d);
  fs_height : height (fb d') = height (fb d);
  fs_pitch : pitch_pixels (fb d') = pitch_pixels (fb d);
  fs_format : format (fb d') = format (fb d);
  fs_text : vga_memory d' = vga_memory d;
  fs_depth : update_depth d' = update_depth d;
  fs_requested : cursor_visible_requested d' = cursor_visible_requested d;
}.

Lemma fb_same_refl d : fb_same d d.
Proof. done. Qed.

Lemma fb_same_trans d d1 d2 : fb_same d d1 → fb_same d1 d2 → fb_same d d2.
Proof. intros [] []. split; congruence. Qed.

Record fb_dev (d : dev) : Prop := {
  fd_ok : fb_ok d;
  fd_dirty : dirty_words (fb_dirty_rows d);
  fd_scroll : 0 ≤ fb_pending_scroll_rows d;
  fd_cursor : 0 ≤ cursor_row (fb d) ∧ 0 ≤ cursor_col (fb d);
}.

Lemma fg_same d d' attr : fb_same d d' → fg_of d' attr = fg_of d attr.
Proof. intros Hs. unfold fg_of, fb_pack_rgb. by rewrite (fs_format _ _ Hs). Qed.

Lemma bg_same d d' attr : fb_same d d' → bg_of d' attr = bg_of d attr.
Proof. intros Hs. unfold bg_of, fb_pack_rgb. by rewrite (fs_format _ _ Hs). Qed.

Lemma cell_pixel_same d d' c x y : fb_same d d' → cell_pixel d' c x y = cell_pixel d c x y.
Proof. intros Hs. unfold cell_pixel. by rewrite (fg_same d d'), (bg_same d d'). Qed.

Lemma fb_dev_reshadow d s : fb_dev d → alen s = alen (shadow d) → fb_dev (reshadow d s) ∧ fb_same d (reshadow d s).
Proof. intros [Hok Hd Hs Hc] Hl. split; [split; [by apply fb_ok_reshadow | done..] | done]. Qed.

Lemma fb_dev_video d v : fb_dev d → alen v = alen (video_memory d) → fb_dev (d <| video_memory := v |>) ∧ fb_same d (d <| video_memory := v |>).
Proof. intros [Hok Hd Hs Hc] Hl. split; [split; [by apply fb_ok_video | done..] | done]. Qed.

Section framebuffer.
Context {H P : Type} `{Kmem H} `{PageMap P}.

Implicit Types (t : term H P) (d : dev).

(** ** The cursor *)

Lemma redraw_cursor_spec t d :
  grid_ok t → fb_dev d → ∃ d', fb_redraw_cursor_cell t d = Ret d' ∧ fb_dev d' ∧ fb_same d d' ∧ cursor_drawn (fb d') = false ∧
    fb_dirty_rows d' = fb_dirty_rows d ∧ fb_dirty_all d' = fb_dirty_all d ∧ fb_pending_scroll_rows d' = fb_pending_scroll_rows d ∧
    (cursor_drawn (fb d) = false → d' = d).
Proof.
  intros Hg Hd. unfold fb_redraw_cursor_cell. rewrite (fo_active _ (fd_ok _ Hd)). cbn [negb orb]. destruct (cursor_drawn (fb d)) eqn:Ed; cbn [negb].
  2: { by exists d. }
  set (d1 := d <| fb := (fb d) <| cursor_drawn := false |> |>).
  assert (Hd1 : fb_dev d1) by (destruct Hd as [[] ? ? ?]; done). assert (Hs1 : fb_same d d1) by done. destruct (fd_cursor _ Hd) as [Hcr Hcc].
  rewrite rows_ok, cols_ok by done. destruct (Z.ltb_spec (cursor_row (fb d)) (term_rows t)); [| by exists d1].
  destruct (Z.ltb_spec (cursor_col (fb d)) (term_cols t)); [| by exists d1]. cbn [andb]. rewrite live_get by (done || lia). mred.
  destruct (fb_draw_cell_spec t d1 (cursor_row (fb d)) (cursor_col (fb d)) (sanitize (color t) (cell_at t (cursor_row (fb d)) (cursor_col (fb d)))) (fd_ok _ Hd1)) as (s & -> & Ps);
    [rewrite cols_ok by done; lia | rewrite rows_ok by done; lia |]. mred.
  destruct (fb_dev_reshadow d1 s Hd1 (proj1 Ps)) as [Hd2 Hs2].
  destruct (fb_copy_cell_spec t (reshadow d1 s) (cursor_row (fb d)) (cursor_col (fb d)) (fd_ok _ Hd2)) as (v & -> & Pv);
    [rewrite cols_ok by done; lia | rewrite rows_ok by done; lia |].
  destruct (fb_dev_video _ v Hd2 (proj1 Pv)) as [Hd3 Hs3]. eexists. split; [done |]. split_and!; done.
Qed.

(** The cursor is a line of six pixels at the bottom of its cell. *)
Definition in_underline t d (X Y : Z) : bool :=
  in_span (8 * col t + 1) 6 X && (Y =? 16 * row t + 14) && (X <? width (fb d)) && (Y <? height (fb d)).

Lemma draw_cursor_spec t d :
  grid_ok t → cursor_in t → fb_dev d → cursor_visible_requested d = true → viewport_offset t = 0 →
  ∃ d', fb_draw_cursor t d = Ret d' ∧ fb_dev d' ∧ fb_same d d' ∧
    painted (pitch_pixels (fb d)) (shadow d)
      (λ X Y, if in_underline t d X Y then Some (fg_of d (cell_attr (sanitize (color t) (cell_at t (row t) (col t))))) else None) (shadow d') ∧
    fb_dirty_rows d' = fb_dirty_rows d ∧ fb_dirty_all d' = fb_dirty_all d ∧ fb_pending_scroll_rows d' = fb_pending_scroll_rows d.
Proof.
  intros Hg [Hr Hc] Hd Hreq Hv. unfold fb_draw_cursor. rewrite (fo_active _ (fd_ok _ Hd)), Hreq, Hv. cbn [negb orb Z.eqb].
  rewrite rows_ok, cols_ok by done. bfalse (term_rows t <=? row t). bfalse (term_cols t <=? col t). cbn [orb]. rewrite live_get by done. mred.
  rewrite attr_fg_spec. mred. unfold VGA_FONT_W, VGA_FONT_H. fold (cell_attr (sanitize (color t) (cell_at t (row t) (col t)))).
  set (fg := fg_of d _).
  destruct (fb_fill_rect_spec d (col t * 8 + 1) (row t * 16 + 16 - 2) (8 - 2) 1 fg (fd_ok _ Hd)) as (s & -> & Ps); [lia.. |]. mred.
  destruct (fb_dev_reshadow d s Hd (proj1 Ps)) as [Hd1 Hs1]. set (d1 := reshadow d s) in *.
  set (d2 := d1 <| fb := (fb d1) <| cursor_row := row t |> <| cursor_col := col t |> <| cursor_drawn := true |> |>).
  assert (Hd2 : fb_dev d2). { destruct Hd1 as [[] ? ? ?]. split; [done | done | done | cbn; lia]. }
  destruct (fb_copy_cell_spec t d2 (row t) (col t) (fd_ok _ Hd2)) as (v & -> & Pv); [rewrite cols_ok by done; lia | rewrite rows_ok by done; lia |].
  destruct (fb_dev_video _ v Hd2 (proj1 Pv)) as [Hd3 Hs3]. eexists. split; [done |]. split; [done |]. split; [done |]. split; [| done].
  apply (painted_ext _ _ _ _ _ Ps). intros X Y HX. unfold in_underline, rect. cases; (done || lia).
Qed.

Lemma cursor_fb t d :
  grid_ok t → cursor_in t → fb_dev d →
  ∃ d', hw_cursor_update t d = Ret d' ∧ fb_dev d' ∧ fb_same d d' ∧
    fb_dirty_rows d' = fb_dirty_rows d ∧ fb_dirty_all d' = fb_dirty_all d ∧ fb_pending_scroll_rows d' = fb_pending_scroll_rows d ∧
    (cursor_drawn (fb d) = false → painted (pitch_pixels (fb d)) (shadow d)
      (λ X Y, if (update_depth d =? 0) && cursor_visible_requested d && (viewport_offset t =? 0) && in_underline t d X Y
              then Some (fg_of d (cell_attr (sanitize (color t) (cell_at t (row t) (col t))))) else None) (shadow d')).
Proof.
  intros Hg Hc Hd. unfold hw_cursor_update. destruct (Z.eqb_spec (update_depth d) 0) as [Hu|Hu]; cbn [negb].
  2: { eexists. split; [done |]. destruct Hd as [[] ? ? ?]. split_and!; try done. }
  set (d1 := d <| cursor_update_pending := false |>). assert (Hd1 : fb_dev d1) by (destruct Hd as [[] ? ? ?]; done).
  rewrite (fo_active _ (fd_ok _ Hd1)). destruct (redraw_cursor_spec t d1 Hg Hd1) as (d2 & -> & Hd2 & Hs2 & Hcd & Hdr & Hda & Hps & Hsame). mred.
  assert (Hs : fb_same d d2) by (by apply (fb_same_trans d d1)).
  rewrite (fs_requested _ _ Hs2). change (cursor_visible_requested d1) with (cursor_visible_requested d). destruct (cursor_visible_requested d) eqn:Er; cbn [andb].
  2: { exists d2. split_and!; try done. intros Hn. rewrite (Hsame Hn). by apply painted_refl. }
  destruct (Z.eqb_spec (viewport_offset t) 0) as [Hv|Hv]; cbn [andb].
  2: { exists d2. split_and!; try done. intros Hn. rewrite (Hsame Hn). by apply painted_refl. }
  destruct (draw_cursor_spec t d2 Hg Hc Hd2) as (d3 & -> & Hd3 & Hs3 & Ps & ? & ? & ?); [by rewrite (fs_requested _ _ Hs2) | done |].
  exists d3. split; [done |]. split; [done |]. split; [by apply (fb_same_trans d d2) |]. change (fb_dirty_rows d1) with (fb_dirty_rows d) in Hdr. change (fb_dirty_all d1) with (fb_dirty_all d) in Hda.
  change (fb_pending_scroll_rows d1) with (fb_pending_scroll_rows d) in Hps. split_and!; [congruence.. |].
  intros Hn. rewrite (Hsame Hn) in Ps. done.
Qed.

(** ** Rows of cells *)

Lemma cell_paint_same d d' y x c X Y : fb_same d d' → cell_paint d' y x c X Y = cell_paint d y x c X Y.
Proof. intros Hs. unfold cell_paint. by rewrite (fs_width _ _ Hs), (fs_height _ _ Hs), (cell_pixel_same d d'). Qed.

(** A pixel belongs to one cell. *)
Lemma cell_paint_at d y x c X Y p : cell_paint d y x c X Y = Some p → x = X / 8 ∧ y = Y / 16.
Proof.
  unfold cell_paint. destruct ((8 * x + 8 <=? width (fb d)) && (16 * y + 16 <=? height (fb d))); cbn [andb]; [| done].
  destruct (in_span_spec (8 * x) 8 X); cbn [andb]; [| done]. destruct (in_span_spec (16 * y) 16 Y); cbn [andb]; [| done]. intros _.
  split; [apply (Z.div_unique _ 8 x (X - 8 * x)); lia | apply (Z.div_unique _ 16 y (Y - 16 * y)); lia].
Qed.

(** The cells [f y x] of [n] rows from [y0] on, drawn where they belong. *)
Definition grid_paint t d (y0 n : Z) (f : Z → Z → Z) : Z → Z → option Z := λ X Y,
  if in_span y0 n (Y / 16) && in_span 0 (term_cols t) (X / 8) then cell_paint d (Y / 16) (X / 8) (sanitize (color t) (f (Y / 16) (X / 8))) X Y else None.

Lemma hw_set_fb t d y x c :
  grid_ok t → fb_dev d → 0 ≤ y < term_rows t → 0 ≤ x < term_cols t →
  ∃ s, hw_set_cell t d y x c = Ret (reshadow d s) ∧ painted (pitch_pixels (fb d)) (shadow d) (cell_paint d y x (sanitize (color t) c)) s.
Proof.
  intros Hg Hd Hy Hx. unfold hw_set_cell. rewrite (fo_active _ (fd_ok _ Hd)).
  destruct (fb_draw_cell_spec t d y x (sanitize_cell t c) (fd_ok _ Hd)) as (s & -> & Ps); [by rewrite cols_ok | by rewrite rows_ok |].
  exists s. split; [done |]. unfold sanitize_cell, current_attr in Ps. by rewrite sanitize_idem in Ps by apply Hg.
Qed.

Lemma draw_row_fb t d y (f : Z → Z) :
  grid_ok t → fb_dev d → 0 ≤ y < term_rows t →
  ∃ s, for_n (Z.to_nat (term_cols t)) 0 (λ x d, hw_set_cell t d y x (f x)) d = Ret (reshadow d s) ∧
    painted (pitch_pixels (fb d)) (shadow d) (grid_paint t d y 1 (λ _, f)) s.
Proof.
  intros Hg Hd Hy. pose proof (go_cols t Hg).
  destruct (paint_loop_in shadow (λ r, r = reshadow d (shadow r)) (pitch_pixels (fb d)) (Z.to_nat (term_cols t)) 0 (λ x d, hw_set_cell t d y x (f x))
    (λ x, cell_paint d y x (sanitize (color t) (f x))) (grid_paint t d y 1 (λ _, f)) d) as (d' & -> & -> & Ps).
  - by rewrite reshadow_same by apply Hd.
  - intros x r Hx Hr HL. destruct (fb_dev_reshadow d (shadow r) Hd HL) as [Hdr Hsr]. rewrite <- Hr in Hdr, Hsr.
    destruct (hw_set_fb t r y x (f x) Hg Hdr Hy) as (s & -> & Ps); [lia |]. eexists. split; [done |]. split; [by rewrite Hr |]. rewrite (fs_pitch _ _ Hsr) in Ps.
    apply (painted_ext _ _ _ _ _ Ps). intros X Y _. by apply cell_paint_same.
  - intros x X Y p Hx HX E. pose proof (cell_paint_at _ _ _ _ _ _ _ E) as [-> ->]. unfold grid_paint.
    destruct (in_span_spec (Y / 16) 1 (Y / 16)); [| lia]. destruct (in_span_spec 0 (term_cols t) (X / 8)); [done | lia].
  - intros X Y p HX. unfold grid_paint. destruct (in_span_spec y 1 (Y / 16)); cbn [andb]; [| done]. destruct (in_span_spec 0 (term_cols t) (X / 8)); [| done].
    intros E. exists (X / 8). split; [lia |]. by replace y with (Y / 16) by lia.
  - by exists (shadow d').
Qed.

(** A loop that draws whole rows. *)
Lemma draw_rows_fb t d y0 n (f : Z → Z → Z) (body : Z → dev → res dev) :
  grid_ok t → fb_dev d → 0 ≤ y0 → 0 ≤ n → y0 + n ≤ term_rows t →
  (∀ y r, y0 ≤ y < y0 + n → body y r = for_n (Z.to_nat (term_cols t)) 0 (λ x d, hw_set_cell t d y x (f y x)) r) →
  ∃ s, for_n (Z.to_nat n) y0 body d = Ret (reshadow d s) ∧ painted (pitch_pixels (fb d)) (shadow d) (grid_paint t d y0 n f) s.
Proof.
  intros Hg Hd Hy0 Hn Hb Hbody.
  destruct (paint_loop_in shadow (λ r, r = reshadow d (shadow r)) (pitch_pixels (fb d)) (Z.to_nat n) y0 body (λ y, grid_paint t d y 1 f) (grid_paint t d y0 n f) d)
    as (d' & -> & -> & Ps).
  - by rewrite reshadow_same by apply Hd.
  - intros y r Hy Hr HL. destruct (fb_dev_reshadow d (shadow r) Hd HL) as [Hdr Hsr]. rewrite <- Hr in Hdr, Hsr. rewrite Hbody by lia.
    destruct (draw_row_fb t r y (f y) Hg Hdr) as (s & -> & Ps); [lia |]. eexists. split; [done |]. split; [by rewrite Hr |]. rewrite (fs_pitch _ _ Hsr) in Ps.
    apply (painted_ext _ _ _ _ _ Ps). intros X Y _. unfold grid_paint. destruct (in_span_spec y 1 (Y / 16)); [| done]. replace (Y / 16) with y by lia.
    cbn [andb]. case_match; [| done]. by apply cell_paint_same.
  - intros y X Y p Hy HX. unfold grid_paint. destruct (in_span_spec y 1 (Y / 16)); cbn [andb]; [| done]. destruct (in_span_spec y0 n (Y / 16)); [done | lia].
  - intros X Y p HX. unfold grid_paint. destruct (in_span_spec y0 n (Y / 16)); cbn [andb]; [| done]. intros E. exists (Y / 16). split; [lia |].
    destruct (in_span_spec (Y / 16) 1 (Y / 16)); [done | lia].
  - by exists (shadow d').
Qed.

Lemma render_live_eq t d y : grid_ok t → 0 ≤ y < term_rows t →
  render_live_line t d y y = for_n (Z.to_nat (term_cols t)) 0 (λ x d, hw_set_cell t d y x (sanitize (color t) (cell_at t y x))) d.
Proof. intros Hg Hy. unfold render_live_line. rewrite cols_ok by done. apply for_n_ext. intros x r Hx. by rewrite live_get by (done || lia). Qed.

(** ** The picture *)

(** The whole screen: the window's cells, the margins in the current background. *)
Definition picture t d (X Y : Z) : Z :=
  if (X <? 8 * term_cols t) && (Y <? 16 * term_rows t)
  then cell_pixel d (sanitize (color t) (window t (Y / 16) (X / 8))) (X mod 8) (Y mod 16)
  else bg_of d (color t).

(** The same with the cursor drawn, if it is on. *)
Definition picture_with_cursor t d (X Y : Z) : Z :=
  if (update_depth d =? 0) && cursor_visible_requested d && (viewport_offset t =? 0) && in_underline t d X Y
  then fg_of d (cell_attr (sanitize (color t) (cell_at t (row t) (col t)))) else picture t d X Y.

(** The text grid fits on the screen. *)
Definition grid_fits t d : Prop := 8 * term_cols t ≤ width (fb d) ∧ 16 * term_rows t ≤ height (fb d).

Lemma div_span n k q : 0 < k → 0 ≤ n → 0 ≤ q → (0 ≤ n / k < q ↔ n < k * q).
Proof.
  intros Hk Hn Hq. split.
  - intros Hd. pose proof (Z.div_mod n k ltac:(lia)). pose proof (Z.mod_pos_bound n k Hk). nia.
  - intros Hl. split; [apply Z.div_pos; lia | apply Z.div_lt_upper_bound; lia].
Qed.

(** On a screen of any size: cells that do not lie wholly on it are left out, and what was
    [under] them stays. *)
Definition clipped t d (under X Y : Z) : Z :=
  if (X <? 8 * term_cols t) && (Y <? 16 * term_rows t)
  then if (8 * (X / 8) + 8 <=? width (fb d)) && (16 * (Y / 16) + 16 <=? height (fb d))
       then cell_pixel d (sanitize (color t) (window t (Y / 16) (X / 8))) (X mod 8) (Y mod 16) else under
  else bg_of d (color t).

Definition clipped_with_cursor t d (under X Y : Z) : Z :=
  if (update_depth d =? 0) && cursor_visible_requested d && (viewport_offset t =? 0) && in_underline t d X Y
  then fg_of d (cell_attr (sanitize (color t) (cell_at t (row t) (col t)))) else clipped t d under X Y.

Lemma clipped_fits t d under X Y : grid_fits t d → 0 ≤ X < width (fb d) → 0 ≤ Y < height (fb d) → clipped_with_cursor t d under X Y = picture_with_cursor t d X Y.
Proof.
  intros [Hw Hh] HX HY. unfold clipped_with_cursor, picture_with_cursor, clipped, picture. case_match; [done |]. destruct (Z.ltb_spec X (8 * term_cols t)), (Z.ltb_spec Y (16 * term_rows t)); cbn [andb]; try done.
  pose proof (Z.div_mod X 8 ltac:(lia)). pose proof (Z.mod_pos_bound X 8 ltac:(lia)). pose proof (Z.div_mod Y 16 ltac:(lia)). pose proof (Z.mod_pos_bound Y 16 ltac:(lia)).
  btrue (8 * (X / 8) + 8 <=? width (fb d)). by btrue (16 * (Y / 16) + 16 <=? height (fb d)).
Qed.

(** Painting the grid and the margins makes the picture. *)
Lemma grid_paint_picture t d a s s2 :
  grid_ok t →
  painted (pitch_pixels (fb d)) a (grid_paint t d 0 (term_rows t) (source t)) s →
  painted (pitch_pixels (fb d)) s (λ X Y, if (X <? width (fb d)) && (0 <=? Y) && (Y <? height (fb d)) && ((8 * term_cols t <=? X) || (16 * term_rows t <=? Y))
              then Some (bg_of d (color t)) else None) s2 →
  ∀ X Y, 0 ≤ X < width (fb d) → X < pitch_pixels (fb d) → 0 ≤ Y < height (fb d) → pix (pitch_pixels (fb d)) s2 X Y = clipped t d (pix (pitch_pixels (fb d)) a X Y) X Y.
Proof.
  intros Hg P1 P2 X Y HX HXp HY. pose proof (go_rows t Hg). pose proof (go_cols t Hg). rewrite (proj2 P2) by lia. unfold clipped.
  btrue (X <? width (fb d)). btrue (0 <=? Y). btrue (Y <? height (fb d)). cbn [andb].
  destruct (Z.leb_spec (8 * term_cols t) X), (Z.leb_spec (16 * term_rows t) Y); cbn [orb].
  - by bfalse (X <? 8 * term_cols t).
  - by bfalse (X <? 8 * term_cols t).
  - bfalse (Y <? 16 * term_rows t). by rewrite andb_false_r.
  - btrue (X <? 8 * term_cols t). btrue (Y <? 16 * term_rows t). cbn [andb default]. rewrite (proj2 P1) by lia. unfold grid_paint.
    assert (Hx : 0 ≤ X / 8 < term_cols t) by (apply div_span; lia). assert (Hy : 0 ≤ Y / 16 < term_rows t) by (apply div_span; lia).
    destruct (in_span_spec 0 (term_rows t) (Y / 16)); [| lia]. destruct (in_span_spec 0 (term_cols t) (X / 8)); [| lia]. cbn [andb]. unfold cell_paint.
    pose proof (Z.div_mod X 8 ltac:(lia)). pose proof (Z.mod_pos_bound X 8 ltac:(lia)). pose proof (Z.div_mod Y 16 ltac:(lia)). pose proof (Z.mod_pos_bound Y 16 ltac:(lia)).
    destruct (in_span_spec (8 * (X / 8)) 8 X); [| lia]. destruct (in_span_spec (16 * (Y / 16)) 16 Y); [| lia]. rewrite !andb_true_r. case_match; cbn [default]; [| done]. rewrite source_window by done.
    replace (X mod 8) with (X - 8 * (X / 8)) by lia. by replace (Y mod 16) with (Y - 16 * (Y / 16)) by lia.
Qed.

Lemma forget_cursor_fb d : fb_dev d → fb_dev (forget_cursor d) ∧ fb_same d (forget_cursor d) ∧ cursor_drawn (fb (forget_cursor d)) = false ∧ shadow (forget_cursor d) = shadow d.
Proof.
  intros Hd. unfold forget_cursor. rewrite (fo_active _ (fd_ok _ Hd)). cbn [andb]. destruct (cursor_drawn (fb d)) eqn:E; [| done]. destruct Hd as [[] ? ? ?]. done.
Qed.

Lemma dirty_reset_fb d : fb_dev d → fb_dev (fb_dirty_reset d) ∧ fb_same d (fb_dirty_reset d).
Proof. intros [[] ? ? ?]. split; [| done]. split; [done | | done | done]. split; [done |]. repeat constructor; ulia. Qed.

Lemma ticks_fb d n : fb_dev d → let d' := (pit_ticks d).2 <| fb_last_present_tick := n |> in fb_dev d' ∧ fb_same d d'.
Proof. by intros [[] ? ? ?]. Qed.

Lemma underline_same t d d' X Y : fb_same d d' → in_underline t d' X Y = in_underline t d X Y.
Proof. intros Hs. unfold in_underline. by rewrite (fs_width _ _ Hs), (fs_height _ _ Hs). Qed.

Lemma grid_paint_same t d d' y0 n f X Y : fb_same d d' → grid_paint t d' y0 n f X Y = grid_paint t d y0 n f X Y.
Proof. intros Hs. unfold grid_paint. case_match; [by apply cell_paint_same | done]. Qed.

(** After copying, the video memory shows the shadow copy. *)
Lemma copy_shadow_shows d :
  fb_dev d → ∃ d', fb_copy_shadow_to_hw d = Ret d' ∧ fb_dev d' ∧ fb_same d d' ∧ shadow d' = shadow d ∧ cursor_drawn (fb d') = cursor_drawn (fb d) ∧ fb_has_dirty d' = fb_has_dirty d ∧
    ∀ X Y, 0 ≤ X < width (fb d) → 0 ≤ Y < height (fb d) → pix (pitch_pixels (fb d)) (video_memory d') X Y = pix (pitch_pixels (fb d)) (shadow d) X Y.
Proof.
  intros Hd. destruct (fb_copy_shadow_spec d (fd_ok _ Hd)) as (v & -> & Pv). destruct (fb_dev_video d v Hd (proj1 Pv)) as [Hd' Hs']. eexists. split; [done |].
  split_and!; try done. intros X Y HX HY. pose proof (fo_width _ (fd_ok _ Hd)). cbn [video_memory set_field]. change (video_memory (d <| video_memory := v |>)) with v.
  rewrite (proj2 Pv) by lia. unfold shown. destruct (in_span_spec 0 (width (fb d)) X); [| lia]. destruct (in_span_spec 0 (height (fb d)) Y); [done | lia].
Qed.

Lemma render_view_fb t d :
  grid_ok t → cursor_in t → fb_dev d →
  ∃ d', render_view t d = Ret d' ∧ fb_dev d' ∧ fb_same d d' ∧ fb_has_dirty d' = false ∧
    (∀ X Y, 0 ≤ X < width (fb d) → 0 ≤ Y < height (fb d) →
       pix (pitch_pixels (fb d)) (video_memory d') X Y = clipped_with_cursor t d (pix (pitch_pixels (fb d)) (shadow d) X Y) X Y).
Proof.
  intros Hg Hc Hd. unfold render_view. destruct (forget_cursor_fb d Hd) as (Hd0 & Hs0 & Hn0 & Hsh0). set (d0 := forget_cursor d) in *. cbv zeta.
  rewrite rows_ok by done. pose proof (go_rows t Hg). pose proof (go_cols t Hg). pose proof (fo_width _ (fd_ok _ Hd)).
  destruct (draw_rows_fb t d0 0 (term_rows t) (source t) (λ y d, render_row t d (view_start t) y) Hg Hd0) as (s & -> & Ps); [lia | lia | lia | |].
  { intros y r Hy. apply render_row_eq; (done || lia). }
  mred. destruct (fb_dev_reshadow d0 s Hd0 (proj1 Ps)) as [Hd1 Hs1]. set (d1 := reshadow d0 s) in *.
  destruct (fb_clear_margins_spec t d1 (fd_ok _ Hd1)) as (s2 & -> & Ps2); [rewrite cols_ok by done; lia | rewrite rows_ok by done; lia |]. mred.
  rewrite rows_ok, cols_ok in Ps2 by done. destruct (fb_dev_reshadow d1 s2 Hd1 (proj1 Ps2)) as [Hd2 Hs2]. set (d2 := reshadow d1 s2) in *.
  cbn [pit_ticks]. set (d3 := _ <| fb_last_present_tick := _ |> <| fb_pending_scroll_rows := 0 |>).
  assert (Hd3 : fb_dev d3) by (destruct Hd2 as [[] ? ? ?]; done). destruct (dirty_reset_fb d3 Hd3) as [Hd4 Hs4]. set (d4 := fb_dirty_reset d3) in *.
  assert (Hs04 : fb_same d0 d4) by done. assert (Hs : fb_same d d4) by (by apply (fb_same_trans d d0)).
  destruct (cursor_fb t d4 Hg Hc Hd4) as (d5 & -> & Hd5 & Hs5 & Hr5 & Ha5 & Hp5 & Ps5). mred.
  destruct (copy_shadow_shows d5 Hd5) as (d6 & -> & Hd6 & Hs6 & _ & _ & Hdirty & Hshow). exists d6. split; [done |]. split; [done |].
  assert (Hs5d : fb_same d d5) by (by apply (fb_same_trans d d4)). split; [by apply (fb_same_trans d d5) |]. split.
  { rewrite Hdirty. unfold fb_has_dirty. rewrite (fs_active _ _ Hs5), Hr5, Ha5, Hp5. by destruct (negb (active (fb d4))). }
  intros X Y HX HY. rewrite (fs_pitch _ _ Hs5d), (fs_width _ _ Hs5d), (fs_height _ _ Hs5d) in Hshow. rewrite Hshow by done.
  specialize (Ps5 Hn0). rewrite <- (fs_pitch _ _ Hs). rewrite (proj2 Ps5) by (rewrite (fs_pitch _ _ Hs); lia). unfold clipped_with_cursor.
  rewrite (underline_same t d d4) by done. change (update_depth d4) with (update_depth d0). change (cursor_visible_requested d4) with (cursor_visible_requested d0).
  rewrite (fs_depth _ _ Hs0), (fs_requested _ _ Hs0). case_match; cbn [default].
  { by rewrite (fg_same d d4). }
  change (shadow d4) with s2. rewrite (fs_pitch _ _ Hs). rewrite (fs_pitch _ _ Hs0) in Ps.
  rewrite <- Hsh0. fold d0. apply (grid_paint_picture t d (shadow d0) s s2 Hg).
  - apply (painted_ext _ _ _ _ _ Ps). intros X' Y' _. by apply grid_paint_same.
  - assert (Hs1d : fb_same d d1) by (by apply (fb_same_trans d d0)). rewrite (fs_pitch _ _ Hs1d), (fs_width _ _ Hs1d), (fs_height _ _ Hs1d) in Ps2.
    rewrite (bg_same d d1) in Ps2 by done. done.
  - done.
  - lia.
  - done.
Qed.

(** ** Presenting what changed *)

Definition dirty_at d (y : Z) : bool := Z.testbit (default 0 (fb_dirty_rows d !! Z.to_nat (y / 64))) (y mod 64).

Lemma dirty_word d y : dirty_words (fb_dirty_rows d) → 0 ≤ y < 90 → ∃ w, rd (fb_dirty_rows d) (y / 64) = Ret w ∧ fb_dirty_rows d !! Z.to_nat (y / 64) = Some w ∧ is_u64 w.
Proof.
  intros [Hl Hf] Hy. assert (0 ≤ y / 64 < 2) by (split; [apply Z.div_pos; lia | apply Z.div_lt_upper_bound; lia]).
  destruct (rd_inbounds (fb_dirty_rows d) (y / 64)) as [w Hw]; [unfold zlen; lia |]. exists w. split; [done |]. apply rd_Ret in Hw as [_ Hw]. split; [done |].
  by apply (proj1 (Forall_lookup _ _) Hf _ _ Hw).
Qed.

Lemma row_dirty_spec d y : dirty_words (fb_dirty_rows d) → 0 ≤ y < 90 → row_dirty d y = Ret (dirty_at d y).
Proof. intros Hw Hy. destruct (dirty_word d y Hw Hy) as (w & E & El & _). unfold row_dirty, dirty_at. by rewrite E, El. Qed.

Lemma dirty_count_total t d : dirty_words (fb_dirty_rows d) → ∃ n, fb_dirty_row_count t d = Ret n.
Proof.
  intros [Hl Hf]. unfold fb_dirty_row_count. case_match; [by eexists |]. case_match; [by eexists |]. generalize 0. induction Hf as [|w ws Hw Hf IH] in Hl |- *; intros c; cbn [fold_res]; [by eexists |].
  clear Hl. revert c IH. intros c IH. destruct (bit_loop_total 64 64 w c) as [r ->]; [lia | exact Hw |]. mred. clear IH.
  revert r. induction Hf as [|w' ws' Hw' Hf' IH']; intros r; cbn [fold_res]; [by eexists |]. destruct (bit_loop_total 64 64 w' r) as [r' ->]; [lia | exact Hw' |]. mred. apply IH'.
Qed.

(** The live cells of the dirty rows. *)
Definition dirty_paint t d : Z → Z → option Z := λ X Y,
  if dirty_at d (Y / 16) then grid_paint t d 0 (term_rows t) (cell_at t) X Y else None.

Lemma grid_paint_sub t d y n f y0 X Y p : y0 ≤ y → y + n ≤ y0 + term_rows t → grid_paint t d y n f X Y = Some p → grid_paint t d y0 (term_rows t) f X Y = Some p.
Proof. intros Hy Hn. unfold grid_paint. destruct (in_span_spec y n (Y / 16)); cbn [andb]; [| done]. destruct (in_span_spec y0 (term_rows t) (Y / 16)); [done | lia]. Qed.

Lemma grid_paint_live t d y0 n X Y : grid_ok t → grid_paint t d y0 n (λ y x, sanitize (color t) (cell_at t y x)) X Y = grid_paint t d y0 n (cell_at t) X Y.
Proof. intros Hg. unfold grid_paint. case_match; [| done]. by rewrite sanitize_idem by apply Hg. Qed.

Lemma render_dirty_fb t d :
  grid_ok t → fb_dev d → ∃ s, render_dirty_rows t d = Ret (reshadow d s) ∧ painted (pitch_pixels (fb d)) (shadow d) (dirty_paint t d) s.
Proof.
  intros Hg Hd. unfold render_dirty_rows. rewrite rows_ok by done. pose proof (go_rows t Hg).
  destruct (paint_loop_in shadow (λ r, r = reshadow d (shadow r)) (pitch_pixels (fb d)) (Z.to_nat (term_rows t)) 0
    (λ y d, dirty ← row_dirty d y; if dirty : bool then render_live_line t d y y else Ret d)
    (λ y X Y, if dirty_at d y then grid_paint t d y 1 (cell_at t) X Y else None) (dirty_paint t d) d) as (d' & -> & -> & Ps).
  - by rewrite reshadow_same by apply Hd.
  - intros y r Hy Hr HL. destruct (fb_dev_reshadow d (shadow r) Hd HL) as [Hdr Hsr]. rewrite <- Hr in Hdr, Hsr.
    rewrite row_dirty_spec by (apply Hdr || lia). mred. assert (dirty_at r y = dirty_at d y) as -> by (by rewrite Hr). destruct (dirty_at d y).
    + rewrite render_live_eq by (done || lia). destruct (draw_row_fb t r y (λ x, sanitize (color t) (cell_at t y x)) Hg Hdr) as (s & -> & Ps); [lia |]. eexists. split; [done |].
      split; [by rewrite Hr |]. rewrite (fs_pitch _ _ Hsr) in Ps. apply (painted_ext _ _ _ _ _ Ps). intros X Y _. rewrite (grid_paint_same t d r) by done.
      rewrite <- grid_paint_live by done. unfold grid_paint. destruct (in_span_spec y 1 (Y / 16)); [| done]. by replace (Y / 16) with y by lia.
    + exists r. split; [done |]. split; [done |]. by apply painted_refl.
  - intros y X Y p Hy HX. destruct (dirty_at d y) eqn:Ed; [| done]. intros E. assert (Y / 16 = y) as Ey.
    { revert E. unfold grid_paint. destruct (in_span_spec y 1 (Y / 16)); [| done]. intros _. lia. }
    unfold dirty_paint. rewrite Ey, Ed. apply (grid_paint_sub t d y 1); (done || lia).
  - intros X Y p HX. unfold dirty_paint. destruct (dirty_at d (Y / 16)) eqn:Ed; [| done]. intros E. exists (Y / 16).
    assert (0 ≤ Y / 16 < term_rows t) by (revert E; unfold grid_paint; destruct (in_span_spec 0 (term_rows t) (Y / 16)); [intros _; lia | done]).
    split; [lia |]. rewrite Ed. revert E. unfold grid_paint. destruct (in_span_spec 0 (term_rows t) (Y / 16)); [| lia]. destruct (in_span_spec (Y / 16) 1 (Y / 16)); [done | lia].
  - by exists (shadow d').
Qed.

Lemma present_draw_fb t d :
  grid_ok t → fb_dev d →
  ∃ s, present_rows t d = Ret (reshadow d s) ∧ alen s = alen (shadow d) ∧
    (fb_dirty_all d = false → viewport_offset t = 0 → fb_pending_scroll_rows d = 0 → painted (pitch_pixels (fb d)) (shadow d) (dirty_paint t d) s).
Proof.
  intros Hg Hd. unfold present_rows. rewrite rows_ok by done. pose proof (go_rows t Hg). pose proof (go_cols t Hg).
  assert (Hlive : ∀ r y0 n, fb_dev r → 0 ≤ y0 → 0 ≤ n → y0 + n ≤ term_rows t → ∃ s, for_n (Z.to_nat n) y0 (λ y d, render_live_line t d y y) r = Ret (reshadow r s) ∧ alen s = alen (shadow r)).
  { intros r y0 n Hr Hy0 Hn Hb. destruct (draw_rows_fb t r y0 n (λ y x, sanitize (color t) (cell_at t y x)) (λ y d, render_live_line t d y y) Hg Hr Hy0 Hn Hb) as (s & -> & Ps).
    - intros y q Hy. apply render_live_eq; (done || lia).
    - exists s. split; [done | apply Ps]. }
  destruct (fb_dirty_all d || negb (viewport_offset t =? 0) || (term_rows t <=? fb_pending_scroll_rows d)) eqn:Ef.
  - destruct (Hlive d 0 (term_rows t) Hd) as (s & -> & Hs); [lia.. |]. mred. destruct (fb_dev_reshadow d s Hd Hs) as [Hd1 _].
    destruct (fb_clear_margins_spec t (reshadow d s) (fd_ok _ Hd1)) as (s2 & -> & Ps2); [rewrite cols_ok by done; lia | rewrite rows_ok by done; lia |].
    exists s2. rewrite reshadow_reshadow. split; [done |]. split; [rewrite (proj1 Ps2); done |]. intros Ha Hv Hp. rewrite Ha, Hv, Hp in Ef. cbn in Ef.
    exfalso. destruct (Z.leb_spec (term_rows t) 0); [lia | done].
  - destruct (Z.eqb_spec (fb_pending_scroll_rows d) 0) as [Hp|Hp]; cbn [negb].
    + destruct (render_dirty_fb t d Hg Hd) as (s & -> & Ps). exists s. split; [done |]. split; [apply Ps | done].
    + pose proof (fd_scroll _ Hd). assert (fb_pending_scroll_rows d < term_rows t).
      { apply orb_false_elim in Ef as [_ Ef]. apply Z.leb_gt in Ef. done. }
      cbv zeta. destruct (fb_scroll_shadow_spec t d (fb_pending_scroll_rows d) (fd_ok _ Hd)) as (s & -> & Ps); [lia | rewrite cols_ok by done; lia | rewrite rows_ok by done; lia |]. mred.
      destruct (fb_dev_reshadow d s Hd (proj1 Ps)) as [Hd1 _].
      destruct (Hlive (reshadow d s) (term_rows t - fb_pending_scroll_rows d) (fb_pending_scroll_rows d) Hd1) as (s2 & -> & Hs2); [lia.. |]. mred. rewrite reshadow_reshadow.
      destruct (fb_dev_reshadow d s2 Hd) as [Hd2 _]; [rewrite Hs2; apply Ps |].
      destruct (render_dirty_fb t (reshadow d s2) Hg Hd2) as (s3 & -> & Ps3). exists s3. rewrite reshadow_reshadow. split; [done |]. split; [| done].
      rewrite (proj1 Ps3). change (alen s2 = alen (shadow d)). rewrite Hs2. apply Ps.
Qed.

Lemma present_fb t d force :
  grid_ok t → cursor_in t → fb_dev d → ∃ d', fb_present_dirty t d force = Ret d' ∧ fb_dev d' ∧ fb_same d d'.
Proof.
  intros Hg Hc Hd. unfold fb_present_dirty. rewrite (fo_active _ (fd_ok _ Hd)). cbn [negb orb]. destruct (fb_has_dirty d) eqn:Eh; cbn [negb].
  2: { destruct (force && cursor_update_pending d); [| by exists d]. destruct (cursor_fb t d Hg Hc Hd) as (d' & -> & Hd' & Hs' & _). by exists d'. }
  cbn [pit_ticks]. set (d0 := d <| instant := instant d + 1 |>). assert (Hd0 : fb_dev d0) by (destruct Hd as [[] ? ? ?]; done). assert (Hs0 : fb_same d d0) by done.
  destruct (dirty_count_total t d0 (fd_dirty _ Hd0)) as [n ->]. mred. case_match; [by exists d0 |]. case_match; [by exists d0 |].
  set (d1 := if cursor_drawn (fb d0) then _ else d0).
  assert (fb_dev d1 ∧ fb_same d d1) as [Hd1 Hs1] by (unfold d1; case_match; [destruct Hd0 as [[] ? ? ?] |]; done).
  destruct (present_draw_fb t d1 Hg Hd1) as (s & -> & Hl & _). mred. destruct (fb_dev_reshadow d1 s Hd1 Hl) as [Hd2 Hs2].
  destruct (dirty_reset_fb _ Hd2) as [Hd3 Hs3]. set (d3 := fb_dirty_reset (reshadow d1 s)) in *.
  assert (Hs3' : fb_same d d3) by (apply (fb_same_trans d d1); [done |]; by apply (fb_same_trans d1 (reshadow d1 s))).
  assert (∃ d4, (if cursor_update_pending d3 || force then hw_cursor_update t d3 else Ret d3) = Ret d4 ∧ fb_dev d4 ∧ fb_same d d4) as (d4 & -> & Hd4 & Hs4).
  { case_match; [| by exists d3]. destruct (cursor_fb t d3 Hg Hc Hd3) as (d4 & -> & Hd4 & Hs4 & _). exists d4. split_and!; [done | done |]. by apply (fb_same_trans d d3). }
  mred. destruct (copy_shadow_shows d4 Hd4) as (d5 & -> & Hd5 & Hs5 & _). mred. eexists. split; [done |].
  split; [by destruct Hd5 as [[] ? ? ?] |]. apply (fb_same_trans d d5); [by apply (fb_same_trans d d4) | done].
Qed.

Lemma set_bit_u64 w k : is_u64 w → 0 ≤ k < 64 → is_u64 (Z.lor w (Z.shiftl 1 k)).
Proof.
  intros Hw Hk. apply lor_range; [lia | done |]. rewrite Z.shiftl_1_l. split; [apply Z.pow_nonneg; lia | apply Z.pow_lt_mono_r; lia].
Qed.

Lemma mark_row_fb t d y :
  grid_ok t → fb_dev d → 0 ≤ y < term_rows t →
  ∃ d', fb_mark_dirty_row t d y = Ret d' ∧ fb_dev d' ∧ fb_same d d' ∧ shadow d' = shadow d ∧ video_memory d' = video_memory d ∧ fb d' = fb d ∧
    fb_dirty_all d' = fb_dirty_all d ∧ fb_pending_scroll_rows d' = fb_pending_scroll_rows d ∧ fb_has_dirty d' = true ∧
    ∀ y', 0 ≤ y' < 90 → dirty_at d' y' = (y' =? y) || dirty_at d y'.
Proof.
  intros Hg Hd Hy. pose proof (go_rows t Hg). unfold fb_mark_dirty_row. rewrite (fo_active _ (fd_ok _ Hd)), rows_ok by done. bfalse (term_rows t <=? y). cbn [negb orb].
  destruct (dirty_word d y (fd_dirty _ Hd)) as (w & -> & El & Hw); [lia |]. mred. destruct (fd_dirty _ Hd) as [Hl Hf].
  assert (0 ≤ y / 64 < 2) by (split; [apply Z.div_pos; lia | apply Z.div_lt_upper_bound; lia]). pose proof (Z.mod_pos_bound y 64 ltac:(lia)) as Hm.
  rewrite wr_inbounds by (unfold zlen; lia). mred. set (rows' := <[Z.to_nat (y / 64) := _]> (fb_dirty_rows d)).
  assert (Hw' : dirty_words rows').
  { split; [unfold rows'; by rewrite length_insert |]. apply Forall_insert; [done |]. by apply set_bit_u64. }
  assert (Hbits : ∀ y', 0 ≤ y' < 90 → Z.testbit (default 0 (rows' !! Z.to_nat (y' / 64))) (y' mod 64) = (y' =? y) || dirty_at d y').
  { intros y' Hy'. unfold dirty_at, rows'. pose proof (Z.mod_pos_bound y' 64 ltac:(lia)) as Hm'. destruct (decide (y' / 64 = y / 64)) as [Eq|Hne].
    - rewrite Eq, list_lookup_insert_eq by (apply lookup_lt_Some in El; lia). rewrite El. cbn. rewrite Z.lor_spec, Z.shiftl_1_l, orb_comm. f_equal.
      destruct (Z.eqb_spec y' y) as [->|Hyy]; [by rewrite Z.pow2_bits_true by lia |]. apply Z.pow2_bits_false. intros Em.
      apply Hyy. rewrite (Z.div_mod y' 64), (Z.div_mod y 64) by lia. congruence.
    - assert (0 ≤ y' / 64) by (apply Z.div_pos; lia). rewrite list_lookup_insert_ne by lia. destruct (Z.eqb_spec y' y) as [->|]; done. }
  assert (Hhas : existsb (λ w, negb (w =? 0)) rows' = true).
  { apply existsb_exists. exists (Z.lor w (Z.shiftl 1 (y mod 64))). split.
    - apply base.list_elem_of_In. apply (list_elem_of_lookup_2 _ (Z.to_nat (y / 64))). unfold rows'. rewrite list_lookup_insert_eq; [done |]. apply lookup_lt_Some in El. lia.
    - destruct (Z.eqb_spec (Z.lor w (Z.shiftl 1 (y mod 64))) 0) as [E0|]; [| done]. exfalso. pose proof (Z.lor_spec w (Z.shiftl 1 (y mod 64)) (y mod 64)) as Eb.
      rewrite E0, Z.shiftl_1_l, Z.pow2_bits_true, Z.bits_0, orb_true_r in Eb by lia. done. }
  eexists. split; [done |]. destruct Hd as [[Ha] ? ? ?]. case_match; (split_and!; [split; [done | done | done | done] | done | done | done | done | done | done | | done]);
    unfold fb_has_dirty; cbn [fb set_field]; cbn; rewrite Ha, Hhas; cbn; by repeat case_match.
Qed.

End framebuffer.
