(* ===== verification/VgaTerminal.v ===== *)
(** * The operations of [vga.c] on a terminal

    Every operation keeps the driver's invariant and does to the list of lines, the
    history and the cursor what a terminal does; in text mode the display follows. *)

From Stdlib Require Import ZArith Lia String.
From stdpp Require Import prelude list_numbers fin_maps zmap.
From S2P Require Import Prelude Update Array Arith CString Printf Log Bootinfo Kmem PageMap Vga VgaPixels VgaText VgaFb.

Local Open Scope Z_scope.

Section terminal.
Context {H P : Type} `{Kmem H} `{PageMap P}.

Implicit Types (t : term H P) (d : dev).

(** ** The invariant of both halves *)

Definition mode_ok t d : Prop := if active (fb d) then fb_dev d else text_dev t d.

Record dev_base t d : Prop := {
  db_depth : 0 ≤ update_depth d ≤ U32MAX;
  db_mode : mode_ok t d;
  db_regs : active (fb d) = false → regs_ok d;
}.

Definition cells_shown t d : Prop :=
  active (fb d) = false → ∀ y x, 0 ≤ y < 25 → 0 ≤ x < 80 → displays (pix 80 (vga_memory d) x y) (window t y x).

Definition cursor_synced t d : Prop := active (fb d) = false → cursor_ok t d.

Record dev_ok t d : Prop := {
  do_base : dev_base t d;
  do_cells : cells_shown t d;
  do_cursor : cursor_synced t d;
}.

(** The mode and the nesting depth stay. *)
Definition same_mode d d' : Prop := active (fb d') = active (fb d) ∧ update_depth d' = update_depth d ∧ cursor_visible_requested d' = cursor_visible_requested d.

Lemma same_mode_trans d d1 d2 : same_mode d d1 → same_mode d1 d2 → same_mode d d2.
Proof. intros (? & ? & ?) (? & ? & ?). split_and!; congruence. Qed.

Lemma fb_same_mode d d' : fb_same d d' → same_mode d d'.
Proof. intros []. done. Qed.

Lemma text_cursor_in t d : text_dev t d → cursor_in t → 0 ≤ row t < 25 ∧ 0 ≤ col t < 80.
Proof. intros Ht [Hr Hc]. destruct (td_grid t d Ht) as [E1 E2]. unfold VGA_LEGACY_ROWS, VGA_LEGACY_COLS in *. lia. Qed.

Lemma text_same t d d' : text_dev t d → same_text d d' → text_dev t d'.
Proof. intros [] (E1 & E2 & _). split; [by rewrite E1 | done | by rewrite E2]. Qed.

Lemma cursor_step t d :
  grid_ok t → cursor_in t → dev_base t d → cells_shown t d → ∃ d', hw_cursor_update t d = Ret d' ∧ dev_ok t d' ∧ same_mode d d'.
Proof.
  intros Hg Hc [Hdep Hmode Hregs] Hcells. unfold mode_ok in Hmode. destruct (active (fb d)) eqn:Ea.
  - destruct (cursor_fb t d Hg Hc Hmode) as (d' & -> & Hd' & Hs & _). exists d'. split; [done |]. pose proof (fs_active _ _ Hs) as Ea'. rewrite Ea in Ea'.
    split; [| by apply fb_same_mode]. split; [split; [by rewrite (fs_depth _ _ Hs) | unfold mode_ok; by rewrite Ea' | congruence] | unfold cells_shown; congruence | unfold cursor_synced; congruence].
  - rewrite hw_cursor_text by done. exists (cursor_text t d). split; [done |]. pose proof (cursor_text_same t d) as Hs. destruct (text_cursor_in t d Hmode Hc) as [Hr Hk].
    pose proof (cursor_text_ok t d Hr Hk (or_introl (Hregs eq_refl))) as Hok. destruct Hs as (E1 & E2 & E3 & E4 & E5 & E6 & E7).
    split; [| split_and!; congruence]. split.
    + split; [by rewrite E4 | | by intros _; apply Hok]. unfold mode_ok. rewrite E1, Ea. by apply (text_same t d).
    + intros _ y x Hy Hx. rewrite E2. by apply Hcells.
    + by intros _.
Qed.

(** Rendering the whole window; [regs_fresh] is the state [vga_init] starts from. *)
Lemma render_step t d :
  grid_ok t → cursor_in t → 0 ≤ update_depth d ≤ U32MAX → mode_ok t d → (active (fb d) = false → regs_ok d ∨ regs_fresh t d) →
  ∃ d', render_view t d = Ret d' ∧ dev_ok t d' ∧ same_mode d d'.
Proof.
  intros Hg Hc Hdep Hmode Hregs. unfold mode_ok in Hmode. destruct (active (fb d)) eqn:Ea.
  - destruct (render_view_fb t d Hg Hc Hmode) as (d' & -> & Hd' & Hs & _). exists d'. split; [done |]. pose proof (fs_active _ _ Hs) as Ea'. rewrite Ea in Ea'.
    split; [| by apply fb_same_mode]. split; [split; [by rewrite (fs_depth _ _ Hs) | unfold mode_ok; by rewrite Ea' | congruence] | unfold cells_shown; congruence | unfold cursor_synced; congruence].
  - unfold render_view. assert (forget_cursor d = d) as -> by (unfold forget_cursor; by rewrite Ea).
    destruct (render_rows_text t d Hg Hmode) as (m & -> & Hl & Hm). mred. unfold fb_clear_unused_margins. change (fb (d <| vga_memory := m |>)) with (fb d). rewrite Ea. cbn [negb orb]. mred.
    cbn [pit_ticks]. set (d1 := fb_dirty_reset _). rewrite (hw_cursor_text t d1) by exact Ea. mred.
    pose proof (cursor_text_same t d1) as (E1 & E2 & E3 & E4 & E5 & E6 & E7). destruct (text_cursor_in t d Hmode Hc) as [Hr Hk].
    assert (Ht1 : text_dev t d1) by (destruct Hmode; split; [done | done | change (alen m = VGA_LEGACY_ROWS * VGA_LEGACY_COLS); congruence]).
    pose proof (cursor_text_ok t d1 Hr Hk (Hregs eq_refl)) as Hok. set (d2 := cursor_text t d1) in *.
    assert (fb_copy_shadow_to_hw d2 = Ret d2) as ->.
    { unfold fb_copy_shadow_to_hw. rewrite E1. change (fb d1) with (fb d). rewrite Ea. cbn [negb orb]. by destruct (shadow_pixels (fb d)) as [[]|]. }
    exists d2. split; [done |]. split; [| split_and!; [rewrite E1; done | by rewrite E4 | by rewrite E5]]. split.
    + split; [rewrite E4; done | unfold mode_ok; rewrite E1; change (fb d1) with (fb d); rewrite Ea; by apply (text_same t d1) | by intros _; apply Hok].
    + intros _ y x Hy Hx. rewrite E2. change (vga_memory d1) with m. exists (color t). split; [apply Hg | by apply Hm].
    + by intros _.
Qed.

(** ** Storing a cell *)

Lemma cell_at_put t a y x v :
  grid_ok t → 0 ≤ y < term_rows t →
  painted (term_cols t) (boot_screen_cells t) (λ X Y, if (X =? x) && (Y =? phys t y) then Some v else None) a →
  ∀ Y X, 0 ≤ Y < term_rows t → 0 ≤ X < term_cols t → cell_at (recells t a) Y X = if (X =? x) && (Y =? y) then v else cell_at t Y X.
Proof.
  intros Hg Hy Pa Y X HY HX. unfold cell_at. change (phys (recells t a) Y) with (phys t Y). change (boot_screen_cells (recells t a)) with a. change (term_cols (recells t a)) with (term_cols t).
  rewrite (proj2 Pa) by done. destruct (X =? x); [| done]. cbn [andb]. destruct (Z.eqb_spec (phys t Y) (phys t y)) as [E|E].
  - apply phys_inj in E as ->; [by rewrite Z.eqb_refl | done | done | done].
  - destruct (Z.eqb_spec Y y) as [->|]; done.
Qed.

Lemma window_live t y x : viewport_offset t = 0 → 0 ≤ y → window t y x = cell_at t y x.
Proof. intros Hv Hy. unfold window. rewrite Hv. bfalse (scrollback_count t - 0 + y <? scrollback_count t). f_equal. lia. Qed.

Lemma set_step t d y x c :
  grid_ok t → viewport_offset t = 0 → dev_base t d → cells_shown t d → 0 ≤ y < term_rows t → 0 ≤ x < term_cols t →
  ∃ a d', live_set_cell t d y x c = Ret (recells t a, d') ∧ grid_ok (recells t a) ∧ dev_base (recells t a) d' ∧ cells_shown (recells t a) d' ∧ same_mode d d' ∧
    (∀ Y X, 0 ≤ Y < term_rows t → 0 ≤ X < term_cols t → cell_at (recells t a) Y X = if (X =? x) && (Y =? y) then sanitize (color t) c else cell_at t Y X).
Proof.
  intros Hg Hv [Hdep Hmode Hregs] Hcells Hy Hx. unfold live_set_cell. rewrite rows_ok, cols_ok by done. bfalse (term_rows t <=? y). bfalse (term_cols t <=? x). cbn [orb].
  rewrite screen_ok, live_index by done. rewrite awr_ok by (by apply live_inside). mred. unfold set_screen. rewrite (go_ptr t Hg). mred.
  set (a := aset _ _ _). change (t <| boot_screen_cells := a |>) with (recells t a).
  assert (Pa : painted (term_cols t) (boot_screen_cells t) (λ X Y, if (X =? x) && (Y =? phys t y) then Some (sanitize (color t) c) else None) a) by (by apply (painted_aset _ _ x (phys t y))).
  pose proof (cell_at_put t a y x (sanitize (color t) c) Hg Hy Pa) as Hput. pose proof (recells_ok t a Hg (proj1 Pa)) as Hg'. unfold mode_ok in Hmode.
  destruct (active (fb d)) eqn:Ea.
  - destruct (mark_row_fb (recells t a) d y Hg' Hmode Hy) as (d1 & -> & Hd1 & Hs1 & _). mred. pose proof (fs_active _ _ Hs1) as Ea1. rewrite Ea in Ea1.
    exists a, (d1 <| cursor_update_pending := true |>). split; [done |]. split; [done |].
    split; [split; [by rewrite <- (fs_depth _ _ Hs1) in Hdep | unfold mode_ok; change (fb (d1 <| cursor_update_pending := true |>)) with (fb d1); rewrite Ea1; by destruct Hd1 as [[] ? ? ?] |
                    change (active (fb d1) = false → regs_ok (d1 <| cursor_update_pending := true |>)); congruence] |].
    split; [unfold cells_shown; change (active (fb (d1 <| cursor_update_pending := true |>))) with (active (fb d1)); congruence |].
    split; [| done]. apply (same_mode_trans d d1); [by apply fb_same_mode | done].
  - change (viewport_offset (recells t a)) with (viewport_offset t). rewrite Hv. cbn [Z.eqb]. destruct (td_grid t d Hmode) as [Hr Hc]. unfold VGA_LEGACY_ROWS, VGA_LEGACY_COLS in *.
    assert (Ht' : text_dev (recells t a) d) by (by destruct Hmode). destruct (hw_set_text (recells t a) d y x (sanitize_cell t c) Ht') as (m & -> & Pm); [lia | lia |]. mred.
    exists a, (d <| vga_memory := m |>). split; [done |]. split; [done |].
    split; [split; [done | unfold mode_ok; change (fb (d <| vga_memory := m |>)) with (fb d); rewrite Ea; by apply text_dev_memory; [| apply Pm] | intros _; exact (Hregs eq_refl)] |].
    split; [| split; [done | done]]. intros _ Y X HY HX. change (vga_memory (d <| vga_memory := m |>)) with m. rewrite (proj2 Pm) by done.
    rewrite window_live by (done || lia). rewrite Hput by lia. destruct ((X =? x) && (Y =? y)); cbn [default].
    + exists (color t). split; [apply Hg |]. change (color (recells t a)) with (color t). unfold sanitize_cell, current_attr. done.
    + rewrite <- (window_live t) by (done || lia). by apply Hcells.
Qed.

(** ** The terminal an operation works on *)

Record screen := mk_screen {
  s_rows : Z;
  s_cols : Z;
  s_lines : list (list Z);
  s_past : list (list Z);
  s_keep : Z;
  s_row : Z;
  s_col : Z;
  s_attr : Z;
  s_view : Z;
}.

#[global] Instance screen_fields : Fields screen :=
  λ s, mk_screen (s_rows s) (s_cols s) (s_lines s) (s_past s) (s_keep s) (s_row s) (s_col s) (s_attr s) (s_view s).

Definition screen_of t : screen :=
  mk_screen (term_rows t) (term_cols t) (lines t) (past t) (scrollback_capacity t) (row t) (col t) (color t) (viewport_offset t).

Definition blank_line (s : screen) : list Z := replicate (Z.to_nat (s_cols s)) (attr_cell (s_attr s) 32).

(** The first line goes into the history, a blank line comes in below. *)
Definition scrolled (s : screen) : screen :=
  s <| s_lines := drop 1 (s_lines s) ++ [blank_line s] |>
    <| s_past := push (s_keep s) (s_past s) (sanitize (s_attr s) <$> default [] (head (s_lines s))) |>
    <| s_row := s_rows s - 1 |>.

(** What an operation never touches. *)
Definition keeps t t' : Prop :=
  heap t' = heap t ∧ fst <$> scrollback_cells t' = fst <$> scrollback_cells t ∧ resize_scratch_cells t' = resize_scratch_cells t ∧
  resize_scratch_capacity t' = resize_scratch_capacity t ∧ pages t' = pages t ∧ logged t' = logged t.

Lemma keeps_trans t t1 t2 : keeps t t1 → keeps t1 t2 → keeps t t2.
Proof. unfold keeps. intros (? & ? & ? & ? & ? & ?) (? & ? & ? & ? & ? & ?). split_and!; congruence. Qed.

(** ** Scrolling *)

Lemma phys_next t y : grid_ok t → 0 ≤ y < term_rows t →
  phys (t <| screen_row_start := (screen_row_start t + 1) mod term_rows t |>) y = if y =? term_rows t - 1 then phys t 0 else phys t (y + 1).
Proof.
  intros Hg Hy. pose proof (go_start t Hg). unfold phys. change (term_rows (t <| screen_row_start := ?v |>)) with (term_rows t).
  change (screen_row_start (t <| screen_row_start := ?v |>)) with v. assert ((screen_row_start t + 1) mod term_rows t = if screen_row_start t + 1 =? term_rows t then 0 else screen_row_start t + 1) as ->.
  { destruct (Z.eqb_spec (screen_row_start t + 1) (term_rows t)) as [E|E]; [rewrite E; apply Z.mod_same; lia | apply Z.mod_small; lia]. }
  destruct (Z.eqb_spec (screen_row_start t + 1) (term_rows t)), (Z.eqb_spec y (term_rows t - 1)); repeat case_match; lia.
Qed.

(** The copy of the top row. *)
Lemma top_line t d n : grid_ok t → 0 ≤ n ≤ term_cols t →
  ∃ top, for_n (Z.to_nat n) 0 (λ x top, c ← live_get_cell t d 0 x; wr top x c) (replicate (Z.to_nat VGA_MAX_COLS) 0) = Ret top ∧ zlen top = VGA_MAX_COLS ∧
    take (Z.to_nat n) top = (λ x, sanitize (color t) (cell_at t 0 x)) <$> seqZ 0 n.
Proof.
  intros Hg Hn. pose proof (go_rows t Hg). pose proof (go_cols t Hg).
  destruct (for_n_inv (λ i (top : list Z), zlen top = VGA_MAX_COLS ∧ take (Z.to_nat i) top = (λ x, sanitize (color t) (cell_at t 0 x)) <$> seqZ 0 i)
              (λ x top, c ← live_get_cell t d 0 x; wr top x c) (Z.to_nat n) 0 (replicate (Z.to_nat VGA_MAX_COLS) 0)) as (top & E & Hl & Ht).
  - done.
  - intros i top Hi [Hl Ht]. rewrite live_get by (done || lia). mred. assert (0 ≤ i < zlen top) as Hi' by (rewrite Hl; unfold VGA_MAX_COLS; lia).
    rewrite wr_inbounds by done. eexists. split; [done |]. split; [rewrite zlen_insert; done |].
    replace (Z.to_nat (i + 1)) with (S (Z.to_nat i)) by lia. rewrite (take_S_r _ _ (sanitize (color t) (cell_at t 0 i))) by (apply list_lookup_insert_eq; unfold zlen in Hi'; lia).
    rewrite take_insert_ge by lia. rewrite Ht, seqZ_app, fmap_app by lia. cbn. by rewrite Z.add_0_l.
  - rewrite Z.add_0_l, Z2Nat.id in Ht by lia. by exists top.
Qed.

(** The bottom row becomes blank. *)
Lemma blank_bottom t d c : grid_ok t →
  ∃ a, for_n (Z.to_nat (term_cols t)) 0 (λ x '(t, d), live_store_cell t d (text_rows t - 1) x c) (t, d) = Ret (recells t a, d) ∧ grid_ok (recells t a) ∧
    ∀ Y X, 0 ≤ Y < term_rows t → 0 ≤ X < term_cols t → cell_at (recells t a) Y X = if Y =? term_rows t - 1 then sanitize (color t) c else cell_at t Y X.
Proof.
  intros Hg. pose proof (go_rows t Hg). pose proof (go_cols t Hg).
  destruct (for_n_inv (λ i (s : term H P * dev), ∃ a, s = (recells t a, d) ∧ grid_ok (recells t a) ∧
      ∀ Y X, 0 ≤ Y < term_rows t → 0 ≤ X < term_cols t → cell_at (recells t a) Y X = if (X <? i) && (Y =? term_rows t - 1) then sanitize (color t) c else cell_at t Y X)
      (λ x '(t, d), live_store_cell t d (text_rows t - 1) x c) (Z.to_nat (term_cols t)) 0 (t, d)) as (s & E & a & -> & Ha & Hc).
  - exists (boot_screen_cells t). rewrite recells_same. split_and!; try done. intros Y X HY HX. by bfalse (X <? 0).
  - intros i s Hi (a & -> & Ha & Hc). rewrite (rows_ok _ Ha). change (term_rows (recells t a)) with (term_rows t).
    destruct (live_store (recells t a) d (term_rows t - 1) i c Ha) as (a' & E & Pa); [change (0 ≤ term_rows t - 1 < term_rows t); lia | change (0 ≤ i < term_cols t); lia |].
    rewrite E. eexists. split; [done |]. exists a'. split; [done |]. pose proof (recells_ok _ _ Ha (proj1 Pa)) as Ha'. split; [done |]. intros Y X HY HX.
    change (recells t a') with (recells (recells t a) a'). rewrite (cell_at_put (recells t a) a' (term_rows t - 1) i _ Ha ltac:(change (0 ≤ term_rows t - 1 < term_rows t); lia) Pa Y X HY HX), Hc by done.
    destruct (Z.eqb_spec X i), (Z.ltb_spec X i), (Z.ltb_spec X (i + 1)), (Z.eqb_spec Y (term_rows t - 1)); try lia; done.
  - exists a. split; [done |]. split; [done |]. intros Y X HY HX. rewrite Hc by done. by btrue (X <? 0 + Z.of_nat (Z.to_nat (term_cols t))).
Qed.

(** The lines after a scroll; [t1] is the terminal with the history extended. *)
Lemma scroll_lines t s k sc a :
  let t1 := t <| scrollback_start := s |> <| scrollback_count := k |> <| scrollback_cells := sc |> in
  let t2 := t1 <| screen_row_start := (screen_row_start t + 1) mod term_rows t |> in
  grid_ok t1 →
  (∀ Y X, 0 ≤ Y < term_rows t → 0 ≤ X < term_cols t → cell_at (recells t2 a) Y X = if Y =? term_rows t - 1 then blank_cell t else cell_at t2 Y X) →
  lines (recells t2 a) = drop 1 (lines t) ++ [replicate (Z.to_nat (term_cols t)) (blank_cell t)].
Proof.
  intros t1 t2 Hg1 Hc. pose proof (go_rows t1 Hg1) as Hr. change (term_rows t1) with (term_rows t) in Hr. unfold lines. change (term_rows (recells t2 a)) with (term_rows t). change (term_cols (recells t2 a)) with (term_cols t).
  rewrite <- const_row. rewrite <- (grid_shift (term_rows t) (term_cols t) (cell_at t) (λ _, blank_cell t)) by lia. apply grid_ext. intros y x Hy Hx. rewrite Hc by done.
  destruct (Z.eqb_spec y (term_rows t - 1)) as [|Hl]; [done |]. unfold cell_at.
  change (phys t2 y) with (phys (t1 <| screen_row_start := (screen_row_start t1 + 1) mod term_rows t1 |>) y). rewrite (phys_next t1 y Hg1 Hy). change (term_rows t1) with (term_rows t). by bfalse (y =? term_rows t - 1).
Qed.

Lemma head_lines t : grid_ok t → default [] (head (lines t)) = cell_at t 0 <$> seqZ 0 (term_cols t).
Proof. intros Hg. pose proof (go_rows t Hg). rewrite head_lookup. unfold lines. rewrite grid_lookup. rewrite decide_True by lia. done. Qed.

(** The framebuffer's part of a scroll: it only notes what to draw. *)
Lemma scroll_device t d :
  grid_ok t → cursor_in t → fb_dev d →
  ∃ d', (d ← fb_mark_dirty_row t (if fb_pending_scroll_rows d <? text_rows t then d <| fb_pending_scroll_rows := fb_pending_scroll_rows d + 1 |> else fb_mark_dirty_all t d)
              (text_rows t - 1);
         let d := d <| cursor_update_pending := true |> in
         d ← (if update_depth d =? 0 then fb_present_dirty t d false else Ret d);
         Ret (t, d)) = Ret (t, d') ∧ fb_dev d' ∧ fb_same d d'.
Proof.
  intros Hg Hc Hd. pose proof (go_rows t Hg). rewrite rows_ok by done. set (d1 := if _ <? _ then _ else fb_mark_dirty_all t d).
  assert (fb_dev d1 ∧ fb_same d d1) as [Hd1 Hs1].
  { pose proof (fd_scroll _ Hd). unfold d1, fb_mark_dirty_all. rewrite (fo_active _ (fd_ok _ Hd)). cbn [negb]. destruct Hd as [[] ? ? ?]. case_match; split; try done; split; try done; cbn; lia. }
  destruct (mark_row_fb t d1 (term_rows t - 1) Hg Hd1) as (d2 & -> & Hd2 & Hs2 & _); [lia |]. mred.
  set (d3 := d2 <| cursor_update_pending := true |>). assert (Hd3 : fb_dev d3) by (destruct Hd2 as [[] ? ? ?]; done). assert (Hs3 : fb_same d d3) by (by apply (fb_same_trans d d1), (fb_same_trans d1 d2)).
  case_match; [| by exists d3]. destruct (present_fb t d3 false Hg Hc Hd3) as (d4 & -> & Hd4 & Hs4). mred. exists d4. split; [done |]. split; [done |]. by apply (fb_same_trans d d3).
Qed.

(** Staying in framebuffer mode is enough there. *)
Lemma fb_stays t d d' : 0 ≤ update_depth d ≤ U32MAX → fb_dev d → fb_dev d' → fb_same d d' → dev_base t d' ∧ cells_shown t d' ∧ same_mode d d'.
Proof.
  intros Hdep Hd Hd' Hs. pose proof (fo_active _ (fd_ok _ Hd')) as Ea. split; [split; [by rewrite (fs_depth _ _ Hs) | unfold mode_ok; by rewrite Ea | congruence] |].
  split; [unfold cells_shown; congruence | by apply fb_same_mode].
Qed.

Lemma scroll_step t d :
  grid_ok t → viewport_offset t = 0 → 0 ≤ col t < term_cols t → dev_base t d →
  ∃ t' d', scroll_live_one t d = Ret (t', d') ∧ grid_ok t' ∧ cursor_in t' ∧ dev_base t' d' ∧ cells_shown t' d' ∧ same_mode d d' ∧ keeps t t' ∧ screen_of t' = scrolled (screen_of t).
Proof.
  intros Hg Hv Hcol [Hdep Hmode Hregs]. unfold scroll_live_one. rewrite Hv. cbn [Z.eqb andb]. cbv zeta.
  assert (∃ d0, (if active (fb d) then fb_redraw_cursor_cell t d else Ret d) = Ret d0 ∧ (if active (fb d) then fb_dev d0 ∧ fb_same d d0 else d0 = d)) as (d0 & -> & HA).
  { unfold mode_ok in Hmode. destruct (active (fb d)); [| by exists d]. destruct (redraw_cursor_spec t d Hg Hmode) as (d0 & -> & ? & ? & _). by exists d0. }
  mred. rewrite (cols_ok t Hg). destruct (top_line t d0 (term_cols t) Hg) as (top & -> & Hl & Htop); [pose proof (go_cols t Hg); lia |]. mred.
  destruct (history_push_spec t top Hg) as (t1 & s & k & sc & -> & E1 & Hg1 & Hpast & Hsc); [rewrite Hl; apply (go_cols t Hg) |]. mred.
  rewrite (screen_ok t1 Hg1), (rows_ok t1 Hg1). pose proof (go_rows t1 Hg1) as Hr. btrue (1 <? term_rows t1). mred.
  set (t2 := t1 <| screen_row_start := (screen_row_start t1 + 1) mod term_rows t1 |>).
  assert (Hg2 : grid_ok t2). { destruct Hg1. split; try done. apply Z.mod_pos_bound. change (0 < term_rows t1). lia. }
  rewrite (cols_ok t2 Hg2). destruct (blank_bottom t2 d0 (blank_cell t2) Hg2) as (a & -> & Hg3 & Hc3). mred. rewrite (rows_ok _ Hg3).
  rewrite (sanitize_blank t2 Hg2) in Hc3. set (t4 := (recells t2 a) <| row := term_rows (recells t2 a) - 1 |>).
  assert (Hg4 : grid_ok t4) by (by destruct Hg3). assert (Hin : cursor_in t4). { split; [change (0 ≤ term_rows t2 - 1 < term_rows t2); destruct Hg2; lia | subst t2 t1; exact Hcol]. }
  assert (Hscr : screen_of t4 = scrolled (screen_of t)).
  { unfold scrolled, blank_line. cbn [screen_of s_lines s_cols s_attr s_rows s_keep s_past]. rewrite head_lines by done.
    assert (El : lines t4 = drop 1 (lines t) ++ [replicate (Z.to_nat (term_cols t)) (attr_cell (color t) 32)]) by (subst t1; by apply (scroll_lines t s k sc a)).
    assert (Ep : past t4 = push (scrollback_capacity t) (past t) (sanitize (color t) <$> (cell_at t 0 <$> seqZ 0 (term_cols t)))).
    { change (past t4) with (past t1). rewrite Hpast, Htop, <- !list_fmap_compose. f_equal. apply list_fmap_ext. intros i x _. cbn. by rewrite sanitize_idem by apply Hg. }
    unfold screen_of at 1. rewrite El, Ep. by subst t1. }
  assert (Hk : keeps t t4) by (subst t1; unfold keeps; split_and!; done).
  assert (Ea : active (fb d0) = active (fb d)) by (destruct (active (fb d)) eqn:E; [destruct HA as [_ Hs]; by rewrite (fs_active _ _ Hs) | by rewrite HA]).
  rewrite Ea. unfold mode_ok in Hmode. destruct (active (fb d)) eqn:E.
  - destruct HA as [Hd0 Hs0]. destruct (scroll_device t4 d0 Hg4 Hin Hd0) as (d' & E' & Hd' & Hs'). cbv zeta in E'. rewrite E'.
    exists t4, d'. destruct (fb_stays t4 d d' Hdep Hmode Hd' (fb_same_trans _ _ _ Hs0 Hs')) as (? & ? & ?). done.
  - subst d0. destruct (render_step t4 d Hg4 Hin Hdep) as (d' & -> & [] & Hs); [unfold mode_ok; rewrite E; subst t1; by destruct Hmode | auto |]. mred. by exists t4, d'.
Qed.

(** ** The operations *)

(** The driver's blocks are live and distinct. *)
Definition memory_ok t : Prop :=
  (∀ p, fst <$> scrollback_cells t = Some p ∨ fst <$> resize_scratch_cells t = Some p → p ≠ 0 ∧ is_Some (blocks (heap t) !! p)) ∧
  (∀ p q, fst <$> scrollback_cells t = Some p → fst <$> resize_scratch_cells t = Some q → p ≠ q) ∧
  (∀ q b, resize_scratch_cells t = Some (q, b) → alen b = resize_scratch_capacity t).

Record vga_ok t d : Prop := {
  vo_grid : grid_ok t;
  vo_cursor : cursor_in t;
  vo_memory : memory_ok t;
  vo_dev : dev_ok t d;
}.

Lemma keeps_memory t t' : keeps t t' → memory_ok t → memory_ok t'.
Proof. unfold keeps, memory_ok. intros (-> & -> & -> & -> & _) Hm. done. Qed.

(** An operation returns, keeps the invariant and makes the terminal [s]. *)
Definition becomes t d (r : res (term H P * dev)) (s : screen) : Prop :=
  ∃ t' d', r = Ret (t', d') ∧ vga_ok t' d' ∧ same_mode d d' ∧ keeps t t' ∧ screen_of t' = s.

(** Half way: the cursor of the device may lag behind. *)
Record halfway t d t' d' : Prop := {
  hw_grid : grid_ok t';
  hw_base : dev_base t' d';
  hw_cells : cells_shown t' d';
  hw_mode : same_mode d d';
  hw_keeps : keeps t t';
}.

Lemma halfway_refl t d : vga_ok t d → halfway t d t d.
Proof. intros [? ? ? []]. by split. Qed.

Lemma finish t d t' d' s :
  memory_ok t → halfway t d t' d' → cursor_in t' → screen_of t' = s → becomes t d (d ← hw_cursor_update t' d'; Ret (t', d)) s.
Proof.
  intros Hm [Hg Hb Hc Hs Hk] Hin Es. destruct (cursor_step t' d' Hg Hin Hb Hc) as (d2 & -> & Hd & Hs2). mred. exists t', d2.
  split_and!; [done | split; [done | done | by apply (keeps_memory t) | done] | by apply (same_mode_trans d d') | done | done].
Qed.

(** Fields of the terminal that neither the grid nor the display depend on. *)
Lemma halfway_cursor t d t' d' r c : halfway t d t' d' → halfway t d (t' <| row := r |> <| col := c |>) d'.
Proof. intros [[] [] ? ? ?]. split; [done | split; try done | done | done | done]. unfold mode_ok in *. by destruct (active (fb d')); [| destruct db_mode0]. Qed.

Lemma live_view t d :
  vga_ok t d → ∃ t' d', ensure_live_view t d = Ret (t', d') ∧ halfway t d t' d' ∧ cursor_in t' ∧ viewport_offset t' = 0 ∧ screen_of t' = (screen_of t) <| s_view := 0 |>.
Proof.
  intros Hok. pose proof Hok as [Hg Hc Hm [[Hdep Hmode Hregs] Hcells Hcur]]. unfold ensure_live_view. destruct (Z.eqb_spec (viewport_offset t) 0) as [E|E]; cbn [negb].
  - exists t, d. split_and!; [done | by apply halfway_refl | done | done |]. unfold screen_of. cbn. by rewrite E.
  - set (t1 := t <| viewport_offset := 0 |>). assert (Hg1 : grid_ok t1) by (pose proof (hist_count t Hg); destruct Hg; split; try done; cbn; lia).
    destruct (render_step t1 d Hg1 Hc Hdep) as (d' & -> & [] & Hs); [unfold mode_ok in *; by destruct (active (fb d)); [| destruct Hmode] | auto |]. mred.
    exists t1, d'. split_and!; done.
Qed.

Lemma clamp_in t : grid_ok t → cursor_in t → clamp_cursor t = t.
Proof.
  intros Hg [Hr Hc]. unfold clamp_cursor. rewrite rows_ok by done. bfalse (term_rows t <=? row t). rewrite cols_ok by done. by bfalse (term_cols t <=? col t).
Qed.

Definition newline (s : screen) : screen :=
  let s := s <| s_col := 0 |> in if s_row s + 1 <? s_rows s then s <| s_row := s_row s + 1 |> else scrolled s.

Lemma next_line t d t' d' :
  halfway t d t' d' → viewport_offset t' = 0 → 0 ≤ row t' < term_rows t' →
  ∃ t2 d2, scroll_if_needed (t' <| col := 0 |> <| row := row t' + 1 |>) d' = Ret (t2, d2) ∧ halfway t d t2 d2 ∧ cursor_in t2 ∧ screen_of t2 = newline (screen_of t').
Proof.
  intros Hh Hv Hr. pose proof (halfway_cursor t d t' d' (row t' + 1) 0 Hh) as Hh1. set (t1 := t' <| col := 0 |> <| row := row t' + 1 |>).
  change (t' <| row := row t' + 1 |> <| col := 0 |>) with t1 in Hh1. pose proof (hw_grid _ _ _ _ Hh1) as Hg1. pose proof (go_cols t1 Hg1) as Hc. pose proof (go_rows t1 Hg1) as Hr1.
  unfold scroll_if_needed. cbn [scroll_loop]. rewrite (rows_ok t1 Hg1). unfold newline. cbn [s_row s_rows s_col set_field screen_of]. cbn zeta. change (row t1) with (row t' + 1). change (term_rows t1) with (term_rows t') in *.
  change (term_cols t1) with (term_cols t') in *. cbn. destruct (Z.ltb_spec (row t' + 1) (term_rows t')) as [Hl|Hl].
  - exists t1, d'. split_and!; [done | done | split; [change (0 ≤ row t' + 1 < term_rows t'); lia | change (0 ≤ 0 < term_cols t'); lia] | done].
  - destruct (scroll_step t1 d' Hg1 Hv) as (t2 & d2 & -> & Hg2 & Hin & Hb & Hcs & Hs & Hk & Es); [change (0 ≤ 0 < term_cols t'); lia | apply Hh1 |]. mred.
    rewrite (rows_ok t2 Hg2). destruct Hin as [Hrow ?]. btrue (row t2 <? term_rows t2). exists t2, d2. destruct Hh1.
    split_and!; [done | split; [done | done | done | by apply (same_mode_trans d d') | by apply (keeps_trans t t1)] | done |]. rewrite Es. done.
Qed.

Definition put_cell (s : screen) (c : Z) : screen := s <| s_lines := alter (<[Z.to_nat (s_col s) := c]>) (Z.to_nat (s_row s)) (s_lines s) |>.

Lemma put_step t d t' d' c :
  halfway t d t' d' → viewport_offset t' = 0 → cursor_in t' →
  ∃ t2 d2, live_set_cell t' d' (row t') (col t') c = Ret (t2, d2) ∧ halfway t d t2 d2 ∧ cursor_in t2 ∧ viewport_offset t2 = 0 ∧
    screen_of t2 = put_cell (screen_of t') (sanitize (color t') c).
Proof.
  intros [Hg Hb Hcs Hs Hk] Hv [Hr Hc]. destruct (set_step t' d' (row t') (col t') c Hg Hv Hb Hcs Hr Hc) as (a & d2 & -> & Hg2 & Hb2 & Hcs2 & Hs2 & Hput).
  exists (recells t' a), d2. split_and!; [done | split; [done | done | done | by apply (same_mode_trans d d') | done] | done | done |].
  assert (El : lines (recells t' a) = alter (<[Z.to_nat (col t') := sanitize (color t') c]>) (Z.to_nat (row t')) (lines t')).
  { unfold lines. rewrite <- grid_put by done. by apply grid_ext. }
  unfold put_cell, screen_of at 1. by rewrite El.
Qed.

(** [vga_putc] on a terminal. *)
Definition typed (s : screen) (c : Z) : screen :=
  let s := s <| s_view := 0 |> in
  if c =? 13 then s <| s_col := 0 |>
  else if c =? 10 then newline s
  else if c =? 8 then let s := s <| s_col := Z.max 0 (s_col s - 1) |> in put_cell s (attr_cell (s_attr s) 32)
  else let s := put_cell s (char_cell (s_attr s) c) in if s_col s + 1 <? s_cols s then s <| s_col := s_col s + 1 |> else newline s.

Lemma putc_step t d c : vga_ok t d → becomes t d (vga_putc t d c) (typed (screen_of t) c).
Proof.
  intros Hok. pose proof Hok as [_ _ Hm _]. unfold vga_putc. destruct (live_view t d Hok) as (t1 & d1 & -> & Hh & Hin & Hv & Es). mred. pose proof (hw_grid _ _ _ _ Hh) as Hg.
  rewrite (clamp_in t1 Hg Hin). unfold typed. rewrite <- Es. cbv zeta. pose proof Hin as [Hr Hc].
  destruct (c =? 13). { apply finish; [done | exact (halfway_cursor t d t1 d1 (row t1) 0 Hh) | split; [done |]; change (0 ≤ 0 < term_cols t1); lia | done]. }
  destruct (c =? 10). { destruct (next_line t d t1 d1 Hh Hv Hr) as (t2 & d2 & -> & Hh2 & Hin2 & Es2). mred. by apply finish. }
  destruct (c =? 8).
  - set (t2 := if 0 <? col t1 then t1 <| col := col t1 - 1 |> else t1). assert (E2 : t2 = t1 <| col := Z.max 0 (col t1 - 1) |>).
    { unfold t2. destruct (Z.ltb_spec 0 (col t1)); [by rewrite Z.max_r by lia |]. rewrite Z.max_l by lia. replace 0 with (col t1) by lia. by destruct t1. }
    rewrite E2. clear t2 E2. set (t2 := t1 <| col := Z.max 0 (col t1 - 1) |>). assert (Hin2 : cursor_in t2) by (split; [done | change (0 ≤ Z.max 0 (col t1 - 1) < term_cols t1); lia]).
    assert (Hh2 : halfway t d t2 d1) by exact (halfway_cursor t d t1 d1 (row t1) (Z.max 0 (col t1 - 1)) Hh). pose proof (hw_grid _ _ _ _ Hh2) as Hg2. rewrite (clamp_in t2 Hg2 Hin2).
    destruct (put_step t d t2 d1 (blank_cell t2) Hh2 Hv Hin2) as (t3 & d3 & -> & Hh3 & Hin3 & _ & Es3). mred. apply finish; [done | done | done |].
    rewrite Es3, (sanitize_blank t2 Hg2). done.
  - destruct (put_step t d t1 d1 (make_cell t1 c) Hh Hv Hin) as (t3 & d3 & -> & Hh3 & Hin3 & Hv3 & Es3). mred. unfold make_cell in Es3. unfold current_attr in Es3. rewrite sanitize_made in Es3 by apply Hg.
    change (s_attr (screen_of t1)) with (color t1). rewrite <- Es3. pose proof (hw_grid _ _ _ _ Hh3) as Hg3. pose proof Hin3 as [Hr3 Hc3]. change (s_col (screen_of t3)) with (col t3). change (s_cols (screen_of t3)) with (term_cols t3).
    set (t4 := t3 <| col := col t3 + 1 |>). assert (Hh4 : halfway t d t4 d3) by exact (halfway_cursor t d t3 d3 (row t3) (col t3 + 1) Hh3). rewrite (cols_ok t4 (hw_grid _ _ _ _ Hh4)).
    change (term_cols t4) with (term_cols t3). change (col t4) with (col t3 + 1). destruct (Z.leb_spec (term_cols t3) (col t3 + 1)) as [Hl|Hl].
    + bfalse (col t3 + 1 <? term_cols t3). destruct (next_line t d t3 d3 Hh3 Hv3 Hr3) as (t5 & d5 & E5 & Hh5 & Hin5 & Es5).
      change (t4 <| col := 0 |> <| row := row t4 + 1 |>) with (t3 <| col := 0 |> <| row := row t3 + 1 |>). rewrite E5. mred. by apply finish.
    + btrue (col t3 + 1 <? term_cols t3). mred. apply finish; [done | done | split; [done | change (0 ≤ col t3 + 1 < term_cols t3); lia] | done].
Qed.

Lemma move_step t d r c : vga_ok t d → 0 ≤ r → 0 ≤ c →
  becomes t d (vga_move_cursor t d r c) ((screen_of t) <| s_view := 0 |> <| s_row := Z.min r (term_rows t - 1) |> <| s_col := Z.min c (term_cols t - 1) |>).
Proof.
  intros Hok Hr Hc. pose proof Hok as [_ _ Hm _]. unfold vga_move_cursor. destruct (live_view t d Hok) as (t1 & d1 & -> & Hh & Hin & Hv & Es). mred. pose proof (hw_grid _ _ _ _ Hh) as Hg.
  pose proof (go_rows t1 Hg). pose proof (go_cols t1 Hg). rewrite rows_ok, cols_ok by done.
  assert ((if r <? term_rows t1 then r else term_rows t1 - 1) = Z.min r (term_rows t1 - 1)) as -> by (destruct (Z.ltb_spec r (term_rows t1)); lia).
  assert ((if c <? term_cols t1 then c else term_cols t1 - 1) = Z.min c (term_cols t1 - 1)) as -> by (destruct (Z.ltb_spec c (term_cols t1)); lia).
  apply finish; [done | by apply halfway_cursor | |].
  - split; [change (0 ≤ Z.min r (term_rows t1 - 1) < term_rows t1); lia | change (0 ≤ Z.min c (term_cols t1 - 1) < term_cols t1); lia].
  - rewrite <- Es. change (term_rows t) with (s_rows ((screen_of t) <| s_view := 0 |>)). change (term_cols t) with (s_cols ((screen_of t) <| s_view := 0 |>)). by rewrite <- Es.
Qed.

(** The rest of a line becomes blank. *)
Lemma clear_line_loop t d y from c :
  grid_ok t → viewport_offset t = 0 → dev_base t d → cells_shown t d → 0 ≤ y < term_rows t → 0 ≤ from < term_cols t →
  ∃ a d', for_n (Z.to_nat (term_cols t - from)) from (λ x '(t, d), live_set_cell t d y x c) (t, d) = Ret (recells t a, d') ∧
    grid_ok (recells t a) ∧ dev_base (recells t a) d' ∧ cells_shown (recells t a) d' ∧ same_mode d d' ∧
    ∀ Y X, 0 ≤ Y < term_rows t → 0 ≤ X < term_cols t → cell_at (recells t a) Y X = if (from <=? X) && (Y =? y) then sanitize (color t) c else cell_at t Y X.
Proof.
  intros Hg Hv Hb Hcs Hy Hf.
  destruct (for_n_inv (λ i (s : term H P * dev), ∃ a d', s = (recells t a, d') ∧ grid_ok (recells t a) ∧ dev_base (recells t a) d' ∧ cells_shown (recells t a) d' ∧ same_mode d d' ∧
      ∀ Y X, 0 ≤ Y < term_rows t → 0 ≤ X < term_cols t → cell_at (recells t a) Y X = if (from <=? X) && (X <? i) && (Y =? y) then sanitize (color t) c else cell_at t Y X)
      (λ x '(t, d), live_set_cell t d y x c) (Z.to_nat (term_cols t - from)) from (t, d)) as (s & E & a & d' & -> & Hg' & Hb' & Hcs' & Hs' & Hc').
  - exists (boot_screen_cells t), d. rewrite recells_same. split_and!; try done. intros Y X HY HX. destruct (Z.leb_spec from X); cbn [andb]; [| done]. by bfalse (X <? from).
  - intros i s Hi (a & d' & -> & Hg' & Hb' & Hcs' & Hs' & Hc').
    destruct (set_step (recells t a) d' y i c Hg' Hv Hb' Hcs' Hy) as (a2 & d2 & -> & Hg2 & Hb2 & Hcs2 & Hs2 & Hc2); [change (0 ≤ i < term_cols t); lia |].
    eexists. split; [done |]. exists a2, d2. change (recells (recells t a) a2) with (recells t a2) in *. split_and!; try done; [by apply (same_mode_trans d d') |].
    intros Y X HY HX. rewrite Hc2, Hc' by done. change (color (recells t a)) with (color t).
    destruct (Z.eqb_spec X i), (Z.ltb_spec X i), (Z.ltb_spec X (i + 1)), (Z.leb_spec from X), (Z.eqb_spec Y y); cbn [andb]; try lia; done.
  - exists a, d'. split_and!; try done. intros Y X HY HX. rewrite Hc' by done. btrue (X <? from + Z.of_nat (Z.to_nat (term_cols t - from))). by rewrite andb_true_r.
Qed.

Definition line_cleared (s : screen) : screen :=
  s <| s_lines := alter (λ l, take (Z.to_nat (s_col s)) l ++ replicate (Z.to_nat (s_cols s - s_col s)) (attr_cell (s_attr s) 32)) (Z.to_nat (s_row s)) (s_lines s) |>.

Lemma clear_line_step t d : vga_ok t d → becomes t d (vga_clear_line t d) (line_cleared ((screen_of t) <| s_view := 0 |>)).
Proof.
  intros Hok. pose proof Hok as [_ _ Hm _]. unfold vga_clear_line. destruct (live_view t d Hok) as (t1 & d1 & -> & Hh & Hin & Hv & Es). mred. pose proof Hh as [Hg Hb Hcs Hs Hk].
  rewrite (clamp_in t1 Hg Hin). unfold clear_live_line. rewrite rows_ok, cols_ok by done. pose proof Hin as [Hr Hc]. bfalse (term_rows t1 <=? row t1). bfalse (term_cols t1 <=? col t1). cbn [orb].
  destruct (clear_line_loop t1 d1 (row t1) (col t1) (blank_cell t1) Hg Hv Hb Hcs Hr Hc) as (a & d2 & -> & Hg2 & Hb2 & Hcs2 & Hs2 & Hc2). mred. rewrite (sanitize_blank t1 Hg) in Hc2.
  assert (El : lines (recells t1 a) = alter (λ l, take (Z.to_nat (col t1)) l ++ replicate (Z.to_nat (term_cols t1 - col t1)) (blank_cell t1)) (Z.to_nat (row t1)) (lines t1)).
  { unfold lines. rewrite <- grid_tail by done. by apply grid_ext. }
  apply finish; [done | split; [done | done | done | by apply (same_mode_trans d d1) | done] | done |]. rewrite <- Es. unfold line_cleared, screen_of at 1. by rewrite El.
Qed.

(** An operation that ends by drawing the window. *)
Lemma finish_render t d t' d' s :
  memory_ok t → keeps t t' → grid_ok t' → cursor_in t' → term_rows t' = term_rows t → term_cols t' = term_cols t → screen_of t' = s →
  0 ≤ update_depth d ≤ U32MAX → mode_ok t d → (active (fb d) = false → regs_ok d ∨ regs_fresh t' d) →
  (active (fb d) = false → d' = d) → (active (fb d) = true → fb_dev d' ∧ fb_same d d') →
  becomes t d (d ← render_view t' d'; Ret (t', d)) s.
Proof.
  intros Hm Hk Hg Hin Er Ec Es Hdep Hmode Hregs Ht Hf. unfold mode_ok in Hmode.
  assert (same_mode d d' ∧ 0 ≤ update_depth d' ≤ U32MAX ∧ mode_ok t' d' ∧ (active (fb d') = false → regs_ok d' ∨ regs_fresh t' d')) as (Hs & Hdep' & Hmode' & Hregs').
  { unfold mode_ok. destruct (active (fb d)) eqn:Ea.
    - destruct (Hf eq_refl) as [Hd' Hs']. rewrite (fo_active _ (fd_ok _ Hd')), (fs_depth _ _ Hs'). split_and!; [by apply fb_same_mode | by apply Hdep | by apply Hdep | done | done].
    - rewrite (Ht eq_refl), Ea. split_and!; [done | apply Hdep | apply Hdep | | auto]. destruct Hmode. split; [done | by rewrite Er, Ec | done]. }
  destruct (render_step t' d' Hg Hin Hdep' Hmode' Hregs') as (d2 & -> & Hd & Hs2). mred. exists t', d2.
  split_and!; [done | split; [done | done | by apply (keeps_memory t) | done] | by apply (same_mode_trans d d') | done | done].
Qed.

Lemma mark_all_fb t d : fb_dev d → fb_dev (fb_mark_dirty_all t d) ∧ fb_same d (fb_mark_dirty_all t d).
Proof. intros Hd. unfold fb_mark_dirty_all. rewrite (fo_active _ (fd_ok _ Hd)). destruct Hd as [[] ? ? ?]. done. Qed.

Lemma mark_all_text t d : active (fb d) = false → fb_mark_dirty_all t d = d.
Proof. intros Ha. unfold fb_mark_dirty_all. by rewrite Ha. Qed.

Lemma base_fb t d : dev_base t d → active (fb d) = true → fb_dev d.
Proof. intros [_ Hmode _] Ha. unfold mode_ok in Hmode. by rewrite Ha in Hmode. Qed.

Definition blanked (s : screen) : screen := s <| s_lines := replicate (Z.to_nat (s_rows s)) (blank_line s) |>.

Definition cleared (s : screen) : screen := blanked (s <| s_past := [] |> <| s_row := 0 |> <| s_col := 0 |> <| s_view := 0 |>).

Lemma clear_spec t d :
  grid_ok t → memory_ok t → 0 ≤ update_depth d ≤ U32MAX → mode_ok t d → (active (fb d) = false → regs_ok d ∨ regs_fresh (t <| viewport_offset := 0 |>) d) →
  becomes t d (vga_clear t d) (cleared (screen_of t)).
Proof.
  intros Hg Hm Hdep Hmode Hregs. unfold vga_clear. destruct (clear_scrollback_spec t Hg) as (sc & -> & Hg1 & Hsc). mred.
  set (t1 := t <| scrollback_start := 0 |> <| scrollback_count := 0 |> <| viewport_offset := 0 |> <| scrollback_cells := sc |>) in *.
  destruct (clear_live_screen_spec t1 d Hg1) as (a & -> & Hg2 & El). mred. pose proof (go_rows t Hg). pose proof (go_cols t Hg).
  set (t2 := recells (t1 <| screen_row_start := 0 |>) a) in *. apply finish_render; try done.
  - by destruct Hg2.
  - split; [change (0 ≤ 0 < term_rows t); lia | change (0 ≤ 0 < term_cols t); lia].
  - unfold cleared, blanked, blank_line, screen_of at 1. change (lines (t2 <| row := 0 |> <| col := 0 |>)) with (lines t2). rewrite El. done.
  - intros Ha. by apply mark_all_text.
  - intros Ha. apply mark_all_fb. unfold mode_ok in Hmode. by rewrite Ha in Hmode.
Qed.

Lemma clear_step t d : vga_ok t d → becomes t d (vga_clear t d) (cleared (screen_of t)).
Proof. intros [Hg _ Hm [[] _ _]]. apply clear_spec; auto. Qed.

Definition attr_of (fg bg : Z) : Z := Z.lor (Z.shiftl (Z.land bg 0xf) 4) (Z.land fg 0xf).

Lemma attr_of_range fg bg : 0 ≤ attr_of fg bg < 256.
Proof.
  unfold attr_of. change 0xf with (Z.ones 4). rewrite !Z.land_ones by lia. pose proof (Z.mod_pos_bound fg (2 ^ 4) ltac:(lia)). pose proof (Z.mod_pos_bound bg (2 ^ 4) ltac:(lia)).
  apply (lor_range 8); [lia | rewrite Z.shiftl_mul_pow2 by lia; lia | lia].
Qed.

Lemma set_color_grid t fg bg : grid_ok t → grid_ok (vga_set_color t fg bg).
Proof. intros []. split; try done. apply attr_of_range. Qed.

Lemma recolor_mode t d c : dev_ok t d → dev_ok (t <| color := c |>) d.
Proof. intros [[] ? ?]. split; [split; try done | done | done]. unfold mode_ok in *. destruct (active (fb d)); [done |]. by destruct db_mode0. Qed.

Lemma set_color_step t d fg bg : vga_ok t d → becomes t d (Ret (vga_set_color t fg bg, d)) ((screen_of t) <| s_attr := attr_of fg bg |>).
Proof. intros [Hg Hin Hm Hd]. exists (vga_set_color t fg bg), d. split_and!; try done. split; [by apply set_color_grid | done | done | by apply recolor_mode]. Qed.

Lemma fill_step t d fg bg : vga_ok t d →
  becomes t d (vga_fill_color t d fg bg) ((blanked ((screen_of t) <| s_attr := attr_of fg bg |>)) <| s_attr := color t |>).
Proof.
  intros [Hg Hin Hm [Hb _ _]]. unfold vga_fill_color. pose proof (set_color_grid t fg bg Hg) as Hg1. set (t1 := vga_set_color t fg bg) in *.
  destruct (clear_live_screen_spec t1 d Hg1) as (a & -> & Hg2 & El). mred. set (t2 := recells (t1 <| screen_row_start := 0 |>) a) in *.
  destruct (finish_render t d t2 (fb_mark_dirty_all t2 d) (screen_of t2) Hm) as (t3 & d3 & E & Hok & Hs & Hk & Es); try (done || apply Hb);
    [intros; left; by apply Hb | intros; by apply mark_all_text | intros; by apply mark_all_fb, (base_fb t) |].
  destruct (render_view t2 (fb_mark_dirty_all t2 d)) as [d4|]; [| done]. cbn in E. injection E as <- <-. mred.
  pose proof (recolor_mode t2 d4 (color t) (vo_dev _ _ Hok)) as [Hb4 Hcs4 _]. apply finish; [done | | done |].
  - split; [| done | done | done | done]. destruct Hg2. split; try done. apply Hg.
  - unfold blanked, blank_line, screen_of at 1. change (lines (t2 <| color := color t |>)) with (lines t2). rewrite El. done.
Qed.

(** ** New colours for everything *)

Lemma grid_map rows cols (f : Z → Z → Z) g : grid rows cols (λ y x, g (f y x)) = fmap (M:=list) g <$> grid rows cols f.
Proof. unfold grid. rewrite <- list_fmap_compose. apply list_fmap_ext. intros i y _. cbn. by rewrite <- list_fmap_compose. Qed.

Lemma char_cell_char attr c : char_cell attr c = attr_cell attr (if cell_char c =? 0 then 32 else cell_char c).
Proof.
  unfold char_cell. destruct (cell_char c =? 0); [done |]. unfold attr_cell. f_equal. unfold cell_char. by rewrite <- Z.land_assoc.
Qed.

Lemma recolor_char now attr c : 0 ≤ now < 256 → char_cell attr (sanitize now c) = char_cell attr c.
Proof. intros Hn. rewrite !char_cell_char. rewrite (proj1 (sanitize_parts now c Hn)). f_equal. by destruct (cell_char c =? 0) eqn:E; [| rewrite E]. Qed.

Lemma recolor_history_spec t attr :
  grid_ok t → ∃ sc, recolor_history t attr = Ret (t <| scrollback_cells := sc |>) ∧ grid_ok (t <| scrollback_cells := sc |>) ∧ fst <$> scrollback_cells t = fst <$> sc ∧
    past (t <| scrollback_cells := sc |>) = fmap (M:=list) (attr_cell attr) <$> past t.
Proof.
  intros Hg. unfold recolor_history. pose proof (go_hist t Hg) as Hh. unfold hist_ok in Hh. pose proof (go_cols t Hg). destruct (scrollback_cells t) as [[p a]|] eqn:E.
  2: { exists None. assert (t = t <| scrollback_cells := None |>) as <- by (destruct t; cbn in *; by subst). split_and!; try done. unfold past. destruct Hh as (_ & _ & _ & ->). done. }
  destruct Hh as (Hcap & Hst & Ha & Hs & Hk). rewrite Hst. bfalse (term_cols t =? 0).
  destruct (grid_loop (λ b : arr, b) (λ _, True) (term_cols t) (scrollback_capacity t) (term_cols t) (λ y, y) (λ y x, attr_cell attr (pix (term_cols t) a x y))
    (λ y x a, let idx := y * term_cols t + x in c ← ard a idx; awr a idx (recolor_cell c attr)) a) as (a' & E' & _ & HL & Hin & _); [lia | lia | done | | done |].
  - intros y x b Hy Hx _ Hb Hp. assert (0 ≤ y * term_cols t + x < alen b) by (rewrite Hb, Ha; nia). cbv zeta. rewrite ard_ok by done. mred. rewrite awr_ok by done. eexists. split; [done |]. split; [done |].
    apply (painted_aset _ _ x y); [lia | done |]. intros X Y HX. unfold pix in Hp. by rewrite Hp.
  - cbv beta in E'. cbv zeta in E'. rewrite E'. mred. exists (Some (p, a')). split; [done |]. split; [destruct Hg; split; try done; unfold hist_ok; cbn; split_and!; (done || lia) |]. split; [done |].
    unfold past. rewrite <- grid_map. apply grid_ext. intros y x Hy Hx. unfold hist_at. rewrite E. apply Hin; [apply Z.mod_pos_bound; lia | done].
Qed.

Definition recolored (s : screen) (attr : Z) : screen :=
  s <| s_attr := attr |> <| s_lines := fmap (M:=list) (char_cell attr) <$> s_lines s |> <| s_past := fmap (M:=list) (attr_cell attr) <$> s_past s |>.

Lemma recolor_step t d fg bg : vga_ok t d → becomes t d (vga_recolor t d fg bg) (recolored (screen_of t) (attr_of fg bg)).
Proof.
  intros [Hg Hin Hm [Hb _ _]]. unfold vga_recolor. pose proof (set_color_grid t fg bg Hg) as Hg1. set (t1 := vga_set_color t fg bg) in *. rewrite rows_ok, cols_ok by done. change (current_attr t1) with (attr_of fg bg).
  destruct (store_all t1 d (λ y x, char_cell (attr_of fg bg) (cell_at t y x)) (λ y x '(t, d), c ← live_get_cell t d y x; live_store_cell t d y x (recolor_cell c (attr_of fg bg))) Hg1) as (a & -> & Hg2 & Hc2).
  - intros y x t' Hy Hx Hg' Et Ec. rewrite live_get; [| done | rewrite Et; done | rewrite Et; done]. mred. eexists. split; [done |]. change (recolor_cell ?x ?y) with (attr_cell y x).
    change (color t1) with (attr_of fg bg). rewrite sanitize_made by apply attr_of_range. rewrite Ec. rewrite recolor_char by apply Hg'. done.
  - mred. destruct (recolor_history_spec (recells t1 a) (attr_of fg bg) Hg2) as (sc & -> & Hg3 & Hsc & Hp). mred. apply finish_render; try (done || apply Hb); [| intros; left; by apply Hb | intros Ha; split; [by apply (base_fb t) | done]].
    assert (El : lines ((recells t1 a) <| scrollback_cells := sc |>) = fmap (M:=list) (char_cell (attr_of fg bg)) <$> lines t) by (unfold lines; rewrite <- grid_map; by apply grid_ext).
    unfold recolored, screen_of at 1. by rewrite El, Hp.
Qed.

(** ** The view *)

(** The window [delta] lines further into the past. *)
Definition viewed (s : screen) (delta : Z) : screen :=
  s <| s_view := if 0 <=? delta then Z.min (Z.of_nat (length (s_past s))) (s_view s + delta) else Z.max 0 (s_view s + delta) |>.

Lemma past_length t : grid_ok t → Z.of_nat (length (past t)) = scrollback_count t.
Proof. intros Hg. pose proof (hist_count t Hg). unfold past. rewrite grid_length. lia. Qed.

Lemma max_offset_ok t : grid_ok t → scrollback_max_offset t = scrollback_count t.
Proof. intros Hg. pose proof (hist_count t Hg). unfold scrollback_max_offset. rewrite usable_ok by done. destruct (Z.ltb_spec 0 (scrollback_capacity t)); lia. Qed.

Lemma hist_small t : grid_ok t → scrollback_capacity t ≤ 1024.
Proof. intros Hg. pose proof (go_hist t Hg) as Hh. unfold hist_ok in Hh. destruct (scrollback_cells t) as [[]|]; lia. Qed.

Lemma scroll_view_step t d delta : vga_ok t d →
  ∃ t' d', vga_scroll_view t d delta = Ret (t', d', true) ∧ vga_ok t' d' ∧ same_mode d d' ∧ keeps t t' ∧ screen_of t' = viewed (screen_of t) delta.
Proof.
  intros [Hg Hin Hm Hd]. pose proof (go_view t Hg) as Hv. pose proof (hist_count t Hg). pose proof (hist_small t Hg). unfold vga_scroll_view, viewed. cbn [s_past s_view screen_of]. rewrite past_length, max_offset_ok by done.
  destruct (Z.eqb_spec delta 0) as [->|Hne].
  { exists t, d. split_and!; try done. unfold screen_of, set_field. cbn. f_equal. lia. }
  set (t1 := if 0 <? delta then _ else _).
  assert (t1 = t <| viewport_offset := if 0 <=? delta then Z.min (scrollback_count t) (viewport_offset t + delta) else Z.max 0 (viewport_offset t + delta) |>) as E.
  { unfold t1. destruct (Z.ltb_spec 0 delta).
    - btrue (0 <=? delta). cbv zeta. assert ((if scrollback_count t <? viewport_offset t + delta then scrollback_count t else viewport_offset t + delta) = Z.min (scrollback_count t) (viewport_offset t + delta)) as -> by (destruct (Z.ltb_spec (scrollback_count t) (viewport_offset t + delta)); lia).
      rewrite wrap_small by lia. done.
    - bfalse (0 <=? delta). cbv zeta. assert ((if - delta <? viewport_offset t then viewport_offset t - - delta else 0) = Z.max 0 (viewport_offset t + delta)) as -> by (destruct (Z.ltb_spec (- delta) (viewport_offset t)); lia). done. }
  rewrite E. clear t1 E. set (v := if 0 <=? delta then _ else _). assert (Hv' : 0 ≤ v ≤ scrollback_count t) by (unfold v; destruct (Z.leb_spec 0 delta); lia).
  destruct (finish_render t d (t <| viewport_offset := v |>) d ((screen_of t) <| s_view := v |>)) as (t' & d' & E & Hrest); try done.
  - by destruct Hg.
  - apply Hd.
  - apply Hd.
  - intros Ha. left. by apply Hd.
  - intros Ha. split; [apply (base_fb t); [apply Hd | done] | done].
  - destruct (render_view (t <| viewport_offset := v |>) d) as [d2|]; [| done]. cbn in E. injection E as <- <-. mred. by eexists _, _.
Qed.

(** ** The cursor and batches of updates *)

Lemma hide_text d : regs_ok d → cursor_visible_requested d = false →
  let d' := (outb (outb d 0x3d4 0x0a) 0x3d5 0x20) <| hw_cursor_is_visible := false |> in regs_ok d' ∧ hw_off d' = true.
Proof.
  intros [_ Hp] _. cbv zeta. unfold regs_ok, hw_off, hw_position. change (hw_cursor_last_pos ((outb (outb d 0x3d4 0x0a) 0x3d5 0x20) <| hw_cursor_is_visible := false |>)) with (hw_cursor_last_pos d).
  change (hw_cursor_is_visible (?x <| hw_cursor_is_visible := false |>)) with false. change (ports (?x <| hw_cursor_is_visible := false |>)) with (ports x). rewrite !crtc_write. cbn [Z.eqb]. unfold hw_position in Hp. done.
Qed.

Lemma visible_step t d b : vga_ok t d →
  ∃ d', vga_set_cursor_visible t d b = Ret d' ∧ vga_ok t d' ∧ active (fb d') = active (fb d) ∧ update_depth d' = update_depth d ∧ cursor_visible_requested d' = b.
Proof.
  intros [Hg Hin Hm [[Hdep Hmode Hregs] Hcs Hcur]]. unfold vga_set_cursor_visible. set (d1 := d <| cursor_visible_requested := b |>).
  assert (Hb1 : dev_base t d1). { split; [done | | done]. unfold mode_ok in *. change (fb d1) with (fb d). by destruct (active (fb d)); [destruct Hmode as [[] ? ? ?] | destruct Hmode]. }
  destruct b. { destruct (cursor_step t d1 Hg Hin Hb1 Hcs) as (d' & -> & Hd' & (? & ? & ?)). exists d'. done. }
  unfold hw_cursor_hide. unfold mode_ok in Hmode. change (active (fb d1)) with (active (fb d)). destruct (active (fb d)) eqn:Ea.
  - destruct (redraw_cursor_spec t d1 Hg) as (d' & -> & Hd' & Hs' & _); [by apply (base_fb t) |]. exists d'. destruct (fb_stays t d1 d' Hdep (base_fb t d1 Hb1 Ea) Hd' Hs') as (? & ? & ? & ? & ?).
    assert (active (fb d') = true) by (by rewrite <- Ea). split_and!; try done. split; try done. split; try done. unfold cursor_synced. congruence.
  - destruct (Hcur Ea) as (_ & Hpend & _). change (hw_cursor_is_visible d1) with (hw_cursor_is_visible d). destruct (hw_cursor_is_visible d) eqn:Ev; cbn [negb].
    + destruct (hide_text d1 (Hregs eq_refl) eq_refl) as [Hr' Ho']. eexists. split; [done |]. split_and!; try done. split; try done. split; [split; try done | done |].
      * unfold mode_ok. change (fb (?x <| hw_cursor_is_visible := false |>)) with (fb d). rewrite Ea. by destruct Hmode.
      * intros _. split_and!; [done | done |]. intros _. unfold cursor_shown. done.
    + exists d1. split_and!; try done. split; try done. split; try done. intros _. split_and!; [by apply Hregs | done |]. intros _. unfold cursor_shown. change (cursor_visible_requested d1) with false. cbn [andb].
      destruct (Hregs eq_refl) as [Hvis _]. rewrite Ev in Hvis. change (hw_off d1) with (hw_off d). by destruct (hw_off d).
Qed.

Lemma depth_mode t d n : mode_ok t d → mode_ok t (d <| update_depth := n |>).
Proof. unfold mode_ok. change (fb (d <| update_depth := n |>)) with (fb d). destruct (active (fb d)); [intros [[] ? ? ?] | intros []]; done. Qed.

Lemma begin_step t d : vga_ok t d →
  ∃ d', vga_begin_update t d = Ret d' ∧ vga_ok t d' ∧ active (fb d') = active (fb d) ∧ update_depth d' = Z.min U32MAX (update_depth d + 1) ∧ cursor_visible_requested d' = cursor_visible_requested d.
Proof.
  intros [Hg Hin Hm Hd]. unfold vga_begin_update.
  assert (∃ d1, (if (update_depth d =? 0) && active (fb d) && cursor_drawn (fb d) then fb_redraw_cursor_cell t d else Ret d) = Ret d1 ∧ dev_ok t d1 ∧ same_mode d d1) as (d1 & -> & Hd1 & Ha & Hn & Hv).
  { destruct Hd as [Hb Hcs Hcur]. destruct (update_depth d =? 0); cbn [andb]; [| by exists d]. destruct (active (fb d)) eqn:Ea; cbn [andb]; [| by exists d]. destruct (cursor_drawn (fb d)); [| by exists d].
    pose proof (base_fb t d Hb Ea) as Hf. destruct (redraw_cursor_spec t d Hg Hf) as (d' & -> & Hd' & Hs' & _). exists d'. split; [done |]. destruct (fb_stays t d d' (db_depth _ _ Hb) Hf Hd' Hs') as (? & ? & ?).
    split; [| done]. split; [done | done |]. unfold cursor_synced. rewrite (fo_active _ (fd_ok _ Hd')). done. }
  mred. pose proof Hd1 as [[Hdep Hmode Hregs] Hcs Hcur]. rewrite <- Hn, <- Hv, <- Ha. destruct (Z.eqb_spec (update_depth d1) U32MAX) as [E|E]; cbn [negb].
  - eexists. split; [done |]. split_and!; try done; [| rewrite E; done]. split; try done. split; [split; [done | | done] | done |].
    + unfold mode_ok in *. change (fb (d1 <| cursor_update_pending := true |>)) with (fb d1). by destruct (active (fb d1)); [destruct Hmode as [[] ? ? ?] | destruct Hmode].
    + intros Ht. split_and!; [by apply Hregs | | done]. change (update_depth (d1 <| cursor_update_pending := true |>)) with (update_depth d1). rewrite E. done.
  - eexists. split; [done |]. split_and!; try done; [| change (update_depth d1 + 1 = Z.min U32MAX (update_depth d1 + 1)); lia]. split; try done.
    split; [split; [change (0 ≤ update_depth d1 + 1 ≤ U32MAX); lia | by apply depth_mode | done] | done |].
    intros Ht. destruct (Hcur Ht) as (? & _ & ?). split_and!; [done | change (update_depth d1 + 1 = 0 → cursor_update_pending d1 = false); lia | done].
Qed.

(** Drawing what is pending, if anything. *)
Lemma present_step t d force : vga_ok t d → active (fb d) = true → ∃ d', fb_present_dirty t d force = Ret d' ∧ vga_ok t d' ∧ same_mode d d'.
Proof.
  intros [Hg Hin Hm [Hb Hcs Hcur]] Ea. pose proof (base_fb t d Hb Ea) as Hf. destruct (present_fb t d force Hg Hin Hf) as (d' & -> & Hd' & Hs'). exists d'. split; [done |].
  destruct (fb_stays t d d' (db_depth _ _ Hb) Hf Hd' Hs') as (? & ? & ?). split; [| done]. split; try done. split; [done | done |]. unfold cursor_synced. by rewrite (fo_active _ (fd_ok _ Hd')).
Qed.

Lemma pending_step t d : vga_ok t d → ∃ d', (if cursor_update_pending d then hw_cursor_update t d else Ret d) = Ret d' ∧ vga_ok t d' ∧ same_mode d d'.
Proof.
  intros Hok. pose proof Hok as [Hg Hin Hm [Hb Hcs Hcur]]. destruct (cursor_update_pending d); [| by exists d]. destruct (cursor_step t d Hg Hin Hb Hcs) as (d' & -> & Hd' & Hs'). by exists d'.
Qed.

Lemma flush_step t d : vga_ok t d → ∃ d', vga_flush t d = Ret d' ∧ vga_ok t d' ∧ same_mode d d'.
Proof. intros Hok. unfold vga_flush. destruct (active (fb d)) eqn:Ea; [by apply present_step | by apply pending_step]. Qed.

Lemma end_step t d : vga_ok t d →
  ∃ d', vga_end_update t d = Ret d' ∧ vga_ok t d' ∧ active (fb d') = active (fb d) ∧ update_depth d' = Z.max 0 (update_depth d - 1) ∧ cursor_visible_requested d' = cursor_visible_requested d.
Proof.
  intros [Hg Hin Hm [[Hdep Hmode Hregs] Hcs Hcur]]. unfold vga_end_update. destruct (Z.eqb_spec (update_depth d) 0) as [E|E]; [exists d; rewrite E; split_and!; by try done |].
  set (d1 := d <| update_depth := update_depth d - 1 |>). change (update_depth d1) with (update_depth d - 1).
  assert (Hb1 : dev_base t d1) by (split; [change (0 ≤ update_depth d - 1 ≤ U32MAX); lia | by apply depth_mode | done]). rewrite Z.max_r by lia.
  assert (∃ d', (if update_depth d - 1 =? 0 then if active (fb d1) then fb_present_dirty t d1 false else if cursor_update_pending d1 then hw_cursor_update t d1 else Ret d1 else Ret d1) = Ret d' ∧ dev_ok t d' ∧ same_mode d1 d') as (d' & -> & Hd' & ? & ? & ?).
  { destruct (Z.eqb_spec (update_depth d - 1) 0) as [E1|E1].
    - destruct (active (fb d1)) eqn:Ea; [| destruct (cursor_update_pending d1) eqn:Ep; [by apply cursor_step |]].
      + assert (vga_ok t d1) as Hok by (split; try done; split; try done; unfold cursor_synced; congruence). destruct (present_step t d1 false Hok Ea) as (d' & -> & [] & ?). by exists d'.
      + exists d1. split; [done |]. split; [| done]. split; [done | done |]. intros Ht. destruct (Hcur Ht) as (? & _ & ?). done.
    - exists d1. split; [done |]. split; [| done]. split; [done | done |]. intros Ht. destruct (Hcur Ht) as (? & _ & ?). split_and!; [done | intros E2; by destruct E1 | done]. }
  exists d'. by split_and!.
Qed.

(** [vga_putc] for every byte, between the two halves of a batch. *)
Lemma putc_loop t d (s : list Z) (i n : nat) :
  vga_ok t d → (i + n ≤ length s)%nat → becomes t d (for_n n (Z.of_nat i) (λ i '(t, d), c ← rd s i; vga_putc t d c) (t, d)) (foldl typed (screen_of t) (take n (drop i s))).
Proof.
  revert t d i. induction n as [|n IH]; intros t d i Hok Hl; cbn [for_n].
  { exists t, d. split_and!; done. }
  destruct (lookup_lt_is_Some_2 s i ltac:(lia)) as [c Ec]. rewrite (drop_S _ c) by done. cbn [take foldl]. rewrite rd_nat, Ec. mred.
  destruct (putc_step t d c Hok) as (t1 & d1 & -> & Hok1 & Hs1 & Hk1 & Es1). mred. replace (Z.of_nat i + 1) with (Z.of_nat (S i)) by lia.
  destruct (IH t1 d1 (S i) Hok1 ltac:(lia)) as (t2 & d2 & -> & Hok2 & Hs2 & Hk2 & Es2). exists t2, d2.
  split_and!; [done | done | by apply (same_mode_trans d d1) | by apply (keeps_trans t t1) | by rewrite Es2, Es1].
Qed.

Definition batched (n : Z) : Z := Z.max 0 (Z.min U32MAX (n + 1) - 1).

(** As [becomes], with the depth of batches and the visibility of the cursor. *)
Definition acts t d (r : res (term H P * dev)) (s : screen) (n : Z) (v : bool) : Prop :=
  ∃ t' d', r = Ret (t', d') ∧ vga_ok t' d' ∧ active (fb d') = active (fb d) ∧ update_depth d' = n ∧ cursor_visible_requested d' = v ∧ keeps t t' ∧ screen_of t' = s.

Lemma becomes_acts t d r s : becomes t d r s → acts t d r s (update_depth d) (cursor_visible_requested d).
Proof. intros (t' & d' & -> & ? & (? & ? & ?) & ? & ?). by exists t', d'. Qed.

Lemma write_n_step t d s n : vga_ok t d → 0 ≤ n ≤ zlen s →
  acts t d (vga_write_n t d (Some s) n) (foldl typed (screen_of t) (take (Z.to_nat n) s)) (batched (update_depth d)) (cursor_visible_requested d).
Proof.
  intros Hok Hn. unfold vga_write_n. destruct (begin_step t d Hok) as (d1 & -> & Hok1 & Ea1 & En1 & Ev1). mred.
  destruct (putc_loop t d1 s 0 (Z.to_nat n) Hok1) as (t2 & d2 & E2 & Hok2 & (Ea2 & En2 & Ev2) & Hk2 & Es2); [unfold zlen in Hn; lia |]. change (Z.of_nat 0) with 0 in E2. rewrite E2. mred.
  destruct (end_step t2 d2 Hok2) as (d3 & -> & Hok3 & Ea3 & En3 & Ev3). mred. exists t2, d3. unfold batched. split_and!; try done; congruence.
Qed.

Lemma write_step t d o s : vga_ok t d → cstr_at o s →
  acts t d (vga_write t d (Some o)) (foldl typed (screen_of t) s) (batched (update_depth d)) (cursor_visible_requested d).
Proof.
  intros Hok Ho. unfold vga_write. rewrite (strlen_spec o s Ho). mred. destruct Ho as (_ & rest & ->). replace s with (take (Z.to_nat (zlen s)) (s ++ 0 :: rest)) at 3.
  - apply write_n_step; [done |]. unfold zlen. rewrite length_app. lia.
  - unfold zlen. rewrite Nat2Z.id. apply take_app_length.
Qed.

(** ** Starting *)

Definition start_screen : screen := cleared (mk_screen 25 80 [] [] 0 0 0 (attr_of 15 1) 0).

Lemma init_step t d :
  alen (boot_screen_cells t) = VGA_MAX_ROWS * VGA_MAX_COLS → alen (vga_memory d) = VGA_LEGACY_ROWS * VGA_LEGACY_COLS →
  ∃ t' d', vga_init t d = Ret (t', d') ∧ vga_ok t' d' ∧ active (fb d') = false ∧ update_depth d' = 0 ∧ cursor_visible_requested d' = true ∧ screen_of t' = start_screen.
Proof.
  intros Hl Hv. unfold vga_init. set (t0 := vga_set_color _ 15 1). set (d0 := d <| fb := _ |> <| update_depth := 0 |> <| cursor_update_pending := false |> <| cursor_visible_requested := true |> <| hw_cursor_is_visible := false |> <| hw_cursor_last_pos := 0xffff |>).
  destruct (clear_spec t0 d0) as (t' & d' & -> & Hok & (Ea & En & Ev) & _ & Es).
  - by split.
  - unfold memory_ok. cbn. split_and!; [by intros p [?|?] | done | done].
  - done.
  - unfold mode_ok. cbn. split; done.
  - intros _. right. done.
  - exists t', d'. split_and!; try done.
Qed.

End terminal.
