(* ===== verification/VgaMemory.v ===== *)
(** * Memory and framebuffer of [vga.c]

    Allocating the history, resizing the grid and switching to the framebuffer: every
    allocation may fail, and the terminal stays well formed either way. *)

From Stdlib Require Import ZArith Lia String.
From stdpp Require Import prelude list_numbers fin_maps zmap.
From S2P Require Import Prelude Update Array Arith CString Printf Log Bootinfo Kmem PageMap Vga VgaPixels VgaText VgaFb VgaTerminal.

Local Open Scope Z_scope.

Section memory.
Context {H P : Type} `{Kmem H} `{PageMap P}.

Implicit Types (t : term H P) (d : dev).

(** ** Blocks *)

Definition owns (bs : Zmap (list Z)) (hist scratch : option Z) : Prop :=
  (∀ p, hist = Some p ∨ scratch = Some p → p ≠ 0 ∧ is_Some (bs !! p)) ∧ (∀ p q, hist = Some p → scratch = Some q → p ≠ q).

Lemma memory_owns t :
  memory_ok t ↔ owns (blocks (heap t)) (fst <$> scrollback_cells t) (fst <$> resize_scratch_cells t) ∧ ∀ q b, resize_scratch_cells t = Some (q, b) → alen b = resize_scratch_capacity t.
Proof. unfold memory_ok, owns. tauto. Qed.

Lemma owns_more bs p v hist scratch : bs !! p = None → owns bs hist scratch → owns (<[p := v]> bs) hist scratch.
Proof.
  intros Hp [Hl Hn]. split; [| done]. intros q Hq. destruct (Hl q Hq) as [? [b Hb]]. split; [done |]. rewrite lookup_insert_ne by (intros ->; congruence). by exists b.
Qed.

Lemma owns_fresh bs p hist scratch q : bs !! p = None → owns bs hist scratch → hist = Some q ∨ scratch = Some q → q ≠ p.
Proof. intros Hp [Hl _] Hq ->. destruct (Hl _ Hq) as [_ [b Hb]]. congruence. Qed.

(** A new block for the history. *)
Lemma owns_hist bs p v scratch : bs !! p = None → p ≠ 0 → owns bs None scratch → owns (<[p := v]> bs) (Some p) scratch.
Proof.
  intros Hp Hz Ho. split.
  - intros q [[= <-]|Hq]; [split; [done | rewrite lookup_insert_eq; by eexists] |]. apply (proj1 (owns_more bs p v None scratch Hp Ho)). by right.
  - intros q q' [= <-] Hq'. intros ->. by apply (owns_fresh bs q' None scratch q' Hp Ho); [right |].
Qed.

Lemma owns_drop_hist bs p scratch : owns bs (Some p) scratch → owns (delete p bs) None scratch.
Proof.
  intros [Hl Hn]. split; [| done]. intros q [|Hq]; [done |]. destruct (Hl q (or_intror Hq)) as [? ?]. split; [done |]. rewrite lookup_delete_ne by (by apply Hn). done.
Qed.

(** A new block for the scratch area; the old one goes. *)
Lemma owns_scratch bs p v hist : bs !! p = None → p ≠ 0 → owns bs hist None → owns (<[p := v]> bs) hist (Some p).
Proof.
  intros Hp Hz Ho. split.
  - intros q [Hq|[= <-]]; [| split; [done | rewrite lookup_insert_eq; by eexists]]. apply (proj1 (owns_more bs p v hist None Hp Ho)). by left.
  - intros q q' Hq [= <-]. apply (owns_fresh bs p hist None q Hp Ho). by left.
Qed.

Lemma owns_drop_scratch bs p hist : owns bs hist (Some p) → owns (delete p bs) hist None.
Proof.
  intros [Hl Hn]. split; [| done]. intros q [Hq|]; [| done]. destruct (Hl q (or_introl Hq)) as [? ?]. split; [done |]. rewrite lookup_delete_ne by (intros ->; by apply (Hn q q)). done.
Qed.

(** An allocation the driver does not keep a record of. *)
Lemma alloc_memory t n o h : kmalloc (heap t) n = (o, h) → memory_ok t → memory_ok (t <| heap := h |>).
Proof.
  rewrite !memory_owns. intros E [Ho Hc]. split; [| done]. change (heap (t <| heap := h |>)) with h. destruct o as [p|].
  - destruct (kmalloc_some _ _ _ _ E) as (_ & Hp & ->). by apply owns_more.
  - by rewrite (kmalloc_none _ _ _ E).
Qed.

(** ** The live screen apart from memory *)

Record same_live t t' : Prop := {
  sl_rows : term_rows t' = term_rows t;
  sl_cols : term_cols t' = term_cols t;
  sl_cells : boot_screen_cells t' = boot_screen_cells t;
  sl_start : screen_row_start t' = screen_row_start t;
  sl_row : row t' = row t;
  sl_col : col t' = col t;
  sl_color : color t' = color t;
  sl_view : viewport_offset t' = viewport_offset t;
}.

Lemma same_live_trans t t1 t2 : same_live t t1 → same_live t1 t2 → same_live t t2.
Proof. intros [] []. split; congruence. Qed.

Lemma same_cell_at t t' y x : same_live t t' → cell_at t' y x = cell_at t y x.
Proof. intros []. unfold cell_at, phys. by rewrite sl_rows0, sl_cols0, sl_cells0, sl_start0. Qed.

Lemma same_lines t t' : same_live t t' → lines t' = lines t.
Proof. intros Hs. pose proof Hs as []. unfold lines. rewrite sl_rows0, sl_cols0. apply grid_ext. intros. by apply same_cell_at. Qed.

Lemma same_cursor t t' : same_live t t' → cursor_in t → cursor_in t'.
Proof. intros [] []. unfold cursor_in. by rewrite sl_rows0, sl_cols0, sl_row0, sl_col0. Qed.

Lemma same_dev t t' d : same_live t t' → viewport_offset t = 0 → dev_ok t d → dev_ok t' d.
Proof.
  intros Hs Hv [[Hdep Hmode Hregs] Hcs Hcur]. pose proof Hs as []. split; [split; [done | | done] | |].
  - unfold mode_ok in *. destruct (active (fb d)); [done |]. destruct Hmode. split; [done | by rewrite sl_rows0, sl_cols0 | done].
  - intros Ha y x Hy Hx. rewrite window_live by (congruence || lia). rewrite (same_cell_at t t') by done. rewrite <- (window_live t) by (done || lia). by apply Hcs.
  - intros Ha. destruct (Hcur Ha) as (? & ? & Hsh). split_and!; [done | done |]. intros Hp. specialize (Hsh Hp). unfold cursor_shown in *. by rewrite sl_view0, sl_row0, sl_col0.
Qed.

(** ** The history *)

Lemma no_history t : grid_ok t → scrollback_cells t = None → scrollback_capacity t = 0 ∧ scrollback_stride t = 0 ∧ scrollback_start t = 0 ∧ scrollback_count t = 0 ∧ viewport_offset t = 0.
Proof. intros Hg E. pose proof (go_hist t Hg) as Hh. pose proof (go_view t Hg). unfold hist_ok in Hh. rewrite E in Hh. lia. Qed.

Lemma allocate_history_spec t n :
  grid_ok t → memory_ok t → scrollback_cells t = None → 0 < n ≤ 1024 →
  ∃ t' ok, allocate_history t n = Ret (t', ok) ∧ grid_ok t' ∧ memory_ok t' ∧ same_live t t' ∧ scrollback_capacity t' = (if ok then n else 0) ∧ past t' = [] ∧
    (ok = false → scrollback_cells t' = None).
Proof.
  intros Hg Hm E Hn. destruct (no_history t Hg E) as (Hc & Hst & Hs & Hk & Hv). pose proof (go_cols t Hg). unfold allocate_history. bfalse (n =? 0). rewrite cols_ok by done.
  rewrite (proj2 (mul_u64_Some n (term_cols t) _)) by (split; [unfold U64MAX; nia | done]). rewrite (proj2 (mul_u64_Some (n * term_cols t) 2 _)) by (split; [unfold U64MAX; nia | done]).
  destruct (kmalloc (heap t) (n * term_cols t * 2)) as [[p|] h] eqn:Em.
  - apply memory_owns in Hm as [Ho Hcap]. rewrite E in Ho. destruct (kmalloc_some _ _ _ _ Em) as (Hz & Hp & Hb).
    set (t1 := t <| heap := h |> <| scrollback_cells := Some (p, anew (n * term_cols t)) |> <| scrollback_capacity := n |> <| scrollback_stride := term_cols t |>).
    assert (Hg1 : grid_ok t1). { destruct Hg. split; try done. unfold hist_ok. cbn. lia. }
    destruct (clear_scrollback_spec t1 Hg1) as (sc & -> & Hg2 & Hsc). mred. eexists _, true. split; [done |]. split; [done |]. split.
    + apply memory_owns. split; [| done]. change (fst <$> scrollback_cells (?x <| scrollback_cells := sc |>)) with (fst <$> sc). rewrite <- Hsc. cbn. rewrite Hb. by apply owns_hist.
    + split; [by split |]. split; [done |]. split; [| done]. done.
  - eexists _, false. split; [done |]. split; [by destruct Hg |]. split; [by apply (alloc_memory t _ _ _ Em) |]. split; [done |]. split_and!; [done | | done].
    unfold past. change (scrollback_count (t <| heap := h |>)) with (scrollback_count t). by rewrite Hk.
Qed.

Lemma klog_grid t level fmt args : grid_ok t → grid_ok (klog_tty t level fmt args).
Proof. by intros []. Qed.

Lemma klog_live t level fmt args : same_live t (klog_tty t level fmt args).
Proof. done. Qed.

(** What one of the attempts leaves. *)
Record history_tried t t' (ok : bool) (sizes : list Z) : Prop := {
  ht_grid : grid_ok t';
  ht_memory : memory_ok t';
  ht_live : same_live t t';
  ht_past : past t' = [];
  ht_ok : if ok then scrollback_capacity t' ∈ sizes else scrollback_cells t' = None;
}.

Lemma history_loop_spec j k : ∀ t,
  grid_ok t → memory_ok t → scrollback_cells t = None → (k ≤ 4)%nat →
  ∃ t' ok, history_loop (S (k + j)) t (64 * 2 ^ Z.of_nat k) = Ret (t', ok) ∧ history_tried t t' ok [64; 128; 256; 512; 1024].
Proof.
  induction k as [|k IH]; intros t Hg Hm E Hk.
  - cbn [history_loop Nat.add]. change (64 * 2 ^ Z.of_nat 0) with 64. change (64 <? VGA_SCROLLBACK_MIN_LINES) with false. cbv iota.
    destruct (allocate_history_spec t 64 Hg Hm E) as (t' & ok & -> & Hg' & Hm' & Hs' & Hc' & Hp' & Hn'); [lia |]. mred. destruct ok.
    + eexists _, true. split; [done |]. split; [by apply klog_grid | done | by destruct Hs' | done |]. change (scrollback_capacity (klog_tty t' ?a ?b ?c)) with (scrollback_capacity t'). rewrite Hc'. by apply list_elem_of_In; left.
    + change (64 =? VGA_SCROLLBACK_MIN_LINES) with true. cbv iota. exists t', false. split; [done |]. split; auto.
  - assert (Hpow : 1 ≤ 2 ^ Z.of_nat k ≤ 2 ^ 3) by (split; [apply (Z.pow_le_mono_r 2 0); lia | apply Z.pow_le_mono_r; lia]).
    rewrite Nat2Z.inj_succ, Z.pow_succ_r by lia. set (n := 64 * (2 * 2 ^ Z.of_nat k)). change (history_loop (S (S k + j)) t n) with
      (if n <? VGA_SCROLLBACK_MIN_LINES then Ret (t, false) else '(t, ok) ← allocate_history t n;
       if ok : bool then Ret (klog_tty t LOG_INFO "scrollback lines=%llu" [VLong n], true) else
       if n =? VGA_SCROLLBACK_MIN_LINES then Ret (t, false) else history_loop (S (k + j)) t (n / 2)).
    unfold VGA_SCROLLBACK_MIN_LINES. bfalse (n <? 64). destruct (allocate_history_spec t n Hg Hm E) as (t' & ok & -> & Hg' & Hm' & Hs' & Hc' & Hp' & Hn'); [lia |]. mred. destruct ok.
    + eexists _, true. split; [done |]. split; [by apply klog_grid | done | by destruct Hs' | done |]. change (scrollback_capacity (klog_tty t' ?a ?b ?c)) with (scrollback_capacity t'). rewrite Hc'. unfold n.
      assert (k = 0 ∨ k = 1 ∨ k = 2 ∨ k = 3)%nat as [->|[->|[->| ->]]] by lia; apply list_elem_of_In; cbn; lia.
    + bfalse (n =? 64). replace (n / 2) with (64 * 2 ^ Z.of_nat k) by (unfold n; rewrite (Z.mul_comm 2), Z.mul_assoc, Z.div_mul; lia).
      destruct (IH t' Hg' Hm' (Hn' eq_refl) ltac:(lia)) as (t2 & ok & E2 & []). exists t2, ok. split; [done |]. split; try done. by apply (same_live_trans t t').
Qed.

Lemma some_history t p a : grid_ok t → scrollback_cells t = Some (p, a) → 0 < scrollback_capacity t.
Proof. intros Hg E. pose proof (go_hist t Hg) as Hh. unfold hist_ok in Hh. rewrite E in Hh. lia. Qed.

(** The sizes a history can have. *)
Definition history_sizes : list Z := [16; 64; 128; 256; 512; 1024].

Lemma enable_scrollback_step t d : vga_ok t d →
  ∃ t' ok, vga_enable_scrollback t d = Ret (t', ok) ∧ vga_ok t' d ∧
    ((0 < scrollback_capacity t ∧ t' = t ∧ ok = true) ∨
     (scrollback_capacity t = 0 ∧ (if ok then scrollback_capacity t' ∈ history_sizes else scrollback_capacity t' = 0) ∧
      screen_of t' = (screen_of t) <| s_keep := scrollback_capacity t' |>)).
Proof.
  intros Hok. pose proof Hok as [Hg Hin Hm Hd]. unfold vga_enable_scrollback, allocate_screen_shadow. rewrite screen_ok by done. mred. cbn [negb]. rewrite usable_ok by done.
  destruct (Z.ltb_spec 0 (scrollback_capacity t)) as [Hc|Hc]; [exists t, true; split_and!; by try left |].
  assert (E : scrollback_cells t = None). { destruct (scrollback_cells t) as [[p a]|] eqn:E; [| done]. pose proof (some_history t p a Hg E). lia. }
  destruct (no_history t Hg E) as (Hz & _ & _ & Hk & Hv). unfold drop_history. rewrite E. mred.
  destruct (history_loop_spec 6 4 t Hg Hm E) as (t1 & ok & E1 & [Hg1 Hm1 Hs1 Hp1 Ho1]); [lia |]. change (64 * 2 ^ Z.of_nat 4) with VGA_SCROLLBACK_DEFAULT_LINES in E1. change (S (4 + 6)) with 11%nat in E1. rewrite E1. mred.
  assert (Hfin : ∀ t' ok', grid_ok t' → memory_ok t' → same_live t t' → past t' = [] → (if ok' : bool then scrollback_capacity t' ∈ history_sizes else scrollback_capacity t' = 0) →
    vga_ok t' d ∧ ((0 < scrollback_capacity t ∧ t' = t ∧ ok' = true) ∨ (scrollback_capacity t = 0 ∧ (if ok' then scrollback_capacity t' ∈ history_sizes else scrollback_capacity t' = 0) ∧
      screen_of t' = (screen_of t) <| s_keep := scrollback_capacity t' |>))).
  { intros t' ok' Hg' Hm' Hs' Hp' Ho'. split; [split; [done | by apply (same_cursor t) | done | by apply (same_dev t)] |]. right. split_and!; [done | done |].
    unfold screen_of at 1. rewrite (same_lines t t' Hs'), Hp'. destruct Hs'. unfold set_field, screen_of. cbn. assert (past t = []) as -> by (unfold past; by rewrite Hk). congruence. }
  destruct ok. { exists t1, true. split; [done |]. apply Hfin; try done. by apply list_elem_of_further. }
  destruct (allocate_history_spec t1 VGA_SCROLLBACK_EMERGENCY_LINES Hg1 Hm1 Ho1) as (t2 & ok & -> & Hg2 & Hm2 & Hs2 & Hc2 & Hp2 & Hn2); [done |]. mred.
  pose proof (same_live_trans _ _ _ Hs1 Hs2) as Hs. destruct ok.
  - eexists _, true. split; [done |]. apply Hfin; [by apply klog_grid | done | by destruct Hs | done |]. change (scrollback_capacity (klog_tty t2 ?a ?b ?c)) with (scrollback_capacity t2). rewrite Hc2. apply list_elem_of_here.
  - eexists _, false. split; [done |]. apply Hfin; [by apply klog_grid | done | by destruct Hs | done |]. by change (scrollback_capacity (klog_tty t2 ?a ?b ?c)) with (scrollback_capacity t2).
Qed.

(** ** Another grid *)

Lemma dropped_ok t h :
  let t' := t <| heap := h |> <| scrollback_cells := None |> <| scrollback_capacity := 0 |> <| scrollback_stride := 0 |> <| scrollback_start := 0 |> <| scrollback_count := 0 |> <| viewport_offset := 0 |> in
  grid_ok t → grid_ok t' ∧ same_live (t <| viewport_offset := 0 |>) t' ∧ scrollback_cells t' = None ∧ resize_scratch_cells t' = resize_scratch_cells t ∧ resize_scratch_capacity t' = resize_scratch_capacity t ∧ heap t' = h.
Proof. destruct t. cbn. intros []. split_and!; try done; by split. Qed.

Lemma drop_history_spec t p a :
  grid_ok t → memory_ok t → scrollback_cells t = Some (p, a) →
  ∃ t', drop_history t = Ret t' ∧ grid_ok t' ∧ memory_ok t' ∧ same_live (t <| viewport_offset := 0 |>) t' ∧ scrollback_cells t' = None ∧
    resize_scratch_cells t' = resize_scratch_cells t.
Proof.
  intros Hg Hm E. unfold drop_history. rewrite E. apply memory_owns in Hm as [Ho Hc]. rewrite E in Ho. cbn [fmap option_fmap option_map fst] in Ho.
  destruct (proj1 Ho p (or_introl eq_refl)) as [Hz [b Hb]]. destruct (kfree_live _ _ _ Hz Hb) as (h & -> & Eh). mred.
  destruct (dropped_ok t h Hg) as (Hg' & Hs & En & Es & Ek & Eh'). eexists. split; [reflexivity |]. revert Hg' Hs En Es Ek Eh'.
  generalize (t <| heap := h |> <| scrollback_cells := None |> <| scrollback_capacity := 0 |> <| scrollback_stride := 0 |> <| scrollback_start := 0 |> <| scrollback_count := 0 |> <| viewport_offset := 0 |>).
  intros t' Hg' Hs En Es Ek Eh'. split_and!; try done. apply memory_owns. rewrite En, Es, Ek, Eh', Eh. split; [by apply owns_drop_hist | done].
Qed.

Lemma resize_scratch_spec t n :
  memory_ok t → ∃ h sc k ok, let t' := t <| heap := h |> <| resize_scratch_cells := sc |> <| resize_scratch_capacity := k |> in
    ensure_resize_scratch t n = Ret (t', ok) ∧ memory_ok t' ∧ (ok = true → ∃ q b, sc = Some (q, b) ∧ n ≤ alen b).
Proof.
  intros Hm. unfold ensure_resize_scratch. destruct (match resize_scratch_cells t with Some _ => _ | None => false end) eqn:Ee.
  - exists (heap t), (resize_scratch_cells t), (resize_scratch_capacity t), true. cbv zeta. assert (t <| heap := heap t |> <| resize_scratch_cells := resize_scratch_cells t |> <| resize_scratch_capacity := resize_scratch_capacity t |> = t) as -> by (by destruct t).
    split; [done |]. split; [done |]. intros _. destruct (resize_scratch_cells t) as [[q b]|] eqn:E; [| done]. exists q, b. split; [done |]. apply memory_owns in Hm as [_ Hc]. rewrite (Hc q b E). lia.
  - clear Ee. apply memory_owns in Hm as [Ho Hc]. destruct (kmalloc (heap t) (2 * n)) as [[p|] h] eqn:Em.
    2: { exists h, (resize_scratch_cells t), (resize_scratch_capacity t), false. cbv zeta. split; [by destruct t |]. split; [| done]. apply memory_owns. split; [| done]. cbn. by rewrite (kmalloc_none _ _ _ Em). }
    destruct (kmalloc_some _ _ _ _ Em) as (Hz & Hp & Eh).
    assert (∃ h', match resize_scratch_cells t with Some (old, _) => kfree h old | None => Ret h end = Ret h' ∧ owns (blocks h') (fst <$> scrollback_cells t) (Some p)) as (h' & -> & Ho').
    { destruct (resize_scratch_cells t) as [[old b]|] eqn:E; [| exists h; split; [done |]; rewrite Eh; by apply owns_scratch].
      cbn [fmap option_fmap option_map fst] in Ho. destruct (proj1 Ho old (or_intror eq_refl)) as [Hz' [b' Hb']]. assert (old ≠ p) by congruence.
      destruct (kfree_live h old b') as (h' & -> & Eh'); [done | rewrite Eh; by rewrite lookup_insert_ne by done |]. exists h'. split; [done |]. rewrite Eh', Eh, delete_insert_ne by done.
      apply owns_scratch; [rewrite lookup_delete_ne by done; done | done | by apply owns_drop_scratch]. }
    mred. exists h', (Some (p, anew n)), n, true. cbv zeta. split; [done |]. split; [apply memory_owns; split; [done |]; cbn; by intros q b [= <- <-] |]. intros _. by exists p, (anew n).
Qed.

Lemma fill_array n c a : 0 ≤ n ≤ alen a → ∃ a', for_n (Z.to_nat n) 0 (λ i s, awr s i c) a = Ret a' ∧ alen a' = alen a ∧ ∀ i, 0 ≤ i < n → aget a' i = c.
Proof.
  intros Hn. destruct (for_n_inv (λ k b, alen b = alen a ∧ ∀ i, 0 ≤ i < k → aget b i = c) (λ i s, awr s i c) (Z.to_nat n) 0 a) as (a' & E & Hl & Hc).
  - split; [done | lia].
  - intros j b Hj [Hl Hc]. rewrite awr_ok by lia. eexists. split; [done |]. split; [done |]. intros i Hi. rewrite aget_aset. destruct (Z.eqb_spec i j); [done |]. apply Hc. lia.
  - exists a'. split; [done |]. split; [done |]. intros i Hi. apply Hc. lia.
Qed.

(** Copying the scratch area into the screen. *)
Lemma load_screen t (scratch : arr) n :
  screen_ptr t = PBoot → 0 ≤ n ≤ alen scratch → n ≤ alen (boot_screen_cells t) →
  ∃ a, for_n (Z.to_nat n) 0 (λ i t, match screen_cells t with
         | Some a => c ← ard scratch i; a ← awr a i (sanitize_cell t c); Ret (set_screen t a)
         | None => Fault OutOfBounds
         end) t = Ret (recells t a) ∧ alen a = alen (boot_screen_cells t) ∧ ∀ i, 0 ≤ i < n → aget a i = sanitize (color t) (aget scratch i).
Proof.
  intros Hp Hn Hb.
  destruct (for_n_inv (λ k t', ∃ a, t' = recells t a ∧ alen a = alen (boot_screen_cells t) ∧ ∀ i, 0 ≤ i < k → aget a i = sanitize (color t) (aget scratch i))
    (λ i t, match screen_cells t with Some a => c ← ard scratch i; a ← awr a i (sanitize_cell t c); Ret (set_screen t a) | None => Fault OutOfBounds end) (Z.to_nat n) 0 t)
    as (t' & E & a & -> & Hl & Hc).
  - exists (boot_screen_cells t). rewrite recells_same. split_and!; [done | done | lia].
  - intros j t' Hj (a & -> & Hl & Hc). unfold screen_cells. change (screen_ptr (recells t a)) with (screen_ptr t). rewrite Hp. change (boot_screen_cells (recells t a)) with a.
    rewrite ard_ok by lia. mred. rewrite awr_ok by lia. mred. unfold set_screen. change (screen_ptr (recells t a)) with (screen_ptr t). rewrite Hp. eexists. split; [done |].
    exists (aset a j (sanitize (color t) (aget scratch j))). split; [done |]. split; [done |]. intros i Hi. rewrite aget_aset. destruct (Z.eqb_spec i j) as [->|]; [done |]. apply Hc. lia.
  - exists a. split; [done |]. split; [done |]. intros i Hi. apply Hc. lia.
Qed.

(** The old cells in the upper left corner, blanks around them. *)
Definition corner t (y x : Z) : Z := if (y <? term_rows t) && (x <? term_cols t) then sanitize (color t) (cell_at t y x) else blank_cell t.

Lemma copy_corner t d rows cols (scratch : arr) :
  grid_ok t → 12 ≤ rows → 40 ≤ cols → rows * cols ≤ alen scratch → (∀ i, 0 ≤ i < rows * cols → aget scratch i = blank_cell t) →
  ∃ s, for_n (Z.to_nat (if term_rows t <? rows then term_rows t else rows)) 0 (λ y, for_n (Z.to_nat (if term_cols t <? cols then term_cols t else cols)) 0 (λ x s,
         c ← live_get_cell t d y x; awr s (y * cols + x) c)) scratch = Ret s ∧ alen s = alen scratch ∧
    ∀ y x, 0 ≤ y < rows → 0 ≤ x < cols → aget s (y * cols + x) = corner t y x.
Proof.
  intros Hg Hr Hc Hl Hb. pose proof (go_rows t Hg). pose proof (go_cols t Hg). set (cr := if term_rows t <? rows then _ else _). set (cc := if term_cols t <? cols then _ else _).
  assert (Hcr : 12 ≤ cr ∧ cr = Z.min (term_rows t) rows) by (unfold cr; destruct (Z.ltb_spec (term_rows t) rows); lia).
  assert (Hcc : 40 ≤ cc ∧ cc = Z.min (term_cols t) cols) by (unfold cc; destruct (Z.ltb_spec (term_cols t) cols); lia).
  destruct (grid_loop (λ b : arr, b) (λ _, True) cols cr cc (λ y, y) (λ y x, sanitize (color t) (cell_at t y x)) (λ y x s, c ← live_get_cell t d y x; awr s (y * cols + x) c) scratch)
    as (s & -> & _ & Hs & Hin & Hout); [lia | lia | done | | done |].
  - intros y x b Hy Hx _ Hb' _. rewrite live_get by (done || lia). mred. rewrite awr_ok by (rewrite Hb'; nia). eexists. split; [done |]. split; [done |]. apply (painted_aset _ _ x y); (done || lia).
  - exists s. split; [done |]. split; [done |]. intros y x Hy Hx. unfold corner. change (aget s (y * cols + x)) with (pix cols s x y).
    destruct (Z.ltb_spec y (term_rows t)), (Z.ltb_spec x (term_cols t)); cbn [andb]; [apply Hin; lia | | |]; (rewrite Hout by lia; unfold pix; apply Hb; nia).
Qed.

Lemma resized_ok t rows cols :
  grid_ok t → 12 ≤ rows ≤ 90 → 40 ≤ cols ≤ 240 → scrollback_cells t = None ∨ cols = term_cols t → grid_ok (t <| term_rows := rows |> <| term_cols := cols |> <| screen_row_start := 0 |>).
Proof.
  intros [] Hr Hc Hs. split; try done; [change (0 ≤ 0 < rows); lia |]. unfold hist_ok in *. cbn. destruct Hs as [E|E].
  - by rewrite E in *.
  - by rewrite E.
Qed.

Lemma regrid_spec t d rows cols (scratch : arr) :
  grid_ok t → 12 ≤ rows ≤ 90 → 40 ≤ cols ≤ 240 → scrollback_cells t = None ∨ cols = term_cols t →
  rows * cols ≤ alen scratch → (∀ i, 0 ≤ i < rows * cols → aget scratch i = blank_cell t) →
  ∃ a s, let t' := recells (t <| term_rows := rows |> <| term_cols := cols |> <| screen_row_start := 0 |>) a in
    regrid t d rows cols (if term_rows t <? rows then term_rows t else rows) (if term_cols t <? cols then term_cols t else cols) scratch = Ret (t', s) ∧
    grid_ok t' ∧ alen s = alen scratch ∧ lines t' = grid rows cols (corner t).
Proof.
  intros Hg Hr Hc Hs Hl Hb. unfold regrid. rewrite screen_ok by done. destruct (copy_corner t d rows cols scratch Hg) as (s & -> & Es & Hcorner); [lia | lia | done | done |]. mred.
  pose proof (resized_ok t rows cols Hg Hr Hc Hs) as Hg1. set (t1 := t <| term_rows := rows |> <| term_cols := cols |> <| screen_row_start := 0 |>) in *.
  unfold cell_count. rewrite (rows_ok t1 Hg1), (cols_ok t1 Hg1). change (term_rows t1) with rows. change (term_cols t1) with cols.
  destruct (load_screen t1 s (rows * cols)) as (a & -> & Ea & Ha); [apply Hg1 | nia | rewrite (go_len t1 Hg1); unfold VGA_MAX_ROWS, VGA_MAX_COLS; nia |]. mred.
  exists a, s. cbv zeta. split; [done |]. split; [by apply recells_ok |]. split; [done |]. unfold lines. apply grid_ext. intros y x Hy Hx.
  change (term_rows (recells t1 a)) with rows in Hy. change (term_cols (recells t1 a)) with cols in Hx. unfold cell_at, phys, pix. change (screen_row_start (recells t1 a)) with 0. change (term_rows (recells t1 a)) with rows.
  bfalse (rows <=? 0 + y). change (boot_screen_cells (recells t1 a)) with a. change (term_cols (recells t1 a)) with cols. rewrite Z.add_0_l, Ha by nia. rewrite Hcorner by done. unfold corner.
  change (color t1) with (color t). case_match; [by rewrite sanitize_idem by apply Hg | by apply sanitize_blank].
Qed.

(** Lines cut or filled up to another size. *)
Definition fit_line (attr cols : Z) (l : list Z) : list Z :=
  take (Z.to_nat cols) (sanitize attr <$> l) ++ replicate (Z.to_nat cols - length l) (attr_cell attr 32).

Definition fit_lines (attr rows cols : Z) (ls : list (list Z)) : list (list Z) :=
  take (Z.to_nat rows) (fit_line attr cols <$> ls) ++ replicate (Z.to_nat rows - length ls) (replicate (Z.to_nat cols) (attr_cell attr 32)).

Definition resized (s : screen) (rows cols keep : Z) : screen :=
  mk_screen rows cols (fit_lines (s_attr s) rows cols (s_lines s)) [] keep (Z.min (s_row s) (rows - 1)) (Z.min (s_col s) (cols - 1)) (s_attr s) 0.

Lemma corner_row t y cols : 0 ≤ y < term_rows t → 0 ≤ term_cols t → corner t y <$> seqZ 0 cols = fit_line (color t) cols (cell_at t y <$> seqZ 0 (term_cols t)).
Proof.
  intros Hy Hc. unfold fit_line. apply list_eq. intros i. rewrite list_lookup_fmap, seqZ_lookup. rewrite length_fmap, length_seqZ.
  destruct (decide (Z.of_nat i < cols)) as [Hi|Hi].
  - cbn. unfold corner. btrue (y <? term_rows t). cbn [andb]. destruct (Z.ltb_spec (Z.of_nat i) (term_cols t)) as [Hl|Hl].
    + rewrite lookup_app_l by (rewrite length_take, !length_fmap, length_seqZ; lia). rewrite lookup_take_lt by lia. rewrite !list_lookup_fmap, seqZ_lookup. by rewrite decide_True.
    + rewrite lookup_app_r by (rewrite length_take, !length_fmap, length_seqZ; lia). rewrite length_take, !length_fmap, length_seqZ. symmetry. apply lookup_replicate_2. lia.
  - symmetry. apply lookup_ge_None. rewrite length_app, length_take, !length_fmap, length_seqZ, length_replicate. lia.
Qed.

Lemma corner_lines t rows cols : grid_ok t → grid rows cols (corner t) = fit_lines (color t) rows cols (lines t).
Proof.
  intros Hg. pose proof (go_rows t Hg). pose proof (go_cols t Hg). unfold fit_lines. apply list_eq. intros i. rewrite grid_lookup. unfold lines. rewrite grid_length.
  destruct (decide (Z.of_nat i < rows)) as [Hi|Hi].
  - destruct (decide (Z.of_nat i < term_rows t)) as [Hl|Hl].
    + rewrite lookup_app_l by (rewrite length_take, length_fmap, grid_length; lia). rewrite lookup_take_lt by lia. rewrite list_lookup_fmap, grid_lookup, decide_True by done. cbn. f_equal. apply corner_row; lia.
    + rewrite lookup_app_r by (rewrite length_take, length_fmap, grid_length; lia). rewrite length_take, length_fmap, grid_length. rewrite lookup_replicate_2 by lia. f_equal. rewrite <- const_row.
      apply list_fmap_ext. intros j x _. unfold corner. by bfalse (Z.of_nat i <? term_rows t).
  - symmetry. apply lookup_ge_None. rewrite length_app, length_take, length_fmap, grid_length, length_replicate. lia.
Qed.

Lemma clamp_spec t : grid_ok t → clamp_cursor t = t <| row := Z.min (row t) (term_rows t - 1) |> <| col := Z.min (col t) (term_cols t - 1) |>.
Proof.
  intros Hg. unfold clamp_cursor. rewrite rows_ok by done. set (t1 := if term_rows t <=? row t then _ else t). assert (t1 = t <| row := Z.min (row t) (term_rows t - 1) |>) as ->.
  { unfold t1. destruct (Z.leb_spec (term_rows t) (row t)); [by rewrite Z.min_r by lia | rewrite Z.min_l by lia; by destruct t]. }
  set (t1 := t <| row := Z.min (row t) (term_rows t - 1) |>). assert (Hg1 : grid_ok t1) by (by destruct Hg). rewrite (cols_ok t1 Hg1). change (term_cols t1) with (term_cols t). change (col t1) with (col t).
  destruct (Z.leb_spec (term_cols t) (col t)); [by rewrite Z.min_r by lia | rewrite Z.min_l by lia; by destruct t].
Qed.

(** The last two steps of a resize. *)
Lemma settle t :
  grid_ok t → memory_ok t → 0 ≤ row t → 0 ≤ col t →
  ∃ t', clear_scrollback (clamp_cursor t) = Ret t' ∧ grid_ok t' ∧ cursor_in t' ∧ memory_ok t' ∧
    screen_of t' = mk_screen (term_rows t) (term_cols t) (lines t) [] (scrollback_capacity t) (Z.min (row t) (term_rows t - 1)) (Z.min (col t) (term_cols t - 1)) (color t) 0.
Proof.
  intros Hg Hm Hr Hc. pose proof (go_rows t Hg). pose proof (go_cols t Hg). rewrite clamp_spec by done. set (t1 := t <| row := Z.min (row t) (term_rows t - 1) |> <| col := Z.min (col t) (term_cols t - 1) |>).
  assert (Hg1 : grid_ok t1) by (by destruct Hg). destruct (clear_scrollback_spec t1 Hg1) as (sc & -> & Hg2 & Hsc). eexists. split; [done |]. split; [done |]. split.
  - split; [change (0 ≤ Z.min (row t) (term_rows t - 1) < term_rows t); lia | change (0 ≤ Z.min (col t) (term_cols t - 1) < term_cols t); lia].
  - split; [| done]. apply memory_owns in Hm as [Ho Hcap]. apply memory_owns. split; [| done]. change (fst <$> scrollback_cells (?x <| scrollback_cells := sc |>)) with (fst <$> sc). rewrite <- Hsc. done.
Qed.

Lemma clamp_dim_range v lo hi : lo ≤ hi → lo ≤ clamp_dim v lo hi ≤ hi.
Proof. intros. unfold clamp_dim. destruct (Z.ltb_spec v lo), (Z.ltb_spec hi v); lia. Qed.

(** Dropping the old history when its lines have the wrong length. *)
Lemma renew_drop t cols :
  grid_ok t → memory_ok t →
  let renew := match scrollback_cells t with Some _ => negb (scrollback_capacity t =? 0) | None => false end && negb (term_cols t =? cols) in
  ∃ t', (if renew then drop_history t else Ret t) = Ret t' ∧ grid_ok t' ∧ memory_ok t' ∧ same_live (t <| viewport_offset := viewport_offset t' |>) t' ∧
    resize_scratch_cells t' = resize_scratch_cells t ∧ (scrollback_cells t' = None ∨ cols = term_cols t) ∧ (renew = true → scrollback_cells t' = None ∧ 0 < scrollback_capacity t ≤ 1024) ∧
    (renew = false → scrollback_capacity t' = scrollback_capacity t).
Proof.
  intros Hg Hm. cbv zeta. pose proof (go_hist t Hg) as Hh. unfold hist_ok in Hh. destruct (scrollback_cells t) as [[p a]|] eqn:E; cbn [andb].
  - bfalse (scrollback_capacity t =? 0). cbn [negb andb]. destruct (Z.eqb_spec (term_cols t) cols) as [Ec|Ec]; cbn [negb].
    + exists t. split_and!; try done. by right.
    + destruct (drop_history_spec t p a Hg Hm E) as (t' & -> & Hg' & Hm' & Hs' & En & Esc). exists t'. split_and!; try done; [| by left | intros _; split; [done | lia]]. destruct Hs'. by split.
  - exists t. split_and!; try done. by left.
Qed.

Lemma reconfigure_spec t d r c :
  grid_ok t → cursor_in t → memory_ok t →
  let rows := clamp_dim r 12 90 in let cols := clamp_dim c 40 240 in
  ∃ t', reconfigure_text_grid t d r c = Ret t' ∧ grid_ok t' ∧ cursor_in t' ∧ memory_ok t' ∧
    (screen_of t' = screen_of t ∨ ∃ keep, keep ∈ [0; scrollback_capacity t] ∧ screen_of t' = resized (screen_of t) rows cols keep).
Proof.
  intros Hg [Hrow Hcol] Hm rows cols. pose proof (clamp_dim_range r 12 90 ltac:(lia)) as Hr. pose proof (clamp_dim_range c 40 240 ltac:(lia)) as Hc. fold rows in Hr. fold cols in Hc.
  unfold reconfigure_text_grid. change VGA_MIN_ROWS with 12. change VGA_MAX_ROWS with 90. change VGA_MIN_COLS with 40. change VGA_MAX_COLS with 240. fold rows cols. rewrite (rows_ok t Hg), (cols_ok t Hg).
  destruct ((rows =? term_rows t) && (cols =? term_cols t)). { exists t. split_and!; try done. by left. }
  destruct (resize_scratch_spec t (rows * cols) Hm) as (h & sc & k & ok & E1 & Hm1 & Hsc). cbv zeta in E1. rewrite E1. mred. set (t1 := t <| heap := h |> <| resize_scratch_cells := sc |> <| resize_scratch_capacity := k |>) in *.
  assert (Hg1 : grid_ok t1) by (by destruct Hg). clear E1. destruct ok; cbn [negb].
  2: { eexists. split; [done |]. split_and!; [by apply klog_grid | done | done | by left]. }
  destruct (Hsc eq_refl) as (q & b & Eq & Hl). change (resize_scratch_cells t1) with sc. rewrite Eq.
  destruct (fill_array (rows * cols) (blank_cell t1) b) as (b1 & -> & El1 & Hb1); [nia |]. mred. rewrite (rows_ok t1 Hg1), (cols_ok t1 Hg1).
  destruct (renew_drop t1 cols Hg1 Hm1) as (t2 & E2 & Hg2 & Hm2 & Hs2 & Es2 & Hor & Hrenew & Hkeep). cbv zeta in E2, Hrenew, Hkeep. change (scrollback_cells t1) with (scrollback_cells t) in *. change (scrollback_capacity t1) with (scrollback_capacity t) in *.
  change (term_cols t1) with (term_cols t) in *. change (term_rows t1) with (term_rows t) in *. set (renew := _ && _) in *. rewrite E2. mred. clear E2.
  pose proof Hs2 as [S1 S2 S3 S4 S5 S6 S7 _]. change (term_rows t2 = term_rows t) in S1. change (term_cols t2 = term_cols t) in S2. change (row t2 = row t) in S5. change (col t2 = col t) in S6. change (color t2 = color t) in S7.
  assert (Hlines : lines t2 = lines t) by (by rewrite (same_lines _ _ Hs2)).
  destruct (regrid_spec t2 d rows cols b1 Hg2 Hr Hc) as (a & s & E3 & Hg3 & El3 & Hl3); [by rewrite S2 | lia | intros i Hi; rewrite Hb1 by done; unfold blank_cell, make_cell, current_attr; by rewrite S7 |].
  cbv zeta in E3, Hg3, Hl3. rewrite S1, S2 in E3. rewrite E3. mred. clear E3. rewrite corner_lines, Hlines, S7 in Hl3 by done. change (resize_scratch_cells t1) with sc in Es2. rewrite Eq in Es2.
  set (t3 := recells (t2 <| term_rows := rows |> <| term_cols := cols |> <| screen_row_start := 0 |>) a) in *. set (t4 := t3 <| resize_scratch_cells := Some (q, s) |>).
  assert (Hg4 : grid_ok t4) by (by destruct Hg3). assert (Hm4 : memory_ok t4).
  { apply memory_owns in Hm2 as [Ho Hcap]. rewrite Es2 in *. apply memory_owns. split; [exact Ho |]. intros q' b' [= <- <-]. rewrite El3, El1. by apply (Hcap q b). }
  assert (∃ t5 ok, (if renew then allocate_history t4 (scrollback_capacity t) else Ret (t4, false)) = Ret (t5, ok) ∧ grid_ok t5 ∧ memory_ok t5 ∧ same_live t4 t5 ∧ scrollback_capacity t5 ∈ [0; scrollback_capacity t])
    as (t5 & ok & -> & Hg5 & Hm5 & Hs5 & Hk5).
  { destruct renew.
    - destruct (Hrenew eq_refl) as [En Hcap]. destruct (allocate_history_spec t4 (scrollback_capacity t) Hg4 Hm4 En Hcap) as (t5 & ok & -> & Hg5 & Hm5 & Hs5 & Hc5 & _). exists t5, ok. split_and!; try done.
      rewrite Hc5. apply list_elem_of_In. cbn. destruct ok; auto.
    - exists t4, false. split_and!; try done. change (scrollback_capacity t4) with (scrollback_capacity t2). rewrite Hkeep by done. apply list_elem_of_In. cbn. auto. }
  mred. destruct (settle t5 Hg5 Hm5) as (t6 & -> & Hg6 & Hin6 & Hm6 & Es6); [rewrite (sl_row _ _ Hs5); change (0 ≤ row t2); lia | rewrite (sl_col _ _ Hs5); change (0 ≤ col t2); lia |].
  exists t6. split_and!; try done. right. exists (scrollback_capacity t5). split; [done |]. rewrite Es6, (same_lines _ _ Hs5), (sl_rows _ _ Hs5), (sl_cols _ _ Hs5), (sl_row _ _ Hs5), (sl_col _ _ Hs5), (sl_color _ _ Hs5).
  change (lines t4) with (lines t3). rewrite Hl3. change (row t4) with (row t2). change (col t4) with (col t2). change (color t4) with (color t2). rewrite S5, S6, S7. done.
Qed.

(** ** The framebuffer *)

Lemma map_identity_total t base n : ∃ ps ok, fb_map_identity t base n = Ret (t <| pages := ps |>, ok).
Proof.
  unfold fb_map_identity. assert (Hsame : t <| pages := pages t |> = t) by (by destruct t). case_match; [exists (pages t), false; by rewrite Hsame |]. case_match; [| exists (pages t), false; by rewrite Hsame].
  case_match; [| exists (pages t), false; by rewrite Hsame].
  set (body := λ i t', _). match goal with |- context[loop_n ?n 0 body t] => destruct (loop_n_inv (λ _ t', ∃ ps, t' = t <| pages := ps |>) (λ t', ∃ ps, t' = t <| pages := ps |>) body n 0 t) as [(t' & -> & ps & ->)|(t' & -> & ps & ->)] end.
  - by exists (pages t).
  - intros j t' _ [ps ->]. unfold body. case_match; [left; eexists; split; [done | by exists ps] |]. destruct (vmm_map_4k _ _ _ _) as [ps' ok]. destruct ok; cbn [negb]; [left | right]; eexists; (split; [done | by exists ps']).
  - mred. by exists ps, true.
  - mred. by exists ps, false.
Qed.

Lemma pages_ok t d ps : vga_ok t d → vga_ok (t <| pages := ps |>) d.
Proof. intros [[] ? ? [[? Hmode ?] ? ?]]. split; [done | done | done |]. split; [split; try done | done | done]. unfold mode_ok in *. by destruct (active (fb d)); [| destruct Hmode]. Qed.

Lemma alloc_ok t d n o h : kmalloc (heap t) n = (o, h) → vga_ok t d → vga_ok (t <| heap := h |>) d.
Proof.
  intros E [[] ? Hm [[? Hmode ?] ? ?]]. split; [done | done | by apply (alloc_memory t n o h E) |]. split; [split; try done | done | done]. unfold mode_ok in *. by destruct (active (fb d)); [| destruct Hmode].
Qed.

(** The device right after the switch. *)
Lemma switched_fb d base sp bytes w h pitch fmt :
  base ≠ 0 → 0 < w ≤ pitch → 0 < h → alen (video_memory d) = pitch * h →
  let d1 := d <| fb := mk_fb true base (Some (sp, anew (pitch * h))) bytes w h pitch fmt false 0 0 |> in
  let d2 := (pit_ticks d1).2 <| fb_last_present_tick := (pit_ticks d1).1 |> <| fb_pending_scroll_rows := 0 |> in
  fb_dev (fb_dirty_reset d2) ∧ update_depth (fb_dirty_reset d2) = update_depth d ∧ cursor_visible_requested (fb_dirty_reset d2) = cursor_visible_requested d ∧
  fb (fb_dirty_reset d2) = mk_fb true base (Some (sp, anew (pitch * h))) bytes w h pitch fmt false 0 0.
Proof.
  intros Hb Hw Hh Hv. cbv zeta. split_and!; try done. split; [| | done | done].
  - split; try done.
  - split; [done |]. repeat constructor; ulia.
Qed.

(** What the switch shows. *)
Definition on_display t d : Prop := ∀ X Y, 0 ≤ X < width (fb d) → 0 ≤ Y < height (fb d) → pix (pitch_pixels (fb d)) (video_memory d) X Y = picture_with_cursor t d X Y.

(** On a screen of any size: the cells wholly on it, and background elsewhere. *)
Definition on_clipped t d : Prop :=
  ∀ X Y, 0 ≤ X < width (fb d) → 0 ≤ Y < height (fb d) → pix (pitch_pixels (fb d)) (video_memory d) X Y = clipped_with_cursor t d (bg_of d (color t)) X Y.

Lemma on_clipped_fits t d : grid_fits t d → on_clipped t d → on_display t d.
Proof. intros Hf Hs X Y HX HY. rewrite Hs by done. by apply clipped_fits. Qed.

Lemma clipped_same t d d' u X Y : fb_same d d' → clipped_with_cursor t d' u X Y = clipped_with_cursor t d u X Y.
Proof.
  intros Hs. unfold clipped_with_cursor, clipped. rewrite (fs_depth _ _ Hs), (fs_requested _ _ Hs), (underline_same t d d' X Y Hs), (fg_same d d' _ Hs), (bg_same d d' _ Hs), (cell_pixel_same d d' _ _ _ Hs), (fs_width _ _ Hs), (fs_height _ _ Hs). done.
Qed.

Lemma first_picture t d : grid_ok t → cursor_in t → fb_dev d → 0 ≤ update_depth d ≤ U32MAX →
  ∃ d', (d ← fb_clear_full d (color t); render_view t d) = Ret d' ∧ dev_ok t d' ∧ same_mode d d' ∧ width (fb d') = width (fb d) ∧ height (fb d') = height (fb d) ∧ on_clipped t d'.
Proof.
  intros Hg Hin Hd Hdep. unfold fb_clear_full. rewrite (fo_active _ (fd_ok _ Hd)), (proj2 (Z.eqb_neq _ 0) (fo_pixels _ (fd_ok _ Hd))). cbn [negb orb].
  rewrite attr_bg_spec. mred. pose proof (fo_width _ (fd_ok _ Hd)). pose proof (fo_height _ (fd_ok _ Hd)).
  destruct (fb_fill_rect_spec d 0 0 (width (fb d)) (height (fb d)) (bg_of d (color t)) (fd_ok _ Hd)) as (s & -> & Ps); [lia | lia | lia | lia |]. mred. destruct (fb_dev_reshadow d s Hd (proj1 Ps)) as [Hd1 Hs1].
  destruct (render_view_fb t (reshadow d s) Hg Hin Hd1) as (d' & -> & Hd' & Hs' & _ & Hpic). pose proof (fb_same_trans _ _ _ Hs1 Hs') as Hs. exists d'. split; [done |].
  destruct (fb_stays t d d' Hdep Hd Hd' Hs) as (? & ? & ?). split; [split; try done; unfold cursor_synced; by rewrite (fo_active _ (fd_ok _ Hd')) |]. split; [done |]. split; [apply Hs |]. split; [apply Hs |].
  intros X Y HX HY. rewrite (fs_pitch _ _ Hs). rewrite (fs_width _ _ Hs) in HX. rewrite (fs_height _ _ Hs) in HY. rewrite (clipped_same t _ _ _ X Y Hs'), (bg_same d d' _ Hs).
  pose proof (Hpic X Y HX HY) as E. change (pitch_pixels (fb (reshadow d s))) with (pitch_pixels (fb d)) in E. rewrite E. f_equal.
  change (shadow (reshadow d s)) with s. rewrite (proj2 Ps) by lia. btrue (X <? width (fb d)). btrue (Y <? height (fb d)). cbn [andb]. unfold rect.
  destruct (in_span_spec 0 (width (fb d)) X); [| lia]. destruct (in_span_spec 0 (height (fb d)) Y); [done | lia].
Qed.

Lemma logged_ok t d l : vga_ok t d → vga_ok (t <| logged := l |>) d.
Proof. intros [[] ? ? [[? Hmode ?] ? ?]]. split; [done | done | done |]. split; [split; try done | done | done]. unfold mode_ok in *. by destruct (active (fb d)); [| destruct Hmode]. Qed.

(** The grid that belongs to a picture of the given size. *)
Definition rows_for (h : Z) : Z := clamp_dim (h / 16) 12 90.
Definition cols_for (w : Z) : Z := clamp_dim (w / 8) 40 240.

Lemma rows_for_fit h : 192 ≤ h → 16 * rows_for h ≤ h.
Proof. intros Hh. unfold rows_for, clamp_dim. pose proof (Z.mul_div_le h 16 ltac:(lia)). assert (12 ≤ h / 16) by (apply Z.div_le_lower_bound; lia). destruct (Z.ltb_spec (h / 16) 12), (Z.ltb_spec 90 (h / 16)); lia. Qed.

Lemma cols_for_fit w : 320 ≤ w → 8 * cols_for w ≤ w.
Proof. intros Hw. unfold cols_for, clamp_dim. pose proof (Z.mul_div_le w 8 ltac:(lia)). assert (40 ≤ w / 8) by (apply Z.div_le_lower_bound; lia). destruct (Z.ltb_spec (w / 8) 40), (Z.ltb_spec 240 (w / 8)); lia. Qed.

(** After the switch: the terminal is the old one or the old one on the new grid; it is
    on the display if the grid fits. *)
Record switched t d t' d' (w h : Z) : Prop := {
  sw_ok : vga_ok t' d';
  sw_active : active (fb d') = true;
  sw_size : width (fb d') = w ∧ height (fb d') = h;
  sw_depth : update_depth d' = update_depth d;
  sw_screen : screen_of t' = screen_of t ∨ ∃ keep, keep ∈ [0; scrollback_capacity t] ∧ screen_of t' = resized (screen_of t) (rows_for h) (cols_for w) keep;
  sw_shown : on_clipped t' d';
}.

Lemma framebuffer_raw_step t d base w h pitch fmt :
  vga_ok t d → active (fb d) = false → base ≠ 0 → 320 ≤ w → 192 ≤ h → w ≤ pitch → alen (video_memory d) = pitch * h →
  ∃ t' d' ok, vga_enable_boot_framebuffer_raw t d base w h pitch fmt = Ret (t', d', ok) ∧ if ok then switched t d t' d' w h else vga_ok t' d' ∧ d' = d ∧ screen_of t' = screen_of t.
Proof.
  intros Hok Ha Hb Hw Hh Hp Hv. unfold vga_enable_boot_framebuffer_raw. rewrite Ha. cbv iota. case_match; [| by exists t, d, false].
  destruct (map_identity_total t base z) as (ps & ok & ->). mred. pose proof (pages_ok t d ps Hok) as Hok1. set (t1 := t <| pages := ps |>) in *. destruct ok; cbn [negb]; [| by exists t1, d, false].
  destruct (kmalloc (heap t1) z) as [[sp|] hp] eqn:Em; pose proof (alloc_ok t1 d z _ hp Em Hok1) as Hok2; set (t2 := t1 <| heap := hp |>) in *; [| by exists t2, d, false].
  unfold reconfigure_text_grid_for_framebuffer. pose proof Hok2 as [Hg2 Hin2 Hm2 [[Hdep _ _] _ _]].
  destruct (reconfigure_spec t2 d (h / VGA_FONT_H) (w / VGA_FONT_W) Hg2 Hin2 Hm2) as (t3 & -> & Hg3 & Hin3 & Hm3 & Es3). mred.
  destruct (switched_fb d base sp z w h pitch fmt Hb) as (Hd & En & Ev & Ef); [lia | lia | done |]. cbv zeta in Hd, En, Ev, Ef. set (d1 := d <| fb := mk_fb true base (Some (sp, anew (pitch * h))) z w h pitch fmt false 0 0 |>) in *.
  destruct (pit_ticks d1) as [now d2]. cbn [fst snd] in *. set (d3 := fb_dirty_reset _) in *.
  destruct (first_picture t3 d3 Hg3 Hin3 Hd) as (d4 & E & Hd4 & (Ea4 & En4 & _) & Ew & Eh & Hpic); [by rewrite En |]. destruct (fb_clear_full d3 (color t3)) as [d5|]; [| done]. cbn in E. mred. rewrite E. mred.
  rewrite Ef in Ew, Eh, Ea4. eexists _, d4, true. split; [done |]. split; [apply logged_ok; by split | done | done | congruence | exact Es3 |]. exact Hpic.
Qed.

End memory.
