(* ===== verification/VgaConsole.v ===== *)
(** * The terminal behind the console

    The operations of [vga.c] together refine an abstract terminal, in text mode the
    display follows it, and the ANSI console of [kernel/console.c] running on the driver
    does what it does on the abstract terminal. *)

From Stdlib Require Import ZArith Lia String.
From stdpp Require Import prelude list_numbers fin_maps zmap.
From S2P Require Import Prelude Update Array Arith CString Printf Log Bootinfo Kmem PageMap Console Vga VgaPixels VgaText VgaFb VgaTerminal VgaMemory.

Local Open Scope Z_scope.

(** ** The abstract terminal *)

Record tty := mk_tty { y_screen : screen; y_depth : Z; y_visible : bool; y_graphic : bool }.

#[global] Instance tty_fields : Fields tty := λ y, mk_tty (y_screen y) (y_depth y) (y_visible y) (y_graphic y).

Definition on_screen (f : screen → screen) (y : tty) : tty := y <| y_screen := f (y_screen y) |>.

Definition moved (r c : Z) (s : screen) : screen := s <| s_view := 0 |> <| s_row := Z.min r (s_rows s - 1) |> <| s_col := Z.min c (s_cols s - 1) |>.
Definition filled (attr : Z) (s : screen) : screen := (blanked (s <| s_attr := attr |>)) <| s_attr := s_attr s |>.

#[export] Instance tty_screen : Screen tty := {|
  Console.vga_init := λ _, mk_tty start_screen 0 true false;
  Console.vga_putc := λ y c, on_screen (λ s, typed s c) y;
  Console.vga_clear := on_screen cleared;
  Console.vga_clear_line := on_screen (λ s, line_cleared (s <| s_view := 0 |>));
  Console.vga_move_cursor := λ y r c, on_screen (moved r c) y;
  Console.vga_get_cursor := λ y, (wrap32 (s_row (y_screen y)), wrap32 (s_col (y_screen y)));
  Console.vga_get_size := λ y, (wrap32 (s_rows (y_screen y)), wrap32 (s_cols (y_screen y)));
  Console.vga_set_color := λ y fg bg, on_screen (λ s, s <| s_attr := attr_of fg bg |>) y;
  Console.vga_get_color := λ y, s_attr (y_screen y);
  Console.vga_recolor := λ y fg bg, on_screen (λ s, recolored s (attr_of fg bg)) y;
  Console.vga_set_cursor_visible := λ y b, y <| y_visible := b |>;
  Console.vga_scroll_view := λ y delta, (true, on_screen (λ s, viewed s delta) y);
  Console.vga_begin_update := λ y, y <| y_depth := Z.min U32MAX (y_depth y + 1) |>;
  Console.vga_end_update := λ y, y <| y_depth := Z.max 0 (y_depth y - 1) |>;
  Console.vga_flush := λ y, y;
  Console.serial_init := λ y, y;
|}.

#[export] Instance tty_words : ScreenWords tty.
Proof. split; intros y; split; apply (wrap_range 32); lia. Qed.

(** ** The operations *)

Inductive tty_op :=
| OpPutc (c : Z)
| OpWrite (s : list Z) (n : Z)
| OpMove (r c : Z)
| OpClearLine
| OpClear
| OpSetColor (fg bg : Z)
| OpRecolor (fg bg : Z)
| OpFill (fg bg : Z)
| OpVisible (b : bool)
| OpScroll (delta : Z)
| OpBegin
| OpEnd
| OpFlush
| OpEnableScrollback.

Definition legal (op : tty_op) : Prop :=
  match op with
  | OpWrite s n => 0 ≤ n ≤ zlen s
  | OpMove r c => 0 ≤ r ∧ 0 ≤ c
  | _ => True
  end.

Definition tty_effect (y : tty) (op : tty_op) (y' : tty) : Prop :=
  match op with
  | OpPutc c => y' = on_screen (λ s, typed s c) y
  | OpWrite bs n => y' = (on_screen (λ s, foldl typed s (take (Z.to_nat n) bs)) y) <| y_depth := batched (y_depth y) |>
  | OpMove r c => y' = on_screen (moved r c) y
  | OpClearLine => y' = on_screen (λ s, line_cleared (s <| s_view := 0 |>)) y
  | OpClear => y' = on_screen cleared y
  | OpSetColor fg bg => y' = on_screen (λ s, s <| s_attr := attr_of fg bg |>) y
  | OpRecolor fg bg => y' = on_screen (λ s, recolored s (attr_of fg bg)) y
  | OpFill fg bg => y' = on_screen (filled (attr_of fg bg)) y
  | OpVisible b => y' = y <| y_visible := b |>
  | OpScroll delta => y' = on_screen (λ s, viewed s delta) y
  | OpBegin => y' = y <| y_depth := Z.min U32MAX (y_depth y + 1) |>
  | OpEnd => y' = y <| y_depth := Z.max 0 (y_depth y - 1) |>
  | OpFlush => y' = y
  | OpEnableScrollback =>
      if 0 <? s_keep (y_screen y) then y' = y else ∃ n, n ∈ 0 :: history_sizes ∧ y' = on_screen (λ s, s <| s_keep := n |>) y
  end.

Fixpoint tty_runs (y : tty) (ops : list tty_op) (y' : tty) : Prop :=
  match ops with [] => y' = y | op :: ops => ∃ y1, tty_effect y op y1 ∧ tty_runs y1 ops y' end.

Section driver.
Context {H P : Type} `{Kmem H} `{PageMap P}.

Implicit Types (t : term H P) (d : dev).

Definition tty_of t d : tty := mk_tty (screen_of t) (update_depth d) (cursor_visible_requested d) (active (fb d)).

Definition tty_step (op : tty_op) (s : term H P * dev) : res (term H P * dev) :=
  let '(t, d) := s in
  match op with
  | OpPutc c => vga_putc t d c
  | OpWrite bs n => vga_write_n t d (Some bs) n
  | OpMove r c => vga_move_cursor t d r c
  | OpClearLine => vga_clear_line t d
  | OpClear => vga_clear t d
  | OpSetColor fg bg => Ret (vga_set_color t fg bg, d)
  | OpRecolor fg bg => vga_recolor t d fg bg
  | OpFill fg bg => vga_fill_color t d fg bg
  | OpVisible b => d ← vga_set_cursor_visible t d b; Ret (t, d)
  | OpScroll delta => '(t, d, _) ← vga_scroll_view t d delta; Ret (t, d)
  | OpBegin => d ← vga_begin_update t d; Ret (t, d)
  | OpEnd => d ← vga_end_update t d; Ret (t, d)
  | OpFlush => d ← vga_flush t d; Ret (t, d)
  | OpEnableScrollback => '(t, _) ← vga_enable_scrollback t d; Ret (t, d)
  end.

(** An operation that becomes a given terminal. *)
Lemma becomes_tty t d r (f : screen → screen) :
  becomes t d r (f (screen_of t)) → ∃ t' d', r = Ret (t', d') ∧ vga_ok t' d' ∧ tty_of t' d' = on_screen f (tty_of t d).
Proof. intros (t' & d' & -> & Hok & (Ea & En & Ev) & _ & Es). exists t', d'. split; [done |]. split; [done |]. unfold tty_of, on_screen. by rewrite Ea, En, Ev, Es. Qed.

(** The same for an operation on the device alone. *)
Lemma device_tty t d (r : res dev) n v :
  (∃ d', r = Ret d' ∧ vga_ok t d' ∧ active (fb d') = active (fb d) ∧ update_depth d' = n ∧ cursor_visible_requested d' = v) →
  ∃ t' d', (d ← r; Ret (t, d)) = Ret (t', d') ∧ vga_ok t' d' ∧ tty_of t' d' = (tty_of t d) <| y_depth := n |> <| y_visible := v |>.
Proof. intros (d' & -> & Hok & Ea & En & Ev). exists t, d'. split; [done |]. split; [done |]. unfold tty_of. by rewrite Ea, En, Ev. Qed.

Lemma tty_step_refines t d op : vga_ok t d → legal op → ∃ t' d', tty_step op (t, d) = Ret (t', d') ∧ vga_ok t' d' ∧ tty_effect (tty_of t d) op (tty_of t' d').
Proof.
  intros Hok Hl. destruct op; cbn [tty_step tty_effect legal] in *.
  - by apply (becomes_tty t d _ (λ s, typed s c)), putc_step.
  - destruct (write_n_step t d s n Hok Hl) as (t' & d' & -> & Hok' & Ea & En & Ev & _ & Es). exists t', d'. split; [done |]. split; [done |]. unfold tty_of, on_screen. by rewrite Ea, En, Ev, Es.
  - destruct Hl. apply (becomes_tty t d _ (moved r c)). by apply move_step.
  - by apply (becomes_tty t d _ (λ s, line_cleared (s <| s_view := 0 |>))), clear_line_step.
  - by apply becomes_tty, clear_step.
  - by apply (becomes_tty t d _ (λ s, s <| s_attr := attr_of fg bg |>)), set_color_step.
  - by apply (becomes_tty t d _ (λ s, recolored s (attr_of fg bg))), recolor_step.
  - by apply (becomes_tty t d _ (filled (attr_of fg bg))), fill_step.
  - apply (device_tty t d _ (update_depth d) b). by apply visible_step.
  - destruct (scroll_view_step t d delta Hok) as (t' & d' & -> & Hok' & Hs & Hk & Es). mred. by apply (becomes_tty t d _ (λ s, viewed s delta)); eexists _, _.
  - apply (device_tty t d _ (Z.min U32MAX (update_depth d + 1)) (cursor_visible_requested d)). by apply begin_step.
  - apply (device_tty t d _ (Z.max 0 (update_depth d - 1)) (cursor_visible_requested d)). by apply end_step.
  - destruct (flush_step t d Hok) as (d' & -> & Hok' & Hs). mred. destruct (becomes_tty t d (Ret (t, d')) (λ s, s)) as (t2 & d2 & [= <- <-] & ? & E); [by eexists _, _ |]. by exists t, d'.
  - destruct (enable_scrollback_step t d Hok) as (t' & ok & -> & Hok' & Hcase). mred. exists t', d. split; [done |]. split; [done |]. cbn [tty_of y_screen screen_of s_keep].
    destruct Hcase as [(Hc & -> & _)|(Hc & Hk & Es)]; [by btrue (0 <? scrollback_capacity t) |]. rewrite Hc. cbn [Z.ltb Z.compare]. exists (scrollback_capacity t'). split.
    + destruct ok; [by apply list_elem_of_further | rewrite Hk; apply list_elem_of_here].
    + unfold tty_of, on_screen. by rewrite Es.
Qed.

Lemma tty_run_refines ops : ∀ t d, vga_ok t d → Forall legal ops → ∃ t' d', fold_res tty_step ops (t, d) = Ret (t', d') ∧ vga_ok t' d' ∧ tty_runs (tty_of t d) ops (tty_of t' d').
Proof.
  induction ops as [|op ops IH]; intros t d Hok Hl; cbn [fold_res tty_runs]; [by exists t, d |]. apply Forall_cons in Hl as [Hop Hl].
  destruct (tty_step_refines t d op Hok Hop) as (t1 & d1 & -> & Hok1 & He). mred. destruct (IH t1 d1 Hok1 Hl) as (t' & d' & -> & Hok' & Hr). exists t', d'. split; [done |]. split; [done |]. by exists (tty_of t1 d1).
Qed.

(** ** The visible part *)

Definition visible_cell (s : screen) (y x : Z) : Z :=
  default 0 ((s_past s ++ s_lines s) !! Z.to_nat (Z.of_nat (length (s_past s)) - s_view s + y) ≫= λ l : list Z, l !! Z.to_nat x).

Lemma row_cell (f : Z → Z) cols x : 0 ≤ x < cols → (f <$> seqZ 0 cols) !! Z.to_nat x = Some (f x).
Proof. intros Hx. rewrite list_lookup_fmap, seqZ_lookup, decide_True by lia. cbn. by rewrite Z2Nat.id by lia. Qed.

Lemma visible_window t y x : grid_ok t → 0 ≤ y < term_rows t → 0 ≤ x < term_cols t → visible_cell (screen_of t) y x = window t y x.
Proof.
  intros Hg Hy Hx. pose proof (go_view t Hg). pose proof (hist_count t Hg). unfold visible_cell, window. cbn [screen_of s_past s_lines s_view]. rewrite past_length by done. cbv zeta.
  assert (Hl : length (past t) = Z.to_nat (scrollback_count t)) by (unfold past; apply grid_length). destruct (Z.ltb_spec (scrollback_count t - viewport_offset t + y) (scrollback_count t)).
  - rewrite lookup_app_l by lia. unfold past. rewrite grid_lookup, decide_True by lia. cbn. rewrite row_cell by done. cbn. f_equal. lia.
  - rewrite lookup_app_r by lia. rewrite Hl. unfold lines. rewrite grid_lookup, decide_True by lia. cbn. rewrite row_cell by done. cbn. f_equal. lia.
Qed.

(** The hardware cursor. *)
Definition cursor_follows t d : Prop := update_depth d = 0 → cursor_shown t d.

Lemma text_shown t d : vga_ok t d → active (fb d) = false →
  (∀ y x, 0 ≤ y < 25 → 0 ≤ x < 80 → displays (pix 80 (vga_memory d) x y) (visible_cell (screen_of t) y x)) ∧ cursor_follows t d.
Proof.
  intros [Hg Hin Hm [[_ Hmode _] Hcs Hcur]] Ha. unfold mode_ok in Hmode. rewrite Ha in Hmode. destruct (td_grid t d Hmode) as [Er Ec]. unfold VGA_LEGACY_ROWS, VGA_LEGACY_COLS in *. split.
  - intros y x Hy Hx. rewrite visible_window by (done || lia). by apply Hcs.
  - destruct (Hcur Ha) as (_ & Hp & Hs). intros Hd. auto.
Qed.

(** ** The driver as the console's screen *)

Definition driver := res (term H P * dev).

#[export] Instance vga_screen : Screen driver := {|
  Console.vga_init := λ v, '(t, d) ← v; vga_init t d;
  Console.vga_putc := λ v c, '(t, d) ← v; vga_putc t d c;
  Console.vga_clear := λ v, '(t, d) ← v; vga_clear t d;
  Console.vga_clear_line := λ v, '(t, d) ← v; vga_clear_line t d;
  Console.vga_move_cursor := λ v r c, '(t, d) ← v; vga_move_cursor t d r c;
  Console.vga_get_cursor := λ v, match v with Ret (t, _) => vga_get_cursor t | Fault _ => (0, 0) end;
  Console.vga_get_size := λ v, match v with Ret (t, _) => vga_get_size t | Fault _ => (0, 0) end;
  Console.vga_set_color := λ v fg bg, '(t, d) ← v; Ret (vga_set_color t fg bg, d);
  Console.vga_get_color := λ v, match v with Ret (t, _) => vga_get_color t | Fault _ => 0 end;
  Console.vga_recolor := λ v fg bg, '(t, d) ← v; vga_recolor t d fg bg;
  Console.vga_set_cursor_visible := λ v b, '(t, d) ← v; d ← vga_set_cursor_visible t d b; Ret (t, d);
  Console.vga_scroll_view := λ v delta, match ('(t, d) ← v; vga_scroll_view t d delta) with Ret (t, d, ok) => (ok, Ret (t, d)) | Fault e => (false, Fault e) end;
  Console.vga_begin_update := λ v, '(t, d) ← v; d ← vga_begin_update t d; Ret (t, d);
  Console.vga_end_update := λ v, '(t, d) ← v; d ← vga_end_update t d; Ret (t, d);
  Console.vga_flush := λ v, '(t, d) ← v; d ← vga_flush t d; Ret (t, d);
  Console.serial_init := λ v, v;
|}.

#[export] Instance vga_words : ScreenWords driver.
Proof. split; intros [[t d]|e]; cbn; split; try apply (wrap_range 32); lia || ulia. Qed.

(** The driver is in a state that stands for the terminal. *)
Definition stands_for (v : driver) (y : tty) : Prop := ∃ t d, v = Ret (t, d) ∧ vga_ok t d ∧ tty_of t d = y.

End driver.

Arguments driver : clear implicits.

(** ** Screens that simulate each other

    What the console needs of a relation between two screens to carry it through. *)

Class ScreenSim {V V' : Type} `{Screen V} `{Screen V'} (R : V → V' → Prop) := {
  sim_putc : ∀ v w c, R v w → R (Console.vga_putc v c) (Console.vga_putc w c);
  sim_clear : ∀ v w, R v w → R (Console.vga_clear v) (Console.vga_clear w);
  sim_clear_line : ∀ v w, R v w → R (Console.vga_clear_line v) (Console.vga_clear_line w);
  sim_move : ∀ v w r c, R v w → 0 ≤ r → 0 ≤ c → R (Console.vga_move_cursor v r c) (Console.vga_move_cursor w r c);
  sim_set_color : ∀ v w fg bg, R v w → R (Console.vga_set_color v fg bg) (Console.vga_set_color w fg bg);
  sim_begin : ∀ v w, R v w → R (Console.vga_begin_update v) (Console.vga_begin_update w);
  sim_end : ∀ v w, R v w → R (Console.vga_end_update v) (Console.vga_end_update w);
  sim_cursor : ∀ v w, R v w → Console.vga_get_cursor v = Console.vga_get_cursor w;
  sim_size : ∀ v w, R v w → Console.vga_get_size v = Console.vga_get_size w;
  sim_color : ∀ v w, R v w → Console.vga_get_color v = Console.vga_get_color w;
}.

Section simulation.
Context {V V' : Type} `{ScreenWords V} `{ScreenWords V'} (R : V → V' → Prop) `{!ScreenSim R}.

Lemma sim_sgr th v w a : R v w → R (a_sgr th v a) (a_sgr th w a).
Proof. intros HR. unfold a_sgr. rewrite (sim_color v w HR). repeat case_match; try done; by apply sim_set_color. Qed.

Lemma sim_sgr_all th l : ∀ v w, R v w → R (foldl (a_sgr th) v l) (foldl (a_sgr th) w l).
Proof. induction l as [|a l IH]; intros v w HR; cbn [foldl]; [done |]. by apply IH, sim_sgr. Qed.

Lemma param_pos args i : Forall (λ a, 0 ≤ a ≤ 99999) args → 1 ≤ param args i 1.
Proof. intros Ha. unfold param. destruct (args !! i) as [a|] eqn:E; [| done]. rewrite Forall_lookup in Ha. specialize (Ha _ _ E). cbn in Ha. destruct (Z.eqb_spec a 0); lia. Qed.

Lemma sim_csi th args cmd v w : Forall (λ a, 0 ≤ a ≤ 99999) args → R v w → R (csi_effect th args cmd v) (csi_effect th args cmd w).
Proof.
  intros Ha HR. unfold csi_effect. pose proof (param_pos args 0 Ha). pose proof (param_pos args 1 Ha). pose proof (cursor_words v) as [Hr Hc]. pose proof (size_words v) as [Hrs Hcs]. rewrite (sim_cursor v w HR), (sim_size v w HR) in *.
  repeat case_match; try done; first [by apply sim_clear | by apply sim_clear_line | by apply sim_sgr_all | apply sim_move; [done | ulia | ulia]].
Qed.

Lemma sim_token th v w tok : token_ok tok → R v w → R (token_effect th v tok) (token_effect th w tok).
Proof.
  intros Ht HR. destruct tok as [c|c|ps f]; cbn [token_effect]; [by apply sim_putc | by apply sim_putc |]. apply sim_csi; [| done]. destruct Ht as (_ & Hd & _).
  unfold csi_params. destruct (decide _); [done | by apply kept_range].
Qed.

Lemma sim_tokens th ts : ∀ v w, Forall token_ok ts → R v w → R (foldl (token_effect th) v ts) (foldl (token_effect th) w ts).
Proof. induction ts as [|tok ts IH]; intros v w Hts HR; cbn [foldl]; [done |]. apply Forall_cons in Hts as [Ht Hts]. by apply IH, sim_token. Qed.

End simulation.

#[export] Instance driver_sim {H P : Type} `{Kmem H} `{PageMap P} : ScreenSim (stands_for (H:=H) (P:=P)).
Proof.
  split; intros v w; intros; match goal with HR : stands_for _ _ |- _ => destruct HR as (t & d & -> & Hok & <-) end; try done;
    cbn [Console.vga_putc Console.vga_clear Console.vga_clear_line Console.vga_move_cursor Console.vga_set_color Console.vga_begin_update Console.vga_end_update vga_screen tty_screen]; mred.
  - destruct (tty_step_refines t d (OpPutc c) Hok I) as (t' & d' & E & Hok' & Ey). by exists t', d'.
  - destruct (tty_step_refines t d OpClear Hok I) as (t' & d' & E & Hok' & Ey). by exists t', d'.
  - destruct (tty_step_refines t d OpClearLine Hok I) as (t' & d' & E & Hok' & Ey). by exists t', d'.
  - destruct (tty_step_refines t d (OpMove r c) Hok) as (t' & d' & E & Hok' & Ey); [done |]. by exists t', d'.
  - destruct (tty_step_refines t d (OpSetColor fg bg) Hok I) as (t' & d' & E & Hok' & Ey). by exists t', d'.
  - destruct (tty_step_refines t d OpBegin Hok I) as (t' & d' & E & Hok' & Ey). by exists t', d'.
  - destruct (tty_step_refines t d OpEnd Hok I) as (t' & d' & E & Hok' & Ey). by exists t', d'.
  - pose proof (vo_grid _ _ Hok) as Hg. cbn. unfold vga_get_size. by rewrite rows_ok, cols_ok.
Qed.

(** ** What the driver promises *)

Lemma effect_mode y op y' : tty_effect y op y' → y_graphic y' = y_graphic y.
Proof. destruct op; cbn [tty_effect]; try (intros ->; done). destruct (0 <? _); [by intros -> |]. by intros (n & _ & ->). Qed.

Lemma runs_mode ops : ∀ y y', tty_runs y ops y' → y_graphic y' = y_graphic y.
Proof. induction ops as [|op ops IH]; intros y y'; cbn [tty_runs]; [by intros -> |]. intros (y1 & He & Hr). rewrite (IH y1 y' Hr). by apply (effect_mode y op). Qed.

Lemma fields_usable info base w h pitch fmt : boot_framebuffer_fields info = Some (base, w, h, pitch, fmt) → base ≠ 0 ∧ 320 ≤ w ∧ 192 ≤ h ∧ w ≤ pitch.
Proof.
  unfold boot_framebuffer_fields. destruct info as [[a i]|]; [| done]. destruct (negb _); [done |]. cbv zeta. destruct (_ || _) eqn:E; [done |]. destruct (_ && _); [done |]. intros [= <- <- <- <- <-].
  unfold VGA_MIN_COLS, VGA_MIN_ROWS, VGA_FONT_W, VGA_FONT_H in E. lia.
Qed.

(** C6: The driver is a terminal.  From any state that satisfies the invariant, every
    sequence of its operations returns without an access outside an array, keeps the
    invariant, and changes the lines, the history, the cursor, the colour, the view,
    the depth of nested updates and the visibility of the cursor as the terminal does:
    characters are put, lines wrap, a full screen scrolls its first line into a history
    that keeps the last lines, and any output returns to the live view.  Switching the
    history on may fail for lack of memory, and then leaves the terminal as it was. *)
Theorem terminal_refines {H P : Type} `{Kmem H} `{PageMap P} (t : term H P) (d : dev) (ops : list tty_op) :
  vga_ok t d → Forall legal ops →
  ∃ t' d', fold_res tty_step ops (t, d) = Ret (t', d') ∧ vga_ok t' d' ∧ tty_runs (tty_of t d) ops (tty_of t' d').
Proof. intros Hok Hl. by apply tty_run_refines. Qed.

(** C18: In text mode the display follows the terminal.  After [vga_init] and any
    operations, each of the 25 rows of 80 characters in the text memory shows the cell
    of the terminal's window (the history included, if the view is scrolled back), and
    outside a batch of updates the CRTC registers hold the position of the cursor if it
    is to be seen and have it switched off otherwise. *)
Theorem text_display_follows {H P : Type} `{Kmem H} `{PageMap P} (t : term H P) (d : dev) (ops : list tty_op) :
  alen (boot_screen_cells t) = VGA_MAX_ROWS * VGA_MAX_COLS → alen (vga_memory d) = VGA_LEGACY_ROWS * VGA_LEGACY_COLS → Forall legal ops →
  ∃ t' d', (s ← vga_init t d; fold_res tty_step ops s) = Ret (t', d') ∧ tty_runs (mk_tty start_screen 0 true false) ops (tty_of t' d') ∧
    (∀ y x, 0 ≤ y < 25 → 0 ≤ x < 80 → displays (pix 80 (vga_memory d') x y) (visible_cell (screen_of t') y x)) ∧
    (update_depth d' = 0 → cursor_shown t' d').
Proof.
  intros Hl Hv Hops. destruct (init_step t d Hl Hv) as (t0 & d0 & -> & Hok0 & Ea & En & Ev & Es). mred.
  destruct (tty_run_refines ops t0 d0 Hok0 Hops) as (t' & d' & -> & Hok' & Hr). exists t', d'.
  assert (Et : tty_of t0 d0 = mk_tty start_screen 0 true false) by (unfold tty_of; by rewrite Es, En, Ev, Ea). rewrite Et in Hr.
  assert (Hg : y_graphic (tty_of t' d') = false) by (by apply (runs_mode ops _ _ Hr)). destruct (text_shown t' d' Hok' Hg) as [Hcells Hcur]. done.
Qed.

(** C7: Escape sequences reach the terminal.  A console in its idle state writes any
    sequence of characters and escape sequences to the driver: nothing faults, the
    driver's state stands for the terminal that the console would have made of the
    abstract one, and in text mode the display shows it. *)
Theorem console_drives_terminal {H P : Type} `{Kmem H} `{PageMap P} (t : term H P) (d : dev) (id : Z) (ts : list token) :
  vga_ok t d → Forall token_ok ts →
  let text := concat (map encode ts) in
  ∃ t' d', console_write_n (V:=driver H P) (idle id) (Some text) (zlen text) (Ret (t, d)) = Ret (idle id, Ret (t', d')) ∧ vga_ok t' d' ∧
    console_write_n (idle id) (Some text) (zlen text) (tty_of t d) = Ret (idle id, tty_of t' d') ∧
    (active (fb d') = false → ∀ y x, 0 ≤ y < 25 → 0 ≤ x < 80 → displays (pix 80 (vga_memory d') x y) (visible_cell (screen_of t') y x)).
Proof.
  intros Hok Hts text. pose proof (write_tokens (V:=driver H P) id ts (Ret (t, d)) [] Hts) as E1. pose proof (write_tokens id ts (tty_of t d) [] Hts) as E2. cbv zeta in E1, E2. fold text in E1, E2. rewrite app_nil_r in E1, E2.
  assert (HR : stands_for (Ret (t, d)) (tty_of t d)) by (by exists t, d).
  destruct (sim_end _ _ (sim_tokens stands_for (theme_of id) ts _ _ Hts (sim_begin _ _ HR))) as (t' & d' & Ev & Hok' & Ey).
  exists t', d'. split_and!; [etrans; [exact E1 |]; by do 2 f_equal | done | etrans; [exact E2 |]; by do 2 f_equal |]. intros Ha. by apply text_shown.
Qed.

(** C19: Switching to the boot framebuffer.  When the boot information describes a usable
    framebuffer and its memory is there, the switch returns; if it fails (a mapping or an
    allocation), the display is as before; if it succeeds, the driver is in
    framebuffer mode, the terminal is the old one (when no memory could be had for another
    grid) or the old one cut or filled up to the grid of 8 by 16 pixel cells that fits the
    screen, and every pixel of the video memory is determined: for a cell that lies
    wholly on the screen the glyph or the background of the cell, the cursor's underline,
    and the current background everywhere else.  On a grid that fits, as a new one
    does, every cell of the terminal is thus shown. *)
Theorem boot_framebuffer_shows {H P : Type} `{Kmem H} `{PageMap P} (t : term H P) (d : dev) (info : info_ptr) (base w h pitch fmt : Z) :
  vga_ok t d → active (fb d) = false → boot_framebuffer_fields info = Some (base, w, h, pitch, fmt) → alen (video_memory d) = pitch * h →
  ∃ t' d' ok, vga_use_boot_framebuffer_early t d info = Ret (t', d', ok) ∧ vga_ok t' d' ∧
    if ok then
      active (fb d') = true ∧ on_clipped t' d' ∧ (grid_fits t' d' → on_display t' d') ∧
      (screen_of t' = screen_of t ∨ ∃ keep, keep ∈ [0; scrollback_capacity t] ∧ screen_of t' = resized (screen_of t) (rows_for h) (cols_for w) keep ∧ on_display t' d')
    else d' = d ∧ screen_of t' = screen_of t.
Proof.
  intros Hok Ha Ef Hv. unfold vga_use_boot_framebuffer_early. rewrite Ef. destruct (fields_usable info base w h pitch fmt Ef) as (Hb & Hw & Hh & Hp).
  destruct (framebuffer_raw_step t d base w h pitch fmt Hok Ha Hb Hw Hh Hp Hv) as (t' & d' & ok & -> & Hc). exists t', d', ok. split; [done |]. destruct ok; [| by destruct Hc as (? & ? & ?)].
  destruct Hc as [Hok' Ha' [Ew Eh] _ Hs Hpic]. assert (Hpic' : grid_fits t' d' → on_display t' d') by (intros Hf; by apply on_clipped_fits). split_and!; [done | done | done | done |]. destruct Hs as [Hs|(keep & Hk & Hs)]; [by left |]. right. exists keep. split_and!; [done | done |]. apply Hpic'.
  unfold grid_fits. rewrite Ew, Eh. assert (term_rows t' = rows_for h ∧ term_cols t' = cols_for w) as [-> ->] by (injection Hs; auto). split; [by apply cols_for_fit | by apply rows_for_fit].
Qed.

(** ** A machine

    Memory mapped one to one, a heap of 100 blocks, a display of 320 by 192 pixels. *)

#[export] Instance identity_pages : PageMap unit := {| vmm_translate := λ _ p, Some (p, 1); vmm_map_4k := λ u _ _ _, (u, true) |}.

Definition sample_term : term arena unit := mk_term 0 0 25 80 0 PNull (anew 21600) (anew 0) 0 None 0 0 0 0 0 None 0 (empty_arena 100) tt [].

Definition sample_dev : dev :=
  mk_dev false false 0 0 false [0; 0] false 0 0 0 (mk_fb false 0 None 0 0 0 0 0 false 0 0) (anew 2000) (anew (320 * 192)) [] (λ t, t) 0.

Definition sample_info : info_ptr :=
  Some (0x1000, mk_bootinfo RABBITBONE_BOOT_MAGIC RABBITBONE_BOOT_VERSION 3 2 RABBITBONE_BOOT_FLAG_UEFI 0 0x2000 0 0 0x4000 0 0 0x5000 16
                  0x80000000 (320 * 2 ^ 32 + 192) (320 * 2 ^ 32 + RABBITBONE_BOOT_FB_FORMAT_BGRX) 0).





(** ** Concrete runs *)

Lemma terminal_refines_witness :
  ∃ t d t' d', vga_init sample_term sample_dev = Ret (t, d) ∧
    fold_res tty_step [OpEnableScrollback; OpBegin; OpPutc 65; OpPutc 10; OpMove 24 79; OpWrite [66; 67; 10] 3; OpEnd; OpScroll 1; OpRecolor 7 0; OpFlush] (t, d) = Ret (t', d') ∧ vga_ok t' d'.
Proof.
  destruct (init_step sample_term sample_dev eq_refl eq_refl) as (t & d & E & Hok & _).
  destruct (terminal_refines t d [OpEnableScrollback; OpBegin; OpPutc 65; OpPutc 10; OpMove 24 79; OpWrite [66; 67; 10] 3; OpEnd; OpScroll 1; OpRecolor 7 0; OpFlush] Hok) as (t' & d' & E' & Hok' & _).
  - rewrite !Forall_cons, Forall_nil; unfold legal, zlen; cbn [length]; lia.
  - exists t, d, t', d'. exact (conj E (conj E' Hok')).
Defined.

Lemma text_display_follows_witness :
  ∃ t' d', (s ← vga_init sample_term sample_dev; fold_res tty_step [OpPutc 65; OpMove 3 4; OpVisible false] s) = Ret (t', d') ∧
    displays (pix 80 (vga_memory d') 0 0) (visible_cell (screen_of t') 0 0) ∧ (update_depth d' = 0 → cursor_shown t' d').
Proof.
  destruct (text_display_follows sample_term sample_dev [OpPutc 65; OpMove 3 4; OpVisible false]) as (t' & d' & E & _ & Hc & Hs); [reflexivity | reflexivity | rewrite !Forall_cons, Forall_nil; unfold legal, zlen; cbn [length]; lia |].
  exists t', d'. split; [exact E |]. split; [apply Hc; lia | exact Hs].
Defined.

Lemma console_drives_terminal_witness :
  ∃ t d t' d', vga_init sample_term sample_dev = Ret (t, d) ∧
    console_write_n (V:=driver arena unit) (idle 0) (Some [0x1b; 91; 53; 59; 51; 72; 65]) 7 (Ret (t, d)) = Ret (idle 0, Ret (t', d')) ∧ vga_ok t' d'.
Proof.
  assert (Hts : Forall token_ok [Csi [[53]; [51]] 72; Txt 65]).
  { repeat (apply Forall_cons; split); try done. split_and!; [done | by apply (bool_decide_unpack _) | done | done]. }
  destruct (init_step sample_term sample_dev eq_refl eq_refl) as (t & d & E & Hok & _).
  destruct (console_drives_terminal t d 0 [Csi [[53]; [51]] 72; Txt 65] Hok Hts) as (t' & d' & E' & Hok' & _).
  exists t, d, t', d'. exact (conj E (conj E' Hok')).
Defined.

Lemma boot_framebuffer_shows_witness :
  ∃ t d t' d', vga_init sample_term sample_dev = Ret (t, d) ∧ vga_use_boot_framebuffer_early t d sample_info = Ret (t', d', true) ∧ vga_ok t' d' ∧ on_clipped t' d'.
Proof.
  destruct (init_step sample_term sample_dev eq_refl eq_refl) as (t & d & E & Hok & Ha & _).
  assert (Hrun : match vga_init sample_term sample_dev with
                 | Ret (t, d) => (alen (video_memory d) =? 320 * 192) && match vga_use_boot_framebuffer_early t d sample_info with Ret (_, _, ok) => ok | Fault _ => false end
                 | Fault _ => false end = true) by (vm_compute; reflexivity).
  rewrite E in Hrun. apply andb_prop in Hrun as [Hv Hrun]. apply Z.eqb_eq in Hv.
  destruct (boot_framebuffer_shows t d sample_info 0x80000000 320 192 320 RABBITBONE_BOOT_FB_FORMAT_BGRX Hok Ha) as (t' & d' & ok & E' & Hok' & Hc); [vm_compute; reflexivity | exact Hv |].
  rewrite E' in Hrun. subst ok. destruct Hc as (_ & Hs & _). exists t, d, t', d'. exact (conj E (conj E' (conj Hok' Hs))).
Defined.
