(* ===== verification/Vfs.v ===== *)
(** * The file-system interface: [kernel/include/rabbitbone/vfs.h]

    The types the virtual file system exchanges with its clients and with the file
    systems below it, and what a program loader relies on when it reads a file
    through it. *)

From Stdlib Require Import ZArith Lia.
From stdpp Require Import prelude list_numbers.
From S2P Require Import Prelude.

Local Open Scope Z_scope.

Definition VFS_NAME_MAX : Z := 64.

Inductive vfs_status_t :=
| VFS_OK | VFS_ERR_NOENT | VFS_ERR_NOMEM | VFS_ERR_INVAL | VFS_ERR_IO | VFS_ERR_NOTDIR | VFS_ERR_ISDIR | VFS_ERR_EXIST
| VFS_ERR_PERM | VFS_ERR_NOSPC | VFS_ERR_NOTEMPTY | VFS_ERR_UNSUPPORTED | VFS_ERR_BUSY.

#[global] Instance vfs_status_eq_dec : EqDecision vfs_status_t.
Proof. solve_decision. Defined.

Inductive vfs_node_type_t := VFS_NODE_FILE | VFS_NODE_DIR | VFS_NODE_DEV | VFS_NODE_SYMLINK.

#[global] Instance vfs_node_type_eq_dec : EqDecision vfs_node_type_t.
Proof. solve_decision. Defined.

Record vfs_stat_t := mk_stat {
  st_type : vfs_node_type_t;
  st_size : Z;
  st_mode : Z;
  st_inode : Z;
  st_fs_id : Z;
  st_nlink : Z;
  st_uid : Z;
  st_gid : Z;
}.

Record vfs_dirent_t := mk_dirent { de_name : list Z; de_type : option vfs_node_type_t; de_size : Z; de_inode : Z }.

(** A reader's view: [vfs_stat path] is the status with [*out] on success,
    [vfs_read path offset size] the status with the bytes stored in the buffer. *)
Class FileReader := {
  vfs_stat : list Z → vfs_status_t * option vfs_stat_t;
  vfs_read : list Z → Z → Z → vfs_status_t * list Z;
  vfs_stat_ok : ∀ path st o, vfs_stat path = (st, o) → st = VFS_OK → ∃ s, o = Some s ∧ is_u64 (st_size s);
  vfs_read_fits : ∀ path off size, 0 ≤ size → zlen (vfs_read path off size).2 ≤ size;
  vfs_read_bytes : ∀ path off size, Forall is_u8 (vfs_read path off size).2;
}.

(** [path] is a file with the bytes [c]: a successful read returns them. *)
Definition has_content `{FileReader} (path c : list Z) : Prop :=
  ∀ off size d, 0 ≤ off → 0 ≤ size → vfs_read path off size = (VFS_OK, d) → d = take (Z.to_nat size) (drop (Z.to_nat off) c).
