(* ===== verification/Elf.v ===== *)
(** * The program loader: [kernel/exec/elf64.c]

    Validation of ELF headers and the loading of a static executable into heap
    memory.  The file is read through the class [FileReader], memory comes from the
    class [Kmem]; the two on-disk structures are decoded from the bytes read.  A
    segment's [memory] is the address of a heap block. *)

From Stdlib Require Import ZArith Lia String.
From stdpp Require Import prelude list_numbers zmap.
From S2P Require Import Prelude Arith CString Printf Log Kmem Vfs.

Local Open Scope Z_scope.

Definition ELF64_PT_LOAD : Z := 1.
Definition ELF64_PT_DYNAMIC : Z := 2.
Definition ELF64_PT_INTERP : Z := 3.
Definition ELF64_ET_EXEC : Z := 2.
Definition ELF64_ET_DYN : Z := 3.
Definition ELF64_EM_X86_64 : Z := 62.
Definition ELF64_PF_X : Z := 1.
Definition ELF64_PF_W : Z := 2.
Definition ELF64_PF_R : Z := 4.
Definition USER_IMAGE_BASE : Z := 0x10000000000.
Definition USER_SPACE_LIMIT : Z := 0x800000000000.
Definition SIZE_LIMIT : Z := 64 * 1024 * 1024.
(** [sizeof] of the two packed structures and of a segment record. *)
Definition SIZEOF_EHDR : Z := 64.
Definition SIZEOF_PHDR : Z := 56.
Definition SIZEOF_SEGMENT : Z := 40.

Inductive elf_status_t := ELF_OK | ELF_ERR_IO | ELF_ERR_FORMAT | ELF_ERR_UNSUPPORTED | ELF_ERR_NOMEM | ELF_ERR_RANGE.

#[global] Instance elf_status_eq_dec : EqDecision elf_status_t.
Proof. solve_decision. Defined.

Record elf64_ehdr_t := mk_ehdr {
  e_ident : list Z; e_type : Z; e_machine : Z; e_version : Z; e_entry : Z; e_phoff : Z; e_shoff : Z; e_flags : Z;
  e_ehsize : Z; e_phentsize : Z; e_phnum : Z; e_shentsize : Z; e_shnum : Z; e_shstrndx : Z;
}.

Record elf64_phdr_t := mk_phdr {
  p_type : Z; p_flags : Z; p_offset : Z; p_vaddr : Z; p_paddr : Z; p_filesz : Z; p_memsz : Z; p_align : Z;
}.

Record elf_loaded_segment_t := mk_segment { vaddr : Z; memsz : Z; filesz : Z; sflags : Z; memory : Z }.

(** [segments] is the address of the array and its elements. *)
Record elf_loaded_image_t := mk_image { entry : Z; segment_count : Z; segments : option (Z * list elf_loaded_segment_t) }.

Definition zero_segment : elf_loaded_segment_t := mk_segment 0 0 0 0 0.
Definition zero_image : elf_loaded_image_t := mk_image 0 0 None.

(** The little-endian integer in the [n] bytes from offset [off]. *)
Definition le_word (b : list Z) (off n : nat) : Z := foldr (λ x acc, x + 256 * acc) 0 (take n (drop off b)).

Definition ehdr_of_bytes (b : list Z) : elf64_ehdr_t :=
  mk_ehdr (take 16 b) (le_word b 16 2) (le_word b 18 2) (le_word b 20 4) (le_word b 24 8) (le_word b 32 8) (le_word b 40 8)
    (le_word b 48 4) (le_word b 52 2) (le_word b 54 2) (le_word b 56 2) (le_word b 58 2) (le_word b 60 2) (le_word b 62 2).

Definition phdr_of_bytes (b : list Z) : elf64_phdr_t :=
  mk_phdr (le_word b 0 4) (le_word b 4 4) (le_word b 8 8) (le_word b 16 8) (le_word b 24 8) (le_word b 32 8) (le_word b 40 8) (le_word b 48 8).

Definition elf_status_name (st : elf_status_t) : list Z :=
  match st with
  | ELF_OK => lit "ok"
  | ELF_ERR_IO => lit "io"
  | ELF_ERR_FORMAT => lit "format"
  | ELF_ERR_UNSUPPORTED => lit "unsupported"
  | ELF_ERR_NOMEM => lit "no-memory"
  | ELF_ERR_RANGE => lit "range"
  end.

Definition elf64_is_power_of_two (v : Z) : bool := negb (v =? 0) && (Z.land v (wrap64 (v - 1)) =? 0).

Definition elf64_congruent_mod_power2 (a b mod_ : Z) : bool :=
  if mod_ <=? 1 then true else Z.land a (mod_ - 1) =? Z.land b (mod_ - 1).

Definition elf64_ranges_overlap (a_start a_end b_start b_end : Z) : bool := (a_start <? b_end) && (b_start <? a_end).

Definition elf64_validate_load_segment (ph : option elf64_phdr_t) (file_size user_min user_limit : Z) : elf_status_t :=
  match ph with
  | None => ELF_ERR_FORMAT
  | Some ph =>
      if negb (p_type ph =? ELF64_PT_LOAD) then ELF_ERR_FORMAT else
      let off := p_offset ph in let va := p_vaddr ph in let fsz := p_filesz ph in let msz := p_memsz ph in
      let align := p_align ph in let pf := p_flags ph in
      if msz <? fsz then ELF_ERR_FORMAT else
      if negb (Z.land pf (lnot_w 32 (Z.lor (Z.lor ELF64_PF_X ELF64_PF_W) ELF64_PF_R)) =? 0) then ELF_ERR_FORMAT else
      if negb (Z.land pf ELF64_PF_X =? 0) && negb (Z.land pf ELF64_PF_W =? 0) then ELF_ERR_UNSUPPORTED else
      if (1 <? align) && negb (elf64_is_power_of_two align) then ELF_ERR_FORMAT else
      if (1 <? align) && negb (elf64_congruent_mod_power2 va off align) then ELF_ERR_FORMAT else
      match add_u64 off fsz with
      | None => ELF_ERR_RANGE
      | Some file_end =>
          if file_size <? file_end then ELF_ERR_RANGE else
          match add_u64 va msz with
          | None => ELF_ERR_RANGE
          | Some mem_end =>
              if negb (msz =? 0) && ((va <? user_min) || (user_limit <? mem_end)) then ELF_ERR_RANGE else ELF_OK
          end
      end
  end.

Definition elf64_validate_header (h : option elf64_ehdr_t) (file_size : Z) : res elf_status_t :=
  match h with
  | None => Ret ELF_ERR_FORMAT
  | Some h =>
      if file_size <? SIZEOF_EHDR then Ret ELF_ERR_FORMAT else
      i0 ← rd (e_ident h) 0; i1 ← rd (e_ident h) 1; i2 ← rd (e_ident h) 2; i3 ← rd (e_ident h) 3;
      if negb (i0 =? 0x7f) || negb (i1 =? 69) || negb (i2 =? 76) || negb (i3 =? 70) then Ret ELF_ERR_FORMAT else
      i4 ← rd (e_ident h) 4; i5 ← rd (e_ident h) 5; i6 ← rd (e_ident h) 6;
      if negb (i4 =? 2) || negb (i5 =? 1) || negb (i6 =? 1) then Ret ELF_ERR_UNSUPPORTED else
      if negb (e_type h =? ELF64_ET_EXEC) && negb (e_type h =? ELF64_ET_DYN) then Ret ELF_ERR_UNSUPPORTED else
      if negb (e_flags h =? 0) then Ret ELF_ERR_UNSUPPORTED else
      if negb (e_machine h =? ELF64_EM_X86_64) then Ret ELF_ERR_UNSUPPORTED else
      if negb (e_version h =? 1) then Ret ELF_ERR_FORMAT else
      if negb (e_ehsize h =? SIZEOF_EHDR) then Ret ELF_ERR_FORMAT else
      if negb (e_phentsize h =? SIZEOF_PHDR) then Ret ELF_ERR_FORMAT else
      if (e_phnum h =? 0) || (64 <? e_phnum h) then Ret ELF_ERR_FORMAT else
      if e_phoff h <? SIZEOF_EHDR then Ret ELF_ERR_FORMAT else
      match mul_u64 (e_phnum h) (e_phentsize h) with
      | None => Ret ELF_ERR_RANGE
      | Some ph_size =>
          match add_u64 (e_phoff h) ph_size with
          | None => Ret ELF_ERR_RANGE
          | Some ph_end => Ret (if file_size <? ph_end then ELF_ERR_RANGE else ELF_OK)
          end
      end
  end.

Section loader.
Context `{FR : FileReader} {H : Type} `{KM : Kmem H}.

(** The status and the bytes put at the start of the buffer. *)
Definition read_exact (path : list Z) (off size : Z) : elf_status_t * list Z :=
  let '(st, d) := vfs_read path off size in
  if decide (st ≠ VFS_OK) then (ELF_ERR_IO, d) else (if zlen d =? size then ELF_OK else ELF_ERR_RANGE, d).

(** A read into a heap block. *)
Definition read_block (h : H) (path : list Z) (off p size : Z) : res (elf_status_t * H) :=
  let '(es, d) := read_exact path off size in
  b ← peek h p;
  b ← memcpy b d (zlen d);
  Ret (es, poke h p b).

Definition elf64_free_image (h : H) (img : option elf_loaded_image_t) : res (option elf_loaded_image_t * H) :=
  match img with
  | None => Ret (None, h)
  | Some img =>
      h ← match segments img with
          | None => Ret h
          | Some (p, arr) =>
              h ← for_n (Z.to_nat (segment_count img)) 0 (λ i h, s ← rd arr i; kfree h (memory s)) h;
              kfree h p
          end;
      Ret (Some zero_image, h)
  end.

(** The first pass over the program headers: the number of loadable segments. *)
Definition count_loads (tbl : list Z) (phnum : Z) : res (option Z) :=
  c ← loop_n (Z.to_nat phnum) 0 (λ i n,
        let t := p_type (phdr_of_bytes (drop (Z.to_nat (i * SIZEOF_PHDR)) tbl)) in
        if t =? ELF64_PT_LOAD then Ret (Next (wrap16 (n + 1)))
        else if (t =? ELF64_PT_INTERP) || (t =? ELF64_PT_DYNAMIC) then Ret (Done tt) else Ret (Next n)) 0;
  match c with Next n => Ret (Some n) | Done _ => Ret None end.

(** The variables of the second pass. *)
Record load_state := mk_load {
  ls_segments : list elf_loaded_segment_t;
  loaded_starts : list Z;
  loaded_ends : list Z;
  loaded_count : Z;
  seg_index : Z;
  entry_in_exec_segment : bool;
  ls_heap : H;
}.

(** What reaches the label [fail]. *)
Definition load_failure : Type := elf_status_t * list elf_loaded_segment_t * H.

Definition overlaps_loaded (va mem_end : Z) (s : load_state) : res bool :=
  c ← loop_n (Z.to_nat (loaded_count s)) 0 (λ j (_ : unit),
        a ← rd (loaded_starts s) j;
        b ← rd (loaded_ends s) j;
        if elf64_ranges_overlap va mem_end a b then Ret (Done tt) else Ret (Next tt)) tt;
  match c with Done _ => Ret true | Next _ => Ret false end.

(** The memory of one segment: allocated, zeroed, filled from the file.  The block
    is freed again when the file cannot be read. *)
Definition load_memory (path : list Z) (h : H) (off fsz msz : Z) : res (elf_status_t * Z * H) :=
  match kmalloc h msz with
  | (None, h) => Ret (ELF_ERR_NOMEM, 0, h)
  | (Some mem, h) =>
      b ← peek h mem;
      b ← memset b 0 msz;
      let h := poke h mem b in
      if negb (fsz =? 0) then
        '(es, h) ← read_block h path off mem fsz;
        if decide (es ≠ ELF_OK) then h ← kfree h mem; Ret (es, 0, h) else Ret (ELF_OK, mem, h)
      else Ret (ELF_OK, mem, h)
  end.

(** One turn of the second pass. *)
Definition load_segment (path : list Z) (file_size ent : Z) (ph : elf64_phdr_t) (s : load_state) : res (ctl load_state load_failure) :=
  if negb (p_type ph =? ELF64_PT_LOAD) then Ret (Next s) else
  let fail es h := Ret (Done (es, ls_segments s, h)) in
  let es := elf64_validate_load_segment (Some ph) file_size USER_IMAGE_BASE USER_SPACE_LIMIT in
  if decide (es ≠ ELF_OK) then fail es (ls_heap s) else
  let off := p_offset ph in let va := p_vaddr ph in let fsz := p_filesz ph in let msz := p_memsz ph in
  let mem_end := wrap64 (va + msz) in
  if (msz =? 0) || (SIZE_LIMIT <? msz) then fail ELF_ERR_UNSUPPORTED (ls_heap s) else
  let exec := if negb (Z.land (p_flags ph) ELF64_PF_X =? 0) && (va <=? ent) && (ent <? mem_end) then true else entry_in_exec_segment s in
  clash ← overlaps_loaded va mem_end s;
  if (clash : bool) then fail ELF_ERR_FORMAT (ls_heap s) else
  starts ← wr (loaded_starts s) (loaded_count s) va;
  ends ← wr (loaded_ends s) (loaded_count s) mem_end;
  '(es, mem, h) ← load_memory path (ls_heap s) off fsz msz;
  if decide (es ≠ ELF_OK) then fail es h else
  segs ← wr (ls_segments s) (seg_index s) (mk_segment va msz fsz (p_flags ph) mem);
  Ret (Next (mk_load segs starts ends (wrap16 (loaded_count s + 1)) (wrap16 (seg_index s + 1)) exec h)).

(** The status, [*out] and the message logged.  [eh0] is the stack storage of the
    header. *)
Definition load_result : Type := elf_status_t * elf_loaded_image_t * list klog_call * H.

(** From the allocation of the segment array on; [ph] is the header table block. *)
Definition load_segments (h : H) (path tbl : list Z) (ph phnum load_count file_size ent : Z) : res load_result :=
  match kcalloc h load_count SIZEOF_SEGMENT with
  | (None, h) => h ← kfree h ph; Ret (ELF_ERR_NOMEM, zero_image, [], h)
  | (Some arr, h) =>
      c ← loop_n (Z.to_nat phnum) 0 (λ i s,
            load_segment path file_size ent (phdr_of_bytes (drop (Z.to_nat (i * SIZEOF_PHDR)) tbl)) s)
          (mk_load (replicate (Z.to_nat load_count) zero_segment) (replicate 64 0) (replicate 64 0) 0 0 false h);
      let '(es, segs, h) := match c with
        | Done f => f
        | Next s => (if entry_in_exec_segment s then ELF_OK else ELF_ERR_FORMAT, ls_segments s, ls_heap s)
        end in
      let img := mk_image ent load_count (Some (arr, segs)) in
      h ← kfree h ph;
      if decide (es = ELF_OK) then
        Ret (ELF_OK, img, [mk_klog LOG_INFO (lit "elf") (lit "loaded %s entry=%p segments=%u") [VStr (Some path); VPtr ent; VInt load_count]], h)
      else '(img, h) ← elf64_free_image h (Some img); Ret (es, default zero_image img, [], h)
  end.

(** From the allocation of the header table on. *)
Definition load_table (h : H) (path : list Z) (eh : elf64_ehdr_t) (file_size : Z) : res load_result :=
  let error es h : res load_result := Ret (es, zero_image, [], h) in
  match kcalloc h (e_phnum eh) SIZEOF_PHDR with
  | (None, h) => error ELF_ERR_NOMEM h
  | (Some ph, h) =>
      '(es, h) ← read_block h path (e_phoff eh) ph (e_phnum eh * SIZEOF_PHDR);
      if decide (es ≠ ELF_OK) then h ← kfree h ph; error es h else
      tbl ← peek h ph;
      n ← count_loads tbl (e_phnum eh);
      match n with
      | None => h ← kfree h ph; error ELF_ERR_UNSUPPORTED h
      | Some load_count =>
          if load_count =? 0 then h ← kfree h ph; error ELF_ERR_FORMAT h else
          load_segments h path tbl ph (e_phnum eh) load_count file_size (e_entry eh)
      end
  end.

Definition elf64_load_from_vfs (h : H) (path : option (list Z)) (out : bool) (eh0 : list Z) : res load_result :=
  match path with
  | None => Ret (ELF_ERR_FORMAT, zero_image, [], h)
  | Some path =>
      if negb out then Ret (ELF_ERR_FORMAT, zero_image, [], h) else
      let error es : res load_result := Ret (es, zero_image, [], h) in
      match vfs_stat path with
      | (VFS_OK, Some st) =>
          if decide (st_type st ≠ VFS_NODE_FILE) then error ELF_ERR_IO else
          if SIZE_LIMIT <? st_size st then error ELF_ERR_UNSUPPORTED else
          let '(es, d) := read_exact path 0 SIZEOF_EHDR in
          eh ← memcpy eh0 d (zlen d);
          if decide (es ≠ ELF_OK) then error es else
          let eh := ehdr_of_bytes eh in
          es ← elf64_validate_header (Some eh) (st_size st);
          if decide (es ≠ ELF_OK) then error es else
          if negb (e_type eh =? ELF64_ET_EXEC) then error ELF_ERR_UNSUPPORTED else
          if (e_entry eh <? USER_IMAGE_BASE) || (USER_SPACE_LIMIT <=? e_entry eh) then error ELF_ERR_RANGE else
          load_table h path eh (st_size st)
      | _ => error ELF_ERR_IO
      end
  end.

End loader.

(** ** Validation *)

(** What a loadable header may say. *)
Record segment_valid (ph : elf64_phdr_t) (file_size user_min user_limit : Z) : Prop := {
  sv_type : p_type ph = ELF64_PT_LOAD;
  sv_sizes : p_filesz ph ≤ p_memsz ph;
  sv_flags : p_flags ph < 8;
  sv_wx : Z.testbit (p_flags ph) 0 = false ∨ Z.testbit (p_flags ph) 1 = false;
  sv_align : p_align ph ≤ 1 ∨ ∃ k, 0 ≤ k ∧ p_align ph = 2 ^ k ∧ p_vaddr ph mod 2 ^ k = p_offset ph mod 2 ^ k;
  sv_file : p_offset ph + p_filesz ph ≤ file_size;
  sv_space : p_vaddr ph + p_memsz ph ≤ U64MAX;
  sv_range : p_memsz ph = 0 ∨ (user_min ≤ p_vaddr ph ∧ p_vaddr ph + p_memsz ph ≤ user_limit);
}.

Definition phdr_words (ph : elf64_phdr_t) : Prop :=
  is_u32 (p_type ph) ∧ is_u32 (p_flags ph) ∧ Forall is_u64 [p_offset ph; p_vaddr ph; p_filesz ph; p_memsz ph; p_align ph].

Lemma land_bit x k : 0 ≤ k → negb (Z.land x (2 ^ k) =? 0) = Z.testbit x k.
Proof.
  intros Hk. destruct (Z.testbit x k) eqn:E.
  - apply negb_true_iff, Z.eqb_neq. intros E0. apply (f_equal (λ y, Z.testbit y k)) in E0.
    by rewrite Z.land_spec, E, Z.pow2_bits_true, Z.bits_0 in E0.
  - apply negb_false_iff, Z.eqb_eq, Z.bits_inj'. intros i Hi. rewrite Z.land_spec, Z.bits_0.
    destruct (decide (i = k)) as [->|]; [by rewrite E | by rewrite Z.pow2_bits_false, andb_false_r].
Qed.

Lemma flags_mask pf : is_u32 pf → (Z.land pf (lnot_w 32 7) =? 0) = (pf <? 8).
Proof.
  intros Hp. assert (H8 : (pf <? 8) = true ↔ ∀ i, 3 ≤ i → Z.testbit pf i = false).
  { rewrite Z.ltb_lt. split.
    - intros Hlt i Hi. apply (testbit_high 3); [ulia | done].
    - intros Hb. apply (bits_bound 3); [done | ulia | done]. }
  apply eq_true_iff_eq. rewrite H8, Z.eqb_eq. split.
  - intros E i Hi. destruct (decide (i < 32)); [| apply (testbit_high 32); [ulia | lia]].
    apply (f_equal (λ y, Z.testbit y i)) in E. rewrite Z.land_spec, lnot_w_testbit, Z.bits_0 in E by lia.
    rewrite (testbit_high 3 7 i) in E by lia. destruct (Z.ltb_spec i 32); [| lia]. cbn in E. by rewrite andb_true_r in E.
  - intros Hb. apply Z.bits_inj'. intros i Hi. rewrite Z.land_spec, lnot_w_testbit, Z.bits_0 by lia.
    destruct (decide (3 ≤ i)); [by rewrite Hb |]. assert (i = 0 ∨ i = 1 ∨ i = 2) as [->|[->| ->]] by lia; by rewrite andb_false_r.
Qed.

Lemma pow2_test v : is_u64 v → 1 < v → elf64_is_power_of_two v = true ↔ ∃ k, 0 ≤ k ∧ v = 2 ^ k.
Proof.
  intros Hv H1. change (elf64_is_power_of_two v) with (is_power_of_two_u64 v). rewrite is_power_of_two_u64_spec by done.
  split; [intros (k & Hk & ->); exists k; split; [lia | done] |]. intros (k & Hk & ->). exists k. split; [| done]. split; [done |].
  destruct Hv as [_ Hv]. apply Z.pow_lt_mono_r_iff in Hv; lia.
Qed.

Lemma low_bits_eq a b k : 0 ≤ k → (Z.land a (2 ^ k - 1) =? Z.land b (2 ^ k - 1)) = (a mod 2 ^ k =? b mod 2 ^ k).
Proof.
  intros Hk. replace (2 ^ k - 1) with (Z.ones k) by (rewrite Z.ones_equiv; lia). by rewrite !Z.land_ones.
Qed.

Lemma align_test ph :
  phdr_words ph →
  (1 <? p_align ph) && negb (elf64_is_power_of_two (p_align ph)) = false ∧
  (1 <? p_align ph) && negb (elf64_congruent_mod_power2 (p_vaddr ph) (p_offset ph) (p_align ph)) = false ↔
  p_align ph ≤ 1 ∨ ∃ k, 0 ≤ k ∧ p_align ph = 2 ^ k ∧ p_vaddr ph mod 2 ^ k = p_offset ph mod 2 ^ k.
Proof.
  intros (_ & _ & Hw). do 4 apply Forall_cons in Hw as [_ Hw]. apply Forall_cons in Hw as [Hal _].
  destruct (Z.ltb_spec 1 (p_align ph)) as [H1|H1]; [cbn [andb] | by split; [left | split]].
  rewrite !negb_false_iff, (pow2_test _ Hal H1). unfold elf64_congruent_mod_power2.
  destruct (Z.leb_spec (p_align ph) 1); [lia |]. split.
  - intros [(k & Hk & ->) E]. right. exists k. rewrite low_bits_eq, Z.eqb_eq in E by done. done.
  - intros [?|(k & Hk & E & Hmod)]; [lia |]. rewrite E. split; [by exists k |]. by rewrite low_bits_eq, Z.eqb_eq.
Qed.

Lemma validate_segment_spec ph fs umin ulim :
  phdr_words ph → is_u64 fs → elf64_validate_load_segment (Some ph) fs umin ulim = ELF_OK ↔ segment_valid ph fs umin ulim.
Proof.
  intros Hw Hfs. pose proof (align_test ph Hw) as Hal. pose proof Hw as (_ & Hpf & Hws).
  do 5 (apply Forall_cons in Hws as [? Hws]). unfold elf64_validate_load_segment.
  change (Z.lor (Z.lor ELF64_PF_X ELF64_PF_W) ELF64_PF_R) with 7. rewrite (flags_mask _ Hpf).
  change ELF64_PF_X with (2 ^ 0). change ELF64_PF_W with (2 ^ 1). rewrite !land_bit by lia.
  destruct (add_u64 (p_offset ph) (p_filesz ph)) as [fe|] eqn:Efe; [apply add_u64_Some in Efe as [Hfe ->] | apply add_u64_None in Efe].
  2: { split; [repeat case_match; discriminate |]. intros []. ulia. }
  destruct (add_u64 (p_vaddr ph) (p_memsz ph)) as [me|] eqn:Eme; [apply add_u64_Some in Eme as [Hme ->] | apply add_u64_None in Eme].
  2: { split; [repeat case_match; discriminate |]. intros []. lia. }
  split.
  - intros E. repeat match type of E with context [if ?b then _ else _] => destruct b eqn:?; try discriminate end. split; try (apply Hal; by split); repeat rewrite ?negb_false_iff, ?negb_true_iff in *; try lia.
    all: destruct (Z.testbit (p_flags ph) 0), (Z.testbit (p_flags ph) 1); try done; auto.
  - intros [T1 T2 T3 T4 T5 T6 T7 T8]. apply Hal in T5 as [A1 A2]. rewrite A1, A2.
    destruct (Z.eqb_spec (p_type ph) ELF64_PT_LOAD); [cbn [negb] | done].
    destruct (Z.ltb_spec (p_memsz ph) (p_filesz ph)); [lia |]. destruct (Z.ltb_spec (p_flags ph) 8); [cbn [negb] | lia].
    assert (Z.testbit (p_flags ph) 0 && Z.testbit (p_flags ph) 1 = false) as -> by (destruct T4 as [-> | ->]; [done | apply andb_false_r]).
    destruct (Z.ltb_spec fs (p_offset ph + p_filesz ph)); [lia |].
    case_match eqn:E; [| done]. rewrite andb_true_iff, orb_true_iff, negb_true_iff in E. lia.
Qed.

(** What an acceptable file header says. *)
Record header_valid (h : elf64_ehdr_t) (file_size : Z) : Prop := {
  hv_ident : take 7 (e_ident h) = [0x7f; 69; 76; 70; 2; 1; 1];
  hv_kind : (e_type h = ELF64_ET_EXEC ∨ e_type h = ELF64_ET_DYN) ∧ e_machine h = ELF64_EM_X86_64 ∧ e_version h = 1 ∧ e_flags h = 0;
  hv_layout : e_ehsize h = SIZEOF_EHDR ∧ e_phentsize h = SIZEOF_PHDR ∧ 1 ≤ e_phnum h ≤ 64;
  hv_table : SIZEOF_EHDR ≤ e_phoff h ∧ e_phoff h + e_phnum h * SIZEOF_PHDR ≤ file_size;
}.

Lemma validate_header_spec h fs :
  zlen (e_ident h) = 16 → is_u64 (e_phoff h) → 0 ≤ e_phnum h → is_u64 fs →
  ∃ es, elf64_validate_header (Some h) fs = Ret es ∧ (es = ELF_OK ↔ header_valid h fs).
Proof.
  intros Hi Hpo Hpn Hfs. unfold elf64_validate_header.
  destruct (Z.ltb_spec fs SIZEOF_EHDR) as [Hlt|Hge].
  { eexists. split; [done |]. split; [done |]. intros [_ _ _ [? ?]]. unfold SIZEOF_EHDR, SIZEOF_PHDR in *. lia. }
  destruct (e_ident h) as [|i0 [|i1 [|i2 [|i3 [|i4 [|i5 [|i6 rest]]]]]]] eqn:Eid; try discriminate.
  change (rd (i0 :: i1 :: i2 :: i3 :: i4 :: i5 :: i6 :: rest) 0) with (Ret i0). change (rd (i0 :: i1 :: i2 :: i3 :: i4 :: i5 :: i6 :: rest) 1) with (Ret i1).
  change (rd (i0 :: i1 :: i2 :: i3 :: i4 :: i5 :: i6 :: rest) 2) with (Ret i2). change (rd (i0 :: i1 :: i2 :: i3 :: i4 :: i5 :: i6 :: rest) 3) with (Ret i3).
  change (rd (i0 :: i1 :: i2 :: i3 :: i4 :: i5 :: i6 :: rest) 4) with (Ret i4). change (rd (i0 :: i1 :: i2 :: i3 :: i4 :: i5 :: i6 :: rest) 5) with (Ret i5).
  change (rd (i0 :: i1 :: i2 :: i3 :: i4 :: i5 :: i6 :: rest) 6) with (Ret i6). mred.
  assert (Hno : ∀ es, es ≠ ELF_OK → ¬ header_valid h fs → ∃ es', Ret es = Ret es' ∧ (es' = ELF_OK ↔ header_valid h fs)).
  { intros es H1 H2. exists es. split; [done |]. split; [done | intros; by destruct H2]. }
  repeat match goal with |- context [if ?b then Ret _ else _] => destruct b eqn:?; [apply Hno; [done |]; intros [V1 V2 V3 V4]; rewrite Eid in V1; cbn in V1; simplify_eq; unfold SIZEOF_EHDR, SIZEOF_PHDR in *; lia |] end.
  repeat rewrite ?orb_false_iff, ?andb_false_iff, ?negb_false_iff, ?negb_true_iff, ?Z.eqb_eq, ?Z.ltb_ge in *.
  destruct (mul_u64 (e_phnum h) (e_phentsize h)) as [sz|] eqn:Em.
  2: { exfalso. unfold mul_u64 in Em. case_match eqn:E2; [done |]. unfold SIZEOF_PHDR in *. ulia. }
  apply mul_u64_Some in Em as [_ ->].
  destruct (add_u64 _ _) as [pe|] eqn:Ea; [apply add_u64_Some in Ea as [_ ->] | apply add_u64_None in Ea].
  2: { apply Hno; [done |]. intros [V1 V2 V3 V4]. unfold SIZEOF_PHDR in *. ulia. }
  destruct (Z.ltb_spec fs (e_phoff h + e_phnum h * e_phentsize h)).
  { apply Hno; [done |]. intros [V1 V2 V3 V4]. unfold SIZEOF_PHDR in *. lia. }
  eexists. split; [done |]. split; [intros _ | done]. destruct_and!.
  split; unfold ELF64_ET_EXEC, ELF64_ET_DYN, ELF64_EM_X86_64, SIZEOF_EHDR, SIZEOF_PHDR in *; [rewrite Eid; by simplify_eq | | lia | lia].
  split_and!; try done; lia.
Qed.

(** ** The heap during loading *)

(** The bytes a header asks for: the file's, then zeros. *)
Definition image_of (c : list Z) (ph : elf64_phdr_t) : list Z :=
  take (Z.to_nat (p_filesz ph)) (drop (Z.to_nat (p_offset ph)) c) ++ replicate (Z.to_nat (p_memsz ph - p_filesz ph)) 0.

Definition seg_of (e : elf64_phdr_t * Z) : elf_loaded_segment_t :=
  mk_segment (p_vaddr e.1) (p_memsz e.1) (p_filesz e.1) (p_flags e.1) e.2.

Section correctness.
Context `{FR : FileReader} {H : Type} `{KM : Kmem H}.
Context (path c : list Z) (Hpath : has_content path c).

(** On top of the blocks [m], one new block for each loaded segment. *)
Record heap_holds (m : Zmap (list Z)) (l : list (elf64_phdr_t * Z)) (h : H) : Prop := {
  hh_new : ∀ ph p, (ph, p) ∈ l → blocks h !! p = Some (image_of c ph);
  hh_old : ∀ q, q ∉ l.*2 → blocks h !! q = m !! q;
  hh_nodup : NoDup l.*2;
  hh_fresh : ∀ p, p ∈ l.*2 → p ≠ 0 ∧ m !! p = None;
}.

Lemma heap_holds_nil h : heap_holds (blocks h) [] h.
Proof. split; [by intros ? ? ?%not_elem_of_nil | done | constructor | by intros ? ?%not_elem_of_nil]. Qed.

Lemma heap_holds_ext m l h h' : heap_holds m l h → blocks h' = blocks h → heap_holds m l h'.
Proof. intros [] E. split; rewrite ?E; done. Qed.

(** Freeing an older block. *)
Lemma heap_holds_free m l h q b :
  heap_holds m l h → q ≠ 0 → m !! q = Some b → ∃ h', kfree h q = Ret h' ∧ heap_holds (delete q m) l h'.
Proof.
  intros [H1 H2 H3 H4] Hq Hm. assert (Hql : q ∉ l.*2) by (intros Hin; destruct (H4 q Hin); congruence).
  destruct (kfree_live h q b Hq) as (h' & -> & E); [by rewrite H2 |]. exists h'. split; [done |].
  split; [| | done |]; rewrite ?E.
  - intros ph p Hin. rewrite lookup_delete_ne; [by apply H1 |]. intros ->. apply Hql. by eapply (list_elem_of_fmap_2 snd _ (ph, p)).
  - intros q' Hq'. destruct (decide (q = q')) as [->|]; [by rewrite !lookup_delete_eq | rewrite !lookup_delete_ne by done; by apply H2].
  - intros p Hp. destruct (H4 p Hp). split; [done |]. rewrite lookup_delete_ne; [done |]. by intros ->.
Qed.

(** A new block. *)
Lemma heap_holds_snoc m l h h' ph p :
  heap_holds m l h → p ≠ 0 → blocks h !! p = None → blocks h' = <[p := image_of c ph]> (blocks h) → heap_holds m (l ++ [(ph, p)]) h'.
Proof.
  intros [H1 H2 H3 H4] Hp Hnew E.
  assert (Hpl : p ∉ l.*2). { intros ([ph' p'] & -> & Hin)%list_elem_of_fmap. cbn in Hnew. by rewrite (H1 _ _ Hin) in Hnew. }
  split; rewrite ?fmap_app, ?E.
  - intros ph' p' [Hin|[= -> ->]%list_elem_of_singleton]%elem_of_app; [| by rewrite lookup_insert_eq].
    rewrite lookup_insert_ne; [by apply H1 |]. intros ->. apply Hpl. by eapply (list_elem_of_fmap_2 snd _ (ph', p')).
  - intros q Hq. apply not_elem_of_app in Hq as [Hq1 Hq2]. rewrite lookup_insert_ne; [by apply H2 |].
    intros ->. apply Hq2. apply list_elem_of_here.
  - apply NoDup_app. split_and!; [done | | apply NoDup_singleton]. by intros x Hx ->%list_elem_of_singleton.
  - intros q [Hq|Hq]%elem_of_app; [by apply H4 |]. apply list_elem_of_singleton in Hq as ->. split; [done |]. by rewrite <- H2.
Qed.

Lemma read_exact_spec off size :
  0 ≤ off → 0 ≤ size → ∃ es d, read_exact path off size = (es, d) ∧ zlen d ≤ size ∧ Forall is_u8 d ∧
    (es = ELF_OK → d = take (Z.to_nat size) (drop (Z.to_nat off) c) ∧ zlen d = size).
Proof.
  intros Ho Hs. unfold read_exact. pose proof (vfs_read_fits path off size Hs) as Hfit. pose proof (vfs_read_bytes path off size) as Hb.
  destruct (vfs_read path off size) as [st d] eqn:E. cbn [snd] in *. case_decide as Hst.
  - eexists _, _. split; [done |]. split_and!; done.
  - eexists _, _. split; [done |]. split; [done |]. split; [done |]. destruct (Z.eqb_spec (zlen d) size); [| done].
    intros _. split; [| done]. apply (Hpath off size d); [done.. |]. rewrite E. f_equal. destruct (decide (st = VFS_OK)); [done | by destruct Hst].
Qed.

Lemma read_block_spec h off p size b :
  0 ≤ off → 0 ≤ size ≤ zlen b → blocks h !! p = Some b →
  ∃ es h' b', read_block h path off p size = Ret (es, h') ∧ blocks h' = <[p := b']> (blocks h) ∧ zlen b' = zlen b ∧
    (Forall is_u8 b → Forall is_u8 b') ∧
    (es = ELF_OK → b' = blit b 0 (take (Z.to_nat size) (drop (Z.to_nat off) c)) ∧ zlen (take (Z.to_nat size) (drop (Z.to_nat off) c)) = size).
Proof.
  intros Ho Hs Hb. unfold read_block. destruct (read_exact_spec off size) as (es & d & -> & Hd & Hu8 & Hok); [lia.. |].
  rewrite (peek_live _ _ _ Hb). mred. rewrite memcpy_spec by (pose proof (zlen_nonneg d); lia). mred.
  rewrite take_ge by (unfold zlen; lia). assert (Hz : zlen (blit b 0 d) = zlen b) by (apply blit_zlen; lia).
  eexists _, _, _. split; [done |]. split; [by eapply poke_live |]. split; [done |]. split.
  - intros Hbu. unfold blit. rewrite take_0, app_nil_l. apply Forall_app; split; [done |]. by apply Forall_drop.
  - intros E. by destruct (Hok E) as [-> Hzd].
Qed.

Lemma load_memory_spec m l h ph :
  heap_holds m l h → 0 ≤ p_offset ph → 0 ≤ p_filesz ph ≤ p_memsz ph →
  ∃ es mem h', load_memory path h (p_offset ph) (p_filesz ph) (p_memsz ph) = Ret (es, mem, h') ∧
    heap_holds m (if decide (es = ELF_OK) then l ++ [(ph, mem)] else l) h'.
Proof.
  intros Hh Ho Hs. unfold load_memory. destruct (kmalloc h (p_memsz ph)) as [[mem|] h1] eqn:Ek.
  2: { apply kmalloc_none in Ek. eexists _, _, _. split; [done |]. by eapply heap_holds_ext. }
  apply kmalloc_some in Ek as (Hnz & Hnew & E1). set (z := replicate (Z.to_nat (p_memsz ph)) 0) in *.
  assert (Hz : zlen z = p_memsz ph) by (unfold z; rewrite zlen_replicate; lia).
  rewrite (peek_live h1 mem z) by (by rewrite E1, lookup_insert_eq). mred. rewrite memset_spec by lia. mred.
  assert (Hblit : blit z 0 (replicate (Z.to_nat (p_memsz ph)) (wrap8 0)) = z).
  { unfold blit, z. rewrite take_0, length_replicate. cbn [Nat.add app]. by rewrite drop_replicate, Nat.sub_diag, app_nil_r. }
  rewrite Hblit. set (h2 := poke h1 mem z).
  assert (E2 : blocks h2 = <[mem := z]> (blocks h)).
  { unfold h2. rewrite (poke_live h1 mem z z), E1, insert_insert_eq; [done | by rewrite E1, lookup_insert_eq | done]. }
  destruct (Z.eqb_spec (p_filesz ph) 0) as [H0|H0]; cbn [negb].
  { eexists _, _, _. split; [done |]. rewrite decide_True by done. eapply heap_holds_snoc; [done | done | done |].
    rewrite E2. unfold image_of, z. rewrite H0, Z.sub_0_r. done. }
  destruct (read_block_spec h2 (p_offset ph) mem (p_filesz ph) z) as (es & h3 & b' & -> & E3 & Hb' & _ & Hok);
    [done | lia | by rewrite E2, lookup_insert_eq |]. mred.
  destruct (decide (es = ELF_OK)) as [->|Hne].
  - destruct (decide (ELF_OK ≠ ELF_OK)) as [Hd|_]; [by destruct Hd |]. destruct (Hok eq_refl) as [-> Hlen].
    eexists _, _, _. split; [done |]. rewrite decide_True by done.
    eapply heap_holds_snoc; [done | done | done |]. rewrite E3, E2, insert_insert_eq. f_equal.
    unfold blit, image_of, z. rewrite take_0, app_nil_l. f_equal. rewrite drop_replicate. f_equal. unfold zlen in *. lia.
  - rewrite (decide_True (P := es ≠ ELF_OK)) by done.
    destruct (kfree_live h3 mem b' Hnz) as (h4 & -> & E4); [by rewrite E3, lookup_insert_eq |]. mred.
    eexists _, _, _. split; [done |]. rewrite decide_False by done. eapply heap_holds_ext; [done |].
    rewrite E4, E3, E2, insert_insert_eq. by apply delete_insert_id.
Qed.

(** ** The second pass *)

Definition seg_span (e : elf64_phdr_t * Z) : Z * Z := (p_vaddr e.1, p_vaddr e.1 + p_memsz e.1).

Definition disjoint_from (ph : elf64_phdr_t) (e : elf64_phdr_t * Z) : Prop :=
  p_vaddr ph + p_memsz ph ≤ p_vaddr e.1 ∨ p_vaddr e.1 + p_memsz e.1 ≤ p_vaddr ph.

Definition runs_entry (ent : Z) (ph : elf64_phdr_t) : bool :=
  Z.testbit (p_flags ph) 0 && (p_vaddr ph <=? ent) && (ent <? p_vaddr ph + p_memsz ph).

Definition loadable (file_size : Z) (ph : elf64_phdr_t) : Prop :=
  segment_valid ph file_size USER_IMAGE_BASE USER_SPACE_LIMIT ∧ 0 < p_memsz ph ≤ SIZE_LIMIT.

(** The segments [l] have been loaded out of [n]. *)
Record load_rel (file_size ent n : Z) (m : Zmap (list Z)) (l : list (elf64_phdr_t * Z)) (s : load_state) : Prop := {
  lr_room : zlen l ≤ n ≤ 64;
  lr_segments : ls_segments s = map seg_of l ++ replicate (Z.to_nat n - length l) zero_segment;
  lr_starts : loaded_starts s = map (fst ∘ seg_span) l ++ replicate (64 - length l) 0;
  lr_ends : loaded_ends s = map (snd ∘ seg_span) l ++ replicate (64 - length l) 0;
  lr_counts : loaded_count s = zlen l ∧ seg_index s = zlen l;
  lr_entry : entry_in_exec_segment s = existsb (λ e, runs_entry ent e.1) l;
  lr_valid : Forall (λ e, loadable file_size e.1) l;
  lr_disjoint : ∀ i j a b, (i < j)%nat → l !! i = Some a → l !! j = Some b → disjoint_from b.1 a;
  lr_heap : heap_holds m l (ls_heap s);
}.

Lemma overlaps_loaded_spec fs ent n m l s ph :
  load_rel fs ent n m l s →
  ∃ b, overlaps_loaded (p_vaddr ph) (p_vaddr ph + p_memsz ph) s = Ret b ∧ (b = false ↔ Forall (disjoint_from ph) l).
Proof.
  intros R. destruct (lr_counts _ _ _ _ _ _ R) as [Hc _]. unfold overlaps_loaded. rewrite Hc, (lr_starts _ _ _ _ _ _ R), (lr_ends _ _ _ _ _ _ R).
  unfold zlen. rewrite Nat2Z.id.
  destruct (loop_find l (λ _ e, if elf64_ranges_overlap (p_vaddr ph) (p_vaddr ph + p_memsz ph) (seg_span e).1 (seg_span e).2 then Some tt else None)
    (λ j (_ : unit), a ← rd (map (fst ∘ seg_span) l ++ replicate (64 - length l) 0) j;
       b ← rd (map (snd ∘ seg_span) l ++ replicate (64 - length l) 0) j;
       if elf64_ranges_overlap (p_vaddr ph) (p_vaddr ph + p_memsz ph) a b then Ret (Done tt) else Ret (Next tt)))
    as [(k & x & [] & Hk & Hg & -> & _)|[-> Hnone]].
  - intros k x Hk. pose proof (lookup_lt_Some _ _ _ Hk). rewrite !rd_nat, !lookup_app_l by (rewrite length_map; lia).
    rewrite !list_lookup_fmap, Hk. cbn. by destruct (elf64_ranges_overlap _ _ _ _).
  - mred. exists true. split; [done |]. split; [done |]. intros Hall. rewrite Forall_lookup in Hall. specialize (Hall k x Hk).
    unfold disjoint_from, elf64_ranges_overlap, seg_span in *. cbn in Hg. case_match eqn:E; [| done]. lia.
  - mred. exists false. split; [done |]. split; [intros _ | done]. apply Forall_lookup. intros k x Hk. specialize (Hnone k x Hk).
    unfold disjoint_from, elf64_ranges_overlap, seg_span in *. cbn in Hnone. case_match eqn:E; [done |]. lia.
Qed.

Lemma wr_next {A B} (f : A → B) (l : list A) n v z :
  (length l < n)%nat → wr (map f l ++ replicate (n - length l) z) (zlen l) v = Ret (map f l ++ v :: replicate (n - S (length l)) z).
Proof.
  intros Hl. replace (zlen l) with (zlen (map f l)) by (unfold zlen; by rewrite length_map).
  destruct (n - length l)%nat as [|k] eqn:E; [lia |]. rewrite wr_middle by done. cbn [replicate drop]. rewrite drop_0.
  by replace (n - S (length l))%nat with k by lia.
Qed.

Lemma load_rel_snoc fs ent n m l s ph mem h :
  load_rel fs ent n m l s → zlen l < n → loadable fs ph → Forall (disjoint_from ph) l → heap_holds m (l ++ [(ph, mem)]) h →
  load_rel fs ent n m (l ++ [(ph, mem)])
    (mk_load (map seg_of l ++ seg_of (ph, mem) :: replicate (Z.to_nat n - S (length l)) zero_segment)
      (map (fst ∘ seg_span) l ++ p_vaddr ph :: replicate (64 - S (length l)) 0)
      (map (snd ∘ seg_span) l ++ (p_vaddr ph + p_memsz ph) :: replicate (64 - S (length l)) 0)
      (zlen l + 1) (zlen l + 1)
      (if runs_entry ent ph then true else existsb (λ e, runs_entry ent e.1) l) h).
Proof.
  intros [R1 R2 R3 R4 R5 R6 R7 R8 R9] Hn Hl Hd Hh.
  split; cbn [ls_segments loaded_starts loaded_ends loaded_count seg_index entry_in_exec_segment ls_heap];
    rewrite ?map_app, ?length_app, ?zlen_app, ?zlen_1; cbn [length map]; rewrite <- ?app_assoc; cbn [app].
  - lia.
  - by replace (length l + 1)%nat with (S (length l)) by lia.
  - by replace (length l + 1)%nat with (S (length l)) by lia.
  - by replace (length l + 1)%nat with (S (length l)) by lia.
  - done.
  - rewrite existsb_app. cbn. rewrite orb_false_r. destruct (runs_entry ent ph); [by rewrite orb_true_r | by rewrite orb_false_r].
  - apply Forall_app. split; [done | by apply Forall_singleton].
  - intros i j a b Hij Ha Hb. destruct (decide (j < length l)%nat).
    + rewrite lookup_app_l in Ha, Hb by lia. exact (R8 i j a b Hij Ha Hb).
    + rewrite lookup_app_r in Hb by lia. destruct (j - length l)%nat eqn:E; [| done]. cbn in Hb. injection Hb as <-.
      rewrite lookup_app_l in Ha by lia. rewrite Forall_lookup in Hd. by eapply Hd.
  - done.
Qed.

(** A turn either skips the header, adds a segment or fails with nothing more
    allocated than before. *)
Lemma load_segment_spec fs ent n m l s ph :
  load_rel fs ent n m l s → phdr_words ph → is_u64 fs → (p_type ph = ELF64_PT_LOAD → zlen l < n) →
  (p_type ph ≠ ELF64_PT_LOAD ∧ load_segment path fs ent ph s = Ret (Next s)) ∨
  (∃ mem s', p_type ph = ELF64_PT_LOAD ∧ load_segment path fs ent ph s = Ret (Next s') ∧ load_rel fs ent n m (l ++ [(ph, mem)]) s') ∨
  (∃ es h', load_segment path fs ent ph s = Ret (Done (es, ls_segments s, h')) ∧ es ≠ ELF_OK ∧ heap_holds m l h').
Proof.
  intros R Hw Hfs Hroom. unfold load_segment. destruct (Z.eqb_spec (p_type ph) ELF64_PT_LOAD) as [Ht|]; cbn [negb]; [| by left].
  specialize (Hroom Ht). right. pose proof (lr_heap _ _ _ _ _ _ R) as Hh.
  destruct (decide (elf64_validate_load_segment (Some ph) fs USER_IMAGE_BASE USER_SPACE_LIMIT ≠ ELF_OK)) as [Hbad|Hgood].
  { right. eexists _, _. split_and!; done. }
  assert (V : segment_valid ph fs USER_IMAGE_BASE USER_SPACE_LIMIT) by (apply validate_segment_spec; [done.. |]; destruct (elf64_validate_load_segment _ _ _ _); (done || by destruct Hgood)).
  pose proof Hw as (_ & _ & Hws). do 5 (apply Forall_cons in Hws as [? Hws]).
  rewrite (wrap_small 64) by (pose proof (sv_space _ _ _ _ V); ulia).
  destruct ((p_memsz ph =? 0) || (SIZE_LIMIT <? p_memsz ph)) eqn:Esz.
  { right. eexists _, _. split_and!; done. }
  assert (L : loadable fs ph) by (split; [done | ulia]).
  destruct (overlaps_loaded_spec fs ent n m l s ph R) as ([] & -> & Hov); mred.
  { right. eexists _, _. split_and!; done. }
  pose proof R as [R1 R2 R3 R4 [R5 R5'] R6 _ _ _].
  rewrite R3, R4, R5, R5', !wr_next by (unfold zlen in *; lia). mred.
  destruct (load_memory_spec m l (ls_heap s) ph Hh) as (es & mem & h' & -> & Hh'); [ulia | pose proof (sv_sizes _ _ _ _ V); ulia |]. mred.
  destruct (decide (es = ELF_OK)) as [->|Hne].
  - destruct (decide (ELF_OK ≠ ELF_OK)) as [Hd|_]; [by destruct Hd |]. left.
    rewrite R2, wr_next by (unfold zlen in *; lia). mred. rewrite !wrap_small by (unfold zlen in *; lia).
    eexists _, _. split; [done |]. split; [done |]. change ELF64_PF_X with (2 ^ 0). rewrite land_bit by lia. rewrite R6.
    eapply load_rel_snoc; [done.. | by apply Hov | done].
  - rewrite decide_True by done. right. eexists _, _. split_and!; done.
Qed.

(** The program headers in a table, and those to load. *)
Definition headers (tbl : list Z) (n : Z) : list elf64_phdr_t :=
  map (λ i, phdr_of_bytes (drop (Z.to_nat (Z.of_nat i * SIZEOF_PHDR)) tbl)) (seq 0 (Z.to_nat n)).
Definition is_load (ph : elf64_phdr_t) : Prop := p_type ph = ELF64_PT_LOAD.
#[local] Instance is_load_dec ph : Decision (is_load ph) := ltac:(unfold is_load; apply _).
Definition loads (phs : list elf64_phdr_t) : list elf64_phdr_t := filter is_load phs.

Lemma headers_lookup tbl n i : 0 ≤ i < n → headers tbl n !! Z.to_nat i = Some (phdr_of_bytes (drop (Z.to_nat (i * SIZEOF_PHDR)) tbl)).
Proof.
  intros Hi. unfold headers. rewrite list_lookup_fmap, lookup_seq_lt by lia. cbn. by rewrite Z2Nat.id by lia.
Qed.

Lemma headers_length tbl n : length (headers tbl n) = Z.to_nat n.
Proof. unfold headers. by rewrite length_map, length_seq. Qed.

Lemma loads_take_S phs i ph :
  phs !! i = Some ph → loads (take (S i) phs) = loads (take i phs) ++ (if decide (is_load ph) then [ph] else []).
Proof. intros Hi. rewrite (take_S_r _ _ _ Hi). unfold loads. rewrite filter_app. f_equal. Qed.

Lemma loads_take_le phs i ph : phs !! i = Some ph → is_load ph → (length (loads (take i phs)) < length (loads phs))%nat.
Proof.
  intros Hi Hl. rewrite <- (take_drop (S i) phs) at 2. unfold loads at 2. rewrite filter_app. fold (loads (take (S i) phs)).
  rewrite (loads_take_S _ _ _ Hi), decide_True, !length_app by done. cbn [length]. lia.
Qed.

(** The state a failure leaves for [elf64_free_image]. *)
Definition partial_load (n : Z) (m : Zmap (list Z)) (segs : list elf_loaded_segment_t) (h : H) : Prop :=
  ∃ l, zlen l ≤ n ∧ segs = map seg_of l ++ replicate (Z.to_nat n - length l) zero_segment ∧ heap_holds m l h.

Lemma load_loop tbl phnum fs ent m h :
  let phs := headers tbl phnum in let n := zlen (loads phs) in
  n ≤ 64 → is_u64 fs → Forall phdr_words phs → heap_holds m [] h →
  (∃ s l, loop_n (Z.to_nat phnum) 0 (λ i s, load_segment path fs ent (phdr_of_bytes (drop (Z.to_nat (i * SIZEOF_PHDR)) tbl)) s)
      (mk_load (replicate (Z.to_nat n) zero_segment) (replicate 64 0) (replicate 64 0) 0 0 false h) = Ret (Next s) ∧
    load_rel fs ent n m l s ∧ l.*1 = loads phs) ∨
  (∃ es segs h', loop_n (Z.to_nat phnum) 0 (λ i s, load_segment path fs ent (phdr_of_bytes (drop (Z.to_nat (i * SIZEOF_PHDR)) tbl)) s)
      (mk_load (replicate (Z.to_nat n) zero_segment) (replicate 64 0) (replicate 64 0) 0 0 false h) = Ret (Done (es, segs, h')) ∧
    es ≠ ELF_OK ∧ partial_load n m segs h').
Proof.
  intros phs n Hn Hfs Hw Hh.
  destruct (loop_n_inv (λ i s, ∃ l, load_rel fs ent n m l s ∧ l.*1 = loads (take (Z.to_nat i) phs))
    (λ r : load_failure, r.1.1 ≠ ELF_OK ∧ partial_load n m r.1.2 r.2)
    (λ i s, load_segment path fs ent (phdr_of_bytes (drop (Z.to_nat (i * SIZEOF_PHDR)) tbl)) s) (Z.to_nat phnum) 0
    (mk_load (replicate (Z.to_nat n) zero_segment) (replicate 64 0) (replicate 64 0) 0 0 false h))
    as [(s & E & l & R & Hl)|([[es segs] h'] & E & Hes & Hp)].
  - exists []. split; [| done]. split; cbn [ls_segments loaded_starts loaded_ends loaded_count seg_index entry_in_exec_segment ls_heap length map]; try done.
    + split; [apply zlen_nonneg | done].
    + by rewrite Nat.sub_0_r.
  - intros i s Hi (l & R & Hl). assert (Hlk : phs !! Z.to_nat i = Some (phdr_of_bytes (drop (Z.to_nat (i * SIZEOF_PHDR)) tbl))) by (apply headers_lookup; lia).
    set (ph := phdr_of_bytes _) in *. assert (Hwp : phdr_words ph) by (rewrite Forall_lookup in Hw; by eapply Hw).
    assert (Hll : length l = length (loads (take (Z.to_nat i) phs))) by (rewrite <- Hl; by rewrite length_fmap).
    replace (Z.to_nat (i + 1)) with (S (Z.to_nat i)) by lia. rewrite (loads_take_S _ _ _ Hlk).
    destruct (load_segment_spec fs ent n m l s ph R Hwp Hfs) as [[Ht ->]|[(mem & s' & Ht & -> & R')|(es & h' & -> & Hes & Hh')]].
    + intros Ht. pose proof (loads_take_le _ _ _ Hlk Ht). unfold n, zlen. lia.
    + left. eexists. split; [done |]. exists l. rewrite decide_False by done. by rewrite app_nil_r.
    + left. eexists. split; [done |]. eexists. split; [done |]. rewrite decide_True by done. by rewrite fmap_app, Hl.
    + right. eexists. split; [done |]. split; [done |]. exists l. split_and!; [apply R | apply R | done].
  - left. exists s, l. split; [done |]. split; [done |]. rewrite Hl. f_equal. apply take_ge. unfold phs. rewrite headers_length. lia.
  - right. eauto 10.
Qed.

Lemma free_loop m l n h :
  heap_holds m l h → zlen l ≤ n →
  ∃ h', for_n (Z.to_nat n) 0 (λ i h, s ← rd (map seg_of l ++ replicate (Z.to_nat n - length l) zero_segment) i; kfree h (memory s)) h = Ret h' ∧
    blocks h' = m.
Proof.
  intros [H1 H2 H3 H4] Hl.
  destruct (for_n_inv (λ i hi, ∀ q, blocks hi !! q = if decide (q ∈ take (Z.to_nat i) l.*2) then None else blocks h !! q)
    (λ i hi, s ← rd (map seg_of l ++ replicate (Z.to_nat n - length l) zero_segment) i; kfree hi (memory s)) (Z.to_nat n) 0 h) as (h1 & E & Hh1).
  - intros q. rewrite take_0, decide_False; [done | apply not_elem_of_nil].
  - intros i hi Hi Hhi. replace (Z.to_nat (i + 1)) with (S (Z.to_nat i)) by lia. destruct (decide (Z.to_nat i < length l)%nat) as [Hlt|Hge].
    + destruct (lookup_lt_is_Some_2 l _ Hlt) as [[ph p] Hp].
      assert (rd (map seg_of l ++ replicate (Z.to_nat n - length l) zero_segment) i = Ret (seg_of (ph, p))) as ->.
      { apply rd_Ret. split; [lia |]. rewrite lookup_app_l by (rewrite length_map; lia). by rewrite list_lookup_fmap, Hp. }
      mred. assert (Hp2 : l.*2 !! Z.to_nat i = Some p) by (by rewrite list_lookup_fmap, Hp).
      destruct (kfree_live hi p (image_of c ph)) as (h' & E & Eb).
      { apply (H4 p). by eapply list_elem_of_lookup_2. }
      { rewrite Hhi, decide_False; [apply H1; by eapply list_elem_of_lookup_2 |].
        intros (k & Hk)%list_elem_of_lookup. apply lookup_take_Some in Hk as [Hk Hki]. pose proof (NoDup_lookup _ _ _ _ H3 Hp2 Hk). lia. }
      exists h'. split; [done |]. intros q. rewrite Eb. destruct (decide (p = q)) as [->|Hne].
      * rewrite lookup_delete_eq, decide_True; [done |]. rewrite (take_S_r _ _ _ Hp2). apply elem_of_app. right. apply list_elem_of_here.
      * rewrite lookup_delete_ne, Hhi by done. rewrite (take_S_r _ _ _ Hp2). apply decide_ext. rewrite elem_of_app, list_elem_of_singleton.
        split; [auto | intros [?| ->]; done].
    + assert (rd (map seg_of l ++ replicate (Z.to_nat n - length l) zero_segment) i = Ret zero_segment) as ->.
      { apply rd_Ret. split; [lia |]. rewrite lookup_app_r by (rewrite length_map; lia). apply lookup_replicate. rewrite length_map. split; [done | lia]. }
      mred. rewrite kfree_null. exists hi. split; [done |]. intros q. rewrite Hhi. by rewrite !take_ge by (rewrite length_fmap; lia).
  - rewrite Z.add_0_l, Nat2Z.id in Hh1. rewrite take_ge in Hh1 by (rewrite length_fmap; unfold zlen in *; lia).
    exists h1. split; [done |]. apply map_eq. intros q. rewrite Hh1. case_decide as Hq; [symmetry; by apply H4 | by apply H2].
Qed.

Lemma free_image_spec n m arr segs b h ent :
  partial_load n m segs h → arr ≠ 0 → m !! arr = Some b →
  ∃ h', elf64_free_image h (Some (mk_image ent n (Some (arr, segs)))) = Ret (Some zero_image, h') ∧ blocks h' = delete arr m.
Proof.
  intros (l & Hl & -> & Hh) Harr Hm. unfold elf64_free_image. cbn [segments segment_count].
  destruct (free_loop m l n h Hh Hl) as (h1 & -> & E1). mred.
  destruct (kfree_live h1 arr b Harr) as (h2 & -> & E2); [by rewrite E1 |]. mred. exists h2. split; [done |]. by rewrite E2, E1.
Qed.

Lemma le_word_bytes_range b off n : Forall is_u8 b → 0 ≤ le_word b off n < 256 ^ Z.of_nat n.
Proof.
  intros Hb. unfold le_word. assert (Hw : Forall is_u8 (take n (drop off b))) by (by apply Forall_take, Forall_drop).
  assert (Hl : (length (take n (drop off b)) ≤ n)%nat) by (rewrite length_take; lia).
  revert n Hl Hw. generalize (drop off b) as x. intros x n. generalize (take n x) as l. clear.
  intros l Hl Hw. revert n Hl. induction Hw as [|y l Hy Hw IH]; intros n Hl; cbn [foldr].
  - pose proof (Z.pow_pos_nonneg 256 (Z.of_nat n)). lia.
  - destruct n as [|n]; cbn [length] in Hl; [lia |]. specialize (IH n ltac:(lia)). rewrite Nat2Z.inj_succ, Z.pow_succ_r by lia. ulia.
Qed.

Lemma phdr_words_bytes b : Forall is_u8 b → phdr_words (phdr_of_bytes b).
Proof.
  intros Hb. split; [exact (le_word_bytes_range b 0 4 Hb) |]. split; [exact (le_word_bytes_range b 4 4 Hb) |].
  repeat (apply Forall_cons; split); [exact (le_word_bytes_range b 8 8 Hb) | exact (le_word_bytes_range b 16 8 Hb) | exact (le_word_bytes_range b 32 8 Hb)
    | exact (le_word_bytes_range b 40 8 Hb) | exact (le_word_bytes_range b 48 8 Hb) | constructor].
Qed.

Lemma headers_words tbl n : Forall is_u8 tbl → Forall phdr_words (headers tbl n).
Proof.
  intros Hb. unfold headers. apply Forall_fmap, Forall_true. intros i. cbn. apply phdr_words_bytes. by apply Forall_drop.
Qed.

(** Headers of dynamically linked programs. *)
Definition is_dynamic (ph : elf64_phdr_t) : Prop := p_type ph = ELF64_PT_INTERP ∨ p_type ph = ELF64_PT_DYNAMIC.

Lemma count_loads_spec tbl phnum :
  0 ≤ phnum ≤ 64 →
  (count_loads tbl phnum = Ret (Some (zlen (loads (headers tbl phnum)))) ∧ Forall (λ ph, ¬ is_dynamic ph) (headers tbl phnum)) ∨
  (count_loads tbl phnum = Ret None ∧ Exists is_dynamic (headers tbl phnum)).
Proof.
  intros Hp. unfold count_loads. set (phs := headers tbl phnum).
  match goal with |- context [loop_n _ 0 ?f 0] => destruct (loop_n_inv
    (λ i n, n = zlen (loads (take (Z.to_nat i) phs)) ∧ Forall (λ ph, ¬ is_dynamic ph) (take (Z.to_nat i) phs)) (λ _ : unit, Exists is_dynamic phs) f (Z.to_nat phnum) 0 0)
    as [(n & -> & -> & Hn)|([] & -> & Hex)] end.
  - split; [done | constructor].
  - intros i n Hi [-> Hf]. assert (Hlk := headers_lookup tbl phnum i ltac:(lia)). fold phs in Hlk. set (ph := phdr_of_bytes _) in *.
    replace (Z.to_nat (i + 1)) with (S (Z.to_nat i)) by lia. rewrite (loads_take_S _ _ _ Hlk), (take_S_r _ _ _ Hlk).
    assert (Hlen : (length (loads (take (Z.to_nat i) phs)) ≤ 64)%nat).
    { unfold loads. etrans; [apply length_filter |]. rewrite length_take. lia. }
    assert (Hsn : ¬ is_dynamic ph → Forall (λ ph, ¬ is_dynamic ph) (take (Z.to_nat i) phs ++ [ph])) by (intros; apply Forall_app; split; [done | by apply Forall_singleton]).
    destruct (Z.eqb_spec (p_type ph) ELF64_PT_LOAD) as [Ht|Ht].
    + left. eexists. split; [done |]. rewrite decide_True, zlen_app, zlen_1 by done. rewrite wrap_small by (unfold zlen; lia). split; [done |].
      apply Hsn. unfold is_dynamic, ELF64_PT_LOAD, ELF64_PT_INTERP, ELF64_PT_DYNAMIC in *. lia.
    + destruct ((p_type ph =? ELF64_PT_INTERP) || (p_type ph =? ELF64_PT_DYNAMIC)) eqn:Ed.
      * right. eexists. split; [done |]. apply Exists_exists. exists ph. split; [by eapply list_elem_of_lookup_2 |]. unfold is_dynamic. lia.
      * left. eexists. split; [done |]. rewrite decide_False, app_nil_r by done. split; [done |]. apply Hsn. unfold is_dynamic. lia.
  - left. mred. rewrite take_ge in * by (unfold phs; rewrite headers_length; lia). done.
  - right. by mred.
Qed.

(** What a successful load leaves: the heap grew by the segment array at [arr] and
    one block per segment [l]. *)
Record loaded (fs ent : Z) (phs : list elf64_phdr_t) (m : Zmap (list Z)) (img : elf_loaded_image_t) (h : H) : Prop := {
  ld_entry : entry img = ent;
  ld_image : ∃ arr l, segments img = Some (arr, map seg_of l) ∧ segment_count img = zlen l ∧ l.*1 = loads phs ∧
    arr ≠ 0 ∧ m !! arr = None ∧ heap_holds (<[arr := replicate (Z.to_nat (zlen l * SIZEOF_SEGMENT)) 0]> m) l h;
  ld_valid : Forall (loadable fs) (loads phs);
  ld_disjoint : ∀ i j a b, (i < j)%nat → loads phs !! i = Some a → loads phs !! j = Some b →
    p_vaddr b + p_memsz b ≤ p_vaddr a ∨ p_vaddr a + p_memsz a ≤ p_vaddr b;
  ld_runs : Exists (λ ph, runs_entry ent ph = true) (loads phs);
}.

Definition load_outcome (fs ent : Z) (phs : list elf64_phdr_t) (m : Zmap (list Z)) (r : @load_result H) : Prop :=
  let '(es, img, log, h) := r in
  if decide (es = ELF_OK) then loaded fs ent phs m img h ∧ ∃ e, log = [e] ∧ klog_args e = [VStr (Some path); VPtr ent; VInt (zlen (loads phs))]
  else img = zero_image ∧ log = [] ∧ blocks h = m.

Lemma loaded_of_rel fs ent phs m m' arr s l b h :
  load_rel fs ent (zlen (loads phs)) m' l s → l.*1 = loads phs → entry_in_exec_segment s = true →
  arr ≠ 0 → m !! arr = None → b = replicate (Z.to_nat (zlen (loads phs) * SIZEOF_SEGMENT)) 0 → heap_holds (<[arr := b]> m) l h →
  loaded fs ent phs m (mk_image ent (zlen (loads phs)) (Some (arr, ls_segments s))) h.
Proof.
  intros [R1 R2 R3 R4 R5 R6 R7 R8 R9] Hl He Harr Hm -> Hh.
  assert (Hlen : zlen (loads phs) = zlen l) by (rewrite <- Hl; unfold zlen; by rewrite length_fmap).
  split; cbn [entry segments segment_count].
  - done.
  - exists arr, l. rewrite <- Hlen. split_and!; try done. rewrite R2, Hlen. unfold zlen. by rewrite Nat2Z.id, Nat.sub_diag, app_nil_r.
  - rewrite <- Hl. by apply Forall_fmap.
  - intros i j a b Hij Ha Hb. rewrite <- Hl, list_lookup_fmap in Ha, Hb.
    destruct (l !! i) as [a'|] eqn:Ea, (l !! j) as [b'|] eqn:Eb; try discriminate. cbn in Ha, Hb. simplify_eq. exact (R8 i j a' b' Hij Ea Eb).
  - rewrite R6 in He. apply existsb_exists in He as (e & Hin & Hr). rewrite <- Hl. apply Exists_exists. exists e.1. split; [| done].
    apply list_elem_of_fmap_2. by apply list_elem_of_In.
Qed.

Lemma load_segments_spec h tbl ph tb m phnum fs ent :
  let phs := headers tbl phnum in
  blocks h = <[ph := tb]> m → m !! ph = None → ph ≠ 0 → Forall phdr_words phs → zlen (loads phs) ≤ 64 → is_u64 fs →
  ∃ r, load_segments h path tbl ph phnum (zlen (loads phs)) fs ent = Ret r ∧ load_outcome fs ent phs m r.
Proof.
  intros phs Hb Hph Hph0 Hw Hn Hfs. unfold load_segments.
  destruct (kcalloc h (zlen (loads phs)) SIZEOF_SEGMENT) as [[arr|] h1] eqn:Ek.
  2: { apply kcalloc_none in Ek. destruct (kfree_live h1 ph tb Hph0) as (h2 & -> & E2); [by rewrite Ek, Hb, lookup_insert_eq |]. mred.
       eexists. split; [done |]. split_and!; [done | done |]. by rewrite E2, Ek, Hb, delete_insert_id. }
  apply kcalloc_some in Ek as (Harr & Hnew & E1); [| apply zlen_nonneg | done]. set (z := replicate _ 0) in E1.
  assert (Hne : ph ≠ arr) by (intros ->; by rewrite Hb, lookup_insert_eq in Hnew).
  assert (Hma : m !! arr = None) by (by rewrite Hb, lookup_insert_ne in Hnew).
  assert (Hdel : delete ph (blocks h1) = <[arr := z]> m) by (rewrite E1, Hb, delete_insert_ne, delete_insert_id by done; done).
  assert (Hlkp : blocks h1 !! ph = Some tb) by (by rewrite E1, lookup_insert_ne, Hb, lookup_insert_eq by done).
  pose proof (heap_holds_nil h1) as Hh1.
  assert (Hfail : ∀ es segs h2, es ≠ ELF_OK → partial_load (zlen (loads phs)) (blocks h1) segs h2 → ∃ r,
    (h3 ← kfree h2 ph; if decide (es = ELF_OK) then Ret (ELF_OK, mk_image ent (zlen (loads phs)) (Some (arr, segs)),
        [mk_klog LOG_INFO (lit "elf") (lit "loaded %s entry=%p segments=%u") [VStr (Some path); VPtr ent; VInt (zlen (loads phs))]], h3)
      else '(img, h4) ← elf64_free_image h3 (Some (mk_image ent (zlen (loads phs)) (Some (arr, segs)))); Ret (es, default zero_image img, [], h4)) = Ret r ∧
    load_outcome fs ent phs m r).
  { intros es segs h2 Hes (l & Hl & Hs & Hh). destruct (heap_holds_free _ _ _ ph tb Hh Hph0 Hlkp) as (h3 & -> & Hh3). mred.
    rewrite decide_False by done. rewrite Hdel in Hh3.
    destruct (free_image_spec (zlen (loads phs)) (<[arr := z]> m) arr segs z h3 ent) as (h4 & -> & E4); [by exists l | done | by rewrite lookup_insert_eq |].
    mred. eexists. split; [done |]. unfold load_outcome. rewrite decide_False by done. split_and!; [done | done |]. by rewrite E4, delete_insert_id. }
  pose proof (load_loop tbl phnum fs ent (blocks h1) h1 Hn Hfs Hw Hh1) as HL. fold phs in HL.
  destruct HL as [(s & l & -> & R & Hl)|(es & segs & h2 & -> & Hes & Hp)]; mred.
  2: { by apply Hfail. }
  destruct (entry_in_exec_segment s) eqn:He.
  - destruct (heap_holds_free _ _ _ ph tb (lr_heap _ _ _ _ _ _ R) Hph0 Hlkp) as (h3 & -> & Hh3). mred. rewrite decide_True by done.
    eexists. split; [done |]. unfold load_outcome. rewrite decide_True by done. split; [| by eexists].
    rewrite Hdel in Hh3. by eapply (loaded_of_rel _ _ _ _ _ _ s l z).
  - apply Hfail; [done |]. exists l. split_and!; apply R.
Qed.

Lemma load_table_spec h eh fs :
  1 ≤ e_phnum eh ≤ 64 → 0 ≤ e_phoff eh → is_u64 fs →
  let phs := headers (take (Z.to_nat (e_phnum eh * SIZEOF_PHDR)) (drop (Z.to_nat (e_phoff eh)) c)) (e_phnum eh) in
  ∃ r, load_table h path eh fs = Ret r ∧ load_outcome fs (e_entry eh) phs (blocks h) r ∧ (r.1.1.1 = ELF_OK → Forall (λ ph, ¬ is_dynamic ph) phs).
Proof.
  intros Hn Ho Hfs phs. unfold load_table. assert (Herr : ∀ es (h' : H), es ≠ ELF_OK → blocks h' = blocks h → ∃ r, Ret (es, zero_image, @nil klog_call, h') = Ret r ∧
    load_outcome fs (e_entry eh) phs (blocks h) r ∧ (r.1.1.1 = ELF_OK → Forall (λ ph, ¬ is_dynamic ph) phs)).
  { intros es h' Hes Hb. eexists. split; [done |]. split; [| done]. unfold load_outcome. by rewrite decide_False. }
  destruct (kcalloc h (e_phnum eh) SIZEOF_PHDR) as [[ph|] h1] eqn:Ek.
  2: { apply kcalloc_none in Ek. by apply Herr. }
  apply kcalloc_some in Ek as (Hp & Hnew & E1); [| lia | done].
  destruct (read_block_spec h1 (e_phoff eh) ph (e_phnum eh * SIZEOF_PHDR) (replicate (Z.to_nat (e_phnum eh * SIZEOF_PHDR)) 0))
    as (es & h2 & tbl & -> & E2 & Hz & Hu8 & Hok); [done | rewrite zlen_replicate; unfold SIZEOF_PHDR; lia | by rewrite E1, lookup_insert_eq |].
  mred. assert (Hfree : ∃ h3, kfree h2 ph = Ret h3 ∧ blocks h3 = blocks h).
  { destruct (kfree_live h2 ph tbl Hp) as (h3 & E3 & Eb); [by rewrite E2, lookup_insert_eq |]. exists h3. split; [done |].
    by rewrite Eb, E2, E1, insert_insert_eq, delete_insert_id. }
  destruct Hfree as (h3 & Hk & Eb). destruct (decide (es ≠ ELF_OK)) as [|Hes]; [rewrite Hk; mred; by apply Herr |].
  assert (es = ELF_OK) as -> by (destruct (decide (es = ELF_OK)); done). destruct (Hok eq_refl) as [Htbl Hlen].
  assert (Htbl' : tbl = take (Z.to_nat (e_phnum eh * SIZEOF_PHDR)) (drop (Z.to_nat (e_phoff eh)) c)).
  { rewrite Htbl. unfold blit. rewrite take_0, app_nil_l, (drop_ge (replicate _ _)), app_nil_r; [done |]. rewrite length_replicate. unfold zlen in Hlen. lia. }
  assert (Htu8 : Forall is_u8 tbl) by (apply Hu8, Forall_replicate; ulia). clear Htbl.
  rewrite (peek_live h2 ph tbl) by (by rewrite E2, lookup_insert_eq). mred. revert Herr. subst phs. rewrite <- Htbl'. intros Herr.
  destruct (count_loads_spec tbl (e_phnum eh)) as [[-> Hst]|[-> _]]; [lia | | mred; rewrite Hk; mred; by apply Herr]. mred.
  destruct (Z.eqb_spec (zlen (loads (headers tbl (e_phnum eh)))) 0); [rewrite Hk; mred; by apply Herr |].
  destruct (load_segments_spec h2 tbl ph tbl (blocks h) (e_phnum eh) fs (e_entry eh)) as (r & -> & Hr); try done.
  - by rewrite E2, E1, insert_insert_eq.
  - by apply headers_words.
  - unfold loads, zlen. assert (Hlf := length_filter is_load (headers tbl (e_phnum eh))). rewrite headers_length in Hlf. lia.
  - exists r. split; [done |]. split; done.
Qed.

End correctness.

(** C14: Loading never faults, leaks or double frees.  Either it reports an error,
    leaves a zeroed image and the heap exactly as it was, or the image describes the
    loadable headers of the file in order: every segment is a new heap block with
    the file's bytes followed by zeros, lies in user space, is at most 64 MiB, is
    not both writable and executable, overlaps no other, and one executable segment
    contains the entry point. *)
Theorem elf64_load_correct `{FR : FileReader} {H : Type} `{KM : Kmem H} (path c : list Z) (h : H) (eh0 : list Z) :
  has_content path c → zlen eh0 = SIZEOF_EHDR →
  ∃ es img log h', elf64_load_from_vfs h (Some path) true eh0 = Ret (es, img, log, h') ∧
  if decide (es = ELF_OK) then
    ∃ st, vfs_stat path = (VFS_OK, Some st) ∧ st_type st = VFS_NODE_FILE ∧ st_size st ≤ SIZE_LIMIT ∧
    let eh := ehdr_of_bytes (take 64 c) in
    let phs := headers (take (Z.to_nat (e_phnum eh * SIZEOF_PHDR)) (drop (Z.to_nat (e_phoff eh)) c)) (e_phnum eh) in
    header_valid eh (st_size st) ∧ e_type eh = ELF64_ET_EXEC ∧ Forall (λ ph, ¬ is_dynamic ph) phs ∧
    loaded c (st_size st) (e_entry eh) phs (blocks h) img h'
  else img = zero_image ∧ log = [] ∧ blocks h' = blocks h.
Proof.
  intros Hc Heh. unfold elf64_load_from_vfs. cbn [negb].
  set (Q := λ r : @load_result H, let '(es, img, log, h') := r in
    if decide (es = ELF_OK) then
      ∃ st, vfs_stat path = (VFS_OK, Some st) ∧ st_type st = VFS_NODE_FILE ∧ st_size st ≤ SIZE_LIMIT ∧
      let eh := ehdr_of_bytes (take 64 c) in
      let phs := headers (take (Z.to_nat (e_phnum eh * SIZEOF_PHDR)) (drop (Z.to_nat (e_phoff eh)) c)) (e_phnum eh) in
      header_valid eh (st_size st) ∧ e_type eh = ELF64_ET_EXEC ∧ Forall (λ ph, ¬ is_dynamic ph) phs ∧
      loaded c (st_size st) (e_entry eh) phs (blocks h) img h'
    else img = zero_image ∧ log = [] ∧ blocks h' = blocks h).
  match goal with |- ∃ es img log h', ?m = _ ∧ _ => cut (∃ r, m = Ret r ∧ Q r); [intros ([[[es img] log] h'] & E & HQ); by eexists es, img, log, h' |] end.
  assert (Herr : ∀ es h', es ≠ ELF_OK → blocks h' = blocks h → ∃ r, Ret (es, zero_image, @nil klog_call, h') = Ret r ∧ Q r).
  { intros es h' Hes Hb. eexists. split; [done |]. unfold Q. by rewrite decide_False. }
  destruct (vfs_stat path) as [vs o] eqn:Est. destruct (decide (vs = VFS_OK)) as [->|Hvs]; [| destruct vs; by (done || apply Herr)].
  destruct (vfs_stat_ok path _ _ Est eq_refl) as (st & -> & Hsz).
  destruct (decide (st_type st ≠ VFS_NODE_FILE)) as [|Htype]; [by apply Herr |].
  destruct (Z.ltb_spec SIZE_LIMIT (st_size st)); [by apply Herr |].
  destruct (read_exact_spec path c Hc 0 SIZEOF_EHDR) as (es & d & -> & Hd & Hd8 & Hok); [done | done |].
  rewrite memcpy_spec by (pose proof (zlen_nonneg d); lia). mred. rewrite (take_ge d) by (unfold zlen; lia).
  destruct (decide (es ≠ ELF_OK)) as [|Hes]; [by apply Herr |]. assert (es = ELF_OK) as -> by (destruct (decide (es = ELF_OK)); done).
  destruct (Hok eq_refl) as [Hdc Hdl]. change (drop (Z.to_nat 0) c) with (drop 0 c) in Hdc. rewrite drop_0 in Hdc.
  assert (blit eh0 0 d = take 64 c) as ->.
  { unfold blit. rewrite take_0, app_nil_l, (drop_ge eh0), app_nil_r by (unfold zlen, SIZEOF_EHDR in *; lia). done. }
  set (eh := ehdr_of_bytes (take 64 c)) in *. assert (H64 : Forall is_u8 (take 64 c)) by (change 64%nat with (Z.to_nat SIZEOF_EHDR); by rewrite <- Hdc).
  destruct (validate_header_spec eh (st_size st)) as (es & -> & Hv).
  { unfold eh, ehdr_of_bytes, zlen in *. cbn [e_ident]. rewrite take_take, length_take. rewrite Hdc, length_take in Hdl. unfold SIZEOF_EHDR in Hdl. lia. }
  { exact (le_word_bytes_range _ 32 8 H64). }
  { apply (le_word_bytes_range _ 56 2 H64). }
  { done. }
  mred. destruct (decide (es ≠ ELF_OK)) as [|Hes2]; [by apply Herr |]. assert (es = ELF_OK) as -> by (destruct (decide (es = ELF_OK)); done).
  destruct Hv as [Hv _]. specialize (Hv eq_refl). destruct (Z.eqb_spec (e_type eh) ELF64_ET_EXEC); cbn [negb]; [| by apply Herr].
  case_match; [by apply Herr |].
  destruct (load_table_spec path c Hc h eh (st_size st)) as ([[[es img] log] h'] & -> & Hr & Hst); [apply Hv | apply (le_word_bytes_range _ 32 8 H64) | done |].
  eexists. split; [done |]. unfold Q. unfold load_outcome in Hr. cbn [fst] in Hst. case_decide; [| done].
  exists st. split; [done |]. split; [destruct (decide (st_type st = VFS_NODE_FILE)); done |]. split; [done |]. split_and!; try done.
  - by apply Hst.
  - apply Hr.
Qed.

(** A program of one segment: four bytes of code and four of zeros. *)
Definition tiny_elf : list Z :=
  [0x7f; 69; 76; 70; 2; 1; 1] ++ replicate 9 0 ++ [2; 0; 62; 0; 1; 0; 0; 0] ++ [0x78; 0; 0; 0; 0; 1; 0; 0] ++ [64; 0; 0; 0; 0; 0; 0; 0] ++
  replicate 12 0 ++ [64; 0; 56; 0; 1; 0; 0; 0; 0; 0; 0; 0] ++
  [1; 0; 0; 0; 5; 0; 0; 0] ++ [0x78; 0; 0; 0; 0; 0; 0; 0] ++ [0x78; 0; 0; 0; 0; 1; 0; 0] ++ replicate 8 0 ++
  [4; 0; 0; 0; 0; 0; 0; 0] ++ [8; 0; 0; 0; 0; 0; 0; 0] ++ [0; 16; 0; 0; 0; 0; 0; 0] ++ [0x0f; 0x05; 0xeb; 0xfe].

Definition one_file (c : list Z) (Hc : Forall is_u8 c) (Hl : is_u64 (zlen c)) : FileReader.
Proof.
  refine {| vfs_stat := λ _, (VFS_OK, Some (mk_stat VFS_NODE_FILE (zlen c) 0 1 1 1 0 0));
            vfs_read := λ _ off size, (VFS_OK, take (Z.to_nat size) (drop (Z.to_nat off) c)) |}.
  - intros path st o [= <- <-] _. eauto.
  - intros path off size Hs. cbn [snd]. unfold zlen. rewrite length_take. lia.
  - intros path off size. by apply Forall_take, Forall_drop.
Defined.

Definition tiny_reader : FileReader := one_file tiny_elf ltac:(apply (bool_decide_unpack _); vm_compute; exact I) ltac:(vm_compute; split; congruence).

Lemma elf64_load_correct_witness :
  ∃ img log h', elf64_load_from_vfs (FR := tiny_reader) (empty_arena 3) (Some (lit "/bin/init")) true (replicate 64 0) = Ret (ELF_OK, img, log, h') ∧
    loaded tiny_elf 124 0x10000000078 (headers (take 56 (drop 64 tiny_elf)) 1) ∅ img h'.
Proof.
  destruct (elf64_load_correct (FR := tiny_reader) (lit "/bin/init") tiny_elf (empty_arena 3) (replicate 64 0)) as (es & img & log & h' & E & HQ).
  - by intros off size d _ _ [= <-].
  - done.
  - assert (es = ELF_OK) as ->.
    { apply (f_equal (λ r, match r with Ret (s, _, _, _) => Some s | Fault _ => None end)) in E. vm_compute in E. congruence. }
    exists img, log, h'. split; [exact E |]. rewrite decide_True in HQ by done. destruct HQ as (st & Est & _ & _ & _ & _ & _ & HL).
    assert (st_size st = 124) as Hs by (injection Est as <-; reflexivity). rewrite Hs in HL. exact HL.
Defined.
