(* ===== verification/Timer.v ===== *)
(** * Time keeping: [kernel/core/timer.c]

    The clock hardware is a record of functions of time: [pit_at], [tsc_at] and
    [hpet_at] say what the three counters read at each instant, and every access
    takes one instant.  The result of a function carries the instant it ends at.
    [KLOG] calls are returned as data. *)

From Stdlib Require Import ZArith Lia String.
From stdpp Require Import prelude list_numbers.
From S2P Require Import Prelude Arith CString Printf Log.

Local Open Scope Z_scope.

Definition RABBITBONE_PIT_HZ : Z := 100.
Definition TIMER_HPET_CALIBRATION_NS : Z := 2000000.
Definition TIMER_HPET_CALIBRATION_SPIN_LIMIT : positive := 1000000.
Definition TIMER_PIT_TSC_CALIBRATION_TICKS : Z := 4.
Definition TIMER_PIT_TSC_SPIN_LIMIT : positive := 50000000.

Record timer_info_t := mk_info {
  pit_active : bool;
  hpet_active : bool;
  tsc_supported : bool;
  tsc_calibrated : bool;
  pit_hz : Z;
  tsc_hz : Z;
  monotonic_ns : Z;
  clocksource : option (list Z);
}.

(** The static variables. *)
Record timer_state := mk_timer { info : timer_info_t; tsc_base : Z; ns_base : Z }.

Record clocks := mk_clocks {
  pit_at : Z → Z;
  tsc_at : Z → Z;
  hpet_at : Z → option Z;
  hpet_enabled : bool;
  invariant_tsc : bool;
  irq_on : bool;
}.

Section timer.
Context (hw : clocks).

Definition pit_ticks (t : Z) : Z * Z := (pit_at hw t, t + 1).
Definition cpu_read_tsc (t : Z) : Z * Z := (tsc_at hw t, t + 1).
Definition hpet_now_ns (t : Z) : option Z * Z := (hpet_at hw t, t + 1).

Definition timer_irq_enabled : bool := irq_on hw.

(** The tick seen and the time, or the time the spinning gave up. *)
Definition timer_wait_for_pit_tick_change (initial : Z) (spin_limit : positive) (t : Z) : res (ctl Z (Z * Z)) :=
  loop_pos spin_limit (λ t,
    let '(now, t) := pit_ticks t in
    if negb (now =? initial) then Ret (Done (now, t)) else Ret (Next t)) t.

Definition pit_wait (target t : Z) : res Z :=
  c ← loop_pos TIMER_PIT_TSC_SPIN_LIMIT (λ t,
        let '(now, t) := pit_ticks t in if target <=? now then Ret (Done t) else Ret (Next t)) t;
  Ret (match c with Done t | Next t => t end).

Definition set_tsc (s : timer_state) (hz : Z) (calibrated : bool) (source : option (list Z)) : timer_info_t :=
  mk_info (pit_active (info s)) (hpet_active (info s)) (tsc_supported (info s)) calibrated (pit_hz (info s)) hz (monotonic_ns (info s)) source.

Definition timer_calibrate_tsc_from_pit (s : timer_state) (t : Z) : res (timer_state * bool * Z) :=
  if negb (tsc_supported (info s)) || negb (pit_active (info s)) || negb timer_irq_enabled then Ret (s, false, t) else
  let '(tick0, t) := pit_ticks t in
  c ← timer_wait_for_pit_tick_change tick0 TIMER_PIT_TSC_SPIN_LIMIT t;
  match c with
  | Next t => Ret (s, false, t)
  | Done (start_tick, t) =>
      let '(tsc_a, t) := cpu_read_tsc t in
      let target := wrap64 (start_tick + TIMER_PIT_TSC_CALIBRATION_TICKS) in
      t ← pit_wait target t;
      let '(end_tick, t) := pit_ticks t in
      let '(tsc_b, t) := cpu_read_tsc t in
      if (end_tick <=? start_tick) || (tsc_b <=? tsc_a) then Ret (s, false, t) else
      let ticks_delta := end_tick - start_tick in
      let hz := u64_mul_div_saturating (tsc_b - tsc_a) (pit_hz (info s)) ticks_delta in
      if (hz =? 0) || (hz =? U64MAX) then Ret (s, false, t) else
      let '(tb, t) := cpu_read_tsc t in
      let '(p, t) := pit_ticks t in
      Ret (mk_timer (set_tsc s hz true (Some (lit "tsc-pit"))) tb (wrap64 (p * (1000000000 / RABBITBONE_PIT_HZ))), true, t)
  end.

(** The wait for the HPET to advance by the calibration interval: whether it did,
    its last reading (0 before the first) and the time. *)
Definition hpet_wait (hpet_a t : Z) : res (bool * Z * Z) :=
  c ← loop_pos TIMER_HPET_CALIBRATION_SPIN_LIMIT (λ '(b, t),
        let '(r, t) := hpet_now_ns t in
        match r with
        | None => Ret (Done (false, b, t))
        | Some b =>
            if (hpet_a <=? b) && (TIMER_HPET_CALIBRATION_NS <=? b - hpet_a) then Ret (Done (true, b, t)) else Ret (Next (b, t))
        end) (0, t);
  match c with Done r => Ret r | Next (b, t) => Ret (false, b, t) end.

(** Calibration against the HPET. *)
Definition calibrate_from_hpet (s : timer_state) (t : Z) : res (timer_state * Z) :=
  let '(r, t) := hpet_now_ns t in
  match r with
  | None => Ret (s, t)
  | Some hpet_a =>
      let '(tsc_a, t) := cpu_read_tsc t in
      '(advanced, hpet_b, t) ← hpet_wait hpet_a t;
      let '(tsc_b, t) := cpu_read_tsc t in
      if negb (advanced && (hpet_a <=? hpet_b)) then Ret (s, t) else
      let ns_delta := hpet_b - hpet_a in
      if negb ((tsc_a <? tsc_b) && negb (ns_delta =? 0)) then Ret (s, t) else
      let hz := u64_mul_div_saturating (tsc_b - tsc_a) 1000000000 ns_delta in
      if negb (hz =? 0) && negb (hz =? U64MAX) then
        let '(tb, t) := cpu_read_tsc t in
        let '(nb, t) := hpet_now_ns t in
        Ret (mk_timer (set_tsc s hz true (Some (lit "tsc"))) tb (default hpet_b nb), t)
      else Ret (mk_timer (set_tsc s hz (tsc_calibrated (info s)) (clocksource (info s))) (tsc_base s) (ns_base s), t)
  end.

Definition flag_word (b : bool) : varg := VInt (if b then 1 else 0).

Definition timer_init_sources (s : timer_state) (t : Z) : res (timer_state * list klog_call * Z) :=
  let i := mk_info true (hpet_enabled hw) (invariant_tsc hw) false RABBITBONE_PIT_HZ 0 0 (Some (lit (if hpet_enabled hw then "hpet" else "pit"))) in
  let s := mk_timer i (tsc_base s) (ns_base s) in
  '(s, t) ← (if hpet_active (info s) && tsc_supported (info s) then calibrate_from_hpet s t else Ret (s, t));
  '(s, _, t) ← (if negb (tsc_calibrated (info s)) then timer_calibrate_tsc_from_pit s t else Ret (s, false, t));
  Ret (s, [mk_klog LOG_INFO (lit "timer") (lit "clocksource=%s pit=%u hpet=%u tsc_supported=%u tsc_hz=%llu")
             [VStr (clocksource (info s)); flag_word (pit_active (info s)); flag_word (hpet_active (info s));
              flag_word (tsc_supported (info s)); VLong (tsc_hz (info s))]], t).

Definition timer_now_ns (s : timer_state) (t : Z) : Z * Z :=
  if tsc_calibrated (info s) && negb (tsc_hz (info s) =? 0) then
    let '(now, t) := cpu_read_tsc t in
    let delta := if tsc_base s <=? now then now - tsc_base s else 0 in
    let ns_delta := u64_mul_div_saturating delta 1000000000 (tsc_hz (info s)) in
    (u64_add_saturating (ns_base s) ns_delta, t)
  else
    let '(r, t) := hpet_now_ns t in
    match r with
    | Some ns => (ns, t)
    | None => let '(p, t) := pit_ticks t in (wrap64 (p * (1000000000 / RABBITBONE_PIT_HZ)), t)
    end.

Definition timer_get_info (s : timer_state) (t : Z) : timer_info_t * Z :=
  let '(ns, t) := timer_now_ns s t in
  (mk_info (pit_active (info s)) (hpet_active (info s)) (tsc_supported (info s)) (tsc_calibrated (info s)) (pit_hz (info s)) (tsc_hz (info s)) ns
     (clocksource (info s)), t).

Definition timer_format_status (s : timer_state) (out : option (list Z)) (out_len : Z) (t : Z) : res (option (list Z) * Z) :=
  match out with
  | None => Ret (None, t)
  | Some _ =>
      if out_len =? 0 then Ret (out, t) else
      bo ← rabbitbone_buf_init out out_len;
      let '(ti, t) := timer_get_info s t in
      bo ← rabbitbone_buf_appendf bo
        (Some (lit "timer: clocksource=%s now_ns=%llu pit=%u pit_hz=%llu hpet=%u tsc_supported=%u tsc_calibrated=%u tsc_hz=%llu
"))
        [VStr (match clocksource ti with Some c => Some c | None => Some (lit "unknown") end); VLong (monotonic_ns ti); flag_word (pit_active ti);
         VLong (pit_hz ti); flag_word (hpet_active ti); flag_word (tsc_supported ti); flag_word (tsc_calibrated ti); VLong (tsc_hz ti)];
      Ret (bo_buf bo, t)
  end.

(** Each halt lasts at least one instant; [fuel] bounds the halts. *)
Fixpoint sleep_loop (fuel : nat) (start delta t : Z) : res Z :=
  match fuel with
  | O => Fault Diverged
  | S k =>
      let '(now, t) := pit_ticks t in
      if wrap64 (now - start) <? delta then sleep_loop k start delta (t + 1) else Ret t
  end.

Definition timer_sleep_ticks (fuel : nat) (delta t : Z) : res Z :=
  if negb (delta =? 0) && negb (irq_on hw) then Fault Panic else
  let '(start, t) := pit_ticks t in
  sleep_loop fuel start delta t.

Definition timer_selftest (fuel : nat) (s : timer_state) (t : Z) : res (bool * Z) :=
  if negb (irq_on hw) then Ret (false, t) else
  let '(before, t) := pit_ticks t in
  let '(ns_before, t) := timer_now_ns s t in
  t ← timer_sleep_ticks fuel 2 t;
  let '(after, t) := pit_ticks t in
  let '(ns_after, t) := timer_now_ns s t in
  Ret ((2 <=? wrap64 (after - before)) && (ns_before <=? ns_after), t).

End timer.

(** ** Sound clocks *)

(** The counters never run backwards; the HPET does not come and go; the tick
    count stays below 2^64 nanoseconds. *)
Record clocks_ok (hw : clocks) : Prop := {
  ck_tsc : ∀ t t', t ≤ t' → 0 ≤ tsc_at hw t ≤ tsc_at hw t' ∧ tsc_at hw t' ≤ U64MAX;
  ck_hpet : (∀ t, hpet_at hw t = None) ∨
    ∀ t t', t ≤ t' → ∃ a b, hpet_at hw t = Some a ∧ hpet_at hw t' = Some b ∧ 0 ≤ a ≤ b ∧ b ≤ U64MAX;
  ck_pit : ∀ t t', t ≤ t' → 0 ≤ pit_at hw t ≤ pit_at hw t' ∧ pit_at hw t' * 10000000 ≤ U64MAX;
}.

Definition timer_ok (s : timer_state) : Prop := is_u64 (tsc_hz (info s)) ∧ is_u64 (tsc_base s) ∧ is_u64 (ns_base s).

(** Which counter [timer_now_ns] reads. *)
Definition uses_tsc (s : timer_state) : bool := tsc_calibrated (info s) && negb (tsc_hz (info s) =? 0).

Lemma add_saturating_min a b : u64_add_saturating a b = Z.min U64MAX (a + b).
Proof. unfold u64_add_saturating, add_u64. destruct (Z.leb_spec (a + b) U64MAX); lia. Qed.

Lemma timer_now_tsc hw s t :
  clocks_ok hw → timer_ok s → uses_tsc s = true →
  timer_now_ns hw s t =
    (Z.min U64MAX (ns_base s + Z.min U64MAX (Z.max 0 (tsc_at hw t - tsc_base s) * 1000000000 / tsc_hz (info s))), t + 1).
Proof.
  intros [Ht _ _] (Hhz & Htb & Hnb) Hu. unfold timer_now_ns. fold (uses_tsc s). rewrite Hu. cbn [cpu_read_tsc].
  rewrite add_saturating_min. specialize (Ht t t ltac:(lia)). unfold uses_tsc in Hu.
  assert (Hd : (if tsc_base s <=? tsc_at hw t then tsc_at hw t - tsc_base s else 0) = Z.max 0 (tsc_at hw t - tsc_base s)).
  { destruct (Z.leb_spec (tsc_base s) (tsc_at hw t)); lia. }
  rewrite Hd, u64_mul_div_spec by ulia. destruct (Z.eqb_spec (tsc_hz (info s)) 0); [| done].
  by rewrite andb_false_r in Hu.
Qed.

(** Time never runs backwards.  With sound clocks, a later call of
    [timer_now_ns] returns no less than an earlier one, whichever counter is in
    use; with a calibrated time stamp counter the value is the base plus the exact
    quotient of elapsed cycles and frequency, saturating instead of wrapping. *)
Theorem timer_now_monotone (hw : clocks) (s : timer_state) (t t2 a b t1 t3 : Z) :
  clocks_ok hw → timer_ok s → timer_now_ns hw s t = (a, t1) → t1 ≤ t2 → timer_now_ns hw s t2 = (b, t3) →
  a ≤ b ∧ t < t1 ∧
  (uses_tsc s = true → a = Z.min U64MAX (ns_base s + Z.min U64MAX (Z.max 0 (tsc_at hw t - tsc_base s) * 1000000000 / tsc_hz (info s)))).
Proof.
  intros Hc Hs Ha Ht Hb. destruct (uses_tsc s) eqn:Hu.
  - rewrite timer_now_tsc in Ha, Hb by done. injection Ha as <- <-. injection Hb as <- <-.
    split; [| split; [lia | done]]. destruct Hs as [Hhz _]. pose proof (ck_tsc _ Hc t t2 ltac:(lia)).
    assert (0 < tsc_hz (info s)) by (unfold uses_tsc in Hu; destruct (Z.eqb_spec (tsc_hz (info s)) 0); [by rewrite andb_false_r in Hu | ulia]).
    assert (Z.max 0 (tsc_at hw t - tsc_base s) * 1000000000 / tsc_hz (info s) ≤ Z.max 0 (tsc_at hw t2 - tsc_base s) * 1000000000 / tsc_hz (info s)).
    { apply Z.div_le_mono; lia. }
    lia.
  - unfold timer_now_ns in Ha, Hb. fold (uses_tsc s) in Ha, Hb. rewrite Hu in Ha, Hb. cbn [hpet_now_ns pit_ticks] in Ha, Hb.
    destruct (ck_hpet _ Hc) as [Hn|Hh].
    + rewrite Hn in Ha, Hb. injection Ha as <- <-. injection Hb as <- <-. split; [| split; [lia | done]].
      change (1000000000 / RABBITBONE_PIT_HZ) with 10000000. pose proof (ck_pit _ Hc (t + 1) (t2 + 1) ltac:(lia)).
      rewrite !wrap_small by ulia. lia.
    + destruct (Hh t t2) as (x & y & Ex & Ey & Hxy & _).
      { destruct (hpet_at hw t); [injection Ha; lia |]. injection Ha as _ <-. lia. }
      rewrite Ex in Ha. rewrite Ey in Hb. injection Ha as <- <-. injection Hb as <- <-. split; [lia | split; [lia | done]].
Qed.

(** ** Sleeping *)

Section sleep.
Context (hw : clocks) (ticks : Z → Z) (k : Z).
(** [ticks] is the true tick count: it advances by at most one per instant and at
    least once in [k] instants; the counter shows it modulo 2^64. *)
Context (Hpit : ∀ t, pit_at hw t = wrap64 (ticks t)) (Hmono : ∀ t, ticks t ≤ ticks (t + 1) ≤ ticks t + 1)
  (Hk : 0 < k) (Hlive : ∀ t, ticks t + 1 ≤ ticks (t + k)).

Lemma ticks_le t n : 0 ≤ n → ticks t ≤ ticks (t + n) ≤ ticks t + n.
Proof.
  intros Hn. pattern n. apply natlike_ind; [rewrite Z.add_0_r; lia | | done]. intros m Hm IH.
  pose proof (Hmono (t + m)). replace (t + Z.succ m) with (t + m + 1) by lia. lia.
Qed.

Lemma ticks_live t n : 0 ≤ n → ticks t + n ≤ ticks (t + k * n).
Proof.
  intros Hn. pattern n. apply natlike_ind; [rewrite Z.mul_0_r, !Z.add_0_r; lia | | done]. intros m Hm IH.
  pose proof (Hlive (t + k * m)). replace (t + k * Z.succ m) with (t + k * m + k) by (rewrite Z.mul_succ_r; lia). lia.
Qed.

Lemma wrap_diff a b : 0 ≤ a - b < 2 ^ 64 → wrap64 (wrap64 a - wrap64 b) = a - b.
Proof. intros Hab. unfold wrap. rewrite <- Zminus_mod. by apply Z.mod_small. Qed.

Lemma sleep_loop_spec n fuel t0 t delta :
  0 ≤ delta → delta + 2 < 2 ^ 64 → t0 ≤ t → ticks t ≤ ticks t0 + delta + 2 → ticks t0 + delta ≤ ticks (t + 2 * Z.of_nat n) → (n < fuel)%nat →
  ∃ m, (m ≤ n)%nat ∧ sleep_loop hw fuel (wrap64 (ticks t0)) delta t = Ret (t + 2 * Z.of_nat m + 1) ∧
    ticks t0 + delta ≤ ticks (t + 2 * Z.of_nat m) ≤ ticks t0 + delta + 2.
Proof.
  intros Hd Hd2. revert fuel t. induction n as [|n IH]; intros fuel t Ht Hle Hn Hf; (destruct fuel as [|fuel]; [lia |]); cbn [sleep_loop pit_ticks];
    rewrite Hpit; (assert (Hge : ticks t0 ≤ ticks t) by (replace t with (t0 + (t - t0)) by lia; apply ticks_le; lia)); rewrite wrap_diff by lia.
  - rewrite Z.mul_0_r, Z.add_0_r in Hn. destruct (Z.ltb_spec (ticks t - ticks t0) delta); [lia |]. exists O. rewrite Z.mul_0_r, Z.add_0_r. split_and!; [lia | done | lia | lia].
  - destruct (Z.ltb_spec (ticks t - ticks t0) delta).
    + pose proof (ticks_le t 2 ltac:(lia)). replace (t + 1 + 1) with (t + 2) by lia.
      destruct (IH fuel (t + 2)) as (m & Hm & E & Hr); [lia | lia | by replace (t + 2 + 2 * Z.of_nat n) with (t + 2 * Z.of_nat (S n)) by lia | lia |].
      exists (S m). split; [lia |]. replace (t + 2 * Z.of_nat (S m)) with (t + 2 + 2 * Z.of_nat m) by lia. done.
    + exists O. change (2 * Z.of_nat 0) with 0. rewrite Z.add_0_r. split_and!; [lia | done | lia | lia].
Qed.

End sleep.

(** C32: Sleeping lasts as long as asked.  With interrupts on and a tick at least
    every [k] instants, [timer_sleep_ticks] returns, at least [delta] and at most
    [delta + 2] ticks have passed, and [k * delta + 1] halts are enough; a counter
    that wraps around in between does not matter.  With interrupts off a sleep of
    non-zero length stops the kernel. *)
Theorem timer_sleep_correct (hw : clocks) (ticks : Z → Z) (k delta t : Z) (fuel : nat) :
  (∀ t, pit_at hw t = wrap64 (ticks t)) → (∀ t, ticks t ≤ ticks (t + 1) ≤ ticks t + 1) → 0 < k → (∀ t, ticks t + 1 ≤ ticks (t + k)) →
  0 ≤ delta → delta + 2 < 2 ^ 64 → k * delta < Z.of_nat fuel →
  if irq_on hw || (delta =? 0) then
    ∃ t', timer_sleep_ticks hw fuel delta t = Ret t' ∧ ticks t + delta ≤ ticks (t' - 1) ≤ ticks t + delta + 2 ∧ t < t' - 1 ≤ t + 1 + 2 * (k * delta)
  else timer_sleep_ticks hw fuel delta t = Fault Panic.
Proof.
  intros Hpit Hmono Hk Hlive Hd Hd2 Hf. unfold timer_sleep_ticks.
  destruct (irq_on hw || (delta =? 0)) eqn:E; [| apply orb_false_iff in E as [-> ->]; done].
  assert (negb (delta =? 0) && negb (irq_on hw) = false) as -> by (destruct (delta =? 0), (irq_on hw); done).
  cbn [pit_ticks]. rewrite Hpit.
  destruct (sleep_loop_spec hw ticks Hpit Hmono (Z.to_nat (k * delta)) fuel t (t + 1) delta) as (m & Hm & -> & Hr); [done | done | lia | | | nia |].
  - pose proof (Hmono t). lia.
  - rewrite Z2Nat.id by nia. pose proof (ticks_live ticks k Hlive (t + 1) delta Hd). pose proof (Hmono t).
    pose proof (ticks_le ticks Hmono (t + 1 + k * delta) (k * delta) ltac:(nia)).
    replace (t + 1 + 2 * (k * delta)) with (t + 1 + k * delta + k * delta) by lia. lia.
  - eexists. split; [done |]. replace (t + 1 + 2 * Z.of_nat m + 1 - 1) with (t + 1 + 2 * Z.of_nat m) by lia. split; [done |]. nia.
Qed.

Lemma timer_now_monotone_witness :
  let hw := mk_clocks (λ t, Z.max 0 (Z.min 1000 t)) (λ t, Z.max 0 (Z.min (2 ^ 40) (3000 * t))) (λ _, None) false true true in
  let s := mk_timer (mk_info true false true true 100 3000000000 0 (Some (lit "tsc"))) 3000 500 in
  (timer_now_ns hw s 4).1 = 3500 ∧ 3500 ≤ (timer_now_ns hw s 9).1.
Proof.
  intros hw s. destruct (timer_now_monotone hw s 4 9 3500 8500 5 10) as (H1 & _ & _).
  - split; [intros t t' Ht; cbn; ulia | by left | intros t t' Ht; cbn; ulia].
  - split_and!; vm_compute; split; congruence.
  - reflexivity.
  - lia.
  - reflexivity.
  - split; [reflexivity | exact H1].
Defined.

Lemma timer_sleep_correct_witness :
  let hw := mk_clocks (λ t, wrap64 (2 ^ 64 - 2 + t / 3)) (λ _, 0) (λ _, None) false false true in
  ∃ t', timer_sleep_ticks hw 20 4 0 = Ret t' ∧ 4 ≤ (t' - 1) / 3.
Proof.
  intros hw. pose proof (timer_sleep_correct hw (λ t, 2 ^ 64 - 2 + t / 3) 3 4 0 20) as H. destruct H as (t' & E & H1 & _); try lia.
  - done.
  - intros t. pose proof (Z.div_le_mono t (t + 1) 3 ltac:(lia) ltac:(lia)). pose proof (Z.div_mod t 3). pose proof (Z.mod_pos_bound t 3).
    pose proof (Z.div_mod (t + 1) 3). pose proof (Z.mod_pos_bound (t + 1) 3). lia.
  - intros t. replace (t + 3) with (t + 1 * 3) by lia. rewrite Z.div_add by lia. lia.
  - exists t'. split; [exact E |]. change (0 / 3) with 0 in H1. lia.
Defined.

(** ** Calibration *)

(** A frequency measured between two instants against a counter of [unit] per
    second. *)
Definition measured (tsc counter : Z → option Z) (unit min hz : Z) : Prop :=
  ∃ x y a b u v, x < y ∧ counter x = Some a ∧ counter y = Some b ∧ min ≤ b - a ∧ 0 < b - a ∧
    tsc (x + 1) = Some u ∧ tsc (y + 1) = Some v ∧ u < v ∧ hz = (v - u) * unit / (b - a).

Definition calibrated (hw : clocks) (s : timer_state) : Prop :=
  invariant_tsc hw = true ∧ 0 < tsc_hz (info s) < U64MAX ∧
  ((clocksource (info s) = Some (lit "tsc") ∧ measured (Some ∘ tsc_at hw) (hpet_at hw) 1000000000 TIMER_HPET_CALIBRATION_NS (tsc_hz (info s))) ∨
   (clocksource (info s) = Some (lit "tsc-pit") ∧ measured (Some ∘ tsc_at hw) (Some ∘ pit_at hw) RABBITBONE_PIT_HZ 1 (tsc_hz (info s)))).

Section calibration.
#[local] Opaque loop_pos.
Context (hw : clocks) (Hc : clocks_ok hw).

Lemma measured_quotient a b unit d :
  is_u64 a → is_u64 b → a < b → is_u64 unit → is_u64 d → d ≠ 0 →
  let hz := u64_mul_div_saturating (b - a) unit d in
  is_u64 hz ∧ (hz ≠ U64MAX → hz = (b - a) * unit / d).
Proof.
  intros Ha Hb Hab Hu Hd Hd0. cbv zeta. rewrite u64_mul_div_spec by ulia. destruct (Z.eqb_spec d 0); [done |].
  assert (0 ≤ (b - a) * unit / d) by (apply Z.div_pos; [unfold is_u64 in *; nia | ulia]). split; [ulia | lia].
Qed.

Lemma tsc_word t : is_u64 (tsc_at hw t).
Proof. destruct (ck_tsc _ Hc t t ltac:(lia)). ulia. Qed.

Lemma hpet_wait_spec a t :
  ∃ adv b t', hpet_wait hw a t = Ret (adv, b, t') ∧
    (adv = true → t < t' ∧ hpet_at hw (t' - 1) = Some b ∧ a ≤ b ∧ TIMER_HPET_CALIBRATION_NS ≤ b - a).
Proof.
  unfold hpet_wait.
  match goal with |- context [loop_pos ?p ?f ?s] => destruct (loop_pos_inv (λ x : Z * Z, t ≤ x.2)
    (λ r : bool * Z * Z, r.1.1 = true → t < r.2 ∧ hpet_at hw (r.2 - 1) = Some r.1.2 ∧ a ≤ r.1.2 ∧ TIMER_HPET_CALIBRATION_NS ≤ r.1.2 - a) f p s)
    as [([b t'] & -> & Ht)|([[adv b] t'] & -> & Hadv)] end.
  - cbn. lia.
  - intros [b t0] Ht. cbn [fst snd hpet_now_ns] in *. destruct (hpet_at hw t0) as [b'|] eqn:E; [| by right; eexists].
    destruct ((a <=? b') && (TIMER_HPET_CALIBRATION_NS <=? b' - a)) eqn:E2; [right | left; eexists; split; [done | cbn; lia]].
    eexists. split; [done |]. cbn [fst snd]. intros _. replace (t0 + 1 - 1) with t0 by lia. split_and!; [lia | done | lia | lia].
  - mred. by eexists _, _, _.
  - mred. eexists _, _, _. split; [done |]. exact Hadv.
Qed.

(** What a calibration attempt leaves: the frequency it measured, or no claim to
    have one. *)
Definition outcome (s s' : timer_state) : Prop :=
  timer_ok s' ∧
  pit_active (info s') = pit_active (info s) ∧ hpet_active (info s') = hpet_active (info s) ∧
  tsc_supported (info s') = tsc_supported (info s) ∧ pit_hz (info s') = pit_hz (info s) ∧
  (if tsc_calibrated (info s') then calibrated hw s' else clocksource (info s') = clocksource (info s)).

Lemma outcome_refl s : timer_ok s → tsc_calibrated (info s) = false → outcome s s.
Proof. intros Hs E. unfold outcome. by rewrite E. Qed.

Lemma calibrate_from_hpet_spec s t :
  timer_ok s → tsc_calibrated (info s) = false → invariant_tsc hw = true →
  ∃ s' t', calibrate_from_hpet hw s t = Ret (s', t') ∧ outcome s s'.
Proof.
  intros Hs Hcal Hinv. unfold calibrate_from_hpet. cbn [hpet_now_ns cpu_read_tsc].
  destruct (hpet_at hw t) as [a|] eqn:Ea; [| by eexists _, _; split; [done | by apply outcome_refl]].
  destruct (hpet_wait_spec a (t + 1 + 1)) as (adv & b & t' & -> & Hadv). mred.
  destruct adv; cbn [andb negb]; [| by eexists _, _; split; [done | by apply outcome_refl]].
  destruct Hadv as (Ht' & Eb & Hab & Hns); [done |]. destruct (Z.leb_spec a b); [| lia]. cbn [negb].
  destruct (ck_hpet _ Hc) as [Hn|Hh]; [by rewrite Hn in Ea |].
  destruct (Hh t (t' - 1)) as (a' & b' & Ea' & Eb' & Hb'); [lia |]. assert (a' = a) as -> by congruence. assert (b' = b) as -> by congruence.
  destruct (Z.ltb_spec (tsc_at hw (t + 1)) (tsc_at hw t')); cbn [andb negb]; [| by eexists _, _; split; [done | by apply outcome_refl]].
  change TIMER_HPET_CALIBRATION_NS with 2000000 in Hns.
  destruct (Z.eqb_spec (b - a) 0); cbn [negb]; [lia |].
  destruct (measured_quotient (tsc_at hw (t + 1)) (tsc_at hw t') 1000000000 (b - a)) as [Hw Hq];
    [apply tsc_word | apply tsc_word | done | ulia | ulia | done |].
  set (hz := u64_mul_div_saturating _ _ _) in *.
  destruct (Z.eqb_spec hz 0); [| destruct (Z.eqb_spec hz U64MAX)]; cbn [negb andb].
  1, 2: eexists _, _; split; [done |]; destruct Hs as (_ & Htb & Hnb); unfold outcome; cbn; rewrite Hcal; done.
  eexists _, _. split; [done |]. split; [split_and!; cbn; [done | apply tsc_word |] |].
  - destruct (Hh (t' + 1 + 1) (t' + 1 + 1)) as (c & c' & -> & _ & Hc1 & Hc2); [lia |]. cbn. ulia.
  - cbn. split_and!; try done. split; [done |]. split; [cbn; ulia |]. left. split; [done |].
    exists t, (t' - 1), a, b. eexists _, _. cbn. replace (t' - 1 + 1) with t' by lia. split_and!; [lia | done | done | done | lia | done | done | done | by apply Hq].
Qed.

Lemma wait_tick_spec initial p t :
  (∃ t', timer_wait_for_pit_tick_change hw initial p t = Ret (Next t')) ∨
  (∃ now t', timer_wait_for_pit_tick_change hw initial p t = Ret (Done (now, t')) ∧ t < t' ∧ pit_at hw (t' - 1) = now).
Proof.
  unfold timer_wait_for_pit_tick_change.
  match goal with |- context [loop_pos ?p ?f ?s] => destruct (loop_pos_inv (λ x : Z, t ≤ x) (λ r : Z * Z, t < r.2 ∧ pit_at hw (r.2 - 1) = r.1) f p s)
    as [(t' & -> & Ht)|([now t'] & -> & H1 & H2)] end; [lia | | by left; eexists | by right; eexists _, _].
  intros t0 Ht. cbn [pit_ticks]. destruct (pit_at hw t0 =? initial); cbn [negb]; [left | right]; eexists; (split; [done |]); [lia |].
  cbn. replace (t0 + 1 - 1) with t0 by lia. split; [lia | done].
Qed.

Lemma pit_wait_spec target t : ∃ t', pit_wait hw target t = Ret t' ∧ t ≤ t'.
Proof.
  unfold pit_wait. match goal with |- context [loop_pos ?p ?f ?s] => destruct (loop_pos_inv (λ x : Z, t ≤ x) (λ x : Z, t ≤ x) f p s)
      as [(t2 & -> & Ht)|(t2 & -> & Ht)] end; [lia | | by eexists | by eexists].
  intros x Hx. cbn [pit_ticks]. destruct (_ <=? _); [right | left]; eexists; (split; [done |]); lia.
Qed.

Lemma pit_ticks_eq t : pit_ticks hw t = (pit_at hw t, t + 1).
Proof. done. Qed.

Lemma cpu_read_tsc_eq t : cpu_read_tsc hw t = (tsc_at hw t, t + 1).
Proof. done. Qed.

Lemma calibrate_from_pit_spec s t :
  timer_ok s → tsc_calibrated (info s) = false → tsc_supported (info s) = invariant_tsc hw → pit_hz (info s) = RABBITBONE_PIT_HZ →
  ∃ s' ok t', timer_calibrate_tsc_from_pit hw s t = Ret (s', ok, t') ∧ outcome s s' ∧ ok = tsc_calibrated (info s').
Proof.
  intros Hs Hcal Hinv Hhz. unfold timer_calibrate_tsc_from_pit. rewrite Hinv.
  destruct (negb (invariant_tsc hw) || _ || _) eqn:Eg; [by eexists _, _, _; split_and!; [done | by apply outcome_refl |] |].
  rewrite pit_ticks_eq. destruct (wait_tick_spec (pit_at hw t) TIMER_PIT_TSC_SPIN_LIMIT (t + 1)) as [(t1 & ->)|(a & t1 & -> & Ht1 & Ea)]; mred;
    [by eexists _, _, _; split_and!; [done | by apply outcome_refl |] |].
  rewrite cpu_read_tsc_eq. destruct (pit_wait_spec (wrap64 (a + TIMER_PIT_TSC_CALIBRATION_TICKS)) (t1 + 1)) as (t2 & -> & Ht2).
  mred. rewrite pit_ticks_eq, cpu_read_tsc_eq. destruct ((pit_at hw t2 <=? a) || _) eqn:E2; [by eexists _, _, _; split_and!; [done | by apply outcome_refl |] |].
  apply orb_false_iff in E2 as [E2 E3].
  pose proof (ck_pit _ Hc (t1 - 1) t2 ltac:(lia)) as Hp. rewrite Ea in Hp. rewrite Hhz.
  destruct (measured_quotient (tsc_at hw t1) (tsc_at hw (t2 + 1)) RABBITBONE_PIT_HZ (pit_at hw t2 - a)) as [Hw Hq];
    [apply tsc_word | apply tsc_word | lia | done | ulia | lia |].
  set (hz := u64_mul_div_saturating _ _ _) in *.
  destruct (Z.eqb_spec hz 0); cbn [orb]; [by eexists _, _, _; split_and!; [done | by apply outcome_refl |] |].
  destruct (Z.eqb_spec hz U64MAX); [by eexists _, _, _; split_and!; [done | by apply outcome_refl |] |].
  rewrite cpu_read_tsc_eq, pit_ticks_eq. eexists _, _, _. split; [done |]. split; [| done]. split; [split_and!; cbn; [done | apply tsc_word | apply wrap_range; lia] |].
  cbn. split_and!; try done. apply orb_false_iff in Eg as [Eg _]. apply orb_false_iff in Eg as [Eg _]. apply negb_false_iff in Eg.
  split; [done |]. split; [cbn; ulia |]. right. split; [done |].
  exists (t1 - 1), t2, a, (pit_at hw t2). eexists _, _. cbn. rewrite Ea. replace (t1 - 1 + 1) with t1 by lia.
  split_and!; [lia | done | done | lia | lia | done | done | lia | by apply Hq].
Qed.

End calibration.

(** C31: Calibration is honest.  With sound clocks [timer_init_sources] returns, in
    bounded time; if it says the time stamp counter is calibrated, then that
    counter is invariant, its frequency is neither 0 nor saturated, and it is the
    exact quotient of the cycles and the time between two instants, at least two
    milliseconds apart on the HPET or one tick apart on the PIT; if it does not,
    the clock is the HPET where there is one and the PIT otherwise.  The line it
    logs agrees with its own format string. *)
Theorem timer_init_correct (hw : clocks) (s : timer_state) (t : Z) :
  clocks_ok hw → is_u64 (tsc_base s) → is_u64 (ns_base s) →
  ∃ s' line t', timer_init_sources hw s t = Ret (s', [line], t') ∧ timer_ok s' ∧
    pit_active (info s') = true ∧ hpet_active (info s') = hpet_enabled hw ∧ tsc_supported (info s') = invariant_tsc hw ∧
    (if tsc_calibrated (info s') then calibrated hw s' else clocksource (info s') = Some (lit (if hpet_enabled hw then "hpet" else "pit"))) ∧
    (∃ txt, format_text (Some (klog_fmt line)) (klog_args line) = Ret txt).
Proof.
  intros Hc Htb Hnb. unfold timer_init_sources.
  set (s0 := mk_timer (mk_info true (hpet_enabled hw) (invariant_tsc hw) false RABBITBONE_PIT_HZ 0 0 _) (tsc_base s) (ns_base s)).
  assert (Hs0 : timer_ok s0) by (split_and!; [done | done | done]).
  assert (∃ s1 t1, (if hpet_active (info s0) && tsc_supported (info s0) then calibrate_from_hpet hw s0 t else Ret (s0, t)) = Ret (s1, t1) ∧ outcome hw s0 s1)
    as (s1 & t1 & -> & H1).
  { destruct (hpet_active (info s0) && tsc_supported (info s0)) eqn:E; [| by eexists _, _; split; [done | by apply outcome_refl]].
    apply calibrate_from_hpet_spec; [done | done | done |]. by apply andb_true_iff in E as [_ E]. }
  mred.
  assert (∃ s2 ok t2, (if negb (tsc_calibrated (info s1)) then timer_calibrate_tsc_from_pit hw s1 t1 else Ret (s1, false, t1)) = Ret (s2, ok, t2) ∧ outcome hw s0 s2)
    as (s2 & ok & t2 & -> & H2).
  { destruct H1 as (Hk & Hp & Hh & Ht & Hz & H1). destruct (tsc_calibrated (info s1)) eqn:E; cbn [negb].
    - eexists _, _, _. split; [done |]. unfold outcome. by rewrite E.
    - destruct (calibrate_from_pit_spec hw Hc s1 t1) as (s2 & ok & t2 & -> & H2 & _); [done | done | by rewrite Ht | by rewrite Hz |].
      eexists _, _, _. split; [done |]. destruct H2 as (Hk2 & Hp2 & Hh2 & Ht2 & Hz2 & H2).
      split_and!; [done | congruence | congruence | congruence | congruence |].
      destruct (tsc_calibrated (info s2)); congruence. }
  mred. eexists _, _, _. split; [done |]. destruct H2 as (Hk & Hp & Hh & Ht & _ & H2). split_and!; try done; try apply Hk.
  cbn [klog_fmt klog_args]. eapply (format_text_typed _ [KStr; KInt; KInt; KInt; KLong]); [by vm_compute |].
  apply Forall2_cons. split; [| by repeat (apply Forall2_cons; split; [done |])].
  assert (∃ n : string, clocksource (info s2) = Some (lit n) ∧ cstr_at (lit n) (bytes_of n)) as (n & -> & Hn); [| by eexists].
  destruct (tsc_calibrated (info s2)).
  - destruct H2 as (_ & _ & [[-> _]|[-> _]]); eexists; (split; [done | lit_cstr]).
  - rewrite H2. cbn [info s0 clocksource]. eexists. split; [done |]. destruct (hpet_enabled hw); lit_cstr.
Qed.

Lemma timer_init_correct_witness :
  let hw := mk_clocks (λ _, 7) (λ t, Z.max 0 (Z.min (2 ^ 40) (3000000 * t))) (λ t, Some (Z.max 0 (Z.min (2 ^ 40) (1000000 * t)))) true true false in
  let s := mk_timer (mk_info false false false false 0 0 0 None) 0 0 in
  ∃ s' line t', timer_init_sources hw s 5 = Ret (s', [line], t') ∧ timer_ok s' ∧
    clocksource (info s') = Some (lit "tsc") ∧ tsc_hz (info s') = 3000000000.
Proof.
  intros hw s. destruct (timer_init_correct hw s 5) as (s' & line & t' & E & Hok & _).
  - split; [intros t t' Ht; cbn; ulia | right | intros t t' Ht; cbn; ulia].
    intros t t' Ht. eexists _, _. split_and!; [reflexivity | reflexivity | cbn; lia | cbn; lia | cbn; ulia].
  - cbn. ulia.
  - cbn. ulia.
  - exists s', line, t'. split; [exact E |]. split; [exact Hok |].
    assert (E2 : (x ← timer_init_sources hw s 5; Ret (clocksource (info x.1.1), tsc_hz (info x.1.1))) = Ret (Some (lit "tsc"), 3000000000)) by (vm_compute; reflexivity).
    rewrite E in E2. injection E2 as H1 H2. split; assumption.
Defined.
