(* ===== verification/Devfs.v ===== *)
(** * The device file system: [kernel/vfs/devfs.c]

    Six fixed devices and one file per network interface, reached by path or by
    inode number.  This file puts components together: network devices ([Net]),
    the console ([Console]) under the terminal ([Tty]), the heap ([Kmem]) and the
    kernel log ([Log]).  The record [world] holds the state they keep.  The PRNG
    lock is not modelled: an operation runs alone. *)

From Stdlib Require Import ZArith Lia String.
From stdpp Require Import prelude list_numbers zmap.
From S2P Require Import Prelude CString Printf Log Keyboard Tty Console Net Kmem Vfs.

Local Open Scope Z_scope.

Definition RABBITBONE_UID_ROOT : Z := 0.
Definition RABBITBONE_GID_ROOT : Z := 0.
Definition RABBITBONE_GID_USERS : Z := 1000.

Inductive dev_kind_t := DEV_NULL | DEV_ZERO | DEV_PRNG | DEV_KMSG | DEV_TTY.

#[global] Instance dev_kind_eq_dec : EqDecision dev_kind_t.
Proof. solve_decision. Defined.

Record devfs_entry_t := mk_entry { name : list Z; kind : dev_kind_t; inode : Z; mode : Z }.

(** The modes are 0666, 0444, 0444, 0444, 0600 and 0666. *)
Definition entries : list devfs_entry_t :=
  [mk_entry (lit "null") DEV_NULL 1 438; mk_entry (lit "zero") DEV_ZERO 2 292; mk_entry (lit "prng") DEV_PRNG 3 292;
   mk_entry (lit "urandom_insecure") DEV_PRNG 4 292; mk_entry (lit "kmsg") DEV_KMSG 5 384; mk_entry (lit "tty") DEV_TTY 6 438].

(** [while ( *path == '/') ++path]. *)
Fixpoint skip_slashes (p : list Z) : res (list Z) :=
  match p with
  | [] => Fault OutOfBounds
  | c :: r => if c =? 47 then skip_slashes r else Ret p
  end.

Definition find_entry (path : option (list Z)) : res (option devfs_entry_t) :=
  match path with
  | None => Ret None
  | Some p =>
      p ← skip_slashes p;
      c ← rd p 0;
      if c =? 0 then Ret None else
      c ← loop_n (length entries) 0 (λ i (_ : unit),
            e ← rd entries i;
            r ← strcmp (Some (name e)) (Some p);
            if r =? 0 then Ret (Done e) else Ret (Next tt)) tt;
      match c with Done e => Ret (Some e) | Next _ => Ret None end
  end.

(** The digits at [p]: their value and what follows, [None] when the check against
    overflow fails. *)
Fixpoint parse_index (value : Z) (p : list Z) : res (option (Z * list Z)) :=
  match p with
  | [] => Fault OutOfBounds
  | c :: r =>
      if (48 <=? c) && (c <=? 57) then
        let next := wrap64 (wrap64 (value * 10) + (c - 48)) in
        if next <? value then Ret None else parse_index next r
      else Ret (Some (value, p))
  end.

(** The result with the value left in [*index_out]. *)
Definition parse_net_path (s : net_state) (path : option (list Z)) : res (bool * Z) :=
  match path with
  | None => Ret (false, 0)
  | Some p =>
      p ← skip_slashes p;
      c ← rd p 0; if negb (c =? 110) then Ret (false, 0) else
      c ← rd p 1; if negb (c =? 101) then Ret (false, 0) else
      c ← rd p 2; if negb (c =? 116) then Ret (false, 0) else
      let p := drop 3 p in
      c ← rd p 0;
      if (c <? 48) || (57 <? c) then Ret (false, 0) else
      r ← parse_index 0 p;
      match r with
      | None => Ret (false, 0)
      | Some (value, p) =>
          c ← rd p 0;
          if negb (c =? 0) then Ret (false, 0) else
          if netdev_count s <=? value then Ret (false, 0) else Ret (true, value)
      end
  end.

Definition find_netdev_path (s : net_state) (path : option (list Z)) : res (option Z) :=
  '(ok, index) ← parse_net_path s path;
  if negb ok then Ret None else netdev_get s index.

(** The result with the buffer. *)
Definition path_from_inode (s : net_state) (ino : Z) (out : option (list Z)) (out_len : Z) : res (bool * option (list Z)) :=
  match out with
  | None => Ret (false, None)
  | Some out =>
      if out_len =? 0 then Ret (false, Some out) else
      out ← wr out 0 0;
      c ← loop_n (length entries) 0 (λ i (_ : unit),
            e ← rd entries i;
            if inode e =? ino then '(_, out) ← strlcpy (Some out) (Some (name e)) out_len; Ret (Done out) else Ret (Next tt)) tt;
      match c with
      | Done out => Ret (true, out)
      | Next _ =>
          if 100 <=? ino then
            let index := ino - 100 in
            if index <? netdev_count s then
              '(out, _) ← ksnprintf (Some out) out_len (Some (lit "net%llu")) [VLong index];
              Ret (true, out)
            else Ret (false, Some out)
          else Ret (false, Some out)
      end
  end.

(** [tick] is what [pit_ticks] returns. *)
Definition xorshift (tick x : Z) : Z :=
  let x := if x =? 0 then Z.lxor 0x9e3779b97f4a7c15 tick else x in
  let x := Z.lxor x (wrap64 (Z.shiftl x 13)) in
  let x := Z.lxor x (Z.shiftr x 7) in
  Z.lxor x (wrap64 (Z.shiftl x 17)).

Section devfs.
Context {W V H : Type} `{Screen V} `{Kmem H}.
Context (ops_at : Z → @net_device_ops_t W).
(** The parts of the terminal that are not the console. *)
Context (enable_scrollback : V → V * bool) (user_active : bool) (user_pid : Z).

(** The console model under the terminal's interface. *)
Definition console_terminal : Terminal (console_state * V) := {|
  Tty.vga_get_size d := Console.vga_get_size d.2;
  Tty.vga_get_cursor d := Console.vga_get_cursor d.2;
  Tty.vga_enable_scrollback d := ((d.1, (enable_scrollback d.2).1), (enable_scrollback d.2).2);
  Tty.console_flush d := (d.1, Console.console_flush d.2);
  Tty.console_scroll d lines := ((d.1, (Console.console_scroll d.2 lines).2), (Console.console_scroll d.2 lines).1);
  Tty.console_move_cursor d row col := ((d.1, (Console.console_move_cursor d.2 row col).2), true);
  Tty.console_set_cursor_visible d b := ((d.1, (Console.console_set_cursor_visible d.2 b).2), true);
  Tty.console_clear_line d := ((d.1, (Console.console_clear_line d.2).2), true);
  Tty.console_clear d := match Console.console_clear d.1 d.2 with Ret d' => d' | Fault _ => d end;
  Tty.process_user_active _ := user_active;
  Tty.process_current_pid _ := user_pid;
|}.

Record world := mk_world {
  w_net : net_state;
  w_devices : Zmap net_device_t;
  w_driver : W;
  w_console : console_state * V;
  w_kbd : kbd_state;
  w_heap : H;
  w_prng : Z;
  w_log : list klog_call;
}.

Definition set_devices (w : world) (m : Zmap net_device_t) (d : W) : world :=
  mk_world (w_net w) m d (w_console w) (w_kbd w) (w_heap w) (w_prng w) (w_log w).
Definition set_prng (w : world) (x : Z) : world :=
  mk_world (w_net w) (w_devices w) (w_driver w) (w_console w) (w_kbd w) (w_heap w) x (w_log w).
Definition set_term (w : world) (c : console_state * V) (k : kbd_state) : world :=
  mk_world (w_net w) (w_devices w) (w_driver w) c k (w_heap w) (w_prng w) (w_log w).
Definition set_heap (w : world) (h : H) : world :=
  mk_world (w_net w) (w_devices w) (w_driver w) (w_console w) (w_kbd w) h (w_prng w) (w_log w).
Definition klog (w : world) (l : klog_call) : world :=
  mk_world (w_net w) (w_devices w) (w_driver w) (w_console w) (w_kbd w) (w_heap w) (w_prng w) (w_log w ++ [l]).

(** [out] is the caller's [*out]; [fs_id] is the mount's. *)
Definition op_stat (s : net_state) (fs_id : Z) (path : option (list Z)) (out : option vfs_stat_t) : res (vfs_status_t * option vfs_stat_t) :=
  r ← strcmp path (Some (lit "/"));
  if r =? 0 then Ret (VFS_OK, Some (mk_stat VFS_NODE_DIR 0 365 0 0 0 RABBITBONE_UID_ROOT RABBITBONE_GID_ROOT)) else
  e ← find_entry path;
  match e with
  | Some e => Ret (VFS_OK, Some (mk_stat VFS_NODE_DEV 0 (mode e) (inode e) fs_id 0 RABBITBONE_UID_ROOT RABBITBONE_GID_ROOT))
  | None =>
      '(ok, net_index) ← parse_net_path s path;
      if ok : bool then Ret (VFS_OK, Some (mk_stat VFS_NODE_DEV 0 432 (wrap32 (100 + wrap32 net_index)) fs_id 0 RABBITBONE_UID_ROOT RABBITBONE_GID_USERS))
      else Ret (VFS_ERR_NOENT, out)
  end.

Definition prng_byte (tick j : Z) (s : Z * list Z) : res (Z * list Z) :=
  let '(x, out) := s in
  let x := if Z.land j 7 =? 0 then xorshift tick x else x in
  out ← wr out j (wrap8 (Z.shiftr x (Z.land j 7 * 8)));
  Ret (x, out).

(** The bytes go out in chunks of 256; [fuel] bounds the chunks. *)
Fixpoint prng_loop (fuel : nat) (tick done size : Z) (s : Z * list Z) : res (Z * list Z) :=
  match fuel with
  | O => Fault Diverged
  | S k =>
      if done <? size then
        let chunk := if 256 <? size - done then 256 else size - done in
        s ← for_n (Z.to_nat chunk) 0 (λ i, prng_byte tick (done + i)) s;
        prng_loop k tick (done + chunk) size s
      else Ret s
  end.

(** A line of terminal input; the count comes back. *)
Fixpoint tty_loop (fuel : nat) (n size : Z) (d : console_state * V) (k : kbd_state) (out : list Z)
  : res (Z * (console_state * V) * kbd_state * list Z) :=
  match fuel with
  | O => Fault Diverged
  | S f =>
      if n <? size then
        '(d, k, c) ← @tty_read_char _ console_terminal d k;
        match c with
        | None => Ret (n, d, k, out)
        | Some c => out ← wr out n (wrap8 c); if c =? 10 then Ret (n + 1, d, k, out) else tty_loop f (n + 1) size d k out
        end
      else Ret (n, d, k, out)
  end.

Definition kmsg_text : list Z := lit "kmsg is exposed through the logs shell command
".

(** The status, [*read_out], the buffer and the state. *)
Definition read_reply : Type := vfs_status_t * Z * option (list Z) * world.

Definition no_buffer (size : Z) (buffer : option (list Z)) : bool :=
  negb (size =? 0) && (match buffer with None => true | Some _ => false end).

Definition op_read (tick : Z) (w : world) (path : option (list Z)) (offset : Z) (buffer : option (list Z)) (size : Z) : res read_reply :=
  if no_buffer size buffer then Ret (VFS_ERR_INVAL, 0, buffer, w) else
  e ← find_entry path;
  match e with
  | None =>
      ndev ← find_netdev_path (w_net w) path;
      match ndev with
      | None => Ret (VFS_ERR_NOENT, 0, buffer, w)
      | Some p =>
          d ← deref (w_devices w) p;
          '(ns, r, d', drv) ← netdev_read_frame ops_at (Some d) buffer size (w_driver w);
          let '(got, buffer, _) := r in
          let m := match d' with Some d' => <[p := d']> (w_devices w) | None => w_devices w end in
          Ret (if decide (ns = NET_OK) then VFS_OK else VFS_ERR_IO, got, buffer, set_devices w m drv)
      end
  | Some e =>
      match kind e with
      | DEV_NULL => Ret (VFS_OK, 0, buffer, w)
      | DEV_ZERO =>
          match buffer with
          | Some b => b ← memset b 0 size; Ret (VFS_OK, size, Some b, w)
          | None => Ret (VFS_OK, size, None, w)
          end
      | DEV_PRNG =>
          match buffer with
          | Some b => '(x, b) ← prng_loop (S (Z.to_nat size)) tick 0 size (w_prng w, b); Ret (VFS_OK, size, Some b, set_prng w x)
          | None => Ret (VFS_OK, size, None, w)
          end
      | DEV_TTY =>
          match buffer with
          | Some b =>
              '(n, d, k, b) ← tty_loop (S (Z.to_nat size)) 0 size (w_console w) (w_kbd w) b;
              Ret (VFS_OK, n, Some b, set_term w d k)
          | None => Ret (VFS_OK, 0, None, w)
          end
      | DEV_KMSG =>
          let len := zlen kmsg_text - 1 in
          if len <=? offset then Ret (VFS_OK, 0, buffer, w) else
          let take := if size <? len - offset then size else len - offset in
          match buffer with
          | Some b => b ← memcpy b (drop (Z.to_nat offset) kmsg_text) take; Ret (VFS_OK, take, Some b, w)
          | None => Ret (VFS_OK, take, None, w)
          end
      end
  end.

Definition DEV_KMSG_MAX : Z := 256.

Definition kmsg_char (c : Z) : Z := if ((32 <=? c) && negb (c =? 127)) || (c =? 9) then c else 63.

Definition write_reply : Type := vfs_status_t * Z * world.

Definition kmsg_write (w : world) (buffer : option (list Z)) (size : Z) : res write_reply :=
  if no_buffer size buffer then Ret (VFS_ERR_INVAL, 0, w) else
  let '(p, h) := kmalloc (w_heap w) DEV_KMSG_MAX in
  let w := set_heap w h in
  match p with
  | None => Ret (VFS_ERR_NOMEM, 0, w)
  | Some p =>
      let n := if size <? DEV_KMSG_MAX - 1 then size else DEV_KMSG_MAX - 1 in
      msg ← peek h p;
      msg ← for_n (Z.to_nat n) 0 (λ i msg,
              match buffer with
              | Some src => c ← rd src i; wr msg i (kmsg_char c)
              | None => Fault OutOfBounds
              end) msg;
      msg ← wr msg n 0;
      let h := poke h p msg in
      let w := klog w (mk_klog LOG_INFO (lit "kmsg") (lit "%s") [VStr (Some msg)]) in
      h ← kfree h p;
      Ret (VFS_OK, size, set_heap w h)
  end.

Definition net_write_status (ns : net_status_t) : vfs_status_t :=
  if decide (ns = NET_OK) then VFS_OK else
  if decide (ns = NET_ERR_BUSY) then VFS_ERR_BUSY else
  if decide (ns = NET_ERR_RANGE ∨ ns = NET_ERR_INVAL) then VFS_ERR_INVAL else VFS_ERR_IO.

Definition op_write (w : world) (path : option (list Z)) (offset : Z) (buffer : option (list Z)) (size : Z) : res write_reply :=
  e ← find_entry path;
  match e with
  | None =>
      ndev ← find_netdev_path (w_net w) path;
      match ndev with
      | None => Ret (VFS_ERR_NOENT, 0, w)
      | Some p =>
          d ← deref (w_devices w) p;
          '(ns, wrote, d', drv) ← netdev_write_frame ops_at (Some d) buffer size (w_driver w);
          let m := match d' with Some d' => <[p := d']> (w_devices w) | None => w_devices w end in
          Ret (net_write_status ns, wrote, set_devices w m drv)
      end
  | Some e =>
      match kind e with
      | DEV_NULL => Ret (VFS_OK, size, w)
      | DEV_TTY =>
          if no_buffer size buffer then Ret (VFS_ERR_INVAL, 0, w) else
          if negb (size =? 0) then
            c ← console_write_n (w_console w).1 buffer size (w_console w).2;
            Ret (VFS_OK, size, set_term w c (w_kbd w))
          else Ret (VFS_OK, size, w)
      | DEV_KMSG => kmsg_write w buffer size
      | DEV_ZERO | DEV_PRNG => Ret (VFS_ERR_PERM, 0, w)
      end
  end.

(** [fn] is the caller's iterator over its own context [C]. *)
Definition op_list {C : Type} (s : net_state) (path : option (list Z)) (fn : option (vfs_dirent_t → C → res (bool * C))) (ctx : C)
  : res (vfs_status_t * C) :=
  match path, fn with
  | None, _ | _, None => Ret (VFS_ERR_INVAL, ctx)
  | Some _, Some fn =>
      r ← strcmp path (Some (lit "/"));
      if negb (r =? 0) then Ret (VFS_ERR_NOTDIR, ctx) else
      c ← loop_n (length entries) 0 (λ i ctx,
            e ← rd entries i;
            '(_, nm) ← strlcpy (Some (replicate (Z.to_nat VFS_NAME_MAX) 0)) (Some (name e)) VFS_NAME_MAX;
            '(more, ctx) ← fn (mk_dirent (default [] nm) (Some VFS_NODE_DEV) 0 (inode e)) ctx;
            if more : bool then Ret (Next ctx) else Ret (Done ctx)) ctx;
      match c with
      | Done ctx => Ret (VFS_OK, ctx)
      | Next ctx =>
          c ← loop_n (Z.to_nat (netdev_count s)) 0 (λ i ctx,
                '(nm, _) ← ksnprintf (Some (replicate (Z.to_nat VFS_NAME_MAX) 0)) VFS_NAME_MAX (Some (lit "net%llu")) [VLong i];
                '(more, ctx) ← fn (mk_dirent (default [] nm) (Some VFS_NODE_DEV) 0 (wrap32 (100 + wrap32 i))) ctx;
                if more : bool then Ret (Next ctx) else Ret (Done ctx)) ctx;
          match c with Done ctx | Next ctx => Ret (VFS_OK, ctx) end
      end
  end.

(** [pb] is the uninitialised local buffer. *)
Definition op_stat_inode (s : net_state) (fs_id : Z) (pb : list Z) (ino : Z) (out : option vfs_stat_t) : res (vfs_status_t * option vfs_stat_t) :=
  '(ok, path) ← path_from_inode s ino (Some pb) 32;
  if negb ok then Ret (VFS_ERR_NOENT, out) else op_stat s fs_id path out.

Definition op_read_inode (tick : Z) (pb : list Z) (w : world) (ino offset : Z) (buffer : option (list Z)) (size : Z) : res read_reply :=
  '(ok, path) ← path_from_inode (w_net w) ino (Some pb) 32;
  if negb ok then Ret (VFS_ERR_NOENT, 0, buffer, w) else op_read tick w path offset buffer size.

Definition op_write_inode (pb : list Z) (w : world) (ino offset : Z) (buffer : option (list Z)) (size : Z) : res write_reply :=
  '(ok, path) ← path_from_inode (w_net w) ino (Some pb) 32;
  if negb ok then Ret (VFS_ERR_NOENT, 0, w) else op_write w path offset buffer size.

(** [vfs_mount] is the virtual file system's.  The state block is 16 bytes: the
    generator, the lock and padding. *)
Definition devfs_mount (tick : Z) (vfs_mount : list Z → list Z → Z → bool → vfs_status_t) (w : world) : res (vfs_status_t * world) :=
  let '(p, h) := kcalloc (w_heap w) 1 16 in
  let w := set_heap w h in
  match p with
  | None => Ret (VFS_ERR_NOMEM, w)
  | Some p =>
      let x := Z.lxor 0xA6E5A6E5D00D1234 tick in
      let w := klog w (mk_klog LOG_WARN (lit "devfs")
        (lit "/dev/prng and /dev/urandom_insecure are deterministic non-cryptographic demo PRNG devices; do not use for secrets") []) in
      let st := vfs_mount (lit "/dev") (lit "devfs") p true in
      if decide (st = VFS_OK) then Ret (st, set_prng w x) else
      h ← kfree h p; Ret (st, set_heap w h)
  end.

End devfs.

(** ** Names *)

(** A device: one of the fixed ones or a network interface by number. *)
Inductive dev_node := Fixed (e : devfs_entry_t) | Iface (i : Z).

Fixpoint strip (s : list Z) : list Z :=
  match s with
  | c :: r => if c =? 47 then strip r else s
  | [] => []
  end.

Definition decimal (ds : list Z) : Prop := ds ≠ [] ∧ Forall (λ c, 48 ≤ c ≤ 57) ds.
Definition dec_value (ds : list Z) : Z := foldl (λ a c, a * 10 + (c - 48)) 0 ds.

Definition iface_name (t : list Z) (i : Z) : Prop := ∃ ds, t = bytes_of "net" ++ ds ∧ decimal ds ∧ dec_value ds = i.

(** The path [s] names the device [n]: leading slashes, then the fixed name, or
    [net] and the number in decimal. *)
Definition denotes (s : list Z) (n : dev_node) : Prop :=
  match n with
  | Fixed e => e ∈ entries ∧ name e = strip s ++ [0]
  | Iface i => iface_name (strip s) i
  end.

Definition present (s : net_state) (n : dev_node) : Prop :=
  match n with Fixed _ => True | Iface i => i < netdev_count s end.

Lemma strip_spec o s : cstr_at o s → ∃ o', skip_slashes o = Ret o' ∧ cstr_at o' (strip s) ∧ strip s !! 0%nat ≠ Some 47.
Proof.
  intros [Hs [rest ->]]. induction Hs as [|c s Hc Hs IH]; cbn [skip_slashes app strip].
  - eexists. split; [done |]. split; [by split; [constructor | exists rest] | done].
  - destruct (Z.eqb_spec c 47); [apply IH |]. eexists. split; [done |].
    split; [split; [by constructor | by exists rest] | cbn; congruence].
Qed.

Lemma entry_cstr e : e ∈ entries → ∃ t, t ≠ [] ∧ name e = t ++ [0] ∧ cstr_at (name e) t.
Proof.
  unfold entries. rewrite !elem_of_cons. intros He.
  assert (Hlit : ∀ n, nonul (bytes_of n) → bytes_of n ≠ [] → ∃ t, t ≠ [] ∧ lit n = t ++ [0] ∧ cstr_at (lit n) t).
  { intros n H1 H2. exists (bytes_of n). split_and!; [done | done | split; [done | by exists []]]. }
  repeat destruct He as [->|He]; [.. | by apply elem_of_nil in He]; cbn [name];
    (apply Hlit; [repeat (constructor; [discriminate |]); constructor | done]).
Qed.

Lemma find_entry_spec o s :
  cstr_at o s →
  (∃ e, e ∈ entries ∧ name e = strip s ++ [0] ∧ find_entry (Some o) = Ret (Some e)) ∨
  (find_entry (Some o) = Ret None ∧ ∀ e, e ∈ entries → name e ≠ strip s ++ [0]).
Proof.
  intros Ho. destruct (strip_spec o s Ho) as (o' & E & Ho' & _). unfold find_entry. rewrite E. mred.
  destruct (strip s) as [|c r] eqn:Es.
  - destruct Ho' as [_ [rest ->]]. right. split; [done |]. intros e He En. destruct (entry_cstr e He) as (t & Ht & En' & _).
    rewrite En in En'. by destruct t as [|? []].
  - assert (∃ rest, o' = c :: rest ∧ c ≠ 0) as (rest & Eo & Hc).
    { destruct Ho' as [Hn [rest ->]]. apply Forall_cons in Hn as [Hc _]. by eexists. }
    assert (rd o' 0 = Ret c) as -> by by rewrite Eo. mred. destruct (Z.eqb_spec c 0); [done |].
    match goal with |- context [loop_n _ 0 ?f tt] =>
      destruct (loop_find entries (λ _ e, if decide (name e = (c :: r) ++ [0]) then Some e else None) f) as [(k & e & x & Hk & Hx & -> & _)|[-> Hno]] end.
    + intros k e Hk. rewrite rd_nat, Hk. mred. destruct (entry_cstr e) as (t & _ & En & Ht); [by eapply list_elem_of_lookup_2 |].
      unfold strcmp. destruct (strcmp_from_spec (name e) o' t (c :: r) Ht Ho') as (z & -> & Hz). mred.
      destruct (Z.eqb_spec z 0) as [Hz0|Hz0].
      * apply Hz in Hz0. subst t. by rewrite decide_True.
      * rewrite decide_False; [done |]. rewrite En. intros Et. apply Hz0, Hz. by apply app_inj_2 in Et as [? _].
    + mred. left. destruct (decide _) as [Hn|]; [| done]. injection Hx as <-. exists e. split; [by eapply list_elem_of_lookup_2 | done].
    + mred. right. split; [done |]. intros e He En. apply list_elem_of_lookup_1 in He as [k Hk].
      specialize (Hno k e Hk). by rewrite decide_True in Hno.
Qed.

(** ** Interface numbers *)

Lemma dec_value_snoc ds c : dec_value (ds ++ [c]) = dec_value ds * 10 + (c - 48).
Proof. unfold dec_value. by rewrite foldl_app. Qed.

Lemma dec_value_nonneg ds : Forall (λ c, 48 ≤ c ≤ 57) ds → 0 ≤ dec_value ds.
Proof. induction ds as [|c ds IH] using rev_ind; [done |]. rewrite Forall_app, Forall_singleton, dec_value_snoc. intros [H Hc]. specialize (IH H). lia. Qed.

(** After the digits [pre]: the value is exact, or both it and the exact one are
    large. *)
Definition index_inv (pre : list Z) (v : Z) : Prop :=
  is_u64 v ∧ (v = dec_value pre ∨ (2 ^ 60 ≤ v ∧ 2 ^ 60 ≤ dec_value pre)).

Lemma parse_index_spec ds pre v c rest :
  Forall (λ c, 48 ≤ c ≤ 57) pre → Forall (λ c, 48 ≤ c ≤ 57) ds → index_inv pre v → (c < 48 ∨ 57 < c) →
  (∃ v', parse_index v (ds ++ c :: rest) = Ret (Some (v', c :: rest)) ∧ index_inv (pre ++ ds) v') ∨
  (parse_index v (ds ++ c :: rest) = Ret None ∧ 2 ^ 60 ≤ dec_value (pre ++ ds)).
Proof.
  intros Hpre Hds. revert pre v Hpre. induction Hds as [|d ds Hd Hds IH]; intros pre v Hpre Hv Hc; cbn [parse_index app].
  { left. assert ((48 <=? c) && (c <=? 57) = false) as -> by lia. exists v. by rewrite app_nil_r. }
  assert ((48 <=? d) && (d <=? 57) = true) as -> by lia. set (next := wrap64 (wrap64 (v * 10) + (d - 48))).
  replace (pre ++ d :: ds) with ((pre ++ [d]) ++ ds) by by rewrite <- app_assoc.
  assert (Hnext : is_u64 next) by (apply wrap_range; lia).
  pose proof (dec_value_nonneg pre Hpre) as Hp0. pose proof (dec_value_snoc pre d) as Hsn.
  assert (Hpre' : Forall (λ c, 48 ≤ c ≤ 57) (pre ++ [d])) by (apply Forall_app; split; [done | by apply Forall_singleton]).
  assert (Hmono : ∀ es, Forall (λ c, 48 ≤ c ≤ 57) es → dec_value (pre ++ [d]) ≤ dec_value ((pre ++ [d]) ++ es)).
  { intros es. induction es as [|e es IHes] using rev_ind; [by rewrite app_nil_r |]. rewrite Forall_app, Forall_singleton. intros [He Hx].
    rewrite app_assoc, (dec_value_snoc ((pre ++ [d]) ++ es)). specialize (IHes He). pose proof (dec_value_nonneg (pre ++ [d]) Hpre'). lia. }
  destruct Hv as [Hu Hv]. destruct (Z.ltb_spec next v) as [Hlt|Hge].
  - right. split; [done |]. specialize (Hmono ds Hds). destruct (decide (v < 2 ^ 60)); [| lia]. exfalso. subst next. unfold is_u64 in *.
    rewrite (wrap_small 64 (v * 10)) in Hlt by lia. rewrite wrap_small in Hlt by lia. lia.
  - apply IH; [done | | done]. split; [done |]. destruct (decide (v < 2 ^ 60)) as [Hs|Hs]; [left | right; lia].
    subst next. unfold is_u64 in *. rewrite (wrap_small 64 (v * 10)) by lia. rewrite wrap_small by lia. lia.
Qed.

Lemma digits_span (u : list Z) :
  ∃ ds v, u = ds ++ v ∧ Forall (λ c, 48 ≤ c ≤ 57) ds ∧ (v = [] ∨ ∃ c v', v = c :: v' ∧ (c < 48 ∨ 57 < c)).
Proof.
  induction u as [|c u (ds & v & -> & Hds & Hv)]; [by exists [], []; split_and!; [| constructor | left] |].
  destruct (decide (48 ≤ c ≤ 57)).
  - exists (c :: ds), v. by split_and!; [| constructor |].
  - exists [], (c :: ds ++ v). split_and!; [done | constructor |]. right. eexists _, _. split; [done | lia].
Qed.

Lemma not_iface t : (∀ ds, t ≠ bytes_of "net" ++ ds) → ∀ i n, iface_name t i → n ≤ i.
Proof. intros Ht i n (ds & E & _). by destruct (Ht ds). Qed.

Ltac rd_head := repeat match goal with
  | |- context [rd (?a :: ?l) 0] => change (rd (a :: l) 0) with (Ret a)
  | |- context [rd (?x :: ?a :: ?l) 1] => change (rd (x :: a :: l) 1) with (Ret a)
  | |- context [rd (?x :: ?y :: ?a :: ?l) 2] => change (rd (x :: y :: a :: l) 2) with (Ret a)
  end; mred.

Lemma iface_digits t i : iface_name (bytes_of "net" ++ t) i ↔ decimal t ∧ dec_value t = i.
Proof. split; [intros (ds & [= ->] & H) | intros H; exists t]; done. Qed.

Lemma parse_digits_spec cnt t rest :
  nonul t → 0 ≤ cnt ≤ 2 ^ 60 →
  let r := (c ← rd (t ++ 0 :: rest) 0;
            if (c <? 48) || (57 <? c) then Ret (false, 0) else
            r ← parse_index 0 (t ++ 0 :: rest);
            match r with
            | None => Ret (false, 0)
            | Some (value, p) =>
                c ← rd p 0;
                if negb (c =? 0) then Ret (false, 0) else
                if cnt <=? value then Ret (false, 0) else Ret (true, value)
            end) in
  (∃ i, iface_name (bytes_of "net" ++ t) i ∧ 0 ≤ i < cnt ∧ r = Ret (true, i)) ∨
  (r = Ret (false, 0) ∧ ∀ i, iface_name (bytes_of "net" ++ t) i → cnt ≤ i).
Proof.
  intros Hn Hcnt. cbv zeta. destruct (digits_span t) as (ds & v & -> & Hds & Hv).
  assert (Hbad : ∀ c v', v = c :: v' → (c < 48 ∨ 57 < c) → ∀ i, iface_name (bytes_of "net" ++ ds ++ v) i → cnt ≤ i).
  { intros c v' -> Hc i. rewrite iface_digits. intros [[_ Hd] _]. apply Forall_app in Hd as [_ Hd]. apply Forall_cons in Hd as [Hd _]. lia. }
  destruct ds as [|d ds].
  { right. cbn [app]. destruct Hv as [->|(c & v' & -> & Hc)]; cbn [app]; rd_head.
    - split; [done |]. intros i. rewrite iface_digits. by intros [[] _].
    - assert ((c <? 48) || (57 <? c) = true) as -> by lia. split; [done |]. by eapply Hbad. }
  assert (rd (((d :: ds) ++ v) ++ 0 :: rest) 0 = Ret d) as -> by done. mred.
  assert ((d <? 48) || (57 <? d) = false) as -> by (apply Forall_cons in Hds as [Hd _]; lia).
  assert (∃ c r, v ++ 0 :: rest = c :: r ∧ (c < 48 ∨ 57 < c) ∧ (c = 0 → v = [])) as (c & r & Ev & Hc & Hc0).
  { destruct Hv as [->|(c & v' & -> & Hc)]; [by eexists _, _; split; [done | split; [lia |]] |].
    apply Forall_app in Hn as [_ Hn]. apply Forall_cons in Hn as [Hn _]. by eexists _, _. }
  rewrite <- app_assoc, Ev.
  destruct (parse_index_spec (d :: ds) [] 0 c r) as [(i & -> & [Hi Hval])|[-> Hbig]]; [constructor | done | split; [done | by left] | done | |].
  all: mred; rd_head.
  - destruct (Z.eqb_spec c 0) as [->|Hcn]; cbn [negb].
    + rewrite (Hc0 eq_refl), app_nil_r in *. cbn [app] in Hval. assert (Hdec : decimal (d :: ds)) by done.
      destruct (Z.leb_spec cnt i).
      * right. split; [done |]. intros j. rewrite iface_digits. intros [_ <-]. lia.
      * left. exists i. rewrite iface_digits. unfold is_u64 in Hi. split_and!; [done | lia | lia | lia | done].
    + right. split; [done |]. destruct Hv as [->|(c' & v' & -> & Hc')]; [by injection Ev as <- |]. by eapply Hbad.
  - right. split; [done |]. intros j. rewrite iface_digits. intros [[_ Hd] <-].
    destruct Hv as [->|(c' & v' & -> & Hc')]; [rewrite app_nil_r; cbn [app] in Hbig; lia |].
    apply Forall_app in Hd as [_ Hd]. apply Forall_cons in Hd as [Hd _]. lia.
Qed.

Lemma parse_net_path_spec st o s :
  cstr_at o s → 0 ≤ netdev_count st ≤ 2 ^ 60 →
  (∃ i, denotes s (Iface i) ∧ 0 ≤ i < netdev_count st ∧ parse_net_path st (Some o) = Ret (true, i)) ∨
  (parse_net_path st (Some o) = Ret (false, 0) ∧ ∀ i, denotes s (Iface i) → netdev_count st ≤ i).
Proof.
  intros Ho Hcnt. destruct (strip_spec o s Ho) as (o' & E & [Hn [rest ->]] & _). unfold parse_net_path. rewrite E. mred.
  unfold denotes. set (t := strip s) in *. clearbody t. clear E.
  destruct t as [|x t]; cbn [app] in *; rd_head; [right; split; [done | intros i; by apply not_iface] |].
  destruct (Z.eqb_spec x 110) as [->|]; cbn [negb]; [| right; split; [done | intros i; apply not_iface; intros ds [= ??]; done]].
  destruct t as [|y t]; cbn [app] in *; rd_head; [right; split; [done | intros i; by apply not_iface] |].
  destruct (Z.eqb_spec y 101) as [->|]; cbn [negb]; [| right; split; [done | intros i; apply not_iface; intros ds [= ??]; done]].
  destruct t as [|z t]; cbn [app] in *; rd_head; [right; split; [done | intros i; by apply not_iface] |].
  destruct (Z.eqb_spec z 116) as [->|]; cbn [negb drop]; [| right; split; [done | intros i; apply not_iface; intros ds [= ??]; done]].
  apply parse_digits_spec; [| done]. by do 3 apply Forall_cons in Hn as [_ Hn].
Qed.

(** ** Paths and inodes *)

Definition node_inode (n : dev_node) : Z := match n with Fixed e => inode e | Iface i => 100 + i end.

Definition node_ok (st : net_state) (n : dev_node) : Prop :=
  match n with Fixed e => e ∈ entries | Iface i => 0 ≤ i < netdev_count st end.

(** What [stat] says of a device. *)
Definition node_stat (fs_id : Z) (n : dev_node) : vfs_stat_t :=
  match n with
  | Fixed e => mk_stat VFS_NODE_DEV 0 (mode e) (inode e) fs_id 0 RABBITBONE_UID_ROOT RABBITBONE_GID_ROOT
  | Iface i => mk_stat VFS_NODE_DEV 0 432 (100 + i) fs_id 0 RABBITBONE_UID_ROOT RABBITBONE_GID_USERS
  end.

Lemma entry_names_unique e e' : e ∈ entries → e' ∈ entries → name e = name e' → e = e'.
Proof.
  unfold entries. rewrite !elem_of_cons. intros He He'.
  repeat destruct He as [->|He]; [.. | by apply elem_of_nil in He];
    (repeat destruct He' as [->|He']; [.. | by apply elem_of_nil in He']); done.
Qed.

Lemma entry_not_iface e t i : e ∈ entries → name e = t ++ [0] → ¬ iface_name t i.
Proof.
  unfold entries. rewrite !elem_of_cons. intros He En (ds & -> & _).
  repeat destruct He as [->|He]; [.. | by apply elem_of_nil in He]; done.
Qed.

Section resolve.
Context (st : net_state) (Hst : 0 ≤ netdev_count st ≤ NET_MAX_DEVS).

Lemma denotes_ok s n : denotes s n → present st n → node_ok st n.
Proof.
  destruct n as [e|i]; [by intros [H _] |]. intros (ds & _ & [_ Hd] & <-) Hp. split; [by apply dec_value_nonneg | exact Hp].
Qed.

(** The calls that resolve a path depend on nothing but the device it names. *)
Lemma resolve_node o s n :
  cstr_at o s → denotes s n → present st n →
  match n with
  | Fixed e => find_entry (Some o) = Ret (Some e)
  | Iface i => find_entry (Some o) = Ret None ∧ parse_net_path st (Some o) = Ret (true, i)
  end.
Proof.
  intros Ho Hd Hp. destruct (find_entry_spec o s Ho) as [(e & He & En & E)|[E Hno]]; destruct n as [e'|i].
  - rewrite E. do 2 f_equal. apply entry_names_unique; [done | apply Hd | destruct Hd; congruence].
  - exfalso. by eapply entry_not_iface.
  - destruct Hd as [He En]. by destruct (Hno e').
  - split; [done |]. destruct (parse_net_path_spec st o s Ho) as [(j & Hj & _ & ->)|[_ Hno']]; [change NET_MAX_DEVS with 4 in Hst; lia | |].
    + destruct Hd as (ds & E1 & _ & <-), Hj as (ds' & E2 & _ & <-). rewrite E1 in E2. apply app_inv_head in E2 as ->. done.
    + specialize (Hno' i Hd). cbn in Hp. lia.
Qed.

Lemma resolve_none o s :
  cstr_at o s → (∀ n, denotes s n → ¬ present st n) → find_entry (Some o) = Ret None ∧ parse_net_path st (Some o) = Ret (false, 0).
Proof.
  intros Ho Hno. split.
  - destruct (find_entry_spec o s Ho) as [(e & He & En & _)|[E _]]; [| done]. by destruct (Hno (Fixed e)).
  - destruct (parse_net_path_spec st o s Ho) as [(i & Hi & Hc & _)|[-> _]]; [change NET_MAX_DEVS with 4 in Hst; lia | | done].
    destruct (Hno (Iface i) Hi). apply Hc.
Qed.

Lemma iface_text i : 0 ≤ i < 4 → format_text (Some (lit "net%llu")) [VLong i] = Ret (bytes_of "net" ++ [48 + i]).
Proof. intros Hi. assert (i = 0 ∨ i = 1 ∨ i = 2 ∨ i = 3) as [->|[->|[->| ->]]] by lia; by vm_compute. Qed.

Lemma iface_denotes i : 0 ≤ i < 4 → denotes (bytes_of "net" ++ [48 + i]) (Iface i).
Proof.
  intros Hi. exists [48 + i]. split; [done |]. split; [split; [done |] | cbn; lia]. apply Forall_singleton. lia.
Qed.

Lemma entry_denotes e t : e ∈ entries → name e = t ++ [0] → denotes t (Fixed e).
Proof.
  intros He En. split; [done |]. rewrite En. f_equal. revert He En. unfold entries. rewrite !elem_of_cons. intros He En.
  repeat destruct He as [->|He]; [.. | by apply elem_of_nil in He]; cbn [name] in En; apply app_inj_2 in En as [<- _]; done.
Qed.

Lemma entry_inodes e : e ∈ entries → 1 ≤ inode e ≤ 6 ∧ zlen (name e) ≤ 17 ∧ ∀ e', e' ∈ entries → inode e' = inode e → e' = e.
Proof.
  unfold entries. rewrite !elem_of_cons. intros He.
  repeat destruct He as [->|He]; [.. | by apply elem_of_nil in He]; (split; [cbn; lia |]; split; [vm_compute; congruence |]);
    intros e'; rewrite !elem_of_cons; intros He'; (repeat destruct He' as [->|He']; [.. | by apply elem_of_nil in He']); done.
Qed.

(** The scan of the fixed devices in [path_from_inode]. *)
Lemma inode_scan b ino :
  zlen b = 32 →
  let f := λ (i : Z) (_ : unit), e ← rd entries i;
     if inode e =? ino then '(_, out) ← strlcpy (Some b) (Some (name e)) 32; Ret (Done out) else Ret (Next tt) in
  (∃ e t, e ∈ entries ∧ inode e = ino ∧ name e = t ++ [0] ∧ cstr_at (name e) t ∧
     loop_n (length entries) 0 f tt = Ret (Done (Some (blit b 0 (t ++ [0]))))) ∨
  (loop_n (length entries) 0 f tt = Ret (Next tt) ∧ ∀ e, e ∈ entries → inode e ≠ ino).
Proof.
  intros Hb f.
  destruct (loop_find entries (λ _ e, if inode e =? ino then Some (Some (blit b 0 (name e))) else None) f) as [(k & e & x & Hk & Hx & -> & _)|[-> Hno]].
  - intros k e Hk. subst f. cbv beta. rewrite rd_nat, Hk. mred. destruct (Z.eqb_spec (inode e) ino) as [<-|]; [| done].
    assert (He : e ∈ entries) by by eapply list_elem_of_lookup_2. destruct (entry_cstr e He) as (t & _ & En & Ht).
    rewrite (strlcpy_spec b (name e) t 32) by (done || lia). mred. unfold bounded_image.
    destruct (entry_inodes e He) as (_ & Hl & _). rewrite En in Hl |- *. rewrite zlen_app in Hl. rewrite take_ge; [done |]. unfold zlen in Hl. cbn in Hl. lia.
  - left. assert (He : e ∈ entries) by by eapply list_elem_of_lookup_2. destruct (entry_cstr e He) as (t & _ & En & Ht).
    destruct (Z.eqb_spec (inode e) ino) as [Hi|]; [| done]. injection Hx as <-. exists e, t. by rewrite En in *.
  - right. split; [done |]. intros e He Hi. apply list_elem_of_lookup_1 in He as [k Hk]. specialize (Hno k e Hk). cbv beta in Hno.
    by rewrite Hi, Z.eqb_refl in Hno.
Qed.

Lemma blit_cstr b t : nonul t → cstr_at (blit b 0 (t ++ [0])) t.
Proof. intros Ht. split; [done |]. unfold blit. rewrite take_0. cbn [app]. rewrite <- app_assoc. by eexists. Qed.

Lemma path_from_inode_spec pb n :
  zlen pb = 32 → node_ok st n → ∃ b s, path_from_inode st (node_inode n) (Some pb) 32 = Ret (true, Some b) ∧ cstr_at b s ∧ denotes s n.
Proof.
  intros Hpb Hn. unfold path_from_inode. cbn [Z.eqb]. rewrite wr_inbounds by lia. mred.
  set (b := <[Z.to_nat 0 := 0]> pb). assert (Hb : zlen b = 32) by (unfold b, zlen; by rewrite length_insert).
  destruct (inode_scan b (node_inode n) Hb) as [(e & t & He & Hi & En & Ht & ->)|[-> Hno]]; mred.
  - eexists _, t. split; [done |]. split; [apply blit_cstr, Ht |]. destruct (entry_inodes e He) as (Hr & _ & Hu).
    destruct n as [e'|i]; cbn in Hi, Hn; [| lia]. rewrite (Hu e') by done. by apply entry_denotes.
  - destruct n as [e|i]; [by destruct (Hno e) |]. cbn [node_inode node_ok] in *. change NET_MAX_DEVS with 4 in Hst.
    destruct (Z.leb_spec 100 (100 + i)); [| lia]. replace (100 + i - 100) with i by lia. destruct (Z.ltb_spec i (netdev_count st)); [| lia].
    unfold ksnprintf. rewrite (kvsnprintf_spec b 32 _ _ (bytes_of "net" ++ [48 + i])); [| ulia | lia | | apply iface_text; lia].
    + mred. eexists _, _. split; [done |]. split; [| apply iface_denotes; lia]. apply blit_cstr. cbn. repeat (constructor; [lia |]). constructor.
    + apply Forall_singleton. cbn. ulia.
Qed.

Lemma path_from_inode_none pb ino :
  zlen pb = 32 → (∀ n, node_ok st n → node_inode n ≠ ino) → ∃ b, path_from_inode st ino (Some pb) 32 = Ret (false, Some b).
Proof.
  intros Hpb Hno. unfold path_from_inode. cbn [Z.eqb]. rewrite wr_inbounds by lia. mred.
  set (b := <[Z.to_nat 0 := 0]> pb). assert (Hb : zlen b = 32) by (unfold b, zlen; by rewrite length_insert).
  destruct (inode_scan b ino Hb) as [(e & t & He & Hi & _)|[-> _]]; mred; [by destruct (Hno (Fixed e)) |].
  destruct (Z.leb_spec 100 ino); [| by eexists]. destruct (Z.ltb_spec (ino - 100) (netdev_count st)); [| by eexists].
  destruct (Hno (Iface (ino - 100))); cbn; lia.
Qed.

End resolve.

Lemma strcmp_root o s : cstr_at o s → ∃ r, strcmp (Some o) (Some (lit "/")) = Ret r ∧ (r = 0 ↔ s = [47]).
Proof. intros Ho. apply (strcmp_from_spec o (lit "/") s [47] Ho). split; [by constructor | by exists []]. Qed.

(** ** The directory *)

(** Visits a list until the iterator asks to stop. *)
Fixpoint visit {A C} (fn : A → C → res (bool * C)) (l : list A) (ctx : C) : res (ctl C C) :=
  match l with
  | [] => Ret (Next ctx)
  | x :: l => '(more, ctx) ← fn x ctx; if more : bool then visit fn l ctx else Ret (Done ctx)
  end.

Definition left_with {C} (c : ctl C C) : C := match c with Next x | Done x => x end.

Lemma visit_app {A C} (fn : A → C → res (bool * C)) a b ctx :
  visit fn (a ++ b) ctx = (c ← visit fn a ctx; match c with Next ctx => visit fn b ctx | Done ctx => Ret (Done ctx) end).
Proof.
  revert ctx. induction a as [|x a IH]; intros ctx; [done |]. cbn [app visit]. destruct (fn x ctx) as [[[] ctx']|]; mred; [apply IH | done | done].
Qed.

Lemma loop_visit {A C} (fn : A → C → res (bool * C)) (f : Z → C → res (ctl C C)) l i ctx :
  (∀ k x ctx, l !! k = Some x → f (i + Z.of_nat k) ctx = ('(more, ctx) ← fn x ctx; if more : bool then Ret (Next ctx) else Ret (Done ctx))) →
  loop_n (length l) i f ctx = visit fn l ctx.
Proof.
  revert i ctx. induction l as [|x l IH]; intros i ctx Hf; cbn [loop_n length visit]; [done |].
  pose proof (Hf O x ctx eq_refl) as E. rewrite Z.add_0_r in E. rewrite E. destruct (fn x ctx) as [[[] ctx']|]; mred; [| done | done].
  apply IH. intros k y c Hk. specialize (Hf (S k) y c Hk). rewrite <- Hf. f_equal. lia.
Qed.

(** A device's directory entry: the name padded with NULs. *)
Definition dirent_of (t : list Z) (ino : Z) : vfs_dirent_t := mk_dirent (blit (replicate 64 0) 0 (t ++ [0])) (Some VFS_NODE_DEV) 0 ino.

Definition node_dirent (n : dev_node) : vfs_dirent_t :=
  match n with
  | Fixed e => dirent_of (take (length (name e) - 1) (name e)) (inode e)
  | Iface i => dirent_of (bytes_of "net" ++ [48 + i]) (100 + i)
  end.

Definition nodes (st : net_state) : list dev_node := map Fixed entries ++ map Iface (seqZ 0 (netdev_count st)).

Lemma entry_dirent e t :
  e ∈ entries → name e = t ++ [0] → mk_dirent (bounded_image (replicate 64 0) t VFS_NAME_MAX) (Some VFS_NODE_DEV) 0 (inode e) = node_dirent (Fixed e).
Proof.
  intros He En. cbn [node_dirent]. unfold dirent_of, bounded_image. destruct (entry_inodes e He) as (_ & Hl & _). rewrite En in Hl |- *.
  rewrite zlen_app in Hl. unfold zlen in Hl. cbn [length] in Hl. rewrite length_app. cbn [length].
  rewrite take_ge by (change VFS_NAME_MAX with 64; lia). rewrite take_app_length' by lia. done.
Qed.

Lemma op_list_spec {C} st (fn : vfs_dirent_t → C → res (bool * C)) ctx :
  0 ≤ netdev_count st ≤ NET_MAX_DEVS →
  op_list st (Some (lit "/")) (Some fn) ctx = (c ← visit fn (map node_dirent (nodes st)) ctx; Ret (VFS_OK, left_with c)).
Proof.
  intros Hst. change NET_MAX_DEVS with 4 in Hst. unfold op_list, nodes. destruct (strcmp_root (lit "/") [47]) as (r & -> & Hr); [split; [by constructor | by exists []] |]. mred.
  rewrite (proj2 Hr) by done. cbn [Z.eqb negb]. rewrite map_app, visit_app, res_bind_assoc.
  rewrite <- (length_map (node_dirent ∘ Fixed) entries). erewrite (loop_visit fn).
  2: { intros k x c Hk. rewrite list_lookup_fmap in Hk. destruct (entries !! k) as [e|] eqn:Ek; [| done]. injection Hk as <-.
       rewrite Z.add_0_l, rd_nat, Ek. mred. destruct (entry_cstr e) as (t & _ & En & Ht); [by eapply list_elem_of_lookup_2 |].
       rewrite (strlcpy_spec _ (name e) t) by (done || vm_compute; split; congruence). mred. cbn [default from_option id].
       change (Z.to_nat VFS_NAME_MAX) with 64%nat. rewrite (entry_dirent e t); [done | by eapply list_elem_of_lookup_2 | done]. }
  rewrite <- (map_map Fixed node_dirent).
  destruct (visit fn (map node_dirent (map Fixed entries)) ctx) as [[c|c]|]; mred; [| done | done].
  replace (Z.to_nat (netdev_count st)) with (length (map node_dirent (map Iface (seqZ 0 (netdev_count st))))) by by rewrite !length_map, length_seqZ.
  erewrite (loop_visit fn).
  2: { intros k x c' Hk. rewrite !list_lookup_fmap in Hk. destruct (seqZ 0 (netdev_count st) !! k) as [i|] eqn:Ek; [| done]. injection Hk as <-.
       apply lookup_seqZ in Ek as [-> Hk]. rewrite !Z.add_0_l. unfold ksnprintf.
       rewrite (kvsnprintf_spec _ _ _ _ (bytes_of "net" ++ [48 + Z.of_nat k])); [| vm_compute; split; congruence | vm_compute; congruence | | apply iface_text; lia].
       + mred. cbn [default from_option id]. rewrite !wrap_small by (rewrite ?wrap_small; lia). done.
       + apply Forall_singleton. cbn. ulia. }
  destruct (visit fn _ c) as [[c'|c']|]; done.
Qed.

Section namespace.
Context {W V H : Type} `{Screen V} `{Kmem H} (ops_at : Z → @net_device_ops_t W) (es : V → V * bool) (ua : bool) (up : Z).

Lemma op_stat_node st fs_id o s n out :
  0 ≤ netdev_count st ≤ NET_MAX_DEVS → cstr_at o s → denotes s n → present st n →
  op_stat st fs_id (Some o) out = Ret (VFS_OK, Some (node_stat fs_id n)).
Proof.
  intros Hst Ho Hd Hp. unfold op_stat. destruct (strcmp_root o s Ho) as (r & -> & Hr). mred.
  destruct (Z.eqb_spec r 0) as [Hr0|_].
  { apply Hr in Hr0 as ->. exfalso. destruct n as [e|i]; cbn in Hd.
    - destruct Hd as [He En]. destruct (entry_cstr e He) as (t & Ht & En' & _). rewrite En in En'. by destruct t as [|? []].
    - by destruct Hd as (ds & [=] & _). }
  pose proof (resolve_node st Hst o s n Ho Hd Hp) as Hres. pose proof (denotes_ok st s n Hd Hp) as Hok. destruct n as [e|i].
  - by rewrite Hres.
  - destruct Hres as [-> ->]. mred. change NET_MAX_DEVS with 4 in Hst. cbn in Hok. by rewrite !wrap_small by (rewrite ?wrap_small; lia).
Qed.

(** Two paths to the same device are interchangeable. *)
Lemma op_read_congr tick (w : @world W V H) o o' s s' n off buffer size :
  0 ≤ netdev_count (w_net w) ≤ NET_MAX_DEVS → cstr_at o s → cstr_at o' s' → denotes s n → denotes s' n → present (w_net w) n →
  op_read ops_at es ua up tick w (Some o) off buffer size = op_read ops_at es ua up tick w (Some o') off buffer size.
Proof.
  intros Hst Ho Ho' Hd Hd' Hp. pose proof (resolve_node _ Hst o s n Ho Hd Hp) as E1. pose proof (resolve_node _ Hst o' s' n Ho' Hd' Hp) as E2.
  unfold op_read, find_netdev_path. destruct n as [e|i]; [by rewrite E1, E2 |]. destruct E1 as [-> ->], E2 as [-> ->]. done.
Qed.

Lemma op_write_congr (w : @world W V H) o o' s s' n off buffer size :
  0 ≤ netdev_count (w_net w) ≤ NET_MAX_DEVS → cstr_at o s → cstr_at o' s' → denotes s n → denotes s' n → present (w_net w) n →
  op_write ops_at w (Some o) off buffer size = op_write ops_at w (Some o') off buffer size.
Proof.
  intros Hst Ho Ho' Hd Hd' Hp. pose proof (resolve_node _ Hst o s n Ho Hd Hp) as E1. pose proof (resolve_node _ Hst o' s' n Ho' Hd' Hp) as E2.
  unfold op_write, find_netdev_path. destruct n as [e|i]; [by rewrite E1, E2 |]. destruct E1 as [-> ->], E2 as [-> ->]. done.
Qed.

End namespace.

(** C16: Paths and inodes name the same devices.  A path that names a device,
    fixed or an interface that exists, can be stat'ed, with the inode number of
    that device, and the operations by that number are those by the path, for
    reading, writing and stat alike; a path that names none, whatever its digits
    overflow to, is [VFS_ERR_NOENT] for all of them, and so is a number that is
    no device's, for stat, reading and writing by number; nothing is transferred or
    changed then; and the directory lists exactly the devices, in order, until
    the iterator stops. *)
Theorem devfs_names_correct {W V H C : Type} `{Screen V} `{Kmem H} (ops_at : Z → @net_device_ops_t W) (es : V → V * bool) (ua : bool) (up : Z)
    (w : @world W V H) (o s pb : list Z) (fs_id tick off size : Z) (out : option vfs_stat_t) (buf : list Z)
    (fn : vfs_dirent_t → C → res (bool * C)) (ctx : C) :
  0 ≤ netdev_count (w_net w) ≤ NET_MAX_DEVS → cstr_at o s → zlen pb = 32 →
  (∀ n, denotes s n → present (w_net w) n →
     op_stat (w_net w) fs_id (Some o) out = Ret (VFS_OK, Some (node_stat fs_id n)) ∧
     op_stat_inode (w_net w) fs_id pb (node_inode n) out = op_stat (w_net w) fs_id (Some o) out ∧
     op_read_inode ops_at es ua up tick pb w (node_inode n) off (Some buf) size = op_read ops_at es ua up tick w (Some o) off (Some buf) size ∧
     op_write_inode ops_at pb w (node_inode n) off (Some buf) size = op_write ops_at w (Some o) off (Some buf) size) ∧
  (s ≠ [47] → (∀ n, denotes s n → ¬ present (w_net w) n) →
     op_stat (w_net w) fs_id (Some o) out = Ret (VFS_ERR_NOENT, out) ∧
     op_read ops_at es ua up tick w (Some o) off (Some buf) size = Ret (VFS_ERR_NOENT, 0, Some buf, w) ∧
     op_write ops_at w (Some o) off (Some buf) size = Ret (VFS_ERR_NOENT, 0, w)) ∧
  (∀ ino, (∀ n, node_ok (w_net w) n → node_inode n ≠ ino) →
     op_stat_inode (w_net w) fs_id pb ino out = Ret (VFS_ERR_NOENT, out) ∧
     op_read_inode ops_at es ua up tick pb w ino off (Some buf) size = Ret (VFS_ERR_NOENT, 0, Some buf, w) ∧
     op_write_inode ops_at pb w ino off (Some buf) size = Ret (VFS_ERR_NOENT, 0, w)) ∧
  op_list (w_net w) (Some (lit "/")) (Some fn) ctx = (c ← visit fn (map node_dirent (nodes (w_net w))) ctx; Ret (VFS_OK, left_with c)).
Proof.
  intros Hst Ho Hpb. split_and!.
  - intros n Hd Hp. destruct (path_from_inode_spec (w_net w) Hst pb n Hpb (denotes_ok _ s n Hd Hp)) as (b & t & E & Hb & Ht).
    unfold op_stat_inode, op_read_inode, op_write_inode. rewrite E. mred. cbn [negb].
    rewrite (op_stat_node _ fs_id o s n), (op_stat_node _ fs_id b t n) by done.
    by rewrite (op_read_congr ops_at es ua up tick w b o t s n), (op_write_congr ops_at w b o t s n) by done.
  - intros Hs Hno. destruct (resolve_none _ Hst o s Ho Hno) as [E1 E2]. unfold op_stat, op_read, op_write, find_netdev_path, no_buffer.
    rewrite E1, E2. rewrite andb_false_r. destruct (strcmp_root o s Ho) as (r & -> & Hr). mred.
    destruct (Z.eqb_spec r 0) as [Hr0|_]; [by apply Hr in Hr0 |]. done.
  - intros ino Hno. unfold op_stat_inode, op_read_inode, op_write_inode. by destruct (path_from_inode_none (w_net w) pb ino Hpb Hno) as (b & ->).
  - by apply op_list_spec.
Qed.

(** ** The generator *)

(** The state after [k] steps. *)
Definition prng_after (tick x : Z) (k : nat) : Z := Nat.iter k (xorshift tick) x.

(** The [j]-th byte: eight bytes of each state, low end first. *)
Definition prng_at (tick x : Z) (j : Z) : Z := wrap8 (Z.shiftr (prng_after tick x (S (Z.to_nat (j / 8)))) (j mod 8 * 8)).

Lemma shifted_word_fixed x s : is_u64 x → 0 < s → wrap64 (Z.shiftl x s) = x → x = 0.
Proof.
  intros Hx Hs E. assert (Hbit : ∀ n, 0 ≤ n → Z.testbit x n = false).
  { apply (Z_lt_induction (λ n, Z.testbit x n = false)). intros n IH. destruct (decide (0 ≤ n)); [| by apply Z.testbit_neg_r; lia]. destruct (decide (n < 64)); [| apply (testbit_high 64); [done | lia]].
    rewrite <- E. unfold wrap. rewrite Z.mod_pow2_bits_low, Z.shiftl_spec by lia.
    destruct (decide (n < s)); [by rewrite Z.testbit_neg_r by lia | apply IH; lia]. }
  apply Z.bits_inj_0. intros n. destruct (decide (n < 0)); [by apply Z.testbit_neg_r | apply Hbit; lia].
Qed.

Lemma xorshift_range tick x : is_u64 tick → is_u64 x → is_u64 (xorshift tick x).
Proof.
  unfold is_u64. intros Ht Hx. unfold xorshift. set (y := if x =? 0 then _ else _).
  assert (Hy : 0 ≤ y < 2 ^ 64) by (unfold y; destruct (x =? 0); [apply lxor_range; [lia | done | lia] | done]).
  set (z := Z.lxor y _). assert (Hz : 0 ≤ z < 2 ^ 64) by (apply lxor_range; [lia | done | apply wrap_range; lia]).
  set (u := Z.lxor z _). assert (Hu : 0 ≤ u < 2 ^ 64).
  { apply lxor_range; [lia | done |]. rewrite Z.shiftr_div_pow2 by lia. split; [apply Z.div_pos; lia |]. apply Z.div_lt_upper_bound; lia. }
  apply lxor_range; [lia | done | apply wrap_range; lia].
Qed.

Lemma xorshift_nonzero tick x : is_u64 x → x ≠ 0 → xorshift tick x ≠ 0 ∧ xorshift tick x = xorshift 0 x.
Proof.
  unfold is_u64. intros Hx H0. unfold xorshift. destruct (Z.eqb_spec x 0); [done |]. split; [| done].
  set (z := Z.lxor x _). assert (Hz : 0 ≤ z < 2 ^ 64) by (apply lxor_range; [lia | done | apply wrap_range; lia]).
  assert (Hz0 : z ≠ 0) by (unfold z; rewrite Z.lxor_eq_0_iff; intros E; by apply H0, (shifted_word_fixed x 13)).
  set (u := Z.lxor z _). assert (Hr : 0 ≤ Z.shiftr z 7 < 2 ^ 64).
  { rewrite Z.shiftr_div_pow2 by lia. split; [apply Z.div_pos; lia |]. apply Z.div_lt_upper_bound; lia. }
  assert (Hu : 0 ≤ u < 2 ^ 64) by (apply lxor_range; [lia | done | done]).
  assert (Hu0 : u ≠ 0).
  { unfold u. rewrite Z.lxor_eq_0_iff, Z.shiftr_div_pow2 by lia. intros E. pose proof (Z.div_lt z (2 ^ 7)). lia. }
  rewrite Z.lxor_eq_0_iff. intros E. by apply Hu0, (shifted_word_fixed u 17).
Qed.

Lemma prng_after_nonzero tick x k : is_u64 tick → is_u64 x → x ≠ 0 → is_u64 (prng_after tick x k) ∧ prng_after tick x k ≠ 0.
Proof.
  intros Ht Hx H0. induction k as [|k [IH1 IH2]]; [done |]. split; [by apply xorshift_range | by apply xorshift_nonzero].
Qed.

(** The chunks do not matter. *)
Lemma prng_loop_flat fuel tick done size s :
  0 ≤ done ≤ size → size - done < Z.of_nat fuel →
  prng_loop fuel tick done size s = for_n (Z.to_nat (size - done)) done (prng_byte tick) s.
Proof.
  revert done s. induction fuel as [|fuel IH]; intros done s Hd Hf; [lia |]. cbn [prng_loop].
  destruct (Z.ltb_spec done size); [| by replace (Z.to_nat (size - done)) with O by lia].
  set (chunk := if 256 <? size - done then 256 else size - done).
  assert (Hc : 0 < chunk ≤ size - done) by (unfold chunk; destruct (Z.ltb_spec 256 (size - done)); lia).
  replace (Z.to_nat (size - done)) with (Z.to_nat chunk + Z.to_nat (size - (done + chunk)))%nat by lia.
  rewrite for_n_app, Z2Nat.id by lia. rewrite (for_n_shift (Z.to_nat chunk) 0 done (prng_byte tick)).
  rewrite Z.add_0_r. destruct (for_n (Z.to_nat chunk) done (prng_byte tick) s); mred; [| done].
  apply IH; lia.
Qed.

Lemma prng_loop_spec tick size x b :
  0 ≤ size ≤ zlen b →
  prng_loop (S (Z.to_nat size)) tick 0 size (x, b) =
    Ret (prng_after tick x (Z.to_nat ((size + 7) / 8)), blit b 0 (map (prng_at tick x) (seqZ 0 size))).
Proof.
  intros Hs. rewrite prng_loop_flat by lia. rewrite Z.sub_0_r.
  destruct (for_n_inv (λ j '(y, out), y = prng_after tick x (Z.to_nat ((j + 7) / 8)) ∧ out = blit b 0 (map (prng_at tick x) (seqZ 0 j)))
    (prng_byte tick) (Z.to_nat size) 0 (x, b)) as ([y out] & -> & Hy & Ho).
  - split; [done |]. symmetry. apply (blit_nil b 0). lia.
  - intros j [y out] Hj [-> ->]. unfold prng_byte. rewrite !(Z.land_ones j 3 ltac:(lia) : Z.land j 7 = j mod 8).
    assert (Ey : (if j mod 8 =? 0 then xorshift tick (prng_after tick x (Z.to_nat ((j + 7) / 8))) else prng_after tick x (Z.to_nat ((j + 7) / 8)))
      = prng_after tick x (S (Z.to_nat (j / 8)))).
    { destruct (Z.eqb_spec (j mod 8) 0) as [E|E].
      - replace ((j + 7) / 8) with (j / 8); [done |]. Z.to_euclidean_division_equations; lia.
      - f_equal. replace ((j + 7) / 8) with (j / 8 + 1); Z.to_euclidean_division_equations; lia. }
    rewrite Ey. assert (Hl : zlen (map (prng_at tick x) (seqZ 0 j)) = j) by (unfold zlen; rewrite length_map, length_seqZ; lia).
    rewrite wr_inbounds by (rewrite blit_zlen; lia). mred. eexists. split; [done |]. split.
    + f_equal. replace ((j + 1 + 7) / 8) with (j / 8 + 1); [| replace (j + 1 + 7) with (j + 1 * 8) by lia; by rewrite Z.div_add by lia].
      assert (0 ≤ j / 8) by (apply Z.div_pos; lia). lia.
    + replace (Z.to_nat j) with (0 + length (map (prng_at tick x) (seqZ 0 j)))%nat by (unfold zlen in Hl; lia).
      rewrite blit_snoc by (unfold zlen in *; lia). f_equal. rewrite (seqZ_app 0 j 1) by lia. rewrite map_app. done.
  - rewrite Z.add_0_l, Z2Nat.id in Hy, Ho by lia. by subst.
Qed.

(** ** Terminal input *)

Lemma blit_insert {A} (dst : list A) off x src : (off < length dst)%nat → blit (<[off := x]> dst) (S off) src = blit dst off (x :: src).
Proof.
  intros H. unfold blit. rewrite drop_insert_lt by lia. rewrite insert_take_drop by done. rewrite take_app, length_take.
  replace (S off - off `min` length dst)%nat with 1%nat by lia. rewrite take_ge by (rewrite length_take; lia). cbn [take length].
  rewrite take_0, <- app_assoc. cbn [app]. by replace (S off + length src)%nat with (off + S (length src))%nat by lia.
Qed.

(** The next character of the queue of key events, and the queue after it. *)
Fixpoint next_char (q : list rabbitbone_key_event_t) : option Z * list rabbitbone_key_event_t :=
  match q with
  | [] => (None, [])
  | ev :: q => if ev_ch ev =? 0 then next_char q else (Some (wrap8 (ev_ch ev)), q)
  end.

(** At most [n] characters, up to and including a newline. *)
Fixpoint take_line (n : nat) (q : list rabbitbone_key_event_t) : list Z * list rabbitbone_key_event_t :=
  match n with
  | O => ([], q)
  | S n =>
      match next_char q with
      | (None, q) => ([], q)
      | (Some c, q) => if c =? 10 then ([c], q) else let '(l, q) := take_line n q in (c :: l, q)
      end
  end.

Lemma read_char_loop_spec fuel k m q :
  kbd_rel k (m, q) → (length q < fuel)%nat → ∃ k', read_char_loop fuel k = Ret (k', (next_char q).1) ∧ kbd_rel k' (m, (next_char q).2).
Proof.
  revert k q. induction fuel as [|fuel IH]; intros k q Hk Hf; [lia |]. cbn [read_char_loop].
  destruct (get_event_spec k m q Hk) as (k1 & -> & H1). mred. destruct q as [|ev q]; cbn [lookup list_lookup next_char drop length] in *; [by exists k1 |].
  rewrite drop_0 in H1. destruct (ev_ch ev =? 0); [apply IH; [done | lia] | by exists k1].
Qed.

Lemma next_char_byte q c r : next_char q = (Some c, r) → is_u8 c.
Proof. induction q as [|ev q IH]; cbn [next_char]; [done |]. destruct (ev_ch ev =? 0); [done |]. intros [= <- _]. apply wrap_range; lia. Qed.

Section input.
Context {V : Type} `{Screen V} (es : V → V * bool) (ua : bool) (up : Z).

Lemma tty_loop_spec fuel n size d k m q out :
  kbd_rel k (m, q) → 0 ≤ n ≤ size → size ≤ zlen out → size - n < Z.of_nat fuel →
  ∃ d' k', tty_loop es ua up fuel n size d k out =
      Ret (n + zlen (take_line (Z.to_nat (size - n)) q).1, d', k', blit out (Z.to_nat n) (take_line (Z.to_nat (size - n)) q).1) ∧
    kbd_rel k' (m, (take_line (Z.to_nat (size - n)) q).2) ∧ d'.1 = d.1.
Proof.
  revert n d k q out. induction fuel as [|fuel IH]; intros n d k q out Hk Hn Hs Hf; [lia |]. cbn [tty_loop].
  destruct (Z.ltb_spec n size) as [Hlt|Hge].
  2: { replace (Z.to_nat (size - n)) with O by lia. cbn [take_line fst snd]. rewrite blit_nil by (unfold zlen in *; lia). change (zlen []) with 0.
       rewrite Z.add_0_r. by exists d, k. }
  replace (Z.to_nat (size - n)) with (S (Z.to_nat (size - (n + 1)))) by lia. cbn [take_line].
  unfold tty_read_char. destruct (read_char_loop_spec (Z.to_nat QUEUE_SIZE) k m q Hk) as (k1 & -> & H1).
  { destruct Hk as (_ & _ & _ & Hq & _). cbn [snd] in Hq. unfold zlen, QUEUE_SIZE in *. lia. }
  mred. destruct (next_char q) as [[c|] r] eqn:Ec; cbn [fst snd] in *.
  2: { rewrite blit_nil by (unfold zlen in *; lia). change (zlen []) with 0. rewrite Z.add_0_r. by eexists _, k1. }
  apply next_char_byte in Ec. rewrite (wrap_small 8 c) by done. rewrite wr_inbounds by lia. mred.
  assert (Hone : <[Z.to_nat n := c]> out = blit out (Z.to_nat n) [c]).
  { pose proof (blit_snoc out (Z.to_nat n) [] c) as E. rewrite blit_nil, Nat.add_0_r in E by (unfold zlen in *; lia). apply E. unfold zlen in *. cbn. lia. }
  destruct (c =? 10); [by rewrite Hone; eexists _, k1 |].
  destruct (IH (n + 1) (Tty.console_flush (Terminal := console_terminal es ua up) d) k1 r (<[Z.to_nat n := c]> out)) as (d' & k' & -> & H2 & H3); [done | lia | unfold zlen in *; rewrite length_insert; lia | lia |].
  destruct (take_line (Z.to_nat (size - (n + 1))) r) as [l r'] eqn:El. cbn [fst snd] in *. exists d', k'. split; [| done].
  rewrite zlen_cons, <- (blit_insert out) by (unfold zlen in *; lia). replace (Z.to_nat (n + 1)) with (S (Z.to_nat n)) by lia.
  by replace (n + 1 + zlen l) with (n + (1 + zlen l)) by lia.
Qed.

End input.

Definition kmsg_note : list Z := take (length kmsg_text - 1) kmsg_text.

Lemma kmsg_read b off size :
  0 ≤ off < zlen kmsg_note → 0 ≤ size ≤ zlen b →
  let n := if size <? zlen kmsg_note - off then size else zlen kmsg_note - off in
  memcpy b (drop (Z.to_nat off) kmsg_text) n = Ret (blit b 0 (take (Z.to_nat size) (drop (Z.to_nat off) kmsg_note))) ∧
  n = zlen (take (Z.to_nat size) (drop (Z.to_nat off) kmsg_note)).
Proof.
  assert (Hk : kmsg_text = kmsg_note ++ [0]) by by vm_compute. intros Ho Hs. cbv zeta. rewrite Hk. rewrite drop_app_le by (unfold zlen in *; lia).
  assert (Hd : zlen (drop (Z.to_nat off) kmsg_note) = zlen kmsg_note - off) by (unfold zlen in *; rewrite length_drop; lia).
  rewrite <- Hd. set (l := drop (Z.to_nat off) kmsg_note) in *. set (n := if size <? zlen l then size else zlen l). clearbody l. clear Hd Ho Hk.
  assert (Hn : 0 ≤ n ≤ zlen l ∧ n ≤ size ∧ (n = size ∨ n = zlen l ∧ zlen l ≤ size)).
  { pose proof (zlen_nonneg l). unfold n. destruct (Z.ltb_spec size (zlen l)); lia. }
  rewrite memcpy_spec by (rewrite ?zlen_app; change (zlen [0]) with 1; lia). rewrite take_app_le by (unfold zlen in *; lia).
  clearbody n. destruct Hn as (Hn1 & Hn2 & [->|[-> Hn3]]).
  - split; [done |]. unfold zlen in *. rewrite length_take. lia.
  - rewrite !take_ge by (unfold zlen in *; lia). done.
Qed.

(** C33: What the fixed devices give.  [null] gives nothing and [zero] zeros;
    [kmsg] gives the part of its note at the offset; [prng] and
    [urandom_insecure] give the bytes of successive generator states, eight each,
    however the read is cut into chunks, and the generator never falls into the
    zero state; [tty] gives the characters of the pending key events up to a
    newline or the size, and takes exactly those events.  Only the reported
    number of bytes of the buffer changes. *)
Theorem devfs_read_correct {W V H : Type} `{Screen V} `{Kmem H} (ops_at : Z → @net_device_ops_t W) (es : V → V * bool) (ua : bool) (up : Z)
    (w : @world W V H) (o s b : list Z) (e : devfs_entry_t) (tick off size : Z) (a : akbd) :
  0 ≤ netdev_count (w_net w) ≤ NET_MAX_DEVS → cstr_at o s → denotes s (Fixed e) → 0 ≤ size ≤ zlen b → 0 ≤ off → kbd_rel (w_kbd w) a →
  let r := op_read ops_at es ua up tick w (Some o) off (Some b) size in
  match kind e with
  | DEV_NULL => r = Ret (VFS_OK, 0, Some b, w)
  | DEV_ZERO => r = Ret (VFS_OK, size, Some (blit b 0 (replicate (Z.to_nat size) 0)), w)
  | DEV_KMSG =>
      let data := take (Z.to_nat size) (drop (Z.to_nat off) kmsg_note) in
      r = Ret (VFS_OK, zlen data, Some (blit b 0 data), w)
  | DEV_PRNG =>
      let x' := prng_after tick (w_prng w) (Z.to_nat ((size + 7) / 8)) in
      r = Ret (VFS_OK, size, Some (blit b 0 (map (prng_at tick (w_prng w)) (seqZ 0 size))), set_prng w x') ∧
      (is_u64 tick → is_u64 (w_prng w) → w_prng w ≠ 0 → is_u64 x' ∧ x' ≠ 0)
  | DEV_TTY =>
      let '(line, q) := take_line (Z.to_nat size) a.2 in
      ∃ v k, r = Ret (VFS_OK, zlen line, Some (blit b 0 line), set_term w ((w_console w).1, v) k) ∧ kbd_rel k (a.1, q)
  end.
Proof.
  intros Hst Ho Hd Hs Hoff Hk. cbv zeta. pose proof (resolve_node _ Hst o s (Fixed e) Ho Hd I) as E. cbv beta iota in E.
  unfold op_read, no_buffer. rewrite andb_false_r, E. mred. destruct (kind e).
  - done.
  - by rewrite memset_spec by done.
  - rewrite prng_loop_spec by done. split; [done |]. intros. by apply prng_after_nonzero.
  - assert (Ek : zlen kmsg_text - 1 = zlen kmsg_note) by by vm_compute. rewrite Ek. destruct (Z.leb_spec (zlen kmsg_note) off).
    + rewrite drop_ge by (unfold zlen in *; lia). rewrite take_nil. by rewrite blit_nil by lia.
    + destruct (kmsg_read b off size) as [-> <-]; [lia | done |]. done.
  - destruct a as [m q]. destruct (tty_loop_spec es ua up (S (Z.to_nat size)) 0 size (w_console w) (w_kbd w) m q b) as (d & k & -> & Hk' & Hd'); [done | lia | lia | lia |].
    rewrite Z.sub_0_r in *. cbn [fst snd] in *. destruct (take_line (Z.to_nat size) q) as [line r]. mred. exists d.2, k. cbn [fst snd] in *.
    rewrite <- Hd', <- surjective_pairing. done.
Qed.

(** ** The log device *)

Lemma kmsg_fill blk src n :
  0 ≤ n ≤ zlen src → n ≤ zlen blk →
  for_n (Z.to_nat n) 0 (λ i msg, c ← rd src i; wr msg i (kmsg_char c)) blk = Ret (blit blk 0 (map kmsg_char (take (Z.to_nat n) src))).
Proof.
  intros Hs Hb. destruct (for_n_inv (λ j m, m = blit blk 0 (map kmsg_char (take (Z.to_nat j) src))) (λ i msg, c ← rd src i; wr msg i (kmsg_char c))
    (Z.to_nat n) 0 blk) as (m & -> & Hm).
  - symmetry. apply (blit_nil blk 0). lia.
  - intros j m Hj ->. destruct (rd_inbounds src j) as (c & Ec); [lia |]. rewrite Ec. mred. apply rd_Ret in Ec as [_ Ec].
    assert (Hl : length (map kmsg_char (take (Z.to_nat j) src)) = Z.to_nat j) by (rewrite length_map, length_take; unfold zlen in *; lia).
    rewrite wr_inbounds by (rewrite blit_zlen; unfold zlen in *; lia). eexists. split; [done |].
    replace (Z.to_nat (j + 1)) with (S (Z.to_nat j)) by lia. rewrite (take_S_r _ _ _ Ec), map_app. cbn [map].
    rewrite <- blit_snoc by (unfold zlen in *; lia). by rewrite Hl.
  - by rewrite Z.add_0_l, Z2Nat.id in Hm by lia; subst.
Qed.

Lemma kmsg_char_range c : is_u8 c → kmsg_char c = 9 ∨ 32 ≤ kmsg_char c ≤ 255 ∧ kmsg_char c ≠ 127.
Proof. unfold is_u8, kmsg_char. intros Hc. destruct (((32 <=? c) && negb (c =? 127)) || (c =? 9)) eqn:E; lia. Qed.

Lemma kmsg_write_spec {W V H : Type} `{Kmem H} (w : @world W V H) (b : list Z) :
  Forall is_u8 b →
  ∃ h', blocks h' = blocks (w_heap w) ∧
    match (kmalloc (w_heap w) DEV_KMSG_MAX).1 with
    | None => kmsg_write w (Some b) (zlen b) = Ret (VFS_ERR_NOMEM, 0, set_heap w h')
    | Some _ => ∃ msg, cstr_at msg (map kmsg_char (take 255 b)) ∧ Forall (λ c, c = 9 ∨ 32 ≤ c ≤ 255 ∧ c ≠ 127) (map kmsg_char (take 255 b)) ∧
        kmsg_write w (Some b) (zlen b) = Ret (VFS_OK, zlen b, klog (set_heap w h') (mk_klog LOG_INFO (lit "kmsg") (lit "%s") [VStr (Some msg)]))
    end.
Proof.
  intros Hb. unfold kmsg_write, no_buffer. rewrite andb_false_r. destruct (kmalloc (w_heap w) DEV_KMSG_MAX) as [[p|] h] eqn:Ek; cbn [fst].
  2: { exists h. split; [by eapply kmalloc_none | done]. }
  destruct (kmalloc_some _ _ _ _ Ek) as (Hp & Hfresh & Hblk). change (Z.to_nat DEV_KMSG_MAX) with 256%nat in Hblk. change (DEV_KMSG_MAX - 1) with 255.
  unfold peek. rewrite Hblk, lookup_insert_eq. mred. set (n := if zlen b <? 255 then zlen b else 255).
  assert (Hn : 0 ≤ n ≤ zlen b ∧ n ≤ 255 ∧ take (Z.to_nat n) b = take 255 b).
  { pose proof (zlen_nonneg b). unfold n. destruct (Z.ltb_spec (zlen b) 255); [| split_and!; try lia; done].
    split_and!; [lia.. |]. rewrite !take_ge by (unfold zlen in *; lia). done. }
  destruct Hn as (Hn1 & Hn2 & Ht). rewrite (kmsg_fill _ b n) by (done || change (zlen (replicate 256 0)) with 256; lia). mred. rewrite Ht.
  assert (Hlen : length (map kmsg_char (take 255 b)) = Z.to_nat n) by (rewrite <- Ht, length_map, length_take; unfold zlen in *; lia).
  rewrite wr_inbounds by (rewrite blit_zlen; unfold zlen in *; rewrite ?Hlen, ?length_replicate; lia). mred.
  assert (Em : <[Z.to_nat n := 0]> (blit (replicate 256 0) 0 (map kmsg_char (take 255 b))) = blit (replicate 256 0) 0 (map kmsg_char (take 255 b) ++ [0])).
  { rewrite <- blit_snoc by (rewrite length_replicate, Hlen; lia). by rewrite Hlen. }
  rewrite Em. set (msg := blit _ 0 _).
  assert (Hz : zlen msg = zlen (replicate 256 0)) by (apply blit_zlen; unfold zlen; rewrite length_app, Hlen, length_replicate; cbn; lia).
  assert (Hpk : blocks (poke h p msg) = <[p := msg]> (blocks h)) by (eapply poke_live; [by rewrite Hblk, lookup_insert_eq | done]).
  destruct (kfree_live (poke h p msg) p msg Hp) as (h' & -> & Hh'); [by rewrite Hpk, lookup_insert_eq |]. mred.
  assert (Hr : Forall (λ c, c = 9 ∨ 32 ≤ c ≤ 255 ∧ c ≠ 127) (map kmsg_char (take 255 b))).
  { apply Forall_map. eapply Forall_impl; [apply Forall_take, Hb |]. intros c. apply kmsg_char_range. }
  exists h'. split; [by rewrite Hh', Hpk, Hblk, insert_insert_eq, delete_insert_id |].
  exists msg. split; [| done]. apply blit_cstr. eapply Forall_impl; [exact Hr |]. cbn. lia.
Qed.

(** What the fixed devices take.  [null] takes everything; [zero], [prng] and
    [urandom_insecure] refuse; [tty] hands the bytes to the console, which stays
    sound whatever they are; [kmsg] logs the first 255 bytes as one line of
    printable text, with every control character replaced, and leaves the heap as
    it found it, or fails with [VFS_ERR_NOMEM] and no effect. *)
Theorem devfs_write_correct {W V H : Type} `{ScreenWords V} `{Kmem H} (P : V → Prop) (Pinv : ScreenInvariant P) (ops_at : Z → @net_device_ops_t W)
    (w : @world W V H) (o s b : list Z) (e : devfs_entry_t) (off : Z) :
  0 ≤ netdev_count (w_net w) ≤ NET_MAX_DEVS → cstr_at o s → denotes s (Fixed e) → Forall is_u8 b → b ≠ [] →
  console_ok (w_console w).1 → P (w_console w).2 →
  let r := op_write ops_at w (Some o) off (Some b) (zlen b) in
  match kind e with
  | DEV_NULL => r = Ret (VFS_OK, zlen b, w)
  | DEV_ZERO | DEV_PRNG => r = Ret (VFS_ERR_PERM, 0, w)
  | DEV_TTY => ∃ c v, r = Ret (VFS_OK, zlen b, set_term w (c, v) (w_kbd w)) ∧ console_ok c ∧ P v
  | DEV_KMSG =>
      ∃ h', blocks h' = blocks (w_heap w) ∧
        match (kmalloc (w_heap w) DEV_KMSG_MAX).1 with
        | None => r = Ret (VFS_ERR_NOMEM, 0, set_heap w h')
        | Some _ => ∃ msg, cstr_at msg (map kmsg_char (take 255 b)) ∧ Forall (λ c, c = 9 ∨ 32 ≤ c ≤ 255 ∧ c ≠ 127) (map kmsg_char (take 255 b)) ∧
            r = Ret (VFS_OK, zlen b, klog (set_heap w h') (mk_klog LOG_INFO (lit "kmsg") (lit "%s") [VStr (Some msg)]))
        end
  end.
Proof.
  intros Hst Ho Hd Hb Hne Hc Hp. cbv zeta. pose proof (resolve_node _ Hst o s (Fixed e) Ho Hd I) as E. cbv beta iota in E.
  unfold op_write. rewrite E. mred. assert (Hl : (zlen b =? 0) = false) by (destruct b; [done |]; rewrite zlen_cons; pose proof (zlen_nonneg b); lia).
  destruct (kind e); [done | done | done | by apply kmsg_write_spec |].
  unfold no_buffer. rewrite Hl. cbn [negb andb]. rewrite write_n_put_all by (pose proof (zlen_nonneg b); lia).
  destruct (put_all_total P (take (Z.to_nat (zlen b)) b) (w_console w).1 (vga_begin_update (w_console w).2) Hc (inv_begin _ Hp)) as (c & v & -> & Hc' & Hv).
  mred. eexists _, _. split; [done |]. split; [done | by apply inv_end].
Qed.

(** ** A machine *)

Definition test_kbd : kbd_state := keyboard_init (mk_kbd (replicate 64 (mk_event 0 0 0 0)) 0 0 false false false false).

Definition test_world : @world (list (list Z)) grid arena :=
  mk_world (mk_net_state [Some 1; Some 2; None; None] 2 true) ∅ [] (Console.idle 0, mk_grid 0 0 7 []) test_kbd (empty_arena 3) 1 [].

Lemma devfs_names_correct_witness :
  op_stat (w_net test_world) 9 (Some (lit "//net01")) None = Ret (VFS_OK, Some (node_stat 9 (Iface 1))) ∧
  op_stat_inode (w_net test_world) 9 (replicate 32 7) 101 None = op_stat (w_net test_world) 9 (Some (lit "//net01")) None ∧
  op_read_inode (λ _, loop_ops) (λ v, (v, true)) false 0 0 (replicate 32 7) test_world 102 0 (Some [1; 2; 3; 4]) 4 = Ret (VFS_ERR_NOENT, 0, Some [1; 2; 3; 4], test_world).
Proof.
  destruct (devfs_names_correct (λ _, loop_ops) (λ v, (v, true)) false 0 test_world (lit "//net01") (bytes_of "//net01") (replicate 32 7) 9 0 0 4 None
    [1; 2; 3; 4] (λ (_ : vfs_dirent_t) (n : nat), Ret (true, S n)) O) as (H1 & _ & H4 & _).
  - vm_compute. split; congruence.
  - split; [repeat (constructor; [discriminate |]); constructor | exists []; reflexivity].
  - reflexivity.
  - destruct (H1 (Iface 1)) as (H2 & H3 & _).
    + exists (bytes_of "01"). split; [reflexivity |]. split; [split; [discriminate |] | reflexivity]. apply (bool_decide_unpack _). vm_compute. exact I.
    + reflexivity.
    + split_and!; [exact H2 | exact H3 |]. apply (H4 102). intros [e|i].
      * revert e. apply Forall_forall. repeat (constructor; [discriminate |]). constructor.
      * cbn. lia.
Defined.

Lemma devfs_read_correct_witness :
  op_read (λ _, loop_ops) (λ v, (v, true)) false 0 0 test_world (Some (lit "/kmsg")) 40 (Some (replicate 16 1)) 12 =
    Ret (VFS_OK, 7, Some (bytes_of "ommand
" ++ replicate 9 1), test_world).
Proof.
  refine (eq_trans (devfs_read_correct (λ _, loop_ops) (λ v, (v, true)) false 0 test_world (lit "/kmsg") (bytes_of "/kmsg") (replicate 16 1)
    (mk_entry (lit "kmsg") DEV_KMSG 5 384) 0 40 12 Keyboard.idle _ _ _ _ _ _) _).
  - vm_compute. split; congruence.
  - split; [repeat (constructor; [discriminate |]); constructor | exists []; reflexivity].
  - split; [| reflexivity]. unfold entries; rewrite !elem_of_cons; tauto.
  - vm_compute. split; congruence.
  - lia.
  - apply init_rel. reflexivity.
  - vm_compute. reflexivity.
Defined.

Lemma devfs_write_correct_witness :
  ∃ h', blocks h' = blocks (w_heap test_world) ∧ ∃ msg, cstr_at msg (bytes_of "a?b") ∧
    op_write (λ _, loop_ops) test_world (Some (lit "kmsg")) 0 (Some [97; 10; 98]) 3 =
      Ret (VFS_OK, 3, klog (set_heap test_world h') (mk_klog LOG_INFO (lit "kmsg") (lit "%s") [VStr (Some msg)])).
Proof.
  destruct (devfs_write_correct on_grid grid_invariant (λ _, loop_ops) test_world (lit "kmsg") (bytes_of "kmsg") [97; 10; 98]
    (mk_entry (lit "kmsg") DEV_KMSG 5 384) 0) as (h' & Hb & msg & Hm & _ & Hr).
  - vm_compute. split; congruence.
  - split; [repeat (constructor; [discriminate |]); constructor | exists []; reflexivity].
  - split; [| reflexivity]. unfold entries; rewrite !elem_of_cons; tauto.
  - apply (bool_decide_unpack _). vm_compute. exact I.
  - discriminate.
  - split; [reflexivity | apply (bool_decide_unpack _); vm_compute; exact I | split; cbn; lia].
  - vm_compute. split; split; congruence.
  - exists h'. split; [exact Hb |]. exists msg. split; [exact Hm | exact Hr].
Defined.
