(* ===== verification/Acpi.v ===== *)
(** * Platform discovery: [kernel/drivers/acpi.c]

    Tables of the firmware anywhere in physical memory, found by scanning for a
    signature and followed by address.  [ram] is the content of physical memory; the
    kernel reads it through the page tables (class [PageMap]), and reading an address
    that they do not translate is a fault.  Nothing is assumed of the bytes. *)

From Stdlib Require Import ZArith Lia String.
From stdpp Require Import prelude list_numbers.
From S2P Require Import Prelude Update Arith CString Printf Log Bootinfo Memory PageMap.

Local Open Scope Z_scope.

Definition ACPI_MAX_CPUS : Z := 16.
Definition ACPI_MAX_IOAPICS : Z := 4.
Definition ACPI_MAX_ISO : Z := 16.
Definition ACPI_MAX_TABLES : Z := 32.
Definition ACPI_IDENTITY_ACCESS_LIMIT : Z := 0x0000800000000000.

(** The sizes of the packed structures. *)
Definition SIZEOF_RSDP_V1 : Z := 20.
Definition SIZEOF_RSDP_V2 : Z := 36.
Definition SIZEOF_SDT : Z := 36.
Definition SIZEOF_MADT : Z := 44.
Definition SIZEOF_HPET : Z := 56.

Record acpi_cpu_info_t := mk_cpu { acpi_id : Z; apic_id : Z; cpu_flags : Z; cpu_enabled : bool; cpu_x2apic : bool }.
Record acpi_ioapic_info_t := mk_ioapic { io_id : Z; io_address : Z; gsi_base : Z }.
Record acpi_iso_info_t := mk_iso { iso_bus : Z; iso_source : Z; iso_gsi : Z; iso_flags : Z }.

Record acpi_info_t := mk_info {
  found : bool;
  xsdt : bool;
  madt_found : bool;
  hpet_found : bool;
  rsdp : Z;
  root_table : Z;
  table_count : Z;
  lapic_address : Z;
  cpu_count : Z;
  enabled_cpu_count : Z;
  ioapic_count : Z;
  iso_count : Z;
  hpet_address : Z;
  hpet_min_tick : Z;
  cpus : list acpi_cpu_info_t;
  ioapics : list acpi_ioapic_info_t;
  isos : list acpi_iso_info_t;
}.

#[global] Instance info_fields : Fields acpi_info_t :=
  λ i, mk_info (found i) (xsdt i) (madt_found i) (hpet_found i) (rsdp i) (root_table i) (table_count i) (lapic_address i) (cpu_count i) (enabled_cpu_count i)
         (ioapic_count i) (iso_count i) (hpet_address i) (hpet_min_tick i) (cpus i) (ioapics i) (isos i).

Definition zero_cpu : acpi_cpu_info_t := mk_cpu 0 0 0 false false.
Definition zero_info : acpi_info_t :=
  mk_info false false false false 0 0 0 0 0 0 0 0 0 0 (replicate (Z.to_nat ACPI_MAX_CPUS) zero_cpu) (replicate (Z.to_nat ACPI_MAX_IOAPICS) (mk_ioapic 0 0 0))
    (replicate (Z.to_nat ACPI_MAX_ISO) (mk_iso 0 0 0 0)).

Record acpi_state (P : Type) := mk_acpi {
  acpi_info : acpi_info_t;
  acpi_tables : list Z;
  acpi_table_count : Z;
  pages : P;
  calls : list klog_call;
}.

Arguments mk_acpi {P}.
Arguments acpi_info {P}.
Arguments acpi_tables {P}.
Arguments acpi_table_count {P}.
Arguments pages {P}.
Arguments calls {P}.

#[global] Instance acpi_fields {P} : Fields (acpi_state P) := λ s, mk_acpi (acpi_info s) (acpi_tables s) (acpi_table_count s) (pages s) (calls s).

(** The number that bytes store, the lowest first. *)
Definition le_num (bs : list Z) : Z := foldr (λ x acc, x + 256 * acc) 0 bs.

Section acpi.
Context {P : Type} `{PM : PageMap P}.
Context (ram : Z → Z).

Implicit Types st : acpi_state P.

(** ** Reading memory *)

Definition ld8 st (a : Z) : res Z := match vmm_translate (pages st) a with Some (phys, _) => Ret (ram phys) | None => Fault OutOfBounds end.

(** [n] bytes, and the number they store. *)
Fixpoint ld_bytes (n : nat) st (a : Z) : res (list Z) := match n with O => Ret [] | S n => b ← ld8 st a; bs ← ld_bytes n st (a + 1); Ret (b :: bs) end.

Definition ld (n : nat) st (a : Z) : res Z := bs ← ld_bytes n st a; Ret (le_num bs).

Definition phys_range_accessible st (addr len : Z) : res (acpi_state P * bool) :=
  if len =? 0 then Ret (st, true) else
  match add_u64 addr len with
  | None => Ret (st, false)
  | Some e =>
      if (addr <? 0x400) || (ACPI_IDENTITY_ACCESS_LIMIT <? e) then Ret (st, false) else
      let first := ALIGN_DOWN addr PAGE_SIZE in
      match align_up_u64_checked e PAGE_SIZE true with
      | None => Ret (st, false)
      | Some aligned_end =>
          if ACPI_IDENTITY_ACCESS_LIMIT <? aligned_end then Ret (st, false) else
          c ← loop_n (Z.to_nat ((aligned_end - first) / PAGE_SIZE)) 0 (λ i st,
            let page := first + i * PAGE_SIZE in
            match vmm_translate (pages st) page with
            | Some (phys, _) => Ret (if negb (phys =? page) then Done (st, false) else Next st)
            | None =>
                let '(p, ok) := vmm_map_4k (pages st) page page (Z.lor VMM_NX VMM_GLOBAL) in
                let st := st <| pages := p |> in
                Ret (if negb ok then Done (st, false) else Next st)
            end) st;
          Ret (match c with Done r => r | Next st => (st, true) end)
      end
  end.

Definition checksum_ok st (ptr len : Z) : res (acpi_state P * bool) :=
  if ptr =? 0 then Ret (st, false) else
  '(st, ok) ← phys_range_accessible st ptr len;
  if negb ok then Ret (st, false) else
  sum ← for_n (Z.to_nat len) 0 (λ i sum, b ← ld8 st (ptr + i); Ret (wrap 8 (sum + b))) 0;
  Ret (st, sum =? 0).

(** ** The root pointer *)

Definition ACPI_RSDP_SIG : list Z := bytes_of "RSD PTR ".

(** The checks on a candidate, the same in [scan_rsdp_range] and [validate_rsdp_at]. *)
Definition rsdp_candidate st (p : Z) : res (acpi_state P * bool) :=
  '(st, ok) ← phys_range_accessible st p SIZEOF_RSDP_V1;
  if negb ok then Ret (st, false) else
  sig ← ld_bytes 8 st p;
  if negb (bool_decide (sig = ACPI_RSDP_SIG)) then Ret (st, false) else
  '(st, ok) ← checksum_ok st p SIZEOF_RSDP_V1;
  if negb ok then Ret (st, false) else
  revision ← ld8 st (p + 15);
  if revision <? 2 then Ret (st, true) else
  length ← ld 4 st (p + 20);
  if (length <? SIZEOF_RSDP_V2) || (4096 <? length) then Ret (st, false) else
  '(st, ok) ← phys_range_accessible st p length;
  if negb ok then Ret (st, false) else
  checksum_ok st p length.

Definition scan_rsdp_range st (start e : Z) : res (acpi_state P * Z) :=
  if e <=? start then Ret (st, 0) else
  match align_up_u64_checked start 16 true with
  | None => Ret (st, 0)
  | Some aligned =>
      c ← loop_n (Z.to_nat (e / 16 + 1)) 0 (λ i st,
        let p := aligned + i * 16 in
        match add_u64 p SIZEOF_RSDP_V1 with
        | None => Ret (Done (st, 0))
        | Some candidate_end =>
            if e <? candidate_end then Ret (Done (st, 0)) else
            '(st, ok) ← rsdp_candidate st p;
            if ok : bool then Ret (Done (st, p)) else
            Ret (match add_u64 p 16 with None => Done (st, 0) | Some _ => Next st end)
        end) st;
      match c with Done r => Ret r | Next _ => Fault Diverged end
  end.

Definition validate_rsdp_at st (addr : Z) : res (acpi_state P * Z) :=
  if (addr =? 0) || negb (Z.land addr 0xf =? 0) then Ret (st, 0) else
  '(st, ok) ← rsdp_candidate st addr;
  Ret (st, if ok : bool then addr else 0).

Definition find_rsdp st (boot_rsdp : Z) : res (acpi_state P * Z) :=
  '(st, from_boot) ← (if negb (boot_rsdp =? 0) then validate_rsdp_at st boot_rsdp else Ret (st, 0));
  if negb (from_boot =? 0) then Ret (st, from_boot) else
  ebda_seg ← ld 2 st 0x40e;
  let ebda := Z.shiftl ebda_seg 4 in
  '(st, r) ← (if (0x80000 <=? ebda) && (ebda <? 0xa0000) then scan_rsdp_range st ebda (ebda + 1024) else Ret (st, 0));
  if negb (r =? 0) then Ret (st, r) else
  scan_rsdp_range st 0xe0000 0x100000.

(** ** Description tables *)

Definition valid_sdt st (h : Z) : res (acpi_state P * bool) :=
  if h =? 0 then Ret (st, false) else
  '(st, ok) ← phys_range_accessible st h SIZEOF_SDT;
  if negb ok then Ret (st, false) else
  length ← ld 4 st (h + 4);
  if (length <? SIZEOF_SDT) || (1024 * 1024 <? length) then Ret (st, false) else
  '(st, ok) ← phys_range_accessible st h length;
  if negb ok then Ret (st, false) else
  checksum_ok st h length.

Definition add_table st (h : Z) : res (acpi_state P) :=
  '(st, ok) ← valid_sdt st h;
  if negb ok || (ACPI_MAX_TABLES <=? acpi_table_count st) then Ret st else
  l ← wr (acpi_tables st) (acpi_table_count st) h;
  Ret (st <| acpi_tables := l |> <| acpi_table_count := acpi_table_count st + 1 |>).

Definition set_info st (i : acpi_info_t) : acpi_state P := st <| acpi_info := i |>.

(** The addresses of [width] bytes in the table at [root]. *)
Definition add_entries st (root : Z) (width : nat) (entries : Z) : res (acpi_state P) :=
  for_n (Z.to_nat entries) 0 (λ i st,
    a ← ld width st (root + SIZEOF_SDT + i * Z.of_nat width);
    if a =? 0 then Ret st else add_table st a) st.

Definition parse_root_table st (root : Z) (is_xsdt : bool) : res (acpi_state P) :=
  '(st, ok) ← valid_sdt st root;
  if negb ok then Ret st else
  let st := set_info st ((acpi_info st) <| root_table := root |> <| xsdt := is_xsdt |>) in
  length ← ld 4 st (root + 4);
  if is_xsdt && (length <? SIZEOF_SDT) then Ret st else
  st ← (if is_xsdt then add_entries st root 8 ((length - SIZEOF_SDT) / 8) else add_entries st root 4 ((length - SIZEOF_SDT) / 4));
  Ret (set_info st ((acpi_info st) <| table_count := acpi_table_count st |>)).

Definition acpi_find_table st (sig : list Z) : res Z :=
  c ← loop_n (Z.to_nat (acpi_table_count st)) 0 (λ i (_ : unit),
    h ← rd (acpi_tables st) i;
    s ← ld_bytes 4 st h;
    Ret (if bool_decide (s = sig) then Done h else Next tt)) tt;
  Ret (match c with Done h => h | Next _ => 0 end).

(** ** Processors *)

(** The index of the first processor that satisfies [f], or [None]. *)
Definition find_cpu (i : acpi_info_t) (f : acpi_cpu_info_t → bool) : res (option Z) :=
  c ← loop_n (Z.to_nat (cpu_count i)) 0 (λ k (_ : unit), c ← rd (cpus i) k; Ret (if f c then Done k else Next tt)) tt;
  Ret (match c with Done k => Some k | Next _ => None end).

Definition acpi_find_cpu_by_apic_id (i : acpi_info_t) (id : Z) : res (option Z) := find_cpu i (λ c, apic_id c =? id).
Definition acpi_find_cpu_by_uid (i : acpi_info_t) (id : Z) : res (option Z) := find_cpu i (λ c, acpi_id c =? id).

Definition acpi_record_madt_cpu (i : acpi_info_t) (id apic flags : Z) (x2 : bool) : res acpi_info_t :=
  let enabled := negb (Z.land flags 1 =? 0) in
  k ← acpi_find_cpu_by_apic_id i apic;
  k ← (match k with Some k => Ret (Some k) | None => acpi_find_cpu_by_uid i id end);
  r ← (match k with
       | None =>
           if ACPI_MAX_CPUS <=? cpu_count i then Ret None else
           l ← wr (cpus i) (cpu_count i) zero_cpu;
           Ret (Some (cpu_count i, i <| cpu_count := cpu_count i + 1 |> <| cpus := l |>))
       | Some k =>
           c ← rd (cpus i) k;
           Ret (Some (k, if cpu_enabled c then i <| enabled_cpu_count := wrap32 (enabled_cpu_count i - 1) |> else i))
       end);
  match r with
  | None => Ret i
  | Some (k, i) =>
      c ← rd (cpus i) k;
      let '(apic, x2) := if x2 || negb (cpu_x2apic c) then (apic, x2) else (apic_id c, cpu_x2apic c) in
      l ← wr (cpus i) k (mk_cpu id apic flags enabled x2);
      let i := i <| cpus := l |> in
      Ret (if enabled then i <| enabled_cpu_count := wrap32 (enabled_cpu_count i + 1) |> else i)
  end.

Definition acpi_span_has (p e len : Z) : bool := negb (p =? 0) && negb (e =? 0) && (p <=? e) && (len <=? e - p).

(** One entry of the table of interrupt controllers. *)
Definition madt_entry st (p ty len : Z) : res (acpi_state P) :=
  let i := acpi_info st in
  if (ty =? 0) && (8 <=? len) then
    id ← ld8 st (p + 2);
    apic ← ld8 st (p + 3);
    flags ← ld 4 st (p + 4);
    i ← acpi_record_madt_cpu i id apic flags false;
    Ret (set_info st i)
  else if (ty =? 1) && (12 <=? len) then
    if ioapic_count i <? ACPI_MAX_IOAPICS then
      id ← ld8 st (p + 2);
      a ← ld 4 st (p + 4);
      g ← ld 4 st (p + 8);
      l ← wr (ioapics i) (ioapic_count i) (mk_ioapic id a g);
      Ret (set_info st (i <| ioapics := l |> <| ioapic_count := ioapic_count i + 1 |>))
    else Ret st
  else if (ty =? 2) && (10 <=? len) then
    if iso_count i <? ACPI_MAX_ISO then
      b ← ld8 st (p + 2);
      s ← ld8 st (p + 3);
      g ← ld 4 st (p + 4);
      f ← ld 2 st (p + 8);
      l ← wr (isos i) (iso_count i) (mk_iso b s g f);
      Ret (set_info st (i <| isos := l |> <| iso_count := iso_count i + 1 |>))
    else Ret st
  else if (ty =? 5) && (12 <=? len) then
    a ← ld 8 st (p + 4);
    Ret (if a <=? U32MAX then set_info st (i <| lapic_address := a |>) else st)
  else if (ty =? 9) && (16 <=? len) then
    id ← ld 4 st (p + 12);
    apic ← ld 4 st (p + 4);
    flags ← ld 4 st (p + 8);
    i ← acpi_record_madt_cpu i id apic flags true;
    Ret (set_info st i)
  else Ret st.

(** One round of the loop over the entries, which stops behind the last. *)
Definition madt_step (e : Z) (s : Z * acpi_state P) : res (ctl (Z * acpi_state P) (acpi_state P)) :=
  let '(p, st) := s in
  if negb (acpi_span_has p e 2) then Ret (Done st) else
  ty ← ld8 st p;
  len ← ld8 st (p + 1);
  if (len <? 2) || negb (acpi_span_has p e len) then Ret (Done st) else
  st ← madt_entry st p ty len;
  Ret (Next (p + len, st)).

Definition parse_madt st : res (acpi_state P) :=
  m ← acpi_find_table st (bytes_of "APIC");
  if m =? 0 then Ret st else
  length ← ld 4 st (m + 4);
  if length <? SIZEOF_MADT then Ret st else
  lapic ← ld 4 st (m + 36);
  let st := set_info st ((acpi_info st) <| madt_found := true |> <| lapic_address := lapic |>) in
  let e := m + length in
  c ← loop_n (Z.to_nat length) 0 (λ _, madt_step e) (m + SIZEOF_MADT, st);
  match c with Done st => Ret st | Next _ => Fault Diverged end.

Definition parse_hpet st : res (acpi_state P) :=
  h ← acpi_find_table st (bytes_of "HPET");
  if h =? 0 then Ret st else
  length ← ld 4 st (h + 4);
  if length <? SIZEOF_HPET then Ret st else
  space ← ld8 st (h + 40);
  a ← ld 8 st (h + 44);
  if negb (space =? 0) || (a =? 0) then Ret st else
  tick ← ld 2 st (h + 53);
  Ret (set_info st ((acpi_info st) <| hpet_found := true |> <| hpet_address := a |> <| hpet_min_tick := tick |>)).

(** The choice between the two root tables in [acpi_init]. *)
Definition choose_root st (r : Z) : res (acpi_state P * Z * bool) :=
  revision ← ld8 st (r + 15);
  xsdt_address ← (if 2 <=? revision then ld 8 st (r + 24) else Ret 0);
  '(st, root, is_xsdt) ← (if (2 <=? revision) && negb (xsdt_address =? 0) then
      '(st, ok) ← valid_sdt st xsdt_address;
      Ret (if ok : bool then (st, xsdt_address, true) else (st, 0, false))
    else Ret (st, 0, false));
  rsdt_address ← ld 4 st (r + 16);
  Ret (st, if (root =? 0) && negb (rsdt_address =? 0) then rsdt_address else root, is_xsdt).

Definition acpi_init st (g : info_ptr) : res (acpi_state P) :=
  let st := st <| acpi_info := zero_info |> <| acpi_tables := replicate (Z.to_nat ACPI_MAX_TABLES) 0 |> <| acpi_table_count := 0 |> in
  '(st, r) ← find_rsdp st (bootinfo_acpi_rsdp g);
  if r =? 0 then Ret (st <| calls := calls st ++ [mk_klog LOG_WARN (lit "acpi") (lit "RSDP not found; ACPI/APIC/HPET discovery disabled") []] |>) else
  let st := set_info st ((acpi_info st) <| found := true |> <| rsdp := r |>) in
  '(st, root, is_xsdt) ← choose_root st r;
  st ← parse_root_table st root is_xsdt;
  st ← parse_madt st;
  st ← parse_hpet st;
  let i := acpi_info st in
  Ret (st <| calls := calls st ++ [mk_klog LOG_INFO (lit "acpi") (lit "rsdp=%p root=%p xsdt=%u tables=%u cpus=%u ioapics=%u hpet=%u")
    [VPtr (rsdp i); VPtr (root_table i); VInt (Z.b2z (xsdt i)); VInt (table_count i); VInt (enabled_cpu_count i); VInt (ioapic_count i); VInt (Z.b2z (hpet_found i))]] |>).

Definition acpi_available st : bool := found (acpi_info st).

Definition acpi_format_status st (out : option (list Z)) (out_len : Z) : res (option (list Z)) :=
  match out with
  | None => Ret None
  | Some _ =>
      if out_len =? 0 then Ret out else
      let i := acpi_info st in
      bo ← rabbitbone_buf_init out out_len;
      bo ← rabbitbone_buf_appendf bo (Some (lit "acpi: found=%u rsdp=%p root=%p xsdt=%u tables=%u
")) [VInt (Z.b2z (found i)); VPtr (rsdp i); VPtr (root_table i); VInt (Z.b2z (xsdt i)); VInt (table_count i)];
      bo ← rabbitbone_buf_appendf bo (Some (lit "  madt=%u lapic=%p cpus=%u enabled=%u ioapics=%u iso=%u
")) [VInt (Z.b2z (madt_found i)); VPtr (lapic_address i); VInt (cpu_count i); VInt (enabled_cpu_count i); VInt (ioapic_count i); VInt (iso_count i)];
      bo ← for_n (Z.to_nat (cpu_count i)) 0 (λ k bo,
        c ← rd (cpus i) k;
        rabbitbone_buf_appendf bo (Some (lit "    cpu%u acpi=%u apic=%u x2=%u enabled=%u flags=0x%x
")) [VInt k; VInt (acpi_id c); VInt (apic_id c); VInt (Z.b2z (cpu_x2apic c)); VInt (Z.b2z (cpu_enabled c)); VInt (cpu_flags c)]) bo;
      bo ← for_n (Z.to_nat (ioapic_count i)) 0 (λ k bo,
        io ← rd (ioapics i) k;
        rabbitbone_buf_appendf bo (Some (lit "    ioapic%u id=%u addr=%p gsi_base=%u
")) [VInt k; VInt (io_id io); VPtr (io_address io); VInt (gsi_base io)]) bo;
      bo ← rabbitbone_buf_appendf bo (Some (lit "  hpet=%u base=%p min_tick=%u
")) [VInt (Z.b2z (hpet_found i)); VPtr (hpet_address i); VInt (hpet_min_tick i)];
      Ret (bo_buf bo)
  end.

(** One round of the loop of the self test: a processor and those behind it. *)
Definition check_cpu (i : acpi_info_t) (k enabled : Z) : res (ctl Z unit) :=
  a ← rd (cpus i) k;
  let enabled := if cpu_enabled a then wrap32 (enabled + 1) else enabled in
  d ← loop_n (Z.to_nat (cpu_count i - (k + 1))) (k + 1) (λ j (_ : unit),
    b ← rd (cpus i) j;
    Ret (if cpu_enabled a && cpu_enabled b && (apic_id a =? apic_id b) then Done tt else Next tt)) tt;
  Ret (match d with Done _ => Done tt | Next _ => Next enabled end).

Definition acpi_selftest st : res bool :=
  let i := acpi_info st in
  if negb (found i) then Ret true else
  if (rsdp i =? 0) || (root_table i =? 0) then Ret false else
  if table_count i =? 0 then Ret false else
  if madt_found i && (enabled_cpu_count i =? 0) then Ret false else
  c ← loop_n (Z.to_nat (cpu_count i)) 0 (check_cpu i) 0;
  Ret (match c with Done _ => false | Next enabled => enabled =? enabled_cpu_count i end).

End acpi.
