(* ===== verification/AcpiTables.v ===== *)
(** * What the tables of the firmware say

    The abstract description of the platform ([platform], read off a table by
    [madt_items] and [decode]), what the standard asks of a table ([rsdp_valid],
    [sdt_valid]), and what every function of [Acpi] does for any content of memory: it
    reads only what the page tables translate, maps what it needs, and finds what
    [discovered] says. *)

From Stdlib Require Import ZArith Lia String.
From stdpp Require Import prelude list_numbers.
From S2P Require Import Prelude Update Arith CString Printf Log Bootinfo Memory PageMap Acpi.

Local Open Scope Z_scope.

(** ** Arrays with a count *)

(** The first [count] of the [max] elements of [b] are [L]. *)
Definition vec {A} (max : Z) (b : list A) (count : Z) (L : list A) : Prop := ∃ rest, b = L ++ rest ∧ zlen b = max ∧ count = zlen L.

Lemma vec_count {A} max (b : list A) count L : vec max b count L → zlen L ≤ max ∧ count = zlen L.
Proof. intros (rest & -> & H & ->). rewrite zlen_app in H. pose proof (zlen_nonneg rest). lia. Qed.

Lemma vec_push {A} max (b : list A) count L x : vec max b count L → count < max → ∃ b', wr b count x = Ret b' ∧ vec max b' (count + 1) (L ++ [x]).
Proof.
  intros (rest & -> & H & ->) Hm. rewrite zlen_app in H. destruct rest as [|y rest]; [rewrite zlen_nil in H; lia |]. rewrite wr_middle by done. eexists. split; [done |]. exists rest. rewrite skipn_cons, drop_0. rewrite zlen_cons in H. rewrite <- app_assoc, !zlen_app, !zlen_cons, zlen_nil. split_and!; [done | lia | lia].
Qed.

Lemma vec_rd {A} max (b : list A) count L k x : vec max b count L → L !! k = Some x → rd b (Z.of_nat k) = Ret x.
Proof. intros (rest & -> & _) Hk. rewrite rd_nat. by rewrite (lookup_app_l_Some _ _ _ _ Hk). Qed.

Lemma vec_wr {A} max (b : list A) count L k x y : vec max b count L → L !! k = Some y → ∃ b', wr b (Z.of_nat k) x = Ret b' ∧ vec max b' count (<[k := x]> L).
Proof.
  intros (rest & -> & H & ->) Hk%lookup_lt_Some. rewrite wr_inbounds by (rewrite zlen_app; pose proof (zlen_nonneg rest); unfold zlen; lia). eexists. split; [done |]. exists rest. rewrite Nat2Z.id, insert_app_l by done. rewrite zlen_app, !zlen_insert in *. split_and!; [done | lia | done].
Qed.

Lemma vec_find {A R} max (b : list A) count L (Q : A → Prop) `{∀ x, Decision (Q x)} (r : Z → A → R) (f : Z → unit → res (ctl unit R)) :
  vec max b count L → (∀ k x, L !! k = Some x → f (Z.of_nat k) tt = Ret (if bool_decide (Q x) then Done (r (Z.of_nat k) x) else Next tt)) →
  loop_n (Z.to_nat count) 0 f tt = Ret (match list_find Q L with Some (k, x) => Done (r (Z.of_nat k) x) | None => Next tt end).
Proof.
  intros (rest & _ & _ & ->) Hf. unfold zlen. rewrite Nat2Z.id. destruct (loop_find L (λ k x, if bool_decide (Q x) then Some (r k x) else None) f) as [(k & x & r' & Hk & E & -> & Hj)|[-> Hno]].
  - intros k x Hk. rewrite (Hf k x Hk). by case_bool_decide.
  - case_bool_decide as HQ; [| done]. simplify_eq. replace (list_find Q L) with (Some (k, x)); [done |]. symmetry. apply list_find_Some. split_and!; [done.. |]. intros j y Hy Hlt HQy. specialize (Hj j y Hlt Hy). by rewrite bool_decide_true in Hj.
  - replace (list_find Q L) with (@None (nat * A)); [done |]. symmetry. apply list_find_None, Forall_forall. intros x [k Hk]%list_elem_of_lookup HQ. specialize (Hno k x Hk). by rewrite bool_decide_true in Hno.
Qed.

Lemma eqb_bool_decide (a b : Z) : (a =? b) = bool_decide (a = b).
Proof. by destruct (Z.eqb_spec a b); case_bool_decide. Qed.

(** ** The processors *)

(** The entry that a report of a processor makes of the entry [c]: a processor known by
    its wide identifier keeps it. *)
Definition merged (c : acpi_cpu_info_t) (id apic flags : Z) (x2 : bool) : acpi_cpu_info_t :=
  let fresh := x2 || negb (cpu_x2apic c) in
  mk_cpu id (if fresh then apic else apic_id c) flags (negb (Z.land flags 1 =? 0)) (if fresh then x2 else cpu_x2apic c).

(** The entry with the same interrupt controller, or else with the same identifier. *)
Definition same_cpu (l : list acpi_cpu_info_t) (id apic : Z) : option (nat * acpi_cpu_info_t) :=
  match list_find (λ c, apic_id c = apic) l with Some r => Some r | None => list_find (λ c, acpi_id c = id) l end.

Definition add_cpu (l : list acpi_cpu_info_t) (id apic flags : Z) (x2 : bool) : list acpi_cpu_info_t :=
  match same_cpu l id apic with
  | Some (k, c) => <[k := merged c id apic flags x2]> l
  | None => if zlen l <? ACPI_MAX_CPUS then l ++ [merged zero_cpu id apic flags x2] else l
  end.

Definition enabled_in (l : list acpi_cpu_info_t) : Z := foldr (λ c n, Z.b2z (cpu_enabled c) + n) 0 l.

Lemma enabled_app l l' : enabled_in (l ++ l') = enabled_in l + enabled_in l'.
Proof. induction l as [|c l IH]; [done |]. cbn [app enabled_in foldr] in *. fold (enabled_in (l ++ l')) (enabled_in l) in *. lia. Qed.

Lemma enabled_insert l k c c' : l !! k = Some c → enabled_in (<[k := c']> l) = enabled_in l - Z.b2z (cpu_enabled c) + Z.b2z (cpu_enabled c').
Proof.
  intros Hk. rewrite (insert_take_drop l k c') by by eapply lookup_lt_Some. rewrite <- (take_drop_middle l k c Hk) at 3. rewrite !enabled_app. cbn [enabled_in foldr]. lia.
Qed.

Lemma enabled_range l : 0 ≤ enabled_in l ≤ zlen l.
Proof. induction l as [|c l IH]; [done |]. rewrite zlen_cons. cbn [enabled_in foldr]. fold (enabled_in l). destruct (cpu_enabled c); cbn [Z.b2z]; lia. Qed.

Lemma enabled_at l k c : l !! k = Some c → Z.b2z (cpu_enabled c) ≤ enabled_in l.
Proof. intros Hk. rewrite <- (take_drop_middle l k c Hk), enabled_app. cbn [enabled_in foldr]. pose proof (enabled_range (take k l)). pose proof (enabled_range (drop (S k) l)) as Hd. unfold enabled_in in *. lia. Qed.

Definition cpus_are (i : acpi_info_t) (l : list acpi_cpu_info_t) : Prop := vec ACPI_MAX_CPUS (cpus i) (cpu_count i) l ∧ enabled_cpu_count i = enabled_in l.

Lemma find_cpu_spec i l (f : acpi_cpu_info_t → bool) (Q : acpi_cpu_info_t → Prop) `{∀ c, Decision (Q c)} :
  vec ACPI_MAX_CPUS (cpus i) (cpu_count i) l → (∀ c, f c = bool_decide (Q c)) → find_cpu i f = Ret ((λ r, Z.of_nat r.1) <$> list_find Q l).
Proof.
  intros Hv Hf. unfold find_cpu. rewrite (vec_find _ _ (cpu_count i) l Q (λ k _, k) _ Hv); [by mred; destruct (list_find Q l) as [[? ?]|] |].
  intros k c Hk. rewrite (vec_rd _ _ _ _ _ _ Hv Hk). mred. by rewrite Hf.
Qed.

Lemma same_cpu_lookup l id apic k c : same_cpu l id apic = Some (k, c) → l !! k = Some c.
Proof. unfold same_cpu. destruct (list_find _ l) as [r|] eqn:E; [intros [= ->]; by apply list_find_Some in E as [? _] | by intros (? & _)%list_find_Some]. Qed.

Lemma same_cpu_spec i l id apic : vec ACPI_MAX_CPUS (cpus i) (cpu_count i) l →
  (k ← acpi_find_cpu_by_apic_id i apic; match k with Some k => Ret (Some k) | None => acpi_find_cpu_by_uid i id end) = Ret ((λ r, Z.of_nat r.1) <$> same_cpu l id apic).
Proof.
  intros Hv. unfold acpi_find_cpu_by_apic_id, acpi_find_cpu_by_uid, same_cpu. rewrite (find_cpu_spec i l (λ c, apic_id c =? apic) (λ c, apic_id c = apic)) by (done || (intros c; apply eqb_bool_decide)). mred. destruct (list_find _ l) as [[k c]|]; [done |]. cbn [fmap option_fmap option_map].
  apply find_cpu_spec; [done |]. intros c. apply eqb_bool_decide.
Qed.

(** Recording a processor only changes the processors. *)
Definition with_cpus (i i' : acpi_info_t) : acpi_info_t := i <| cpu_count := cpu_count i' |> <| enabled_cpu_count := enabled_cpu_count i' |> <| cpus := cpus i' |>.

Lemma record_cpu_spec i l id apic flags x2 : cpus_are i l → ∃ i', acpi_record_madt_cpu i id apic flags x2 = Ret i' ∧ cpus_are i' (add_cpu l id apic flags x2) ∧ i' = with_cpus i i'.
Proof.
  intros [Hv He]. pose proof (same_cpu_spec i l id apic Hv) as Hfind. unfold acpi_record_madt_cpu, add_cpu. destruct (acpi_find_cpu_by_apic_id i apic) as [k0|]; [| done]. mred. cbn in Hfind. mred. rewrite Hfind. mred. clear Hfind. pose proof (vec_count _ _ _ _ Hv) as [Hmax Hcount]. pose proof (enabled_range l) as Hr. unfold ACPI_MAX_CPUS in *.
  assert (Hm : ∀ c, (let '(a, x) := if x2 || negb (cpu_x2apic c) then (apic, x2) else (apic_id c, cpu_x2apic c) in mk_cpu id a flags (negb (Z.land flags 1 =? 0)) x) = merged c id apic flags x2) by (intros c; unfold merged; by destruct (x2 || _)).
  set (en := negb (Z.land flags 1 =? 0)) in *. assert (Hen : ∀ c, cpu_enabled (merged c id apic flags x2) = en) by done.
  destruct (same_cpu l id apic) as [[k c]|] eqn:Ek; cbn [fmap option_fmap option_map fst].
  - apply same_cpu_lookup in Ek. pose proof (enabled_at l k c Ek) as Hat. rewrite (vec_rd _ _ _ _ _ _ Hv Ek). mred. set (i1 := if cpu_enabled c then _ else i). assert (Hc1 : cpus i1 = cpus i) by (by subst i1; destruct (cpu_enabled c)). rewrite Hc1, (vec_rd _ _ _ _ _ _ Hv Ek). mred. specialize (Hm c). destruct (if x2 || _ then _ else _) as [a x]. rewrite Hm.
    destruct (vec_wr _ _ _ _ k (merged c id apic flags x2) c Hv Ek) as (b' & -> & Hv'). mred. eexists. split; [done |]. split; [split |].
    + subst i1. by destruct en, (cpu_enabled c).
    + rewrite (enabled_insert l k c _ Ek), Hen. subst i1. destruct (cpu_enabled c), en; cbn in *; rewrite ?He, ?wrap_small; try lia; rewrite ?wrap_small; lia.
    + subst i1. by destruct en, (cpu_enabled c), i.
  - rewrite Hcount. destruct (Z.ltb_spec (zlen l) 16) as [Hlt|Hge].
    + bfalse (16 <=? zlen l). destruct (vec_push _ _ _ _ zero_cpu Hv ltac:(lia)) as (b1 & Hw1 & Hv1). rewrite <- Hcount, Hw1. mred. cbn.
      assert (Hk : (l ++ [zero_cpu]) !! length l = Some zero_cpu) by by apply list_lookup_middle. assert (Hz : cpu_count i = Z.of_nat (length l)) by exact Hcount. rewrite Hz. rewrite (vec_rd _ _ _ _ _ _ Hv1 Hk). mred. specialize (Hm zero_cpu). destruct (if x2 || _ then _ else _) as [a x]. rewrite Hm.
      destruct (vec_wr _ _ _ _ _ (merged zero_cpu id apic flags x2) _ Hv1 Hk) as (b' & -> & Hv'). mred. rewrite insert_app_r_alt, Nat.sub_diag in Hv' by done. cbn [insert list_insert] in Hv'. rewrite Hz in Hv'. eexists. split; [done |]. split; [split |].
      * by destruct en.
      * rewrite enabled_app. cbn [enabled_in foldr]. rewrite Hen. destruct en; cbn in *; rewrite ?He, ?wrap_small; lia.
      * by destruct en.
    + btrue (16 <=? zlen l). mred. exists i. by destruct i.
Qed.

(** No two entries have the same interrupt controller. *)
Definition apics_differ (l : list acpi_cpu_info_t) : Prop := NoDup (apic_id <$> l).

Lemma insert_differ l k c c' : apics_differ l → l !! k = Some c → (apic_id c' = apic_id c ∨ apic_id c' ∉ apic_id <$> l) → apics_differ (<[k := c']> l).
Proof.
  intros Hd Hk Hor. unfold apics_differ. rewrite list_fmap_insert. destruct Hor as [E|Hn]; [rewrite E, list_insert_id; [done |]; by rewrite list_lookup_fmap, Hk |].
  apply NoDup_alt. intros i j x Hi Hj. assert (Hlen : (k < length (apic_id <$> l))%nat) by (rewrite length_fmap; by eapply lookup_lt_Some). unfold apics_differ in Hd. rewrite NoDup_alt in Hd. destruct (decide (i = k)) as [->|Hik], (decide (j = k)) as [->|Hjk]; [done | | |].
  - rewrite list_lookup_insert_eq in Hi by done. rewrite list_lookup_insert_ne in Hj by done. simplify_eq. destruct Hn. by eapply list_elem_of_lookup_2.
  - rewrite list_lookup_insert_eq in Hj by done. rewrite list_lookup_insert_ne in Hi by done. simplify_eq. destruct Hn. by eapply list_elem_of_lookup_2.
  - rewrite list_lookup_insert_ne in Hi, Hj by done. by eapply Hd.
Qed.

Lemma add_cpu_differ l id apic flags x2 : apics_differ l → apics_differ (add_cpu l id apic flags x2).
Proof.
  intros Hd. unfold add_cpu, same_cpu. destruct (list_find (λ c, apic_id c = apic) l) as [[k c]|] eqn:E.
  - apply list_find_Some in E as (Hk & Ha & _). eapply insert_differ; [done | done |]. left. cbn. by destruct (x2 || _).
  - apply list_find_None in E. assert (Hn : apic ∉ apic_id <$> l). { intros (c & -> & Hc)%list_elem_of_fmap. by apply (proj1 (Forall_forall _ _) E c). }
    destruct (list_find (λ c, acpi_id c = id) l) as [[k c]|] eqn:E'.
    + apply list_find_Some in E' as (Hk & _). eapply insert_differ; [done | done |]. cbn. destruct (x2 || _); [by right | by left].
    + destruct (zlen l <? ACPI_MAX_CPUS); [| done]. unfold apics_differ. rewrite fmap_app. apply NoDup_app. split_and!; [done | | apply NoDup_singleton]. intros x Hx Hx'%list_elem_of_singleton. subst x. cbn in Hx. rewrite orb_true_r in Hx. done.
Qed.

(** ** The entries of the table of interrupt controllers *)

Inductive madt_item :=
  | Processor (id apic flags : Z) (x2 : bool)
  | IoController (io : acpi_ioapic_info_t)
  | SourceOverride (iso : acpi_iso_info_t)
  | LocalAddress (a : Z)
  | OtherItem.

(** The number in [n] bytes at [o] of an entry. *)
Definition field (e : list Z) (o n : nat) : Z := le_num (take n (drop o e)).

(** The entries of the standard, each with the length it needs. *)
Definition decode (e : list Z) : madt_item :=
  let kind (ty len : Z) := (field e 0 1 =? ty) && (len <=? zlen e) in
  if kind 0 8 then Processor (field e 2 1) (field e 3 1) (field e 4 4) false
  else if kind 1 12 then IoController (mk_ioapic (field e 2 1) (field e 4 4) (field e 8 4))
  else if kind 2 10 then SourceOverride (mk_iso (field e 2 1) (field e 3 1) (field e 4 4) (field e 8 2))
  else if kind 5 12 then LocalAddress (field e 4 8)
  else if kind 9 16 then Processor (field e 12 4) (field e 4 4) (field e 8 4) true
  else OtherItem.

(** The entries that lie behind each other in [bs], up to one that does not fit. *)
Fixpoint madt_items (n : nat) (bs : list Z) : list madt_item :=
  match n, bs with
  | S n, _ :: len :: _ => if (len <? 2) || (zlen bs <? len) then [] else decode (take (Z.to_nat len) bs) :: madt_items n (drop (Z.to_nat len) bs)
  | _, _ => []
  end.

Record platform := mk_platform {
  p_lapic : Z;
  p_cpus : list acpi_cpu_info_t;
  p_ioapics : list acpi_ioapic_info_t;
  p_isos : list acpi_iso_info_t;
}.

#[global] Instance platform_fields : Fields platform := λ p, mk_platform (p_lapic p) (p_cpus p) (p_ioapics p) (p_isos p).

(** What is told of the platform after the entry [it]. *)
Definition apply_item (p : platform) (it : madt_item) : platform :=
  match it with
  | Processor id apic flags x2 => p <| p_cpus := add_cpu (p_cpus p) id apic flags x2 |>
  | IoController io => if zlen (p_ioapics p) <? ACPI_MAX_IOAPICS then p <| p_ioapics := p_ioapics p ++ [io] |> else p
  | SourceOverride iso => if zlen (p_isos p) <? ACPI_MAX_ISO then p <| p_isos := p_isos p ++ [iso] |> else p
  | LocalAddress a => if a <=? U32MAX then p <| p_lapic := a |> else p
  | OtherItem => p
  end.

(** The structure of the kernel says what [p] does. *)
Record describes (i : acpi_info_t) (p : platform) : Prop := {
  de_lapic : lapic_address i = p_lapic p;
  de_cpus : cpus_are i (p_cpus p);
  de_differ : apics_differ (p_cpus p);
  de_ioapics : vec ACPI_MAX_IOAPICS (ioapics i) (ioapic_count i) (p_ioapics p);
  de_isos : vec ACPI_MAX_ISO (isos i) (iso_count i) (p_isos p);
}.

(** The part of the structure that the table of interrupt controllers does not fill. *)
Definition discovery (i : acpi_info_t) : bool * bool * bool * bool * (Z * Z * Z) * (Z * Z) :=
  (found i, xsdt i, madt_found i, hpet_found i, (rsdp i, root_table i, table_count i), (hpet_address i, hpet_min_tick i)).

(** ** Physical memory as the tables see it *)

Section memory.
Context (ram : Z → Z).

Definition bytes_at (a : Z) (n : nat) : list Z := (λ k, ram (a + Z.of_nat k)) <$> seq 0 n.

Lemma bytes_at_S a n : bytes_at a (S n) = ram a :: bytes_at (a + 1) n.
Proof. unfold bytes_at. cbn [seq fmap list_fmap]. rewrite Z.add_0_r. f_equal. rewrite <- fmap_S_seq, <- list_fmap_compose. apply list_fmap_ext. intros _ k _. cbn. f_equal. lia. Qed.

Lemma bytes_at_length a n : length (bytes_at a n) = n.
Proof. unfold bytes_at. by rewrite length_fmap, length_seq. Qed.

Lemma bytes_at_app a n m : bytes_at a (n + m) = bytes_at a n ++ bytes_at (a + Z.of_nat n) m.
Proof.
  revert a. induction n as [|n IH]; intros a; [cbn [Nat.add]; by rewrite Z.add_0_r |]. cbn [Nat.add]. rewrite !bytes_at_S, IH. cbn [app]. do 3 f_equal. lia.
Qed.

Lemma bytes_at_lookup a n k : (k < n)%nat → bytes_at a n !! k = Some (ram (a + Z.of_nat k)).
Proof. intros Hk. unfold bytes_at. rewrite list_lookup_fmap, lookup_seq_lt by done. done. Qed.

Lemma bytes_at_take a n k : (k ≤ n)%nat → take k (bytes_at a n) = bytes_at a k.
Proof. intros Hk. replace n with (k + (n - k))%nat by lia. rewrite bytes_at_app, take_app_le by (by rewrite bytes_at_length). apply take_ge. by rewrite bytes_at_length. Qed.

Lemma bytes_at_drop a n k : (k ≤ n)%nat → drop k (bytes_at a n) = bytes_at (a + Z.of_nat k) (n - k).
Proof. intros Hk. replace n with (k + (n - k))%nat at 1 by lia. rewrite bytes_at_app, drop_app_ge by (by rewrite bytes_at_length). by rewrite bytes_at_length, Nat.sub_diag. Qed.

Definition num_at (a : Z) (n : nat) : Z := le_num (bytes_at a n).

Lemma num_at_1 a : num_at a 1 = ram a.
Proof. unfold num_at. cbn. rewrite !Z.add_0_r. done. Qed.

Lemma field_at a n o k : Z.of_nat o + Z.of_nat k ≤ n → field (bytes_at a (Z.to_nat n)) o k = num_at (a + Z.of_nat o) k.
Proof. intros H. unfold field, num_at. rewrite bytes_at_drop, bytes_at_take by lia. done. Qed.

Context (Hram : ∀ a, is_u8 (ram a)).

Lemma num_at_range a n : 0 ≤ num_at a n < 256 ^ Z.of_nat n.
Proof.
  unfold num_at. revert a. induction n as [|n IH]; intros a; [done |]. rewrite bytes_at_S. cbn [le_num foldr]. specialize (IH (a + 1)). unfold le_num in IH. pose proof (Hram a) as Hb. unfold is_u8 in Hb. rewrite Nat2Z.inj_succ, Z.pow_succ_r by lia. lia.
Qed.

(** The sum that a checksum makes zero. *)
Definition sum_at (a : Z) (n : nat) : Z := foldr Z.add 0 (bytes_at a n).

Lemma sum_at_snoc a n : sum_at a (n + 1) = sum_at a n + ram (a + Z.of_nat n).
Proof.
  unfold sum_at. rewrite bytes_at_app, foldr_app. cbn [bytes_at seq fmap list_fmap foldr]. rewrite !Z.add_0_r. generalize (bytes_at a n) as l. intros l. induction l as [|x l IH]; cbn [foldr]; lia.
Qed.

End memory.

Section spec.
Context {P : Type} `{PM : PageMap P} `{PS : !PageMapSpec P}.
Context (ram : Z → Z) (Hram : ∀ a, is_u8 (ram a)).

Implicit Types st : acpi_state P.

(** The page tables translate [n] bytes from [a] on to themselves. *)
Definition readable (p : P) (a n : Z) : Prop := ∀ x, a ≤ x < a + n → ∃ f, vmm_translate p x = Some (x, f).

Lemma readable_sub p a n b m : readable p a n → a ≤ b → b + m ≤ a + n → readable p b m.
Proof. intros Hr H1 H2 x Hx. apply Hr. lia. Qed.

Lemma ld8_readable st a n b : readable (pages st) a n → a ≤ b < a + n → ld8 ram st b = Ret (ram b).
Proof. intros Hr Hb. unfold ld8. by destruct (Hr b Hb) as [f ->]. Qed.

Lemma ld_bytes_ok st a n b k : readable (pages st) a n → a ≤ b → b + Z.of_nat k ≤ a + n → ld_bytes ram k st b = Ret (bytes_at ram b k).
Proof.
  intros Hr. revert b. induction k as [|k IH]; intros b Hb Hk; [done |]. cbn [ld_bytes]. rewrite (ld8_readable st a n b Hr) by lia. mred. rewrite IH by lia. mred. by rewrite bytes_at_S.
Qed.

Lemma ld_readable st a n b k : readable (pages st) a n → a ≤ b → b + Z.of_nat k ≤ a + n → ld ram k st b = Ret (num_at ram b k).
Proof. intros Hr Hb Hk. unfold ld. by rewrite (ld_bytes_ok st a n b k). Qed.

(** ** Making memory accessible *)

(** Only the page tables change, and what they translated they translate still. *)
Record only_pages st st' : Prop := {
  op_info : acpi_info st' = acpi_info st;
  op_tables : acpi_tables st' = acpi_tables st;
  op_count : acpi_table_count st' = acpi_table_count st;
  op_calls : calls st' = calls st;
  op_ok : pages_ok (pages st) → pages_ok (pages st');
  op_keeps : pages_ok (pages st) → ∀ x t, is_u64 x → vmm_translate (pages st) x = Some t → vmm_translate (pages st') x = Some t;
}.

Lemma only_refl st : only_pages st st.
Proof. done. Qed.

Lemma only_trans st1 st2 st3 : only_pages st1 st2 → only_pages st2 st3 → only_pages st1 st3.
Proof. intros [A1 A2 A3 A4 A5 A6] [B1 B2 B3 B4 B5 B6]. split; try congruence; auto. Qed.

(** The addresses the code accepts. *)
Definition inside (a n : Z) : Prop := 0x400 ≤ a ∧ a + n ≤ ACPI_IDENTITY_ACCESS_LIMIT.

(** The pages of a range are translated to themselves. *)
Definition paged (p : P) (a n : Z) : Prop := ∀ x, a / PAGE_SIZE ≤ x / PAGE_SIZE ≤ (a + n - 1) / PAGE_SIZE → ∃ f, vmm_translate p x = Some (x, f).

Lemma paged_readable p a n : paged p a n → readable p a n.
Proof. intros Hp x Hx. apply Hp. split; apply Z.div_le_mono; unfold PAGE_SIZE; lia. Qed.

Lemma paged_sub p a n b m : paged p a n → a ≤ b → b + m ≤ a + n → paged p b m.
Proof. intros Hp H1 H2 x Hx. apply Hp. pose proof (Z.div_le_mono a b PAGE_SIZE ltac:(done) H1). pose proof (Z.div_le_mono (b + m - 1) (a + n - 1) PAGE_SIZE ltac:(done) ltac:(lia)). lia. Qed.

Lemma only_paged st st' a n : only_pages st st' → pages_ok (pages st) → inside a n → paged (pages st) a n → paged (pages st') a n.
Proof.
  intros Ho Hok [Hi1 Hi2] Hp x Hx. destruct (Hp x Hx) as [f Hf]. exists f. apply (op_keeps _ _ Ho); [done | | done]. unfold ACPI_IDENTITY_ACCESS_LIMIT, PAGE_SIZE in *. pose proof (Z.div_mod x 4096 ltac:(lia)). pose proof (Z.mod_pos_bound x 4096 ltac:(lia)).
  pose proof (Z.div_pos a 4096 ltac:(lia) ltac:(lia)). assert ((a + n - 1) / 4096 < 2 ^ 35) by (apply Z.div_lt_upper_bound; lia). ulia.
Qed.

Lemma page_readable (p : P) page : pages_ok p → is_u64 page → page mod PAGE_SIZE = 0 → (∃ f, vmm_translate p page = Some (page, f)) → readable p page PAGE_SIZE.
Proof. intros Hok Hu Hm [f Hf] x Hx. exists f. replace x with (page + (x - page)) by lia. apply whole_page; [done.. | lia]. Qed.

(** The range is in pages that are there already. *)
Definition ready st (a n : Z) : Prop := inside a n ∧ paged (pages st) a n.

Lemma accessible_spec st addr len : pages_ok (pages st) → is_u64 addr → is_u64 len → len ≠ 0 →
  ∃ st' ok, phys_range_accessible st addr len = Ret (st', ok) ∧ only_pages st st' ∧ if ok : bool then ready st' addr len else ¬ ready st addr len.
Proof.
  intros Hok Ha Hl Hl0. unfold phys_range_accessible. bfalse (len =? 0).
  assert (Hno : ¬ inside addr len → ∃ st' ok, Ret (st, false) = Ret (st', ok) ∧ only_pages st st' ∧ if ok : bool then ready st' addr len else ¬ ready st addr len) by (intros Hn; exists st, false; split_and!; [done | apply only_refl | by intros [? _]]).
  unfold ready, inside, ACPI_IDENTITY_ACCESS_LIMIT in *. unfold add_u64. destruct (Z.leb_spec (addr + len) U64MAX) as [Hu|Hu]; [| apply Hno; ulia].
  destruct (Z.ltb_spec addr 0x400); [apply Hno; lia |]. destruct (Z.ltb_spec 0x0000800000000000 (addr + len)); [apply Hno; lia |]. cbn [orb]. clear Hno.
  set (first := ALIGN_DOWN addr PAGE_SIZE) in *. assert (Hfirst : first = addr / 4096 * 4096) by (unfold first, ALIGN_DOWN; change (PAGE_SIZE - 1) with (2 ^ 12 - 1); change 4096 with (2 ^ 12); apply land_align_mask; [done | lia]). clearbody first.
  change PAGE_SIZE with (2 ^ 12) at 1. rewrite align_up_u64_checked_pow2 by (ulia || lia). change (2 ^ 12) with 4096. unfold U64MAX. btrue (addr + len + (4096 - 1) <=? 18446744073709551615). set (pe := (addr + len + (4096 - 1)) / 4096).
  assert (Hpe : pe = (addr + len - 1) / 4096 + 1) by (unfold pe; replace (addr + len + (4096 - 1)) with (addr + len - 1 + 1 * 4096) by lia; by rewrite Z.div_add by lia). clearbody pe.
  pose proof (Z.div_mod (addr + len - 1) 4096 ltac:(lia)) as D1. pose proof (Z.mod_pos_bound (addr + len - 1) 4096 ltac:(lia)) as D2. pose proof (Z.div_mod addr 4096 ltac:(lia)) as D3. pose proof (Z.mod_pos_bound addr 4096 ltac:(lia)) as D4. unfold paged. change PAGE_SIZE with 4096. set (ps := addr / 4096) in *. set (pl := (addr + len - 1) / 4096) in *.
  bfalse (0x0000800000000000 <? pe * 4096). replace ((pe * 4096 - first) / 4096) with (pe - ps) by (rewrite Hfirst, <- Z.mul_sub_distr_r, Z.div_mul by lia; done).
  match goal with |- context [loop_n ?n ?i ?body ?t] => destruct (loop_n_inv (λ j st', only_pages st st' ∧ ∀ x, ps ≤ x / 4096 < ps + j → ∃ f, vmm_translate (pages st') x = Some (x, f))
    (λ r, r.2 = false ∧ only_pages st r.1 ∧ ¬ ∀ x, ps ≤ x / 4096 ≤ pl → ∃ f, vmm_translate (pages st) x = Some (x, f)) body n i t) as [(st' & -> & Ho & Hr)|([st' ok] & -> & E & Ho & Hr)] end.
  - split; [apply only_refl |]. intros x Hx. lia.
  - intros j st' Hj [Ho Hr]. cbv zeta. set (page := first + j * 4096). assert (Epage : page = (ps + j) * 4096) by (unfold page; lia). clearbody page. assert (Hpg : page / 4096 = ps + j) by (rewrite Epage; by apply Z.div_mul). assert (Hu64 : is_u64 page) by ulia. assert (Hm : page mod PAGE_SIZE = 0) by (rewrite Epage; by apply Z.mod_mul).
    pose proof (op_ok _ _ Ho Hok) as Hok'. assert (Hmissing : ∀ t, vmm_translate (pages st') page = t → (∀ f, t ≠ Some (page, f)) → ¬ ∀ x, ps ≤ x / 4096 ≤ pl → ∃ f, vmm_translate (pages st) x = Some (x, f)).
    { intros t Et Ht Hrd. destruct (Hrd page ltac:(lia)) as [f Hf]. apply (op_keeps _ _ Ho Hok page _ Hu64) in Hf. apply (Ht f). congruence. }
    assert (Hext : ∀ st'', only_pages st' st'' → (∃ f, vmm_translate (pages st'') page = Some (page, f)) → only_pages st st'' ∧ ∀ x, ps ≤ x / 4096 < ps + (j + 1) → ∃ f, vmm_translate (pages st'') x = Some (x, f)).
    { intros st'' Ho' Hf. pose proof (op_ok _ _ Ho' Hok') as Hok''. split; [by eapply only_trans |]. intros x Hx. pose proof (Z.div_mod x 4096 ltac:(lia)). pose proof (Z.mod_pos_bound x 4096 ltac:(lia)). destruct (decide (x / 4096 = ps + j)) as [Heq|Hne].
      - apply (page_readable _ page Hok'' Hu64 Hm Hf). unfold PAGE_SIZE in *. lia.
      - destruct (Hr x ltac:(lia)) as [f Hxf]. exists f. apply (op_keeps _ _ Ho' Hok'); [ulia | done]. }
    destruct (vmm_translate (pages st') page) as [[phys f]|] eqn:Et.
    + destruct (Z.eqb_spec phys page) as [->|Hne]; cbn [negb]; [left; eexists; split; [done |]; apply Hext; [apply only_refl | eauto] | right; eexists; split; [done |]]. split_and!; [done | done |]. eapply Hmissing; [done |]. intros f' E. congruence.
    + assert (Hfl : is_u64 (Z.lor VMM_NX VMM_GLOBAL)) by by vm_compute. pose proof (map_keeps (pages st') page page _ Hok' Hu64 Hu64 Hfl) as [Hk1 Hk2]. pose proof (map_finds (pages st') page page _ Hok' Hu64 ltac:(lia) Hm Hfl) as Hfind.
      destruct (vmm_map_4k (pages st') page page (Z.lor VMM_NX VMM_GLOBAL)) as [p' ok]. cbn [fst snd] in *. assert (Ho' : only_pages st' (st' <| pages := p' |>)) by (split; try done; cbn; auto). destruct ok; cbn [negb].
      * left. eexists. split; [done |]. apply Hext; [done |]. by apply Hfind.
      * right. eexists. split; [done |]. split_and!; [done | by eapply only_trans |]. by apply (Hmissing None eq_refl).
  - mred. exists st', true. split_and!; [done | done | lia | lia |]. intros x Hx. apply Hr. lia.
  - mred. cbn [fst snd] in *. subst ok. exists st', false. split_and!; [done | done |]. tauto.
Qed.

Definition checks (a n : Z) : Prop := sum_at ram a (Z.to_nat n) mod 256 = 0.

Lemma only_ready st st' a n : only_pages st st' → pages_ok (pages st) → ready st a n → ready st' a n.
Proof. intros Ho Hok [Hi Hr]. split; [done |]. by eapply only_paged. Qed.

Lemma checksum_spec st ptr len : pages_ok (pages st) → is_u64 ptr → is_u64 len → len ≠ 0 →
  ∃ st' ok, checksum_ok ram st ptr len = Ret (st', ok) ∧ only_pages st st' ∧ if ok : bool then ready st' ptr len ∧ checks ptr len else ¬ (ready st ptr len ∧ checks ptr len).
Proof.
  intros Hok Hp Hl Hl0. unfold checksum_ok. destruct (Z.eqb_spec ptr 0) as [->|Hp0]; [exists st, false; split_and!; [done | apply only_refl |]; intros [[[? _] _] _]; lia |].
  destruct (accessible_spec st ptr len Hok Hp Hl Hl0) as (st' & ok & -> & Ho & Hres). mred. destruct ok; cbn [negb]; [| exists st', false; split_and!; [done | done |]; by intros [? _]].
  pose proof (paged_readable _ _ _ (proj2 Hres)) as Hr. assert (0 ≤ len) by apply Hl.
  match goal with |- context [for_n ?n ?i ?f ?t] => destruct (for_n_inv (λ j sum, sum = sum_at ram ptr (Z.to_nat j) mod 256) f n i t) as (sum & -> & ->) end.
  - done.
  - intros j sum Hj ->. rewrite (ld8_readable st' ptr len) by (done || lia). mred. eexists. split; [done |]. rewrite Z2Nat.inj_add, sum_at_snoc, Z2Nat.id by lia. unfold wrap. by rewrite Z.add_mod_idemp_l.
  - mred. eexists st', _. split; [done |]. split; [done |]. rewrite Z.add_0_l, Z2Nat.id by lia. unfold checks. destruct (Z.eqb_spec (sum_at ram ptr (Z.to_nat len) mod 256) 0); [done | tauto].
Qed.

(** ** The root pointer *)

Definition rsdp_length (p : Z) : Z := if ram (p + 15) <? 2 then SIZEOF_RSDP_V1 else num_at ram (p + 20) 4.

(** What the standard asks of a root pointer. *)
Record rsdp_valid (p : Z) : Prop := {
  rv_align : p mod 16 = 0;
  rv_sig : bytes_at ram p 8 = ACPI_RSDP_SIG;
  rv_sum : checks p SIZEOF_RSDP_V1;
  rv_long : 2 ≤ ram (p + 15) → SIZEOF_RSDP_V2 ≤ num_at ram (p + 20) 4 ≤ 4096 ∧ checks p (num_at ram (p + 20) 4);
}.

Lemma num32_range a : 0 ≤ num_at ram a 4 < 2 ^ 32.
Proof. apply (num_at_range ram Hram a 4). Qed.

Lemma ready_readable st a n : ready st a n → readable (pages st) a n.
Proof. intros [_ Hp]. by apply paged_readable. Qed.

Lemma ready_less st a n m : ready st a n → m ≤ n → ready st a m.
Proof. intros [[? ?] Hp] Hm. split; [split; lia |]. by eapply paged_sub; [exact Hp | lia | lia]. Qed.

(** The length of a pointer lies behind the first structure, but in its pages. *)
Lemma length_paged st p : ready st p 20 → p mod 16 = 0 → readable (pages st) p 24.
Proof.
  intros [[Hi _] Hp] Hm x Hx. apply Hp. unfold PAGE_SIZE. pose proof (Z.div_mod p 16 ltac:(lia)) as E. rewrite Hm in E. set (q := p / 16) in *. assert (Hq : p / 4096 = q / 256) by (rewrite E, Z.add_0_r; change 4096 with (16 * 256); by rewrite Z.div_mul_cancel_l by lia).
  pose proof (Z.div_mod q 256 ltac:(lia)). pose proof (Z.mod_pos_bound q 256 ltac:(lia)). split; [apply Z.div_le_mono; lia |].
  destruct (decide (q mod 256 = 255)) as [E1|E1].
  - replace ((p + 20 - 1) / 4096) with (q / 256 + 1) by (apply (Z.div_unique _ _ _ 3); lia). apply Z.lt_succ_r, Z.div_lt_upper_bound; lia.
  - etrans; [| apply Z.div_le_mono; [lia | instantiate (1 := p); lia]]. rewrite Hq. apply Z.lt_succ_r, Z.div_lt_upper_bound; lia.
Qed.

Lemma rsdp_candidate_spec st p : pages_ok (pages st) → is_u64 p → p mod 16 = 0 →
  ∃ st' ok, rsdp_candidate ram st p = Ret (st', ok) ∧ only_pages st st' ∧
    if ok : bool then rsdp_valid p ∧ ready st' p (rsdp_length p) else ¬ (rsdp_valid p ∧ ready st p 20 ∧ ready st p (rsdp_length p)).
Proof.
  intros Hok Hp Hal. unfold rsdp_candidate, SIZEOF_RSDP_V1. destruct (accessible_spec st p 20 Hok Hp ltac:(ulia) ltac:(lia)) as (st1 & ok1 & -> & Ho1 & H1). mred. destruct ok1; cbn [negb]; [| exists st1, false; split_and!; [done | done |]; by intros (_ & ? & _)].
  pose proof (op_ok _ _ Ho1 Hok) as Hok1. rewrite (ld_bytes_ok st1 p 20 p 8) by (by apply ready_readable || lia). mred. destruct (bool_decide_reflect (bytes_at ram p 8 = ACPI_RSDP_SIG)) as [Hsig|Hsig]; cbn [negb]; [| exists st1, false; split_and!; [done | done |]; by intros ([] & _)].
  destruct (checksum_spec st1 p 20 Hok1 Hp ltac:(ulia) ltac:(lia)) as (st2 & ok2 & -> & Ho2 & H2). mred. destruct ok2; cbn [negb]. 2: { exists st2, false. split_and!; [done | by eapply only_trans |]. intros ([] & ? & _). by apply H2. }
  destruct H2 as [Hr2 Hc2]. pose proof (only_trans _ _ _ Ho1 Ho2) as Ho12. pose proof (op_ok _ _ Ho12 Hok) as Hok2. rewrite (ld8_readable st2 p 20) by (by apply ready_readable || lia). mred. unfold rsdp_length, SIZEOF_RSDP_V1. destruct (Z.ltb_spec (ram (p + 15)) 2) as [Hrev|Hrev].
  { exists st2, true. split_and!; try done. split; [done | done | done | lia]. }
  rewrite (ld_readable st2 p 24) by (by apply length_paged || lia). mred. set (len := num_at ram (p + 20) 4) in *. pose proof (num32_range (p + 20)) as Hn. fold len in Hn. unfold SIZEOF_RSDP_V2.
  destruct (Z.ltb_spec len 36) as [?|Hl1]; cbn [orb]; [exists st2, false; split_and!; [done | done |]; intros ([_ _ _ Hlong] & _); specialize (Hlong Hrev); unfold SIZEOF_RSDP_V2 in *; fold len in Hlong; lia |].
  destruct (Z.ltb_spec 4096 len) as [?|Hl2]; [exists st2, false; split_and!; [done | done |]; intros ([_ _ _ Hlong] & _); specialize (Hlong Hrev); fold len in Hlong; lia |].
  destruct (accessible_spec st2 p len Hok2 Hp ltac:(ulia) ltac:(lia)) as (st3 & ok3 & -> & Ho3 & H3). mred. pose proof (only_trans _ _ _ Ho12 Ho3) as Ho123. destruct ok3; cbn [negb]; [| exists st3, false; split_and!; [done | done |]; intros (_ & _ & Hr); apply H3; by apply (only_ready st)].
  pose proof (op_ok _ _ Ho123 Hok) as Hok3. destruct (checksum_spec st3 p len Hok3 Hp ltac:(ulia) ltac:(lia)) as (st4 & ok4 & -> & Ho4 & H4). exists st4, ok4. split_and!; [done | by eapply only_trans |]. destruct ok4.
  - destruct H4 as [Hr4 Hc4]. split; [| done]. by split.
  - intros ([_ _ _ Hlong] & _ & Hr). apply H4. split; [by apply (only_ready st) |]. by apply Hlong.
Qed.

(** A pointer that the code must find: valid, in pages that are there already. *)
Definition rsdp_there st (p : Z) : Prop := rsdp_valid p ∧ ready st p 20 ∧ ready st p (rsdp_length p).

Lemma only_there st st' p : only_pages st st' → pages_ok (pages st) → rsdp_there st p → rsdp_there st' p.
Proof. intros Ho Hok (Hv & H1 & H2). split_and!; [done | by eapply only_ready..]. Qed.

(** What a search of the candidates [cand] returns. *)
Definition found_rsdp st st' (cand : Z → Prop) (r : Z) : Prop :=
  only_pages st st' ∧ if r =? 0 then ∀ p, cand p → ¬ rsdp_there st p else cand r ∧ rsdp_valid r ∧ ready st' r (rsdp_length r) ∧ ∀ p, cand p → p < r → ¬ rsdp_there st p.

Definition in_range (start e p : Z) : Prop := start ≤ p ∧ p + 20 ≤ e.

Lemma scan_rsdp_spec st start e : pages_ok (pages st) → 0 < start → start < e ≤ 2 ^ 32 → ∃ st' r, scan_rsdp_range ram st start e = Ret (st', r) ∧ found_rsdp st st' (in_range start e) r.
Proof.
  intros Hok Hs He. unfold scan_rsdp_range. bfalse (e <=? start). change 16 with (2 ^ 4) at 1. rewrite align_up_u64_checked_pow2 by (ulia || lia). change (2 ^ 4) with 16. unfold U64MAX. btrue (start + (16 - 1) <=? 18446744073709551615).
  set (q := (start + (16 - 1)) / 16). pose proof (Z.div_mod (start + (16 - 1)) 16 ltac:(lia)) as D1. pose proof (Z.mod_pos_bound (start + (16 - 1)) 16 ltac:(lia)) as D2. fold q in D1. pose proof (Z.div_mod e 16 ltac:(lia)) as D3. pose proof (Z.mod_pos_bound e 16 ltac:(lia)) as D4.
  match goal with |- context [loop_n ?n ?i ?body ?t] => destruct (loop_n_inv (λ j st', only_pages st st' ∧ (∀ p, in_range start e p → p < (q + j) * 16 → ¬ rsdp_there st p) ∧ (0 < j → (q + j - 1) * 16 + 20 ≤ e))
    (λ r, found_rsdp st r.1 (in_range start e) r.2) body n i t) as [(st' & -> & Ho & _ & Hlast)|([st' r] & -> & Hres)] end.
  - split_and!; [apply only_refl | | lia]. intros p [Hp _] Hlt [[Hm _ _ _] _]. pose proof (Z.div_mod p 16). lia.
  - intros j st' Hj (Ho & Hno & _). cbv zeta. set (p := q * 16 + j * 16). assert (Ep : p = (q + j) * 16) by (unfold p; lia). clearbody p. assert (Hend : e < p + 20 → found_rsdp st st' (in_range start e) 0).
    { intros Hlt. split; [done |]. cbn [Z.eqb]. intros p' Hp' Hth. apply (Hno p' Hp'); [| done]. destruct Hp'. lia. }
    unfold add_u64, SIZEOF_RSDP_V1, U64MAX. destruct (Z.leb_spec (p + 20) 18446744073709551615); [| right; eexists; split; [done |]; apply Hend; lia]. destruct (Z.ltb_spec e (p + 20)); [right; eexists; split; [done |]; by apply Hend |].
    pose proof (op_ok _ _ Ho Hok) as Hok'. destruct (rsdp_candidate_spec st' p Hok' ltac:(ulia) ltac:(rewrite Ep; by apply Z.mod_mul)) as (st'' & ok & -> & Ho' & Hres). mred. destruct ok.
    + right. eexists. split; [done |]. cbn [fst snd]. split; [by eapply only_trans |]. bfalse (p =? 0). split_and!; [split; lia | apply Hres.. |]. intros p' Hp' Hlt. apply Hno; [done | lia].
    + left. btrue (p + 16 <=? 18446744073709551615). eexists. split; [done |]. split_and!; [by eapply only_trans | | lia]. intros p' Hp' Hlt Hth. destruct (decide (p' < (q + j) * 16)) as [?|Hge]; [by apply (Hno p' Hp') |]. assert (p' = p) as ->. { destruct Hth as [[Hm _ _ _] _]. pose proof (Z.div_mod p' 16). lia. }
      apply Hres. by apply (only_there st).
  - exfalso. specialize (Hlast ltac:(lia)). rewrite Z2Nat.id in Hlast by (pose proof (Z.div_pos e 16); lia). lia.
  - mred. by exists st', r.
Qed.

Lemma validate_spec st addr : pages_ok (pages st) → is_u64 addr → ∃ st' r, validate_rsdp_at ram st addr = Ret (st', r) ∧ found_rsdp st st' (λ p, p = addr ∧ p ≠ 0) r.
Proof.
  intros Hok Ha. unfold validate_rsdp_at. destruct (Z.eqb_spec addr 0) as [->|H0]; cbn [orb]; [exists st, 0; split; [done |]; split; [apply only_refl |]; cbn; tauto |].
  assert (El : Z.land addr 0xf = addr mod 16) by (change 0xf with (Z.ones 4); by rewrite Z.land_ones). rewrite El. destruct (Z.eqb_spec (addr mod 16) 0) as [Hm|Hm]; cbn [negb].
  - destruct (rsdp_candidate_spec st addr Hok Ha Hm) as (st' & ok & -> & Ho & Hres). mred. eexists st', _. split; [done |]. split; [done |]. destruct ok; [bfalse (addr =? 0) | cbn [Z.eqb]; by intros p [-> _]]. split_and!; [done | done | apply Hres.. |]. intros p [-> _]. lia.
  - exists st, 0. split; [done |]. split; [apply only_refl |]. cbn [Z.eqb]. by intros p [-> _] [[] _].
Qed.

Lemma only_readable st st' a n : only_pages st st' → pages_ok (pages st) → 0 ≤ a → a + n ≤ 2 ^ 64 → readable (pages st) a n → readable (pages st') a n.
Proof. intros Ho Hok H1 H2 Hr x Hx. destruct (Hr x Hx) as [f Hf]. exists f. apply (op_keeps _ _ Ho); [done | ulia | done]. Qed.

(** Where the firmware may have put the pointer: where the boot loader says, in the
    first kilobyte of the extended area of the BIOS, in the memory of the BIOS. *)
Definition ebda : Z := num_at ram 0x40e 2 * 16.

Definition rsdp_place (boot p : Z) : Prop := (p = boot ∧ p ≠ 0) ∨ (0x80000 ≤ ebda < 0xa0000 ∧ in_range ebda (ebda + 1024) p) ∨ in_range 0xe0000 0x100000 p.

Lemma find_rsdp_spec st boot : pages_ok (pages st) → is_u64 boot → readable (pages st) 0x40e 2 → ∃ st' r, find_rsdp ram st boot = Ret (st', r) ∧ only_pages st st' ∧
  if r =? 0 then ∀ p, rsdp_place boot p → ¬ rsdp_there st p else rsdp_place boot r ∧ rsdp_valid r ∧ ready st' r (rsdp_length r).
Proof.
  intros Hok Hb Hlow. unfold find_rsdp. assert (H1 : ∃ st1 r1, (if negb (boot =? 0) then validate_rsdp_at ram st boot else Ret (st, 0)) = Ret (st1, r1) ∧ found_rsdp st st1 (λ p, p = boot ∧ p ≠ 0) r1).
  { destruct (Z.eqb_spec boot 0) as [->|]; cbn [negb]; [| by apply validate_spec]. exists st, 0. split; [done |]. split; [apply only_refl |]. cbn. tauto. }
  destruct H1 as (st1 & r1 & -> & Ho1 & H1). mred. destruct (Z.eqb_spec r1 0) as [->|Hr1]; cbn [negb]; [| exists st1, r1; bfalse (r1 =? 0); split_and!; [done | done | left |..]; tauto]. cbn [Z.eqb] in H1.
  pose proof (op_ok _ _ Ho1 Hok) as Hok1. rewrite (ld_readable st1 0x40e 2) by (lia || (eapply only_readable; [exact Ho1 | done | lia | lia | done])). mred. rewrite Z.shiftl_mul_pow2 by lia. change (num_at ram 0x40e 2 * 2 ^ 4) with ebda.
  assert (H2 : ∃ st2 r2, (if (0x80000 <=? ebda) && (ebda <? 0xa0000) then scan_rsdp_range ram st1 ebda (ebda + 1024) else Ret (st1, 0)) = Ret (st2, r2) ∧ found_rsdp st1 st2 (λ p, 0x80000 ≤ ebda < 0xa0000 ∧ in_range ebda (ebda + 1024) p) r2).
  { destruct (Z.leb_spec 0x80000 ebda); cbn [andb]; [destruct (Z.ltb_spec ebda 0xa0000) |].
    - destruct (scan_rsdp_spec st1 ebda (ebda + 1024) Hok1 ltac:(lia) ltac:(lia)) as (st2 & r2 & -> & Ho2 & H2). exists st2, r2. split; [done |]. split; [done |]. destruct (r2 =? 0); [intros p [_ ?]; auto |]. destruct H2 as (? & ? & ? & ?). split_and!; [lia | lia | done.. |]. intros p [_ ?]. auto.
    - exists st1, 0. split; [done |]. split; [apply only_refl |]. cbn [Z.eqb]. lia.
    - exists st1, 0. split; [done |]. split; [apply only_refl |]. cbn [Z.eqb]. lia. }
  destruct H2 as (st2 & r2 & -> & Ho2 & H2). mred. pose proof (only_trans _ _ _ Ho1 Ho2) as Ho12. destruct (Z.eqb_spec r2 0) as [->|Hr2]; cbn [negb]; [| exists st2, r2; bfalse (r2 =? 0); split_and!; [done | done | right; left |..]; tauto]. cbn [Z.eqb] in H2.
  destruct (scan_rsdp_spec st2 0xe0000 0x100000 (op_ok _ _ Ho12 Hok) ltac:(lia) ltac:(lia)) as (st3 & r3 & -> & Ho3 & H3). exists st3, r3. split; [done |]. split; [by eapply only_trans |]. destruct (r3 =? 0).
  - intros p [Hp|[Hp|Hp]] Hth; [by apply (H1 p) | apply (H2 p Hp) | apply (H3 p Hp)]; by eapply only_there.
  - destruct H3 as (? & ? & ? & _). split_and!; [by right; right | done..].
Qed.

(** ** Description tables *)

Definition sdt_length (a : Z) : Z := num_at ram (a + 4) 4.

(** What the standard asks of a table, of at most a megabyte. *)
Definition sdt_valid (a : Z) : Prop := SIZEOF_SDT ≤ sdt_length a ≤ 1024 * 1024 ∧ checks a (sdt_length a).

Definition sdt_there st (a : Z) : Prop := sdt_valid a ∧ ready st a (sdt_length a).

Lemma only_sdt st st' a : only_pages st st' → pages_ok (pages st) → sdt_there st a → sdt_there st' a.
Proof. intros Ho Hok [Hv Hr]. split; [done |]. by eapply only_ready. Qed.

Lemma sdt_readable st a n : sdt_there st a → n ≤ sdt_length a → readable (pages st) a n.
Proof. intros [_ Hr] Hn. eapply ready_readable, ready_less; done. Qed.

Lemma valid_sdt_spec st h : pages_ok (pages st) → is_u64 h → ∃ st' ok, valid_sdt ram st h = Ret (st', ok) ∧ only_pages st st' ∧ if ok : bool then sdt_there st' h else ¬ sdt_there st h.
Proof.
  intros Hok Hh. unfold valid_sdt. assert (Hn := num32_range (h + 4)). fold (sdt_length h) in Hn. destruct (Z.eqb_spec h 0) as [->|Hh0]; [exists st, false; split_and!; [done | apply only_refl |]; intros [_ [[? _] _]]; lia |].
  destruct (accessible_spec st h SIZEOF_SDT Hok Hh ltac:(unfold SIZEOF_SDT; ulia) ltac:(done)) as (st1 & ok1 & -> & Ho1 & H1). mred. destruct ok1; cbn [negb]; [| exists st1, false; split_and!; [done | done |]; intros [[[? _] _] ?]; apply H1; by eapply ready_less].
  pose proof (op_ok _ _ Ho1 Hok) as Hok1. rewrite (ld_readable st1 h SIZEOF_SDT) by (by apply ready_readable || (unfold SIZEOF_SDT; lia)). mred. fold (sdt_length h). unfold sdt_there, sdt_valid, SIZEOF_SDT in *.
  destruct (Z.ltb_spec (sdt_length h) 36); cbn [orb]; [exists st1, false; split_and!; [done | done | lia] |]. destruct (Z.ltb_spec (1024 * 1024) (sdt_length h)); [exists st1, false; split_and!; [done | done | lia] |].
  destruct (accessible_spec st1 h (sdt_length h) Hok1 Hh ltac:(ulia) ltac:(lia)) as (st2 & ok2 & -> & Ho2 & H2). mred. pose proof (only_trans _ _ _ Ho1 Ho2) as Ho12. destruct ok2; cbn [negb]; [| exists st2, false; split_and!; [done | done |]; intros [_ ?]; apply H2; by eapply only_ready].
  destruct (checksum_spec st2 h (sdt_length h) (op_ok _ _ Ho12 Hok) Hh ltac:(ulia) ltac:(lia)) as (st3 & ok3 & -> & Ho3 & H3). exists st3, ok3. split_and!; [done | by eapply only_trans |]. destruct ok3; [destruct H3; split_and!; (done || lia) |].
  intros [[_ ?] ?]. apply H3. split; [by eapply only_ready | done].
Qed.

(** ** The list of tables *)

Definition with_pages st (p : P) : acpi_state P := st <| pages := p |>.

(** The page tables of [st'] translate what those of [st] do. *)
Definition grows st st' : Prop := only_pages st (with_pages st (pages st')).

Lemma only_grows st st' : only_pages st st' → grows st st'.
Proof. intros []. by split. Qed.

Lemma grow_same st st' : pages st' = pages st → grows st st'.
Proof. intros E. unfold grows. rewrite E. by split. Qed.

Lemma grow_chain st1 st2 st3 : grows st1 st2 → grows st2 st3 → grows st1 st3.
Proof. intros [_ _ _ _ A5 A6] [_ _ _ _ B5 B6]. cbn in *. split; try done; cbn; auto. Qed.

Lemma grows_to st st1 st2 : grows st st1 → pages st2 = pages st1 → grows st st2.
Proof. intros Hg E. unfold grows. by rewrite E. Qed.

Lemma grows_ok st st' : grows st st' → pages_ok (pages st) → pages_ok (pages st').
Proof. intros [_ _ _ _ H _]. exact H. Qed.

Lemma grows_ready st st' a n : grows st st' → pages_ok (pages st) → ready st a n → ready st' a n.
Proof. intros Hg Hok Hr. exact (only_ready _ _ a n Hg Hok Hr). Qed.

Lemma grows_sdt st st' a : grows st st' → pages_ok (pages st) → sdt_there st a → sdt_there st' a.
Proof. intros Hg Hok Hs. exact (only_sdt _ _ a Hg Hok Hs). Qed.

(** The tables recorded are [L]. *)
Definition tables_are st (L : list Z) : Prop := vec ACPI_MAX_TABLES (acpi_tables st) (acpi_table_count st) L.

Lemma add_table_spec st h L : pages_ok (pages st) → is_u64 h → tables_are st L → ∃ st' L', add_table ram st h = Ret st' ∧ grows st st' ∧ acpi_info st' = acpi_info st ∧ calls st' = calls st ∧ tables_are st' L' ∧
  (L' = L ∧ (zlen L = ACPI_MAX_TABLES ∨ ¬ sdt_there st h) ∨ L' = L ++ [h] ∧ sdt_there st' h).
Proof.
  intros Hok Hh HT. unfold add_table. destruct (valid_sdt_spec st h Hok Hh) as (st' & ok & -> & Ho & Hres). mred. pose proof (only_grows _ _ Ho) as Hg. destruct Ho as [O1 O2 O3 O4 _ _].
  assert (T' : tables_are st' L) by (unfold tables_are; by rewrite O2, O3). destruct ok; cbn [negb orb]; [| by exists st', L; split_and!; eauto]. pose proof (vec_count _ _ _ _ T') as [Hc1 Hc2]. destruct (Z.leb_spec ACPI_MAX_TABLES (acpi_table_count st')) as [Hf|Hf]; [exists st', L; split_and!; try done; left; split; [done | left; lia] |].
  destruct (vec_push _ _ _ _ h T' Hf) as (l & -> & HT'). mred. eexists _, (L ++ [h]). split; [done |]. split_and!; [done.. | by right].
Qed.

(** The addresses that the table at [root] lists. *)
Definition root_entries (root : Z) (width : nat) : list Z :=
  (λ k, num_at ram (root + SIZEOF_SDT + Z.of_nat k * Z.of_nat width) width) <$> seq 0 (Z.to_nat ((sdt_length root - SIZEOF_SDT) / Z.of_nat width)).

(** The tables [L], taken in order from the addresses [E]: every one is valid, and every
    valid one is among them when there is room. *)
Record chosen st st' (E L : list Z) : Prop := {
  ch_from : L `sublist_of` E;
  ch_valid : Forall (sdt_there st') L;
  ch_all : zlen L = ACPI_MAX_TABLES ∨ ∀ a, a ∈ E → sdt_there st a → a ∈ L;
}.

Lemma chosen_step st st1 st2 E L a L' : pages_ok (pages st) → grows st st1 → grows st1 st2 → chosen st st1 E L → (L' = L ∧ (zlen L = ACPI_MAX_TABLES ∨ ¬ sdt_there st1 a) ∨ L' = L ++ [a] ∧ sdt_there st2 a) → tables_are st2 L' → chosen st st2 (E ++ [a]) L'.
Proof.
  intros Hok Hg1 Hg2 [C1 C2 C3] Hor [Hlen1 Hlen2]%vec_count. pose proof (grows_ok _ _ Hg1 Hok) as Hok1. assert (C2' : Forall (sdt_there st2) L) by (eapply Forall_impl; [exact C2 |]; intros x; by apply grows_sdt).
  destruct Hor as [[-> Hor]|[-> Hs]].
  - split; [by apply sublist_inserts_r | done |]. destruct Hor as [?|Hn]; [by left |]. destruct C3 as [?|C3]; [by left | right]. intros x [Hx|Hx%list_elem_of_singleton]%elem_of_app Hst; [by apply C3 |]. subst x. exfalso. apply Hn. by eapply grows_sdt.
  - split; [by apply sublist_app | apply Forall_app; by rewrite Forall_singleton |]. rewrite zlen_app, zlen_1 in Hlen1. destruct C3 as [?|C3]; [lia | right]. intros x [Hx|Hx]%elem_of_app Hst; apply elem_of_app; [left; by apply C3 | by right].
Qed.

Lemma add_entries_spec st root width : pages_ok (pages st) → (width = 4 ∨ width = 8)%nat → sdt_there st root → tables_are st [] →
  ∃ st' L, add_entries ram st root width ((sdt_length root - SIZEOF_SDT) / Z.of_nat width) = Ret st' ∧ grows st st' ∧ acpi_info st' = acpi_info st ∧ calls st' = calls st ∧ tables_are st' L ∧ chosen st st' (root_entries root width) L.
Proof.
  intros Hok Hw Hroot HT. unfold add_entries, root_entries. set (n := Z.to_nat _). set (E := λ k, num_at ram (root + SIZEOF_SDT + Z.of_nat k * Z.of_nat width) width).
  match goal with |- context [for_n ?n ?i ?f ?t] => destruct (for_n_inv (λ j st', ∃ L, grows st st' ∧ acpi_info st' = acpi_info st ∧ calls st' = calls st ∧ tables_are st' L ∧ chosen st st' (E <$> seq 0 (Z.to_nat j)) L) f n i t) as (st' & -> & L & Hres) end.
  - exists []. split_and!; [by apply grow_same | done.. |]. split; [apply sublist_nil_l | done |]. right. intros a Ha. by apply elem_of_nil in Ha.
  - intros j st' Hj (L & Hg & Hi & Hc & HT' & Hch). pose proof (grows_ok _ _ Hg Hok) as Hok'. pose proof (grows_sdt _ _ _ Hg Hok Hroot) as Hroot'. assert (Hlen : SIZEOF_SDT ≤ sdt_length root) by apply Hroot. unfold SIZEOF_SDT in *.
    assert (Hle : 36 + (j + 1) * Z.of_nat width ≤ sdt_length root). { pose proof (Z.div_mod (sdt_length root - 36) (Z.of_nat width) ltac:(lia)). pose proof (Z.mod_pos_bound (sdt_length root - 36) (Z.of_nat width) ltac:(lia)). subst n. nia. }
    rewrite (ld_readable st' root (sdt_length root)) by (try (by apply sdt_readable); nia). mred. replace (Z.to_nat (j + 1)) with (Z.to_nat j + 1)%nat by lia. rewrite seq_app, fmap_app. cbn [Nat.add seq fmap list_fmap].
    assert (Ea : E (Z.to_nat j) = num_at ram (root + 36 + j * Z.of_nat width) width) by (unfold E; by rewrite Z2Nat.id by lia). rewrite <- Ea. set (a := E (Z.to_nat j)) in *. pose proof (num_at_range ram Hram (root + 36 + j * Z.of_nat width) width) as Hr. rewrite <- Ea in Hr.
    assert (Ha : is_u64 a) by (destruct Hw; subst width; ulia). clearbody a. destruct (Z.eqb_spec a 0) as [->|Ha0].
    + exists st'. split; [done |]. exists L. split_and!; [done.. |]. apply (chosen_step st st' st' _ L); [done | done | by apply grow_same | done | | done]. left. split; [done | right]. intros [_ [[? _] _]]. lia.
    + destruct (add_table_spec st' a L Hok' Ha HT') as (st'' & L' & -> & Hg' & Hi' & Hc' & HT'' & Hor). exists st''. split; [done |]. exists L'. split_and!; [by eapply grow_chain | congruence | congruence | done |]. by apply (chosen_step st st' st'' _ L).
  - exists st', L. split; [done |]. by rewrite Z.add_0_l, Nat2Z.id in Hres.
Qed.

Lemma chosen_before st st1 st2 E L : grows st st1 → pages_ok (pages st) → chosen st1 st2 E L → chosen st st2 E L.
Proof. intros Hg Hok [C1 C2 [C3|C3]]; (split; [done | done |]); [by left | right]. intros a Ha Hs. apply C3; [done |]. by eapply grows_sdt. Qed.

(** What following the root table [root] leads to: nothing if it is not valid, and else the
    tables [L] it lists. *)
Definition root_followed st st' (root : Z) (x : bool) (L : list Z) : Prop :=
  (¬ sdt_there st root ∧ L = [] ∧ acpi_info st' = acpi_info st) ∨
  (sdt_there st' root ∧ chosen st st' (root_entries root (if x then 8 else 4)) L ∧ acpi_info st' = (acpi_info st) <| root_table := root |> <| xsdt := x |> <| table_count := zlen L |>).

Lemma parse_root_table_spec st root x : pages_ok (pages st) → is_u64 root → tables_are st [] → ∃ st' L, parse_root_table ram st root x = Ret st' ∧ grows st st' ∧ calls st' = calls st ∧ tables_are st' L ∧ root_followed st st' root x L.
Proof.
  intros Hok Hroot HT. unfold parse_root_table. destruct (valid_sdt_spec st root Hok Hroot) as (st1 & ok & -> & Ho & Hres). mred. pose proof (only_grows _ _ Ho) as Hg. destruct Ho as [O1 O2 O3 O4 _ _].
  assert (HT1 : tables_are st1 []) by (unfold tables_are; by rewrite O2, O3). destruct ok; cbn [negb]; [| by exists st1, []; split_and!; eauto; left]. assert (Hlen : SIZEOF_SDT ≤ sdt_length root) by apply Hres.
  set (st2 := set_info st1 _). assert (Hg2 : grows st st2) by done. pose proof (grows_ok _ _ Hg2 Hok) as Hok2. assert (Hroot2 : sdt_there st2 root) by done. rewrite (ld_readable st2 root (sdt_length root)) by (try (by apply sdt_readable); unfold SIZEOF_SDT in *; lia). mred. fold (sdt_length root). bfalse (sdt_length root <? SIZEOF_SDT). rewrite andb_false_r.
  assert (H3 : ∃ st3 L, (if x then add_entries ram st2 root 8 ((sdt_length root - SIZEOF_SDT) / 8) else add_entries ram st2 root 4 ((sdt_length root - SIZEOF_SDT) / 4)) = Ret st3 ∧ grows st2 st3 ∧ acpi_info st3 = acpi_info st2 ∧ calls st3 = calls st2 ∧ tables_are st3 L ∧ chosen st2 st3 (root_entries root (if x then 8 else 4)) L)
    by (destruct x; [apply (add_entries_spec st2 root 8) | apply (add_entries_spec st2 root 4)]; auto).
  destruct H3 as (st3 & L & -> & Hg3 & Hi3 & Hc3 & HT3 & Hch). mred. eexists _, L. split; [done |]. pose proof (vec_count _ _ _ _ HT3) as [_ Hcnt]. split_and!; [by apply (grow_chain _ st2) | cbn; by rewrite Hc3, <- O4 | done |]. right. split_and!.
  - by apply (grows_sdt st2 st3).
  - apply (chosen_before _ st2); [done | done |]. destruct Hch. by split.
  - cbn. rewrite Hi3, Hcnt. unfold st2. cbn. by rewrite O1.
Qed.

(** ** Looking for a table *)

Definition table_of (L : list Z) (sig : list Z) : option Z := snd <$> list_find (λ h, bytes_at ram h 4 = sig) L.

Lemma find_table_spec st L sig : tables_are st L → Forall (sdt_there st) L → acpi_find_table ram st sig = Ret (default 0 (table_of L sig)).
Proof.
  intros HT Hall. unfold acpi_find_table, table_of. rewrite (vec_find _ _ (acpi_table_count st) L (λ h, bytes_at ram h 4 = sig) (λ _ h, h) _ HT); [by mred; destruct (list_find _ L) as [[? ?]|] |].
  intros k h Hk. rewrite (vec_rd _ _ _ _ _ _ HT Hk). mred. pose proof (Forall_lookup_1 _ _ _ _ Hall Hk) as Hh. assert (SIZEOF_SDT ≤ sdt_length h) by apply Hh. unfold SIZEOF_SDT in *. by rewrite (ld_bytes_ok st h (sdt_length h)) by (try (by apply sdt_readable); lia).
Qed.

Lemma table_of_there st L sig h : Forall (sdt_there st) L → table_of L sig = Some h → sdt_there st h ∧ h ∈ L.
Proof. unfold table_of. intros Hall ([k h'] & (Hk & _)%list_find_Some & ->)%fmap_Some. cbn. split; [by eapply Forall_lookup_1 | by eapply list_elem_of_lookup_2]. Qed.

(** ** The table of interrupt controllers *)

Lemma describes_cpu i p id apic flags x2 : describes i p →
  ∃ i', acpi_record_madt_cpu i id apic flags x2 = Ret i' ∧ describes i' (apply_item p (Processor id apic flags x2)) ∧ discovery i' = discovery i.
Proof.
  intros [D1 D2 D3 D4 D5]. destruct (record_cpu_spec i (p_cpus p) id apic flags x2 D2) as (i' & -> & Hc & E). exists i'. split; [done |]. split; [| by rewrite E]. split; cbn.
  - by rewrite E.
  - done.
  - by apply add_cpu_differ.
  - by rewrite E.
  - by rewrite E.
Qed.

(** The fields of an entry whose length suffices, in the code and in the specification. *)
Ltac fields_at E :=
  apply andb_prop in E as [_ E%Z.leb_le]; rewrite ?field_at by lia; rewrite ?num_at_1; change (Z.of_nat 2) with 2; change (Z.of_nat 3) with 3; change (Z.of_nat 4) with 4; change (Z.of_nat 8) with 8; change (Z.of_nat 12) with 12;
  repeat match goal with H : ∀ o, _ → ld8 _ _ _ = _ |- _ => rewrite H by lia; mred | H : ∀ k o, _ → _ → ld _ _ _ _ = _ |- _ => rewrite H by lia; mred end.

Lemma madt_entry_spec st p len pf : readable (pages st) p len → 2 ≤ len → describes (acpi_info st) pf →
  ∃ i, madt_entry ram st p (ram p) len = Ret (set_info st i) ∧ describes i (apply_item pf (decode (bytes_at ram p (Z.to_nat len)))) ∧ discovery i = discovery (acpi_info st).
Proof.
  intros Hr Hlen HD. set (i0 := acpi_info st) in *. unfold madt_entry, decode. fold i0. assert (El : zlen (bytes_at ram p (Z.to_nat len)) = len) by (unfold zlen; rewrite bytes_at_length; lia). rewrite El, (field_at ram p len 0 1), num_at_1, Z.add_0_r by lia.
  assert (Hst : ∃ i, Ret st = Ret (set_info st i) ∧ describes i pf ∧ discovery i = discovery i0) by (exists i0; split; [by destruct st | done]).
  assert (Hld8 : ∀ o, 0 ≤ o < len → ld8 ram st (p + o) = Ret (ram (p + o))) by (intros o Ho; apply (ld8_readable st p len); [done | lia]). assert (Hld : ∀ k o, 0 ≤ o → o + Z.of_nat k ≤ len → ld ram k st (p + o) = Ret (num_at ram (p + o) k)) by (intros k o ? ?; apply (ld_readable st p len); [done | lia | lia]).
  destruct HD as [D1 D2 D3 D4 D5] eqn:ED; clear ED.
  destruct ((ram p =? 0) && (8 <=? len)) eqn:E0; [| destruct ((ram p =? 1) && (12 <=? len)) eqn:E1; [| destruct ((ram p =? 2) && (10 <=? len)) eqn:E2; [| destruct ((ram p =? 5) && (12 <=? len)) eqn:E5; [| destruct ((ram p =? 9) && (16 <=? len)) eqn:E9; [| done]]]]].
  - fields_at E0. destruct (describes_cpu i0 pf (ram (p + 2)) (ram (p + 3)) (num_at ram (p + 4) 4) false HD) as (i & -> & ? & ?). mred. by exists i.
  - fields_at E1. cbn [apply_item]. pose proof (vec_count _ _ _ _ D4) as [_ Hc]. rewrite Hc. destruct (Z.ltb_spec (zlen (p_ioapics pf)) ACPI_MAX_IOAPICS); [| done].
    mred. destruct (vec_push _ _ _ _ (mk_ioapic (ram (p + 2)) (num_at ram (p + 4) 4) (num_at ram (p + 8) 4)) D4 ltac:(lia)) as (b & Hw & Hv). rewrite <- Hc, Hw. mred. eexists. split; [done |]. split; [by split | done].
  - fields_at E2. cbn [apply_item]. pose proof (vec_count _ _ _ _ D5) as [_ Hc]. rewrite Hc. destruct (Z.ltb_spec (zlen (p_isos pf)) ACPI_MAX_ISO); [| done].
    mred. destruct (vec_push _ _ _ _ (mk_iso (ram (p + 2)) (ram (p + 3)) (num_at ram (p + 4) 4) (num_at ram (p + 8) 2)) D5 ltac:(lia)) as (b & Hw & Hv). rewrite <- Hc, Hw. mred. eexists. split; [done |]. split; [by split | done].
  - fields_at E5. cbn [apply_item]. destruct (num_at ram (p + 4) 8 <=? U32MAX); [| done]. eexists. split; [done |]. split; [by split | done].
  - fields_at E9. destruct (describes_cpu i0 pf (num_at ram (p + 12) 4) (num_at ram (p + 4) 4) (num_at ram (p + 8) 4) true HD) as (i & -> & ? & ?). mred. by exists i.
Qed.

Lemma madt_items_short n bs : (length bs < 2)%nat → madt_items n bs = [].
Proof. destruct n, bs as [|x [|y bs]]; cbn; try done. lia. Qed.

Definition items_at (f : nat) (p e : Z) : list madt_item := madt_items f (bytes_at ram p (Z.to_nat (e - p))).

Lemma items_at_cons f p e (len := ram (p + 1)) : 2 ≤ e - p → items_at (S f) p e = if (len <? 2) || (e - p <? len) then [] else decode (bytes_at ram p (Z.to_nat len)) :: items_at f (p + len) e.
Proof.
  intros H2. unfold items_at. assert (Eb : bytes_at ram p (Z.to_nat (e - p)) = ram p :: len :: bytes_at ram (p + 2) (Z.to_nat (e - p) - 2)). { replace (Z.to_nat (e - p)) with (S (S (Z.to_nat (e - p) - 2))) at 1 by lia. rewrite !bytes_at_S. by rewrite <- Z.add_assoc. }
  assert (Ez : zlen (bytes_at ram p (Z.to_nat (e - p))) = e - p) by (unfold zlen; rewrite bytes_at_length; lia). rewrite Eb at 1. cbn [madt_items]. rewrite <- Eb, Ez. destruct (Z.ltb_spec len 2); cbn [orb]; [done |]. destruct (Z.ltb_spec (e - p) len); [done |].
  rewrite bytes_at_take, bytes_at_drop by lia. rewrite Z2Nat.id by lia. by replace (Z.to_nat (e - p) - Z.to_nat len)%nat with (Z.to_nat (e - (p + len))) by lia.
Qed.

Lemma madt_step_spec e p st pf f : 0 < p ≤ e → readable (pages st) p (e - p) → describes (acpi_info st) pf → (Z.to_nat (e - p) ≤ f)%nat →
  madt_step ram e (p, st) = Ret (Done st) ∧ items_at f p e = [] ∨
  ∃ len i it f', madt_step ram e (p, st) = Ret (Next (p + len, set_info st i)) ∧ 2 ≤ len ≤ e - p ∧ f = S f' ∧ items_at f p e = it :: items_at f' (p + len) e ∧ describes i (apply_item pf it) ∧ discovery i = discovery (acpi_info st).
Proof.
  intros Hp Hr HD Hf. unfold madt_step, acpi_span_has. bfalse (p =? 0). bfalse (e =? 0). btrue (p <=? e). cbn [negb andb]. destruct (Z.leb_spec 2 (e - p)) as [H2|H2]; cbn [negb]; [| left; split; [done |]; apply madt_items_short; rewrite bytes_at_length; lia].
  rewrite !(ld8_readable st p (e - p)) by (done || lia). mred. destruct f as [|f]; [lia |]. rewrite items_at_cons by done. set (len := ram (p + 1)).
  destruct (Z.ltb_spec len 2) as [Hl|Hl]; cbn [orb]; [by left |]. destruct (Z.leb_spec len (e - p)) as [Hl2|Hl2]; cbn [negb]; [| by left; btrue (e - p <? len)]. bfalse (e - p <? len).
  destruct (madt_entry_spec st p len pf) as (i & -> & HD' & Hdis); [eapply readable_sub; [done | lia | lia] | done | done |]. mred. right. by exists len, i, (decode (bytes_at ram p (Z.to_nat len))), f.
Qed.

Lemma madt_loop_spec e n k p st pf f : 0 < p ≤ e → readable (pages st) p (e - p) → describes (acpi_info st) pf → e - p < Z.of_nat n → (Z.to_nat (e - p) ≤ f)%nat →
  ∃ i, loop_n n k (λ _, madt_step ram e) (p, st) = Ret (Done (set_info st i)) ∧ describes i (foldl apply_item pf (items_at f p e)) ∧ discovery i = discovery (acpi_info st).
Proof.
  revert k p st pf f. induction n as [|n IH]; intros k p st pf f Hp Hr HD Hn Hf; [lia |]. cbn [loop_n]. destruct (madt_step_spec e p st pf f Hp Hr HD Hf) as [[-> ->]|(len & i & it & f' & -> & Hl & -> & -> & HD' & Hdis)]; mred.
  - exists (acpi_info st). by destruct st.
  - destruct (IH (k + 1) (p + len) (set_info st i) _ f' ltac:(lia) ltac:(eapply readable_sub; [exact Hr | lia | lia]) HD' ltac:(lia) ltac:(lia)) as (i' & -> & HD'' & Hdis'). exists i'. split_and!; [done | done |]. etrans; [exact Hdis' | exact Hdis].
Qed.

(** The table of interrupt controllers, if there is one and it is long enough. *)
Definition madt_of (L : list Z) : option Z := m ← table_of L (bytes_of "APIC"); if SIZEOF_MADT <=? sdt_length m then Some m else None.

Definition no_platform : platform := mk_platform 0 [] [] [].

(** What the table at [m] tells. *)
Definition platform_at (m : Z) : platform :=
  foldl apply_item (no_platform <| p_lapic := num_at ram (m + 36) 4 |>) (items_at (Z.to_nat (sdt_length m)) (m + SIZEOF_MADT) (m + sdt_length m)).

Lemma parse_madt_spec st L : tables_are st L → Forall (sdt_there st) L → describes (acpi_info st) no_platform →
  ∃ i, parse_madt ram st = Ret (set_info st i) ∧
    match madt_of L with Some m => describes i (platform_at m) ∧ discovery i = discovery ((acpi_info st) <| madt_found := true |>) | None => i = acpi_info st end.
Proof.
  intros HT Hall HD. unfold parse_madt. rewrite (find_table_spec st L _ HT Hall). mred. unfold madt_of. assert (Est : set_info st (acpi_info st) = st) by by destruct st. destruct (table_of L (bytes_of "APIC")) as [m|] eqn:Em; cbn [from_option mbind option_bind]; unfold id; [| exists (acpi_info st); by rewrite Est].
  apply (table_of_there st) in Em as [Hm _]; [| done]. assert (Hm0 : 0x400 ≤ m) by apply Hm. assert (Hlen : SIZEOF_SDT ≤ sdt_length m) by apply Hm. pose proof (num32_range (m + 4)) as Hn. fold (sdt_length m) in Hn. bfalse (m =? 0). unfold SIZEOF_SDT, SIZEOF_MADT in *.
  pose proof (sdt_readable st m (sdt_length m) Hm ltac:(lia)) as Hr. rewrite (ld_readable st m (sdt_length m) (m + 4)) by (done || lia). mred. fold (sdt_length m). destruct (Z.leb_spec 44 (sdt_length m)) as [Hl|Hl]; [bfalse (sdt_length m <? 44) | btrue (sdt_length m <? 44); exists (acpi_info st); by rewrite Est].
  rewrite (ld_readable st m (sdt_length m) (m + 36)) by (done || lia). mred. set (i1 := (acpi_info st) <| madt_found := true |> <| lapic_address := _ |>).
  destruct (madt_loop_spec (m + sdt_length m) (Z.to_nat (sdt_length m)) 0 (m + 44) (set_info st i1) (no_platform <| p_lapic := num_at ram (m + 36) 4 |>) (Z.to_nat (sdt_length m))) as (i & -> & HD' & Hdis); [lia | | | lia | lia |].
  - eapply readable_sub; [exact Hr | lia | lia].
  - destruct HD as [_ D2 D3 D4 D5]. by split.
  - mred. exists i. split_and!; [done | done |]. by rewrite Hdis.
Qed.

(** ** The timer *)

(** The address and the shortest period of the timer. *)
Definition hpet_of (L : list Z) : option (Z * Z) :=
  h ← table_of L (bytes_of "HPET");
  if (SIZEOF_HPET <=? sdt_length h) && (ram (h + 40) =? 0) && negb (num_at ram (h + 44) 8 =? 0) then Some (num_at ram (h + 44) 8, num_at ram (h + 53) 2) else None.

Lemma parse_hpet_spec st L : tables_are st L → Forall (sdt_there st) L →
  parse_hpet ram st = Ret (match hpet_of L with Some (a, t) => set_info st ((acpi_info st) <| hpet_found := true |> <| hpet_address := a |> <| hpet_min_tick := t |>) | None => st end).
Proof.
  intros HT Hall. unfold parse_hpet, hpet_of. rewrite (find_table_spec st L _ HT Hall). mred. destruct (table_of L (bytes_of "HPET")) as [h|] eqn:Eh; cbn [from_option mbind option_bind]; unfold id; [| done].
  apply (table_of_there st) in Eh as [Hh _]; [| done]. assert (Hh0 : 0x400 ≤ h) by apply Hh. assert (Hlen : SIZEOF_SDT ≤ sdt_length h) by apply Hh. bfalse (h =? 0). unfold SIZEOF_SDT, SIZEOF_HPET in *. pose proof (sdt_readable st h (sdt_length h) Hh ltac:(lia)) as Hr.
  rewrite (ld_readable st h (sdt_length h) (h + 4)) by (done || lia). mred. fold (sdt_length h). destruct (Z.leb_spec 56 (sdt_length h)) as [Hl|Hl]; [bfalse (sdt_length h <? 56) | by btrue (sdt_length h <? 56)]. cbn [andb].
  rewrite (ld8_readable st h (sdt_length h)), (ld_readable st h (sdt_length h) (h + 44)) by (done || lia). mred. destruct (ram (h + 40) =? 0); cbn [negb orb andb]; [| done]. destruct (num_at ram (h + 44) 8 =? 0); cbn [negb]; [done |]. by rewrite (ld_readable st h (sdt_length h) (h + 53)) by (done || lia).
Qed.

(** ** The whole discovery *)

(** The addresses of the root tables that the pointer [r] gives. *)
Definition revision (r : Z) : Z := ram (r + 15).
Definition rsdt_of (r : Z) : Z := num_at ram (r + 16) 4.
Definition xsdt_of (r : Z) : Z := num_at ram (r + 24) 8.

(** The root table used, and the tables taken from it: the wide one if the pointer has
    it and it is valid, or else the narrow one, or else none. *)
Inductive root_used st st' (r : Z) : Z → bool → list Z → Prop :=
  | used_wide L : 2 ≤ revision r → sdt_there st' (xsdt_of r) → chosen st st' (root_entries (xsdt_of r) 8) L → root_used st st' r (xsdt_of r) true L
  | used_narrow L : (2 ≤ revision r → ¬ sdt_there st (xsdt_of r)) → sdt_there st' (rsdt_of r) → chosen st st' (root_entries (rsdt_of r) 4) L → root_used st st' r (rsdt_of r) false L
  | used_none : (2 ≤ revision r → ¬ sdt_there st (xsdt_of r)) → ¬ sdt_there st (rsdt_of r) → root_used st st' r 0 false [].

(** The rest of what the kernel remembers, for the tables [L]. *)
Definition summary (r root : Z) (x : bool) (L : list Z) : bool * bool * bool * bool * (Z * Z * Z) * (Z * Z) :=
  (true, x, bool_decide (is_Some (madt_of L)), bool_decide (is_Some (hpet_of L)), (r, root, zlen L), default (0, 0) (hpet_of L)).

Inductive discovered (boot : Z) st st' : Prop :=
  | nothing_there : (∀ p, rsdp_place boot p → ¬ rsdp_there st p) → acpi_info st' = zero_info → tables_are st' [] → discovered boot st st'
  | platform_found r root x L :
      rsdp_place boot r → rsdp_valid r → ready st' r (rsdp_length r) →
      root_used st st' r root x L → tables_are st' L → Forall (sdt_there st') L →
      discovery (acpi_info st') = summary r root x L → describes (acpi_info st') (from_option platform_at no_platform (madt_of L)) →
      discovered boot st st'.

Lemma rsdp_readable st r : rsdp_valid r → ready st r (rsdp_length r) → readable (pages st) r 20 ∧ (2 ≤ revision r → readable (pages st) r 36).
Proof.
  intros [_ _ _ Hlong] Hr%ready_readable. unfold rsdp_length, revision, SIZEOF_RSDP_V1, SIZEOF_RSDP_V2 in *. split.
  - eapply readable_sub; [exact Hr | lia |]. destruct (Z.ltb_spec (ram (r + 15)) 2); [lia |]. specialize (Hlong ltac:(done)). lia.
  - intros H2. specialize (Hlong H2). rewrite (proj2 (Z.ltb_ge _ _) H2) in Hr. eapply readable_sub; [exact Hr | lia | lia].
Qed.

Lemma zero_describes : describes zero_info no_platform.
Proof. split; [done | split; [by exists (replicate 16 zero_cpu) | done] | apply NoDup_nil_2 | by exists (replicate 4 (mk_ioapic 0 0 0)) | by exists (replicate 16 (mk_iso 0 0 0 0))]. Qed.

Lemma chosen_after st st1 st2 E L : chosen st st1 E L → pages st2 = pages st1 → chosen st st2 E L.
Proof. intros [C1 C2 C3] Ep. split; [done | | done]. eapply Forall_impl; [exact C2 |]. intros a [Hv Hr]. split; [done |]. unfold ready. by rewrite Ep. Qed.

(** Reading the tables that the root lists, and what they say. *)
Lemma tables_spec st r root x : pages_ok (pages st) → is_u64 root → tables_are st [] → acpi_info st = zero_info <| found := true |> <| rsdp := r |> →
  ∃ st' L, (st ← parse_root_table ram st root x; st ← parse_madt ram st; parse_hpet ram st) = Ret st' ∧ grows st st' ∧ calls st' = calls st ∧ tables_are st' L ∧ Forall (sdt_there st') L ∧
    describes (acpi_info st') (from_option platform_at no_platform (madt_of L)) ∧
    (sdt_there st' root ∧ chosen st st' (root_entries root (if x then 8 else 4)) L ∧ discovery (acpi_info st') = summary r root x L ∨
     ¬ sdt_there st root ∧ L = [] ∧ discovery (acpi_info st') = summary r 0 false []).
Proof.
  intros Hok Hroot HT Hz. assert (HD : describes (acpi_info st) no_platform) by (rewrite Hz; destruct zero_describes; by split). destruct (parse_root_table_spec st root x Hok Hroot HT) as (st1 & L & -> & Hg & Hc & HT1 & Hf). mred.
  assert (Hall : Forall (sdt_there st1) L) by (destruct Hf as [(_ & -> & _)|(_ & [_ ? _] & _)]; [constructor | done]). assert (HD1 : describes (acpi_info st1) no_platform) by (destruct Hf as [(_ & _ & ->)|(_ & _ & ->)]; [done | destruct HD; by split]).
  destruct (parse_madt_spec st1 L HT1 Hall HD1) as (i & -> & Hi). mred. rewrite (parse_hpet_spec (set_info st1 i) L HT1 Hall).
  set (st' := match hpet_of L with Some _ => _ | None => _ end). assert (Ep : pages st' = pages st1 ∧ calls st' = calls st1 ∧ acpi_tables st' = acpi_tables st1 ∧ acpi_table_count st' = acpi_table_count st1) by (subst st'; by destruct (hpet_of L) as [[? ?]|]). destruct Ep as (E1 & E2 & E3 & E4).
  exists st', L. assert (Hsub : ∀ h, sdt_there st1 h → sdt_there st' h) by (intros h [Hv Hr]; split; [done |]; unfold ready; by rewrite E1). split_and!; [done | | congruence | by unfold tables_are; rewrite E3, E4 | by eapply Forall_impl | |].
  - unfold grows. rewrite E1. exact Hg.
  - assert (Hdi : describes i (from_option platform_at no_platform (madt_of L))) by (destruct (madt_of L); [apply Hi | by rewrite Hi]). destruct Hdi as [D1 D2 D3 D4 D5]. subst st'. destruct (hpet_of L) as [[? ?]|]; by split.
  - assert (Hd : discovery i = discovery ((acpi_info st1) <| madt_found := bool_decide (is_Some (madt_of L)) |>)). { destruct Hf as [(_ & _ & Ei)|(_ & _ & Ei)]; destruct (madt_of L) as [m|]; cbn [is_Some]; [destruct Hi as [_ ->] | subst i | destruct Hi as [_ ->] | subst i]; rewrite Ei, Hz; done. }
    assert (Hd' : discovery (acpi_info st') = discovery ((acpi_info st1) <| madt_found := bool_decide (is_Some (madt_of L)) |> <| hpet_found := bool_decide (is_Some (hpet_of L)) |> <| hpet_address := (default (0, 0) (hpet_of L)).1 |> <| hpet_min_tick := (default (0, 0) (hpet_of L)).2 |>)).
    { assert (Hh : hpet_found (acpi_info st1) = false ∧ hpet_address (acpi_info st1) = 0 ∧ hpet_min_tick (acpi_info st1) = 0) by (destruct Hf as [(_ & _ & ->)|(_ & _ & ->)]; by rewrite Hz). destruct Hh as (H1 & H2 & H3). unfold discovery in *. injection Hd as ?????????. subst st'. destruct (hpet_of L) as [[? ?]|]; cbn in *; congruence. }
    rewrite Hd'. destruct Hf as [(Hn & -> & ->)|(Hs & Hch & ->)]; [right | left].
    + split_and!; [done | done |]. unfold discovery, summary. by rewrite Hz.
    + split_and!; [by apply Hsub | by apply (chosen_after st st1) |]. unfold discovery, summary. rewrite Hz. cbn. by destruct (default (0, 0) (hpet_of L)).
Qed.

Lemma root_choice_spec st r : pages_ok (pages st) → rsdp_valid r → ready st r (rsdp_length r) →
  ∃ st1 root x, choose_root ram st r = Ret (st1, root, x) ∧ only_pages st st1 ∧ is_u64 root ∧
    if x then 2 ≤ revision r ∧ root = xsdt_of r ∧ sdt_there st1 root else root = rsdt_of r ∧ (2 ≤ revision r → ¬ sdt_there st (xsdt_of r)).
Proof.
  intros Hok Hv Hr. unfold choose_root. destruct (rsdp_readable st r Hv Hr) as [H20 H36]. rewrite (ld8_readable st r 20) by (done || lia). mred. fold (revision r). pose proof (num32_range (r + 16)) as Hn. fold (rsdt_of r) in Hn. pose proof (num_at_range ram Hram (r + 24) 8) as Hx. fold (xsdt_of r) in Hx.
  assert (Hld : ∀ st1, only_pages st st1 → ld ram 4 st1 (r + 16) = Ret (rsdt_of r)). { intros st1 Ho. apply (ld_readable st1 r 20); [| lia | lia]. apply (rsdp_readable st1 r Hv). by eapply only_ready. }
  assert (Hroot : (if (0 =? 0) && negb (rsdt_of r =? 0) then rsdt_of r else 0) = rsdt_of r) by (by destruct (Z.eqb_spec (rsdt_of r) 0) as [->|]).
  destruct (Z.leb_spec 2 (revision r)) as [H2|H2]; cbn [andb]; mred.
  - rewrite (ld_readable st r 36) by (auto; lia). mred. fold (xsdt_of r). destruct (Z.eqb_spec (xsdt_of r) 0) as [E0|E0]; cbn [negb]; mred.
    + rewrite Hld by apply only_refl. mred. rewrite Hroot. exists st, (rsdt_of r), false. split_and!; [done | apply only_refl | ulia | done |]. rewrite E0. intros _ [_ [[? _] _]]. lia.
    + destruct (valid_sdt_spec st (xsdt_of r) Hok ltac:(ulia)) as (st1 & ok & -> & Ho & Hres). mred. destruct ok; mred; rewrite (Hld st1 Ho); mred.
      * bfalse (xsdt_of r =? 0). cbn [andb]. exists st1, (xsdt_of r), true. split_and!; (done || ulia).
      * rewrite Hroot. exists st1, (rsdt_of r), false. split_and!; (done || ulia).
  - rewrite Hld by apply only_refl. mred. rewrite Hroot. exists st, (rsdt_of r), false. split_and!; [done | apply only_refl | ulia | done | lia].
Qed.

Lemma acpi_init_spec st g : pages_ok (pages st) → is_u64 (bootinfo_acpi_rsdp g) → readable (pages st) 0x40e 2 →
  ∃ st', acpi_init ram st g = Ret st' ∧ grows st st' ∧ (∃ m, calls st' = calls st ++ [m]) ∧ discovered (bootinfo_acpi_rsdp g) st st'.
Proof.
  intros Hok Hb Hlow. unfold acpi_init. set (boot := bootinfo_acpi_rsdp g) in *. clearbody boot. set (st0 := st <| acpi_info := _ |> <| acpi_tables := _ |> <| acpi_table_count := _ |>). assert (HT0 : tables_are st0 []) by by exists (acpi_tables st0).
  destruct (find_rsdp_spec st0 boot Hok Hb Hlow) as (st1 & r & -> & Ho1 & Hres). mred. assert (Hg1 : grows st st1) by (destruct (only_grows _ _ Ho1) as [_ _ _ _ ? ?]; by split). assert (HT1 : tables_are st1 []) by (unfold tables_are; by rewrite (op_tables _ _ Ho1), (op_count _ _ Ho1)).
  destruct (Z.eqb_spec r 0) as [->|Hr0]; mred.
  - eexists. split; [done |]. split; [by apply (grows_to _ st1) |]. split; [eexists; cbn; by rewrite (op_calls _ _ Ho1) |]. apply nothing_there; [done | cbn; by rewrite (op_info _ _ Ho1) | done].
  - destruct Hres as (Hpl & Hv & Hr). set (st2 := set_info st1 _). pose proof (op_ok _ _ Ho1 Hok) as Hok2. destruct (root_choice_spec st2 r Hok2 Hv Hr) as (st3 & root & x & -> & Ho3 & Hu & Hch). mred.
    assert (Hg3 : grows st st3) by (apply (grow_chain _ st2); [by apply (grows_to _ st1) | by apply only_grows]). pose proof (op_ok _ _ Ho3 Hok2) as Hok3. assert (HT3 : tables_are st3 []) by (unfold tables_are; by rewrite (op_tables _ _ Ho3), (op_count _ _ Ho3)).
    destruct (tables_spec st3 r root x Hok3 Hu HT3) as (st4 & L & Hrun & Hg4 & Hc4 & HT4 & Hall & Hdesc & Hor); [rewrite (op_info _ _ Ho3); cbn; by rewrite (op_info _ _ Ho1) |].
    destruct (parse_root_table ram st3 root x) as [s|]; [mred; cbn in Hrun | done]. destruct (parse_madt ram s) as [s'|]; [mred; cbn in Hrun | done]. rewrite Hrun. mred. eexists. split; [done |]. split; [apply (grows_to _ st4); [by apply (grow_chain _ st3) | done] |]. split; [eexists; cbn; rewrite Hc4, (op_calls _ _ Ho3); cbn; by rewrite (op_calls _ _ Ho1) |].
    set (st5 := st4 <| calls := _ |>). assert (E5 : pages st5 = pages st4) by done. assert (Hnot : ∀ a s, grows st s → ¬ sdt_there s a → ¬ sdt_there st a) by (intros a s0 Hg Hn Hs; apply Hn; by eapply grows_sdt).
    assert (Hused : ∃ rt y, root_used st st5 r rt y L ∧ discovery (acpi_info st4) = summary r rt y L).
    { destruct Hor as [(Hs & Hc & Hd)|(Hn & -> & Hd)].
      - exists root, x. split; [| done]. assert (Hc' : chosen st st5 (root_entries root (if x then 8%nat else 4%nat)) L) by (apply (chosen_after st st4); [by apply (chosen_before st st3) | done]). destruct x; [destruct Hch as (? & -> & _); by apply used_wide |]. destruct Hch as [-> Hx]. apply used_narrow; [| done | done]. intros H2. by apply (Hnot _ st2), Hx.
      - exists 0, false. split; [| done]. destruct x; [by destruct Hch as (_ & _ & ?) |]. destruct Hch as [-> Hx]. apply used_none; [intros H2; by apply (Hnot _ st2), Hx | by apply (Hnot _ st3)]. }
    destruct Hused as (rt & y & Hused & Hd). apply (platform_found boot st st5 r rt y L); try done. apply (grows_ready st2 st5); [| exact Hok2 | exact Hr]. apply (grow_chain _ st3); [by apply only_grows | by apply (grows_to _ st4)].
Qed.

(** ** The self test *)

(** The entries of processors that the tables told of never contradict each other. *)
Lemma selftest_loop i l : cpus_are i l → apics_differ l →
  loop_n (Z.to_nat (cpu_count i)) 0 (check_cpu i) 0 = Ret (Next (enabled_cpu_count i)).
Proof.
  intros [Hv He] Hd. destruct (vec_count _ _ _ _ Hv) as [Hmax Hc]. unfold ACPI_MAX_CPUS in *. assert (Hin : ∀ j, 0 ≤ j < cpu_count i → ∃ c, l !! Z.to_nat j = Some c ∧ rd (cpus i) j = Ret c).
  { intros j Hj. destruct (lookup_lt_is_Some_2 l (Z.to_nat j)) as [c Hl]; [unfold zlen in Hc; lia |]. exists c. split; [done |]. pose proof (vec_rd _ _ _ _ _ _ Hv Hl) as E. by rewrite Z2Nat.id in E by lia. }
  match goal with |- loop_n ?n ?i0 ?body ?s = _ => destruct (loop_n_inv (λ k e, e = enabled_in (take (Z.to_nat k) l)) (λ _, False) body n i0 s) as [(e & -> & ->)|(? & _ & [])] end.
  - done.
  - intros k e Hk ->. left. unfold check_cpu. destruct (Hin k ltac:(lia)) as (a & Ha & ->). mred. match goal with |- context [loop_n ?n ?j ?body ?s] => destruct (loop_n_inv (λ _ _, True) (λ _, False) body n j s) as [(? & -> & _)|(? & _ & [])] end.
    + done.
    + intros j _ Hj _. left. destruct (Hin j ltac:(lia)) as (b & Hb & ->). mred. exists tt. split; [| done]. destruct (Z.eqb_spec (apic_id a) (apic_id b)) as [E|]; [| by rewrite andb_false_r]. unfold apics_differ in Hd. rewrite NoDup_alt in Hd.
      assert (Z.to_nat k = Z.to_nat j) by (apply (Hd _ _ (apic_id a)); rewrite list_lookup_fmap; [by rewrite Ha | rewrite Hb; cbn; congruence]). lia.
    + mred. eexists. split; [done |]. replace (Z.to_nat (k + 1)) with (S (Z.to_nat k)) by lia. rewrite (take_S_r _ _ _ Ha), enabled_app. cbn [enabled_in foldr]. pose proof (enabled_range (take (Z.to_nat k) l)) as Hr. assert (zlen (take (Z.to_nat k) l) ≤ 16) by (unfold zlen in *; rewrite length_take; lia). destruct (cpu_enabled a); cbn [Z.b2z]; [| lia]. rewrite wrap_small; lia.
  - rewrite He, Z.add_0_l, Nat2Z.id, take_ge; [done |]. unfold zlen in Hc. lia.
Qed.

Lemma discovered_selftest boot st st' (i := acpi_info st') : discovered boot st st' →
  acpi_selftest st' = Ret (negb (found i) || negb (root_table i =? 0) && negb (table_count i =? 0) && (negb (madt_found i) || negb (enabled_cpu_count i =? 0))).
Proof.
  intros [_ Ei _|r root x L Hp Hv Hr _ _ _ Hd Hdesc]; unfold acpi_selftest; fold i; [fold i in Ei; by rewrite Ei | fold i in Hd, Hdesc]. assert (Er : rsdp i = r ∧ found i = true) by by injection Hd. destruct Er as [-> ->]. cbn [negb orb]. assert (Hr0 : 0x400 ≤ r) by apply Hr. bfalse (r =? 0). cbn [orb].
  destruct (root_table i =? 0); cbn [negb andb]; [done |]. destruct (table_count i =? 0); cbn [negb andb]; [done |]. destruct Hdesc as [_ Hc Hdiff _ _]. rewrite (selftest_loop i _ Hc Hdiff). mred. rewrite Z.eqb_refl. by destruct (madt_found i), (enabled_cpu_count i =? 0).
Qed.

End spec.
