(* ===== verification/AcpiReport.v ===== *)
(** * The status report of platform discovery

    Every number that [Acpi] remembers has its width, so the formats of
    [acpi_format_status] get arguments they can print. *)

From Stdlib Require Import ZArith Lia String.
From stdpp Require Import prelude list_numbers.
From S2P Require Import Prelude Update Arith CString Printf Log Bootinfo Memory PageMap Acpi AcpiTables.

Local Open Scope Z_scope.

(** ** Widths *)

Definition cpu_typed (c : acpi_cpu_info_t) : Prop := is_u32 (acpi_id c) ∧ is_u32 (apic_id c) ∧ is_u32 (cpu_flags c).
Definition ioapic_typed (io : acpi_ioapic_info_t) : Prop := is_u32 (io_id io) ∧ is_u32 (io_address io) ∧ is_u32 (gsi_base io).

Definition item_typed (it : madt_item) : Prop :=
  match it with
  | Processor id apic flags _ => is_u32 id ∧ is_u32 apic ∧ is_u32 flags
  | IoController io => ioapic_typed io
  | LocalAddress a => 0 ≤ a
  | SourceOverride _ | OtherItem => True
  end.

Definition platform_typed (p : platform) : Prop := is_u32 (p_lapic p) ∧ Forall cpu_typed (p_cpus p) ∧ Forall ioapic_typed (p_ioapics p).

Lemma le_num_range bs : Forall is_u8 bs → 0 ≤ le_num bs < 256 ^ zlen bs.
Proof.
  induction 1 as [|x bs Hx _ IH]; [done |]. cbn [le_num foldr]. fold (le_num bs). rewrite zlen_cons, Z.pow_add_r by (pose proof (zlen_nonneg bs); lia). unfold is_u8 in Hx. lia.
Qed.

Lemma field_range e o n : Forall is_u8 e → 0 ≤ field e o n < 256 ^ Z.of_nat n.
Proof.
  intros He. unfold field. pose proof (le_num_range (take n (drop o e)) ltac:(by apply Forall_take, Forall_drop)) as H. assert (zlen (take n (drop o e)) ≤ Z.of_nat n) by (unfold zlen; rewrite length_take; lia).
  pose proof (Z.pow_le_mono_r 256 (zlen (take n (drop o e))) (Z.of_nat n)). lia.
Qed.

Lemma field_u32 e o n : Forall is_u8 e → (n ≤ 4)%nat → is_u32 (field e o n).
Proof. intros He Hn. pose proof (field_range e o n He). pose proof (Z.pow_le_mono_r 256 (Z.of_nat n) 4). ulia. Qed.

Lemma decode_typed e : Forall is_u8 e → item_typed (decode e).
Proof.
  intros He. unfold decode. repeat match goal with |- item_typed (if ?b then _ else _) => destruct b end; cbn [item_typed]; [| | done | | | done].
  - split_and!; by apply field_u32; [| lia].
  - split_and!; by apply field_u32; [| lia].
  - by apply field_range.
  - split_and!; by apply field_u32; [| lia].
Qed.

Lemma madt_items_typed n bs : Forall is_u8 bs → Forall item_typed (madt_items n bs).
Proof.
  revert bs. induction n as [|n IH]; intros bs Hbs; [constructor |]. cbn [madt_items]. destruct bs as [|x [|len bs]]; [constructor | constructor |]. destruct (_ || _); constructor; [by apply decode_typed, Forall_take | by apply IH, Forall_drop].
Qed.

Lemma merged_typed c id apic flags x2 : cpu_typed c → is_u32 id → is_u32 apic → is_u32 flags → cpu_typed (merged c id apic flags x2).
Proof. intros (_ & Ha & _) ? ? ?. unfold merged. split_and!; cbn; [done | by destruct (x2 || _) | done]. Qed.

Lemma apply_item_typed p it : platform_typed p → item_typed it → platform_typed (apply_item p it).
Proof.
  intros (H1 & H2 & H3) Hit. destruct it as [id apic flags x2|io|iso|a|]; cbn [apply_item item_typed] in *; [| | | |done].
  - destruct Hit as (? & ? & ?). split_and!; cbn; [done | | done]. unfold add_cpu. destruct (same_cpu _ _ _) as [[k c]|] eqn:E.
    + apply same_cpu_lookup in E. apply Forall_insert; [done |]. apply merged_typed; [by eapply Forall_lookup_1 | done..].
    + destruct (_ <? _); [| done]. apply Forall_app. split; [done |]. apply Forall_singleton, merged_typed; [| done..]. by repeat split.
  - destruct (_ <? _); [| done]. split_and!; cbn; [done | done |]. apply Forall_app. split; [done | by apply Forall_singleton].
  - by destruct (_ <? _).
  - destruct (Z.leb_spec a U32MAX); [| done]. split_and!; cbn; [ulia | done | done].
Qed.

Lemma items_typed p l : platform_typed p → Forall item_typed l → platform_typed (foldl apply_item p l).
Proof. intros Hp Hl. revert p Hp. induction Hl as [|it l Hit _ IH]; intros p Hp; [done |]. cbn [foldl]. by apply IH, apply_item_typed. Qed.

(** What the report prints. *)
Record info_typed (i : acpi_info_t) (cs : list acpi_cpu_info_t) (ios : list acpi_ioapic_info_t) : Prop := {
  it_words : Forall is_u32 [table_count i; lapic_address i; cpu_count i; enabled_cpu_count i; ioapic_count i; iso_count i; hpet_min_tick i];
  it_addresses : Forall is_u64 [rsdp i; root_table i; hpet_address i];
  it_cpus : vec ACPI_MAX_CPUS (cpus i) (cpu_count i) cs ∧ Forall cpu_typed cs;
  it_ioapics : vec ACPI_MAX_IOAPICS (ioapics i) (ioapic_count i) ios ∧ Forall ioapic_typed ios;
}.

Section report.
Context {P : Type} `{PM : PageMap P} `{PS : !PageMapSpec P}.
Context (ram : Z → Z) (Hram : ∀ a, is_u8 (ram a)).

Implicit Types st : acpi_state P.

Lemma bytes_typed a n : Forall is_u8 (bytes_at ram a n).
Proof. apply Forall_fmap, Forall_true. intros k. apply Hram. Qed.

Lemma platform_at_typed m : platform_typed (platform_at ram m).
Proof.
  apply items_typed; [| apply madt_items_typed, bytes_typed]. split; [| split; constructor]. change (is_u32 (num_at ram (m + 36) 4)). pose proof (num32_range ram Hram (m + 36)). ulia.
Qed.

Lemma describes_words i p : describes i p → platform_typed p → Forall is_u32 [lapic_address i; cpu_count i; enabled_cpu_count i; ioapic_count i; iso_count i].
Proof.
  intros [D1 [D2 D2'] _ D4 D5] (T1 & _). pose proof (vec_count _ _ _ _ D2) as [? ?]. pose proof (vec_count _ _ _ _ D4) as [? ?]. pose proof (vec_count _ _ _ _ D5) as [? ?]. pose proof (enabled_range (p_cpus p)). pose proof (zlen_nonneg (p_cpus p)). pose proof (zlen_nonneg (p_ioapics p)). pose proof (zlen_nonneg (p_isos p)).
  unfold ACPI_MAX_CPUS, ACPI_MAX_IOAPICS, ACPI_MAX_ISO in *. rewrite D1. repeat constructor; (done || ulia).
Qed.

Lemma there_u64 st a : sdt_there ram st a → is_u64 a.
Proof. intros [[Hl _] [[H1 H2] _]]. unfold SIZEOF_SDT, ACPI_IDENTITY_ACCESS_LIMIT in *. ulia. Qed.

Lemma root_used_u64 st st' r root x L : root_used ram st st' r root x L → is_u64 root.
Proof. intros [L' _ Hs _|L' _ Hs _|_ _]; [by eapply there_u64 | by eapply there_u64 | ulia]. Qed.

Lemma hpet_typed L : is_u64 (default (0, 0) (hpet_of ram L)).1 ∧ is_u32 (default (0, 0) (hpet_of ram L)).2.
Proof.
  unfold hpet_of. destruct (table_of ram L (bytes_of "HPET")) as [h|]; cbn [mbind option_bind]; [| split; cbn; ulia]. destruct (_ && _); [| split; cbn; ulia]. pose proof (num_at_range ram Hram (h + 44) 8). pose proof (num_at_range ram Hram (h + 53) 2). split; cbn [from_option id fst snd]; ulia.
Qed.

Lemma discovered_typed boot st st' : discovered ram boot st st' → ∃ cs ios, info_typed (acpi_info st') cs ios.
Proof.
  intros [_ -> _|r root x L _ Hv Hr Hroot HT _ Hd Hdesc].
  - exists [], []. split; [by repeat constructor | by repeat constructor | split; [by exists (replicate 16 zero_cpu) | constructor] | split; [by exists (replicate 4 (mk_ioapic 0 0 0)) | constructor]].
  - set (p := from_option _ _ _) in *. assert (Hp : platform_typed p) by (subst p; destruct (madt_of ram L); [apply platform_at_typed | by repeat constructor]). pose proof (describes_words _ _ Hdesc Hp) as Hw. destruct Hdesc as [_ [D2 _] _ D4 _]. destruct Hp as (_ & T2 & T3).
    exists (p_cpus p), (p_ioapics p). apply root_used_u64 in Hroot. pose proof (vec_count _ _ _ _ HT) as [Hmax _]. pose proof (zlen_nonneg L). destruct (hpet_typed L) as [H1 H2]. assert (Hr64 : is_u64 r). { destruct Hr as [[? Hi] _]. assert (0 ≤ rsdp_length ram r) by (unfold rsdp_length, SIZEOF_RSDP_V1; destruct (_ <? _); [lia | apply num32_range, Hram]). unfold ACPI_IDENTITY_ACCESS_LIMIT in *. ulia. }
    injection Hd as E1 E2 E3 E4 E5 E6 E7 E89. rewrite <- E89 in H1, H2. cbn [fst snd] in H1, H2. unfold ACPI_MAX_TABLES in *. split; [| | done | done].
    + rewrite !Forall_cons in *. rewrite E7. split_and!; try tauto; ulia.
    + by rewrite !Forall_cons, E5, E6.
Qed.

End report.

(** ** Printing *)

Lemma b2z_u32 b : is_u32 (Z.b2z b).
Proof. destruct b; cbn; ulia. Qed.

Lemma u32_u64 z : is_u32 z → is_u64 z.
Proof. ulia. Qed.

(** The arguments of a line are words of the widths they have. *)
Ltac printable := repeat (apply Forall_cons_2; [cbn [varg_ok]; solve [assumption | apply b2z_u32 | by apply u32_u64] |]); apply Forall_nil_2.

(** A loop that prints a line for each element of an array. *)
Lemma print_each {A} b0 cap max (b : list A) count L bo t (line : Z → A → rabbitbone_buf_out_t → res rabbitbone_buf_out_t) :
  vec max b count L → max ≤ U32MAX → buf_holds b0 cap bo t →
  (∀ k x bo t, is_u32 k → x ∈ L → buf_holds b0 cap bo t → ∃ bo' t', line k x bo = Ret bo' ∧ buf_holds b0 cap bo' t') →
  ∃ bo' t', for_n (Z.to_nat count) 0 (λ k bo, x ← rd b k; line k x bo) bo = Ret bo' ∧ buf_holds b0 cap bo' t'.
Proof.
  intros Hv Hmax H0 Hline. destruct (vec_count _ _ _ _ Hv) as [Hm Hc]. match goal with |- context [for_n ?n ?i ?f ?s] => destruct (for_n_inv (λ _ bo, ∃ t, buf_holds b0 cap bo t) f n i s) as (bo' & -> & t' & Ht') end; [eauto | | eauto].
  intros k bo1 Hk [t1 H1]. destruct (lookup_lt_is_Some_2 L (Z.to_nat k)) as [x Hx]; [unfold zlen in *; lia |]. pose proof (vec_rd _ _ _ _ _ _ Hv Hx) as E. rewrite Z2Nat.id in E by lia. rewrite E. mred.
  destruct (Hline k x bo1 t1) as (bo2 & t2 & E2 & H2); [unfold zlen in *; ulia | by eapply list_elem_of_lookup_2 | done |]. eauto.
Qed.

Lemma format_status_spec {P} (st : acpi_state P) cs ios out : info_typed (acpi_info st) cs ios → 0 < zlen out ≤ 2 ^ 31 →
  ∃ out', acpi_format_status st (Some out) (zlen out) = Ret (Some out') ∧ zlen out' = zlen out ∧ ∃ txt, cstr_at out' txt ∧ zlen txt < zlen out.
Proof.
  intros [W A [Hc Tc] [Hi Ti]] Hcap. unfold acpi_format_status. bfalse (zlen out =? 0). set (i := acpi_info st) in *. rewrite !Forall_cons in W. rewrite !Forall_cons in A. destruct W as (W1 & W2 & W3 & W4 & W5 & W6 & W7 & _). destruct A as (A1 & A2 & A3 & _).
  destruct (buf_init_holds out (zlen out) Hcap ltac:(lia)) as (bo & -> & H0). mred.
  match goal with |- context [rabbitbone_buf_appendf bo (Some ?f) ?a] => destruct (append_typed out (zlen out) Hcap eq_refl bo [] f a [KInt; KPtr; KPtr; KInt; KInt] H0) as (bo1 & t1 & -> & H1) end; [printable | reflexivity | by repeat constructor |]. mred.
  match goal with |- context [rabbitbone_buf_appendf bo1 (Some ?f) ?a] => destruct (append_typed out (zlen out) Hcap eq_refl bo1 t1 f a [KInt; KPtr; KInt; KInt; KInt; KInt] H1) as (bo2 & t2 & -> & H2) end; [printable | reflexivity | by repeat constructor |]. mred.
  match goal with |- context [for_n ?n 0 (λ k bo, c ← rd (cpus i) k; @?line k c bo) bo2] => destruct (print_each out (zlen out) _ _ _ _ bo2 t2 (λ k c bo, line k c bo) Hc ltac:(done) H2) as (bo3 & t3 & -> & H3) end.
  { intros k c bo' t' Hk Hx H'. apply (proj1 (Forall_forall _ _) Tc) in Hx as (? & ? & ?). eapply append_typed; [exact Hcap | done | exact H' | printable | reflexivity | by repeat constructor]. }
  mred. match goal with |- context [for_n ?n 0 (λ k bo, c ← rd (ioapics i) k; @?line k c bo) bo3] => destruct (print_each out (zlen out) _ _ _ _ bo3 t3 (λ k c bo, line k c bo) Hi ltac:(done) H3) as (bo4 & t4 & -> & H4) end.
  { intros k c bo' t' Hk Hx H'. apply (proj1 (Forall_forall _ _) Ti) in Hx as (? & ? & ?). eapply append_typed; [exact Hcap | done | exact H' | printable | reflexivity | by repeat constructor]. }
  mred. match goal with |- context [rabbitbone_buf_appendf bo4 (Some ?f) ?a] => destruct (append_typed out (zlen out) Hcap eq_refl bo4 t4 f a [KInt; KPtr; KInt] H4) as (bo5 & t5 & -> & H5) end; [printable | reflexivity | by repeat constructor |]. mred.
  destruct (buf_holds_end out (zlen out) eq_refl bo5 t5 H5) as (out' & -> & Hz & Htxt). eauto.
Qed.
