(* ===== verification/AcpiCorrect.v ===== *)
(** * Platform discovery: what it promises

    The theorems on [kernel/drivers/acpi.c] as a whole, for any page tables that keep
    the promises of [PageMapSpec] and any bytes in memory, and a run of it on the page
    tables of [Vmm]. *)

From Stdlib Require Import ZArith Lia String.
From stdpp Require Import prelude list_numbers fin_maps zmap.
From S2P Require Import Prelude Update Array Arith CString Printf Log Bootinfo Memory PageMap Vmm VmmTables VmmSpaces VmmFrames VmmPages VmmCorrect Acpi AcpiTables AcpiReport.

Local Open Scope Z_scope.

Section correct.
Context {P : Type} `{PM : PageMap P} `{PS : !PageMapSpec P}.
Context (ram : Z → Z).

(** C9: Whatever bytes the firmware left in memory, [acpi_init] returns and reads only addresses that the page
    tables translate to themselves.  It finds a valid root pointer if one is in a page that is there; it uses the
    wide root table or else the narrow one, and takes from it, in order and up to the number that fits, valid
    tables only and every valid one whose pages are there; the processors, interrupt controllers and overrides it
    remembers are those that the first table of interrupt controllers tells of, no two processors with the same
    interrupt controller and the enabled ones counted, and the timer is that of the first timer table.  The page
    tables still translate what they did. *)
Theorem acpi_init_correct st g :
  (∀ a, is_u8 (ram a)) → pages_ok (pages st) → is_u64 (bootinfo_acpi_rsdp g) → readable (pages st) 0x40e 2 →
  ∃ st', acpi_init ram st g = Ret st' ∧ discovered ram (bootinfo_acpi_rsdp g) st st' ∧ pages_ok (pages st') ∧
    ∀ v t, is_u64 v → PageMap.vmm_translate (pages st) v = Some t → PageMap.vmm_translate (pages st') v = Some t.
Proof.
  intros Hram Hok Hb Hlow. destruct (acpi_init_spec ram Hram st g Hok Hb Hlow) as (st' & E & Hg & _ & Hd). exists st'. split_and!; [done | done | by eapply grows_ok |]. destruct Hg as [_ _ _ _ _ Hk]. by apply Hk.
Qed.

(** C15: After [acpi_init] the self test returns: it accepts a machine without tables, and else asks that the root
    table was valid, that it listed a valid table, and that a table of interrupt controllers named an enabled
    processor; that the processors contradict each other or their count is never the reason to fail.  The status
    report fits any buffer, and ends in it. *)
Theorem acpi_reports_correct st g st' (i := acpi_info st') :
  (∀ a, is_u8 (ram a)) → pages_ok (pages st) → is_u64 (bootinfo_acpi_rsdp g) → readable (pages st) 0x40e 2 → acpi_init ram st g = Ret st' →
  acpi_selftest st' = Ret (negb (found i) || negb (root_table i =? 0) && negb (table_count i =? 0) && (negb (madt_found i) || negb (enabled_cpu_count i =? 0))) ∧
  ∀ out, 0 < zlen out ≤ 2 ^ 31 → ∃ out' txt, acpi_format_status st' (Some out) (zlen out) = Ret (Some out') ∧ zlen out' = zlen out ∧ cstr_at out' txt ∧ zlen txt < zlen out.
Proof.
  intros Hram Hok Hb Hlow E. destruct (acpi_init_spec ram Hram st g Hok Hb Hlow) as (st2 & E2 & _ & _ & Hd). rewrite E in E2. injection E2 as <-. split; [by eapply discovered_selftest |].
  intros out Hout. destruct (discovered_typed ram Hram _ _ _ Hd) as (cs & ios & Ht). destruct (format_status_spec st' cs ios out Ht Hout) as (out' & ? & ? & txt & ? & ?). by exists out', txt.
Qed.

End correct.

(** ** A machine *)

Definition le (n : nat) (x : Z) : list Z := (λ k, x / 256 ^ Z.of_nat k mod 256) <$> seq 0 n.

(** A structure of [n] bytes whose byte at [o] makes its sum zero. *)
Definition sealed (o n : nat) (bs : list Z) : list Z := <[o := - foldr Z.add 0 (take n bs) mod 256]> bs.

(** A table: its name, its length and its content. *)
Definition table (sig : string) (content : list Z) : list Z :=
  let bs := bytes_of sig ++ le 4 (36 + zlen content) ++ replicate 28 0 ++ content in sealed 9 (length bs) bs.

(** The root pointer below one megabyte, the root table at two, and the table of
    interrupt controllers at four gigabytes, outside what the kernel has mapped: two
    processors, the second one reported twice, a third one that is not enabled, and an
    interrupt controller. *)
Definition sample_pointer : list Z :=
  sealed 32 36 (sealed 8 20 (bytes_of "RSD PTR " ++ [0] ++ replicate 6 0 ++ [2] ++ le 4 0 ++ le 4 36 ++ le 8 0x200000 ++ replicate 4 0)).

Definition sample_root : list Z := table "XSDT" (le 8 0x100000000 ++ le 8 0x300000).

Definition sample_madt : list Z :=
  table "APIC" (le 4 0xfee00000 ++ le 4 1 ++ [0; 8; 0; 0] ++ le 4 1 ++ [0; 8; 1; 1] ++ le 4 1 ++ [9; 16; 0; 0] ++ le 4 1 ++ le 4 1 ++ le 4 1 ++ [0; 8; 2; 2] ++ le 4 0 ++ [1; 12; 0; 0] ++ le 4 0xfec00000 ++ le 4 0).

Definition sample_segments : list (Z * list Z) := [(0xe0010, sample_pointer); (0x200000, sample_root); (0x100000000, sample_madt)].

Definition sample_ram (a : Z) : Z :=
  foldr (λ '(b, bs) x, if (b <=? a) && (a <? b + zlen bs) then default 0 (bs !! Z.to_nat (a - b)) else x) 0 sample_segments.

#[local] Existing Instance pile.
#[local] Instance sample_pages : PageMap (vmm (list Z * Z) unit) := vmm_pages 0x10000 0x90000.
#[local] Instance sample_pages_spec : PageMapSpec (vmm (list Z * Z) unit) := vmm_pages_spec 0x10000 0x90000.

Definition sample_acpi : acpi_state (vmm (list Z * Z) unit) := mk_acpi zero_info [] 0 boot_vm [].
Definition sample_found : acpi_state (vmm (list Z * Z) unit) := state sample_acpi (acpi_init sample_ram sample_acpi None).

Lemma sample_runs : acpi_init sample_ram sample_acpi None = Ret sample_found.
Proof. vm_compute. reflexivity. Qed.

#[local] Opaque boot_vm sample_found.

Lemma sample_bytes a : is_u8 (sample_ram a).
Proof.
  assert (Hall : Forall (λ s : Z * list Z, Forall is_u8 s.2) sample_segments) by (repeat constructor; by vm_compute). unfold sample_ram. induction Hall as [|[b bs] l Hbs Hall IH]; cbn [foldr]; [ulia |]. destruct (_ && _); [| done].
  destruct (bs !! Z.to_nat (a - b)) as [x|] eqn:E; cbn; [by apply (Forall_lookup_1 _ _ _ _ Hbs E) | unfold id; ulia].
Qed.

Lemma sample_ok : pages_ok (pages sample_acpi).
Proof. split; [exact boot_ok | by vm_compute]. Qed.

Lemma sample_low : readable (pages sample_acpi) 0x40e 2.
Proof. intros x Hx. assert (x = 0x40e ∨ x = 0x40f) as [-> | ->] by lia; eexists; by vm_compute. Qed.

Lemma acpi_init_correct_witness :
  (∃ st', acpi_init sample_ram sample_acpi None = Ret st' ∧ discovered sample_ram (bootinfo_acpi_rsdp None) sample_acpi st' ∧ pages_ok (pages st') ∧
     ∀ v t, is_u64 v → PageMap.vmm_translate (pages sample_acpi) v = Some t → PageMap.vmm_translate (pages st') v = Some t) ∧
  map (λ c, (acpi_id c, apic_id c, cpu_enabled c, cpu_x2apic c)) (take 3 (cpus (acpi_info sample_found))) = [(0, 0, true, false); (1, 1, true, true); (2, 2, false, false)].
Proof. split; [| by vm_compute]. apply (acpi_init_correct sample_ram sample_acpi None sample_bytes sample_ok); [by vm_compute | exact sample_low]. Defined.

Lemma acpi_reports_correct_witness : acpi_selftest sample_found = Ret true ∧ ∃ out' txt, acpi_format_status sample_found (Some (replicate 64 0)) 64 = Ret (Some out') ∧ cstr_at out' txt ∧ zlen txt < 64.
Proof.
  destruct (acpi_reports_correct sample_ram sample_acpi None sample_found sample_bytes sample_ok) as [E H]; [by vm_compute | exact sample_low | exact sample_runs |]. split; [rewrite E; by vm_compute |].
  specialize (H (replicate 64 0)). rewrite (eq_refl : zlen (replicate 64 0) = 64) in H. destruct H as (out' & txt & E' & _ & H1 & H2); [lia |]. exists out', txt. split; [exact E' |]. split; [exact H1 | exact H2].
Defined.
