(* ===== verification/Rust.v ===== *)
(** * Results of the kernel's Rust code: [kernel/rust]

    A function of type [Result<A, E>] is one that returns [Ok] or [Err]; [x ←? m; k] is
    its question mark.  A slice is an object with the length it was made with. *)

From stdpp Require Import prelude.
From S2P Require Import Prelude.

Inductive result (A E : Type) :=
  | Ok (a : A)
  | Err (e : E).

Arguments Ok {A E} a.
Arguments Err {A E} e.

Definition is_ok {A E} (r : result A E) : bool := match r with Ok _ => true | Err _ => false end.

Definition try {A B E} (m : res (result A E)) (k : A → res (result B E)) : res (result B E) :=
  r ← m; match r with Ok a => k a | Err e => Ret (Err e) end.

Notation "x ←? m ; k" := (try m (λ x, k)) (at level 20, m at level 100, k at level 200, only parsing) : stdpp_scope.
Notation "' x ←? m ; k" := (try m (λ x, k)) (at level 20, x pattern, m at level 100, k at level 200, only parsing) : stdpp_scope.
