(* ===== verification/Usercopy.v ===== *)
(** * Copies across the user boundary: [kernel/rust/usercopy.rs]

    Every copy between the kernel and a process checks its range and then goes page by
    page, as far in each as [copy_step] says. *)

From Stdlib Require Import ZArith Lia.
From stdpp Require Import prelude list_numbers.
From S2P Require Import Prelude Rust.

Local Open Scope Z_scope.

Definition PAGE_SIZE : Z := 4096.
Definition USER_MIN : Z := 0x10000.
Definition USER_LIMIT : Z := 0x800000000000.

Record UserCopyStep := mk_step { ok : Z; page_offset : Z; chunk : Z; remaining_after : Z }.

Inductive RangeError := NullWithSize | LowAddress | Overflow | AboveLimit.

Definition range_check (addr size : Z) : result unit RangeError :=
  if size =? 0 then Ok tt else
  if addr =? 0 then Err NullWithSize else
  if addr <? USER_MIN then Err LowAddress else
  match add_u64 addr (size - 1) with
  | None => Err Overflow
  | Some e => if USER_LIMIT <=? e then Err AboveLimit else Ok tt
  end.

Definition copy_step (addr remaining : Z) : result UserCopyStep RangeError :=
  match range_check addr remaining with
  | Err e => Err e
  | Ok _ =>
      let page_offset := Z.land addr (PAGE_SIZE - 1) in
      let max_in_page := PAGE_SIZE - page_offset in
      let chunk := if remaining <? max_in_page then remaining else max_in_page in
      Ok (mk_step 1 page_offset chunk (remaining - chunk))
  end.

Definition rabbitbone_rust_user_range_check (addr size : Z) : bool := is_ok (range_check addr size).

Definition rabbitbone_rust_user_copy_step (addr remaining : Z) (out : option UserCopyStep) : option UserCopyStep * bool :=
  match out with
  | None => (None, false)
  | Some _ =>
      match copy_step addr remaining with
      | Ok v => (Some v, true)
      | Err _ => (Some (mk_step 0 0 0 remaining), false)
      end
  end.

Definition rabbitbone_rust_usercopy_selftest : bool :=
  if negb (is_ok (range_check USER_MIN 1)) then false else
  if is_ok (range_check 0 1) then false else
  if is_ok (range_check (USER_MIN - 1) 1) then false else
  if negb (is_ok (range_check (USER_LIMIT - 1) 1)) then false else
  if is_ok (range_check (USER_LIMIT - 1) 2) then false else
  if is_ok (range_check (U64MAX - 4) 8) then false else
  match copy_step (USER_MIN + 4094) 8 with
  | Err _ => false
  | Ok s => (page_offset s =? 4094) && (chunk s =? 2) && (remaining_after s =? 6)
  end.

(** ** The range *)

Definition user_byte (a : Z) : Prop := USER_MIN ≤ a < USER_LIMIT.

Lemma range_check_spec addr size : is_u64 addr → is_u64 size → is_ok (range_check addr size) = true ↔ ∀ a, addr ≤ a < addr + size → user_byte a.
Proof.
  intros Ha Hs. unfold range_check, user_byte, USER_MIN, USER_LIMIT. destruct (Z.eqb_spec size 0) as [->|Hs0]; [split; [intros _ a; lia | done] |].
  assert (Hfirst : (∀ a, addr ≤ a < addr + size → 0x10000 ≤ a < 0x800000000000) ↔ 0x10000 ≤ addr ∧ addr + size ≤ 0x800000000000).
  { split; [intros H; pose proof (H addr ltac:(ulia)); pose proof (H (addr + size - 1) ltac:(ulia)); lia | intros H a Ha'; lia]. }
  rewrite Hfirst. destruct (Z.eqb_spec addr 0); [cbn; split; [done | lia] |]. destruct (Z.ltb_spec addr 0x10000); [cbn; split; [done | lia] |]. unfold add_u64.
  destruct (Z.leb_spec (addr + (size - 1)) U64MAX); [| cbn; split; [done | ulia]]. destruct (Z.leb_spec 0x800000000000 (addr + (size - 1))); cbn; (split; [done || lia | done || lia]).
Qed.

(** ** A copy as its steps *)

(** The pieces of the loop [while (done < size)] that every copy runs: each time
    [copy_step] at the address reached, with what remains. *)
Fixpoint pieces (fuel : nat) (addr remaining : Z) : option (list (Z * Z)) :=
  if remaining <=? 0 then Some [] else
  match fuel, rabbitbone_rust_user_copy_step addr remaining (Some (mk_step 0 0 0 0)) with
  | S n, (Some s, true) => if (ok s =? 0) || (chunk s =? 0) then None else cons (addr, chunk s) <$> pieces n (addr + chunk s) (remaining - chunk s)
  | _, _ => None
  end.

Definition addresses (l : list (Z * Z)) : list Z := l ≫= λ p, seqZ p.1 p.2.

(** A piece stays in the page it starts in. *)
Definition in_one_page (p : Z * Z) : Prop := 0 < p.2 ∧ p.1 / PAGE_SIZE = (p.1 + p.2 - 1) / PAGE_SIZE.

Lemma copy_step_spec addr remaining : is_u64 addr → is_u64 remaining → remaining ≠ 0 → is_ok (range_check addr remaining) = true →
  ∃ n, copy_step addr remaining = Ok (mk_step 1 (addr mod PAGE_SIZE) n (remaining - n)) ∧ 0 < n ≤ remaining ∧ in_one_page (addr, n) ∧ (n = remaining ∨ (addr + n) mod PAGE_SIZE = 0).
Proof.
  intros Ha Hr Hr0 Hok. unfold copy_step. destruct (range_check addr remaining); [| done]. change (PAGE_SIZE - 1) with (Z.ones 12). rewrite Z.land_ones by lia. change (2 ^ 12) with PAGE_SIZE. unfold in_one_page, PAGE_SIZE in *. cbn [fst snd].
  pose proof (Z.div_mod addr 4096 ltac:(lia)) as D. pose proof (Z.mod_pos_bound addr 4096 ltac:(lia)) as B. set (q := addr / 4096) in *. set (o := addr mod 4096) in *. eexists. split; [done |].
  destruct (Z.ltb_spec remaining (4096 - o)).
  - split; [ulia |]. split; [| by left]. split; [ulia |]. apply (Z.div_unique _ _ _ (o + remaining - 1)); ulia.
  - split; [ulia |]. split; [| right; replace (addr + (4096 - o)) with ((q + 1) * 4096) by lia; by apply Z.mod_mul]. split; [lia |]. apply (Z.div_unique _ _ _ 4095); lia.
Qed.

(** The pages that a range touches. *)
Definition pages_touched (addr size : Z) : Z := if size =? 0 then 0 else (addr + size - 1) / PAGE_SIZE - addr / PAGE_SIZE + 1.

Lemma range_check_rest addr size n : is_u64 addr → is_u64 size → 0 < n ≤ size → is_ok (range_check addr size) = true → is_u64 (addr + n) ∧ is_u64 (size - n) ∧ is_ok (range_check (addr + n) (size - n)) = true.
Proof.
  intros Ha Hs Hn Hok. pose proof (proj1 (range_check_spec addr size Ha Hs) Hok) as H. assert (Hl : addr + size ≤ USER_LIMIT) by (pose proof (H (addr + size - 1) ltac:(lia)); unfold user_byte in *; lia). unfold USER_LIMIT in Hl.
  assert (H1 : is_u64 (addr + n)) by ulia. assert (H2 : is_u64 (size - n)) by ulia. split_and!; [done | done |]. apply range_check_spec; [done | done |]. intros a Ha'. apply H. lia.
Qed.

Lemma pieces_spec fuel addr size : is_u64 addr → is_u64 size → is_ok (range_check addr size) = true → pages_touched addr size ≤ Z.of_nat fuel →
  ∃ l, pieces fuel addr size = Some l ∧ addresses l = seqZ addr size ∧ Forall in_one_page l ∧ zlen l = pages_touched addr size.
Proof.
  revert addr size. induction fuel as [|fuel IH]; intros addr size Ha Hs Hok Hf.
  - unfold pages_touched in *. destruct (Z.eqb_spec size 0) as [->|Hs0]; [exists []; split_and!; [done | by rewrite seqZ_nil | constructor | done] |]. exfalso.
    pose proof (Z.div_le_mono addr (addr + size - 1) PAGE_SIZE ltac:(done) ltac:(ulia)). lia.
  - cbn [pieces]. destruct (Z.leb_spec size 0) as [Hz|Hz]; [assert (size = 0) as -> by ulia; exists []; split_and!; [done | by rewrite seqZ_nil | constructor | done] |].
    destruct (copy_step_spec addr size Ha Hs ltac:(lia) Hok) as (n & E & Hn & Hp & Hend). cbn [rabbitbone_rust_user_copy_step]. rewrite E. cbn [ok chunk]. bfalse (n =? 0). cbn [orb Z.eqb].
    destruct (range_check_rest addr size n Ha Hs Hn Hok) as (Ha' & Hs' & Hok'). assert (Hpt : pages_touched addr size = 1 + pages_touched (addr + n) (size - n)).
    { unfold pages_touched. bfalse (size =? 0). destruct Hp as [_ Hp]. cbn [fst snd] in Hp. destruct (Z.eqb_spec (size - n) 0) as [E0|E0]; [replace size with n by lia; lia |]. destruct Hend as [->|Hend]; [lia |]. replace (addr + n + (size - n) - 1) with (addr + size - 1) by lia.
      assert ((addr + n) / PAGE_SIZE = addr / PAGE_SIZE + 1); [| lia]. rewrite Hp. unfold PAGE_SIZE in *. pose proof (Z.div_mod (addr + n) 4096 ltac:(lia)). rewrite Hend in *. replace ((addr + n - 1) / 4096) with ((addr + n) / 4096 - 1); [lia |]. apply (Z.div_unique _ _ _ 4095); lia. }
    destruct (IH (addr + n) (size - n) Ha' Hs' Hok' ltac:(lia)) as (l & -> & Hl & Hall & Hlen). exists ((addr, n) :: l). split_and!; [done | | by constructor | rewrite zlen_cons; lia].
    cbn [addresses mbind list_bind]. fold (addresses l). rewrite Hl. cbn [fst snd]. replace size with (n + (size - n)) at 2 by lia. rewrite seqZ_app by lia. done.
Qed.

(** A range is accepted exactly when all its bytes are addresses a process may have.  The loop that copies an
    accepted range ends after as many pieces as the range touches pages, no piece crosses a page, and together
    they are the bytes of the range, each once and in order; a range that is not accepted is refused at the first
    piece. *)
Theorem user_copy_correct addr size :
  is_u64 addr → is_u64 size →
  (rabbitbone_rust_user_range_check addr size = true ↔ ∀ a, addr ≤ a < addr + size → user_byte a) ∧
  if rabbitbone_rust_user_range_check addr size
  then ∀ fuel, pages_touched addr size ≤ Z.of_nat fuel → ∃ l, pieces fuel addr size = Some l ∧ addresses l = seqZ addr size ∧ Forall in_one_page l ∧ zlen l = pages_touched addr size
  else ∀ fuel, pieces fuel addr size = None.
Proof.
  intros Ha Hs. unfold rabbitbone_rust_user_range_check. split; [by apply range_check_spec |]. destruct (is_ok (range_check addr size)) eqn:Hok; [intros fuel Hf; by apply pieces_spec |].
  intros fuel. assert (size ≠ 0) by (intros ->; done). destruct fuel; cbn [pieces]; (destruct (Z.leb_spec size 0); [ulia |]); [done |]. cbn [rabbitbone_rust_user_copy_step]. unfold copy_step. by destruct (range_check addr size).
Qed.

Lemma user_copy_correct_witness : pieces 3 (USER_MIN + 4094) 5000 = Some [(USER_MIN + 4094, 2); (USER_MIN + 4096, 4096); (USER_MIN + 8192, 902)] ∧ ∃ l, pieces 3 (USER_MIN + 4094) 5000 = Some l ∧ addresses l = seqZ (USER_MIN + 4094) 5000.
Proof.
  split; [reflexivity |]. destruct (user_copy_correct (USER_MIN + 4094) 5000) as [_ H]; [unfold USER_MIN; ulia | ulia |]. destruct (H 3%nat) as (l & E & E' & _); [by vm_compute |]. exists l. split; [exact E | exact E'].
Defined.

Lemma usercopy_selftest_passes : rabbitbone_rust_usercopy_selftest = true.
Proof. reflexivity. Qed.
