(* ===== verification/PathPolicy.v ===== *)
(** * Which paths the kernel takes: [kernel/rust/path_policy.rs]

    One pass over a path checks its bytes, the length of its components and that none
    is dot or dot-dot.  [path_ok] is the specification, on the components. *)

From Stdlib Require Import ZArith Lia String.
From stdpp Require Import prelude list_numbers.
From S2P Require Import Prelude CString Path Rust.

Local Open Scope Z_scope.

Inductive PathError := Null | Empty | TooLong | NotAbsolute | BadByte | ComponentTooLong | DotComponent.

(** The length of the string in the slice of [len] bytes at [buf]. *)
Definition cstr_len (buf : list Z) (len : Z) : res (result Z PathError) :=
  c ← loop_n (Z.to_nat len) 0 (λ i (_ : unit),
    b ← rd buf i;
    Ret (if b =? 0 then Done (if i =? 0 then Err Empty else Ok i) else Next tt)) tt;
  Ret (match c with Done r => r | Next _ => Err TooLong end).

Definition component_is_dot (buf : list Z) (start len : Z) : res bool := if len =? 1 then b ← rd buf start; Ret (b =? DOT) else Ret false.

Definition component_is_dotdot (buf : list Z) (start len : Z) : res bool :=
  if len =? 2 then b ← rd buf start; if b =? DOT then b ← rd buf (start + 1); Ret (b =? DOT) else Ret false else Ret false.

Definition validate_component (buf : list Z) (start len : Z) : res (result unit PathError) :=
  if len =? 0 then Ret (Ok tt) else
  if VFS_NAME_MAX <=? len then Ret (Err ComponentTooLong) else
  dot ← component_is_dot buf start len;
  dotdot ← (if dot : bool then Ret true else component_is_dotdot buf start len);
  Ret (if dotdot : bool then Err DotComponent else Ok tt).

(** One round of the loop over the bytes; the state is where the component starts and
    how long it is. *)
Definition shape_step (buf : list Z) (reject_dots : bool) (i : Z) (s : Z * Z) : res (ctl (Z * Z) PathError) :=
  let '(comp_start, comp_len) := s in
  b ← rd buf i;
  if (b <? 0x20) || (b =? 0x7f) || (b =? BACKSLASH) then Ret (Done BadByte) else
  if b =? SLASH then
    r ← (if reject_dots then validate_component buf comp_start comp_len else Ret (Ok tt));
    Ret (match r with Err e => Done e | Ok _ => Next (i + 1, 0) end)
  else
    let comp_start := if comp_len =? 0 then i else comp_start in
    let comp_len := comp_len + 1 in
    Ret (if VFS_NAME_MAX <=? comp_len then Done ComponentTooLong else Next (comp_start, comp_len)).

Definition validate_path_shape (buf : list Z) (max : Z) (require_absolute reject_dots : bool) : res (result unit PathError) :=
  if max =? 0 then Ret (Err Null) else
  len ←? cstr_len buf max;
  if VFS_PATH_MAX <=? len then Ret (Err TooLong) else
  absolute ← (if require_absolute then b ← rd buf 0; Ret (b =? SLASH) else Ret true);
  if negb absolute then Ret (Err NotAbsolute) else
  c ← loop_n (Z.to_nat len) 0 (shape_step buf reject_dots) (0, 0);
  match c with
  | Done e => Ret (Err e)
  | Next (comp_start, comp_len) => if reject_dots then validate_component buf comp_start comp_len else Ret (Ok tt)
  end.

Definition validate_path (buf : list Z) (max : Z) : res (result unit PathError) := validate_path_shape buf max true true.

Definition rabbitbone_rust_path_policy_check (ptr : option (list Z)) (max_len : Z) : res bool :=
  match ptr with
  | None => Ret false
  | Some buf =>
      if (max_len =? 0) || (VFS_PATH_MAX <? max_len) then Ret false else
      r ← validate_path buf max_len; Ret (is_ok r)
  end.

Definition rabbitbone_rust_path_no_traversal_check (ptr : option (list Z)) (max_len : Z) (allow_relative : bool) : res bool :=
  match ptr with
  | None => Ret false
  | Some buf =>
      if (max_len =? 0) || (VFS_PATH_MAX <? max_len) then Ret false else
      r ← validate_path_shape buf max_len (negb allow_relative) true; Ret (is_ok r)
  end.

(** A literal with its terminator. *)
Definition zstr (s : string) : list Z := bytes_of s ++ [0].

Definition accepts (s : list Z) (absolute : bool) : res bool := r ← validate_path_shape s (zlen s) absolute true; Ret (is_ok r).

Definition rabbitbone_rust_path_policy_selftest : res bool :=
  a ← accepts (zstr "/tmp/file") true; if negb a then Ret false else
  a ← accepts (zstr "/disk0/../disk0/hello.txt") true; if (a : bool) then Ret false else
  a ← accepts (zstr "relative") true; if (a : bool) then Ret false else
  a ← accepts (zstr "/disk0/hello.txt") true; if negb a then Ret false else
  a ← accepts (zstr "relative/link") false; if negb a then Ret false else
  a ← accepts (zstr "../escape") false; if (a : bool) then Ret false else
  a ← accepts (zstr "/bad\path") true; if (a : bool) then Ret false else
  a ← accepts (zstr "") true; if (a : bool) then Ret false else
  long ← wr (replicate (Z.to_nat (VFS_NAME_MAX + 2)) 97) 0 SLASH;
  long ← wr long (VFS_NAME_MAX + 1) 0;
  a ← accepts long true; Ret (negb a).

(** ** Splitting from the end *)

Lemma split_slash_snoc l c cs cur : split_slash l = cs ++ [cur] → split_slash (l ++ [c]) = if is_slash c then cs ++ [cur; []] else cs ++ [cur ++ [c]].
Proof.
  revert cs cur. induction l as [|x l IH]; intros cs cur.
  - cbn. intros E. destruct cs as [|? [|]]; cbn in *; simplify_eq. by destruct (is_slash c).
  - cbn [app split_slash]. destruct (split_slash l) as [|h r] eqn:El; [by destruct l as [|y l]; cbn in El; [| destruct (is_slash y); [| destruct (split_slash l)]] |].
    destruct (is_slash x).
    + intros E. destruct cs as [|d cs]; cbn in E; [by injection E as <- ?|]. injection E as <- E. rewrite (IH cs cur E). by destruct (is_slash c).
    + intros E. destruct cs as [|d cs]; cbn in E.
      * injection E as <- ->. rewrite (IH [] h eq_refl). cbn. by destruct (is_slash c).
      * injection E as <- ->. rewrite (IH (h :: cs) cur eq_refl). cbn. by destruct (is_slash c).
Qed.

Lemma split_slash_ends l : ∃ cs cur, split_slash l = cs ++ [cur].
Proof.
  induction l as [|c l (cs & cur & IH)] using rev_ind; [by exists [], [] |]. rewrite (split_slash_snoc l c cs cur IH). destruct (is_slash c); [exists (cs ++ [cur]), []; by rewrite <- app_assoc | by exists cs, (cur ++ [c])].
Qed.

Lemma split_slash_app p q cs cur : split_slash p = cs ++ [cur] → split_slash (p ++ q) = cs ++ match split_slash q with h :: r => (cur ++ h) :: r | [] => [] end.
Proof.
  intros Hp. induction q as [|c q IH] using rev_ind; [cbn; by rewrite !app_nil_r |]. destruct (split_slash_ends q) as (ds & d & Eq). rewrite app_assoc. rewrite Eq in IH.
  rewrite (split_slash_snoc q c ds d Eq). destruct ds as [|e ds]; cbn [app] in *.
  - rewrite (split_slash_snoc (p ++ q) c cs (cur ++ d) IH). by destruct (is_slash c); cbn; rewrite ?app_assoc.
  - rewrite (split_slash_snoc (p ++ q) c (cs ++ (cur ++ e) :: ds) d); [destruct (is_slash c); cbn; by rewrite <- !app_assoc | rewrite IH; by rewrite <- app_assoc].
Qed.

Lemma split_slash_suffix p cs cur : split_slash p = cs ++ [cur] → ∃ a, p = a ++ cur.
Proof.
  revert cs cur. induction p as [|c p IH] using rev_ind; intros cs cur E; [destruct cs as [|? [|]]; cbn in E; simplify_eq; by exists [] |]. destruct (split_slash_ends p) as (ds & d & Ed). rewrite (split_slash_snoc p c ds d Ed) in E. destruct (is_slash c).
  - replace (ds ++ [d; []]) with ((ds ++ [d]) ++ [[]]) in E by by rewrite <- app_assoc. apply app_inj_tail in E as [_ <-]. exists (p ++ [c]). by rewrite app_nil_r.
  - apply app_inj_tail in E as [_ <-]. destruct (IH ds d Ed) as [a Ha]. exists a. rewrite Ha. by rewrite <- app_assoc.
Qed.

(** ** Which paths are accepted *)

Definition is_dots (c : list Z) : bool := bool_decide (c = [DOT] ∨ c = [DOT; DOT]).

Definition comp_ok (dots : bool) (c : list Z) : bool := (zlen c <? VFS_NAME_MAX) && negb (dots && is_dots c).

Definition shape_ok (dots : bool) (s : list Z) : bool := forallb path_component_byte_allowed s && forallb (comp_ok dots) (split_slash s).

Definition path_ok (absolute dots : bool) (s : list Z) : bool :=
  negb (bool_decide (s = [])) && (zlen s <? VFS_PATH_MAX) && (negb absolute || bool_decide (head s = Some SLASH)) && shape_ok dots s.

Lemma cstr_len_spec buf s max : cstr_at buf s → 0 ≤ max → cstr_len buf max = Ret (if zlen s <? max then if bool_decide (s = []) then Err Empty else Ok (zlen s) else Err TooLong).
Proof.
  intros [Hs [rest ->]] Hmax. unfold cstr_len. pose proof (zlen_nonneg s) as Hz.
  match goal with |- context [loop_n ?n ?i0 ?body ?t] => destruct (loop_n_inv (λ i (_ : unit), i ≤ zlen s) (λ r, zlen s < max ∧ r = if bool_decide (s = []) then Err Empty else Ok (zlen s)) body n i0 t) as [([] & -> & Hn)|(r & -> & Hlt & ->)] end.
  - done.
  - intros i [] Hi Hle. destruct (decide (i = zlen s)) as [->|Hne].
    + right. rewrite rd_app_r, Z.sub_diag by lia. cbn [app]. rewrite rd_cons_0. mred. eexists. split; [done |]. split; [lia |]. destruct s as [|c s]; [done |]. rewrite zlen_cons in *. pose proof (zlen_nonneg s). bfalse (1 + zlen s =? 0). done.
    + left. destruct (rd_inbounds s i) as [c Hc]; [lia |]. rewrite rd_app_l by lia. rewrite Hc. mred. apply rd_Ret in Hc as [_ Hc]. pose proof (Forall_lookup_1 _ _ _ _ Hs Hc) as Hc0. cbn in Hc0. rewrite (proj2 (Z.eqb_neq c 0) Hc0). exists tt. split; [done | lia].
  - mred. bfalse (zlen s <? max). done.
  - mred. by btrue (zlen s <? max).
Qed.

(** The component [cur] lies at [start]. *)
Definition comp_at (buf : list Z) (start : Z) (cur : list Z) : Prop := cur ≠ [] → ∀ k x, cur !! k = Some x → rd buf (start + Z.of_nat k) = Ret x.

Lemma validate_component_spec buf start cur : comp_at buf start cur → zlen cur < VFS_NAME_MAX → ∃ r, validate_component buf start (zlen cur) = Ret r ∧ is_ok r = comp_ok true cur.
Proof.
  intros Hat Hlen. unfold validate_component, comp_ok. btrue (zlen cur <? VFS_NAME_MAX). bfalse (VFS_NAME_MAX <=? zlen cur). cbn [andb]. destruct cur as [|x cur]; [by exists (Ok tt) |]. assert (Hr := Hat ltac:(done)). clear Hat. rewrite zlen_cons. pose proof (zlen_nonneg cur). bfalse (1 + zlen cur =? 0).
  pose proof (Hr O x eq_refl) as R0. rewrite Z.add_0_r in R0. unfold component_is_dot, component_is_dotdot. destruct cur as [|y cur].
  - change (1 + zlen []) with 1. cbn [Z.eqb Pos.eqb]. rewrite R0. mred. exists (if x =? DOT then Err DotComponent else Ok tt). split; [by destruct (x =? DOT); mred |]. unfold is_dots. destruct (Z.eqb_spec x DOT) as [->|Hx]; [by rewrite bool_decide_true by auto |]. rewrite bool_decide_false; [done |]. intros [[= ?]|[=]]. done.
  - pose proof (Hr 1%nat y eq_refl) as R1. change (Z.of_nat 1) with 1 in R1. rewrite zlen_cons. pose proof (zlen_nonneg cur). bfalse (1 + (1 + zlen cur) =? 1). mred. rewrite R0. mred. destruct cur as [|z cur].
    + change (1 + (1 + zlen [])) with 2. cbn [Z.eqb Pos.eqb]. rewrite R1. exists (if (x =? DOT) && (y =? DOT) then Err DotComponent else Ok tt). split; [by destruct (x =? DOT); mred; destruct (y =? DOT) |]. unfold is_dots.
      destruct (Z.eqb_spec x DOT) as [->|Hx]; cbn [andb]; [destruct (Z.eqb_spec y DOT) as [->|Hy]; [by rewrite bool_decide_true by auto |] |]; (rewrite bool_decide_false; [done |]); intros [E|E]; congruence.
    + rewrite zlen_cons. pose proof (zlen_nonneg cur). bfalse (1 + (1 + (1 + zlen cur)) =? 2). mred. exists (Ok tt). split; [done |]. unfold is_dots. rewrite bool_decide_false; [done |]. by intros [[=]|[=]].
Qed.

(** *** The loop over the bytes *)

Lemma byte_refused b : (b <? 0x20) || (b =? 0x7f) || (b =? BACKSLASH) = negb (path_component_byte_allowed b).
Proof. unfold path_component_byte_allowed. rewrite Z.leb_antisym, !negb_andb, !negb_involutive. done. Qed.

(** The state of the loop behind the bytes [p]. *)
Record shape_inv (buf : list Z) (dots : bool) (p : list Z) (st : Z * Z) (cs : list (list Z)) (cur : list Z) : Prop := {
  si_split : split_slash p = cs ++ [cur];
  si_len : st.2 = zlen cur;
  si_at : cur ≠ [] → st.1 + zlen cur = zlen p;
  si_short : zlen cur < VFS_NAME_MAX;
  si_bytes : forallb path_component_byte_allowed p = true;
  si_comps : forallb (comp_ok dots) cs = true;
}.

Lemma shape_at buf s rest p q dots st cs cur : buf = s ++ rest → s = p ++ q → shape_inv buf dots p st cs cur → comp_at buf st.1 cur.
Proof.
  intros -> -> [Hs _ Hat _ _ _] Hne k x Hk. specialize (Hat Hne). destruct (split_slash_suffix p cs cur Hs) as [a ->]. rewrite zlen_app in Hat. assert (st.1 = zlen a) as -> by lia. rewrite <- !app_assoc. rewrite rd_app_r by lia.
  replace (zlen a + Z.of_nat k - zlen a) with (Z.of_nat k) by lia. rewrite rd_nat. by rewrite (lookup_app_l_Some _ _ _ _ Hk).
Qed.

Lemma shape_step_spec buf s rest p b q dots st cs cur : buf = s ++ rest → s = p ++ b :: q → shape_inv buf dots p st cs cur →
  (∃ st' cs' cur', shape_step buf dots (zlen p) st = Ret (Next st') ∧ shape_inv buf dots (p ++ [b]) st' cs' cur') ∨ (∃ e, shape_step buf dots (zlen p) st = Ret (Done e) ∧ shape_ok dots s = false).
Proof.
  intros Hbuf Hs Hinv. pose proof (shape_at buf s rest p (b :: q) dots st cs cur Hbuf Hs Hinv) as Hat. destruct Hinv as [I1 I2 I3 I4 I5 I6]. destruct st as [comp_start comp_len]. cbn [fst snd] in *. subst comp_len. unfold shape_step.
  assert (Hb : rd buf (zlen p) = Ret b). { rewrite Hbuf, Hs, <- app_assoc, rd_app_r, Z.sub_diag by lia. done. }
  rewrite Hb. mred. rewrite byte_refused. assert (Hsplit := split_slash_app p (b :: q) cs cur I1). rewrite <- Hs in Hsplit. unfold shape_ok. destruct (path_component_byte_allowed b) eqn:Eb; cbn [negb].
  2: { right. eexists. split; [done |]. rewrite Hs, forallb_app. cbn [forallb]. by rewrite Eb, andb_false_r. }
  assert (Hbytes : forallb path_component_byte_allowed (p ++ [b]) = true) by (rewrite forallb_app, I5; cbn; by rewrite Eb). pose proof (split_slash_snoc p b cs cur I1) as Hsn. destruct (b =? SLASH) eqn:Esl.
  - assert (Hsl : is_slash b = true) by exact Esl. rewrite Hsl in Hsn. cbn [split_slash] in Hsplit. rewrite Hsl, app_nil_r in Hsplit.
    assert (Hc : ∃ r, (if dots then validate_component buf comp_start (zlen cur) else Ret (Ok tt)) = Ret r ∧ is_ok r = comp_ok dots cur).
    { destruct dots; [by apply validate_component_spec |]. exists (Ok tt). split; [done |]. unfold comp_ok. by btrue (zlen cur <? VFS_NAME_MAX). }
    destruct Hc as (r & -> & Hr). mred. destruct r as [[]|e]; cbn in Hr.
    + left. eexists _, (cs ++ [cur]), []. split; [done |]. split; cbn [fst snd]; [by rewrite Hsn, <- app_assoc | done | done | done | done |]. rewrite forallb_app, I6. cbn. by rewrite <- Hr.
    + right. eexists. split; [done |]. rewrite Hsplit, forallb_app. cbn [forallb]. rewrite <- Hr. cbn [andb]. by rewrite !andb_false_r.
  - assert (Hsl : is_slash b = false) by exact Esl. rewrite Hsl in Hsn. destruct (Z.leb_spec VFS_NAME_MAX (zlen cur + 1)) as [Hl|Hl].
    + right. eexists. split; [done |]. rewrite Hsplit. cbn [split_slash]. rewrite Hsl. destruct (split_slash_ends q) as (ds & d & Eq). assert (∃ h r, split_slash q = h :: r) as (h & r & ->) by (rewrite Eq; destruct ds; cbn; eauto).
      rewrite forallb_app. cbn [forallb]. unfold comp_ok at 2. rewrite zlen_app, zlen_cons. pose proof (zlen_nonneg h). bfalse (zlen cur + (1 + zlen h) <? VFS_NAME_MAX). cbn [andb]. by rewrite !andb_false_r.
    + left. eexists _, cs, (cur ++ [b]). split; [done |]. split; cbn [fst snd]; [done | by rewrite zlen_app, zlen_1 | | rewrite zlen_app, zlen_1; lia | done | done]. intros _. rewrite !zlen_app, !zlen_1. destruct cur as [|x cur].
      * change (@zlen Z []) with 0. cbn [Z.eqb]. lia.
      * rewrite zlen_cons. pose proof (zlen_nonneg cur). bfalse (1 + zlen cur =? 0). specialize (I3 ltac:(done)). rewrite zlen_cons in I3. lia.
Qed.

Lemma validate_shape_spec buf s max absolute dots : cstr_at buf s → 0 < max → ∃ r, validate_path_shape buf max absolute dots = Ret r ∧ is_ok r = (zlen s <? max) && path_ok absolute dots s.
Proof.
  intros Hc Hmax. pose proof Hc as [_ [rest Hbuf]]. unfold validate_path_shape, path_ok. bfalse (max =? 0). unfold try. rewrite (cstr_len_spec buf s max Hc) by lia. mred. destruct (Z.ltb_spec (zlen s) max) as [Hlt|Hlt]; cbn [andb]; [| by eexists]. case_bool_decide as Hne; cbn [negb andb]; [by eexists |].
  destruct (Z.ltb_spec (zlen s) VFS_PATH_MAX) as [Hp|Hp]; [bfalse (VFS_PATH_MAX <=? zlen s) | btrue (VFS_PATH_MAX <=? zlen s); by eexists]. cbn [andb]. destruct s as [|b0 s0] eqn:Es; [done |]. rewrite <- Es in *. clear Hne.
  assert (Habs : (if absolute then b ← rd buf 0; Ret (b =? SLASH) else Ret true) = Ret (negb absolute || bool_decide (head s = Some SLASH))).
  { destruct absolute; [| done]. rewrite Hbuf, Es. cbn [app]. rewrite rd_cons_0. mred. cbn. f_equal. destruct (Z.eqb_spec b0 SLASH) as [->|Hb]; [by rewrite bool_decide_true | rewrite bool_decide_false; [done | congruence]]. }
  rewrite Habs. mred. destruct (negb absolute || _); cbn [negb andb]; [| by eexists].
  match goal with |- context [loop_n ?n ?i0 ?body ?t] => destruct (loop_n_inv (λ i st, ∃ cs cur, shape_inv buf dots (take (Z.to_nat i) s) st cs cur) (λ _, shape_ok dots s = false) body n i0 t) as [(st & -> & cs & cur & Hinv)|(e & -> & Hno)] end.
  - exists [], []. by split.
  - intros i st Hi (cs & cur & Hinv). destruct (lookup_lt_is_Some_2 s (Z.to_nat i)) as [b Hb]; [unfold zlen in *; lia |]. pose proof (take_drop_middle s _ b Hb) as Hs. assert (Hz : zlen (take (Z.to_nat i) s) = i) by (unfold zlen in *; rewrite length_take; lia).
    destruct (shape_step_spec buf s (0 :: rest) (take (Z.to_nat i) s) b (drop (S (Z.to_nat i)) s) dots st cs cur Hbuf (eq_sym Hs) Hinv) as [(st' & cs' & cur' & E & Hinv')|(e & E & Hno)]; rewrite Hz in E; [left | right; by exists e].
    exists st'. split; [done |]. exists cs', cur'. replace (Z.to_nat (i + 1)) with (S (Z.to_nat i)) by lia. by rewrite (take_S_r _ _ _ Hb).
  - mred. rewrite Z.add_0_l, Z2Nat.id, take_ge in Hinv by (unfold zlen in *; lia). pose proof (shape_at buf s (0 :: rest) s [] dots st cs cur Hbuf ltac:(by rewrite app_nil_r) Hinv) as Hat. destruct Hinv as [I1 I2 I3 I4 I5 I6]. destruct st as [cstart clen]. cbn [fst snd] in *. subst clen.
    unfold shape_ok. rewrite I5, I1, forallb_app, I6. cbn [forallb andb]. rewrite andb_true_r. destruct dots; [by apply validate_component_spec |]. exists (Ok tt). split; [done |]. unfold comp_ok. by btrue (zlen cur <? VFS_NAME_MAX).
  - mred. exists (Err e). by rewrite Hno.
Qed.

(** ** Accepted paths are in normal form *)

Lemma split_slash_Forall (Q : Z → Prop) s : Forall Q s → Forall (Forall Q) (split_slash s).
Proof.
  induction 1 as [|c s Hc _ IH]; cbn [split_slash]; [by repeat constructor |]. destruct (is_slash c); [by constructor |]. destruct (split_slash s) as [|h r]; [by repeat constructor |]. apply Forall_cons in IH as [? ?]. by repeat constructor.
Qed.

Lemma split_slash_weight s : zlen (concat (map (cons SLASH) (split_slash s))) = zlen s + 1.
Proof.
  induction s as [|c s IH]; [done |]. cbn [split_slash]. destruct (is_slash c); cbn [map concat app]; [rewrite !zlen_cons; lia |]. destruct (split_slash_ends s) as (cs & cur & E). destruct (split_slash s) as [|h r]; [by destruct cs |].
  cbn [map concat app] in *. autorewrite with zlen in *. lia.
Qed.

Lemma filter_weight (l : list (list Z)) : zlen (concat (map (cons SLASH) (filter (λ c, c ≠ []) l))) ≤ zlen (concat (map (cons SLASH) l)).
Proof.
  induction l as [|c l IH]; [done |]. destruct (decide (c ≠ [])) as [Hc|Hc]; [rewrite filter_cons_True by done | rewrite filter_cons_False by done]; cbn [map concat]; rewrite ?zlen_app; [lia |]. pose proof (zlen_nonneg (SLASH :: c)). lia.
Qed.

Lemma render_components_fits s : head s = Some SLASH → zlen (render (components s)) ≤ zlen s.
Proof.
  intros Hh. destruct s as [|c s]; [done |]. injection Hh as ->. rewrite components_slash by done. unfold components. pose proof (filter_weight (split_slash s)) as Hw. rewrite split_slash_weight in Hw. rewrite zlen_cons. pose proof (zlen_nonneg s).
  destruct (decide (filter (λ c, c ≠ []) (split_slash s) = [])) as [->|Hne]; [cbn [render]; rewrite zlen_1; lia |]. rewrite <- concat_slash_ne by done. lia.
Qed.

Lemma path_ok_normal s : path_ok true true s = true → Forall good_comp (components s) ∧ normal_form VFS_PATH_MAX s = Some (render (components s)).
Proof.
  unfold path_ok, shape_ok. cbn [negb orb]. rewrite !andb_true_iff, Z.ltb_lt, bool_decide_eq_true. intros [[[_ Hlen] Hh] [Hb Hc]].
  assert (Hgood : Forall good_comp (components s)).
  { apply Forall_forall. intros c Hin. pose proof (proj1 (Forall_forall _ _) (components_good s) c Hin) as [Hne Hns]. apply list_elem_of_filter in Hin as [_ Hin]. rewrite forallb_forall in Hc. specialize (Hc c (proj1 (list_elem_of_In _ _) Hin)). unfold comp_ok, is_dots in Hc. apply andb_true_iff in Hc as [Hl Hd]. cbn [andb] in Hd. rewrite negb_true_iff, bool_decide_eq_false in Hd.
    split_and!; [done | done | | tauto | tauto]. unfold comp_allowed. rewrite Hl. cbn [andb]. apply forallb_forall. intros x Hx. rewrite forallb_forall in Hb. assert (Hall : Forall (λ x, path_component_byte_allowed x = true) s) by (apply Forall_forall; intros y Hy; apply Hb, list_elem_of_In; done).
    apply split_slash_Forall in Hall. apply (proj1 (Forall_forall _ _) Hall c) in Hin. apply (proj1 (Forall_forall _ _) Hin). by apply list_elem_of_In. }
  split; [done |]. pose proof (render_components_fits s Hh). unfold normal_form. destruct s as [|x s]; [done |]. injection Hh as ->. change (is_slash SLASH) with true. btrue (zlen (SLASH :: s) <? VFS_PATH_MAX). cbn [andb].
  rewrite (resolve_fixpoint VFS_PATH_MAX [] (components (SLASH :: s))) by (done || (cbn [app]; lia)). done.
Qed.

(** The policy accepts exactly the paths that fit, are absolute where they must be, hold no control byte and no
    backslash, and whose components are short enough and neither dot nor dot-dot.  An accepted path needs no
    resolving: its normal form is its own components. *)
Theorem path_policy_correct buf s max :
  cstr_at buf s → 0 < max ≤ VFS_PATH_MAX →
  rabbitbone_rust_path_policy_check (Some buf) max = Ret ((zlen s <? max) && path_ok true true s) ∧
  (∀ relative, rabbitbone_rust_path_no_traversal_check (Some buf) max relative = Ret ((zlen s <? max) && path_ok (negb relative) true s)) ∧
  (path_ok true true s = true → Forall good_comp (components s) ∧ normal_form VFS_PATH_MAX s = Some (render (components s))).
Proof.
  intros Hc Hmax. unfold rabbitbone_rust_path_policy_check, rabbitbone_rust_path_no_traversal_check, validate_path. bfalse (max =? 0). bfalse (VFS_PATH_MAX <? max). cbn [orb]. split_and!.
  - destruct (validate_shape_spec buf s max true true Hc ltac:(lia)) as (r & -> & <-). done.
  - intros rel. destruct (validate_shape_spec buf s max (negb rel) true Hc ltac:(lia)) as (r & -> & <-). done.
  - apply path_ok_normal.
Qed.

Lemma path_policy_correct_witness :
  rabbitbone_rust_path_policy_check (Some (zstr "/disk0//hello.txt")) 256 = Ret true ∧ normal_form VFS_PATH_MAX (bytes_of "/disk0//hello.txt") = Some (bytes_of "/disk0/hello.txt").
Proof.
  destruct (path_policy_correct (zstr "/disk0//hello.txt") (bytes_of "/disk0//hello.txt") 256) as (E & _ & H); [| by vm_compute |].
  - split; [by repeat constructor | by exists []].
  - split; [rewrite E; reflexivity |]. destruct H as [_ H]; [by vm_compute |]. rewrite H. by vm_compute.
Defined.

Lemma path_policy_selftest_passes : rabbitbone_rust_path_policy_selftest = Ret true.
Proof. vm_compute. reflexivity. Qed.
