(* ===== verification/Route.v ===== *)
(** * Routing a path to its mount: [kernel/rust/vfs_route.rs]

    The path is normalised and the deepest mount above it found.  The specification is
    on components: the longest mount that is a prefix, and what is left of the path. *)

From Stdlib Require Import ZArith Lia String.
From stdpp Require Import prelude list_numbers.
From S2P Require Import Prelude CString Path Rust PathPolicy.

Local Open Scope Z_scope.

Definition VFS_MAX_MOUNTS : Z := 16.
Definition ERR_NOENT : Z := -1.
Definition ERR_INVAL : Z := -3.

Record MountView := mk_view { active : Z; path : list Z }.
Record RouteOut := mk_route { status : Z; found : Z; mount_index : Z; normalized : list Z; relative : list Z }.

Inductive RouteError := Invalid | NoEntry.

Definition not_nul (c : Z) : bool := negb (c =? 0).

(** The length of the string in a slice, which may fill it. *)
Definition cstr_len (buf : list Z) (len : Z) : res Z := scan_while (Z.to_nat len) not_nul buf 0 len.
Definition fixed_cstr_len (buf : list Z) : res Z := scan_while (Z.to_nat VFS_PATH_MAX) not_nul buf 0 VFS_PATH_MAX.

Definition route_component_byte_allowed (c : Z) : bool := (0x20 <=? c) && negb (c =? 0x7f) && negb (c =? BACKSLASH).

Definition append_component (out : list Z) (pos : Z) (input : list Z) (start len : Z) : res (result (list Z * Z) RouteError) :=
  if len =? 0 then Ret (Ok (out, pos)) else
  if VFS_NAME_MAX <=? len then Ret (Err Invalid) else
  let slash := if 1 <? pos then 1 else 0 in
  match add_u64 pos slash with
  | None => Ret (Err Invalid)
  | Some after_slash =>
      match add_u64 after_slash len with
      | None => Ret (Err Invalid)
      | Some e =>
          if VFS_PATH_MAX <=? e then Ret (Err Invalid) else
          c ← loop_n (Z.to_nat len) 0 (λ j (_ : unit),
            b ← rd input (start + j);
            Ret (if negb (route_component_byte_allowed b) then Done tt else Next tt)) tt;
          match c with
          | Done _ => Ret (Err Invalid)
          | Next _ =>
              '(out, pos) ← (if negb (slash =? 0) then out ← wr out pos SLASH; Ret (out, after_slash) else Ret (out, pos));
              out ← for_n (Z.to_nat len) 0 (λ j out, b ← rd input (start + j); wr out (pos + j) b) out;
              out ← wr out e 0;
              Ret (Ok (out, e))
          end
      end
  end.

Definition pop_component (out : list Z) (pos : Z) : res (result (list Z * Z) RouteError) :=
  if pos <=? 1 then Ret (Err Invalid) else
  pos ← back_to_slash (Z.to_nat pos) out pos;
  pos ← (if 1 <? pos then c ← rd out (pos - 1); Ret (if c =? SLASH then pos - 1 else pos) else Ret pos);
  out ← wr out pos 0;
  Ret (Ok (out, pos)).

(** The main loop of [normalize], from offset [i] of the input. *)
Fixpoint walk (fuel : nat) (input : list Z) (len : Z) (out : list Z) (pos i : Z) : res (result (list Z) RouteError) :=
  if len <=? i then Ret (Ok out) else
  match fuel with
  | O => Fault Diverged
  | S k =>
      i ← scan_while (Z.to_nat len) is_slash input i len;
      let start := i in
      i ← scan_while (Z.to_nat len) (λ c, negb (is_slash c)) input i len;
      let clen := i - start in
      skip ← (if clen =? 0 then Ret true else if clen =? 1 then c ← rd input start; Ret (c =? DOT) else Ret false);
      if (skip : bool) then walk k input len out pos i else
      dotdot ← (if clen =? 2 then c ← rd input start; if c =? DOT then d ← rd input (start + 1); Ret (d =? DOT) else Ret false else Ret false);
      if (dotdot : bool) then '(out, pos) ←? pop_component out pos; walk k input len out pos i
      else '(out, pos) ←? append_component out pos input start clen; walk k input len out pos i
  end.

Definition normalize (input : list Z) (input_len : Z) : res (result (list Z) RouteError) :=
  len ← cstr_len input input_len;
  if (len =? 0) || (VFS_PATH_MAX <=? len) then Ret (Err Invalid) else
  c ← rd input 0;
  if negb (c =? SLASH) then Ret (Err Invalid) else
  let out := replicate (Z.to_nat VFS_PATH_MAX) 0 in
  out ← wr out 0 SLASH;
  out ← wr out 1 0;
  walk (Z.to_nat len) input len out 1 0.

Definition path_depth (path : list Z) : res Z :=
  len ← fixed_cstr_len path;
  root ← (if len =? 1 then c ← rd path 0; Ret (c =? SLASH) else Ret false);
  if (root : bool) then Ret 0 else
  '(d, _) ← for_n (Z.to_nat len) 0 (λ i '(d, in_component),
    c ← rd path i;
    Ret (if c =? SLASH then (d, false) else if negb in_component then (d + 1, true) else (d, in_component))) (0, false);
  Ret d.

Definition mount_matches (mount path : list Z) : res bool :=
  ml ← fixed_cstr_len mount;
  if ml =? 0 then Ret false else
  root ← (if ml =? 1 then c ← rd mount 0; Ret (c =? SLASH) else Ret false);
  if (root : bool) then Ret true else
  pl ← fixed_cstr_len path;
  if pl <? ml then Ret false else
  c ← loop_n (Z.to_nat ml) 0 (λ i (_ : unit), a ← rd mount i; b ← rd path i; Ret (if negb (a =? b) then Done tt else Next tt)) tt;
  match c with
  | Done _ => Ret false
  | Next _ => c ← rd path ml; Ret ((c =? 0) || (c =? SLASH))
  end.

(** The string of the root. *)
Definition put_root (out : list Z) : res (list Z) := out ← wr out 0 SLASH; wr out 1 0.

Definition compute_relative (mount norm : list Z) : res (list Z) :=
  let out := replicate (Z.to_nat VFS_PATH_MAX) 0 in
  ml ← fixed_cstr_len mount;
  root ← (if ml =? 1 then c ← rd mount 0; Ret (c =? SLASH) else Ret false);
  if (root : bool) then Ret norm else
  ends ← (if ml <? VFS_PATH_MAX then c ← rd norm ml; Ret (c =? 0) else Ret false);
  if (ends : bool) then put_root out else
  c ← loop_n (Z.to_nat VFS_PATH_MAX) 0 (λ dst out,
    let src := ml + dst in
    if VFS_PATH_MAX <=? src then Ret (Done (dst, out)) else
    b ← rd norm src;
    if (b =? 0) || (VFS_PATH_MAX <=? dst + 1) then Ret (Done (dst, out)) else
    out ← wr out dst b;
    Ret (Next out)) out;
  match c with
  | Next _ => Fault Diverged
  | Done (dst, out) => if dst =? 0 then put_root out else Ret out
  end.

Definition route (mounts : list MountView) (input : list Z) (input_len : Z) : res (result RouteOut RouteError) :=
  norm ←? normalize input input_len;
  best ← for_n (Z.to_nat VFS_MAX_MOUNTS) 0 (λ i best,
    m ← rd mounts i;
    matches ← (if negb (active m =? 0) then mount_matches (path m) norm else Ret false);
    if (matches : bool) then
      depth ← path_depth (path m);
      Ret (if match best with None => true | Some (_, d) => d <=? depth end then Some (i, depth) else best)
    else Ret best) None;
  match best with
  | None => Ret (Err NoEntry)
  | Some (idx, _) =>
      m ← rd mounts idx;
      rel ← compute_relative (path m) norm;
      Ret (Ok (mk_route 0 1 idx norm rel))
  end.

Definition rabbitbone_rust_vfs_route (mounts : option (list MountView)) (input : option (list Z)) (input_len : Z) (out : option RouteOut) : res (option RouteOut * Z) :=
  match mounts, input, out with
  | Some mounts, Some input, Some _ =>
      if (input_len =? 0) || (VFS_PATH_MAX <? input_len) then Ret (out, ERR_INVAL) else
      r ← route mounts input input_len;
      Ret (match r with Ok v => (Some v, 0) | Err NoEntry => (out, ERR_NOENT) | Err Invalid => (out, ERR_INVAL) end)
  | _, _, _ => Ret (out, ERR_INVAL)
  end.

(** The self test: an array that starts with a string, the mounts of the root and of
    [/disk0], and the calls in turn. *)
Definition padded (s : string) : list Z := bytes_of s ++ replicate (Z.to_nat VFS_PATH_MAX - length (bytes_of s)) 0.

Definition selftest_mounts : list MountView := mk_view 1 (padded "/") :: mk_view 1 (padded "/disk0") :: replicate 14 (mk_view 0 (replicate (Z.to_nat VFS_PATH_MAX) 0)).

Definition selftest_route (input : list Z) (out : RouteOut) : res (RouteOut * Z) :=
  '(o, rc) ← rabbitbone_rust_vfs_route (Some selftest_mounts) (Some input) (zlen input) (Some out); Ret (default out o, rc).

Definition rabbitbone_rust_vfs_route_selftest : res bool :=
  let zero := replicate (Z.to_nat VFS_PATH_MAX) 0 in
  '(out, rc) ← selftest_route (zstr "/disk0/../disk0/hello.txt") (mk_route 99 0 99 zero zero);
  if negb (rc =? 0) || negb (found out =? 1) || negb (mount_index out =? 1) then Ret false else
  n0 ← rd (normalized out) 0; n1 ← rd (normalized out) 1; r0 ← rd (relative out) 0; r1 ← rd (relative out) 1;
  if negb (n0 =? SLASH) || negb (n1 =? 100) || negb (r0 =? SLASH) || negb (r1 =? 104) then Ret false else
  '(out, rc) ← selftest_route (zstr "/disk0") out;
  r0 ← rd (relative out) 0; r1 ← rd (relative out) 1;
  if negb (rc =? 0) || negb (mount_index out =? 1) || negb (r0 =? SLASH) || negb (r1 =? 0) then Ret false else
  '(out, rc) ← selftest_route (zstr "relative/path") out; if negb (rc =? ERR_INVAL) then Ret false else
  '(out, rc) ← selftest_route (zstr "/../../etc") out; if negb (rc =? ERR_INVAL) then Ret false else
  '(out, rc) ← selftest_route (zstr "/disk0/bad\name") out; if negb (rc =? ERR_INVAL) then Ret false else
  '(out, rc) ← selftest_route (concat (replicate 40 [SLASH; 97]) ++ replicate 16 0) out; if negb (rc =? 0) then Ret false else
  if negb (mount_index out =? 0) then Ret false else
  '(out, rc) ← selftest_route (zstr "") out; Ret (rc =? ERR_INVAL).

(** ** The same normal form as [path.c] *)

(** What the C function answers, as a result. *)
Definition of_c {A} (r : A * bool) : result A RouteError := if r.2 then Ok r.1 else Err Invalid.

(** The word of [len] bytes at [start]. *)
Definition word (input : list Z) (start len : Z) : list Z := take (Z.to_nat len) (drop (Z.to_nat start) input).

Lemma word_length input start len : 0 ≤ start → 0 ≤ len → start + len ≤ zlen input → length (word input start len) = Z.to_nat len.
Proof. intros H1 H2 H3. unfold word, zlen in *. rewrite length_take, length_drop. lia. Qed.

Lemma word_lookup input start len k x : 0 ≤ start → word input start len !! k = Some x → rd input (start + Z.of_nat k) = Ret x.
Proof.
  intros H1 Hx. unfold word in Hx. apply lookup_take_Some in Hx as [Hx _]. rewrite lookup_drop in Hx. replace (start + Z.of_nat k) with (Z.of_nat (Z.to_nat start + k)) by lia. rewrite rd_nat. by rewrite Hx.
Qed.

Lemma check_loop input start len : 0 ≤ start → 0 ≤ len → start + len ≤ zlen input →
  loop_n (Z.to_nat len) 0 (λ j (_ : unit), b ← rd input (start + j); Ret (if negb (route_component_byte_allowed b) then Done tt else Next tt)) tt =
  Ret (if forallb path_component_byte_allowed (word input start len) then Next tt else Done tt).
Proof.
  intros H1 H2 H3. rewrite <- (word_length input start len) by done. set (w := word input start len).
  match goal with |- loop_n _ _ ?f _ = _ => destruct (loop_find w (λ _ b, if path_component_byte_allowed b then None else Some tt) f) as [(k & x & [] & Hk & E & -> & _)|[-> Hno]] end.
  - intros k x Hk. rewrite (word_lookup _ _ _ _ _ H1 Hk). mred. change (route_component_byte_allowed x) with (path_component_byte_allowed x). by destruct (path_component_byte_allowed x).
  - destruct (forallb path_component_byte_allowed w) eqn:Ef; [| done]. rewrite forallb_forall in Ef. rewrite (Ef x) in E; [done |]. by apply list_elem_of_In, (list_elem_of_lookup_2 _ k).
  - replace (forallb path_component_byte_allowed w) with true; [done |]. symmetry. apply forallb_forall. intros x Hx. apply list_elem_of_In, list_elem_of_lookup in Hx as [k Hk]. specialize (Hno k x Hk). by destruct (path_component_byte_allowed x).
Qed.

Lemma copy_loop out pos input start len : 0 ≤ start → 0 ≤ len → start + len ≤ zlen input → 0 ≤ pos → pos + len ≤ zlen out →
  for_n (Z.to_nat len) 0 (λ j out, b ← rd input (start + j); wr out (pos + j) b) out = Ret (blit out (Z.to_nat pos) (word input start len)).
Proof.
  intros H1 H2 H3 H4 H5. set (w := word input start len). pose proof (word_length input start len H1 H2 H3) as Hw. fold w in Hw.
  match goal with |- for_n ?n ?i0 ?f ?s = _ => destruct (for_n_inv (λ j o, o = blit out (Z.to_nat pos) (take (Z.to_nat j) w)) f n i0 s) as (o & -> & ->) end.
  - rewrite take_0, blit_nil; [done |]. unfold zlen in *. lia.
  - intros j o Hj ->. destruct (lookup_lt_is_Some_2 w (Z.to_nat j)) as [x Hx]; [lia |]. pose proof (word_lookup _ _ _ _ _ H1 Hx) as E. rewrite Z2Nat.id in E by lia. rewrite E. mred. assert (Hl : length (take (Z.to_nat j) w) = Z.to_nat j) by (rewrite length_take; lia).
    rewrite wr_inbounds by (rewrite blit_zlen; unfold zlen in *; lia). eexists. split; [done |]. replace (Z.to_nat (j + 1)) with (S (Z.to_nat j)) by lia. rewrite (take_S_r _ _ _ Hx), <- blit_snoc by (unfold zlen in *; lia). f_equal. lia.
  - by rewrite take_ge by lia.
Qed.

Lemma append_component_c out pos input start len : zlen out = VFS_PATH_MAX → 1 ≤ pos < VFS_PATH_MAX → 0 ≤ start → 0 < len → start + len ≤ zlen input →
  append_component out pos input start len = (r ← path_append_component out VFS_PATH_MAX pos (drop (Z.to_nat start) input) len; Ret (of_c r)).
Proof.
  intros Hout Hpos Hs Hl Hin. unfold append_component, path_append_component. bfalse (len =? 0). destruct (Z.leb_spec VFS_NAME_MAX len) as [Hn|Hn]; [done |].
  rewrite component_bytes_allowed_spec by (unfold zlen in *; rewrite length_drop; lia). fold (word input start len). mred. set (slash := if 1 <? pos then 1 else 0). assert (Hsl : slash = 0 ∨ slash = 1) by (subst slash; destruct (1 <? pos); auto). unfold VFS_NAME_MAX, VFS_PATH_MAX, add_u64, U64MAX in *.
  btrue (pos + slash <=? 18446744073709551615). btrue (pos + slash + len <=? 18446744073709551615). rewrite check_loop by lia. destruct (Z.leb_spec 256 (pos + slash + len)) as [Hr|Hr].
  - destruct (forallb _ _); cbn [negb]; [| done]. assert ((256 <? slash + len + 1) || (256 - (slash + len + 1) <? pos) = true) as -> by lia. done.
  - mred. destruct (forallb _ _); cbn [negb]; [| done]. assert ((256 <? slash + len + 1) || (256 - (slash + len + 1) <? pos) = false) as -> by lia.
    assert (Hput : ∃ out1, (if negb (slash =? 0) then out ← wr out pos SLASH; Ret (out, pos + slash) else Ret (out, pos)) = Ret (out1, pos + slash) ∧ (if negb (slash =? 0) then out ← wr out pos SLASH; Ret (out, pos + 1) else Ret (out, pos)) = Ret (out1, pos + slash) ∧ zlen out1 = 256).
    { destruct Hsl as [->| ->]; cbn [Z.eqb negb]; [exists out; by rewrite Z.add_0_r |]. rewrite wr_inbounds by lia. mred. eexists. split_and!; [done | done |]. by rewrite zlen_insert. }
    destruct Hput as (out1 & -> & -> & Hz). mred. rewrite copy_loop by lia. rewrite memcpy_at_spec by (unfold zlen in *; rewrite ?length_drop; lia). mred. fold (word input start len). by destruct (wr _ (pos + slash + len) 0).
Qed.

Lemma pop_component_c out pos : pop_component out pos = (r ← path_pop_component out pos; Ret (of_c r)).
Proof.
  unfold pop_component, path_pop_component. destruct (pos <=? 1); [done |]. destruct (back_to_slash _ _ _) as [p|]; [| done]. mred. destruct (if 1 <? p then _ else _) as [q|]; [| done]. mred. by destruct (wr out q 0).
Qed.

Lemma path_fail_returns out : zlen out = VFS_PATH_MAX → ∃ out', path_fail out VFS_PATH_MAX = Ret (out', false).
Proof. intros Hz. unfold path_fail, VFS_PATH_MAX in *. cbn [Z.eqb negb]. rewrite wr_inbounds by lia. mred. eauto. Qed.

Lemma walk_c fuel s junk out st (i : nat) : (i ≤ length s)%nat → out_holds VFS_PATH_MAX out st → zlen out = VFS_PATH_MAX →
  walk fuel (s ++ junk) (zlen s) out (zlen (render st)) (Z.of_nat i) = (r ← normalize_loop fuel (s ++ junk) (zlen s) out VFS_PATH_MAX (zlen (render st)) (Z.of_nat i); Ret (of_c r)).
Proof.
  revert i out st. induction fuel as [|fuel IH]; intros i out st Hi Ho Hz; cbn [walk normalize_loop]; (destruct (Z.leb_spec (zlen s) (Z.of_nat i)) as [Hend|Hend]; [done |]); [done |]. destruct (split_turn s i) as (Hlt & Hlw & Hnw & _); [unfold zlen in *; lia |].
  rewrite !scan_while_spec by (unfold zlen; lia). mred. set (n1 := prefix_len is_slash (drop i s)) in *. rewrite !scan_while_spec by (unfold zlen; lia). mred. set (n2 := prefix_len (λ c, negb (is_slash c)) (drop (i + n1) s)) in *. set (w := take n2 (drop (i + n1) s)) in *.
  replace (Z.of_nat (i + n1 + n2) - Z.of_nat (i + n1)) with (Z.of_nat n2) by lia. destruct (decide (n2 = O)) as [E0|E0]; [rewrite E0; cbn [Z.of_nat Z.eqb]; mred; rewrite Nat.add_0_r; apply IH; [lia | done | done] |].
  destruct (if Z.of_nat n2 =? 0 then _ else _) as [[]|]; mred; [apply IH; [lia | done | done] | | done]. destruct (if Z.of_nat n2 =? 2 then _ else _) as [[]|]; mred; [| | done]; unfold try.
  - rewrite pop_component_c. destruct st as [|c0 st0] eqn:Est.
    + unfold path_pop_component. change (zlen (render []) <=? 1) with true. cbn iota. mred. cbn [of_c snd fst]. destruct (path_fail_returns out Hz) as (out' & ->). done.
    + rewrite <- Est in *. destruct (path_pop_component_spec VFS_PATH_MAX out st Ho) as (out1 & -> & Hz1 & Ho1); [by subst |]. mred. cbn [of_c snd fst]. apply IH; [lia | done | lia].
  - destruct Ho as (Hj & Hsz & Hfit & Hst). assert (Hpos : 1 ≤ zlen (render st)) by (destruct st; cbn [render]; [by rewrite zlen_1 |]; cbn [map concat app]; rewrite zlen_cons; match goal with |- _ ≤ 1 + zlen ?l => pose proof (zlen_nonneg l) end; lia).
    assert (Hin : Z.of_nat (i + n1) + Z.of_nat n2 ≤ zlen (s ++ junk)) by (rewrite zlen_app; pose proof (zlen_nonneg junk); unfold zlen in *; lia). rewrite append_component_c by lia.
    pose proof (path_append_component_spec VFS_PATH_MAX out st (drop (Z.to_nat (Z.of_nat (i + n1))) (s ++ junk)) (Z.of_nat n2) (conj Hj (conj Hsz (conj Hfit Hst)))) as Happ.
    rewrite Nat2Z.id in Happ |- *. rewrite drop_app_le in Happ |- * by lia. rewrite Nat2Z.id, take_app_le in Happ by (rewrite length_drop; lia). fold w in Happ. specialize (Happ ltac:(unfold zlen; rewrite length_app, length_drop; lia) Hnw). cbn zeta in Happ.
    destruct (comp_allowed w && (zlen (render (st ++ [w])) <? VFS_PATH_MAX)).
    + destruct Happ as (out1 & -> & Hz1 & Ho1). mred. cbn [of_c snd fst]. apply IH; [lia | done | lia].
    + rewrite Happ. mred. cbn [of_c snd fst]. destruct (path_fail_returns out Hz) as (out' & ->). done.
Qed.

(** ** Strings in slices *)

(** The string in a slice of [len] bytes: up to a zero, or all of it. *)
Definition slice_str (input : list Z) (len : Z) (s : list Z) : Prop := nonul s ∧ ∃ rest, input = s ++ rest ∧ (len = zlen s ∨ zlen s < len ∧ ∃ t, rest = 0 :: t).

Lemma scan_nul fuel input len s (i : nat) : slice_str input len s → (i ≤ length s)%nat → (length s - i ≤ fuel)%nat → scan_while fuel not_nul input (Z.of_nat i) len = Ret (zlen s).
Proof.
  intros (Hs & rest & -> & Hlen). revert i. induction fuel as [|fuel IH]; intros i Hi Hf; cbn [scan_while].
  - assert (Ei : Z.of_nat i = zlen s) by (unfold zlen; lia). rewrite Ei. destruct Hlen as [->|[Hlt [t ->]]]; [by rewrite Z.leb_refl |]. bfalse (len <=? zlen s). rewrite rd_app_r, Z.sub_diag by lia. rewrite rd_cons_0. done.
  - destruct (decide (i = length s)) as [->|Hne].
    + change (Z.of_nat (length s)) with (zlen s). destruct Hlen as [->|[Hlt [t ->]]]; [by rewrite Z.leb_refl |]. bfalse (len <=? zlen s). rewrite rd_app_r, Z.sub_diag by lia. rewrite rd_cons_0. done.
    + assert (Hl : Z.of_nat i < len) by (unfold zlen in *; lia). bfalse (len <=? Z.of_nat i). destruct (lookup_lt_is_Some_2 s i) as [c Hc]; [lia |]. rewrite rd_nat, (lookup_app_l_Some _ _ _ _ Hc). mred. pose proof (Forall_lookup_1 _ _ _ _ Hs Hc) as Hc0. cbn in Hc0. unfold not_nul. rewrite (proj2 (Z.eqb_neq c 0) Hc0). cbn [negb].
      replace (Z.of_nat i + 1) with (Z.of_nat (S i)) by lia. apply IH; lia.
Qed.

Lemma cstr_len_slice input len s : slice_str input len s → cstr_len input len = Ret (zlen s).
Proof. intros Hs. apply (scan_nul _ _ _ s 0 Hs); [lia |]. destruct Hs as (_ & ? & _ & Hl). unfold zlen in *. lia. Qed.

(** An array of the size of a path that holds the string [s]. *)
Definition holds (a s : list Z) : Prop := zlen a = VFS_PATH_MAX ∧ nonul s ∧ ∃ junk, a = s ++ 0 :: junk.

Lemma holds_slice a s : holds a s → slice_str a VFS_PATH_MAX s.
Proof. intros (Hz & Hs & junk & ->). split; [done |]. exists (0 :: junk). split; [done |]. right. rewrite zlen_app, zlen_cons in Hz. pose proof (zlen_nonneg junk). split; [lia | eauto]. Qed.

Lemma fixed_len a s : holds a s → fixed_cstr_len a = Ret (zlen s).
Proof. intros Hh. exact (cstr_len_slice _ _ _ (holds_slice _ _ Hh)). Qed.

Lemma holds_rd a s i x : holds a s → s !! i = Some x → rd a (Z.of_nat i) = Ret x.
Proof. intros (_ & _ & junk & ->) Hx. rewrite rd_nat. by rewrite (lookup_app_l_Some _ _ _ _ Hx). Qed.

Lemma holds_end a s : holds a s → rd a (zlen s) = Ret 0 ∧ zlen s < VFS_PATH_MAX.
Proof. intros (Hz & _ & junk & ->). rewrite zlen_app, zlen_cons in Hz. pose proof (zlen_nonneg junk). split; [| lia]. rewrite rd_app_r, Z.sub_diag by lia. apply rd_cons_0. Qed.

Lemma normalize_spec input len s : slice_str input len s → len ≤ VFS_PATH_MAX →
  ∃ r, normalize input len = Ret r ∧ match normal_form VFS_PATH_MAX s with Some n => ∃ out, r = Ok out ∧ holds out n | None => r = Err Invalid end.
Proof.
  intros Hs Hmax. unfold normalize. rewrite (cstr_len_slice _ _ _ Hs). mred. destruct Hs as (Hnn & rest & -> & _). pose proof (zlen_nonneg s). unfold normal_form. destruct s as [|c s0] eqn:Es; [by exists (Err Invalid) |]. rewrite <- Es in *. assert (Hz : zlen s ≠ 0) by (rewrite Es, zlen_cons; pose proof (zlen_nonneg s0); lia). bfalse (zlen s =? 0). cbn [orb].
  destruct (Z.ltb_spec (zlen s) VFS_PATH_MAX) as [Hl|Hl]; [bfalse (VFS_PATH_MAX <=? zlen s) | btrue (VFS_PATH_MAX <=? zlen s); rewrite andb_false_r; by exists (Err Invalid)]. rewrite andb_true_r. assert (Hrd : rd (s ++ rest) 0 = Ret c) by (by rewrite Es). rewrite Hrd. mred. fold (is_slash c). destruct (is_slash c) eqn:Ec; cbn [negb]; [| by exists (Err Invalid)].
  change (wr (replicate (Z.to_nat VFS_PATH_MAX) 0) 0 SLASH) with (@Ret (list Z) (SLASH :: replicate 255 0)). mred. change (wr (SLASH :: replicate 255 0) 1 0) with (@Ret (list Z) (SLASH :: replicate 255 0)). mred.
  assert (Ho : out_holds VFS_PATH_MAX (SLASH :: replicate 255 0) []) by (split_and!; [by exists (replicate 254 0) | done | done | constructor]). pose proof (walk_c (Z.to_nat (zlen s)) s rest (SLASH :: replicate 255 0) [] 0 ltac:(lia) Ho eq_refl) as Hw. change (zlen (render [])) with 1 in Hw. change (Z.of_nat 0) with 0 in Hw. rewrite Hw.
  destruct (normalize_loop_spec (Z.to_nat (zlen s)) s rest VFS_PATH_MAX (SLASH :: replicate 255 0) [] 0 ltac:(done) ltac:(lia) ltac:(unfold zlen; lia) Ho) as (out' & b & Hrun & Hlen & Hres). change (zlen (render [])) with 1 in Hrun. change (Z.of_nat 0) with 0 in Hrun. rewrite Hrun. mred. rewrite drop_0 in Hres.
  pose proof (resolve_good VFS_PATH_MAX [] (components s)) as Hgood. eexists. split; [done |]. destruct (resolve VFS_PATH_MAX [] (components s)) as [st|]; cbn [fmap option_fmap option_map].
  - destruct Hres as [-> ((j & ->) & _)]. exists (render st ++ 0 :: j). split; [done |]. split; [by rewrite Hlen |]. split; [| eauto]. apply render_nonul, (Hgood st); [apply components_good | done | done].
  - by destruct Hres as [-> _].
Qed.

(** ** Mounts *)

(** The components below a mount. *)
Lemma render_app mc k : mc ≠ [] → render (mc ++ k) = render mc ++ concat (map (cons SLASH) k).
Proof. intros Hne. rewrite <- !concat_slash_ne by (done || by destruct mc). by rewrite map_app, concat_app. Qed.

Lemma components_app mc rest : Forall good_comp mc → mc ≠ [] → at_end rest → components (render mc ++ rest) = mc ++ components rest.
Proof.
  intros Hg Hne Hr. rewrite <- concat_slash_ne by done. clear Hne. induction Hg as [|c mc (Hc & Hns & _) Hg IH]; [done |]. cbn [map concat app]. rewrite components_slash by done. rewrite <- app_assoc, components_word; [by rewrite IH | done | done |]. by destruct mc.
Qed.

Lemma render_root mc : Forall good_comp mc → (zlen (render mc) = 1 ↔ mc = []) ∧ 1 ≤ zlen (render mc) ∧ head (render mc) = Some SLASH.
Proof.
  intros Hg. pose proof (render_ge1 mc ltac:(eapply Forall_impl; [exact Hg |]; by intros c [? _])) as H. case_decide as E; [subst mc; by rewrite H |]. split_and!; [split; [lia | done] | lia |]. by destruct mc.
Qed.

Lemma root_test a mc : Forall good_comp mc → holds a (render mc) → (if zlen (render mc) =? 1 then c ← rd a 0; Ret (c =? SLASH) else Ret false) = Ret (bool_decide (mc = [])).
Proof.
  intros Hg Hh. destruct (render_root mc Hg) as ([H1 H2] & _ & H3). destruct (Z.eqb_spec (zlen (render mc)) 1) as [E|E]; [| rewrite bool_decide_false; [done |]; by intros ->]. rewrite bool_decide_true by auto. rewrite head_lookup in H3. pose proof (holds_rd a _ 0 _ Hh H3) as R. change (Z.of_nat 0) with 0 in R. by rewrite R.
Qed.

(** The beginning of [b] is [a]. *)
Lemma compare_loop a b sa sb : holds a sa → holds b sb → zlen sa ≤ zlen sb →
  loop_n (Z.to_nat (zlen sa)) 0 (λ i (_ : unit), x ← rd a i; y ← rd b i; Ret (if negb (x =? y) then Done tt else Next tt)) tt = Ret (if decide (take (length sa) sb = sa) then Next tt else Done tt).
Proof.
  intros Ha Hb Hl. unfold zlen at 1. rewrite Nat2Z.id. match goal with |- loop_n _ _ ?f _ = _ => destruct (loop_find sa (λ k x, if bool_decide (sb !! Z.to_nat k = Some x) then None else Some tt) f) as [(k & x & [] & Hk & E & -> & _)|[-> Hno]] end.
  - intros k x Hk. rewrite (holds_rd a sa k x Ha Hk). mred. destruct (lookup_lt_is_Some_2 sb k) as [y Hy]; [apply lookup_lt_Some in Hk; unfold zlen in *; lia |]. rewrite (holds_rd b sb k y Hb Hy). mred. rewrite Nat2Z.id, Hy. destruct (Z.eqb_spec x y) as [->|Hne]; cbn [negb]; [by rewrite bool_decide_true | rewrite bool_decide_false; [done | congruence]].
  - case_bool_decide as Hs; [done |]. rewrite Nat2Z.id in Hs. rewrite decide_False; [done |]. intros Et. apply Hs. rewrite <- Et in Hk. by apply lookup_take_Some in Hk as [? _].
  - rewrite decide_True; [done |]. apply list_eq. intros k. destruct (sa !! k) as [x|] eqn:Ex.
    + specialize (Hno k x Ex). case_bool_decide as Hs; [| done]. rewrite Nat2Z.id in Hs. rewrite lookup_take_lt by (by eapply lookup_lt_Some). done.
    + apply lookup_ge_None in Ex. apply lookup_ge_None. rewrite length_take. lia.
Qed.

#[local] Instance at_end_dec rest : Decision (at_end rest).
Proof. destruct rest; apply _. Defined.

Lemma mount_matches_spec a b mc nc : Forall good_comp mc → Forall good_comp nc → holds a (render mc) → holds b (render nc) → mount_matches a b = Ret (bool_decide (mc `prefix_of` nc)).
Proof.
  intros Hm Hn Ha Hb. unfold mount_matches. rewrite (fixed_len a _ Ha). mred. destruct (render_root mc Hm) as (_ & Hz & _). bfalse (zlen (render mc) =? 0). rewrite (root_test a mc Hm Ha). mred. case_bool_decide as Hmc; [subst mc; rewrite bool_decide_true; [done | apply prefix_nil] |].
  rewrite (fixed_len b _ Hb). mred. assert (Hpre : mc `prefix_of` nc → ∃ k, render nc = render mc ++ concat (map (cons SLASH) k)) by (intros [k ->]; exists k; by apply render_app).
  destruct (Z.ltb_spec (zlen (render nc)) (zlen (render mc))) as [Hlt|Hle]; [rewrite bool_decide_false; [done |]; intros [k E]%Hpre; rewrite E, zlen_app in Hlt; match goal with H : _ + zlen ?l < _ |- _ => pose proof (zlen_nonneg l) end; lia |].
  rewrite (compare_loop a b _ _ Ha Hb Hle). mred. case_decide as Et; [| rewrite bool_decide_false; [done |]; intros [k E]%Hpre; apply Et; by rewrite E, take_app_length].
  set (rest := drop (length (render mc)) (render nc)). assert (Er : render nc = render mc ++ rest) by (unfold rest; rewrite <- Et at 1; by rewrite take_drop).
  assert (Hc : ∃ c, rd b (zlen (render mc)) = Ret c ∧ ((c =? 0) || (c =? SLASH)) = bool_decide (at_end rest)).
  { destruct rest as [|c t] eqn:Erest.
    - exists 0. rewrite app_nil_r in Er. rewrite <- Er. split; [by apply (holds_end b _ Hb) |]. done.
    - exists c. split; [change (zlen (render mc)) with (Z.of_nat (length (render mc))); apply (holds_rd b (render nc)); [done |]; rewrite Er, lookup_app_r, Nat.sub_diag by lia; done |]. pose proof (render_nonul nc Hn) as Hnn. rewrite Er in Hnn. apply Forall_app in Hnn as [_ [Hc0 _]%Forall_cons].
      rewrite (proj2 (Z.eqb_neq c 0) Hc0). cbn [orb]. destruct (c =? SLASH) eqn:Ec; [by rewrite bool_decide_true | rewrite bool_decide_false; [done |]]. cbn [at_end]. unfold is_slash. by rewrite Ec. }
  destruct Hc as (c & -> & Hc). mred. rewrite Hc. f_equal. apply bool_decide_ext. split.
  - intros Hend. exists (components rest). rewrite <- (components_render nc Hn), Er. by apply components_app.
  - intros [k ->]. rewrite (render_app mc k Hmc) in Er. apply app_inv_head in Er as <-. by destruct k.
Qed.

(** The loop that counts components. *)
Definition depth_inv (p : list Z) (s : Z * bool) : Prop :=
  ∃ cs cur, split_slash p = cs ++ [cur] ∧ s.1 = zlen (filter (λ c, c ≠ []) (cs ++ [cur])) ∧ s.2 = negb (bool_decide (cur = [])).

Lemma depth_step p c d inside : depth_inv p (d, inside) → depth_inv (p ++ [c]) (if c =? SLASH then (d, false) else if negb inside then (d + 1, true) else (d, inside)).
Proof.
  intros (cs & cur & Hs & Hd & Hin). cbn [fst snd] in *. pose proof (split_slash_snoc p c cs cur Hs) as Hsn. fold (is_slash c). destruct (is_slash c).
  - exists (cs ++ [cur]), []. cbn [fst snd]. split_and!; [by rewrite Hsn, <- app_assoc | | done]. rewrite Hd. f_equal. rewrite (filter_app _ (cs ++ [cur]) [[]]). rewrite (filter_cons_False _ []) by (intros H; by apply H). by rewrite filter_nil, app_nil_r.
  - exists cs, (cur ++ [c]). rewrite filter_app in *. rewrite (filter_cons_True _ (cur ++ [c])) by (by destruct cur). rewrite filter_nil in *. rewrite zlen_app, zlen_1. destruct inside; cbn [negb fst snd] in *; (case_bool_decide as Hc; [try done | try done]).
    + rewrite filter_cons_True in Hd by done. rewrite filter_nil, zlen_app, zlen_1 in Hd. split_and!; [done | done |]. by destruct cur.
    + subst cur. rewrite filter_cons_False in Hd by (intros H; by apply H). rewrite filter_nil, app_nil_r in Hd. split_and!; [done | lia | done].
Qed.

Lemma path_depth_spec a mc : Forall good_comp mc → holds a (render mc) → path_depth a = Ret (zlen mc).
Proof.
  intros Hg Hh. unfold path_depth. rewrite (fixed_len a _ Hh). mred. rewrite (root_test a mc Hg Hh). mred. case_bool_decide as Hmc; [by subst mc |].
  match goal with |- context [for_n ?n ?i0 ?f ?s] => destruct (for_n_inv (λ i st, depth_inv (take (Z.to_nat i) (render mc)) st) f n i0 s) as ([d inside] & -> & cs & cur & Hs & Hd & _) end.
  - by exists [], [].
  - intros i [d inside] Hi Hinv. destruct (lookup_lt_is_Some_2 (render mc) (Z.to_nat i)) as [c Hc]; [unfold zlen in *; lia |]. pose proof (holds_rd a _ _ _ Hh Hc) as R. rewrite Z2Nat.id in R by lia. rewrite R. mred. eexists. split; [done |]. replace (Z.to_nat (i + 1)) with (S (Z.to_nat i)) by lia. rewrite (take_S_r _ _ _ Hc). by apply depth_step.
  - mred. cbn [fst] in Hd. rewrite Hd. f_equal. rewrite <- Hs, take_ge by (unfold zlen; lia). fold (components (render mc)). by rewrite components_render.
Qed.

(** What is left of the path below the mount. *)
Lemma compute_relative_spec a b mc k : Forall good_comp mc → Forall good_comp k → holds a (render mc) → holds b (render (mc ++ k)) → ∃ out, compute_relative a b = Ret out ∧ holds out (render k).
Proof.
  intros Hm Hk Ha Hb. unfold compute_relative. rewrite (fixed_len a _ Ha). mred. rewrite (root_test a mc Hm Ha). mred. case_bool_decide as Hmc; [subst mc; by exists b |]. pose proof (holds_end a _ Ha) as [_ Hlt]. btrue (zlen (render mc) <? VFS_PATH_MAX). rewrite (render_app mc k Hmc) in Hb.
  destruct (decide (k = [])) as [->|Hkn].
  - cbn [map concat] in Hb. rewrite app_nil_r in Hb. rewrite (proj1 (holds_end b _ Hb)). mred. exists (SLASH :: replicate 255 0). split; [done |]. split; [done |]. split; [by repeat constructor | by exists (replicate 254 0)].
  - rewrite concat_slash_ne in Hb by done. set (s := render k) in *. assert (Hs : nonul s) by by apply render_nonul. destruct (render_root k Hk) as (_ & Hs1 & Hs0). fold s in Hs1, Hs0. pose proof (holds_end b _ Hb) as [Hb0 Hfit]. rewrite zlen_app in Hb0, Hfit. pose proof (zlen_nonneg (render mc)) as Hm0.
    assert (Hrd : ∀ i x, s !! i = Some x → rd b (zlen (render mc) + Z.of_nat i) = Ret x). { intros i x Hx. replace (zlen (render mc) + Z.of_nat i) with (Z.of_nat (length (render mc) + i)) by (unfold zlen; lia). apply (holds_rd b _ _ _ Hb). rewrite lookup_app_r by lia. by replace (length (render mc) + i - length (render mc))%nat with i by lia. }
    rewrite head_lookup in Hs0. pose proof (Hrd O _ Hs0) as R0. rewrite Z.add_0_r in R0. rewrite R0. mred. change (SLASH =? 0) with false. cbn iota.
    match goal with |- context [loop_n ?n ?i0 ?f ?t] => destruct (loop_n_inv (λ i out, out = take (Z.to_nat i) s ++ replicate (256 - Z.to_nat i) 0 ∧ i ≤ zlen s) (λ r, r.1 = zlen s ∧ r.2 = s ++ replicate (256 - length s) 0) f n i0 t) as [(out & -> & _ & Hi)|([dst out] & -> & Edst & Eout)] end.
    + split; [done | lia].
    + intros i out Hi [-> Hle]. cbv zeta. unfold VFS_PATH_MAX in *. destruct (decide (i = zlen s)) as [->|Hne].
      * right. bfalse (256 <=? zlen (render mc) + zlen s). rewrite Hb0. mred. cbn [Z.eqb orb]. eexists. split; [done |]. cbn [fst snd]. split; [done |]. unfold zlen. rewrite Nat2Z.id, take_ge by lia. done.
      * left. bfalse (256 <=? zlen (render mc) + i). destruct (lookup_lt_is_Some_2 s (Z.to_nat i)) as [x Hx]; [unfold zlen in *; lia |]. pose proof (Hrd _ _ Hx) as R. rewrite Z2Nat.id in R by lia. rewrite R. mred. pose proof (Forall_lookup_1 _ _ _ _ Hs Hx) as Hx0. cbn in Hx0. rewrite (proj2 (Z.eqb_neq x 0) Hx0). bfalse (256 <=? i + 1). cbn [orb].
        assert (Ht : length (take (Z.to_nat i) s) = Z.to_nat i) by (rewrite length_take; unfold zlen in *; lia). replace (256 - Z.to_nat i)%nat with (S (255 - Z.to_nat i)) by lia. cbn [replicate]. pose proof (wr_middle (take (Z.to_nat i) s) (0 :: replicate (255 - Z.to_nat i) 0) x ltac:(done)) as W. assert (Ez : zlen (take (Z.to_nat i) s) = i) by (unfold zlen; lia). rewrite Ez in W. rewrite W. mred. eexists. split; [done |].
        split; [| lia]. replace (Z.to_nat (i + 1)) with (S (Z.to_nat i)) by lia. rewrite (take_S_r _ _ _ Hx), <- app_assoc. rewrite skipn_cons, drop_0. by replace (256 - S (Z.to_nat i))%nat with (255 - Z.to_nat i)%nat by lia.
    + exfalso. unfold VFS_PATH_MAX in *. pose proof (zlen_nonneg (render mc)). lia.
    + mred. cbn [fst snd] in *. subst dst out. bfalse (zlen s =? 0). eexists. split; [done |]. unfold VFS_PATH_MAX in *. pose proof (zlen_nonneg (render mc)). assert (length s < 256)%nat by (unfold zlen in *; lia). split; [rewrite zlen_app, zlen_replicate; unfold zlen, VFS_PATH_MAX; lia |]. split; [done |]. exists (replicate (255 - length s) 0). by replace (256 - length s)%nat with (S (255 - length s)) by lia.
Qed.

(** ** Routing *)

(** The table shows the mounts [ms]: in each slot the components of a mount, or none. *)
Definition view_is (v : MountView) (m : option (list (list Z))) : Prop :=
  match m with Some mc => active v ≠ 0 ∧ Forall good_comp mc ∧ holds (path v) (render mc) | None => active v = 0 end.

Definition mounts_are (mounts : list MountView) (ms : list (option (list (list Z)))) : Prop := zlen mounts = VFS_MAX_MOUNTS ∧ Forall2 view_is mounts ms.

(** Slot [j] of the first [n] holds a mount [mc] above the path [nc]. *)
Definition above (ms : list (option (list (list Z)))) (nc : list (list Z)) (n : Z) (j : nat) (mc : list (list Z)) : Prop := ms !! j = Some (Some mc) ∧ mc `prefix_of` nc ∧ Z.of_nat j < n.

(** [mc] in slot [k] is the deepest, and among those as deep the last. *)
Definition deepest ms nc n (k : nat) mc : Prop := above ms nc n k mc ∧ ∀ j mc', above ms nc n j mc' → zlen mc' ≤ zlen mc ∧ (zlen mc' = zlen mc → (j ≤ k)%nat).

Definition best_is ms nc n (best : option (Z * Z)) : Prop :=
  match best with
  | None => ∀ j mc, ¬ above ms nc n j mc
  | Some (k, d) => ∃ k' mc, k = Z.of_nat k' ∧ d = zlen mc ∧ deepest ms nc n k' mc
  end.

Lemma above_next ms nc n j mc : 0 ≤ n → above ms nc (n + 1) j mc → above ms nc n j mc ∨ j = Z.to_nat n ∧ ms !! Z.to_nat n = Some (Some mc) ∧ mc `prefix_of` nc.
Proof. intros Hn (H1 & H2 & H3). destruct (decide (Z.of_nat j < n)) as [|Hge]; [by left | right]. assert (j = Z.to_nat n) as -> by lia. done. Qed.

Lemma above_mono ms nc n j mc : above ms nc n j mc → above ms nc (n + 1) j mc.
Proof. intros (? & ? & ?). split_and!; [done | done | lia]. Qed.

Lemma best_skip ms nc n best : 0 ≤ n → best_is ms nc n best → (∀ mc, ms !! Z.to_nat n = Some (Some mc) → ¬ mc `prefix_of` nc) → best_is ms nc (n + 1) best.
Proof.
  intros Hn Hb Hskip. assert (Hsame : ∀ j mc, above ms nc (n + 1) j mc → above ms nc n j mc) by (intros j mc [?|(-> & H1 & H2)]%above_next; [done | by destruct (Hskip mc) | done]). destruct best as [[k d]|]; cbn in *.
  - destruct Hb as (k' & mc & -> & -> & Ha & Hmax). exists k', mc. split_and!; [done | done |]. split; [by apply above_mono |]. intros j mc' H. by apply Hmax, Hsame.
  - intros j mc H. by apply (Hb j mc), Hsame.
Qed.

Lemma best_take ms nc n best mc : 0 ≤ n → best_is ms nc n best → ms !! Z.to_nat n = Some (Some mc) → mc `prefix_of` nc →
  best_is ms nc (n + 1) (if match best with None => true | Some (_, d) => d <=? zlen mc end then Some (n, zlen mc) else best).
Proof.
  intros Hn Hb Hm Hp. assert (Ha : above ms nc (n + 1) (Z.to_nat n) mc) by (split_and!; [done | done | lia]). assert (Hnew : (∀ j mc', above ms nc n j mc' → zlen mc' ≤ zlen mc) → best_is ms nc (n + 1) (Some (n, zlen mc))).
  { intros Hmax. exists (Z.to_nat n), mc. split_and!; [lia | done |]. split; [done |]. intros j mc' [H|(-> & H1 & _)]%above_next; [| rewrite Hm in H1; by injection H1 as <- | done]. split; [by apply (Hmax j) | intros _; destruct H as (_ & _ & ?); lia]. }
  destruct best as [[k d]|]; [| apply Hnew; intros j mc' H; by destruct (Hb j mc')]. destruct Hb as (k' & mc0 & -> & -> & Ha0 & Hmax0). destruct (Z.leb_spec (zlen mc0) (zlen mc)) as [Hle|Hlt].
  - apply Hnew. intros j mc' H. pose proof (proj1 (Hmax0 j mc' H)). lia.
  - exists k', mc0. split_and!; [done | done |]. split; [by apply above_mono |]. intros j mc' [H|(-> & H1 & _)]%above_next; [by apply Hmax0 | | done]. rewrite Hm in H1. injection H1 as <-. lia.
Qed.

Lemma route_spec mounts ms input len s : mounts_are mounts ms → slice_str input len s → len ≤ VFS_PATH_MAX →
  ∃ r, route mounts input len = Ret r ∧
    match normal_form VFS_PATH_MAX s with
    | None => r = Err Invalid
    | Some n =>
        (r = Err NoEntry ∧ ∀ j mc, ¬ above ms (components n) VFS_MAX_MOUNTS j mc) ∨
        ∃ k mc o, r = Ok o ∧ deepest ms (components n) VFS_MAX_MOUNTS k mc ∧ status o = 0 ∧ found o = 1 ∧ mount_index o = Z.of_nat k ∧ holds (normalized o) n ∧ holds (relative o) (render (drop (length mc) (components n)))
    end.
Proof.
  intros [Hlen Hms] Hs Hmax. unfold route, try. destruct (normalize_spec input len s Hs Hmax) as (r & -> & Hr). mred. destruct (normal_form VFS_PATH_MAX s) as [n|] eqn:En; [| subst r; by eexists]. destruct Hr as (norm & -> & Hnorm). destruct (normal_form_good _ _ _ En) as (nc & Hgood & ->). rewrite components_render by done.
  match goal with |- context [for_n ?n ?i0 ?f ?t] => destruct (for_n_inv (λ i best, best_is ms nc i best) f n i0 t) as (best & -> & Hbest) end.
  - intros j mc (_ & _ & ?). lia.
  - intros i best Hi Hb. destruct (rd_inbounds mounts i) as [v Hv]; [unfold VFS_MAX_MOUNTS in *; lia |]. rewrite Hv. mred. apply rd_Ret in Hv as [Hi0 Hv]. destruct (Forall2_lookup_l _ _ _ _ _ Hms Hv) as (m & Hm & Hvm). destruct m as [mc|]; cbn [view_is] in Hvm.
    + destruct Hvm as (Hact & Hg & Hp). rewrite (proj2 (Z.eqb_neq _ 0) Hact). cbn [negb]. rewrite (mount_matches_spec _ _ mc nc Hg Hgood Hp Hnorm). mred. case_bool_decide as Hpre.
      * rewrite (path_depth_spec _ mc Hg Hp). mred. eexists. split; [done |]. by apply best_take.
      * eexists. split; [done |]. apply best_skip; [done | done |]. intros mc' E. congruence.
    + rewrite Hvm. cbn [Z.eqb negb]. mred. eexists. split; [done |]. apply best_skip; [done | done |]. congruence.
  - mred. change (0 + Z.of_nat (Z.to_nat VFS_MAX_MOUNTS)) with VFS_MAX_MOUNTS in Hbest. destruct best as [[k d]|]; [| exists (Err NoEntry); split; [done |]; by left]. destruct Hbest as (k' & mc & -> & -> & Hdeep). destruct Hdeep as [(Hm & [rest Hrest] & Hk) Hmx] eqn:Hd. clear Hd.
    destruct (Forall2_lookup_r _ _ _ _ _ Hms Hm) as (v & Hv & Hact & Hg & Hp). rewrite rd_nat, Hv. mred. assert (Hgr : Forall good_comp rest) by (rewrite Hrest in Hgood; by apply Forall_app in Hgood as [_ ?]). rewrite Hrest in Hnorm. destruct (compute_relative_spec _ _ mc rest Hg Hgr Hp Hnorm) as (rel & -> & Hrel). mred.
    eexists. split; [done |]. right. exists k', mc, (mk_route 0 1 (Z.of_nat k') norm rel). split_and!; try done; cbn [normalized relative].
    + by rewrite Hrest.
    + by rewrite Hrest, drop_app_length.
Qed.

(** Routing a path returns: [VFS_ERR_INVAL] exactly for paths without a normal form (that of [path.c]),
    [VFS_ERR_NOENT] exactly when no mount lies above the normal form, and otherwise the deepest mount above it, the
    last one of those mounted at the same place, with the normal form and the path below the mount.  On an error
    the result is left as it was. *)
Theorem vfs_route_correct mounts ms input len s out :
  mounts_are mounts ms → slice_str input len s → 0 < len ≤ VFS_PATH_MAX →
  ∃ out' rc, rabbitbone_rust_vfs_route (Some mounts) (Some input) len (Some out) = Ret (Some out', rc) ∧
    match normal_form VFS_PATH_MAX s with
    | None => rc = ERR_INVAL ∧ out' = out
    | Some n =>
        (rc = ERR_NOENT ∧ out' = out ∧ ∀ j mc, ¬ above ms (components n) VFS_MAX_MOUNTS j mc) ∨
        ∃ k mc, rc = 0 ∧ deepest ms (components n) VFS_MAX_MOUNTS k mc ∧ status out' = 0 ∧ found out' = 1 ∧ mount_index out' = Z.of_nat k ∧ holds (normalized out') n ∧ holds (relative out') (render (drop (length mc) (components n)))
    end.
Proof.
  intros Hm Hs Hlen. unfold rabbitbone_rust_vfs_route. bfalse (len =? 0). bfalse (VFS_PATH_MAX <? len). cbn [orb]. destruct (route_spec mounts ms input len s Hm Hs ltac:(lia)) as (r & -> & Hr). mred. destruct (normal_form VFS_PATH_MAX s) as [n|]; [| subst r; by eexists _, _].
  destruct Hr as [[-> Hno]|(k & mc & o & -> & Hr)]; [exists out, ERR_NOENT | exists o, 0]; (split; [done |]); [by left | right]. by exists k, mc.
Qed.

(** The mounts of the self test as components. *)
Definition sample_mounts : list (option (list (list Z))) := Some [] :: Some [bytes_of "disk0"] :: replicate 14 None.

Lemma sample_mounts_are : mounts_are selftest_mounts sample_mounts.
Proof.
  split; [done |]. apply Forall2_cons. split; [split_and!; [done | constructor |] |].
  - split; [done |]. split; [by repeat constructor | by exists (replicate 254 0)].
  - apply Forall2_cons. split; [split_and!; [done | by repeat constructor |] |]; [split; [done |]; split; [by repeat constructor | by exists (replicate 249 0)] |]. by apply Forall2_replicate.
Qed.

Lemma vfs_route_correct_witness : ∃ out' rc, rabbitbone_rust_vfs_route (Some selftest_mounts) (Some (zstr "/disk0/../disk0//a")) 19 (Some (mk_route 0 0 0 [] [])) = Ret (Some out', rc) ∧ rc = 0 ∧ mount_index out' = 1 ∧ holds (relative out') (bytes_of "/a").
Proof.
  destruct (vfs_route_correct selftest_mounts sample_mounts (zstr "/disk0/../disk0//a") 19 (bytes_of "/disk0/../disk0//a") (mk_route 0 0 0 [] []) sample_mounts_are) as (out' & rc & E & H); [split; [by repeat constructor |]; exists [0]; split; [done | right; split; [done | by exists []]] | done |].
  exists out', rc. split; [exact E |]. vm_compute in E. injection E as <- <-. split; [done |]. split; [done |]. split; [done |]. split; [by repeat constructor |]. by eexists.
Defined.

Lemma vfs_route_selftest_passes : rabbitbone_rust_vfs_route_selftest = Ret true.
Proof. vm_compute. reflexivity. Qed.
